(* ===== verification/_CoqProject ===== *)
-Q . S2P
Prelude.v
Utf8.v
Paths.v
Vfs.v
Tree.v
RamFs.v
RamFsProofs.v
FsLaws.v
RamFsLaws.v
Ring3.v
Ring3Proofs.v
Elf.v
ElfProofs.v
AddrSpace.v
AddrSpaceProofs.v
PageTables.v
PageTablesProofs.v
Heap.v
HeapProofs.v
FixedHeap.v
Sync.v
PrivateTables.v
PrivateMem.v
PrivateProcess.v
UserAccess.v
Threads.v
Program.v
Ipc.v
IpcProofs.v
Process.v
TableSafety.v
Views.v
Scheduling.v
Signals.v
Lifecycle.v
ProcessSpec.v
ThreadSpec.v
Current.v
Input.v
InputProofs.v
Screen.v
ScreenProofs.v
ExecProofs.v
CurrentProofs.v
Text.v
TextProofs.v
DevFs.v
Storage.v
Drivers.v
DriverProofs.v
Persist.v
PersistCodec.v
PersistDisk.v
AtaProofs.v
PersistProofs.v
PersistMount.v
PersistTheorems.v
Mounts.v
System.v
Syscall.v
Cpu.v
CpuProofs.v
KScheduler.v
KSchedulerProofs.v
KTasks.v
EventProofs.v
UserMemory.v
KernelSafety.v
SyscallRules.v
SyscallSafety.v
UserMode.v
Runtime.v
RuntimeProofs.v
SyscallTheorems.v
Runs.v
