(* ===== verification/Prelude.v ===== *)
(** * Vantara OS kernel: a verification library

    Vantara OS is a small x86-64 kernel in Rust.  A user program is an ELF
    image; the kernel gives it a process with a private page table, threads
    with stacks in fixed slots, a working directory, credentials, signals, and
    descriptors on files, pipes, events and message queues.  This library is a
    shallow embedding of the part of [kernel/src] that decides what user
    programs observe, from the assembly of the trap entry to the screen and the
    disk, and the theorems that make it correct.

    ** How the code is embedded

    - A [uN] is a [Z] in range; [checked_], [saturating_] and wrapping
      operations are written out, and an arithmetic operation that overflows,
      an index out of range or an [expect] on [None] is the outcome [Panic].
      A [usize] that counts or indexes list elements is a [nat].
    - Text is the list of its bytes.  A fixed array is a list of that length,
      with the bytes past the used part kept as the code keeps them.
    - [outcome A] is [Done a] or [Panic]; [M S A] is [S -> outcome (A * S)], the
      code that updates the state [S]; [result A E] is Rust's [Result].  A
      theorem "the call returns" is that the outcome is [Done]: no property of
      this library holds only if the code returns.
    - Specifications are written with the data alone.  Where a theorem says what
      an operation does, the expected state is a record update or a function of
      the specification ([ProcessSpec], [ThreadSpec], [Page] of [ScreenProofs],
      [names] of [PersistProofs], [user_may] of [UserAccess], ...), never a helper
      of the code.
    - A locked section is one step: the kernel's mutex masks interrupts.

    ** Files, and the code they model

    - [Prelude]: integers, the monads and their notation, record update,
      slices, the tactics [run], [run_in] and [bool_to_prop], list lemmas.
    - [Utf8]: validity of UTF-8, for the code that slices [str]s.
    - [Paths] (fs.rs): [NormalizedPath] and the functions that build it, with
      the list of components as the abstract path.
    - [Vfs] (fs.rs): the mount table and its resolver; the back ends are the
      record [Backend], one field per method of [FilesystemBackend].
    - [RamFs], [RamFsProofs] (fs/ramfs.rs, user/images.rs): the files under
      [/tmp] as a table of nodes with parents, the read-only files, and the
      back end.  The list of user programs is generated by the build, so it is
      the argument [images].
    - [Tree]: trees of files, their paths, and what adding, removing, changing
      and moving a node does to them.
    - [Ring3], [Ring3Proofs] (user/ring3.rs): the layout of user memory and the
      block of arguments on a new stack.
    - [Elf], [ElfProofs] (user/elf.rs, [load_user_elf_image] of user/ring3.rs).
      User memory is a function from addresses to bytes.
    - [FsLaws], [RamFsLaws]: the class [FsLaws], what the kernel relies on of
      the mounted file systems, and that the RAM file system provides it.
    - [AddrSpace], [AddrSpaceProofs] (user/address_space.rs): the pool of
      prepared page tables and their stack slots, and the protection of pages.
    - [PageTables], [PageTablesProofs], [PrivateTables], [PrivateMem],
      [PrivateProcess], [UserAccess] (user/address_space.rs, memory.rs): the
      four-level page tables in physical memory, a function from addresses to
      bytes: building the private tables at boot, loading a program into the
      frames of one, protecting its pages, and the walk that checks a user
      range.  The bit layout of an entry belongs to the crate [x86_64]; it is
      the class [EntryLaws], with the hardware layout as its instance.
    - [Threads] (user/thread.rs) and [Program] (user/program.rs): the thread
      store of a process; the programs waiting to be started.
    - [Ipc], [IpcProofs] (user/syscall.rs): pipes, events, message queues and
      the descriptor table.
    - [Process] (user/process.rs): [Process], [ProcessTable] and all its
      methods, in the module [Table].  Its state, [Kernel], also has the pool,
      the program queue, the descriptors and the statics of process.rs, because
      the methods reach them.
    - [TableSafety], [Views], [Scheduling], [Signals], [Lifecycle],
      [ProcessSpec], [ThreadSpec]: theorems about the table.  [ProcessSpec] and
      [ThreadSpec] say with updates of the records alone what signals, masks,
      the end of a thread and joining do to the whole state.
    - [Current], [ExecProofs], [CurrentProofs] (user/process.rs outside the
      table; the timer interrupt of interrupts.rs): which user thread has the processor, starting
      and ending it, faults, terminal signals, preemption.
    - [Text], [TextProofs] (the [write_*] listings of user/syscall.rs, the log
      of serial.rs): text written into a fixed buffer; the ring of the log.
    - [DevFs] (fs/devfs.rs): the device files; they print the tables of the
      drivers, which are arguments.
    - [Storage] (storage/*.rs): the trait of block devices, the disk image in
      memory and the polling ATA driver, over an interface of ports.
    - [Persist], [PersistCodec], [PersistDisk], [PersistProofs],
      [PersistMount], [PersistTheorems] (fs/persistent.rs): the file system
      over any block device; directory entries as bytes; what the class
      [DiskLaws] says of a disk; every operation as a change of a tree;
      formatting and mounting, with a simulated disk; the theorems.
    - [AtaProofs]: the part of the ATA protocol that reading relies on, as the
      class [AtaDrive], and what the driver reads.  That the disk under the
      persistent file system follows [DiskLaws] is an assumption.
    - [Mounts] (the statics of fs.rs): the mount table, and its [FsLaws].
    - [System] (user/syscall.rs): the whole state a system call sees, with the
      loaded page table; user memory as the kernel reaches it; programs.
    - [Syscall] (user/syscall.rs): one definition per system call, the dispatch
      on the number, and the trap handler around it.
    - [EventProofs]: signalling an event.
    - [UserMemory], [KernelSafety], [SyscallRules], [SyscallSafety],
      [SyscallTheorems]: copies from and to user memory are exact; every step
      of the kernel keeps its invariant; a rule per construct of a handler; a
      lemma per handler; the theorems about traps.
    - [Runtime], [UserMode], [RuntimeProofs], [Runs] (runtime.rs, interrupts.rs,
      user/loader.rs, the landing of user/syscall.rs): how a user thread is left
      and entered, the exception handlers, the event loop, loading and starting
      a program; the run of the whole system as a sequence of events.
    - [Cpu], [CpuProofs] (the assembly of user/syscall.rs, interrupts.rs,
      user/ring3.rs, scheduler/context.rs): registers, instructions, the
      routines as lists of instructions.
    - [Sync] (sync.rs), [KScheduler], [KSchedulerProofs], [KTasks] (scheduler/):
      guards and locks; kernel tasks, their stacks and the timer that switches
      between them.
    - [Heap], [HeapProofs], [FixedHeap] (allocator.rs, allocator/): the three
      allocators; the crate behind the kernel's own is the class [FallbackLaws].
    - [Input], [InputProofs] (input.rs, the keyboard, mouse and HID drivers),
      [Screen], [ScreenProofs] (vga_buffer.rs), [Drivers], [DriverProofs] (PCI,
      network, PS/2, USB descriptors, the timer chip).

    ** What the theorems show

    - System calls: from a good state every trap returns to a good state,
      whatever its number and arguments, and changes no other process's memory
      (C1); along every run of traps, interrupts, faults and rounds of the event
      loop the same holds, and user code only runs on its own page table (C2).
      Reading and writing user memory touches exactly what the caller owns and
      user code could touch itself (C5, C4); signalling an event ends and wakes
      the longest waiter (C19).
    - Registers: the trap entry and exit lose none (C18).
    - Page tables: the tables built at boot isolate processes (C6), and a
      program is loaded into the frames of its own table (C17).
    - The process table (C3): in every reachable state ids are unique, every
      process has its main thread and owns its threads, no thread is queued
      twice, and every method returns.  [TableSafety] proves it with a triple
      [safe] that every operation satisfies by a syntax-directed tactic.
    - Scheduling: the scheduler picks the first queued thread that can run
      (C12) and threads that yield take turns (C11); the timer asks for preemption
      once per quantum (C40).  Kernel tasks take turns and continue with the
      registers they had (C13).
    - Signals on every branch (C14), the mask (C36), handlers (C35).
    - Programs start: [register_exec] gives the processor to a process with a
      page table and stack of its own and its parent's identity (C23).
    - Threads and processes end: exit and join (C33, C34), one collection per
      child (C32), everything given back (C31).
    - The RAM file system refines a tree of paths: creation, removal, writing and
      reading back (C30), renaming (C10), and no sequence of calls panics, loops
      or breaks the tree (C8).
    - Paths refine lists of components (C29); the mount table sends a path to
      its file system, and each of the three keeps what the system calls rely
      on, on any disk (C9).
    - The persistent file system refines the same kind of tree on a disk whose
      requests may fail: every change of the name space is done or not done
      (C7), a rename moves a subtree (C25), mounting never loses a volume (C24),
      and what was written is read back after a restart (C20).
    - The IDE driver reads what the drive stores, or reports the drive's error or
      a timeout (C28).
    - ELF images: the parser is total and accepts only segments in range and
      never writable and executable (C16); memory after a load is exactly the
      segments' bytes (C15); the protection of the pages of an ELF program (C38).
    - Stacks: the initial block (C21) and slots that never overlap (C37).
    - Pipes are byte streams (C22), message queues and events are bounded queues
      (C39).
    - The screen shows the text with its two cursors (C26).  The kernel heap
      keeps what its clients store (C27).
    - Further theorems: locks never deadlock with interrupts ([Sync]), input
      queues stay bounded and typed text is read ([InputProofs]), the PCI scan
      enumerates what is attached and USB registration is total
      ([DriverProofs]), the timer's entry loses no register ([CpuProofs]), the
      other two allocators hand out disjoint blocks ([FixedHeap]).

    ** Bounds and fuel

    Loops that are not structural take fuel, and each is proved to end within
    it: the ancestor walk of a rename (one round per node, by acyclicity), the
    scheduler's scan (one round per queue entry), the loop that signals an
    event (one round per waiter, C19), the trimming and scanning
    loops (one round per byte), the ELF header loop (one per header).  The walk
    to the root of the persistent file system and its transfers end because the
    volume holds a tree and a round copies a byte; polling a drive has the
    code's own limit.
    Theorems that need a counter below its limit say so ([switches], [room],
    [has_room], [spare]).

    ** What is not modelled

    The descriptor tables (gdt.rs), the diagnostics, the interactive kernel shell
    (shell.rs), boot, the build and the user programs themselves; the serial
    port.  Writing a sector to the IDE disk is a definition
    without a theorem: the protocol does not say what the drive does with the
    flush the driver sends.  A run of [Runs] ends when a process without a page
    table of its own is resumed, and starting a further program is not one of its
    events. *)

From Stdlib Require Export ZArith Lia Ascii String.
From stdpp Require Export base list option numbers strings sets.

#[export] Set Default Goal Selector "!".
Open Scope Z_scope.

(** ** Machine integers

    A [uN] value is a [Z] kept in range by the operations below.  A [usize]
    that counts or indexes list elements is a [nat]; its [checked_add] is
    still tested against the 64-bit range. *)

Definition u8_max : Z := 0xFF.
Definition u16_max : Z := 0xFFFF.
Definition u32_max : Z := 0xFFFFFFFF.
Definition u64_max : Z := 0xFFFFFFFFFFFFFFFF.

Definition u32_range (x : Z) : Prop := 0 <= x <= u32_max.
Definition u64_range (x : Z) : Prop := 0 <= x <= u64_max.

Definition checked_add_to (max a b : Z) : option Z :=
  if a + b <=? max then Some (a + b) else None.
Definition saturating_add_to (max a b : Z) : Z := Z.min max (a + b).
Definition saturating_sub (a b : Z) : Z := Z.max 0 (a - b).
Definition u64_checked_add : Z -> Z -> option Z := checked_add_to u64_max.
Definition u64_checked_sub (a b : Z) : option Z := if b <=? a then Some (a - b) else None.
Definition u64_saturating_add : Z -> Z -> Z := saturating_add_to u64_max.
Definition u32_saturating_add : Z -> Z -> Z := saturating_add_to u32_max.
Definition u64_saturating_mul (a b : Z) : Z := Z.min u64_max (a * b).
Definition u64_not (a : Z) : Z := Z.lxor a u64_max.

Definition usize_checked_add (a b : nat) : option nat :=
  if Z.of_nat a + Z.of_nat b <=? u64_max then Some (a + b)%nat else None.

(** ** Byte strings

    Rust's [&str] and [&[u8]] are lists of bytes, each a [Z] below 256. *)

Abbreviation bytes := (list Z).

Definition str (s : string) : bytes :=
  map (fun c => Z.of_N (N_of_ascii c)) (list_ascii_of_string s).

Definition is_byte (b : Z) : Prop := 0 <= b < 256.

Fixpoint bytes_eqb (a b : bytes) : bool :=
  match a, b with
  | [], [] => true
  | x :: a, y :: b => (x =? y) && bytes_eqb a b
  | _, _ => false
  end.

Lemma bytes_eqb_eq (a b : bytes) : bytes_eqb a b = true <-> a = b.
Proof.
  revert b; induction a as [|x a IH]; intros [|y b]; simpl; try done.
  rewrite andb_true_iff, Z.eqb_eq, IH. split; [intros [-> ->]; done|by intros [= -> ->]].
Qed.

Lemma bytes_eqb_refl (a : bytes) : bytes_eqb a a = true.
Proof. by apply bytes_eqb_eq. Qed.

Lemma bytes_eqb_neq (a b : bytes) : bytes_eqb a b = false <-> a <> b.
Proof. rewrite <-not_true_iff_false, bytes_eqb_eq. done. Qed.

(** ** Results and panics

    [result] is Rust's [Result]; [outcome] records whether the code returned
    or panicked (an out-of-bounds slice, a failed [expect], an arithmetic
    overflow of the checked development profile). *)

Inductive result (T E : Type) : Type :=
  | Ok (t : T)
  | Err (e : E).
Arguments Ok {T E} t.
Arguments Err {T E} e.

Inductive outcome (A : Type) : Type :=
  | Done (a : A)
  | Panic.
Arguments Done {A} a.
Arguments Panic {A}.

#[export] Instance outcome_ret : MRet outcome := fun A a => Done a.
#[export] Instance outcome_bind : MBind outcome := fun A B f m =>
  match m with Done a => f a | Panic => Panic end.
#[export] Instance outcome_fmap : FMap outcome := fun A B f m =>
  match m with Done a => Done (f a) | Panic => Panic end.

#[export] Instance result_ret {E} : MRet (fun T => result T E) := fun A a => Ok a.

Definition ok_or {T E} (o : option T) (e : E) : result T E :=
  match o with Some t => Ok t | None => Err e end.

Definition result_map {T U E} (f : T -> U) (r : result T E) : result U E :=
  match r with Ok t => Ok (f t) | Err e => Err e end.

Definition is_ok {T E} (r : result T E) : bool := match r with Ok _ => true | Err _ => false end.

Definition map_err {T E F} (f : E -> F) (r : result T E) : result T F :=
  match r with Ok t => Ok t | Err e => Err (f e) end.

(** The [?] operator: on a pure result, and on a computation that may panic. *)
Definition try_ {T U E} (r : result T E) (k : T -> outcome (result U E)) : outcome (result U E) :=
  match r with Ok t => k t | Err e => Done (Err e) end.

Definition tryM {T U E} (m : outcome (result T E)) (k : T -> outcome (result U E)) :
    outcome (result U E) :=
  match m with Done (Ok t) => k t | Done (Err e) => Done (Err e) | Panic => Panic end.

Notation "'let?' x := r 'in' k" := (try_ r (fun x => k))
  (at level 10, x name, r at level 100, k at level 200).
Notation "'let?' ' p := r 'in' k" := (try_ r (fun x => match x with p => k end))
  (at level 10, p pattern, r at level 100, k at level 200).
Notation "'let!' x := r 'in' k" := (tryM r (fun x => k))
  (at level 10, x name, r at level 100, k at level 200).
Notation "'let!' ' p := r 'in' k" := (tryM r (fun x => match x with p => k end))
  (at level 10, p pattern, r at level 100, k at level 200).

Lemma tryM_Done {T U E} (r : result T E) (k : T -> outcome (result U E)) :
  tryM (Done r) k = try_ r k.
Proof. by destruct r. Qed.

(** ** Slices

    Indexing and range indexing as Rust performs them: out of range panics. *)

Section slices.
Context {A : Type}.

Definition index (l : list A) (i : nat) : outcome A :=
  match l !! i with Some x => Done x | None => Panic end.

Definition index_set (l : list A) (i : nat) (x : A) : outcome (list A) :=
  if (i <? length l)%nat then Done (<[i := x]> l) else Panic.

(** [&l[a..b]] *)
Definition slice (l : list A) (a b : nat) : outcome (list A) :=
  if (a <=? b)%nat && (b <=? length l)%nat then Done (take (b - a) (drop a l)) else Panic.

(** [l[a..b].copy_from_slice(src)] *)
Definition copy_slice (l : list A) (a b : nat) (src : list A) : outcome (list A) :=
  if (a <=? b)%nat && (b <=? length l)%nat && (length src =? b - a)%nat
  then Done (take a l ++ src ++ drop b l) else Panic.

Lemma index_Done l i x : index l i = Done x <-> l !! i = Some x.
Proof. unfold index. destruct (l !! i); naive_solver. Qed.

Lemma index_set_ok l i x : (i < length l)%nat -> index_set l i x = Done (<[i := x]> l).
Proof. intros H. unfold index_set. by apply Nat.ltb_lt in H as ->. Qed.

Lemma slice_ok l a b :
  (a <= b <= length l)%nat -> slice l a b = Done (take (b - a) (drop a l)).
Proof.
  intros [H1 H2]. unfold slice.
  apply Nat.leb_le in H1 as ->. by apply Nat.leb_le in H2 as ->.
Qed.

Lemma slice_panic l a b : (b < a \/ length l < b)%nat -> slice l a b = Panic.
Proof.
  intros H. unfold slice. destruct (Nat.leb_spec a b), (Nat.leb_spec b (length l)); simpl; done || lia.
Qed.

Lemma slice_suffix (a b : list A) n : n = length a -> slice (a ++ b) n (length (a ++ b)) = Done b.
Proof.
  intros ->. rewrite slice_ok by (rewrite ?length_app; lia). rewrite drop_app_length, firstn_all2; [done|].
  rewrite length_app. lia.
Qed.

Lemma copy_slice_ok l a b src :
  (a <= b <= length l)%nat -> length src = (b - a)%nat ->
  copy_slice l a b src = Done (take a l ++ src ++ drop b l).
Proof.
  intros [H1 H2] H3. unfold copy_slice.
  apply Nat.leb_le in H1 as ->. apply Nat.leb_le in H2 as ->.
  by apply Nat.eqb_eq in H3 as ->.
Qed.

Lemma length_splice (l src : list A) (a b : nat) :
  (a <= b <= length l)%nat -> length src = (b - a)%nat ->
  length (take a l ++ src ++ drop b l) = length l.
Proof. intros. rewrite !length_app, length_take, length_drop. lia. Qed.

Lemma take_splice (l src : list A) (a b : nat) :
  (a <= length l)%nat -> length src = (b - a)%nat -> (a <= b)%nat ->
  take b (take a l ++ src ++ drop b l) = take a l ++ src.
Proof.
  intros Ha Hs Hab. rewrite (assoc_L app), take_app_length'; [done|].
  rewrite length_app, length_take. lia.
Qed.
End slices.

(** ** First match in a vector

    [iter().find], [iter_mut().find] followed by a mutation, [position] and
    [remove] on a [Vec] searched from the front. *)

Section first_match.
Context {A : Type}.
Implicit Types (p : A -> bool) (l : list A).

Fixpoint find_upd p (f : A -> A) l : list A :=
  match l with
  | [] => []
  | x :: l => if p x then f x :: l else x :: find_upd p f l
  end.

Fixpoint position p l : option nat :=
  match l with
  | [] => None
  | x :: l => if p x then Some 0%nat else S <$> position p l
  end.

Definition is_some {B} (o : option B) : bool := match o with Some _ => true | None => false end.

Lemma find_Some p l x : List.find p l = Some x -> x ∈ l /\ p x = true.
Proof. intros H. apply List.find_some in H as [H ?]. by apply list_elem_of_In in H. Qed.

Lemma find_None p l : List.find p l = None <-> forall x, x ∈ l -> p x = false.
Proof.
  split.
  - intros H x Hx. apply list_elem_of_In in Hx. by apply (List.find_none p l).
  - induction l as [|y l IH]; simpl; [done|]. intros H.
    rewrite (H y) by set_solver. apply IH. set_solver.
Qed.

Lemma find_app p l l' :
  List.find p (l ++ l') = match List.find p l with Some x => Some x | None => List.find p l' end.
Proof. induction l as [|x l IH]; simpl; [done|]. by destruct (p x). Qed.

Lemma existsb_spec p l : existsb p l = true <-> exists x, x ∈ l /\ p x = true.
Proof. rewrite existsb_exists. by setoid_rewrite list_elem_of_In. Qed.

Lemma existsb_false p l : existsb p l = false <-> forall x, x ∈ l -> p x = false.
Proof.
  rewrite <-not_true_iff_false, existsb_spec. split.
  - intros H x Hx. apply not_true_is_false. eauto.
  - intros H (x & Hx & Hp). rewrite H in Hp; done.
Qed.

Lemma find_upd_none p f l : List.find p l = None -> find_upd p f l = l.
Proof.
  induction l as [|x l IH]; simpl; [done|]. destruct (p x); [done|]. intros. by rewrite IH.
Qed.

Lemma length_find_upd p f l : length (find_upd p f l) = length l.
Proof. induction l as [|x l IH]; simpl; [done|]. destruct (p x); simpl; auto. Qed.

(** A projection the update does not touch is not changed. *)
Lemma map_find_upd {B} (g : A -> B) p f l :
  (forall x, p x = true -> g (f x) = g x) -> map g (find_upd p f l) = map g l.
Proof.
  intros Hg. induction l as [|x l IH]; simpl; [done|].
  destruct (p x) eqn:E; simpl; [by rewrite Hg|by rewrite IH].
Qed.

Lemma find_find_upd_eq p f l x :
  (forall x, p x = true -> p (f x) = true) ->
  List.find p l = Some x -> List.find p (find_upd p f l) = Some (f x).
Proof.
  intros Hf. induction l as [|y l IH]; simpl; [done|].
  destruct (p y) eqn:E; simpl.
  - intros [= ->]. by rewrite Hf.
  - intros H. rewrite E. auto.
Qed.

Lemma find_find_upd_ne p q f l :
  (forall x, p x = true -> q x = false /\ q (f x) = false) ->
  List.find q (find_upd p f l) = List.find q l.
Proof.
  intros Hf. induction l as [|y l IH]; simpl; [done|].
  destruct (p y) eqn:E; simpl.
  - destruct (Hf y E) as [-> ->]. done.
  - destruct (q y); [done|]. apply IH.
Qed.

Lemma find_upd_twice p f g l : (forall x, p x = true -> p (f x) = true) ->
  find_upd p g (find_upd p f l) = find_upd p (fun x => g (f x)) l.
Proof.
  intros Hf. induction l as [|x l IH]; simpl; [done|]. destruct (p x) eqn:E; simpl; [by rewrite Hf|by rewrite E, IH].
Qed.

Lemma elem_of_find_upd p f l y :
  y ∈ find_upd p f l -> y ∈ l \/ exists x, List.find p l = Some x /\ y = f x.
Proof.
  induction l as [|x l IH]; simpl; [set_solver|].
  destruct (p x) eqn:E.
  - rewrite elem_of_cons. intros [->|H]; [right; eauto|left; set_solver].
  - rewrite elem_of_cons. intros [->|H]; [left; set_solver|].
    destruct (IH H) as [?|?]; [left; set_solver|by right].
Qed.

Lemma elem_of_filter_bool p l x : x ∈ List.filter p l <-> x ∈ l /\ p x = true.
Proof. rewrite !list_elem_of_In. apply filter_In. Qed.

Lemma NoDup_filter_bool p l : NoDup l -> NoDup (List.filter p l).
Proof.
  induction 1 as [|x l Hx _ IH]; simpl; [constructor|]. destruct (p x); [|done].
  constructor; [|done]. rewrite elem_of_filter_bool. tauto.
Qed.

Lemma position_Some p l i :
  position p l = Some i -> exists x, l !! i = Some x /\ p x = true /\ List.find p l = Some x.
Proof.
  revert i; induction l as [|y l IH]; simpl; [done|]. intros i.
  destruct (p y) eqn:E; [intros [= <-]; eauto|].
  destruct (position p l) as [j|] eqn:Ej; simpl; [|done].
  intros [= <-]. apply IH. done.
Qed.

Lemma position_None p l : position p l = None <-> List.find p l = None.
Proof.
  induction l as [|y l IH]; simpl; [done|]. destruct (p y); [done|].
  destruct (position p l); simpl; naive_solver.
Qed.
End first_match.

(** ** Little-endian words ([to_le_bytes], [from_le_bytes]) *)

Fixpoint le_bytes (n : nat) (v : Z) : bytes :=
  match n with O => [] | S n => v mod 256 :: le_bytes n (v / 256) end.

Fixpoint le_value (l : bytes) : Z :=
  match l with [] => 0 | b :: l => b + 256 * le_value l end.

Lemma length_le_bytes n v : length (le_bytes n v) = n.
Proof. revert v; induction n as [|n IH]; intros v; simpl; [done|]. by rewrite IH. Qed.

Lemma le_value_bytes n v : 0 <= v < 256 ^ Z.of_nat n -> le_value (le_bytes n v) = v.
Proof.
  revert v; induction n as [|n IH]; intros v Hv; simpl.
  - rewrite Z.pow_0_r in Hv. lia.
  - rewrite Nat2Z.inj_succ, Z.pow_succ_r in Hv by lia. rewrite IH.
    + pose proof (Z.div_mod v 256). lia.
    + split; [apply Z.div_pos; lia|]. apply Z.div_lt_upper_bound; lia.
Qed.

Lemma le_value_range l : Forall is_byte l -> 0 <= le_value l < 256 ^ Z.of_nat (length l).
Proof.
  induction 1 as [|b l Hb Hl IH]; simpl; [rewrite Z.pow_0_r; lia|].
  rewrite Nat2Z.inj_succ, Z.pow_succ_r by lia. unfold is_byte in Hb. nia.
Qed.

Lemma le_bytes_ok n v : Forall is_byte (le_bytes n v).
Proof.
  revert v; induction n as [|n IH]; intros v; simpl; constructor; [|apply IH].
  unfold is_byte. pose proof (Z.mod_pos_bound v 256). lia.
Qed.

(** ** Vectors with a unique key *)

Lemma elem_of_map {A B} (f : A -> B) (l : list A) y : y ∈ map f l <-> exists x, y = f x /\ x ∈ l.
Proof.
  rewrite list_elem_of_In, in_map_iff. split.
  - intros (x & <- & ?%list_elem_of_In). eauto.
  - intros (x & -> & ?%list_elem_of_In). eauto.
Qed.

Section unique_key.
Context {A : Type} (key : A -> Z).
Implicit Types l : list A.

Lemma NoDup_map_inj l x y :
  NoDup (map key l) -> x ∈ l -> y ∈ l -> key x = key y -> x = y.
Proof.
  induction l as [|z l IH]; simpl; [set_solver|]. intros [Hz Hl]%NoDup_cons.
  assert (forall w, w ∈ l -> key w <> key z) as Hw.
  { intros w Hw Heq. apply Hz. rewrite <-Heq. apply list_elem_of_In, in_map, list_elem_of_In, Hw. }
  intros [->|Hx]%elem_of_cons [->|Hy]%elem_of_cons Hk; [done|..|by apply IH].
  - by destruct (Hw y Hy).
  - by destruct (Hw x Hx).
Qed.

Lemma find_key l k x :
  NoDup (map key l) ->
  List.find (fun x => key x =? k) l = Some x <-> x ∈ l /\ key x = k.
Proof.
  intros Hnd. split.
  - intros [? ?%Z.eqb_eq]%find_Some. done.
  - intros [Hx Hk]. destruct (List.find _ l) as [y|] eqn:E.
    + apply find_Some in E as [Hy Hky%Z.eqb_eq]. f_equal. apply (NoDup_map_inj l); congruence.
    + rewrite find_None in E. specialize (E x Hx). apply Z.eqb_neq in E. congruence.
Qed.

Lemma find_key_None l k :
  List.find (fun x => key x =? k) l = None <-> forall x, x ∈ l -> key x <> k.
Proof. rewrite find_None. by setoid_rewrite Z.eqb_neq. Qed.

Lemma elem_of_delete_key l i x y :
  NoDup (map key l) -> l !! i = Some x -> y ∈ delete i l <-> y ∈ l /\ key y <> key x.
Proof.
  intros Hnd Hi. pose proof (take_drop_middle l i x Hi) as Hl. rewrite delete_take_drop.
  rewrite <-Hl in Hnd. rewrite map_app, map_cons in Hnd. apply NoDup_app in Hnd as (_ & H1 & [H2 _]%NoDup_cons).
  rewrite <-Hl at 3. rewrite !elem_of_app, elem_of_cons. split; [|naive_solver].
  intros [Hy|Hy]; (split; [tauto|intros Heq]).
  - apply (H1 (key y)); [apply elem_of_map; eauto|]. rewrite Heq. apply list_elem_of_here.
  - apply H2. rewrite <-Heq. apply elem_of_map; eauto.
Qed.

Lemma NoDup_map_delete l i : NoDup (map key l) -> NoDup (map key (delete i l)).
Proof.
  intros H. eapply sublist_NoDup; [exact H|]. exact (fmap_sublist key _ _ (sublist_delete _ _)).
Qed.

Lemma NoDup_map_filter q l : NoDup (map key l) -> NoDup (map key (List.filter q l)).
Proof.
  induction l as [|x l IH]; simpl; [done|]. intros [Hx Hl]%NoDup_cons. destruct (q x); simpl; [|by apply IH].
  apply NoDup_cons. split; [|by apply IH]. intros (y & Hy & [Hin _]%elem_of_filter_bool)%elem_of_map.
  apply Hx, elem_of_map. eauto.
Qed.

(** With unique keys, updating the first match updates the only match. *)
Lemma find_upd_map_gen l k (q : A -> bool) f :
  NoDup (map key l) -> (forall x, q x = true -> key x = k) ->
  find_upd q f l = map (fun x => if q x then f x else x) l.
Proof.
  intros Hnd Hq. induction l as [|x l IH]; simpl; [done|]. apply NoDup_cons in Hnd as [Hx Hl].
  destruct (q x) eqn:E; [|by rewrite IH]. f_equal. symmetry. rewrite <-(map_id l) at 2.
  apply map_ext_in. intros y Hy. destruct (q y) eqn:Ey; [|done].
  destruct Hx. rewrite (Hq x E), <-(Hq y Ey). apply list_elem_of_In, in_map, Hy.
Qed.

Lemma find_upd_first l (q : A -> bool) x f :
  NoDup (map key l) -> List.find q l = Some x -> find_upd q f l = find_upd (fun y => key y =? key x) f l.
Proof.
  induction l as [|y l IH]; simpl; [done|]. intros [Hy Hl]%NoDup_cons.
  destruct (q y) eqn:E; [intros [= ->]; by rewrite Z.eqb_refl|]. intros Hx. rewrite IH by done.
  destruct (Z.eqb_spec (key y) (key x)) as [Heq|]; [|done]. destruct Hy. rewrite Heq.
  apply find_Some in Hx as [Hx _]. apply elem_of_map. eauto.
Qed.

Lemma find_upd_map l k f :
  NoDup (map key l) ->
  find_upd (fun x => key x =? k) f l = map (fun x => if key x =? k then f x else x) l.
Proof. intros H. apply (find_upd_map_gen l k); [done|]. intros x ?%Z.eqb_eq. done. Qed.
End unique_key.

(** ** Record update

    [r <| field := v |>] builds the record with one field replaced.  A record
    opts in with an [Eta] instance that lists its projections. *)

Class Eta (R : Type) := eta : R -> R.
Class Setter {R E : Type} (p : R -> E) := set : (E -> E) -> R -> R.
Arguments set {R E} p {_} _ _.

Ltac build_setter R E p :=
  exact (fun (f : E -> E) (r : R) => ltac:(
    let e := eval cbv beta delta [eta] in (@eta R _ r) in
    let e := lazymatch e with
             | ?i ?a r => eval cbv beta delta [i] in (i a r)
             | ?i r => eval cbv beta delta [i] in (i r)
             | _ => e
             end in
    lazymatch eval pattern (p r) in e with
    | ?g _ => let b := eval cbv beta in (g (f (p r))) in exact b
    end)).

#[export] Hint Extern 1 (@Setter ?R ?E ?p) => build_setter R E p : typeclass_instances.

Notation "r <| p := v |>" := (set p (fun _ => v) r)
  (at level 12, left associativity, p at level 10, format "r  <| p  :=  v |>").
Notation "r <| p ::= f |>" := (set p f r)
  (at level 12, left associativity, p at level 10, format "r  <| p  ::=  f |>").

(** ** The kernel monad

    Code that reads and writes the kernel's statics: a state passed along,
    and a panic that ends the computation. *)

Definition M (S A : Type) : Type := S -> outcome (A * S).

#[export] Instance M_ret {S} : MRet (M S) := fun A a s => Done (a, s).
#[export] Instance M_bind {S} : MBind (M S) := fun A B f m s =>
  match m s with Done (a, s') => f a s' | Panic => Panic end.

Definition get {S} : M S S := fun s => Done (s, s).
Definition gets {S A} (f : S -> A) : M S A := fun s => Done (f s, s).
Definition modify {S} (f : S -> S) : M S unit := fun s => Done (tt, f s).
Definition panic {S A} : M S A := fun _ => Panic.
Definition expect {S A} (o : option A) : M S A :=
  match o with Some a => mret a | None => panic end.

(** The [?] operator inside the monad. *)
Definition tryS {S T U E} (m : M S (result T E)) (k : T -> M S (result U E)) : M S (result U E) :=
  m ≫= fun r => match r with Ok t => k t | Err e => mret (Err e) end.

Notation "'try' x := m 'in' k" := (tryS m (fun x => k))
  (at level 10, x name, m at level 100, k at level 200).
Notation "'try' ' p := m 'in' k" := (tryS m (fun x => match x with p => k end))
  (at level 10, p pattern, m at level 100, k at level 200).

(** [let Some(x) = m else { return d }; k] *)
Notation "'ifSome' x := m 'orelse' d 'in' k" :=
  (m ≫= (fun o => match o with Some x => k | None => d end))
  (at level 10, x name, m at level 100, d at level 100, k at level 200).

(** Lift a computation without state. *)
Definition lift {S A} (o : outcome A) : M S A := fun s =>
  match o with Done a => Done (a, s) | Panic => Panic end.

(** [wp m Q s]: from [s], [m] does not panic and ends with [Q]. *)
Definition wp {S A} (m : M S A) (Q : A -> S -> Prop) (s : S) : Prop :=
  match m s with Done (a, s') => Q a s' | Panic => False end.

Section wp.
Context {S : Type}.

Lemma wp_ret {A} (a : A) (Q : A -> S -> Prop) s : wp (mret a) Q s <-> Q a s.
Proof. done. Qed.

Lemma wp_bind {A B} (m : M S A) (k : A -> M S B) (Q : B -> S -> Prop) s :
  wp (m ≫= k) Q s <-> wp m (fun a => wp (k a) Q) s.
Proof. unfold wp, mbind, M_bind. by destruct (m s) as [[a s']|]. Qed.

Lemma wp_mono {A} (m : M S A) (P Q : A -> S -> Prop) s :
  wp m P s -> (forall a s', P a s' -> Q a s') -> wp m Q s.
Proof. unfold wp. destruct (m s) as [[a s']|]; naive_solver. Qed.

Lemma wp_run {A} (m : M S A) (Q : A -> S -> Prop) s :
  wp m Q s <-> exists a s', m s = Done (a, s') /\ Q a s'.
Proof. unfold wp. destruct (m s) as [[a s']|]; naive_solver. Qed.
End wp.

(** ** Automation *)

Create HintDb vantara discriminated.
#[export] Hint Resolve bytes_eqb_refl : vantara.

(** Turn boolean tests of the code into the propositions they decide. *)
Ltac bool_to_prop :=
  repeat match goal with
  | H : _ && _ = true |- _ => apply andb_true_iff in H as [? ?]
  | H : _ || _ = false |- _ => apply orb_false_iff in H as [? ?]
  | H : negb _ = true |- _ => apply negb_true_iff in H
  | H : negb _ = false |- _ => apply negb_false_iff in H
  | H : (_ =? _) = true |- _ => apply Z.eqb_eq in H
  | H : (_ =? _) = false |- _ => apply Z.eqb_neq in H
  | H : (_ <? _) = true |- _ => apply Z.ltb_lt in H
  | H : (_ <? _) = false |- _ => apply Z.ltb_ge in H
  | H : (_ <=? _) = true |- _ => apply Z.leb_le in H
  | H : (_ <=? _) = false |- _ => apply Z.leb_gt in H
  | H : (_ =? _)%nat = true |- _ => apply Nat.eqb_eq in H
  | H : (_ =? _)%nat = false |- _ => apply Nat.eqb_neq in H
  | H : (_ <? _)%nat = true |- _ => apply Nat.ltb_lt in H
  | H : (_ <? _)%nat = false |- _ => apply Nat.ltb_ge in H
  | H : (_ <=? _)%nat = true |- _ => apply Nat.leb_le in H
  | H : (_ <=? _)%nat = false |- _ => apply Nat.leb_gt in H
  | H : bytes_eqb _ _ = true |- _ => apply bytes_eqb_eq in H
  | H : bytes_eqb _ _ = false |- _ => apply bytes_eqb_neq in H
  end.

(** Run the monadic plumbing of a computation one layer. *)
Ltac run :=
  cbv beta iota delta
    [mbind M_bind mret M_ret get gets modify lift tryS expect panic
     outcome_bind outcome_ret option_bind option_ret tryM try_ ok_or].
Ltac run_in H :=
  cbv beta iota delta
    [mbind M_bind mret M_ret get gets modify lift tryS expect panic
     outcome_bind outcome_ret option_bind option_ret tryM try_ ok_or] in H.
