(* ===== verification/Utf8.v ===== *)
(** * UTF-8 validity

    [core::str::from_utf8] decides whether a byte slice is well-formed UTF-8
    (Unicode table 3-7).  The kernel cuts and joins strings at ['/'], so the
    facts needed are that validity is closed under concatenation and under
    splitting at an ASCII byte. *)

From S2P Require Import Prelude.

Definition in_range (lo hi b : Z) : bool := (lo <=? b) && (b <=? hi).
Definition cont (b : Z) : bool := in_range 0x80 0xBF b.

Definition utf8_char2 (b0 b1 : Z) : bool := in_range 0xC2 0xDF b0 && cont b1.

Definition utf8_char3 (b0 b1 b2 : Z) : bool :=
  ((b0 =? 0xE0) && in_range 0xA0 0xBF b1 && cont b2)
  || ((in_range 0xE1 0xEC b0 || in_range 0xEE 0xEF b0) && cont b1 && cont b2)
  || ((b0 =? 0xED) && in_range 0x80 0x9F b1 && cont b2).

Definition utf8_char4 (b0 b1 b2 b3 : Z) : bool :=
  ((b0 =? 0xF0) && in_range 0x90 0xBF b1 && cont b2 && cont b3)
  || (in_range 0xF1 0xF3 b0 && cont b1 && cont b2 && cont b3)
  || ((b0 =? 0xF4) && in_range 0x80 0x8F b1 && cont b2 && cont b3).

Fixpoint utf8_valid (l : bytes) : bool :=
  match l with
  | [] => true
  | b0 :: r0 =>
    if in_range 0 0x7F b0 then utf8_valid r0 else
    match r0 with
    | [] => false
    | b1 :: r1 =>
      if utf8_char2 b0 b1 then utf8_valid r1 else
      match r1 with
      | [] => false
      | b2 :: r2 =>
        if utf8_char3 b0 b1 b2 then utf8_valid r2 else
        match r2 with
        | [] => false
        | b3 :: r3 => utf8_char4 b0 b1 b2 b3 && utf8_valid r3
        end
      end
    end
  end.

(** [from_utf8(s).unwrap_or("")] *)
Definition from_utf8_or_empty (s : bytes) : bytes := if utf8_valid s then s else [].

(** The encodings of single characters, and valid strings as their
    concatenations. *)
Inductive utf8_char : bytes -> Prop :=
  | uc1 b0 : in_range 0 0x7F b0 = true -> utf8_char [b0]
  | uc2 b0 b1 : utf8_char2 b0 b1 = true -> utf8_char [b0; b1]
  | uc3 b0 b1 b2 : utf8_char3 b0 b1 b2 = true -> utf8_char [b0; b1; b2]
  | uc4 b0 b1 b2 b3 : utf8_char4 b0 b1 b2 b3 = true -> utf8_char [b0; b1; b2; b3].

Inductive utf8 : bytes -> Prop :=
  | utf8_nil : utf8 []
  | utf8_cons c l : utf8_char c -> utf8 l -> utf8 (c ++ l).

Ltac utf8_bools :=
  unfold utf8_char2, utf8_char3, utf8_char4, cont, in_range in *;
  repeat match goal with
  | H : _ || _ = true |- _ => apply orb_true_iff in H as [H|H]
  end; bool_to_prop.

Lemma utf8_char_high (c : bytes) b :
  utf8_char c -> b ∈ c -> 0 <= b < 0x80 -> c = [b].
Proof.
  intros Hc Hb Hr. destruct Hc as [b0 H|b0 b1 H|b0 b1 b2 H|b0 b1 b2 b3 H];
    utf8_bools; repeat (apply elem_of_cons in Hb as [->|Hb]); try by apply elem_of_nil in Hb.
  all: done || lia.
Qed.

Lemma utf8_valid_spec (l : bytes) : utf8_valid l = true <-> utf8 l.
Proof.
  split.
  - remember (length l) as n eqn:Hn. revert l Hn.
    induction n as [n IH] using lt_wf_ind. intros [|b0 r0] -> H; [constructor|].
    simpl in H. destruct (in_range 0 0x7F b0) eqn:E1.
    { apply (utf8_cons [b0]); [by constructor|]. eapply IH; eauto. simpl; lia. }
    destruct r0 as [|b1 r1]; [done|]. destruct (utf8_char2 b0 b1) eqn:E2.
    { apply (utf8_cons [b0; b1]); [by constructor|]. eapply IH; eauto. simpl; lia. }
    destruct r1 as [|b2 r2]; [done|]. destruct (utf8_char3 b0 b1 b2) eqn:E3.
    { apply (utf8_cons [b0; b1; b2]); [by constructor|]. eapply IH; eauto. simpl; lia. }
    destruct r2 as [|b3 r3]; [done|]. apply andb_true_iff in H as [H4 H].
    apply (utf8_cons [b0; b1; b2; b3]); [by constructor|]. eapply IH; eauto. simpl; lia.
  - induction 1 as [|c l Hc Hl IH]; [done|].
    destruct Hc as [b0 H|b0 b1 H|b0 b1 b2 H|b0 b1 b2 b3 H]; simpl; rewrite ?H, ?IH; try done.
    + replace (in_range 0 0x7F b0) with false; [done|]. symmetry. utf8_bools. apply andb_false_iff. lia.
    + replace (in_range 0 0x7F b0) with false
        by (symmetry; utf8_bools; apply andb_false_iff; lia).
      by replace (utf8_char2 b0 b1) with false
        by (symmetry; apply not_true_iff_false; intros ?; utf8_bools; lia).
    + replace (in_range 0 0x7F b0) with false
        by (symmetry; utf8_bools; apply andb_false_iff; lia).
      replace (utf8_char2 b0 b1) with false
        by (symmetry; apply not_true_iff_false; intros ?; utf8_bools; lia).
      by replace (utf8_char3 b0 b1 b2) with false
        by (symmetry; apply not_true_iff_false; intros ?; utf8_bools; lia).
Qed.

Lemma utf8_app (a b : bytes) : utf8 a -> utf8 b -> utf8 (a ++ b).
Proof.
  intros Ha Hb. induction Ha as [|c l Hc _ IH]; [done|].
  rewrite <-(assoc_L app). by constructor.
Qed.

Lemma utf8_ascii (b : Z) (l : bytes) : 0 <= b < 0x80 -> utf8 l -> utf8 (b :: l).
Proof.
  intros. apply (utf8_cons [b]); [|done]. constructor. apply andb_true_iff. lia.
Qed.

(** A valid string cut at an ASCII byte gives two valid strings. *)
Lemma utf8_split (a b : bytes) (s : Z) :
  0 <= s < 0x80 -> utf8 (a ++ s :: b) -> utf8 a /\ utf8 b.
Proof.
  intros Hs H. remember (a ++ s :: b) as l eqn:Hl. revert a b Hl.
  induction H as [|c l Hc Hl' IH]; intros a b Heq; [by destruct a|].
  apply app_eq_app in Heq as [k [[-> Hl]|[-> Hl]]].
  - destruct k as [|s' k]; simpl in Hl.
    + rewrite app_nil_r in *. destruct (IH [] b) as [_ ?]; [done|].
      split; [|done]. rewrite <-(app_nil_r a). constructor; [done|constructor].
    + injection Hl as <- ->.
      assert (a ++ s :: k = [s]) as He by (eapply utf8_char_high; [done|set_solver|done]).
      destruct a as [|? [|??]]; simplify_eq/=. split; [constructor|done].
  - destruct (IH k b) as [? ?]; [done|]. split; [|done]. by constructor.
Qed.

Lemma utf8_bytes (l : bytes) : utf8 l -> Forall is_byte l.
Proof.
  induction 1 as [|c l Hc _ IH]; [constructor|]. apply Forall_app. split; [|done]. destruct Hc; utf8_bools; repeat constructor; unfold is_byte; lia.
Qed.
