(* ===== verification/Paths.v ===== *)
(** * Path normalisation (kernel/src/fs.rs)

    [NormalizedPath] is a fixed 128-byte buffer with a length.  The module
    [Path] follows the code that fills it component by component; [Spec] is
    the intended meaning, a stack of components, and the theorems relate the
    two. *)

From S2P Require Import Prelude Utf8.

(** ** Data *)

Definition MAX_NORMALIZED_PATH_LEN : nat := 128.

Inductive FsError :=
  | NotFound | NotDirectory | IsDirectory | InvalidPath | PathTooLong
  | NameTooLong | AlreadyExists | ReadOnly | NoSpace | FileTooLarge
  | BufferTooSmall | CrossDevice | StaleNode | Unavailable | Corrupt | Io
  | DirectoryNotEmpty.

Inductive FileType := File | Directory.

#[export] Instance FsError_eq_dec : EqDecision FsError.
Proof. solve_decision. Defined.
#[export] Instance FileType_eq_dec : EqDecision FileType.
Proof. solve_decision. Defined.

Definition FileType_eqb (a b : FileType) : bool := bool_decide (a = b).

Record NormalizedPath := mkPath { np_bytes : bytes; np_len : nat }.

#[export] Instance eta_NormalizedPath : Eta NormalizedPath :=
  fun r => mkPath (np_bytes r) (np_len r).

Definition SLASH : Z := 47.
Definition DOT : Z := 46.

(** ** Standard-library string functions *)

(** [s.split('/')] *)
Fixpoint split_on (sep : Z) (l : bytes) : list bytes :=
  match l with
  | [] => [[]]
  | c :: l =>
    if c =? sep then [] :: split_on sep l
    else match split_on sep l with
         | [] => [[c]]
         | w :: ws => (c :: w) :: ws
         end
  end.

Definition starts_with_slash (s : bytes) : bool :=
  match s with c :: _ => c =? SLASH | [] => false end.

(** [s.strip_prefix(p)] *)
Fixpoint strip_prefix (s p : bytes) {struct p} : option bytes :=
  match p, s with
  | [], _ => Some s
  | x :: p, y :: s => if x =? y then strip_prefix s p else None
  | _ :: _, [] => None
  end.

Module Path.

Definition root : NormalizedPath :=
  mkPath (<[0%nat := SLASH]> (replicate MAX_NORMALIZED_PATH_LEN 0)) 1.

Definition as_str (p : NormalizedPath) : outcome bytes :=
  s ← slice (np_bytes p) 0 (np_len p); mret (from_utf8_or_empty s).

Definition push_root (out : NormalizedPath) : outcome NormalizedPath :=
  b ← index_set (np_bytes out) 0 SLASH; mret (mkPath b 1).

Definition push_component (out : NormalizedPath) (component : bytes) :
    outcome (result NormalizedPath FsError) :=
  if existsb (fun byte => byte =? 0) component then Done (Err InvalidPath) else
  let needs_slash := (1 <? np_len out)%nat in
  let? needed := ok_or (l ← usize_checked_add (np_len out) (if needs_slash then 1 else 0);
                        usize_checked_add l (length component)) PathTooLong in
  if (length (np_bytes out) <? needed)%nat then Done (Err PathTooLong) else
  out ← (if needs_slash
         then b ← index_set (np_bytes out) (np_len out) SLASH; mret (mkPath b (np_len out + 1))
         else mret out);
  b ← copy_slice (np_bytes out) (np_len out) (np_len out + length component) component;
  mret (Ok (mkPath b (np_len out + length component))).

(** [while out.len > 1 && out.bytes[out.len - 1] != b'/' { out.len -= 1 }] *)
Fixpoint pop_scan (b : bytes) (len : nat) : outcome nat :=
  match len with
  | S (S _ as n) => c ← index b n; if c =? SLASH then mret len else pop_scan b n
  | _ => mret len
  end.

Definition pop_component (out : NormalizedPath) : outcome NormalizedPath :=
  if (np_len out <=? 1)%nat then mret out else
  len ← pop_scan (np_bytes out) (np_len out);
  mret (out <| np_len := if (1 <? len)%nat then (len - 1)%nat else len |>).

Fixpoint push_components (out : NormalizedPath) (cs : list bytes) :
    outcome (result NormalizedPath FsError) :=
  match cs with
  | [] => Done (Ok out)
  | c :: cs =>
    if bytes_eqb c [] || bytes_eqb c [DOT] then push_components out cs
    else if bytes_eqb c [DOT; DOT] then out ← pop_component out; push_components out cs
    else let! out := push_component out c in push_components out cs
  end.

Definition push_path_components (out : NormalizedPath) (path : bytes) :
    outcome (result NormalizedPath FsError) :=
  push_components out (split_on SLASH path).

Definition normalize_path_from (cwd path : bytes) : outcome (result NormalizedPath FsError) :=
  normalized ← push_root (mkPath (replicate MAX_NORMALIZED_PATH_LEN 0) 0);
  let! normalized := (if starts_with_slash path then Done (Ok normalized)
                      else push_path_components normalized cwd) in
  push_path_components normalized path.

Definition normalize_path (path : bytes) : outcome (result NormalizedPath FsError) :=
  normalize_path_from [SLASH] path.

End Path.

(** ** Specification: a stack of components *)

Module Spec.

(** The stack is kept with the innermost component first. *)
Fixpoint render (st : list bytes) : bytes :=
  match st with
  | [] => [SLASH]
  | c :: [] => SLASH :: c
  | c :: st => render st ++ SLASH :: c
  end.

Definition good (c : bytes) : Prop :=
  c <> [] /\ SLASH ∉ c /\ 0 ∉ c /\ c <> [DOT] /\ c <> [DOT; DOT].

Fixpoint walk (st : list bytes) (cs : list bytes) : result (list bytes) FsError :=
  match cs with
  | [] => Ok st
  | c :: cs =>
    if bytes_eqb c [] || bytes_eqb c [DOT] then walk st cs
    else if bytes_eqb c [DOT; DOT] then walk (tail st) cs
    else if existsb (fun b => b =? 0) c then Err InvalidPath
    else if (MAX_NORMALIZED_PATH_LEN <? length (render (c :: st)))%nat then Err PathTooLong
    else walk (c :: st) cs
  end.

(** A relative path continues from the working directory. *)
Definition normalize (cwd path : bytes) : result (list bytes) FsError :=
  walk [] ((if starts_with_slash path then [] else split_on SLASH cwd) ++ split_on SLASH path).

(** The buffer holds the rendering of a stack of good components. *)
Definition represents (p : NormalizedPath) (st : list bytes) : Prop :=
  length (np_bytes p) = MAX_NORMALIZED_PATH_LEN /\
  (np_len p <= MAX_NORMALIZED_PATH_LEN)%nat /\
  take (np_len p) (np_bytes p) = render st /\
  Forall good st.

End Spec.
Import Spec.

(** ** Lemmas *)

Lemma split_on_nonempty sep (l : bytes) : split_on sep l <> [].
Proof. destruct l as [|c l]; simpl; [done|]. destruct (c =? sep); [done|]. by destruct (split_on sep l). Qed.

Lemma split_on_no_sep sep (l c : bytes) : c ∈ split_on sep l -> sep ∉ c.
Proof.
  revert c; induction l as [|b l IH]; simpl; intros c Hc;
    [apply list_elem_of_singleton in Hc as ->; apply not_elem_of_nil|].
  destruct (Z.eqb_spec b sep) as [->|Hne].
  { apply elem_of_cons in Hc as [->|Hc]; [apply not_elem_of_nil|by apply IH]. }
  destruct (split_on sep l) as [|w ws] eqn:E; [by apply split_on_nonempty in E|].
  apply elem_of_cons in Hc as [->|Hc]; [|apply IH; by right].
  apply not_elem_of_cons. split; [done|]. apply IH. by left.
Qed.

(** Splitting the two sides of a separator splits the whole. *)
Lemma split_on_app sep (a b : bytes) :
  split_on sep (a ++ sep :: b) = split_on sep a ++ split_on sep b.
Proof.
  induction a as [|c a IH]; simpl; [by rewrite Z.eqb_refl|].
  destruct (c =? sep); [by rewrite IH|]. rewrite IH.
  destruct (split_on sep a) eqn:E; [by apply split_on_nonempty in E|done].
Qed.

Lemma split_on_id sep (c : bytes) : sep ∉ c -> split_on sep c = [c].
Proof.
  induction c as [|b c IH]; simpl; intros H; [done|].
  apply not_elem_of_cons in H as [H1 H2].
  destruct (Z.eqb_spec b sep); [congruence|]. by rewrite IH.
Qed.

Lemma split_on_utf8 sep (l : bytes) : 0 <= sep < 0x80 -> utf8 l -> Forall utf8 (split_on sep l).
Proof.
  intros Hs. remember (length l) as n eqn:Hn. revert l Hn.
  induction n as [n IH] using lt_wf_ind. intros l -> Hl.
  destruct (decide (sep ∈ l)) as [Hin|Hin].
  - apply list_elem_of_split in Hin as (a & b & ->). rewrite split_on_app.
    apply utf8_split in Hl as [Ha Hb]; [|done].
    apply Forall_app; split; (eapply IH; [|done|done]); rewrite length_app; simpl; lia.
  - rewrite split_on_id by done. by repeat constructor.
Qed.

Lemma render_length_pos st : (1 <= length (render st))%nat.
Proof. destruct st as [|c [|d st]]; simpl; try lia. rewrite length_app; simpl; lia. Qed.

Lemma render_push st c :
  render (c :: st) = (if (1 <? length (render st))%nat then render st ++ [SLASH] else render st) ++ c
  \/ Exists (fun d => d = []) st.
Proof.
  destruct st as [|d st]; [by left|]. destruct (decide (d = [])) as [->|Hd]; [right; by left|].
  left. assert (1 < length (render (d :: st)))%nat as H.
  { destruct st as [|e st]; [destruct d; simpl; [done|lia]|].
    change (render (d :: e :: st)) with (render (e :: st) ++ SLASH :: d).
    rewrite length_app. pose proof (render_length_pos (e :: st)). simpl length at 2. lia. }
  apply Nat.ltb_lt in H as ->.
  change (render (c :: d :: st)) with (render (d :: st) ++ SLASH :: c).
  by rewrite <-(assoc_L app).
Qed.

Lemma render_push_good st c :
  Forall good st ->
  render (c :: st) = (if (1 <? length (render st))%nat then render st ++ [SLASH] else render st) ++ c.
Proof.
  intros Hg. destruct (render_push st c) as [H|H]; [done|].
  apply Exists_exists in H as (d & Hd & ->). rewrite Forall_forall in Hg. by destruct (Hg _ Hd).
Qed.

Lemma represents_len p st : represents p st -> np_len p = length (render st).
Proof. intros (H1 & H2 & <- & _). rewrite length_take. lia. Qed.

Lemma usize_checked_add_cases (a b : nat) :
  (usize_checked_add a b = Some (a + b)%nat /\ Z.of_nat (a + b) <= u64_max) \/
  (usize_checked_add a b = None /\ u64_max < Z.of_nat (a + b)).
Proof.
  unfold usize_checked_add. destruct (Z.leb_spec (Z.of_nat a + Z.of_nat b) u64_max); [left|right]; split; done || lia.
Qed.

Lemma render_push_length st c :
  Forall good st ->
  length (render (c :: st)) =
  ((if (1 <? length (render st))%nat then length (render st) + 1 else length (render st)) + length c)%nat.
Proof.
  intros Hg. rewrite render_push_good by done. rewrite length_app.
  destruct (1 <? length (render st))%nat; [|done]. rewrite length_app. done.
Qed.

(** The two copies of [push_component] on a buffer that has room. *)
Lemma push_component_copy (b : bytes) (len : nat) (c : bytes) (s : bool) :
  let len' := (if s then len + 1 else len)%nat in
  (len' + length c <= length b)%nat ->
  exists b', (out ← (if s then x ← index_set b len SLASH; mret (mkPath x (len + 1))
                     else mret (mkPath b len));
              x ← copy_slice (np_bytes out) (np_len out) (np_len out + length c) c;
              mret (Ok (mkPath x (np_len out + length c))))
             = Done (Ok (E:=FsError) (mkPath b' (len' + length c))) /\
    length b' = length b /\
    take (len' + length c) b' = (if s then take len b ++ [SLASH] else take len b) ++ c.
Proof.
  intros len' Hle. destruct s; simpl in len'; subst len'; simpl.
  - rewrite index_set_ok by lia. cbn [mbind outcome_bind mret outcome_ret np_bytes np_len].
    rewrite copy_slice_ok by (rewrite ?length_insert; lia).
    cbn. eexists; split; [done|]. split.
    + rewrite length_splice; rewrite ?length_insert; lia.
    + rewrite take_splice by (rewrite ?length_insert; lia). f_equal.
      replace (len + 1)%nat with (S len) by lia.
      erewrite take_S_r; [|apply list_lookup_insert_eq; lia].
      by rewrite take_insert_ge by lia.
  - rewrite copy_slice_ok by lia. cbn. eexists; split; [done|].
    split; [rewrite length_splice; lia|]. rewrite take_splice by lia. done.
Qed.

Lemma push_component_spec p st c :
  represents p st -> good c ->
  match Path.push_component p c with
  | Done (Ok p') => (length (render (c :: st)) <= MAX_NORMALIZED_PATH_LEN)%nat /\ represents p' (c :: st)
  | Done (Err e) => e = PathTooLong /\ (MAX_NORMALIZED_PATH_LEN < length (render (c :: st)))%nat
  | Panic => False
  end.
Proof.
  intros Hr Hc. pose proof (represents_len _ _ Hr) as Hlen.
  destruct p as [b len]; destruct Hr as (Hb & Hl & Ht & Hg); cbn [np_len np_bytes] in *.
  pose proof (render_push_length st c Hg) as Hpl. rewrite <-Hlen in Hpl.
  rewrite Hpl. unfold Path.push_component.
  destruct (existsb (fun byte => byte =? 0) c) eqn:E0.
  { apply existsb_spec in E0 as (x & Hx & ->%Z.eqb_eq). by destruct Hc as (_ & _ & ? & _). }
  cbn [np_len np_bytes]. set (s := (1 <? len)%nat) in *.
  destruct (usize_checked_add_cases len (if s then 1 else 0)) as [[-> H1]|[-> H1]];
    cbn [mbind option_bind ok_or try_].
  2:{ split; [done|]. unfold MAX_NORMALIZED_PATH_LEN, u64_max in *. destruct s; lia. }
  destruct (usize_checked_add_cases (len + (if s then 1 else 0)) (length c)) as [[-> H2]|[-> H2]];
    cbn [ok_or try_].
  2:{ split; [done|]. unfold MAX_NORMALIZED_PATH_LEN, u64_max in *. destruct s; lia. }
  destruct (Nat.ltb_spec (length b) (len + (if s then 1 else 0) + length c)) as [H3|H3].
  { split; [done|]. destruct s; lia. }
  destruct (push_component_copy b len c s) as (b' & Heq & Hb' & Ht'); [destruct s; lia|].
  rewrite Heq. split; [destruct s; lia|].
  split; [simpl; congruence|]. split; [simpl; destruct s; lia|].
  split; [|by constructor]. cbn [np_len np_bytes].
  rewrite Ht', render_push_good, Ht by done.
  rewrite <-Hlen. done.
Qed.

Lemma pop_scan_S (b : bytes) (n : nat) :
  (1 <= n)%nat ->
  Path.pop_scan b (S n) =
    (c ← index b n; if c =? SLASH then mret (S n) else Path.pop_scan b n).
Proof. destruct n; [lia|done]. Qed.

Lemma pop_scan_spec (b pre c : bytes) :
  SLASH ∉ c -> take (length pre + 1 + length c) b = pre ++ SLASH :: c ->
  Path.pop_scan b (length pre + 1 + length c) = Done (length pre + 1)%nat.
Proof.
  revert b. induction c as [|x c IH] using rev_ind; intros b Hc Ht.
  - rewrite Nat.add_0_r in *. destruct pre as [|y pre]; [done|].
    assert (b !! length (y :: pre) = Some SLASH) as Hi.
    { rewrite <-(lookup_take_lt _ (length (y :: pre) + 1)) by lia. rewrite Ht.
      by rewrite lookup_app_r, Nat.sub_diag by lia. }
    replace (length (y :: pre) + 1)%nat with (S (length (y :: pre))) by lia.
    rewrite pop_scan_S by (simpl; lia). apply index_Done in Hi. by rewrite Hi.
  - rewrite length_app in *. simpl in Ht |- *.
    replace (length pre + 1 + (length c + 1))%nat with (S (length pre + 1 + length c)) in * by lia.
    assert (b !! (length pre + 1 + length c)%nat = Some x) as Hi.
    { rewrite <-(lookup_take_lt _ (S (length pre + 1 + length c))) by lia. rewrite Ht.
      change (pre ++ SLASH :: c ++ [x]) with (pre ++ [SLASH] ++ c ++ [x]).
      rewrite !(assoc_L app), lookup_app_r; rewrite !length_app; simpl; [|lia].
      by rewrite Nat.sub_diag. }
    rewrite pop_scan_S by lia. pose proof Hi as Hi'. apply index_Done in Hi. rewrite Hi. cbn.
    apply not_elem_of_app in Hc as [Hc Hx].
    destruct (Z.eqb_spec x SLASH) as [->|_]; [set_solver|].
    apply IH; [done|]. apply (take_S_r _ _ _) in Hi'. rewrite Ht in Hi'.
    change (pre ++ SLASH :: c ++ [x]) with (pre ++ [SLASH] ++ c ++ [x]) in Hi'.
    rewrite !(assoc_L app) in Hi'. apply app_inj_tail in Hi' as [<- _].
    by rewrite <-(assoc_L app).
Qed.

Lemma pop_component_spec p st :
  represents p st ->
  exists p', Path.pop_component p = Done p' /\ represents p' (tail st).
Proof.
  intros Hr. pose proof (represents_len _ _ Hr) as Hlen.
  destruct p as [b len]; destruct Hr as (Hb & Hl & Ht & Hg); simpl in *.
  unfold Path.pop_component; cbn [np_len np_bytes].
  destruct st as [|c st].
  { simpl in Hlen. subst len. eexists; split; [done|]. done. }
  apply Forall_cons in Hg as [(Hne & Hsl & Hg0) Hg].
  assert (exists pre, render (c :: st) = pre ++ SLASH :: c /\
            length (render st) = (if (1 <? length pre + 1)%nat then length pre + 1 - 1 else length pre + 1)%nat /\
            (length pre + 1 + length c)%nat = len /\ take (length (render st)) (pre ++ SLASH :: c) = render st)
    as (pre & Hpre & Hls & Hll & Htk).
  { destruct st as [|d st].
    - exists []. simpl in *. repeat split; done || lia.
    - exists (render (d :: st)). pose proof (render_length_pos (d :: st)) as Hp.
      assert ((1 <? length (render (d :: st)) + 1)%nat = true) as -> by (apply Nat.ltb_lt; lia).
      split; [done|]. split; [lia|]. split; [|by apply take_app_length].
      change (render (c :: d :: st)) with (render (d :: st) ++ SLASH :: c) in Hlen.
      rewrite length_app in Hlen. simpl length in Hlen at 2. simpl in *. lia. }
  assert ((len <=? 1)%nat = false) as ->.
  { apply Nat.leb_gt. destruct c; [done|]. simpl in Hll. lia. }
  rewrite Hpre in Ht. rewrite <-Hll in Ht |- *. rewrite pop_scan_spec by done.
  cbn [mbind outcome_bind mret outcome_ret]. rewrite <-Hls. eexists; split; [done|]. split; [done|].
  assert (length (render st) <= len)%nat as Hle.
  { rewrite Hls. destruct (1 <? length pre + 1)%nat; lia. }
  split; [simpl; lia|]. split; [|done]. simpl.
  rewrite <-Htk at 2. rewrite <-Ht, take_take. f_equal. lia.
Qed.

(** What a run of the code and a run of the specification have in common. *)
Definition agrees (r : outcome (result NormalizedPath FsError)) (s : result (list bytes) FsError) : Prop :=
  match r, s with
  | Done (Ok p), Ok st => represents p st
  | Done (Err e), Err e' => e = e'
  | _, _ => False
  end.

Lemma push_components_agrees out st cs :
  represents out st -> Forall (fun c => SLASH ∉ c) cs ->
  agrees (Path.push_components out cs) (walk st cs).
Proof.
  revert out st; induction cs as [|c cs IH]; intros out st Hr Hcs; [done|].
  apply Forall_cons in Hcs as [Hc Hcs]. cbn [Path.push_components walk].
  destruct (bytes_eqb c [] || bytes_eqb c [DOT]) eqn:E1; [by apply IH|].
  destruct (bytes_eqb c [DOT; DOT]) eqn:E2.
  { destruct (pop_component_spec out st Hr) as (p' & -> & Hp'). by apply IH. }
  destruct (existsb (fun b => b =? 0) c) eqn:E3.
  { unfold Path.push_component. by rewrite E3. }
  bool_to_prop. assert (good c) as Hg.
  { split_and!; try done. intros Hz. rewrite existsb_false in E3. by specialize (E3 0 Hz). }
  pose proof (push_component_spec out st c Hr Hg) as Hp.
  destruct (Path.push_component out c) as [[p'|e]|]; [|by destruct Hp as [-> Hp%Nat.ltb_lt]; rewrite Hp|done].
  destruct Hp as [Hle%Nat.ltb_ge Hp']. rewrite Hle. by apply IH.
Qed.

Lemma push_components_app out cs cs' :
  Path.push_components out (cs ++ cs') =
  let! out := Path.push_components out cs in Path.push_components out cs'.
Proof.
  revert out; induction cs as [|c cs IH]; intros out; [done|]. cbn [Path.push_components app].
  destruct (bytes_eqb c [] || bytes_eqb c [DOT]); [done|].
  destruct (bytes_eqb c [DOT; DOT]).
  { destruct (Path.pop_component out); [apply IH|done]. }
  destruct (Path.push_component out c) as [[p|e]|]; cbn; [apply IH|done|done].
Qed.

Definition empty_root : NormalizedPath :=
  mkPath (<[0%nat := SLASH]> (replicate MAX_NORMALIZED_PATH_LEN 0)) 1.

Lemma empty_root_represents : represents empty_root [].
Proof. unfold represents, MAX_NORMALIZED_PATH_LEN; cbn; split_and!; done || lia. Qed.

(** The whole normaliser is one walk over the components. *)
Lemma normalize_path_from_unfold cwd path :
  Path.normalize_path_from cwd path =
  Path.push_components empty_root
    ((if starts_with_slash path then [] else split_on SLASH cwd) ++ split_on SLASH path).
Proof.
  unfold Path.normalize_path_from, Path.push_path_components. cbn -[split_on replicate].
  rewrite push_components_app. by destruct (starts_with_slash path).
Qed.

Lemma Forall_no_slash path : Forall (fun c => SLASH ∉ c) (split_on SLASH path).
Proof. apply Forall_forall. intros c. apply split_on_no_sep. Qed.

Lemma normalize_agrees cwd path :
  agrees (Path.normalize_path_from cwd path) (Spec.normalize cwd path).
Proof.
  rewrite normalize_path_from_unfold. apply push_components_agrees; [apply empty_root_represents|].
  apply Forall_app; split; [|apply Forall_no_slash].
  destruct (starts_with_slash path); [done|apply Forall_no_slash].
Qed.

Lemma walk_utf8 st cs st' :
  Forall utf8 st -> Forall utf8 cs -> walk st cs = Ok st' -> Forall utf8 st'.
Proof.
  revert st; induction cs as [|c cs IH]; simpl; intros st Hst Hcs H; [by injection H as <-|].
  apply Forall_cons in Hcs as [Hc Hcs].
  destruct (bytes_eqb c [] || bytes_eqb c [DOT]); [by apply (IH st)|].
  destruct (bytes_eqb c [DOT; DOT]).
  { apply (IH (tail st)); [|done|done]. by destruct Hst. }
  destruct (existsb _ c); [done|]. destruct (_ <? _)%nat; [done|].
  apply (IH (c :: st)); [|done|done]. by constructor.
Qed.

Lemma render_utf8 st : Forall utf8 st -> utf8 (render st).
Proof.
  induction 1 as [|c st Hc Hst IH]; [apply (utf8_ascii SLASH); [done|constructor]|].
  assert (utf8 (SLASH :: c)) by (by apply utf8_ascii).
  destruct st as [|d st]; [done|]. apply utf8_app; done.
Qed.

Lemma represents_as_str p st :
  represents p st -> utf8 (render st) -> Path.as_str p = Done (render st).
Proof.
  intros (H1 & H2 & H3 & _) Hu. unfold Path.as_str.
  rewrite slice_ok by lia. cbn [mbind outcome_bind mret outcome_ret].
  rewrite Nat.sub_0_r, drop_0, H3. unfold from_utf8_or_empty.
  apply utf8_valid_spec in Hu. by rewrite Hu.
Qed.

Lemma represents_render_le p st :
  represents p st -> (length (render st) <= MAX_NORMALIZED_PATH_LEN)%nat.
Proof. intros H. pose proof (represents_len p st H). destruct H as (_ & ? & _). lia. Qed.

Lemma split_render st :
  Forall good st -> st <> [] -> split_on SLASH (render st) = [] :: rev st.
Proof.
  intros Hg. induction Hg as [|c st Hc Hg IH]; [done|]. intros _.
  destruct Hc as (_ & Hc & _). destruct st as [|d st].
  { change (render [c]) with ([] ++ SLASH :: c). rewrite split_on_app, (split_on_id _ c) by done. done. }
  change (render (c :: d :: st)) with (render (d :: st) ++ SLASH :: c).
  rewrite split_on_app, IH, (split_on_id _ c) by done. done.
Qed.

Lemma walk_app st cs cs' :
  walk st (cs ++ cs') = match walk st cs with Ok st' => walk st' cs' | Err e => Err e end.
Proof.
  revert st; induction cs as [|c cs IH]; intros st; [done|]. cbn [walk app].
  destruct (bytes_eqb c [] || bytes_eqb c [DOT]); [apply IH|].
  destruct (bytes_eqb c [DOT; DOT]); [apply IH|].
  destruct (existsb _ c); [done|]. destruct (_ <? _)%nat; [done|]. apply IH.
Qed.

Lemma render_tail_le c st : (length (render st) <= length (render (c :: st)))%nat.
Proof. destruct st as [|d st]; simpl; [lia|]. rewrite length_app. lia. Qed.

Lemma walk_good_step st c :
  good c -> (length (render (c :: st)) <= MAX_NORMALIZED_PATH_LEN)%nat -> walk st [c] = Ok (c :: st).
Proof.
  intros (H1 & H2 & H3 & H4 & H5) Hle. cbn [walk].
  apply bytes_eqb_neq in H1 as ->, H4 as ->, H5 as ->. cbn [orb].
  assert (existsb (fun b => b =? 0) c = false) as ->.
  { apply existsb_false. intros x Hx. apply Z.eqb_neq. by intros ->. }
  by apply Nat.ltb_ge in Hle as ->.
Qed.

(** Walking the rendering of a stack gives the stack back. *)
Lemma walk_render st :
  Forall good st -> (length (render st) <= MAX_NORMALIZED_PATH_LEN)%nat ->
  walk [] (split_on SLASH (render st)) = Ok st.
Proof.
  intros Hg Hle. destruct (decide (st = [])) as [->|Hne]; [done|].
  rewrite split_render by done. cbn [walk bytes_eqb orb]. clear Hne.
  induction Hg as [|c st Hc Hg IH]; [done|].
  pose proof (render_tail_le c st). cbn [rev]. rewrite walk_app, IH by lia.
  by apply walk_good_step.
Qed.

(** ** Properties *)

(** C29. [normalize_path_from] never panics and computes exactly what the
    component-stack specification says: empty and ["."] components are
    skipped, [".."] removes the innermost component and stops at the root, a
    component holding NUL is [InvalidPath], and a path whose rendering would
    exceed 128 bytes on the way is [PathTooLong]. *)
Theorem normalize_path_from_refines (cwd path : bytes) :
  agrees (Path.normalize_path_from cwd path) (Spec.normalize cwd path).
Proof. apply normalize_agrees. Qed.

Lemma normalize_ok_represents cwd path p :
  utf8_valid cwd = true -> utf8_valid path = true ->
  Path.normalize_path_from cwd path = Done (Ok p) ->
  exists st, represents p st /\ Path.as_str p = Done (render st).
Proof.
  intros Hc%utf8_valid_spec Hp%utf8_valid_spec Heq.
  pose proof (normalize_agrees cwd path) as Hr. rewrite Heq in Hr.
  destruct (Spec.normalize cwd path) as [st|] eqn:Hw; [|done]. exists st.
  split; [done|]. apply (represents_as_str p st Hr), render_utf8.
  eapply walk_utf8; [| |exact Hw]; [done|].
  apply Forall_app; split; [destruct (starts_with_slash path); [done|]|]; by apply split_on_utf8.
Qed.

(** On valid strings, the text of a normalised path is ["/"] followed by
    its components joined by ["/"]: at most 128 bytes, no empty, ["."] or
    [".."] component, no NUL, no trailing slash. *)
Theorem normalized_path_canonical (cwd path : bytes) (p : NormalizedPath) :
  utf8_valid cwd = true -> utf8_valid path = true ->
  Path.normalize_path_from cwd path = Done (Ok p) ->
  exists st, Path.as_str p = Done (Spec.render st) /\ Forall Spec.good st /\
    (length (Spec.render st) <= MAX_NORMALIZED_PATH_LEN)%nat.
Proof.
  intros Hc Hp Heq. destruct (normalize_ok_represents cwd path p) as (st & Hr & Hs); [done..|].
  exists st. split; [done|]. split; [by destruct Hr as (_ & _ & _ & ?)|by eapply represents_render_le].
Qed.

(** Normalisation is idempotent: the text of a normalised path normalises
    to itself, from any working directory. *)
Theorem normalize_idempotent (cwd path cwd' : bytes) (p : NormalizedPath) (s : bytes) :
  utf8_valid cwd = true -> utf8_valid path = true ->
  Path.normalize_path_from cwd path = Done (Ok p) -> Path.as_str p = Done s ->
  exists p', Path.normalize_path_from cwd' s = Done (Ok p') /\ Path.as_str p' = Done s.
Proof.
  intros Hc Hp Heq Hs. destruct (normalize_ok_represents cwd path p) as (st & Hr & Hs'); [done..|].
  rewrite Hs' in Hs. injection Hs as <-.
  assert (utf8 (render st)) as Hu.
  { destruct (decide (utf8_valid (render st) = true)) as [H|H]; [by apply utf8_valid_spec|].
    exfalso. destruct Hr as (H1 & H2 & H3 & _). unfold Path.as_str in Hs'.
    rewrite slice_ok in Hs' by lia. cbn [mbind outcome_bind mret outcome_ret] in Hs'.
    rewrite Nat.sub_0_r, drop_0, H3 in Hs'. unfold from_utf8_or_empty in Hs'.
    apply not_true_is_false in H. rewrite H in Hs'. injection Hs' as Hs'.
    pose proof (render_length_pos st) as Hl. rewrite <-Hs' in Hl. simpl in Hl. lia. }
  assert (starts_with_slash (render st) = true) as Hsl.
  { clear. induction st as [|c [|d st] IH]; [done..|].
    change (render (c :: d :: st)) with (render (d :: st) ++ SLASH :: c).
    by destruct (render (d :: st)). }
  assert (agrees (Path.normalize_path_from cwd' (render st)) (Ok st)) as Ha.
  { rewrite <-(walk_render st); [|by destruct Hr as (_ & _ & _ & ?)|by eapply represents_render_le].
    rewrite normalize_path_from_unfold, Hsl.
    apply push_components_agrees; [apply empty_root_represents|apply Forall_no_slash]. }
  destruct (Path.normalize_path_from cwd' (render st)) as [[p'|]|]; try done.
  exists p'. split; [done|]. by apply represents_as_str.
Qed.

(** A relative path is resolved as if it were appended to the working
    directory, byte for byte of the resulting buffer. *)
Theorem normalize_relative_append (cwd path : bytes) :
  starts_with_slash path = false -> starts_with_slash cwd = true ->
  Path.normalize_path_from cwd path = Path.normalize_path (cwd ++ [SLASH] ++ path).
Proof.
  intros Hp Hc. unfold Path.normalize_path. rewrite !normalize_path_from_unfold, Hp.
  assert (starts_with_slash (cwd ++ [SLASH] ++ path) = true) as -> by (by destruct cwd).
  cbn [app]. by rewrite split_on_app.
Qed.

(** ** Witnesses *)

Definition sample_path : NormalizedPath :=
  match Path.normalize_path_from (str "/bin") (str "./../tmp//notes/..") with
  | Done (Ok p) => p
  | _ => Path.root
  end.

Example sample_path_text : Path.as_str sample_path = Done (str "/tmp").
Proof. vm_compute. reflexivity. Qed.

Lemma normalized_path_canonical_witness :
  exists st, Path.as_str sample_path = Done (Spec.render st) /\ Forall Spec.good st /\
    (length (Spec.render st) <= MAX_NORMALIZED_PATH_LEN)%nat.
Proof.
  apply (normalized_path_canonical (str "/bin") (str "./../tmp//notes/..") sample_path);
    vm_compute; reflexivity.
Defined.

Lemma normalize_idempotent_witness :
  exists p', Path.normalize_path_from (str "/bin") (str "/tmp") = Done (Ok p') /\
    Path.as_str p' = Done (str "/tmp").
Proof.
  apply (normalize_idempotent (str "/bin") (str "./../tmp//notes/..") (str "/bin") sample_path);
    vm_compute; reflexivity.
Defined.

Lemma normalize_relative_append_witness :
  Path.normalize_path_from (str "/bin") (str "../tmp") = Path.normalize_path (str "/bin/../tmp").
Proof. apply (normalize_relative_append (str "/bin") (str "../tmp")); reflexivity. Defined.
