(* ===== verification/Vfs.v ===== *)
(** * The virtual file system (kernel/src/fs.rs)

    [Backend] is the trait [FilesystemBackend]; a mount table maps path
    prefixes to backends.  The operations normalise the caller's path,
    choose the mount with the longest matching path, and hand the rest of
    the path to its backend.  Everything is generic in the backends' state
    [S]; RamFs.v supplies an instance. *)

From S2P Require Import Prelude Utf8 Paths.

(** ** Data *)

Record BackendStat := mkStat {
  bs_file_type : FileType;
  bs_size : nat;
  bs_readonly : bool;
  bs_inode : Z;
}.

Record VfsNodeId := mkNode { node_mount : Z; node_inode : Z }.

Record FileStat := mkFileStat {
  fs_path : NormalizedPath;
  fs_file_type : FileType;
  fs_size : nat;
  fs_readonly : bool;
  fs_node : VfsNodeId;
}.

Record OpenTarget := mkTarget {
  ot_path : NormalizedPath;
  ot_file_type : FileType;
  ot_readonly : bool;
  ot_node : VfsNodeId;
}.

Definition VfsNodeId_eqb (a b : VfsNodeId) : bool :=
  (node_mount a =? node_mount b) && (node_inode a =? node_inode b).

(** The trait.  [list] and [read] also return the caller's buffer, which they
    may have written before failing. *)
Record Backend (S : Type) := mkBackend {
  be_name : bytes;
  be_available : S -> bool;
  be_list : bytes -> bytes -> M S (result nat FsError * bytes);
  be_stat : bytes -> M S (result BackendStat FsError);
  be_read : Z -> nat -> bytes -> M S (result nat FsError * bytes);
  be_write : Z -> nat -> bytes -> M S (result nat FsError);
  be_create : bytes -> M S (result BackendStat FsError);
  be_mkdir : bytes -> M S (result BackendStat FsError);
  be_unlink : bytes -> M S (result Z FsError);
  be_rmdir : bytes -> M S (result Z FsError);
  be_rename : bytes -> bytes -> M S (result Z FsError);
}.
Arguments be_name {S} _.
Arguments be_available {S} _ _.
Arguments be_list {S} _ _ _.
Arguments be_stat {S} _ _.
Arguments be_read {S} _ _ _ _.
Arguments be_write {S} _ _ _ _.
Arguments be_create {S} _ _.
Arguments be_mkdir {S} _ _.
Arguments be_unlink {S} _ _.
Arguments be_rmdir {S} _ _.
Arguments be_rename {S} _ _ _.

Record Mount (S : Type) := mkMount {
  mnt_id : Z;
  mnt_path : bytes;
  mnt_backend : Backend S;
}.
Arguments mnt_id {S} _.
Arguments mnt_path {S} _.
Arguments mnt_backend {S} _.
Arguments mkMount {S} _ _ _.

(** ** Path tests *)

Definition path_matches_mount (path mount_path : bytes) : bool :=
  bytes_eqb mount_path [SLASH]
  || bytes_eqb path mount_path
  || match strip_prefix path mount_path with
     | Some suffix => starts_with_slash suffix
     | None => false
     end.

Definition strip_mount_path (path mount_path : bytes) : bytes :=
  if bytes_eqb mount_path [SLASH] then path else
  match default path (strip_prefix path mount_path) with
  | [] => [SLASH]
  | suffix => suffix
  end.

Definition direct_mount_child (directory mount_path : bytes) : option bytes :=
  if bytes_eqb mount_path [SLASH] then None else
  suffix ← (if bytes_eqb directory [SLASH] then strip_prefix mount_path [SLASH]
            else rest ← strip_prefix mount_path directory; strip_prefix rest [SLASH]);
  if negb (bytes_eqb suffix []) && negb (existsb (fun c => c =? SLASH) suffix)
  then Some suffix else None.

Definition append_line (out : bytes) (offset : nat) (value : bytes) :
    outcome (result nat FsError * bytes) :=
  match usize_checked_add offset (length value + 1) with
  | None => Done (Err BufferTooSmall, out)
  | Some end_ =>
    if (length out <? end_)%nat then Done (Err BufferTooSmall, out) else
    out ← copy_slice out offset (offset + length value) value;
    out ← index_set out (end_ - 1) 10;
    mret (Ok end_, out)
  end.

(** [max_by_key]: the last of the maximal elements. *)
Fixpoint max_by_key {A} (key : A -> nat) (l : list A) : option A :=
  match l with
  | [] => None
  | x :: l =>
    match max_by_key key l with
    | None => Some x
    | Some y => if (key y <? key x)%nat then Some x else Some y
    end
  end.

(** ** Operations *)

Section vfs.
Context {S : Type} (mounts : list (Mount S)).

Definition resolve (path : bytes) : M S (result (Mount S * bytes) FsError) :=
  s ← get;
  mret (match max_by_key (fun m => length (mnt_path m))
          (List.filter (fun m => be_available (mnt_backend m) s && path_matches_mount path (mnt_path m)) mounts) with
        | None => Err NotFound
        | Some m => Ok (m, strip_mount_path path (mnt_path m))
        end).

Definition mount (id : Z) : result (Mount S) FsError :=
  ok_or (List.find (fun m => mnt_id m =? id) mounts) StaleNode.

Definition normalized_text (cwd path : bytes) : M S (result (NormalizedPath * bytes) FsError) :=
  try p := lift (Path.normalize_path_from cwd path) in
  s ← lift (Path.as_str p);
  mret (Ok (p, s)).

Definition vfs_stat (path : NormalizedPath) : M S (result FileStat FsError) :=
  text ← lift (Path.as_str path);
  try '(m, backend_path) := resolve text in
  try st := be_stat (mnt_backend m) backend_path in
  mret (Ok (mkFileStat path (bs_file_type st) (bs_size st) (bs_readonly st)
                       (mkNode (mnt_id m) (bs_inode st)))).

Fixpoint list_mounts (dir : bytes) (ms : list (Mount S)) (out : bytes) (written : nat) :
    M S (result nat FsError * bytes) :=
  match ms with
  | [] => mret (Ok written, out)
  | m :: ms =>
    s ← get;
    if negb (be_available (mnt_backend m) s) then list_mounts dir ms out written else
    match direct_mount_child dir (mnt_path m) with
    | None => list_mounts dir ms out written
    | Some name =>
      '(r, out) ← lift (append_line out written name);
      match r with
      | Ok written => list_mounts dir ms out written
      | Err e => mret (Err e, out)
      end
    end
  end.

Definition list_to_buffer (cwd path out : bytes) : M S (result nat FsError * bytes) :=
  r ← normalized_text cwd path;
  match r with
  | Err e => mret (Err e, out)
  | Ok (_, text) =>
    r ← resolve text;
    match r with
    | Err e => mret (Err e, out)
    | Ok (m, backend_path) =>
      '(r, out) ← be_list (mnt_backend m) backend_path out;
      match r with
      | Err e => mret (Err e, out)
      | Ok written => list_mounts text mounts out written
      end
    end
  end.

Definition read_node (node : VfsNodeId) (offset : nat) (out : bytes) :
    M S (result nat FsError * bytes) :=
  match mount (node_mount node) with
  | Err e => mret (Err e, out)
  | Ok m => be_read (mnt_backend m) (node_inode node) offset out
  end.

Definition write_node (node : VfsNodeId) (offset : nat) (source : bytes) : M S (result nat FsError) :=
  match mount (node_mount node) with
  | Err e => mret (Err e)
  | Ok m => be_write (mnt_backend m) (node_inode node) offset source
  end.

Definition stat_from (cwd path : bytes) : M S (result FileStat FsError) :=
  try p := lift (Path.normalize_path_from cwd path) in vfs_stat p.

Definition stat (path : bytes) : M S (result FileStat FsError) := stat_from [SLASH] path.

Definition open_from (cwd path : bytes) : M S (result OpenTarget FsError) :=
  try st := stat_from cwd path in
  mret (Ok (mkTarget (fs_path st) (fs_file_type st) (fs_readonly st) (fs_node st))).

Definition read_to_buffer (cwd path out : bytes) : M S (result nat FsError * bytes) :=
  r ← open_from cwd path;
  match r with
  | Err e => mret (Err e, out)
  | Ok target =>
    if negb (FileType_eqb (ot_file_type target) File) then mret (Err IsDirectory, out)
    else read_node (ot_node target) 0 out
  end.

Definition create_from (cwd path : bytes) : M S (result OpenTarget FsError) :=
  try '(p, text) := normalized_text cwd path in
  try '(m, backend_path) := resolve text in
  try st := be_create (mnt_backend m) backend_path in
  mret (Ok (mkTarget p (bs_file_type st) (bs_readonly st) (mkNode (mnt_id m) (bs_inode st)))).

Definition mkdir_from (cwd path : bytes) : M S (result OpenTarget FsError) :=
  try '(p, text) := normalized_text cwd path in
  try '(m, backend_path) := resolve text in
  try st := be_mkdir (mnt_backend m) backend_path in
  mret (Ok (mkTarget p (bs_file_type st) (bs_readonly st) (mkNode (mnt_id m) (bs_inode st)))).

Definition unlink_from (cwd path : bytes) : M S (result Z FsError) :=
  try '(_, text) := normalized_text cwd path in
  try '(m, backend_path) := resolve text in
  be_unlink (mnt_backend m) backend_path.

Definition rmdir_from (cwd path : bytes) : M S (result Z FsError) :=
  try '(_, text) := normalized_text cwd path in
  try '(m, backend_path) := resolve text in
  be_rmdir (mnt_backend m) backend_path.

Definition rename_from (cwd old_path new_path : bytes) : M S (result Z FsError) :=
  try old_p := lift (Path.normalize_path_from cwd old_path) in
  try new_p := lift (Path.normalize_path_from cwd new_path) in
  old_text ← lift (Path.as_str old_p);
  try '(old_m, old_backend) := resolve old_text in
  new_text ← lift (Path.as_str new_p);
  try '(new_m, new_backend) := resolve new_text in
  if negb (mnt_id old_m =? mnt_id new_m) then mret (Err CrossDevice)
  else be_rename (mnt_backend old_m) old_backend new_backend.

End vfs.

(** ** Lemmas *)

Lemma strip_prefix_Some (s p r : bytes) : strip_prefix s p = Some r <-> s = p ++ r.
Proof.
  revert s; induction p as [|x p IH]; intros s; simpl.
  { split; [by intros [= ->]|by intros ->]. }
  destruct s as [|y s]; [done|]. destruct (Z.eqb_spec x y) as [->|Hne]; [|by split; intros [=]].
  rewrite IH. split; [by intros ->|by intros [= ->]].
Qed.

Lemma strip_prefix_app (p r : bytes) : strip_prefix (p ++ r) p = Some r.
Proof. by apply strip_prefix_Some. Qed.

Lemma render_app (st ms : list bytes) :
  st <> [] -> ms <> [] -> Spec.render (st ++ ms) = Spec.render ms ++ Spec.render st.
Proof.
  intros Hst Hms. induction st as [|c st IH]; [done|]. destruct st as [|d st].
  - destruct ms as [|m ms]; [done|]. done.
  - change ((c :: d :: st) ++ ms) with (c :: d :: (st ++ ms)).
    change (Spec.render (c :: d :: (st ++ ms))) with (Spec.render ((d :: st) ++ ms) ++ SLASH :: c).
    rewrite IH by done. by rewrite <-(assoc_L app).
Qed.

Lemma render_starts (st : list bytes) : exists r, Spec.render st = SLASH :: r.
Proof.
  induction st as [|c [|d st] IH]; [by eexists..|].
  destruct IH as [r Hr]. exists (r ++ SLASH :: c).
  change (Spec.render (c :: d :: st)) with (Spec.render (d :: st) ++ SLASH :: c). by rewrite Hr.
Qed.

Lemma good_render_ne_root (st : list bytes) :
  Forall Spec.good st -> st <> [] -> Spec.render st <> [SLASH].
Proof.
  intros Hg Hne Heq. pose proof (split_render st Hg Hne) as H. rewrite Heq in H. simpl in H.
  injection H as H. destruct st as [|c st]; [done|]. apply Forall_cons in Hg as [(Hc & _) _].
  simpl in H. destruct (rev st) as [|x l]; simpl in H; [congruence|].
  by destruct l.
Qed.

Lemma render_inj (st ms : list bytes) :
  Forall Spec.good st -> Forall Spec.good ms -> Spec.render st = Spec.render ms -> st = ms.
Proof.
  intros Hst Hms Heq.
  destruct (decide (st = [])) as [->|H1], (decide (ms = [])) as [->|H2]; [done|..].
  - by destruct (good_render_ne_root ms Hms H2).
  - by destruct (good_render_ne_root st Hst H1).
  - pose proof (split_render st Hst H1) as E1. rewrite Heq, split_render in E1 by done.
    injection E1 as E1. apply (f_equal (@rev _)) in E1. by rewrite !rev_involutive in E1.
Qed.

Lemma max_by_key_spec {A} (key : A -> nat) (l : list A) :
  match max_by_key key l with
  | None => l = []
  | Some x => x ∈ l /\ forall y, y ∈ l -> (key y <= key x)%nat
  end.
Proof.
  induction l as [|x l IH]; simpl; [done|].
  destruct (max_by_key key l) as [y|].
  - destruct IH as [Hy Hmax]. destruct (Nat.ltb_spec (key y) (key x)); (split; [set_solver|]);
      intros z [->|Hz]%elem_of_cons; try lia; specialize (Hmax z Hz); lia.
  - subst l. split; [set_solver|]. intros y [->|Hy]%elem_of_cons; [lia|set_solver].
Qed.

(** ** Properties *)

(** Between normalised paths, the mount test is exactly component-prefix
    inclusion (so ["/device"] is not under ["/dev"]), and the path handed to
    the backend is the normalised rendering of the remaining components. *)
Theorem mount_match_is_component_prefix (st ms : list bytes) :
  Forall Spec.good st -> Forall Spec.good ms ->
  (path_matches_mount (Spec.render st) (Spec.render ms) = true <-> exists rest, st = rest ++ ms) /\
  (forall rest, st = rest ++ ms ->
     strip_mount_path (Spec.render st) (Spec.render ms) = Spec.render rest).
Proof.
  intros Hst Hms. split.
  - unfold path_matches_mount. rewrite !orb_true_iff, !bytes_eqb_eq. split.
    + intros [[H|H]|H].
      * exists st. destruct (decide (ms = [])) as [->|Hne]; [by rewrite app_nil_r|].
        by destruct (good_render_ne_root ms Hms Hne).
      * exists []. by apply render_inj.
      * destruct (strip_prefix _ _) as [suffix|] eqn:E; [|done].
        apply strip_prefix_Some in E. destruct suffix as [|x rest]; [done|]. apply Z.eqb_eq in H as ->.
        destruct (decide (ms = [])) as [->|Hms0]; [exists st; by rewrite app_nil_r|].
        destruct (decide (st = [])) as [->|Hst0].
        { exfalso. destruct (render_starts ms) as [r Hr]. rewrite Hr in E.
          apply (f_equal length) in E. rewrite length_app in E. simpl in E. lia. }
        pose proof (split_render st Hst Hst0) as Hs. rewrite E, split_on_app, split_render in Hs by done.
        simpl in Hs. injection Hs as Hs. apply (f_equal (@rev _)) in Hs.
        rewrite rev_app_distr, !rev_involutive in Hs. eauto.
    + intros [rest ->]. destruct (decide (ms = [])) as [->|Hms0]; [by left; left|].
      destruct (decide (rest = [])) as [->|Hr0]; [left; by right|right].
      rewrite render_app, strip_prefix_app by done. by destruct (render_starts rest) as [r ->].
  - intros rest ->. unfold strip_mount_path.
    destruct (decide (ms = [])) as [->|Hms0]; [by rewrite app_nil_r|].
    assert (bytes_eqb (Spec.render ms) [SLASH] = false) as ->.
    { apply bytes_eqb_neq. by apply good_render_ne_root. }
    destruct (decide (rest = [])) as [->|Hr0].
    { pose proof (strip_prefix_app (Spec.render ms) []) as E. rewrite app_nil_r in E. simpl. by rewrite E. }
    rewrite render_app, strip_prefix_app by done. simpl. by destruct (render_starts rest) as [r ->].
Qed.

(** The resolver picks an available mount that matches and whose path is
    the longest among those, reports [NotFound] exactly when none matches,
    and never changes state. *)
Theorem resolve_longest_match {S} (mounts : list (Mount S)) (path : bytes) (s : S) :
  let fits m := be_available (mnt_backend m) s && path_matches_mount path (mnt_path m) in
  match resolve mounts path s with
  | Done (Ok (m, rest), s') =>
      s' = s /\ m ∈ mounts /\ fits m = true /\ rest = strip_mount_path path (mnt_path m) /\
      (forall m', m' ∈ mounts -> fits m' = true -> (length (mnt_path m') <= length (mnt_path m))%nat)
  | Done (Err e, s') => s' = s /\ e = NotFound /\ forall m, m ∈ mounts -> fits m = false
  | Panic => False
  end.
Proof.
  intros fits. unfold resolve. run.
  pose proof (max_by_key_spec (fun m : Mount S => length (mnt_path m)) (List.filter fits mounts)) as H.
  fold fits. destruct (max_by_key _ _) as [m|].
  - destruct H as [Hm Hmax]. apply list_elem_of_In, List.filter_In in Hm as [Hm Hf].
    split_and!; [done|by apply list_elem_of_In|done|done|].
    intros m' Hm' Hf'. apply Hmax. apply list_elem_of_In, List.filter_In. split; [by apply list_elem_of_In|done].
  - split_and!; [done..|]. intros m Hm. apply not_true_is_false. intros Hf.
    assert (m ∈ List.filter fits mounts) as Hin.
    { apply list_elem_of_In, List.filter_In. split; [by apply list_elem_of_In|done]. }
    rewrite H in Hin. by apply elem_of_nil in Hin.
Qed.

Lemma mount_match_is_component_prefix_witness :
  let st := [str "tty"; str "dev"] in let ms := [str "dev"] in
  (path_matches_mount (Spec.render st) (Spec.render ms) = true <-> exists rest, st = rest ++ ms) /\
  (forall rest, st = rest ++ ms ->
     strip_mount_path (Spec.render st) (Spec.render ms) = Spec.render rest).
Proof.
  intros st ms. apply (mount_match_is_component_prefix st ms);
    repeat constructor; try discriminate;
    intros H; apply list_elem_of_In in H; simpl in H; repeat destruct H as [H|H]; discriminate || contradiction.
Defined.
