(* ===== verification/Tree.v ===== *)
(** * Trees of files

    The abstract file system: a finite map from inodes to nodes that name
    their parent.  Paths are lists of names walked down from the root.  The
    operations of a file system are single updates of the map; this file shows
    when an update keeps a tree and what it does to the paths. *)

From stdpp Require Import gmap.
From S2P Require Import Prelude Paths.

Record tnode := mkTnode { tn_parent : Z; tn_name : bytes; tn_type : FileType; tn_data : bytes; tn_len : nat }.

#[export] Instance eta_tnode : Eta tnode := fun r => mkTnode (tn_parent r) (tn_name r) (tn_type r) (tn_data r) (tn_len r).

Abbreviation tree := (gmap Z tnode).

Section tree.
Context (root : Z).
Implicit Types (t : tree) (n : tnode) (i j p : Z) (c : bytes) (cs ds : list bytes).

(** The directory [p] has the entry [c], which is [i]. *)
Definition edge t p c i : Prop := exists n, t !! i = Some n /\ tn_parent n = p /\ tn_name n = c.

(** The path [cs] leads from [p] to the inode. *)
Inductive walk t : Z -> list bytes -> Z -> Prop :=
  | walk_here p : walk t p [] p
  | walk_down p c i cs j : edge t p c i -> walk t i cs j -> walk t p (c :: cs) j.

Definition directory t i : Prop := i = root \/ exists n, t !! i = Some n /\ tn_type n = Directory.

(** Following parents from [i] passes the inodes [l], [i] first, and reaches
    the root. *)
Inductive above t : Z -> list Z -> Prop :=
  | above_root : above t root []
  | above_step i n l : t !! i = Some n -> above t (tn_parent n) l -> above t i (i :: l).

Record tree_ok t : Prop := {
  to_root : t !! root = None;
  to_names : forall p c i j, edge t p c i -> edge t p c j -> i = j;
  to_parents : forall i n, t !! i = Some n -> directory t (tn_parent n);
  to_above : forall i n, t !! i = Some n -> exists l, above t i l;
}.

Lemma empty_ok : tree_ok ∅.
Proof. split; [done|by intros ???? (? & ? & _)|by intros ??|by intros ??]. Qed.

(** ** Walks *)

Lemma walk_join t p cs ds j : walk t p (cs ++ ds) j <-> exists i, walk t p cs i /\ walk t i ds j.
Proof.
  split.
  - revert p. induction cs as [|c cs IH]; intros p H; [by exists p; split; [constructor|]|].
    inversion H; subst. destruct (IH i) as (k & Hk & Hj); [done|]. exists k. split; [by econstructor|done].
  - intros (i & Hi & Hj). induction Hi; [done|]. econstructor; [done|by apply IHHi].
Qed.

Lemma walk_one t p c j : walk t p [c] j <-> edge t p c j.
Proof.
  split; [|by intros; econstructor; [|constructor]]. inversion 1 as [|? ? i ? ? He Hw]; subst. by inversion Hw; subst.
Qed.

Lemma walk_snoc t p cs c j : walk t p (cs ++ [c]) j <-> exists i, walk t p cs i /\ edge t i c j.
Proof. rewrite walk_join. by setoid_rewrite walk_one. Qed.

Lemma walk_end t p cs j : walk t p cs j -> j = p \/ exists n, t !! j = Some n.
Proof.
  destruct cs as [|c cs _] using rev_ind; [inversion 1; by left|]. rewrite walk_snoc. intros (i & _ & n & Hn & _). eauto.
Qed.

Lemma walk_unique t p cs i j : tree_ok t -> walk t p cs i -> walk t p cs j -> i = j.
Proof.
  intros Ht Hi. revert j. induction Hi as [|p c k cs i He _ IH]; intros j; inversion 1 as [|? ? k' ? ? He' Hw]; subst; [done|].
  apply IH. by rewrite (to_names t Ht p c k k').
Qed.

Section ok.
Context t (Ht : tree_ok t).

Lemma edge_not_root p c : ~ edge t p c root.
Proof using Ht. intros (n & Hn & _). rewrite (to_root t Ht) in Hn. done. Qed.

Lemma walk_fun p cs i j : walk t p cs i -> walk t p cs j -> i = j.
Proof using Ht. by apply walk_unique. Qed.

(** A node is reached by one path only. *)
Lemma walk_inj cs ds i : walk t root cs i -> walk t root ds i -> cs = ds.
Proof using Ht.
  revert ds i. induction cs as [|c cs IH] using rev_ind; intros ds i Hc Hd.
  - inversion Hc; subst. destruct ds as [|d ds _] using rev_ind; [done|]. apply walk_snoc in Hd as (k & _ & He). by apply edge_not_root in He.
  - apply walk_snoc in Hc as (k & Hk & n & Hn & Hp & Hnm). destruct ds as [|d ds _] using rev_ind.
    + inversion Hd; subst. by rewrite (to_root t Ht) in Hn.
    + apply walk_snoc in Hd as (k' & Hk' & n' & Hn' & Hp' & Hnm'). simplify_eq. f_equal. by apply (IH ds (tn_parent n)).
Qed.

Lemma above_fun i l l' : above t i l -> above t i l' -> l = l'.
Proof using Ht.
  intros H. revert l'. induction H as [|i n l Hn _ IH]; intros l'; inversion 1; subst; [done| | |].
  - by rewrite (to_root t Ht) in *.
  - by rewrite (to_root t Ht) in *.
  - simplify_eq. f_equal. by apply IH.
Qed.

Lemma above_suffix i l j : above t i l -> j ∈ l -> exists l1 l2, l = l1 ++ j :: l2 /\ above t j (j :: l2).
Proof using.
  induction 1 as [|i n l Hn Ha IH]; [by intros ?%not_elem_of_nil|].
  intros [->|Hj]%elem_of_cons; [exists [], l; split; [done|by econstructor]|].
  destruct (IH Hj) as (l1 & l2 & -> & ?). by exists (i :: l1), l2.
Qed.

Lemma above_nodup i l : above t i l -> NoDup l.
Proof using Ht.
  induction 1 as [|i n l Hn Ha IH]; constructor; [|done]. intros Hin.
  destruct (above_suffix _ _ _ Ha Hin) as (l1 & l2 & -> & Ha').
  pose proof (above_fun _ _ _ Ha' (above_step _ _ _ _ Hn Ha)) as Heq.
  apply (f_equal length) in Heq. simpl in Heq. rewrite length_app in Heq. simpl in Heq. lia.
Qed.

(** An ancestor walk takes at most one round per node. *)
Lemma above_length i l : above t i l -> (length l <= size t)%nat.
Proof using Ht.
  intros Ha. rewrite <-size_dom, <-(size_list_to_set (C := gset Z) l) by (by eapply above_nodup). apply subseteq_size. intros j Hj%elem_of_list_to_set.
  destruct (above_suffix _ _ _ Ha Hj) as (_ & l2 & _ & Ha'). apply elem_of_dom. inversion Ha'; subst; eauto.
Qed.

Lemma directory_above i : directory t i -> exists l, above t i l.
Proof using Ht. intros [->|(n & Hn & _)]; [exists []; constructor|by apply (to_above t Ht i n)]. Qed.

(** The ancestors of a node are what the prefixes of its path lead to. *)
Lemma walk_above cs i : walk t root cs i -> exists l, above t i l /\
  forall j, j ∈ l <-> exists ps rest, cs = ps ++ rest /\ ps <> [] /\ walk t root ps j.
Proof using Ht.
  revert i. induction cs as [|c cs IH] using rev_ind; intros i Hi.
  - inversion Hi; subst. exists []. split; [constructor|]. intros j. split; [by intros ?%not_elem_of_nil|].
    intros ([|??] & ? & ? & ? & _); done.
  - pose proof Hi as (p & Hp & n & Hn & Hpar & Hnm)%walk_snoc. destruct (IH p Hp) as (l & Hl & Hiff). exists (i :: l).
    split; [econstructor; [done|by rewrite Hpar]|]. intros j. rewrite elem_of_cons, Hiff. split.
    + intros [->|(ps & rest & -> & Hne & Hd)].
      * exists (cs ++ [c]), []. rewrite app_nil_r. split; [done|split; [|done]]. by destruct cs.
      * exists ps, (rest ++ [c]). by rewrite app_assoc.
    + intros (ps & rest & Heq & Hne & Hd). destruct rest as [|r rest _] using rev_ind.
      * rewrite app_nil_r in Heq. subst ps. left. by apply (walk_fun root (cs ++ [c])).
      * rewrite app_assoc in Heq. apply app_inj_tail in Heq as [-> ->]. right. eauto.
Qed.

(** ** Adding a node *)

Section add.
Context i n.
Hypothesis Hi : t !! i = None.
Hypothesis Hroot : i <> root.
Hypothesis Hdir : directory t (tn_parent n).
Hypothesis Hfree : forall j, ~ edge t (tn_parent n) (tn_name n) j.

Lemma edge_add p c j : edge (<[i := n]> t) p c j <-> edge t p c j \/ (j = i /\ p = tn_parent n /\ c = tn_name n).
Proof using Hi.
  clear -Hi. unfold edge. destruct (decide (j = i)) as [->|Hne].
  - rewrite lookup_insert_eq, Hi. naive_solver.
  - rewrite lookup_insert_ne by done. naive_solver.
Qed.

Lemma no_child_yet c j : ~ edge t i c j.
Proof using Ht Hi Hroot. intros (m & Hm & <- & _). destruct (to_parents t Ht j m Hm) as [?|(k & Hk & _)]; congruence. Qed.

Lemma above_add k l : above t k l -> above (<[i := n]> t) k l.
Proof using Hi.
  clear -Hi. induction 1 as [|k m l Hm _ IH]; [constructor|]. econstructor; [|exact IH]. rewrite lookup_insert_ne; [done|]. congruence.
Qed.

Lemma directory_add k : directory t k -> directory (<[i := n]> t) k.
Proof using Hi. clear -Hi. intros [->|(m & Hm & Hd)]; [by left|]. right. exists m. split; [|done]. rewrite lookup_insert_ne; [done|]. congruence. Qed.

Lemma tree_add_ok : tree_ok (<[i := n]> t).
Proof using Ht Hi Hroot Hdir Hfree.
  split.
  - rewrite lookup_insert_ne by done. apply (to_root t Ht).
  - intros p c j k Hj%edge_add Hk%edge_add. destruct Hj as [Hj|(-> & -> & ->)], Hk as [Hk|(-> & E1 & E2)]; subst; try done; [|by destruct (Hfree j)|by destruct (Hfree k)].
    by apply (to_names t Ht p c).
  - intros k m. rewrite lookup_insert_Some. intros [[<- <-]|[_ Hm]]; apply directory_add; [done|by apply (to_parents t Ht k m)].
  - intros k m. rewrite lookup_insert_Some. intros [[<- <-]|[_ Hm]].
    + destruct (directory_above _ Hdir) as [l Hl]. exists (i :: l). econstructor; [apply lookup_insert_eq|by apply above_add].
    + destruct (to_above t Ht k m Hm) as [l Hl]. exists l. by apply above_add.
Qed.

Lemma walk_add_mono p cs j : walk t p cs j -> walk (<[i := n]> t) p cs j.
Proof using Hi. clear -Hi. induction 1; [constructor|]. econstructor; [apply edge_add; eauto|done]. Qed.

(** The paths are those there were and the one of the new node. *)
Lemma walk_add cs j : walk (<[i := n]> t) root cs j <->
  walk t root cs j \/ (j = i /\ exists ps, cs = ps ++ [tn_name n] /\ walk t root ps (tn_parent n)).
Proof using Ht Hi Hroot Hdir.
  split.
  - revert j. induction cs as [|c cs IH] using rev_ind; intros j.
    + inversion 1; subst. left. constructor.
    + rewrite !walk_snoc. intros (k & [Hk|[-> _]]%IH & He%edge_add).
      * destruct He as [He|(-> & -> & ->)]; [left; eauto|]. right. split; [done|]. by exists cs.
      * destruct He as [He|(-> & E & _)]; [by apply no_child_yet in He|]. destruct Hdir as [?|(m & Hm & _)]; congruence.
  - intros [Hw|(-> & ps & -> & Hw)].
    + by apply walk_add_mono.
    + apply walk_snoc. exists (tn_parent n). split; [by apply walk_add_mono|apply edge_add; auto].
Qed.
End add.

(** ** Removing a node without children *)

Section remove.
Context i.
Hypothesis Hleaf : forall j n, t !! j = Some n -> tn_parent n <> i.

Lemma edge_remove p c j : edge (delete i t) p c j <-> edge t p c j /\ j <> i.
Proof using. clear. unfold edge. setoid_rewrite lookup_delete_Some. naive_solver. Qed.

Lemma above_remove k l : above t k l -> k <> i -> above (delete i t) k l.
Proof using Hleaf.
  clear -Hleaf. induction 1 as [|k m l Hm _ IH]; intros Hne; [constructor|]. econstructor; [by rewrite lookup_delete_ne|]. apply IH. by apply (Hleaf k).
Qed.

Lemma tree_remove_ok : tree_ok (delete i t).
Proof using Ht Hleaf.
  split.
  - rewrite lookup_delete_None. right. apply (to_root t Ht).
  - intros p c j k [Hj _]%edge_remove [Hk _]%edge_remove. by apply (to_names t Ht p c).
  - intros k m [Hk Hm]%lookup_delete_Some. destruct (to_parents t Ht k m Hm) as [?|(q & Hq & Hd)]; [by left|]. right. exists q. split; [|done].
    rewrite lookup_delete_ne; [done|]. intros E. by apply (Hleaf k m).
  - intros k m [Hk Hm]%lookup_delete_Some. destruct (to_above t Ht k m Hm) as [l Hl]. exists l. by apply above_remove.
Qed.

(** Exactly its path is gone. *)
Lemma walk_remove cs j : i <> root -> walk (delete i t) root cs j <-> walk t root cs j /\ j <> i.
Proof using Hleaf.
  clear -Hleaf. intros Hroot. revert j. induction cs as [|c cs IH] using rev_ind; intros j.
  - split; [inversion 1; subst; by split; [constructor|]|]. intros [H _]. inversion H; subst. constructor.
  - rewrite !walk_snoc. setoid_rewrite edge_remove. split.
    + intros (k & [Hk _]%IH & He & Hne). eauto.
    + intros ((k & Hk & He) & Hne). exists k. split; [|done]. apply IH. split; [done|]. intros ->. destruct He as (m & Hm & Hp & _). by apply (Hleaf j m).
Qed.
End remove.

(** ** Changing the contents of a node *)

Section change.
Context i n n'.
Hypothesis Hi : t !! i = Some n.
Hypothesis Hsame : tn_parent n' = tn_parent n /\ tn_name n' = tn_name n /\ tn_type n' = tn_type n.

Lemma edge_change p c j : edge (<[i := n']> t) p c j <-> edge t p c j.
Proof using Hi Hsame.
  clear -Hi Hsame. unfold edge. destruct Hsame as (E1 & E2 & _). destruct (decide (j = i)) as [->|Hne]; [|by rewrite lookup_insert_ne].
  rewrite lookup_insert_eq, Hi. split; intros (m & [= <-] & <- & <-); eexists; split; [done|by rewrite ?E1, ?E2|done|by rewrite ?E1, ?E2].
Qed.

Lemma walk_change p cs j : walk (<[i := n']> t) p cs j <-> walk t p cs j.
Proof using Hi Hsame. clear -Hi Hsame. split; (induction 1; [constructor|]; econstructor; [by apply edge_change|done]). Qed.

Lemma directory_change k : directory (<[i := n']> t) k <-> directory t k.
Proof using Hi Hsame.
  clear -Hi Hsame. unfold directory. destruct Hsame as (_ & _ & E). destruct (decide (k = i)) as [->|Hne]; [|by rewrite lookup_insert_ne].
  rewrite lookup_insert_eq, Hi. split; (intros [?|(m & [= <-] & Hd)]; [by left|]); right; eexists; (split; [done|congruence]).
Qed.

Lemma tree_change_ok : tree_ok (<[i := n']> t).
Proof using Ht Hi Hsame.
  split.
  - rewrite lookup_insert_ne; [apply (to_root t Ht)|]. intros ->. by rewrite (to_root t Ht) in Hi.
  - intros p c j k Hj%edge_change Hk%edge_change. by apply (to_names t Ht p c).
  - intros k m. rewrite lookup_insert_Some. intros [[<- <-]|[_ Hm]]; apply directory_change; [|by apply (to_parents t Ht k)].
    destruct Hsame as (-> & _). by apply (to_parents t Ht i).
  - assert (forall k l, above t k l -> above (<[i := n']> t) k l) as Hup.
    { induction 1 as [|k m l Hm _ IH]; [constructor|]. destruct (decide (k = i)) as [->|Hne].
      - simplify_eq. destruct Hsame as (E & _). econstructor; [apply lookup_insert_eq|by rewrite E].
      - econstructor; [by rewrite lookup_insert_ne|done]. }
    intros k m Hm. assert (is_Some (t !! k)) as [m' Hm'] by (apply lookup_insert_Some in Hm; naive_solver).
    destruct (to_above t Ht k m' Hm') as [l Hl]. eauto.
Qed.
End change.

Lemma walk_above_in i n cs k : t !! i = Some n -> walk t i cs k -> exists l, above t k l /\ i ∈ l.
Proof using Ht.
  intros Hi. revert k. induction cs as [|c cs IH] using rev_ind; intros k Hw.
  - inversion Hw; subst. destruct (to_above t Ht k n Hi) as [l Hl]. exists l. split; [done|].
    inversion Hl; subst; [by rewrite (to_root t Ht) in Hi|apply list_elem_of_here].
  - apply walk_snoc in Hw as (p & Hp & m & Hm & <- & _). destruct (IH _ Hp) as (l & Hl & Hin). exists (k :: l).
    split; [by econstructor|by apply list_elem_of_further].
Qed.

(** ** Moving a node *)

Section move.
Context i n (np : Z) (nc : bytes).
Hypothesis Hi : t !! i = Some n.
Hypothesis Hdir : directory t np.
Hypothesis Hfree : forall j, ~ edge t np nc j.
Hypothesis Hbelow : forall l, above t np l -> i ∉ l.
Let t' : tree := <[i := n <| tn_parent := np |> <| tn_name := nc |>]> t.

Lemma move_not_root : i <> root.
Proof using Ht Hi. clear -Ht Hi. intros ->. by rewrite (to_root t Ht) in Hi. Qed.

Lemma edge_move p c j : edge t' p c j <-> (j = i /\ p = np /\ c = nc) \/ (j <> i /\ edge t p c j).
Proof using.
  clear. unfold edge, t'. destruct (decide (j = i)) as [->|Hne].
  - rewrite lookup_insert_eq. split; [|intros [(_ & -> & ->)|[? _]]; [|done]].
    + intros (m & [= <-] & <- & <-). by left.
    + by eexists.
  - rewrite lookup_insert_ne by done. naive_solver.
Qed.

Lemma above_move k l : above t k l -> i ∉ l -> above t' k l.
Proof using.
  clear. induction 1 as [|k m l Hm _ IH]; intros Hl; [constructor|]. apply not_elem_of_cons in Hl as [Hne Hl].
  econstructor; [unfold t'; by rewrite lookup_insert_ne|by apply IH].
Qed.

Lemma above_moved k l : above t k l -> exists l', above t' k l'.
Proof using Ht Hdir Hbelow.
  destruct (directory_above _ Hdir) as [lp Hlp]. pose proof (above_move _ _ Hlp (Hbelow _ Hlp)) as Hlp'. clear -Hlp'.
  induction 1 as [|k m l Hm _ [l' IH]]; [exists []; constructor|]. destruct (decide (k = i)) as [->|Hne].
  - exists (i :: lp). econstructor; [apply lookup_insert_eq|exact Hlp'].
  - exists (k :: l'). econstructor; [unfold t'; by rewrite lookup_insert_ne|done].
Qed.

Lemma directory_move k : directory t k -> directory t' k.
Proof using Hi.
  clear -Hi. intros [->|(m & Hm & Hd)]; [by left|]. right. unfold t'. destruct (decide (k = i)) as [->|Hne].
  - simplify_eq. eexists. split; [apply lookup_insert_eq|done].
  - exists m. by rewrite lookup_insert_ne.
Qed.

Lemma tree_move_ok : tree_ok t'.
Proof using Ht Hi Hdir Hfree Hbelow.
  split.
  - unfold t'. rewrite lookup_insert_ne by apply move_not_root. apply (to_root t Ht).
  - intros p c j k Hj%edge_move Hk%edge_move. destruct Hj as [(-> & -> & ->)|[_ Hj]], Hk as [(-> & E1 & E2)|[_ Hk]]; subst; try done.
    + by destruct (Hfree k).
    + by destruct (Hfree j).
    + by apply (to_names t Ht p c).
  - intros k m. unfold t' at 1. rewrite lookup_insert_Some. intros [[<- <-]|[_ Hm]]; apply directory_move; [done|by apply (to_parents t Ht k)].
  - intros k m. unfold t' at 1. rewrite lookup_insert_Some. intros Hk.
    assert (is_Some (t !! k)) as [m' Hm'] by (destruct Hk as [[<- _]|[_ ?]]; eauto).
    destruct (to_above t Ht k m' Hm') as [l Hl]. by apply (above_moved k l).
Qed.

(** Below the node nothing changes. *)
Lemma walk_move_below cs j : walk t' i cs j <-> walk t i cs j.
Proof using Ht Hi Hbelow.
  revert j. induction cs as [|c cs IH] using rev_ind; intros j.
  { split; (inversion 1; subst; constructor). }
  rewrite !walk_snoc. apply exist_proper. intros k. rewrite IH, edge_move. split.
  - intros [Hk [(-> & -> & ->)|[_ He]]]; [|done]. destruct (walk_above_in i n cs np Hi Hk) as (l & Hl & Hin). by destruct (Hbelow l Hl).
  - intros [Hk He]. split; [done|]. right. split; [|done]. intros ->.
    destruct (walk_above_in i n cs k Hi Hk) as (l & Hl & Hin). destruct He as (m & Hm & <- & _).
    pose proof (above_nodup _ _ (above_step t i m l Hm Hl)) as Hnd. by apply NoDup_cons in Hnd as [? _].
Qed.

Section paths.
Context (old ncs : list bytes).
Hypothesis Hold : walk t root old i.
Hypothesis Hnew : walk t root ncs np.

(** A path that extends neither the old nor the new path leads where it led. *)
Lemma walk_move_other cs j : ~ old `prefix_of` cs -> ~ (ncs ++ [nc]) `prefix_of` cs -> walk t' root cs j <-> walk t root cs j.
Proof using Ht Hold Hnew.
  revert j. induction cs as [|c cs IH] using rev_ind; intros j H1 H2.
  { split; (inversion 1; subst; constructor). }
  assert (forall l, ~ l `prefix_of` cs ++ [c] -> ~ l `prefix_of` cs) as Hpre by (intros l Hl Hp; apply Hl; by apply prefix_app_r).
  rewrite !walk_snoc. apply exist_proper. intros k. rewrite IH, edge_move by auto. split.
  - intros [Hk [(-> & -> & ->)|[_ He]]]; [|done]. rewrite (walk_inj cs ncs np) in H2 by done. by destruct H2.
  - intros [Hk He]. split; [done|]. right. split; [|done]. intros ->. destruct H1.
    rewrite (walk_inj old (cs ++ [c]) i); [done|done|]. apply walk_snoc. eauto.
Qed.

Lemma old_not_above : ~ old `prefix_of` ncs.
Proof using Ht Hi Hbelow Hold Hnew.
  intros [rest E]. destruct (walk_above ncs np Hnew) as (l & Hl & Hiff). apply (Hbelow l Hl), Hiff. exists old, rest.
  split; [done|]. split; [|done]. intros Eo. apply move_not_root. rewrite Eo in Hold. by inversion Hold.
Qed.

Lemma new_not_above cs c : old = cs ++ [c] -> ~ (ncs ++ [nc]) `prefix_of` cs.
Proof using Ht Hfree Hold Hnew.
  intros -> [rest ->]. rewrite <-!app_assoc in Hold. apply walk_join in Hold as (k & Hk & Hr). inversion Hr as [|? ? m ? ? He _]; subst.
  rewrite (walk_fun root ncs k np) in He by done. by destruct (Hfree m).
Qed.

Lemma old_snoc : exists cs c, old = cs ++ [c] /\ walk t root cs (tn_parent n) /\ c = tn_name n.
Proof using Ht Hi Hold.
  pose proof Hold as Ho. destruct old as [|c cs _] using rev_ind; [destruct move_not_root; by inversion Ho|]. exists cs, c.
  apply walk_snoc in Ho as (k & Hk & m & Hm & <- & <-). by simplify_eq.
Qed.

(** The node and what is below it are found under the new path, *)
Lemma walk_move_new rest j : walk t' root (ncs ++ nc :: rest) j <-> walk t root (old ++ rest) j.
Proof using Ht Hi Hdir Hfree Hbelow Hold Hnew.
  assert (walk t' root ncs np) as Hnp.
  { apply walk_move_other; [apply old_not_above| |done]. intros [r E]. apply (f_equal length) in E. rewrite !length_app in E. cbn in E. lia. }
  assert (edge t' np nc i) as He by (apply edge_move; auto).
  transitivity (walk t' i rest j); [|rewrite walk_move_below].
  - rewrite walk_join. split.
    + intros (k & Hk & Hr). inversion Hr as [|? ? m ? ? He' Hw]; subst. rewrite (walk_unique t' root ncs k np tree_move_ok Hk Hnp) in He'.
      by rewrite (to_names _ tree_move_ok _ _ _ _ He He').
    + intros Hw. exists np. split; [done|]. by econstructor.
  - rewrite walk_join. split; [eauto|]. intros (k & Hk & Hw). by rewrite (walk_fun root old i k).
Qed.

(** and no longer under the old one. *)
Lemma walk_move_old rest j : ~ walk t' root (old ++ rest) j.
Proof using Ht Hi Hdir Hfree Hbelow Hold Hnew.
  destruct old_snoc as (cs & c & E & Hcs & Hc). intros (m & Hm & _)%walk_join. rewrite E in Hm. apply walk_snoc in Hm as (k & Hk & He).
  apply walk_move_other in Hk; [|intros [r Er]; apply (f_equal length) in Er; rewrite E, !length_app in Er; cbn in Er; lia|by apply (new_not_above cs c)].
  rewrite (walk_fun root cs k (tn_parent n)) in He by done. apply edge_move in He as [(-> & E1 & E2)|[Hne He]].
  - apply (Hfree i). exists n. by subst.
  - apply Hne. apply (to_names t Ht (tn_parent n) c); [done|]. by exists n.
Qed.
End paths.
End move.
End ok.
End tree.
