(* ===== verification/RamFs.v ===== *)
(** * The RAM file system (kernel/src/fs/ramfs.rs)

    Read-only system files, the generated userland images under [/bin], and a
    writable tree under [/tmp] kept in a vector of at most 32 nodes linked by
    parent inode.  [WritableStore] is the state; the module [Store] follows
    its methods, [RamFs] the trait implementation. *)

From S2P Require Import Prelude Utf8 Paths Vfs.

(** ** Data *)

Definition MAX_WRITABLE_NODES : nat := 32.
Definition MAX_FILE_NAME_LEN : nat := 32.
Definition MAX_FILE_SIZE : nat := 1024.
Definition ROOT_INODE : Z := 1.
Definition BIN_INODE : Z := 2.
Definition TMP_INODE : Z := 3.
Definition FIRST_WRITABLE_INODE : Z := 10000.

Record WritableNode := mkWNode {
  wn_inode : Z;
  wn_parent : Z;
  wn_name : bytes;
  wn_name_len : nat;
  wn_file_type : FileType;
  wn_data : bytes;
  wn_len : nat;
}.

#[export] Instance eta_WritableNode : Eta WritableNode := fun r =>
  mkWNode (wn_inode r) (wn_parent r) (wn_name r) (wn_name_len r) (wn_file_type r) (wn_data r) (wn_len r).

Record WritableStore := mkWStore { ws_nodes : list WritableNode; ws_next_inode : Z }.

#[export] Instance eta_WritableStore : Eta WritableStore := fun r =>
  mkWStore (ws_nodes r) (ws_next_inode r).

Record FileEntry := mkEntry { fe_inode : Z; fe_path : bytes; fe_data : bytes }.

(** kernel/src/user/images.rs; the list itself is generated by the build. *)
Record UserlandImage := mkImage { im_path : bytes; im_name : bytes; im_data : bytes }.

Inductive StaticRef := BuiltIn (e : FileEntry) | Userland (i : UserlandImage).

(** [s.rfind(c)] *)
Fixpoint rfind (c : Z) (l : bytes) : option nat :=
  match l with
  | [] => None
  | x :: l => match rfind c l with
              | Some i => Some (S i)
              | None => if x =? c then Some 0%nat else None
              end
  end.

(** [iter().find] with a test that may panic. *)
Fixpoint findM {A} (p : A -> outcome bool) (l : list A) : outcome (option A) :=
  match l with
  | [] => mret None
  | x :: l => b ← p x; if (b : bool) then mret (Some x) else findM p l
  end.

Definition TMP : bytes := str "/tmp".
Definition TMP_SLASH : bytes := str "/tmp/".

Module Store.

Definition new_node (inode parent : Z) (name : bytes) (file_type : FileType) : outcome WritableNode :=
  n ← copy_slice (replicate MAX_FILE_NAME_LEN 0) 0 (length name) name;
  mret (mkWNode inode parent n (length name) file_type (replicate MAX_FILE_SIZE 0) 0).

Definition node_name (n : WritableNode) : outcome bytes :=
  s ← slice (wn_name n) 0 (wn_name_len n); mret (from_utf8_or_empty s).

Definition new : WritableStore := mkWStore [] FIRST_WRITABLE_INODE.

Definition child (nodes : list WritableNode) (parent : Z) (name : bytes) : outcome (option WritableNode) :=
  findM (fun n => if wn_parent n =? parent then s ← node_name n; mret (bytes_eqb s name)
                  else mret false) nodes.

Fixpoint resolve_components (nodes : list WritableNode) (parent : Z) (cs : list bytes) : outcome (option Z) :=
  match cs with
  | [] => mret (Some parent)
  | c :: cs =>
    if bytes_eqb c [] then mret None else
    o ← child nodes parent c;
    match o with
    | None => mret None
    | Some n => resolve_components nodes (wn_inode n) cs
    end
  end.

Definition resolve_path (nodes : list WritableNode) (path : bytes) : outcome (option Z) :=
  if bytes_eqb path TMP then mret (Some TMP_INODE) else
  match strip_prefix path TMP_SLASH with
  | None => mret None
  | Some relative => resolve_components nodes TMP_INODE (split_on SLASH relative)
  end.

Definition find_inode (nodes : list WritableNode) (inode : Z) : option WritableNode :=
  List.find (fun n => wn_inode n =? inode) nodes.

(** The walk to the root does not end on a cyclic store: [fuel] bounds it and
    [None] says the bound was reached (see [is_descendant_terminates]). *)
Fixpoint is_descendant_fuel (fuel : nat) (nodes : list WritableNode) (candidate ancestor : Z) : option bool :=
  match fuel with
  | O => None
  | S fuel =>
    if candidate =? TMP_INODE then Some false
    else if candidate =? ancestor then Some true
    else match find_inode nodes candidate with
         | None => Some false
         | Some n => is_descendant_fuel fuel nodes (wn_parent n) ancestor
         end
  end.

Definition is_descendant (nodes : list WritableNode) (candidate ancestor : Z) : option bool :=
  is_descendant_fuel (S (length nodes)) nodes candidate ancestor.

Definition split_parent_name (path : bytes) : outcome (result (bytes * bytes) FsError) :=
  if negb (is_some (strip_prefix path TMP_SLASH)) then Done (Err ReadOnly) else
  let? split := ok_or (rfind SLASH path) InvalidPath in
  parent ← (if (split =? 0)%nat then mret [SLASH] else slice path 0 split);
  name ← slice path (split + 1) (length path);
  if bytes_eqb name [] then Done (Err InvalidPath)
  else if (MAX_FILE_NAME_LEN <? length name)%nat then Done (Err NameTooLong)
  else Done (Ok (parent, name)).

(** [parent != TMP_INODE && find_inode(parent).is_none_or(not a directory)] *)
Definition not_a_directory (nodes : list WritableNode) (inode : Z) : bool :=
  negb (inode =? TMP_INODE)
  && match find_inode nodes inode with
     | None => true
     | Some n => negb (FileType_eqb (wn_file_type n) Directory)
     end.

Definition create (path : bytes) (file_type : FileType) : M WritableStore (result Z FsError) :=
  try '(parent_path, name) := lift (split_parent_name path) in
  s ← get;
  o ← lift (resolve_path (ws_nodes s) parent_path);
  match o with
  | None => mret (Err NotFound)
  | Some parent =>
    if not_a_directory (ws_nodes s) parent then mret (Err NotDirectory) else
    c ← lift (child (ws_nodes s) parent name);
    if is_some c then mret (Err AlreadyExists) else
    if (length (ws_nodes s) =? MAX_WRITABLE_NODES)%nat then mret (Err NoSpace) else
    let inode := ws_next_inode s in
    match u64_checked_add (ws_next_inode s) 1 with
    | None => mret (Err NoSpace)
    | Some next =>
      n ← lift (new_node inode parent name file_type);
      modify (fun _ => mkWStore (ws_nodes s ++ [n]) next);;
      mret (Ok inode)
    end
  end.

Definition write (inode : Z) (offset : nat) (source : bytes) : M WritableStore (result nat FsError) :=
  s ← get;
  match find_inode (ws_nodes s) inode with
  | None => mret (Err NotFound)
  | Some n =>
    if negb (FileType_eqb (wn_file_type n) File) then mret (Err IsDirectory) else
    match usize_checked_add offset (length source) with
    | None => mret (Err FileTooLarge)
    | Some end_ =>
      if (length (wn_data n) <? end_)%nat then mret (Err FileTooLarge) else
      d ← lift (copy_slice (wn_data n) offset end_ source);
      modify (fun s => s <| ws_nodes ::= find_upd (fun n => wn_inode n =? inode)
                (fun n => n <| wn_data := d |> <| wn_len := Nat.max (wn_len n) end_ |>) |>);;
      mret (Ok (length source))
    end
  end.

Definition remove (path : bytes) (expected : FileType) : M WritableStore (result Z FsError) :=
  s ← get;
  o ← lift (resolve_path (ws_nodes s) path);
  match o with
  | None => mret (Err NotFound)
  | Some inode =>
    if inode =? TMP_INODE then mret (Err ReadOnly) else
    match position (fun n => wn_inode n =? inode) (ws_nodes s) with
    | None => mret (Err NotFound)
    | Some i =>
      n ← lift (index (ws_nodes s) i);
      if negb (FileType_eqb (wn_file_type n) expected)
      then mret (Err (if FileType_eqb expected File then IsDirectory else NotDirectory)) else
      if FileType_eqb expected Directory && existsb (fun n => wn_parent n =? inode) (ws_nodes s)
      then mret (Err DirectoryNotEmpty) else
      modify (fun s => s <| ws_nodes := delete i (ws_nodes s) |>);;
      mret (Ok (wn_inode n))
    end
  end.

Definition rename (old_path new_path : bytes) : M WritableStore (result Z FsError) :=
  s ← get;
  o ← lift (resolve_path (ws_nodes s) old_path);
  match o with
  | None => mret (Err NotFound)
  | Some inode =>
    if inode =? TMP_INODE then mret (Err ReadOnly) else
    try '(new_parent_path, new_name) := lift (split_parent_name new_path) in
    o ← lift (resolve_path (ws_nodes s) new_parent_path);
    match o with
    | None => mret (Err NotFound)
    | Some new_parent =>
      if not_a_directory (ws_nodes s) new_parent then mret (Err NotDirectory) else
      c ← lift (child (ws_nodes s) new_parent new_name);
      if is_some c then mret (Err AlreadyExists) else
      d ← expect (is_descendant (ws_nodes s) new_parent inode);
      if (d : bool) then mret (Err InvalidPath) else
      match find_inode (ws_nodes s) inode with
      | None => mret (Err NotFound)
      | Some n =>
        nm ← lift (copy_slice (replicate (length (wn_name n)) 0) 0 (length new_name) new_name);
        modify (fun s => s <| ws_nodes ::= find_upd (fun n => wn_inode n =? inode)
                  (fun n => n <| wn_parent := new_parent |> <| wn_name := nm |>
                              <| wn_name_len := length new_name |>) |>);;
        mret (Ok (wn_inode n))
      end
    end
  end.

End Store.

(** ** The trait implementation *)

Module RamFs.

Definition README : bytes :=
  str "Vantara OS RAM filesystem" ++ [10; 10] ++
  str "This filesystem has read-only system files and writable /tmp storage." ++ [10].
Definition VERSION : bytes := str "0.1.0".
Definition MOTD : bytes :=
  str "Welcome to Vantara OS." ++ [10] ++
  str "Try: help, uptime, mem, tasks, pci, ls, cat, stat." ++ [10].

Definition FILES : list FileEntry :=
  [mkEntry 10 (str "/README") README;
   mkEntry 11 (str "/VERSION") VERSION;
   mkEntry 12 (str "/MOTD") MOTD].

Section images.
Context (USERLAND_IMAGES : list UserlandImage) (USERLAND_IMAGE_NAMES : list bytes).

Definition images_find (path : bytes) : option UserlandImage :=
  List.find (fun i => bytes_eqb (im_path i) path) USERLAND_IMAGES.

Definition userland_inode (path : bytes) : Z :=
  match position (fun i => bytes_eqb (im_path i) path) USERLAND_IMAGES with
  | Some i => 1000 + Z.of_nat i
  | None => 0
  end.

Definition ref_inode (r : StaticRef) : Z :=
  match r with BuiltIn e => fe_inode e | Userland i => userland_inode (im_path i) end.

Definition ref_data (r : StaticRef) : bytes :=
  match r with BuiltIn e => fe_data e | Userland i => im_data i end.

Definition find_static (path : bytes) : option StaticRef :=
  match List.find (fun e => bytes_eqb (fe_path e) path) FILES with
  | Some e => Some (BuiltIn e)
  | None => Userland <$> images_find path
  end.

Definition static_by_inode (inode : Z) : option StaticRef :=
  match List.find (fun e => fe_inode e =? inode) FILES with
  | Some e => Some (BuiltIn e)
  | None => Userland <$> List.find (fun i => userland_inode (im_path i) =? inode) USERLAND_IMAGES
  end.

(** [for name in names { written = append_line(out, written, name)?; }] *)
Fixpoint append_lines (out : bytes) (written : nat) (names : list bytes) :
    outcome (result nat FsError * bytes) :=
  match names with
  | [] => mret (Ok written, out)
  | name :: names =>
    '(r, out) ← append_line out written name;
    match r with
    | Ok written => append_lines out written names
    | Err e => mret (Err e, out)
    end
  end.

(** The same loop over the children of a directory. *)
Fixpoint append_nodes (out : bytes) (written : nat) (nodes : list WritableNode) :
    outcome (result nat FsError * bytes) :=
  match nodes with
  | [] => mret (Ok written, out)
  | n :: nodes =>
    name ← Store.node_name n;
    '(r, out) ← append_line out written name;
    match r with
    | Ok written => append_nodes out written nodes
    | Err e => mret (Err e, out)
    end
  end.

Definition children (nodes : list WritableNode) (parent : Z) : list WritableNode :=
  List.filter (fun n => wn_parent n =? parent) nodes.

Definition list (path out : bytes) : M WritableStore (result nat FsError * bytes) :=
  if bytes_eqb path [SLASH]
  then lift (append_lines out 0 [str "README"; str "VERSION"; str "MOTD"; str "bin"; str "tmp"])
  else if bytes_eqb path (str "/bin") then lift (append_lines out 0 USERLAND_IMAGE_NAMES)
  else
    s ← get;
    o ← lift (Store.resolve_path (ws_nodes s) path);
    match o with
    | None => mret (Err NotFound, out)
    | Some directory =>
      if Store.not_a_directory (ws_nodes s) directory then mret (Err NotDirectory, out)
      else lift (append_nodes out 0 (children (ws_nodes s) directory))
    end.

Definition stat (path : bytes) : M WritableStore (result BackendStat FsError) :=
  if bytes_eqb path [SLASH] then mret (Ok (mkStat Directory 5 true ROOT_INODE))
  else if bytes_eqb path (str "/bin")
  then mret (Ok (mkStat Directory (length USERLAND_IMAGE_NAMES) true BIN_INODE))
  else if bytes_eqb path TMP
  then s ← get; mret (Ok (mkStat Directory (length (children (ws_nodes s) TMP_INODE)) false TMP_INODE))
  else match find_static path with
  | Some entry => mret (Ok (mkStat File (length (ref_data entry)) true (ref_inode entry)))
  | None =>
    s ← get;
    o ← lift (Store.resolve_path (ws_nodes s) path);
    match o with
    | None => mret (Err NotFound)
    | Some inode =>
      match Store.find_inode (ws_nodes s) inode with
      | None => mret (Err NotFound)
      | Some n =>
        let size := if FileType_eqb (wn_file_type n) Directory
                    then length (children (ws_nodes s) (wn_inode n)) else wn_len n in
        mret (Ok (mkStat (wn_file_type n) size false (wn_inode n)))
      end
    end
  end.

(** [count = len.saturating_sub(offset).min(out.len());
     out[..count].copy_from_slice(&data[offset..offset + count])] *)
Definition read_data (data : bytes) (len offset : nat) (out : bytes) : outcome (result nat FsError * bytes) :=
  let count := Nat.min (len - offset) (length out) in
  src ← slice data offset (offset + count);
  out ← copy_slice out 0 count src;
  mret (Ok count, out).

Definition read (inode : Z) (offset : nat) (out : bytes) : M WritableStore (result nat FsError * bytes) :=
  match static_by_inode inode with
  | Some entry => lift (read_data (ref_data entry) (length (ref_data entry)) offset out)
  | None =>
    s ← get;
    match Store.find_inode (ws_nodes s) inode with
    | None => mret (Err NotFound, out)
    | Some n =>
      if negb (FileType_eqb (wn_file_type n) File) then mret (Err IsDirectory, out)
      else lift (read_data (wn_data n) (wn_len n) offset out)
    end
  end.

Definition write := Store.write.

Definition create (path : bytes) : M WritableStore (result BackendStat FsError) :=
  try inode := Store.create path File in mret (Ok (mkStat File 0 false inode)).

Definition mkdir (path : bytes) : M WritableStore (result BackendStat FsError) :=
  try inode := Store.create path Directory in mret (Ok (mkStat Directory 0 false inode)).

Definition unlink (path : bytes) : M WritableStore (result Z FsError) := Store.remove path File.
Definition rmdir (path : bytes) : M WritableStore (result Z FsError) := Store.remove path Directory.
Definition rename := Store.rename.

Definition backend : Backend WritableStore :=
  mkBackend WritableStore (str "ramfs") (fun _ => true) list stat read write create mkdir unlink rmdir rename.

End images.
End RamFs.

(** The unit tests of the source, as sanity checks of the model. *)
Example store_create_write_rename_unlink :
  let m :=
    r1 ← Store.create (str "/tmp/notes") File;
    r2 ← Store.write 10000 0 (str "hello");
    r3 ← Store.rename (str "/tmp/notes") (str "/tmp/done");
    s ← get;
    o1 ← lift (Store.resolve_path (ws_nodes s) (str "/tmp/notes"));
    o2 ← lift (Store.resolve_path (ws_nodes s) (str "/tmp/done"));
    r4 ← Store.remove (str "/tmp/done") File;
    mret (r1, r2, r3, o1, o2, r4)
  in fst <$> m Store.new =
     Done (Ok 10000, Ok 5%nat, Ok 10000, None, Some 10000, Ok 10000).
Proof. vm_compute. reflexivity. Qed.

Example store_nested_directories :
  let m :=
    r1 ← Store.create (str "/tmp/docs") Directory;
    r2 ← Store.create (str "/tmp/docs/note") File;
    r3 ← Store.remove (str "/tmp/docs") Directory;
    r4 ← Store.rename (str "/tmp/docs") (str "/tmp/docs/sub");
    r5 ← Store.remove (str "/tmp/docs/note") File;
    r6 ← Store.remove (str "/tmp/docs") Directory;
    mret (r1, r2, r3, r4, r5, r6)
  in fst <$> m Store.new =
     Done (Ok 10000, Ok 10001, Err DirectoryNotEmpty, Err InvalidPath, Ok 10001, Ok 10000).
Proof. vm_compute. reflexivity. Qed.
