(* ===== verification/RamFsProofs.v ===== *)
(** * Correctness of the RAM file system

    The store's well-formedness invariant, the meaning of the tree as a
    partial map from component lists to inodes, and what every operation does
    to that map. *)

From S2P Require Import Prelude Utf8 Paths Vfs RamFs.

(** ** Well-formed stores *)

Definition nm (n : WritableNode) : bytes := take (wn_name_len n) (wn_name n).

Record wf_node (n : WritableNode) : Prop := {
  wfn_name : length (wn_name n) = MAX_FILE_NAME_LEN;
  wfn_name_len : (wn_name_len n <= MAX_FILE_NAME_LEN)%nat;
  wfn_nonempty : nm n <> [];
  wfn_no_slash : SLASH ∉ nm n;
  wfn_utf8 : utf8 (nm n);
  wfn_data : length (wn_data n) = MAX_FILE_SIZE;
  wfn_len : (wn_len n <= MAX_FILE_SIZE)%nat;
  wfn_zero : drop (wn_len n) (wn_data n) = replicate (MAX_FILE_SIZE - wn_len n) 0;
  wfn_inode : FIRST_WRITABLE_INODE <= wn_inode n;
}.

Definition dir_inode (nodes : list WritableNode) (i : Z) : Prop :=
  i = TMP_INODE \/ exists n, n ∈ nodes /\ wn_inode n = i /\ wn_file_type n = Directory.

(** [chain nodes i l]: following parents from [i] passes the inodes [l] ([i]
    first) and then reaches [/tmp]; in particular there is no cycle above [i]. *)
Inductive chain (nodes : list WritableNode) : Z -> list Z -> Prop :=
  | chain_tmp : chain nodes TMP_INODE []
  | chain_step n l : n ∈ nodes -> chain nodes (wn_parent n) l ->
      chain nodes (wn_inode n) (wn_inode n :: l).

Definition rooted (nodes : list WritableNode) (i : Z) : Prop := exists l, chain nodes i l.

Record wf (s : WritableStore) : Prop := {
  wf_nodes : Forall wf_node (ws_nodes s);
  wf_inodes : NoDup (map wn_inode (ws_nodes s));
  wf_names : forall n m, n ∈ ws_nodes s -> m ∈ ws_nodes s ->
    wn_parent n = wn_parent m -> nm n = nm m -> wn_inode n = wn_inode m;
  wf_parents : forall n, n ∈ ws_nodes s -> dir_inode (ws_nodes s) (wn_parent n);
  wf_rooted : forall n, n ∈ ws_nodes s -> rooted (ws_nodes s) (wn_inode n);
  wf_count : (length (ws_nodes s) <= MAX_WRITABLE_NODES)%nat;
  wf_next : forall n, n ∈ ws_nodes s -> wn_inode n < ws_next_inode s;
  wf_next_range : FIRST_WRITABLE_INODE <= ws_next_inode s <= u64_max;
}.

(** ** The tree as a map from component lists to inodes *)

Definition childP (nodes : list WritableNode) (parent : Z) (name : bytes) : option WritableNode :=
  List.find (fun n => (wn_parent n =? parent) && bytes_eqb (nm n) name) nodes.

Definition childI (nodes : list WritableNode) (parent : Z) (name : bytes) : option Z :=
  wn_inode <$> childP nodes parent name.

Fixpoint descend (nodes : list WritableNode) (parent : Z) (cs : list bytes) : option Z :=
  match cs with
  | [] => Some parent
  | c :: cs => match childI nodes parent c with
               | None => None
               | Some i => descend nodes i cs
               end
  end.

(** What the path [/tmp/c1/.../cn] denotes. *)
Definition tmp_path (cs : list bytes) : bytes := TMP ++ concat (map (cons SLASH) cs).
Definition lookup_tmp (s : WritableStore) (cs : list bytes) : option Z :=
  descend (ws_nodes s) TMP_INODE cs.

(** ** The code computes the pure view *)

Lemma node_name_wf n : wf_node n -> Store.node_name n = Done (nm n).
Proof.
  intros [H1 H2 _ _ H3 _ _ _ _]. unfold Store.node_name.
  rewrite slice_ok by lia. run. rewrite Nat.sub_0_r, drop_0. fold (nm n).
  unfold from_utf8_or_empty. apply utf8_valid_spec in H3. by rewrite H3.
Qed.

Lemma child_wf nodes parent name :
  Forall wf_node nodes -> Store.child nodes parent name = Done (childP nodes parent name).
Proof.
  unfold Store.child, childP. induction 1 as [|n nodes Hn Hns IH]; simpl; [done|].
  destruct (wn_parent n =? parent); simpl; [|run; apply IH].
  rewrite node_name_wf by done. run. destruct (bytes_eqb (nm n) name); [done|apply IH].
Qed.

Lemma resolve_components_wf nodes parent cs :
  Forall wf_node nodes -> Store.resolve_components nodes parent cs = Done (descend nodes parent cs).
Proof.
  intros Hwf. revert parent; induction cs as [|c cs IH]; intros parent; simpl; [done|].
  destruct (bytes_eqb c []) eqn:E.
  - apply bytes_eqb_eq in E as ->. run. replace (childI nodes parent []) with (@None Z); [done|].
    symmetry. unfold childI. apply fmap_None, find_None. intros n Hn.
    rewrite Forall_forall in Hwf. pose proof (wfn_nonempty n (Hwf n Hn)) as H%bytes_eqb_neq.
    by rewrite H, andb_false_r.
  - rewrite child_wf by done. run. unfold childI. destruct (childP nodes parent c); simpl; [apply IH|done].
Qed.

(** ** Facts about well-formed stores *)

Section wf_facts.
Context (s : WritableStore) (Hwf : wf s).
Let nodes := ws_nodes s.

Lemma find_inode_iff i n : Store.find_inode nodes i = Some n <-> n ∈ nodes /\ wn_inode n = i.
Proof. apply find_key. apply wf_inodes, Hwf. Qed.

Lemma find_inode_None i : Store.find_inode nodes i = None <-> forall n, n ∈ nodes -> wn_inode n <> i.
Proof. apply find_key_None. Qed.

Lemma inode_inj n m : n ∈ nodes -> m ∈ nodes -> wn_inode n = wn_inode m -> n = m.
Proof. apply NoDup_map_inj, wf_inodes, Hwf. Qed.

Lemma inode_not_tmp n : n ∈ nodes -> wn_inode n <> TMP_INODE.
Proof.
  intros Hn. pose proof (wf_nodes s Hwf) as H. rewrite Forall_forall in H.
  pose proof (wfn_inode n (H n Hn)). unfold FIRST_WRITABLE_INODE, TMP_INODE in *. lia.
Qed.

Lemma wf_node_of n : n ∈ nodes -> wf_node n.
Proof. pose proof (wf_nodes s Hwf) as H. rewrite Forall_forall in H. apply H. Qed.

Lemma childP_iff p c n : childP nodes p c = Some n <-> n ∈ nodes /\ wn_parent n = p /\ nm n = c.
Proof.
  split.
  - intros [H1 H2]%find_Some. bool_to_prop. done.
  - intros (Hn & Hp & Hc). unfold childP. destruct (List.find _ nodes) as [m|] eqn:E.
    + apply find_Some in E as [Hm [Hp'%Z.eqb_eq Hc'%bytes_eqb_eq]%andb_true_iff]. f_equal. apply inode_inj; [done..|].
      apply (wf_names s Hwf); [done..| |]; congruence.
    + rewrite find_None in E. specialize (E n Hn). apply andb_false_iff in E as [E|E]; bool_to_prop; done.
Qed.

Lemma childI_Some p c i :
  childI nodes p c = Some i <-> exists n, n ∈ nodes /\ wn_parent n = p /\ nm n = c /\ wn_inode n = i.
Proof.
  unfold childI. rewrite fmap_Some. setoid_rewrite childP_iff. naive_solver.
Qed.

Lemma childI_None p c : childI nodes p c = None <-> forall n, n ∈ nodes -> wn_parent n = p -> nm n <> c.
Proof.
  destruct (childI nodes p c) as [i|] eqn:E; split; try done.
  - intros H. apply childI_Some in E as (n & Hn & Hp & Hc & _). by destruct (H n Hn Hp).
  - intros _ n Hn Hp Hc.
    assert (childI nodes p c = Some (wn_inode n)) as E' by (apply childI_Some; eauto). congruence.
Qed.

Lemma descend_app p cs ds :
  descend nodes p (cs ++ ds) = match descend nodes p cs with Some i => descend nodes i ds | None => None end.
Proof.
  revert p; induction cs as [|c cs IH]; intros p; simpl; [done|]. destruct (childI nodes p c); [apply IH|done].
Qed.

Lemma descend_snoc p cs c :
  descend nodes p (cs ++ [c]) = match descend nodes p cs with Some i => childI nodes i c | None => None end.
Proof. rewrite descend_app. destruct (descend nodes p cs); [|done]. simpl. by destruct (childI nodes z c). Qed.

(** A node is reached by one path only. *)
Lemma descend_inj cs ds i :
  descend nodes TMP_INODE cs = Some i -> descend nodes TMP_INODE ds = Some i -> cs = ds.
Proof.
  revert ds i; induction cs as [|c cs IH] using rev_ind; intros ds i Hc Hd.
  - destruct ds as [|d ds] using rev_ind; [done|exfalso]. simpl in Hc. injection Hc as <-.
    rewrite descend_snoc in Hd. destruct (descend nodes TMP_INODE ds) as [j|]; [|done].
    apply childI_Some in Hd as (n & Hn & _ & _ & Hi). by apply (inode_not_tmp n).
  - rewrite descend_snoc in Hc. destruct (descend nodes TMP_INODE cs) as [j|] eqn:Ej; [|done].
    apply childI_Some in Hc as (n & Hn & Hp & Hnm & Hi).
    destruct ds as [|d ds _] using rev_ind; [injection Hd as <-; by destruct (inode_not_tmp n Hn)|].
    rewrite descend_snoc in Hd. destruct (descend nodes TMP_INODE ds) as [k|] eqn:Ek; [|done].
    apply childI_Some in Hd as (m & Hm & Hpm & Hnmm & Him).
    assert (n = m) as -> by (apply inode_inj; congruence). subst j k c d.
    f_equal. by apply (IH ds (wn_parent m)).
Qed.

Lemma not_a_directory_false i : Store.not_a_directory nodes i = false <-> dir_inode nodes i.
Proof.
  unfold Store.not_a_directory, dir_inode. rewrite andb_false_iff, negb_false_iff, Z.eqb_eq.
  apply or_iff_compat_l. destruct (Store.find_inode nodes i) as [n|] eqn:E.
  - rewrite negb_false_iff. unfold FileType_eqb. rewrite bool_decide_eq_true.
    apply find_inode_iff in E as [Hn Hi]. split; [eauto|].
    intros (m & Hm & Hmi & Ht). by rewrite (inode_inj n m) by congruence.
  - split; [done|]. intros (n & Hn & Hi & _). rewrite find_inode_None in E. by destruct (E n Hn).
Qed.

(** ** Ancestors *)

Lemma chain_fun i l l' : chain nodes i l -> chain nodes i l' -> l = l'.
Proof.
  intros H; revert l'. induction H as [|n l Hn Hc IH]; intros l' H'.
  - inversion H' as [|m k Hm Hk Heq]; [done|]. by destruct (inode_not_tmp m Hm).
  - inversion H' as [Heq|m k Hm Hk Heq]; [by destruct (inode_not_tmp n Hn)|].
    assert (n = m) as -> by (apply inode_inj; congruence). f_equal. by apply IH.
Qed.

Lemma chain_suffix i l j : chain nodes i l -> j ∈ l -> exists l1 l2, l = l1 ++ j :: l2 /\ chain nodes j (j :: l2).
Proof.
  induction 1 as [|n l Hn Hc IH]; [by intros ?%not_elem_of_nil|].
  intros [->|Hj]%elem_of_cons; [exists [], l; split; [done|by constructor]|].
  destruct (IH Hj) as (l1 & l2 & -> & ?). by exists (wn_inode n :: l1), l2.
Qed.

Lemma chain_nodup i l : chain nodes i l -> NoDup l.
Proof.
  induction 1 as [|n l Hn Hc IH]; constructor; [|done]. intros Hin.
  destruct (chain_suffix _ _ _ Hc Hin) as (l1 & l2 & -> & Hc').
  pose proof (chain_fun _ _ _ Hc' (chain_step _ _ _ Hn Hc)) as Heq.
  apply (f_equal length) in Heq. simpl in Heq. rewrite length_app in Heq. simpl in Heq. lia.
Qed.

Lemma chain_length i l : chain nodes i l -> (length l <= length nodes)%nat.
Proof.
  intros Hc. rewrite <-(length_map wn_inode nodes). apply submseteq_length, NoDup_submseteq.
  - by eapply chain_nodup.
  - induction Hc as [|n l Hn Hc IH]; [set_solver|]. intros j [->|Hj]%elem_of_cons; [|by apply IH].
    apply elem_of_map. eauto.
Qed.

Lemma is_descendant_chain i l a :
  chain nodes i l -> Store.is_descendant nodes i a = Some (bool_decide (a ∈ l)).
Proof.
  intros Hc. pose proof (chain_length _ _ Hc) as Hlen. unfold Store.is_descendant.
  assert (length l < S (length nodes))%nat as Hf by lia. clear Hlen. revert Hf.
  generalize (S (length nodes)) as f.
  induction Hc as [|n l Hn Hc IH]; intros [|f] Hf; [lia|done|lia|]. simpl.
  destruct (Z.eqb_spec (wn_inode n) TMP_INODE) as [|_]; [by destruct (inode_not_tmp n Hn)|].
  destruct (Z.eqb_spec (wn_inode n) a) as [<-|Hne].
  - rewrite bool_decide_eq_true_2; [done|apply list_elem_of_here].
  - rewrite (proj2 (find_inode_iff _ n)) by done. rewrite IH by (simpl in Hf; lia).
    f_equal. apply bool_decide_ext. rewrite elem_of_cons. naive_solver.
Qed.

(** The inodes above the node a path denotes are those its prefixes denote. *)
Lemma descend_chain cs i :
  descend nodes TMP_INODE cs = Some i ->
  exists l, chain nodes i l /\
    forall j, j ∈ l <-> exists pre rest, cs = pre ++ rest /\ pre <> [] /\ descend nodes TMP_INODE pre = Some j.
Proof.
  revert i; induction cs as [|c cs IH] using rev_ind; intros i Hi.
  - injection Hi as <-. exists []. split; [constructor|]. intros j. split; [by intros ?%not_elem_of_nil|].
    intros ([|??] & ? & ? & ? & _); done.
  - pose proof Hi as Hi'. rewrite descend_snoc in Hi'.
    destruct (descend nodes TMP_INODE cs) as [p|] eqn:Ep; [|done].
    apply childI_Some in Hi' as (n & Hn & Hp & Hc & <-). destruct (IH p eq_refl) as (l & Hl & Hiff).
    exists (wn_inode n :: l). split; [constructor; [done|by rewrite Hp]|].
    intros j. rewrite elem_of_cons, Hiff. split.
    + intros [->|(pre & rest & -> & Hne & Hd)].
      * exists (cs ++ [c]), []. rewrite app_nil_r. split; [done|split; [|done]]. by destruct cs.
      * exists pre, (rest ++ [c]). by rewrite app_assoc.
    + intros (pre & rest & Heq & Hne & Hd). destruct rest as [|r rest _] using rev_ind.
      * rewrite app_nil_r in Heq. subst pre. left. congruence.
      * rewrite app_assoc in Heq. apply app_inj_tail in Heq as [-> ->]. right. eauto.
Qed.

Lemma descend_dir_or_node cs i : descend nodes TMP_INODE cs = Some i -> cs = [] /\ i = TMP_INODE \/
  exists n, n ∈ nodes /\ wn_inode n = i.
Proof.
  destruct cs as [|c cs _] using rev_ind; [intros [= <-]; by left|].
  rewrite descend_snoc. destruct (descend nodes TMP_INODE cs); [|done].
  intros (n & Hn & _ & _ & Hi)%childI_Some. eauto.
Qed.
End wf_facts.

(** ** Paths and component lists *)

Lemma rfind_last sep (a b : bytes) : sep ∉ b -> rfind sep (a ++ sep :: b) = Some (length a).
Proof.
  intros Hb. induction a as [|x a IH]; simpl; [|by rewrite IH].
  rewrite Z.eqb_refl. assert (rfind sep b = None) as ->; [|done].
  induction b as [|y b IH]; simpl; [done|]. apply not_elem_of_cons in Hb as [Hy Hb].
  rewrite IH by done. by destruct (Z.eqb_spec y sep).
Qed.

Lemma rfind_Some sep (l : bytes) i : rfind sep l = Some i -> exists a b, l = a ++ sep :: b /\ length a = i /\ sep ∉ b.
Proof.
  revert i; induction l as [|x l IH]; simpl; intros i H; [done|].
  destruct (rfind sep l) as [j|] eqn:E.
  - injection H as <-. destruct (IH j eq_refl) as (a & b & -> & <- & ?). by exists (x :: a), b.
  - destruct (Z.eqb_spec x sep) as [->|]; [|done]. injection H as <-. exists [], l. split; [done|split; [done|]].
    intros (a & b & ->)%list_elem_of_split.
    clear IH. induction a as [|y a IH]; simpl in E; [by destruct (rfind sep b); rewrite ?Z.eqb_refl in E|].
    destruct (rfind sep (a ++ sep :: b)); [done|by apply IH].
Qed.

Lemma tmp_path_snoc cs c : tmp_path (cs ++ [c]) = tmp_path cs ++ SLASH :: c.
Proof.
  unfold tmp_path. rewrite map_app, concat_app, <-app_assoc. simpl. by rewrite app_nil_r.
Qed.

Lemma tmp_path_cons c cs : tmp_path (c :: cs) = TMP_SLASH ++ c ++ concat (map (cons SLASH) cs).
Proof. done. Qed.

Lemma split_relative c cs :
  Forall (fun c => SLASH ∉ c) (c :: cs) -> split_on SLASH (c ++ concat (map (cons SLASH) cs)) = c :: cs.
Proof.
  revert c; induction cs as [|d cs IH]; intros c [Hc Hcs]%Forall_cons; simpl.
  - by rewrite app_nil_r, split_on_id.
  - rewrite split_on_app, split_on_id by done. simpl. by rewrite IH.
Qed.

Lemma resolve_tmp_path nodes cs :
  Forall wf_node nodes -> Forall (fun c => SLASH ∉ c) cs ->
  Store.resolve_path nodes (tmp_path cs) = Done (descend nodes TMP_INODE cs).
Proof.
  intros Hwf Hcs. unfold Store.resolve_path. destruct cs as [|c cs]; [done|].
  rewrite tmp_path_cons. destruct (bytes_eqb _ TMP) eqn:E; [by apply bytes_eqb_eq in E|].
  rewrite (proj2 (strip_prefix_Some _ _ _) eq_refl), split_relative by done.
  by apply resolve_components_wf.
Qed.

Lemma slice_head (a b : bytes) : slice (a ++ b) 0 (length a) = Done a.
Proof. rewrite slice_ok by (rewrite ?length_app; lia). by rewrite drop_0, Nat.sub_0_r, take_app_length. Qed.

Lemma slice_tail (a b : bytes) x : slice (a ++ x :: b) (length a + 1) (length (a ++ x :: b)) = Done b.
Proof.
  rewrite slice_ok by (rewrite ?length_app; simpl; lia). f_equal. rewrite cons_middle, app_assoc.
  replace (length a + 1)%nat with (length (a ++ [x])) by (rewrite length_app; simpl; lia).
  rewrite drop_app_length, firstn_all2; [done|]. rewrite !length_app. simpl. lia.
Qed.

Lemma split_parent_tmp cs c :
  SLASH ∉ c ->
  Store.split_parent_name (tmp_path (cs ++ [c])) =
  Done (if bytes_eqb c [] then Err InvalidPath
        else if (MAX_FILE_NAME_LEN <? length c)%nat then Err NameTooLong
        else Ok (tmp_path cs, c)).
Proof.
  intros Hc. unfold Store.split_parent_name.
  assert (exists r, strip_prefix (tmp_path (cs ++ [c])) TMP_SLASH = Some r) as [r ->].
  { setoid_rewrite strip_prefix_Some. destruct cs as [|d cs]; simpl app; rewrite tmp_path_cons; eauto. }
  rewrite tmp_path_snoc, rfind_last by done. simpl negb. cbv iota. run.
  replace (length (tmp_path cs) =? 0)%nat with false by done.
  rewrite slice_head, slice_tail. cbv iota beta. by repeat case_match.
Qed.

(** ** Creating a node *)

Definition padded (name : bytes) : bytes := name ++ replicate (MAX_FILE_NAME_LEN - length name) 0.

Lemma copy_padded name k :
  (length name <= MAX_FILE_NAME_LEN)%nat -> k = MAX_FILE_NAME_LEN ->
  copy_slice (replicate k 0) 0 (length name) name = Done (padded name).
Proof.
  intros Hn ->. rewrite copy_slice_ok by (rewrite ?length_replicate; lia). f_equal.
  by rewrite drop_replicate.
Qed.

Lemma take_padded name : take (length name) (padded name) = name.
Proof. apply take_app_length. Qed.

Lemma length_padded name :
  (length name <= MAX_FILE_NAME_LEN)%nat -> length (padded name) = MAX_FILE_NAME_LEN.
Proof. unfold padded. rewrite length_app, length_replicate. lia. Qed.

Definition fresh_node (i p : Z) (name : bytes) (ft : FileType) : WritableNode :=
  mkWNode i p (padded name) (length name) ft (replicate MAX_FILE_SIZE 0) 0.

(** The first reason, in the code's order, for refusing to create [cs/c]. *)
Definition create_error (s : WritableStore) (cs : list bytes) (c : bytes) : option FsError :=
  if bytes_eqb c [] then Some InvalidPath
  else if (MAX_FILE_NAME_LEN <? length c)%nat then Some NameTooLong
  else match lookup_tmp s cs with
       | None => Some NotFound
       | Some p =>
         if Store.not_a_directory (ws_nodes s) p then Some NotDirectory
         else if is_some (lookup_tmp s (cs ++ [c])) then Some AlreadyExists
         else if (length (ws_nodes s) =? MAX_WRITABLE_NODES)%nat then Some NoSpace
         else if ws_next_inode s =? u64_max then Some NoSpace
         else None
       end.

Definition created (s : WritableStore) (p : Z) (c : bytes) (ft : FileType) : WritableStore :=
  mkWStore (ws_nodes s ++ [fresh_node (ws_next_inode s) p c ft]) (ws_next_inode s + 1).

Lemma create_run s cs c ft :
  wf s -> Forall (fun c => SLASH ∉ c) cs -> SLASH ∉ c ->
  Store.create (tmp_path (cs ++ [c])) ft s =
  match create_error s cs c, lookup_tmp s cs with
  | None, Some p => Done (Ok (ws_next_inode s), created s p c ft)
  | None, None => Panic
  | Some e, _ => Done (Err e, s)
  end.
Proof.
  intros Hwf Hcs Hc. unfold Store.create, create_error. run. rewrite split_parent_tmp by done.
  destruct (bytes_eqb c []) eqn:Ec; [done|].
  destruct (Nat.ltb_spec MAX_FILE_NAME_LEN (length c)); [done|].
  rewrite resolve_tmp_path by (try apply wf_nodes; done). unfold lookup_tmp. rewrite descend_snoc.
  destruct (descend (ws_nodes s) TMP_INODE cs) as [p|]; [|done].
  destruct (Store.not_a_directory (ws_nodes s) p); [done|].
  rewrite child_wf by (by apply wf_nodes). unfold childI.
  destruct (childP (ws_nodes s) p c); [done|]. simpl is_some. cbv iota.
  destruct (Nat.eqb_spec (length (ws_nodes s)) MAX_WRITABLE_NODES); [done|].
  pose proof (wf_next_range s Hwf). unfold u64_checked_add, checked_add_to.
  destruct (Z.eqb_spec (ws_next_inode s) u64_max) as [E|E]; rewrite ?E; [done|].
  rewrite (proj2 (Z.leb_le _ _)) by lia. unfold Store.new_node. run. by rewrite copy_padded.
Qed.

Lemma chain_mono nodes nodes' i l : (forall n, n ∈ nodes -> n ∈ nodes') -> chain nodes i l -> chain nodes' i l.
Proof. intros Hsub. induction 1; constructor; auto. Qed.

Lemma created_wf s p c ft :
  wf s -> c <> [] -> SLASH ∉ c -> utf8 c -> (length c <= MAX_FILE_NAME_LEN)%nat ->
  dir_inode (ws_nodes s) p -> childI (ws_nodes s) p c = None ->
  (length (ws_nodes s) <> MAX_WRITABLE_NODES)%nat -> ws_next_inode s <> u64_max ->
  wf (created s p c ft).
Proof.
  intros Hwf Hne Hs Hu Hl Hdir Hnone Hcnt Hnx. pose proof Hwf as [W1 W2 W3 W4 W5 W6 W7 W8].
  assert (forall i, dir_inode (ws_nodes s) i -> dir_inode (ws_nodes (created s p c ft)) i) as Hd.
  { intros i [->|(n & ? & ?)]; [by left|right; exists n; set_solver]. }
  assert (rooted (ws_nodes s) p) as [lp Hlp].
  { destruct Hdir as [->|(n & Hn & <- & _)]; [exists []; constructor|by apply W5]. }
  rewrite childI_None in Hnone by done.
  set (f := fresh_node (ws_next_inode s) p c ft).
  assert (nm f = c) as Hnm by apply take_padded.
  constructor; unfold created; simpl; fold f.
  - apply Forall_app. split; [done|]. apply Forall_singleton.
    constructor; rewrite ?Hnm; simpl; rewrite ?length_replicate; try done; try lia. by apply length_padded.
  - rewrite map_app. apply NoDup_app. split; [done|]. split; [|apply NoDup_singleton].
    intros i (n & -> & Hn)%elem_of_map Hi%list_elem_of_singleton. simpl in Hi. specialize (W7 n Hn). lia.
  - intros n m [Hn| ->%list_elem_of_singleton]%elem_of_app [Hm| ->%list_elem_of_singleton]%elem_of_app;
      rewrite ?Hnm; simpl; intros Hp Hc; [by apply W3| | |done].
    + by destruct (Hnone n Hn Hp).
    + by destruct (Hnone m Hm).
  - intros n [Hn| ->%list_elem_of_singleton]%elem_of_app; apply Hd; [by apply W4|done].
  - intros n [Hn| ->%list_elem_of_singleton]%elem_of_app.
    + destruct (W5 n Hn) as [l Hc']. exists l. eapply chain_mono; [|done]. set_solver.
    + exists (wn_inode f :: lp). apply (chain_step _ f); [set_solver|]. eapply chain_mono; [|done]. set_solver.
  - rewrite length_app. simpl. lia.
  - intros n [Hn| ->%list_elem_of_singleton]%elem_of_app; simpl; [specialize (W7 n Hn)|]; lia.
  - lia.
Qed.

Lemma create_error_None s cs c :
  wf s -> create_error s cs c = None ->
  exists p, lookup_tmp s cs = Some p /\ c <> [] /\ (length c <= MAX_FILE_NAME_LEN)%nat /\
    dir_inode (ws_nodes s) p /\ childI (ws_nodes s) p c = None /\
    (length (ws_nodes s) <> MAX_WRITABLE_NODES)%nat /\ ws_next_inode s <> u64_max.
Proof.
  intros Hwf. unfold create_error, lookup_tmp. rewrite descend_snoc.
  repeat (case_match; try done). bool_to_prop. intros _. exists z. split; [done|].
  split; [done|]. split; [done|]. split; [by apply not_a_directory_false|].
  split; [|done]. by destruct (childI _ _ _).
Qed.





(** What remains of an inode's contents is what [find_inode] returns. *)
Definition node_of (s : WritableStore) (i : Z) : option WritableNode := Store.find_inode (ws_nodes s) i.


(** ** Removing a node *)

Section removed.
Context (s : WritableStore) (Hwf : wf s) (k : nat) (x : WritableNode).
Context (Hk : ws_nodes s !! k = Some x).
Context (Hleaf : forall n, n ∈ ws_nodes s -> wn_parent n <> wn_inode x).
Let s' : WritableStore := s <| ws_nodes := delete k (ws_nodes s) |>.

Lemma elem_of_removed n : n ∈ ws_nodes s' <-> n ∈ ws_nodes s /\ wn_inode n <> wn_inode x.
Proof. by apply elem_of_delete_key; [apply wf_inodes|]. Qed.

Lemma chain_removed i l : chain (ws_nodes s) i l -> i <> wn_inode x -> chain (ws_nodes s') i l.
Proof.
  induction 1 as [|n l Hn Hc IH]; intros Hi; constructor.
  - by apply elem_of_removed.
  - by apply IH, Hleaf.
Qed.

Lemma removed_wf : wf s'.
Proof.
  pose proof Hwf as [W1 W2 W3 W4 W5 W6 W7 W8]. constructor.
  - apply Forall_delete, W1.
  - apply NoDup_map_delete, W2.
  - intros n m [Hn _]%elem_of_removed [Hm _]%elem_of_removed. by apply W3.
  - intros n [Hn _]%elem_of_removed. destruct (W4 n Hn) as [Ht|(m & Hm & Hi & Hd)]; [by left|right].
    exists m. rewrite elem_of_removed. split; [|done]. split; [done|]. rewrite Hi. by apply Hleaf.
  - intros n [Hn Hi]%elem_of_removed. destruct (W5 n Hn) as [l Hl]. exists l. by apply chain_removed.
  - etrans; [|exact W6]. apply sublist_length, sublist_delete.
  - intros n [Hn _]%elem_of_removed. by apply W7.
  - apply W8.
Qed.

Lemma childI_removed q d :
  childI (ws_nodes s') q d =
  if decide (childI (ws_nodes s) q d = Some (wn_inode x)) then None else childI (ws_nodes s) q d.
Proof.
  destruct (decide _) as [E|E].
  - apply childI_None; [apply removed_wf|]. intros n [Hn Hi]%elem_of_removed Hp Hc.
    apply Hi. apply childI_Some in E as (m & Hm & Hpm & Hcm & <-); [|done].
    apply (wf_names s Hwf); [done..| |]; congruence.
  - apply option_eq. intros i. rewrite !childI_Some by (done || apply removed_wf).
    setoid_rewrite elem_of_removed. split.
    + intros (n & [Hn _] & H). eauto.
    + intros (n & Hn & Hp & Hc & Hi). exists n. split; [split; [done|]|done]. intros Hx.
      apply E, childI_Some; [done|]. exists n. split; [done|]. split; [done|]. split; [done|]. done.
Qed.

Lemma lookup_removed cs ds :
  lookup_tmp s cs = Some (wn_inode x) ->
  lookup_tmp s' ds = if decide (ds = cs) then None else lookup_tmp s ds.
Proof.
  intros Hcs. unfold lookup_tmp in *.
  assert (wn_inode x <> TMP_INODE) as Hx.
  { by apply inode_not_tmp with s; [|eapply list_elem_of_lookup_2]. }
  induction ds as [|d ds IH] using rev_ind.
  - rewrite decide_False; [done|]. intros <-. injection Hcs as Hcs. congruence.
  - rewrite !descend_snoc, IH. destruct (decide (ds = cs)) as [->|Hne].
    + rewrite Hcs. rewrite decide_False.
      * symmetry. apply childI_None; [done|]. intros n Hn Hp. by destruct (Hleaf n Hn).
      * intros Heq%(f_equal length). rewrite length_app in Heq. simpl in Heq. lia.
    + destruct (descend (ws_nodes s) TMP_INODE ds) as [q|] eqn:Eq.
      * rewrite childI_removed. apply decide_ext. split; intros E.
        -- apply (descend_inj s Hwf _ _ (wn_inode x)); [|done]. by rewrite descend_snoc, Eq.
        -- rewrite <-E, descend_snoc, Eq in Hcs. done.
      * by destruct (decide _).
Qed.

Lemma node_of_removed i : node_of s' i = if i =? wn_inode x then None else node_of s i.
Proof.
  unfold node_of. destruct (Z.eqb_spec i (wn_inode x)) as [->|Hne].
  - apply find_inode_None. intros n [_ Hi]%elem_of_removed. done.
  - apply option_eq. intros n. rewrite !find_inode_iff by (done || apply removed_wf).
    rewrite elem_of_removed. naive_solver.
Qed.
End removed.

(** A file has no entries, and neither has a directory the code found empty. *)
Lemma leaf_of_kind s x :
  wf s -> x ∈ ws_nodes s ->
  bool_decide (wn_file_type x = Directory) && existsb (fun n => wn_parent n =? wn_inode x) (ws_nodes s) = false ->
  forall n, n ∈ ws_nodes s -> wn_parent n <> wn_inode x.
Proof.
  intros Hwf Hx [Hf%bool_decide_eq_false|He]%andb_false_iff n Hn Hp.
  - destruct (wf_parents s Hwf n Hn) as [E|(m & Hm & E & Hd)].
    + apply (inode_not_tmp s Hwf x); congruence.
    + assert (m = x) as -> by (apply (inode_inj s Hwf); congruence). done.
  - rewrite existsb_false in He. specialize (He n Hn). apply Z.eqb_neq in He. done.
Qed.

Definition remove_post (s : WritableStore) (cs : list bytes) (expected : FileType) (r : result Z FsError) (s' : WritableStore) : Prop :=
  match r with
  | Ok i =>
    wf s' /\ (exists n, lookup_tmp s cs = Some i /\ node_of s i = Some n /\ wn_file_type n = expected) /\
    (forall c, lookup_tmp s (cs ++ [c]) = None) /\
    (forall ds, lookup_tmp s' ds = if decide (ds = cs) then None else lookup_tmp s ds) /\
    (forall j, node_of s' j = if j =? i then None else node_of s j)
  | Err e =>
    s' = s /\
    match e with
    | NotFound => lookup_tmp s cs = None
    | ReadOnly => cs = []
    | IsDirectory => expected = File /\ exists i n, lookup_tmp s cs = Some i /\ node_of s i = Some n /\ wn_file_type n = Directory
    | NotDirectory => expected = Directory /\ exists i n, lookup_tmp s cs = Some i /\ node_of s i = Some n /\ wn_file_type n = File
    | DirectoryNotEmpty => expected = Directory /\ exists c i, lookup_tmp s (cs ++ [c]) = Some i
    | _ => False
    end
  end.

Lemma remove_spec (s : WritableStore) (cs : list bytes) (expected : FileType) :
  wf s -> Forall (fun c => SLASH ∉ c) cs ->
  exists r s', Store.remove (tmp_path cs) expected s = Done (r, s') /\
  remove_post s cs expected r s'.
Proof.
  intros Hwf Hcs. unfold Store.remove. run. rewrite resolve_tmp_path by (try apply wf_nodes; done).
  fold (lookup_tmp s cs). destruct (lookup_tmp s cs) as [i|] eqn:Ei; [|by eexists _, _].
  unfold lookup_tmp in Ei. destruct (descend_dir_or_node s Hwf _ _ Ei) as [[-> ->]|(x & Hx & <-)]; [by eexists _, _|].
  rewrite (proj2 (Z.eqb_neq _ _)) by (by apply (inode_not_tmp s)).
  assert (node_of s (wn_inode x) = Some x) as Hnode by (by apply find_inode_iff).
  destruct (position _ _) as [k|] eqn:Ek; cycle 1.
  { apply position_None in Ek. unfold node_of, Store.find_inode in Hnode. congruence. }
  apply position_Some in Ek as (y & Hk & _ & Hy). unfold node_of, Store.find_inode in Hnode.
  assert (y = x) as -> by congruence. rewrite (proj2 (index_Done _ _ _) Hk). unfold FileType_eqb.
  destruct (bool_decide_reflect (wn_file_type x = expected)) as [Ht|Ht]; cycle 1.
  { simpl. eexists _, _. split; [done|]. destruct expected; simpl; (split; [done|split; [done|]]);
      exists (wn_inode x), x; (split; [done|split; [done|]]); by destruct (wn_file_type x). }
  simpl. destruct (bool_decide (expected = Directory) && existsb _ _) eqn:Ee.
  { apply andb_true_iff in Ee as [Hd%bool_decide_eq_true (n & Hn & Hp%Z.eqb_eq)%existsb_spec].
    eexists _, _. split; [done|]. split; [done|]. split; [done|]. exists (nm n), (wn_inode n).
    unfold lookup_tmp. rewrite descend_snoc, Ei. apply childI_Some; eauto. }
  assert (forall n, n ∈ ws_nodes s -> wn_parent n <> wn_inode x) as Hleaf.
  { apply leaf_of_kind; [done..|]. by rewrite Ht. }
  eexists _, _. split; [done|]. split; [by apply (removed_wf s Hwf k x)|].
  split; [eauto 10|]. split.
  { intros c. unfold lookup_tmp. rewrite descend_snoc, Ei. apply childI_None; [done|].
    intros n Hn Hp. by destruct (Hleaf n Hn). }
  split; [intros ds; by apply (lookup_removed s Hwf k x)|]. intros j. by apply (node_of_removed s Hwf k x).
Qed.

(** ** Renaming a node *)

Section renamed.
Context (s : WritableStore) (Hwf : wf s) (x : WritableNode) (Hx : x ∈ ws_nodes s).
Context (np : Z) (c : bytes) (lnp : list Z).
Context (Hc : c <> []) (Hslash : SLASH ∉ c) (Hutf8 : utf8 c) (Hlen : (length c <= MAX_FILE_NAME_LEN)%nat).
Context (Hnp : dir_inode (ws_nodes s) np) (Hnone : childI (ws_nodes s) np c = None).
Context (Hchain : chain (ws_nodes s) np lnp) (Hout : wn_inode x ∉ lnp).

Let moved (n : WritableNode) : WritableNode :=
  n <| wn_parent := np |> <| wn_name := padded c |> <| wn_name_len := length c |>.
Let s' : WritableStore := s <| ws_nodes ::= find_upd (fun n => wn_inode n =? wn_inode x) moved |>.

Lemma elem_of_renamed n :
  n ∈ ws_nodes s' <-> (n ∈ ws_nodes s /\ wn_inode n <> wn_inode x) \/ n = moved x.
Proof.
  unfold s'. simpl. rewrite find_upd_map by (by apply wf_inodes). rewrite elem_of_map. split.
  - intros (m & -> & Hm). destruct (Z.eqb_spec (wn_inode m) (wn_inode x)) as [E|E]; [|by left].
    right. f_equal. by apply (inode_inj s Hwf).
  - intros [[Hn Hne]| ->].
    + exists n. apply Z.eqb_neq in Hne. by rewrite Hne.
    + exists x. by rewrite Z.eqb_refl.
Qed.

Lemma nm_moved n : nm (moved n) = c.
Proof. apply take_padded. Qed.

Lemma chain_renamed i l : chain (ws_nodes s) i l -> wn_inode x ∉ l -> chain (ws_nodes s') i l.
Proof.
  induction 1 as [|n l Hn Hl IH]; intros Hnot; constructor.
  - apply elem_of_renamed. left. split; [done|]. set_solver.
  - apply IH. set_solver.
Qed.

Lemma rooted_renamed i : rooted (ws_nodes s) i -> rooted (ws_nodes s') i.
Proof.
  intros [l Hl]. induction Hl as [|n l Hn Hl [l' IH]]; [exists []; constructor|].
  destruct (decide (wn_inode n = wn_inode x)) as [->|Hne].
  - exists (wn_inode x :: lnp). apply (chain_step _ (moved x)); [|by apply chain_renamed].
    apply elem_of_renamed. by right.
  - exists (wn_inode n :: l'). constructor; [|done]. apply elem_of_renamed. by left.
Qed.

Lemma dir_inode_renamed i : dir_inode (ws_nodes s) i -> dir_inode (ws_nodes s') i.
Proof.
  intros [->|(n & Hn & <- & Hd)]; [by left|right].
  destruct (decide (wn_inode n = wn_inode x)) as [E|Hne].
  - exists (moved x). rewrite elem_of_renamed. split; [by right|]. split; [done|].
    by rewrite (inode_inj s Hwf n x) in Hd.
  - exists n. rewrite elem_of_renamed. split; [by left|done].
Qed.

Lemma renamed_wf : wf s'.
Proof.
  pose proof Hwf as [W1 W2 W3 W4 W5 W6 W7 W8].
  pose proof (proj1 (childI_None s Hwf np c) Hnone) as Hfree. constructor.
  - apply Forall_forall. rewrite Forall_forall in W1. intros n [[Hn _]| ->]%elem_of_renamed; [by apply W1|].
    destruct (W1 x Hx). constructor; rewrite ?nm_moved; simpl; try done. by apply length_padded.
  - unfold s'. simpl. by rewrite map_find_upd.
  - intros n m [[Hn Hne]| ->]%elem_of_renamed [[Hm Hme]| ->]%elem_of_renamed;
      rewrite ?nm_moved; simpl; intros Hp Hcc; [by apply W3| | |done].
    + by destruct (Hfree n Hn Hp).
    + by destruct (Hfree m Hm).
  - intros n [[Hn _]| ->]%elem_of_renamed; apply dir_inode_renamed; [by apply W4|done].
  - intros n [[Hn _]| ->]%elem_of_renamed; apply rooted_renamed; [by apply W5|]. by apply (W5 x).
  - unfold s'. simpl. by rewrite length_find_upd.
  - intros n [[Hn _]| ->]%elem_of_renamed; [by apply W7|]. by apply (W7 x).
  - apply W8.
Qed.

Lemma childI_renamed q d :
  childI (ws_nodes s') q d =
  if decide (q = np /\ d = c) then Some (wn_inode x)
  else if decide (q = wn_parent x /\ d = nm x) then None else childI (ws_nodes s) q d.
Proof.
  destruct (decide (q = np /\ d = c)) as [[-> ->]|H1]; [|destruct (decide _) as [[-> ->]|H2]].
  - apply childI_Some; [apply renamed_wf|]. exists (moved x). rewrite elem_of_renamed.
    split; [by right|]. split; [done|]. split; [apply nm_moved|done].
  - apply childI_None; [apply renamed_wf|]. intros n [[Hn Hne]| ->]%elem_of_renamed Hp Hcc.
    + by apply Hne, (wf_names s Hwf).
    + apply H1. rewrite nm_moved in Hcc. done.
  - apply option_eq. intros i. rewrite !childI_Some by (done || apply renamed_wf).
    setoid_rewrite elem_of_renamed. split.
    + intros (n & [[Hn Hne]| ->] & Hp & Hcc & Hi); [eauto|]. rewrite nm_moved in Hcc.
      destruct H1. done.
    + intros (n & Hn & Hp & Hcc & Hi). exists n. split; [|done]. left. split; [done|].
      intros E%(inode_inj s Hwf); [|done..]. subst n. by destruct H2.
Qed.

Lemma node_of_renamed i :
  node_of s' i = if i =? wn_inode x then Some (moved x) else node_of s i.
Proof.
  unfold node_of. destruct (Z.eqb_spec i (wn_inode x)) as [->|Hne].
  - apply find_inode_iff; [apply renamed_wf|]. rewrite elem_of_renamed. auto.
  - apply option_eq. intros n. rewrite !find_inode_iff by (done || apply renamed_wf).
    rewrite elem_of_renamed. split; [|naive_solver].
    intros [[?| ->] <-]; [naive_solver|]. by destruct Hne.
Qed.

Context (o : list bytes) (ncs : list bytes).
Context (Ho : lookup_tmp s o = Some (wn_parent x)) (Hncs : lookup_tmp s ncs = Some np).
Let old := o ++ [nm x].
Let new := ncs ++ [c].

Lemma lookup_old : lookup_tmp s old = Some (wn_inode x).
Proof. unfold lookup_tmp, old in *. rewrite descend_snoc, Ho. apply childI_Some; eauto. Qed.

Lemma lookup_new_None : lookup_tmp s new = None.
Proof. unfold lookup_tmp, new in *. by rewrite descend_snoc, Hncs. Qed.

(** The target directory is not below the moved node. *)
Lemma old_not_above_target rest : ncs <> old ++ rest.
Proof.
  intros Heq. destruct (descend_chain s Hwf _ _ Hncs) as (l & Hl & Hiff).
  assert (l = lnp) as -> by (by apply (chain_fun s Hwf np)).
  apply Hout, Hiff. exists old, rest. split; [done|]. split; [by unfold old; destruct o|apply lookup_old].
Qed.

Lemma lookup_prefix_Some ds rest i : lookup_tmp s (ds ++ rest) = Some i -> is_Some (lookup_tmp s ds).
Proof. unfold lookup_tmp. rewrite descend_app. destruct (descend _ _ ds); eauto. Qed.

Lemma prefix_snoc_inv (p ds : list bytes) d : ~ p `prefix_of` ds ++ [d] -> ~ p `prefix_of` ds.
Proof. intros H Hp. apply H. by apply prefix_app_r. Qed.

Lemma lookup_renamed_other ds :
  ~ new `prefix_of` ds -> ~ old `prefix_of` ds -> lookup_tmp s' ds = lookup_tmp s ds.
Proof.
  unfold lookup_tmp in *. induction ds as [|d ds IH] using rev_ind; intros H1 H2; [done|].
  rewrite !descend_snoc, IH by (by eapply prefix_snoc_inv).
  destruct (descend (ws_nodes s) TMP_INODE ds) as [q|] eqn:Eq; [|done]. rewrite childI_renamed.
  rewrite decide_False; [rewrite decide_False; [done|]|].
  - intros [-> ->]. apply H2. by rewrite (descend_inj s Hwf ds o (wn_parent x)).
  - intros [-> ->]. apply H1. by rewrite (descend_inj s Hwf ds ncs np).
Qed.

Lemma lookup_renamed_old rest : lookup_tmp s' (old ++ rest) = None.
Proof.
  assert (lookup_tmp s' o = Some (wn_parent x)) as E.
  { rewrite lookup_renamed_other; [done| |].
    - intros [r Hr]. pose proof Ho as Ho'. rewrite Hr in Ho'.
      apply lookup_prefix_Some in Ho' as [i Hi]. by rewrite lookup_new_None in Hi.
    - intros [r Hr%(f_equal length)]. unfold old in Hr. rewrite !length_app in Hr. simpl in Hr. lia. }
  unfold lookup_tmp, old in *. rewrite <-app_assoc, descend_app, E. simpl. rewrite childI_renamed.
  rewrite decide_False; [by rewrite decide_True|]. intros [Hp Hn].
  enough (childI (ws_nodes s) np c = Some (wn_inode x)) by congruence. apply childI_Some; eauto.
Qed.

Lemma lookup_renamed_new rest : lookup_tmp s' (new ++ rest) = lookup_tmp s (old ++ rest).
Proof.
  assert (lookup_tmp s' ncs = Some np) as E.
  { rewrite lookup_renamed_other; [done| |].
    - intros [r Hr%(f_equal length)]. unfold new in Hr. rewrite !length_app in Hr. simpl in Hr. lia.
    - intros [r Hr]. by apply (old_not_above_target r). }
  induction rest as [|d rest IH] using rev_ind.
  - rewrite !app_nil_r, lookup_old. unfold lookup_tmp, new in *. rewrite descend_snoc, E, childI_renamed.
    by rewrite decide_True.
  - rewrite !app_assoc. unfold lookup_tmp in *. rewrite !descend_snoc, IH.
    destruct (descend (ws_nodes s) TMP_INODE (old ++ rest)) as [q|] eqn:Eq; [|done]. rewrite childI_renamed.
    rewrite decide_False; [rewrite decide_False; [done|]|].
    + intros [-> _]. pose proof (descend_inj s Hwf _ _ _ Eq Ho) as Hl%(f_equal length).
      unfold old in Hl. rewrite !length_app in Hl. simpl in Hl. lia.
    + intros [-> _]. apply (old_not_above_target rest). by apply (descend_inj s Hwf _ _ np).
Qed.
End renamed.

Definition contents (n : WritableNode) : FileType * bytes := (wn_file_type n, take (wn_len n) (wn_data n)).

(** What a successful rename of [old] to [ncs/c] does to the name space. *)
Definition moved_tree (s s' : WritableStore) (old ncs : list bytes) (c : bytes) : Prop :=
  (forall rest, lookup_tmp s' (ncs ++ [c] ++ rest) = lookup_tmp s (old ++ rest)) /\
  (forall rest, lookup_tmp s' (old ++ rest) = None) /\
  (forall ds, ~ (ncs ++ [c]) `prefix_of` ds -> ~ old `prefix_of` ds -> lookup_tmp s' ds = lookup_tmp s ds) /\
  (forall i, contents <$> node_of s' i = contents <$> node_of s i).

Lemma chain_dir s i : wf s -> dir_inode (ws_nodes s) i -> rooted (ws_nodes s) i.
Proof.
  intros Hwf [->|(n & Hn & <- & _)]; [exists []; constructor|by apply wf_rooted].
Qed.

Lemma lookup_parent s cs x :
  wf s -> x ∈ ws_nodes s -> lookup_tmp s cs = Some (wn_inode x) ->
  exists o, cs = o ++ [nm x] /\ lookup_tmp s o = Some (wn_parent x).
Proof.
  intros Hwf Hx H. unfold lookup_tmp in *. destruct cs as [|c cs _] using rev_ind.
  - injection H as H. symmetry in H. by apply (inode_not_tmp s Hwf) in H.
  - rewrite descend_snoc in H. destruct (descend (ws_nodes s) TMP_INODE cs) as [p|] eqn:E; [|done].
    apply childI_Some in H as (n & Hn & Hp & Hc & Hi); [|done].
    assert (n = x) as -> by (by apply (inode_inj s Hwf)). exists cs. by subst.
Qed.

Lemma renamed_moved s x np c lnp old ncs :
  wf s -> x ∈ ws_nodes s -> lookup_tmp s old = Some (wn_inode x) -> lookup_tmp s ncs = Some np ->
  c <> [] -> SLASH ∉ c -> utf8 c -> (length c <= MAX_FILE_NAME_LEN)%nat ->
  dir_inode (ws_nodes s) np -> childI (ws_nodes s) np c = None ->
  chain (ws_nodes s) np lnp -> wn_inode x ∉ lnp ->
  let s' := s <| ws_nodes ::= find_upd (fun n => wn_inode n =? wn_inode x)
              (fun n => n <| wn_parent := np |> <| wn_name := padded c |> <| wn_name_len := length c |>) |> in
  wf s' /\ moved_tree s s' old ncs c.
Proof.
  intros Hwf Hx Hold Hncs Hc Hs Hu Hl Hd Hn Hch Hout. cbv zeta.
  destruct (lookup_parent s old x Hwf Hx Hold) as (o & -> & Ho).
  split; [by eapply renamed_wf|]. split; [|split; [|split]].
  - intros rest. rewrite app_assoc. by eapply lookup_renamed_new.
  - intros rest. by eapply lookup_renamed_old.
  - intros ds. by eapply lookup_renamed_other.
  - intros i. erewrite node_of_renamed by done. destruct (Z.eqb_spec i (wn_inode x)) as [->|]; [|done].
    unfold node_of. by rewrite (proj2 (find_inode_iff s Hwf (wn_inode x) x)).
Qed.

Definition rename_post (s : WritableStore) (old ncs : list bytes) (c : bytes) (r : result Z FsError) (s' : WritableStore) : Prop :=
  match r with
  | Ok i => lookup_tmp s old = Some i /\ wf s' /\ moved_tree s s' old ncs c
  | Err e =>
    s' = s /\
    match e with
    | NotFound => lookup_tmp s old = None \/ lookup_tmp s ncs = None
    | ReadOnly => old = []
    | InvalidPath => c = [] \/ old `prefix_of` ncs
    | NameTooLong => (MAX_FILE_NAME_LEN < length c)%nat
    | NotDirectory => exists p, lookup_tmp s ncs = Some p /\ ~ dir_inode (ws_nodes s) p
    | AlreadyExists => is_Some (lookup_tmp s (ncs ++ [c]))
    | _ => False
    end
  end.

Lemma rename_spec (s : WritableStore) (old ncs : list bytes) (c : bytes) :
  wf s -> Forall (fun c => SLASH ∉ c) old -> Forall (fun c => SLASH ∉ c) ncs -> SLASH ∉ c -> utf8 c ->
  exists r s', Store.rename (tmp_path old) (tmp_path (ncs ++ [c])) s = Done (r, s') /\
  rename_post s old ncs c r s'.
Proof.
  intros Hwf Hold Hncs Hs Hu. unfold Store.rename. run.
  rewrite resolve_tmp_path by (try apply wf_nodes; done). fold (lookup_tmp s old).
  destruct (lookup_tmp s old) as [i|] eqn:Eold; [|eexists _, _; split; [done|]; simpl; auto].
  destruct (descend_dir_or_node s Hwf _ _ Eold) as [[-> ->]|(x & Hx & <-)]; [by eexists _, _|].
  rewrite (proj2 (Z.eqb_neq _ _)) by (by apply (inode_not_tmp s)). rewrite split_parent_tmp by done.
  destruct (bytes_eqb c []) eqn:Ec; [apply bytes_eqb_eq in Ec; eexists _, _; split; [done|]; simpl; auto|].
  apply bytes_eqb_neq in Ec. destruct (Nat.ltb_spec MAX_FILE_NAME_LEN (length c)); [by eexists _, _|].
  rewrite resolve_tmp_path by (try apply wf_nodes; done). fold (lookup_tmp s ncs).
  destruct (lookup_tmp s ncs) as [np|] eqn:Encs; [|eexists _, _; split; [done|]; simpl; auto].
  destruct (Store.not_a_directory (ws_nodes s) np) eqn:Ed.
  { eexists _, _. split; [done|]. split; [done|]. exists np. split; [done|].
    rewrite <-not_a_directory_false by done. congruence. }
  apply not_a_directory_false in Ed; [|done]. rewrite child_wf by (by apply wf_nodes).
  destruct (childP (ws_nodes s) np c) as [y|] eqn:Ey.
  { eexists _, _. split; [done|]. split; [done|]. unfold lookup_tmp in *.
    rewrite descend_snoc, Encs. unfold childI. rewrite Ey. by eexists. }
  simpl is_some. cbv iota. destruct (descend_chain s Hwf _ _ Encs) as (l & Hl & Hiff).
  rewrite (is_descendant_chain s Hwf np l) by done. case_bool_decide as Hin.
  { apply Hiff in Hin as (pre & rest & -> & _ & Hpre). eexists _, _. split; [done|]. split; [done|].
    right. exists rest. f_equal. by apply (descend_inj s Hwf _ _ (wn_inode x)). }
  rewrite (proj2 (find_inode_iff s Hwf (wn_inode x) x)) by done.
  rewrite copy_padded; [|done|by apply wfn_name, (wf_node_of s)].
  eexists _, _. split; [done|]. split; [done|].
  eapply renamed_moved; try done. unfold childI. by rewrite Ey.
Qed.

(** C10. Renaming [/tmp/old] to [/tmp/ncs/c].  The call always returns (the
    ancestor walk ends).  When it succeeds the whole subtree moves: each path
    below the new name denotes what the same path below the old name denoted,
    nothing is left below the old name, every other path and the contents of
    every node are unchanged, and the store stays a well-formed tree.  It
    fails exactly for the reason it reports, in particular when the target
    directory is the node itself or lies below it, and then changes nothing. *)
Theorem rename_refines (s : WritableStore) (old ncs : list bytes) (c : bytes) :
  wf s -> Forall (fun c => SLASH ∉ c) old -> Forall (fun c => SLASH ∉ c) ncs -> SLASH ∉ c -> utf8 c ->
  exists r s', Store.rename (tmp_path old) (tmp_path (ncs ++ [c])) s = Done (r, s') /\
  rename_post s old ncs c r s'.
Proof. apply rename_spec. Qed.

(** ** Writing and reading *)

(** The bytes of a file after [src] is written at [off]: a gap between the end
    of the file and [off] reads as zeroes. *)
Definition write_at (old : bytes) (off : nat) (src : bytes) : bytes :=
  take off (old ++ replicate (off - length old) 0) ++ src ++ drop (off + length src) old.

Lemma take_zeros (old : bytes) off k :
  (off - length old <= k)%nat -> take off (old ++ replicate (off - length old) 0) = take off (old ++ replicate k 0).
Proof. intros Hk. rewrite !take_app, !take_replicate. do 2 f_equal. lia. Qed.

Definition written (off : nat) (src : bytes) (n : WritableNode) : WritableNode :=
  n <| wn_data := take off (wn_data n) ++ src ++ drop (off + length src) (wn_data n) |>
    <| wn_len := Nat.max (wn_len n) (off + length src) |>.

Lemma contents_written n off src :
  wf_node n -> (off + length src <= MAX_FILE_SIZE)%nat ->
  contents (written off src n) = (wn_file_type n, write_at (take (wn_len n) (wn_data n)) off src).
Proof.
  intros Hn Hoff. pose proof (wfn_data n Hn) as Hd. pose proof (wfn_len n Hn) as Hl.
  pose proof (wfn_zero n Hn) as Hz. unfold contents, written, write_at. simpl. f_equal.
  set (D := wn_data n) in *. set (len := wn_len n) in *. set (e := (off + length src)%nat).
  assert (length (take len D) = len) as Ht by (rewrite length_take; lia).
  rewrite (take_zeros _ _ (MAX_FILE_SIZE - len)) by (rewrite Ht; unfold e in *; lia).
  rewrite <-Hz, take_drop. destruct (le_lt_dec len e) as [Hle|Hlt].
  - rewrite Nat.max_r by done. rewrite take_splice by (unfold e; lia).
    rewrite (drop_ge (take len D)) by lia. by rewrite app_nil_r.
  - rewrite Nat.max_l by lia. rewrite take_app, length_take. rewrite (firstn_all2 (take off D)) by (rewrite length_take; lia).
    f_equal. rewrite take_app, (firstn_all2 src) by (unfold e in *; lia). f_equal.
    rewrite skipn_firstn_comm. f_equal. unfold e in *. lia.
Qed.

Lemma written_wf_node n off src :
  wf_node n -> (off + length src <= MAX_FILE_SIZE)%nat -> wf_node (written off src n).
Proof.
  intros [H1 H2 H3 H4 H5 H6 H7 H8 H9] Hoff. unfold written.
  constructor; simpl; try done.
  - rewrite length_splice by lia. done.
  - lia.
  - rewrite (app_assoc (take off _)), drop_app. rewrite (drop_ge (_ ++ src)) by (rewrite length_app, length_take; lia).
    rewrite length_app, length_take, drop_drop. simpl.
    replace (off + length src + _)%nat with (wn_len n + (Nat.max (wn_len n) (off + length src) - wn_len n))%nat by lia.
    rewrite <-drop_drop, H8, drop_replicate. f_equal. lia.
Qed.

Section write_facts.
Context (s : WritableStore) (Hwf : wf s) (i : Z) (upd : WritableNode -> WritableNode).
Context (Hkeep : forall n, wn_inode (upd n) = wn_inode n /\ wn_parent (upd n) = wn_parent n /\
                           nm (upd n) = nm n /\ wn_file_type (upd n) = wn_file_type n).
Context (Hf : forall n, node_of s i = Some n -> wf_node (upd n)).
Let s' : WritableStore := s <| ws_nodes ::= find_upd (fun n => wn_inode n =? i) upd |>.
Let g (n : WritableNode) := if wn_inode n =? i then upd n else n.

Lemma updated_nodes : ws_nodes s' = map g (ws_nodes s).
Proof. unfold s'. simpl. apply find_upd_map. by apply wf_inodes. Qed.

Lemma g_keep n : wn_inode (g n) = wn_inode n /\ wn_parent (g n) = wn_parent n /\
                 nm (g n) = nm n /\ wn_file_type (g n) = wn_file_type n.
Proof. unfold g. destruct (wn_inode n =? i); [apply Hkeep|done]. Qed.

Lemma elem_of_updated n : n ∈ ws_nodes s' <-> exists m, n = g m /\ m ∈ ws_nodes s.
Proof. rewrite updated_nodes. apply elem_of_map. Qed.

Lemma chain_updated j l : chain (ws_nodes s) j l -> chain (ws_nodes s') j l.
Proof.
  induction 1 as [|n l Hn Hc IH]; [constructor|]. destruct (g_keep n) as (Hi & Hp & _). rewrite <-Hi.
  constructor; [|by rewrite Hp]. apply elem_of_updated. eauto.
Qed.

Lemma updated_wf : wf s'.
Proof.
  pose proof Hwf as [W1 W2 W3 W4 W5 W6 W7 W8]. constructor.
  - apply Forall_forall. intros n (m & -> & Hm)%elem_of_updated. unfold g.
    destruct (Z.eqb_spec (wn_inode m) i) as [<-|]; [|by apply (wf_node_of s)].
    apply Hf. by apply find_inode_iff.
  - unfold s'. simpl. rewrite map_find_upd; [done|]. intros n _. apply Hkeep.
  - intros n m (n' & -> & Hn)%elem_of_updated (m' & -> & Hm)%elem_of_updated.
    destruct (g_keep n') as (-> & -> & -> & _), (g_keep m') as (-> & -> & -> & _). by apply W3.
  - intros n (m & -> & Hm)%elem_of_updated. destruct (g_keep m) as (_ & -> & _).
    destruct (W4 m Hm) as [E|(d & Hd & <- & Ht)]; [by left|right]. exists (g d).
    destruct (g_keep d) as (-> & _ & _ & ->). rewrite elem_of_updated. eauto.
  - intros n (m & -> & Hm)%elem_of_updated. destruct (g_keep m) as (-> & _).
    destruct (W5 m Hm) as [l Hl]. exists l. by apply chain_updated.
  - unfold s'. simpl. by rewrite length_find_upd.
  - intros n (m & -> & Hm)%elem_of_updated. destruct (g_keep m) as (-> & _). by apply W7.
  - apply W8.
Qed.

Lemma childI_updated q d : childI (ws_nodes s') q d = childI (ws_nodes s) q d.
Proof.
  apply option_eq. intros j. rewrite !childI_Some by (done || apply updated_wf).
  setoid_rewrite elem_of_updated. split.
  - intros (n & (m & -> & Hm) & H). exists m. destruct (g_keep m) as (<- & <- & <- & _). done.
  - intros (n & Hn & H). exists (g n). split; [eauto|]. destruct (g_keep n) as (-> & -> & -> & _). done.
Qed.

Lemma lookup_updated ds : lookup_tmp s' ds = lookup_tmp s ds.
Proof.
  unfold lookup_tmp. induction ds as [|d ds IH] using rev_ind; [done|]. rewrite !descend_snoc, IH.
  destruct (descend (ws_nodes s) TMP_INODE ds); [apply childI_updated|done].
Qed.

Lemma node_of_updated j : node_of s' j = if j =? i then upd <$> node_of s j else node_of s j.
Proof.
  unfold node_of, Store.find_inode. destruct (Z.eqb_spec j i) as [->|Hne]; unfold s'; simpl.
  - destruct (List.find _ (ws_nodes s)) as [n|] eqn:E; simpl.
    + rewrite (find_find_upd_eq _ _ _ n); [done| |done]. intros m. by destruct (Hkeep m) as (-> & _).
    + by rewrite find_upd_none.
  - apply find_find_upd_ne. intros n Hi%Z.eqb_eq. rewrite (proj1 (Hkeep n)), Hi.
    split; apply Z.eqb_neq; congruence.
Qed.
End write_facts.

Definition write_post (s : WritableStore) (i : Z) (off : nat) (src : bytes) (r : result nat FsError) (s' : WritableStore) : Prop :=
  match r with
  | Ok k =>
    k = length src /\ wf s' /\ (off + length src <= MAX_FILE_SIZE)%nat /\
    (exists old, contents <$> node_of s i = Some (File, old) /\
                 contents <$> node_of s' i = Some (File, write_at old off src)) /\
    (forall ds, lookup_tmp s' ds = lookup_tmp s ds) /\
    (forall j, j <> i -> node_of s' j = node_of s j)
  | Err e =>
    s' = s /\
    match e with
    | NotFound => node_of s i = None
    | IsDirectory => exists n, node_of s i = Some n /\ wn_file_type n = Directory
    | FileTooLarge => (MAX_FILE_SIZE < off + length src)%nat
    | _ => False
    end
  end.

Lemma write_spec (s : WritableStore) (i : Z) (off : nat) (src : bytes) :
  wf s ->
  exists r s', Store.write i off src s = Done (r, s') /\
  write_post s i off src r s'.
Proof.
  intros Hwf. unfold Store.write. run. fold (node_of s i).
  destruct (node_of s i) as [n|] eqn:En; [|by eexists _, _].
  assert (wf_node n) as Hn by (by apply find_inode_iff in En as [Hn _]; [apply (wf_node_of s)|]).
  unfold FileType_eqb. destruct (bool_decide_reflect (wn_file_type n = File)) as [Ht|Ht]; simpl; cycle 1.
  { eexists _, _. split; [done|]. split; [done|]. exists n. split; [done|]. by destruct (wn_file_type n). }
  rewrite (wfn_data n Hn). destruct (usize_checked_add_cases off (length src)) as [[-> Hsz]|[-> Hsz]]; cycle 1.
  { eexists _, _. split; [done|]. split; [done|]. unfold MAX_FILE_SIZE, u64_max in *. lia. }
  destruct (Nat.ltb_spec MAX_FILE_SIZE (off + length src)); [by eexists _, _|].
  rewrite copy_slice_ok by (rewrite ?(wfn_data n Hn); lia).
  set (upd := fun m => m <| wn_data := take off (wn_data n) ++ src ++ drop (off + length src) (wn_data n) |>
                         <| wn_len := Nat.max (wn_len m) (off + length src) |>).
  assert (upd n = written off src n) as Hupd by done.
  assert (forall m, wn_inode (upd m) = wn_inode m /\ wn_parent (upd m) = wn_parent m /\
                    nm (upd m) = nm m /\ wn_file_type (upd m) = wn_file_type m) as Hkeep by done.
  assert (forall m, node_of s i = Some m -> wf_node (upd m)) as Hf.
  { intros m Hm. assert (m = n) as -> by congruence. rewrite Hupd. by apply written_wf_node. }
  eexists _, _. split; [done|]. split; [done|]. split; [by apply updated_wf|]. split; [done|].
  split; [|split; [intros ds; by apply lookup_updated|]].
  - exists (take (wn_len n) (wn_data n)). rewrite node_of_updated, Z.eqb_refl, En by done. simpl.
    rewrite Hupd, contents_written by done. unfold contents. by rewrite Ht.
  - intros j Hj. rewrite node_of_updated by done. apply Z.eqb_neq in Hj. by rewrite Hj.
Qed.


Section read_back.
Context (images : list UserlandImage).



End read_back.


(** ** Reachable stores *)

Lemma concat_split_on (l : bytes) : concat (map (cons SLASH) (split_on SLASH l)) = SLASH :: l.
Proof.
  induction l as [|x l IH]; simpl; [done|]. destruct (Z.eqb_spec x SLASH) as [->|]; [by simpl; rewrite IH|].
  destruct (split_on SLASH l) eqn:E; [by apply split_on_nonempty in E|]. simpl in *. by injection IH as ->.
Qed.

(** Every text is below [/tmp] with some component list, or not below it. *)
Lemma path_cases (path : bytes) :
  utf8 path ->
  (strip_prefix path TMP_SLASH = None) \/
  exists cs c, path = tmp_path (cs ++ [c]) /\ Forall (fun c => SLASH ∉ c) cs /\ SLASH ∉ c /\ utf8 c.
Proof.
  intros Hu. destruct (strip_prefix path TMP_SLASH) as [rel|] eqn:E; [right|by left].
  apply strip_prefix_Some in E. pose proof (split_on_nonempty SLASH rel) as Hne.
  assert (Forall (fun c => SLASH ∉ c /\ utf8 c) (split_on SLASH rel)) as Hf.
  { apply Forall_and. split; [apply Forall_no_slash|]. apply split_on_utf8; [done|].
    change TMP_SLASH with (TMP ++ [SLASH]) in E. rewrite <-app_assoc in E. subst path.
    by apply (utf8_split TMP rel SLASH) in Hu as [_ ?]. }
  assert (path = tmp_path (split_on SLASH rel)) as Hp by (subst; unfold tmp_path; by rewrite concat_split_on).
  destruct (split_on SLASH rel) as [|c cs _] using rev_ind; [done|].
  apply Forall_app in Hf as [Hf [[??] _]%Forall_cons]. exists cs, c. split; [done|]. split; [|done].
  eapply Forall_impl; [done|]. by intros ? [??].
Qed.

Lemma split_parent_outside path :
  strip_prefix path TMP_SLASH = None -> Store.split_parent_name path = Done (Err ReadOnly).
Proof. intros H. unfold Store.split_parent_name. by rewrite H. Qed.

Inductive StoreOp :=
  | OpCreate (path : bytes) (ft : FileType)
  | OpWrite (inode : Z) (offset : nat) (source : bytes)
  | OpRemove (path : bytes) (expected : FileType)
  | OpRename (old_path new_path : bytes).

Definition run_op (op : StoreOp) : M WritableStore unit :=
  match op with
  | OpCreate path ft => Store.create path ft;; mret tt
  | OpWrite i off src => Store.write i off src;; mret tt
  | OpRemove path ft => Store.remove path ft;; mret tt
  | OpRename old new => Store.rename old new;; mret tt
  end.

(** The paths are [&str]s: valid UTF-8. *)
Definition op_valid (op : StoreOp) : bool :=
  match op with
  | OpCreate path _ | OpRemove path _ => utf8_valid path
  | OpRename old new => utf8_valid old && utf8_valid new
  | OpWrite _ _ _ => true
  end.

Fixpoint run_ops (ops : list StoreOp) : M WritableStore unit :=
  match ops with
  | [] => mret tt
  | op :: ops => run_op op;; run_ops ops
  end.

Lemma create_safe s path ft : wf s -> utf8 path -> wp (Store.create path ft) (fun _ => wf) s.
Proof.
  intros Hwf Hu. destruct (path_cases path Hu) as [H|(cs & c & -> & Hcs & Hc & Hcu)].
  - unfold wp, Store.create. run. by rewrite split_parent_outside.
  - unfold wp. rewrite create_run by done. destruct (create_error s cs c) eqn:E; [done|].
    apply create_error_None in E as (p & -> & ? & ? & ? & ? & ? & ?); [|done]. by apply created_wf.
Qed.

(** A text that does not start with [/tmp/] is [/tmp] itself or is not found. *)
Lemma resolve_outside nodes path :
  strip_prefix path TMP_SLASH = None ->
  Store.resolve_path nodes path = Done (if bytes_eqb path TMP then Some TMP_INODE else None).
Proof. intros H. unfold Store.resolve_path. rewrite H. by destruct (bytes_eqb path TMP). Qed.

Lemma remove_safe s path ft : wf s -> utf8 path -> wp (Store.remove path ft) (fun _ => wf) s.
Proof.
  intros Hwf Hu. destruct (path_cases path Hu) as [H|(cs & c & -> & Hcs & Hc & Hcu)].
  - unfold wp, Store.remove. run. rewrite resolve_outside by done. by destruct (bytes_eqb path TMP).
  - destruct (remove_spec s (cs ++ [c]) ft Hwf) as (r & s' & E & Hp); [apply Forall_app; by repeat constructor|].
    unfold wp. rewrite E. destruct r; [apply Hp|]. by destruct Hp as [-> _].
Qed.

Lemma rename_safe s old new : wf s -> utf8 old -> utf8 new -> wp (Store.rename old new) (fun _ => wf) s.
Proof.
  intros Hwf Ho Hn. destruct (path_cases old Ho) as [H|(cs & c & -> & Hcs & Hc & Hcu)].
  { unfold wp, Store.rename. run. rewrite resolve_outside by done. by destruct (bytes_eqb old TMP). }
  assert (Forall (fun c => SLASH ∉ c) (cs ++ [c])) as Hf by (apply Forall_app; by repeat constructor).
  destruct (path_cases new Hn) as [H|(ds & d & -> & Hds & Hd & Hdu)].
  - unfold wp, Store.rename. run. rewrite resolve_tmp_path by (try apply wf_nodes; done).
    destruct (descend _ _ _) as [i|]; [|done]. destruct (i =? TMP_INODE); [done|]. by rewrite split_parent_outside.
  - destruct (rename_spec s (cs ++ [c]) ds d) as (r & s' & E & Hp); [done..|].
    unfold wp. rewrite E. destruct r; [apply Hp|]. by destruct Hp as [-> _].
Qed.

Lemma write_safe s i off src : wf s -> wp (Store.write i off src) (fun _ => wf) s.
Proof.
  intros Hwf. destruct (write_spec s i off src Hwf) as (r & s' & E & Hp).
  unfold wp. rewrite E. destruct r; [apply Hp|]. by destruct Hp as [-> _].
Qed.

Lemma new_wf : wf Store.new.
Proof. constructor; simpl; try set_solver; try (constructor; fail); try lia. done. Qed.

(** C8. Every sequence of store operations on valid texts, from the empty
    store, runs to its end without a panic or an endless ancestor walk and
    leaves a well-formed tree: unique inodes, unique names in a directory, at
    most 32 nodes, every node's parent a directory, no cycles. *)
Theorem store_ops_safe (ops : list StoreOp) :
  Forall (fun op => op_valid op = true) ops ->
  exists s, run_ops ops Store.new = Done (tt, s) /\ wf s.
Proof.
  intros Hv. pose proof new_wf as Hwf. revert Hwf. generalize Store.new.
  induction Hv as [|op ops Hop _ IH]; intros s Hwf; [by exists s|].
  assert (wp (run_op op) (fun _ => wf) s) as Hrun.
  { destruct op; simpl in *; bool_to_prop; apply wp_bind; eapply wp_mono;
      [by apply create_safe; [|apply utf8_valid_spec]|by auto|by apply write_safe|by auto
      |by apply remove_safe; [|apply utf8_valid_spec]|by auto
      |by apply rename_safe; [|apply utf8_valid_spec..]|by auto]. }
  apply wp_run in Hrun as ([] & s' & E & Hwf'). destruct (IH s' Hwf') as (s'' & E' & H).
  exists s''. simpl. run. by rewrite E.
Qed.

(** ** Witnesses *)

Definition demo : WritableStore := created (created Store.new 3 (str "docs") Directory) 10000 (str "note") File.

Lemma no_slash_dec (c : bytes) : existsb (Z.eqb SLASH) c = false -> SLASH ∉ c.
Proof. intros H Hin. rewrite existsb_false in H. specialize (H _ Hin). by rewrite Z.eqb_refl in H. Qed.

Lemma demo_store_wf : wf demo.
Proof.
  assert (wf (created Store.new 3 (str "docs") Directory)) as H1.
  { apply created_wf; try done; [apply new_wf|by apply no_slash_dec|by apply utf8_valid_spec|vm_compute; lia|by left]. }
  apply created_wf; try done; [by apply no_slash_dec|by apply utf8_valid_spec|vm_compute; lia|].
  right. eexists. split; [apply list_elem_of_here|done].
Qed.

Lemma rename_refines_witness :
  exists r s', Store.rename (str "/tmp/docs") (str "/tmp/papers") demo = Done (r, s') /\
    rename_post demo [str "docs"] [] (str "papers") r s' /\ r = Ok 10000.
Proof.
  destruct (rename_refines demo [str "docs"] [] (str "papers") demo_store_wf) as (r & s' & E & H);
    [repeat constructor; by apply no_slash_dec..|by apply no_slash_dec|by apply utf8_valid_spec|].
  exists r, s'. split; [exact E|]. split; [exact H|]. vm_compute in E. congruence.
Defined.



Lemma store_ops_safe_witness :
  exists s, run_ops [OpCreate (str "/tmp/a") Directory; OpRename (str "/tmp/a") (str "/tmp/a/b");
                     OpWrite 10000 0 (str "x"); OpRemove (str "/tmp//a") Directory] Store.new = Done (tt, s) /\ wf s.
Proof. apply store_ops_safe. repeat constructor. Defined.
