(* ===== verification/FsLaws.v ===== *)
(** * What the file systems promise to the system calls

    [FsLaws] states what the kernel relies on of the mounted file systems: no
    operation on a UTF-8 path panics, a buffer keeps its length, and a node
    that is read or written at an offset it has accepted stays readable there,
    until a file is unlinked.  The VFS functions are safe for file systems with
    these laws; the RAM file system has them ([RamFsLaws]). *)

From S2P Require Import Prelude Utf8 Paths Vfs RamFs RamFsProofs.

(** ** Text of paths *)

Lemma utf8_app_inv (a b : bytes) : utf8 a -> utf8 (a ++ b) -> utf8 b.
Proof.
  intros Ha. revert b. induction Ha as [|c l Hc _ IH]; intros b; [done|]. rewrite <-app_assoc. intros H. apply IH. clear IH.
  revert H. generalize (l ++ b). clear l b. intros l H. inversion H as [E|c' l' Hc' Hl E]; [by destruct Hc|].
  enough (c' = c) as -> by (by simplify_list_eq). clear Hl H.
  destruct Hc, Hc'; simplify_list_eq; try done; utf8_bools; lia.
Qed.

(** A path that prints as UTF-8 text. *)
Definition path_ok (p : NormalizedPath) : Prop := exists text, Path.as_str p = Done text /\ utf8_valid text = true.

Lemma root_path_ok : path_ok Path.root.
Proof. by exists [SLASH]. Qed.

Lemma normalize_path_ok cwd path : utf8_valid cwd = true -> utf8_valid path = true ->
  exists r, Path.normalize_path_from cwd path = Done r /\ match r with Ok p => path_ok p | Err _ => True end.
Proof.
  intros Hc Hp. pose proof (normalize_agrees cwd path) as Hr. destruct (Path.normalize_path_from cwd path) as [[p|e]|] eqn:E; [|by eexists|done].
  exists (Ok p). split; [done|]. destruct (normalize_ok_represents cwd path p Hc Hp E) as (st & Hst & Ht).
  exists (Spec.render st). split; [done|]. unfold Path.as_str in Ht. destruct (slice _ _ _) as [s|]; [|done]. simpl in Ht. injection Ht as <-.
  unfold from_utf8_or_empty. by destruct (utf8_valid s) eqn:Es.
Qed.

Lemma strip_mount_path_utf8 path mount_path : utf8_valid path = true -> utf8_valid mount_path = true ->
  utf8_valid (strip_mount_path path mount_path) = true.
Proof.
  intros Hp Hm. unfold strip_mount_path. destruct (bytes_eqb mount_path [SLASH]); [done|].
  destruct (strip_prefix path mount_path) as [suffix|] eqn:E; cbn [default from_option]; [|by destruct path].
  destruct suffix as [|x suffix]; [done|]. apply strip_prefix_Some in E as ->. rewrite utf8_valid_spec in Hp, Hm |- *. by apply utf8_app_inv in Hp.
Qed.

(** ** The laws *)

(** [off_ok s node off]: an open descriptor of [node] may stand at [off]. *)
Definition offsets_kept {S} (off_ok : S -> VfsNodeId -> nat -> Prop) (s s' : S) : Prop :=
  forall node off, off_ok s node off -> off_ok s' node off.

Lemma offsets_kept_refl {S} (off_ok : S -> VfsNodeId -> nat -> Prop) s : offsets_kept off_ok s s.
Proof. by intros node off. Qed.
#[export] Hint Resolve offsets_kept_refl : core.

(** The same file systems are available. *)
Definition availability_kept {S} (mounts : list (Mount S)) (s s' : S) : Prop :=
  forall m, m ∈ mounts -> be_available (mnt_backend m) s' = be_available (mnt_backend m) s.

Section mount_laws.
Context {S : Type} (mounts : list (Mount S)) (good : S -> Prop) (off_ok : S -> VfsNodeId -> nat -> Prop).
Notation kept := (offsets_kept off_ok).

(** The laws of one mounted file system. *)
Record MountLaws (m : Mount S) : Prop := {
  ml_path : utf8_valid (mnt_path m) = true;
  ml_list : forall path out s, utf8_valid path = true -> good s ->
    wp (be_list (mnt_backend m) path out) (fun '(r, out') s' => good s' /\ kept s s' /\ length out' = length out /\
      match r with Ok n => (n <= length out)%nat | Err _ => True end) s;
  ml_stat : forall path s, utf8_valid path = true -> good s ->
    wp (be_stat (mnt_backend m) path) (fun r s' => good s' /\ kept s s' /\ availability_kept mounts s s' /\
      match r with Ok st => bs_file_type st = File -> off_ok s' (mkNode (mnt_id m) (bs_inode st)) 0%nat | Err _ => True end) s;
  ml_read : forall inode off out s, good s -> off_ok s (mkNode (mnt_id m) inode) off ->
    wp (be_read (mnt_backend m) inode off out) (fun '(r, out') s' => good s' /\ kept s s' /\ length out' = length out /\
      match r with Ok n => (n <= length out)%nat /\ off_ok s' (mkNode (mnt_id m) inode) (off + n)%nat | Err _ => True end) s;
  ml_write : forall inode off src s, good s -> Forall is_byte src -> off_ok s (mkNode (mnt_id m) inode) off ->
    wp (be_write (mnt_backend m) inode off src) (fun r s' => good s' /\ kept s s' /\
      match r with Ok n => off_ok s' (mkNode (mnt_id m) inode) (off + n)%nat | Err _ => True end) s;
  ml_create : forall path s, utf8_valid path = true -> good s ->
    wp (be_create (mnt_backend m) path) (fun r s' => good s' /\ kept s s' /\
      match r with Ok st => off_ok s' (mkNode (mnt_id m) (bs_inode st)) 0%nat | Err _ => True end) s;
  ml_mkdir : forall path s, utf8_valid path = true -> good s ->
    wp (be_mkdir (mnt_backend m) path) (fun r s' => good s' /\ kept s s') s;
  (* Only the node the path leads to may go. *)
  ml_unlink : forall path st s s1, utf8_valid path = true -> good s -> be_stat (mnt_backend m) path s = Done (Ok st, s1) ->
    wp (be_unlink (mnt_backend m) path) (fun r s' => good s' /\
      forall node off, node <> mkNode (mnt_id m) (bs_inode st) -> off_ok s1 node off -> off_ok s' node off) s1;
  ml_rmdir : forall path s, utf8_valid path = true -> good s ->
    wp (be_rmdir (mnt_backend m) path) (fun r s' => good s' /\ kept s s') s;
  ml_rename : forall old new s, utf8_valid old = true -> utf8_valid new = true -> good s ->
    wp (be_rename (mnt_backend m) old new) (fun r s' => good s' /\ kept s s') s;
}.
End mount_laws.

Section laws.
Context {S : Type} (mounts : list (Mount S)).

Class FsLaws (good : S -> Prop) (off_ok : S -> VfsNodeId -> nat -> Prop) : Prop :=
  fs_mount_laws : forall m, m ∈ mounts -> MountLaws mounts good off_ok m.

(** ** The VFS *)

Context {good : S -> Prop} {off_ok : S -> VfsNodeId -> nat -> Prop} {Laws : FsLaws good off_ok}.
Notation kept := (offsets_kept off_ok).

Section of_mount.
Context (m : Mount S) (Hm : m ∈ mounts).
Let L := fs_mount_laws m Hm.
Definition fl_path := ml_path _ _ _ _ L.
Definition fl_list := ml_list _ _ _ _ L.
Definition fl_stat := ml_stat _ _ _ _ L.
Definition fl_read := ml_read _ _ _ _ L.
Definition fl_write := ml_write _ _ _ _ L.
Definition fl_create := ml_create _ _ _ _ L.
Definition fl_mkdir := ml_mkdir _ _ _ _ L.
Definition fl_unlink := ml_unlink _ _ _ _ L.
Definition fl_rmdir := ml_rmdir _ _ _ _ L.
Definition fl_rename := ml_rename _ _ _ _ L.
End of_mount.

Lemma resolve_ok path (s : S) : utf8_valid path = true ->
  exists r, resolve mounts path s = Done (r, s) /\
    match r with Ok (m, rest) => m ∈ mounts /\ utf8_valid rest = true | Err _ => True end.
Proof.
  intros Hp. unfold resolve. run. eexists. split; [reflexivity|].
  pose proof (max_by_key_spec (fun m : Mount S => length (mnt_path m)) (List.filter
    (fun m => be_available (mnt_backend m) s && path_matches_mount path (mnt_path m)) mounts)) as H.
  destruct (max_by_key _ _) as [m|]; [|done]. destruct H as [Hm _]. apply list_elem_of_In, List.filter_In in Hm as [Hm _].
  apply list_elem_of_In in Hm. split; [done|]. apply strip_mount_path_utf8; [done|by apply fl_path].
Qed.

Lemma normalized_text_ok cwd path (s : S) : utf8_valid cwd = true -> utf8_valid path = true ->
  exists r, normalized_text cwd path s = Done (r, s) /\
    match r with Ok (p, text) => path_ok p /\ utf8_valid text = true | Err _ => True end.
Proof.
  intros Hc Hp. unfold normalized_text. run. destruct (normalize_path_ok cwd path Hc Hp) as ([p|e] & -> & H); [|by eexists].
  destruct H as (text & E & Hu). run. rewrite E. eexists. split; [reflexivity|]. split; [by exists text|done].
Qed.

Lemma resolve_same path s s' : availability_kept mounts s s' -> resolve mounts path s' = (r ← resolve mounts path s; Done (r.1, s')).
Proof.
  intros Ha. unfold resolve. run. cbn.
  erewrite List.filter_ext_in; [reflexivity|]. intros m Hm%list_elem_of_In. simpl. by rewrite Ha.
Qed.

(** What a lookup of a node may do. *)
Definition lookup_ok {A} (Q : S -> A -> Prop) (s : S) (r : result A FsError) (s' : S) : Prop :=
  good s' /\ kept s s' /\ availability_kept mounts s s' /\ match r with Ok a => Q s' a | Err _ => True end.

Lemma lookup_err {A} (Q : S -> A -> Prop) s e : good s -> lookup_ok Q s (Err e) s.
Proof. by repeat split. Qed.
#[local] Hint Resolve lookup_err : core.

Lemma vfs_stat_ok p s : path_ok p -> good s ->
  wp (vfs_stat mounts p) (lookup_ok (fun s' st => fs_path st = p /\ (fs_file_type st = File -> off_ok s' (fs_node st) 0%nat)) s) s.
Proof.
  intros (text & E & Hu) Hg. unfold vfs_stat, wp. run. rewrite E. run. destruct (resolve_ok text s Hu) as ([[m rest]|e] & -> & H); [|by apply lookup_err].
  destruct H as [Hm Hr]. run. pose proof (fl_stat m Hm rest s Hr Hg) as Hs. unfold wp in Hs.
  destruct (be_stat (mnt_backend m) rest s) as [[r s']|]; [|done].
  destruct Hs as (? & ? & ? & ?). by destruct r; repeat split.
Qed.

Lemma stat_from_ok cwd path s : utf8_valid cwd = true -> utf8_valid path = true -> good s ->
  wp (stat_from mounts cwd path) (lookup_ok (fun s' st => path_ok (fs_path st) /\ (fs_file_type st = File -> off_ok s' (fs_node st) 0%nat)) s) s.
Proof.
  intros Hc Hp Hg. unfold stat_from, wp. run. destruct (normalize_path_ok cwd path Hc Hp) as ([p|e] & -> & H); [|by apply lookup_err].
  eapply wp_mono; [by apply vfs_stat_ok|]. intros [st|e] s' (? & ? & ? & Hr); [|done]. destruct Hr as [<- ?]. done.
Qed.

Definition target_ok (s : S) (t : OpenTarget) : Prop := path_ok (ot_path t) /\ (ot_file_type t = File -> off_ok s (ot_node t) 0%nat).

Lemma open_from_ok cwd path s : utf8_valid cwd = true -> utf8_valid path = true -> good s ->
  wp (open_from mounts cwd path) (lookup_ok target_ok s) s.
Proof.
  intros Hc Hp Hg. unfold open_from. apply wp_bind. eapply wp_mono; [by apply stat_from_ok|]. by intros [st|e] s' H.
Qed.

Lemma append_line_ok out n value : (n <= length out)%nat -> exists r out', append_line out n value = Done (r, out') /\ length out' = length out /\
  match r with Ok k => (k <= length out)%nat | Err _ => True end.
Proof.
  intros Hn. unfold append_line. destruct (usize_checked_add_cases n (length value + 1)) as [[-> _]|[-> _]]; [|by eexists _, _].
  destruct (Nat.ltb_spec (length out) (n + (length value + 1))) as [|He]; [by eexists _, _|].
  rewrite copy_slice_ok by lia. run. rewrite index_set_ok by (rewrite !length_app, length_take, length_drop; lia).
  eexists _, _. split; [reflexivity|]. split; [|done]. rewrite length_insert, !length_app, length_take, length_drop. lia.
Qed.

Lemma list_mounts_ok dir ms out n (s : S) : (n <= length out)%nat ->
  exists r out', list_mounts dir ms out n s = Done ((r, out'), s) /\ length out' = length out /\
    match r with Ok k => (k <= length out)%nat | Err _ => True end.
Proof.
  revert out n. induction ms as [|m ms IH]; intros out n Hn; cbn [list_mounts]; [by eexists _, _|]. run.
  destruct (be_available (mnt_backend m) s); cbn [negb]; [|by apply IH].
  destruct (direct_mount_child dir (mnt_path m)) as [name|]; [|by apply IH]. run.
  destruct (append_line_ok out n name Hn) as (r & out' & -> & Hl & Hr). destruct r as [k|e]; [|by eexists _, _].
  destruct (IH out' k) as (r & out2 & -> & Hl2 & Hr2); [lia|]. eexists _, _. split; [reflexivity|]. rewrite <-Hl. by rewrite Hl2.
Qed.

Definition buffer_call (m : M S (result nat FsError * bytes)) (out : bytes) (s : S) : Prop :=
  wp m (fun '(r, out') s' => good s' /\ kept s s' /\ length out' = length out /\ match r with Ok n => (n <= length out)%nat | Err _ => True end) s.

Lemma list_to_buffer_ok cwd path out s : utf8_valid cwd = true -> utf8_valid path = true -> good s ->
  buffer_call (list_to_buffer mounts cwd path out) out s.
Proof.
  intros Hc Hp Hg. unfold buffer_call, list_to_buffer, wp. run.
  destruct (normalized_text_ok cwd path s Hc Hp) as ([[p text]|e] & -> & H); [|done]. destruct H as [_ Ht].
  destruct (resolve_ok text s Ht) as ([[m rest]|e] & -> & H); [|done]. destruct H as [Hm Hr].
  pose proof (fl_list m Hm rest out s Hr Hg) as Hl. unfold wp in Hl.
  destruct (be_list (mnt_backend m) rest out s) as [[[r out'] s']|]; [|done]. destruct Hl as (Hg' & Hk & Hlen & Hn).
  destruct r as [n|e]; [|done]. destruct (list_mounts_ok text mounts out' n s') as (r & out2 & -> & Hl2 & Hr2); [lia|].
  split_and!; [done|done|lia|]. by rewrite <-Hlen.
Qed.

Lemma mount_elem id m : mount mounts id = Ok m -> m ∈ mounts /\ mnt_id m = id.
Proof. unfold mount, ok_or. destruct (List.find _ _) as [x|] eqn:E; [|done]. intros [= ->]. by apply find_Some in E as [? ?%Z.eqb_eq]. Qed.

Lemma read_node_ok node off out s : good s -> off_ok s node off ->
  wp (read_node mounts node off out) (fun '(r, out') s' => good s' /\ kept s s' /\ length out' = length out /\
    match r with Ok n => (n <= length out)%nat /\ off_ok s' node (off + n)%nat | Err _ => True end) s.
Proof.
  intros Hg Ho. unfold read_node. destruct (mount mounts (node_mount node)) as [m|e] eqn:E; [|done].
  apply mount_elem in E as [Hm Hid]. destruct node as [mid inode]. simpl in *. rewrite <-Hid in *. by apply fl_read.
Qed.

Lemma write_node_ok node off src s : good s -> Forall is_byte src -> off_ok s node off ->
  wp (write_node mounts node off src) (fun r s' => good s' /\ kept s s' /\
    match r with Ok n => off_ok s' node (off + n)%nat | Err _ => True end) s.
Proof.
  intros Hg Hsrc Ho. unfold write_node. destruct (mount mounts (node_mount node)) as [m|e] eqn:E; [|done].
  apply mount_elem in E as [Hm Hid]. destruct node as [mid inode]. simpl in *. rewrite <-Hid in *. by apply fl_write.
Qed.

Lemma read_to_buffer_ok cwd path out s : utf8_valid cwd = true -> utf8_valid path = true -> good s ->
  buffer_call (read_to_buffer mounts cwd path out) out s.
Proof.
  intros Hc Hp Hg. unfold buffer_call, read_to_buffer, wp. run.
  pose proof (open_from_ok cwd path s Hc Hp Hg) as Ho. unfold wp in Ho. destruct (open_from mounts cwd path s) as [[r s1]|]; [|done].
  destruct Ho as (Hg1 & Hk1 & _ & H). destruct r as [t|e]; [|done].
  unfold FileType_eqb. destruct (bool_decide_reflect (ot_file_type t = File)) as [Ht|]; cbn [negb]; [|done].
  pose proof (read_node_ok (ot_node t) 0%nat out s1 Hg1 (proj2 H Ht)) as Hr. unfold wp in Hr.
  destruct (read_node mounts (ot_node t) 0%nat out s1) as [[[r out'] s']|]; [|done]. destruct Hr as (? & Hk & ? & Hr).
  split_and!; try done; [by intros node off ?%Hk1%Hk|]. by destruct r; [destruct Hr|].
Qed.

(** A call that leads to one backend with the rest of a path. *)
Lemma backend_call_ok {A} (call : Mount S -> bytes -> NormalizedPath -> M S (result A FsError)) (Q : result A FsError -> S -> Prop) cwd path s :
  utf8_valid cwd = true -> utf8_valid path = true -> good s -> (forall e, Q (Err e) s) ->
  (forall m rest p, m ∈ mounts -> utf8_valid rest = true -> path_ok p -> wp (call m rest p) Q s) ->
  wp (try '(p, text) := normalized_text cwd path in try '(m, rest) := resolve mounts text in call m rest p) Q s.
Proof.
  intros Hc Hp Hg He Hcall. unfold wp. run. destruct (normalized_text_ok cwd path s Hc Hp) as ([[p text]|e] & -> & H); [|by apply He].
  destruct H as [Hpo Ht]. destruct (resolve_ok text s Ht) as ([[m rest]|e] & -> & H); [|by apply He]. destruct H as [Hm Hr]. by apply Hcall.
Qed.

Lemma create_from_ok cwd path s : utf8_valid cwd = true -> utf8_valid path = true -> good s ->
  wp (create_from mounts cwd path) (fun r s' => good s' /\ kept s s' /\
    match r with Ok t => path_ok (ot_path t) /\ off_ok s' (ot_node t) 0%nat | Err _ => True end) s.
Proof.
  intros Hc Hp Hg. apply backend_call_ok; try done. intros m rest p Hm Hr Hpo. apply wp_bind. eapply wp_mono; [by apply fl_create|].
  intros [st|e] s' (? & ? & ?); done.
Qed.

Lemma mkdir_from_ok cwd path s : utf8_valid cwd = true -> utf8_valid path = true -> good s ->
  wp (mkdir_from mounts cwd path) (fun r s' => good s' /\ kept s s') s.
Proof.
  intros Hc Hp Hg. apply backend_call_ok; try done. intros m rest p Hm Hr Hpo. apply wp_bind. eapply wp_mono; [by apply fl_mkdir|].
  intros [st|e] s' (? & ?); done.
Qed.

Lemma rmdir_from_ok cwd path s : utf8_valid cwd = true -> utf8_valid path = true -> good s ->
  wp (rmdir_from mounts cwd path) (fun r s' => good s' /\ kept s s') s.
Proof. intros Hc Hp Hg. apply (backend_call_ok (fun m rest _ => be_rmdir (mnt_backend m) rest)); try done. intros m rest p Hm Hr _. by apply fl_rmdir. Qed.

(** Unlinking what [open_from] found: only that node may go. *)
Lemma unlink_from_ok cwd path t s s1 : utf8_valid cwd = true -> utf8_valid path = true -> good s ->
  open_from mounts cwd path s = Done (Ok t, s1) ->
  wp (unlink_from mounts cwd path) (fun r s' => good s' /\ forall node off, node <> ot_node t -> off_ok s1 node off -> off_ok s' node off) s1.
Proof.
  intros Hc Hp Hg. unfold open_from, stat_from, vfs_stat, unlink_from, normalized_text, wp. run.
  destruct (normalize_path_ok cwd path Hc Hp) as ([p|e] & -> & H); [|done]. destruct H as (text & E & Hu). run. rewrite E. run.
  destruct (resolve_ok text s Hu) as ([[m rest]|e] & Er & H); rewrite Er; [|done]. destruct H as [Hm Hr]. run.
  pose proof (fl_stat m Hm rest s Hr Hg) as Hs. unfold wp in Hs. destruct (be_stat (mnt_backend m) rest s) as [[r s2]|] eqn:Es; [|done].
  destruct Hs as (_ & _ & Ha & _). destruct r as [st|e]; [|done]. intros [= <- <-]. rewrite (resolve_same text s) by done. rewrite Er. simpl.
  by apply (fl_unlink m Hm rest st s).
Qed.

Lemma rename_from_ok cwd old new s : utf8_valid cwd = true -> utf8_valid old = true -> utf8_valid new = true -> good s ->
  wp (rename_from mounts cwd old new) (fun r s' => good s' /\ kept s s') s.
Proof.
  intros Hc Ho Hn Hg. unfold rename_from, wp. run. destruct (normalize_path_ok cwd old Hc Ho) as ([p|e] & -> & H); [|done].
  destruct H as (text & E & Hu). run. destruct (normalize_path_ok cwd new Hc Hn) as ([p2|e] & -> & H); [|done].
  destruct H as (text2 & E2 & Hu2). run. rewrite E. run. destruct (resolve_ok text s Hu) as ([[m rest]|e] & -> & H); [|done].
  destruct H as [Hm Hr]. run. rewrite E2. run. destruct (resolve_ok text2 s Hu2) as ([[m2 rest2]|e] & -> & H2); [|done].
  destruct H2 as [Hm2 Hr2]. destruct (negb (mnt_id m =? mnt_id m2)); [done|]. by apply fl_rename.
Qed.

End laws.
