(* ===== verification/RamFsLaws.v ===== *)
(** * The RAM file system keeps the promises of [FsLaws]

    Inodes are never reused and files never shrink, so an offset that a
    descriptor has reached stays within its file. *)

From S2P Require Import Prelude Utf8 Paths Vfs RamFs RamFsProofs FsLaws.

(** ** What the operations of the store do to files that exist *)

Record store_le (s s' : WritableStore) : Prop := {
  sl_next : ws_next_inode s <= ws_next_inode s';
  sl_nodes : forall n', n' ∈ ws_nodes s' -> wn_inode n' < ws_next_inode s ->
    exists n, n ∈ ws_nodes s /\ wn_inode n = wn_inode n' /\ (wn_len n <= wn_len n')%nat;
}.

Lemma store_le_refl s : store_le s s.
Proof. split; [lia|]. eauto. Qed.
#[local] Hint Resolve store_le_refl : core.

Lemma store_le_update s q upd :
  (forall n, wn_inode (upd n) = wn_inode n /\ (wn_len n <= wn_len (upd n))%nat) ->
  store_le s (s <| ws_nodes ::= find_upd q upd |>).
Proof.
  intros Hu. split; simpl; [lia|]. intros n' [Hn|(n & [Hn _]%find_Some & ->)]%elem_of_find_upd _; [by eauto|].
  destruct (Hu n). eauto.
Qed.

Lemma create_le path ft s r s' : Store.create path ft s = Done (r, s') -> store_le s s' /\
  match r with Ok i => i < ws_next_inode s' | Err _ => True end.
Proof.
  unfold Store.create, Store.new_node. run. destruct (Store.split_parent_name path) as [[[pp name]|e]|]; [|by intros [= <- <-]|done].
  destruct (Store.resolve_path _ _) as [[p|]|]; [|by intros [= <- <-]|done]. destruct (Store.not_a_directory _ _); [by intros [= <- <-]|].
  destruct (Store.child _ _ _) as [c|]; [|done]. destruct (is_some c); [by intros [= <- <-]|]. destruct (_ =? _)%nat; [by intros [= <- <-]|].
  unfold u64_checked_add, checked_add_to. destruct (_ <=? _); [|by intros [= <- <-]]. destruct (copy_slice _ _ _ _); [|done].
  intros [= <- <-]. split; [|simpl; lia]. split; simpl; [lia|]. intros n' [Hn|Hn]%elem_of_app Hlt; [by eauto|].
  apply list_elem_of_singleton in Hn as ->. simpl in Hlt. lia.
Qed.

Lemma write_le i off src s r s' : Store.write i off src s = Done (r, s') -> store_le s s' /\
  match r with
  | Ok k => (exists n, n ∈ ws_nodes s /\ wn_inode n = i) /\ (NoDup (map wn_inode (ws_nodes s')) ->
      forall n', n' ∈ ws_nodes s' -> wn_inode n' = i -> (off + k <= wn_len n')%nat)
  | Err _ => True
  end.
Proof.
  unfold Store.write. run. destruct (Store.find_inode (ws_nodes s) i) as [n|] eqn:En; [|by intros [= <- <-]].
  destruct (negb _); [by intros [= <- <-]|]. destruct (usize_checked_add_cases off (length src)) as [[-> _]|[-> _]]; [|by intros [= <- <-]].
  destruct (_ <? _)%nat; [by intros [= <- <-]|]. destruct (copy_slice _ _ _ _) as [d|]; [|done]. intros [= <- <-].
  split; [apply store_le_update; intros m; simpl; lia|].
  pose proof (find_Some _ _ _ En) as [Hn Hi%Z.eqb_eq]. split; [by exists n|]. intros Hnd n' Hn' Hi'.
  set (upd := fun m => m <| wn_data := d |> <| wn_len := Nat.max (wn_len m) (off + length src) |>) in *.
  assert (upd n ∈ find_upd (fun m => wn_inode m =? i) upd (ws_nodes s)) as Hu.
  { eapply proj1, find_Some, find_find_upd_eq; [|exact En]. done. }
  assert (n' = upd n) as ->; [|unfold upd; simpl; lia]. apply (NoDup_map_inj wn_inode (ws_nodes (s <| ws_nodes ::= find_upd (fun m => wn_inode m =? i) upd |>))); [done|done|done|].
  unfold upd. simpl. congruence.
Qed.

Lemma remove_le path ft s r s' : Store.remove path ft s = Done (r, s') -> store_le s s'.
Proof.
  unfold Store.remove. run. destruct (Store.resolve_path _ _) as [[i|]|]; [|by intros [= <- <-]|done].
  destruct (i =? TMP_INODE); [by intros [= <- <-]|]. destruct (position _ _) as [k|]; [|by intros [= <- <-]].
  destruct (index _ _) as [n|]; [|done]. destruct (negb _); [by intros [= <- <-]|]. destruct (_ && _); [by intros [= <- <-]|].
  intros [= <- <-]. split; simpl; [lia|]. intros n' Hn' _. exists n'. split; [|done].
  apply (elem_of_submseteq _ _ _ Hn'), sublist_submseteq, sublist_delete.
Qed.

Lemma rename_le old new s r s' : Store.rename old new s = Done (r, s') -> store_le s s'.
Proof.
  unfold Store.rename. run. destruct (Store.resolve_path _ _) as [[i|]|]; [|by intros [= <- <-]|done].
  destruct (i =? TMP_INODE); [by intros [= <- <-]|]. destruct (Store.split_parent_name new) as [[[pp name]|e]|]; [|by intros [= <- <-]|done].
  destruct (Store.resolve_path _ _) as [[p|]|]; [|by intros [= <- <-]|done]. destruct (Store.not_a_directory _ _); [by intros [= <- <-]|].
  destruct (Store.child _ _ _) as [c|]; [|done]. destruct (is_some c); [by intros [= <- <-]|].
  destruct (Store.is_descendant _ _ _) as [[|]|]; [by intros [= <- <-]| |done].
  destruct (Store.find_inode _ _); [|by intros [= <- <-]]. run. destruct (copy_slice _ _ _ _); [|done].
  intros [= <- <-]. by apply store_le_update.
Qed.

(** ** Listing and reading *)

Lemma append_lines_ok ns : forall out n, (n <= length out)%nat -> exists r out', RamFs.append_lines out n ns = Done (r, out') /\
  length out' = length out /\ match r with Ok k => (k <= length out)%nat | Err _ => True end.
Proof.
  induction ns as [|x ns IH]; intros out n Hn; cbn [RamFs.append_lines]; [by eexists _, _|].
  destruct (append_line_ok out n x Hn) as (r & out' & -> & Hl & Hr). run. destruct r as [k|e]; [|by eexists _, _].
  destruct (IH out' k) as (r & out2 & -> & Hl2 & Hr2); [lia|]. eexists _, _. split; [reflexivity|]. rewrite <-Hl. by rewrite Hl2.
Qed.

Lemma append_nodes_ok ns : Forall wf_node ns -> forall out n, (n <= length out)%nat ->
  exists r out', RamFs.append_nodes out n ns = Done (r, out') /\ length out' = length out /\
    match r with Ok k => (k <= length out)%nat | Err _ => True end.
Proof.
  induction 1 as [|x ns Hx _ IH]; intros out n Hn; cbn [RamFs.append_nodes]; [by eexists _, _|].
  rewrite node_name_wf by done. run. destruct (append_line_ok out n (nm x) Hn) as (r & out' & -> & Hl & Hr). run.
  destruct r as [k|e]; [|by eexists _, _].
  destruct (IH out' k) as (r & out2 & -> & Hl2 & Hr2); [lia|]. eexists _, _. split; [reflexivity|]. rewrite <-Hl. by rewrite Hl2.
Qed.

Lemma read_data_ok data len off out : (off <= len)%nat -> (len <= length data)%nat ->
  exists out', RamFs.read_data data len off out = Done (Ok (Nat.min (len - off) (length out)), out') /\ length out' = length out.
Proof.
  intros Hoff Hlen. unfold RamFs.read_data. rewrite slice_ok by lia. run.
  rewrite copy_slice_ok by (rewrite ?length_take, ?length_drop; lia). eexists. split; [reflexivity|].
  rewrite !length_app, !length_take, !length_drop. lia.
Qed.

(** ** The laws *)

Section ramfs.
Context (mounts : list (Mount WritableStore)) (images : list UserlandImage) (names : list bytes) (id : Z) (path : bytes).
(** The inodes of the images stay below those of the writable tree. *)
Hypothesis Hfew : (length images <= 9 * 1000)%nat.
Hypothesis Hpath : utf8_valid path = true.

Notation static_by_inode := (RamFs.static_by_inode images).

Definition ram_off (s : WritableStore) (node : VfsNodeId) (off : nat) : Prop :=
  match static_by_inode (node_inode node) with
  | Some r => (off <= length (RamFs.ref_data r))%nat
  | None => node_inode node < ws_next_inode s /\
            forall n, n ∈ ws_nodes s -> wn_inode n = node_inode node -> (off <= wn_len n)%nat
  end.

Lemma ram_off_le s s' : store_le s s' -> offsets_kept ram_off s s'.
Proof.
  intros [H1 H2] node off. unfold ram_off. destruct (static_by_inode (node_inode node)); [done|]. intros [Hn Hl]. split; [lia|].
  intros n' Hn' Hi. destruct (H2 n' Hn') as (n & Hin & E & Hle); [lia|]. specialize (Hl n Hin). lia.
Qed.

Lemma ram_off_start s i : i < ws_next_inode s -> ram_off s (mkNode id i) 0.
Proof. intros Hi. unfold ram_off. simpl. destruct (static_by_inode i); [lia|]. split; [done|]. lia. Qed.

Lemma static_below i r : static_by_inode i = Some r -> i < FIRST_WRITABLE_INODE.
Proof.
  unfold RamFs.static_by_inode, FIRST_WRITABLE_INODE. destruct (List.find _ RamFs.FILES) as [e|] eqn:E.
  - apply find_Some in E as [He Hi%Z.eqb_eq]. intros _. subst i.
    repeat (apply elem_of_cons in He as [->|He]; [done|]). by apply elem_of_nil in He.
  - destruct (List.find _ images) as [im|] eqn:Ei; [|done]. apply find_Some in Ei as [_ Hi%Z.eqb_eq]. intros _. subst i.
    unfold RamFs.userland_inode. destruct (position _ images) as [k|] eqn:Ek; [|lia].
    apply position_Some in Ek as (x & Hk%lookup_lt_Some & _). lia.
Qed.

Lemma ref_inode_below p r : RamFs.find_static images p = Some r -> RamFs.ref_inode images r < FIRST_WRITABLE_INODE.
Proof.
  unfold RamFs.find_static, FIRST_WRITABLE_INODE. destruct (List.find _ RamFs.FILES) as [e|] eqn:E.
  - intros [= <-]. apply find_Some in E as [He _]. simpl. repeat (apply elem_of_cons in He as [->|He]; [done|]). by apply elem_of_nil in He.
  - destruct (RamFs.images_find images p) as [im|]; [|done]. intros [= <-]. simpl. unfold RamFs.userland_inode.
    destruct (position _ images) as [k|] eqn:Ek; [|lia]. apply position_Some in Ek as (x & Hk%lookup_lt_Some & _). lia.
Qed.

Lemma resolve_path_ok s p : wf s -> utf8 p -> exists o, Store.resolve_path (ws_nodes s) p = Done o.
Proof.
  intros Hwf Hu. destruct (path_cases p Hu) as [H|(cs & c & -> & Hcs & Hc & _)].
  - rewrite resolve_outside by done. eauto.
  - rewrite resolve_tmp_path; [eauto|apply wf_nodes, Hwf|apply Forall_app; by repeat constructor].
Qed.

Lemma next_above s : wf s -> FIRST_WRITABLE_INODE <= ws_next_inode s.
Proof. intros Hwf. apply wf_next_range, Hwf. Qed.

Lemma ram_read_ok i off out s : wf s -> ram_off s (mkNode id i) off ->
  wp (RamFs.read images i off out) (fun '(r, out') s' => wf s' /\ offsets_kept ram_off s s' /\ length out' = length out /\
    match r with Ok n => (n <= length out)%nat /\ ram_off s' (mkNode id i) (off + n)%nat | Err _ => True end) s.
Proof.
  intros Hwf. unfold ram_off at 1, RamFs.read, wp. simpl. destruct (static_by_inode i) as [e|] eqn:Es.
  - intros Ho. run. destruct (read_data_ok (RamFs.ref_data e) (length (RamFs.ref_data e)) off out Ho) as (out' & -> & Hl); [done|].
    split_and!; [done|done|done|lia|]. unfold ram_off. simpl. rewrite Es. lia.
  - intros [Hi Ho]. run. destruct (Store.find_inode (ws_nodes s) i) as [n|] eqn:En; [|done].
    destruct (negb _); [done|]. pose proof (find_Some _ _ _ En) as [Hn Hni%Z.eqb_eq].
    pose proof (proj1 (Forall_forall _ _) (wf_nodes s Hwf) n Hn) as Hwn. pose proof (wfn_len n Hwn). pose proof (wfn_data n Hwn).
    destruct (read_data_ok (wn_data n) (wn_len n) off out) as (out' & -> & Hl); [by apply Ho|lia|].
    split_and!; [done|done|done|lia|]. unfold ram_off. simpl. rewrite Es. split; [done|]. intros m Hm Hmi.
    assert (m = n) as -> by (apply (inode_inj s Hwf); congruence). specialize (Ho n Hn Hni). lia.
Qed.

Lemma ram_stat_same p s r s' : RamFs.stat images names p s = Done (r, s') -> s' = s.
Proof.
  unfold RamFs.stat. destruct (bytes_eqb p [SLASH]); [by intros [= _ <-]|]. destruct (bytes_eqb p (str "/bin")); [by intros [= _ <-]|].
  destruct (bytes_eqb p TMP); [by intros [= _ <-]|]. destruct (RamFs.find_static images p); [by intros [= _ <-]|]. run.
  destruct (Store.resolve_path _ _) as [[i|]|]; [|by intros [= _ <-]|done]. by destruct (Store.find_inode _ _); intros [= _ <-].
Qed.

Theorem ramfs_laws : MountLaws mounts wf ram_off (mkMount id path (RamFs.backend images names)).
Proof.
  split; cbn [mnt_path mnt_backend mnt_id RamFs.backend be_list be_stat be_read be_write be_create be_mkdir be_unlink be_rmdir be_rename].
  - done.
  - intros p out s Hu%utf8_valid_spec Hwf. unfold RamFs.list, wp.
    destruct (bytes_eqb p [SLASH]). { run. by destruct (append_lines_ok [str "README"; str "VERSION"; str "MOTD"; str "bin"; str "tmp"] out 0) as (r & out' & -> & ?); [lia|]. }
    destruct (bytes_eqb p (str "/bin")). { run. by destruct (append_lines_ok names out 0) as (r & out' & -> & ?); [lia|]. }
    run. destruct (resolve_path_ok s p Hwf Hu) as ([d|] & ->); [|done]. destruct (Store.not_a_directory _ _); [done|]. run.
    destruct (append_nodes_ok (RamFs.children (ws_nodes s) d)) with (out := out) (n := 0%nat) as (r & out' & -> & ?); [|lia|done].
    unfold RamFs.children. apply Forall_forall. intros n Hn%list_elem_of_In%List.filter_In. destruct Hn as [Hn%list_elem_of_In _].
    by apply (proj1 (Forall_forall _ _) (wf_nodes s Hwf)).
  - intros p s Hu%utf8_valid_spec Hwf. unfold RamFs.stat, wp. pose proof (next_above s Hwf) as Hnext.
    destruct (bytes_eqb p [SLASH]); [done|]. destruct (bytes_eqb p (str "/bin")); [done|]. destruct (bytes_eqb p TMP); [by run|].
    destruct (RamFs.find_static images p) as [r|] eqn:Er.
    { run. split_and!; [done..|]. intros _. apply ram_off_start. apply ref_inode_below in Er. simpl. lia. }
    run. destruct (resolve_path_ok s p Hwf Hu) as ([i|] & ->); [|done]. destruct (Store.find_inode (ws_nodes s) i) as [n|] eqn:En; [|done].
    split_and!; [done..|]. intros _. apply ram_off_start. apply (wf_next s Hwf). by apply find_Some in En as [? _].
  - intros i off out s Hwf Ho. by apply ram_read_ok.
  - intros i off src s Hwf _ Ho. pose proof (write_safe s i off src Hwf) as Hs. unfold wp in *. fold RamFs.write. unfold RamFs.write.
    destruct (Store.write i off src s) as [[r s']|] eqn:E; [|done]. apply write_le in E as [Hle Hr]. split_and!; [done|by apply ram_off_le|].
    destruct r as [k|]; [|done]. destruct Hr as [(n & Hn & Hi) Hr]. unfold ram_off. simpl.
    destruct (static_by_inode i) as [e|] eqn:Es.
    + apply static_below in Es. pose proof (wfn_inode n (proj1 (Forall_forall _ _) (wf_nodes s Hwf) n Hn)). lia.
    + split; [|by apply Hr, wf_inodes]. pose proof (wf_next s Hwf n Hn). pose proof (sl_next _ _ Hle). lia.
  - intros p s Hu%utf8_valid_spec Hwf. pose proof (create_safe s p File Hwf Hu) as Hs. unfold wp, RamFs.create in *. run.
    destruct (Store.create p File s) as [[r s']|] eqn:E; [|done]. apply create_le in E as [Hle Hr]. destruct r as [i|]; simpl.
    + split_and!; [done|by apply ram_off_le|]. by apply ram_off_start.
    + split_and!; [done|by apply ram_off_le|done].
  - intros p s Hu%utf8_valid_spec Hwf. pose proof (create_safe s p Directory Hwf Hu) as Hs. unfold wp, RamFs.mkdir in *. run.
    destruct (Store.create p Directory s) as [[r s']|] eqn:E; [|done]. apply create_le in E as [Hle Hr].
    by destruct r as [i|]; (split; [done|by apply ram_off_le]).
  - intros p st s s1 Hu%utf8_valid_spec Hwf Hst. assert (s1 = s) as -> by (by eapply ram_stat_same).
    pose proof (remove_safe s p File Hwf Hu) as Hs. unfold wp, RamFs.unlink in *.
    destruct (Store.remove p File s) as [[r s']|] eqn:E; [|done]. apply remove_le in E. split; [done|]. intros node off _. by apply ram_off_le.
  - intros p s Hu%utf8_valid_spec Hwf. pose proof (remove_safe s p Directory Hwf Hu) as Hs. unfold wp, RamFs.rmdir in *.
    destruct (Store.remove p Directory s) as [[r s']|] eqn:E; [|done]. apply remove_le in E. split; [done|]. by apply ram_off_le.
  - intros p q s Hu%utf8_valid_spec Hq%utf8_valid_spec Hwf. pose proof (rename_safe s p q Hwf Hu Hq) as Hs. unfold wp, RamFs.rename in *.
    destruct (Store.rename p q s) as [[r s']|] eqn:E; [|done]. apply rename_le in E. split; [done|]. by apply ram_off_le.
Qed.
End ramfs.
