(* ===== verification/Ring3.v ===== *)
(** * User memory layout and the initial user stack (user/ring3.rs)

    The address-space constants, the layout computed for a process and the
    System V style stack image (argument count, argument pointers, null
    terminators, strings) a new process starts with. *)

From S2P Require Import Prelude.

Definition USER_BASE : Z := 0x1000000.
Definition FIRST_USER_ENTRY : Z := USER_BASE.
Definition FIRST_USER_STACK_TOP : Z := USER_BASE + 0x400000.
Definition USER_STACK_PAGE_COUNT : Z := 4.
Definition USER_STACK_GUARD_SIZE : Z := 4096.
Definition USER_STACK_SIZE : Z := 4096 * USER_STACK_PAGE_COUNT.
Definition USER_STACK_SLOT_SIZE : Z := USER_STACK_SIZE + USER_STACK_GUARD_SIZE.
Definition USER_STACK_SLOT_COUNT : Z := 8.
Definition USER_STACK_REGION_SIZE : Z := USER_STACK_SLOT_SIZE * USER_STACK_SLOT_COUNT.
Definition USER_STACK_REGION_START : Z := FIRST_USER_STACK_TOP - USER_STACK_REGION_SIZE.
Definition USER_PROGRAM_AREA_SIZE : Z := USER_STACK_REGION_START - FIRST_USER_ENTRY.
Definition USER_INITIAL_STACK_MAX_SIZE : nat := 512.
Definition USER_INITIAL_ARGV_MAX : nat := 8.
Definition FIRST_USER_PAGE_SIZE : Z := 4096.
Definition FIRST_USER_DATA_OFFSET : nat := 0x300.
Definition FIRST_USER_ARG_PATH_ADDR : Z := FIRST_USER_ENTRY + 0x340.
Definition FIRST_USER_ARG_PATH_LEN : Z := 32.
Definition FIRST_USER_ARG_LEN_ADDR : Z := FIRST_USER_ENTRY + 0x378.
Definition FIRST_USER_LIST_BUFFER_ADDR : Z := FIRST_USER_ENTRY + 0x380.
Definition FIRST_USER_LIST_BUFFER_LEN : Z := 128.
Definition FIRST_USER_ERROR_MSG_ADDR : Z := FIRST_USER_ENTRY + 0x3f0.

Record UserMemoryLayout := mkLayout {
  program_start : Z; program_end : Z; stack_start : Z; stack_top : Z }.

Definition kernel_placeholder_layout : UserMemoryLayout := mkLayout 0 0 0 0.

Inductive UserImageError := EmptyImage | ImageTooLarge.

Record UserInitialStack := mkStack { is_stack_pointer : Z; is_bytes : bytes; is_len : nat }.

Definition stack_as_bytes (s : UserInitialStack) : outcome bytes := slice (is_bytes s) 0 (is_len s).

Definition stack_top_for_pid (pid : Z) : Z :=
  let slot := saturating_sub pid 2 mod USER_STACK_SLOT_COUNT in
  FIRST_USER_STACK_TOP - slot * USER_STACK_SLOT_SIZE.

(** [u64::div_ceil] *)
Definition div_ceil (a b : Z) : Z := if a mod b =? 0 then a / b else a / b + 1.

(** [size.div_ceil(4096) * 4096] overflows for a size within a page of 2^64. *)
Definition align_user_program_size (size : Z) : outcome Z :=
  let size := Z.max size FIRST_USER_PAGE_SIZE in
  let aligned := div_ceil size FIRST_USER_PAGE_SIZE * FIRST_USER_PAGE_SIZE in
  if aligned <=? u64_max then Done (Z.min aligned USER_PROGRAM_AREA_SIZE) else Panic.

Definition memory_layout_for_pid_with_program_size (pid program_size : Z) : outcome UserMemoryLayout :=
  let stack_top := stack_top_for_pid pid in
  program_size ← align_user_program_size program_size;
  mret (mkLayout FIRST_USER_ENTRY (FIRST_USER_ENTRY + program_size) (stack_top - USER_STACK_SIZE) stack_top).

Definition memory_layout_for_pid (pid : Z) : outcome UserMemoryLayout :=
  memory_layout_for_pid_with_program_size pid USER_PROGRAM_AREA_SIZE.

(** ** The initial stack *)

Module InitialStack.

Definition is_arg_separator (b : Z) : bool := (b =? 32) || (b =? 9).

Fixpoint skip_while (p : Z -> bool) (l : bytes) : bytes :=
  match l with b :: r => if p b then skip_while p r else l | [] => [] end.

Fixpoint take_while (p : Z -> bool) (l : bytes) : bytes :=
  match l with b :: r => if p b then b :: take_while p r else [] | [] => [] end.

(** The loop that splits [arg] into [argv[argc..]]; every round consumes a
    byte, so [fuel = length arg] rounds are enough (see [split_args_words]). *)
Fixpoint split_args (fuel : nat) (arg : bytes) (argc : nat) : list bytes :=
  match fuel with
  | O => []
  | S fuel =>
    match arg with
    | [] => []
    | _ =>
      if (USER_INITIAL_ARGV_MAX <=? argc)%nat then [] else
      let arg := skip_while is_arg_separator arg in
      let word := take_while (fun b => negb (is_arg_separator b)) arg in
      let rest := skip_while (fun b => negb (is_arg_separator b)) arg in
      match word with
      | [] => split_args fuel rest argc
      | _ => word :: split_args fuel rest (S argc)
      end
    end
  end.

Definition argv (program_path arg : bytes) : list bytes :=
  program_path :: split_args (length arg) arg 1.

(** [for index in (0..argc).rev()]: the last string is placed highest; the
    result is the buffer, the lowest used offset and the pointers in order. *)
Fixpoint place_strings (stack_base : Z) (items : list bytes) (buffer : bytes) (low : nat) :
    outcome (result (bytes * nat * list Z) UserImageError) :=
  match items with
  | [] => Done (Ok (buffer, low, []))
  | item :: items =>
    let! '(buffer, low, ptrs) := place_strings stack_base items buffer low in
    let? needed := ok_or (usize_checked_add (length item) 1) ImageTooLarge in
    if (low <? needed)%nat then Done (Err ImageTooLarge) else
    let low := (low - needed)%nat in
    buffer ← copy_slice buffer low (low + length item) item;
    buffer ← index_set buffer (low + length item) 0;
    Done (Ok (buffer, low, stack_base + Z.of_nat low :: ptrs))
  end.

Definition write_stack_word (buffer : bytes) (low : nat) (value : Z) :
    outcome (result (bytes * nat) UserImageError) :=
  if (USER_INITIAL_STACK_MAX_SIZE <? low + 8)%nat then Done (Err ImageTooLarge) else
  buffer ← copy_slice buffer low (low + 8) (le_bytes 8 value);
  Done (Ok (buffer, (low + 8)%nat)).

Fixpoint write_stack_words (buffer : bytes) (low : nat) (values : list Z) :
    outcome (result (bytes * nat) UserImageError) :=
  match values with
  | [] => Done (Ok (buffer, low))
  | v :: values =>
    let! '(buffer, low) := write_stack_word buffer low v in
    write_stack_words buffer low values
  end.

Definition build_user_initial_stack (layout : UserMemoryLayout) (program_path arg : bytes) :
    outcome (result UserInitialStack UserImageError) :=
  if (stack_top layout <=? stack_start layout)
     || (stack_top layout - stack_start layout <? Z.of_nat USER_INITIAL_STACK_MAX_SIZE)
  then Done (Err ImageTooLarge) else
  let stack_base := stack_top layout - Z.of_nat USER_INITIAL_STACK_MAX_SIZE in
  if bytes_eqb program_path [] then Done (Err EmptyImage) else
  let items := argv program_path arg in
  let argc := length items in
  let! '(buffer, low, argv_ptrs) :=
    place_strings stack_base items (replicate USER_INITIAL_STACK_MAX_SIZE 0) USER_INITIAL_STACK_MAX_SIZE in
  let low := (low / 8 * 8)%nat in
  let word_count := (1 + argc + 1 + 1 + 2)%nat in
  if (low <? word_count * 8)%nat then Done (Err ImageTooLarge) else
  let words_start := (low - word_count * 8)%nat in
  let? words_start :=
    (if (stack_base + Z.of_nat words_start) mod 16 =? 0 then Ok words_start
     else if (words_start <? 8)%nat then Err ImageTooLarge else Ok (words_start - 8)%nat) in
  let! '(buffer, _) :=
    write_stack_words buffer words_start (Z.of_nat argc :: argv_ptrs ++ [0; 0; 0; 0]) in
  let len := (USER_INITIAL_STACK_MAX_SIZE - words_start)%nat in
  tail ← slice buffer words_start (length buffer);
  bytes ← copy_slice (replicate USER_INITIAL_STACK_MAX_SIZE 0) 0 len tail;
  Done (Ok (mkStack (stack_base + Z.of_nat words_start) bytes len)).

End InitialStack.
