(* ===== verification/Ring3Proofs.v ===== *)
(** * The initial user stack is a well-formed argument block

    [build_user_initial_stack] against its meaning: the words of the argument
    text, each stored as a null-terminated string inside the stack image, their
    addresses in order after the argument count, and a 16-byte aligned stack
    pointer. *)

From S2P Require Import Prelude Ring3.
Import InitialStack.

(** ** The words of an argument text *)

Fixpoint split_seps (l : bytes) : list bytes :=
  match l with
  | [] => [[]]
  | b :: l =>
    if is_arg_separator b then [] :: split_seps l
    else match split_seps l with [] => [[b]] | w :: ws => (b :: w) :: ws end
  end.

Definition words (l : bytes) : list bytes := List.filter (fun w => negb (bytes_eqb w [])) (split_seps l).

Definition nonsep (b : Z) : bool := negb (is_arg_separator b).

Lemma words_skip l : words (skip_while is_arg_separator l) = words l.
Proof.
  induction l as [|b l IH]; simpl; [done|]. destruct (is_arg_separator b) eqn:E; [|done].
  rewrite IH. unfold words. simpl. by rewrite E.
Qed.

Lemma split_seps_head l :
  split_seps l = take_while nonsep l ::
    match skip_while nonsep l with [] => [] | _ :: r => split_seps r end.
Proof.
  unfold nonsep. induction l as [|b l IH]; simpl; [done|].
  destruct (is_arg_separator b); simpl; [done|]. by rewrite IH.
Qed.

Lemma skip_nonsep_head l b r : skip_while nonsep l = b :: r -> is_arg_separator b = true.
Proof.
  unfold nonsep. induction l as [|x l IH]; simpl; [done|].
  destruct (is_arg_separator x) eqn:E; simpl; [by intros [= <- <-]|apply IH].
Qed.

Lemma words_word l :
  take_while nonsep l <> [] -> words l = take_while nonsep l :: words (skip_while nonsep l).
Proof.
  intros Hne. unfold words at 1. rewrite split_seps_head. simpl.
  apply bytes_eqb_neq in Hne. rewrite Hne. simpl. f_equal.
  destruct (skip_while nonsep l) as [|b r] eqn:E; [done|]. apply skip_nonsep_head in E.
  unfold words. simpl. by rewrite E.
Qed.

Lemma skip_while_length p l : (length (skip_while p l) <= length l)%nat.
Proof. induction l as [|b l IH]; simpl; [lia|]. destruct (p b); simpl; lia. Qed.

Lemma take_skip_while p l : take_while p l ++ skip_while p l = l.
Proof. induction l as [|b l IH]; simpl; [done|]. destruct (p b); simpl; [by rewrite IH|done]. Qed.

Lemma skip_sep_word l : take_while nonsep (skip_while is_arg_separator l) = [] -> skip_while is_arg_separator l = [].
Proof.
  induction l as [|b l IH]; simpl; [done|]. destruct (is_arg_separator b) eqn:E; [done|].
  simpl. unfold nonsep. by rewrite E.
Qed.

(** Enough rounds give all the words, up to the capacity of the vector. *)
Lemma split_args_words fuel arg argc :
  (length arg <= fuel)%nat -> split_args fuel arg argc = take (USER_INITIAL_ARGV_MAX - argc) (words arg).
Proof.
  revert arg argc; induction fuel as [|fuel IH]; intros arg argc Hf.
  { destruct arg; [|simpl in Hf; lia]. change (words []) with (@nil bytes). by rewrite take_nil. }
  cbn [split_args]. destruct arg as [|b arg]; [change (words []) with (@nil bytes); by rewrite take_nil|].
  destruct (Nat.leb_spec USER_INITIAL_ARGV_MAX argc) as [Hc|Hc].
  { by replace (USER_INITIAL_ARGV_MAX - argc)%nat with 0%nat by lia. }
  rewrite <-(words_skip (b :: arg)). pose proof (skip_while_length is_arg_separator (b :: arg)) as Hl.
  fold nonsep. pose proof (skip_sep_word (b :: arg)) as Hnil.
  set (l := skip_while is_arg_separator (b :: arg)) in *.
  destruct (take_while nonsep l) as [|x w] eqn:Ew.
  - rewrite Hnil by done. rewrite IH by (simpl; lia). done.
  - pose proof (take_skip_while nonsep l) as Happ. rewrite Ew in Happ.
    rewrite (words_word l) by (by rewrite Ew). rewrite Ew, IH.
    + replace (USER_INITIAL_ARGV_MAX - argc)%nat with (S (USER_INITIAL_ARGV_MAX - S argc)) by lia. done.
    + apply (f_equal length) in Happ. rewrite length_app in Happ. simpl in *. lia.
Qed.

(** ** The layout of the strings *)

Definition strings (items : list bytes) : bytes := concat (map (fun i => i ++ [0]) items).

Fixpoint pointers (stack_base : Z) (items : list bytes) : list Z :=
  match items with
  | [] => []
  | item :: rest =>
    stack_base + Z.of_nat (USER_INITIAL_STACK_MAX_SIZE - length (strings items)) :: pointers stack_base rest
  end.

Lemma strings_cons item items : strings (item :: items) = item ++ 0 :: strings items.
Proof. unfold strings. simpl. by rewrite <-app_assoc. Qed.

Lemma length_strings_cons item items :
  length (strings (item :: items)) = (length item + 1 + length (strings items))%nat.
Proof. rewrite strings_cons, length_app. simpl. lia. Qed.

Lemma slice_head_app (a b : bytes) n : n = length a -> slice (a ++ b) 0 n = Done a.
Proof. intros ->. rewrite slice_ok by (rewrite ?length_app; lia). by rewrite drop_0, Nat.sub_0_r, take_app_length. Qed.

Lemma place_item (k : nat) (item tail : bytes) :
  (length item + 1 <= k)%nat ->
  (b ← copy_slice (replicate k 0 ++ tail) (k - (length item + 1)) (k - (length item + 1) + length item) item;
   index_set b (k - (length item + 1) + length item) 0) =
  Done (replicate (k - (length item + 1)) 0 ++ item ++ 0 :: tail).
Proof.
  intros Hk. set (n := length item). set (a := (k - (n + 1))%nat).
  replace k with (a + (n + 1))%nat by lia.
  rewrite !replicate_add, <-!app_assoc. simpl.
  rewrite copy_slice_ok by (rewrite ?length_app, ?length_replicate; simpl; lia). run.
  rewrite take_app_length' by (by rewrite length_replicate).
  rewrite drop_app_ge by (rewrite length_replicate; lia). rewrite length_replicate.
  rewrite drop_app_length' by (rewrite length_replicate; lia). simpl.
  rewrite index_set_ok by (rewrite !length_app, length_replicate; simpl; lia). f_equal.
  rewrite insert_app_r_alt by (rewrite length_replicate; lia). f_equal.
  rewrite length_replicate, insert_app_r_alt by lia. f_equal.
  by replace (a + n - a - length item)%nat with 0%nat by (unfold n; lia).
Qed.

Lemma place_strings_spec base items :
  place_strings base items (replicate USER_INITIAL_STACK_MAX_SIZE 0) USER_INITIAL_STACK_MAX_SIZE =
  Done (let L := length (strings items) in
        if (L <=? USER_INITIAL_STACK_MAX_SIZE)%nat
        then Ok (replicate (USER_INITIAL_STACK_MAX_SIZE - L) 0 ++ strings items,
                 (USER_INITIAL_STACK_MAX_SIZE - L)%nat, pointers base items)
        else Err ImageTooLarge).
Proof.
  induction items as [|item items IH]; [done|]. cbn [place_strings]. rewrite IH. cbv zeta.
  rewrite length_strings_cons. set (L := length (strings items)).
  destruct (Nat.leb_spec L USER_INITIAL_STACK_MAX_SIZE) as [HL|HL]; run; cycle 1.
  { destruct (Nat.leb_spec (length item + 1 + L) USER_INITIAL_STACK_MAX_SIZE); [lia|done]. }
  unfold usize_checked_add.
  destruct (Z.leb_spec (Z.of_nat (length item) + Z.of_nat 1) u64_max) as [Hu|Hu]; cycle 1.
  { destruct (Nat.leb_spec (length item + 1 + L) USER_INITIAL_STACK_MAX_SIZE); [|done].
    unfold USER_INITIAL_STACK_MAX_SIZE, u64_max in *. lia. }
  set (k := (USER_INITIAL_STACK_MAX_SIZE - L)%nat).
  destruct (Nat.ltb_spec k (length item + 1)) as [Hk|Hk].
  { destruct (Nat.leb_spec (length item + 1 + L) USER_INITIAL_STACK_MAX_SIZE); [lia|done]. }
  destruct (Nat.leb_spec (length item + 1 + L) USER_INITIAL_STACK_MAX_SIZE) as [_|]; [|lia].
  pose proof (place_item k item (strings items) Hk) as E. run_in E.
  destruct (copy_slice _ _ _ item) as [b|]; [|done]. rewrite E. cbn [pointers].
  rewrite strings_cons, <-strings_cons, length_strings_cons. fold L.
  replace (USER_INITIAL_STACK_MAX_SIZE - (length item + 1 + L))%nat with (k - (length item + 1))%nat by lia.
  by rewrite strings_cons.
Qed.

(** ** The words below the strings *)

Definition word_bytes (ws : list Z) : bytes := concat (map (le_bytes 8) ws).

Lemma length_word_bytes ws : length (word_bytes ws) = (8 * length ws)%nat.
Proof.
  unfold word_bytes. induction ws as [|w ws IH]; [done|]. cbn [map concat].
  rewrite length_app, length_le_bytes, IH. simpl. lia.
Qed.

Lemma write_stack_words_spec ws (pre gap tail : bytes) :
  length gap = (8 * length ws)%nat -> length (pre ++ gap ++ tail) = USER_INITIAL_STACK_MAX_SIZE ->
  write_stack_words (pre ++ gap ++ tail) (length pre) ws =
  Done (Ok (pre ++ word_bytes ws ++ tail, (length pre + 8 * length ws)%nat)).
Proof.
  revert pre gap; induction ws as [|w ws IH]; intros pre gap Hg Hl; cbn [write_stack_words].
  - destruct gap; [|simpl in Hg; lia]. simpl. do 3 f_equal. lia.
  - cbn [length] in *. rewrite !length_app in Hl. unfold write_stack_word.
    destruct (Nat.ltb_spec USER_INITIAL_STACK_MAX_SIZE (length pre + 8)); [lia|].
    rewrite copy_slice_ok; [|rewrite !length_app; lia|rewrite length_le_bytes; lia]. run.
    rewrite take_app_length, drop_app_ge by lia.
    replace (length pre + 8 - length pre)%nat with 8%nat by lia. rewrite drop_app_le by lia.
    pose proof (IH (pre ++ le_bytes 8 w) (drop 8 gap)) as E.
    rewrite !length_app, length_le_bytes, <-!app_assoc in E. rewrite E.
    + unfold word_bytes. cbn [map concat]. rewrite <-!app_assoc. do 3 f_equal. lia.
    + rewrite length_drop. lia.
    + rewrite length_drop. lia.
Qed.

(** The [k]-th 8-byte word of a stack image. *)
Definition word_at (image : bytes) (k : nat) : Z := le_value (take 8 (drop (8 * k) image)).

Lemma word_at_word_bytes ws tail k w :
  ws !! k = Some w -> 0 <= w <= u64_max -> word_at (word_bytes ws ++ tail) k = w.
Proof.
  intros Hk Hw. unfold word_at. revert k Hk; induction ws as [|x ws IH]; intros [|k] Hk; simpl in Hk; [done..|injection Hk as ->|].
  - unfold word_bytes. cbn [map concat]. rewrite Nat.mul_0_r, drop_0, <-app_assoc.
    rewrite take_app_length' by (by rewrite length_le_bytes). apply le_value_bytes. unfold u64_max in Hw.
    change (256 ^ Z.of_nat 8) with 0x10000000000000000. lia.
  - rewrite <-(IH k Hk). unfold word_bytes. cbn [map concat]. rewrite <-app_assoc.
    rewrite drop_app_ge by (rewrite length_le_bytes; lia). rewrite length_le_bytes.
    do 3 f_equal. lia.
Qed.

Lemma strings_at items k item :
  items !! k = Some item ->
  exists pre post, strings items = pre ++ item ++ 0 :: post /\
    forall base, pointers base items !! k =
      Some (base + Z.of_nat (USER_INITIAL_STACK_MAX_SIZE - (length (strings items) - length pre))).
Proof.
  revert k; induction items as [|x items IH]; intros [|k] Hk; simplify_eq/=.
  - exists [], (strings items). split; [apply strings_cons|]. intros base. simpl. by rewrite Nat.sub_0_r.
  - destruct (IH k Hk) as (pre & post & E & Hp). exists (x ++ 0 :: pre), post.
    split; [rewrite strings_cons, E, <-app_assoc; done|]. intros base. rewrite Hp. do 3 f_equal.
    rewrite length_strings_cons, length_app. simpl. lia.
Qed.

Lemma length_pointers base items : length (pointers base items) = length items.
Proof. induction items; simpl; congruence. Qed.

(** ** The whole image *)

Definition items_of (path arg : bytes) : list bytes := path :: take 7 (words arg).

Lemma argv_items path arg : argv path arg = items_of path arg.
Proof. unfold argv, items_of. by rewrite split_args_words. Qed.

Lemma aligned_start (base : Z) (n : nat) :
  (base + Z.of_nat n) mod 8 = 0 -> (8 <= n)%nat ->
  exists ws, (if (base + Z.of_nat n) mod 16 =? 0 then Ok n
              else if (n <? 8)%nat then Err ImageTooLarge else Ok (n - 8)%nat) = Ok ws /\
    (base + Z.of_nat ws) mod 16 = 0 /\ (ws <= n)%nat.
Proof.
  intros H8 Hn. destruct (Z.eqb_spec ((base + Z.of_nat n) mod 16) 0) as [|Hm]; [by eexists|].
  destruct (Nat.ltb_spec n 8); [lia|]. exists (n - 8)%nat. split; [done|]. split; [|lia].
  rewrite Nat2Z.inj_sub by lia. Z.div_mod_to_equations. lia.
Qed.

Section image.
Context (layout : UserMemoryLayout) (path arg : bytes).
Let items := items_of path arg.
Let L := length (strings items).
Let base := stack_top layout - Z.of_nat USER_INITIAL_STACK_MAX_SIZE.
Let wc := (8 * (length items + 5))%nat.
Let all_words := Z.of_nat (length items) :: pointers base items ++ [0; 0; 0; 0].
Context (Hroom : stack_start layout + Z.of_nat USER_INITIAL_STACK_MAX_SIZE <= stack_top layout).
Context (Halign : stack_top layout mod 8 = 0) (Hpath : path <> []) (Hfit : (L + wc + 15 <= USER_INITIAL_STACK_MAX_SIZE)%nat).

Lemma image_shape :
  exists ws pad,
    build_user_initial_stack layout path arg =
      Done (Ok (mkStack (base + Z.of_nat ws)
                 ((word_bytes all_words ++ replicate pad 0 ++ strings items) ++ replicate ws 0)
                 (USER_INITIAL_STACK_MAX_SIZE - ws))) /\
    (base + Z.of_nat ws) mod 16 = 0 /\ (ws + wc + pad + L = USER_INITIAL_STACK_MAX_SIZE)%nat.
Proof.
  unfold build_user_initial_stack. rewrite argv_items. fold items base.
  destruct (Z.leb_spec (stack_top layout) (stack_start layout)); [unfold USER_INITIAL_STACK_MAX_SIZE in *; lia|].
  destruct (Z.ltb_spec (stack_top layout - stack_start layout) (Z.of_nat USER_INITIAL_STACK_MAX_SIZE)); [lia|].
  simpl orb. apply bytes_eqb_neq in Hpath as ->. rewrite place_strings_spec. fold L. cbv zeta.
  destruct (Nat.leb_spec L USER_INITIAL_STACK_MAX_SIZE); [|lia]. run.
  set (low := ((USER_INITIAL_STACK_MAX_SIZE - L) / 8 * 8)%nat).
  pose proof (Nat.div_mod (USER_INITIAL_STACK_MAX_SIZE - L) 8 ltac:(lia)) as Hdm.
  pose proof (Nat.mod_upper_bound (USER_INITIAL_STACK_MAX_SIZE - L) 8 ltac:(lia)) as Hub.
  assert ((1 + length items + 1 + 1 + 2) * 8 = wc)%nat as -> by (unfold wc; lia).
  destruct (Nat.ltb_spec low wc) as [|Hlow]; [unfold low in *; lia|].
  destruct (aligned_start base (low - wc)) as (ws & -> & Hws & Hle).
  { unfold base, low, wc, USER_INITIAL_STACK_MAX_SIZE in *. rewrite Nat2Z.inj_sub, !Nat2Z.inj_mul by lia.
    Z.div_mod_to_equations. lia. }
  { unfold low in *. lia. }
  set (pad := (USER_INITIAL_STACK_MAX_SIZE - L - wc - ws)%nat).
  assert (ws + wc + pad + L = USER_INITIAL_STACK_MAX_SIZE)%nat as Hsum by (unfold pad, low in *; lia).
  exists ws, pad. split; [|done].
  assert (replicate (USER_INITIAL_STACK_MAX_SIZE - L) 0 ++ strings items =
          replicate ws 0 ++ replicate wc 0 ++ replicate pad 0 ++ strings items) as ->.
  { rewrite !app_assoc, <-!replicate_add. do 2 f_equal. lia. }
  fold all_words. assert (length all_words = (length items + 5)%nat) as Hw.
  { unfold all_words. simpl. rewrite length_app, length_pointers. simpl. lia. }
  rewrite <-(length_replicate ws 0) at 2. rewrite write_stack_words_spec.
  - run. rewrite slice_suffix by (by rewrite length_replicate). run.
    rewrite copy_slice_ok; [|rewrite ?length_replicate; lia|
      rewrite !length_app, length_replicate, length_word_bytes; unfold wc in *; fold L; lia].
    rewrite take_0, drop_replicate.
    by replace (USER_INITIAL_STACK_MAX_SIZE - (USER_INITIAL_STACK_MAX_SIZE - ws))%nat with ws by lia.
  - rewrite length_replicate. unfold wc in *. lia.
  - rewrite !length_app, !length_replicate. fold L. lia.
Qed.
End image.

(** C21. The initial stack of a new process.  Whenever the program path and the
    first seven words of the argument text fit the 512-byte block, the block
    is built: the stack pointer is 16-byte aligned, the image ends at the top
    of the stack and stays inside it, its first word is the argument count,
    word [1 + k] is the address, inside the image, of the [k]-th argument
    followed by a null byte, and the four words after the pointers are zero. *)
Theorem initial_stack_correct (layout : UserMemoryLayout) (path arg : bytes) :
  let items := items_of path arg in
  0 <= stack_start layout -> stack_top layout <= u64_max -> stack_top layout mod 8 = 0 ->
  stack_start layout + Z.of_nat USER_INITIAL_STACK_MAX_SIZE <= stack_top layout -> path <> [] ->
  (length (strings items) + 8 * (length items + 5) + 15 <= USER_INITIAL_STACK_MAX_SIZE)%nat ->
  exists st image,
    build_user_initial_stack layout path arg = Done (Ok st) /\ stack_as_bytes st = Done image /\
    let sp := is_stack_pointer st in
    sp mod 16 = 0 /\ stack_start layout <= sp /\ sp + Z.of_nat (length image) = stack_top layout /\
    word_at image 0 = Z.of_nat (length items) /\
    (forall k item, items !! k = Some item ->
       let p := word_at image (1 + k) in
       sp <= p /\ exists post, drop (Z.to_nat (p - sp)) image = item ++ 0 :: post) /\
    (forall k, (1 + length items <= k < 5 + length items)%nat -> word_at image k = 0).
Proof.
  intros items Hs Ht Hal Hroom Hpath Hfit.
  destruct (image_shape layout path arg Hroom Hal Hpath Hfit) as (ws & pad & Hb & Hsp & Hsum).
  fold items in Hb, Hsum. set (base := stack_top layout - Z.of_nat USER_INITIAL_STACK_MAX_SIZE) in *.
  set (all := Z.of_nat (length items) :: pointers base items ++ [0; 0; 0; 0]) in *.
  set (image := word_bytes all ++ replicate pad 0 ++ strings items) in *.
  assert (length all = (length items + 5)%nat) as Hall.
  { unfold all. simpl. rewrite length_app, length_pointers. simpl. lia. }
  assert (length image = (USER_INITIAL_STACK_MAX_SIZE - ws)%nat) as Himg.
  { unfold image. rewrite !length_app, length_replicate, length_word_bytes. lia. }
  assert (length items <= 8)%nat as H8 by (unfold items, items_of; simpl; rewrite length_take; lia).
  clearbody items. eexists _, image. split; [exact Hb|]. split; [unfold stack_as_bytes; cbn [is_bytes is_len]; by apply slice_head_app|].
  cbn [is_stack_pointer]. split; [done|]. split; [unfold base; lia|]. split; [rewrite Himg; unfold base; lia|].
  split; [|split].
  - apply word_at_word_bytes; [done|]. unfold u64_max. lia.
  - intros k item Hk. destruct (strings_at items k item Hk) as (pre & post & Hstr & Hptr).
    assert (length (strings items) <= USER_INITIAL_STACK_MAX_SIZE)%nat by lia.
    pose proof (f_equal length Hstr) as Hlen. rewrite !length_app in Hlen. simpl in Hlen.
    set (off := (USER_INITIAL_STACK_MAX_SIZE - (length (strings items) - length pre))%nat) in *.
    assert (word_at image (1 + k) = base + Z.of_nat off) as ->.
    { apply word_at_word_bytes; [|unfold base, off, u64_max in *; lia].
      simpl. rewrite lookup_app_l; [apply Hptr|]. rewrite length_pointers. by eapply lookup_lt_Some. }
    split; [unfold off; lia|]. exists post. unfold image. rewrite Hstr.
    rewrite !app_assoc, <-(app_assoc _ item), drop_app_length'; [done|].
    rewrite !length_app, length_replicate, length_word_bytes. unfold off. lia.
  - intros k Hk. apply word_at_word_bytes; [|unfold u64_max; lia].
    destruct k as [|k]; [lia|]. simpl. rewrite lookup_app_r by (rewrite length_pointers; lia).
    rewrite length_pointers. set (j := (k - length items)%nat). assert (j < 4)%nat by lia.
    do 4 (destruct j as [|j]; [done|]). lia.
Qed.

(** ** Layouts *)

Lemma div_ceil_bounds a b : 0 <= a -> 0 < b -> a <= div_ceil a b * b < a + b.
Proof.
  intros Ha Hb. unfold div_ceil. pose proof (Z.div_mod a b ltac:(lia)). pose proof (Z.mod_pos_bound a b Hb).
  destruct (Z.eqb_spec (a mod b) 0); nia.
Qed.

Lemma layout_spec (pid pid' size : Z) :
  0 <= pid -> 0 <= pid' -> 0 <= size <= u64_max - 4096 ->
  exists lay, memory_layout_for_pid_with_program_size pid size = Done lay /\
    program_start lay = FIRST_USER_ENTRY /\ program_end lay mod 4096 = 0 /\
    Z.min (FIRST_USER_ENTRY + size) USER_STACK_REGION_START <= program_end lay <= USER_STACK_REGION_START /\
    USER_STACK_REGION_START + USER_STACK_GUARD_SIZE <= stack_start lay /\
    stack_top lay = stack_start lay + USER_STACK_SIZE /\ stack_top lay <= FIRST_USER_STACK_TOP /\
    (stack_top lay = stack_top_for_pid pid' \/
     stack_top_for_pid pid' + USER_STACK_GUARD_SIZE <= stack_start lay \/
     stack_top lay + USER_STACK_GUARD_SIZE <= stack_top_for_pid pid' - USER_STACK_SIZE).
Proof.
  intros Hp Hp' Hs. unfold memory_layout_for_pid_with_program_size, align_user_program_size.
  pose proof (div_ceil_bounds (Z.max size FIRST_USER_PAGE_SIZE) FIRST_USER_PAGE_SIZE) as Hd.
  set (q := div_ceil _ _) in *. unfold FIRST_USER_PAGE_SIZE in *. specialize (Hd ltac:(lia) ltac:(lia)).
  rewrite (proj2 (Z.leb_le _ _)) by (unfold u64_max in *; lia). run.
  eexists. split; [done|]. cbn [program_start program_end stack_start stack_top].
  change USER_STACK_REGION_START with 0x13d8000. change USER_PROGRAM_AREA_SIZE with 0x3d8000.
  change FIRST_USER_ENTRY with 0x1000000. unfold stack_top_for_pid.
  change USER_STACK_SIZE with 0x4000. change USER_STACK_SLOT_SIZE with 0x5000.
  change USER_STACK_GUARD_SIZE with 0x1000. change FIRST_USER_STACK_TOP with 0x1400000.
  change USER_STACK_SLOT_COUNT with 8.
  pose proof (Z.mod_pos_bound (saturating_sub pid 2) 8 ltac:(lia)).
  pose proof (Z.mod_pos_bound (saturating_sub pid' 2) 8 ltac:(lia)).
  split; [done|]. split; [destruct (Z.min_spec (q * 4096) 0x3d8000) as [[_ ->]|[_ ->]]; [|done]|lia].
  replace (0x1000000 + q * 4096) with ((0x1000 + q) * 4096) by lia. apply Z.mod_mul. lia.
Qed.

Lemma layout_stack_top pid size lay :
  memory_layout_for_pid_with_program_size pid size = Done lay -> stack_top lay = stack_top_for_pid pid.
Proof.
  unfold memory_layout_for_pid_with_program_size. destruct (align_user_program_size size); run; by intros [= <-].
Qed.

Lemma stack_top_for_pid_aligned pid : stack_top_for_pid pid mod 8 = 0.
Proof.
  unfold stack_top_for_pid. change FIRST_USER_STACK_TOP with (0x280000 * 8). change USER_STACK_SLOT_SIZE with (0xa00 * 8).
  rewrite Z.mul_assoc, <-Z.mul_sub_distr_r. by apply Z.mod_mul.
Qed.

(** The layout of a process exists for every program size more than a page
    below 2^64, keeps the program below the stack region, page aligned and at
    least as large as asked as far as the area allows, places the stack with
    its guard page inside the region, and the stacks of any two processes
    either are the same slot or are at least a guard page apart. *)
Theorem layouts_separate (pid pid' size : Z) :
  0 <= pid -> 0 <= pid' -> 0 <= size <= u64_max - 4096 ->
  exists lay, memory_layout_for_pid_with_program_size pid size = Done lay /\
    program_start lay = FIRST_USER_ENTRY /\ program_end lay mod 4096 = 0 /\
    Z.min (FIRST_USER_ENTRY + size) USER_STACK_REGION_START <= program_end lay <= USER_STACK_REGION_START /\
    USER_STACK_REGION_START + USER_STACK_GUARD_SIZE <= stack_start lay /\
    stack_top lay = stack_start lay + USER_STACK_SIZE /\ stack_top lay <= FIRST_USER_STACK_TOP /\
    (stack_top lay = stack_top_for_pid pid' \/
     stack_top_for_pid pid' + USER_STACK_GUARD_SIZE <= stack_start lay \/
     stack_top lay + USER_STACK_GUARD_SIZE <= stack_top_for_pid pid' - USER_STACK_SIZE).
Proof. apply layout_spec. Qed.

(** ** Witnesses *)

Lemma initial_stack_correct_witness :
  let lay := mkLayout 0x1000000 0x1001000 0x13fc000 0x1400000 in
  exists st image, build_user_initial_stack lay (str "/bin/cat") (str "/README  -n") = Done (Ok st) /\
    stack_as_bytes st = Done image /\ word_at image 0 = 3 /\
    exists post, drop (Z.to_nat (word_at image 2 - is_stack_pointer st)) image = str "/README" ++ 0 :: post.
Proof.
  destruct (initial_stack_correct (mkLayout 0x1000000 0x1001000 0x13fc000 0x1400000)
              (str "/bin/cat") (str "/README  -n")) as (st & image & H1 & H2 & _ & _ & _ & H3 & H4 & _);
    [vm_compute; congruence|vm_compute; congruence|reflexivity|vm_compute; congruence|discriminate|vm_compute; lia|].
  exists st, image. split; [exact H1|]. split; [exact H2|]. split; [rewrite H3; reflexivity|].
  exact (proj2 (H4 1%nat (str "/README") eq_refl)).
Defined.

Lemma layouts_separate_witness :
  exists lay, memory_layout_for_pid_with_program_size 3 5000 = Done lay /\ program_end lay mod 4096 = 0 /\
    stack_start lay = 0x13f7000.
Proof.
  destruct (layouts_separate 3 2 5000) as (lay & H1 & _ & H2 & _);
    [lia|lia|unfold u64_max; lia|].
  exists lay. split; [exact H1|]. split; [exact H2|]. vm_compute in H1. injection H1 as <-. reflexivity.
Defined.
