(* ===== verification/Elf.v ===== *)
(** * The ELF loader (user/elf.rs)

    Header and program-header parsing, segment validation and the copy of the
    accepted segments into memory.  File offsets and virtual addresses are
    [u64]s kept as [Z]; every unchecked [+] on them and every index into the
    image is a potential panic of the model. *)

From S2P Require Import Prelude Ring3.

Definition ELF_MAGIC : bytes := [0x7f; 0x45; 0x4c; 0x46].
Definition ELFCLASS64 : Z := 2.
Definition ELFDATA2LSB : Z := 1.
Definition ET_EXEC : Z := 2.
Definition EM_X86_64 : Z := 0x3e.
Definition ELF_VERSION_CURRENT : Z := 1.
Definition ELF64_PROGRAM_HEADER_SIZE : Z := 56.
Definition PT_LOAD : Z := 1.
Definition PF_X : Z := 1.
Definition PF_W : Z := 2.
Definition PF_R : Z := 4.
Definition USER_ELF_MIN_VADDR : Z := FIRST_USER_ENTRY.
Definition USER_ELF_MAX_VADDR : Z := FIRST_USER_STACK_TOP - USER_STACK_SIZE.

Record ElfInfo := mkElf {
  ei_entry : Z; ei_program_header_offset : Z; ei_program_header_entry_size : Z; ei_program_header_count : Z }.

Record LoadSegment := mkSeg {
  ls_file_offset : Z; ls_virtual_address : Z; ls_file_size : Z; ls_memory_size : Z; ls_flags : Z; ls_alignment : Z }.

Inductive ElfError :=
  | TooSmall | BadMagic | UnsupportedClass | UnsupportedEndian | UnsupportedVersion
  | UnsupportedType | UnsupportedMachine | BadProgramHeaderSize | ProgramHeadersOutOfBounds
  | SegmentOutOfBounds | SegmentAddressOutOfBounds | SegmentMemoryTooSmall | BadSegmentFlags
  | BadSegmentAlignment | TooManyLoadSegments.

(** The page-table flag bits the loader chooses. *)
Record PageFlags := mkFlags { pf_present : bool; pf_writable : bool; pf_user : bool; pf_no_execute : bool }.

Definition image_len (image : bytes) : Z := Z.of_nat (length image).

(** [image[offset]] *)
Definition byte_at (image : bytes) (offset : Z) : outcome Z :=
  if (0 <=? offset) && (offset <? image_len image)
  then index image (Z.to_nat offset) else Panic.

(** [a + b] on [usize] *)
Definition usize_add (a b : Z) : outcome Z := if a + b <=? u64_max then Done (a + b) else Panic.

(** [u16/u32/u64::from_le_bytes([image[offset], ..., image[offset + n - 1]])] *)
Fixpoint read_le (n : nat) (image : bytes) (offset : Z) : outcome Z :=
  match n with
  | O => Done 0
  | S n =>
    b ← byte_at image offset;
    match n with
    | O => Done b
    | _ => offset ← usize_add offset 1; rest ← read_le n image offset; Done (b + 256 * rest)
    end
  end.

Definition read_u16 := read_le 2.
Definition read_u32 := read_le 4.
Definition read_u64 := read_le 8.

Definition validate_program_header_table (image : bytes) (offset entry_size count : Z) : result () ElfError :=
  if count =? 0 then Ok ()
  else if entry_size <? ELF64_PROGRAM_HEADER_SIZE then Err BadProgramHeaderSize
  else
    let size := entry_size * count in
    match u64_checked_add offset size with
    | None => Err ProgramHeadersOutOfBounds
    | Some end_ => if image_len image <? end_ then Err ProgramHeadersOutOfBounds else Ok ()
    end.

Definition validate_load_segment (image : bytes) (segment : LoadSegment) : result () ElfError :=
  if ls_memory_size segment <? ls_file_size segment then Err SegmentMemoryTooSmall
  else match u64_checked_add (ls_file_offset segment) (ls_file_size segment) with
  | None => Err SegmentOutOfBounds
  | Some end_ => if image_len image <? end_ then Err SegmentOutOfBounds else Ok ()
  end.

(** [u64::is_power_of_two] *)
Definition is_power_of_two (a : Z) : bool := negb (a =? 0) && (Z.land a (a - 1) =? 0).

Definition validate_user_load_segment (segment : LoadSegment) : result () ElfError :=
  if negb (Z.land (ls_flags segment) (u32_max - Z.lor (Z.lor PF_R PF_W) PF_X) =? 0) then Err BadSegmentFlags
  else if negb (Z.land (ls_flags segment) PF_W =? 0) && negb (Z.land (ls_flags segment) PF_X =? 0)
  then Err BadSegmentFlags
  else if (1 <? ls_alignment segment) && negb (is_power_of_two (ls_alignment segment)) then Err BadSegmentAlignment
  else if ls_virtual_address segment <? USER_ELF_MIN_VADDR then Err SegmentAddressOutOfBounds
  else match u64_checked_add (ls_virtual_address segment) (ls_memory_size segment) with
  | None => Err SegmentAddressOutOfBounds
  | Some end_ => if USER_ELF_MAX_VADDR <? end_ then Err SegmentAddressOutOfBounds else Ok ()
  end.

Definition segment_page_flags (segment : LoadSegment) : result PageFlags ElfError :=
  match validate_user_load_segment segment with
  | Err e => Err e
  | Ok _ => Ok (mkFlags true (negb (Z.land (ls_flags segment) PF_W =? 0)) true
                        (Z.land (ls_flags segment) PF_X =? 0))
  end.

Definition parse_elf64 (image : bytes) : outcome (result ElfInfo ElfError) :=
  if image_len image <? 64 then Done (Err TooSmall) else
  magic ← slice image 0 4;
  if negb (bytes_eqb magic ELF_MAGIC) then Done (Err BadMagic) else
  class ← byte_at image 4;
  if negb (class =? ELFCLASS64) then Done (Err UnsupportedClass) else
  data ← byte_at image 5;
  if negb (data =? ELFDATA2LSB) then Done (Err UnsupportedEndian) else
  version ← read_u32 image 20;
  if negb (version =? ELF_VERSION_CURRENT) then Done (Err UnsupportedVersion) else
  elf_type ← read_u16 image 16;
  if negb (elf_type =? ET_EXEC) then Done (Err UnsupportedType) else
  machine ← read_u16 image 18;
  if negb (machine =? EM_X86_64) then Done (Err UnsupportedMachine) else
  offset ← read_u64 image 32;
  entry_size ← read_u16 image 54;
  count ← read_u16 image 56;
  match validate_program_header_table image offset entry_size count with
  | Err e => Done (Err e)
  | Ok _ =>
    entry ← read_u64 image 24;
    Done (Ok (mkElf entry offset entry_size count))
  end.

(** The fields of the program header at [offset]. *)
Definition read_segment (image : bytes) (offset : Z) : outcome LoadSegment :=
  o4 ← usize_add offset 4; flags ← read_u32 image o4;
  o8 ← usize_add offset 8; file_offset ← read_u64 image o8;
  o16 ← usize_add offset 16; virtual_address ← read_u64 image o16;
  o32 ← usize_add offset 32; file_size ← read_u64 image o32;
  o40 ← usize_add offset 40; memory_size ← read_u64 image o40;
  o48 ← usize_add offset 48; alignment ← read_u64 image o48;
  Done (mkSeg file_offset virtual_address file_size memory_size flags alignment).

(** [for index in 0..program_header_count]: [n] rounds remain, [output] holds
    the segments stored so far and [capacity] is [output.len()]. *)
Fixpoint load_loop (n : nat) (index : Z) (image : bytes) (info : ElfInfo) (capacity : nat)
    (output : list LoadSegment) : outcome (result (list LoadSegment) ElfError) :=
  match n with
  | O => Done (Ok output)
  | S n =>
    offset ← usize_add (ei_program_header_offset info) (index * ei_program_header_entry_size info);
    program_type ← read_u32 image offset;
    if negb (program_type =? PT_LOAD) then load_loop n (index + 1) image info capacity output else
    if (capacity <=? length output)%nat then Done (Err TooManyLoadSegments) else
    segment ← read_segment image offset;
    match validate_load_segment image segment with
    | Err e => Done (Err e)
    | Ok _ =>
      match validate_user_load_segment segment with
      | Err e => Done (Err e)
      | Ok _ => load_loop n (index + 1) image info capacity (output ++ [segment])
      end
    end
  end.

Definition load_segments (image : bytes) (capacity : nat) : outcome (result (list LoadSegment) ElfError) :=
  let! info := parse_elf64 image in
  load_loop (Z.to_nat (ei_program_header_count info)) 0 image info capacity [].

Definition segment_end (s : LoadSegment) : Z := u64_saturating_add (ls_virtual_address s) (ls_memory_size s).

Fixpoint size_bounds (segments : list LoadSegment) (low high : Z) : Z * Z :=
  match segments with
  | [] => (low, high)
  | s :: segments =>
    if ls_memory_size s =? 0 then size_bounds segments low high
    else size_bounds segments (Z.min low (ls_virtual_address s)) (Z.max high (segment_end s))
  end.

Definition image_memory_size (segments : list LoadSegment) : Z :=
  let '(low, high) := size_bounds segments u64_max 0 in
  if low =? u64_max then 0 else saturating_sub high low.

Definition image_footprint_size (segments : list LoadSegment) : Z :=
  let '(_, high) := size_bounds segments u64_max USER_ELF_MIN_VADDR in
  saturating_sub high USER_ELF_MIN_VADDR.

(** ** Memory *)

Definition memory := Z -> Z.

(** [copy_nonoverlapping(bs, addr, bs.len())] and [write_bytes(addr, v, n)] *)
Definition mem_copy (m : memory) (addr : Z) (bs : bytes) : memory :=
  fun a => if (addr <=? a) && (a <? addr + Z.of_nat (length bs))
           then nth (Z.to_nat (a - addr)) bs 0 else m a.

Definition mem_fill (m : memory) (addr v n : Z) : memory :=
  fun a => if (addr <=? a) && (a <? addr + n) then v else m a.

Fixpoint materialize_load_segments (image : bytes) (segments : list LoadSegment) (m : memory) :
    outcome (result () ElfError * memory) :=
  match segments with
  | [] => Done (Ok (), m)
  | s :: segments =>
    match validate_load_segment image s with
    | Err e => Done (Err e, m)
    | Ok _ =>
      match validate_user_load_segment s with
      | Err e => Done (Err e, m)
      | Ok _ =>
        file_end ← usize_add (ls_file_offset s) (ls_file_size s);
        src ← slice image (Z.to_nat (ls_file_offset s)) (Z.to_nat file_end);
        let m := mem_copy m (ls_virtual_address s) src in
        let m := if ls_file_size s <? ls_memory_size s
                 then mem_fill m (ls_virtual_address s + ls_file_size s) 0 (ls_memory_size s - ls_file_size s) else m in
        materialize_load_segments image segments m
      end
    end
  end.

(** [load_user_elf_image] of user/ring3.rs: the entry point and the footprint. *)
Definition load_user_elf_image (image : bytes) (m : memory) :
    outcome (result (Z * Z) UserImageError * memory) :=
  r ← load_segments image 8;
  match r with
  | Err _ => Done (Err ImageTooLarge, m)
  | Ok segments =>
    i ← parse_elf64 image;
    match i with
    | Err _ => Done (Err ImageTooLarge, m)
    | Ok info =>
      '(r, m) ← materialize_load_segments image segments m;
      match r with
      | Err _ => Done (Err ImageTooLarge, m)
      | Ok _ => Done (Ok (ei_entry info, image_footprint_size segments), m)
      end
    end
  end.
