(* ===== verification/ElfProofs.v ===== *)
(** * The ELF loader accepts only segments that are safe to map

    Parsing never panics on any byte string, the accepted segments are exactly
    the loadable program headers of the image, each inside the file, inside the
    user address range and never both writable and executable, and loading
    them writes the file's bytes and zeroes where the headers say and nowhere
    else. *)

From S2P Require Import Prelude Ring3 Elf.

(** ** Reading little-endian fields *)

Definition le_at (n : nat) (image : bytes) (off : Z) : Z :=
  le_value (take n (drop (Z.to_nat off) image)).

Lemma byte_at_ok image off :
  0 <= off < image_len image ->
  exists b, byte_at image off = Done b /\ drop (Z.to_nat off) image = b :: drop (Z.to_nat (off + 1)) image.
Proof.
  intros [H0 H1]. unfold byte_at, image_len in *.
  rewrite (proj2 (Z.leb_le _ _)), (proj2 (Z.ltb_lt _ _)) by lia. simpl.
  destruct (lookup_lt_is_Some_2 image (Z.to_nat off)) as [b Hb]; [lia|].
  exists b. split; [by apply index_Done|]. rewrite (drop_S image b (Z.to_nat off)) by done.
  do 2 f_equal. lia.
Qed.

Lemma read_le_ok n image off :
  (0 < n)%nat -> 0 <= off -> off + Z.of_nat n <= image_len image -> image_len image <= u64_max ->
  read_le n image off = Done (le_at n image off).
Proof.
  revert off; induction n as [|n IH]; intros off Hn H0 H1 Hu; [lia|].
  destruct (byte_at_ok image off) as (b & Hb & Hd); [lia|]. cbn [read_le]. rewrite Hb. run.
  unfold le_at. rewrite Hd. destruct n as [|n].
  - rewrite take_0 || simpl. f_equal. simpl. lia.
  - unfold usize_add. rewrite (proj2 (Z.leb_le _ _)) by lia. run. rewrite IH by lia. done.
Qed.

Lemma le_at_range n image off : Forall is_byte image -> 0 <= le_at n image off < 256 ^ Z.of_nat n.
Proof.
  intros Hb. unfold le_at. set (l := take n (drop (Z.to_nat off) image)).
  assert (Forall is_byte l) as Hl by (by apply Forall_take, Forall_drop).
  pose proof (le_value_range l Hl). split; [lia|]. eapply Z.lt_le_trans; [apply H|].
  apply Z.pow_le_mono_r; [lia|]. unfold l. rewrite length_take. lia.
Qed.

Definition seg_at (image : bytes) (off : Z) : LoadSegment :=
  mkSeg (le_at 8 image (off + 8)) (le_at 8 image (off + 16)) (le_at 8 image (off + 32))
        (le_at 8 image (off + 40)) (le_at 4 image (off + 4)) (le_at 8 image (off + 48)).

Lemma read_segment_ok image off :
  0 <= off -> off + 56 <= image_len image -> image_len image <= u64_max ->
  read_segment image off = Done (seg_at image off).
Proof.
  intros H0 H1 Hu. unfold read_segment, read_u32, read_u64, usize_add.
  do 6 (rewrite (proj2 (Z.leb_le _ _)) by lia; run; rewrite read_le_ok by lia; run). done.
Qed.

(** ** What validation guarantees *)

Record segment_ok (image : bytes) (s : LoadSegment) : Prop := {
  so_file : ls_file_offset s + ls_file_size s <= image_len image;
  so_size : ls_file_size s <= ls_memory_size s;
  so_low : USER_ELF_MIN_VADDR <= ls_virtual_address s;
  so_high : ls_virtual_address s + ls_memory_size s <= USER_ELF_MAX_VADDR;
  so_flags : 0 <= ls_flags s < 8;
  so_wx : Z.land (ls_flags s) PF_W = 0 \/ Z.land (ls_flags s) PF_X = 0;
  so_align : ls_alignment s <= 1 \/ is_power_of_two (ls_alignment s) = true;
}.

Definition segment_range (s : LoadSegment) : Prop :=
  0 <= ls_file_offset s <= u64_max /\ 0 <= ls_virtual_address s <= u64_max /\ 0 <= ls_file_size s <= u64_max /\
  0 <= ls_memory_size s <= u64_max /\ 0 <= ls_flags s <= u32_max /\ 0 <= ls_alignment s <= u64_max.

Lemma seg_at_range image off : Forall is_byte image -> segment_range (seg_at image off).
Proof.
  intros Hb. unfold segment_range, seg_at, u64_max, u32_max. simpl.
  change 0xffffffffffffffff with (256 ^ Z.of_nat 8 - 1). change 0xffffffff with (256 ^ Z.of_nat 4 - 1).
  pose proof (fun n o => le_at_range n image o Hb) as H.
  repeat split; try apply H; apply Z.lt_le_pred, H.
Qed.

Lemma low_flags f : 0 <= f <= u32_max -> Z.land f (u32_max - 7) = 0 -> 0 <= f < 8.
Proof.
  intros Hf Hl. split; [lia|].
  assert (f = Z.land f 7) as ->.
  { apply Z.bits_inj'. intros i Hi.
    assert (Z.testbit (Z.land f (u32_max - 7)) i = false) as H by (rewrite Hl; apply Z.bits_0).
    rewrite Z.land_spec in H. rewrite Z.land_spec.
    destruct (Z.testbit f i) eqn:E; [|done]. simpl in *.
    assert (i < 32) as Hi32.
    { apply Z.nle_gt. intros Hge. rewrite Z.bits_above_log2 in E; [done|lia|].
      destruct (decide (f = 0)) as [->|]; [simpl; lia|]. apply Z.log2_lt_pow2; [lia|].
      eapply Z.le_lt_trans; [apply Hf|]. eapply Z.lt_le_trans; [|apply (Z.pow_le_mono_r 2 32); lia]. done. }
    unfold u32_max in H. assert (i = 0 \/ i = 1 \/ i = 2 \/ 3 <= i < 32) as [->|[->|[->|Hr]]] by lia; try done.
    exfalso. revert H. clear -Hr. change (0xffffffff - 7) with (Z.shiftl (Z.ones 29) 3).
    rewrite Z.shiftl_spec, Z.ones_spec_low by lia. done. }
  change 8 with (2 ^ 3). change 7 with (Z.ones 3). rewrite Z.land_ones by lia. apply Z.mod_pos_bound. lia.
Qed.

Lemma validated_ok image s :
  segment_range s -> validate_load_segment image s = Ok () -> validate_user_load_segment s = Ok () ->
  segment_ok image s.
Proof.
  intros (R1 & R2 & R3 & R4 & R5 & R6). unfold validate_load_segment, validate_user_load_segment.
  unfold u64_checked_add, checked_add_to. repeat (case_match; try done); simplify_eq; intros _ _; bool_to_prop.
  constructor; try lia; try done.
  - change (u32_max - Z.lor (Z.lor PF_R PF_W) PF_X) with (u32_max - 7) in *. by apply low_flags.
  - match goal with H : _ && _ = false |- _ => apply andb_false_iff in H as [H|H] end; bool_to_prop; tauto.
Qed.

Lemma segment_flags_ok s :
  (exists image, segment_ok image s) ->
  exists f, segment_page_flags s = Ok f /\ pf_user f = true /\ (pf_writable f = true -> pf_no_execute f = true).
Proof.
  intros [image [H1 H2 H3 H4 H5 H6 H7]]. unfold segment_page_flags.
  assert (validate_user_load_segment s = Ok ()) as ->.
  { unfold validate_user_load_segment, u64_checked_add, checked_add_to.
    assert (Z.land (ls_flags s) (u32_max - Z.lor (Z.lor PF_R PF_W) PF_X) = 0) as ->.
    { assert (ls_flags s = 0 \/ ls_flags s = 1 \/ ls_flags s = 2 \/ ls_flags s = 3 \/ ls_flags s = 4 \/
              ls_flags s = 5 \/ ls_flags s = 6 \/ ls_flags s = 7) as H by lia.
      by destruct H as [->|[->|[->|[->|[->|[->|[->| ->]]]]]]]. }
    simpl negb. assert (negb (Z.land (ls_flags s) PF_W =? 0) && negb (Z.land (ls_flags s) PF_X =? 0) = false) as ->.
    { destruct H6 as [->| ->]; [done|]. by rewrite andb_false_r. }
    assert ((1 <? ls_alignment s) && negb (is_power_of_two (ls_alignment s)) = false) as ->.
    { destruct H7 as [H7| ->]; [|by rewrite andb_false_r]. by rewrite (proj2 (Z.ltb_ge _ _)). }
    rewrite (proj2 (Z.ltb_ge _ _)) by done.
    rewrite (proj2 (Z.leb_le _ _)) by (change USER_ELF_MAX_VADDR with 0x13fc000 in H4; unfold u64_max; lia).
    by rewrite (proj2 (Z.ltb_ge _ _)). }
  eexists. split; [done|]. simpl. split; [done|]. intros Hw. bool_to_prop. apply Z.eqb_eq. tauto.
Qed.

Lemma segment_ok_validates image s :
  segment_ok image s -> 0 <= ls_file_offset s -> 0 <= ls_file_size s -> image_len image <= u64_max ->
  validate_load_segment image s = Ok () /\ validate_user_load_segment s = Ok ().
Proof.
  intros Hs H0 H1 Hu. destruct (segment_flags_ok s) as (f & Hf & _); [by exists image|]. split.
  - unfold validate_load_segment, u64_checked_add, checked_add_to. destruct Hs.
    rewrite (proj2 (Z.ltb_ge _ _)), (proj2 (Z.leb_le _ _)), (proj2 (Z.ltb_ge _ _)) by lia. done.
  - unfold segment_page_flags in Hf. by destruct (validate_user_load_segment s) as [[]|].
Qed.

(** ** Program headers *)

Definition header_offsets (info : ElfInfo) : list Z :=
  map (fun i => ei_program_header_offset info + Z.of_nat i * ei_program_header_entry_size info)
      (seq 0 (Z.to_nat (ei_program_header_count info))).

(** The loadable segments of an image, in the order of their headers. *)
Definition loadable (image : bytes) (info : ElfInfo) : list LoadSegment :=
  map (seg_at image) (List.filter (fun off => le_at 4 image off =? PT_LOAD) (header_offsets info)).

(** The program header table an accepted header describes lies in the image. *)
Definition table_ok (image : bytes) (info : ElfInfo) : Prop :=
  0 <= ei_program_header_offset info /\ 0 <= ei_program_header_count info /\
  (0 < ei_program_header_count info ->
     56 <= ei_program_header_entry_size info /\
     ei_program_header_offset info + ei_program_header_entry_size info * ei_program_header_count info <= image_len image).

(** The header fields an image must have, and what is taken from them. *)
Record header_is (image : bytes) (info : ElfInfo) : Prop := {
  hd_len : 64 <= image_len image;
  hd_magic : take 4 image = ELF_MAGIC;
  hd_class : le_at 1 image 4 = ELFCLASS64;
  hd_data : le_at 1 image 5 = ELFDATA2LSB;
  hd_version : le_at 4 image 20 = ELF_VERSION_CURRENT;
  hd_type : le_at 2 image 16 = ET_EXEC;
  hd_machine : le_at 2 image 18 = EM_X86_64;
  hd_info : info = mkElf (le_at 8 image 24) (le_at 8 image 32) (le_at 2 image 54) (le_at 2 image 56);
  hd_table : table_ok image info;
}.

Lemma byte_at_le image off : 0 <= off < image_len image -> byte_at image off = Done (le_at 1 image off).
Proof.
  intros H. destruct (byte_at_ok image off H) as (b & -> & Hd). unfold le_at. rewrite Hd. simpl. f_equal. lia.
Qed.

Lemma validate_table_spec image entry off es n :
  0 <= off -> 0 <= n -> image_len image <= u64_max ->
  match validate_program_header_table image off es n with
  | Ok _ => table_ok image (mkElf entry off es n)
  | Err _ => ~ table_ok image (mkElf entry off es n)
  end.
Proof.
  intros Ho Hn Hu. unfold validate_program_header_table, table_ok, u64_checked_add, checked_add_to, ELF64_PROGRAM_HEADER_SIZE. simpl.
  destruct (Z.eqb_spec n 0); [lia|]. destruct (Z.ltb_spec es 56); [lia|].
  destruct (Z.leb_spec (off + es * n) u64_max); [|lia]. destruct (Z.ltb_spec (image_len image) (off + es * n)); lia.
Qed.

Lemma parse_elf64_spec image :
  Forall is_byte image -> image_len image <= u64_max ->
  exists r, parse_elf64 image = Done r /\
    match r with Ok info => header_is image info | Err _ => forall info, ~ header_is image info end.
Proof.
  intros Hb Hu. unfold parse_elf64.
  destruct (Z.ltb_spec (image_len image) 64) as [|Hl]; [eexists; split; [done|]; intros i []; lia|].
  rewrite slice_ok by (unfold image_len in Hl; lia). run.
  destruct (bytes_eqb _ _) eqn:Em; simpl negb; cbv iota; bool_to_prop; [|eexists; split; [done|]; by intros i []].
  rewrite !byte_at_le by lia. unfold read_u16, read_u32, read_u64. rewrite !read_le_ok by lia.
  repeat (match goal with |- context [if negb (?a =? ?b) then _ else _] => destruct (Z.eqb_spec a b) end; simpl negb; cbv iota;
    [|eexists; split; [done|]; by intros i []]).
  pose proof (le_at_range 8 image 32 Hb) as R1. pose proof (le_at_range 2 image 56 Hb) as R2.
  pose proof (validate_table_spec image (le_at 8 image 24) (le_at 8 image 32) (le_at 2 image 54) (le_at 2 image 56)) as Hv.
  destruct (validate_program_header_table _ _ _ _).
  - eexists. split; [done|]. constructor; try done. apply Hv; lia.
  - eexists. split; [done|]. intros i [? ? ? ? ? ? ? -> Ht]. revert Ht. apply Hv; lia.
Qed.

(** What the loop makes of the headers that are left. *)
Definition loadable_from (image : bytes) (info : ElfInfo) (i n : nat) : list LoadSegment :=
  map (seg_at image) (List.filter (fun off => le_at 4 image off =? PT_LOAD)
    (map (fun i => ei_program_header_offset info + Z.of_nat i * ei_program_header_entry_size info) (seq i n))).

Definition fits (image : bytes) (cap : nat) (segments : list LoadSegment) : Prop :=
  (length segments <= cap)%nat /\ Forall (segment_ok image) segments.

Lemma load_loop_spec image info cap n i out :
  Forall is_byte image -> image_len image <= u64_max -> table_ok image info ->
  Z.of_nat (i + n) = ei_program_header_count info -> fits image cap out ->
  let all := out ++ loadable_from image info i n in
  exists r, load_loop n (Z.of_nat i) image info cap out = Done r /\
    match r with Ok segs => segs = all /\ fits image cap all | Err _ => ~ fits image cap all end.
Proof.
  intros Hb Hu [T1 [T2 T3]]. revert i out; induction n as [|n IH]; intros i out Hn Hout; unfold loadable_from.
  { eexists. split; [done|]. simpl. by rewrite app_nil_r. }
  cbn [load_loop seq map List.filter]. destruct T3 as [T3 T4]; [lia|].
  set (es := ei_program_header_entry_size info) in *. set (po := ei_program_header_offset info) in *.
  set (off := po + Z.of_nat i * es).
  assert (0 <= off /\ off + 56 <= image_len image) as [Ho1 Ho2] by (unfold off; nia).
  unfold usize_add. fold off. rewrite (proj2 (Z.leb_le _ _)) by lia. run. unfold read_u32.
  rewrite read_le_ok by lia. replace (Z.of_nat i + 1) with (Z.of_nat (S i)) by lia.
  destruct (Z.eqb_spec (le_at 4 image off) PT_LOAD) as [_|_]; simpl negb; cbv iota; [|apply IH; done || lia].
  cbn [map]. fold (loadable_from image info (S i) n).
  pose proof (seg_at_range image off Hb) as Hr.
  destruct (Nat.leb_spec cap (length out)).
  { eexists. split; [done|]. intros [Hlen _]. rewrite length_app in Hlen. simpl in Hlen. lia. }
  rewrite read_segment_ok by lia.
  assert (forall rest, fits image cap (out ++ seg_at image off :: rest) ->
    validate_load_segment image (seg_at image off) = Ok () /\ validate_user_load_segment (seg_at image off) = Ok ()) as Hv.
  { intros rest [_ [_ [Hs _]%Forall_cons]%Forall_app]. destruct Hr as (R1 & _ & R2 & _). by apply segment_ok_validates; lia || done. }
  destruct (validate_load_segment image (seg_at image off)) as [[]|] eqn:E1; [|eexists; split; [done|]; by intros [? _]%Hv].
  destruct (validate_user_load_segment (seg_at image off)) as [[]|] eqn:E2; [|eexists; split; [done|]; by intros [_ ?]%Hv].
  destruct (IH (S i) (out ++ [seg_at image off])) as (r & Hr' & Hp); [lia| |].
  - destruct Hout as [Ho Hf]. split; [rewrite length_app; simpl; lia|].
    apply Forall_app. split; [done|]. apply Forall_singleton. by apply validated_ok.
  - exists r. split; [done|]. by rewrite <-app_assoc in Hp.
Qed.

Lemma load_segments_spec image cap :
  Forall is_byte image -> image_len image <= u64_max ->
  exists r, load_segments image cap = Done r /\
    match r with
    | Ok segments => exists info, header_is image info /\ segments = loadable image info /\ fits image cap segments
    | Err _ => forall info, header_is image info -> ~ fits image cap (loadable image info)
    end.
Proof.
  intros Hb Hu. unfold load_segments. destruct (parse_elf64_spec image Hb Hu) as (r & -> & Ht). run.
  destruct r as [info|e]; [|eexists; split; [done|]; intros info Hi; by destruct (Ht info)].
  destruct (load_loop_spec image info cap (Z.to_nat (ei_program_header_count info)) 0 []) as (r & E & Hp);
    [done..|by apply hd_table|apply hd_table in Ht as (_ & ? & _); lia|split; [simpl; lia|constructor]|].
  change (Z.of_nat 0) with 0 in E. rewrite E. exists r. split; [done|]. destruct r as [segs|].
  - destruct Hp as [-> Hf]. by exists info.
  - intros info' Hi. rewrite (hd_info _ _ Hi), <-(hd_info _ _ Ht). exact Hp.
Qed.

(** C16. Parsing an ELF image.  For every byte string that fits the address
    space [load_segments] returns, without an index or arithmetic panic.  It
    accepts exactly the images with the header of a 64-bit little-endian x86-64
    executable, a header table inside the file, and at most [capacity] loadable
    headers, each inside the file and inside the user address range, with known
    flags, never both writable and executable, and a valid alignment; and it
    returns exactly those headers, in order, with page flags that keep
    writable pages from being executable. *)
Theorem load_segments_sound (image : bytes) (capacity : nat) :
  Forall is_byte image -> image_len image <= u64_max ->
  exists r, load_segments image capacity = Done r /\
    match r with
    | Ok segments =>
      exists info, header_is image info /\ segments = loadable image info /\ fits image capacity segments /\
        Forall (fun s => exists f, segment_page_flags s = Ok f /\ pf_user f = true /\
                         (pf_writable f = true -> pf_no_execute f = true)) segments
    | Err _ => forall info, header_is image info -> ~ fits image capacity (loadable image info)
    end.
Proof.
  intros Hb Hu. destruct (load_segments_spec image capacity Hb Hu) as (r & E & Hp).
  exists r. split; [done|]. destruct r as [segs|]; [|done]. destruct Hp as (info & Hi & Heq & Hf).
  exists info. split; [done|]. split; [done|]. split; [done|].
  destruct Hf as [_ Hf]. eapply Forall_impl; [exact Hf|]. intros s Hs. apply segment_flags_ok. by exists image.
Qed.

(** ** Loading *)

Definition covers (s : LoadSegment) (a : Z) : bool :=
  (ls_virtual_address s <=? a) && (a <? ls_virtual_address s + ls_memory_size s).

(** The byte a segment puts at [a]: the file's while they last, then zero. *)
Definition segment_byte (image : bytes) (s : LoadSegment) (a : Z) : Z :=
  let k := a - ls_virtual_address s in
  if k <? ls_file_size s then nth (Z.to_nat (ls_file_offset s + k)) image 0 else 0.

Lemma overlay_segment image s (m : memory) src a :
  0 <= ls_file_offset s -> 0 <= ls_file_size s <= ls_memory_size s ->
  src = take (Z.to_nat (ls_file_size s)) (drop (Z.to_nat (ls_file_offset s)) image) ->
  Z.of_nat (length src) = ls_file_size s ->
  let m1 := mem_copy m (ls_virtual_address s) src in
  let m2 := if ls_file_size s <? ls_memory_size s
            then mem_fill m1 (ls_virtual_address s + ls_file_size s) 0 (ls_memory_size s - ls_file_size s) else m1 in
  m2 a = if covers s a then segment_byte image s a else m a.
Proof.
  intros H0 H1 Hsrc Hlen m1 m2. unfold m2, m1, mem_copy, mem_fill, covers, segment_byte. rewrite Hlen.
  assert (a < ls_virtual_address s + ls_file_size s -> ls_virtual_address s <= a ->
    nth (Z.to_nat (a - ls_virtual_address s)) src 0 =
    nth (Z.to_nat (ls_file_offset s + (a - ls_virtual_address s))) image 0) as Hn.
  { intros Hlt Hge. rewrite !nth_lookup, Hsrc, lookup_take_lt, lookup_drop by lia. do 2 f_equal. lia. }
  destruct (Z.ltb_spec (ls_file_size s) (ls_memory_size s)), (Z.leb_spec (ls_virtual_address s) a),
    (Z.ltb_spec a (ls_virtual_address s + ls_file_size s)), (Z.ltb_spec a (ls_virtual_address s + ls_memory_size s)),
    (Z.ltb_spec (a - ls_virtual_address s) (ls_file_size s)); simpl; try lia; try (by apply Hn);
    repeat (case_match; bool_to_prop; try lia); done || by apply Hn.
Qed.

Lemma materialize_spec image segs m :
  image_len image <= u64_max ->
  Forall (fun s => segment_ok image s /\ 0 <= ls_file_offset s /\ 0 <= ls_file_size s) segs ->
  exists m', materialize_load_segments image segs m = Done (Ok (), m') /\
    forall a, m' a = match List.find (fun s => covers s a) (rev segs) with
                     | Some s => segment_byte image s a
                     | None => m a
                     end.
Proof.
  intros Hu Hsegs. revert m; induction Hsegs as [|s segs (Hs & H0 & H1) _ IH]; intros m; [by exists m|].
  cbn [materialize_load_segments]. destruct (segment_ok_validates image s Hs H0 H1 Hu) as [-> ->].
  destruct Hs. unfold usize_add. rewrite (proj2 (Z.leb_le _ _)) by lia. run.
  unfold image_len in *. rewrite slice_ok by lia. set (src := take _ _). set (m2 := if _ <? _ then _ else _).
  destruct (IH m2) as (m' & -> & Hm'). exists m'. split; [done|]. intros a. rewrite Hm'.
  simpl rev. rewrite find_app. destruct (List.find _ (rev segs)); [done|].
  assert (m2 a = if covers s a then segment_byte image s a else m a) as ->.
  { apply overlay_segment; try lia; unfold src; [f_equal; lia|]. rewrite length_take, length_drop. lia. }
  simpl. by destruct (covers s a).
Qed.

Lemma load_segments_inv image cap segs :
  Forall is_byte image -> image_len image <= u64_max -> load_segments image cap = Done (Ok segs) ->
  Forall (segment_ok image) segs /\ Forall segment_range segs.
Proof.
  intros Hb Hu E. destruct (load_segments_spec image cap Hb Hu) as (r & E' & Hp). rewrite E in E'. injection E' as <-.
  destruct Hp as (info & _ & -> & _ & Hok). split; [done|]. apply Forall_forall. intros s (off & -> & _)%elem_of_map.
  by apply seg_at_range.
Qed.

Lemma size_bounds_high segs low high :
  high <= (size_bounds segs low high).2 /\
  forall s, s ∈ segs -> ls_memory_size s <> 0 -> segment_end s <= (size_bounds segs low high).2.
Proof.
  revert low high; induction segs as [|x segs IH]; intros low high; cbn [size_bounds].
  { split; [simpl; lia|]. by intros s ?%not_elem_of_nil. }
  destruct (Z.eqb_spec (ls_memory_size x) 0) as [Hz|Hz].
  - destruct (IH low high) as [H1 H2]. split; [done|]. intros s [->|Hs]%elem_of_cons Hm; [done|by apply H2].
  - destruct (IH (Z.min low (ls_virtual_address x)) (Z.max high (segment_end x))) as [H1 H2].
    split; [lia|]. intros s [->|Hs]%elem_of_cons Hm; [lia|by apply H2].
Qed.

Lemma footprint_reaches segs s a :
  s ∈ segs -> ls_virtual_address s + ls_memory_size s <= u64_max -> ls_virtual_address s <= a ->
  a < ls_virtual_address s + ls_memory_size s -> a < USER_ELF_MIN_VADDR + image_footprint_size segs.
Proof.
  intros Hs Hu H1 H2. destruct (size_bounds_high segs u64_max USER_ELF_MIN_VADDR) as [Hh Hb].
  unfold image_footprint_size. destruct (size_bounds _ _ _) as [low high]. simpl in *.
  specialize (Hb s Hs ltac:(lia)). unfold segment_end, u64_saturating_add, saturating_add_to in Hb.
  unfold saturating_sub. lia.
Qed.

(** C15. Loading an ELF image into memory.  If the image is accepted the load
    succeeds, and afterwards every address holds the byte of the last segment
    that covers it (the file's byte, or zero past the file part) or, if none
    does, what it held before; in particular nothing outside the user program
    range changes, and the reported footprint reaches past every segment. *)
Theorem load_user_elf_image_correct (image : bytes) (m : memory) (segments : list LoadSegment) (info : ElfInfo) :
  Forall is_byte image -> image_len image <= u64_max ->
  load_segments image 8 = Done (Ok segments) -> parse_elf64 image = Done (Ok info) ->
  exists m', load_user_elf_image image m = Done (Ok (ei_entry info, image_footprint_size segments), m') /\
    (forall a, m' a = match List.find (fun s => covers s a) (rev segments) with
                      | Some s => segment_byte image s a
                      | None => m a
                      end) /\
    (forall a, a < USER_ELF_MIN_VADDR \/ USER_ELF_MAX_VADDR <= a -> m' a = m a) /\
    (forall s a, s ∈ segments -> covers s a = true -> a < USER_ELF_MIN_VADDR + image_footprint_size segments).
Proof.
  intros Hb Hu Hl Hi. destruct (load_segments_inv image 8 segments Hb Hu Hl) as [Hok Hrng].
  unfold load_user_elf_image. rewrite Hl, Hi. run.
  destruct (materialize_spec image segments m Hu) as (m' & -> & Hm').
  { rewrite Forall_forall in *. intros s Hs. destruct (Hrng s Hs) as (? & _ & ? & _). split; [by apply Hok|lia]. }
  exists m'. split; [done|]. split; [done|]. split.
  - intros a Ha. rewrite Hm'. destruct (List.find _ _) as [s|] eqn:E; [|done].
    apply find_Some in E as [Hs Hc].
    apply list_elem_of_In, in_rev, list_elem_of_In in Hs. rewrite Forall_forall in Hok. destruct (Hok s Hs).
    unfold covers in Hc. bool_to_prop. lia.
  - intros s a Hs Hc. rewrite Forall_forall in Hrng. pose proof (Hrng s Hs) as (_ & R2 & _ & R4 & _).
    rewrite Forall_forall in Hok. apply (footprint_reaches segments s); [done|..]; destruct (Hok s Hs); unfold covers in Hc; bool_to_prop; try lia.
    change USER_ELF_MAX_VADDR with 0x13fc000 in *. unfold u64_max. lia.
Qed.

(** ** The accepted range reaches into the stack region

    [USER_ELF_MAX_VADDR] excludes the topmost stack slot only: a segment is
    accepted that overlaps the stack of the process with pid 3, and the program
    area computed for its footprint ends below the segment. *)
Example accepted_segment_overlaps_stack :
  let s := mkSeg 0 USER_ELF_MIN_VADDR 0 (USER_ELF_MAX_VADDR - USER_ELF_MIN_VADDR) 6 4096 in
  validate_user_load_segment s = Ok () /\
  exists lay, memory_layout_for_pid_with_program_size 3 (image_footprint_size [s]) = Done lay /\
    program_end lay < segment_end s /\ ls_virtual_address s <= stack_start lay /\ stack_start lay < segment_end s.
Proof. split; [reflexivity|]. eexists. split; [reflexivity|]. vm_compute. repeat split; congruence. Qed.

(** ** Witnesses *)

(** A minimal image: one loadable segment, two bytes of code and two of zeroes. *)
Definition demo_elf : bytes :=
  ELF_MAGIC ++ [2; 1; 1; 0] ++ replicate 8 0 ++ le_bytes 2 2 ++ le_bytes 2 0x3e ++ le_bytes 4 1 ++
  le_bytes 8 0x1000000 ++ le_bytes 8 64 ++ le_bytes 8 0 ++ le_bytes 4 0 ++ le_bytes 2 64 ++ le_bytes 2 56 ++
  le_bytes 2 1 ++ replicate 6 0 ++
  le_bytes 4 1 ++ le_bytes 4 5 ++ le_bytes 8 120 ++ le_bytes 8 0x1000000 ++ le_bytes 8 0 ++
  le_bytes 8 2 ++ le_bytes 8 4 ++ le_bytes 8 4096 ++ [0xeb; 0xfe].

Lemma demo_elf_bytes : Forall is_byte demo_elf.
Proof. unfold is_byte. apply Forall_forall. intros b Hb. vm_compute in Hb. set_solver by lia. Qed.

Definition demo_segment : LoadSegment := mkSeg 120 0x1000000 2 4 5 4096.

Lemma load_segments_sound_witness :
  exists r, load_segments demo_elf 8 = Done r /\ r = Ok [demo_segment] /\ segment_ok demo_elf demo_segment.
Proof.
  destruct (load_segments_sound demo_elf 8 demo_elf_bytes) as (r & E & H); [vm_compute; congruence|].
  exists r. split; [exact E|]. assert (r = Ok [demo_segment]) as -> by (vm_compute in E; injection E as <-; reflexivity).
  split; [reflexivity|]. destruct H as (info & _ & _ & [_ H] & _). by apply Forall_cons in H as [H _].
Defined.

Lemma load_user_elf_image_correct_witness :
  exists m', load_user_elf_image demo_elf (fun _ => 7) = Done (Ok (0x1000000, 4), m') /\
    m' 0x1000001 = 0xfe /\ m' 0x1000003 = 0 /\ m' 0x1000004 = 7.
Proof.
  destruct (load_user_elf_image_correct demo_elf (fun _ => 7) [demo_segment] (mkElf 0x1000000 64 56 1) demo_elf_bytes)
    as (m' & E & Hm & _); [vm_compute; congruence|vm_compute; reflexivity|vm_compute; reflexivity|].
  exists m'. split; [exact E|]. rewrite !Hm. split; [vm_compute; reflexivity|split; vm_compute; reflexivity].
Defined.
