(* ===== verification/AddrSpace.v ===== *)
(** * Address spaces and the pool of private page tables (user/address_space.rs)

    The address-space descriptor of a process, the pool of prepared top-level
    page tables with their program and stack frames, and the reservation of
    thread stacks in it.  Physical memory is a function from the virtual
    addresses of the boot-time physical mapping to bytes.  The page tables in
    that memory are modelled in [PageTables]. *)

From S2P Require Import Prelude Ring3 Elf.

Definition PRIVATE_P4_POOL_SIZE : nat := 8.
Definition MAX_PRIVATE_PROGRAM_PAGE_COUNT : nat := 64.
Definition PRIVATE_STACK_SLOT_COUNT : nat := 8.
Definition PRIVATE_STACK_PAGE_COUNT : nat := 4.
Definition PAGE_SIZE : Z := 4096.

Inductive AddressSpaceKind := AsKernel | AsKernelSharedUser | AsPreparedUser | AsIsolatedUser.

Record AddressSpace := mkSpace {
  as_kind : AddressSpaceKind; as_p4_frame : option Z; as_p4_verified : bool;
  as_entry_point : Z; as_layout : UserMemoryLayout }.

Inductive AddressSpaceError :=
  | FrameAllocationFailed | MissingPhysicalMemoryOffset | NoKernelP4 | NoPreparedP4
  | PrivateMappingNotFound | PrivateMappingTooSmall | SwitchVerificationFailed | UserMappingNotAccessible.

Module Space.
Definition kernel_placeholder (entry_point : Z) : AddressSpace :=
  mkSpace AsKernel None false entry_point kernel_placeholder_layout.
Definition kernel_shared_user (entry_point : Z) (layout : UserMemoryLayout) : AddressSpace :=
  mkSpace AsKernelSharedUser None false entry_point layout.
Definition isolated_user (entry_point : Z) (layout : UserMemoryLayout) (p4_frame : Z) : AddressSpace :=
  mkSpace AsIsolatedUser (Some p4_frame) true entry_point layout.
Definition prepared_user (entry_point : Z) (layout : UserMemoryLayout) (p4_frame : Z) : AddressSpace :=
  mkSpace AsPreparedUser (Some p4_frame) false entry_point layout.
Definition verified_prepared_user (entry_point : Z) (layout : UserMemoryLayout) (p4_frame : Z) : AddressSpace :=
  mkSpace AsPreparedUser (Some p4_frame) true entry_point layout.
Definition promoted_isolated_user (a : AddressSpace) : AddressSpace :=
  match as_p4_frame a with
  | Some p4_frame => if as_p4_verified a then isolated_user (as_entry_point a) (as_layout a) p4_frame else a
  | None => a
  end.
Definition is_isolated (a : AddressSpace) : bool :=
  match as_kind a with AsIsolatedUser => true | _ => false end.
End Space.

(** ** Stack slots *)

Definition stack_range_for_slot (index : nat) : Z * Z :=
  let stack_top := FIRST_USER_STACK_TOP - Z.of_nat index * USER_STACK_SLOT_SIZE in
  (stack_top - USER_STACK_SIZE, stack_top).

Definition stack_slot_index (stack_top : Z) : option nat :=
  if FIRST_USER_STACK_TOP <? stack_top then None else
  let offset := FIRST_USER_STACK_TOP - stack_top in
  if negb (offset mod USER_STACK_SLOT_SIZE =? 0) then None else
  let index := Z.to_nat (offset / USER_STACK_SLOT_SIZE) in
  if (index <? PRIVATE_STACK_SLOT_COUNT)%nat then Some index else None.

(** ** The pool *)

Record PreparedP4Slot := mkSlot {
  sl_p4_frame : Z;
  sl_program_frames : list Z;
  sl_program_frame_count : nat;
  sl_stack_frames : list (list Z);
  sl_stack_in_use : list bool;
  sl_in_use : bool }.

#[export] Instance eta_slot : Eta PreparedP4Slot := fun r =>
  mkSlot (sl_p4_frame r) (sl_program_frames r) (sl_program_frame_count r)
         (sl_stack_frames r) (sl_stack_in_use r) (sl_in_use r).

Record PrivateP4Pool := mkPool { po_slots : list PreparedP4Slot; po_count : nat }.

#[export] Instance eta_pool : Eta PrivateP4Pool := fun r => mkPool (po_slots r) (po_count r).

Module Pool.

Definition empty_slot : PreparedP4Slot :=
  mkSlot 0 (replicate MAX_PRIVATE_PROGRAM_PAGE_COUNT 0) 0
         (replicate PRIVATE_STACK_SLOT_COUNT (replicate PRIVATE_STACK_PAGE_COUNT 0))
         (replicate PRIVATE_STACK_SLOT_COUNT false) false.

Definition new : PrivateP4Pool := mkPool (replicate PRIVATE_P4_POOL_SIZE empty_slot) 0.

(** [self.slots[..self.count]] *)
Definition live (p : PrivateP4Pool) : outcome (list PreparedP4Slot) := slice (po_slots p) 0 (po_count p).

(** [self.slots[..self.count].iter_mut().find(q)] followed by an update of the slot found. *)
Definition update_live (q : PreparedP4Slot -> bool) (f : PreparedP4Slot -> PreparedP4Slot) (p : PrivateP4Pool) :
    PrivateP4Pool :=
  p <| po_slots := find_upd q f (take (po_count p) (po_slots p)) ++ drop (po_count p) (po_slots p) |>.

Definition push (slot : PreparedP4Slot) : M PrivateP4Pool bool :=
  p ← get;
  if (length (po_slots p) <=? po_count p)%nat then mret false else
  slots ← lift (index_set (po_slots p) (po_count p) slot);
  modify (fun _ => mkPool slots (po_count p + 1));;
  mret true.

Definition take : M PrivateP4Pool (option Z) :=
  p ← get;
  slots ← lift (live p);
  match List.find (fun s => negb (sl_in_use s)) slots with
  | None => mret None
  | Some slot =>
    modify (update_live (fun s => negb (sl_in_use s)) (fun s => s <| sl_in_use := true |>));;
    mret (Some (sl_p4_frame slot))
  end.

Definition peek_next (p : PrivateP4Pool) : outcome (option Z) :=
  slots ← live p; mret (sl_p4_frame <$> List.find (fun s => negb (sl_in_use s)) slots).

Definition find_index (p : PrivateP4Pool) (p4_frame : Z) : outcome (option nat) :=
  slots ← live p; mret (position (fun s => sl_p4_frame s =? p4_frame) slots).

Definition release (p4_frame : Z) : M PrivateP4Pool bool :=
  p ← get;
  slots ← lift (live p);
  match List.find (fun s => sl_p4_frame s =? p4_frame) slots with
  | None => mret false
  | Some _ =>
    modify (update_live (fun s => sl_p4_frame s =? p4_frame)
      (fun s => s <| sl_in_use := false |>
                  <| sl_stack_in_use := replicate (length (sl_stack_in_use s)) false |>));;
    mret true
  end.

Definition owned (p4_frame : Z) (s : PreparedP4Slot) : bool := (sl_p4_frame s =? p4_frame) && sl_in_use s.

(** The main stack's slot is marked before the search, also when the search fails. *)
Definition reserve_stack_slot (p4_frame main_stack_top : Z) : M PrivateP4Pool (option (Z * Z)) :=
  p ← get;
  slots ← lift (live p);
  match List.find (owned p4_frame) slots with
  | None => mret None
  | Some slot =>
    match stack_slot_index main_stack_top with
    | None => mret None
    | Some main_index =>
      in_use ← lift (index_set (sl_stack_in_use slot) main_index true);
      match position negb in_use with
      | None =>
        modify (update_live (owned p4_frame) (fun s => s <| sl_stack_in_use := in_use |>));;
        mret None
      | Some i =>
        in_use ← lift (index_set in_use i true);
        modify (update_live (owned p4_frame) (fun s => s <| sl_stack_in_use := in_use |>));;
        mret (Some (stack_range_for_slot i))
      end
    end
  end.

Definition release_stack_slot (p4_frame stack_top : Z) : M PrivateP4Pool bool :=
  p ← get;
  slots ← lift (live p);
  match List.find (owned p4_frame) slots with
  | None => mret false
  | Some slot =>
    match stack_slot_index stack_top with
    | None => mret false
    | Some i =>
      in_use ← lift (index_set (sl_stack_in_use slot) i false);
      modify (update_live (owned p4_frame) (fun s => s <| sl_stack_in_use := in_use |>));;
      mret true
    end
  end.

End Pool.

(** ** The module's statics *)

Record AddrState := mkAddr {
  ad_pool : PrivateP4Pool;                (* PRIVATE_P4_POOL *)
  ad_offset : option Z;                   (* PHYSICAL_MEMORY_OFFSET *)
  ad_offset_value : Z;                    (* PHYSICAL_MEMORY_OFFSET_VALUE *)
  ad_mem : memory }.

#[export] Instance eta_addr : Eta AddrState := fun r =>
  mkAddr (ad_pool r) (ad_offset r) (ad_offset_value r) (ad_mem r).

(** [PRIVATE_P4_POOL.lock().m()] *)
Definition with_pool {A} (m : M PrivateP4Pool A) : M AddrState A := fun s =>
  match m (ad_pool s) with
  | Done (a, p) => Done (a, s <| ad_pool := p |>)
  | Panic => Panic
  end.

Definition physical_memory_offset : M AddrState (result Z AddressSpaceError) :=
  s ← get;
  if negb (ad_offset_value s =? 0) then mret (Ok (ad_offset_value s)) else
  match ad_offset s with
  | None => mret (Err MissingPhysicalMemoryOffset)
  | Some offset => modify (fun s => s <| ad_offset_value := offset |>);; mret (Ok offset)
  end.

Definition take_prepared_p4_frame : M AddrState (option Z) := with_pool Pool.take.
Definition release_prepared_p4_frame (p4_frame : Z) : M AddrState bool := with_pool (Pool.release p4_frame).
Definition release_private_thread_stack (p4_frame stack_top : Z) : M AddrState bool :=
  with_pool (Pool.release_stack_slot p4_frame stack_top).

(** [for frame in frames { write_bytes(offset + frame, 0, 4096) }] *)
Definition clear_frames (offset : Z) (frames : list Z) (m : memory) : memory :=
  foldl (fun m frame => mem_fill m (offset + frame) 0 PAGE_SIZE) m frames.

Definition clear_private_thread_stack (p4_frame stack_top : Z) : M AddrState (result () AddressSpaceError) :=
  try offset := physical_memory_offset in
  s ← get;
  slots ← lift (Pool.live (ad_pool s));
  match List.find (Pool.owned p4_frame) slots with
  | None => mret (Err PrivateMappingNotFound)
  | Some slot =>
    match stack_slot_index stack_top with
    | None => mret (Err PrivateMappingNotFound)
    | Some stack_slot =>
      frames ← lift (index (sl_stack_frames slot) stack_slot);
      modify (fun s => s <| ad_mem ::= clear_frames offset frames |>);;
      mret (Ok ())
    end
  end.

Definition reserve_private_thread_stack (p4_frame main_stack_top : Z) : M AddrState (option (Z * Z)) :=
  range ← with_pool (Pool.reserve_stack_slot p4_frame main_stack_top);
  match range with
  | None => mret None
  | Some range =>
    r ← clear_private_thread_stack p4_frame range.2;
    match r with
    | Err _ => release_private_thread_stack p4_frame range.2;; mret None
    | Ok _ => mret (Some range)
    end
  end.

(** ** Page flags of an ELF program *)

Fixpoint elf_page_scan (page_start page_end : Z) (segments : list LoadSegment) (acc : bool * bool * bool) :
    bool * bool * bool :=
  match segments with
  | [] => acc
  | s :: segments =>
    let '(matched, writable, executable) := acc in
    let acc :=
      if (ls_virtual_address s <? page_end) && (page_start <? segment_end s)
      then (true, writable || negb (Z.land (ls_flags s) PF_W =? 0),
                  executable || negb (Z.land (ls_flags s) PF_X =? 0))
      else acc in
    elf_page_scan page_start page_end segments acc
  end.

Definition user_data_page_flags : PageFlags := mkFlags true true true true.

Definition elf_page_flags (page_start : Z) (segments : list LoadSegment) : result PageFlags AddressSpaceError :=
  let page_end := u64_saturating_add page_start PAGE_SIZE in
  let '(matched, writable, executable) := elf_page_scan page_start page_end segments (false, false, false) in
  if writable && executable then Err UserMappingNotAccessible
  else if negb matched then Ok user_data_page_flags
  else Ok (mkFlags true writable true (negb executable)).

Definition pages_for_len (len : Z) : Z := div_ceil len PAGE_SIZE.

Definition image_private_page_count (image : bytes) : outcome Z :=
  r ← parse_elf64 image;
  match r with
  | Ok _ =>
    s ← load_segments image 8;
    match s with
    | Ok segments => mret (pages_for_len (image_footprint_size segments))
    | Err _ => mret (pages_for_len (image_len image))
    end
  | Err _ => mret (pages_for_len (image_len image))
  end.

(** The images are the generated list [USERLAND_IMAGES]. *)
Fixpoint max_private_pages (images : list bytes) (pages : Z) : outcome Z :=
  match images with
  | [] => mret pages
  | image :: images => n ← image_private_page_count image; max_private_pages images (Z.max pages n)
  end.

Definition required_private_program_pages (images : list bytes) : outcome Z :=
  pages ← max_private_pages images 1;
  mret (Z.max 1 (Z.min pages (Z.of_nat MAX_PRIVATE_PROGRAM_PAGE_COUNT))).
