(* ===== verification/AddrSpaceProofs.v ===== *)
(** * The pool of private page tables hands out disjoint resources

    The pool's invariant, what it means for a stack slot of an address space to
    be reserved, and that reserving, releasing and taking keep the books. *)

From S2P Require Import Prelude Ring3 Elf ElfProofs AddrSpace.

Record slot_wf (s : PreparedP4Slot) : Prop := {
  sw_in_use : length (sl_stack_in_use s) = PRIVATE_STACK_SLOT_COUNT;
  sw_frames : length (sl_stack_frames s) = PRIVATE_STACK_SLOT_COUNT;
  sw_clean : sl_in_use s = false -> sl_stack_in_use s = replicate PRIVATE_STACK_SLOT_COUNT false;
}.

Definition live_slots (p : PrivateP4Pool) : list PreparedP4Slot := take (po_count p) (po_slots p).

Record pool_wf (p : PrivateP4Pool) : Prop := {
  pw_len : length (po_slots p) = PRIVATE_P4_POOL_SIZE;
  pw_count : (po_count p <= PRIVATE_P4_POOL_SIZE)%nat;
  pw_slots : Forall slot_wf (po_slots p);
  pw_frames : NoDup (map sl_p4_frame (live_slots p));
}.

(** Page table [p4] is handed out; its stack slot [i] is reserved. *)
Definition taken (p : PrivateP4Pool) (p4 : Z) : Prop :=
  exists s, s ∈ live_slots p /\ sl_p4_frame s = p4 /\ sl_in_use s = true.
Definition reserved (p : PrivateP4Pool) (p4 : Z) (i : nat) : Prop :=
  exists s, s ∈ live_slots p /\ sl_p4_frame s = p4 /\ sl_in_use s = true /\ sl_stack_in_use s !! i = Some true.

(** Stack slot [i] ends at this address; between two slots lies a guard. *)
Definition slot_top (i : nat) : Z := FIRST_USER_STACK_TOP - Z.of_nat i * (USER_STACK_SIZE + USER_STACK_GUARD_SIZE).
Definition slot_range (i : nat) : Z * Z := (slot_top i - USER_STACK_SIZE, slot_top i).

(** [top] is the top of stack slot [i]. *)
Definition names_slot (top : Z) (i : nat) : Prop := (i < PRIVATE_STACK_SLOT_COUNT)%nat /\ top = slot_top i.

(** The pool with the reservations of page table [p4], if it is handed out, changed by [g]. *)
Definition with_stacks (p4 : Z) (g : list bool -> list bool) (p : PrivateP4Pool) : PrivateP4Pool :=
  p <| po_slots := map (fun s => if bool_decide (sl_p4_frame s = p4 /\ sl_in_use s = true)
                                 then s <| sl_stack_in_use ::= g |> else s) (live_slots p)
                   ++ drop (po_count p) (po_slots p) |>.

(** Two stack ranges at least a guard page apart. *)
Definition apart (r r' : Z * Z) : Prop :=
  r.2 + USER_STACK_GUARD_SIZE <= r'.1 \/ r'.2 + USER_STACK_GUARD_SIZE <= r.1.

(** ** Slots and ranges *)

Lemma stack_slot_index_lt top i : stack_slot_index top = Some i -> (i < PRIVATE_STACK_SLOT_COUNT)%nat.
Proof. unfold stack_slot_index. repeat (case_match; try done); intros; simplify_eq. by bool_to_prop. Qed.

Lemma stack_slot_index_range i :
  (i < PRIVATE_STACK_SLOT_COUNT)%nat -> stack_slot_index (stack_range_for_slot i).2 = Some i.
Proof. unfold PRIVATE_STACK_SLOT_COUNT. intros Hi. do 8 (destruct i as [|i]; [reflexivity|]). lia. Qed.

Lemma ranges_apart i j : i <> j -> apart (slot_range i) (slot_range j).
Proof.
  intros Hij. unfold apart, slot_range, slot_top. simpl. change USER_STACK_SIZE with 0x4000.
  change USER_STACK_GUARD_SIZE with 0x1000. lia.
Qed.

Lemma slot_range_eq i : stack_range_for_slot i = slot_range i.
Proof. done. Qed.

(** The code's index computation finds the slot a top belongs to. *)
Lemma stack_slot_index_iff top i : stack_slot_index top = Some i <-> names_slot top i.
Proof.
  unfold names_slot. split; [|intros [Hi ->]; by apply (stack_slot_index_range i)].
  intros H. split; [by apply (stack_slot_index_lt top)|]. revert H. unfold stack_slot_index, slot_top.
  change (USER_STACK_SIZE + USER_STACK_GUARD_SIZE) with 0x5000. change USER_STACK_SLOT_SIZE with 0x5000.
  destruct (Z.ltb_spec FIRST_USER_STACK_TOP top) as [|Hle]; [done|].
  destruct (Z.eqb_spec ((FIRST_USER_STACK_TOP - top) mod 0x5000) 0) as [Hm|]; cbn [negb]; [|done].
  destruct (_ <? _)%nat; [|done]. intros [= <-].
  pose proof (Z.div_mod (FIRST_USER_STACK_TOP - top) 0x5000 ltac:(lia)).
  rewrite Z2Nat.id by (apply Z.div_pos; lia). lia.
Qed.

Lemma stack_slot_index_none top : stack_slot_index top = None <-> forall i, ~ names_slot top i.
Proof.
  split.
  - intros H i Hi%stack_slot_index_iff. congruence.
  - intros H. destruct (stack_slot_index top) as [i|] eqn:E; [|done]. by apply stack_slot_index_iff in E as ?%H.
Qed.

(** ** Updates of live slots *)

Lemma live_slot_wf p s : pool_wf p -> s ∈ live_slots p -> slot_wf s.
Proof.
  intros [_ _ H _] (i & Hi & _)%elem_of_take. rewrite Forall_forall in H. apply H. by eapply list_elem_of_lookup_2.
Qed.

Lemma live_ok p : pool_wf p -> Pool.live p = Done (live_slots p).
Proof.
  intros [H1 H2 _ _]. unfold Pool.live. rewrite slice_ok by lia. by rewrite drop_0, Nat.sub_0_r.
Qed.

Section update.
Context (p : PrivateP4Pool) (Hwf : pool_wf p) (k : Z) (q : PreparedP4Slot -> bool).
Context (upd : PreparedP4Slot -> PreparedP4Slot).
Context (Hq : forall s, q s = true -> sl_p4_frame s = k).
Context (Hupd : forall s, slot_wf s -> q s = true -> slot_wf (upd s) /\ sl_p4_frame (upd s) = sl_p4_frame s).
Let g (s : PreparedP4Slot) := if q s then upd s else s.
Let p' := Pool.update_live q upd p.

Lemma live_updated : live_slots p' = map g (live_slots p).
Proof.
  unfold p', live_slots, Pool.update_live. simpl. destruct Hwf as [H1 H2 H3 H4].
  rewrite (find_upd_map_gen sl_p4_frame _ k) by done.
  rewrite take_app_length' by (rewrite length_map, length_take; lia). done.
Qed.

Lemma g_frame s : s ∈ live_slots p -> sl_p4_frame (g s) = sl_p4_frame s.
Proof.
  intros Hs. unfold g. destruct (q s) eqn:E; [|done]. apply Hupd; [|done]. by apply (live_slot_wf p).
Qed.

Lemma updated_wf_pool : pool_wf p'.
Proof.
  pose proof Hwf as [H1 H2 H3 H4]. constructor.
  - unfold p', Pool.update_live. simpl. rewrite length_app, length_find_upd, length_take, length_drop. lia.
  - done.
  - unfold p', Pool.update_live. simpl. apply Forall_app. split; [|by apply Forall_drop].
    rewrite (find_upd_map_gen sl_p4_frame _ k) by done. apply Forall_forall. intros s (s0 & -> & Hs0)%elem_of_map.
    pose proof (live_slot_wf p s0 Hwf Hs0) as Hs. destruct (q s0) eqn:E; [by apply Hupd|done].
  - rewrite live_updated, map_map. erewrite map_ext_in; [exact H4|].
    intros s Hs%list_elem_of_In. by apply g_frame.
Qed.

Lemma elem_of_updated_live s : s ∈ live_slots p' <-> exists s0, s = g s0 /\ s0 ∈ live_slots p.
Proof. rewrite live_updated. apply elem_of_map. Qed.

(** Slots of other page tables are untouched. *)
Lemma updated_other p4 i : p4 <> k -> reserved p' p4 i <-> reserved p p4 i.
Proof.
  intros Hne. unfold reserved. setoid_rewrite elem_of_updated_live. split.
  - intros (s & (s0 & -> & Hs0) & Hp & H). exists s0. rewrite g_frame in Hp by done. split; [done|]. split; [done|].
    unfold g in H. destruct (q s0) eqn:E; [|done]. by apply Hq in E; congruence.
  - intros (s & Hs & Hp & H). exists s. split; [|done]. exists s. split; [|done]. unfold g.
    destruct (q s) eqn:E; [|done]. by apply Hq in E; congruence.
Qed.
End update.

Lemma owned_frame p4 s : Pool.owned p4 s = true -> sl_p4_frame s = p4 /\ sl_in_use s = true.
Proof. unfold Pool.owned. intros. bool_to_prop. done. Qed.

(** The slot of a taken page table is unique. *)
Lemma owned_unique p p4 s s' :
  pool_wf p -> s ∈ live_slots p -> s' ∈ live_slots p -> sl_p4_frame s = p4 -> sl_p4_frame s' = p4 -> s = s'.
Proof. intros Hwf Hs Hs' H1 H2. apply (NoDup_map_inj sl_p4_frame (live_slots p)); [apply Hwf|done..|congruence]. Qed.

Lemma reserved_iff p p4 s i :
  pool_wf p -> s ∈ live_slots p -> sl_p4_frame s = p4 -> sl_in_use s = true ->
  reserved p p4 i <-> sl_stack_in_use s !! i = Some true.
Proof.
  intros Hwf Hs Hp Hu. split; [|by intros; exists s].
  intros (s' & Hs' & Hp' & _ & H). by rewrite (owned_unique p p4 s s').
Qed.

(** Replacing the in-use vector of a taken page table. *)
Lemma reserved_set p p4 s v i :
  pool_wf p -> s ∈ live_slots p -> Pool.owned p4 s = true -> length v = PRIVATE_STACK_SLOT_COUNT ->
  let p' := Pool.update_live (Pool.owned p4) (fun s => s <| sl_stack_in_use := v |>) p in
  pool_wf p' /\ (reserved p' p4 i <-> v !! i = Some true) /\
  (forall p4' j, p4' <> p4 -> reserved p' p4' j <-> reserved p p4' j).
Proof.
  intros Hwf Hs Ho Hv p'. pose proof (owned_frame p4 s Ho) as [Hf Hu].
  assert (forall s, Pool.owned p4 s = true -> sl_p4_frame s = p4) as Hq by (intros ? ?; by apply owned_frame).
  assert (forall s0 : PreparedP4Slot, slot_wf s0 -> Pool.owned p4 s0 = true ->
    slot_wf (s0 <| sl_stack_in_use := v |>) /\
    sl_p4_frame (s0 <| sl_stack_in_use := v |>) = sl_p4_frame s0) as Hupd.
  { intros s0 [_ ? _] [_ Hu0]%owned_frame. split; [|done]. constructor; [done..|]. simpl. congruence. }
  assert (pool_wf p') as Hwf' by (by eapply updated_wf_pool).
  split; [done|]. split; [|intros; by eapply updated_other].
  pose proof (reserved_iff p' p4 (s <| sl_stack_in_use := v |>) i) as H. simpl in H. apply H; try done.
  eapply elem_of_updated_live; [done..|]. exists s. by rewrite Ho.
Qed.

(** Writing the reservations of a page table that is handed out. *)
Lemma update_stacks p p4 s v g :
  pool_wf p -> s ∈ live_slots p -> Pool.owned p4 s = true -> v = g (sl_stack_in_use s) ->
  Pool.update_live (Pool.owned p4) (fun s => s <| sl_stack_in_use := v |>) p = with_stacks p4 g p.
Proof.
  intros Hwf Hs Ho ->. unfold Pool.update_live, with_stacks. rewrite (find_upd_map_gen sl_p4_frame _ p4);
    [|apply Hwf|intros ? ?; by apply owned_frame]. unfold set. cbn [po_slots po_count]. do 2 f_equal.
  apply map_ext_in. intros s' Hs'%list_elem_of_In. case_bool_decide as Hd.
  - destruct Hd as [H1 H2]. unfold Pool.owned. rewrite H1, Z.eqb_refl, H2. cbn [andb].
    apply owned_frame in Ho as [Hf _]. by rewrite (owned_unique p p4 s s').
  - destruct (Pool.owned p4 s') eqn:E; [|done]. by apply owned_frame in E as ?%Hd.
Qed.

(** The reservations with slot [i] flagged [b]. *)
Definition flagged (i : nat) (b : bool) (v : list bool) : list bool := imap (fun j old => if (j =? i)%nat then b else old) v.

Lemma flagged_insert i b v : flagged i b v = <[i := b]> v.
Proof.
  unfold flagged. apply list_eq. intros j. rewrite list_lookup_imap. destruct (decide (j = i)) as [->|Hne].
  - destruct (v !! i) as [x|] eqn:E; simpl.
    + rewrite Nat.eqb_refl, list_lookup_insert_eq; [done|]. by eapply lookup_lt_Some.
    + by rewrite list_insert_ge by (by apply lookup_ge_None).
  - rewrite list_lookup_insert_ne by done. destruct (v !! j); [|done]. simpl. by apply Nat.eqb_neq in Hne as ->.
Qed.

(** What a reservation leaves, case by case. *)
Definition reserve_post (p : PrivateP4Pool) (p4 main_top : Z) (r : option (Z * Z)) (p' : PrivateP4Pool) : Prop :=
  match r with
  | Some range =>
    exists i main, names_slot main_top main /\ taken p p4 /\ range = slot_range i /\
      (i < PRIVATE_STACK_SLOT_COUNT)%nat /\ i <> main /\ ~ reserved p p4 i /\
      (forall j, reserved p p4 j \/ j = main -> apart range (slot_range j)) /\
      (forall j, reserved p' p4 j <-> reserved p p4 j \/ j = main \/ j = i) /\
      p' = with_stacks p4 (fun v => flagged i true (flagged main true v)) p
  | None =>
    ((~ taken p p4 \/ forall i, ~ names_slot main_top i) /\ p' = p) \/
    exists main, names_slot main_top main /\ p' = with_stacks p4 (flagged main true) p /\
      forall j, (j < PRIVATE_STACK_SLOT_COUNT)%nat -> reserved p p4 j \/ j = main
  end.

Lemma reserve_spec (p : PrivateP4Pool) (p4 main_top : Z) :
  pool_wf p ->
  exists r p', Pool.reserve_stack_slot p4 main_top p = Done (r, p') /\ pool_wf p' /\
    (forall p4' j, p4' <> p4 -> reserved p' p4' j <-> reserved p p4' j) /\
    reserve_post p p4 main_top r p'.
Proof.
  intros Hwf. unfold Pool.reserve_stack_slot, reserve_post. run. rewrite live_ok by done.
  destruct (List.find (Pool.owned p4) (live_slots p)) as [s|] eqn:Es; cycle 1.
  { eexists _, _. do 3 (split; [done|]). left. split; [|done]. left. intros (s & Hs & Hp & Hu). rewrite find_None in Es.
    specialize (Es s Hs). unfold Pool.owned in Es. by rewrite Hp, Z.eqb_refl, Hu in Es. }
  apply find_Some in Es as [Hs Ho]. pose proof (owned_frame p4 s Ho) as [Hf Hu].
  pose proof (sw_in_use s (live_slot_wf p s Hwf Hs)) as Hlen.
  destruct (stack_slot_index main_top) as [main|] eqn:Em; cycle 1.
  { pose proof (proj1 (stack_slot_index_none _) Em). eexists _, _; do 3 (split; [done|]); auto. }
  pose proof (proj1 (stack_slot_index_iff _ _) Em) as Hname. pose proof (stack_slot_index_lt _ _ Em) as Hm. rewrite index_set_ok by lia.
  set (v := <[main := true]> (sl_stack_in_use s)). assert (length v = PRIVATE_STACK_SLOT_COUNT) as Hv by (unfold v; by rewrite length_insert).
  assert (forall j, v !! j = Some true <-> reserved p p4 j \/ j = main) as Hres.
  { intros j. rewrite (reserved_iff p p4 s) by done. unfold v. destruct (decide (j = main)) as [->|Hne].
    - rewrite list_lookup_insert_eq by lia. tauto.
    - rewrite list_lookup_insert_ne by done. tauto. }
  destruct (position negb v) as [i|] eqn:Ei.
  - apply position_Some in Ei as (b & Hb & Hnb & _). destruct b; [done|].
    assert (i < PRIVATE_STACK_SLOT_COUNT)%nat as Hi by (rewrite <-Hv; by eapply lookup_lt_Some).
    rewrite index_set_ok by lia.
    destruct (reserved_set p p4 s (<[i := true]> v) i) as (Hwf' & _ & Hoth); [done..|by rewrite length_insert|].
    eexists _, _. split; [done|]. split; [done|]. split; [done|]. exists i, main.
    assert (~ (reserved p p4 i \/ i = main)) as Hfree by (rewrite <-Hres; congruence).
    split; [done|]. split; [by exists s|]. split; [done|]. split; [done|]. split; [tauto|]. split; [tauto|].
    split; [intros j Hj; apply ranges_apart; intros ->; tauto|].
    split; [|by rewrite (update_stacks p p4 s _ (fun v => flagged i true (flagged main true v)));
               [..|rewrite !flagged_insert]].
    intros j. destruct (reserved_set p p4 s (<[i := true]> v) j) as (_ & -> & _); [done..|by rewrite length_insert|].
    destruct (decide (j = i)) as [->|Hne]; [rewrite list_lookup_insert_eq by lia; tauto|].
    rewrite list_lookup_insert_ne by done. rewrite Hres. tauto.
  - apply position_None in Ei. rewrite find_None in Ei.
    destruct (reserved_set p p4 s v 0) as (Hwf' & _ & Hoth); [done..|].
    eexists _, _. split; [done|]. split; [done|]. split; [done|]. right. exists main. split; [done|].
    split; [by apply (update_stacks p p4 s); [..|rewrite flagged_insert]|]. intros j Hj. apply Hres. destruct (lookup_lt_is_Some_2 v j) as [b Hb]; [lia|]. rewrite Hb.
    assert (b ∈ v) as Hin by (by eapply list_elem_of_lookup_2). specialize (Ei b Hin). by destruct b.
Qed.

Lemma reserve_range p p4 main_top :
  pool_wf p ->
  exists r p', Pool.reserve_stack_slot p4 main_top p = Done (r, p') /\ pool_wf p' /\
    match r with
    | Some range => exists i, range = stack_range_for_slot i /\ (i < PRIVATE_STACK_SLOT_COUNT)%nat
    | None => True
    end.
Proof.
  intros Hwf. destruct (reserve_spec p p4 main_top Hwf) as (r & p' & E & Hwf' & _ & H).
  exists r, p'. split; [done|]. split; [done|]. destruct r; [|done].
  destruct H as (i & main & _ & _ & H1 & H2 & _). eauto.
Qed.

(** C37. Reserving a thread stack.  For every well-formed pool the call returns.
    It succeeds exactly when the page table is handed out, the main stack top
    is the top of one of the eight slots and a slot other than that one is
    free; the range it returns is a whole slot, was free, differs from the main
    stack's slot and is at least a guard page away from every range reserved
    before; afterwards the reserved slots of that page table are the old ones,
    the main one and the new one.  When no slot is free the main one is flagged
    all the same; in the other refusals, and for every other page table,
    nothing in the pool changes. *)
Theorem reserve_stack_slot_disjoint (p : PrivateP4Pool) (p4 main_top : Z) :
  pool_wf p ->
  exists r p', Pool.reserve_stack_slot p4 main_top p = Done (r, p') /\ pool_wf p' /\
    (forall p4' j, p4' <> p4 -> reserved p' p4' j <-> reserved p p4' j) /\
    reserve_post p p4 main_top r p'.
Proof. apply reserve_spec. Qed.

(** The live slots of a page table, and whether it is taken, after an update. *)
Lemma taken_updated p k q upd p4 :
  pool_wf p -> (forall s, q s = true -> sl_p4_frame s = k) ->
  (forall s, slot_wf s -> q s = true -> slot_wf (upd s) /\ sl_p4_frame (upd s) = sl_p4_frame s) ->
  p4 <> k -> taken (Pool.update_live q upd p) p4 <-> taken p p4.
Proof.
  intros Hwf Hq Hupd Hne. unfold taken. setoid_rewrite (elem_of_updated_live p Hwf k q upd Hq). split.
  - intros (s & (s0 & -> & Hs0) & Hp & H). exists s0. split; [done|].
    destruct (q s0) eqn:E; [|done]. destruct (Hupd s0) as [_ Hf]; [by apply (live_slot_wf p)|done|].
    apply Hq in E. congruence.
  - intros (s & Hs & Hp & H). exists s. split; [|done]. exists s. split; [|done].
    destruct (q s) eqn:E; [|done]. by apply Hq in E; congruence.
Qed.

Lemma take_spec (p : PrivateP4Pool) :
  pool_wf p ->
  exists r p', Pool.take p = Done (r, p') /\ pool_wf p' /\
    match r with
    | Some f => ~ taken p f /\ taken p' f /\ (forall i, ~ reserved p' f i) /\
        (forall g, g <> f -> (taken p' g <-> taken p g) /\ forall i, reserved p' g i <-> reserved p g i)
    | None => p' = p /\ forall s, s ∈ live_slots p -> taken p (sl_p4_frame s)
    end.
Proof.
  intros Hwf. unfold Pool.take. run. rewrite live_ok by done.
  destruct (List.find _ (live_slots p)) as [s|] eqn:Es; cycle 1.
  { eexists _, _. do 3 (split; [done|]). intros s Hs. rewrite find_None in Es. specialize (Es s Hs).
    bool_to_prop. by exists s. }
  pose proof Es as [Hs Hu]%find_Some. bool_to_prop. set (f := sl_p4_frame s).
  set (upd := fun s0 : PreparedP4Slot => s0 <| sl_in_use := true |>).
  assert (Pool.update_live (fun s => negb (sl_in_use s)) upd p =
          Pool.update_live (fun s => sl_p4_frame s =? f) upd p) as ->.
  { unfold Pool.update_live. by rewrite (find_upd_first sl_p4_frame _ _ s) by (done || apply Hwf). }
  assert (forall s, (sl_p4_frame s =? f) = true -> sl_p4_frame s = f) as Hq by (intros ? ?; by bool_to_prop).
  assert (forall s0, slot_wf s0 -> (sl_p4_frame s0 =? f) = true ->
    slot_wf (upd s0) /\ sl_p4_frame (upd s0) = sl_p4_frame s0) as Hupd.
  { intros s0 [? ? _] _. split; [by constructor|done]. }
  set (p' := Pool.update_live _ upd p). assert (pool_wf p') as Hwf' by (by eapply updated_wf_pool).
  assert (upd s ∈ live_slots p') as Hs'.
  { apply (elem_of_updated_live p Hwf f _ upd Hq). exists s. unfold f. by rewrite Z.eqb_refl. }
  eexists _, _. split; [done|]. split; [done|]. split; [|split; [by exists (upd s)|split]].
  - intros (s1 & Hs1 & Hf & Hu1). rewrite (owned_unique p f s s1) in Hu by done. congruence.
  - intros i Hr. rewrite (reserved_iff p' f (upd s)) in Hr by done. simpl in Hr.
    rewrite (sw_clean s (live_slot_wf p s Hwf Hs) Hu) in Hr.
    by apply lookup_replicate in Hr as [? _].
  - intros g Hg. split; [by eapply taken_updated|]. intros i. by eapply updated_other.
Qed.

(** Taking a page table.  The pool gives out a page table nobody holds,
    with no stack reserved in it, and records exactly that; it refuses only
    when all are held. *)
Theorem take_exclusive (p : PrivateP4Pool) :
  pool_wf p ->
  exists r p', Pool.take p = Done (r, p') /\ pool_wf p' /\
    match r with
    | Some f => ~ taken p f /\ taken p' f /\ (forall i, ~ reserved p' f i) /\
        (forall g, g <> f -> (taken p' g <-> taken p g) /\ forall i, reserved p' g i <-> reserved p g i)
    | None => p' = p /\ forall s, s ∈ live_slots p -> taken p (sl_p4_frame s)
    end.
Proof. apply take_spec. Qed.

(** ** Clearing *)

Lemma clear_frames_spec offset frames (m : memory) a :
  clear_frames offset frames m a =
  if existsb (fun f => (offset + f <=? a) && (a <? offset + f + PAGE_SIZE)) frames then 0 else m a.
Proof.
  unfold clear_frames. revert m; induction frames as [|f frames IH]; intros m; simpl; [done|].
  rewrite IH. unfold mem_fill. destruct (existsb _ frames); [by rewrite orb_true_r|]. rewrite orb_false_r. done.
Qed.

Lemma physical_memory_offset_ok s off s1 :
  physical_memory_offset s = Done (Ok off, s1) ->
  ad_pool s1 = ad_pool s /\ ad_mem s1 = ad_mem s /\ ad_offset_value s1 = off.
Proof.
  unfold physical_memory_offset. run. destruct (negb _); [by intros [= <- <-]|].
  destruct (ad_offset s); [by intros [= <- <-]|done].
Qed.

Lemma clear_ok s s2 p4 top :
  pool_wf (ad_pool s) -> clear_private_thread_stack p4 top s = Done (Ok (), s2) ->
  exists slot k frames, slot ∈ live_slots (ad_pool s) /\ sl_p4_frame slot = p4 /\
    stack_slot_index top = Some k /\ sl_stack_frames slot !! k = Some frames /\
    ad_pool s2 = ad_pool s /\ ad_mem s2 = clear_frames (ad_offset_value s2) frames (ad_mem s).
Proof.
  intros Hwf H. unfold clear_private_thread_stack in H. run_in H.
  destruct (physical_memory_offset s) as [[[off|e] s1]|] eqn:E; [|done..].
  apply physical_memory_offset_ok in E as (Hp & Hm & Hv). rewrite live_ok in H by congruence. rewrite Hp in *.
  destruct (List.find _ _) as [slot|] eqn:Es; [|done].
  apply find_Some in Es as [Hs [Hf _]%owned_frame]. destruct (stack_slot_index top) as [k|]; [|done].
  destruct (index _ k) as [frames|] eqn:Ei; [|done]. apply index_Done in Ei. injection H as <-.
  exists slot, k, frames. simpl. by rewrite Hp, Hm, Hv.
Qed.

(** A reserved thread stack starts clean: when [reserve_private_thread_stack]
    returns a range, every byte of the physical frames behind that stack slot
    is zero and no other byte of memory changed. *)
Theorem reserved_stack_is_clear (s s' : AddrState) (p4 main_top : Z) (range : Z * Z) :
  pool_wf (ad_pool s) ->
  reserve_private_thread_stack p4 main_top s = Done (Some range, s') ->
  exists i slot frames offset, range = stack_range_for_slot i /\ slot ∈ live_slots (ad_pool s') /\
    sl_p4_frame slot = p4 /\ sl_stack_frames slot !! i = Some frames /\
    ad_offset_value s' = offset /\
    forall a, ad_mem s' a =
      if existsb (fun f => (offset + f <=? a) && (a <? offset + f + PAGE_SIZE)) frames then 0 else ad_mem s a.
Proof.
  intros Hwf. unfold reserve_private_thread_stack, with_pool. run.
  destruct (reserve_range (ad_pool s) p4 main_top Hwf) as (r & p1 & -> & Hwf1 & Hr).
  destruct r as [range0|]; [|done]. destruct Hr as (i & -> & Hi).
  destruct (clear_private_thread_stack _ _ _) as [[[[]|e] s2]|] eqn:E; [|by destruct (release_private_thread_stack _ _ _) as [[??]|]|done].
  intros [= <- <-]. apply clear_ok in E as (slot & k & frames & Hs & Hf & Hk & Hfr & Hp & Hm); [|done].
  rewrite stack_slot_index_range in Hk by done. injection Hk as <-.
  exists i, slot, frames, (ad_offset_value s2). split; [done|]. split; [by rewrite Hp|].
  split; [done|]. split; [done|]. split; [done|]. intros a. rewrite Hm. apply clear_frames_spec.
Qed.

(** ** The pool never panics *)

Lemma take_ok p : pool_wf p -> wp Pool.take (fun _ => pool_wf) p.
Proof. intros H. apply wp_run. destruct (take_spec p H) as (r & p' & ? & ? & _). eauto. Qed.

Lemma release_ok p p4 : pool_wf p -> wp (Pool.release p4) (fun _ => pool_wf) p.
Proof.
  intros H. unfold Pool.release, wp. run. rewrite live_ok by done. destruct (List.find _ _); [|done].
  eapply updated_wf_pool; [done|intros s Hs; by apply Z.eqb_eq in Hs|].
  intros s [H1 H2 H3] _. split; [|done]. constructor; simpl; [by rewrite length_replicate|done|by rewrite H1].
Qed.

Lemma release_stack_slot_ok p p4 top : pool_wf p -> wp (Pool.release_stack_slot p4 top) (fun _ => pool_wf) p.
Proof.
  intros H. unfold Pool.release_stack_slot, wp. run. rewrite live_ok by done.
  destruct (List.find _ _) as [s|] eqn:Es; [|done]. apply find_Some in Es as [Hs Ho].
  destruct (stack_slot_index top) as [i|] eqn:Ei; [|done]. apply stack_slot_index_lt in Ei.
  pose proof (live_slot_wf p s H Hs) as [Hl _ _]. rewrite index_set_ok by lia.
  apply (reserved_set p p4 s _ 0 H Hs Ho). by rewrite length_insert.
Qed.

(** The reservations without the slot that ends at [top]. *)
Definition unreserved (top : Z) (v : list bool) : list bool :=
  imap (fun j old => if bool_decide (top = slot_top j) then false else old) v.

Lemma slot_top_inj i j : slot_top i = slot_top j -> i = j.
Proof. unfold slot_top. change (USER_STACK_SIZE + USER_STACK_GUARD_SIZE) with 0x5000. lia. Qed.

Lemma unreserved_slot top i v : top = slot_top i -> unreserved top v = <[i := false]> v.
Proof.
  intros ->. rewrite <-flagged_insert. unfold unreserved, flagged. apply imap_ext. intros j b _.
  case_bool_decide as H; [apply slot_top_inj in H as ->; by rewrite Nat.eqb_refl|].
  destruct (Nat.eqb_spec j i) as [->|]; [done|]. done.
Qed.

Lemma unreserved_none top v :
  length v = PRIVATE_STACK_SLOT_COUNT -> (forall i, ~ names_slot top i) -> unreserved top v = v.
Proof.
  intros Hl Hn. unfold unreserved. transitivity (imap (fun _ b => b) v); [|apply list_eq; intros j; rewrite list_lookup_imap; by destruct (v !! j)].
  apply imap_ext. intros j b Hj. rewrite bool_decide_eq_false_2; [done|]. intros ->. apply (Hn j). split; [|done].
  rewrite <-Hl. by eapply lookup_lt_Some.
Qed.

Lemma with_stacks_id p4 g p :
  (forall s, s ∈ live_slots p -> sl_p4_frame s = p4 -> sl_in_use s = true -> g (sl_stack_in_use s) = sl_stack_in_use s) ->
  with_stacks p4 g p = p.
Proof.
  intros H. unfold with_stacks. rewrite (map_ext_in _ id), map_id.
  - unfold live_slots. rewrite take_drop. by destruct p.
  - intros s Hs%list_elem_of_In. case_bool_decide as Hd; [|done]. destruct Hd as [H1 H2].
    unfold set. rewrite H by done. by destruct s.
Qed.

(** Releasing a stack clears the reservation of the slot that ends at its top. *)
Lemma release_stack_slot_eq p p4 top : pool_wf p ->
  exists b, Pool.release_stack_slot p4 top p = Done (b, with_stacks p4 (unreserved top) p).
Proof.
  intros H. unfold Pool.release_stack_slot. run. rewrite live_ok by done.
  destruct (List.find (Pool.owned p4) (live_slots p)) as [s|] eqn:Es; cycle 1.
  { exists false. rewrite with_stacks_id; [done|]. intros s Hs Hf Hu. rewrite find_None in Es. specialize (Es s Hs).
    unfold Pool.owned in Es. by rewrite Hf, Z.eqb_refl, Hu in Es. }
  apply find_Some in Es as [Hs Ho]. destruct (stack_slot_index top) as [i|] eqn:Ei.
  - pose proof (stack_slot_index_lt _ _ Ei) as Hi. pose proof (live_slot_wf p s H Hs) as [Hl _ _].
    rewrite index_set_ok by lia. exists true. rewrite (update_stacks p p4 s _ (unreserved top)); [done..|].
    apply stack_slot_index_iff in Ei as [_ Ei]. by rewrite (unreserved_slot top i).
  - exists false. rewrite with_stacks_id; [done|]. intros s' Hs' _ _. apply unreserved_none.
    + apply (live_slot_wf p s' H Hs').
    + by apply (stack_slot_index_none top).
Qed.

Lemma with_pool_ok {A} (m : M PrivateP4Pool A) s :
  wp m (fun _ => pool_wf) (ad_pool s) -> wp (with_pool m) (fun _ s' => pool_wf (ad_pool s')) s.
Proof. unfold with_pool, wp. by destruct (m (ad_pool s)) as [[a p]|]. Qed.

(** The frames of the slots never change after boot: the methods only flip
    flags of slots. *)
Definition slot_id (s : PreparedP4Slot) : Z * list Z * nat * list (list Z) :=
  (sl_p4_frame s, sl_program_frames s, sl_program_frame_count s, sl_stack_frames s).

Definition keeps_ids {A} (m : M PrivateP4Pool A) : Prop :=
  forall p, match m p with Done (_, p') => map slot_id (live_slots p') = map slot_id (live_slots p) | Panic => True end.

Lemma update_live_slots q f p : live_slots (Pool.update_live q f p) = find_upd q f (live_slots p).
Proof.
  unfold live_slots, Pool.update_live. simpl. destruct (Nat.le_gt_cases (po_count p) (length (po_slots p))).
  - rewrite take_app_length'; [done|]. rewrite length_find_upd, length_take. lia.
  - rewrite drop_ge, app_nil_r by lia. rewrite take_ge; [done|]. rewrite length_find_upd, length_take. lia.
Qed.

Lemma update_live_ids q f p : (forall s, slot_id (f s) = slot_id s) ->
  map slot_id (live_slots (Pool.update_live q f p)) = map slot_id (live_slots p).
Proof. intros Hf. rewrite update_live_slots. apply map_find_upd. auto. Qed.

Ltac ids_tac :=
  intros p; run; repeat (case_match; try done); simplify_eq; try done; by apply update_live_ids.

Lemma take_ids : keeps_ids Pool.take.
Proof. unfold Pool.take. ids_tac. Qed.

Lemma release_ids p4 : keeps_ids (Pool.release p4).
Proof. unfold Pool.release. ids_tac. Qed.

Lemma reserve_stack_slot_ids p4 top : keeps_ids (Pool.reserve_stack_slot p4 top).
Proof. unfold Pool.reserve_stack_slot. ids_tac. Qed.

Lemma release_stack_slot_ids p4 top : keeps_ids (Pool.release_stack_slot p4 top).
Proof. unfold Pool.release_stack_slot. ids_tac. Qed.

(** What is left alone by code that only changes flags of the slots. *)
Definition addr_frozen (a : AddrState) : option Z * Z * list (Z * list Z * nat * list (list Z)) :=
  (ad_offset a, ad_offset_value a, map slot_id (live_slots (ad_pool a))).

Lemma with_pool_keeps {A} (m : M PrivateP4Pool A) s :
  wp m (fun _ => pool_wf) (ad_pool s) -> keeps_ids m ->
  wp (with_pool m) (fun _ s' => pool_wf (ad_pool s') /\ addr_frozen s' = addr_frozen s /\ ad_mem s' = ad_mem s) s.
Proof.
  intros Hm Hk. specialize (Hk (ad_pool s)). unfold with_pool, wp in *. destruct (m (ad_pool s)) as [[a p]|]; [|done].
  split_and!; [done| |done]. unfold addr_frozen. simpl. by rewrite Hk.
Qed.

Lemma clear_safe s p4 top :
  pool_wf (ad_pool s) -> wp (clear_private_thread_stack p4 top) (fun _ s' => pool_wf (ad_pool s')) s.
Proof.
  intros H. unfold clear_private_thread_stack. apply wp_bind.
  assert (wp physical_memory_offset (fun _ s' => ad_pool s' = ad_pool s) s) as Hp.
  { unfold physical_memory_offset, wp. run. destruct (negb _); [done|]. by destruct (ad_offset s). }
  eapply wp_mono; [exact Hp|]. intros [off|e] s1 Hs1; [|unfold wp; simpl; congruence].
  unfold wp. run. rewrite Hs1, live_ok by done. destruct (List.find _ _) as [slot|] eqn:Es; [|simpl; congruence].
  destruct (stack_slot_index top) as [i|] eqn:Ei; [|simpl; congruence].
  apply stack_slot_index_lt in Ei. apply find_Some in Es as [Hs _]. pose proof (live_slot_wf _ _ H Hs) as [_ Hl _].
  destruct (lookup_lt_is_Some_2 (sl_stack_frames slot) i) as [fr Hfr]; [lia|].
  rewrite (proj2 (index_Done _ _ _) Hfr). simpl. congruence.
Qed.

Lemma reserve_private_thread_stack_ok s p4 top :
  pool_wf (ad_pool s) -> wp (reserve_private_thread_stack p4 top) (fun _ s' => pool_wf (ad_pool s')) s.
Proof.
  intros H. unfold reserve_private_thread_stack. apply wp_bind. eapply wp_mono.
  { apply with_pool_ok. apply wp_run. destruct (reserve_spec (ad_pool s) p4 top H) as (r & p' & ? & ? & _). eauto. }
  intros [range|] s1 H1; [|done]. apply wp_bind. eapply wp_mono; [by apply clear_safe|].
  intros [[]|e] s2 H2; [done|]. apply wp_bind. eapply wp_mono; [by apply with_pool_ok, release_stack_slot_ok|done].
Qed.

(** What [reserve_private_thread_stack] does: it may clear one stack of the
    page table, and otherwise flips flags. *)
Definition stack_effect (p4 : Z) (s s' : AddrState) : Prop :=
  pool_wf (ad_pool s') /\
  (ad_offset_value s <> 0 -> addr_frozen s' = addr_frozen s /\
     (ad_mem s' = ad_mem s \/
      exists slot i frames, slot ∈ live_slots (ad_pool s) /\ sl_p4_frame slot = p4 /\ sl_stack_frames slot !! i = Some frames /\
        ad_mem s' = clear_frames (ad_offset_value s) frames (ad_mem s))).

Lemma stack_effect_after p4 s s1 s2 : stack_effect p4 s s1 -> pool_wf (ad_pool s2) ->
  addr_frozen s2 = addr_frozen s1 -> ad_mem s2 = ad_mem s1 -> stack_effect p4 s s2.
Proof. intros [_ H] Hp Hf Hm. split; [done|]. intros Ho. rewrite Hf, Hm. auto. Qed.

Lemma live_ids (p p' : PrivateP4Pool) slot : map slot_id (live_slots p') = map slot_id (live_slots p) ->
  slot ∈ live_slots p' -> exists slot', slot' ∈ live_slots p /\ slot_id slot' = slot_id slot.
Proof.
  intros E Hs. assert (slot_id slot ∈ map slot_id (live_slots p)) as (x & Hx & Hin)%elem_of_map by (rewrite <-E; apply elem_of_map; eauto).
  eauto.
Qed.

Lemma clear_effect s p4 top : pool_wf (ad_pool s) ->
  wp (clear_private_thread_stack p4 top) (fun _ => stack_effect p4 s) s.
Proof.
  intros Hwf. pose proof (clear_safe s p4 top Hwf) as Hsafe. unfold wp in *.
  destruct (clear_private_thread_stack p4 top s) as [[r s']|] eqn:E; [|done]. split; [done|]. intros Ho.
  revert E. unfold clear_private_thread_stack, physical_memory_offset. run. apply Z.eqb_neq in Ho as ->. cbn [negb].
  rewrite live_ok by done. destruct (List.find (Pool.owned p4) (live_slots (ad_pool s))) as [slot|] eqn:Es; [|intros [= _ <-]; auto].
  destruct (stack_slot_index top) as [i|] eqn:Ei; [|intros [= _ <-]; auto].
  destruct (index (sl_stack_frames slot) i) as [frames|] eqn:Ef; [|done]. intros [= _ <-]. split; [done|]. right.
  apply find_Some in Es as [Hs [Hp _]%owned_frame]. apply index_Done in Ef. by exists slot, i, frames.
Qed.

Lemma with_pool_effect {A} (m : M PrivateP4Pool A) p4 s :
  wp m (fun _ => pool_wf) (ad_pool s) -> keeps_ids m -> wp (with_pool m) (fun _ => stack_effect p4 s) s.
Proof. intros H1 H2. eapply wp_mono; [by apply with_pool_keeps|]. intros a s' (? & ? & ?). split; auto. Qed.

Lemma stack_effect_trans p4 s s1 s2 : stack_effect p4 s s1 -> ad_mem s1 = ad_mem s -> stack_effect p4 s1 s2 -> stack_effect p4 s s2.
Proof.
  intros [_ H1] Hm [Hp H2]. split; [done|]. intros Ho. destruct (H1 Ho) as [E1 _].
  pose proof E1 as E1'. unfold addr_frozen in E1'. injection E1' as _ Eo Ei. rewrite Eo in H2. destruct (H2 Ho) as [E2 Hmem].
  split; [congruence|]. rewrite Hm in Hmem. destruct Hmem as [?|(slot & i & fr & Hs & Hp4 & Hi & Hc)]; [auto|right].
  destruct (live_ids _ _ slot Ei Hs) as (slot' & Hs' & Hid). unfold slot_id in Hid. injection Hid as H3 _ _ H4.
  exists slot', i, fr. split_and!; [done|congruence|congruence|done].
Qed.

Lemma reserve_effect s p4 top : pool_wf (ad_pool s) ->
  wp (reserve_private_thread_stack p4 top) (fun _ => stack_effect p4 s) s.
Proof.
  intros H. unfold reserve_private_thread_stack. apply wp_bind. eapply wp_mono.
  { apply with_pool_keeps; [|apply reserve_stack_slot_ids]. apply wp_run.
    destruct (reserve_spec (ad_pool s) p4 top H) as (r & p' & ? & ? & _). eauto. }
  intros range s1 (H1 & F1 & M1). assert (stack_effect p4 s s1) as E1 by (split; auto).
  destruct range as [range|]; [|done]. apply wp_bind. eapply wp_mono; [by apply clear_effect|].
  intros r s2 E2. pose proof (stack_effect_trans p4 s s1 s2 E1 M1 E2) as E3. destruct r as [[]|e]; [done|].
  apply wp_bind. eapply wp_mono.
  { apply (with_pool_keeps (Pool.release_stack_slot p4 range.2)); [apply release_stack_slot_ok, E2|apply release_stack_slot_ids]. }
  intros b s3 (H3 & F3 & M3). by apply (stack_effect_after p4 s s2).
Qed.

Lemma reserve_stack_range s p4 top range s' : pool_wf (ad_pool s) ->
  reserve_private_thread_stack p4 top s = Done (Some range, s') -> exists i, range = stack_range_for_slot i.
Proof.
  intros H. unfold reserve_private_thread_stack, with_pool. run. destruct (reserve_range (ad_pool s) p4 top H) as (r & p' & -> & _ & Hr).
  destruct r as [rg|]; [|done]. destruct Hr as (i & -> & _). cbv beta iota.
  destruct (clear_private_thread_stack p4 _ _) as [[[[]|e] s2]|]; [intros [= <- _]; eauto| |done].
  by destruct (release_private_thread_stack p4 _ s2) as [[]|].
Qed.

(** ** Page protection *)

(** The segment's memory, an interval of the 64-bit address space, meets the page that starts at [page_start]. *)
Definition touches (page_start : Z) (s : LoadSegment) : bool :=
  (ls_virtual_address s <? Z.min u64_max (page_start + 4096)) &&
  (page_start <? Z.min u64_max (ls_virtual_address s + ls_memory_size s)).

(** Bits 1 and 0 of [p_flags] ask for write and execute permission. *)
Definition wants_write (s : LoadSegment) : bool := Z.testbit (ls_flags s) 1.
Definition wants_exec (s : LoadSegment) : bool := Z.testbit (ls_flags s) 0.

Lemma land_bit a n : 0 <= n -> negb (Z.land a (2 ^ n) =? 0) = Z.testbit a n.
Proof.
  intros Hn. destruct (Z.testbit a n) eqn:E.
  - apply negb_true_iff, Z.eqb_neq. intros H. assert (Z.testbit (Z.land a (2 ^ n)) n = true) as Ht; [|by rewrite H, Z.bits_0 in Ht].
    by rewrite Z.land_spec, E, Z.pow2_bits_true.
  - apply negb_false_iff, Z.eqb_eq, Z.bits_inj'. intros m Hm. rewrite Z.land_spec, Z.bits_0, Z.pow2_bits_eqb by done.
    destruct (Z.eqb_spec n m) as [->|]; [by rewrite E|apply andb_false_r].
Qed.

Lemma elf_page_scan_spec page_start segs m w x :
  elf_page_scan page_start (u64_saturating_add page_start PAGE_SIZE) segs (m, w, x) =
  (m || existsb (touches page_start) segs,
   w || existsb (fun s => touches page_start s && wants_write s) segs,
   x || existsb (fun s => touches page_start s && wants_exec s) segs).
Proof.
  revert m w x; induction segs as [|s segs IH]; intros m w x; cbn [elf_page_scan existsb]; [by rewrite !orb_false_r|].
  rewrite (land_bit (ls_flags s) 1 ltac:(lia) : negb (Z.land (ls_flags s) PF_W =? 0) = wants_write s).
  rewrite (land_bit (ls_flags s) 0 ltac:(lia) : negb (Z.land (ls_flags s) PF_X =? 0) = wants_exec s).
  change ((ls_virtual_address s <? u64_saturating_add page_start PAGE_SIZE) && (page_start <? segment_end s))
    with (touches page_start s).
  destruct (touches page_start s); simpl; rewrite IH; simpl; rewrite ?orb_true_r, <-?orb_assoc; done.
Qed.

(** C38. The protection of the pages of an ELF program.  Every page gets a
    mapping that is present and open to user mode, unless some segments
    touching it ask for write and for execute permission: then it is refused.
    A page that segments touch is writable, or executable, exactly when one of
    them asks for it; a page that no segment touches is writable data.  So no
    page that [elf_page_flags] lets through is both writable and executable. *)
Theorem elf_page_flags_exact (page_start : Z) (segments : list LoadSegment) :
  let any p := existsb (fun s => touches page_start s && p s) segments in
  match elf_page_flags page_start segments with
  | Err e => e = UserMappingNotAccessible /\ any wants_write = true /\ any wants_exec = true
  | Ok f =>
    pf_present f = true /\ pf_user f = true /\ (pf_writable f = true -> pf_no_execute f = true) /\
    if existsb (touches page_start) segments
    then pf_writable f = any wants_write /\ pf_no_execute f = negb (any wants_exec)
    else pf_writable f = true /\ pf_no_execute f = true
  end.
Proof.
  cbv zeta. unfold elf_page_flags. rewrite elf_page_scan_spec. simpl.
  destruct (existsb (fun s => touches page_start s && wants_write s) segments) eqn:Ew,
    (existsb (fun s => touches page_start s && wants_exec s) segments) eqn:Ex; simpl; [done|..];
    destruct (existsb (touches page_start) segments); done.
Qed.

(** ** Witnesses *)

Definition demo_slot : PreparedP4Slot :=
  mkSlot 0x9000 (replicate 64 0) 1 (replicate 8 [0x20000; 0x21000; 0x22000; 0x23000]) (replicate 8 false) true.
Definition demo_pool : PrivateP4Pool := mkPool (demo_slot :: replicate 7 Pool.empty_slot) 2.

Lemma demo_pool_wf : pool_wf demo_pool.
Proof.
  constructor; [reflexivity|vm_compute; lia| |].
  - repeat constructor; simpl; done.
  - vm_compute. apply NoDup_cons. split; [|apply NoDup_singleton]. set_solver.
Qed.

Lemma reserve_stack_slot_disjoint_witness :
  exists p', Pool.reserve_stack_slot 0x9000 FIRST_USER_STACK_TOP demo_pool =
    Done (Some (0x13f7000, 0x13fb000), p') /\ pool_wf p' /\ reserved p' 0x9000 1.
Proof.
  destruct (reserve_stack_slot_disjoint demo_pool 0x9000 FIRST_USER_STACK_TOP demo_pool_wf)
    as (r & p' & E & Hwf & _ & H).
  assert (r = Some (0x13f7000, 0x13fb000)) as -> by (vm_compute in E; injection E as <- <-; reflexivity).
  exists p'. split; [exact E|]. split; [exact Hwf|].
  destruct H as (i & main & Hm & _ & Hr & Hi & _ & _ & _ & Hres & _). apply Hres. right. right.
  unfold PRIVATE_STACK_SLOT_COUNT in Hi. destruct i as [|[|i]]; [vm_compute in Hr; discriminate Hr|reflexivity|].
  do 6 (destruct i as [|i]; [vm_compute in Hr; discriminate Hr|]). lia.
Defined.

Lemma take_exclusive_witness :
  exists p', Pool.take demo_pool = Done (Some 0, p') /\ pool_wf p' /\ taken p' 0 /\ taken p' 0x9000.
Proof.
  destruct (take_exclusive demo_pool demo_pool_wf) as (r & p' & E & Hwf & H).
  assert (r = Some 0) as -> by (vm_compute in E; injection E as <- <-; reflexivity).
  exists p'. split; [exact E|]. split; [exact Hwf|]. destruct H as (_ & H1 & _ & H2). split; [exact H1|].
  apply (H2 0x9000); [discriminate|]. exists demo_slot. split; [apply list_elem_of_here|split; reflexivity].
Defined.

Lemma reserved_stack_is_clear_witness :
  exists s', reserve_private_thread_stack 0x9000 FIRST_USER_STACK_TOP
      (mkAddr demo_pool (Some 0x100000) 0 (fun _ => 7)) = Done (Some (0x13f7000, 0x13fb000), s') /\
    exists i slot frames offset, (0x13f7000, 0x13fb000) = stack_range_for_slot i /\
      slot ∈ live_slots (ad_pool s') /\ sl_p4_frame slot = 0x9000 /\ sl_stack_frames slot !! i = Some frames /\
      ad_offset_value s' = offset /\ forall a, ad_mem s' a =
        if existsb (fun f => (offset + f <=? a) && (a <? offset + f + PAGE_SIZE)) frames then 0 else 7.
Proof.
  assert (fst <$> reserve_private_thread_stack 0x9000 FIRST_USER_STACK_TOP
      (mkAddr demo_pool (Some 0x100000) 0 (fun _ => 7)) = Done (Some (0x13f7000, 0x13fb000))) as E0 by reflexivity.
  destruct (reserve_private_thread_stack 0x9000 FIRST_USER_STACK_TOP
      (mkAddr demo_pool (Some 0x100000) 0 (fun _ => 7))) as [[r s']|] eqn:E; [|discriminate E0].
  injection E0 as ->. exists s'. split; [reflexivity|].
  exact (reserved_stack_is_clear (mkAddr demo_pool (Some 0x100000) 0 (fun _ => 7)) s' 0x9000 FIRST_USER_STACK_TOP
           _ demo_pool_wf E).
Defined.
