(* ===== verification/PageTables.v ===== *)
(** * Page tables (user/address_space.rs, the frame allocator of memory.rs)

    Four levels of tables of 512 64-bit entries in physical memory, which the
    kernel sees through the boot-time mapping at [offset]; the walks that check,
    clone and update entries; the construction of the pool of private page
    tables; and the preparation of a process's private memory.

    What the x86_64 crate provides is a parameter: the accessors of a
    [PageTableEntry] are the class [EntryOps] with the laws [EntryLaws], and a
    frame allocator is the class [FrameAllocator].  [x86_entry] and the
    boot-time allocator are instances. *)

From S2P Require Import Prelude Ring3 Elf AddrSpace.

(** ** Page table entries *)

(** [PageTableFlags]: a set of bits. *)
Definition PRESENT : Z := 0x1.
Definition WRITABLE : Z := 0x2.
Definition USER_ACCESSIBLE : Z := 0x4.
Definition HUGE_PAGE : Z := 0x80.
Definition NO_EXECUTE : Z := 0x8000000000000000.

(** [flags.contains(bits)] *)
Definition contains (flags bits : Z) : bool := Z.land flags bits =? bits.

Definition flag_bits (f : PageFlags) : Z :=
  Z.lor (Z.lor (if pf_present f then PRESENT else 0) (if pf_writable f then WRITABLE else 0))
        (Z.lor (if pf_user f then USER_ACCESSIBLE else 0) (if pf_no_execute f then NO_EXECUTE else 0)).

Definition user_page_flags : PageFlags := mkFlags true true true false.
Definition user_code_page_flags : PageFlags := mkFlags true false true false.

Inductive FrameError := FrameNotPresent | HugeFrame.

(** [PageTableEntry]: [flags()], [frame()], [set_frame(frame, flags)] and [set_flags(flags)]. *)
Class EntryOps := {
  entry_flags : Z -> Z;
  entry_frame : Z -> result Z FrameError;
  entry_with_frame : Z -> Z -> Z;
  entry_with_flags : Z -> Z -> Z;
}.

(** Frames are 4 KiB aligned and below 2^52; the bits 12 to 51 of an entry are
    its address, the others are flags. *)
Definition ADDRESS_MASK : Z := 0xFFFFFFFFFF000.
Definition valid_frame (f : Z) : Prop := 0 <= f < 2 ^ 52 /\ f mod PAGE_SIZE = 0.
Definition valid_flags (fl : Z) : Prop := 0 <= fl < 2 ^ 64 /\ Z.land fl ADDRESS_MASK = 0.

(** The documented behaviour of the accessors. *)
Class EntryLaws (O : EntryOps) : Prop := {
  entry_flags_valid : forall e, 0 <= e < 2 ^ 64 -> valid_flags (entry_flags e);
  entry_frame_ok : forall e f, 0 <= e < 2 ^ 64 -> entry_frame e = Ok f ->
    valid_frame f /\ contains (entry_flags e) PRESENT = true /\ contains (entry_flags e) HUGE_PAGE = false;
  entry_with_frame_range : forall f fl, valid_frame f -> valid_flags fl -> 0 <= entry_with_frame f fl < 2 ^ 64;
  entry_with_frame_flags : forall f fl, valid_frame f -> valid_flags fl -> entry_flags (entry_with_frame f fl) = fl;
  entry_with_frame_frame : forall f fl, valid_frame f -> valid_flags fl ->
    contains fl PRESENT = true -> contains fl HUGE_PAGE = false -> entry_frame (entry_with_frame f fl) = Ok f;
  entry_with_flags_range : forall e fl, 0 <= e < 2 ^ 64 -> valid_flags fl -> 0 <= entry_with_flags e fl < 2 ^ 64;
  entry_with_flags_flags : forall e fl, 0 <= e < 2 ^ 64 -> valid_flags fl -> entry_flags (entry_with_flags e fl) = fl;
  entry_with_flags_frame : forall e f fl, 0 <= e < 2 ^ 64 -> valid_flags fl -> entry_frame e = Ok f ->
    contains fl PRESENT = true -> contains fl HUGE_PAGE = false -> entry_frame (entry_with_flags e fl) = Ok f;
}.

(** The format of the processor. *)
#[export] Instance x86_entry : EntryOps := {
  entry_flags e := Z.ldiff e ADDRESS_MASK;
  entry_frame e :=
    if negb (contains e PRESENT) then Err FrameNotPresent
    else if contains e HUGE_PAGE then Err HugeFrame else Ok (Z.land e ADDRESS_MASK);
  entry_with_frame f fl := Z.lor f fl;
  entry_with_flags e fl := Z.lor (Z.land e ADDRESS_MASK) fl;
}.

(** ** Frame allocators *)

Class FrameAllocator (A : Type) := allocate_frame : A -> option Z * A.

(** [MemoryRegion] of the boot loader's memory map: addresses and whether it is usable. *)
Record MemoryRegion := mkRegion { mr_start : Z; mr_end : Z; mr_usable : bool }.

Record BootInfoFrameAllocator := mkBootAlloc { ba_memory_map : list MemoryRegion; ba_next : nat }.

(** [(start..end).step_by(4096)]; one round per page of the region. *)
Fixpoint step_by_page (fuel : nat) (start end_ : Z) : list Z :=
  match fuel with
  | O => []
  | S fuel => if start <? end_ then start :: step_by_page fuel (start + PAGE_SIZE) end_ else []
  end.

Definition region_frames (r : MemoryRegion) : list Z :=
  step_by_page (Z.to_nat (div_ceil (mr_end r - mr_start r) PAGE_SIZE)) (mr_start r) (mr_end r).

(** [PhysFrame::containing_address] *)
Definition containing_frame (addr : Z) : Z := addr - addr mod PAGE_SIZE.

Definition usable_frames (a : BootInfoFrameAllocator) : list Z :=
  map containing_frame (flat_map region_frames (List.filter mr_usable (ba_memory_map a))).

#[export] Instance boot_allocator : FrameAllocator BootInfoFrameAllocator := fun a =>
  match usable_frames a !! ba_next a with
  | Some frame => (Some frame, mkBootAlloc (ba_memory_map a) (ba_next a + 1))
  | None => (None, a)
  end.

(** [EmptyFrameAllocator] *)
#[export] Instance empty_allocator : FrameAllocator unit := fun a => (None, a).

Record FrameStats := mkFrameStats { fs_total_usable : nat; fs_allocated : nat; fs_remaining : nat }.

Definition frame_stats (a : BootInfoFrameAllocator) : FrameStats :=
  mkFrameStats (length (usable_frames a)) (ba_next a) (length (usable_frames a) - ba_next a).

(** ** Words and tables in memory *)

Definition byte_addrs (a : Z) : list Z := map (fun i => a + Z.of_nat i) (seq 0 8).
Definition get_word (m : memory) (a : Z) : Z := le_value (map m (byte_addrs a)).
Definition set_word (m : memory) (a v : Z) : memory := mem_copy m a (le_bytes 8 v).

(** [copy_nonoverlapping(src, dst, n)] *)
Definition mem_move (m : memory) (dst src n : Z) : memory :=
  fun a => if (dst <=? a) && (a <? dst + n) then m (src + (a - dst)) else m a.

(** [VirtAddr::p1_index] to [p4_index], for levels 0 to 3. *)
Definition table_index (level : nat) (v : Z) : Z := Z.land (Z.shiftr v (12 + 9 * Z.of_nat level)) 511.

(** [VirtAddr::new] panics on an address that is not canonical. *)
Definition canonical (a : Z) : bool := (a <? 2 ^ 47) || (2 ^ 64 - 2 ^ 47 <=? a).
Definition virt_addr_new (a : Z) : outcome Z := if canonical a then Done a else Panic.

(** [Page::range_inclusive] between the pages that contain two addresses. *)
Definition page_range (start end_ : Z) : list Z :=
  map (fun i => containing_frame start + Z.of_nat i * PAGE_SIZE)
      (seq 0 (Z.to_nat ((containing_frame end_ - containing_frame start) / PAGE_SIZE + 1))).

(** Entry [i] of the table in [frame]. *)
Definition entry_addr (offset frame i : Z) : Z := offset + frame + 8 * i.
Definition table_entry (m : memory) (offset frame i : Z) : Z := get_word m (entry_addr offset frame i).

Section tables.
Context `{EntryOps}.
Context (offset : Z).

(** Both errors of [frame()] are reported the same way. *)
Definition child_table_frame (m : memory) (frame i : Z) : result Z AddressSpaceError :=
  match entry_frame (table_entry m offset frame i) with
  | Ok f => Ok f
  | Err FrameNotPresent => Err PrivateMappingNotFound
  | Err HugeFrame => Err PrivateMappingNotFound
  end.

(** The common walk: the level-1 table that covers [v]. *)
Definition walk_to_p1 (m : memory) (p4_frame v : Z) : result Z AddressSpaceError :=
  match child_table_frame m p4_frame (table_index 3 v) with
  | Err e => Err e
  | Ok p3_frame =>
    match child_table_frame m p3_frame (table_index 2 v) with
    | Err e => Err e
    | Ok p2_frame => child_table_frame m p2_frame (table_index 1 v)
    end
  end.

Definition set_user_page_flags (m : memory) (p4_frame v flags : Z) : result () AddressSpaceError * memory :=
  match walk_to_p1 m p4_frame v with
  | Err e => (Err e, m)
  | Ok p1_frame =>
    let a := entry_addr offset p1_frame (table_index 0 v) in
    (Ok (), set_word m a (entry_with_flags (get_word m a) flags))
  end.

Definition ensure_user_page_writable (m : memory) (p4_frame v : Z) : result () AddressSpaceError * memory :=
  match walk_to_p1 m p4_frame v with
  | Err e => (Err e, m)
  | Ok p1_frame =>
    let a := entry_addr offset p1_frame (table_index 0 v) in
    let flags := Z.lor (entry_flags (get_word m a)) (flag_bits user_data_page_flags) in
    (Ok (), set_word m a (entry_with_flags (get_word m a) flags))
  end.

Definition remap_existing_user_page_to_private_frame (m : memory) (p4_frame v private_frame : Z) :
    result () AddressSpaceError * memory :=
  match walk_to_p1 m p4_frame v with
  | Err e => (Err e, m)
  | Ok p1_frame =>
    let a := entry_addr offset p1_frame (table_index 0 v) in
    (Ok (), set_word m a (entry_with_frame private_frame (flag_bits user_data_page_flags)))
  end.

(** *** Access checks *)

Inductive UserPageAccess := ReadAccess | WriteAccess.

Definition flags_allow_user_access (flags : Z) (access : UserPageAccess) : bool :=
  if negb (contains flags (Z.lor PRESENT USER_ACCESSIBLE)) then false else
  match access with ReadAccess => true | WriteAccess => contains flags WRITABLE end.

Definition accessible_child_frame (m : memory) (frame i : Z) (access : UserPageAccess) : result Z AddressSpaceError :=
  if negb (flags_allow_user_access (entry_flags (table_entry m offset frame i)) access)
  then Err UserMappingNotAccessible else child_table_frame m frame i.

Definition active_user_page_accessible (m : memory) (p4_frame v : Z) (access : UserPageAccess) : bool :=
  match accessible_child_frame m p4_frame (table_index 3 v) access with
  | Err _ => false
  | Ok p3_frame =>
    match accessible_child_frame m p3_frame (table_index 2 v) access with
    | Err _ => false
    | Ok p2_frame =>
      match accessible_child_frame m p2_frame (table_index 1 v) access with
      | Err _ => false
      | Ok p1_frame => flags_allow_user_access (entry_flags (table_entry m offset p1_frame (table_index 0 v))) access
      end
    end
  end.

(** The loop over the pages from [page_address] to [last_page]; one round per page. *)
Fixpoint pages_accessible (fuel : nat) (m : memory) (p4_frame page_address last_page : Z) (access : UserPageAccess) :
    outcome bool :=
  match fuel with
  | O => Panic
  | S fuel =>
    v ← virt_addr_new page_address;
    if negb (active_user_page_accessible m p4_frame v access) then mret false else
    if page_address =? last_page then mret true else
    match u64_checked_add page_address PAGE_SIZE with
    | None => mret false
    | Some next => pages_accessible fuel m p4_frame next last_page access
    end
  end.

(** [memory::translate_addr], for the active table [p4_frame]. *)
Fixpoint translate_loop (m : memory) (frame : Z) (indexes : list Z) : outcome (option Z) :=
  match indexes with
  | [] => mret (Some frame)
  | i :: indexes =>
    match entry_frame (table_entry m offset frame i) with
    | Ok frame => translate_loop m frame indexes
    | Err FrameNotPresent => mret None
    | Err HugeFrame => Panic
    end
  end.

Definition translate_addr (m : memory) (p4_frame v : Z) : outcome (option Z) :=
  frame ← translate_loop m p4_frame [table_index 3 v; table_index 2 v; table_index 1 v; table_index 0 v];
  mret (option_map (fun f => f + v mod PAGE_SIZE) frame).

(** *** Cloning *)

Context {A : Type} `{FrameAllocator A}.

(** The state while page tables are built: the allocator and memory. *)
Definition Build : Type := A * memory.

Definition alloc : M Build (option Z) := fun '(a, m) =>
  let '(r, a') := allocate_frame a in Done (r, (a', m)).

Definition mem : M Build memory := gets snd.
Definition set_mem (m : memory) : M Build () := modify (fun '(a, _) => (a, m)).

Definition clone_child_table (parent i : Z) : M Build (result Z AddressSpaceError) :=
  m ← mem;
  match child_table_frame m parent i with
  | Err e => mret (Err e)
  | Ok current_frame =>
    ifSome new_frame := alloc orelse mret (Err FrameAllocationFailed) in
    m ← mem;
    let m := mem_move m (offset + new_frame) (offset + current_frame) PAGE_SIZE in
    let flags := Z.lor (Z.lor (entry_flags (table_entry m offset parent i)) PRESENT) WRITABLE in
    set_mem (set_word m (entry_addr offset parent i) (entry_with_frame new_frame flags));;
    mret (Ok new_frame)
  end.

Definition map_private_user_page (p4_frame v private_frame : Z) : M Build (result () AddressSpaceError) :=
  try p3_frame := clone_child_table p4_frame (table_index 3 v) in
  try p2_frame := clone_child_table p3_frame (table_index 2 v) in
  try p1_frame := clone_child_table p2_frame (table_index 1 v) in
  m ← mem;
  set_mem (set_word m (entry_addr offset p1_frame (table_index 0 v))
             (entry_with_frame private_frame (flag_bits user_data_page_flags)));;
  mret (Ok ()).

(** Allocate a frame for each address and map it there: the frames, in order. *)
Fixpoint map_private_pages (p4_frame : Z) (vs : list Z) : M Build (result (list Z) AddressSpaceError) :=
  match vs with
  | [] => mret (Ok [])
  | v :: vs =>
    ifSome private_frame := alloc orelse mret (Err FrameAllocationFailed) in
    try _ := map_private_user_page p4_frame v private_frame in
    try frames := map_private_pages p4_frame vs in
    mret (Ok (private_frame :: frames))
  end.

Fixpoint map_stack_slots (p4_frame : Z) (slots : list nat) : M Build (result (list (list Z)) AddressSpaceError) :=
  match slots with
  | [] => mret (Ok [])
  | i :: slots =>
    let '(start, _) := stack_range_for_slot i in
    try frames := map_private_pages p4_frame
      (map (fun p => start + Z.of_nat p * PAGE_SIZE) (seq 0 PRIVATE_STACK_PAGE_COUNT)) in
    try rest := map_stack_slots p4_frame slots in
    mret (Ok (frames :: rest))
  end.

Definition program_page (i : nat) : Z := FIRST_USER_ENTRY + Z.of_nat i * PAGE_SIZE.

(** [active_frame] is the frame in CR3. *)
Definition clone_active_p4_into_frame (active_frame frame : Z) : M Build () :=
  m ← mem; set_mem (mem_move m (offset + frame) (offset + active_frame) PAGE_SIZE).

Definition prepare_private_p4_slot (active_frame p4_frame : Z) (program_page_count : nat) :
    M Build (result PreparedP4Slot AddressSpaceError) :=
  clone_active_p4_into_frame active_frame p4_frame;;
  try program_frames := map_private_pages p4_frame
    (map program_page (seq 0 (Nat.min program_page_count MAX_PRIVATE_PROGRAM_PAGE_COUNT))) in
  try stack_frames := map_stack_slots p4_frame (seq 0 PRIVATE_STACK_SLOT_COUNT) in
  mret (Ok (mkSlot p4_frame
    (program_frames ++ replicate (MAX_PRIVATE_PROGRAM_PAGE_COUNT - length program_frames) 0)
    program_page_count stack_frames (replicate PRIVATE_STACK_SLOT_COUNT false) false)).

(** The loop that fills the pool.  A round that continues adds a slot, so the
    [fuel] of one round per slot and one more to stop is enough. *)
Fixpoint fill_pool (fuel : nat) (active_frame : Z) (program_page_count : nat) (pool : PrivateP4Pool) :
    M Build PrivateP4Pool :=
  match fuel with
  | O => panic
  | S fuel =>
    if (PRIVATE_P4_POOL_SIZE <=? po_count pool)%nat then mret pool else
    ifSome frame := alloc orelse mret pool in
    r ← prepare_private_p4_slot active_frame frame program_page_count;
    match r with
    | Err _ => mret pool
    | Ok slot =>
      '(_, pool) ← lift (Pool.push slot pool);
      fill_pool fuel active_frame program_page_count pool
    end
  end.

(** ** Private memory of a process *)

(** A computation on memory that may fail, page by page. *)
Definition on_page (f : memory -> result () AddressSpaceError * memory) : M memory (result () AddressSpaceError) :=
  fun m => Done (f m).

(** [for v in vs { f(v)?; }] *)
Fixpoint for_pages (f : Z -> M memory (result () AddressSpaceError)) (vs : list Z) :
    M memory (result () AddressSpaceError) :=
  match vs with
  | [] => mret (Ok ())
  | v :: vs => try _ := f v in for_pages f vs
  end.

Definition private_program_page_index (v : Z) (slot : PreparedP4Slot) : result nat AddressSpaceError :=
  if v <? FIRST_USER_ENTRY then Err PrivateMappingNotFound else
  let index := Z.to_nat ((v - FIRST_USER_ENTRY) / PAGE_SIZE) in
  if (sl_program_frame_count slot <=? index)%nat then Err PrivateMappingTooSmall else Ok index.

Definition private_stack_page_index (v : Z) (layout : UserMemoryLayout) : result nat AddressSpaceError :=
  if (v <? stack_start layout) || (stack_top layout <=? v) then Err PrivateMappingNotFound else
  let index := Z.to_nat ((v - stack_start layout) / PAGE_SIZE) in
  if (PRIVATE_STACK_PAGE_COUNT <=? index)%nat then Err PrivateMappingTooSmall else Ok index.

(** The loop of both writers: [page_index] gives the position in [frames] of
    the page that holds an address, [base] is where the first page starts.
    Every round writes at least one byte. *)
Fixpoint write_pages (fuel : nat) (page_index : Z -> result nat AddressSpaceError) (base : Z) (frames : list Z)
    (v : Z) (bs : bytes) : M memory (result () AddressSpaceError) :=
  match bs with
  | [] => mret (Ok ())
  | _ =>
    match fuel with
    | O => panic
    | S fuel =>
      match page_index v with
      | Err e => mret (Err e)
      | Ok i =>
        let page_offset := (v - base) mod PAGE_SIZE in
        let count := Z.min (Z.of_nat (length bs)) (PAGE_SIZE - page_offset) in
        frame ← lift (index frames i);
        modify (fun m => mem_copy m (offset + frame + page_offset) (take (Z.to_nat count) bs));;
        write_pages fuel page_index base frames (v + count) (drop (Z.to_nat count) bs)
      end
    end
  end.

Definition write_private_user_bytes (slot : PreparedP4Slot) (v : Z) (bs : bytes) : M memory (result () AddressSpaceError) :=
  write_pages (length bs) (fun v => private_program_page_index v slot) FIRST_USER_ENTRY (sl_program_frames slot) v bs.

Definition write_private_user_stack_bytes (slot : PreparedP4Slot) (layout : UserMemoryLayout) (v : Z) (bs : bytes) :
    M memory (result () AddressSpaceError) :=
  match stack_slot_index (stack_top layout) with
  | None => mret (Err PrivateMappingNotFound)
  | Some stack_slot =>
    match bs with
    | [] => mret (Ok ())
    | _ =>
      frames ← lift (index (sl_stack_frames slot) stack_slot);
      write_pages (length bs) (fun v => private_stack_page_index v layout) (stack_start layout) frames v bs
    end
  end.

(** Every round but the first and the last clears a whole page. *)
Fixpoint zero_pages (fuel : nat) (slot : PreparedP4Slot) (v len : Z) : M memory (result () AddressSpaceError) :=
  if len <=? 0 then mret (Ok ()) else
  match fuel with
  | O => panic
  | S fuel =>
    match private_program_page_index v slot with
    | Err e => mret (Err e)
    | Ok i =>
      let page_offset := (v - FIRST_USER_ENTRY) mod PAGE_SIZE in
      let count := Z.min len (PAGE_SIZE - page_offset) in
      frame ← lift (index (sl_program_frames slot) i);
      modify (fun m => mem_fill m (offset + frame + page_offset) 0 count);;
      zero_pages fuel slot (v + count) (len - count)
    end
  end.

Definition zero_private_user_bytes (slot : PreparedP4Slot) (v len : Z) : M memory (result () AddressSpaceError) :=
  zero_pages (Z.to_nat (len / PAGE_SIZE) + 2) slot v len.

Fixpoint overlay_segments (slot : PreparedP4Slot) (image : bytes) (segments : list LoadSegment) :
    M memory (result () AddressSpaceError) :=
  match segments with
  | [] => mret (Ok ())
  | s :: segments =>
    bs ← lift (slice image (Z.to_nat (ls_file_offset s))
                 (Z.to_nat (u64_saturating_add (ls_file_offset s) (ls_file_size s))));
    try _ := write_private_user_bytes slot (ls_virtual_address s) bs in
    try _ :=
      if ls_file_size s <? ls_memory_size s
      then zero_private_user_bytes slot (ls_virtual_address s + ls_file_size s) (ls_memory_size s - ls_file_size s)
      else mret (Ok ()) in
    overlay_segments slot image segments
  end.

Definition overlay_elf_segments_to_private_frames (slot : PreparedP4Slot) (image : bytes) :
    M memory (result () AddressSpaceError) :=
  r ← lift (load_segments image 8);
  match r with
  | Err _ => mret (Ok ())
  | Ok segments => overlay_segments slot image segments
  end.

Definition seed_private_user_arg (slot : PreparedP4Slot) (arg : bytes) : M memory (result () AddressSpaceError) :=
  let arg_len := Z.min (Z.of_nat (length arg)) FIRST_USER_ARG_PATH_LEN in
  let arg := take (Z.to_nat arg_len) arg in
  try _ := zero_private_user_bytes slot FIRST_USER_ARG_PATH_ADDR FIRST_USER_ARG_PATH_LEN in
  try _ := write_private_user_bytes slot FIRST_USER_ARG_PATH_ADDR arg in
  write_private_user_bytes slot FIRST_USER_ARG_LEN_ADDR (le_bytes 8 arg_len).

Definition seed_private_initial_stack (slot : PreparedP4Slot) (layout : UserMemoryLayout) (program_path arg : bytes) :
    M memory (result () AddressSpaceError) :=
  r ← lift (InitialStack.build_user_initial_stack layout program_path arg);
  match r with
  | Err _ => mret (Err PrivateMappingTooSmall)
  | Ok stack =>
    bs ← lift (stack_as_bytes stack);
    write_private_user_stack_bytes slot layout (is_stack_pointer stack) bs
  end.

Definition protect_private_user_memory (p4_frame : Z) (layout : UserMemoryLayout) (image : bytes) :
    M memory (result () AddressSpaceError) :=
  r ← lift (load_segments image 8);
  first ← lift (virt_addr_new (program_start layout));
  last ← lift (virt_addr_new (saturating_sub (program_end layout) 1));
  try _ := for_pages (fun page =>
    match (match r with Ok segments => elf_page_flags page segments | Err _ => Ok user_page_flags end) with
    | Err e => mret (Err e)
    | Ok flags => on_page (fun m => set_user_page_flags m p4_frame page (flag_bits flags))
    end) (page_range first last) in
  first ← lift (virt_addr_new (stack_start layout));
  last ← lift (virt_addr_new (saturating_sub (stack_top layout) 1));
  for_pages (fun page => on_page (fun m => set_user_page_flags m p4_frame page (flag_bits user_data_page_flags)))
    (page_range first last).

(** [for index in 0..n] over the stack pages. *)
Fixpoint remap_stack_pages (p4_frame start : Z) (frames : list Z) (indexes : list nat) :
    M memory (result () AddressSpaceError) :=
  match indexes with
  | [] => mret (Ok ())
  | i :: indexes =>
    v ← lift (virt_addr_new (start + Z.of_nat i * PAGE_SIZE));
    frame ← lift (index frames i);
    try _ := on_page (fun m =>
      remap_existing_user_page_to_private_frame m (containing_frame p4_frame) v (containing_frame frame)) in
    remap_stack_pages p4_frame start frames indexes
  end.

(** The processor's walk: every level present, and writable for a write.  User
    memory has no large pages; a large page counts as a fault. *)
Fixpoint mmu_walk (m : memory) (write : bool) (frame : Z) (indexes : list Z) : option Z :=
  match indexes with
  | [] => Some frame
  | i :: indexes =>
    let e := table_entry m offset frame i in
    match entry_frame e with
    | Ok next => if negb write || contains (entry_flags e) WRITABLE then mmu_walk m write next indexes else None
    | Err _ => None
    end
  end.

Definition mmu (m : memory) (write : bool) (p4_frame v : Z) : option Z :=
  (fun frame => offset + frame + v mod PAGE_SIZE) <$>
  mmu_walk m write p4_frame [table_index 3 v; table_index 2 v; table_index 1 v; table_index 0 v].

(** An ELF image gets zeroed pages.  For another image the kernel copies the pages
    at [FIRST_USER_ENTRY] of the address space that is loaded, whose top-level
    table is [active_p4]: the address is a virtual one, read through the processor's
    walk, and an unmapped page is a page fault of the kernel. *)
Fixpoint fill_program_pages (active_p4 : Z) (is_elf_image : bool) (frames : list Z) (indexes : list nat) : M memory () :=
  match indexes with
  | [] => mret ()
  | i :: indexes =>
    frame ← lift (index frames i);
    (if is_elf_image then modify (fun m => mem_fill m (offset + frame) 0 PAGE_SIZE) else
     m ← get;
     source ← expect (mmu m false active_p4 (FIRST_USER_ENTRY + Z.of_nat i * PAGE_SIZE));
     modify (fun m => mem_move m (offset + frame) source PAGE_SIZE));;
    fill_program_pages active_p4 is_elf_image frames indexes
  end.

Fixpoint clear_stack_pages (frames : list Z) (indexes : list nat) : M memory () :=
  match indexes with
  | [] => mret ()
  | i :: indexes =>
    frame ← lift (index frames i);
    modify (fun m => mem_fill m (offset + frame) 0 PAGE_SIZE);;
    clear_stack_pages frames indexes
  end.

(** What is done to memory once the slot is found and large enough. *)
Definition prepare_slot_memory (active_p4 : Z) (slot : PreparedP4Slot) (p4_frame : Z) (layout : UserMemoryLayout)
    (image program_path arg : bytes) (stack_slot program_page_count stack_page_count : nat) :
    M memory (result () AddressSpaceError) :=
  stack_frames ← lift (index (sl_stack_frames slot) stack_slot);
  try _ := remap_stack_pages p4_frame (stack_start layout) stack_frames (seq 0 stack_page_count) in
  r ← lift (parse_elf64 image);
  fill_program_pages active_p4 (match r with Ok _ => true | Err _ => false end) (sl_program_frames slot) (seq 0 program_page_count);;
  clear_stack_pages stack_frames (seq 0 stack_page_count);;
  try _ := overlay_elf_segments_to_private_frames slot image in
  try _ := seed_private_user_arg slot arg in
  try _ := seed_private_initial_stack slot layout program_path arg in
  protect_private_user_memory (containing_frame p4_frame) layout image.
End tables.

(** A computation on the memory of the module's state. *)
Definition on_mem {A} (f : M memory A) : M AddrState A := fun s =>
  match f (ad_mem s) with
  | Done (a, m) => Done (a, s <| ad_mem := m |>)
  | Panic => Panic
  end.

(** [active_p4] is the top-level table in CR3 during the call. *)
Definition prepare_process_private_memory `{EntryOps} (active_p4 p4_frame : Z) (layout : UserMemoryLayout)
    (image program_path arg : bytes) : M AddrState (result () AddressSpaceError) :=
  try offset := physical_memory_offset in
  s ← get;
  slot_index ← lift (Pool.find_index (ad_pool s) p4_frame);
  match slot_index with
  | None => mret (Err PrivateMappingNotFound)
  | Some slot_index =>
    slot ← lift (index (po_slots (ad_pool s)) slot_index);
    let program_page_count := Z.to_nat (pages_for_len (saturating_sub (program_end layout) (program_start layout))) in
    if (sl_program_frame_count slot <? program_page_count)%nat then mret (Err PrivateMappingTooSmall) else
    let stack_page_count := Z.to_nat (pages_for_len (saturating_sub (stack_top layout) (stack_start layout))) in
    match stack_slot_index (stack_top layout) with
    | None => mret (Err PrivateMappingNotFound)
    | Some stack_slot =>
      if (PRIVATE_STACK_PAGE_COUNT <? stack_page_count)%nat then mret (Err PrivateMappingTooSmall) else
      try _ := on_mem (prepare_slot_memory offset active_p4 slot p4_frame layout image program_path arg
                         stack_slot program_page_count stack_page_count) in
      s ← get;
      slots ← lift (Pool.live (ad_pool s));
      match List.find (fun s => sl_p4_frame s =? p4_frame) slots with
      | None => mret (Ok ())
      | Some slot =>
        in_use ← lift (index_set (sl_stack_in_use slot) stack_slot true);
        modify (fun s => s <| ad_pool ::= Pool.update_live (fun s => sl_p4_frame s =? p4_frame)
                                            (fun s => s <| sl_stack_in_use := in_use |>) |>);;
        mret (Ok ())
      end
    end
  end.

(** ** The processor's table register and the kernel's own table *)

Record PagingState := mkPaging {
  pg_addr : AddrState;
  pg_cr3 : Z * Z;                         (* frame and flags *)
  pg_kernel_p4 : option Z }.              (* KERNEL_P4_FRAME *)

#[export] Instance eta_paging : Eta PagingState := fun r => mkPaging (pg_addr r) (pg_cr3 r) (pg_kernel_p4 r).

Definition with_addr {A} (f : M AddrState A) : M PagingState A := fun s =>
  match f (pg_addr s) with
  | Done (a, s') => Done (a, s <| pg_addr := s' |>)
  | Panic => Panic
  end.

Definition active_p4_frame : M PagingState Z := gets (fun s => (pg_cr3 s).1).
Definition kernel_p4_frame : M PagingState (option Z) := gets pg_kernel_p4.

Definition record_kernel_p4_frame : M PagingState Z :=
  frame ← active_p4_frame;
  modify (fun s => s <| pg_kernel_p4 := Some frame |>);;
  mret frame.

Definition write_cr3 (frame flags : Z) : M PagingState () := modify (fun s => s <| pg_cr3 := (frame, flags) |>).

Definition smoke_switch_to_p4_frame (prepared_frame : Z) : M PagingState (result Z AddressSpaceError) :=
  '(original_frame, original_flags) ← gets pg_cr3;
  write_cr3 (containing_frame prepared_frame) original_flags;;
  switched_frame ← active_p4_frame;
  write_cr3 original_frame original_flags;;
  if negb (switched_frame =? prepared_frame) then mret (Err SwitchVerificationFailed) else mret (Ok prepared_frame).

Definition smoke_switch_to_prepared_p4 : M PagingState (result Z AddressSpaceError) :=
  s ← get;
  next ← lift (Pool.peek_next (ad_pool (pg_addr s)));
  match next with
  | None => mret (Err NoPreparedP4)
  | Some prepared_frame => smoke_switch_to_p4_frame prepared_frame
  end.

Definition switch_to_p4_frame (frame : Z) : M PagingState (result Z AddressSpaceError) :=
  '(original_frame, flags) ← gets pg_cr3;
  write_cr3 (containing_frame frame) flags;;
  switched_frame ← active_p4_frame;
  if negb (switched_frame =? frame) then
    write_cr3 original_frame flags;; mret (Err SwitchVerificationFailed)
  else mret (Ok switched_frame).

Definition restore_kernel_p4 : M PagingState (result Z AddressSpaceError) :=
  ifSome frame := kernel_p4_frame orelse mret (Err NoKernelP4) in
  switch_to_p4_frame frame.

Section active.
Context `{EntryOps}.

(** [address_space] is [process::current_user_address_space()]. *)
Definition active_user_range_accessible (address_space : option AddressSpace) (ptr len : Z) (access : UserPageAccess) :
    M PagingState bool :=
  if len =? 0 then mret false else
  match u64_checked_add ptr len with
  | None => mret false
  | Some end_ =>
    if end_ <=? ptr then mret false else
    match address_space with
    | None => mret false
    | Some space =>
      active ← active_p4_frame;
      if match as_p4_frame space with Some expected_p4 => negb (active =? expected_p4) | None => false end
      then mret false else
      r ← with_addr physical_memory_offset;
      match r with
      | Err _ => mret false
      | Ok offset =>
        let first := ptr - ptr mod PAGE_SIZE in
        let last_page := (end_ - 1) - (end_ - 1) mod PAGE_SIZE in
        s ← get;
        lift (pages_accessible offset (Z.to_nat ((last_page - first) / PAGE_SIZE) + 1) (ad_mem (pg_addr s))
                (containing_frame active) first last_page access)
      end
    end
  end.

Definition ensure_pages_writable (start end_ : Z) : M PagingState (result () AddressSpaceError) :=
  try offset := with_addr physical_memory_offset in
  active ← active_p4_frame;
  start ← lift (virt_addr_new start);
  end_ ← lift (virt_addr_new end_);
  with_addr (on_mem (for_pages (fun page => on_page (fun m =>
    ensure_user_page_writable offset m (containing_frame active) page)) (page_range start end_))).

Definition ensure_active_user_program_mapping_writable (size : Z) : M PagingState (result () AddressSpaceError) :=
  if size =? 0 then mret (Ok ()) else
  ensure_pages_writable FIRST_USER_ENTRY (FIRST_USER_ENTRY + Z.min size USER_PROGRAM_AREA_SIZE - 1).

Definition ensure_active_user_stack_mapping_writable (start top : Z) :
    M PagingState (result () AddressSpaceError) :=
  if top <=? start then mret (Ok ()) else
  ensure_pages_writable start (top - 1).

(** [images] is the generated list of images. *)
Definition init_private_p4_pool {A} `{FrameAllocator A} (images : list bytes) (offset : Z) : M (A * PagingState) nat :=
  fun '(a, s) =>
  match (record_kernel_p4_frame;;
         with_addr (modify (fun s => s <| ad_offset_value := offset |> <| ad_offset := Some offset |>));;
         program_page_count ← lift (required_private_program_pages images);
         active ← active_p4_frame;
         s ← get;
         mret (Z.to_nat program_page_count, active, pg_addr s)) s with
  | Panic => Panic
  | Done ((program_page_count, active, ad), s) =>
    match fill_pool offset (S PRIVATE_P4_POOL_SIZE) active program_page_count (ad_pool ad) (a, ad_mem ad) with
    | Panic => Panic
    | Done (pool, (a, m)) =>
      Done (po_count pool, (a, s <| pg_addr := ad <| ad_pool := pool |> <| ad_mem := m |> |>))
    end
  end.
End active.
