(* ===== verification/PageTablesProofs.v ===== *)
(** * Page tables: what the walks and the clones do

    The laws of the entry format and of the boot-time allocator; the leaf entry
    a walk ends in; [map_private_user_page] changes the leaf of one page and
    nothing that another table sees; the pool of private tables maps every
    program and stack page of every slot to a frame of its own; access checks
    are exact. *)

From S2P Require Import Prelude Ring3 Elf AddrSpace PageTables.

(** ** The processor's entry format *)

Section bits.

Lemma contains_spec flags n : 0 <= n -> contains flags (2 ^ n) = Z.testbit flags n.
Proof.
  intros Hn. unfold contains. destruct (Z.testbit flags n) eqn:E.
  - apply Z.eqb_eq, Z.bits_inj'. intros k Hk. rewrite Z.land_spec, Z.pow2_bits_eqb by done.
    destruct (Z.eqb_spec n k) as [->|]; [by rewrite E|apply andb_false_r].
  - apply Z.eqb_neq. intros H. apply (f_equal (fun z => Z.testbit z n)) in H.
    rewrite Z.land_spec, Z.pow2_bits_eqb, Z.eqb_refl, E in H by done. done.
Qed.

Lemma mask_bits k : 0 <= k -> Z.testbit ADDRESS_MASK k = (12 <=? k) && (k <? 52).
Proof.
  intros Hk. replace ADDRESS_MASK with (Z.ones 40 * 2 ^ 12) by reflexivity.
  rewrite Z.mul_pow2_bits by lia. destruct (Z.leb_spec 12 k); cbn [andb].
  - destruct (Z.ltb_spec k 52); [apply Z.ones_spec_low; lia|apply Z.ones_spec_high; lia].
  - apply Z.testbit_neg_r; lia.
Qed.

Lemma bits_above a n k : 0 <= a < 2 ^ n -> 0 <= n <= k -> Z.testbit a k = false.
Proof.
  intros Ha Hk. destruct (Z.eq_dec a 0) as [->|]; [apply Z.bits_0|].
  apply Z.bits_above_log2; [lia|]. apply Z.log2_lt_pow2; [lia|].
  apply Z.lt_le_trans with (2 ^ n); [lia|]. apply Z.pow_le_mono_r; lia.
Qed.

Lemma range_of_bits a n : 0 <= n -> (forall k, n <= k -> Z.testbit a k = false) -> 0 <= a < 2 ^ n.
Proof.
  intros Hn H.
  assert (a = Z.land a (Z.ones n)) as ->.
  { apply Z.bits_inj'. intros k Hk. rewrite Z.land_spec. destruct (Z.ltb_spec k n).
    - rewrite Z.ones_spec_low by lia. by rewrite andb_true_r.
    - rewrite H by lia. done. }
  rewrite Z.land_ones by done. apply Z.mod_pos_bound. apply Z.pow_pos_nonneg; lia.
Qed.

(** A valid frame has its bits between 12 and 51, valid flags have theirs elsewhere. *)
Lemma valid_frame_bits f : valid_frame f <-> forall k, 0 <= k -> (k < 12 \/ 52 <= k) -> Z.testbit f k = false.
Proof.
  unfold valid_frame, PAGE_SIZE. change 4096 with (2 ^ 12). split.
  - intros [Hr Hm] k Hk [Hlo|Hhi]; [|by apply (bits_above _ 52); [|lia]].
    apply Z.mod_divide in Hm; [|lia]. destruct Hm as [q ->]. apply Z.mul_pow2_bits_low; lia.
  - intros H. split; [apply range_of_bits; [lia|]; intros k Hk; apply H; lia|].
    rewrite <-Z.land_ones by lia. apply Z.bits_inj'. intros k Hk. rewrite Z.land_spec, Z.bits_0.
    destruct (Z.ltb_spec k 12); [rewrite H by lia; done|rewrite Z.ones_spec_high by lia; apply andb_false_r].
Qed.

Lemma valid_flags_bits fl :
  valid_flags fl <-> (forall k, 12 <= k < 52 \/ 64 <= k -> Z.testbit fl k = false).
Proof.
  unfold valid_flags. split.
  - intros [Hr Hm] k [Hk|Hk]; [|by apply (bits_above _ 64); [|lia]].
    apply (f_equal (fun z => Z.testbit z k)) in Hm. rewrite Z.land_spec, Z.bits_0, mask_bits in Hm by lia.
    destruct (Z.leb_spec 12 k), (Z.ltb_spec k 52); try lia. by rewrite andb_true_r in Hm.
  - intros H. split; [apply range_of_bits; [lia|]; intros k Hk; apply H; lia|].
    apply Z.bits_inj'. intros k Hk. rewrite Z.land_spec, Z.bits_0, mask_bits by lia.
    destruct (Z.leb_spec 12 k), (Z.ltb_spec k 52); cbn [andb]; try (by rewrite andb_false_r).
    rewrite H by lia. done.
Qed.

Lemma present_bit e : contains e PRESENT = Z.testbit e 0.
Proof. apply (contains_spec e 0). lia. Qed.
Lemma huge_bit e : contains e HUGE_PAGE = Z.testbit e 7.
Proof. apply (contains_spec e 7). lia. Qed.

Lemma ldiff_mask_bit e k : 0 <= k -> Z.testbit (Z.ldiff e ADDRESS_MASK) k = Z.testbit e k && negb ((12 <=? k) && (k <? 52)).
Proof. intros Hk. by rewrite Z.ldiff_spec, mask_bits. Qed.

Lemma land_mask_bit e k : 0 <= k -> Z.testbit (Z.land e ADDRESS_MASK) k = Z.testbit e k && ((12 <=? k) && (k <? 52)).
Proof. intros Hk. by rewrite Z.land_spec, mask_bits. Qed.

Lemma land_mask_valid e : valid_frame (Z.land e ADDRESS_MASK).
Proof.
  apply valid_frame_bits. intros k Hk Hout. rewrite land_mask_bit by done.
  destruct (Z.leb_spec 12 k), (Z.ltb_spec k 52); try lia; cbn [andb]; by rewrite ?andb_false_r.
Qed.

Lemma ldiff_mask_valid e : 0 <= e < 2 ^ 64 -> valid_flags (Z.ldiff e ADDRESS_MASK).
Proof.
  intros He. apply valid_flags_bits. intros k Hk. rewrite ldiff_mask_bit by lia.
  destruct Hk as [Hk|Hk]; [|rewrite (bits_above e 64) by lia; done].
  destruct (Z.leb_spec 12 k), (Z.ltb_spec k 52); try lia; cbn [andb negb]; by rewrite ?andb_false_r.
Qed.

Lemma lor_range f fl : valid_frame f -> valid_flags fl -> 0 <= Z.lor f fl < 2 ^ 64.
Proof.
  intros Hf Hfl. apply range_of_bits; [lia|]. intros k Hk. rewrite Z.lor_spec.
  rewrite (proj1 (valid_frame_bits f) Hf), (proj1 (valid_flags_bits fl) Hfl); (done || lia).
Qed.

Lemma ldiff_lor_mask f fl : valid_frame f -> valid_flags fl -> Z.ldiff (Z.lor f fl) ADDRESS_MASK = fl.
Proof.
  intros Hf Hfl. apply Z.bits_inj'. intros k Hk. rewrite ldiff_mask_bit, Z.lor_spec by done.
  destruct (Z.leb_spec 12 k), (Z.ltb_spec k 52); cbn [andb negb]; rewrite ?andb_true_r, ?andb_false_r.
  2-4: rewrite (proj1 (valid_frame_bits f) Hf) by lia; done.
  symmetry. apply (proj1 (valid_flags_bits fl) Hfl). lia.
Qed.

Lemma land_lor_mask f fl : valid_frame f -> valid_flags fl -> Z.land (Z.lor f fl) ADDRESS_MASK = f.
Proof.
  intros Hf Hfl. apply Z.bits_inj'. intros k Hk. rewrite land_mask_bit, Z.lor_spec by done.
  destruct (Z.leb_spec 12 k), (Z.ltb_spec k 52); cbn [andb]; rewrite ?andb_true_r, ?andb_false_r.
  2-4: symmetry; apply (proj1 (valid_frame_bits f) Hf); lia.
  rewrite (proj1 (valid_flags_bits fl) Hfl) by lia. apply orb_false_r.
Qed.

Lemma lor_low_bit f fl k : valid_frame f -> 0 <= k < 12 -> Z.testbit (Z.lor f fl) k = Z.testbit fl k.
Proof. intros Hf Hk. rewrite Z.lor_spec, (proj1 (valid_frame_bits f) Hf) by lia. done. Qed.

#[export] Instance x86_entry_laws : EntryLaws x86_entry.
Proof.
  split; cbn [entry_flags entry_frame entry_with_frame entry_with_flags x86_entry]; intros *.
  - apply ldiff_mask_valid.
  - intros He. rewrite !present_bit, !huge_bit, !ldiff_mask_bit by lia. cbn [andb negb Z.leb Z.compare].
    destruct (Z.testbit e 0) eqn:?, (Z.testbit e 7) eqn:?; cbn; try done.
    intros [= <-]. split; [apply land_mask_valid|done].
  - apply lor_range.
  - apply ldiff_lor_mask.
  - intros Hf Hfl. rewrite !present_bit, !huge_bit, !lor_low_bit by (done || lia). intros -> ->. cbn.
    by rewrite land_lor_mask.
  - intros. apply lor_range; [apply land_mask_valid|done].
  - intros. apply ldiff_lor_mask; [apply land_mask_valid|done].
  - intros He Hfl. rewrite !present_bit, !huge_bit, !lor_low_bit by (apply land_mask_valid || lia).
    destruct (Z.testbit e 0), (Z.testbit e 7); cbn; try done. intros [= <-] -> ->. cbn.
    rewrite land_lor_mask; [done|apply land_mask_valid|done].
Qed.
End bits.

(** ** The boot-time allocator *)

(** What an allocator will still hand out, in order. *)
Class AllocatorView (A : Type) := remaining : A -> list Z.

Class AllocatorLaws (A : Type) `{FrameAllocator A, AllocatorView A} : Prop := {
  allocate_None : forall a, remaining a = [] -> allocate_frame a = (None, a);
  allocate_Some : forall a f rest, remaining a = f :: rest ->
    exists a', allocate_frame a = (Some f, a') /\ remaining a' = rest;
}.

#[export] Instance boot_allocator_view : AllocatorView BootInfoFrameAllocator :=
  fun a => drop (ba_next a) (usable_frames a).

#[export] Instance boot_allocator_laws : AllocatorLaws BootInfoFrameAllocator.
Proof.
  split; unfold remaining, boot_allocator_view.
  - intros a H. unfold allocate_frame, boot_allocator.
    rewrite lookup_ge_None_2; [done|]. apply (f_equal length) in H. rewrite length_drop in H. simpl in H. lia.
  - intros a f rest H. unfold allocate_frame, boot_allocator.
    assert (usable_frames a !! ba_next a = Some f) as E.
    { pose proof (lookup_drop (usable_frames a) (ba_next a) 0) as L. rewrite H, Nat.add_0_r in L. done. }
    rewrite E. eexists. split; [done|]. cbn [ba_memory_map ba_next].
    change (usable_frames (mkBootAlloc (ba_memory_map a) (ba_next a + 1))) with (usable_frames a).
    rewrite <-drop_drop, H. done.
Qed.

(** ** Words in memory *)

Definition bytes_ok (m : memory) : Prop := forall a, is_byte (m a).

Lemma mem_copy_ok m a bs : bytes_ok m -> Forall is_byte bs -> bytes_ok (mem_copy m a bs).
Proof.
  intros Hm Hbs x. unfold mem_copy. destruct (_ && _) eqn:E; [|apply Hm].
  rewrite Forall_forall in Hbs. apply Hbs. bool_to_prop. apply list_elem_of_In, nth_In. lia.
Qed.

Lemma mem_fill_ok m a v n : bytes_ok m -> is_byte v -> bytes_ok (mem_fill m a v n).
Proof. intros Hm Hv x. unfold mem_fill. by destruct (_ && _). Qed.

Lemma mem_move_ok m d s n : bytes_ok m -> bytes_ok (mem_move m d s n).
Proof. intros Hm x. unfold mem_move. by destruct (_ && _). Qed.

Lemma set_word_ok m a v : bytes_ok m -> bytes_ok (set_word m a v).
Proof. intros Hm. apply mem_copy_ok; [done|apply le_bytes_ok]. Qed.

Lemma get_word_range m a : bytes_ok m -> 0 <= get_word m a < 2 ^ 64.
Proof.
  intros Hm. unfold get_word.
  assert (Forall is_byte (map m (byte_addrs a))) as H%le_value_range; [|exact H].
  unfold byte_addrs. rewrite map_map. apply Forall_forall. intros b (i & -> & _)%elem_of_map. apply Hm.
Qed.

Lemma get_word_ext m m' a : (forall x, a <= x < a + 8 -> m x = m' x) -> get_word m a = get_word m' a.
Proof.
  intros H. unfold get_word, byte_addrs. f_equal. rewrite !map_map. apply map_ext_in. intros i [_ Hi]%in_seq.
  apply H. lia.
Qed.

Lemma get_set_word m a v : 0 <= v < 2 ^ 64 -> get_word (set_word m a v) a = v.
Proof.
  intros Hv. unfold get_word, set_word. etransitivity; [|apply (le_value_bytes 8); exact Hv]. f_equal.
  assert (map (mem_copy m a (le_bytes 8 v)) (byte_addrs a) = map (fun i => nth i (le_bytes 8 v) 0) (seq 0 8)) as ->; [|done].
  unfold byte_addrs. rewrite map_map. apply map_ext_in. intros i [_ Hi]%in_seq. unfold mem_copy.
  rewrite length_le_bytes. replace (a + Z.of_nat i - a) with (Z.of_nat i) by lia. rewrite Nat2Z.id.
  destruct (Z.leb_spec a (a + Z.of_nat i)), (Z.ltb_spec (a + Z.of_nat i) (a + Z.of_nat 8)); done || lia.
Qed.

Lemma set_word_outside m a v x : x < a \/ a + 8 <= x -> set_word m a v x = m x.
Proof.
  intros H. unfold set_word, mem_copy. rewrite length_le_bytes.
  destruct (Z.leb_spec a x), (Z.ltb_spec x (a + Z.of_nat 8)); done || lia.
Qed.

Lemma get_set_word_other m a b v : a + 8 <= b \/ b + 8 <= a -> get_word (set_word m a v) b = get_word m b.
Proof. intros H. apply get_word_ext. intros x Hx. apply set_word_outside. lia. Qed.

Lemma mem_move_outside m d s n x : x < d \/ d + n <= x -> mem_move m d s n x = m x.
Proof. intros H. unfold mem_move. destruct (Z.leb_spec d x), (Z.ltb_spec x (d + n)); done || lia. Qed.

Lemma mem_move_inside m d s n i : 0 <= i < n -> mem_move m d s n (d + i) = m (s + i).
Proof.
  intros H. unfold mem_move. destruct (Z.leb_spec d (d + i)), (Z.ltb_spec (d + i) (d + n)); try lia.
  simpl. f_equal. lia.
Qed.

Lemma get_word_move m d s n i : 0 <= i /\ i + 8 <= n -> get_word (mem_move m d s n) (d + i) = get_word m (s + i).
Proof.
  intros H. unfold get_word, byte_addrs. f_equal. rewrite !map_map. apply map_ext_in. intros k [_ Hk]%in_seq.
  rewrite <-!Z.add_assoc. apply mem_move_inside. lia.
Qed.

Lemma table_index_range l v : 0 <= table_index l v < 512.
Proof. unfold table_index. change 511 with (Z.ones 9). rewrite Z.land_ones by lia. apply Z.mod_pos_bound. lia. Qed.

Lemma valid_frame_distinct f g x offset :
  valid_frame f -> valid_frame g -> offset + f <= x < offset + f + PAGE_SIZE -> offset + g <= x < offset + g + PAGE_SIZE -> f = g.
Proof.
  intros [_ Hf] [_ Hg] H1 H2. unfold PAGE_SIZE in *.
  apply Z.div_exact in Hf; [|lia]. apply Z.div_exact in Hg; [|lia].
  assert (f / 4096 = g / 4096) by lia. lia.
Qed.

(** ** Walks *)

(** What a walk finds: the entry it ends in, at level 0 or at the first entry
    that leads to no table, and whether every entry above allows user accesses
    and writes. *)
Record Leaf := mkLeaf { lf_level : nat; lf_entry : Z; lf_user : bool; lf_writable : bool }.

(** The same entry and user bits, at least the write permission. *)
Definition leaf_le (r r' : Leaf) : Prop :=
  lf_level r = lf_level r' /\ lf_entry r = lf_entry r' /\ lf_user r = lf_user r' /\
  (lf_writable r = true -> lf_writable r' = true).

#[export] Instance leaf_le_preorder : PreOrder leaf_le.
Proof.
  split; [intros r; by repeat split|]. intros r1 r2 r3 (?&?&?&?) (?&?&?&?). repeat split; congruence || auto.
Qed.

(** The four indexes of an address, as a function of the level. *)
Definition indexes (v : Z) : nat -> Z := fun l => table_index l v.
Definition ix_ok (ix : nat -> Z) : Prop := forall l, 0 <= ix l < 512.

Lemma indexes_ok v : ix_ok (indexes v).
Proof. intros l. apply table_index_range. Qed.

Fixpoint agreeb (l : nat) (ix ix' : nat -> Z) : bool :=
  match l with
  | O => ix O =? ix' O
  | S k => (ix (S k) =? ix' (S k)) && agreeb k ix ix'
  end.

Lemma agreeb_refl l ix : agreeb l ix ix = true.
Proof. induction l as [|l IH]; simpl; rewrite Z.eqb_refl; [done|exact IH]. Qed.

Lemma agreeb_sym l ix ix' : agreeb l ix ix' = agreeb l ix' ix.
Proof. induction l as [|l IH]; simpl; [apply Z.eqb_sym|]. by rewrite IH, Z.eqb_sym. Qed.

Definition set_index (l : nat) (i : Z) (ix : nat -> Z) : nat -> Z := fun k => if (k =? l)%nat then i else ix k.

Lemma set_index_ok l i ix : 0 <= i < 512 -> ix_ok ix -> ix_ok (set_index l i ix).
Proof. intros Hi Hix k. unfold set_index. by destruct (k =? l)%nat. Qed.

Lemma set_index_same l i ix : set_index l i ix l = i.
Proof. unfold set_index. by rewrite Nat.eqb_refl. Qed.

Lemma set_index_below l i ix k : (k < l)%nat -> set_index l i ix k = ix k.
Proof. intros H. unfold set_index. destruct (Nat.eqb_spec k l); [lia|done]. Qed.

Section walks.
Context `{Laws : EntryLaws}.
Context (offset : Z).

(** The tables a walk from the level-[l] table [f] visits, and its leaf. *)
Fixpoint path (m : memory) (l : nat) (f : Z) (ix : nat -> Z) : list Z :=
  f :: match l with
       | O => []
       | S k => match entry_frame (table_entry m offset f (ix l)) with Ok g => path m k g ix | Err _ => [] end
       end.

Fixpoint leaf (m : memory) (l : nat) (f : Z) (ix : nat -> Z) : Leaf :=
  let e := table_entry m offset f (ix l) in
  match l with
  | O => mkLeaf 0 e true true
  | S k =>
    match entry_frame e with
    | Err _ => mkLeaf l e true true
    | Ok g =>
      let r := leaf m k g ix in
      mkLeaf (lf_level r) (lf_entry r) (contains (entry_flags e) USER_ACCESSIBLE && lf_user r)
             (contains (entry_flags e) WRITABLE && lf_writable r)
    end
  end.

Definition in_frame (f x : Z) : Prop := offset + f <= x < offset + f + PAGE_SIZE.
Definition same_frame (m m' : memory) (f : Z) : Prop := forall x, in_frame f x -> m' x = m x.

Lemma table_entry_in_frame f i : 0 <= i < 512 -> forall x, entry_addr offset f i <= x < entry_addr offset f i + 8 -> in_frame f x.
Proof. unfold entry_addr, in_frame, PAGE_SIZE. lia. Qed.

Lemma table_entry_same m m' f i : same_frame m m' f -> 0 <= i < 512 -> table_entry m' offset f i = table_entry m offset f i.
Proof. intros H Hi. apply get_word_ext. intros x Hx. apply H. by apply (table_entry_in_frame f i). Qed.

Lemma table_entry_range m f i : bytes_ok m -> 0 <= table_entry m offset f i < 2 ^ 64.
Proof. apply get_word_range. Qed.

Lemma path_ext m l f ix ix' : (forall k, (k <= l)%nat -> ix k = ix' k) -> path m l f ix = path m l f ix'.
Proof.
  revert f; induction l as [|l IH]; intros f H; simpl; [done|]. rewrite H by lia. f_equal.
  destruct (entry_frame _); [|done]. apply IH. intros; apply H; lia.
Qed.

Lemma leaf_ext m l f ix ix' : (forall k, (k <= l)%nat -> ix k = ix' k) -> leaf m l f ix = leaf m l f ix'.
Proof.
  revert f; induction l as [|l IH]; intros f H; simpl; rewrite H by lia; [done|].
  destruct (entry_frame _) as [g|]; [|done]. rewrite (IH g); [done|]. intros; apply H; lia.
Qed.

Lemma path_head m l f ix : path m l f ix = f :: tail (path m l f ix).
Proof. by destruct l. Qed.

(** A walk only reads the tables it visits. *)
Lemma walk_same m m' l f ix :
  ix_ok ix -> (forall g, g ∈ path m l f ix -> same_frame m m' g) ->
  path m' l f ix = path m l f ix /\ leaf m' l f ix = leaf m l f ix.
Proof.
  intros Hix. revert f; induction l as [|l IH]; intros f H; simpl.
  - rewrite (table_entry_same m m'); [done|apply H; constructor|apply Hix].
  - rewrite (table_entry_same m m'); [|apply H; constructor|apply Hix]. simpl in H.
    destruct (entry_frame _) as [g|]; [|done]. destruct (IH g) as [-> ->]; [|done].
    intros h Hh. apply H. by constructor.
Qed.

(** A copy of a table is walked like the original. *)
Lemma walk_copy m m' l f f' ix :
  ix_ok ix -> (forall i, 0 <= i < 512 -> table_entry m' offset f' i = table_entry m offset f i) ->
  (forall g, g ∈ tail (path m l f ix) -> same_frame m m' g) ->
  path m' l f' ix = f' :: tail (path m l f ix) /\ leaf m' l f' ix = leaf m l f ix.
Proof.
  intros Hix He H. destruct l as [|l]; simpl in *; rewrite He by apply Hix; [done|].
  destruct (entry_frame _) as [g|]; [|done].
  destruct (walk_same m m' l g ix Hix H) as [-> ->]. done.
Qed.

Lemma path_length m l f ix : (length (path m l f ix) <= S l)%nat.
Proof. revert f; induction l; intros f; simpl; [lia|]. destruct (entry_frame _); simpl; [|lia]. apply le_n_S. eauto. Qed.

(** *** Cloning *)

Lemma path_valid m l f ix : bytes_ok m -> valid_frame f -> Forall valid_frame (path m l f ix).
Proof.
  intros Hm. revert f; induction l as [|l IH]; intros f Hf; simpl; constructor; [done|constructor|done|].
  destruct (entry_frame _) as [g|] eqn:E; [|constructor]. apply IH. by apply entry_frame_ok in E as [? _]; [|apply table_entry_range].
Qed.

Lemma frames_apart f g x : valid_frame f -> valid_frame g -> f <> g -> in_frame f x -> ~ in_frame g x.
Proof. intros Hf Hg Hne H1 H2. apply Hne. exact (valid_frame_distinct f g x offset Hf Hg H1 H2). Qed.

Lemma entry_addr_apart f i j : 0 <= i < 512 -> 0 <= j < 512 -> i <> j ->
  entry_addr offset f i + 8 <= entry_addr offset f j \/ entry_addr offset f j + 8 <= entry_addr offset f i.
Proof. unfold entry_addr. lia. Qed.

(** Setting one entry of a table. *)
Lemma set_entry_same m f i v : 0 <= v < 2 ^ 64 -> table_entry (set_word m (entry_addr offset f i) v) offset f i = v.
Proof. apply get_set_word. Qed.

Lemma set_entry_other m f i j v :
  0 <= i < 512 -> 0 <= j < 512 -> i <> j ->
  table_entry (set_word m (entry_addr offset f i) v) offset f j = table_entry m offset f j.
Proof. intros Hi Hj Hne. apply get_set_word_other. by apply entry_addr_apart. Qed.

Lemma set_entry_outside m f i v x :
  0 <= i < 512 -> ~ in_frame f x -> set_word m (entry_addr offset f i) v x = m x.
Proof. intros Hi Hx. apply set_word_outside. unfold in_frame, entry_addr, PAGE_SIZE in *. lia. Qed.

Lemma set_entry_frame m f g i v :
  0 <= i < 512 -> valid_frame f -> valid_frame g -> f <> g -> same_frame m (set_word m (entry_addr offset f i) v) g.
Proof. intros Hi Hf Hg Hne x Hx. apply set_entry_outside; [done|]. by apply (frames_apart g f). Qed.

Context {A : Type} `{AllocatorLaws A}.

(** The flags a cloned entry gets. *)
Definition cloned_flags (fl : Z) : Z := Z.lor (Z.lor fl PRESENT) WRITABLE.

Lemma cloned_flags_bit fl k : Z.testbit (cloned_flags fl) k = Z.testbit fl k || (k =? 0) || (k =? 1).
Proof.
  unfold cloned_flags, PRESENT, WRITABLE. change 0x1 with (2 ^ 0). change 0x2 with (2 ^ 1).
  rewrite !Z.lor_spec, !Z.pow2_bits_eqb, (Z.eqb_sym 0 k), (Z.eqb_sym 1 k) by lia. done.
Qed.

Lemma contains_user fl : contains fl USER_ACCESSIBLE = Z.testbit fl 2.
Proof. apply (contains_spec fl 2). lia. Qed.
Lemma contains_writable fl : contains fl WRITABLE = Z.testbit fl 1.
Proof. apply (contains_spec fl 1). lia. Qed.

Lemma cloned_flags_valid fl : valid_flags fl -> valid_flags (cloned_flags fl).
Proof.
  intros Hfl. apply valid_flags_bits. intros k Hk. rewrite cloned_flags_bit.
  rewrite (proj1 (valid_flags_bits fl) Hfl) by done. destruct (Z.eqb_spec k 0), (Z.eqb_spec k 1); done || lia.
Qed.

Lemma cloned_flags_spec fl :
  contains (cloned_flags fl) PRESENT = true /\ contains (cloned_flags fl) WRITABLE = true /\
  contains (cloned_flags fl) USER_ACCESSIBLE = contains fl USER_ACCESSIBLE /\
  contains (cloned_flags fl) HUGE_PAGE = contains fl HUGE_PAGE.
Proof.
  rewrite present_bit, !huge_bit, !contains_user, contains_writable, !cloned_flags_bit. cbn.
  by rewrite !orb_true_r, !orb_false_r.
Qed.

(** What [clone_child_table] does: [n] becomes a copy of the child table [g],
    and entry [i] of [f] leads to it. *)
Record cloned (m m' : memory) (f i g n : Z) : Prop := {
  cl_bytes : bytes_ok m';
  cl_outside : forall x, ~ in_frame f x -> ~ in_frame n x -> m' x = m x;
  cl_copy : forall j, 0 <= j < 512 -> table_entry m' offset n j = table_entry m offset g j;
  cl_entry : entry_frame (table_entry m' offset f i) = Ok n;
  cl_flags : entry_flags (table_entry m' offset f i) = cloned_flags (entry_flags (table_entry m offset f i));
  cl_other : forall j, 0 <= j < 512 -> j <> i -> table_entry m' offset f j = table_entry m offset f j;
}.

Lemma clone_child_table_spec a m f i g n rest :
  bytes_ok m -> valid_frame f -> valid_frame n -> n <> f -> 0 <= i < 512 ->
  entry_frame (table_entry m offset f i) = Ok g -> remaining a = n :: rest ->
  exists a' m', clone_child_table offset f i (a, m) = Done (Ok n, (a', m')) /\ remaining a' = rest /\ cloned m m' f i g n.
Proof.
  intros Hm Hf Hn Hnf Hi Hg Hrem.
  destruct (allocate_Some a n rest Hrem) as (a' & Ha & Hrest).
  assert (valid_frame g /\ contains (entry_flags (table_entry m offset f i)) HUGE_PAGE = false) as [Hvg Hhuge].
  { destruct (entry_frame_ok _ _ (table_entry_range m f i Hm) Hg) as (? & ? & ?). done. }
  set (m1 := mem_move m (offset + n) (offset + g) PAGE_SIZE).
  assert (same_frame m m1 f) as Hsame.
  { intros x Hx. apply mem_move_outside. pose proof (frames_apart f n x Hf Hn (not_eq_sym Hnf) Hx) as Hno.
    unfold in_frame in Hno. lia. }
  pose proof (table_entry_same m m1 f i Hsame Hi) as Hei.
  set (fl := entry_flags (table_entry m offset f i)) in *.
  assert (valid_flags fl) as Hfl by (apply entry_flags_valid, table_entry_range, Hm).
  pose proof (cloned_flags_valid fl Hfl) as Hcf. destruct (cloned_flags_spec fl) as (Hp & _ & _ & Hh).
  exists a', (set_word m1 (entry_addr offset f i) (entry_with_frame n (cloned_flags fl))). split_and!; [|done|].
  - unfold clone_child_table, child_table_frame, mem, alloc, set_mem. run. cbn [fst snd]. rewrite Hg. cbn beta iota. rewrite Ha.
    cbn [fst snd]. fold m1. rewrite Hei. done.
  - assert (bytes_ok m1) as Hm1 by (by apply mem_move_ok).
    split.
    + by apply set_word_ok.
    + intros x Hxf Hxn. rewrite set_entry_outside by done. apply mem_move_outside. unfold in_frame in Hxn. lia.
    + intros j Hj. rewrite (table_entry_same m1); [|by apply set_entry_frame|done].
      unfold table_entry, entry_addr. apply get_word_move. unfold PAGE_SIZE. lia.
    + rewrite set_entry_same by (by apply entry_with_frame_range). apply entry_with_frame_frame; congruence.
    + rewrite set_entry_same by (by apply entry_with_frame_range). by apply entry_with_frame_flags.
    + intros j Hj Hne. rewrite set_entry_other by done. by apply (table_entry_same).
Qed.

(** [map_private_user_page] from a table of any level. *)
Fixpoint map_level (l : nat) (f v private_frame : Z) : M (@Build A) (result () AddressSpaceError) :=
  match l with
  | O =>
    m ← mem;
    set_mem (set_word m (entry_addr offset f (table_index 0 v)) (entry_with_frame private_frame (flag_bits user_data_page_flags)));;
    mret (Ok ())
  | S k =>
    try g := clone_child_table offset f (table_index l v) in
    map_level k g v private_frame
  end.

Lemma map_private_user_page_level p4 v pf : map_private_user_page offset p4 v pf = map_level 3 p4 v pf.
Proof. done. Qed.

Definition data_entry (frame : Z) : Z := entry_with_frame frame (flag_bits user_data_page_flags).

Lemma flag_bits_valid fl : valid_flags (flag_bits fl).
Proof. destruct fl as [[] [] [] []]; split; vm_compute; done. Qed.

Lemma data_entry_range f : valid_frame f -> 0 <= data_entry f < 2 ^ 64.
Proof. intros Hf. apply entry_with_frame_range; [done|apply flag_bits_valid]. Qed.

(** What mapping a page from table [f] at level [l] does, when [frames] are the
    frames it takes from the allocator. *)
Record mapped (m m' : memory) (l : nat) (f : Z) (ix : nat -> Z) (private_frame : Z) (frames : list Z) : Prop := {
  mp_bytes : bytes_ok m';
  mp_outside : forall x, ~ in_frame f x -> Forall (fun n => ~ in_frame n x) frames -> m' x = m x;
  mp_path : path m' l f ix = f :: frames;
  mp_tail : forall ix' n, ix_ok ix' -> n ∈ tail (path m' l f ix') -> n ∈ frames \/ n ∈ tail (path m l f ix');
  mp_pos : forall ix' i n, ix_ok ix' -> path m' l f ix' !! i = Some n ->
    ((f :: frames) !! i = Some n /\ forall k, (l - i < k <= l)%nat -> ix k = ix' k) \/
    ((0 < i)%nat /\ path m l f ix' !! i = Some n);
  mp_leaf : forall ix', ix_ok ix' -> agreeb l ix ix' = true ->
    leaf m' l f ix' = mkLeaf 0 (data_entry private_frame) (lf_user (leaf m l f ix)) true;
  mp_leaves : forall ix', ix_ok ix' -> agreeb l ix ix' = false -> leaf_le (leaf m l f ix') (leaf m' l f ix');
}.

Lemma mapped_base m f ix pf :
  bytes_ok m -> valid_frame f -> valid_frame pf -> ix_ok ix ->
  mapped m (set_word m (entry_addr offset f (ix O)) (data_entry pf)) 0 f ix pf [].
Proof.
  intros Hm Hf Hpf Hix. split.
  - by apply set_word_ok.
  - intros x Hx _. apply set_entry_outside; [apply Hix|done].
  - done.
  - intros ix' n _ Hn. by apply not_elem_of_nil in Hn.
  - intros ix' i n _ Hn. left. split; [exact Hn|lia].
  - intros ix' _ He%Z.eqb_eq. simpl. by rewrite <-He, set_entry_same by (by apply data_entry_range).
  - intros ix' Hix' Hne%Z.eqb_neq. simpl. rewrite set_entry_other; [done|apply Hix|apply Hix'|done].
Qed.

Section map_step.
Context (m m1 m2 : memory) (l : nat) (f g n pf : Z) (ix : nat -> Z) (frames : list Z).
Hypothesis Hm : bytes_ok m.
Hypothesis Hf : valid_frame f.
Hypothesis Hpf : valid_frame pf.
Hypothesis Hix : ix_ok ix.
Hypothesis Hval : Forall valid_frame (n :: frames).
Hypothesis Hnodup : NoDup (n :: frames).
Hypothesis Hfresh : forall ix', ix_ok ix' -> Forall (fun h => h <> f /\ h ∉ n :: frames) (tail (path m (S l) f ix')).
Hypothesis Hff : f ∉ n :: frames.
Hypothesis Hg : entry_frame (table_entry m offset f (ix (S l))) = Ok g.
Hypothesis Hcl : cloned m m1 f (ix (S l)) g n.

(** The tables below [g] are those below [f] on a path through its entry. *)
Lemma below_child ix' h : ix_ok ix' -> h ∈ path m l g ix' -> h <> f /\ h ∉ n :: frames.
Proof.
  intros Hix' Hh. pose proof (Hfresh (set_index (S l) (ix (S l)) ix') (set_index_ok _ _ _ (Hix _) Hix')) as Hfr.
  cbn [path tail] in Hfr. rewrite set_index_same, Hg in Hfr.
  rewrite (path_ext m l g _ ix') in Hfr by (intros; apply set_index_below; lia).
  rewrite Forall_forall in Hfr. by apply Hfr.
Qed.

Lemma untouched_by_clone h : valid_frame h -> h <> f -> h <> n -> same_frame m m1 h.
Proof.
  intros Hh H2 H3 x Hx. apply (cl_outside _ _ _ _ _ _ Hcl); [by apply (frames_apart h f)|].
  apply (frames_apart h n); try done. by inversion Hval.
Qed.

Lemma child_valid : valid_frame g.
Proof. by apply entry_frame_ok in Hg as [? _]; [|apply table_entry_range]. Qed.

Lemma walk_clone ix' : ix_ok ix' ->
  path m1 l n ix' = n :: tail (path m l g ix') /\ leaf m1 l n ix' = leaf m l g ix'.
Proof.
  intros Hix'. apply walk_copy; [done|apply (cl_copy _ _ _ _ _ _ Hcl)|]. intros h Hh.
  assert (h ∈ path m l g ix') as Hin by (rewrite path_head; by constructor).
  destruct (below_child ix' h Hix' Hin) as [H2 H3]. apply untouched_by_clone; [|done|set_solver].
  pose proof (path_valid m l g ix' Hm child_valid) as Hv. rewrite Forall_forall in Hv. by apply Hv.
Qed.

Hypothesis Hmp : mapped m1 m2 l n ix pf frames.

Lemma untouched h : valid_frame h -> h <> f -> h ∉ n :: frames -> same_frame m m2 h.
Proof.
  intros Hh H2 H3 x Hx. rewrite (mp_outside _ _ _ _ _ _ _ Hmp).
  - apply (untouched_by_clone h); (done || set_solver).
  - apply (frames_apart h n); (done || set_solver || by inversion Hval).
  - apply Forall_forall. intros k Hk. rewrite Forall_forall in Hval.
    apply (frames_apart h k); (done || set_solver || (apply Hval; by constructor)).
Qed.

Lemma parent_entry j : 0 <= j < 512 -> table_entry m2 offset f j = table_entry m1 offset f j.
Proof.
  intros Hj. apply table_entry_same; [|done]. intros x Hx. apply (mp_outside _ _ _ _ _ _ _ Hmp).
  - apply (frames_apart f n); (done || set_solver || by inversion Hval).
  - apply Forall_forall. intros k Hk. rewrite Forall_forall in Hval.
    apply (frames_apart f k); (done || set_solver || (apply Hval; by constructor)).
Qed.

(** Entries of [f] other than the cloned one lead where they did. *)
Lemma walk_beside ix' : ix_ok ix' -> ix (S l) <> ix' (S l) ->
  path m2 (S l) f ix' = path m (S l) f ix' /\ leaf m2 (S l) f ix' = leaf m (S l) f ix'.
Proof.
  intros Hix' Hne. pose proof (Hfresh ix' Hix') as Hfr. cbn [path leaf tail] in *.
  rewrite parent_entry by apply Hix'. rewrite (cl_other _ _ _ _ _ _ Hcl) by (apply Hix' || congruence).
  destruct (entry_frame (table_entry m offset f (ix' (S l)))) as [h|] eqn:E; [|done].
  assert (valid_frame h) as Hh by (by apply entry_frame_ok in E as [? _]; [|apply table_entry_range]).
  destruct (walk_same m m2 l h ix' Hix') as [-> ->]; [|done].
  intros k Hk. rewrite Forall_forall in Hfr. destruct (Hfr k Hk). apply untouched; try done.
  pose proof (path_valid m l h ix' Hm Hh) as Hv. rewrite Forall_forall in Hv. by apply Hv.
Qed.

Lemma mapped_step : mapped m m2 (S l) f ix pf (n :: frames).
Proof.
  assert (forall ix', ix_ok ix' -> ix (S l) = ix' (S l) ->
    path m2 (S l) f ix' = f :: path m2 l n ix' /\
    leaf m2 (S l) f ix' = (let r := leaf m2 l n ix' in
      mkLeaf (lf_level r) (lf_entry r)
        (contains (entry_flags (table_entry m offset f (ix (S l)))) USER_ACCESSIBLE && lf_user r) (lf_writable r))) as Hthrough.
  { intros ix' Hix' He. cbn [path leaf]. rewrite <-He, parent_entry by apply Hix.
    rewrite (cl_entry _ _ _ _ _ _ Hcl), (cl_flags _ _ _ _ _ _ Hcl).
    destruct (cloned_flags_spec (entry_flags (table_entry m offset f (ix (S l))))) as (_ & -> & -> & _). done. }
  split.
  - apply (mp_bytes _ _ _ _ _ _ _ Hmp).
  - intros x Hx Hfr. inversion Hfr; subst. rewrite (mp_outside _ _ _ _ _ _ _ Hmp) by done.
    by apply (cl_outside _ _ _ _ _ _ Hcl).
  - destruct (Hthrough ix Hix eq_refl) as [-> _]. by rewrite (mp_path _ _ _ _ _ _ _ Hmp).
  - intros ix' k Hix' Hk. destruct (Z.eq_dec (ix (S l)) (ix' (S l))) as [He|Hne].
    + destruct (Hthrough ix' Hix' He) as [E _]. rewrite E in Hk. cbn [tail] in Hk. rewrite path_head in Hk.
      apply elem_of_cons in Hk as [->|Hk]; [left; constructor|].
      destruct (mp_tail _ _ _ _ _ _ _ Hmp ix' k Hix' Hk) as [Hin|Hin]; [left; by constructor|].
      right. destruct (walk_clone ix' Hix') as [E' _]. rewrite E' in Hin. cbn [tail] in Hin.
      cbn [path tail]. rewrite <-He, Hg, path_head. by constructor.
    + destruct (walk_beside ix' Hix' Hne) as [E _]. rewrite E in Hk. by right.
  - intros ix' i k Hix' Hk. destruct (Z.eq_dec (ix (S l)) (ix' (S l))) as [He|Hne].
    + destruct (Hthrough ix' Hix' He) as [E _]. rewrite E in Hk. destruct i as [|i]; [left; split; [exact Hk|lia]|].
      cbn in Hk. destruct (mp_pos _ _ _ _ _ _ _ Hmp ix' i k Hix' Hk) as [[Hin Hag]|[Hi Hin]].
      * left. split; [exact Hin|]. intros j Hj. destruct (Nat.eq_dec j (S l)) as [->|]; [done|]. apply Hag. lia.
      * right. split; [lia|]. destruct (walk_clone ix' Hix') as [E' _]. rewrite E' in Hin. destruct i as [|i]; [lia|].
        cbn [path]. rewrite <-He, Hg. cbn in Hin |- *. by rewrite path_head.
    + destruct (walk_beside ix' Hix' Hne) as [E _]. rewrite E in Hk. destruct i as [|i]; [|right; split; [lia|done]].
      left. split; [exact Hk|lia].
  - intros ix' Hix' Hag. cbn [agreeb] in Hag. apply andb_true_iff in Hag as [He%Z.eqb_eq Hag].
    destruct (Hthrough ix' Hix' He) as [_ ->]. rewrite (mp_leaf _ _ _ _ _ _ _ Hmp ix' Hix' Hag). cbn [lf_level lf_entry lf_user lf_writable].
    f_equal. destruct (walk_clone ix Hix) as [_ ->]. cbn [leaf]. by rewrite Hg.
  - intros ix' Hix' Hag. cbn [agreeb] in Hag. destruct (Z.eqb_spec (ix (S l)) (ix' (S l))) as [He|Hne]; cbn [andb] in Hag.
    + destruct (Hthrough ix' Hix' He) as [_ ->]. pose proof (mp_leaves _ _ _ _ _ _ _ Hmp ix' Hix' Hag) as Hle.
      destruct (walk_clone ix' Hix') as [_ E]. rewrite E in Hle. cbn [leaf]. rewrite <-He, Hg.
      destruct Hle as (E1 & E2 & E3 & E4). repeat split; cbn [lf_level lf_entry lf_user lf_writable]; try congruence.
      intros Hw%andb_true_iff. apply E4, Hw.
    + destruct (walk_beside ix' Hix' Hne) as [_ ->]. done.
Qed.
End map_step.

Lemma map_level_spec l f a m v pf frames rest :
  bytes_ok m -> valid_frame f -> valid_frame pf -> Forall valid_frame frames -> NoDup (f :: frames) ->
  length frames = l -> remaining a = frames ++ rest ->
  (forall ix, ix_ok ix -> Forall (fun h => h <> f /\ h ∉ frames) (tail (path m l f ix))) ->
  lf_level (leaf m l f (indexes v)) = O ->
  exists a' m', map_level l f v pf (a, m) = Done (Ok (), (a', m')) /\ remaining a' = rest /\
                mapped m m' l f (indexes v) pf frames.
Proof.
  revert f a m frames. induction l as [|l IH]; intros f a m frames Hm Hf Hpf Hval Hnd Hlen Hrem Hfresh Hlvl.
  - destruct frames; [|done]. exists a, (set_word m (entry_addr offset f (table_index 0 v)) (data_entry pf)).
    split_and!; [done|done|]. apply (mapped_base m f (indexes v)); (done || apply indexes_ok).
  - destruct frames as [|n frames]; [done|]. injection Hlen as Hlen. pose proof (indexes_ok v) as Hix.
    apply NoDup_cons in Hnd as [Hff Hnd]. pose proof Hnd as [Hn Hnd']%NoDup_cons.
    pose proof Hval as [Hvn Hval']%Forall_cons.
    destruct (entry_frame (table_entry m offset f (indexes v (S l)))) as [g|e] eqn:Hg.
    2:{ cbn [leaf] in Hlvl. rewrite Hg in Hlvl. done. }
    destruct (clone_child_table_spec a m f (indexes v (S l)) g n (frames ++ rest)) as (a1 & m1 & E1 & Hr1 & Hcl); try done.
    { set_solver. }
    assert (forall ix, ix_ok ix -> path m1 l n ix = n :: tail (path m l g ix) /\ leaf m1 l n ix = leaf m l g ix) as Hw.
    { intros ix Hok. by apply (walk_clone m m1 l f g n pf (indexes v) frames). }
    destruct (IH n a1 m1 frames) as (a2 & m2 & E2 & Hr2 & Hmp); try done.
    + apply (cl_bytes _ _ _ _ _ _ Hcl).
    + intros ix Hok. destruct (Hw ix Hok) as [-> _]. cbn [tail]. apply Forall_forall. intros h Hh.
      destruct (below_child m l f g n (indexes v) frames Hix Hfresh Hg ix h Hok) as [_ Hnot]; [|set_solver].
      rewrite path_head. by constructor.
    + destruct (Hw (indexes v) Hix) as [_ ->]. cbn [leaf] in Hlvl. by rewrite Hg in Hlvl.
    + exists a2, m2. split_and!; [|done|by apply (mapped_step m m1 m2 l f g n pf)].
      cbn [map_level]. unfold indexes in E1. run. rewrite E1. exact E2.
Qed.

(** *** Building a private table *)

(** The tables on the walk of [v] are reached by no other walk before it
    parts from that of [v]. *)
Definition only_path (m : memory) (p4 v : Z) : Prop := forall ix i j n, ix_ok ix ->
  path m 3 p4 ix !! i = Some n -> path m 3 p4 (indexes v) !! j = Some n ->
  i = j /\ forall k, (3 - i < k <= 3)%nat -> ix k = indexes v k.

(** [p4] while it is built from the active table as it was in [m0]: [tables]
    and [data] are the frames taken so far, [pages] the pages mapped with their
    frames. *)
Record slot_inv (m0 : memory) (active p4 : Z) (tables data : list Z) (pages : list (Z * Z)) (m : memory) (a : A) : Prop := {
  si_bytes : bytes_ok m;
  si_valid : Forall valid_frame (tables ++ data ++ remaining a);
  si_nodup : NoDup (tables ++ data ++ remaining a);
  si_active : forall ix n, ix_ok ix -> n ∈ path m0 3 active ix -> n ∉ tables ++ data ++ remaining a;
  si_p4 : p4 ∈ tables;
  si_outside : forall x, Forall (fun n => ~ in_frame n x) tables -> m x = m0 x;
  si_paths : forall ix, ix_ok ix ->
    Forall (fun n => n <> p4 /\ (n ∈ tables \/ n ∈ path m0 3 active ix)) (tail (path m 3 p4 ix));
  si_pages : Forall (fun p => p.2 ∈ data /\
    leaf m 3 p4 (indexes p.1) = mkLeaf 0 (data_entry p.2) (lf_user (leaf m0 3 active (indexes p.1))) true /\
    path m 3 p4 (indexes p.1) ⊆ tables) pages;
  si_tree : Forall (fun p => only_path m p4 p.1) pages;
  si_rest : forall ix, ix_ok ix -> Forall (fun p => agreeb 3 (indexes p.1) ix = false) pages ->
    leaf_le (leaf m0 3 active ix) (leaf m 3 p4 ix);
}.

Lemma slot_inv_start m0 active p4 a :
  bytes_ok m0 -> valid_frame active -> valid_frame p4 -> Forall valid_frame (remaining a) -> NoDup (p4 :: remaining a) ->
  (forall ix n, ix_ok ix -> n ∈ path m0 3 active ix -> n ∉ p4 :: remaining a) ->
  slot_inv m0 active p4 [p4] [] [] (mem_move m0 (offset + p4) (offset + active) PAGE_SIZE) a.
Proof.
  intros Hm0 Hact Hp4 Hval Hnd Hfresh. set (m := mem_move _ _ _ _).
  assert (forall ix, ix_ok ix -> path m 3 p4 ix = p4 :: tail (path m0 3 active ix) /\ leaf m 3 p4 ix = leaf m0 3 active ix) as Hw.
  { intros ix Hix. apply walk_copy; [done| |].
    - intros i Hi. unfold table_entry, entry_addr. apply get_word_move. unfold PAGE_SIZE. lia.
    - intros g Hg x Hx. apply mem_move_outside.
      assert (g ∈ path m0 3 active ix) as Hin by (rewrite path_head; by constructor).
      pose proof (path_valid m0 3 active ix Hm0 Hact) as Hv. rewrite Forall_forall in Hv.
      pose proof (Hfresh ix g Hix Hin). assert (~ in_frame p4 x) as Hno; [|unfold in_frame in Hno; lia].
      apply (frames_apart g p4); (done || set_solver || by apply Hv). }
  split; try done.
  - by apply mem_move_ok.
  - by constructor.
  - by apply list_elem_of_singleton.
  - intros x [Hx _]%Forall_cons. apply mem_move_outside. unfold in_frame in Hx. lia.
  - intros ix Hix. destruct (Hw ix Hix) as [-> _]. cbn [tail]. apply Forall_forall. intros n Hn.
    assert (n ∈ path m0 3 active ix) as Hin by (rewrite path_head; by constructor).
    split; [|by right]. pose proof (Hfresh ix n Hix Hin). set_solver.
  - intros ix Hix _. by destruct (Hw ix Hix) as [_ ->].
Qed.

Lemma only_path_step m0 active p4 tables data pages m m' a v pf new w :
  slot_inv m0 active p4 tables data pages m a -> mapped m m' 3 p4 (indexes v) pf new ->
  NoDup (p4 :: new) -> (forall n, n ∈ new -> n ∉ tables) ->
  (forall ix n, ix_ok ix -> n ∈ path m0 3 active ix -> n ∉ new) ->
  w = v \/ (exists f, (w, f) ∈ pages) -> only_path m' p4 w.
Proof.
  intros Hinv Hmp Hnd Hnew Hact Hw ix i j n Hix Hi Hj.
  assert (forall ix i, ix_ok ix -> (0 < i)%nat -> path m 3 p4 ix !! i = Some n -> n ∉ p4 :: new) as Hold.
  { intros ix' i' Hix' Hi' Hin Hn. pose proof (si_paths _ _ _ _ _ _ _ _ Hinv ix' Hix') as Hp. rewrite Forall_forall in Hp.
    destruct (Hp n) as [Hne Hor].
    - rewrite path_head in Hin. destruct i' as [|i']; [lia|]. exact (list_elem_of_lookup_2 (tail (path m 3 p4 ix')) i' n Hin).
    - apply elem_of_cons in Hn as [->|Hn]; [done|]. destruct Hor as [?|?]; [by apply (Hnew n)|by apply (Hact ix' n)]. }
  destruct (mp_pos _ _ _ _ _ _ _ Hmp ix i n Hix Hi) as [[Ni Ai]|[Pi Oi]];
    destruct (mp_pos _ _ _ _ _ _ _ Hmp (indexes w) j n (indexes_ok w) Hj) as [[Nj Aj]|[Pj Oj]].
  - pose proof (NoDup_lookup _ _ _ _ Hnd Ni Nj) as ->. split; [done|]. intros k Hk. rewrite <-Ai, <-Aj by done. done.
  - exfalso. apply (Hold _ _ (indexes_ok w) Pj Oj). by apply list_elem_of_lookup_2 in Ni.
  - exfalso. apply (Hold _ _ Hix Pi Oi). by apply list_elem_of_lookup_2 in Nj.
  - destruct Hw as [->|[f Hf]].
    + exfalso. rewrite (mp_path _ _ _ _ _ _ _ Hmp) in Hj. apply (Hold _ _ Hix Pi Oi). by apply list_elem_of_lookup_2 in Hj.
    + pose proof (si_tree _ _ _ _ _ _ _ _ Hinv) as Ht. rewrite Forall_forall in Ht. by apply (Ht _ Hf ix i j n).
Qed.

Lemma slot_inv_move m0 active p4 tables data pages m a a' new pf :
  slot_inv m0 active p4 tables data pages m a -> remaining a = pf :: new ++ remaining a' ->
  Forall valid_frame ((tables ++ new) ++ (data ++ [pf]) ++ remaining a') /\
  NoDup ((tables ++ new) ++ (data ++ [pf]) ++ remaining a') /\
  (forall ix n, ix_ok ix -> n ∈ path m0 3 active ix -> n ∉ (tables ++ new) ++ (data ++ [pf]) ++ remaining a').
Proof.
  intros Hinv Hrem.
  assert (tables ++ data ++ remaining a ≡ₚ (tables ++ new) ++ (data ++ [pf]) ++ remaining a') as HP.
  { rewrite Hrem. rewrite <-!app_assoc. cbn [app]. rewrite (Permutation_app_swap_app new data). solve_Permutation. }
  rewrite <-HP. split_and!; [apply (si_valid _ _ _ _ _ _ _ _ Hinv)|apply (si_nodup _ _ _ _ _ _ _ _ Hinv)|].
  intros ix n Hix Hn. rewrite <-HP. by apply (si_active _ _ _ _ _ _ _ _ Hinv ix).
Qed.

(** Mapping one more page. *)
Lemma slot_inv_step m0 active p4 tables data pages m m' a a' v pf new :
  slot_inv m0 active p4 tables data pages m a -> remaining a = pf :: new ++ remaining a' ->
  Forall (fun p => agreeb 3 (indexes p.1) (indexes v) = false) pages ->
  mapped m m' 3 p4 (indexes v) pf new ->
  slot_inv m0 active p4 (tables ++ new) (data ++ [pf]) (pages ++ [(v, pf)]) m' a'.
Proof.
  intros Hinv Hrem Hv Hmp. destruct (slot_inv_move _ _ _ _ _ _ _ _ _ _ _ Hinv Hrem) as (Hval & Hnd & Hact).
  split; try done.
  - apply (mp_bytes _ _ _ _ _ _ _ Hmp).
  - apply elem_of_app. left. apply (si_p4 _ _ _ _ _ _ _ _ Hinv).
  - intros x [Hx1 Hx2]%Forall_app. rewrite (mp_outside _ _ _ _ _ _ _ Hmp); [by apply (si_outside _ _ _ _ _ _ _ _ Hinv)| |done].
    rewrite Forall_forall in Hx1. apply Hx1, (si_p4 _ _ _ _ _ _ _ _ Hinv).
  - intros ix Hix. apply Forall_forall. intros n Hn. apply (mp_tail _ _ _ _ _ _ _ Hmp) in Hn as [Hn|Hn]; [| |done].
    + split; [|left; rewrite elem_of_app; by right]. intros ->. pose proof (si_nodup _ _ _ _ _ _ _ _ Hinv) as HN. rewrite Hrem in HN.
      apply NoDup_app in HN as (_ & HN & _). apply (HN p4 (si_p4 _ _ _ _ _ _ _ _ Hinv)).
      rewrite elem_of_app. right. constructor. rewrite elem_of_app. by left.
    + pose proof (si_paths _ _ _ _ _ _ _ _ Hinv ix Hix) as Hp. rewrite Forall_forall in Hp.
      destruct (Hp n Hn) as [? [?|?]]; (split; [done|]); [left; rewrite elem_of_app; by left|by right].
  - apply Forall_app. split.
    + apply Forall_forall. intros [w pw] Hin. pose proof (si_pages _ _ _ _ _ _ _ _ Hinv) as Hp.
      rewrite Forall_forall in Hp, Hv. destruct (Hp _ Hin) as (Hd & Hl & Ht). cbn [fst snd] in *.
      split_and!; [rewrite elem_of_app; by left| |].
      * destruct (mp_leaves _ _ _ _ _ _ _ Hmp (indexes w) (indexes_ok w)) as (E1 & E2 & E3 & E4);
          [rewrite agreeb_sym; by apply (Hv (w, pw))|].
        rewrite Hl in E1, E2, E3, E4. cbn [lf_level lf_entry lf_user lf_writable] in *.
        destruct (leaf m' 3 p4 (indexes w)). cbn [lf_level lf_entry lf_user lf_writable] in *. subst. by rewrite E4.
      * intros n Hn. rewrite path_head in Hn. apply elem_of_cons in Hn as [->|Hn].
        { apply elem_of_app. left. apply (si_p4 _ _ _ _ _ _ _ _ Hinv). }
        destruct (mp_tail _ _ _ _ _ _ _ Hmp (indexes w) n (indexes_ok w) Hn) as [H2|H2].
        -- rewrite elem_of_app. by right.
        -- apply elem_of_app. left. apply Ht. rewrite path_head. by constructor.
    + constructor; [|constructor]. cbn [fst snd]. split_and!; [rewrite elem_of_app; right; constructor| |].
      * rewrite (mp_leaf _ _ _ _ _ _ _ Hmp) by (apply indexes_ok || apply agreeb_refl).
        f_equal. symmetry. apply (si_rest _ _ _ _ _ _ _ _ Hinv); [apply indexes_ok|done].
      * rewrite (mp_path _ _ _ _ _ _ _ Hmp). intros n [->|Hn]%elem_of_cons; rewrite elem_of_app; [left|by right].
        apply (si_p4 _ _ _ _ _ _ _ _ Hinv).
  - assert (NoDup (p4 :: new) /\ forall n, n ∈ new -> n ∉ tables) as [Hnn Hnt].
    { pose proof (si_nodup _ _ _ _ _ _ _ _ Hinv) as HN. rewrite Hrem in HN. pose proof (si_p4 _ _ _ _ _ _ _ _ Hinv) as Hp4.
      apply NoDup_app in HN as (_ & Hd & HN). apply NoDup_app in HN as (_ & _ & HN). apply NoDup_cons in HN as [_ HN].
      apply NoDup_app in HN as (HN & _ & _).
      assert (forall n, n ∈ tables -> n ∉ new) as Hx.
      { intros n Hn Hin. apply (Hd n Hn). rewrite elem_of_app. right. constructor. rewrite elem_of_app. by left. }
      split; [apply NoDup_cons; split; [by apply Hx|done]|]. intros n Hn Ht. by apply (Hx n). }
    assert (forall w, w = v \/ (exists f, (w, f) ∈ pages) -> only_path m' p4 w) as Ho.
    { intros w Hw. apply (only_path_step m0 active p4 tables data pages m m' a v pf new w); try done.
      intros ix n Hix Hn Hin. apply (Hact ix n Hix Hn). rewrite !elem_of_app. tauto. }
    apply Forall_app. split; [apply Forall_forall; intros [w f] Hw; apply Ho; eauto|].
    constructor; [|constructor]. apply Ho. by left.
  - intros ix Hix [Hp Hn]%Forall_app. apply Forall_cons in Hn as [Hn _]. cbn [fst] in Hn.
    etransitivity; [by apply (si_rest _ _ _ _ _ _ _ _ Hinv)|]. by apply (mp_leaves _ _ _ _ _ _ _ Hmp).
Qed.

(** *** Mapping lists of pages *)

Definition page_number (v : Z) : Z := v / PAGE_SIZE.
Definition user_address (v : Z) : Prop := 0 <= v < 2 ^ 47.

Lemma table_index_div l v : 0 <= v -> table_index l v = page_number v / 512 ^ Z.of_nat l mod 512.
Proof.
  intros Hv. unfold table_index, page_number, PAGE_SIZE. change 511 with (Z.ones 9). rewrite Z.land_ones by lia.
  rewrite Z.shiftr_div_pow2 by lia. change (2 ^ 9) with 512. f_equal.
  rewrite Z.pow_add_r, Z.pow_mul_r by lia. change (2 ^ 12) with 4096. change (2 ^ 9) with 512.
  rewrite Z.div_div; [done|lia|]. apply Z.pow_pos_nonneg; lia.
Qed.

(** Two user addresses have the same four indexes when they are on the same page. *)
Lemma agreeb_page v v' : user_address v -> user_address v' ->
  agreeb 3 (indexes v) (indexes v') = (page_number v =? page_number v').
Proof.
  unfold user_address. intros Hv Hv'. cbn [agreeb]. unfold indexes. rewrite !table_index_div by lia.
  assert (forall w, 0 <= w < 2 ^ 47 -> 0 <= page_number w < 512 * 512 * 512 * 512) as Hr.
  { intros w Hw. unfold page_number, PAGE_SIZE. split; [apply Z.div_pos; lia|apply Z.div_lt_upper_bound; lia]. }
  pose proof (Hr v Hv) as Hp. pose proof (Hr v' Hv') as Hp'. clear Hr.
  generalize dependent (page_number v). generalize dependent (page_number v'). clear.
  intros q Hq p Hp. change (512 ^ Z.of_nat 3) with (512 * 512 * 512). change (512 ^ Z.of_nat 2) with (512 * 512).
  change (512 ^ Z.of_nat 1) with 512. change (512 ^ Z.of_nat 0) with 1. rewrite !Z.div_1_r, <-!Z.div_div by lia.
  destruct (Z.eqb_spec p q) as [->|Hne]; [by rewrite !Z.eqb_refl|].
  rewrite !andb_false_iff, !Z.eqb_neq.
  pose proof (Z.div_mod p 512). pose proof (Z.div_mod q 512).
  pose proof (Z.div_mod (p / 512) 512). pose proof (Z.div_mod (q / 512) 512).
  pose proof (Z.div_mod (p / 512 / 512) 512). pose proof (Z.div_mod (q / 512 / 512) 512).
  assert (forall z, 0 <= z < 512 * 512 * 512 * 512 -> 0 <= z / 512 / 512 / 512 < 512) as Hd.
  { intros z Hz. rewrite !Z.div_div by lia. split; [apply Z.div_pos; lia|apply Z.div_lt_upper_bound; lia]. }
  pose proof (Z.mod_small (p / 512 / 512 / 512) 512 (Hd p Hp)). pose proof (Z.mod_small (q / 512 / 512 / 512) 512 (Hd q Hq)).
  lia.
Qed.

Definition distinct_pages (vs : list Z) : Prop := Forall user_address vs /\ NoDup (map page_number vs).

(** The page of [v] has a table entry in the active table. *)
Definition page_present (m0 : memory) (active v : Z) : Prop := lf_level (leaf m0 3 active (indexes v)) = O.

Lemma distinct_agreeb vs v rest :
  distinct_pages (vs ++ v :: rest) -> Forall (fun w => agreeb 3 (indexes w) (indexes v) = false) vs.
Proof.
  intros [Hu Hn]. apply Forall_forall. intros w Hw. rewrite map_app in Hn. apply NoDup_app in Hn as (_ & Hn & _).
  apply Forall_app in Hu as [Hu1 Hu2]. rewrite Forall_forall in Hu1. apply Forall_cons in Hu2 as [Hv _].
  rewrite agreeb_page by (done || by apply Hu1). apply Z.eqb_neq. intros E.
  apply (Hn (page_number w)); [apply elem_of_map; eauto|]. rewrite E. constructor.
Qed.

Lemma map_private_pages_spec m0 active p4 vs tables data pages m a :
  slot_inv m0 active p4 tables data pages m a -> distinct_pages (map fst pages ++ vs) ->
  Forall (page_present m0 active) vs -> (4 * length vs <= length (remaining a))%nat ->
  exists frames new a' m', map_private_pages offset p4 vs (a, m) = Done (Ok frames, (a', m')) /\
    length frames = length vs /\ length new = (3 * length vs)%nat /\ remaining a ≡ₚ new ++ frames ++ remaining a' /\
    slot_inv m0 active p4 (tables ++ new) (data ++ frames) (pages ++ zip vs frames) m' a'.
Proof.
  revert tables data pages m a. induction vs as [|v vs IH]; intros tables data pages m a Hinv Hd Hpr Hlen.
  - exists [], [], a, m. cbn [zip]. by rewrite !app_nil_r.
  - apply Forall_cons in Hpr as [Hv Hpr]. cbn [length] in Hlen.
    destruct (remaining a) as [|pf [|n1 [|n2 [|n3 rest]]]] eqn:Hrem; cbn [length] in Hlen; try lia.
    destruct (allocate_Some a pf _ Hrem) as (a1 & Ea & Hr1).
    pose proof (distinct_agreeb _ _ _ Hd) as Hag. rewrite Forall_map in Hag.
    pose proof (si_valid _ _ _ _ _ _ _ _ Hinv) as Hval. pose proof (si_nodup _ _ _ _ _ _ _ _ Hinv) as Hnd.
    rewrite Hrem in Hval, Hnd. apply Forall_app in Hval as [Hvt Hval]. apply Forall_app in Hval as [_ Hval].
    apply NoDup_app in Hnd as (_ & Hnt & Hnd). apply NoDup_app in Hnd as (_ & _ & Hnd).
    pose proof (si_p4 _ _ _ _ _ _ _ _ Hinv) as Hp4.
    assert (forall n, n ∈ tables -> n ∉ [n1; n2; n3]) as Hnew.
    { intros n Hn Hin. apply (Hnt n Hn). rewrite elem_of_app. right. constructor.
      change (n1 :: n2 :: n3 :: rest) with ([n1; n2; n3] ++ rest). rewrite elem_of_app. by left. }
    destruct (map_level_spec 3 p4 a1 m v pf [n1; n2; n3] rest) as (a2 & m2 & E2 & Hr2 & Hmp); try done.
    { apply (si_bytes _ _ _ _ _ _ _ _ Hinv). }
    { rewrite Forall_forall in Hvt. by apply Hvt. }
    { by apply Forall_cons in Hval as [? _]. }
    { apply Forall_cons in Hval as [_ Hval]. by apply (Forall_app _ [n1; n2; n3] rest) in Hval as [? _]. }
    { apply NoDup_cons. split; [by apply Hnew|]. apply NoDup_cons in Hnd as [_ Hnd].
      change (n1 :: n2 :: n3 :: rest) with ([n1; n2; n3] ++ rest) in Hnd. by apply NoDup_app in Hnd as (? & _). }
    { intros ix Hix. apply (Forall_impl _ _ _ (si_paths _ _ _ _ _ _ _ _ Hinv ix Hix)). intros n [Hn [Hin|Hin]].
      - split; [done|by apply Hnew].
      - split; [done|]. intros Hin'. apply (si_active _ _ _ _ _ _ _ _ Hinv ix n Hix Hin). rewrite Hrem.
        rewrite !elem_of_app. right. right. constructor. change (n1 :: n2 :: n3 :: rest) with ([n1; n2; n3] ++ rest).
        rewrite elem_of_app. by left. }
    { destruct (si_rest _ _ _ _ _ _ _ _ Hinv (indexes v) (indexes_ok v) Hag) as (<- & _). exact Hv. }
    pose proof (slot_inv_step m0 active p4 tables data pages m m2 a a2 v pf [n1; n2; n3] Hinv) as Hinv2.
    rewrite Hr2 in Hinv2. specialize (Hinv2 Hrem Hag Hmp).
    destruct (IH _ _ _ _ _ Hinv2) as (frames & new & a3 & m3 & E3 & Hl3 & Hn3 & Hr3 & Hinv3); [|done|rewrite Hr2; lia|].
    { rewrite map_app. cbn [map fst]. by rewrite <-app_assoc. }
    exists (pf :: frames), ([n1; n2; n3] ++ new), a3, m3. split_and!.
    + cbn [map_private_pages]. unfold alloc at 1. run. rewrite Ea. rewrite map_private_user_page_level.
      rewrite E2. cbn beta iota. rewrite E3. done.
    + cbn [length]. lia.
    + cbn [length app]. lia.
    + rewrite Hr2 in Hr3. rewrite Hr3. solve_Permutation.
    + cbn [zip zip_with]. rewrite <-!app_assoc in Hinv3. exact Hinv3.
Qed.

Definition stack_pages (i : nat) : list Z :=
  map (fun p => (stack_range_for_slot i).1 + Z.of_nat p * PAGE_SIZE) (seq 0 PRIVATE_STACK_PAGE_COUNT).

Lemma map_stack_slots_spec m0 active p4 slots tables data pages m a :
  slot_inv m0 active p4 tables data pages m a -> distinct_pages (map fst pages ++ flat_map stack_pages slots) ->
  Forall (page_present m0 active) (flat_map stack_pages slots) ->
  (16 * length slots <= length (remaining a))%nat ->
  exists frames new a' m', map_stack_slots offset p4 slots (a, m) = Done (Ok frames, (a', m')) /\
    Forall (fun l => length l = PRIVATE_STACK_PAGE_COUNT) frames /\ length frames = length slots /\
    length new = (12 * length slots)%nat /\ remaining a ≡ₚ new ++ concat frames ++ remaining a' /\
    slot_inv m0 active p4 (tables ++ new) (data ++ concat frames)
      (pages ++ zip (flat_map stack_pages slots) (concat frames)) m' a'.
Proof.
  revert tables data pages m a. induction slots as [|i slots IH]; intros tables data pages m a Hinv Hd Hpr Hlen.
  - exists [], [], a, m. cbn [zip flat_map concat]. by rewrite !app_nil_r.
  - cbn [flat_map length] in *. apply Forall_app in Hpr as [Hpi Hpr].
    assert (length (stack_pages i) = 4%nat) as H4 by (unfold stack_pages; by rewrite length_map, length_seq).
    destruct (map_private_pages_spec m0 active p4 (stack_pages i) tables data pages m a Hinv) as
      (frames & new & a1 & m1 & E1 & Hl1 & Hn1 & Hr1 & Hinv1); [|done|lia|].
    { rewrite app_assoc in Hd. destruct Hd as [Hu Hn]. split; [by apply Forall_app in Hu as [? _]|].
      rewrite map_app in Hn. by apply NoDup_app in Hn as [? _]. }
    assert (length (remaining a1) = length (remaining a) - 16)%nat as Hlen1.
    { rewrite Hr1, !length_app. lia. }
    destruct (IH _ _ _ _ _ Hinv1) as (rest & new' & a2 & m2 & E2 & Hf2 & Hl2 & Hn2 & Hr2 & Hinv2); [|done|lia|].
    { rewrite map_app, fst_zip by lia. by rewrite <-app_assoc. }
    exists (frames :: rest), (new ++ new'), a2, m2. split_and!.
    + cbn [map_stack_slots]. destruct (stack_range_for_slot i) as [start top] eqn:Es.
      unfold stack_pages in E1. rewrite Es in E1. cbn [fst] in E1. run. rewrite E1. cbn beta iota. rewrite E2. done.
    + constructor; [by rewrite Hl1|done].
    + cbn [length]. lia.
    + rewrite length_app. cbn [length]. lia.
    + cbn [concat]. rewrite Hr1, Hr2. solve_Permutation.
    + cbn [concat]. rewrite <-!app_assoc in Hinv2. rewrite zip_with_app by lia. exact Hinv2.
Qed.

(** The pages of a slot, in the order of its frames. *)
Definition slot_pages (count : nat) : list Z :=
  map program_page (seq 0 count) ++ flat_map stack_pages (seq 0 PRIVATE_STACK_SLOT_COUNT).

Definition slot_frames (s : PreparedP4Slot) : list Z :=
  take (sl_program_frame_count s) (sl_program_frames s) ++ concat (sl_stack_frames s).

Definition slot_shape (s : PreparedP4Slot) : Prop :=
  length (sl_program_frames s) = MAX_PRIVATE_PROGRAM_PAGE_COUNT /\
  (sl_program_frame_count s <= MAX_PRIVATE_PROGRAM_PAGE_COUNT)%nat /\
  length (sl_stack_frames s) = PRIVATE_STACK_SLOT_COUNT /\
  Forall (fun l => length l = PRIVATE_STACK_PAGE_COUNT) (sl_stack_frames s) /\
  length (sl_stack_in_use s) = PRIVATE_STACK_SLOT_COUNT.

Lemma program_pages_sublist count : (count <= MAX_PRIVATE_PROGRAM_PAGE_COUNT)%nat ->
  slot_pages count `sublist_of` slot_pages MAX_PRIVATE_PROGRAM_PAGE_COUNT.
Proof.
  intros Hc. unfold slot_pages. apply sublist_app; [|done].
  replace MAX_PRIVATE_PROGRAM_PAGE_COUNT with (count + (MAX_PRIVATE_PROGRAM_PAGE_COUNT - count))%nat by lia.
  rewrite seq_app, map_app. apply sublist_inserts_r. done.
Qed.

Lemma all_pages_distinct : distinct_pages (slot_pages MAX_PRIVATE_PROGRAM_PAGE_COUNT).
Proof.
  split; [|apply (bool_decide_unpack _); vm_compute; exact I].
  apply (bool_decide_unpack _). unfold user_address. vm_compute. exact I.
Qed.

Lemma slot_pages_distinct count : (count <= MAX_PRIVATE_PROGRAM_PAGE_COUNT)%nat -> distinct_pages (slot_pages count).
Proof.
  intros Hc%program_pages_sublist. destruct all_pages_distinct as [Hu Hn]. split.
  - rewrite Forall_forall in *. intros v Hv. apply Hu. by apply (elem_of_submseteq _ _ _ Hv), sublist_submseteq.
  - assert (map page_number (slot_pages count) `sublist_of` map page_number (slot_pages MAX_PRIVATE_PROGRAM_PAGE_COUNT)) as Hs.
    { by apply (fmap_sublist page_number). }
    by apply (sublist_NoDup _ _ Hn).
Qed.
End walks.
