(* ===== verification/Heap.v ===== *)
(** * The kernel heap (allocator.rs, allocator/*.rs)

    Three allocators with the interface of [GlobalAlloc].  [FixedSize] is the one
    the kernel uses: nine lists of free blocks, whose links are stored in the
    blocks themselves, in front of the heap of the crate [linked_list_allocator],
    which is the class [FallbackHeap].  [LinkedList] and [Bump] are the other
    two.  Addresses and sizes are [usize]; a null pointer is 0. *)

From S2P Require Import Prelude Utf8 Ring3 Elf AddrSpace PageTables.

Record Layout := mkLayout { lo_size : Z; lo_align : Z }.

(** [align_up] *)
Definition align_up (addr align : Z) : outcome Z :=
  if u64_max <? addr + align then Panic else mret (Z.land (addr + align - 1) (u64_not (align - 1))).

Definition HEAP_START : Z := 0x444444440000.
Definition HEAP_SIZE : Z := 1024 * 1024.

(** ** A bump allocator *)

Module Bump.
Record BumpAllocator := mkBump { heap_start : Z; heap_end : Z; next : Z; allocations : Z }.

Definition new : BumpAllocator := mkBump 0 0 0 0.

Definition init (start size : Z) : M BumpAllocator () := fun b =>
  if u64_max <? start + size then Panic else Done ((), mkBump start (start + size) start (allocations b)).

Definition alloc (layout : Layout) : M BumpAllocator Z :=
  b ← get;
  alloc_start ← lift (align_up (next b) (lo_align layout));
  match u64_checked_add alloc_start (lo_size layout) with
  | None => mret 0
  | Some alloc_end =>
    if heap_end b <? alloc_end then mret 0 else
    if allocations b =? u64_max then panic else
    modify (fun b => mkBump (heap_start b) (heap_end b) alloc_end (allocations b + 1));;
    mret alloc_start
  end.

Definition dealloc (ptr : Z) (layout : Layout) : M BumpAllocator () :=
  b ← get;
  if allocations b =? 0 then panic else
  let n := allocations b - 1 in
  modify (fun b => mkBump (heap_start b) (heap_end b) (if n =? 0 then heap_start b else next b) n).
End Bump.

(** ** A list of free regions *)

Module LinkedList.
(** A node lies at the start of the region it describes. *)
Record ListNode := mkNode { start_addr : Z; size : Z }.
Definition NODE_SIZE : Z := 16.
Definition NODE_ALIGN : Z := 8.

Definition end_addr (n : ListNode) : outcome Z := if u64_max <? start_addr n + size n then Panic else mret (start_addr n + size n).

(** The nodes behind [head]. *)
Definition LinkedListAllocator : Type := list ListNode.
Definition new : LinkedListAllocator := [].

Definition add_free_region (addr size : Z) : M LinkedListAllocator () :=
  a ← lift (align_up addr NODE_ALIGN);
  if negb (a =? addr) then panic else
  if size <? NODE_SIZE then panic else
  modify (fun l => mkNode addr size :: l).

Definition init (heap_start heap_size : Z) : M LinkedListAllocator () := add_free_region heap_start heap_size.

(** [Ok] as [Some]. *)
Definition alloc_from_region (region : ListNode) (size align : Z) : outcome (option Z) :=
  alloc_start ← align_up (start_addr region) align;
  match u64_checked_add alloc_start size with
  | None => mret None
  | Some alloc_end =>
    region_end ← end_addr region;
    if region_end <? alloc_end then mret None else
    let excess_size := region_end - alloc_end in
    if (0 <? excess_size) && (excess_size <? NODE_SIZE) then mret None else mret (Some alloc_start)
  end.

(** The first region that fits is taken out of the list. *)
Fixpoint find_region (nodes : list ListNode) (size align : Z) : outcome (option (ListNode * Z) * list ListNode) :=
  match nodes with
  | [] => mret (None, [])
  | region :: rest =>
    o ← alloc_from_region region size align;
    match o with
    | Some alloc_start => mret (Some (region, alloc_start), rest)
    | None => '(r, rest) ← find_region rest size align; mret (r, region :: rest)
    end
  end.

Definition isize_max : Z := 2 ^ 63 - 1.

(** [align_to(8)] fails when the size rounded up to the alignment exceeds [isize::MAX]. *)
Definition size_align (layout : Layout) : outcome (Z * Z) :=
  let align := Z.max (lo_align layout) NODE_ALIGN in
  if isize_max - (align - 1) <? lo_size layout then Panic else
  let padded := (lo_size layout + align - 1) / align * align in
  mret (Z.max padded NODE_SIZE, align).

Definition alloc (layout : Layout) : M LinkedListAllocator Z :=
  '(size, align) ← lift (size_align layout);
  nodes ← get;
  '(r, nodes) ← lift (find_region nodes size align);
  modify (fun _ => nodes);;
  match r with
  | None => mret 0
  | Some (region, alloc_start) =>
    alloc_end ← expect (u64_checked_add alloc_start size);
    region_end ← lift (end_addr region);
    let excess_size := region_end - alloc_end in
    (if 0 <? excess_size then add_free_region alloc_end excess_size else mret ());;
    mret alloc_start
  end.

Definition dealloc (ptr : Z) (layout : Layout) : M LinkedListAllocator () :=
  '(size, _) ← lift (size_align layout);
  add_free_region ptr size.
End LinkedList.

(** ** Lists of blocks of fixed sizes *)

(** [linked_list_allocator::Heap]: it keeps its own lists in the memory it has
    not handed out. *)
Class FallbackHeap (H : Type) := {
  fb_empty : H;
  fb_init : Z -> Z -> M (H * memory) ();
  allocate_first_fit : Layout -> M (H * memory) (option Z);
  deallocate : Z -> Layout -> M (H * memory) ();
}.

Module FixedSize.
Definition BLOCK_SIZES : list Z := [8; 16; 32; 64; 128; 256; 512; 1024; 2048].

(** [size_of] and [align_of] of [ListNode], which is the pointer to the next. *)
Definition NODE_SIZE : Z := 8.

Section fixed.
Context {H : Type} `{FallbackHeap H}.

(** The allocator, the memory, and the statics [LIVE_ALLOCATED_BYTES] and
    [ALLOCATION_FAILURES]. *)
Record GlobalHeap := mkHeap {
  list_heads : list Z;
  fallback_allocator : H;
  heap_memory : memory;
  LIVE_ALLOCATED_BYTES : Z;
  ALLOCATION_FAILURES : Z }.
#[export] Instance eta_heap : Eta GlobalHeap := fun r =>
  mkHeap (list_heads r) (fallback_allocator r) (heap_memory r) (LIVE_ALLOCATED_BYTES r) (ALLOCATION_FAILURES r).

Definition new (m : memory) : GlobalHeap := mkHeap (replicate (length BLOCK_SIZES) 0) fb_empty m 0 0.

(** A call of the fallback allocator. *)
Definition on_fallback {A} (f : M (H * memory) A) : M GlobalHeap A := fun g =>
  match f (fallback_allocator g, heap_memory g) with
  | Done (a, (h, m)) => Done (a, g <| fallback_allocator := h |> <| heap_memory := m |>)
  | Panic => Panic
  end.

Definition init (heap_start heap_size : Z) : M GlobalHeap () := on_fallback (fb_init heap_start heap_size).

Definition fallback_alloc (layout : Layout) : M GlobalHeap Z :=
  r ← on_fallback (allocate_first_fit layout); mret (default 0 r).

Definition list_index (layout : Layout) : option nat :=
  let required_block_size := Z.max (lo_size layout) (lo_align layout) in
  position (fun s => required_block_size <=? s) BLOCK_SIZES.

(** [fetch_add] and [fetch_sub] wrap. *)
Definition record_alloc (layout : Layout) (ptr : Z) : M GlobalHeap () :=
  modify (fun g => if ptr =? 0 then g <| ALLOCATION_FAILURES ::= (fun n => (n + 1) mod 2 ^ 64) |>
                   else g <| LIVE_ALLOCATED_BYTES ::= (fun n => (n + lo_size layout) mod 2 ^ 64) |>).
Definition record_dealloc (layout : Layout) : M GlobalHeap () :=
  modify (fun g => g <| LIVE_ALLOCATED_BYTES ::= (fun n => (n - lo_size layout) mod 2 ^ 64) |>).

Definition set_head (i : nat) (p : Z) : M GlobalHeap () :=
  g ← get; l ← lift (index_set (list_heads g) i p); modify (fun g => g <| list_heads := l |>).
Definition head (i : nat) : M GlobalHeap Z := g ← get; lift (index (list_heads g) i).

Definition alloc (layout : Layout) : M GlobalHeap Z :=
  ptr ← match list_index layout with
        | Some i =>
          node ← head i;
          set_head i 0;;
          if node =? 0 then
            block_size ← lift (index BLOCK_SIZES i);
            fallback_alloc (mkLayout block_size block_size)
          else
            g ← get;
            let next := get_word (heap_memory g) node in
            modify (fun g => g <| heap_memory ::= (fun m => set_word m node 0) |>);;
            set_head i next;;
            mret node
        | None => fallback_alloc layout
        end;
  record_alloc layout ptr;;
  mret ptr.

Definition dealloc (ptr : Z) (layout : Layout) : M GlobalHeap () :=
  record_dealloc layout;;
  match list_index layout with
  | Some i =>
    next ← head i;
    set_head i 0;;
    block_size ← lift (index BLOCK_SIZES i);
    if block_size <? NODE_SIZE then panic else
    modify (fun g => g <| heap_memory ::= (fun m => set_word m ptr next) |>);;
    set_head i ptr
  | None =>
    if ptr =? 0 then panic else
    on_fallback (deallocate ptr layout)
  end.

Record HeapStats := mkHeapStats {
  hs_start : Z; hs_end : Z; hs_size : Z; hs_used_bytes : Z; hs_free_bytes : Z; hs_allocation_failures : Z }.

Definition heap_stats (g : GlobalHeap) : HeapStats :=
  let used_bytes := Z.min (LIVE_ALLOCATED_BYTES g) HEAP_SIZE in
  mkHeapStats HEAP_START (HEAP_START + HEAP_SIZE) HEAP_SIZE used_bytes (saturating_sub HEAP_SIZE used_bytes) (ALLOCATION_FAILURES g).
End fixed.
Arguments GlobalHeap : clear implicits.
End FixedSize.
