(* ===== verification/HeapProofs.v ===== *)
(** * The heap hands out disjoint blocks

    An interface of allocators, [AllocatorLaws]: what is handed out is aligned,
    lies in the heap and overlaps nothing that is still in use.  The three
    allocators of [Heap] implement it. *)

From S2P Require Import Prelude Utf8 Ring3 Elf AddrSpace PageTables PageTablesProofs Heap.

(** ** Alignment *)

Lemma and_not_ones y k : 0 <= y < 2 ^ 64 -> 0 <= k <= 64 -> Z.land y (u64_not (2 ^ k - 1)) = y / 2 ^ k * 2 ^ k.
Proof.
  intros Hy Hk. unfold u64_not. replace (2 ^ k - 1) with (Z.ones k) by (rewrite Z.ones_equiv; lia). change u64_max with (Z.ones 64).
  rewrite <-Z.shiftl_mul_pow2, <-Z.shiftr_div_pow2, <-Z.ldiff_ones_r by lia. apply Z.bits_inj'. intros n Hn.
  rewrite Z.land_spec, Z.lxor_spec, Z.ldiff_spec, !Z.testbit_ones by lia.
  rewrite (proj2 (Z.leb_le 0 n)) by lia. destruct (Z.testbit y n) eqn:E; [|done]. cbn [andb]. replace (n <? 64) with true.
  - by destruct (n <? k).
  - symmetry. apply Z.ltb_lt. destruct (Z.ltb_spec n 64) as [|Hge]; [done|]. exfalso.
    rewrite Z.bits_above_log2 in E; [done|lia|]. destruct (Z.eq_dec y 0) as [->|]; [cbn; lia|]. apply Z.log2_lt_pow2; [lia|].
    pose proof (Z.pow_le_mono_r 2 64 n). lia.
Qed.

Definition power_of_two (a : Z) : Prop := exists k, 0 <= k < 63 /\ a = 2 ^ k.

Definition aligned (p a : Z) : Prop := (a | p).

Lemma align_up_spec addr a : power_of_two a -> 0 <= addr <= 2 ^ 63 ->
  exists p, align_up addr a = Done p /\ aligned p a /\ addr <= p < addr + a.
Proof.
  intros (k & Hk & ->) Ha. assert (0 < 2 ^ k <= 2 ^ 62) as Hp by (split; [lia|apply Z.pow_le_mono_r; lia]). unfold align_up.
  replace (u64_max <? addr + 2 ^ k) with false by (symmetry; apply Z.ltb_ge; unfold u64_max; lia).
  eexists. split; [reflexivity|]. rewrite and_not_ones by lia. split; [by exists ((addr + 2 ^ k - 1) / 2 ^ k)|].
  pose proof (Z.div_mod (addr + 2 ^ k - 1) (2 ^ k)). pose proof (Z.mod_pos_bound (addr + 2 ^ k - 1) (2 ^ k)). lia.
Qed.

(** ** What an allocator promises *)

(** The bytes from an address, as many as the size. *)
Definition block : Type := Z * Z.
Definition in_block (a : Z) (b : block) : Prop := b.1 <= a < b.1 + b.2.
Definition apart (b c : block) : Prop := b.1 + b.2 <= c.1 \/ c.1 + c.2 <= b.1.
Definition within (lo hi : Z) (b : block) : Prop := lo <= b.1 /\ b.1 + b.2 <= hi.

Lemma apart_sym b c : apart b c -> apart c b.
Proof. unfold apart. lia. Qed.

(** Blocks that do not overlap. *)
Fixpoint all_apart (l : list block) : Prop :=
  match l with [] => True | b :: l => Forall (apart b) l /\ all_apart l end.

Lemma all_apart_perm l l' : l ≡ₚ l' -> all_apart l -> all_apart l'.
Proof.
  induction 1 as [|b l l' Hp IH|b c l|l1 l2 l3 _ IH1 _ IH2]; cbn; auto.
  - intros [Hb Hl]. split; [by rewrite <-Hp|auto].
  - intros [[Hbc Hb]%Forall_cons [Hc Hl]]. repeat split; auto. apply Forall_cons. split; [by apply apart_sym|done].
Qed.

Lemma all_apart_app l1 l2 : all_apart (l1 ++ l2) -> all_apart l1 /\ all_apart l2.
Proof. induction l1 as [|b l1 IH]; cbn; [done|]. intros [Hb Hl]. apply Forall_app in Hb as [? _]. naive_solver. Qed.

(** Parts of blocks. *)
Definition part_of (b c : block) : Prop := c.1 <= b.1 /\ b.1 + b.2 <= c.1 + c.2.

Lemma apart_part b b' c : part_of b' b -> apart b c -> apart b' c.
Proof. unfold part_of, apart. lia. Qed.

Lemma all_apart_part b b' l : part_of b' b -> all_apart (b :: l) -> all_apart (b' :: l).
Proof. intros Hp [Hb Hl]. split; [|done]. eapply Forall_impl; [exact Hb|]. intros c. by apply apart_part. Qed.

Lemma all_apart_split b b1 b2 l : part_of b1 b -> part_of b2 b -> apart b1 b2 -> all_apart (b :: l) -> all_apart (b1 :: b2 :: l).
Proof.
  intros H1 H2 H12 Hl. split; [|by apply (all_apart_part b)]. apply Forall_cons. split; [done|]. by apply (all_apart_part b b1 l H1).
Qed.

Lemma all_apart_map {A} (f g : A -> block) l : Forall (fun a => part_of (g a) (f a)) l -> all_apart (map f l) -> all_apart (map g l).
Proof.
  induction 1 as [|a l Ha Hl IH]; cbn; [done|]. intros [Hb Hr]. split; [|auto]. rewrite !Forall_map in *. rewrite Forall_forall in *.
  intros c Hc. specialize (Hb c Hc). specialize (Hl c Hc). unfold compose in *. unfold part_of, apart in *. lia.
Qed.

Record layout_ok (l : Layout) : Prop := {
  lk_align : power_of_two (lo_align l);
  lk_size : 0 < lo_size l;
  lk_fits : lo_size l + lo_align l <= 2 ^ 62;
}.

(** An allocation: its address and its layout. *)
Definition allocation : Type := Z * Layout.
Definition extent (a : allocation) : block := (a.1, lo_size a.2).

Record allocated (lo hi : Z) (live : list allocation) : Prop := {
  ac_aligned : Forall (fun a => aligned a.1 (lo_align a.2)) live;
  ac_within : Forall (fun a => within lo hi (extent a)) live;
  ac_apart : all_apart (map extent live);
}.

Section allocator.
Context {S : Type} (alloc : Layout -> M S Z) (dealloc : Z -> Layout -> M S ()) (lo hi : Z).

Record AllocatorLaws (inv : S -> list allocation -> Prop) : Prop := {
  al_live : forall s live, inv s live -> allocated lo hi live;
  al_perm : forall s live live', live ≡ₚ live' -> inv s live -> inv s live';
  al_alloc : forall s live l, inv s live -> layout_ok l ->
    wp (alloc l) (fun p s' => p = 0 /\ inv s' live \/ p <> 0 /\ inv s' ((p, l) :: live)) s;
  al_dealloc : forall s live p l, inv s ((p, l) :: live) -> wp (dealloc p l) (fun _ s' => inv s' live) s;
}.

(** ** Clients *)

(** A client asks for blocks and gives back blocks it has, by their position. *)
Inductive client_op := Ask (l : Layout) | GiveBack (n : nat).

Definition op_ok (o : client_op) : Prop := match o with Ask l => layout_ok l | GiveBack _ => True end.

Definition client_step (o : client_op) (live : list allocation) : M S (list allocation) :=
  match o with
  | Ask l => p ← alloc l; mret (if p =? 0 then live else (p, l) :: live)
  | GiveBack n => match live !! n with Some (p, l) => dealloc p l;; mret (delete n live) | None => mret live end
  end.

Fixpoint client_run (os : list client_op) (live : list allocation) : M S (list allocation) :=
  match os with [] => mret live | o :: os => live ← client_step o live; client_run os live end.

Context (inv : S -> list allocation -> Prop) (L : AllocatorLaws inv).

Lemma client_run_keeps os : Forall op_ok os -> forall live s, inv s live -> wp (client_run os live) (fun live' s' => inv s' live') s.
Proof using L.
  induction 1 as [|o os Ho _ IH]; intros live s Hs; cbn [client_run]; [by rewrite wp_ret|]. rewrite wp_bind.
  eapply wp_mono; [|intros live' s'; apply IH]. destruct o as [l|n]; cbn [client_step].
  - rewrite wp_bind. eapply wp_mono; [by apply (al_alloc _ L s live l)|]. intros p s' Hp. rewrite wp_ret.
    destruct Hp as [[-> Hi]|[Hp Hi]]; [done|]. by rewrite (proj2 (Z.eqb_neq p 0) Hp).
  - destruct (live !! n) as [[p l]|] eqn:E; [|by rewrite wp_ret]. rewrite wp_bind.
    eapply wp_mono; [apply (al_dealloc _ L s (delete n live) p l)|intros u s'; by rewrite wp_ret].
    apply (al_perm _ L s live); [by apply delete_Permutation|done].
Qed.
End allocator.

(** ** The list of free regions *)

Lemma power_divides a b : power_of_two a -> power_of_two b -> a <= b -> (a | b).
Proof.
  intros (j & Hj & ->) (k & Hk & ->) Hle. assert (j <= k) by (apply (Z.pow_le_mono_r_iff 2); lia).
  exists (2 ^ (k - j)). rewrite <-Z.pow_add_r by lia. f_equal. lia.
Qed.

Lemma power_8 : power_of_two 8.
Proof. exists 3. lia. Qed.

Lemma power_max a b : power_of_two a -> power_of_two b -> power_of_two (Z.max a b).
Proof. intros Ha Hb. by destruct (Z.max_spec a b) as [[_ ->]|[_ ->]]. Qed.

Section linked_list.
Context (lo hi : Z) (Hlo : 0 < lo) (Hhi : hi <= 2 ^ 63).

(** What an allocation takes. *)
Definition padded (l : Layout) : Z :=
  Z.max ((lo_size l + Z.max (lo_align l) 8 - 1) / Z.max (lo_align l) 8 * Z.max (lo_align l) 8) 16.

Lemma size_align_spec l : layout_ok l ->
  LinkedList.size_align l = Done (padded l, Z.max (lo_align l) 8) /\ power_of_two (Z.max (lo_align l) 8) /\ (lo_align l | Z.max (lo_align l) 8) /\
  (8 | padded l) /\ 16 <= padded l <= 2 ^ 63 /\ lo_size l <= padded l.
Proof using.
  intros [Ha Hs Hf]. pose proof (power_max _ _ Ha power_8) as Hp. set (a := Z.max (lo_align l) 8) in *.
  assert ((8 | a)) as H8 by (apply power_divides; [apply power_8|done|lia]).
  assert (0 < lo_align l) as Hpos by (destruct Ha as (k & ? & ->); lia). assert (0 < a <= lo_align l + 8) as Hr by lia. unfold LinkedList.size_align, LinkedList.isize_max, LinkedList.NODE_ALIGN, LinkedList.NODE_SIZE. fold a.
  replace (_ <? lo_size l) with false by (symmetry; apply Z.ltb_ge; lia). split; [done|]. split; [done|].
  split; [apply power_divides; [done|done|lia]|]. unfold padded. fold a. set (q := (lo_size l + a - 1) / a).
  pose proof (Z.div_mod (lo_size l + a - 1) a). pose proof (Z.mod_pos_bound (lo_size l + a - 1) a). fold q in H.
  split_and!; [|lia|lia|lia]. destruct (Z.max_spec (q * a) 16) as [[_ ->]|[_ ->]]; [by exists 2|by apply Z.divide_mul_r].
Qed.

Definition node_block (n : LinkedList.ListNode) : block := (LinkedList.start_addr n, LinkedList.size n).
Definition taken (a : allocation) : block := (a.1, padded a.2).

Record node_ok (n : LinkedList.ListNode) : Prop := {
  no_align : (8 | LinkedList.start_addr n);
  no_size : 16 <= LinkedList.size n;
  no_within : within lo hi (node_block n);
}.

Record list_inv (s : LinkedList.LinkedListAllocator) (live : list allocation) : Prop := {
  li_nodes : Forall node_ok s;
  li_live : Forall (fun a => layout_ok a.2 /\ (8 | a.1) /\ aligned a.1 (lo_align a.2) /\ within lo hi (taken a)) live;
  li_apart : all_apart (map node_block s ++ map taken live);
}.

Lemma add_region_spec addr n s (Q : () -> LinkedList.LinkedListAllocator -> Prop) : (8 | addr) -> 0 <= addr <= 2 ^ 63 -> 16 <= n ->
  Q () (LinkedList.mkNode addr n :: s) -> wp (LinkedList.add_free_region addr n) Q s.
Proof using.
  intros Ha Hr Hn HQ. unfold LinkedList.add_free_region. rewrite wp_bind. unfold wp at 1.
  destruct (align_up_spec addr LinkedList.NODE_ALIGN power_8 Hr) as (p & Ep & Hp & Hb). unfold lift. rewrite Ep.
  assert (p = addr) as ->. { unfold LinkedList.NODE_ALIGN in *. destruct Ha as [x ->], Hp as [y ->]. lia. }
  rewrite Z.eqb_refl. cbn [negb]. unfold LinkedList.NODE_SIZE. by replace (n <? 16) with false by (symmetry; apply Z.ltb_ge; lia).
Qed.

Lemma find_region_spec size align s : power_of_two align -> 0 <= size -> Forall node_ok s ->
  exists r s', LinkedList.find_region s size align = Done (r, s') /\
  match r with
  | None => s' = s
  | Some (n, p) => s ≡ₚ n :: s' /\ aligned p align /\ LinkedList.start_addr n <= p /\ u64_checked_add p size = Some (p + size) /\
      exists k, LinkedList.start_addr n + LinkedList.size n = p + size + k /\ (k = 0 \/ 16 <= k)
  end.
Proof using Hlo Hhi.
  intros Hal Hsz. induction 1 as [|n s Hn _ IH]; cbn [LinkedList.find_region]; [by eexists _, _|].
  destruct Hn as [Ha Hs [W1 W2]]. cbn in W1, W2. unfold LinkedList.alloc_from_region.
  destruct (align_up_spec (LinkedList.start_addr n) align Hal) as (p & -> & Hp & Hb); [lia|]. run.
  assert (exists r s', ('(r, rest) ← LinkedList.find_region s size align; mret (r, n :: rest)) = Done (r, s') /\
    match r with
    | None => s' = n :: s
    | Some (n', p) => n :: s ≡ₚ n' :: s' /\ aligned p align /\ LinkedList.start_addr n' <= p /\ u64_checked_add p size = Some (p + size) /\
        exists k, LinkedList.start_addr n' + LinkedList.size n' = p + size + k /\ (k = 0 \/ 16 <= k)
    end) as Hrest.
  { destruct IH as (r & s' & -> & Hr). run. eexists _, _. split; [done|]. destruct r as [[n' p']|]; [|by subst].
    destruct Hr as (Hperm & ?). split; [|done]. rewrite Hperm. apply Permutation_swap. }
  unfold u64_checked_add, checked_add_to in *. destruct (Z.leb_spec (p + size) u64_max) as [Hm|Hm]; [|exact Hrest].
  unfold LinkedList.end_addr. replace (u64_max <? _) with false by (symmetry; apply Z.ltb_ge; unfold u64_max; lia). run.
  destruct (Z.ltb_spec (LinkedList.start_addr n + LinkedList.size n) (p + size)) as [|He]; [exact Hrest|].
  destruct (_ && _) eqn:Ex; [exact Hrest|]. eexists _, _. split; [done|]. split_and!; [done|done|lia| |].
  - by rewrite (proj2 (Z.leb_le _ _) Hm).
  - exists (LinkedList.start_addr n + LinkedList.size n - (p + size)). split; [lia|].
    unfold LinkedList.NODE_SIZE in Ex. apply andb_false_iff in Ex as [?%Z.ltb_ge|?%Z.ltb_ge]; lia.
Qed.

Lemma list_laws : AllocatorLaws LinkedList.alloc LinkedList.dealloc lo hi list_inv.
Proof using Hlo Hhi.
  split.
  - intros s live [Hn Hl Hd]. split; [by eapply Forall_impl; [exact Hl|]; intros a (_ & _ & ? & _)| |].
    + eapply Forall_impl; [exact Hl|]. intros [p l] (Hk & _ & _ & [H1 H2]). destruct (size_align_spec l Hk) as (_ & _ & _ & _ & _ & Hs).
      unfold within, taken, extent in *. cbn in *. lia.
    + apply all_apart_app in Hd as [_ Hd]. eapply all_apart_map; [|exact Hd]. eapply Forall_impl; [exact Hl|]. intros [p l] (Hk & _).
      destruct (size_align_spec l Hk) as (_ & _ & _ & _ & _ & Hs). unfold part_of, taken, extent. cbn in *. lia.
  - intros s live live' Hp [Hn Hl Hd]. split; [done|by rewrite <-Hp|]. eapply all_apart_perm; [|exact Hd]. by rewrite Hp.
  - intros s live l [Hn Hl Hd] Hk. destruct (size_align_spec l Hk) as (Es & Hpa & Hdiv & H8 & Hr & Hs). unfold LinkedList.alloc.
    rewrite wp_bind. unfold wp at 1, lift. rewrite Es. rewrite wp_bind. unfold wp at 1, get. cbv beta iota.
    destruct (find_region_spec (padded l) (Z.max (lo_align l) 8) s Hpa ltac:(lia) Hn) as (r & s' & Ef & Hr'). rewrite wp_bind. unfold wp at 1. rewrite Ef.
    rewrite wp_bind. unfold wp at 1, modify. destruct r as [[n p]|]; [|subst s'; rewrite wp_ret; by left].
    destruct Hr' as (Hperm & Hal & Hge & Eadd & k & Ek & Hk0). rewrite Eadd, wp_bind. unfold expect. rewrite wp_ret.
    rewrite Hperm in Hn. apply Forall_cons in Hn as [Hn Hs']. destruct (no_within n Hn) as [W1 W2]. cbn in W1, W2.
    assert (all_apart (node_block n :: map node_block s' ++ map taken live)) as Hd' by (eapply all_apart_perm; [|exact Hd]; by rewrite Hperm).
    assert ((8 | p)) as H8p by (eapply Z.divide_trans; [|exact Hal]; apply power_divides; [apply power_8|done|lia]).
    assert (layout_ok l /\ (8 | p) /\ aligned p (lo_align l) /\ within lo hi (taken (p, l))) as Hnew.
    { split_and!; [done|done|by eapply Z.divide_trans|unfold within, taken; cbn; lia]. }
    assert (LinkedList.end_addr n = Done (p + padded l + k)) as He.
    { unfold LinkedList.end_addr. replace (u64_max <? _) with false by (symmetry; apply Z.ltb_ge; unfold u64_max; lia). by rewrite Ek. }
    rewrite wp_bind. unfold wp at 1, lift. rewrite He. cbv beta iota zeta. rewrite wp_bind.
    replace (_ - (p + padded l)) with k by lia. destruct (Z.ltb_spec 0 k) as [Hpos|Hz].
    + apply add_region_spec; [by apply Z.divide_add_r|lia|lia|]. rewrite wp_ret. right. split; [lia|]. split.
      * constructor; [|done]. split; cbn; [by apply Z.divide_add_r|lia|unfold within; cbn; lia].
      * by constructor.
      * apply (all_apart_perm ((p + padded l, k) :: (p, padded l) :: map node_block s' ++ map taken live)).
        { cbn. apply perm_skip. by rewrite Permutation_middle. }
        apply (all_apart_split (node_block n)); [unfold part_of; cbn; lia..|unfold apart; cbn; lia|done].
    + rewrite !wp_ret. right. split; [lia|]. split; [done|by constructor|].
      apply (all_apart_perm ((p, padded l) :: map node_block s' ++ map taken live)); [cbn; by rewrite Permutation_middle|].
      apply (all_apart_part (node_block n)); [unfold part_of; cbn; lia|done].
  - intros s live p l [Hn Hl Hd]. apply Forall_cons in Hl as [(Hk & H8p & Hal & [W1 W2]) Hl]. cbn in *.
    destruct (size_align_spec l Hk) as (Es & Hpa & Hdiv & H8 & Hr & Hs). unfold LinkedList.dealloc. rewrite wp_bind. unfold wp at 1, lift. rewrite Es.
    apply add_region_spec; [done|lia|lia|]. split; [|done|].
    + constructor; [|done]. split; cbn; [done|lia|unfold within; cbn; lia].
    + eapply all_apart_perm; [|exact Hd]. cbn. by rewrite Permutation_middle.
Qed.
End linked_list.

(** A region given to an empty list serves as a heap without blocks in use. *)
Lemma list_init_ok lo hi (Q : () -> LinkedList.LinkedListAllocator -> Prop) : 0 < lo -> hi <= 2 ^ 63 -> (8 | lo) -> lo + 16 <= hi ->
  (forall s, list_inv lo hi s [] -> Q () s) -> wp (LinkedList.init lo (hi - lo)) Q LinkedList.new.
Proof.
  intros Hlo Hhi H8 Hs HQ. apply add_region_spec; [done|lia|lia|]. apply HQ. split; [|constructor|by repeat constructor].
  constructor; [|constructor]. split; cbn; [done|lia|unfold within; cbn; lia].
Qed.

(** ** The bump allocator *)

Section bump.
Context (lo hi : Z) (Hlo : 0 < lo) (Hhi : hi <= 2 ^ 63).

Record bump_inv (b : Bump.BumpAllocator) (live : list allocation) : Prop := {
  bi_start : Bump.heap_start b = lo;
  bi_end : Bump.heap_end b = hi;
  bi_next : lo <= Bump.next b <= hi;
  bi_count : Bump.allocations b = Z.of_nat (length live);
  bi_room : Z.of_nat (length live) <= Bump.next b - lo;
  bi_aligned : Forall (fun a => aligned a.1 (lo_align a.2)) live;
  bi_below : Forall (fun a => within lo (Bump.next b) (extent a)) live;
  bi_apart : all_apart (map extent live);
}.

Lemma bump_laws : AllocatorLaws Bump.alloc Bump.dealloc lo hi bump_inv.
Proof using Hlo Hhi.
  split.
  - intros b live [_ _ Hn _ _ Ha Hw Hd]. split; [done| |done]. eapply Forall_impl; [exact Hw|]. intros a [? ?]. split; lia.
  - intros b live live' Hp [H1 H2 H3 H4 H5 H6 H7 H8]. split; [done|done|done|by rewrite <-Hp|by rewrite <-Hp|by rewrite <-Hp|by rewrite <-Hp|].
    eapply all_apart_perm; [|exact H8]. by rewrite Hp.
  - intros b live l [H1 H2 H3 H4 H5 H6 H7 H8] [Ha Hs Hf]. unfold Bump.alloc. rewrite wp_bind. unfold wp at 1, get. cbv beta iota.
    destruct (align_up_spec (Bump.next b) (lo_align l) Ha) as (p & Ep & Hp & Hb); [lia|]. rewrite wp_bind. unfold wp at 1, lift. rewrite Ep.
    unfold u64_checked_add, checked_add_to. replace (_ <=? u64_max) with true by (symmetry; apply Z.leb_le; unfold u64_max; lia).
    destruct (Z.ltb_spec (Bump.heap_end b) (p + lo_size l)) as [Hlt|Hge]; [rewrite wp_ret; left; split; [done|by split]|].
    replace (_ =? u64_max) with false by (symmetry; apply Z.eqb_neq; unfold u64_max; lia).
    rewrite wp_bind. unfold wp at 1, modify. cbv beta iota. rewrite wp_ret. right. split; [lia|]. split; cbn; [done|done|lia|lia|lia| | |].
    + by constructor.
    + constructor; [unfold within; cbn; lia|]. eapply Forall_impl; [exact H7|]. intros a [? ?]. split; lia.
    + split; [|done]. rewrite Forall_map. eapply Forall_impl; [exact H7|]. intros a [? ?]. unfold apart. cbn in *. lia.
  - intros b live p l [H1 H2 H3 H4 H5 [_ H6]%Forall_cons [_ H7]%Forall_cons [_ H8]]. cbn [length] in *. unfold Bump.dealloc.
    rewrite wp_bind. unfold wp at 1, get. cbv beta iota zeta. replace (_ =? 0) with false by (symmetry; apply Z.eqb_neq; lia).
    unfold wp, modify. destruct (Z.eqb_spec (Bump.allocations b - 1) 0) as [E|E].
    + assert (live = []) as -> by (destruct live; [done|cbn in *; lia]). by split; cbn in *; try lia.
    + split; cbn; [done|done|lia|lia|lia|done..].
Qed.
End bump.

(** ** Counting bytes *)

Definition total_size (l : list block) : Z := foldr (fun b n => b.2 + n) 0 l.

Lemma total_size_perm l l' : l ≡ₚ l' -> total_size l = total_size l'.
Proof. unfold total_size. induction 1; cbn [foldr]; lia. Qed.

Lemma total_size_app l l' : total_size (l ++ l') = total_size l + total_size l'.
Proof. unfold total_size. induction l as [|b l IH]; cbn [foldr app]; lia. Qed.

Lemma filter_both {A} (f : A -> bool) l : l ≡ₚ List.filter f l ++ List.filter (fun a => negb (f a)) l.
Proof. induction l as [|a l IH]; cbn; [done|]. destruct (f a); cbn; [by rewrite <-IH|]. by rewrite <-Permutation_middle, <-IH. Qed.

Lemma filter_sub {A} (f : A -> bool) l : sublist (List.filter f l) l.
Proof. induction l as [|a l IH]; cbn; [done|]. destruct (f a); [by apply sublist_skip|by apply sublist_cons]. Qed.

Lemma all_apart_sub l l' : sublist l l' -> all_apart l' -> all_apart l.
Proof.
  induction 1 as [|b l l' Hs IH|b l l' Hs IH]; cbn; [done| |by intros [_ ?]; auto].
  intros [Hb Hl]. split; [|auto]. rewrite Forall_forall in Hb |- *. intros c Hc. apply Hb. by eapply elem_of_sublist.
Qed.

(** Blocks that do not overlap take no more than the space they lie in. *)
Lemma apart_fit l : forall lo hi, lo <= hi -> Forall (fun b => 0 < b.2) l -> Forall (within lo hi) l -> all_apart l -> total_size l <= hi - lo.
Proof.
  induction l as [l IH] using (induction_ltof1 _ (@length block)). destruct l as [|b l]; [cbn; lia|].
  intros lo hi Hle [Hb Hpos]%Forall_cons [[W1 W2] Hw]%Forall_cons [Ha Hl]. change (total_size (b :: l)) with (b.2 + total_size l).
  pose (f := fun c : block => c.1 + c.2 <=? b.1). rewrite (total_size_perm _ _ (filter_both f l)), total_size_app.
  assert (forall g, length (List.filter g l) < length (b :: l))%nat as Hlen by (intros g; cbn; pose proof (sublist_length _ _ (filter_sub g l)); lia).
  pose proof (IH _ (Hlen f) lo b.1) as H1. pose proof (IH _ (Hlen (fun c => negb (f c))) (b.1 + b.2) hi) as H2.
  rewrite Forall_forall in Ha, Hw, Hpos. enough (total_size (List.filter f l) <= b.1 - lo /\ total_size (List.filter (fun c => negb (f c)) l) <= hi - (b.1 + b.2)) by lia.
  split; [apply H1|apply H2]; try (eapply all_apart_sub; [apply filter_sub|done]); try lia; rewrite Forall_forall; intros c [Hc Hf]%list_elem_of_In%filter_In;
    apply list_elem_of_In in Hc; specialize (Ha c Hc); specialize (Hw c Hc) as [? ?]; specialize (Hpos c Hc); try done; unfold f, within, apart in *.
  - apply Z.leb_le in Hf. lia.
  - apply negb_true_iff, Z.leb_gt in Hf. lia.
Qed.
