(* ===== verification/FixedHeap.v ===== *)
(** * The kernel heap keeps what its clients store

    The allocator behind [#[global_allocator]] ([FixedSize] of [Heap]) keeps
    freed blocks in intrusive lists, one per block size, and asks the
    [linked_list_allocator] crate for fresh ones.  [FallbackLaws] says what it
    relies on; the list allocator of the sources is a model of it. *)

From S2P Require Import Prelude Utf8 Ring3 Elf AddrSpace PageTables PageTablesProofs Heap HeapProofs.
Import FixedSize.

(** ** The fallback allocator *)

(** A byte of a block in use. *)
Definition in_use (live : list allocation) (a : Z) : Prop := Exists (fun x => in_block a (extent x)) live.

(** [m'] has the bytes of the blocks in use as [m]. *)
Definition kept (live : list allocation) (m m' : memory) : Prop := forall a, in_use live a -> m' a = m a.

(** The crate promises what its documentation says of [init],
    [allocate_first_fit] and [deallocate]: blocks are aligned, non-null, in
    the heap and disjoint; it leaves the bytes of blocks in use alone, and
    nothing it keeps is in them. *)
Class FallbackLaws (H : Type) `{FallbackHeap H} (lo hi : Z) := {
  fb_ok : H -> memory -> list allocation -> Prop;
  fb_live h m live : fb_ok h m live -> allocated lo hi live;
  fb_perm h m live live' : live ≡ₚ live' -> fb_ok h m live -> fb_ok h m live';
  fb_frame h m m' live : fb_ok h m live -> (forall a, ~ in_use live a -> m' a = m a) -> fb_ok h m' live;
  fb_init_ok m : wp (fb_init lo (hi - lo)) (fun _ s => fb_ok s.1 s.2 []) (fb_empty, m);
  fb_alloc_ok h m live l : fb_ok h m live -> layout_ok l ->
    wp (allocate_first_fit l) (fun r s => kept live m s.2 /\
      match r with None => fb_ok s.1 s.2 live | Some p => p <> 0 /\ fb_ok s.1 s.2 ((p, l) :: live) end) (h, m);
  fb_dealloc_ok h m live p l : fb_ok h m ((p, l) :: live) ->
    wp (deallocate p l) (fun _ s => kept live m s.2 /\ fb_ok s.1 s.2 live) (h, m);
}.

(** ** The free lists *)

(** The list that starts at [p]: each node's first word is the next node. *)
Fixpoint chain (m : memory) (p : Z) (l : list Z) : Prop :=
  match l with [] => p = 0 | q :: l => p = q /\ q <> 0 /\ chain m (get_word m q) l end.

Lemma chain_frame m m' l : forall p, (forall q a, q ∈ l -> q <= a < q + 8 -> m' a = m a) -> chain m p l -> chain m' p l.
Proof.
  induction l as [|q l IH]; intros p Hm; cbn [chain]; [done|]. intros (-> & Hq & Hc). split; [done|]. split; [done|].
  rewrite (get_word_ext m' m q) by (intros x Hx; apply (Hm q); [constructor|done]). apply IH; [|done].
  intros q' a Hq' Ha. apply (Hm q'); [by constructor|done].
Qed.

Definition class_block (bs p : Z) : allocation := (p, mkLayout bs bs).

(** The free blocks of each size. *)
Definition blocks_of (sizes : list Z) (frees : list (list Z)) : list allocation :=
  concat (zip_with (fun bs l => map (class_block bs) l) sizes frees).

Lemma blocks_put sizes : forall frees i bs p l, sizes !! i = Some bs -> frees !! i = Some l ->
  blocks_of sizes (<[i := p :: l]> frees) ≡ₚ class_block bs p :: blocks_of sizes frees.
Proof.
  unfold blocks_of. induction sizes as [|s sizes IH]; intros [|f frees] [|i] bs p l; cbn; try done; [by intros [= ->] [= ->]|].
  intros Hs Hf. rewrite (IH frees i bs p l Hs Hf). by rewrite Permutation_middle.
Qed.

Lemma blocks_take sizes frees i bs p l : sizes !! i = Some bs -> frees !! i = Some (p :: l) ->
  blocks_of sizes frees ≡ₚ class_block bs p :: blocks_of sizes (<[i := l]> frees).
Proof.
  intros Hs Hf. rewrite <-(blocks_put sizes (<[i := l]> frees) i bs p l); [|done|apply list_lookup_insert_eq; by eapply lookup_lt_Some].
  rewrite list_insert_insert_eq. by rewrite list_insert_id.
Qed.

Lemma blocks_elem sizes : forall frees i bs l q, sizes !! i = Some bs -> frees !! i = Some l -> q ∈ l -> class_block bs q ∈ blocks_of sizes frees.
Proof.
  intros frees i bs l q Hs Hf Hq. unfold blocks_of. apply list_elem_of_In, in_concat. exists (map (class_block bs) l).
  split; [|by apply in_map, list_elem_of_In]. apply list_elem_of_In, list_elem_of_lookup. exists i. by rewrite lookup_zip_with, Hs, Hf.
Qed.

Section heap.
Context {H : Type} `{FallbackLaws H lo hi} (Hlo : 0 < lo) (Hlohi : lo <= hi) (Hhi : hi <= 2 ^ 63).

(** The block an allocation has from the crate. *)
Definition held (a : allocation) : allocation :=
  match list_index a.2 with Some i => class_block (BLOCK_SIZES !!! i) a.1 | None => a end.

(** The crate has given out the blocks of the free lists and those in use. *)
Definition lists_ok (g : GlobalHeap H) (live : list allocation) : Prop :=
  exists frees, length frees = length BLOCK_SIZES /\ Forall2 (chain (heap_memory g)) (list_heads g) frees /\
    fb_ok (fallback_allocator g) (heap_memory g) (blocks_of BLOCK_SIZES frees ++ map held live).

Record heap_inv (g : GlobalHeap H) (live : list allocation) : Prop := {
  hv_lists : lists_ok g live;
  hv_live : Forall (fun a => layout_ok a.2) live;
  hv_bytes : LIVE_ALLOCATED_BYTES g = total_size (map extent live);
}.

(** *** Classes *)

Lemma class_size i bs : BLOCK_SIZES !! i = Some bs -> power_of_two bs /\ 8 <= bs <= 2048.
Proof using.
  intros Hb%list_elem_of_lookup_2. unfold BLOCK_SIZES in Hb.
  assert (forall k, 0 <= k < 63 -> power_of_two (2 ^ k)) as Hp by (intros k Hk; by exists k).
  repeat (apply elem_of_cons in Hb as [->|Hb]; [split; [|lia]; first
    [apply (Hp 3)|apply (Hp 4)|apply (Hp 5)|apply (Hp 6)|apply (Hp 7)|apply (Hp 8)|apply (Hp 9)|apply (Hp 10)|apply (Hp 11)]; lia|]). by apply not_elem_of_nil in Hb.
Qed.

Lemma class_layout_ok i bs : BLOCK_SIZES !! i = Some bs -> layout_ok (mkLayout bs bs).
Proof using. intros [Hp Hb]%class_size. split; cbn; [done|lia|lia]. Qed.

Lemma list_index_spec l i : list_index l = Some i ->
  exists bs, BLOCK_SIZES !! i = Some bs /\ lo_size l <= bs /\ lo_align l <= bs.
Proof using. unfold list_index. intros (bs & Hb & Hle & _)%position_Some. exists bs. split; [done|]. apply Z.leb_le in Hle. lia. Qed.

Lemma held_covers a : part_of (extent a) (extent (held a)).
Proof using.
  unfold held. destruct (list_index a.2) as [i|] eqn:E; [|unfold part_of; lia].
  destruct (list_index_spec _ _ E) as (bs & Hb & Hs & _). rewrite (list_lookup_total_correct _ _ _ Hb). unfold part_of, extent, class_block. cbn. lia.
Qed.

Lemma held_aligned a : layout_ok a.2 -> aligned (held a).1 (lo_align (held a).2) -> aligned a.1 (lo_align a.2).
Proof using.
  intros [Hp _ _]. unfold held. destruct (list_index a.2) as [i|] eqn:E; [|done].
  destruct (list_index_spec _ _ E) as (bs & Hb & _ & Ha). rewrite (list_lookup_total_correct _ _ _ Hb). cbn. intros Hal.
  eapply Z.divide_trans; [|exact Hal]. apply power_divides; [done|by apply (class_size i)|done].
Qed.

Lemma held_in_use live a : in_use live a -> in_use (map held live) a.
Proof using.
  unfold in_use. rewrite !Exists_exists. intros (x & Hx & Ha). exists (held x). split; [by apply list_elem_of_fmap_2|].
  pose proof (held_covers x) as Hp. unfold part_of, in_block in *. lia.
Qed.

(** *** Changes of memory *)

Lemma write_keeps m m' b rest : all_apart (map extent (b :: rest)) -> (forall a, ~ in_block a (extent b) -> m' a = m a) -> kept rest m m'.
Proof using.
  intros [Hb _] Hm a Ha. apply Hm. intros Hin. unfold in_use in Ha. apply Exists_exists in Ha as (x & Hx & Ha).
  rewrite Forall_map, Forall_forall in Hb. specialize (Hb x Hx). unfold compose, apart, in_block in *. lia.
Qed.

Lemma kept_app l1 l2 m m' : kept (l1 ++ l2) m m' -> kept l1 m m' /\ kept l2 m m'.
Proof using. intros Hk. split; intros a Ha; apply Hk; unfold in_use; rewrite Exists_app; auto. Qed.

Lemma kept_held live m m' : kept (map held live) m m' -> kept live m m'.
Proof using. intros Hk a Ha. by apply Hk, held_in_use. Qed.

Lemma chains_kept m m' heads frees : length frees = length BLOCK_SIZES -> kept (blocks_of BLOCK_SIZES frees) m m' ->
  Forall2 (chain m) heads frees -> Forall2 (chain m') heads frees.
Proof using.
  intros Hlen Hk Hc. apply Forall2_same_length_lookup_2; [by eapply Forall2_length|]. intros i p l Hp Hl.
  pose proof (Forall2_lookup_lr _ _ _ _ _ _ Hc Hp Hl) as Hpl. eapply chain_frame; [|exact Hpl]. intros q a Hq Ha.
  destruct (lookup_lt_is_Some_2 BLOCK_SIZES i) as [bs Hbs]; [rewrite <-Hlen; by eapply lookup_lt_Some|]. apply Hk.
  apply Exists_exists. exists (class_block bs q). split; [by eapply blocks_elem|]. destruct (class_size i bs Hbs). unfold in_block, extent. cbn. lia.
Qed.

Lemma frame_block h m m' b rest : fb_ok h m (b :: rest) -> (forall a, ~ in_block a (extent b) -> m' a = m a) -> fb_ok h m' (b :: rest).
Proof using. intros Hf Hm. eapply fb_frame; [exact Hf|]. intros a Ha. apply Hm. intros Hb. apply Ha. by constructor. Qed.

Lemma fb_keeps h m m' b rest : fb_ok h m (b :: rest) -> (forall a, ~ in_block a (extent b) -> m' a = m a) -> kept rest m m'.
Proof using. intros Hf%fb_live. eapply write_keeps, ac_apart, Hf. Qed.

(** *** What the lists say of the blocks in use *)

Lemma lists_allocated g live : lists_ok g live -> Forall (fun a => layout_ok a.2) live -> allocated lo hi live.
Proof using.
  intros (frees & _ & _ & Hf%fb_live) Hl. destruct Hf as [[_ Ha]%Forall_app [_ Hw]%Forall_app Hd]. rewrite map_app in Hd. apply all_apart_app in Hd as [_ Hd].
  rewrite Forall_map, Forall_forall in Ha, Hw. rewrite Forall_forall in Hl. split.
  - rewrite Forall_forall. intros a Hx. apply held_aligned; [by apply Hl|by apply Ha].
  - rewrite Forall_forall. intros a Hx. specialize (Hw a Hx). pose proof (held_covers a). unfold part_of, within, compose in *. lia.
  - rewrite map_map in Hd. eapply all_apart_map; [|exact Hd]. rewrite Forall_forall. intros a _. apply held_covers.
Qed.

Lemma live_bytes live : allocated lo hi live -> Forall (fun a => layout_ok a.2) live -> 0 <= total_size (map extent live) <= hi - lo.
Proof using Hlohi.
  intros [_ Hw Hd] Hl. assert (Forall (fun b => 0 < b.2) (map extent live)) as Hp by (rewrite Forall_map; eapply Forall_impl; [exact Hl|]; by intros a [_ ? _]).
  split; [|apply apart_fit; [done|done|by rewrite Forall_map|done]]. clear -Hp. induction Hp; cbn in *; [done|]. change (foldr _ 0 _) with (total_size l) in *. lia.
Qed.

(** *** Operations *)

Lemma wp_head i x g (Q : Z -> GlobalHeap H -> Prop) : list_heads g !! i = Some x -> Q x g -> wp (head i) Q g.
Proof using. intros Hx HQ. unfold wp, head, get, mbind, M_bind, lift, index. by rewrite Hx. Qed.

Lemma wp_set_head i p g (Q : () -> GlobalHeap H -> Prop) : (i < length (list_heads g))%nat ->
  Q () (g <| list_heads := <[i := p]> (list_heads g) |>) -> wp (set_head i p) Q g.
Proof using. intros Hi HQ. unfold wp, set_head, get, mbind, M_bind, lift. by rewrite index_set_ok. Qed.

Lemma wp_fallback {A} (f : M (H * memory) A) (Q : A -> GlobalHeap H -> Prop) g :
  wp f (fun a s => Q a (g <| fallback_allocator := s.1 |> <| heap_memory := s.2 |>)) (fallback_allocator g, heap_memory g) -> wp (on_fallback f) Q g.
Proof using. unfold wp, on_fallback. by destruct (f _) as [[a [h m]]|]. Qed.

(** What choosing a block does. *)
Definition chosen (g : GlobalHeap H) (live : list allocation) (l : Layout) (p : Z) (g' : GlobalHeap H) : Prop :=
  LIVE_ALLOCATED_BYTES g' = LIVE_ALLOCATED_BYTES g /\ kept live (heap_memory g) (heap_memory g') /\
  (p = 0 /\ lists_ok g' live \/ p <> 0 /\ lists_ok g' ((p, l) :: live)).

(** A fresh block of the layout [l'] that the layout [l] gets. *)
Lemma fresh_block g live l l' : lists_ok g live -> layout_ok l' -> (forall p, held (p, l) = (p, l')) ->
  wp (fallback_alloc l') (chosen g live l) g.
Proof using.
  intros (frees & Hlen & Hc & Hf) Hl' Hh. unfold fallback_alloc. rewrite wp_bind. apply wp_fallback.
  eapply wp_mono; [by apply (fb_alloc_ok _ _ _ l' Hf)|]. intros r [h m] [Hk Hr]. cbn [fst snd] in *. rewrite wp_ret.
  pose proof (kept_app _ _ _ _ Hk) as [Hk1 Hk2]. split; [done|]. split; [by apply kept_held|]. pose proof (chains_kept _ _ _ _ Hlen Hk1 Hc) as Hc'.
  destruct r as [p|]; cbn [default]; [right|left; split; [done|by exists frees]]. destruct Hr as [Hp Hr]. split; [done|]. exists frees.
  split; [done|]. split; [done|]. cbn [map]. rewrite Hh. eapply fb_perm; [|exact Hr]. by rewrite Permutation_middle.
Qed.

(** The first block of a free list. *)
Lemma listed_block g live l i bs frees p rest : length frees = length BLOCK_SIZES -> Forall2 (chain (heap_memory g)) (list_heads g) frees ->
  fb_ok (fallback_allocator g) (heap_memory g) (blocks_of BLOCK_SIZES frees ++ map held live) ->
  list_index l = Some i -> BLOCK_SIZES !! i = Some bs -> frees !! i = Some (p :: rest) ->
  chosen g live l p (g <| list_heads := <[i := get_word (heap_memory g) p]> (list_heads g) |> <| heap_memory := set_word (heap_memory g) p 0 |>).
Proof using.
  intros Hlen Hc Hf Hi Hbs Hp. set (m := heap_memory g) in *. set (frees' := <[i := rest]> frees).
  assert (i < length (list_heads g))%nat as Hlt by (rewrite (Forall2_length _ _ _ Hc); by eapply lookup_lt_Some).
  destruct (lookup_lt_is_Some_2 _ _ Hlt) as [x Hx]. pose proof (Forall2_lookup_lr _ _ _ _ _ _ Hc Hx Hp) as Hpl. cbn [chain] in Hpl. destruct Hpl as (-> & Hp0 & Hr).
  assert (fb_ok (fallback_allocator g) m (class_block bs p :: blocks_of BLOCK_SIZES frees' ++ map held live)) as Hf'.
  { eapply fb_perm; [|exact Hf]. by rewrite (blocks_take _ _ _ _ _ _ Hbs Hp). }
  assert (forall a, ~ in_block a (extent (class_block bs p)) -> set_word m p 0 a = m a) as Hm.
  { intros a Ha. apply set_word_outside. destruct (class_size i bs Hbs). unfold in_block, extent in Ha. cbn in Ha. lia. }
  pose proof (fb_keeps _ _ _ _ _ Hf' Hm) as [Hk1 Hk2]%kept_app. split; [done|]. split; [by apply kept_held|]. right. split; [done|]. exists frees'.
  assert (length frees' = length BLOCK_SIZES) as Hlen' by (unfold frees'; by rewrite length_insert). split; [done|]. split.
  - apply (chains_kept m); [done|done|]. by apply Forall2_insert.
  - cbn [map]. eapply fb_perm; [|eapply frame_block, Hm; exact Hf']. unfold held. cbn [fst snd]. rewrite Hi, (list_lookup_total_correct _ _ _ Hbs).
    by rewrite Permutation_middle.
Qed.

Lemma heap_alloc_ok g live l : heap_inv g live -> layout_ok l ->
  wp (alloc l) (fun p g' => kept live (heap_memory g) (heap_memory g') /\ (p = 0 /\ heap_inv g' live \/ p <> 0 /\ heap_inv g' ((p, l) :: live))) g.
Proof using Hlo Hlohi Hhi.
  intros [Hl Hv Hb] Hk. unfold alloc. rewrite wp_bind. eapply wp_mono.
  - instantiate (1 := chosen g live l). destruct (list_index l) as [i|] eqn:Ei; [|by apply fresh_block; [| |intros p; unfold held; cbn [fst snd]; rewrite Ei]].
    destruct (list_index_spec _ _ Ei) as (bs & Hbs & Hs & Ha). destruct Hl as (frees & Hlen & Hc & Hf).
    destruct (lookup_lt_is_Some_2 frees i) as [fl Hfl]; [rewrite Hlen; by eapply lookup_lt_Some|].
    destruct (Forall2_lookup_r _ _ _ _ _ Hc Hfl) as (x & Hx & Hch). pose proof (lookup_lt_Some _ _ _ Hx) as Hlt.
    rewrite wp_bind. eapply wp_head; [exact Hx|]. rewrite wp_bind. eapply wp_set_head; [done|]. destruct fl as [|p fl]; cbn [chain] in Hch.
    + subst x. rewrite Z.eqb_refl, wp_bind. unfold wp at 1, lift, index. rewrite Hbs.
      rewrite list_insert_id by done. replace (g <| list_heads := list_heads g |>) with g by by destruct g.
      apply fresh_block; [by exists frees|by eapply class_layout_ok|]. intros p. unfold held. cbn [fst snd]. by rewrite Ei, (list_lookup_total_correct _ _ _ Hbs).
    + destruct Hch as (-> & Hp0 & Hr). rewrite (proj2 (Z.eqb_neq p 0) Hp0). rewrite wp_bind. unfold wp at 1, get. rewrite wp_bind. unfold wp at 1, modify.
      rewrite wp_bind. apply wp_set_head; [cbn; by rewrite length_insert|]. rewrite wp_ret.
      pose proof (listed_block g live l i bs frees p fl Hlen Hc Hf Ei Hbs Hfl) as Hch. cbn in *. by rewrite list_insert_insert_eq.
  - intros p g' (Hb' & Hkept & Hp). rewrite wp_bind. unfold wp at 1, record_alloc, modify. rewrite wp_ret.
    destruct Hp as [[-> Hl']|[Hp Hl']]; [split; [done|]; left; by split; [|split; cbn; [|done|by rewrite Hb']]|].
    rewrite (proj2 (Z.eqb_neq p 0) Hp). split; [done|]. right. split; [done|]. assert (Forall (fun a => layout_ok a.2) ((p, l) :: live)) as Hv' by by constructor.
    split; [done|done|]. cbn. pose proof (live_bytes _ (lists_allocated _ _ Hl' Hv') Hv') as Hr. cbn in Hr. change (foldr _ 0 _) with (total_size (map extent live)) in *.
    rewrite Hb', Hb, Z.mod_small; lia.
Qed.

Lemma allocated_tail a live : allocated lo hi (a :: live) -> allocated lo hi live.
Proof using. intros [Ha Hw [_ Hd]]. by split; [apply Forall_inv_tail in Ha|apply Forall_inv_tail in Hw|]. Qed.

(** A block goes to the front of the list of its size. *)
Lemma block_listed g live l i bs frees p x fl : length frees = length BLOCK_SIZES -> Forall2 (chain (heap_memory g)) (list_heads g) frees ->
  fb_ok (fallback_allocator g) (heap_memory g) (blocks_of BLOCK_SIZES frees ++ map held ((p, l) :: live)) ->
  list_index l = Some i -> BLOCK_SIZES !! i = Some bs -> frees !! i = Some fl -> chain (heap_memory g) x fl ->
  let m' := set_word (heap_memory g) p x in
  kept live (heap_memory g) m' /\ lists_ok (g <| list_heads := <[i := p]> (list_heads g) |> <| heap_memory := m' |>) live.
Proof using Hlo Hhi.
  intros Hlen Hc Hf Hi Hbs Hfl Hx m'. set (m := heap_memory g) in *. destruct (class_size i bs Hbs) as [Hpow Hbr].
  assert (fb_ok (fallback_allocator g) m (class_block bs p :: blocks_of BLOCK_SIZES frees ++ map held live)) as Hf'.
  { eapply fb_perm; [|exact Hf]. cbn [map]. unfold held at 1. cbn [fst snd]. rewrite Hi, (list_lookup_total_correct _ _ _ Hbs). by rewrite Permutation_middle. }
  assert (forall a, ~ in_block a (extent (class_block bs p)) -> m' a = m a) as Hm.
  { intros a Ha. apply set_word_outside. unfold in_block, extent in Ha. cbn in Ha. lia. }
  pose proof (fb_keeps _ _ _ _ _ Hf' Hm) as [Hk1 Hk2]%kept_app. split; [by apply kept_held|]. exists (<[i := p :: fl]> frees).
  split; [by rewrite length_insert|]. pose proof (ac_within _ _ _ (fb_live _ _ _ Hf')) as [[Hp1 Hp2] Hw]%Forall_cons. cbn in Hp1, Hp2. split.
  - apply Forall2_insert; [by apply (chains_kept m)|]. cbn [chain]. split; [done|]. split; [lia|]. change (chain m' (get_word m' p) fl). replace (get_word m' p) with x.
    + eapply chain_frame; [|exact Hx]. intros q a Hq Ha. apply Hk1, Exists_exists. exists (class_block bs q).
      split; [by eapply blocks_elem|]. unfold in_block, extent. cbn. lia.
    + symmetry. apply get_set_word. destruct fl as [|q fl]; cbn [chain] in Hx; [lia|]. destruct Hx as [-> _]. apply Forall_app in Hw as [Hw _]. rewrite Forall_forall in Hw.
      assert (class_block bs q ∈ blocks_of BLOCK_SIZES frees) as Hq by (eapply blocks_elem; [done|done|constructor]).
      destruct (Hw _ Hq) as [W1 W2]. cbn in W1, W2. lia.
  - eapply fb_perm; [|eapply frame_block, Hm; exact Hf']. by rewrite (blocks_put _ _ _ _ p _ Hbs Hfl).
Qed.

Lemma heap_dealloc_ok g live p l : heap_inv g ((p, l) :: live) ->
  wp (dealloc p l) (fun _ g' => kept live (heap_memory g) (heap_memory g') /\ heap_inv g' live) g.
Proof using Hlo Hlohi Hhi.
  intros [Hl Hv Hb]. pose proof (lists_allocated _ _ Hl Hv) as Hall. pose proof (Forall_inv_tail Hv) as Hv'.
  pose proof (live_bytes _ (allocated_tail _ _ Hall) Hv') as Hr. unfold dealloc. rewrite wp_bind. unfold wp at 1, record_dealloc, modify.
  assert ((LIVE_ALLOCATED_BYTES g - lo_size l) mod 2 ^ 64 = total_size (map extent live)) as Hb'.
  { cbn in Hb. change (foldr _ 0 _) with (total_size (map extent live)) in *. rewrite Hb. rewrite Z.mod_small; lia. }
  destruct Hl as (frees & Hlen & Hc & Hf). destruct (list_index l) as [i|] eqn:Ei.
  - destruct (list_index_spec _ _ Ei) as (bs & Hbs & Hs & Ha).
    destruct (lookup_lt_is_Some_2 frees i) as [fl Hfl]; [rewrite Hlen; by eapply lookup_lt_Some|].
    destruct (Forall2_lookup_r _ _ _ _ _ Hc Hfl) as (x & Hx & Hch). pose proof (lookup_lt_Some _ _ _ Hx) as Hlt.
    rewrite wp_bind. eapply wp_head; [exact Hx|]. rewrite wp_bind. apply wp_set_head; [done|]. rewrite wp_bind. unfold wp at 1, lift, index. rewrite Hbs.
    destruct (class_size i bs Hbs) as [_ Hbr]. rewrite (proj2 (Z.ltb_ge bs NODE_SIZE)) by (unfold NODE_SIZE; lia).
    rewrite wp_bind. unfold wp at 1, modify. apply wp_set_head; [cbn; by rewrite length_insert|].
    destruct (block_listed g live l i bs frees p x fl Hlen Hc Hf Ei Hbs Hfl Hch) as [Hk Hl']. split; [exact Hk|].
    split; [|done|exact Hb']. cbn. rewrite list_insert_insert_eq. exact Hl'.
  - pose proof (ac_within _ _ _ Hall) as [Hp1 Hp2]%Forall_inv. cbn in Hp1, Hp2. rewrite (proj2 (Z.eqb_neq p 0)) by lia. apply wp_fallback.
    eapply wp_mono; [apply (fb_dealloc_ok _ _ (blocks_of BLOCK_SIZES frees ++ map held live))|].
    + eapply fb_perm; [|exact Hf]. cbn [map]. unfold held at 1. cbn [fst snd]. rewrite Ei. by rewrite Permutation_middle.
    + intros u [h m] [[Hk1 Hk2]%kept_app Hf']. split; [by apply kept_held|]. split; [|done|exact Hb'].
      exists frees. split; [done|]. split; [by eapply chains_kept|done].
Qed.
End heap.

(** ** Clients *)

(** A client asks for blocks, stores bytes into those it has and gives them
    back, by their position.  The second component has what it stored last. *)
Inductive heap_op := HeapAsk (l : Layout) | HeapGiveBack (n : nat) | HeapStore (n : nat) (off v : Z).

Definition heap_op_ok (o : heap_op) : Prop := match o with HeapAsk l => layout_ok l | _ => True end.

Definition put (a v : Z) (m : memory) : memory := fun x => if x =? a then v else m x.

Section client.
Context {H : Type} `{FallbackHeap H}.

Definition heap_step (o : heap_op) (live : list allocation) (stored : memory) : M (GlobalHeap H) (list allocation * memory) :=
  match o with
  | HeapAsk l =>
    p ← alloc l;
    g ← get;
    mret (if p =? 0 then (live, stored)
          else ((p, l) :: live, fun a => if (p <=? a) && (a <? p + lo_size l) then heap_memory g a else stored a))
  | HeapGiveBack n => match live !! n with Some (p, l) => dealloc p l;; mret (delete n live, stored) | None => mret (live, stored) end
  | HeapStore n off v =>
    match live !! n with
    | Some (p, l) => if (0 <=? off) && (off <? lo_size l) then
        modify (fun g => g <| heap_memory ::= put (p + off) v |>);; mret (live, put (p + off) v stored) else mret (live, stored)
    | None => mret (live, stored)
    end
  end.

Fixpoint heap_run (os : list heap_op) (live : list allocation) (stored : memory) : M (GlobalHeap H) (list allocation * memory) :=
  match os with [] => mret (live, stored) | o :: os => '(live, stored) ← heap_step o live stored; heap_run os live stored end.
End client.

Section client_proofs.
Context {H : Type} `{FallbackLaws H lo hi} (Hlo : 0 < lo) (Hlohi : lo <= hi) (Hhi : hi <= 2 ^ 63).

Definition client_ok (live : list allocation) (stored : memory) (g : GlobalHeap H) : Prop :=
  heap_inv g live /\ forall a, in_use live a -> heap_memory g a = stored a.

Lemma heap_inv_perm g live live' : live ≡ₚ live' -> heap_inv g live -> heap_inv g live'.
Proof using.
  intros Hp [(frees & Hl & Hc & Hf) Hv Hb]. split; [|by rewrite <-Hp|].
  - exists frees. split_and!; [done|done|]. eapply fb_perm; [|exact Hf]. by rewrite Hp.
  - rewrite Hb. apply total_size_perm. by rewrite Hp.
Qed.

Lemma heap_inv_store g live p l off v : heap_inv g live -> (p, l) ∈ live -> 0 <= off < lo_size l -> heap_inv (g <| heap_memory ::= put (p + off) v |>) live.
Proof using.
  intros Hi [k Hk]%elem_of_Permutation Ho. eapply heap_inv_perm; [symmetry; exact Hk|]. eapply heap_inv_perm in Hi; [|exact Hk].
  destruct Hi as [(frees & Hl & Hc & Hf) Hv Hb]. split; [|done|done].
  assert (forall a, ~ in_block a (extent (held (p, l))) -> put (p + off) v (heap_memory g) a = heap_memory g a) as Hm.
  { intros a Ha. unfold put. destruct (Z.eqb_spec a (p + off)) as [->|]; [|done]. destruct Ha.
    pose proof (held_covers (p, l)) as Hp. unfold part_of, in_block, extent in *. cbn in *. lia. }
  assert (fb_ok (fallback_allocator g) (heap_memory g) (held (p, l) :: blocks_of BLOCK_SIZES frees ++ map held k)) as Hf'.
  { eapply fb_perm; [|exact Hf]. cbn [map]. by rewrite Permutation_middle. }
  exists frees. split; [done|]. split.
  - pose proof (fb_keeps _ _ _ _ _ Hf' Hm) as [Hk1 _]%kept_app. by eapply chains_kept.
  - eapply fb_perm; [|eapply frame_block, Hm; exact Hf']. cbn [map]. by rewrite Permutation_middle.
Qed.

Lemma heap_step_ok o live stored g : heap_op_ok o -> client_ok live stored g ->
  wp (heap_step o live stored) (fun r g' => client_ok r.1 r.2 g') g.
Proof using Hlo Hlohi Hhi.
  intros Ho [Hi Hm]. destruct o as [l|n|n off v]; cbn [heap_step].
  - rewrite wp_bind. eapply wp_mono; [by apply (heap_alloc_ok Hlo Hlohi Hhi g live l)|]. intros p g' [Hk Hp]. rewrite wp_bind. unfold wp at 1, get. rewrite wp_ret.
    destruct Hp as [[-> Hi']|[Hp Hi']]; [split; [done|]; intros a Ha; rewrite (Hk a Ha); auto|]. rewrite (proj2 (Z.eqb_neq p 0) Hp). split; [done|].
    cbn [fst snd]. intros a Ha. destruct ((p <=? a) && (a <? p + lo_size l)) eqn:E; [done|]. unfold in_use in Ha. apply Exists_cons in Ha as [Ha|Ha].
    + unfold in_block, extent in Ha. cbn in Ha. lia.
    + rewrite (Hk a Ha). auto.
  - destruct (live !! n) as [[p l]|] eqn:E; [|by rewrite wp_ret]. rewrite wp_bind. pose proof (delete_Permutation live n _ E) as Hd.
    eapply wp_mono; [apply (heap_dealloc_ok Hlo Hlohi Hhi g (delete n live)); by eapply heap_inv_perm|]. intros u g' [Hk Hi']. rewrite wp_ret. split; [done|].
    cbn [fst snd]. intros a Ha. rewrite (Hk a Ha). apply Hm. unfold in_use. rewrite Hd. by apply Exists_cons_tl.
  - destruct (live !! n) as [[p l]|] eqn:E; [|by rewrite wp_ret]. destruct (_ && _) eqn:Eo; [|by rewrite wp_ret]. rewrite wp_bind. unfold wp at 1, modify.
    rewrite wp_ret. split; [eapply heap_inv_store; [done|by eapply list_elem_of_lookup_2|lia]|]. cbn. intros a Ha. unfold put. destruct (a =? p + off); auto.
Qed.

Lemma heap_run_ok os : Forall heap_op_ok os -> forall live stored g, client_ok live stored g ->
  wp (heap_run os live stored) (fun r g' => client_ok r.1 r.2 g') g.
Proof using Hlo Hlohi Hhi.
  induction 1 as [|o os Ho _ IH]; intros live stored g Hc; cbn [heap_run]; [by rewrite wp_ret|]. rewrite wp_bind.
  eapply wp_mono; [by apply heap_step_ok|]. intros [live' stored'] g'. apply IH.
Qed.

Lemma heap_init_ok m : wp (init lo (hi - lo)) (fun _ g => client_ok [] m g) (new m).
Proof using.
  unfold init. apply wp_fallback. eapply wp_mono; [apply (fb_init_ok m)|]. intros u [h m'] Hf. split; [|intros a Ha; by apply Exists_nil in Ha].
  split; [|constructor|done]. exists (replicate (length BLOCK_SIZES) []). split; [by rewrite length_replicate|]. split; [|exact Hf].
  by repeat constructor.
Qed.
End client_proofs.

(** ** The allocators of the sources *)

(** The list of free regions as fallback allocator. *)
Module ListFallback.
Definition HEAP_END : Z := HEAP_START + HEAP_SIZE.

Definition on_list {A} (f : M LinkedList.LinkedListAllocator A) : M (LinkedList.LinkedListAllocator * memory) A := fun s =>
  match f s.1 with Done (a, l) => Done (a, (l, s.2)) | Panic => Panic end.

#[export] Instance list_fallback : FallbackHeap LinkedList.LinkedListAllocator := {
  fb_empty := LinkedList.new;
  fb_init start size := on_list (LinkedList.init start size);
  allocate_first_fit l := p ← on_list (LinkedList.alloc l); mret (if p =? 0 then None else Some p);
  deallocate p l := on_list (LinkedList.dealloc p l);
}.

Lemma wp_on_list {A} (f : M LinkedList.LinkedListAllocator A) Q s : wp f (fun a l => Q a (l, s.2)) s.1 -> wp (on_list f) Q s.
Proof. unfold wp, on_list. by destruct (f s.1) as [[a l]|]. Qed.

Lemma heap_range : 0 < HEAP_START /\ HEAP_END <= 2 ^ 63 /\ (8 | HEAP_START) /\ HEAP_START + 16 <= HEAP_END.
Proof. split_and!; [done|done| |done]. by exists (HEAP_START / 8). Qed.

Definition the_list_laws := list_laws HEAP_START HEAP_END (proj1 heap_range) (proj1 (proj2 heap_range)).

#[export] Program Instance list_fallback_laws : FallbackLaws LinkedList.LinkedListAllocator HEAP_START HEAP_END := {
  fb_ok h m live := list_inv HEAP_START HEAP_END h live;
}.
Next Obligation. intros h m live Hi. by apply (al_live _ _ _ _ _ the_list_laws h). Qed.
Next Obligation. intros h m live live' Hp Hi. by apply (al_perm _ _ _ _ _ the_list_laws h live). Qed.
Next Obligation. done. Qed.
Next Obligation. intros m. apply wp_on_list. destruct heap_range as (H1 & H2 & H3 & H4). by apply list_init_ok. Qed.
Next Obligation.
  intros h m live l Hi Hl. cbn. rewrite wp_bind. apply wp_on_list. eapply wp_mono; [by apply (al_alloc _ _ _ _ _ the_list_laws h live l)|].
  intros p h' Hp. rewrite wp_ret. split; [done|]. destruct Hp as [[-> Hi']|[Hp Hi']]; [done|]. by rewrite (proj2 (Z.eqb_neq p 0) Hp).
Qed.
Next Obligation.
  intros h m live p l Hi. cbn. apply wp_on_list. eapply wp_mono; [by apply (al_dealloc _ _ _ _ _ the_list_laws h live p l)|]. done.
Qed.
End ListFallback.
Import ListFallback.

(** C27. The kernel heap keeps what its clients store, given that the crate behind
    it hands out aligned and disjoint blocks of the heap, as it documents.  For
    every sequence of allocations, stores into allocated blocks and frees after
    [init], no step panics; the blocks in use are aligned as asked, lie in the
    heap and do not overlap; every byte of them is what the client stored there
    last, or what it found in the block when it got it; and [heap_stats] reports
    exactly the bytes in use and the rest as free. *)
Theorem heap_keeps_stores {H : Type} `{FallbackLaws H HEAP_START (HEAP_START + HEAP_SIZE)} os m : Forall heap_op_ok os ->
  wp (init HEAP_START HEAP_SIZE;; heap_run os [] m) (fun '(live, stored) g =>
    allocated HEAP_START (HEAP_START + HEAP_SIZE) live /\
    (forall a, in_use live a -> heap_memory g a = stored a) /\
    hs_used_bytes (heap_stats g) = total_size (map extent live) /\
    hs_free_bytes (heap_stats g) = HEAP_SIZE - total_size (map extent live)) (new m).
Proof.
  intros Hos. destruct heap_range as (Hr1 & Hr2 & _). assert (HEAP_START <= HEAP_START + HEAP_SIZE) as Hle by done.
  rewrite wp_bind. eapply wp_mono; [exact (heap_init_ok (lo := HEAP_START) (hi := HEAP_START + HEAP_SIZE) m)|]. intros u g Hg.
  eapply wp_mono; [by apply (heap_run_ok Hr1 Hle Hr2 os Hos)|]. intros [live stored] g' [[Hl Hv Hb] Hm].
  pose proof (lists_allocated _ _ Hl Hv) as Hall. pose proof (live_bytes Hle _ Hall Hv) as Hr. split; [done|]. split; [exact Hm|].
  unfold heap_stats. cbn [hs_used_bytes hs_free_bytes]. rewrite Hb. replace (HEAP_START + HEAP_SIZE - HEAP_START) with HEAP_SIZE in Hr by lia.
  cbn [fst] in *. unfold saturating_sub. lia.
Qed.

Lemma heap_keeps_stores_witness : wp (init (H := LinkedList.LinkedListAllocator) HEAP_START HEAP_SIZE;; heap_run
    [HeapAsk (mkLayout 24 8); HeapAsk (mkLayout 40 8); HeapStore 0 5 7; HeapGiveBack 1; HeapAsk (mkLayout 3000 8); HeapAsk (mkLayout 9 1); HeapStore 1 2 9]
    [] (fun _ => 0)) (fun '(live, stored) g =>
    allocated HEAP_START (HEAP_START + HEAP_SIZE) live /\
    (forall a, in_use live a -> heap_memory g a = stored a) /\
    hs_used_bytes (heap_stats g) = total_size (map extent live) /\
    hs_free_bytes (heap_stats g) = HEAP_SIZE - total_size (map extent live)) (new (fun _ => 0)).
Proof.
  assert (forall s k, 0 < s <= 4096 -> 0 <= k <= 12 -> layout_ok (mkLayout s (2 ^ k))) as Hk.
  { intros s k Hs Hr. pose proof (Z.pow_le_mono_r 2 k 12). split; cbn; [exists k; lia|lia|lia]. }
  apply (heap_keeps_stores (H := LinkedList.LinkedListAllocator)).
  repeat apply Forall_cons_2; try exact I; try apply Forall_nil_2; [apply (Hk 24 3)|apply (Hk 40 3)|apply (Hk 3000 3)|apply (Hk 9 0)]; lia.
Defined.

(** The bump allocator and the list of free regions, given the heap, never
    panic on the allocations and frees of a client, and the blocks in use are
    at all times aligned, within the heap and disjoint. *)
Theorem simple_allocators_sound os : Forall op_ok os ->
  wp (Bump.init HEAP_START HEAP_SIZE;; client_run Bump.alloc Bump.dealloc os [])
    (fun live _ => allocated HEAP_START (HEAP_START + HEAP_SIZE) live) Bump.new /\
  wp (LinkedList.init HEAP_START HEAP_SIZE;; client_run LinkedList.alloc LinkedList.dealloc os [])
    (fun live _ => allocated HEAP_START (HEAP_START + HEAP_SIZE) live) LinkedList.new.
Proof.
  intros Hos. destruct heap_range as (H1 & H2 & H3 & H4). split; rewrite wp_bind.
  - pose proof (bump_laws HEAP_START (HEAP_START + HEAP_SIZE) H1 H2) as L. unfold wp at 1, Bump.init.
    replace (u64_max <? _) with false by done. eapply wp_mono; [apply (client_run_keeps _ _ _ _ _ L os Hos)|intros live s; apply (al_live _ _ _ _ _ L)].
    by split; cbn.
  - pose proof (list_laws HEAP_START (HEAP_START + HEAP_SIZE) H1 H2) as L.
    apply (list_init_ok HEAP_START (HEAP_START + HEAP_SIZE)); [done..|]. intros s Hs.
    eapply wp_mono; [by apply (client_run_keeps _ _ _ _ _ L os Hos)|intros live s'; apply (al_live _ _ _ _ _ L)].
Qed.

Lemma simple_allocators_sound_witness : let os := [Ask (mkLayout 24 8); Ask (mkLayout 4096 64); GiveBack 1; Ask (mkLayout 16 16); GiveBack 0] in
  wp (Bump.init HEAP_START HEAP_SIZE;; client_run Bump.alloc Bump.dealloc os [])
    (fun live _ => allocated HEAP_START (HEAP_START + HEAP_SIZE) live) Bump.new /\
  wp (LinkedList.init HEAP_START HEAP_SIZE;; client_run LinkedList.alloc LinkedList.dealloc os [])
    (fun live _ => allocated HEAP_START (HEAP_START + HEAP_SIZE) live) LinkedList.new.
Proof.
  intros os. assert (forall s k, 0 < s <= 4096 -> 0 <= k <= 12 -> layout_ok (mkLayout s (2 ^ k))) as Hk.
  { intros s k Hs Hr. pose proof (Z.pow_le_mono_r 2 k 12). split; cbn; [exists k; lia|lia|lia]. }
  apply (simple_allocators_sound os).
  repeat apply Forall_cons_2; try exact I; try apply Forall_nil_2; [apply (Hk 24 3)|apply (Hk 4096 6)|apply (Hk 16 4)]; lia.
Defined.
