(* ===== verification/Sync.v ===== *)
(** * Locks and interrupts (sync.rs)

    The guards that disable interrupts and preemption, and the mutex built of
    them.  The machine has one processor: a spin lock that is taken while it is
    held spins for ever.  Programs that nest their guards and interrupts that
    arrive at any time are run against each other. *)

From S2P Require Import Prelude.

(** ** The primitives *)

Record SyncState := mkSync {
  sy_interrupts : bool;                (* the processor's interrupt flag *)
  sy_depth : Z;                        (* PREEMPT_DISABLE_DEPTH *)
  sy_deferred : bool;                  (* PREEMPT_DEFERRED *)
  sy_held : list nat;                  (* the spin locks that are taken *)
  sy_arrivals : list bool }.           (* before which of the steps to come interrupts arrive *)
#[export] Instance eta_sync : Eta SyncState := fun r => mkSync (sy_interrupts r) (sy_depth r) (sy_deferred r) (sy_held r) (sy_arrivals r).

Abbreviation Syn := (M SyncState).

Definition preemption_disabled : Syn bool := gets (fun s => negb (sy_depth s =? 0)).
Definition defer_preemption : Syn () := modify (fun s => s <| sy_deferred := true |>).
Definition take_deferred_preemption : Syn bool := s ← get; modify (fun s => s <| sy_deferred := false |>);; mret (sy_deferred s).

(** The counter wraps. *)
Definition preemption_guard_new : Syn () := modify (fun s => s <| sy_depth ::= (fun d => (d + 1) mod 2 ^ 64) |>).
Definition preemption_guard_drop : Syn () :=
  s ← get;
  modify (fun s => s <| sy_depth ::= (fun d => (d - 1) mod 2 ^ 64) |>);;
  if sy_depth s =? 0 then panic else mret ().

(** The guard is the state to restore. *)
Definition interrupt_guard_new : Syn bool :=
  was_enabled ← gets sy_interrupts;
  modify (fun s => s <| sy_interrupts := false |>);;
  mret was_enabled.
Definition interrupt_guard_drop (was_enabled : bool) : Syn () :=
  if was_enabled then modify (fun s => s <| sy_interrupts := true |>) else mret ().

(** [spin::Mutex]: taking a lock that is held does not return ([Panic]). *)
Definition spin_lock (id : nat) : Syn () :=
  s ← get;
  if decide (id ∈ sy_held s) then panic else modify (fun s => s <| sy_held ::= cons id |>).
Definition spin_unlock (id : nat) : Syn () :=
  modify (fun s => s <| sy_held ::= List.filter (fun i => negb (i =? id)%nat) |>).

Section steps.
(** What may happen between two steps. *)
Context (pause : Syn ()).

(** The state of interrupts to restore is kept in the guard. *)
Definition preempt_mutex_lock (id : nat) : Syn bool :=
  interrupts ← interrupt_guard_new;
  pause;;
  preemption_guard_new;;
  pause;;
  spin_lock id;;
  mret interrupts.

(** The fields are dropped in the order of their declaration. *)
Definition preempt_mutex_guard_drop (id : nat) (interrupts : bool) : Syn () :=
  spin_unlock id;;
  pause;;
  preemption_guard_drop;;
  pause;;
  interrupt_guard_drop interrupts.
End steps.

(** ** Programs *)

(** Code with nested critical sections. *)
Inductive prog :=
  | Skip
  | Then (p q : prog)
  | Locked (id : nat) (p : prog)            (* a [PreemptMutexGuard] lives *)
  | Unpreempted (p : prog)                  (* a [PreemptionGuard] lives *)
  | Uninterrupted (p : prog).               (* [without_interrupts], or an [InterruptGuard] lives *)

Section run.
Context (pause : Syn ()).

Fixpoint run_prog (p : prog) : Syn () :=
  match p with
  | Skip => pause
  | Then p q => run_prog p;; run_prog q
  | Locked id p => interrupts ← preempt_mutex_lock pause id; run_prog p;; preempt_mutex_guard_drop pause id interrupts;; pause
  | Unpreempted p => preemption_guard_new;; pause;; run_prog p;; preemption_guard_drop;; pause
  | Uninterrupted p => interrupts ← interrupt_guard_new; pause;; run_prog p;; interrupt_guard_drop interrupts;; pause
  end.
End run.

(** If an interrupt arrives now and interrupts are enabled, the processor
    disables them, runs the handler and enables them again. *)
Definition arrive (handler : prog) : Syn () :=
  s ← get;
  modify (fun s => s <| sy_arrivals ::= tail |>);;
  if default false (head (sy_arrivals s)) && sy_interrupts s then
    modify (fun s => s <| sy_interrupts := false |>);;
    run_prog (mret ()) handler;;
    modify (fun s => s <| sy_interrupts := true |>)
  else mret ().

(** No lock is taken inside its own section. *)
Fixpoint nested (held : list nat) (p : prog) : bool :=
  match p with
  | Skip => true
  | Then p q => nested held p && nested held q
  | Locked id p => negb (bool_decide (id ∈ held)) && nested (id :: held) p
  | Unpreempted p | Uninterrupted p => nested held p
  end.

Fixpoint depth (p : prog) : nat :=
  match p with
  | Skip => O
  | Then p q => Nat.max (depth p) (depth q)
  | Locked _ p | Unpreempted p => S (depth p)
  | Uninterrupted p => depth p
  end.

(** ** Proofs *)

Lemma syn_modify f (Q : () -> SyncState -> Prop) s : wp (modify f) Q s <-> Q () (f s).
Proof. done. Qed.
Lemma syn_gets {A} (f : SyncState -> A) (Q : A -> SyncState -> Prop) s : wp (gets f) Q s <-> Q (f s) s.
Proof. done. Qed.
Lemma syn_get (Q : SyncState -> SyncState -> Prop) s : wp get Q s <-> Q s s.
Proof. done. Qed.

(** [m] leaves locks, depth and interrupts as they were. *)
Definition restores (m : Syn ()) (s : SyncState) : Prop :=
  wp m (fun _ s' => sy_held s' = sy_held s /\ sy_depth s' = sy_depth s /\ sy_interrupts s' = sy_interrupts s) s.

(** While a lock is held interrupts are disabled. *)
Definition guarded (n : nat) (s : SyncState) : Prop :=
  0 <= sy_depth s /\ sy_depth s + Z.of_nat n < 2 ^ 64 /\ (sy_held s <> [] -> sy_interrupts s = false).

Lemma restores_bind (m k : Syn ()) s : restores m s ->
  (forall s', sy_held s' = sy_held s -> sy_depth s' = sy_depth s -> sy_interrupts s' = sy_interrupts s -> restores k s') -> restores (m;; k) s.
Proof.
  intros Hm Hk. apply wp_bind. eapply wp_mono; [exact Hm|]. intros _ s' (E1 & E2 & E3). eapply wp_mono; [by apply Hk|]. intros _ s2 (F1 & F2 & F3). rewrite F1, F2, F3. done.
Qed.

Lemma remove_held id held : id ∉ held -> List.filter (fun i => negb (i =? id)%nat) (id :: held) = held.
Proof.
  intros Hn. cbn. rewrite Nat.eqb_refl. cbn [negb]. induction held as [|i held IH]; cbn; [done|]. apply not_elem_of_cons in Hn as [Hi Hn].
  replace (i =? id)%nat with false by (symmetry; apply Nat.eqb_neq; congruence). cbn [negb]. by rewrite IH.
Qed.

Section nested.
Context (pause : Syn ()) (n : nat).
Context (Hpause : forall s, guarded n s -> restores pause s).

Lemma wp_pause s (Q : () -> SyncState -> Prop) held d b : guarded n s -> sy_held s = held -> sy_depth s = d -> sy_interrupts s = b ->
  (forall s', sy_held s' = held -> sy_depth s' = d -> sy_interrupts s' = b -> Q () s') -> wp pause Q s.
Proof using Hpause. intros Hg <- <- <- HQ. eapply wp_mono; [by apply Hpause|]. intros [] s' (E1 & E2 & E3). by apply HQ. Qed.

Lemma lock_ok id held d b s (Q : bool -> SyncState -> Prop) : sy_held s = held -> sy_depth s = d -> sy_interrupts s = b ->
  id ∉ held -> 0 <= d -> d + 1 + Z.of_nat n < 2 ^ 64 ->
  (forall s', sy_held s' = id :: held -> sy_depth s' = d + 1 -> sy_interrupts s' = false -> Q b s') -> wp (preempt_mutex_lock pause id) Q s.
Proof using Hpause.
  intros Hh Hd Hi Hid H0 Hlt HQ. unfold preempt_mutex_lock. unfold interrupt_guard_new. rewrite !wp_bind, syn_gets, wp_bind, syn_modify, wp_ret, wp_bind.
  eapply (wp_pause _ _ held d false); [split_and!; cbn; [lia|lia|done]|done|done|done|]. intros s1 E1 E2 E3.
  unfold preemption_guard_new. rewrite wp_bind, syn_modify, wp_bind.
  eapply (wp_pause _ _ held (d + 1) false); [unfold guarded; cbn; rewrite E2, Z.mod_small by lia; split_and!; [lia|lia|done]|done|cbn; rewrite E2, Z.mod_small; lia|done|].
  intros s2 F1 F2 F3. unfold spin_lock. rewrite !wp_bind, syn_get, F1, decide_False, syn_modify, wp_ret, Hi by done. apply HQ; cbn; [by rewrite F1|done|done].
Qed.

Lemma unlock_ok id held d b s (Q : () -> SyncState -> Prop) : sy_held s = id :: held -> sy_depth s = d + 1 -> sy_interrupts s = false ->
  id ∉ held -> 0 <= d -> d + 1 + Z.of_nat n < 2 ^ 64 ->
  (forall s', sy_held s' = held -> sy_depth s' = d -> sy_interrupts s' = b -> Q () s') -> wp (preempt_mutex_guard_drop pause id b) Q s.
Proof using Hpause.
  intros Hh Hd Hi Hid H0 Hlt HQ. unfold preempt_mutex_guard_drop. unfold spin_unlock. rewrite wp_bind, syn_modify, wp_bind.
  eapply (wp_pause _ _ held (d + 1) false); [split_and!; cbn; [lia|lia|done]|cbn [sy_held]; change (List.filter (fun i => negb (i =? id)%nat) (sy_held s) = held); rewrite Hh; by apply remove_held|done|done|].
  intros s1 E1 E2 E3. unfold preemption_guard_drop. rewrite !wp_bind, syn_get, wp_bind, syn_modify, E2. replace (d + 1 =? 0) with false by (symmetry; apply Z.eqb_neq; lia). rewrite wp_ret, wp_bind.
  eapply (wp_pause _ _ held d false); [unfold guarded; cbn; rewrite E2, Z.mod_small by lia; split_and!; [lia|lia|done]|done|cbn; rewrite E2, Z.mod_small; lia|done|].
  intros s2 F1 F2 F3. unfold interrupt_guard_drop. destruct b; [unfold wp, modify; by apply HQ|rewrite wp_ret; by apply HQ].
Qed.

Lemma run_restores p : forall held s, nested held p = true -> sy_held s = held -> guarded (depth p + n) s -> restores (run_prog pause p) s.
Proof using Hpause.
  induction p as [|p IHp q IHq|id p IH|p IH|p IH]; intros held s Hn Hh (Hd & Hlt & Hg); cbn [run_prog nested depth] in *; unfold restores.
  - by apply Hpause.
  - apply andb_true_iff in Hn as [Hp Hq]. rewrite wp_bind. eapply wp_mono; [apply (IHp held s Hp Hh); split_and!; [done|lia|done]|].
    intros _ s' (E1 & E2 & E3). eapply wp_mono; [apply (IHq held s' Hq); [congruence|]|].
    + unfold guarded. rewrite E1, E2, E3. split_and!; [done|lia|done].
    + intros _ s2 (F1 & F2 & F3). rewrite F1, F2, F3. done.
  - apply andb_true_iff in Hn as [Hid%negb_true_iff%bool_decide_eq_false Hn]. rewrite wp_bind.
    eapply (lock_ok id held (sy_depth s) (sy_interrupts s)); [done|done|done|done|done|lia|]. intros s1 E1 E2 E3. rewrite wp_bind.
    eapply wp_mono; [apply (IH (id :: held) s1 Hn E1); split_and!; [lia|lia|done]|]. intros _ s2 (F1 & F2 & F3). rewrite wp_bind.
    eapply (unlock_ok id held (sy_depth s) (sy_interrupts s)); [congruence|congruence|congruence|done|done|lia|]. intros s3 G1 G2 G3.
    eapply (wp_pause _ _ held (sy_depth s) (sy_interrupts s)); [unfold guarded; rewrite G1, G2, G3, <-Hh; split_and!; [lia|lia|done]|done..|].
    intros s4 I1 I2 I3. rewrite I1, I2, I3. done.
  - unfold preemption_guard_new. rewrite wp_bind, syn_modify, wp_bind.
    eapply (wp_pause _ _ held (sy_depth s + 1) (sy_interrupts s)); [unfold guarded; cbn; rewrite Z.mod_small by lia; split_and!; [lia|lia|done]|done|cbn; rewrite Z.mod_small; lia|done|].
    intros s1 E1 E2 E3. rewrite wp_bind. eapply wp_mono; [apply (IH held s1 Hn E1); unfold guarded; rewrite E1, E2, E3, <-Hh; split_and!; [lia|lia|done]|].
    intros _ s2 (F1 & F2 & F3). unfold preemption_guard_drop. rewrite !wp_bind, syn_get, wp_bind, syn_modify, F2, E2. replace (_ =? 0) with false by (symmetry; apply Z.eqb_neq; lia). rewrite wp_ret.
    eapply (wp_pause _ _ held (sy_depth s) (sy_interrupts s)); [unfold guarded; cbn; rewrite F1, F2, F3, E1, E2, E3, Z.mod_small, <-Hh by lia; split_and!; [lia|lia|done]|cbn; congruence|cbn; rewrite F2, E2, Z.mod_small; lia|cbn; congruence|].
    intros s4 I1 I2 I3. rewrite I1, I2, I3. done.
  - unfold interrupt_guard_new. rewrite !wp_bind, syn_gets, wp_bind, syn_modify, wp_ret, wp_bind.
    eapply (wp_pause _ _ held (sy_depth s) false); [unfold guarded; cbn; split_and!; [lia|lia|done]|done|done|done|]. intros s1 E1 E2 E3. rewrite wp_bind.
    eapply wp_mono; [apply (IH held s1 Hn E1); unfold guarded; rewrite E1, E2, E3; split_and!; [lia|lia|done]|]. intros _ s2 (F1 & F2 & F3). rewrite wp_bind.
    assert (wp (interrupt_guard_drop (sy_interrupts s)) (fun _ s' => sy_held s' = held /\ sy_depth s' = sy_depth s /\ sy_interrupts s' = sy_interrupts s) s2) as Hdrop.
    { unfold interrupt_guard_drop. destruct (sy_interrupts s); unfold wp; cbn; split_and!; congruence. }
    eapply wp_mono; [exact Hdrop|]. intros _ s3 (G1 & G2 & G3).
    eapply (wp_pause _ _ held (sy_depth s) (sy_interrupts s)); [unfold guarded; rewrite G1, G2, G3, <-Hh; split_and!; [lia|lia|done]|done..|].
    intros s4 I1 I2 I3. rewrite I1, I2, I3. done.
Qed.
End nested.

(** The handler runs without locks held. *)
Lemma arrive_restores handler : nested [] handler = true -> forall s, guarded (depth handler) s -> restores (arrive handler) s.
Proof.
  intros Hh s (Hd & Hlt & Hg). unfold restores, arrive. rewrite wp_bind, syn_get, wp_bind, syn_modify.
  destruct (default false (head (sy_arrivals s)) && sy_interrupts s) eqn:E; [|by rewrite wp_ret]. apply andb_true_iff in E as [_ Ei].
  assert (sy_held s = []) as Es by (destruct (sy_held s); [done|]; rewrite Hg in Ei; done). rewrite wp_bind, syn_modify, wp_bind.
  assert (forall s', guarded 0 s' -> restores (mret ()) s') as Hret by done. eapply wp_mono; [apply (run_restores (mret ()) 0 Hret handler [])|].
  - done.
  - exact Es.
  - split_and!; [done|cbn; lia|done].
  - intros _ s' (E1 & E2 & E3). rewrite syn_modify. cbn in *. by rewrite E1, E2, Ei.
Qed.

(** Interrupts never deadlock on a lock.  Code that nests its guards and does
    not take a lock inside that lock's own section, with a handler of the same
    kind interrupting it wherever interrupts are enabled, never takes a spin
    lock that is held, never unbalances the preemption counter, and leaves
    locks, counter and interrupt flag as it found them. *)
Theorem locks_never_deadlock (p handler : prog) s : nested [] p = true -> nested [] handler = true -> sy_held s = [] -> 0 <= sy_depth s ->
  sy_depth s + Z.of_nat (depth p + depth handler) < 2 ^ 64 ->
  wp (run_prog (arrive handler) p) (fun _ s' => sy_held s' = [] /\ sy_depth s' = sy_depth s /\ sy_interrupts s' = sy_interrupts s) s.
Proof.
  intros Hp Hh Hs Hd Hlt. eapply wp_mono.
  - apply (run_restores (arrive handler) (depth handler) (arrive_restores handler Hh) p [] s Hp Hs).
    split_and!; [done|lia|by rewrite Hs].
  - intros _ s' (E1 & E2 & E3). by rewrite E1.
Qed.

(** A timer interrupt between the steps of a nested section; its handler takes
    the outer lock. *)
Lemma locks_never_deadlock_witness :
  let s := mkSync true 0 false [] [false; true; true; true; false; true; true; true; true; true; true; true] in
  wp (run_prog (arrive (Locked 0 Skip)) (Then (Unpreempted Skip) (Locked 0 (Locked 1 Skip))))
    (fun _ s' => sy_held s' = [] /\ sy_depth s' = sy_depth s /\ sy_interrupts s' = sy_interrupts s) s.
Proof. apply (locks_never_deadlock (Then (Unpreempted Skip) (Locked 0 (Locked 1 Skip))) (Locked 0 Skip)); vm_compute; (reflexivity || discriminate || done). Defined.
