(* ===== verification/PrivateTables.v ===== *)
(** * The pool of private page tables, as it is built at boot

    [init_private_p4_pool] fills the pool with tables that share the kernel's
    mappings and map every program and stack page of the user area to frames of
    their own; running out of frames leaves fewer slots, each of them complete. *)

From S2P Require Import Prelude Ring3 Elf AddrSpace AddrSpaceProofs PageTables PageTablesProofs.

Section private.
Context `{Laws : EntryLaws}.
Context {A : Type} `{AllocatorLaws A}.
Context (offset : Z).

Notation path := (path offset).
Notation leaf := (leaf offset).
Notation in_frame := (in_frame offset).
Notation same_frame := (same_frame offset).

(** ** What building a table may write, also when it fails *)

(** [c] takes frames from the front of what remains, [cost] of them if it
    succeeds, and writes only into them and into [f]. *)
Definition confined {B} (cost : nat) (f : Z) (c : M (@Build A) (result B AddressSpaceError)) : Prop := forall a m, bytes_ok m ->
  exists r a' m', c (a, m) = Done (r, (a', m')) /\ bytes_ok m' /\
    (exists used, remaining a = used ++ remaining a' /\ match r with Ok _ => length used = cost | Err _ => True end) /\
    forall x, ~ in_frame f x -> Forall (fun n => ~ in_frame n x) (remaining a) -> m' x = m x.

Lemma confined_ok {B} f (b : B) : confined 0 f (mret (Ok b)).
Proof. intros a m Hm. exists (Ok b), a, m. split_and!; try done. by exists []. Qed.

Lemma confined_err {B} n f e : confined (B := B) n f (mret (Err e)).
Proof. intros a m Hm. exists (Err e), a, m. split_and!; try done. by exists []. Qed.

Lemma confined_try {B C} n k f (c : M (@Build A) (result B AddressSpaceError)) (d : B -> M (@Build A) (result C AddressSpaceError)) :
  confined n f c -> (forall b, confined k f (d b)) -> confined (n + k) f (try b := c in d b).
Proof.
  intros Hc Hd a m Hm. destruct (Hc a m Hm) as ([b|e] & a1 & m1 & E1 & Hm1 & (u1 & Hu1 & Hl1) & Ho1).
  2:{ exists (Err e), a1, m1. split_and!; try done; [run; by rewrite E1|by exists u1]. }
  destruct (Hd b a1 m1 Hm1) as (r2 & a2 & m2 & E2 & Hm2 & (u2 & Hu2 & Hl2) & Ho2). exists r2, a2, m2. split_and!; try done.
  - run. by rewrite E1.
  - exists (u1 ++ u2). rewrite Hu1, Hu2, app_assoc, length_app. split; [done|]. destruct r2; [lia|done].
  - intros x Hf Hx. rewrite Ho2, Ho1; try done. rewrite Hu1 in Hx. by apply Forall_app in Hx as [_ ?].
Qed.

(** A frame taken from the allocator may be written to afterwards. *)
Lemma confined_alloc {B} n f (k : option Z -> M (@Build A) (result B AddressSpaceError)) e :
  k None = mret (Err e) -> (forall g, confined n f (k (Some g)) \/ confined n g (k (Some g))) ->
  confined (S n) f (alloc ≫= k).
Proof.
  intros HN HS a m Hm. destruct (remaining a) as [|g rest] eqn:Hrem.
  - exists (Err e), a, m. split_and!; try done; [|by exists []]. unfold alloc. run. by rewrite (allocate_None a Hrem), HN.
  - destruct (allocate_Some a g rest Hrem) as (a1 & E & Hr).
    assert (exists r a' m', k (Some g) (a1, m) = Done (r, (a', m')) /\ bytes_ok m' /\
      (exists used, remaining a1 = used ++ remaining a' /\ match r with Ok _ => length used = n | Err _ => True end) /\
      forall x, ~ in_frame f x -> ~ in_frame g x -> Forall (fun h => ~ in_frame h x) (remaining a1) -> m' x = m x)
      as (r & a' & m' & E' & Hm' & (u & Hu & Hl) & Ho).
    { destruct (HS g) as [Hc|Hc]; destruct (Hc a1 m Hm) as (r & a' & m' & E' & Hm' & Hu & Ho);
        exists r, a', m'; split_and!; try done; intros; by apply Ho. }
    exists r, a', m'. split_and!; try done.
    + unfold alloc. run. by rewrite E.
    + exists (g :: u). cbn [app length]. split; [congruence|]. destruct r; [lia|done].
    + intros x Hf Hx. apply Forall_cons in Hx as [? Hx]. apply Ho; try done. by rewrite Hr.
Qed.

Lemma clone_child_table_confined f i : 0 <= i < 512 -> forall a m, bytes_ok m ->
  exists r a' m', clone_child_table offset f i (a, m) = Done (r, (a', m')) /\ bytes_ok m' /\
    (forall x, ~ in_frame f x -> Forall (fun n => ~ in_frame n x) (remaining a) -> m' x = m x) /\
    match r with
    | Ok n => remaining a = n :: remaining a'
    | Err _ => exists used, remaining a = used ++ remaining a'
    end.
Proof.
  intros Hi a m Hm. unfold clone_child_table, mem, set_mem, alloc. run. cbn [fst snd].
  destruct (child_table_frame offset m f i) as [g|e]; [|exists (Err e), a, m; split_and!; try done; by exists []].
  destruct (remaining a) as [|n rest] eqn:Hrem.
  - rewrite (allocate_None a Hrem). exists (Err FrameAllocationFailed), a, m. split_and!; try done. by exists [].
  - destruct (allocate_Some a n rest Hrem) as (a1 & E & Hr). rewrite E. cbn [fst snd]. eexists _, a1, _. split; [reflexivity|].
    split_and!; [by apply set_word_ok, mem_move_ok| |congruence].
    intros x Hf Hx. apply Forall_cons in Hx as [Hn _]. rewrite set_entry_outside by done.
    apply mem_move_outside. unfold PageTablesProofs.in_frame in Hn. lia.
Qed.

Lemma map_level_confined l f v pf : confined l f (map_level offset l f v pf).
Proof.
  revert f; induction l as [|l IH]; intros f a m Hm.
  - eexists (Ok ()), a, _. split; [reflexivity|]. split_and!; [by apply set_word_ok|by exists []|].
    intros x Hf _. apply set_entry_outside; [apply table_index_range|done].
  - destruct (clone_child_table_confined f (table_index (S l) v) (table_index_range _ _) a m Hm) as (r & a1 & m1 & E1 & Hm1 & Ho1 & Hr).
    cbn [map_level]. destruct r as [n|e].
    + destruct (IH n a1 m1 Hm1) as (r2 & a2 & m2 & E2 & Hm2 & (u2 & Hu2 & Hl2) & Ho2). exists r2, a2, m2.
      split_and!; [run; by rewrite E1|done| |].
      * exists (n :: u2). cbn [app length]. split; [congruence|]. destruct r2; [lia|done].
      * intros x Hf Hx. rewrite <-Ho1 by done. rewrite Hr in Hx. apply Forall_cons in Hx as [Hn Hx]. by apply Ho2.
    + exists (Err e), a1, m1. destruct Hr as [u Hu]. split_and!; try done; [run; by rewrite E1|by exists u].
Qed.

Lemma map_private_pages_confined p4 vs : confined (4 * length vs) p4 (map_private_pages offset p4 vs).
Proof.
  induction vs as [|v vs IH]; cbn [map_private_pages]; [apply confined_ok|].
  replace (4 * length (v :: vs))%nat with (S (3 + (4 * length vs + 0)))%nat by (cbn [length]; lia).
  apply (confined_alloc _ _ _ FrameAllocationFailed); [done|]. intros pf. left.
  apply confined_try; [rewrite map_private_user_page_level; apply map_level_confined|]. intros [].
  apply confined_try; [exact IH|]. intros fs. apply confined_ok.
Qed.

Lemma map_stack_slots_confined p4 slots : confined (16 * length slots) p4 (map_stack_slots offset p4 slots).
Proof.
  induction slots as [|i slots IH]; cbn [map_stack_slots]; [apply confined_ok|].
  replace (16 * length (i :: slots))%nat with (16 + (16 * length slots + 0))%nat by (cbn [length]; lia).
  destruct (stack_range_for_slot i) as [start top]. apply confined_try; [apply map_private_pages_confined|].
  intros fs. apply confined_try; [exact IH|]. intros rest. apply confined_ok.
Qed.

(** The frames a slot needs besides its top-level table. *)
Definition slot_cost (count : nat) : nat := 4 * (count + PRIVATE_STACK_SLOT_COUNT * PRIVATE_STACK_PAGE_COUNT).

Lemma prepare_private_p4_slot_confined active p4 count : (count <= MAX_PRIVATE_PROGRAM_PAGE_COUNT)%nat ->
  confined (slot_cost count) p4 (prepare_private_p4_slot offset active p4 count).
Proof.
  intros Hc a m Hm.
  assert (confined (slot_cost count) p4 (try fs := map_private_pages offset p4
      (map program_page (seq 0 (Nat.min count MAX_PRIVATE_PROGRAM_PAGE_COUNT))) in
    try stack_frames := map_stack_slots offset p4 (seq 0 PRIVATE_STACK_SLOT_COUNT) in
    mret (Ok (mkSlot p4 (fs ++ replicate (MAX_PRIVATE_PROGRAM_PAGE_COUNT - length fs) 0)
      count stack_frames (replicate PRIVATE_STACK_SLOT_COUNT false) false)))) as Hk.
  { replace (slot_cost count) with (4 * length (map program_page (seq 0 (Nat.min count MAX_PRIVATE_PROGRAM_PAGE_COUNT))) +
      (16 * length (seq 0 PRIVATE_STACK_SLOT_COUNT) + 0))%nat.
    2:{ rewrite length_map, !length_seq, Nat.min_l by done. unfold slot_cost. cbn. lia. }
    apply confined_try; [apply map_private_pages_confined|]. intros fs.
    apply confined_try; [apply map_stack_slots_confined|]. intros rest. apply confined_ok. }
  destruct (Hk a (mem_move m (offset + p4) (offset + active) PAGE_SIZE)) as (r & a' & m' & E & Hm' & Hu & Ho);
    [by apply mem_move_ok|]. exists r, a', m'. split_and!; try done.
  intros x Hf Hx. rewrite Ho by done. apply mem_move_outside. unfold PageTablesProofs.in_frame in Hf. lia.
Qed.

(** ** A prepared slot *)

(** In [m], the table [p4] maps the page of [v] to [frame]: user code may read
    it, the entries above do not forbid writing, and the walk stays in [tables]. *)
Definition page_maps (m : memory) (p4 : Z) (tables : list Z) (v frame : Z) : Prop :=
  exists e, leaf m 3 p4 (indexes v) = mkLeaf 0 e true true /\ entry_frame e = Ok frame /\
            path m 3 p4 (indexes v) ⊆ tables.

Record slot_mapped (m : memory) (tables : list Z) (s : PreparedP4Slot) : Prop := {
  sm_shape : slot_shape s;
  sm_p4 : sl_p4_frame s ∈ tables;
  sm_pages : Forall2 (page_maps m (sl_p4_frame s) tables) (slot_pages (sl_program_frame_count s)) (slot_frames s);
}.

(** Every other page is mapped as the table [active] of [m0] maps it. *)
Record slot_shares (m0 : memory) (active : Z) (m : memory) (tables : list Z) (s : PreparedP4Slot) : Prop := {
  ss_paths : forall ix, ix_ok ix ->
    Forall (fun n => n ∈ tables \/ n ∈ path m0 3 active ix) (path m 3 (sl_p4_frame s) ix);
  ss_tree : Forall (only_path offset m (sl_p4_frame s)) (slot_pages (sl_program_frame_count s));
  ss_rest : forall v, user_address v \/ 2 ^ 64 - 2 ^ 47 <= v < 2 ^ 64 ->
    page_number v ∉ map page_number (slot_pages (sl_program_frame_count s)) ->
    leaf_le (leaf m0 3 active (indexes v)) (leaf m 3 (sl_p4_frame s) (indexes v));
}.

Lemma page_maps_same m m' p4 tables v frame :
  (forall n, n ∈ tables -> same_frame m m' n) -> page_maps m p4 tables v frame -> page_maps m' p4 tables v frame.
Proof.
  intros Hs (e & Hl & He & Hp).
  destruct (walk_same offset m m' 3 p4 (indexes v) (indexes_ok v)) as [E1 E2]; [intros g Hg; by apply Hs, Hp|].
  exists e. by rewrite E1, E2.
Qed.

Lemma slot_mapped_same m m' tables s :
  (forall n, n ∈ tables -> same_frame m m' n) -> slot_mapped m tables s -> slot_mapped m' tables s.
Proof.
  intros Hs [H1' H2' H3]. split; [done..|]. apply (Forall2_impl _ _ _ _ H3). intros v f. by apply page_maps_same.
Qed.

Lemma slot_shares_same m0 active m m' tables s :
  (forall n, n ∈ tables -> same_frame m m' n) ->
  (forall ix n, ix_ok ix -> n ∈ path m0 3 active ix -> same_frame m m' n) ->
  slot_shares m0 active m tables s -> slot_shares m0 active m' tables s.
Proof.
  intros Ht Ha [Hp Ho Hr].
  assert (forall ix, ix_ok ix -> path m' 3 (sl_p4_frame s) ix = path m 3 (sl_p4_frame s) ix /\
                                 leaf m' 3 (sl_p4_frame s) ix = leaf m 3 (sl_p4_frame s) ix) as Hw.
  { intros ix Hix. apply walk_same; [done|]. intros g Hg. pose proof (Hp ix Hix) as Hpi. rewrite Forall_forall in Hpi.
    destruct (Hpi g Hg); [by apply Ht|by apply (Ha ix)]. }
  split.
  - intros ix Hix. destruct (Hw ix Hix) as [-> _]. by apply Hp.
  - apply (Forall_impl _ _ _ Ho). intros v Hv ix i j n Hix. destruct (Hw ix Hix) as [-> _].
    destruct (Hw (indexes v) (indexes_ok v)) as [-> _]. by apply Hv.
  - intros v Hv Hn. destruct (Hw (indexes v) (indexes_ok v)) as [_ ->]. by apply Hr.
Qed.

(** Every page of a slot has a user-accessible entry in the active table. *)
Definition user_area_mapped (m0 : memory) (active : Z) (count : nat) : Prop :=
  Forall (fun v => page_present offset m0 active v /\ lf_user (leaf m0 3 active (indexes v)) = true) (slot_pages count).

Lemma data_entry_frame f : valid_frame f -> entry_frame (data_entry f) = Ok f.
Proof. intros Hf. apply entry_with_frame_frame; [done|apply flag_bits_valid|done..]. Qed.

Lemma length_concat_const {B} n (l : list (list B)) :
  Forall (fun k => length k = n) l -> length (concat l) = (n * length l)%nat.
Proof. induction 1 as [|k l Hk Hl IH]; cbn [concat length]; [lia|]. rewrite length_app, Hk, IH. lia. Qed.

(** An address of the upper half is on no page of the user half. *)
Lemma agreeb_upper_half v w : user_address v -> 2 ^ 64 - 2 ^ 47 <= w < 2 ^ 64 -> agreeb 3 (indexes v) (indexes w) = false.
Proof.
  unfold user_address. intros Hv Hw. cbn [agreeb]. apply andb_false_iff. left. apply Z.eqb_neq. unfold indexes.
  rewrite !table_index_div by lia. unfold page_number, PAGE_SIZE. change (512 ^ Z.of_nat 3) with (2 ^ 27).
  rewrite !Z.div_div by lia. change (4096 * 2 ^ 27) with (2 ^ 39).
  assert (0 <= v / 2 ^ 39 < 256) by (split; [apply Z.div_pos; lia|apply Z.div_lt_upper_bound; lia]).
  assert (2 ^ 25 - 256 <= w / 2 ^ 39 < 2 ^ 25).
  { split; [apply Z.div_le_lower_bound; lia|apply Z.div_lt_upper_bound; lia]. }
  rewrite (Z.mod_small (v / 2 ^ 39)) by lia. pose proof (Z.div_mod (w / 2 ^ 39) 512). pose proof (Z.mod_pos_bound (w / 2 ^ 39) 512). lia.
Qed.

Lemma agreeb_elsewhere vs w :
  Forall user_address vs -> user_address w \/ 2 ^ 64 - 2 ^ 47 <= w < 2 ^ 64 -> page_number w ∉ map page_number vs ->
  Forall (fun v => agreeb 3 (indexes v) (indexes w) = false) vs.
Proof.
  intros Hvs Hw Hn. apply Forall_forall. intros v Hv. rewrite Forall_forall in Hvs. pose proof (Hvs v Hv) as Huv.
  destruct Hw as [Hw|Hw]; [|by apply agreeb_upper_half]. rewrite agreeb_page by done. apply Z.eqb_neq. intros E.
  apply Hn. rewrite <-E. apply elem_of_map. eauto.
Qed.

Lemma slot_inv_pages m0 active p4 tables data vs frames m a :
  slot_inv offset m0 active p4 tables data (zip vs frames) m a -> length vs = length frames ->
  Forall (fun v => lf_user (leaf m0 3 active (indexes v)) = true) vs -> data = frames ->
  Forall2 (page_maps m p4 tables) vs frames.
Proof.
  intros Hinv Hlen Hu ->. pose proof (si_pages _ _ _ _ _ _ _ _ _ Hinv) as Hp.
  pose proof (si_valid _ _ _ _ _ _ _ _ _ Hinv) as Hv. apply Forall_app in Hv as [_ Hv]. apply Forall_app in Hv as [Hv _].
  apply Forall2_same_length_lookup_2; [done|]. intros i v f Hi Hf.
  assert (zip vs frames !! i = Some (v, f)) as Hz by (apply lookup_zip_with_Some; eauto).
  destruct (Forall_lookup_1 _ _ _ _ Hp Hz) as (_ & Hl & Ht). cbn [fst snd] in *.
  rewrite (Forall_lookup_1 _ _ _ _ Hu Hi) in Hl. exists (data_entry f). split_and!; try done.
  apply data_entry_frame. by apply (Forall_lookup_1 _ _ _ _ Hv Hf).
Qed.

Lemma prepare_private_p4_slot_spec m active p4 count a :
  bytes_ok m -> valid_frame active -> Forall valid_frame (p4 :: remaining a) -> NoDup (p4 :: remaining a) ->
  (forall ix n, ix_ok ix -> n ∈ path m 3 active ix -> n ∉ p4 :: remaining a) ->
  user_area_mapped m active count -> (count <= MAX_PRIVATE_PROGRAM_PAGE_COUNT)%nat ->
  (slot_cost count <= length (remaining a))%nat ->
  exists slot tables a' m', prepare_private_p4_slot offset active p4 count (a, m) = Done (Ok slot, (a', m')) /\
    bytes_ok m' /\ p4 :: remaining a ≡ₚ tables ++ slot_frames slot ++ remaining a' /\
    length (remaining a) = (slot_cost count + length (remaining a'))%nat /\
    (forall x, Forall (fun n => ~ in_frame n x) tables -> m' x = m x) /\
    sl_p4_frame slot = p4 /\ sl_program_frame_count slot = count /\
    sl_in_use slot = false /\ sl_stack_in_use slot = replicate PRIVATE_STACK_SLOT_COUNT false /\
    slot_mapped m' tables slot /\ slot_shares m active m' tables slot.
Proof.
  intros Hm Hact [Hp4 Hval]%Forall_cons Hnd Hfresh Huser Hcount Hcost. unfold slot_cost in *.
  pose proof (slot_inv_start offset m active p4 a Hm Hact Hp4 Hval Hnd Hfresh) as Hinv0.
  set (pages := map program_page (seq 0 count)). set (spages := flat_map stack_pages (seq 0 PRIVATE_STACK_SLOT_COUNT)).
  assert (length pages = count) as Hlp by (unfold pages; by rewrite length_map, length_seq).
  pose proof (slot_pages_distinct count Hcount) as Hd. unfold user_area_mapped, slot_pages in Huser, Hd.
  fold pages spages in Huser, Hd. apply Forall_app in Huser as [Hu1 Hu2].
  destruct (map_private_pages_spec offset m active p4 pages [p4] [] [] _ a Hinv0) as
    (frames & new & a1 & m1 & E1 & Hl1 & Hn1 & Hr1 & Hinv1).
  { destruct Hd as [Hu Hn]. split; [by apply Forall_app in Hu as [? _]|]. rewrite map_app in Hn. by apply NoDup_app in Hn as [? _]. }
  { apply (Forall_impl _ _ _ Hu1). tauto. }
  { cbn in Hcost. lia. }
  cbn [app] in Hinv1.
  destruct (map_stack_slots_spec offset m active p4 (seq 0 PRIVATE_STACK_SLOT_COUNT) _ _ _ m1 a1 Hinv1) as
    (sframes & new' & a2 & m2 & E2 & Hf2 & Hl2 & Hn2 & Hr2 & Hinv2).
  { rewrite fst_zip by lia. exact Hd. }
  { apply (Forall_impl _ _ _ Hu2). tauto. }
  { pose proof (Permutation_length Hr1) as HL. rewrite !length_app in HL. cbn in Hcost |- *. lia. }
  exists (mkSlot p4 (frames ++ replicate (MAX_PRIVATE_PROGRAM_PAGE_COUNT - length frames) 0) count sframes
            (replicate PRIVATE_STACK_SLOT_COUNT false) false), (p4 :: new ++ new'), a2, m2.
  assert (slot_frames (mkSlot p4 (frames ++ replicate (MAX_PRIVATE_PROGRAM_PAGE_COUNT - length frames) 0) count sframes
            (replicate PRIVATE_STACK_SLOT_COUNT false) false) = frames ++ concat sframes) as Hsf.
  { unfold slot_frames. cbn [sl_program_frames sl_program_frame_count sl_stack_frames]. rewrite take_app_length' by lia. done. }
  rewrite Hsf. split_and!; try done.
  - unfold prepare_private_p4_slot, clone_active_p4_into_frame, mem, set_mem. run. cbn [fst snd].
    rewrite Nat.min_l by done. fold pages. rewrite E1. cbn beta iota. rewrite E2. done.
  - apply (si_bytes _ _ _ _ _ _ _ _ _ Hinv2).
  - rewrite Hr1, Hr2. solve_Permutation.
  - pose proof (Permutation_length Hr1) as HL1. pose proof (Permutation_length Hr2) as HL2. rewrite !length_app in HL1, HL2.
    rewrite (length_concat_const 4 sframes Hf2), Hl2 in HL2. rewrite length_seq in Hn2, HL2. cbn in *. lia.
  - intros x Hx. by apply (si_outside _ _ _ _ _ _ _ _ _ Hinv2).
  - split.
    + repeat split; cbn [sl_program_frames sl_program_frame_count sl_stack_frames sl_stack_in_use]; try done.
      rewrite length_app, length_replicate. lia.
    + constructor.
    + cbn [sl_p4_frame sl_program_frame_count]. rewrite Hsf. unfold slot_pages. fold pages spages.
      apply (slot_inv_pages m active p4 _ (frames ++ concat sframes) _ _ m2 a2); [| | |done].
      * rewrite zip_with_app by lia. exact Hinv2.
      * rewrite !length_app, (length_concat_const 4 sframes Hf2), Hl2. cbn. lia.
      * apply Forall_app. split; eapply Forall_impl; eauto; cbn; tauto.
  - split; cbn [sl_p4_frame sl_program_frame_count].
    + intros ix Hix. rewrite path_head. constructor; [left; constructor|].
      apply (Forall_impl _ _ _ (si_paths _ _ _ _ _ _ _ _ _ Hinv2 ix Hix)). by intros n [_ Hn].
    + unfold slot_pages. fold pages spages. pose proof (si_tree _ _ _ _ _ _ _ _ _ Hinv2) as Ht.
      rewrite <-zip_with_app in Ht by lia. apply Forall_forall. intros v [i Hi]%list_elem_of_lookup.
      destruct (lookup_lt_is_Some_2 (frames ++ concat sframes) i) as [f Hf].
      { apply lookup_lt_Some in Hi. rewrite length_app, (length_concat_const 4 sframes Hf2), Hl2. rewrite length_app in Hi. cbn in *. lia. }
      apply (Forall_lookup_1 _ _ i (v, f) Ht). apply lookup_zip_with_Some. eauto.
    + intros v Hv Hn. apply (si_rest _ _ _ _ _ _ _ _ _ Hinv2); [apply indexes_ok|].
      rewrite <-zip_with_app by lia. apply Forall_forall. intros [w f] Hw%elem_of_zip_l. cbn [fst].
      destruct Hd as [Hud _]. pose proof (agreeb_elsewhere _ v Hud Hv Hn) as Ha. rewrite Forall_forall in Ha. by apply Ha.
Qed.

(** ** The pool *)

(** All frames of the slots: the tables of each ([parts]) and its pages. *)
Definition pool_frames (pool : PrivateP4Pool) (parts : list (list Z)) : list Z :=
  concat (zip_with (fun s t => t ++ slot_frames s) (live_slots pool) parts).

(** The pool while it is filled, from the memory [m0] and the table [active]:
    slots for [count] program pages, with [rest] still to be handed out. *)
Record pool_built (m0 : memory) (active : Z) (count : nat) (m : memory) (rest : list Z) (pool : PrivateP4Pool)
    (parts : list (list Z)) : Prop := {
  pb_bytes : bytes_ok m;
  pb_length : length (po_slots pool) = PRIVATE_P4_POOL_SIZE;
  pb_count : po_count pool = length parts;
  pb_slots : Forall2 (fun s t => slot_mapped m t s /\ slot_shares m0 active m t s /\
    sl_program_frame_count s = count /\ sl_in_use s = false /\
    sl_stack_in_use s = replicate PRIVATE_STACK_SLOT_COUNT false) (live_slots pool) parts;
  pb_valid : Forall valid_frame (pool_frames pool parts ++ rest);
  pb_nodup : NoDup (pool_frames pool parts ++ rest);
  pb_active : forall ix n, ix_ok ix -> n ∈ path m0 3 active ix -> n ∉ pool_frames pool parts ++ rest;
  pb_wf : Forall slot_wf (po_slots pool);
}.

(** Adding a slot at the end. *)
Lemma live_push pool slot : (po_count pool < length (po_slots pool))%nat ->
  live_slots (mkPool (<[po_count pool := slot]> (po_slots pool)) (po_count pool + 1)) = live_slots pool ++ [slot].
Proof.
  intros Hlt. unfold live_slots. cbn [po_count po_slots]. rewrite Nat.add_1_r.
  rewrite (take_S_r _ _ slot); [|by apply list_lookup_insert_eq]. f_equal. by rewrite take_insert_ge.
Qed.

Lemma pool_frames_push pool slot parts tables :
  (po_count pool < length (po_slots pool))%nat -> po_count pool = length parts ->
  pool_frames (mkPool (<[po_count pool := slot]> (po_slots pool)) (po_count pool + 1)) (parts ++ [tables])
  = pool_frames pool parts ++ tables ++ slot_frames slot.
Proof.
  intros Hlt Hc. unfold pool_frames. rewrite live_push by done. rewrite zip_with_app.
  - cbn [zip_with]. rewrite concat_app. cbn [concat]. by rewrite app_nil_r.
  - unfold live_slots. rewrite length_take. lia.
Qed.

Section filling.
Context (m0 : memory) (active : Z) (count : nat).
Hypothesis Hactive : valid_frame active.
Hypothesis Hcount : (count <= MAX_PRIVATE_PROGRAM_PAGE_COUNT)%nat.
Hypothesis Hm0 : bytes_ok m0.
Hypothesis Huser : user_area_mapped m0 active count.

(** The active table is as in [m0], and its tables are none of [frames]. *)
Definition active_kept (m : memory) (frames : list Z) : Prop :=
  forall ix n, ix_ok ix -> n ∈ path m0 3 active ix -> same_frame m0 m n /\ n ∉ frames.

Lemma active_walk m frames : active_kept m frames -> forall ix, ix_ok ix ->
  path m 3 active ix = path m0 3 active ix /\ leaf m 3 active ix = leaf m0 3 active ix.
Proof. intros Hk ix Hix. apply walk_same; [done|]. intros g Hg. by apply (Hk ix). Qed.

Lemma active_tables_valid ix n : n ∈ path m0 3 active ix -> valid_frame n.
Proof. intros Hn. pose proof (path_valid offset m0 3 active ix Hm0 Hactive) as Hv. rewrite Forall_forall in Hv. by apply Hv. Qed.

Lemma active_kept_step m m' frames rest :
  active_kept m frames -> rest ⊆ frames -> Forall valid_frame frames ->
  (forall x, Forall (fun n => ~ in_frame n x) frames -> m' x = m x) -> active_kept m' rest.
Proof.
  intros Hk Hsub Hval Ho ix n Hix Hn. destruct (Hk ix n Hix Hn) as [Hs Hni]. split.
  - intros x Hx. rewrite Ho; [by apply Hs|]. apply Forall_forall. intros g Hg. rewrite Forall_forall in Hval.
    apply (frames_apart offset n g); [by apply (active_tables_valid ix)|by apply Hval|by intros ->|done].
  - intros Hin. by apply Hni, Hsub.
Qed.

(** Writes into the frames that were left do not touch the mappings of the slots already there. *)
Lemma pool_built_same m m' rest used rest' pool parts :
  pool_built m0 active count m rest pool parts -> active_kept m rest -> rest = used ++ rest' ->
  bytes_ok m' -> (forall x, Forall (fun n => ~ in_frame n x) rest -> m' x = m x) ->
  pool_built m0 active count m' rest' pool parts /\ active_kept m' rest'.
Proof.
  intros Hb Hk Hrest Hm' Ho. pose proof (pb_valid _ _ _ _ _ _ _ Hb) as Hval. pose proof (pb_nodup _ _ _ _ _ _ _ Hb) as Hnd.
  apply Forall_app in Hval as [Hvp Hvr]. apply NoDup_app in Hnd as (Hnp & Hnx & Hnr).
  split; [|apply (active_kept_step m m' rest); try done; rewrite Hrest; intros n; rewrite elem_of_app; tauto].
  assert (forall n, valid_frame n -> n ∉ rest -> same_frame m m' n) as Hs.
  { intros n Hn Hni x Hx. apply Ho. apply Forall_forall. intros g Hg. rewrite Forall_forall in Hvr.
    apply (frames_apart offset n g); [done|by apply Hvr|by intros ->|done]. }
  split; try apply Hb; [done| | | |].
  - pose proof (pb_slots _ _ _ _ _ _ _ Hb) as Hf. apply Forall2_same_length_lookup. split; [by apply (Forall2_length _ _ _ Hf)|].
    intros i s t Hi Ht. destruct (Forall2_lookup_lr _ _ _ _ _ _ Hf Hi Ht) as (Hmap & Hsh & Hmore).
    assert (forall n, n ∈ t -> same_frame m m' n) as Ht'.
    { intros n Hn. assert (n ∈ pool_frames pool parts) as Hin.
      { unfold pool_frames. apply list_elem_of_In, in_concat. exists (t ++ slot_frames s). split; apply list_elem_of_In.
        - apply list_elem_of_lookup. exists i. apply lookup_zip_with_Some. eauto.
        - rewrite elem_of_app. by left. }
      rewrite Forall_forall in Hvp. apply Hs; [by apply Hvp|by apply Hnx]. }
    split_and!; try apply Hmore; [by apply (slot_mapped_same m)|]. apply (slot_shares_same m0 active m); try done.
    intros ix n Hix Hn. destruct (Hk ix n Hix Hn) as [_ Hni]. apply Hs; [by apply (active_tables_valid ix)|done].
  - rewrite Hrest in Hvr. rewrite !Forall_app in *. tauto.
  - rewrite Hrest in Hnx, Hnr. apply NoDup_app in Hnr as (_ & _ & ?).
    apply NoDup_app. split_and!; try done. intros n Hn. specialize (Hnx n Hn). rewrite elem_of_app in Hnx. tauto.
  - intros ix n Hix Hn. pose proof (pb_active _ _ _ _ _ _ _ Hb ix n Hix Hn) as Hni. rewrite Hrest in Hni.
    rewrite !elem_of_app in *. tauto.
Qed.

Lemma slot_shares_base m s m' t frames :
  active_kept m frames -> slot_shares m active m' t s -> slot_shares m0 active m' t s.
Proof.
  intros Hk [Hp Ho Hr]. split.
  - intros ix Hix. destruct (active_walk m frames Hk ix Hix) as [<- _]. by apply Hp.
  - done.
  - intros v Hv Hn. destruct (active_walk m frames Hk (indexes v) (indexes_ok v)) as [_ <-]. by apply Hr.
Qed.

(** A slot built from the next frames joins the pool. *)
Lemma pool_built_push m m' p4 rest rest' tables slot pool parts :
  pool_built m0 active count m (p4 :: rest) pool parts -> active_kept m (p4 :: rest) ->
  (po_count pool < PRIVATE_P4_POOL_SIZE)%nat ->
  bytes_ok m' -> p4 :: rest ≡ₚ tables ++ slot_frames slot ++ rest' ->
  (forall x, Forall (fun n => ~ in_frame n x) tables -> m' x = m x) ->
  slot_mapped m' tables slot -> slot_shares m active m' tables slot -> sl_program_frame_count slot = count ->
  sl_in_use slot = false -> sl_stack_in_use slot = replicate PRIVATE_STACK_SLOT_COUNT false ->
  pool_built m0 active count m' rest' (mkPool (<[po_count pool := slot]> (po_slots pool)) (po_count pool + 1)) (parts ++ [tables])
  /\ active_kept m' rest'.
Proof.
  intros Hb Hk Hlt Hm' HP Ho Hmap Hsh Hc1 Hc2 Hc3. pose proof (pb_length _ _ _ _ _ _ _ Hb) as Hlen.
  pose proof (pb_count _ _ _ _ _ _ _ Hb) as Hcnt. pose proof (pb_valid _ _ _ _ _ _ _ Hb) as Hval.
  pose proof (pb_nodup _ _ _ _ _ _ _ Hb) as Hnd. rewrite HP in Hval, Hnd.
  assert (pool_built m0 active count m (tables ++ slot_frames slot ++ rest') pool parts) as Hb1.
  { split; try apply Hb; try done. intros ix n Hix Hn. rewrite <-HP. by apply (pb_active _ _ _ _ _ _ _ Hb ix). }
  assert (active_kept m (tables ++ slot_frames slot ++ rest')) as Hk1.
  { intros ix n Hix Hn. destruct (Hk ix n Hix Hn) as [? Hni]. split; [done|]. by rewrite <-HP. }
  destruct (pool_built_same m m' _ (tables ++ slot_frames slot) rest' pool parts Hb1 Hk1) as [Hb2 Hk2]; try done.
  { by rewrite <-app_assoc. }
  { intros x Hx. apply Ho. by apply Forall_app in Hx as [? _]. }
  split; [|done]. split; cbn [po_slots po_count].
  - done.
  - by rewrite length_insert.
  - rewrite length_app. cbn [length]. lia.
  - rewrite live_push by lia. apply Forall2_app; [apply (pb_slots _ _ _ _ _ _ _ Hb2)|]. constructor; [|constructor].
    split_and!; try done. by apply (slot_shares_base m _ _ _ (p4 :: rest)).
  - rewrite pool_frames_push by (done || lia). by rewrite <-!app_assoc.
  - rewrite pool_frames_push by (done || lia). by rewrite <-!app_assoc.
  - intros ix n Hix Hn. rewrite pool_frames_push by (done || lia). rewrite <-!app_assoc, <-HP. by apply (pb_active _ _ _ _ _ _ _ Hb ix).
  - apply Forall_insert; [apply (pb_wf _ _ _ _ _ _ _ Hb)|]. destruct (sm_shape _ _ _ Hmap) as (_ & _ & Hsl & _ & Hul). by split.
Qed.

Lemma user_area_kept m frames : active_kept m frames -> user_area_mapped m active count.
Proof.
  intros Hk. apply (Forall_impl _ _ _ Huser). intros v [Hp Hu]. unfold page_present.
  destruct (active_walk m frames Hk (indexes v) (indexes_ok v)) as [_ ->]. done.
Qed.

(** How many slots a number of frames is enough for. *)
Definition affordable (frames : nat) : nat := frames / S (slot_cost count).

Lemma affordable_step n : affordable (S (slot_cost count + n)) = S (affordable n).
Proof.
  unfold affordable. replace (S (slot_cost count + n)) with (1 * S (slot_cost count) + n)%nat by lia.
  rewrite Nat.div_add_l by lia. lia.
Qed.

Lemma affordable_none n : (n <= slot_cost count)%nat -> affordable n = O.
Proof. intros Hn. apply Nat.div_small. lia. Qed.

(** One round of the loop: a slot more, or the end for want of frames. *)
Lemma fill_round m a pool parts :
  pool_built m0 active count m (remaining a) pool parts -> active_kept m (remaining a) ->
  (po_count pool < PRIVATE_P4_POOL_SIZE)%nat ->
  (exists slot a' m' tables,
    (forall k : PrivateP4Pool -> M (@Build A) PrivateP4Pool,
      (ifSome frame := alloc orelse mret pool in
       r ← prepare_private_p4_slot offset active frame count;
       match r with Err _ => mret pool | Ok slot => '(_, pool) ← lift (Pool.push slot pool); k pool end) (a, m)
      = k (mkPool (<[po_count pool := slot]> (po_slots pool)) (po_count pool + 1)) (a', m')) /\
    pool_built m0 active count m' (remaining a') (mkPool (<[po_count pool := slot]> (po_slots pool)) (po_count pool + 1)) (parts ++ [tables]) /\
    active_kept m' (remaining a') /\ length (remaining a) = S (slot_cost count + length (remaining a')))
  \/
  (exists a' m',
    (forall k : PrivateP4Pool -> M (@Build A) PrivateP4Pool,
      (ifSome frame := alloc orelse mret pool in
       r ← prepare_private_p4_slot offset active frame count;
       match r with Err _ => mret pool | Ok slot => '(_, pool) ← lift (Pool.push slot pool); k pool end) (a, m)
      = Done (pool, (a', m'))) /\
    pool_built m0 active count m' (remaining a') pool parts /\ active_kept m' (remaining a') /\
    (length (remaining a) <= slot_cost count)%nat).
Proof.
  intros Hb Hk Hlt. destruct (remaining a) as [|p4 rest] eqn:Hrem.
  { right. exists a, m. rewrite Hrem. split_and!; try done; [|cbn; lia]. intros k. unfold alloc. run. by rewrite (allocate_None a Hrem). }
  destruct (allocate_Some a p4 rest Hrem) as (a1 & Ea & Hr1). pose proof (pb_bytes _ _ _ _ _ _ _ Hb) as Hm.
  pose proof (pb_valid _ _ _ _ _ _ _ Hb) as [_ Hval]%Forall_app. pose proof (pb_nodup _ _ _ _ _ _ _ Hb) as (_ & _ & Hnd)%NoDup_app.
  destruct (Nat.le_gt_cases (slot_cost count) (length rest)) as [Henough|Hfew].
  - left. destruct (prepare_private_p4_slot_spec m active p4 count a1) as
      (slot & tables & a2 & m2 & E2 & Hm2 & HP & Hl & Ho & Hp & Hc1 & Hc2 & Hc3 & Hmap & Hsh); try rewrite Hr1; try done.
    { intros ix n Hix Hn. destruct (active_walk m _ Hk ix Hix) as [E _]. rewrite E in Hn. by apply (Hk ix n Hix). }
    { by apply (user_area_kept m (p4 :: rest)). }
    exists slot, a2, m2, tables. rewrite Hr1 in HP, Hl.
    destruct (pool_built_push m m2 p4 rest (remaining a2) tables slot pool parts) as [? ?]; try done.
    split_and!; try done; [|cbn [length]; lia]. intros k. unfold alloc. run. rewrite Ea. cbn beta iota. rewrite E2.
    unfold Pool.push. run. rewrite (pb_length _ _ _ _ _ _ _ Hb). destruct (Nat.leb_spec PRIVATE_P4_POOL_SIZE (po_count pool)); [lia|].
    rewrite index_set_ok by (rewrite (pb_length _ _ _ _ _ _ _ Hb); done). done.
  - right. destruct (prepare_private_p4_slot_confined active p4 count Hcount a1 m Hm) as (r & a2 & m2 & E2 & Hm2 & (u & Hu & Hl) & Ho).
    rewrite Hr1 in Hu, Ho. destruct r as [slot|e]; [exfalso; rewrite Hu, length_app in Hfew; lia|].
    exists a2, m2. assert (forall x, Forall (fun n => ~ in_frame n x) (p4 :: rest) -> m2 x = m x) as Ho'.
    { intros x [? ?]%Forall_cons. by apply Ho. }
    destruct (pool_built_same m m2 (p4 :: rest) (p4 :: u) (remaining a2) pool parts) as [? ?]; try done; [by rewrite Hu|].
    split_and!; [|done|done|cbn [length]; lia]. intros k. unfold alloc. run. rewrite Ea. cbn beta iota. by rewrite E2.
Qed.

Lemma fill_pool_spec fuel m a pool parts :
  pool_built m0 active count m (remaining a) pool parts -> active_kept m (remaining a) ->
  (po_count pool <= PRIVATE_P4_POOL_SIZE < fuel + po_count pool)%nat ->
  exists pool' parts' a' m', fill_pool offset fuel active count pool (a, m) = Done (pool', (a', m')) /\
    pool_built m0 active count m' (remaining a') pool' parts' /\ active_kept m' (remaining a') /\
    po_count pool' = Nat.min PRIVATE_P4_POOL_SIZE (po_count pool + affordable (length (remaining a))).
Proof.
  revert m a pool parts. induction fuel as [|fuel IH]; intros m a pool parts Hb Hk Hfuel; [lia|].
  cbn [fill_pool]. destruct (Nat.leb_spec PRIVATE_P4_POOL_SIZE (po_count pool)) as [Hfull|Hroom].
  { exists pool, parts, a, m. split_and!; try done. lia. }
  destruct (fill_round m a pool parts Hb Hk Hroom) as
    [(slot & a1 & m1 & t & E & Hb1 & Hk1 & Hl)|(a1 & m1 & E & Hb1 & Hk1 & Hl)].
  - destruct (IH m1 a1 _ _ Hb1 Hk1) as (pool' & parts' & a' & m' & E' & Hb' & Hk' & Hc'); [cbn [po_count]; lia|].
    exists pool', parts', a', m'. split_and!; try done; [by rewrite E|]. cbn [po_count] in Hc'.
    rewrite Hc', Hl, affordable_step. lia.
  - exists pool, parts, a1, m1. split_and!; try (done || by rewrite E). rewrite affordable_none by done. lia.
Qed.
End filling.

(** ** Translation *)

(** What [translate_addr] makes of the leaf of a walk. *)
Definition leaf_frame (r : Leaf) : outcome (option Z) :=
  match entry_frame (lf_entry r) with
  | Ok f => Done (Some f)
  | Err FrameNotPresent => Done None
  | Err HugeFrame => Panic
  end.

Fixpoint index_list (l : nat) (ix : nat -> Z) : list Z :=
  match l with O => [ix O] | S k => ix l :: index_list k ix end.

Lemma translate_loop_leaf m l f ix : translate_loop offset m f (index_list l ix) = leaf_frame (leaf m l f ix).
Proof.
  revert f; induction l as [|l IH]; intros f; cbn [index_list translate_loop PageTablesProofs.leaf].
  - unfold leaf_frame. cbn [lf_entry]. by destruct (entry_frame _) as [g|[]].
  - destruct (entry_frame (table_entry m offset f (ix (S l)))) as [g|e] eqn:E.
    + rewrite IH. done.
    + unfold leaf_frame. cbn [lf_entry]. rewrite E. by destruct e.
Qed.

Lemma translate_addr_leaf m p4 v :
  translate_addr offset m p4 v =
  (f ← leaf_frame (leaf m 3 p4 (indexes v)); mret (option_map (fun f => f + v mod PAGE_SIZE) f)).
Proof. unfold translate_addr. by rewrite <-(translate_loop_leaf m 3). Qed.

Lemma same_page_leaf m l p4 v w : 0 <= v -> 0 <= w -> page_number v = page_number w ->
  leaf m l p4 (indexes v) = leaf m l p4 (indexes w).
Proof. intros Hv Hw E. apply leaf_ext. intros k _. unfold indexes. rewrite !table_index_div by done. by rewrite E. Qed.

Lemma page_offset_number v o : v mod PAGE_SIZE = 0 -> 0 <= o < PAGE_SIZE ->
  page_number (v + o) = page_number v /\ (v + o) mod PAGE_SIZE = o.
Proof.
  unfold page_number, PAGE_SIZE. intros Hv Ho. apply Z.div_exact in Hv; [|lia]. rewrite Hv.
  rewrite (Z.mul_comm 4096), Z.add_comm, Z.div_add, Z.mod_add by lia. rewrite Z.div_small, Z.mod_small by lia.
  split; [|done]. rewrite Z.div_mul; lia.
Qed.

Lemma page_maps_translate m p4 tables v frame o :
  page_maps m p4 tables v frame -> 0 <= v -> v mod PAGE_SIZE = 0 -> 0 <= o < PAGE_SIZE ->
  translate_addr offset m p4 (v + o) = Done (Some (frame + o)).
Proof.
  intros (e & Hl & He & _) Hv Hm Ho. destruct (page_offset_number v o Hm Ho) as [Hp Hr].
  rewrite translate_addr_leaf, (same_page_leaf m 3 p4 (v + o) v), Hl by lia. unfold leaf_frame. cbn [lf_entry].
  rewrite He. run. cbn [option_map]. by rewrite Hr.
Qed.

Lemma slot_pages_aligned count v : (count <= MAX_PRIVATE_PROGRAM_PAGE_COUNT)%nat -> v ∈ slot_pages count ->
  user_address v /\ v mod PAGE_SIZE = 0.
Proof.
  intros Hc Hv. assert (v ∈ slot_pages MAX_PRIVATE_PROGRAM_PAGE_COUNT) as Hin.
  { apply (elem_of_submseteq _ _ _ Hv), sublist_submseteq, program_pages_sublist, Hc. }
  split; [destruct all_pages_distinct as [Hu _]; rewrite Forall_forall in Hu; by apply Hu|].
  assert (Forall (fun v => v mod PAGE_SIZE = 0) (slot_pages MAX_PRIVATE_PROGRAM_PAGE_COUNT)) as Ha.
  { apply (bool_decide_unpack _). vm_compute. exact I. }
  rewrite Forall_forall in Ha. by apply Ha.
Qed.

(** ** Boot *)

(** The state [init_private_p4_pool] starts from: an empty pool, an active table
    in which the user area is mapped, and usable frames that hold none of its tables. *)
Record boot_state (count : nat) (a : A) (s : PagingState) : Prop := {
  bs_bytes : bytes_ok (ad_mem (pg_addr s));
  bs_pool : ad_pool (pg_addr s) = Pool.new;
  bs_active : valid_frame (pg_cr3 s).1;
  bs_valid : Forall valid_frame (remaining a);
  bs_nodup : NoDup (remaining a);
  bs_fresh : forall ix n, ix_ok ix -> n ∈ path (ad_mem (pg_addr s)) 3 (pg_cr3 s).1 ix -> n ∉ remaining a;
  bs_user : user_area_mapped (ad_mem (pg_addr s)) (pg_cr3 s).1 count;
}.

Lemma max_private_pages_ge images p n : max_private_pages images p = Done n -> p <= n.
Proof.
  revert p; induction images as [|i images IH]; intros p E; cbn [max_private_pages] in E; run_in E.
  - injection E as <-. lia.
  - destruct (image_private_page_count i) as [k|]; [|done]. apply IH in E. lia.
Qed.

Lemma required_private_program_pages_range images n :
  required_private_program_pages images = Done n -> 1 <= n <= Z.of_nat MAX_PRIVATE_PROGRAM_PAGE_COUNT.
Proof.
  unfold required_private_program_pages. intros E. run_in E. destruct (max_private_pages images 1) as [p|]; [|done].
  injection E as <-. unfold MAX_PRIVATE_PROGRAM_PAGE_COUNT. lia.
Qed.

Lemma init_private_p4_pool_spec images n a s :
  required_private_program_pages images = Done n -> boot_state (Z.to_nat n) a s ->
  let m0 := ad_mem (pg_addr s) in let active := (pg_cr3 s).1 in
  exists pool parts a' m',
    init_private_p4_pool images offset (a, s) =
      Done (po_count pool, (a', s <| pg_kernel_p4 := Some active |> <| pg_addr := mkAddr pool (Some offset) offset m' |>)) /\
    pool_built m0 active (Z.to_nat n) m' (remaining a') pool parts /\ active_kept m0 active m' (remaining a') /\
    po_count pool = Nat.min PRIVATE_P4_POOL_SIZE (affordable (Z.to_nat n) (length (remaining a))).
Proof.
  intros Hreq Hb m0 active. pose proof (required_private_program_pages_range _ _ Hreq) as Hn.
  destruct (fill_pool_spec m0 active (Z.to_nat n) (bs_active _ _ _ Hb)) with
    (fuel := S PRIVATE_P4_POOL_SIZE) (m := m0) (a := a) (pool := Pool.new) (parts := @nil (list Z)) as
    (pool & parts & a' & m' & E & Hpb & Hk & Hc).
  - lia.
  - apply (bs_bytes _ _ _ Hb).
  - apply (bs_user _ _ _ Hb).
  - split; try done; [apply (bs_bytes _ _ _ Hb)|apply (bs_valid _ _ _ Hb)|apply (bs_nodup _ _ _ Hb)|apply (bs_fresh _ _ _ Hb)|].
    by apply Forall_replicate.
  - intros ix k Hix Hk. split; [done|by apply (bs_fresh _ _ _ Hb ix)].
  - unfold Pool.new, PRIVATE_P4_POOL_SIZE; cbn [po_count]; lia.
  - exists pool, parts, a', m'. split_and!; try done. unfold init_private_p4_pool, record_kernel_p4_frame, active_p4_frame, with_addr.
    pose proof (bs_pool _ _ _ Hb) as Hpool. destruct s as [[pl po pv mm] cr kp]. unfold m0, active in E.
    cbn [pg_addr ad_pool ad_mem pg_cr3] in E, Hpool. subst pl. run.
    cbn -[fill_pool Pool.new PRIVATE_P4_POOL_SIZE required_private_program_pages Z.to_nat]. rewrite Hreq.
    cbn -[fill_pool Pool.new PRIVATE_P4_POOL_SIZE Z.to_nat]. by rewrite E.
Qed.

Lemma slot_frames_sublist slots parts : length slots = length parts ->
  concat (map slot_frames slots) `sublist_of` concat (zip_with (fun s t => t ++ slot_frames s) slots parts).
Proof.
  revert parts; induction slots as [|s slots IH]; intros [|t parts] E; try done. cbn [map zip_with concat].
  rewrite <-app_assoc. apply sublist_inserts_l, sublist_app; [done|]. apply IH. by injection E.
Qed.

Lemma pool_built_data_distinct m0 active count m rest pool parts :
  pool_built m0 active count m rest pool parts -> NoDup (concat (map slot_frames (live_slots pool))).
Proof.
  intros Hb. pose proof (pb_nodup _ _ _ _ _ _ _ Hb) as (Hn & _)%NoDup_app. apply (sublist_NoDup _ _ Hn).
  apply slot_frames_sublist, (Forall2_length _ _ _ (pb_slots _ _ _ _ _ _ _ Hb)).
Qed.

Lemma leaf_le_frame r r' : leaf_le r r' -> leaf_frame r = leaf_frame r'.
Proof. intros (_ & E & _). unfold leaf_frame. by rewrite E. Qed.

(** What a slot of the finished pool translates. *)
Lemma pool_built_translate m0 active count m rest pool parts slot :
  pool_built m0 active count m rest pool parts -> (count <= MAX_PRIVATE_PROGRAM_PAGE_COUNT)%nat ->
  slot ∈ live_slots pool ->
  length (slot_frames slot) = length (slot_pages count) /\
  (forall j v f o, slot_pages count !! j = Some v -> slot_frames slot !! j = Some f -> 0 <= o < PAGE_SIZE ->
     translate_addr offset m (sl_p4_frame slot) (v + o) = Done (Some (f + o))) /\
  (forall v, user_address v \/ 2 ^ 64 - 2 ^ 47 <= v < 2 ^ 64 -> page_number v ∉ map page_number (slot_pages count) ->
     translate_addr offset m (sl_p4_frame slot) v = translate_addr offset m0 active v).
Proof.
  intros Hb Hc [i Hi]%list_elem_of_lookup. pose proof (pb_slots _ _ _ _ _ _ _ Hb) as Hf.
  destruct (Forall2_lookup_l _ _ _ _ _ Hf Hi) as (t & Ht & Hmap & Hsh & <- & _).
  pose proof (sm_pages _ _ _ Hmap) as Hp. split_and!.
  - symmetry. apply (Forall2_length _ _ _ Hp).
  - intros j v f o Hv Hf' Ho. pose proof (Forall2_lookup_lr _ _ _ _ _ _ Hp Hv Hf') as Hpm.
    destruct (slot_pages_aligned _ v Hc) as [Hu Ha]; [by apply list_elem_of_lookup_2 in Hv|]. unfold user_address in Hu.
    apply (page_maps_translate m (sl_p4_frame slot) t); (done || lia).
  - intros v Hv Hn. rewrite !translate_addr_leaf. by rewrite (leaf_le_frame _ _ (ss_rest _ _ _ _ _ Hsh v Hv Hn)).
Qed.

(** C6. Boot builds as many private page tables as the usable frames allow, at
    most eight.  Each maps every program and stack page of the user area to a
    frame that no other page of any slot uses, translates every other canonical
    address as the kernel's own table did, and the kernel's table still
    translates everything as before. *)
Theorem private_tables_isolate images n a s :
  required_private_program_pages images = Done n -> boot_state (Z.to_nat n) a s ->
  exists k a' s', init_private_p4_pool images offset (a, s) = Done (k, (a', s')) /\
    k = Nat.min PRIVATE_P4_POOL_SIZE (length (remaining a) / S (slot_cost (Z.to_nat n))) /\
    let m := ad_mem (pg_addr s) in let m' := ad_mem (pg_addr s') in
    let active := (pg_cr3 s).1 in let live := live_slots (ad_pool (pg_addr s')) in
    length live = k /\ NoDup (concat (map slot_frames live)) /\
    (forall slot, slot ∈ live ->
      length (slot_frames slot) = length (slot_pages (Z.to_nat n)) /\
      (forall j v f o, slot_pages (Z.to_nat n) !! j = Some v -> slot_frames slot !! j = Some f -> 0 <= o < PAGE_SIZE ->
         translate_addr offset m' (sl_p4_frame slot) (v + o) = Done (Some (f + o))) /\
      (forall v, user_address v \/ 2 ^ 64 - 2 ^ 47 <= v < 2 ^ 64 -> page_number v ∉ map page_number (slot_pages (Z.to_nat n)) ->
         translate_addr offset m' (sl_p4_frame slot) v = translate_addr offset m active v)) /\
    (forall v, translate_addr offset m' active v = translate_addr offset m active v).
Proof.
  intros Hreq Hb. destruct (init_private_p4_pool_spec images n a s Hreq Hb) as (pool & parts & a' & m' & E & Hpb & Hk & Hc).
  pose proof (required_private_program_pages_range _ _ Hreq) as Hn.
  eexists (po_count pool), a', _. split_and!; [exact E|exact Hc|]. destruct s as [sa cr kp].
  cbn -[translate_addr live_slots slot_frames slot_pages]. split_and!.
  - unfold live_slots. rewrite length_take, (pb_length _ _ _ _ _ _ _ Hpb), Hc. apply Nat.min_l. lia.
  - by apply (pool_built_data_distinct _ _ _ _ _ _ _ Hpb).
  - intros slot Hs. apply (pool_built_translate _ _ _ _ _ _ _ slot Hpb); [lia|done].
  - intros v. rewrite !translate_addr_leaf. destruct (active_walk _ _ _ _ Hk (indexes v) (indexes_ok v)) as [_ E'].
    cbn [pg_cr3] in E'. by rewrite E'.
Qed.
End private.
