(* ===== verification/PrivateMem.v ===== *)
(** * Private memory of a process

    [prepare_process_private_memory] writes a program, its argument area and
    its initial stack into the frames of a slot, page by page.  Seen through the
    slot's page table, the result is what writing to flat memory would give;
    the pages get the protection their segments ask for; nothing outside the
    slot changes. *)

From S2P Require Import Prelude Ring3 Ring3Proofs Elf ElfProofs AddrSpace AddrSpaceProofs PageTables PageTablesProofs PrivateTables.

(** ** Memory seen through a list of frames *)

(** The common form of [mem_copy], [mem_fill] and [mem_move]. *)
Definition put (m : memory) (a n : Z) (g : Z -> Z) : memory :=
  fun x => if (a <=? x) && (x <? a + n) then g (x - a) else m x.

Lemma mem_copy_put m a bs : mem_copy m a bs = put m a (Z.of_nat (length bs)) (fun k => nth (Z.to_nat k) bs 0).
Proof. done. Qed.
Lemma mem_fill_put m a v n : mem_fill m a v n = put m a n (fun _ => v).
Proof. done. Qed.
Lemma mem_move_put m d s n : mem_move m d s n = put m d n (fun k => m (s + k)).
Proof. done. Qed.

Lemma mem_copy_nil m v w : mem_copy m v [] w = m w.
Proof. unfold mem_copy. change (Z.of_nat (length [])) with 0. destruct (Z.leb_spec v w), (Z.ltb_spec w (v + 0)); done || lia. Qed.

Lemma mem_copy_app m v bs c w : (c <= length bs)%nat ->
  mem_copy (mem_copy m v (take c bs)) (v + Z.of_nat c) (drop c bs) w = mem_copy m v bs w.
Proof.
  intros Hc. unfold mem_copy. rewrite length_drop, length_take_le by done.
  replace (v + Z.of_nat c + Z.of_nat (length bs - c)) with (v + Z.of_nat (length bs)) by lia.
  destruct (Z.leb_spec (v + Z.of_nat c) w), (Z.ltb_spec w (v + Z.of_nat (length bs))), (Z.leb_spec v w),
    (Z.ltb_spec w (v + Z.of_nat c)); cbn [andb]; try lia; try done.
  - rewrite !nth_lookup, lookup_drop. f_equal. f_equal. lia.
  - rewrite !nth_lookup, lookup_take_lt by lia. done.
Qed.

Lemma mem_fill_app m v b c n w : 0 <= c <= n -> mem_fill (mem_fill m v b c) (v + c) b (n - c) w = mem_fill m v b n w.
Proof.
  intros Hc. unfold mem_fill. replace (v + c + (n - c)) with (v + n) by lia.
  destruct (Z.leb_spec (v + c) w), (Z.ltb_spec w (v + n)), (Z.leb_spec v w), (Z.ltb_spec w (v + c)); cbn [andb]; done || lia.
Qed.

(** Two flat memories that agree on some addresses do so after the same write. *)
Lemma put_ext (P : Z -> Prop) m m' a n g : (forall w, P w -> m w = m' w) -> forall w, P w -> put m a n g w = put m' a n g w.
Proof. intros E w Hw. unfold put. destruct (_ && _); [done|by apply E]. Qed.

Section views.
Context (offset : Z).
Notation in_frame := (in_frame offset).

(** The flat memory at [base] that the frames hold, page after page. *)
Definition view (base : Z) (frames : list Z) (m : memory) : memory :=
  fun w => m (offset + nth (Z.to_nat ((w - base) / PAGE_SIZE)) frames 0 + (w - base) mod PAGE_SIZE).

Definition in_pages (base : Z) (n : nat) (w : Z) : Prop := base <= w < base + Z.of_nat n * PAGE_SIZE.

Definition frames_ok (frames : list Z) : Prop := NoDup frames /\ Forall valid_frame frames.

(** Outside of the first [n] frames. *)
Definition kept (frames : list Z) (m m' : memory) : Prop := forall x, Forall (fun f => ~ in_frame f x) frames -> m' x = m x.

Lemma kept_refl frames m : kept frames m m.
Proof. done. Qed.

Lemma kept_trans frames m1 m2 m3 : kept frames m1 m2 -> kept frames m2 m3 -> kept frames m1 m3.
Proof. intros H1 H2 x Hx. rewrite H2, H1 by done. done. Qed.

Lemma kept_mono frames frames' m m' : frames ⊆ frames' -> kept frames m m' -> kept frames' m m'.
Proof. intros Hs H x Hx. apply H. rewrite Forall_forall in *. auto. Qed.

Lemma page_of base n w : in_pages base n w ->
  (Z.to_nat ((w - base) / PAGE_SIZE) < n)%nat /\ 0 <= (w - base) mod PAGE_SIZE < PAGE_SIZE /\
  w = base + Z.of_nat (Z.to_nat ((w - base) / PAGE_SIZE)) * PAGE_SIZE + (w - base) mod PAGE_SIZE.
Proof.
  unfold in_pages, PAGE_SIZE. intros Hw. pose proof (Z.div_mod (w - base) 4096). pose proof (Z.mod_pos_bound (w - base) 4096).
  assert (0 <= (w - base) / 4096 < Z.of_nat n) by (split; [apply Z.div_pos; lia|apply Z.div_lt_upper_bound; lia]). lia.
Qed.

(** A write inside one frame is a write to the flat memory. *)
Lemma view_put base frames n m i f po k g w :
  frames_ok (take n frames) -> (n <= length frames)%nat -> frames !! i = Some f -> (i < n)%nat -> 0 <= po -> po + k <= PAGE_SIZE ->
  in_pages base n w ->
  view base frames (put m (offset + f + po) k g) w = put (view base frames m) (base + Z.of_nat i * PAGE_SIZE + po) k g w.
Proof.
  intros [Hnd Hval] Hn Hi Hin Hpo Hk Hw. destruct (page_of base n w Hw) as (Hj & Hr & Ew).
  set (j := Z.to_nat ((w - base) / PAGE_SIZE)) in *. set (r := (w - base) mod PAGE_SIZE) in *.
  assert (frames !! j = Some (nth j frames 0)) as Hfj.
  { rewrite nth_lookup. destruct (lookup_lt_is_Some_2 frames j) as [h Hh]; [lia|by rewrite Hh]. }
  unfold put, view. fold j r. set (h := nth j frames 0) in *. clearbody j r h. unfold PAGE_SIZE in *.
  assert (valid_frame f /\ valid_frame h) as [Hvf Hvh].
  { split; apply (Forall_lookup_1 _ _ i f Hval) || apply (Forall_lookup_1 _ _ j h Hval); rewrite lookup_take_lt by lia; done. }
  destruct (Nat.eq_dec i j) as [E|Hne].
  - subst j. assert (h = f) as -> by congruence.
    assert (offset + f + r - (offset + f + po) = w - (base + Z.of_nat i * 4096 + po)) as -> by lia.
    destruct (Z.leb_spec (offset + f + po) (offset + f + r)), (Z.ltb_spec (offset + f + r) (offset + f + po + k)),
      (Z.leb_spec (base + Z.of_nat i * 4096 + po) w), (Z.ltb_spec w (base + Z.of_nat i * 4096 + po + k));
      cbn [andb]; done || lia.
  - assert (f <> h) as Hfh.
    { intros ->. apply Hne. apply (NoDup_lookup _ _ _ h Hnd); rewrite lookup_take_lt by lia; done. }
    destruct (Z.leb_spec (offset + f + po) (offset + h + r)), (Z.ltb_spec (offset + h + r) (offset + f + po + k)); cbn [andb].
    { exfalso. apply Hfh. apply (valid_frame_distinct f h (offset + h + r) offset); unfold PAGE_SIZE; (done || lia). }
    all: destruct (Z.leb_spec (base + Z.of_nat i * 4096 + po) w),
      (Z.ltb_spec w (base + Z.of_nat i * 4096 + po + k)); cbn [andb]; try done.
    all: exfalso; apply Hne; lia.
Qed.

Lemma put_kept frames m i f po k g : frames !! i = Some f -> 0 <= po -> po + k <= PAGE_SIZE ->
  kept frames m (put m (offset + f + po) k g).
Proof.
  intros Hi Hpo Hk x Hx. pose proof (Forall_lookup_1 _ _ i f Hx Hi) as Hf. unfold PageTablesProofs.in_frame in Hf. unfold put.
  destruct (Z.leb_spec (offset + f + po) x), (Z.ltb_spec x (offset + f + po + k)); done || (exfalso; apply Hf; lia).
Qed.

Lemma put_bytes m a n g : bytes_ok m -> (forall k, 0 <= k < n -> is_byte (g k)) -> bytes_ok (put m a n g).
Proof.
  intros Hm Hg x. unfold put. destruct (Z.leb_spec a x), (Z.ltb_spec x (a + n)); cbn [andb]; try apply Hm. apply Hg. lia.
Qed.

(** ** Writes through the frames *)

Section flat.
Context (base : Z) (frames : list Z) (n : nat).
Hypothesis Hframes : frames_ok (take n frames).
Hypothesis Hn : (n <= length frames)%nat.
Notation P := (in_pages base n).
Notation V := (view base frames).

(** [c] succeeds, writes only into the first [n] frames, and acts on the flat memory they hold as [F]. *)
Definition flat (c : M memory (result () AddressSpaceError)) (F : memory -> memory) : Prop :=
  (forall f f', (forall w, P w -> f w = f' w) -> forall w, P w -> F f w = F f' w) /\
  forall m, bytes_ok m -> exists m', c m = Done (Ok (), m') /\ bytes_ok m' /\ kept (take n frames) m m' /\
    forall w, P w -> V m' w = F (V m) w.

Lemma flat_ret : flat (mret (Ok ())) (fun f => f).
Proof. split; [done|]. intros m Hm. exists m. split_and!; try done. Qed.

Lemma flat_try c d F G : flat c F -> flat d G -> flat (try _ := c in d) (fun f => G (F f)).
Proof.
  intros [HF Hc] [HG Hd]. split; [intros f f' E w Hw; apply HG; [|done]; intros; by apply HF|].
  intros m Hm. destruct (Hc m Hm) as (m1 & E1 & Hm1 & Hk1 & Hv1). destruct (Hd m1 Hm1) as (m2 & E2 & Hm2 & Hk2 & Hv2).
  exists m2. split_and!; try done; [run; by rewrite E1|by apply (kept_trans _ m m1)|].
  intros w Hw. rewrite Hv2 by done. by apply HG.
Qed.

Lemma flat_ext c F G : flat c F -> (forall f w, P w -> F f w = G f w) -> flat c G.
Proof.
  intros [HF Hc] E. split.
  - intros f f' Ef w Hw. rewrite <-!E by done. by apply HF.
  - intros m Hm. destruct (Hc m Hm) as (m' & ? & ? & ? & Hv). exists m'. split_and!; try done. intros w Hw. by rewrite <-E, Hv.
Qed.

(** One chunk within a page, followed by [d]. *)
Lemma flat_chunk i f po k g d F v :
  frames !! i = Some f -> (i < n)%nat -> 0 <= po -> po + k <= PAGE_SIZE -> v = base + Z.of_nat i * PAGE_SIZE + po ->
  (forall j, 0 <= j < k -> is_byte (g j)) -> flat d F ->
  flat (modify (fun m => put m (offset + f + po) k g);; d) (fun h => F (put h v k g)).
Proof.
  intros Hi Hin Hpo Hk -> Hg [HF Hd]. split; [intros h h' E w Hw; apply HF; [|done]; by apply put_ext|].
  intros m Hm. set (m1 := put m (offset + f + po) k g).
  assert (bytes_ok m1) as Hm1 by (by apply put_bytes). destruct (Hd m1 Hm1) as (m2 & E2 & Hm2 & Hk2 & Hv2).
  exists m2. split_and!; try done.
  - apply (kept_trans _ m m1); [|done]. apply (put_kept _ m i); [|done..]. by rewrite lookup_take_lt.
  - intros w Hw. rewrite Hv2 by done. apply HF; [|done]. intros w' Hw'. by apply (view_put base frames n).
Qed.

(** The page of [v] and its place in the frames. *)
Lemma page_frame v : P v ->
  exists f, frames !! Z.to_nat ((v - base) / PAGE_SIZE) = Some f /\ (Z.to_nat ((v - base) / PAGE_SIZE) < n)%nat /\
  0 <= (v - base) mod PAGE_SIZE < PAGE_SIZE /\
  v = base + Z.of_nat (Z.to_nat ((v - base) / PAGE_SIZE)) * PAGE_SIZE + (v - base) mod PAGE_SIZE.
Proof.
  intros Hv. destruct (page_of base n v Hv) as (Hi & Hr & E). destruct (lookup_lt_is_Some_2 frames (Z.to_nat ((v - base) / PAGE_SIZE))) as [f Hf]; [lia|].
  exists f. split_and!; (done || lia).
Qed.

Lemma write_pages_flat fuel page_index v bs :
  (forall w, P w -> page_index w = Ok (Z.to_nat ((w - base) / PAGE_SIZE))) ->
  (length bs <= fuel)%nat -> Forall is_byte bs -> base <= v -> v + Z.of_nat (length bs) <= base + Z.of_nat n * PAGE_SIZE ->
  flat (write_pages offset fuel page_index base frames v bs) (fun f => mem_copy f v bs).
Proof.
  intros Hpi. revert v bs. induction fuel as [|fuel IH]; intros v bs Hlen Hbs Hlo Hhi; (destruct bs as [|b bs];
    [apply (flat_ext _ (fun f => f)); [apply flat_ret|intros f w _; by rewrite mem_copy_nil]|]); [cbn in Hlen; lia|].
  cbn [write_pages]. set (l := b :: bs) in *.
  assert (P v) as Hv by (unfold in_pages; unfold l in Hhi; cbn [length] in Hhi; lia).
  rewrite (Hpi v Hv). destruct (page_frame v Hv) as (f & Hf & Hi & Hr & Ev).
  set (po := (v - base) mod PAGE_SIZE) in *. set (i := Z.to_nat ((v - base) / PAGE_SIZE)) in *.
  set (c := Z.min (Z.of_nat (length l)) (PAGE_SIZE - po)).
  assert (0 < c <= Z.of_nat (length l) /\ po + c <= PAGE_SIZE) as [Hc Hpc] by (unfold c, l; cbn [length]; lia).
  rewrite (proj2 (index_Done frames i f) Hf).
  set (k := Z.of_nat (length (take (Z.to_nat c) l))). set (g := fun k => nth (Z.to_nat k) (take (Z.to_nat c) l) 0).
  apply (flat_ext _ (fun h => mem_copy (put h v k g) (v + c) (drop (Z.to_nat c) l))).
  - assert (length (take (Z.to_nat c) l) = Z.to_nat c) as Htl by (rewrite length_take; lia).
    apply (flat_chunk i f po k g (write_pages offset fuel page_index base frames (v + c) (drop (Z.to_nat c) l))
             (fun h => mem_copy h (v + c) (drop (Z.to_nat c) l)) v Hf Hi); [lia|unfold k; lia|done| |].
    + unfold k, g. intros j Hj. rewrite Forall_forall in Hbs. apply Hbs. assert (In (nth (Z.to_nat j) (take (Z.to_nat c) l) 0) (take (Z.to_nat c) l)) as Hin by (apply nth_In; lia).
      apply list_elem_of_In in Hin. by apply elem_of_take in Hin as (q & Hq%list_elem_of_lookup_2 & _).
    + apply IH; [rewrite length_drop; lia|by apply Forall_drop|lia|rewrite length_drop; lia].
  - intros h w _. unfold k, g. rewrite <-mem_copy_put. replace (v + c) with (v + Z.of_nat (Z.to_nat c)) by lia. apply mem_copy_app. lia.
Qed.

(** Page [j] as a whole: the bytes [h] at each offset. *)
Definition put_page (f : Z) (h : Z -> Z) (m : memory) : memory := put m (offset + f) PAGE_SIZE h.

Lemma put_page_view j f h m : frames !! j = Some f -> (j < n)%nat -> (forall o, is_byte (h o)) -> bytes_ok m ->
  bytes_ok (put_page f h m) /\ kept (take n frames) m (put_page f h m) /\
  forall w, P w -> V (put_page f h m) w =
    if (base + Z.of_nat j * PAGE_SIZE <=? w) && (w <? base + Z.of_nat (S j) * PAGE_SIZE)
    then h (w - (base + Z.of_nat j * PAGE_SIZE)) else V m w.
Proof.
  intros Hf Hj Hg Hm. unfold put_page. split_and!.
  - apply put_bytes; [done|]. intros; apply Hg.
  - rewrite <-(Z.add_0_r (offset + f)). apply (put_kept _ m j); [by rewrite lookup_take_lt|lia|lia].
  - intros w Hw. rewrite <-(Z.add_0_r (offset + f)).
    rewrite (view_put base frames n m j f 0 PAGE_SIZE _ w) by (done || lia). unfold put. rewrite Z.add_0_r.
    by replace (base + Z.of_nat j * PAGE_SIZE + PAGE_SIZE) with (base + Z.of_nat (S j) * PAGE_SIZE) by lia.
Qed.
End flat.

(** *** Whole pages *)

Context `{EntryOps}.

(** The byte the kernel reads at virtual address [w] when the table [cr3] is loaded. *)
Definition loaded_byte (m : memory) (cr3 w : Z) : option Z := m <$> mmu offset m false cr3 w.

(** The first [pc] pages at [FIRST_USER_ENTRY] are mapped by the loaded table, and
    writes to the given frames change neither the mapping nor what it maps. *)
Definition source_mapped (cr3 : Z) (frames : list Z) (m : memory) (pc : nat) : Prop := forall j, (j < pc)%nat ->
  exists a, forall m', kept frames m m' -> mmu offset m' false cr3 (FIRST_USER_ENTRY + Z.of_nat j * PAGE_SIZE) = Some a /\
    forall o, 0 <= o < PAGE_SIZE -> Forall (fun f => ~ in_frame f (a + o)) frames.

Lemma source_mapped_mono cr3 frames frames' m m' pc : frames' ⊆ frames -> kept frames m m' ->
  source_mapped cr3 frames m pc -> source_mapped cr3 frames' m' pc.
Proof.
  intros Hs Hk Hm j Hj. destruct (Hm j Hj) as [a Ha]. exists a. intros m2 Hk2.
  destruct (Ha m2) as [E Hf]; [apply (kept_trans _ m m'); [done|by apply (kept_mono frames')]|].
  split; [done|]. intros o Ho. specialize (Hf o Ho). rewrite Forall_forall in *. auto.
Qed.

(** Addresses of one page have one translation. *)
Lemma mmu_same_page m write p4 v o : 0 <= v -> v mod PAGE_SIZE = 0 -> 0 <= o < PAGE_SIZE ->
  mmu offset m write p4 (v + o) = (fun a => a + o) <$> mmu offset m write p4 v.
Proof.
  intros H0 Hv Ho. destruct (page_offset_number v o Hv Ho) as [Hp Hm]. unfold mmu. rewrite !table_index_div, Hp, Hm, Hv by lia.
  destruct (mmu_walk _ _ _ _ _); cbn; [|done]. f_equal. lia.
Qed.

Lemma source_byte cr3 frames m m' pc w : source_mapped cr3 frames m pc -> kept frames m m' ->
  in_pages FIRST_USER_ENTRY pc w -> exists b, loaded_byte m cr3 w = Some b /\ loaded_byte m' cr3 w = Some b.
Proof.
  intros Hs Hk Hw. destruct (page_of _ _ _ Hw) as (Hj & Ho & Ew). set (j := Z.to_nat ((w - FIRST_USER_ENTRY) / PAGE_SIZE)) in *.
  set (o := (w - FIRST_USER_ENTRY) mod PAGE_SIZE) in *. clearbody j o. destruct (Hs j Hj) as [a Ha].
  destruct (Ha m (kept_refl _ _)) as [E Hf]. destruct (Ha m' Hk) as [E' _]. specialize (Hf o Ho).
  exists (m (a + o)). unfold loaded_byte.
  assert (forall m1, mmu offset m1 false cr3 (FIRST_USER_ENTRY + Z.of_nat j * PAGE_SIZE) = Some a ->
    mmu offset m1 false cr3 w = Some (a + o)) as Hmmu.
  { intros m1 E1. rewrite Ew, mmu_same_page, E1; [done|unfold FIRST_USER_ENTRY, USER_BASE, PAGE_SIZE; lia|by rewrite Z.mod_add|done]. }
  rewrite (Hmmu m E), (Hmmu m' E'). cbn. split; [done|]. f_equal. by apply Hk.
Qed.

Lemma clear_stack_pages_fill cr3 frames l : clear_stack_pages offset frames l = fill_program_pages offset cr3 true frames l.
Proof. induction l as [|i l IH]; cbn [clear_stack_pages fill_program_pages]; [done|]. by rewrite IH. Qed.

(** What the pages get: zeroes, or the bytes at the same addresses of the loaded address space. *)
Definition fresh_byte (zero : bool) (m : memory) (cr3 w : Z) : Z := if zero then 0 else default 0 (loaded_byte m cr3 w).

(** What one step writes. *)
Lemma fill_step zero cr3 base frames n m pc j f l :
  (j < pc)%nat -> bytes_ok m -> frames !! j = Some f ->
  zero = true \/ base = FIRST_USER_ENTRY /\ source_mapped cr3 (take n frames) m pc ->
  exists h, fill_program_pages offset cr3 zero frames (j :: l) m = fill_program_pages offset cr3 zero frames l (put_page f h m) /\
    (forall o, is_byte (h o)) /\
    forall o, 0 <= o < PAGE_SIZE -> h o = fresh_byte zero m cr3 (base + Z.of_nat j * PAGE_SIZE + o).
Proof.
  intros Hj Hm Hf Hsrc. cbn [fill_program_pages]. destruct zero.
  { exists (fun _ => 0). split_and!; [|done|done]. run. by rewrite (proj2 (index_Done _ _ _) Hf). }
  destruct Hsrc as [?|[-> Hs]]; [done|]. destruct (Hs j Hj) as [a Ha]. destruct (Ha m (kept_refl _ _)) as [E _].
  exists (fun o => m (a + o)). split_and!; [|intros; apply Hm|].
  - run. rewrite (proj2 (index_Done _ _ _) Hf). run. by rewrite E.
  - intros o Ho. unfold fresh_byte, loaded_byte. rewrite mmu_same_page, E; [done|unfold FIRST_USER_ENTRY, USER_BASE, PAGE_SIZE; lia| |done].
    by rewrite Z.mod_add.
Qed.

Lemma fill_program_pages_spec zero cr3 base frames n m pc j k :
  frames_ok (take n frames) -> (n <= length frames)%nat -> (j + k <= pc <= n)%nat -> bytes_ok m ->
  zero = true \/ base = FIRST_USER_ENTRY /\ source_mapped cr3 (take n frames) m pc ->
  exists m', fill_program_pages offset cr3 zero frames (seq j k) m = Done ((), m') /\ bytes_ok m' /\ kept (take n frames) m m' /\
    forall w, in_pages base n w -> view base frames m' w =
      if (base + Z.of_nat j * PAGE_SIZE <=? w) && (w <? base + Z.of_nat (j + k) * PAGE_SIZE)
      then fresh_byte zero m cr3 w else view base frames m w.
Proof.
  intros Hok Hn. revert m j. induction k as [|k IH]; intros m j Hjk Hm Hsrc; cbn [seq].
  { exists m. split_and!; try done. intros w _. rewrite Nat.add_0_r.
    destruct (Z.leb_spec (base + Z.of_nat j * PAGE_SIZE) w), (Z.ltb_spec w (base + Z.of_nat j * PAGE_SIZE)); done || lia. }
  destruct (lookup_lt_is_Some_2 frames j) as [f Hf]; [lia|].
  destruct (fill_step zero cr3 base frames n m pc j f (seq (S j) k)) as (h & -> & Hh & Ehb); [lia|done|done|done|].
  destruct (put_page_view base frames n Hok Hn j f h m Hf) as (Hm1 & Hk1 & Hv1); [lia|done|done|].
  set (m1 := put_page f h m) in *.
  destruct (IH m1 (S j)) as (m2 & -> & Hm2 & Hk2 & Hv2); [lia|done| |].
  { destruct Hsrc as [?|[? Hs]]; [by left|right]. split; [done|]. by apply (source_mapped_mono _ (take n frames) _ m). }
  exists m2. split_and!; [done|done|by apply (kept_trans _ m m1)|].
  intros w Hw. rewrite Hv2, Hv1 by done. replace (S j + k)%nat with (j + S k)%nat by lia.
  destruct (Z.leb_spec (base + Z.of_nat (S j) * PAGE_SIZE) w), (Z.ltb_spec w (base + Z.of_nat (j + S k) * PAGE_SIZE)),
    (Z.leb_spec (base + Z.of_nat j * PAGE_SIZE) w), (Z.ltb_spec w (base + Z.of_nat (S j) * PAGE_SIZE)); cbn [andb];
    try (unfold PAGE_SIZE in *; done || lia).
  - unfold fresh_byte. destruct zero; [done|]. destruct Hsrc as [?|[-> Hs]]; [done|].
    destruct (source_byte cr3 _ m m1 pc w Hs Hk1) as (b & -> & ->); [unfold in_pages, PAGE_SIZE in *; lia|done].
  - rewrite Ehb by (unfold PAGE_SIZE in *; lia). f_equal. lia.
Qed.

(** *** The stack *)

Section stack.
Context (slot : PreparedP4Slot) (layout : UserMemoryLayout) (k : nat) (frames : list Z).
Hypothesis Hk : (k < PRIVATE_STACK_SLOT_COUNT)%nat.
Hypothesis Hlayout : (stack_start layout, stack_top layout) = stack_range_for_slot k.
Hypothesis Hframes : sl_stack_frames slot !! k = Some frames.
Hypothesis Hlen : length frames = PRIVATE_STACK_PAGE_COUNT.
Hypothesis Hok : frames_ok frames.

Lemma stack_layout : stack_start layout = FIRST_USER_STACK_TOP - Z.of_nat k * USER_STACK_SLOT_SIZE - USER_STACK_SIZE /\
  stack_top layout = FIRST_USER_STACK_TOP - Z.of_nat k * USER_STACK_SLOT_SIZE.
Proof. unfold stack_range_for_slot in Hlayout. by injection Hlayout as -> ->. Qed.

Lemma stack_slot_index_layout : stack_slot_index (stack_top layout) = Some k.
Proof.
  destruct stack_layout as [_ ->]. unfold stack_slot_index. pose proof (Nat2Z.is_nonneg k).
  assert (0 < USER_STACK_SLOT_SIZE) by done. destruct (Z.ltb_spec FIRST_USER_STACK_TOP (FIRST_USER_STACK_TOP - Z.of_nat k * USER_STACK_SLOT_SIZE)); [nia|].
  replace (FIRST_USER_STACK_TOP - (FIRST_USER_STACK_TOP - Z.of_nat k * USER_STACK_SLOT_SIZE)) with (Z.of_nat k * USER_STACK_SLOT_SIZE) by lia.
  rewrite Z.mod_mul, Z.div_mul, Nat2Z.id by done. cbn [Z.eqb negb]. by apply Nat.ltb_lt in Hk as ->.
Qed.

Lemma private_stack_page_index_ok w : in_pages (stack_start layout) PRIVATE_STACK_PAGE_COUNT w ->
  private_stack_page_index w layout = Ok (Z.to_nat ((w - stack_start layout) / PAGE_SIZE)).
Proof.
  intros Hw. destruct (page_of _ _ _ Hw) as (Hi & _). unfold private_stack_page_index, in_pages in *.
  destruct stack_layout as [E1 E2]. change (Z.of_nat PRIVATE_STACK_PAGE_COUNT * PAGE_SIZE) with USER_STACK_SIZE in Hw.
  destruct (Z.ltb_spec w (stack_start layout)); [lia|]. destruct (Z.leb_spec (stack_top layout) w); [lia|]. cbn [orb].
  destruct (Nat.leb_spec PRIVATE_STACK_PAGE_COUNT (Z.to_nat ((w - stack_start layout) / PAGE_SIZE))); [lia|done].
Qed.

Lemma write_private_user_stack_bytes_flat v bs :
  Forall is_byte bs -> stack_start layout <= v -> v + Z.of_nat (length bs) <= stack_top layout ->
  flat (stack_start layout) frames PRIVATE_STACK_PAGE_COUNT
    (write_private_user_stack_bytes offset slot layout v bs) (fun f => mem_copy f v bs).
Proof.
  intros Hb Hlo Hhi. unfold write_private_user_stack_bytes. rewrite stack_slot_index_layout.
  destruct bs as [|b bs]; [apply (flat_ext _ _ _ _ (fun f => f)); [apply flat_ret|intros f w _; by rewrite mem_copy_nil]|].
  rewrite (proj2 (index_Done _ _ _) Hframes).
  apply (write_pages_flat (stack_start layout) frames PRIVATE_STACK_PAGE_COUNT);
    [by rewrite take_ge by lia|lia|apply private_stack_page_index_ok|done|done|done|].
  destruct stack_layout as [E1 E2]. change (Z.of_nat PRIVATE_STACK_PAGE_COUNT * PAGE_SIZE) with USER_STACK_SIZE. lia.
Qed.
End stack.

(** *** The program area *)

Section program.
Context (slot : PreparedP4Slot).
Hypothesis Hshape : slot_shape slot.
Hypothesis Hframes : frames_ok (take (sl_program_frame_count slot) (sl_program_frames slot)).
Notation n := (sl_program_frame_count slot).
Notation flatP := (flat FIRST_USER_ENTRY (sl_program_frames slot) n).

Lemma program_frames_length : (n <= length (sl_program_frames slot))%nat.
Proof. destruct Hshape as (-> & ? & _). done. Qed.

Lemma private_program_page_index_ok w : in_pages FIRST_USER_ENTRY n w ->
  private_program_page_index w slot = Ok (Z.to_nat ((w - FIRST_USER_ENTRY) / PAGE_SIZE)).
Proof.
  intros Hw. destruct (page_of _ _ _ Hw) as (Hi & _). unfold private_program_page_index, in_pages in *.
  destruct (Z.ltb_spec w FIRST_USER_ENTRY); [lia|]. destruct (Nat.leb_spec n (Z.to_nat ((w - FIRST_USER_ENTRY) / PAGE_SIZE))); [lia|done].
Qed.

Lemma write_private_user_bytes_flat v bs :
  Forall is_byte bs -> FIRST_USER_ENTRY <= v -> v + Z.of_nat (length bs) <= FIRST_USER_ENTRY + Z.of_nat n * PAGE_SIZE ->
  flatP (write_private_user_bytes offset slot v bs) (fun f => mem_copy f v bs).
Proof.
  intros. apply write_pages_flat; try done; [apply program_frames_length|apply private_program_page_index_ok].
Qed.

Lemma zero_pages_flat fuel v len :
  0 <= len -> FIRST_USER_ENTRY <= v -> v + len <= FIRST_USER_ENTRY + Z.of_nat n * PAGE_SIZE ->
  len = 0 \/ (v - FIRST_USER_ENTRY) mod PAGE_SIZE + len <= Z.of_nat fuel * PAGE_SIZE ->
  flatP (zero_pages offset fuel slot v len) (fun f => mem_fill f v 0 len).
Proof.
  revert v len. induction fuel as [|fuel IH]; intros v len Hl Hlo Hhi Hf; cbn [zero_pages];
    (destruct (Z.leb_spec len 0) as [H0|H0]; [apply (flat_ext _ _ _ _ (fun f => f)); [apply flat_ret|
      intros f w _; unfold mem_fill; destruct (Z.leb_spec v w), (Z.ltb_spec w (v + len)); done || lia]|]).
  { pose proof (Z.mod_pos_bound (v - FIRST_USER_ENTRY) PAGE_SIZE). unfold PAGE_SIZE in *. lia. }
  assert (in_pages FIRST_USER_ENTRY n v) as Hv by (unfold in_pages; lia).
  rewrite (private_program_page_index_ok v Hv). destruct (page_frame _ _ _ program_frames_length v Hv) as (f & Hfr & Hi & Hr & Ev).
  set (po := (v - FIRST_USER_ENTRY) mod PAGE_SIZE) in *. set (i := Z.to_nat ((v - FIRST_USER_ENTRY) / PAGE_SIZE)) in *.
  set (c := Z.min len (PAGE_SIZE - po)). assert (0 < c <= len /\ po + c <= PAGE_SIZE) as [Hc Hpc] by (unfold c; lia).
  rewrite (proj2 (index_Done _ i f) Hfr).
  apply (flat_ext _ _ _ _ (fun h => mem_fill (put h v c (fun _ => 0)) (v + c) 0 (len - c))).
  - apply (flat_chunk _ _ _ Hframes program_frames_length i f po c (fun _ => 0) (zero_pages offset fuel slot (v + c) (len - c))
             (fun h => mem_fill h (v + c) 0 (len - c)) v Hfr Hi); [lia|done|done|done|].
    apply IH; try lia. destruct (Z.eq_dec c len) as [->|Hne]; [left; lia|right].
    assert (c = PAGE_SIZE - po) as Ec by (unfold c in *; lia).
    replace (v + c - FIRST_USER_ENTRY) with ((Z.of_nat i + 1) * PAGE_SIZE) by lia.
    rewrite Z.mod_mul by (unfold PAGE_SIZE; lia). unfold PAGE_SIZE in *. lia.
  - intros h w _. rewrite <-mem_fill_put. apply mem_fill_app; lia.
Qed.

Lemma zero_private_user_bytes_flat v len :
  0 <= len -> FIRST_USER_ENTRY <= v -> v + len <= FIRST_USER_ENTRY + Z.of_nat n * PAGE_SIZE ->
  flatP (zero_private_user_bytes offset slot v len) (fun f => mem_fill f v 0 len).
Proof.
  intros Hl Hlo Hhi. apply zero_pages_flat; try done. right.
  pose proof (Z.mod_pos_bound (v - FIRST_USER_ENTRY) PAGE_SIZE). pose proof (Z.div_mod len PAGE_SIZE).
  pose proof (Z.mod_pos_bound len PAGE_SIZE). assert (0 <= len / PAGE_SIZE) by (apply Z.div_pos; unfold PAGE_SIZE; lia).
  unfold PAGE_SIZE in *. lia.
Qed.

(** *** The program *)

(** Flat memory with the segments of an image loaded into it. *)
Definition overlay (image : bytes) (segments : list LoadSegment) (f : memory) : memory :=
  fun a => match List.find (fun s => covers s a) (rev segments) with Some s => segment_byte image s a | None => f a end.

Lemma overlay_cons image s segments f a :
  overlay image (s :: segments) f a = overlay image segments (fun a => if covers s a then segment_byte image s a else f a) a.
Proof.
  unfold overlay. cbn [rev]. rewrite find_app. destruct (List.find _ (rev segments)); [done|]. cbn. by destruct (covers s a).
Qed.

Lemma overlay_segments_flat image segments :
  Forall is_byte image -> image_len image <= u64_max ->
  Forall (fun s => segment_ok image s /\ segment_range s /\
                   ls_virtual_address s + ls_memory_size s <= FIRST_USER_ENTRY + Z.of_nat n * PAGE_SIZE) segments ->
  flatP (overlay_segments offset slot image segments) (overlay image segments).
Proof.
  intros Hb Hu. induction 1 as [|s segments (Hok & (R1 & R2 & R3 & R4 & _) & Hend) Hs IH]; cbn [overlay_segments].
  { apply (flat_ext _ _ _ _ (fun f => f)); [apply flat_ret|done]. }
  destruct Hok as [Hfile Hsize Hlow _ _ _ _]. unfold image_len in *. unfold USER_ELF_MIN_VADDR in Hlow.
  unfold u64_saturating_add, saturating_add_to. rewrite Z.min_r by lia. rewrite slice_ok by lia.
  set (src := take _ _). assert (Z.of_nat (length src) = ls_file_size s) as Hsrc by (unfold src; rewrite length_take, length_drop; lia).
  set (d := if ls_file_size s <? ls_memory_size s then _ else _).
  apply (flat_ext _ _ _ _ (fun f => overlay image segments ((fun g => if ls_file_size s <? ls_memory_size s
    then mem_fill g (ls_virtual_address s + ls_file_size s) 0 (ls_memory_size s - ls_file_size s) else g) (mem_copy f (ls_virtual_address s) src)))).
  - apply (flat_try _ _ _ (write_private_user_bytes offset slot (ls_virtual_address s) src)
      (try _ := d in overlay_segments offset slot image segments) (fun f => mem_copy f (ls_virtual_address s) src)
      (fun g => overlay image segments (if ls_file_size s <? ls_memory_size s
        then mem_fill g (ls_virtual_address s + ls_file_size s) 0 (ls_memory_size s - ls_file_size s) else g))).
    + apply write_private_user_bytes_flat; [unfold src; by apply Forall_take, Forall_drop|done|lia].
    + apply (flat_try _ _ _ d _ (fun g => if ls_file_size s <? ls_memory_size s
        then mem_fill g (ls_virtual_address s + ls_file_size s) 0 (ls_memory_size s - ls_file_size s) else g)); [|exact IH].
      unfold d. destruct (Z.ltb_spec (ls_file_size s) (ls_memory_size s)); [|apply flat_ret].
      apply zero_private_user_bytes_flat; lia.
  - intros f w _. rewrite overlay_cons. unfold overlay. destruct (List.find _ (rev segments)); [done|].
    apply (overlay_segment image s f src w); try lia; [unfold src; f_equal; lia].
Qed.

(** *** The argument area *)

Definition arg_area (arg : bytes) (f : memory) : memory :=
  let arg := take (Z.to_nat FIRST_USER_ARG_PATH_LEN) arg in
  mem_copy (mem_copy (mem_fill f FIRST_USER_ARG_PATH_ADDR 0 FIRST_USER_ARG_PATH_LEN) FIRST_USER_ARG_PATH_ADDR arg)
           FIRST_USER_ARG_LEN_ADDR (le_bytes 8 (Z.of_nat (length arg))).

Lemma seed_private_user_arg_flat arg : Forall is_byte arg -> (0 < n)%nat ->
  flatP (seed_private_user_arg offset slot arg) (arg_area arg).
Proof.
  intros Hb H0. unfold seed_private_user_arg, arg_area.
  assert (take (Z.to_nat (Z.min (Z.of_nat (length arg)) FIRST_USER_ARG_PATH_LEN)) arg = take (Z.to_nat FIRST_USER_ARG_PATH_LEN) arg) as ->.
  { destruct (Z.le_gt_cases (Z.of_nat (length arg)) FIRST_USER_ARG_PATH_LEN); [rewrite Z.min_l by done|by rewrite Z.min_r by lia].
    rewrite !take_ge by lia. done. }
  change (Z.to_nat FIRST_USER_ARG_PATH_LEN) with 32%nat. change FIRST_USER_ARG_PATH_LEN with 32.
  set (a := take 32 arg). assert (length a <= 32)%nat as Hla by (unfold a; rewrite length_take; lia).
  assert (Z.min (Z.of_nat (length arg)) 32 = Z.of_nat (length a)) as ->.
  { unfold a. rewrite length_take. lia. }
  assert (Forall is_byte a) as Hba by (unfold a; by apply Forall_take).
  unfold FIRST_USER_ARG_PATH_ADDR, FIRST_USER_ARG_LEN_ADDR.
  apply (flat_try _ _ _ _ _ (fun f => mem_fill f (FIRST_USER_ENTRY + 0x340) 0 32)
    (fun g => mem_copy (mem_copy g (FIRST_USER_ENTRY + 0x340) a) (FIRST_USER_ENTRY + 0x378) (le_bytes 8 (Z.of_nat (length a))))).
  { apply zero_private_user_bytes_flat; unfold PAGE_SIZE; lia. }
  apply (flat_try _ _ _ _ _ (fun f => mem_copy f (FIRST_USER_ENTRY + 0x340) a)
    (fun g => mem_copy g (FIRST_USER_ENTRY + 0x378) (le_bytes 8 (Z.of_nat (length a))))).
  { apply write_private_user_bytes_flat; [done|lia|unfold PAGE_SIZE; lia]. }
  apply write_private_user_bytes_flat; [apply le_bytes_ok|lia|rewrite length_le_bytes; unfold PAGE_SIZE; lia].
Qed.
End program.
End views.

(** ** Changing leaf entries *)

Section leaves.
Context `{Laws : EntryLaws}.
Context (offset : Z).
Notation path := (path offset).
Notation leaf := (leaf offset).
Notation in_frame := (in_frame offset).

Definition with_entry (r : Leaf) (e : Z) : Leaf := mkLeaf (lf_level r) e (lf_user r) (lf_writable r).

(** Writing entry [i] of a table [p1] that the walk meets, if at all, at the last level. *)
Lemma walk_set_leaf m p1 i e l f ix :
  bytes_ok m -> valid_frame f -> valid_frame p1 -> 0 <= i < 512 -> 0 <= e < 2 ^ 64 -> ix_ok ix ->
  (forall j, (j < l)%nat -> path m l f ix !! j <> Some p1) ->
  let m' := set_word m (entry_addr offset p1 i) e in
  path m' l f ix = path m l f ix /\
  leaf m' l f ix = if decide (path m l f ix !! l = Some p1 /\ ix O = i) then with_entry (leaf m l f ix) e else leaf m l f ix.
Proof.
  intros Hm Hf Hp1 Hi He Hix. revert f Hf. induction l as [|l IH]; intros f Hf Hne m'.
  - cbn [PageTablesProofs.path PageTablesProofs.leaf]. unfold m'. clear m'. split; [done|]. destruct (decide _) as [[[= ->] <-]|Hn].
    + unfold with_entry. cbn [lf_level lf_user lf_writable]. by rewrite set_entry_same.
    + destruct (Z.eq_dec f p1) as [->|Hd].
      * rewrite set_entry_other; [done|done|apply Hix|]. intros ->. by apply Hn.
      * rewrite (table_entry_same offset m); [done|by apply set_entry_frame|apply Hix].
  - cbn [PageTablesProofs.path PageTablesProofs.leaf].
    assert (f <> p1) as Hd by (intros ->; apply (Hne 0%nat); [lia|by rewrite path_head]).
    rewrite (table_entry_same offset m) by (by apply set_entry_frame || apply Hix).
    cbn [PageTablesProofs.path] in Hne.
    destruct (entry_frame (table_entry m offset f (ix (S l)))) as [g|] eqn:Eg.
    + assert (valid_frame g) as Hg by (by apply entry_frame_ok in Eg as [? _]; [|apply table_entry_range]).
      destruct (IH g Hg) as [E1 E2]; [intros j Hj; apply (Hne (S j)); lia|]. fold m' in E1, E2.
      split; [by rewrite E1|]. rewrite E2.
      destruct (decide (path m l g ix !! l = Some p1 /\ ix O = i)) as [Hy|Hy];
        destruct (decide ((f :: path m l g ix) !! S l = Some p1 /\ ix O = i)) as [Hz|Hz]; done.
    + split; [done|]. destruct (decide ((f :: []) !! S l = Some p1 /\ ix O = i)) as [[? _]|]; done.
Qed.

Lemma leaf_level_path m l f ix : lf_level (leaf m l f ix) = O -> exists p1, path m l f ix !! l = Some p1 /\
  lf_entry (leaf m l f ix) = table_entry m offset p1 (ix O).
Proof.
  revert f; induction l as [|l IH]; intros f Hl; cbn [PageTablesProofs.path PageTablesProofs.leaf] in *; [by exists f|].
  destruct (entry_frame (table_entry m offset f (ix (S l)))) as [g|]; [|done]. destruct (IH g Hl) as (p1 & Hp & He). by exists p1.
Qed.

(** The walk of the update functions ends in the table of the leaf. *)
Lemma walk_to_p1_spec m p4 v p1 : path m 3 p4 (indexes v) !! 3%nat = Some p1 -> walk_to_p1 offset m p4 v = Ok p1.
Proof.
  unfold walk_to_p1, child_table_frame. cbn [PageTablesProofs.path]. unfold indexes.
  destruct (entry_frame (table_entry m offset p4 (table_index 3 v))) as [p3|]; [|done].
  destruct (entry_frame (table_entry m offset p3 (table_index 2 v))) as [p2|]; [|done].
  destruct (entry_frame (table_entry m offset p2 (table_index 1 v))) as [p1'|]; [|done]. by intros [= ->].
Qed.

(** Replacing the leaf entry of the page of [v]. *)
Lemma set_leaf_spec m p4 tables v frame e' :
  bytes_ok m -> valid_frame p4 -> page_maps offset m p4 tables v frame -> only_path offset m p4 v -> 0 <= e' < 2 ^ 64 ->
  exists p1, walk_to_p1 offset m p4 v = Ok p1 /\ p1 ∈ tables /\
    let m' := set_word m (entry_addr offset p1 (table_index 0 v)) e' in
    bytes_ok m' /\ (forall x, ~ in_frame p1 x -> m' x = m x) /\
    get_word m (entry_addr offset p1 (table_index 0 v)) = lf_entry (leaf m 3 p4 (indexes v)) /\
    forall ix, ix_ok ix -> path m' 3 p4 ix = path m 3 p4 ix /\
      leaf m' 3 p4 ix = if agreeb 3 (indexes v) ix then with_entry (leaf m 3 p4 ix) e' else leaf m 3 p4 ix.
Proof.
  intros Hm Hp4 (e & Hl & He & Ht) Honly He'.
  destruct (leaf_level_path m 3 p4 (indexes v)) as (p1 & Hp & Hentry); [by rewrite Hl|].
  assert (valid_frame p1) as Hv1.
  { apply (Forall_lookup_1 _ _ _ _ (path_valid offset m 3 p4 (indexes v) Hm Hp4) Hp). }
  exists p1. split_and!; [by apply walk_to_p1_spec|by apply Ht, (list_elem_of_lookup_2 _ _ _ Hp)|]. intros m'. split_and!.
  - by apply set_word_ok.
  - intros x Hx. apply set_entry_outside; [apply table_index_range|done].
  - done.
  - intros ix Hix. destruct (walk_set_leaf m p1 (table_index 0 v) e' 3 p4 ix) as [E1 E2];
      try done; [apply table_index_range| |].
    { intros j Hj Hjp. destruct (Honly ix j 3%nat p1 Hix Hjp Hp) as [? _]. lia. }
    fold m' in E1, E2. split; [done|]. rewrite E2.
    assert (agreeb 3 (indexes v) ix = bool_decide (path m 3 p4 ix !! 3%nat = Some p1 /\ ix O = table_index 0 v)) as ->.
    { destruct (bool_decide _) eqn:Eb.
      - apply bool_decide_eq_true in Eb as [Hip H0]. destruct (Honly ix 3%nat 3%nat p1 Hix Hip Hp) as [_ Hag].
        cbn [agreeb]. rewrite <-!Hag by lia. rewrite !Z.eqb_refl. cbn. rewrite H0. apply Z.eqb_refl.
      - apply not_true_is_false. intros Hag. apply bool_decide_eq_false in Eb. apply Eb. cbn [agreeb] in Hag.
        rewrite !andb_true_iff, !Z.eqb_eq in Hag. destruct Hag as (A3 & A2 & A1 & A0). split; [|by rewrite <-A0].
        rewrite <-Hp. f_equal. apply path_ext. intros k Hk.
        destruct k as [|[|[|[|k]]]]; [by rewrite <-A0|by rewrite <-A1|by rewrite <-A2|by rewrite <-A3|lia]. }
    case_bool_decide as Hb; case_decide as Hd; tauto.
Qed.

(** ** The state of a slot *)

(** A slot whose pages are mapped to its frames in [m] and whose other pages
    are those of the table [active] of [m0]; all its frames are its own. *)
Record slot_state (m0 : memory) (active : Z) (tables : list Z) (s : PreparedP4Slot) (m : memory) : Prop := {
  st_bytes : bytes_ok m;
  st_mapped : slot_mapped offset m tables s;
  st_shares : slot_shares offset m0 active m tables s;
  st_valid : Forall valid_frame (tables ++ slot_frames s);
  st_nodup : NoDup (tables ++ slot_frames s);
  st_active : forall ix n, ix_ok ix -> n ∈ path m0 3 active ix -> valid_frame n /\ n ∉ tables ++ slot_frames s;
}.

Section slot.
Context (m0 : memory) (active : Z) (tables : list Z) (s : PreparedP4Slot).
Notation p4 := (sl_p4_frame s).
Notation state := (slot_state m0 active tables s).
Notation pages := (slot_pages (sl_program_frame_count s)).

Lemma slot_p4_valid m : state m -> valid_frame p4.
Proof.
  intros Hs. pose proof (st_valid _ _ _ _ _ Hs) as [Hv _]%Forall_app. rewrite Forall_forall in Hv.
  apply Hv, (sm_p4 _ _ _ _ (st_mapped _ _ _ _ _ Hs)).
Qed.

Lemma slot_pages_ok m : state m -> distinct_pages pages.
Proof. intros Hs. destruct (sm_shape _ _ _ _ (st_mapped _ _ _ _ _ Hs)) as (_ & Hc & _). by apply slot_pages_distinct. Qed.

Lemma same_slot_page m v w : state m -> v ∈ pages -> w ∈ pages -> agreeb 3 (indexes v) (indexes w) = true -> v = w.
Proof.
  intros Hs [i Hi]%list_elem_of_lookup [j Hj]%list_elem_of_lookup Ha. destruct (slot_pages_ok m Hs) as [Hu Hn].
  rewrite agreeb_page in Ha by (by apply (Forall_lookup_1 _ _ _ _ Hu Hi) || by apply (Forall_lookup_1 _ _ _ _ Hu Hj)).
  apply Z.eqb_eq in Ha. assert (i = j) as ->; [|congruence].
  apply (NoDup_lookup _ _ _ (page_number v) Hn); rewrite list_lookup_fmap; [by rewrite Hi|by rewrite Hj, Ha].
Qed.

(** Writes into frames that hold none of the tables change no walk. *)
Lemma state_kept m m' other : state m -> bytes_ok m' -> kept offset other m m' -> Forall valid_frame other ->
  (forall f, f ∈ tables -> f ∉ other) -> (forall ix f, ix_ok ix -> f ∈ path m0 3 active ix -> f ∉ other) ->
  state m' /\ forall ix, ix_ok ix -> path m' 3 p4 ix = path m 3 p4 ix /\ leaf m' 3 p4 ix = leaf m 3 p4 ix.
Proof.
  intros [Hb Hm Hsh Hv Hn Ha] Hm' Hk Hvo Hto Hao. pose proof Hv as [Hvt _]%Forall_app.
  assert (forall f, valid_frame f -> f ∉ other -> same_frame offset m m' f) as Hs.
  { intros f Hf Hni x Hfx. apply Hk. apply Forall_forall. intros g Hg. rewrite Forall_forall in Hvo.
    apply (frames_apart offset f g); [done|by apply Hvo|by intros ->|done]. }
  assert (forall f, f ∈ tables -> same_frame offset m m' f) as Ht.
  { intros f Hf. rewrite Forall_forall in Hvt. apply Hs; [by apply Hvt|by apply Hto]. }
  assert (forall ix f, ix_ok ix -> f ∈ path m0 3 active ix -> same_frame offset m m' f) as Hat.
  { intros ix f Hix Hf. apply Hs; [by apply (Ha ix)|by apply (Hao ix)]. }
  split.
  - split; try done; [by apply (slot_mapped_same offset m)|by apply (slot_shares_same offset m0 active m)].
  - intros ix Hix. apply walk_same; [done|]. intros g Hg. pose proof (ss_paths _ _ _ _ _ _ Hsh ix Hix) as Hp.
    rewrite Forall_forall in Hp. destruct (Hp g Hg); [by apply Ht|by apply (Hat ix)].
Qed.

Lemma state_data m m' : state m -> bytes_ok m' -> kept offset (slot_frames s) m m' -> state m'.
Proof.
  intros Hst Hm' Hk. pose proof (st_valid _ _ _ _ _ Hst) as [_ Hv]%Forall_app. pose proof (st_nodup _ _ _ _ _ Hst) as (_ & Hx & _)%NoDup_app.
  apply (state_kept m m' (slot_frames s) Hst Hm' Hk Hv Hx). intros ix f Hix Hf. destruct (st_active _ _ _ _ _ Hst ix f Hix Hf) as [_ Hni].
  rewrite elem_of_app in Hni. tauto.
Qed.

(** Replacing the leaf entry of a page by one that leads to the same frame. *)
Lemma state_leaf m v frame (mk : Z -> Z) :
  state m -> (exists i, pages !! i = Some v /\ slot_frames s !! i = Some frame) ->
  (forall e, 0 <= e < 2 ^ 64 -> entry_frame e = Ok frame -> 0 <= mk e < 2 ^ 64 /\ entry_frame (mk e) = Ok frame) ->
  exists p1 m', walk_to_p1 offset m p4 v = Ok p1 /\
    set_word m (entry_addr offset p1 (table_index 0 v)) (mk (get_word m (entry_addr offset p1 (table_index 0 v)))) = m' /\
    state m' /\ kept offset tables m m' /\
    lf_entry (leaf m' 3 p4 (indexes v)) = mk (lf_entry (leaf m 3 p4 (indexes v))) /\
    forall w, w ∈ pages -> w <> v -> leaf m' 3 p4 (indexes w) = leaf m 3 p4 (indexes w).
Proof.
  intros Hst (i & Hi & Hfi) Hmk. pose proof Hst as [Hb Hm Hsh Hv Hn Ha].
  pose proof (Forall2_lookup_lr _ _ _ _ _ _ (sm_pages _ _ _ _ Hm) Hi Hfi) as Hpm. pose proof Hpm as (e & Hl & He & _).
  assert (0 <= e < 2 ^ 64) as Her.
  { destruct (leaf_level_path m 3 p4 (indexes v)) as (p1 & _ & Hentry); [by rewrite Hl|]. rewrite Hl in Hentry. cbn [lf_entry] in Hentry.
    rewrite Hentry. by apply table_entry_range. }
  destruct (Hmk e Her He) as [Hr Hf].
  assert (v ∈ pages) as Hvp by (by apply list_elem_of_lookup_2 in Hi).
  pose proof (ss_tree _ _ _ _ _ _ Hsh) as Htree. rewrite Forall_forall in Htree.
  destruct (set_leaf_spec m p4 tables v frame (mk e) Hb (slot_p4_valid m Hst) Hpm (Htree v Hvp) Hr) as (p1 & Hw & Hp1 & Hm' & Ho & Hg & Hwalk).
  rewrite Hl in Hg. cbn [lf_entry] in Hg. rewrite Hl. cbn [lf_entry].
  set (m' := set_word m (entry_addr offset p1 (table_index 0 v)) (mk e)) in *.
  assert (forall w, w ∈ pages -> w <> v -> leaf m' 3 p4 (indexes w) = leaf m 3 p4 (indexes w)) as Hothers.
  { intros w Hw' Hne. destruct (Hwalk (indexes w) (indexes_ok w)) as [_ ->].
    destruct (agreeb 3 (indexes v) (indexes w)) eqn:Ea; [|done]. exfalso. apply Hne. symmetry. by apply (same_slot_page m). }
  assert (leaf m' 3 p4 (indexes v) = mkLeaf 0 (mk e) true true) as Hlv.
  { destruct (Hwalk (indexes v) (indexes_ok v)) as [_ ->]. by rewrite agreeb_refl, Hl. }
  exists p1, m'. split_and!; [done|unfold m'; by rewrite Hg| | |by rewrite Hlv|done].
  2:{ intros x Hx. apply Ho. rewrite Forall_forall in Hx. by apply Hx. }
  split; try done.
  - split; [apply Hm|apply Hm|]. apply Forall2_same_length_lookup. split; [apply (Forall2_length _ _ _ (sm_pages _ _ _ _ Hm))|].
    intros j w f Hj Hfj. pose proof (Forall2_lookup_lr _ _ _ _ _ _ (sm_pages _ _ _ _ Hm) Hj Hfj) as (e2 & Hl2 & He2 & Hp2).
    destruct (Hwalk (indexes w) (indexes_ok w)) as [Epath _]. destruct (Z.eq_dec w v) as [->|Hne].
    + assert (j = i) as ->.
      { destruct (slot_pages_ok m Hst) as [_ Hnd]. apply (NoDup_lookup _ _ _ (page_number v) Hnd); rewrite list_lookup_fmap; [by rewrite Hj|by rewrite Hi]. }
      exists (mk e). rewrite Epath. split_and!; [done|congruence|done].
    + exists e2. rewrite Epath, Hothers; [done| |done]. by apply list_elem_of_lookup_2 in Hj.
  - split.
    + intros ix Hix. destruct (Hwalk ix Hix) as [-> _]. by apply (ss_paths _ _ _ _ _ _ Hsh).
    + apply (Forall_impl _ _ _ (ss_tree _ _ _ _ _ _ Hsh)). intros w Hw' ix a b n Hix. destruct (Hwalk ix Hix) as [-> _].
      destruct (Hwalk (indexes w) (indexes_ok w)) as [-> _]. by apply Hw'.
    + intros w Hw' Hni. destruct (Hwalk (indexes w) (indexes_ok w)) as [_ ->].
      destruct (slot_pages_ok m Hst) as [Hu _]. pose proof (agreeb_elsewhere _ w Hu Hw' Hni) as Hag. rewrite Forall_forall in Hag.
      rewrite (Hag v Hvp). by apply (ss_rest _ _ _ _ _ _ Hsh).
Qed.

(** *** Protection *)

Definition page_flags (m : memory) (v : Z) : Z := entry_flags (lf_entry (leaf m 3 p4 (indexes v))).

Lemma flag_bits_present fl : pf_present fl = true ->
  contains (flag_bits fl) PRESENT = true /\ contains (flag_bits fl) HUGE_PAGE = false.
Proof. destruct fl as [[] [] [] []]; done. Qed.

Lemma leaf_entry_range m v : bytes_ok m -> lf_level (leaf m 3 p4 (indexes v)) = O -> 0 <= lf_entry (leaf m 3 p4 (indexes v)) < 2 ^ 64.
Proof. intros Hb Hl. destruct (leaf_level_path m 3 p4 (indexes v) Hl) as (p1 & _ & ->). by apply table_entry_range. Qed.

Lemma slot_page_leaf m v : state m -> v ∈ pages -> exists frame i, pages !! i = Some v /\ slot_frames s !! i = Some frame /\
  page_maps offset m p4 tables v frame.
Proof.
  intros Hst [i Hi]%list_elem_of_lookup. pose proof (sm_pages _ _ _ _ (st_mapped _ _ _ _ _ Hst)) as Hp.
  destruct (Forall2_lookup_l _ _ _ _ _ Hp Hi) as (f & Hf & Hpm). by exists f, i.
Qed.

Lemma set_user_page_flags_spec m v fl :
  state m -> v ∈ pages -> pf_present fl = true ->
  exists m', set_user_page_flags offset m p4 v (flag_bits fl) = (Ok (), m') /\ state m' /\ kept offset tables m m' /\
    page_flags m' v = flag_bits fl /\
    forall w, w ∈ pages -> w <> v -> leaf m' 3 p4 (indexes w) = leaf m 3 p4 (indexes w).
Proof.
  intros Hst Hv Hfl. destruct (slot_page_leaf m v Hst Hv) as (f & i & Hi & Hf & e & Hl & He & _).
  pose proof (flag_bits_valid fl) as Hvf. destruct (flag_bits_present fl Hfl) as [Hp Hh].
  destruct (state_leaf m v f (fun e => entry_with_flags e (flag_bits fl)) Hst) as (p1 & m' & Hw & Em & Hst' & Hk & Hlf & Hoth); [by exists i| |].
  { intros e' Hr He'. split; [by apply entry_with_flags_range|by apply entry_with_flags_frame]. }
  exists m'. unfold set_user_page_flags. rewrite Hw, Em. split_and!; try done. unfold page_flags. rewrite Hlf.
  apply entry_with_flags_flags; [|done]. apply leaf_entry_range; [apply (st_bytes _ _ _ _ _ Hst)|by rewrite Hl].
Qed.

Lemma remap_existing_user_page_spec m v f :
  state m -> (exists i, pages !! i = Some v /\ slot_frames s !! i = Some f) ->
  exists m', remap_existing_user_page_to_private_frame offset m p4 v f = (Ok (), m') /\ state m' /\ kept offset tables m m'.
Proof.
  intros Hst Hi. assert (valid_frame f) as Hf.
  { destruct Hi as (i & _ & Hf). pose proof (st_valid _ _ _ _ _ Hst) as [_ Hv]%Forall_app. by apply (Forall_lookup_1 _ _ _ _ Hv Hf). }
  destruct (state_leaf m v f (fun _ => data_entry f) Hst Hi) as (p1 & m' & Hw & Em & Hst' & Hk & _).
  { intros _ _ _. split; [by apply data_entry_range|by apply data_entry_frame]. }
  exists m'. unfold remap_existing_user_page_to_private_frame. rewrite Hw. by subst m'.
Qed.

(** A loop that sets the flags of a list of pages. *)
Lemma protect_pages_spec (f : Z -> result PageFlags AddressSpaceError) (g : Z -> PageFlags) vs m :
  state m -> (forall v, v ∈ vs -> v ∈ pages /\ f v = Ok (g v) /\ pf_present (g v) = true) ->
  exists m', for_pages (fun page => match f page with
      | Err e => mret (Err e)
      | Ok flags => on_page (fun m => set_user_page_flags offset m p4 page (flag_bits flags))
      end) vs m = Done (Ok (), m') /\ state m' /\ kept offset tables m m' /\
    (forall v, v ∈ vs -> page_flags m' v = flag_bits (g v)) /\
    (forall w, w ∈ pages -> w ∉ vs -> leaf m' 3 p4 (indexes w) = leaf m 3 p4 (indexes w)).
Proof.
  revert m; induction vs as [|v vs IH]; intros m Hst Hvs; cbn [for_pages].
  { exists m. split_and!; try done. intros v Hv. by apply not_elem_of_nil in Hv. }
  destruct (Hvs v (list_elem_of_here _ _)) as (Hv & Hf & Hp).
  destruct (set_user_page_flags_spec m v (g v) Hst Hv Hp) as (m1 & E1 & Hst1 & Hk1 & Hfl1 & Ho1).
  destruct (IH m1 Hst1) as (m2 & E2 & Hst2 & Hk2 & Hfl2 & Ho2); [intros w Hw; apply Hvs; by constructor|].
  exists m2. split_and!; [|done|by apply (kept_trans offset _ m m1)| |].
  - rewrite Hf. run. unfold on_page at 1. rewrite E1. exact E2.
  - intros w [->|Hw]%elem_of_cons; [|by apply Hfl2]. destruct (decide (v ∈ vs)) as [Hin|Hni]; [by apply Hfl2|].
    unfold page_flags. rewrite Ho2 by done. exact Hfl1.
  - intros w Hw Hni. rewrite not_elem_of_cons in Hni. rewrite Ho2, Ho1; tauto.
Qed.
End slot.
End leaves.

(** ** The bytes of the initial stack *)

Section initial_stack.
Import InitialStack.

Lemma take_while_Forall (P : Z -> Prop) p l : Forall P l -> Forall P (take_while p l).
Proof. induction 1 as [|b l Hb Hl IH]; cbn [take_while]; [done|]. destruct (p b); [by constructor|done]. Qed.

Lemma skip_while_Forall (P : Z -> Prop) p l : Forall P l -> Forall P (skip_while p l).
Proof. induction 1 as [|b l Hb Hl IH]; cbn [skip_while]; [done|]. destruct (p b); [done|by constructor]. Qed.

Lemma split_args_Forall (P : Z -> Prop) fuel arg argc : Forall P arg -> Forall (Forall P) (split_args fuel arg argc).
Proof.
  revert arg argc; induction fuel as [|fuel IH]; intros arg argc Hp; cbn [split_args]; [done|].
  destruct arg as [|b arg]; [done|]. destruct (_ <=? _)%nat; [done|].
  pose proof (skip_while_Forall P is_arg_separator _ Hp) as Hs. set (l := skip_while is_arg_separator (b :: arg)) in *.
  pose proof (take_while_Forall P (fun b => negb (is_arg_separator b)) l Hs) as Ht.
  pose proof (skip_while_Forall P (fun b => negb (is_arg_separator b)) l Hs) as Hr.
  destruct (take_while _ l); [by apply IH|]. constructor; [done|by apply IH].
Qed.

Lemma concat_Forall {B} (P : B -> Prop) l : Forall (Forall P) l -> Forall P (concat l).
Proof. induction 1; cbn [concat]; [done|]. by apply Forall_app. Qed.

Lemma initial_stack_image layout path arg :
  let items := items_of path arg in
  stack_start layout + Z.of_nat USER_INITIAL_STACK_MAX_SIZE <= stack_top layout -> stack_top layout mod 8 = 0 -> path <> [] ->
  (length (strings items) + 8 * (length items + 5) + 15 <= USER_INITIAL_STACK_MAX_SIZE)%nat ->
  Forall is_byte path -> Forall is_byte arg ->
  exists st image, build_user_initial_stack layout path arg = Done (Ok st) /\ stack_as_bytes st = Done image /\
    stack_start layout <= is_stack_pointer st /\ is_stack_pointer st + Z.of_nat (length image) = stack_top layout /\
    Forall is_byte image.
Proof.
  intros items Hroom Hal Hpath Hfit Hbp Hba. destruct (image_shape layout path arg Hroom Hal Hpath Hfit) as (ws & pad & Hb & _ & Hsum).
  fold items in Hb, Hsum. set (img := word_bytes _ ++ _) in Hb. exists (mkStack (stack_top layout - Z.of_nat USER_INITIAL_STACK_MAX_SIZE + Z.of_nat ws)
    (img ++ replicate ws 0) (USER_INITIAL_STACK_MAX_SIZE - ws)), img. split; [exact Hb|]. clear Hb.
  assert (length img = (USER_INITIAL_STACK_MAX_SIZE - ws)%nat) as Hlen.
  { unfold img. rewrite !length_app, length_replicate, length_word_bytes. cbn [length]. rewrite length_app, length_pointers. cbn [length]. lia. }
  split; [unfold stack_as_bytes; cbn [is_bytes is_len]; rewrite <-Hlen; by apply slice_head_app|].
  cbn [is_stack_pointer]. split_and!; [lia|rewrite Hlen; lia|]. unfold img. rewrite !Forall_app. split_and!.
  - apply concat_Forall, Forall_forall. intros l (w & -> & _)%elem_of_map. apply le_bytes_ok.
  - by apply Forall_replicate.
  - apply concat_Forall, Forall_forall. intros l (w & -> & Hw)%elem_of_map. apply Forall_app. split; [|by constructor].
    unfold items in Hw. rewrite <-argv_items in Hw. apply elem_of_cons in Hw as [->|Hw]; [done|].
    pose proof (split_args_Forall is_byte (length arg) arg 1 Hba) as Hs. rewrite Forall_forall in Hs. by apply Hs.
Qed.
End initial_stack.

(** ** Preparing a slot *)

Section views_kept.
Context (offset : Z).

Lemma view_kept base frames n other m m' :
  kept offset other m m' -> (n <= length frames)%nat -> Forall valid_frame (take n frames ++ other) -> NoDup (take n frames ++ other) ->
  forall w, in_pages base n w -> view offset base frames m' w = view offset base frames m w.
Proof.
  intros Hk Hn [Hv Hvo]%Forall_app (_ & Hx & _)%NoDup_app w Hw. destruct (page_of base n w Hw) as (Hi & Hr & _).
  unfold view. set (i := Z.to_nat ((w - base) / PAGE_SIZE)) in *.
  destruct (lookup_lt_is_Some_2 frames i) as [f Hf]; [lia|].
  assert (take n frames !! i = Some f) as Ht by (by rewrite lookup_take_lt).
  assert (nth i frames 0 = f) as -> by (by rewrite nth_lookup, Hf).
  apply Hk. apply Forall_forall. intros g Hg. rewrite Forall_forall in Hvo.
  apply (frames_apart offset f g); [by apply (Forall_lookup_1 _ _ _ _ Hv Ht)|by apply Hvo| |].
  - intros ->. by apply (Hx g); [apply list_elem_of_lookup_2 in Ht|].
  - unfold in_frame. unfold PAGE_SIZE in *. lia.
Qed.
End views_kept.

Lemma containing_frame_valid f : valid_frame f -> containing_frame f = f.
Proof. intros [_ Hm]. unfold containing_frame. lia. Qed.

(** [Page::range_inclusive] over whole pages. *)
Lemma page_range_spec start k : start mod PAGE_SIZE = 0 -> (0 < k)%nat ->
  page_range start (start + Z.of_nat k * PAGE_SIZE - 1) = map (fun i => start + Z.of_nat i * PAGE_SIZE) (seq 0 k).
Proof.
  intros Ha Hk. unfold page_range, containing_frame. rewrite Ha, Z.sub_0_r.
  assert ((start + Z.of_nat k * PAGE_SIZE - 1) mod PAGE_SIZE = PAGE_SIZE - 1) as ->.
  { replace (start + Z.of_nat k * PAGE_SIZE - 1) with (start + (PAGE_SIZE - 1) + (Z.of_nat k - 1) * PAGE_SIZE) by lia.
    rewrite Z.mod_add by done. apply Z.div_exact in Ha; [|done]. rewrite Ha, Z.add_comm, Z.mul_comm, Z.mod_add by done. done. }
  do 2 f_equal. replace (start + Z.of_nat k * PAGE_SIZE - 1 - (PAGE_SIZE - 1) - start) with ((Z.of_nat k - 1) * PAGE_SIZE) by lia.
  rewrite Z.div_mul by done. lia.
Qed.

Section prepare.
Context `{Laws : EntryLaws}.
Context (offset : Z) (m0 : memory) (active : Z) (tables : list Z) (s : PreparedP4Slot).
Notation p4 := (sl_p4_frame s).
Notation n := (sl_program_frame_count s).
Notation state := (slot_state offset m0 active tables s).
Notation pages := (slot_pages n).

(** The frames of a slot by kind. *)
Lemma slot_frames_split m k sf : state m -> sl_stack_frames s !! k = Some sf ->
  sf ⊆ slot_frames s /\ take n (sl_program_frames s) ⊆ slot_frames s /\
  frames_ok (take n (sl_program_frames s)) /\ frames_ok sf /\ length sf = PRIVATE_STACK_PAGE_COUNT /\
  NoDup (take n (sl_program_frames s) ++ sf) /\ NoDup (take n (sl_program_frames s) ++ tables) /\ NoDup (sf ++ tables).
Proof.
  intros Hst Hk. pose proof (st_nodup _ _ _ _ _ _ Hst) as (Ht & Hx & Hd)%NoDup_app.
  pose proof (st_valid _ _ _ _ _ _ Hst) as [_ Hv]%Forall_app. unfold slot_frames in *.
  assert (sf ⊆ concat (sl_stack_frames s)) as Hsf.
  { intros f Hf. apply list_elem_of_In, in_concat. exists sf. split; apply list_elem_of_In; [by apply list_elem_of_lookup_2 in Hk|done]. }
  apply NoDup_app in Hd as (Hdp & Hxd & Hds). apply Forall_app in Hv as [Hvp Hvs].
  assert (NoDup sf) as Hnsf.
  { rewrite <-(take_drop_middle _ _ _ Hk) in Hds. rewrite concat_app in Hds. cbn [concat] in Hds.
    apply NoDup_app in Hds as (_ & _ & Hds). by apply NoDup_app in Hds as (? & _). }
  destruct (sm_shape _ _ _ _ (st_mapped _ _ _ _ _ _ Hst)) as (_ & _ & _ & Hlen & _).
  split_and!.
  - intros f Hf. rewrite elem_of_app. auto.
  - intros f Hf. rewrite elem_of_app. auto.
  - done.
  - split; [done|]. rewrite Forall_forall in *. auto.
  - apply (Forall_lookup_1 _ _ _ _ Hlen Hk).
  - apply NoDup_app. split_and!; [done| |done]. intros f Hf Hin. apply (Hxd f Hf). auto.
  - apply NoDup_app. split_and!; [done| |done]. intros f Hf Hin. apply (Hx f Hin). rewrite elem_of_app. auto.
  - apply NoDup_app. split_and!; [done| |done]. intros f Hf Hin. apply (Hx f Hin). rewrite elem_of_app. auto.
Qed.

Lemma concat_lookup_const {B} c (l : list (list B)) k x i y :
  Forall (fun z => length z = c) l -> l !! k = Some x -> x !! i = Some y -> concat l !! (k * c + i)%nat = Some y.
Proof.
  intros Hl. revert k; induction Hl as [|z l Hz Hl IH]; intros k Hk Hi; [done|]. destruct k as [|k]; cbn [concat].
  - injection Hk as ->. rewrite lookup_app_l; [done|]. apply lookup_lt_Some in Hi. lia.
  - rewrite lookup_app_r by lia. rewrite <-(IH k Hk Hi). f_equal. lia.
Qed.

Lemma stack_page_lookup m k sf i f : state m -> sl_stack_frames s !! k = Some sf -> sf !! i = Some f ->
  exists idx, pages !! idx = Some ((stack_range_for_slot k).1 + Z.of_nat i * PAGE_SIZE) /\ slot_frames s !! idx = Some f.
Proof.
  intros Hst Hk Hi. destruct (sm_shape _ _ _ _ (st_mapped _ _ _ _ _ _ Hst)) as (Hpl & Hc & Hsl & Hlen & _).
  pose proof (Forall_lookup_1 _ _ _ _ Hlen Hk) as Hsf.
  assert (i < 4)%nat as Hi4 by (apply lookup_lt_Some in Hi; unfold PRIVATE_STACK_PAGE_COUNT in Hsf; lia).
  assert (k < 8)%nat as Hk8 by (apply lookup_lt_Some in Hk; unfold PRIVATE_STACK_SLOT_COUNT in Hsl; lia).
  exists (n + (k * 4 + i))%nat. unfold slot_pages, slot_frames. split.
  - rewrite lookup_app_r by (rewrite length_map, length_seq; lia). rewrite length_map, length_seq.
    replace (n + (k * 4 + i) - n)%nat with (k * 4 + i)%nat by lia. rewrite flat_map_concat_map.
    apply (concat_lookup_const 4 _ k (stack_pages k)).
    + apply Forall_forall. intros z (q & -> & _)%elem_of_map. unfold stack_pages. by rewrite length_map, length_seq.
    + rewrite list_lookup_fmap, lookup_seq_lt by done. done.
    + unfold stack_pages. rewrite list_lookup_fmap, lookup_seq_lt by done. done.
  - rewrite lookup_app_r by (rewrite length_take; lia). rewrite length_take, Nat.min_l by lia.
    replace (n + (k * 4 + i) - n)%nat with (k * 4 + i)%nat by lia. by apply (concat_lookup_const 4 _ k sf).
Qed.

Lemma program_page_lookup m j : state m -> (j < n)%nat ->
  exists f, sl_program_frames s !! j = Some f /\ pages !! j = Some (program_page j) /\ slot_frames s !! j = Some f.
Proof.
  intros Hst Hj. destruct (sm_shape _ _ _ _ (st_mapped _ _ _ _ _ _ Hst)) as (Hpl & Hc & _).
  destruct (lookup_lt_is_Some_2 (sl_program_frames s) j) as [f Hf]; [lia|]. exists f. unfold slot_pages, slot_frames. split_and!; [done| |].
  - rewrite lookup_app_l by (rewrite length_map, length_seq; lia). rewrite list_lookup_fmap, lookup_seq_lt by done. done.
  - rewrite lookup_app_l by (rewrite length_take; lia). by rewrite lookup_take_lt.
Qed.

Lemma remap_stack_pages_spec k sf l m :
  sl_stack_frames s !! k = Some sf -> (k < PRIVATE_STACK_SLOT_COUNT)%nat -> Forall (fun i => (i < PRIVATE_STACK_PAGE_COUNT)%nat) l -> state m ->
  exists m', remap_stack_pages offset p4 (stack_range_for_slot k).1 sf l m = Done (Ok (), m') /\ state m' /\ kept offset tables m m'.
Proof.
  intros Hk Hk8 Hl. revert m; induction Hl as [|i l Hi Hl IH]; intros m Hst; cbn [remap_stack_pages]; [by exists m|].
  destruct (slot_frames_split m k sf Hst Hk) as (Hsub & _ & _ & [_ Hvf] & Hlen & _).
  destruct (lookup_lt_is_Some_2 sf i) as [f Hf]; [lia|].
  destruct (stack_page_lookup m k sf i f Hst Hk Hf) as (idx & Hp & Hfr).
  assert (virt_addr_new ((stack_range_for_slot k).1 + Z.of_nat i * PAGE_SIZE) = Done ((stack_range_for_slot k).1 + Z.of_nat i * PAGE_SIZE)) as ->.
  { unfold virt_addr_new, canonical. destruct (slot_pages_ok offset m0 active tables s m Hst) as [Hu _].
    pose proof (Forall_lookup_1 _ _ _ _ Hu Hp) as Huv. unfold user_address in Huv. by destruct (Z.ltb_spec ((stack_range_for_slot k).1 + Z.of_nat i * PAGE_SIZE) (2 ^ 47)); [|lia]. }
  destruct (remap_existing_user_page_spec offset m0 active tables s m ((stack_range_for_slot k).1 + Z.of_nat i * PAGE_SIZE) f Hst) as (m1 & E1 & Hst1 & Hk1); [by exists idx|].
  destruct (IH m1 Hst1) as (m2 & E2 & Hst2 & Hk2). exists m2. split_and!; [|done|by apply (kept_trans offset _ m m1)].
  run. rewrite (proj2 (index_Done _ _ _) Hf). unfold on_page at 1.
  rewrite (containing_frame_valid p4), (containing_frame_valid f), E1;
    [exact E2|by apply (Forall_lookup_1 _ _ _ _ Hvf Hf)|by apply (slot_p4_valid offset m0 active tables s m)].
Qed.

(** *** The whole preparation *)

(** The flags a program page gets. *)
Definition page_protection (segments : result (list LoadSegment) ElfError) (page : Z) : result PageFlags AddressSpaceError :=
  match segments with Ok segments => elf_page_flags page segments | Err _ => Ok user_page_flags end.

Definition segments_of (segments : result (list LoadSegment) ElfError) : list LoadSegment :=
  match segments with Ok segments => segments | Err _ => [] end.

Lemma page_protection_present r page fl : page_protection r page = Ok fl -> pf_present fl = true.
Proof.
  destruct r as [segs|]; cbn [page_protection]; [|by intros [= <-]]. unfold elf_page_flags.
  destruct (elf_page_scan _ _ _ _) as [[ma w] x]. destruct (w && x); [done|]. by destruct ma; intros [= <-].
Qed.

Lemma virt_addr_user v : user_address v -> virt_addr_new v = Done v.
Proof. unfold user_address, virt_addr_new, canonical. intros Hv. by destruct (Z.ltb_spec v (2 ^ 47)); [|lia]. Qed.

Section layout.
Context (layout : UserMemoryLayout) (pc k : nat).
Context (image program_path arg : bytes) (segments : result (list LoadSegment) ElfError) (info : result ElfInfo ElfError).
Context (protection : Z -> PageFlags).

(** What the caller provides: a layout of [pc] program pages and the [k]-th stack
    slot, an image whose segments end inside the program pages and ask for no page
    that is both writable and executable, and arguments that fit the initial stack. *)
Record request_ok : Prop := {
  rq_pages : (0 < pc <= n)%nat;
  rq_start : program_start layout = FIRST_USER_ENTRY;
  rq_end : program_end layout = FIRST_USER_ENTRY + Z.of_nat pc * PAGE_SIZE;
  rq_slot : (k < PRIVATE_STACK_SLOT_COUNT)%nat;
  rq_stack : (stack_start layout, stack_top layout) = stack_range_for_slot k;
  rq_image : Forall is_byte image /\ image_len image <= u64_max;
  rq_load : load_segments image 8 = Done segments;
  rq_parse : parse_elf64 image = Done info;
  rq_ends : Forall (fun s => ls_virtual_address s + ls_memory_size s <= program_end layout) (segments_of segments);
  rq_flags : forall j, (j < pc)%nat -> page_protection segments (program_page j) = Ok (protection (program_page j));
  rq_args : Forall is_byte program_path /\ program_path <> [] /\ Forall is_byte arg;
  rq_fit : (length (strings (items_of program_path arg)) + 8 * (length (items_of program_path arg) + 5) + 15
            <= USER_INITIAL_STACK_MAX_SIZE)%nat;
}.
Hypothesis Hrq : request_ok.

Lemma page_count_bound m : state m -> (pc <= 64)%nat.
Proof. intros Hst. destruct (sm_shape _ _ _ _ (st_mapped _ _ _ _ _ _ Hst)) as (_ & Hc & _). pose proof (rq_pages Hrq). unfold MAX_PRIVATE_PROGRAM_PAGE_COUNT in Hc. lia. Qed.

Lemma stack_bounds : stack_start layout mod PAGE_SIZE = 0 /\ stack_top layout = stack_start layout + Z.of_nat 4 * PAGE_SIZE /\
  FIRST_USER_ENTRY + 64 * PAGE_SIZE <= stack_start layout /\ stack_top layout <= FIRST_USER_STACK_TOP.
Proof.
  pose proof (rq_stack Hrq) as E. pose proof (rq_slot Hrq) as Hk. unfold stack_range_for_slot in E. injection E as E1 E2.
  unfold PRIVATE_STACK_SLOT_COUNT in Hk. rewrite E1, E2.
  change FIRST_USER_STACK_TOP with (5120 * 4096). change USER_STACK_SLOT_SIZE with (5 * 4096). change USER_STACK_SIZE with (4 * 4096).
  change FIRST_USER_ENTRY with (4096 * 4096). unfold PAGE_SIZE. split_and!; [|lia..].
  replace (5120 * 4096 - Z.of_nat k * (5 * 4096) - 4 * 4096) with ((5116 - 5 * Z.of_nat k) * 4096) by lia. by apply Z.mod_mul.
Qed.

Lemma protect_spec m : state m ->
  exists m', protect_private_user_memory offset p4 layout image m = Done (Ok (), m') /\ state m' /\ kept offset tables m m' /\
    (forall j, (j < pc)%nat -> page_flags offset s m' (program_page j) = flag_bits (protection (program_page j))) /\
    (forall i, (i < 4)%nat -> page_flags offset s m' (stack_start layout + Z.of_nat i * PAGE_SIZE) = flag_bits user_data_page_flags).
Proof.
  intros Hst. pose proof (page_count_bound m Hst) as Hb. destruct (rq_pages Hrq) as [H0 Hn]. destruct stack_bounds as (Ha & Htop & Hlo & Hhi).
  assert (forall i, (i < 4)%nat -> stack_start layout + Z.of_nat i * PAGE_SIZE ∈ pages) as Hsp.
  { intros i Hi. destruct (sm_shape _ _ _ _ (st_mapped _ _ _ _ _ _ Hst)) as (_ & _ & Hsl & Hlen & _).
    destruct (lookup_lt_is_Some_2 (sl_stack_frames s) k) as [sf Hsf]; [rewrite Hsl; apply (rq_slot Hrq)|].
    destruct (lookup_lt_is_Some_2 sf i) as [f Hf]; [pose proof (Forall_lookup_1 _ _ _ _ Hlen Hsf) as HL; unfold PRIVATE_STACK_PAGE_COUNT in HL; lia|].
    destruct (stack_page_lookup m k sf i f Hst Hsf Hf) as (idx & Hp & _). rewrite <-(rq_stack Hrq) in Hp. by apply list_elem_of_lookup_2 in Hp. }
  destruct (protect_pages_spec offset m0 active tables s (page_protection segments) protection (map program_page (seq 0 pc)) m Hst)
    as (m1 & E1 & Hst1 & Hk1 & Hf1 & Ho1).
  { intros v (j & -> & [_ Hj]%list_elem_of_In%in_seq)%elem_of_map. destruct (program_page_lookup m j Hst) as (f & _ & Hp & _); [lia|].
    split_and!; [by apply list_elem_of_lookup_2 in Hp|apply (rq_flags Hrq); lia|].
    apply (page_protection_present segments (program_page j)), (rq_flags Hrq). lia. }
  destruct (protect_pages_spec offset m0 active tables s (fun _ => Ok user_data_page_flags) (fun _ => user_data_page_flags)
    (map (fun i => stack_start layout + Z.of_nat i * PAGE_SIZE) (seq 0 4)) m1 Hst1) as (m2 & E2 & Hst2 & Hk2 & Hf2 & Ho2).
  { intros v (i & -> & [_ Hi]%list_elem_of_In%in_seq)%elem_of_map. split_and!; [apply Hsp; lia|done|done]. }
  exists m2. split_and!; [|done|by apply (kept_trans offset _ m m1)| |].
  - unfold protect_private_user_memory. rewrite (rq_load Hrq), (rq_start Hrq), (rq_end Hrq), Htop. unfold saturating_sub.
    rewrite !Z.max_r by (unfold FIRST_USER_ENTRY, USER_BASE, PAGE_SIZE in *; lia).
    rewrite !virt_addr_user by (unfold user_address, FIRST_USER_STACK_TOP, FIRST_USER_ENTRY, USER_BASE, PAGE_SIZE in *; lia).
    run. rewrite page_range_spec by (done || lia). rewrite page_range_spec by (done || lia).
    change (map (fun i => FIRST_USER_ENTRY + Z.of_nat i * PAGE_SIZE) (seq 0 pc)) with (map program_page (seq 0 pc)).
    unfold page_protection in E1. run_in E1. rewrite E1. exact E2.
  - intros j Hj. unfold page_flags. rewrite Ho2.
    + apply Hf1. apply elem_of_map. exists j. split; [done|]. apply list_elem_of_In, in_seq. lia.
    + destruct (program_page_lookup m j Hst) as (f & _ & Hp & _); [lia|]. by apply list_elem_of_lookup_2 in Hp.
    + intros (i & E & _)%elem_of_map. unfold program_page, PAGE_SIZE in *. lia.
  - intros i Hi. apply Hf2. apply elem_of_map. exists i. split; [done|]. apply list_elem_of_In, in_seq. lia.
Qed.

Lemma overlay_at segs f g w : f w = g w -> overlay image segs f w = overlay image segs g w.
Proof. intros E. unfold overlay. by destruct (List.find _ _). Qed.

Lemma arg_area_at f g w : f w = g w -> arg_area arg f w = arg_area arg g w.
Proof. intros E. unfold arg_area, mem_copy, mem_fill. by repeat (destruct (_ && _); [done|]). Qed.

Notation V := (view offset FIRST_USER_ENTRY (sl_program_frames s)).
Notation W sf := (view offset (stack_start layout) sf).
Notation elf := (is_ok info).

(** The table that is loaded meanwhile. *)
Context (cr3 : Z).

(** What the frames hold afterwards. *)
Record prepared (sf : list Z) (m m' : memory) (sp : Z) (img : bytes) : Prop := {
  pr_state : state m';
  pr_kept : kept offset (tables ++ slot_frames s) m m';
  pr_program : forall w, FIRST_USER_ENTRY <= w < program_end layout ->
    V m' w = arg_area arg (overlay image (segments_of segments) (fresh_byte offset elf m cr3)) w;
  pr_stack : forall w, stack_start layout <= w < stack_top layout -> W sf m' w = mem_copy (fun _ => 0) sp img w;
  pr_flags : forall j, (j < pc)%nat -> page_flags offset s m' (program_page j) = flag_bits (protection (program_page j));
  pr_stack_flags : forall i, (i < 4)%nat ->
    page_flags offset s m' (stack_start layout + Z.of_nat i * PAGE_SIZE) = flag_bits user_data_page_flags;
}.

(** Views that writes elsewhere leave alone. *)
Lemma program_view_kept m k' sf m1 m2 other : state m -> sl_stack_frames s !! k' = Some sf -> other = sf \/ other = tables ->
  kept offset other m1 m2 -> forall w, in_pages FIRST_USER_ENTRY n w -> V m2 w = V m1 w.
Proof using Laws.
  intros Hst Hk Hor Hkept. destruct (slot_frames_split m k' sf Hst Hk) as (_ & _ & [_ Hvp] & [_ Hvs] & _ & Hn1 & Hn2 & _).
  pose proof (st_valid _ _ _ _ _ _ Hst) as [Hvt _]%Forall_app.
  destruct (sm_shape _ _ _ _ (st_mapped _ _ _ _ _ _ Hst)) as (Hl & Hc & _).
  apply (view_kept offset FIRST_USER_ENTRY _ n other); [done|lia| |]; destruct Hor as [->| ->]; (done || by apply Forall_app).
Qed.

Lemma stack_view_kept m sf m1 m2 other : state m -> sl_stack_frames s !! k = Some sf ->
  other = take n (sl_program_frames s) \/ other = tables ->
  kept offset other m1 m2 -> forall w, stack_start layout <= w < stack_top layout -> W sf m2 w = W sf m1 w.
Proof using Laws Hrq.
  intros Hst Hk Hor Hkept w Hw. destruct (slot_frames_split m k sf Hst Hk) as (_ & _ & [_ Hvp] & [_ Hvs] & Hlen & Hn1 & _ & Hn3).
  pose proof (st_valid _ _ _ _ _ _ Hst) as [Hvt _]%Forall_app. unfold PRIVATE_STACK_PAGE_COUNT in Hlen.
  destruct stack_bounds as (_ & Htop & _).
  apply (view_kept offset (stack_start layout) sf 4 other); [done|lia| | |unfold in_pages; lia]; rewrite take_ge by lia;
    destruct Hor as [->| ->]; try (by apply Forall_app); [by rewrite Permutation_app_comm|done].
Qed.

Lemma segments_inside m : state m -> flat offset FIRST_USER_ENTRY (sl_program_frames s) n
  (overlay_elf_segments_to_private_frames offset s image) (overlay image (segments_of segments)).
Proof using Laws Hrq.
  intros Hst. destruct (rq_image Hrq) as [Hb Hu]. pose proof (rq_ends Hrq) as Hends. pose proof (rq_pages Hrq) as Hp.
  destruct (sm_shape _ _ _ _ (st_mapped _ _ _ _ _ _ Hst)) as (Hl & Hc & Hsl & _).
  destruct (lookup_lt_is_Some_2 (sl_stack_frames s) k) as [sf Hsf]; [rewrite Hsl; apply (rq_slot Hrq)|].
  destruct (slot_frames_split m k sf Hst Hsf) as (_ & _ & Hok & _).
  unfold overlay_elf_segments_to_private_frames. rewrite (rq_load Hrq). pose proof (rq_load Hrq) as Hload.
  destruct segments as [segs|e]; [|apply (flat_ext _ _ _ _ _ (fun f => f)); [apply flat_ret|done]].
  destruct (load_segments_inv image 8 segs Hb Hu Hload) as [Hsok Hrng].
  apply (overlay_segments_flat offset s (sm_shape _ _ _ _ (st_mapped _ _ _ _ _ _ Hst)) Hok image segs Hb Hu).
  cbn [segments_of] in Hends. rewrite Forall_forall in *. intros g Hg. split_and!; [by apply Hsok|by apply Hrng|].
  specialize (Hends g Hg). rewrite (rq_end Hrq) in Hends. unfold PAGE_SIZE in *. lia.
Qed.

(** The writes between the remapping of the stack and the protection. *)
Definition fill_slot (sf : list Z) : M memory (result () AddressSpaceError) :=
  fill_program_pages offset cr3 elf (sl_program_frames s) (seq 0 pc);;
  clear_stack_pages offset sf (seq 0 4);;
  try _ := overlay_elf_segments_to_private_frames offset s image in
  try _ := seed_private_user_arg offset s arg in
  seed_private_initial_stack offset s layout program_path arg.

Lemma stack_image : exists st img, InitialStack.build_user_initial_stack layout program_path arg = Done (Ok st) /\
  stack_as_bytes st = Done img /\ stack_start layout <= is_stack_pointer st /\
  is_stack_pointer st + Z.of_nat (length img) = stack_top layout /\ Forall is_byte img.
Proof using Hrq.
  destruct stack_bounds as (Ha & Htop & _). destruct (rq_args Hrq) as (Hbp & Hnp & Hba).
  apply initial_stack_image; try done; [| |apply (rq_fit Hrq)]; rewrite Htop.
  - unfold USER_INITIAL_STACK_MAX_SIZE, PAGE_SIZE. lia.
  - apply Z.div_exact in Ha; [|done]. rewrite Ha. unfold PAGE_SIZE.
    replace (4096 * (stack_start layout / 4096) + Z.of_nat 4 * 4096) with ((512 * (stack_start layout / 4096) + 2048) * 8) by lia.
    by apply Z.mod_mul.
Qed.

Lemma fill_slot_spec m sf st img :
  state m -> sl_stack_frames s !! k = Some sf ->
  InitialStack.build_user_initial_stack layout program_path arg = Done (Ok st) -> stack_as_bytes st = Done img ->
  stack_start layout <= is_stack_pointer st -> is_stack_pointer st + Z.of_nat (length img) = stack_top layout -> Forall is_byte img ->
  elf = true \/ source_mapped offset cr3 (take n (sl_program_frames s)) m pc ->
  exists m', fill_slot sf m = Done (Ok (), m') /\ bytes_ok m' /\ kept offset (slot_frames s) m m' /\
    (forall w, FIRST_USER_ENTRY <= w < program_end layout ->
       V m' w = arg_area arg (overlay image (segments_of segments) (fresh_byte offset elf m cr3)) w) /\
    (forall w, stack_start layout <= w < stack_top layout -> W sf m' w = mem_copy (fun _ => 0) (is_stack_pointer st) img w).
Proof using Laws Hrq.
  intros Hst Hsf Est Eimg Hsp1 Hsp2 Hbi Hsrc. destruct (slot_frames_split m k sf Hst Hsf) as (Hsub & Hsubp & Hokp & Hoks & Hlsf & _).
  destruct (rq_pages Hrq) as [H0 Hn]. destruct stack_bounds as (_ & Htop & _). destruct (rq_args Hrq) as (_ & _ & Hba).
  pose proof (sm_shape _ _ _ _ (st_mapped _ _ _ _ _ _ Hst)) as Hshape. pose proof Hshape as (Hl & Hc & _).
  assert (take 4 sf = sf /\ (4 <= length sf)%nat) as [Ht4 Hlsf'] by (unfold PRIVATE_STACK_PAGE_COUNT in Hlsf; split; [apply take_ge|]; lia).
  destruct (fill_program_pages_spec offset elf cr3 FIRST_USER_ENTRY (sl_program_frames s) n m pc 0 pc) as (m2 & E2 & Hb2 & Hk2 & Hv2);
    [done|lia|lia|apply (st_bytes _ _ _ _ _ _ Hst)|tauto|].
  destruct (fill_program_pages_spec offset true cr3 (stack_start layout) sf 4 m2 4 0 4) as (m3 & E3 & Hb3 & Hk3 & Hv3);
    [by rewrite Ht4|done|lia|done|by left|]. rewrite Ht4 in Hk3.
  destruct (segments_inside m Hst) as [_ Hov]. destruct (Hov m3 Hb3) as (m4 & E4 & Hb4 & Hk4 & Hv4).
  destruct (seed_private_user_arg_flat offset s Hshape Hokp arg Hba) as [_ Harg]; [lia|].
  destruct (Harg m4 Hb4) as (m5 & E5 & Hb5 & Hk5 & Hv5).
  destruct (write_private_user_stack_bytes_flat offset s layout k sf (rq_slot Hrq) (rq_stack Hrq) Hsf Hlsf Hoks
    (is_stack_pointer st) img Hbi Hsp1) as [_ Hstack]; [lia|].
  destruct (Hstack m5 Hb5) as (m6 & E6 & Hb6 & Hk6 & Hv6). rewrite take_ge in Hk6 by lia.
  exists m6. split_and!; [|done| | |].
  - unfold fill_slot. run. rewrite E2, (clear_stack_pages_fill offset cr3), E3, E4, E5.
    unfold seed_private_initial_stack. run. by rewrite Est, Eimg.
  - apply (kept_mono offset sf _ _ _ Hsub) in Hk3.
    apply (kept_trans offset _ m m2); [by apply (kept_mono offset _ _ _ _ Hsubp)|].
    apply (kept_trans offset _ m2 m3); [done|]. apply (kept_trans offset _ m3 m4); [by apply (kept_mono offset _ _ _ _ Hsubp)|].
    apply (kept_trans offset _ m4 m5); [by apply (kept_mono offset _ _ _ _ Hsubp)|by apply (kept_mono offset _ _ _ _ Hsub)].
  - intros w Hw. rewrite (rq_end Hrq) in Hw.
    assert (in_pages FIRST_USER_ENTRY n w) as Hin by (unfold in_pages, PAGE_SIZE in *; lia).
    rewrite (program_view_kept m k sf m5 m6 sf Hst Hsf (or_introl eq_refl) Hk6) by done.
    rewrite Hv5 by done. apply arg_area_at. rewrite Hv4 by done. apply overlay_at.
    rewrite (program_view_kept m k sf m2 m3 sf Hst Hsf (or_introl eq_refl) Hk3) by done. rewrite Hv2 by done.
    destruct (Z.leb_spec (FIRST_USER_ENTRY + Z.of_nat 0 * PAGE_SIZE) w), (Z.ltb_spec w (FIRST_USER_ENTRY + Z.of_nat (0 + pc) * PAGE_SIZE));
      cbn [andb]; (done || (unfold PAGE_SIZE in *; lia)).
  - intros w Hw. assert (in_pages (stack_start layout) 4 w) as Hin by (unfold in_pages; lia). rewrite Hv6 by done.
    unfold mem_copy. destruct (_ && _); [done|].
    rewrite (stack_view_kept m sf m4 m5 _ Hst Hsf (or_introl eq_refl) Hk5), (stack_view_kept m sf m3 m4 _ Hst Hsf (or_introl eq_refl) Hk4), Hv3 by done.
    destruct (Z.leb_spec (stack_start layout + Z.of_nat 0 * PAGE_SIZE) w), (Z.ltb_spec w (stack_start layout + Z.of_nat (0 + 4) * PAGE_SIZE));
      cbn [andb]; (done || (unfold PAGE_SIZE in *; lia)).
Qed.

Lemma prepare_slot_memory_spec m sf : state m -> sl_stack_frames s !! k = Some sf ->
  elf = true \/ source_mapped offset cr3 (tables ++ slot_frames s) m pc ->
  exists m' st img, prepare_slot_memory offset cr3 s p4 layout image program_path arg k pc 4 m = Done (Ok (), m') /\
    InitialStack.build_user_initial_stack layout program_path arg = Done (Ok st) /\ stack_as_bytes st = Done img /\
    prepared sf m m' (is_stack_pointer st) img.
Proof using Laws Hrq.
  intros Hst Hsf Hsrc. destruct (slot_frames_split m k sf Hst Hsf) as (Hsub & Hsubp & _).
  destruct (rq_pages Hrq) as [H0 Hn]. destruct stack_image as (st & img & Est & Eimg & Hsp1 & Hsp2 & Hbi).
  destruct (remap_stack_pages_spec k sf (seq 0 4) m Hsf (rq_slot Hrq)) as (m1 & E1 & Hst1 & Hk1);
    [by repeat (constructor; [unfold PRIVATE_STACK_PAGE_COUNT; lia|])|done|].
  destruct (fill_slot_spec m1 sf st img Hst1 Hsf Est Eimg Hsp1 Hsp2 Hbi) as (m6 & E6 & Hb6 & Hk6 & Hp6 & Hs6).
  { destruct Hsrc as [?|Hsrc]; [by left|right]. apply (source_mapped_mono offset cr3 (tables ++ slot_frames s) _ m); [| |done].
    - intros f Hf. rewrite elem_of_app. auto.
    - apply (kept_mono offset tables); [|done]. intros f. rewrite elem_of_app. auto. }
  pose proof (state_data offset m0 active tables s m1 m6 Hst1 Hb6 Hk6) as Hst6.
  destruct (protect_spec m6 Hst6) as (m7 & E7 & Hst7 & Hk7 & Hf7 & Hsf7).
  exists m7, st, img. split_and!; [|done|done|].
  - unfold prepare_slot_memory. rewrite (proj2 (index_Done _ _ _) Hsf), (rq_parse Hrq). run. rewrite <-(rq_stack Hrq) in E1. cbn [fst] in E1.
    rewrite E1. unfold fill_slot, is_ok in E6. run_in E6. destruct (fill_program_pages _ _ _ _ _ m1) as [[[] ?]|]; [|done]. cbn beta iota in *.
    destruct (clear_stack_pages _ _ _ _) as [[[] ?]|]; [|done]. destruct (overlay_elf_segments_to_private_frames _ _ _ _) as [[[[]|] ?]|]; try done.
    destruct (seed_private_user_arg _ _ _ _) as [[[[]|] ?]|]; try done. rewrite E6. cbn beta iota.
    rewrite containing_frame_valid by (by apply (slot_p4_valid offset m0 active tables s m)). exact E7.
  - split; try done.
    + apply (kept_trans offset _ m m1); [apply (kept_mono offset tables); [|done]; intros f; rewrite elem_of_app; auto|].
      apply (kept_trans offset _ m1 m6); [apply (kept_mono offset (slot_frames s)); [|done]; intros f; rewrite elem_of_app; auto|].
      apply (kept_mono offset tables); [|done]. intros f. rewrite elem_of_app. auto.
    + intros w Hw. pose proof Hw as Hw'. rewrite (rq_end Hrq) in Hw'.
      assert (in_pages FIRST_USER_ENTRY n w) as Hin by (unfold in_pages, PAGE_SIZE in *; lia).
      rewrite (program_view_kept m k sf m6 m7 tables Hst Hsf (or_intror eq_refl) Hk7), Hp6 by done.
      apply arg_area_at, overlay_at. destruct Hsrc as [->|Hsrc]; [done|]. unfold fresh_byte. destruct elf; [done|].
      destruct (source_byte offset cr3 _ m m1 pc w Hsrc) as (b & -> & ->);
        [apply (kept_mono offset tables); [|done]; intros f; rewrite elem_of_app; auto|done|done].
    + intros w Hw. by rewrite (stack_view_kept m sf m6 m7 tables Hst Hsf (or_intror eq_refl) Hk7), Hs6.
Qed.
End layout.
End prepare.
