(* ===== verification/PrivateProcess.v ===== *)
(** * Private memory of processes: the pool at run time

    The pool's slots keep separate memories: preparing one for a process gives
    it the contents and protection of its program, seen through its page table,
    and changes nothing that another slot's page table reaches. *)

From S2P Require Import Prelude Ring3 Ring3Proofs Elf ElfProofs AddrSpace AddrSpaceProofs PageTables PageTablesProofs PrivateTables PrivateMem.

Section process.
Context `{Laws : EntryLaws}.
Context (offset : Z) (m0 : memory) (active : Z).

(** The pool and memory at run time; [parts] are the tables of the slots. *)
Record pool_state (parts : list (list Z)) (p : PrivateP4Pool) (m : memory) : Prop := {
  ps_wf : pool_wf p;
  ps_slots : Forall2 (fun s t => slot_state offset m0 active t s m) (live_slots p) parts;
  ps_nodup : NoDup (pool_frames p parts);
}.

(** The byte user code reads at [v] with [p4] as its page table. *)
Definition user_byte (m : memory) (p4 v : Z) : option Z :=
  match translate_addr offset m p4 v with Done (Some pa) => Some (m (offset + pa)) | _ => None end.

Lemma concat_disjoint {B} (l : list (list B)) i j a b x :
  NoDup (concat l) -> l !! i = Some a -> l !! j = Some b -> x ∈ a -> x ∈ b -> i = j.
Proof.
  revert i j; induction l as [|c l IH]; intros i j Hn Hi Hj Ha Hb; [done|]. cbn [concat] in Hn. apply NoDup_app in Hn as (_ & Hx & Hn).
  assert (forall q z, l !! q = Some z -> x ∈ z -> x ∈ concat l) as Hin.
  { intros q z Hq Hz. apply list_elem_of_In, in_concat. exists z. split; apply list_elem_of_In; [by apply list_elem_of_lookup_2 in Hq|done]. }
  destruct i as [|i], j as [|j]; cbn in Hi, Hj; [done| | |f_equal; by apply (IH i j)].
  - injection Hi as <-. exfalso. by apply (Hx x Ha), (Hin j b).
  - injection Hj as <-. exfalso. by apply (Hx x Hb), (Hin i a).
Qed.

Lemma concat_lookup_NoDup {B} (l : list (list B)) i a : NoDup (concat l) -> l !! i = Some a -> NoDup a.
Proof.
  revert i; induction l as [|c l IH]; intros i Hn Hi; [done|]. cbn [concat] in Hn. apply NoDup_app in Hn as (Hc & _ & Hn).
  destruct i as [|i]; [by injection Hi as <-|by apply (IH i)].
Qed.

(** Frames of different slots are different. *)
Lemma parts_disjoint p parts i j s s' t t' f :
  NoDup (pool_frames p parts) -> live_slots p !! i = Some s -> parts !! i = Some t -> live_slots p !! j = Some s' -> parts !! j = Some t' ->
  f ∈ t ++ slot_frames s -> f ∈ t' ++ slot_frames s' -> i = j.
Proof.
  intros Hn Hs Ht Hs' Ht' Hf Hf'. apply (concat_disjoint _ i j (t ++ slot_frames s) (t' ++ slot_frames s') f Hn); try done;
    apply lookup_zip_with_Some; eauto.
Qed.

(** ** From boot to run time *)

Lemma pool_built_state count m rest pool parts :
  bytes_ok m0 -> valid_frame active -> pool_built offset m0 active count m rest pool parts -> pool_state parts pool m.
Proof.
  intros Hm0 Hact Hb. pose proof (pb_slots _ _ _ _ _ _ _ _ Hb) as Hf. pose proof (pb_nodup _ _ _ _ _ _ _ _ Hb) as (Hn & _)%NoDup_app.
  pose proof (pb_valid _ _ _ _ _ _ _ _ Hb) as [Hv _]%Forall_app.
  assert (forall i s t, live_slots pool !! i = Some s -> parts !! i = Some t -> forall f, f ∈ t ++ slot_frames s -> f ∈ pool_frames pool parts) as Hin.
  { intros i s t Hi Ht f Hf'. apply list_elem_of_In, in_concat. exists (t ++ slot_frames s). split; apply list_elem_of_In; [|done].
    apply (list_elem_of_lookup_2 _ i). apply lookup_zip_with_Some. eauto. }
  split; [split| |done].
  - apply (pb_length _ _ _ _ _ _ _ _ Hb).
  - pose proof (Forall2_length _ _ _ Hf) as HL. unfold live_slots in HL. rewrite length_take in HL.
    rewrite (pb_count _ _ _ _ _ _ _ _ Hb), <-HL, (pb_length _ _ _ _ _ _ _ _ Hb). lia.
  - apply (pb_wf _ _ _ _ _ _ _ _ Hb).
  - apply NoDup_alt. intros i j x Hi Hj. rewrite !list_lookup_fmap in Hi, Hj.
    destruct (live_slots pool !! i) as [s|] eqn:Ei; [|done]. destruct (live_slots pool !! j) as [s'|] eqn:Ej; [|done].
    cbn in Hi, Hj. destruct (Forall2_lookup_l _ _ _ _ _ Hf Ei) as (t & Ht & Hmap & _). destruct (Forall2_lookup_l _ _ _ _ _ Hf Ej) as (t' & Ht' & Hmap' & _).
    pose proof (sm_p4 _ _ _ _ Hmap). pose proof (sm_p4 _ _ _ _ Hmap').
    apply (parts_disjoint pool parts i j s s' t t' x Hn); try done; rewrite elem_of_app; left; congruence.
  - apply Forall2_same_length_lookup. split; [by apply (Forall2_length _ _ _ Hf)|]. intros i s t Hi Ht.
    destruct (Forall2_lookup_lr _ _ _ _ _ _ Hf Hi Ht) as (Hmap & Hsh & _). specialize (Hin i s t Hi Ht). split; try done.
    + apply (pb_bytes _ _ _ _ _ _ _ _ Hb).
    + rewrite Forall_forall in *. auto.
    + apply (concat_lookup_NoDup _ i _ Hn). apply lookup_zip_with_Some. eauto.
    + intros ix f Hix Hfa. split; [by apply (active_tables_valid offset m0 active Hact Hm0 ix)|].
      intros Hf'. apply (pb_active _ _ _ _ _ _ _ _ Hb ix f Hix Hfa). rewrite elem_of_app. auto.
Qed.

(** ** Bookkeeping *)

(** Only the flags of the slot differ. *)
Definition same_slot (s s' : PreparedP4Slot) : Prop :=
  sl_p4_frame s' = sl_p4_frame s /\ sl_program_frames s' = sl_program_frames s /\
  sl_program_frame_count s' = sl_program_frame_count s /\ sl_stack_frames s' = sl_stack_frames s.

Lemma same_slot_refl s : same_slot s s.
Proof. done. Qed.

Lemma state_same_slot t s s' m : same_slot s s' -> slot_wf s' -> slot_state offset m0 active t s m -> slot_state offset m0 active t s' m.
Proof.
  intros (E1 & E2 & E3 & E4) Hwf [Hb [Hsh Hp Hpg] [H1 H2 H3] Hv Hn Ha]. destruct Hwf as [Hul _ _].
  assert (slot_frames s' = slot_frames s) as Ef by (unfold slot_frames; congruence).
  destruct Hsh as (? & ? & ? & ? & ?). split; rewrite ?Ef; try done.
  - split; [|congruence|congruence]. unfold slot_shape. rewrite E2, E3, E4. by split_and!.
  - split; rewrite ?E1, ?E3; done.
Qed.

Lemma live_update_slots q upd p : pool_wf p -> live_slots (Pool.update_live q upd p) = find_upd q upd (live_slots p).
Proof.
  intros [H1 H2 _ _]. unfold live_slots, Pool.update_live. simpl. rewrite take_app_length'; [done|]. rewrite length_find_upd, length_take. lia.
Qed.

Lemma find_upd_same q upd l : (forall s, same_slot s (upd s)) -> Forall2 same_slot l (find_upd q upd l).
Proof.
  intros Hu. induction l as [|x l IH]; cbn [find_upd]; [constructor|].
  destruct (q x); constructor; try done. clear. induction l; by constructor.
Qed.

(** Operations that only keep the books leave the memories of the slots as they are. *)
Lemma pool_state_update parts q upd p m : pool_state parts p m -> (forall s, same_slot s (upd s)) -> pool_wf (Pool.update_live q upd p) ->
  pool_state parts (Pool.update_live q upd p) m.
Proof.
  intros [Hwf Hs Hn] Hu Hwf'. pose proof (find_upd_same q upd (live_slots p) Hu) as Hsame. rewrite <-live_update_slots in Hsame by done.
  split; [done| |].
  - apply Forall2_same_length_lookup. split; [rewrite <-(Forall2_length _ _ _ Hsame); apply (Forall2_length _ _ _ Hs)|].
    intros j s' t Hj Ht. destruct (Forall2_lookup_r _ _ _ _ _ Hsame Hj) as (s & Hsj & Hss).
    apply (state_same_slot t s); [done|by apply (live_slot_wf _ _ Hwf'), (list_elem_of_lookup_2 _ _ _ Hj)|].
    exact (Forall2_lookup_lr _ _ _ _ _ _ Hs Hsj Ht).
  - unfold pool_frames in *. replace (zip_with _ (live_slots (Pool.update_live q upd p)) parts) with
      (zip_with (fun s t => t ++ slot_frames s) (live_slots p) parts); [done|].
    clear -Hsame. revert parts. induction Hsame as [|x y l l' (E1 & E2 & E3 & E4) _ IH]; intros [|t parts]; cbn [zip_with]; try done.
    rewrite IH. unfold slot_frames. by rewrite E2, E3, E4.
Qed.

(** Taking a table for a new process. *)
Lemma take_keeps_state parts p m : pool_state parts p m ->
  exists r p', Pool.take p = Done (r, p') /\ pool_state parts p' m /\ Forall2 same_slot (live_slots p) (live_slots p') /\
    match r with
    | Some f => exists i s, live_slots p' !! i = Some s /\ sl_p4_frame s = f /\ sl_in_use s = true
    | None => forall s, s ∈ live_slots p -> taken p (sl_p4_frame s)
    end.
Proof.
  intros Hp. pose proof (ps_wf _ _ _ Hp) as Hwf. destruct (take_spec p Hwf) as (r & p' & E & Hwf' & Hr). exists r, p'. split; [done|].
  assert (p' = p \/ exists q upd, (forall s, same_slot s (upd s)) /\ p' = Pool.update_live q upd p) as Hform.
  { revert E. unfold Pool.take. run. rewrite (live_ok p Hwf). destruct (List.find _ (live_slots p)); intros [= _ <-]; [|by left].
    right. eexists _, _. split; [|reflexivity]. done. }
  split_and!.
  - destruct Hform as [->|(q & upd & Hu & ->)]; [done|by apply pool_state_update].
  - destruct Hform as [->|(q & upd & Hu & ->)]; [|rewrite live_update_slots by done; by apply find_upd_same].
    generalize (live_slots p). intros l. induction l; by constructor.
  - destruct r as [f|]; [|tauto]. destruct Hr as (_ & (s & [i Hi]%list_elem_of_lookup & Hs) & _). by exists i, s.
Qed.

(** ** Preparing a slot of the pool *)

Lemma page_at s m v : v ∈ slot_pages (sl_program_frame_count s) -> forall t, slot_state offset m0 active t s m ->
  0 <= v /\ v mod PAGE_SIZE = 0.
Proof.
  intros Hv t Hst. destruct (sm_shape _ _ _ _ (st_mapped _ _ _ _ _ _ Hst)) as (_ & Hc & _).
  destruct (slot_pages_aligned _ v Hc Hv) as [Hu Ha]. unfold user_address in Hu. lia.
Qed.

(** What user code reads in a page of a slot. *)
Lemma slot_user_byte m t s i v f o :
  slot_state offset m0 active t s m -> slot_pages (sl_program_frame_count s) !! i = Some v -> slot_frames s !! i = Some f ->
  0 <= o < PAGE_SIZE -> user_byte m (sl_p4_frame s) (v + o) = Some (m (offset + f + o)).
Proof.
  intros Hst Hv Hf Ho. pose proof (Forall2_lookup_lr _ _ _ _ _ _ (sm_pages _ _ _ _ (st_mapped _ _ _ _ _ _ Hst)) Hv Hf) as Hpm.
  destruct (page_at s m v) with (t := t) as [H0 Ha]; [by apply list_elem_of_lookup_2 in Hv|done|].
  unfold user_byte. rewrite (page_maps_translate offset m _ t v f o) by done. f_equal. f_equal. lia.
Qed.

Lemma program_user_byte m t s w : slot_state offset m0 active t s m ->
  in_pages FIRST_USER_ENTRY (sl_program_frame_count s) w ->
  user_byte m (sl_p4_frame s) w = Some (view offset FIRST_USER_ENTRY (sl_program_frames s) m w).
Proof.
  intros Hst Hw. destruct (page_of _ _ _ Hw) as (Hi & Hr & Ew). set (i := Z.to_nat ((w - FIRST_USER_ENTRY) / PAGE_SIZE)) in *.
  destruct (program_page_lookup offset m0 active t s m i Hst Hi) as (f & Hpf & Hp & Hf).
  rewrite Ew at 1. change (FIRST_USER_ENTRY + Z.of_nat i * PAGE_SIZE) with (program_page i).
  rewrite (slot_user_byte m t s i (program_page i) f _ Hst Hp Hf Hr). unfold view. fold i. by rewrite nth_lookup, Hpf.
Qed.

Lemma stack_user_byte m t s k sf w : slot_state offset m0 active t s m -> sl_stack_frames s !! k = Some sf ->
  (stack_range_for_slot k).1 <= w < (stack_range_for_slot k).2 ->
  user_byte m (sl_p4_frame s) w = Some (view offset (stack_range_for_slot k).1 sf m w).
Proof.
  intros Hst Hk Hw. assert (in_pages (stack_range_for_slot k).1 4 w) as Hp.
  { unfold in_pages, stack_range_for_slot in *. cbn [fst snd] in *. change USER_STACK_SIZE with (4 * PAGE_SIZE) in *. lia. }
  destruct (page_of _ _ _ Hp) as (Hi & Hr & Ew). set (i := Z.to_nat ((w - (stack_range_for_slot k).1) / PAGE_SIZE)) in *.
  destruct (slot_frames_split offset m0 active t s m k sf Hst Hk) as (_ & _ & _ & _ & Hlen & _).
  destruct (lookup_lt_is_Some_2 sf i) as [f Hf]; [unfold PRIVATE_STACK_PAGE_COUNT in Hlen; lia|].
  destruct (stack_page_lookup offset m0 active t s m k sf i f Hst Hk Hf) as (idx & Hpg & Hfr).
  rewrite Ew at 1. rewrite (slot_user_byte m t s idx _ f _ Hst Hpg Hfr Hr). unfold view. fold i. by rewrite nth_lookup, Hf.
Qed.

Lemma position_unique {B} (key : B -> Z) (l : list B) i x :
  NoDup (map key l) -> l !! i = Some x -> position (fun y => key y =? key x) l = Some i.
Proof.
  revert i; induction l as [|y l IH]; intros i Hn Hi; [done|]. cbn [map] in Hn. apply NoDup_cons in Hn as [Hy Hn].
  destruct i as [|i]; cbn in Hi; cbn [position].
  - injection Hi as ->. by rewrite Z.eqb_refl.
  - destruct (Z.eqb_spec (key y) (key x)) as [E|]; [exfalso; apply Hy; rewrite E; apply elem_of_map; exists x; split; [done|by apply list_elem_of_lookup_2 in Hi]|].
    by rewrite (IH i).
Qed.

Lemma find_unique {B} (key : B -> Z) (l : list B) i x :
  NoDup (map key l) -> l !! i = Some x -> List.find (fun y => key y =? key x) l = Some x.
Proof.
  intros Hn Hi. destruct (position_Some (fun y => key y =? key x) l i) as (y & Hy & _ & Hf); [by apply position_unique|]. congruence.
Qed.

Lemma pages_for_len_exact n : pages_for_len (Z.of_nat n * PAGE_SIZE) = Z.of_nat n.
Proof. unfold pages_for_len, div_ceil. by rewrite Z.mod_mul, Z.div_mul by done. Qed.

(** The stack slot of the process is marked. *)
Definition mark_stack (p4 : Z) (in_use : list bool) (p : PrivateP4Pool) : PrivateP4Pool :=
  Pool.update_live (fun s => sl_p4_frame s =? p4) (fun s => s <| sl_stack_in_use := in_use |>) p.

Section preparing.
Context (parts : list (list Z)) (i : nat) (s : PreparedP4Slot) (t : list Z) (ad : AddrState).
Context (layout : UserMemoryLayout) (pc k : nat) (image program_path arg : bytes).
Context (segments : result (list LoadSegment) ElfError) (info : result ElfInfo ElfError) (protection : Z -> PageFlags).
Hypothesis Hpool : pool_state parts (ad_pool ad) (ad_mem ad).
Hypothesis Hoffset : ad_offset_value ad = offset /\ offset <> 0.
Hypothesis Hslot : live_slots (ad_pool ad) !! i = Some s.
Hypothesis Htables : parts !! i = Some t.
Hypothesis Hin_use : sl_in_use s = true.
Hypothesis Hrq : request_ok s layout pc k image program_path arg segments info protection.
Context (cr3 : Z).
Hypothesis Hsource : is_ok info = true \/ source_mapped offset cr3 (t ++ slot_frames s) (ad_mem ad) pc.
Notation m := (ad_mem ad).
Notation p := (ad_pool ad).
Notation p4 := (sl_p4_frame s).
Let in_use := <[k := true]> (sl_stack_in_use s).

Lemma slot_in_state : slot_state offset m0 active t s m.
Proof. exact (Forall2_lookup_lr _ _ _ _ _ _ (ps_slots _ _ _ Hpool) Hslot Htables). Qed.

(** The other slots keep their state, and their pages keep their bytes. *)
Lemma other_slot j s' t' m' : bytes_ok m' -> kept offset (t ++ slot_frames s) m m' ->
  live_slots p !! j = Some s' -> parts !! j = Some t' -> j <> i ->
  slot_state offset m0 active t' s' m' /\
  forall a v f o, slot_pages (sl_program_frame_count s') !! a = Some v -> slot_frames s' !! a = Some f -> 0 <= o < PAGE_SIZE ->
    user_byte m' (sl_p4_frame s') (v + o) = user_byte m (sl_p4_frame s') (v + o).
Proof using Laws Hpool Hslot Htables.
  intros Hm' Hk Hj Htj Hne. pose proof (Forall2_lookup_lr _ _ _ _ _ _ (ps_slots _ _ _ Hpool) Hj Htj) as Hst'. pose proof slot_in_state as Hst.
  assert (forall f, f ∈ t' ++ slot_frames s' -> f ∉ t ++ slot_frames s) as Hdis.
  { intros f Hf Hf'. apply Hne. exact (parts_disjoint p parts j i s' s t' t f (ps_nodup _ _ _ Hpool) Hj Htj Hslot Htables Hf Hf'). }
  destruct (state_kept offset m0 active t' s' m m' (t ++ slot_frames s) Hst' Hm' Hk) as [Hst2 _].
  { apply (st_valid _ _ _ _ _ _ Hst). }
  { intros f Hf. apply Hdis. rewrite elem_of_app. auto. }
  { intros ix f Hix Hf. by apply (st_active _ _ _ _ _ _ Hst ix). }
  split; [done|]. intros a v f o Hv Hf Ho. rewrite (slot_user_byte m' t' s' a v f o Hst2 Hv Hf Ho), (slot_user_byte m t' s' a v f o Hst' Hv Hf Ho).
  f_equal. apply Hk. apply Forall_forall. intros g Hg. pose proof (st_valid _ _ _ _ _ _ Hst') as [_ Hvf]%Forall_app.
  pose proof (st_valid _ _ _ _ _ _ Hst) as Hvg. rewrite Forall_forall in Hvg.
  apply (frames_apart offset f g); [by apply (Forall_lookup_1 _ _ _ _ Hvf Hf)|by apply Hvg| |unfold in_frame, PAGE_SIZE in *; lia].
  intros ->. apply (Hdis g); [|done]. rewrite elem_of_app. right. by apply list_elem_of_lookup_2 in Hf.
Qed.

Lemma pool_state_after m' : slot_state offset m0 active t s m' -> kept offset (t ++ slot_frames s) m m' ->
  pool_state parts (mark_stack p4 in_use p) m'.
Proof using Laws Hpool Hslot Htables Hin_use Hrq.
  intros Hst' Hk. pose proof (ps_wf _ _ _ Hpool) as Hwf. pose proof (pw_frames _ Hwf) as Hnp.
  destruct (sm_shape _ _ _ _ (st_mapped _ _ _ _ _ _ Hst')) as (_ & _ & _ & _ & Hul).
  assert (length in_use = PRIVATE_STACK_SLOT_COUNT) as Hiu by (unfold in_use; by rewrite length_insert).
  assert (forall s', s' ∈ live_slots p -> sl_p4_frame s' = p4 -> s' = s) as Huniq.
  { intros s' [j Hj]%list_elem_of_lookup Hp. assert (j = i) as ->; [|congruence].
    apply (NoDup_lookup _ _ _ p4 Hnp); rewrite list_lookup_fmap; [rewrite Hj; cbn; congruence|by rewrite Hslot]. }
  assert (pool_state parts p m') as Hp'.
  { split; [done| |apply (ps_nodup _ _ _ Hpool)]. apply Forall2_same_length_lookup. split; [apply (Forall2_length _ _ _ (ps_slots _ _ _ Hpool))|].
    intros j s' t' Hj Htj. destruct (decide (j = i)) as [->|Hne]; [by simplify_eq|].
    by apply (other_slot j s' t' m'); [apply (st_bytes _ _ _ _ _ _ Hst')|..]. }
  set (upd := fun s => s <| sl_stack_in_use := in_use |>).
  assert (find_upd (fun s => sl_p4_frame s =? p4) upd (live_slots p) = find_upd (Pool.owned p4) upd (live_slots p)) as Eu.
  { symmetry. apply (find_upd_first sl_p4_frame _ _ s); [done|]. unfold Pool.owned.
    destruct (List.find _ (live_slots p)) as [x|] eqn:E.
    - pose proof (find_Some _ _ _ E) as [Hx Hq]. apply andb_true_iff in Hq as [Hq%Z.eqb_eq _]. f_equal. by apply Huniq.
    - rewrite find_None in E. specialize (E s (list_elem_of_lookup_2 _ _ _ Hslot)). by rewrite Z.eqb_refl, Hin_use in E. }
  unfold mark_stack. fold upd. replace (Pool.update_live (fun s => sl_p4_frame s =? p4) upd p) with (Pool.update_live (Pool.owned p4) upd p);
    [|unfold Pool.update_live; fold (live_slots p); by rewrite Eu].
  apply pool_state_update; [done|done|]. apply (updated_wf_pool p Hwf p4); [by intros s' [? _]%owned_frame|].
  intros s' [H1 H2 H3] [_ Hu]%owned_frame. split; [|done]. split; cbn; [done|done|congruence].
Qed.

Lemma prepare_process_spec :
  exists m' st img sf,
    prepare_process_private_memory cr3 p4 layout image program_path arg ad =
      Done (Ok (), ad <| ad_mem := m' |> <| ad_pool := mark_stack p4 in_use p |>) /\
    InitialStack.build_user_initial_stack layout program_path arg = Done (Ok st) /\ stack_as_bytes st = Done img /\
    sl_stack_frames s !! k = Some sf /\
    prepared offset m0 active t s layout pc image arg segments info protection cr3 sf m m' (is_stack_pointer st) img.
Proof using Laws Hpool Hoffset Hslot Htables Hrq Hsource.
  pose proof slot_in_state as Hst. pose proof (ps_wf _ _ _ Hpool) as Hwf. pose proof (pw_frames _ Hwf) as Hnp.
  pose proof (sm_shape _ _ _ _ (st_mapped _ _ _ _ _ _ Hst)) as (_ & _ & Hsl & _ & Hul).
  destruct (lookup_lt_is_Some_2 (sl_stack_frames s) k) as [sf Hsf]; [rewrite Hsl; apply (rq_slot _ _ _ _ _ _ _ _ _ _ Hrq)|].
  destruct (prepare_slot_memory_spec offset m0 active t s layout pc k image program_path arg segments info protection Hrq cr3 m sf Hst Hsf Hsource)
    as (m' & st & img & E & Est & Eimg & Hp).
  exists m', st, img, sf. split_and!; try done.
  assert (stack_slot_index (stack_top layout) = Some k) as Hk.
  { pose proof (rq_stack _ _ _ _ _ _ _ _ _ _ Hrq) as Es. rewrite <-(stack_slot_index_range k (rq_slot _ _ _ _ _ _ _ _ _ _ Hrq)). by rewrite <-Es. }
  destruct (stack_bounds s layout pc k image program_path arg segments info protection Hrq) as (_ & Htop & Hlo & _).
  destruct (rq_pages _ _ _ _ _ _ _ _ _ _ Hrq) as [H0 Hn]. destruct Hoffset as [Ho Hnz].
  unfold prepare_process_private_memory, physical_memory_offset. run. rewrite Ho. apply Z.eqb_neq in Hnz as ->. cbn [negb].
  unfold Pool.find_index. rewrite (live_ok _ Hwf). run. rewrite (position_unique sl_p4_frame _ i s Hnp Hslot).
  assert (po_slots p !! i = Some s) as Hi.
  { unfold live_slots in Hslot. apply lookup_take_Some in Hslot as [? _]. done. }
  rewrite (proj2 (index_Done _ _ _) Hi).
  assert (saturating_sub (program_end layout) (program_start layout) = Z.of_nat pc * PAGE_SIZE) as ->.
  { rewrite (rq_start _ _ _ _ _ _ _ _ _ _ Hrq), (rq_end _ _ _ _ _ _ _ _ _ _ Hrq). unfold saturating_sub, PAGE_SIZE. lia. }
  assert (saturating_sub (stack_top layout) (stack_start layout) = Z.of_nat 4 * PAGE_SIZE) as ->.
  { rewrite Htop. unfold saturating_sub, PAGE_SIZE. lia. }
  rewrite !pages_for_len_exact, !Nat2Z.id, Hk. destruct (Nat.ltb_spec (sl_program_frame_count s) pc); [lia|].
  change (PRIVATE_STACK_PAGE_COUNT <? 4)%nat with false. cbn beta iota. unfold on_mem. rewrite E. cbn beta iota.
  change (ad_pool (ad <| ad_mem := m' |>)) with p. rewrite (live_ok _ Hwf), (find_unique sl_p4_frame _ i s Hnp Hslot).
  rewrite index_set_ok by (rewrite Hul; apply (rq_slot _ _ _ _ _ _ _ _ _ _ Hrq)). done.
Qed.
End preparing.

(** C17. Preparing a process's private memory.  For a program whose segments
    fit the slot and ask for no page both to write and to execute, and arguments
    that fit the initial stack, the preparation succeeds; through the slot's page table, user code then reads the program's
    segments, the argument area and the initial stack exactly as they would be
    in flat memory (around the segments of an ELF program the pages hold zeroes;
    for another image, whose pages the loaded table [cr3] must map outside the
    slot, the bytes at the same addresses of the loaded address space), every program page has the protection its segments ask for,
    and no byte of any page of another slot has changed. *)
Theorem private_memory_prepared (parts : list (list Z)) (i : nat) (s : PreparedP4Slot) (t : list Z) (ad : AddrState)
    (layout : UserMemoryLayout) (pc k : nat) (image program_path arg : bytes)
    (segments : result (list LoadSegment) ElfError) (info : result ElfInfo ElfError) (protection : Z -> PageFlags) (cr3 : Z) :
  pool_state parts (ad_pool ad) (ad_mem ad) -> ad_offset_value ad = offset /\ offset <> 0 ->
  live_slots (ad_pool ad) !! i = Some s -> parts !! i = Some t -> sl_in_use s = true ->
  request_ok s layout pc k image program_path arg segments info protection ->
  is_ok info = true \/ source_mapped offset cr3 (t ++ slot_frames s) (ad_mem ad) pc ->
  exists ad' st img,
    prepare_process_private_memory cr3 (sl_p4_frame s) layout image program_path arg ad = Done (Ok (), ad') /\
    InitialStack.build_user_initial_stack layout program_path arg = Done (Ok st) /\ stack_as_bytes st = Done img /\
    pool_state parts (ad_pool ad') (ad_mem ad') /\
    (forall w, program_start layout <= w < program_end layout ->
       user_byte (ad_mem ad') (sl_p4_frame s) w =
       Some (arg_area arg (overlay image (segments_of segments) (fresh_byte offset (is_ok info) (ad_mem ad) cr3)) w)) /\
    (forall w, stack_start layout <= w < stack_top layout ->
       user_byte (ad_mem ad') (sl_p4_frame s) w = Some (mem_copy (fun _ => 0) (is_stack_pointer st) img w)) /\
    (forall j, (j < pc)%nat -> page_flags offset s (ad_mem ad') (program_page j) = flag_bits (protection (program_page j))) /\
    (forall j s' a v o, live_slots (ad_pool ad) !! j = Some s' -> j <> i ->
       slot_pages (sl_program_frame_count s') !! a = Some v -> 0 <= o < PAGE_SIZE ->
       user_byte (ad_mem ad') (sl_p4_frame s') (v + o) = user_byte (ad_mem ad) (sl_p4_frame s') (v + o)).
Proof.
  intros Hpool Hoff Hs Ht Hu Hrq Hsrc.
  destruct (prepare_process_spec parts i s t ad layout pc k image program_path arg segments info protection Hpool Hoff Hs Ht Hrq cr3 Hsrc)
    as (m' & st & img & sf & E & Est & Eimg & Hsf & Hp).
  pose proof (pr_state _ _ _ _ _ _ _ _ _ _ _ _ _ _ _ _ _ _ Hp) as Hst'. pose proof (pr_kept _ _ _ _ _ _ _ _ _ _ _ _ _ _ _ _ _ _ Hp) as Hk.
  eexists _, st, img. split; [exact E|]. cbn -[user_byte in_pages page_flags]. split_and!; try done.
  - by apply (pool_state_after parts i s t ad layout pc k image program_path arg segments info protection).
  - intros w Hw. rewrite (rq_start _ _ _ _ _ _ _ _ _ _ Hrq) in Hw. rewrite <-(pr_program _ _ _ _ _ _ _ _ _ _ _ _ _ _ _ _ _ _ Hp w Hw).
    apply (program_user_byte m' t); [done|]. rewrite (rq_end _ _ _ _ _ _ _ _ _ _ Hrq) in Hw. destruct (rq_pages _ _ _ _ _ _ _ _ _ _ Hrq).
    unfold in_pages, PAGE_SIZE in *. lia.
  - intros w Hw. rewrite <-(pr_stack _ _ _ _ _ _ _ _ _ _ _ _ _ _ _ _ _ _ Hp w Hw). pose proof (rq_stack _ _ _ _ _ _ _ _ _ _ Hrq) as Hstk.
    pose proof (stack_user_byte m' t s k sf w Hst' Hsf) as Hb. rewrite <-Hstk in Hb. by apply Hb.
  - apply (pr_flags _ _ _ _ _ _ _ _ _ _ _ _ _ _ _ _ _ _ Hp).
  - intros j s' a v o Hj Hne Hv Ho. destruct (Forall2_lookup_l _ _ _ _ _ (ps_slots _ _ _ Hpool) Hj) as (t' & Ht' & Hst).
    destruct (other_slot parts i s t ad Hpool Hs Ht j s' t' m') as [_ Hbytes]; try done; [apply (st_bytes _ _ _ _ _ _ Hst')|].
    destruct (Forall2_lookup_l _ _ _ _ _ (sm_pages _ _ _ _ (st_mapped _ _ _ _ _ _ Hst)) Hv) as (f & Hf & _). by apply (Hbytes a v f).
Qed.
End process.

(** ** A concrete boot *)

(** Tables that are closed under following entries. *)
Definition leads_to (offset : Z) (m : memory) (fs gs : list Z) : bool :=
  forallb (fun f => forallb (fun i =>
    match entry_frame (table_entry m offset f (Z.of_nat i)) with Ok g => existsb (Z.eqb g) gs | Err _ => true end) (seq 0 512)) fs.

Fixpoint levels_closed (offset : Z) (m : memory) (levels : list (list Z)) : bool :=
  match levels with
  | fs :: rest => match rest with gs :: _ => leads_to offset m fs gs | [] => true end && levels_closed offset m rest
  | [] => true
  end.

Lemma levels_closed_path offset m l levels fs f ix :
  levels_closed offset m (fs :: levels) = true -> length levels = l -> f ∈ fs -> ix_ok ix ->
  path offset m l f ix ⊆ concat (fs :: levels).
Proof.
  revert l fs f. induction levels as [|gs levels IH]; intros l fs f Hc Hl Hf Hix; cbn [length] in Hl; subst l; cbn [path].
  - intros n Hn%list_elem_of_singleton. subst n. cbn [concat]. by rewrite app_nil_r.
  - cbn [levels_closed] in Hc. apply andb_true_iff in Hc as [Hgo Hc].
    intros n [->|Hn]%elem_of_cons; cbn [concat]; rewrite elem_of_app; [by left|right].
    destruct (entry_frame _) as [g|] eqn:E; [|by apply not_elem_of_nil in Hn].
    apply (IH (length levels) gs g); try done. unfold leads_to in Hgo. rewrite forallb_forall in Hgo.
    specialize (Hgo f (proj1 (list_elem_of_In _ _) Hf)). rewrite forallb_forall in Hgo. pose proof (Hix (S (length levels))) as Hr.
    specialize (Hgo (Z.to_nat (ix (S (length levels))))). rewrite Z2Nat.id, E in Hgo by lia.
    apply existsb_exists in Hgo as (x & Hx & ->%Z.eqb_eq); [by apply list_elem_of_In|]. apply in_seq. lia.
Qed.

Definition demo_offset : Z := 0x8000000000.

(** A kernel table at 0x1000 with the user area below it. *)
Definition demo_tables : memory :=
  foldl (fun m '(f, i, e) => set_word m (entry_addr demo_offset f i) e) (fun _ => 0)
    [(0x1000, 0, 0x2007); (0x2000, 0, 0x3007); (0x3000, 8, 0x4007); (0x3000, 9, 0x5007)].

Definition demo_frames : BootInfoFrameAllocator := mkBootAlloc [mkRegion 0 0x8000 false; mkRegion 0x100000 0x22c000 true] 0.
Definition demo_boot : PagingState := mkPaging (mkAddr Pool.new None 0 demo_tables) (0x1000, 0) None.

Lemma zero_bytes : bytes_ok (fun _ => 0).
Proof. intros a. unfold is_byte. lia. Qed.

Lemma demo_boot_state : boot_state demo_offset 1 demo_frames demo_boot.
Proof.
  assert (remaining demo_frames = map (fun i => 0x100000 + Z.of_nat i * 4096) (seq 0 300)) as Hr by (vm_compute; reflexivity).
  split.
  - unfold demo_boot, demo_tables. cbn [pg_addr ad_mem foldl]. do 4 apply set_word_ok. exact zero_bytes.
  - done.
  - change (valid_frame 0x1000). split; [lia|reflexivity].
  - rewrite Hr. apply Forall_forall. intros f (i & -> & [_ Hi]%list_elem_of_In%in_seq)%elem_of_map. split; [lia|].
    change 0x100000 with (256 * 4096). rewrite <-Z.mul_add_distr_r. by apply Z.mod_mul.
  - rewrite Hr. apply NoDup_fmap_2; [|apply NoDup_ListNoDup, seq_NoDup]. intros i j E. lia.
  - intros ix n Hix Hn. apply (levels_closed_path demo_offset demo_tables 3 [[0x2000]; [0x3000]; [0x4000; 0x5000]] [0x1000]) in Hn;
      [|vm_compute; reflexivity|done|by constructor|done].
    rewrite Hr. intros (i & -> & _)%elem_of_map. cbn in Hn. repeat rewrite elem_of_cons in Hn. rewrite elem_of_nil in Hn. lia.
  - apply Forall_forall. intros v Hv. assert (forallb (fun v => (lf_level (leaf demo_offset demo_tables 3 0x1000 (indexes v)) =? 0)%nat &&
      lf_user (leaf demo_offset demo_tables 3 0x1000 (indexes v))) (slot_pages 1) = true) as Hall by (vm_compute; reflexivity).
    rewrite forallb_forall in Hall. apply list_elem_of_In, Hall, andb_true_iff in Hv as [H1%Nat.eqb_eq H2]. exact (conj H1 H2).
Qed.

Lemma private_tables_isolate_witness :
  exists a' s', init_private_p4_pool [] demo_offset (demo_frames, demo_boot) = Done (2%nat, (a', s')) /\
    exists slot f, slot ∈ live_slots (ad_pool (pg_addr s')) /\
      translate_addr demo_offset (ad_mem (pg_addr s')) (sl_p4_frame slot) 0x1000123 = Done (Some (f + 0x123)).
Proof.
  destruct (private_tables_isolate demo_offset [] 1 demo_frames demo_boot) as (k & a' & s' & E & Hk & Hl & _ & Hs & _);
    [reflexivity|exact demo_boot_state|].
  assert (k = 2%nat) as -> by (rewrite Hk; vm_compute; reflexivity). exists a', s'. split; [exact E|].
  destruct (live_slots (ad_pool (pg_addr s'))) as [|slot l]; [discriminate Hl|].
  destruct (Hs slot ltac:(constructor)) as (Hlen & Ht & _).
  destruct (slot_frames slot) as [|f fs] eqn:Ef; [discriminate Hlen|]. exists slot, f. split; [constructor|].
  apply (Ht 0%nat 0x1000000 f 0x123); [reflexivity|reflexivity|vm_compute; split; congruence].
Defined.

Definition demo_layout : UserMemoryLayout := mkLayout 0x1000000 0x1001000 0x13fc000 0x1400000.
Definition demo_protection : Z -> PageFlags := fun _ => mkFlags true false true false.

Lemma demo_request s : sl_program_frame_count s = 1%nat ->
  request_ok s demo_layout 1 0 demo_elf (str "/bin/cat") (str "/README") (Ok [demo_segment]) (Ok (mkElf 0x1000000 64 56 1)) demo_protection.
Proof.
  intros Hc. assert (forall l, forallb (fun b => (0 <=? b) && (b <? 256)) l = true -> Forall is_byte l) as Hb.
  { intros l Hl. apply Forall_forall. intros b Hb%list_elem_of_In. rewrite forallb_forall in Hl. specialize (Hl b Hb). unfold is_byte. bool_to_prop. lia. }
  split.
  - rewrite Hc. lia.
  - reflexivity.
  - reflexivity.
  - unfold PRIVATE_STACK_SLOT_COUNT. lia.
  - reflexivity.
  - split; [exact demo_elf_bytes|vm_compute; congruence].
  - vm_compute. reflexivity.
  - vm_compute. reflexivity.
  - repeat constructor; vm_compute; congruence.
  - intros [|j] Hj; [vm_compute; reflexivity|lia].
  - split_and!; [apply Hb; reflexivity|discriminate|apply Hb; reflexivity].
  - apply Nat.leb_le. vm_compute. reflexivity.
Qed.

(** A pool with a table taken, as boot and [take] leave it. *)
Lemma demo_taken : exists parts ad i s t,
  pool_state demo_offset demo_tables 0x1000 parts (ad_pool ad) (ad_mem ad) /\ ad_offset_value ad = demo_offset /\
  live_slots (ad_pool ad) !! i = Some s /\ parts !! i = Some t /\ sl_in_use s = true /\ sl_program_frame_count s = 1%nat.
Proof.
  destruct (init_private_p4_pool_spec demo_offset [] 1 demo_frames demo_boot) as (pool & parts & a' & m' & E & Hpb & _ & Hk);
    [reflexivity|exact demo_boot_state|].
  pose proof (pool_built_state demo_offset demo_tables 0x1000 1 m' (remaining a') pool parts (bs_bytes _ _ _ _ demo_boot_state)
    (bs_active _ _ _ _ demo_boot_state) Hpb) as Hps.
  assert (po_count pool = 2%nat) as Hc by (rewrite Hk; vm_compute; reflexivity).
  pose proof (pb_slots _ _ _ _ _ _ _ _ Hpb) as Hslots.
  destruct (take_keeps_state demo_offset demo_tables 0x1000 parts pool m' Hps) as (r & p' & _ & Hps' & Hsame & Hr).
  destruct r as [f|].
  - destruct Hr as (i & s & Hi & _ & Hu). destruct (Forall2_lookup_r _ _ _ _ _ Hsame Hi) as (s0 & Hi0 & (_ & _ & Hcount & _)).
    destruct (Forall2_lookup_l _ _ _ _ _ Hslots Hi0) as (t & Ht & _ & _ & Hc0 & _).
    exists parts, (mkAddr p' (Some demo_offset) demo_offset m'), i, s, t. cbn [ad_pool ad_mem ad_offset_value].
    do 5 (split; [first [exact Hps'|exact Hi|exact Ht|exact Hu|reflexivity]|]). rewrite Hcount. exact Hc0.
  - exfalso. destruct (live_slots pool) as [|s0 l] eqn:El.
    { unfold live_slots in El. apply (f_equal length) in El. rewrite length_take, (pb_length _ _ _ _ _ _ _ _ Hpb), Hc in El. done. }
    destruct (Hr s0 (list_elem_of_here _ _)) as (s1 & Hs1 & _ & Hu1). rewrite El in Hs1.
    apply list_elem_of_lookup in Hs1 as [j Hj]. rewrite <-El in Hj. rewrite <-El in Hslots.
    destruct (Forall2_lookup_l _ _ _ _ _ Hslots Hj) as (t & _ & _ & _ & _ & Hf & _). congruence.
Qed.

Lemma private_memory_prepared_witness :
  exists ad s ad', prepare_process_private_memory 0x1000 (sl_p4_frame s) demo_layout demo_elf (str "/bin/cat") (str "/README") ad = Done (Ok (), ad') /\
    user_byte demo_offset (ad_mem ad') (sl_p4_frame s) 0x1000000 = Some 0xeb /\
    user_byte demo_offset (ad_mem ad') (sl_p4_frame s) 0x1000340 = Some 47 /\
    page_flags demo_offset s (ad_mem ad') 0x1000000 = flag_bits user_code_page_flags.
Proof.
  destruct demo_taken as (parts & ad & i & s & t & Hps & Ho & Hi & Ht & Hu & Hc).
  destruct (private_memory_prepared demo_offset demo_tables 0x1000 parts i s t ad demo_layout 1 0 demo_elf (str "/bin/cat") (str "/README")
    (Ok [demo_segment]) (Ok (mkElf 0x1000000 64 56 1)) demo_protection 0x1000 Hps) as (ad' & st & img & E & _ & _ & _ & Hp & _ & Hf & _).
  - split; [exact Ho|discriminate].
  - exact Hi.
  - exact Ht.
  - exact Hu.
  - apply demo_request. exact Hc.
  - left. reflexivity.
  - exists ad, s, ad'. split; [exact E|]. split; [rewrite Hp; [vm_compute; reflexivity|vm_compute; split; congruence]|].
    split; [rewrite Hp; [vm_compute; reflexivity|vm_compute; split; congruence]|]. apply (Hf 0%nat). lia.
Defined.
