(* ===== verification/UserAccess.v ===== *)
(** * Checking user ranges against the page tables

    [active_user_range_accessible], which guards every access of the kernel to
    user memory, accepts a range exactly when the active table lets user code
    make that access to each of its bytes. *)

From S2P Require Import Prelude Ring3 Elf AddrSpace PageTables PageTablesProofs.

Section access.
Context `{Laws : EntryLaws}.
Context (offset : Z).
Notation leaf := (leaf offset).

(** An entry with these flags lets user code make the access: it is present
    (bit 0) and open to user mode (bit 2), and for a write writable (bit 1). *)
Definition entry_allows (access : UserPageAccess) (flags : Z) : bool :=
  Z.testbit flags 0 && Z.testbit flags 2 && match access with ReadAccess => true | WriteAccess => Z.testbit flags 1 end.

(** User code may make the access: the walk reaches a page, and every entry on the way allows it. *)
Definition user_may (access : UserPageAccess) (r : Leaf) : bool :=
  (lf_level r =? 0)%nat && lf_user r && match access with ReadAccess => true | WriteAccess => lf_writable r end &&
  entry_allows access (entry_flags (lf_entry r)).

Lemma contains_lor fl a b : contains fl (Z.lor a b) = true <-> contains fl a = true /\ contains fl b = true.
Proof.
  unfold contains. rewrite !Z.eqb_eq. split.
  - intros H. split; apply Z.bits_inj'; intros k Hk; apply (f_equal (fun z => Z.testbit z k)) in H;
      rewrite Z.land_spec, Z.lor_spec in H; rewrite Z.land_spec;
      destruct (Z.testbit fl k), (Z.testbit a k), (Z.testbit b k); done.
  - intros [Ha Hb]. by rewrite Z.land_lor_distr_r, Ha, Hb.
Qed.

Lemma flags_allow_spec fl access : flags_allow_user_access fl access = true <->
  contains fl PRESENT = true /\ contains fl USER_ACCESSIBLE = true /\
  match access with ReadAccess => True | WriteAccess => contains fl WRITABLE = true end.
Proof.
  unfold flags_allow_user_access. pose proof (contains_lor fl PRESENT USER_ACCESSIBLE) as Hl.
  destruct (contains fl (Z.lor PRESENT USER_ACCESSIBLE)); cbn [negb]; destruct access; intuition congruence.
Qed.

Lemma flags_allow_eq fl access : flags_allow_user_access fl access = entry_allows access fl.
Proof.
  apply eq_true_iff_eq. rewrite flags_allow_spec. unfold entry_allows.
  rewrite present_bit, contains_user, !andb_true_iff. destruct access; rewrite ?contains_writable; tauto.
Qed.

(** One step of the checked walk. *)
Lemma accessible_child_frame_spec m f i access g : bytes_ok m ->
  accessible_child_frame offset m f i access = Ok g <->
  entry_frame (table_entry m offset f i) = Ok g /\ contains (entry_flags (table_entry m offset f i)) USER_ACCESSIBLE = true /\
  match access with ReadAccess => True | WriteAccess => contains (entry_flags (table_entry m offset f i)) WRITABLE = true end.
Proof.
  intros Hm. unfold accessible_child_frame, child_table_frame. set (e := table_entry m offset f i).
  pose proof (flags_allow_spec (entry_flags e) access) as Hf.
  destruct (entry_frame e) as [h|err] eqn:Ee.
  - destruct (entry_frame_ok e h (table_entry_range offset m f i Hm) Ee) as (_ & Hp & _).
    destruct (flags_allow_user_access (entry_flags e) access); cbn [negb]; intuition congruence.
  - destruct (flags_allow_user_access (entry_flags e) access); cbn [negb]; [|intuition congruence]. destruct err; intuition congruence.
Qed.

(** The checked walk from a table of any level. *)
Fixpoint accessible (m : memory) (l : nat) (f : Z) (ix : nat -> Z) (access : UserPageAccess) : bool :=
  match l with
  | O => flags_allow_user_access (entry_flags (table_entry m offset f (ix O))) access
  | S k => match accessible_child_frame offset m f (ix l) access with Err _ => false | Ok g => accessible m k g ix access end
  end.

Lemma accessible_leaf m l f ix access : bytes_ok m -> accessible m l f ix access = user_may access (leaf m l f ix).
Proof.
  intros Hm. revert f; induction l as [|l IH]; intros f; cbn [accessible PageTablesProofs.leaf].
  - unfold user_may. cbn. rewrite flags_allow_eq. by destruct access.
  - pose proof (accessible_child_frame_spec m f (ix (S l)) access) as Hc.
    destruct (accessible_child_frame offset m f (ix (S l)) access) as [g|e].
    + destruct (Hc g Hm) as [(-> & -> & Hw) _]; [done|]. rewrite IH. unfold user_may. cbn [lf_level lf_user lf_writable lf_entry andb].
      destruct access; [done|]. by rewrite Hw.
    + destruct (entry_frame (table_entry m offset f (ix (S l)))) as [g|] eqn:Eg; [|done].
      symmetry. apply not_true_is_false. unfold user_may. cbn [lf_level lf_user lf_writable lf_entry]. rewrite !andb_true_iff.
      intros [[[_ [Hu _]] Hw] _]. destruct (Hc g Hm) as [_ Hok]. discriminate Hok. split_and!; try done.
      destruct access; [done|]. by apply andb_true_iff in Hw as [? _].
Qed.

Lemma active_user_page_accessible_leaf m p4 v access : bytes_ok m ->
  active_user_page_accessible offset m p4 v access = user_may access (leaf m 3 p4 (indexes v)).
Proof. intros Hm. by rewrite <-accessible_leaf. Qed.

Lemma forallb_map_S (f : nat -> bool) l : forallb f (map S l) = forallb (fun i => f (S i)) l.
Proof. induction l as [|x l IH]; cbn; [done|]. by rewrite IH. Qed.

Lemma forallb_pointwise (f g : nat -> bool) l : (forall i, f i = g i) -> forallb f l = forallb g l.
Proof. intros E. induction l as [|x l IH]; cbn; [done|]. by rewrite IH, E. Qed.

(** The loop visits the pages of the range. *)
Lemma pages_accessible_spec fuel m p4 first n access :
  bytes_ok m -> (n < fuel)%nat -> 0 <= first -> first + Z.of_nat n * PAGE_SIZE < 2 ^ 47 ->
  pages_accessible offset fuel m p4 first (first + Z.of_nat n * PAGE_SIZE) access =
  Done (forallb (fun i => user_may access (leaf m 3 p4 (indexes (first + Z.of_nat i * PAGE_SIZE)))) (seq 0 (S n))).
Proof.
  intros Hm. revert first n. induction fuel as [|fuel IH]; intros first n Hf H0 Hr; [lia|]. cbn [pages_accessible].
  unfold virt_addr_new, canonical. destruct (Z.ltb_spec first (2 ^ 47)); [|unfold PAGE_SIZE in *; lia]. cbn [orb]. run.
  rewrite active_user_page_accessible_leaf by done. cbn [seq forallb]. rewrite Z.mul_0_l, Z.add_0_r.
  destruct (user_may access (leaf m 3 p4 (indexes first))); cbn [negb andb]; [|done].
  destruct n as [|n].
  - rewrite Z.mul_0_l, Z.add_0_r, Z.eqb_refl. done.
  - destruct (Z.eqb_spec first (first + Z.of_nat (S n) * PAGE_SIZE)); [unfold PAGE_SIZE in *; lia|].
    unfold u64_checked_add, checked_add_to. destruct (Z.leb_spec (first + PAGE_SIZE) u64_max); [|unfold u64_max, PAGE_SIZE in *; lia].
    replace (first + Z.of_nat (S n) * PAGE_SIZE) with (first + PAGE_SIZE + Z.of_nat n * PAGE_SIZE) by lia.
    rewrite IH by (unfold PAGE_SIZE in *; lia). f_equal. rewrite <-(seq_shift (S n) 0), forallb_map_S. apply forallb_pointwise. intros i.
    do 3 f_equal. lia.
Qed.

(** Every address of a range is on one of the pages visited. *)
Lemma range_pages ptr len (Q : Z -> bool) :
  0 <= ptr -> 0 < len -> (forall v w, 0 <= v -> 0 <= w -> page_number v = page_number w -> Q v = Q w) ->
  let first := ptr - ptr mod PAGE_SIZE in let last := ptr + len - 1 - (ptr + len - 1) mod PAGE_SIZE in
  let n := Z.to_nat ((last - first) / PAGE_SIZE) in
  last = first + Z.of_nat n * PAGE_SIZE /\ 0 <= first /\
  (forallb (fun i => Q (first + Z.of_nat i * PAGE_SIZE)) (seq 0 (S n)) = true <-> forall v, ptr <= v < ptr + len -> Q v = true).
Proof.
  intros H0 Hlen HQ first last n. set (a := ptr / PAGE_SIZE). set (b := (ptr + len - 1) / PAGE_SIZE).
  assert (0 < PAGE_SIZE) as HP by done.
  assert (first = a * PAGE_SIZE /\ last = b * PAGE_SIZE) as [Ef El].
  { unfold first, last, a, b. pose proof (Z.div_mod ptr PAGE_SIZE). pose proof (Z.div_mod (ptr + len - 1) PAGE_SIZE). lia. }
  assert (0 <= a <= b) as Hab by (unfold a, b; split; [apply Z.div_pos; lia|apply Z.div_le_mono; lia]).
  assert (Z.of_nat n = b - a) as En.
  { unfold n. rewrite Ef, El, <-Z.mul_sub_distr_r, Z.div_mul by lia. lia. }
  assert (0 <= a * PAGE_SIZE) by nia. split_and!; [rewrite Ef, El, En; lia|lia|].
  rewrite forallb_forall. split.
  - intros Hall v Hv.
    assert (a <= page_number v <= b) as Hp by (unfold page_number, a, b; split; apply Z.div_le_mono; lia).
    specialize (Hall (Z.to_nat (page_number v - a))). rewrite in_seq in Hall. rewrite <-(HQ (first + Z.of_nat (Z.to_nat (page_number v - a)) * PAGE_SIZE) v);
      [apply Hall; lia|nia|lia|]. rewrite Ef. unfold page_number at 1. rewrite <-Z.mul_add_distr_r, Z.div_mul by lia. lia.
  - intros Hv i [_ Hi]%in_seq.
    assert (exists v, ptr <= v < ptr + len /\ page_number v = a + Z.of_nat i) as (v & Hr & Hp).
    { destruct (Z.eq_dec (Z.of_nat i) 0) as [Ei|Ei]; [exists ptr; unfold page_number; fold a; lia|].
      exists ((a + Z.of_nat i) * PAGE_SIZE). split; [|unfold page_number; by rewrite Z.div_mul by lia].
      unfold a, b, PAGE_SIZE in *. pose proof (Z.div_mod ptr 4096). pose proof (Z.mod_pos_bound ptr 4096).
      pose proof (Z.div_mod (ptr + len - 1) 4096). pose proof (Z.mod_pos_bound (ptr + len - 1) 4096). lia. }
    rewrite <-(Hv v Hr). apply HQ; [nia|lia|]. rewrite Ef, Hp. unfold page_number.
    rewrite <-Z.mul_add_distr_r, Z.div_mul by lia. lia.
Qed.

(** The answer a range check owes: yes exactly when the processor's table is the
    one the address space names (if it names one) and, for every byte of the range,
    the walk through it reaches a page over entries that are all open to user mode,
    the last one present, and all writable if the access is a write. *)
Definition range_check_answer (space : AddressSpace) (ptr len : Z) (access : UserPageAccess) (s : PagingState) (b : bool) : Prop :=
  b = true <-> (forall f, as_p4_frame space = Some f -> (pg_cr3 s).1 = f) /\
               forall v, ptr <= v < ptr + len ->
                 user_may access (leaf (ad_mem (pg_addr s)) 3 (pg_cr3 s).1 (indexes v)) = true.

(** For a non-empty range below 2^47 and a known physical mapping, the check
    terminates, changes nothing and gives that answer. *)
Lemma user_range_check_spec space ptr len access s :
  bytes_ok (ad_mem (pg_addr s)) -> ad_offset_value (pg_addr s) = offset -> offset <> 0 -> valid_frame (pg_cr3 s).1 ->
  0 <= ptr -> 0 < len -> ptr + len <= 2 ^ 47 ->
  exists b, active_user_range_accessible (Some space) ptr len access s = Done (b, s) /\ range_check_answer space ptr len access s b.
Proof.
  intros Hm Ho Hnz [_ Hcr] H0 Hlen Hhi. unfold active_user_range_accessible, range_check_answer.
  destruct (Z.eqb_spec len 0); [lia|]. unfold u64_checked_add, checked_add_to.
  destruct (Z.leb_spec (ptr + len) u64_max); [|unfold u64_max in *; lia]. destruct (Z.leb_spec (ptr + len) ptr); [lia|].
  unfold active_p4_frame. run.
  destruct (match as_p4_frame space with Some e => negb ((pg_cr3 s).1 =? e) | None => false end) eqn:Ep.
  { exists false. split; [done|]. split; [done|]. intros [Hf _]. destruct (as_p4_frame space) as [e|]; [|done].
    rewrite (Hf e eq_refl), Z.eqb_refl in Ep. done. }
  unfold with_addr, physical_memory_offset. run. rewrite Ho. apply Z.eqb_neq in Hnz as Hnz'. rewrite Hnz'. cbn [negb].
  assert (s <| pg_addr := pg_addr s |> = s) as -> by (by destruct s).
  destruct (range_pages ptr len (fun v => user_may access (leaf (ad_mem (pg_addr s)) 3 (pg_cr3 s).1 (indexes v))) H0 Hlen) as (El & Hf & Hiff).
  { intros v w Hv Hw E. f_equal. apply leaf_ext. intros k _. unfold indexes. rewrite !table_index_div by done. by rewrite E. }
  set (first := ptr - ptr mod PAGE_SIZE) in *. set (last := ptr + len - 1 - (ptr + len - 1) mod PAGE_SIZE) in *.
  set (pn := Z.to_nat ((last - first) / PAGE_SIZE)) in *. rewrite El. replace (containing_frame (pg_cr3 s).1) with (pg_cr3 s).1 by (unfold containing_frame; lia).
  rewrite pages_accessible_spec; [|done|lia|done|].
  2:{ rewrite <-El. unfold last. pose proof (Z.mod_pos_bound (ptr + len - 1) PAGE_SIZE). unfold PAGE_SIZE in *. lia. }
  eexists. split; [done|]. rewrite Hiff. split; [|tauto]. intros Hall. split; [|done].
  intros f Ef. rewrite Ef in Ep. apply negb_false_iff, Z.eqb_eq in Ep. done.
Qed.
End access.
