(* ===== verification/Threads.v ===== *)
(** * Threads and the thread store of a process (user/thread.rs)

    Also the saved register image of user/process.rs, which a thread carries. *)

From S2P Require Import Prelude.

Definition MAX_THREADS_PER_PROCESS : nat := 16.

Inductive ThreadKind := KernelThread | UserThread.
Inductive ThreadState :=
  | TCreated | TReady | TRunning | TBlocked | TStopped | TExited | TZombie | TReaped.

#[export] Instance ThreadKind_eq : EqDecision ThreadKind.
Proof. solve_decision. Defined.
#[export] Instance ThreadState_eq : EqDecision ThreadState.
Proof. solve_decision. Defined.

Definition ThreadState_eqb (a b : ThreadState) : bool := bool_decide (a = b).

(** The registers saved when a thread leaves user mode. *)
Record UserResumeContext := mkCtx {
  rc_rip : Z; rc_rsp : Z; rc_rflags : Z; rc_rbx : Z; rc_rcx : Z; rc_rdx : Z; rc_rsi : Z; rc_rdi : Z;
  rc_rbp : Z; rc_r8 : Z; rc_r9 : Z; rc_r10 : Z; rc_r11 : Z; rc_r12 : Z; rc_r13 : Z; rc_r14 : Z;
  rc_r15 : Z; rc_rax : Z }.

#[export] Instance eta_ctx : Eta UserResumeContext := fun r =>
  mkCtx (rc_rip r) (rc_rsp r) (rc_rflags r) (rc_rbx r) (rc_rcx r) (rc_rdx r) (rc_rsi r) (rc_rdi r)
        (rc_rbp r) (rc_r8 r) (rc_r9 r) (rc_r10 r) (rc_r11 r) (rc_r12 r) (rc_r13 r) (rc_r14 r)
        (rc_r15 r) (rc_rax r).

Definition EMPTY_CTX : UserResumeContext := mkCtx 0 0 0x202 0 0 0 0 0 0 0 0 0 0 0 0 0 0 0.

Record Thread := mkThread {
  th_tid : Z;
  th_process_id : Z;
  th_kind : ThreadKind;
  th_state : ThreadState;
  th_resume_context : option UserResumeContext;
  th_signal_return_context : option UserResumeContext;
  th_context_switches : Z;
  th_runtime_ticks : Z;
  th_last_started_tick : option Z;
  th_user_stack_start : option Z;
  th_user_stack_top : option Z;
  th_kernel_managed_stack : bool;
  th_waiting_for : option Z }.

#[export] Instance eta_thread : Eta Thread := fun r =>
  mkThread (th_tid r) (th_process_id r) (th_kind r) (th_state r) (th_resume_context r)
    (th_signal_return_context r) (th_context_switches r) (th_runtime_ticks r) (th_last_started_tick r)
    (th_user_stack_start r) (th_user_stack_top r) (th_kernel_managed_stack r) (th_waiting_for r).

Definition new_thread (tid process_id : Z) (kind : ThreadKind) : Thread :=
  mkThread tid process_id kind TCreated None None 0 0 None None None false None.

Definition with_user_stack (t : Thread) (stack_start stack_top : Z) : Thread :=
  t <| th_user_stack_start := Some stack_start |> <| th_user_stack_top := Some stack_top |>.

Definition with_kernel_managed_stack (t : Thread) : Thread := t <| th_kernel_managed_stack := true |>.

Record ThreadStore := mkStore { ts_main_tid : Z; ts_items : list Thread }.

#[export] Instance eta_store : Eta ThreadStore := fun r => mkStore (ts_main_tid r) (ts_items r).

Module TStore.

Definition with_main (main : Thread) : ThreadStore := mkStore (th_tid main) [main].

Definition get (s : ThreadStore) (tid : Z) : option Thread :=
  List.find (fun t => th_tid t =? tid) (ts_items s).

(** An update through [get_mut(tid)]. *)
Definition upd (tid : Z) (f : Thread -> Thread) (s : ThreadStore) : ThreadStore :=
  s <| ts_items ::= find_upd (fun t => th_tid t =? tid) f |>.

(** [main()]: panics when the main thread is missing. *)
Definition main (s : ThreadStore) : outcome Thread :=
  match get s (ts_main_tid s) with Some t => Done t | None => Panic end.

(** An update through [main_mut()]. *)
Definition main_upd (f : Thread -> Thread) (s : ThreadStore) : outcome ThreadStore :=
  _ ← main s; mret (upd (ts_main_tid s) f s).

Definition insert (thread : Thread) (s : ThreadStore) : outcome (bool * ThreadStore) :=
  if (MAX_THREADS_PER_PROCESS <=? length (ts_items s))%nat then mret (false, s) else
  m ← main s;
  if negb (th_process_id thread =? th_process_id m) then mret (false, s)
  else if is_some (get s (th_tid thread)) then mret (false, s)
  else mret (true, s <| ts_items ::= (fun l => l ++ [thread]) |>).

Definition stack_range_available (s : ThreadStore) (stack_start stack_top : Z) : bool :=
  (stack_start <? stack_top)
  && forallb (fun t => match th_user_stack_start t, th_user_stack_top t with
                       | Some existing_start, Some existing_top =>
                         (stack_top <=? existing_start) || (existing_top <=? stack_start)
                       | _, _ => true
                       end) (ts_items s).

Definition len (s : ThreadStore) : nat := length (ts_items s).

End TStore.
