(* ===== verification/Program.v ===== *)
(** * Program requests (user/program.rs)

    The fixed-size program argument, the queue of programs waiting to be
    started and the queue of shells waiting for a child.  The list of embedded
    images is generated at build time and is a parameter. *)

From S2P Require Import Prelude Utf8 Ring3.

Definition ARG_LEN : nat := 32.     (* FIRST_USER_ARG_PATH_LEN as usize *)

Record UserProgramArg := mkArg { ar_bytes : bytes; ar_len : nat }.

Inductive JobMode := Foreground | Background.
#[export] Instance JobMode_eq : EqDecision JobMode.
Proof. solve_decision. Defined.

Inductive ProgramError := PNotFound | ArgumentTooLong.

Record UserShellWaitRequest := mkWait { wr_shell_pid : Z; wr_child_pid : Z }.

Record UserProgram := mkProgram {
  up_pid : Z; up_parent_pid : option Z; up_name : bytes; up_path : bytes;
  up_entry : Z; up_stack_top : Z; up_arg : UserProgramArg; up_job_mode : JobMode }.

Module Arg.
Definition empty : UserProgramArg := mkArg (replicate ARG_LEN 0) 0.

Definition from_path (path : bytes) : outcome (result UserProgramArg ProgramError) :=
  if bytes_eqb path [] || (ARG_LEN <? length path)%nat then Done (Err ArgumentTooLong) else
  b ← copy_slice (ar_bytes empty) 0 (length path) path;
  Done (Ok (mkArg b (length path))).

Definition as_bytes (a : UserProgramArg) : outcome bytes := slice (ar_bytes a) 0 (ar_len a).

Definition as_str (a : UserProgramArg) : outcome bytes :=
  b ← as_bytes a; mret (if utf8_valid b then b else str "<invalid>").
End Arg.

(** The module's statics. *)
Record ProgramState := mkProgState {
  ps_pending : list UserProgram;                   (* PENDING_PROGRAMS *)
  ps_shell_waits : list UserShellWaitRequest;      (* USER_SHELL_WAIT_REQUESTED *)
  ps_respawn : bool }.                             (* USER_SHELL_RESPAWN *)

#[export] Instance eta_progstate : Eta ProgramState := fun r =>
  mkProgState (ps_pending r) (ps_shell_waits r) (ps_respawn r).

Module Programs.

Definition queue_program (name path : bytes) (pid : Z) (parent_pid : option Z) (arg : UserProgramArg)
    (job_mode : JobMode) : M ProgramState () :=
  let program := mkProgram pid parent_pid name path FIRST_USER_ENTRY FIRST_USER_STACK_TOP arg job_mode in
  modify (fun s => s <| ps_pending ::= (fun l => l ++ [program]) |>).

Definition take_pending : M ProgramState (option UserProgram) :=
  s ← get;
  match ps_pending s with
  | [] => mret None
  | p :: rest => modify (fun s => s <| ps_pending := rest |>);; mret (Some p)
  end.

Definition has_pending (s : ProgramState) : bool := match ps_pending s with [] => false | _ => true end.
Definition pending_count (s : ProgramState) : nat := length (ps_pending s).
Definition pending_pid (s : ProgramState) : option Z := up_pid <$> head (ps_pending s).
Definition set_user_shell_respawn (enabled : bool) : M ProgramState () :=
  modify (fun s => s <| ps_respawn := enabled |>).
Definition should_respawn_user_shell (s : ProgramState) : bool := ps_respawn s.

Definition push_shell_wait (shell_pid child_pid : Z) : M ProgramState () :=
  modify (fun s => s <| ps_shell_waits ::= (fun l => l ++ [mkWait shell_pid child_pid]) |>).

Definition user_shell_wait_request (s : ProgramState) : option UserShellWaitRequest := head (ps_shell_waits s).

Definition take_user_shell_wait_request : M ProgramState (option UserShellWaitRequest) :=
  s ← get;
  match ps_shell_waits s with
  | [] => mret None
  | r :: rest => modify (fun s => s <| ps_shell_waits := rest |>);; mret (Some r)
  end.

Definition take_user_shell_wait_request_for_child (child_pid : Z) : M ProgramState (option UserShellWaitRequest) :=
  s ← get;
  match position (fun r => wr_child_pid r =? child_pid) (ps_shell_waits s) with
  | None => mret None
  | Some i =>
    modify (fun s => s <| ps_shell_waits := delete i (ps_shell_waits s) |>);;
    mret (ps_shell_waits s !! i)
  end.

Definition default_arg_for (name : bytes) : bytes :=
  if bytes_eqb name (str "cat") then str "/README" else str "/".

End Programs.
