(* ===== verification/Ipc.v ===== *)
(** * Pipes, events, message queues and descriptors (user/syscall.rs)

    The fixed-size kernel objects behind the IPC system calls and the table of
    open descriptors.  The objects' own methods, the allocation of descriptor
    numbers, and what closing does to the tables. *)

From S2P Require Import Prelude Utf8 Paths Vfs.

Definition MAX_OPEN_FILES : nat := 16.
Definition MAX_PIPES : nat := 8.
Definition PIPE_CAPACITY : nat := 256.
Definition MAX_EVENTS : nat := 16.
Definition MAX_EVENT_WAITERS : nat := 16.
Definition MAX_MESSAGE_QUEUES : nat := 8.
Definition MESSAGE_QUEUE_DEPTH : nat := 8.
Definition MAX_MESSAGE_SIZE : nat := 64.
Definition FIRST_USER_FD : Z := 3.

Inductive SyscallError :=
  UnknownSyscall | InvalidArgument | NotImplemented | NoSuchProcess | NotChild | WouldBlock | PermissionDenied.

(** ** Pipes *)

Record Pipe := mkPipe {
  pi_id : Z; pi_owner_pid : Z; pi_bytes : bytes; pi_read_index : nat; pi_len : nat;
  pi_readers : Z; pi_writers : Z }.

#[export] Instance eta_pipe : Eta Pipe := fun r =>
  mkPipe (pi_id r) (pi_owner_pid r) (pi_bytes r) (pi_read_index r) (pi_len r) (pi_readers r) (pi_writers r).

Module PipeOps.

Definition new (id owner_pid : Z) : Pipe := mkPipe id owner_pid (replicate PIPE_CAPACITY 0) 0 0 1 1.

(** [for &byte in &source[..count] { ... }] *)
Fixpoint write_loop (source : bytes) (p : Pipe) : outcome Pipe :=
  match source with
  | [] => mret p
  | byte :: source =>
    let write_index := ((pi_read_index p + pi_len p) mod PIPE_CAPACITY)%nat in
    b ← index_set (pi_bytes p) write_index byte;
    write_loop source (p <| pi_bytes := b |> <| pi_len ::= S |>)
  end.

Definition write (source : bytes) : M Pipe (result nat SyscallError) :=
  p ← get;
  if pi_readers p =? 0 then mret (Err InvalidArgument)
  else if (pi_len p =? PIPE_CAPACITY)%nat then mret (Err WouldBlock)
  else
    let count := Nat.min (length source) (PIPE_CAPACITY - pi_len p) in
    src ← lift (slice source 0 count);
    p ← lift (write_loop src p);
    modify (fun _ => p);;
    mret (Ok count).

(** [for slot in &mut destination[..count] { ... }]: the bytes read. *)
Fixpoint read_loop (count : nat) (p : Pipe) : outcome (bytes * Pipe) :=
  match count with
  | O => mret ([], p)
  | S count =>
    b ← index (pi_bytes p) (pi_read_index p);
    '(rest, p) ← read_loop count
      (p <| pi_read_index ::= (fun i => (i + 1) mod PIPE_CAPACITY)%nat |> <| pi_len ::= Nat.pred |>);
    mret (b :: rest, p)
  end.

(** The result and the caller's buffer. *)
Definition read (destination : bytes) : M Pipe (result nat SyscallError * bytes) :=
  p ← get;
  if (pi_len p =? 0)%nat
  then mret (if pi_writers p =? 0 then Ok 0%nat else Err WouldBlock, destination)
  else
    let count := Nat.min (length destination) (pi_len p) in
    '(data, p) ← lift (read_loop count p);
    destination ← lift (copy_slice destination 0 count data);
    modify (fun _ => p);;
    mret (Ok count, destination).

End PipeOps.

(** ** Events *)

Record Event := mkEvent {
  ev_id : Z; ev_owner_pid : Z; ev_signaled : bool; ev_waiters : list (option Z); ev_waiter_count : nat }.

#[export] Instance eta_event : Eta Event := fun r =>
  mkEvent (ev_id r) (ev_owner_pid r) (ev_signaled r) (ev_waiters r) (ev_waiter_count r).

Module EventOps.

Definition new (id owner_pid : Z) : Event := mkEvent id owner_pid false (replicate MAX_EVENT_WAITERS None) 0.

Definition is_tid (tid : Z) (w : option Z) : bool := bool_decide (w = Some tid).

Definition enqueue (tid : Z) : M Event bool :=
  e ← get;
  if (ev_waiter_count e =? length (ev_waiters e))%nat then mret false else
  queued ← lift (slice (ev_waiters e) 0 (ev_waiter_count e));
  if existsb (is_tid tid) queued then mret false else
  w ← lift (index_set (ev_waiters e) (ev_waiter_count e) (Some tid));
  modify (fun e => e <| ev_waiters := w |> <| ev_waiter_count ::= S |>);;
  mret true.

(** [for index in from..to { waiters[index - 1] = waiters[index]; }] with [to = from + n] *)
Fixpoint shift_down (n from : nat) (w : list (option Z)) : outcome (list (option Z)) :=
  match n with
  | O => mret w
  | S n =>
    x ← index w from;
    w ← index_set w (from - 1) x;
    shift_down n (S from) w
  end.

(** [waiter_count -= 1; waiters[waiter_count] = None] after shifting from [from]. *)
Definition drop_slot (from : nat) (e : Event) : outcome Event :=
  w ← shift_down (ev_waiter_count e - from) from (ev_waiters e);
  match ev_waiter_count e with
  | O => Panic
  | S n => w ← index_set w n None; mret (e <| ev_waiters := w |> <| ev_waiter_count := n |>)
  end.

Definition dequeue : M Event (option Z) :=
  e ← get;
  first ← lift (index (ev_waiters e) 0);
  match first with
  | None => mret None
  | Some tid =>
    e ← lift (drop_slot 1 e);
    modify (fun _ => e);;
    mret (Some tid)
  end.

Definition remove (tid : Z) : M Event () :=
  e ← get;
  queued ← lift (slice (ev_waiters e) 0 (ev_waiter_count e));
  match position (is_tid tid) queued with
  | None => mret ()
  | Some i => e ← lift (drop_slot (i + 1) e); modify (fun _ => e)
  end.

End EventOps.

(** ** Message queues *)

Record Message := mkMessage { ms_bytes : bytes; ms_len : nat }.

Record MessageQueue := mkQueue {
  mq_id : Z; mq_owner_pid : Z; mq_messages : list Message; mq_read_index : nat; mq_len : nat }.

#[export] Instance eta_queue : Eta MessageQueue := fun r =>
  mkQueue (mq_id r) (mq_owner_pid r) (mq_messages r) (mq_read_index r) (mq_len r).

Module Queue.

Definition EMPTY : Message := mkMessage (replicate MAX_MESSAGE_SIZE 0) 0.

Definition new (id owner_pid : Z) : MessageQueue := mkQueue id owner_pid (replicate MESSAGE_QUEUE_DEPTH EMPTY) 0 0.

Definition send (source : bytes) : M MessageQueue (result nat SyscallError) :=
  q ← get;
  if bytes_eqb source [] || (MAX_MESSAGE_SIZE <? length source)%nat then mret (Err InvalidArgument)
  else if (mq_len q =? MESSAGE_QUEUE_DEPTH)%nat then mret (Err WouldBlock)
  else
    let i := ((mq_read_index q + mq_len q) mod MESSAGE_QUEUE_DEPTH)%nat in
    m ← lift (index (mq_messages q) i);
    b ← lift (copy_slice (ms_bytes m) 0 (length source) source);
    ms ← lift (index_set (mq_messages q) i (mkMessage b (length source)));
    modify (fun q => q <| mq_messages := ms |> <| mq_len ::= S |>);;
    mret (Ok (length source)).

Definition receive (destination : bytes) : M MessageQueue (result nat SyscallError * bytes) :=
  q ← get;
  if (mq_len q =? 0)%nat then mret (Err WouldBlock, destination) else
  m ← lift (index (mq_messages q) (mq_read_index q));
  if (length destination <? ms_len m)%nat then mret (Err InvalidArgument, destination) else
  let count := ms_len m in
  src ← lift (slice (ms_bytes m) 0 count);
  destination ← lift (copy_slice destination 0 count src);
  ms ← lift (index_set (mq_messages q) (mq_read_index q) EMPTY);
  modify (fun q => q <| mq_messages := ms |>
                     <| mq_read_index ::= (fun i => (i + 1) mod MESSAGE_QUEUE_DEPTH)%nat |>
                     <| mq_len ::= Nat.pred |>);;
  mret (Ok count, destination).

End Queue.

(** ** Descriptors *)

Inductive Descriptor :=
  | DFile (target : OpenTarget) (offset : nat)
  | DDirectory (path : NormalizedPath) (offset : nat)
  | DPipeRead (pipe_id : Z)
  | DPipeWrite (pipe_id : Z).

Record OpenFile := mkOpen { of_pid : Z; of_fd : Z; of_descriptor : Descriptor }.

(** The statics of the module. *)
Record IpcState := mkIpc {
  ip_files : list (option OpenFile);              (* OPEN_FILES *)
  ip_pipes : list (option Pipe);                  (* PIPES *)
  ip_events : list (option Event);                (* EVENTS *)
  ip_queues : list (option MessageQueue);         (* MESSAGE_QUEUES *)
  ip_next_pipe_id : Z; ip_next_event_id : Z; ip_next_queue_id : Z }.

#[export] Instance eta_ipc : Eta IpcState := fun r =>
  mkIpc (ip_files r) (ip_pipes r) (ip_events r) (ip_queues r) (ip_next_pipe_id r) (ip_next_event_id r)
        (ip_next_queue_id r).

Module Fds.

Definition new : IpcState :=
  mkIpc (replicate MAX_OPEN_FILES None) (replicate MAX_PIPES None) (replicate MAX_EVENTS None)
        (replicate MAX_MESSAGE_QUEUES None) 1 1 1.

Definition is_file (pid fd : Z) (f : OpenFile) : bool := (of_pid f =? pid) && (of_fd f =? fd).

(** [files.iter().flatten().any(...)] *)
Definition taken (files : list (option OpenFile)) (pid fd : Z) : bool :=
  existsb (fun e => match e with Some f => is_file pid fd f | None => false end) files.

(** The loop over descriptor numbers from [fd]; it stops after [n] numbers,
    with [n] the distance to [FIRST_USER_FD + MAX_OPEN_FILES]. *)
Fixpoint next_fd_loop (n : nat) (fd : Z) (files : list (option OpenFile)) (pid : Z) (excluded : option Z) :
    option Z :=
  match n with
  | O => None
  | S n =>
    if bool_decide (excluded = Some fd) || taken files pid fd
    then next_fd_loop n (fd + 1) files pid excluded else Some fd
  end.

Definition next_fd_for_pid (files : list (option OpenFile)) (pid : Z) : option Z :=
  next_fd_loop MAX_OPEN_FILES FIRST_USER_FD files pid None.

Definition next_fd_for_pid_excluding (files : list (option OpenFile)) (pid excluded : Z) : option Z :=
  next_fd_loop MAX_OPEN_FILES FIRST_USER_FD files pid (Some excluded).

Definition is_pipe (pipe_id pid : Z) (s : option Pipe) : bool :=
  match s with Some p => (pi_id p =? pipe_id) && (pi_owner_pid p =? pid) | None => false end.

(** A pipe end of [pid] closes: one reader or writer less, and the pipe is
    freed when neither is left. *)
Definition close_pipe_end (pipe_id pid : Z) (is_reader : bool) (pipes : list (option Pipe)) : list (option Pipe) :=
  find_upd (is_pipe pipe_id pid)
    (fun s => match s with
              | None => None
              | Some p =>
                let p := if is_reader then p <| pi_readers ::= (fun n => saturating_sub n 1) |>
                         else p <| pi_writers ::= (fun n => saturating_sub n 1) |> in
                if (pi_readers p =? 0) && (pi_writers p =? 0) then None else Some p
              end) pipes.

Definition close_descriptor (pid : Z) (file : OpenFile) (s : IpcState) : IpcState :=
  match of_descriptor file with
  | DFile _ _ | DDirectory _ _ => s
  | DPipeRead pipe_id => s <| ip_pipes ::= close_pipe_end pipe_id pid true |>
  | DPipeWrite pipe_id => s <| ip_pipes ::= close_pipe_end pipe_id pid false |>
  end.

Definition close_fd_for_pid (pid fd : Z) : M IpcState (result () SyscallError) :=
  s ← get;
  let sel e := match e with Some f => is_file pid fd f | None => false end in
  match List.find sel (ip_files s) with
  | Some (Some file) =>
    modify (fun s => s <| ip_files ::= find_upd sel (fun _ => None) |>);;
    modify (close_descriptor pid file);;
    mret (Ok ())
  | _ => mret (Err InvalidArgument)
  end.

(** [for entry in files.iter_mut()]: close what belongs to [pid], in table order. *)
Fixpoint close_files (pid : Z) (files : list (option OpenFile)) (s : IpcState) : IpcState * list (option OpenFile) :=
  match files with
  | [] => (s, [])
  | e :: files =>
    let '(s, e) :=
      match e with
      | Some file => if of_pid file =? pid then (close_descriptor pid file s, None) else (s, e)
      | None => (s, None)
      end in
    let '(s, files) := close_files pid files s in
    (s, e :: files)
  end.

(** Clear the slots whose object belongs to [pid]. *)
Definition clear_owned {A} (owner : A -> Z) (pid : Z) (slots : list (option A)) : list (option A) :=
  map (fun s => match s with Some x => if owner x =? pid then None else s | None => None end) slots.

Definition close_process_files (pid : Z) (s : IpcState) : IpcState :=
  let '(s, files) := close_files pid (ip_files s) s in
  s <| ip_files := files |>
    <| ip_events ::= clear_owned ev_owner_pid pid |>
    <| ip_queues ::= clear_owned mq_owner_pid pid |>.

End Fds.
