(* ===== verification/IpcProofs.v ===== *)
(** * The IPC objects implement their abstract queues

    A pipe is a bounded byte stream, a message queue a bounded queue of byte
    strings, an event's waiters a queue without duplicates. *)

From S2P Require Import Prelude Utf8 Paths Vfs Ipc.

(** ** Rings: [len] cells of a vector starting at [start], wrapping around *)

Lemma ring_index_inj n start i j :
  (i < n)%nat -> (j < n)%nat -> (start < n)%nat -> ((start + i) mod n = (start + j) mod n)%nat -> i = j.
Proof.
  intros Hi Hj Hs H. pose proof (Nat.div_mod (start + i) n ltac:(lia)) as E1.
  pose proof (Nat.div_mod (start + j) n ltac:(lia)) as E2.
  assert ((start + i) / n <= 1)%nat by (apply Nat.lt_succ_r, Nat.Div0.div_lt_upper_bound; lia).
  assert ((start + j) / n <= 1)%nat by (apply Nat.lt_succ_r, Nat.Div0.div_lt_upper_bound; lia).
  pose proof (Nat.mod_upper_bound (start + i) n ltac:(lia)).
  destruct ((start + i) / n)%nat as [|[|]], ((start + j) / n)%nat as [|[|]]; lia.
Qed.

Section ring.
Context {A : Type} (d : A).

Definition ring (l : list A) (start len : nat) : list A :=
  map (fun i => nth ((start + i) mod length l) l d) (seq 0 len).

Lemma length_ring l start len : length (ring l start len) = len.
Proof. unfold ring. by rewrite length_map, length_seq. Qed.

Lemma ring_S l start len :
  ring l start (S len) = nth (start mod length l) l d :: ring l (start + 1) len.
Proof.
  unfold ring. cbn [seq map]. rewrite Nat.add_0_r. f_equal. rewrite <-seq_shift, map_map.
  apply map_ext. intros i. do 2 f_equal. lia.
Qed.

Lemma ring_snoc l start len :
  ring l start (S len) = ring l start len ++ [nth ((start + len) mod length l) l d].
Proof. unfold ring. by rewrite seq_S, map_app. Qed.

Lemma ring_mod l start len : (0 < length l)%nat -> ring l (start mod length l) len = ring l start len.
Proof.
  intros Hl. unfold ring. apply map_ext. intros i. by rewrite Nat.Div0.add_mod_idemp_l.
Qed.

(** Writing a cell outside the ring does not change it. *)
Lemma ring_insert l start len k x :
  (len <= k < length l)%nat -> (start < length l)%nat ->
  ring (<[((start + k) mod length l)%nat := x]> l) start len = ring l start len.
Proof.
  intros Hk Hs. unfold ring. rewrite length_insert. apply map_ext_in. intros i Hi%in_seq.
  rewrite !nth_lookup, list_lookup_insert_ne; [done|].
  intros Heq. apply (ring_index_inj (length l) start k i) in Heq; lia.
Qed.
End ring.

Arguments ring {A} d l start len : simpl never.

(** ** Pipes *)

Record pipe_wf (p : Pipe) : Prop := {
  pw_bytes : length (pi_bytes p) = PIPE_CAPACITY;
  pw_index : (pi_read_index p < PIPE_CAPACITY)%nat;
  pw_plen : (pi_len p <= PIPE_CAPACITY)%nat;
}.

(** The bytes in the pipe, oldest first. *)
Definition pipe_content (p : Pipe) : bytes := ring 0 (pi_bytes p) (pi_read_index p) (pi_len p).

(** Everything but the buffer. *)
Definition same_ends (p p' : Pipe) : Prop :=
  pi_id p' = pi_id p /\ pi_owner_pid p' = pi_owner_pid p /\ pi_readers p' = pi_readers p /\ pi_writers p' = pi_writers p.

Lemma write_loop_spec source p :
  pipe_wf p -> (pi_len p + length source <= PIPE_CAPACITY)%nat ->
  exists p', PipeOps.write_loop source p = Done p' /\ pipe_wf p' /\ same_ends p p' /\
    pipe_content p' = pipe_content p ++ source.
Proof.
  revert p; induction source as [|b source IH]; intros p Hwf Hlen.
  { exists p. rewrite app_nil_r. done. }
  cbn [PipeOps.write_loop length] in *. destruct Hwf as [H1 H2 H3].
  pose proof (Nat.mod_upper_bound (pi_read_index p + pi_len p) PIPE_CAPACITY ltac:(done)).
  rewrite index_set_ok by lia. run. set (i := ((pi_read_index p + pi_len p) mod PIPE_CAPACITY)%nat) in *.
  set (p1 := p <| pi_bytes := <[i := b]> (pi_bytes p) |> <| pi_len ::= S |>).
  destruct (IH p1) as (p' & E & Hwf' & Hs & Hc).
  - constructor; simpl; rewrite ?length_insert; lia.
  - simpl. lia.
  - exists p'. split; [done|]. split; [done|]. split; [done|]. rewrite Hc.
    change (pipe_content p1) with (ring 0 (<[i := b]> (pi_bytes p)) (pi_read_index p) (S (pi_len p))).
    unfold pipe_content. rewrite ring_snoc, <-app_assoc, length_insert. unfold i. rewrite <-H1, ring_insert by lia.
    f_equal. simpl. f_equal. rewrite nth_lookup, list_lookup_insert_eq; [done|].
    rewrite H1. apply Nat.mod_upper_bound. done.
Qed.

Lemma read_loop_spec count p :
  pipe_wf p -> (count <= pi_len p)%nat ->
  exists p', PipeOps.read_loop count p = Done (take count (pipe_content p), p') /\ pipe_wf p' /\ same_ends p p' /\
    pipe_content p' = drop count (pipe_content p).
Proof.
  revert p; induction count as [|count IH]; intros p Hwf Hlen.
  { exists p. rewrite take_0, drop_0. done. }
  cbn [PipeOps.read_loop]. destruct Hwf as [H1 H2 H3].
  destruct (lookup_lt_is_Some_2 (pi_bytes p) (pi_read_index p)) as [b Hb]; [lia|].
  rewrite (proj2 (index_Done _ _ _) Hb). run.
  set (p1 := p <| pi_read_index ::= (fun i => (i + 1) mod PIPE_CAPACITY)%nat |> <| pi_len ::= Nat.pred |>).
  assert (pipe_content p = b :: pipe_content p1) as Hp.
  { unfold pipe_content. destruct (pi_len p) as [|n] eqn:El; [lia|]. rewrite ring_S, H1, Nat.mod_small by lia.
    rewrite nth_lookup, Hb. simpl. rewrite El. f_equal. rewrite <-(ring_mod 0 (pi_bytes p) (pi_read_index p + 1)), H1 by lia.
    done. }
  destruct (IH p1) as (p' & E & Hwf' & Hs & Hc).
  - constructor; [done| |simpl; lia]. exact (Nat.mod_upper_bound (pi_read_index p + 1) PIPE_CAPACITY ltac:(done)).
  - simpl. lia.
  - exists p'. rewrite E, Hp. done.
Qed.

(** One system call on a pipe: a write of some bytes or a read into a buffer. *)
Inductive PipeCall := PWrite (source : bytes) | PRead (buffer : bytes).

(** The bytes a call moved into the pipe, and out of it. *)
Definition pipe_call (c : PipeCall) : M Pipe (bytes * bytes) :=
  match c with
  | PWrite source => r ← PipeOps.write source; mret (match r with Ok n => (take n source, []) | Err _ => ([], []) end)
  | PRead buffer =>
    '(r, out) ← PipeOps.read buffer; mret (match r with Ok n => ([], take n out) | Err _ => ([], []) end)
  end.

Fixpoint pipe_calls (cs : list PipeCall) : M Pipe (bytes * bytes) :=
  match cs with
  | [] => mret ([], [])
  | c :: cs => '(i, o) ← pipe_call c; '(ins, outs) ← pipe_calls cs; mret (i ++ ins, o ++ outs)
  end.

Lemma pipe_call_spec c p :
  pipe_wf p -> exists i o p', pipe_call c p = Done ((i, o), p') /\ pipe_wf p' /\
    pipe_content p ++ i = o ++ pipe_content p'.
Proof.
  intros Hwf. destruct c as [source|buffer]; cbn [pipe_call]; unfold PipeOps.write, PipeOps.read; run.
  - destruct (pi_readers p =? 0); [eexists [], [], p; by rewrite app_nil_r|].
    destruct (Nat.eqb_spec (pi_len p) PIPE_CAPACITY); [eexists [], [], p; by rewrite app_nil_r|].
    set (count := Nat.min _ _). rewrite slice_ok by lia. rewrite drop_0, Nat.sub_0_r.
    pose proof (pw_plen p Hwf). destruct (write_loop_spec (take count source) p) as (p' & -> & Hwf' & _ & Hc);
      [done|rewrite length_take; lia|].
    eexists _, _, p'. split; [done|]. split; [done|]. rewrite Hc. done.
  - destruct (Nat.eqb_spec (pi_len p) 0) as [E|E].
    { exists [], [], p. rewrite app_nil_r. destruct (pi_writers p =? 0); simpl; done. }
    set (count := Nat.min _ _). destruct (read_loop_spec count p) as (p' & -> & Hwf' & _ & Hc); [done|lia|].
    assert (length (take count (pipe_content p)) = count) as Hl.
    { unfold pipe_content. rewrite length_take, length_ring. lia. }
    rewrite copy_slice_ok by lia. rewrite take_0. simpl app.
    eexists _, _, p'. split; [done|]. split; [done|]. rewrite app_nil_r, Hc.
    rewrite take_app_length' by done. by rewrite take_drop.
Qed.

(** C22. A pipe is a byte stream.  For every sequence of writes and reads on a
    new pipe, of whatever sizes, no call panics and the bytes accepted by the
    writes, in order, are the bytes delivered by the reads, in order, followed
    by the at most 256 bytes still in the buffer: nothing is lost, duplicated
    or reordered. *)
Theorem pipe_is_a_stream (id owner : Z) (calls : list PipeCall) :
  exists accepted delivered p, pipe_calls calls (PipeOps.new id owner) = Done ((accepted, delivered), p) /\
    accepted = delivered ++ pipe_content p /\ (length (pipe_content p) <= PIPE_CAPACITY)%nat.
Proof.
  assert (forall p, pipe_wf p -> exists i o p', pipe_calls calls p = Done ((i, o), p') /\ pipe_wf p' /\
    pipe_content p ++ i = o ++ pipe_content p') as Hgen.
  { induction calls as [|c calls IH]; intros p Hwf; [by exists [], [], p; rewrite app_nil_r|].
    destruct (pipe_call_spec c p Hwf) as (i & o & p1 & E & Hwf1 & Hc). cbn [pipe_calls]. run. rewrite E.
    destruct (IH p1 Hwf1) as (ins & outs & p2 & -> & Hwf2 & Hc2). eexists _, _, p2. split; [done|]. split; [done|].
    rewrite app_assoc, Hc, <-app_assoc, Hc2, app_assoc. done. }
  destruct (Hgen (PipeOps.new id owner)) as (i & o & p & E & Hwf & Hc).
  { constructor; vm_compute; lia. }
  exists i, o, p. split; [done|]. split; [exact Hc|]. unfold pipe_content. rewrite length_ring. apply Hwf.
Qed.

(** ** Message queues *)

Definition message_wf (m : Message) : Prop :=
  length (ms_bytes m) = MAX_MESSAGE_SIZE /\ (ms_len m <= MAX_MESSAGE_SIZE)%nat.

Record queue_wf (q : MessageQueue) : Prop := {
  qw_messages : length (mq_messages q) = MESSAGE_QUEUE_DEPTH;
  qw_index : (mq_read_index q < MESSAGE_QUEUE_DEPTH)%nat;
  qw_len : (mq_len q <= MESSAGE_QUEUE_DEPTH)%nat;
  qw_each : Forall message_wf (mq_messages q);
}.

Definition message_text (m : Message) : bytes := take (ms_len m) (ms_bytes m).

(** The messages in the queue, oldest first. *)
Definition queue_content (q : MessageQueue) : list bytes :=
  map message_text (ring Queue.EMPTY (mq_messages q) (mq_read_index q) (mq_len q)).

Lemma queue_new_wf id owner : queue_wf (Queue.new id owner).
Proof. constructor; [reflexivity|vm_compute; lia|vm_compute; lia|]. apply Forall_replicate. vm_compute. lia. Qed.

Definition send_spec (source : bytes) (q : MessageQueue) (r : result nat SyscallError) (q' : MessageQueue) : Prop :=
  if bytes_eqb source [] || (MAX_MESSAGE_SIZE <? length source)%nat then r = Err InvalidArgument /\ q' = q
  else if (length (queue_content q) =? MESSAGE_QUEUE_DEPTH)%nat then r = Err WouldBlock /\ q' = q
  else r = Ok (length source) /\ queue_content q' = queue_content q ++ [source].

Definition receive_spec (destination : bytes) (q : MessageQueue) (r : result nat SyscallError * bytes)
    (q' : MessageQueue) : Prop :=
  match queue_content q with
  | [] => r = (Err WouldBlock, destination) /\ q' = q
  | m :: rest =>
    if (length destination <? length m)%nat then r = (Err InvalidArgument, destination) /\ q' = q
    else r = (Ok (length m), m ++ drop (length m) destination) /\ queue_content q' = rest
  end.

Lemma send_ok source q : queue_wf q -> exists r q', Queue.send source q = Done (r, q') /\ queue_wf q' /\ send_spec source q r q'.
Proof.
  intros Hwf. unfold Queue.send, send_spec. run.
  destruct (bytes_eqb source [] || _) eqn:Es; [by eexists _, _|].
  apply orb_false_iff in Es as [_ Hsz]. bool_to_prop. destruct Hwf as [H1 H2 H3 H4].
  unfold queue_content at 1. rewrite length_map, length_ring.
  destruct (Nat.eqb_spec (mq_len q) MESSAGE_QUEUE_DEPTH); [by eexists _, _|].
  pose proof (Nat.mod_upper_bound (mq_read_index q + mq_len q) MESSAGE_QUEUE_DEPTH ltac:(done)) as Hi.
  set (i := ((mq_read_index q + mq_len q) mod MESSAGE_QUEUE_DEPTH)%nat) in *.
  destruct (lookup_lt_is_Some_2 (mq_messages q) i) as [m Hm]; [lia|].
  rewrite (proj2 (index_Done _ _ _) Hm). pose proof (proj1 (Forall_lookup _ _) H4 i m Hm) as [Hb Hml].
  rewrite copy_slice_ok by lia. rewrite index_set_ok by lia. rewrite take_0. simpl app.
  set (m' := mkMessage (source ++ drop (length source) (ms_bytes m)) (length source)).
  set (q1 := q <| mq_messages := <[i := m']> (mq_messages q) |> <| mq_len ::= S |>).
  exists (Ok (length source)), q1. split; [done|]. split.
  - constructor; simpl; rewrite ?length_insert; try lia. apply Forall_insert; [done|].
    unfold message_wf. simpl. rewrite length_app, length_drop. lia.
  - split; [done|].
    change (queue_content q1) with
      (map message_text (ring Queue.EMPTY (<[i := m']> (mq_messages q)) (mq_read_index q) (S (mq_len q)))).
    unfold queue_content. rewrite ring_snoc, map_app, length_insert. unfold i. rewrite <-H1, ring_insert by lia.
    f_equal. simpl. rewrite nth_lookup, list_lookup_insert_eq by (rewrite H1; done). simpl.
    unfold message_text, m'. simpl. by rewrite take_app_length.
Qed.

Lemma receive_ok destination q :
  queue_wf q -> exists r q', Queue.receive destination q = Done (r, q') /\ queue_wf q' /\ receive_spec destination q r q'.
Proof.
  intros Hwf. unfold Queue.receive, receive_spec. run. pose proof Hwf as [H1 H2 H3 H4].
  destruct (Nat.eqb_spec (mq_len q) 0) as [E|E].
  { eexists _, _. split; [done|]. split; [done|]. unfold queue_content. by rewrite E. }
  destruct (lookup_lt_is_Some_2 (mq_messages q) (mq_read_index q)) as [m Hm]; [lia|].
  rewrite (proj2 (index_Done _ _ _) Hm). pose proof (proj1 (Forall_lookup _ _) H4 _ m Hm) as [Hb Hml].
  unfold queue_content at 1. destruct (mq_len q) as [|n] eqn:El; [done|]. rewrite ring_S, H1, Nat.mod_small by done.
  rewrite nth_lookup, Hm. cbn [map default]. assert (length (message_text m) = ms_len m) as Ht.
  { unfold message_text. rewrite length_take. lia. }
  simpl default. change (id m) with m. rewrite Ht. destruct (Nat.ltb_spec (length destination) (ms_len m)); [by eexists _, _|].
  rewrite slice_ok by lia. rewrite drop_0, Nat.sub_0_r. fold (message_text m).
  rewrite copy_slice_ok by lia. rewrite index_set_ok by lia. rewrite take_0. simpl app.
  set (q1 := q <| mq_messages := <[mq_read_index q := Queue.EMPTY]> (mq_messages q) |>
               <| mq_read_index ::= (fun i => (i + 1) mod MESSAGE_QUEUE_DEPTH)%nat |> <| mq_len ::= Nat.pred |>).
  eexists _, q1. split; [done|]. split.
  - constructor.
    + simpl. by rewrite length_insert.
    + exact (Nat.mod_upper_bound (mq_read_index q + 1) MESSAGE_QUEUE_DEPTH ltac:(done)).
    + simpl. rewrite El. simpl. lia.
    + simpl. apply Forall_insert; [done|]. vm_compute. lia.
  - split; [done|].
    change (queue_content q1) with (map message_text (ring Queue.EMPTY
      (<[mq_read_index q := Queue.EMPTY]> (mq_messages q)) ((mq_read_index q + 1) mod MESSAGE_QUEUE_DEPTH)
      (Nat.pred (mq_len q)))). rewrite El. cbn [Nat.pred]. f_equal.
    pose proof (ring_insert Queue.EMPTY (mq_messages q) ((mq_read_index q + 1) mod MESSAGE_QUEUE_DEPTH) n
                  (MESSAGE_QUEUE_DEPTH - 1) Queue.EMPTY) as Hr.
    rewrite H1 in Hr.
    assert ((((mq_read_index q + 1) mod MESSAGE_QUEUE_DEPTH + (MESSAGE_QUEUE_DEPTH - 1)) mod MESSAGE_QUEUE_DEPTH)%nat
            = mq_read_index q) as Hidx.
    { rewrite Nat.Div0.add_mod_idemp_l. replace (mq_read_index q + 1 + (MESSAGE_QUEUE_DEPTH - 1))%nat
        with (mq_read_index q + 1 * MESSAGE_QUEUE_DEPTH)%nat by (unfold MESSAGE_QUEUE_DEPTH; lia).
      rewrite Nat.Div0.mod_add. by apply Nat.mod_small. }
    rewrite Hidx in Hr. rewrite Hr.
    + rewrite <-H1 at 1. rewrite ring_mod by lia. done.
    + unfold MESSAGE_QUEUE_DEPTH in *. lia.
    + apply Nat.mod_upper_bound. done.
Qed.

(** ** Events *)

(** The waiting threads, first come first. *)
Record event_wf (e : Event) (ts : list Z) : Prop := {
  ew_waiters : ev_waiters e = map Some ts ++ replicate (MAX_EVENT_WAITERS - length ts) None;
  ew_count : ev_waiter_count e = length ts;
  ew_len : (length ts <= MAX_EVENT_WAITERS)%nat;
  ew_nodup : NoDup ts;
}.

(** An event two threads wait on. *)
Definition Event_two : Event :=
  mkEvent 1 7 false ([Some 5; Some 9] ++ replicate 14 None) 2.

Lemma event_new_wf id owner : event_wf (EventOps.new id owner) [].
Proof. constructor; [reflexivity|reflexivity|simpl; lia|constructor]. Qed.

Lemma existsb_is_tid tid ts : existsb (EventOps.is_tid tid) (map Some ts) = bool_decide (tid ∈ ts).
Proof.
  induction ts as [|t ts IH]; simpl; [done|]. rewrite IH. unfold EventOps.is_tid.
  repeat case_bool_decide; try done; set_solver.
Qed.

Lemma position_is_tid tid ts :
  position (EventOps.is_tid tid) (map Some ts) = position (Z.eqb tid) ts.
Proof.
  induction ts as [|t ts IH]; simpl; [done|]. rewrite IH. unfold EventOps.is_tid.
  destruct (Z.eqb_spec tid t) as [->|]; [by rewrite bool_decide_eq_true_2|]. rewrite bool_decide_eq_false_2; [done|congruence].
Qed.

(** Shifting [n] cells down from [from] drops the cell before [from]. *)
Lemma shift_down_spec n (a b c : list (option Z)) x :
  length b = n ->
  exists y, EventOps.shift_down n (length a + 1) (a ++ x :: b ++ c) = Done (a ++ b ++ y :: c).
Proof.
  revert a b x; induction n as [|n IH]; intros a b x Hb.
  - destruct b; [|done]. exists x. done.
  - destruct b as [|y b]; [done|]. cbn [EventOps.shift_down].
    assert ((a ++ x :: (y :: b) ++ c) !! (length a + 1)%nat = Some y) as Hy.
    { rewrite lookup_app_r by lia. by replace (length a + 1 - length a)%nat with 1%nat by lia. }
    rewrite (proj2 (index_Done _ _ _) Hy). run.
    replace (length a + 1 - 1)%nat with (length a) by lia.
    rewrite index_set_ok by (rewrite length_app; simpl; lia). rewrite insert_app_r_alt by lia.
    rewrite Nat.sub_diag. simpl. destruct (IH (a ++ [y]) b y) as (z & Hz); [simpl in Hb; lia|].
    rewrite length_app, <-!app_assoc in Hz. simpl in Hz. exists z.
    replace (S (length a + 1))%nat with (length a + 1 + 1)%nat by lia. exact Hz.
Qed.

Lemma drop_slot_spec e ts i :
  event_wf e ts -> (i < length ts)%nat ->
  exists e', EventOps.drop_slot (i + 1) e = Done e' /\ event_wf e' (delete i ts) /\
    ev_id e' = ev_id e /\ ev_owner_pid e' = ev_owner_pid e /\ ev_signaled e' = ev_signaled e.
Proof.
  intros [H1 H2 H3 H4] Hi. unfold EventOps.drop_slot. rewrite H1, H2.
  destruct (lookup_lt_is_Some_2 ts i Hi) as [t Ht]. pose proof (take_drop_middle ts i t Ht) as Hts.
  set (a := map Some (take i ts)). set (b := map Some (drop (S i) ts)).
  assert (map Some ts = a ++ Some t :: b) as Hm by (rewrite <-Hts at 1; by rewrite map_app).
  assert (length a = i) as Ha by (unfold a; rewrite length_map, length_take; lia).
  assert (length b = (length ts - (i + 1))%nat) as Hb by (unfold b; rewrite length_map, length_drop; lia).
  rewrite Hm, <-app_assoc. simpl.
  destruct (shift_down_spec (length ts - (i + 1)) a b (replicate (MAX_EVENT_WAITERS - length ts) None) (Some t) Hb)
    as (y & Hy). rewrite Ha in Hy. rewrite Hy. run.
  destruct (length ts) as [|n] eqn:El; [lia|].
  rewrite index_set_ok by (rewrite !length_app; simpl; lia).
  assert (a ++ b = map Some (delete i ts)) as Hd.
  { rewrite delete_take_drop. unfold a, b. by rewrite map_app. }
  assert (length (delete i ts) = n) as Hl.
  { rewrite length_delete by eauto. lia. }
  eexists. split; [done|]. split; [|done]. constructor; simpl; rewrite ?Hl; [|done|lia|].
  - rewrite app_assoc, Hd. rewrite insert_app_r_alt by (rewrite length_map; lia). f_equal.
    rewrite length_map, Hl, Nat.sub_diag. simpl.
    replace (MAX_EVENT_WAITERS - n)%nat with (S (MAX_EVENT_WAITERS - S n)) by lia. done.
  - eapply sublist_NoDup; [exact H4|]. apply sublist_delete.
Qed.

Lemma filter_neq_id (ts : list Z) tid : tid ∉ ts -> List.filter (fun t => negb (t =? tid)) ts = ts.
Proof.
  induction ts as [|t ts IH]; intros Hn; [done|]. simpl. apply not_elem_of_cons in Hn as [Hne Hn].
  destruct (Z.eqb_spec t tid); [congruence|]. simpl. by rewrite IH.
Qed.

Lemma filter_neq_delete (ts : list Z) tid i :
  NoDup ts -> ts !! i = Some tid -> List.filter (fun t => negb (t =? tid)) ts = delete i ts.
Proof.
  revert i; induction ts as [|t ts IH]; intros i Hnd Hi; [done|]. apply NoDup_cons in Hnd as [Hn Hnd]. destruct i as [|i].
  - injection Hi as ->. simpl. rewrite Z.eqb_refl. by apply filter_neq_id.
  - simpl in *. destruct (Z.eqb_spec t tid) as [->|]; [by apply list_elem_of_lookup_2 in Hi|].
    simpl. by rewrite (IH i).
Qed.

Lemma event_length e ts : event_wf e ts -> length (ev_waiters e) = MAX_EVENT_WAITERS.
Proof. intros [H1 H2 H3 H4]. rewrite H1, length_app, length_map, length_replicate. lia. Qed.

Lemma event_slice e ts : event_wf e ts -> slice (ev_waiters e) 0 (ev_waiter_count e) = Done (map Some ts).
Proof.
  intros Hwf. pose proof (event_length e ts Hwf) as Hl. destruct Hwf as [H1 H2 H3 H4].
  rewrite slice_ok by lia. rewrite drop_0, Nat.sub_0_r, H2, H1.
  by rewrite <-(length_map Some ts), take_app_length.
Qed.

Lemma enqueue_ok e ts tid :
  event_wf e ts ->
  exists b e', EventOps.enqueue tid e = Done (b, e') /\
    if bool_decide (tid ∈ ts) || (length ts =? MAX_EVENT_WAITERS)%nat
    then b = false /\ e' = e else b = true /\ event_wf e' (ts ++ [tid]).
Proof.
  intros Hwf. pose proof (event_length e ts Hwf) as Hl. unfold EventOps.enqueue. run.
  rewrite (event_slice e ts Hwf), Hl. pose proof Hwf as [H1 H2 H3 H4]. rewrite H2.
  destruct (Nat.eqb_spec (length ts) MAX_EVENT_WAITERS) as [E|E].
  { eexists _, _. split; [done|]. by rewrite orb_true_r. }
  rewrite existsb_is_tid, orb_false_r. case_bool_decide as Hin; [by eexists _, _|].
  rewrite index_set_ok by lia. eexists _, _. split; [done|]. split; [done|].
  constructor; simpl; rewrite ?length_app; simpl; try lia.
  - rewrite H1, insert_app_r_alt by (rewrite length_map; lia). rewrite length_map, Nat.sub_diag, map_app, <-app_assoc.
    f_equal. replace (MAX_EVENT_WAITERS - length ts)%nat with (S (MAX_EVENT_WAITERS - (length ts + 1)))%nat by lia. done.
  - apply NoDup_app. split; [done|]. split; [set_solver|apply NoDup_singleton].
Qed.

Lemma dequeue_spec e ts :
  event_wf e ts -> exists e', EventOps.dequeue e = Done (head ts, e') /\ event_wf e' (tail ts) /\
    ev_id e' = ev_id e /\ ev_owner_pid e' = ev_owner_pid e /\ ev_signaled e' = ev_signaled e.
Proof.
  intros Hwf. unfold EventOps.dequeue. run. pose proof (ew_waiters e ts Hwf) as H1. destruct ts as [|t ts]; simpl in H1.
  - rewrite H1. simpl. by eexists.
  - destruct (drop_slot_spec e (t :: ts) 0 Hwf) as (e' & He & Hwf' & Hk); [simpl; lia|].
    rewrite H1. simpl index. simpl in He. run. rewrite He. by eexists.
Qed.

Lemma dequeue_ok e ts :
  event_wf e ts -> exists e', EventOps.dequeue e = Done (head ts, e') /\ event_wf e' (tail ts).
Proof. intros Hwf. destruct (dequeue_spec e ts Hwf) as (e' & E & He & _). by exists e'. Qed.

Lemma remove_ok e ts tid :
  event_wf e ts ->
  exists e', EventOps.remove tid e = Done ((), e') /\ event_wf e' (List.filter (fun t => negb (t =? tid)) ts).
Proof.
  intros Hwf. unfold EventOps.remove. run. rewrite (event_slice e ts Hwf), position_is_tid.
  destruct (position (Z.eqb tid) ts) as [i|] eqn:Ep.
  - destruct (position_Some _ _ _ Ep) as (x & Hx & Hb & _). apply Z.eqb_eq in Hb as <-.
    destruct (drop_slot_spec e ts i Hwf) as (e' & He & Hwf' & _); [by eapply lookup_lt_Some|].
    rewrite He. eexists. split; [done|]. rewrite (filter_neq_delete ts tid i); [done| |done]. apply Hwf.
  - eexists. split; [done|]. rewrite filter_neq_id; [done|]. apply position_None in Ep. intros Hin%list_elem_of_In.
    pose proof (List.find_none _ _ Ep tid Hin) as H. by rewrite Z.eqb_refl in H.
Qed.

(** C39. Message queues and event queues.  A message queue is a bounded queue of
    whole messages: on every reachable queue, sending and receiving return
    without a panic and do what the abstract queue does: a message of 1 to 64
    bytes is appended unless eight are queued, the oldest message is delivered
    whole, byte for byte, into a buffer that can hold it, and a refused call
    changes nothing.  An event's waiters form a queue without duplicates:
    enqueueing appends a thread that is not waiting yet while there is room for
    16, dequeueing removes and returns the thread that has waited longest, and
    removing takes out exactly the named thread, the others keeping their
    order. *)
Theorem queues_refine (q : MessageQueue) (source destination : bytes) (e : Event) (ts : list Z) (tid : Z) :
  queue_wf q -> event_wf e ts ->
  (exists r q', Queue.send source q = Done (r, q') /\ queue_wf q' /\ send_spec source q r q') /\
  (exists r q', Queue.receive destination q = Done (r, q') /\ queue_wf q' /\ receive_spec destination q r q') /\
  (exists b e', EventOps.enqueue tid e = Done (b, e') /\
     if bool_decide (tid ∈ ts) || (length ts =? MAX_EVENT_WAITERS)%nat
     then b = false /\ e' = e else b = true /\ event_wf e' (ts ++ [tid])) /\
  (exists e', EventOps.dequeue e = Done (head ts, e') /\ event_wf e' (tail ts)) /\
  (exists e', EventOps.remove tid e = Done ((), e') /\ event_wf e' (List.filter (fun t => negb (t =? tid)) ts)).
Proof.
  intros Hq He. split_and!; [by apply send_ok|by apply receive_ok|by apply enqueue_ok|by apply dequeue_ok|by apply remove_ok].
Qed.

Lemma queues_refine_witness :
  (exists r q', Queue.send (str "ping") (Queue.new 1 7) = Done (r, q') /\ queue_wf q' /\
     send_spec (str "ping") (Queue.new 1 7) r q') /\
  (exists r q', Queue.receive (replicate 8 0) (Queue.new 1 7) = Done (r, q') /\ queue_wf q' /\
     receive_spec (replicate 8 0) (Queue.new 1 7) r q') /\
  exists e', EventOps.dequeue Event_two = Done (Some 5, e') /\ event_wf e' [9].
Proof.
  destruct (queues_refine (Queue.new 1 7) (str "ping") (replicate 8 0) Event_two [5; 9] 9) as (H1 & H2 & _ & H3 & _).
  - apply queue_new_wf.
  - constructor; [reflexivity|reflexivity|vm_compute; lia|apply (bool_decide_unpack _); vm_compute; exact I].
  - split; [exact H1|]. split; [exact H2|exact H3].
Defined.
