(* ===== verification/Process.v ===== *)
(** * Processes and the process table (user/process.rs)

    The kernel state the process module works on is one record: the table
    ([PROCESS_TABLE]), the atomics and the current-user statics of the module,
    the timer's tick count, the statics of address_space.rs, program.rs and
    syscall.rs.
    Every method of [ProcessTable] is an operation on that record; a violated
    [expect], a missing main thread and an overflowing [+] are panics. *)

From S2P Require Import Prelude Utf8 Paths Vfs Ring3 Elf AddrSpace Threads Program Ipc.

Definition DEFAULT_REAPED_HISTORY_LIMIT : nat := 16.
Definition USERNAME_MAX_LEN : nat := 16.
Definition SIGTERM : Z := 15.
Definition SIGCONT : Z := 18.
Definition SIGTSTP : Z := 20.
Definition SIGINT : Z := 2.
Definition SIG_DFL : Z := 0.
Definition SIG_IGN : Z := 1.
Definition USER_PREEMPT_QUANTUM_TICKS : Z := 10.

Inductive ProcessState :=
  | PCreated | PReady | PRunning | PBlocked | PStopped | PExited | PZombie | PReaped.
Inductive ProcessKind := KernelTask | UserProcess.

#[export] Instance ProcessState_eq : EqDecision ProcessState.
Proof. solve_decision. Defined.
#[export] Instance ProcessKind_eq : EqDecision ProcessKind.
Proof. solve_decision. Defined.

Definition ProcessState_eqb (a b : ProcessState) : bool := bool_decide (a = b).
Definition is_user (k : ProcessKind) : bool := bool_decide (k = UserProcess).

(** [matches!(state, Exited | Zombie | Reaped)] *)
Definition is_dead (s : ProcessState) : bool :=
  match s with PExited | PZombie | PReaped => true | _ => false end.

Record ProcessCredentials := mkCred { cr_uid : Z; cr_gid : Z; cr_username : bytes; cr_username_len : nat }.

Module Credentials.
Definition root : ProcessCredentials := mkCred 0 0 (str "root" ++ replicate 12 0) 4.

(** The two loops of [trim_ascii_spaces]; each round moves an index, so the
    length of the text bounds their number. *)
Fixpoint trim_left (fuel : nat) (l : bytes) (start end_ : nat) : outcome nat :=
  match fuel with
  | O => mret start
  | S fuel =>
    if (start <? end_)%nat then
      b ← index l start;
      if b =? 32 then trim_left fuel l (start + 1) end_ else mret start
    else mret start
  end.

Fixpoint trim_right (fuel : nat) (l : bytes) (start end_ : nat) : outcome nat :=
  match fuel with
  | O => mret end_
  | S fuel =>
    if (start <? end_)%nat then
      b ← index l (end_ - 1);
      if b =? 32 then trim_right fuel l start (end_ - 1) else mret end_
    else mret end_
  end.

Definition trim_ascii_spaces (l : bytes) : outcome bytes :=
  start ← trim_left (length l) l 0 (length l);
  end_ ← trim_right (length l) l start (length l);
  slice l start end_.

Definition from_username (name : bytes) : outcome ProcessCredentials :=
  name ← trim_ascii_spaces name;
  if bytes_eqb name (str "root") then mret root else
  let len := Nat.min (length name) USERNAME_MAX_LEN in
  src ← slice name 0 len;
  username ← copy_slice (replicate USERNAME_MAX_LEN 0) 0 len src;
  mret (mkCred 1000 1000 username len).

Definition username (c : ProcessCredentials) : outcome bytes := slice (cr_username c) 0 (cr_username_len c).
End Credentials.

Definition signal_bit (signal : Z) : option Z :=
  if (signal =? 0) || (64 <? signal) then None else Some (Z.shiftl 1 (signal - 1)).

(** [mask.trailing_zeros()], for a mask that is not zero: scan from bit 0. *)
Fixpoint trailing_zeros_from (n : nat) (i mask : Z) : Z :=
  match n with
  | O => i
  | S n => if Z.testbit mask i then i else trailing_zeros_from n (i + 1) mask
  end.
Definition trailing_zeros (mask : Z) : Z := trailing_zeros_from 64 0 mask.

Definition lowest_signal (mask : Z) : option Z :=
  if mask =? 0 then None else Some (trailing_zeros mask + 1).

Record Process := mkProcess {
  pr_pid : Z;
  pr_parent_pid : option Z;
  pr_process_group_id : Z;
  pr_session_id : Z;
  pr_name : bytes;
  pr_program_path : bytes;
  pr_kind : ProcessKind;
  pr_threads : ThreadStore;
  pr_credentials : ProcessCredentials;
  pr_arg : UserProgramArg;
  pr_cwd : NormalizedPath;
  pr_job_mode : JobMode;
  pr_state : ProcessState;
  pr_address_space : AddressSpace;
  pr_file_handles : list Z;
  pr_exit_status : option Z;
  pr_waiting_for : option Z;
  pr_sleeping_until_tick : option Z;
  pr_pending_signals : Z;
  pr_blocked_signals : Z;
  pr_sigterm_disposition : Z }.

#[export] Instance eta_process : Eta Process := fun r =>
  mkProcess (pr_pid r) (pr_parent_pid r) (pr_process_group_id r) (pr_session_id r) (pr_name r)
    (pr_program_path r) (pr_kind r) (pr_threads r) (pr_credentials r) (pr_arg r) (pr_cwd r)
    (pr_job_mode r) (pr_state r) (pr_address_space r) (pr_file_handles r) (pr_exit_status r)
    (pr_waiting_for r) (pr_sleeping_until_tick r) (pr_pending_signals r) (pr_blocked_signals r)
    (pr_sigterm_disposition r).

Record ProcessTable := mkTable {
  pt_processes : list Process;          (* ProcessStore.items *)
  pt_ready_queue : list Z;
  pt_next_pid : Z;
  pt_next_tid : Z;
  pt_user_context_switches : Z;
  pt_ready_queue_skips : Z }.

#[export] Instance eta_table : Eta ProcessTable := fun r =>
  mkTable (pt_processes r) (pt_ready_queue r) (pt_next_pid r) (pt_next_tid r)
          (pt_user_context_switches r) (pt_ready_queue_skips r).

Record Kernel := mkKernel {
  k_table : ProcessTable;
  k_addr : AddrState;
  k_programs : ProgramState;
  k_ipc : IpcState;                     (* the statics of syscall.rs *)
  k_ticks : Z;                          (* timer::ticks() *)
  k_pid_atomic : Z;                     (* CURRENT_USER_PID_ATOMIC *)
  k_tid_atomic : Z;                     (* CURRENT_USER_TID_ATOMIC *)
  k_preempt_checks : Z;
  k_preempt_requests : Z;
  k_preempt_yields : Z;
  k_preempt_pending : bool;
  k_last_preempt_tick : Z;              (* LAST_PREEMPT_REQUEST_TICK *)
  k_terminal_pid : Z;                   (* TERMINAL_FOREGROUND_PID *)
  k_current_process : option Z;
  k_current_thread : option Z;
  k_last_exited : option Z }.

#[export] Instance eta_kernel : Eta Kernel := fun r =>
  mkKernel (k_table r) (k_addr r) (k_programs r) (k_ipc r) (k_ticks r) (k_pid_atomic r) (k_tid_atomic r)
    (k_preempt_checks r) (k_preempt_requests r) (k_preempt_yields r) (k_preempt_pending r)
    (k_last_preempt_tick r) (k_terminal_pid r) (k_current_process r) (k_current_thread r) (k_last_exited r).

(** ** One process *)

Definition thread_state_for_process (s : ProcessState) : ThreadState :=
  match s with
  | PCreated => TCreated | PReady => TReady | PRunning => TRunning | PBlocked => TBlocked
  | PStopped => TStopped | PExited => TExited | PZombie => TZombie | PReaped => TReaped
  end.

Definition main_tid (p : Process) : Z := ts_main_tid (pr_threads p).

Definition upd_thread (tid : Z) (f : Thread -> Thread) (p : Process) : Process :=
  p <| pr_threads ::= TStore.upd tid f |>.

(** An update through [main_thread_mut()]. *)
Definition upd_main (f : Thread -> Thread) (p : Process) : outcome Process :=
  threads ← TStore.main_upd f (pr_threads p); mret (p <| pr_threads := threads |>).

Definition kill_thread (ts : ThreadState) (t : Thread) : Thread :=
  t <| th_state := ts |> <| th_resume_context := None |> <| th_last_started_tick := None |>.

Definition set_state (state : ProcessState) (p : Process) : outcome Process :=
  let p := p <| pr_state := state |> in
  let thread_state := thread_state_for_process state in
  if is_dead state
  then mret (p <| pr_threads ::= (fun s => s <| ts_items ::= map (kill_thread thread_state) |>) |>)
  else upd_main (fun t => t <| th_state := thread_state |>) p.

Definition any_thread (s : ThreadState) (p : Process) : bool :=
  existsb (fun t => ThreadState_eqb (th_state t) s) (ts_items (pr_threads p)).

Definition refresh_state_from_threads (p : Process) : Process :=
  if is_dead (pr_state p) then p else
  p <| pr_state :=
    if any_thread TRunning p then PRunning
    else if any_thread TReady p then PReady
    else if any_thread TBlocked p then PBlocked
    else if any_thread TStopped p then PStopped
    else PCreated |>.

Definition stop_thread_run (now : Z) (t : Thread) : Thread :=
  match th_last_started_tick t with
  | None => t
  | Some started_at =>
    t <| th_last_started_tick := None |>
      <| th_runtime_ticks ::= (fun r => u64_saturating_add r (saturating_sub now started_at)) |>
  end.

(** The thread starts to run at [now]. *)
Definition start_thread (now : Z) (t : Thread) : Thread :=
  t <| th_context_switches ::= (fun c => u64_saturating_add c 1) |> <| th_last_started_tick := Some now |>.

Definition take_managed_stack_release (tid : Z) (p : Process) : option (Z * Z) * Process :=
  match as_p4_frame (pr_address_space p) with
  | None => (None, p)
  | Some p4_frame =>
    match TStore.get (pr_threads p) tid with
    | None => (None, p)
    | Some t =>
      if negb (th_kernel_managed_stack t) then (None, p) else
      match th_user_stack_top t with
      | None => (None, p)
      | Some stack_top =>
        (Some (p4_frame, stack_top),
         upd_thread tid (fun t => t <| th_user_stack_top := None |> <| th_user_stack_start := None |>
                                    <| th_kernel_managed_stack := false |>) p)
      end
    end
  end.

(** ** Access to the kernel state *)

Definition find_process (k : Kernel) (pid : Z) : option Process :=
  List.find (fun p => pr_pid p =? pid) (pt_processes (k_table k)).

Definition has_tid (tid : Z) (p : Process) : bool := is_some (TStore.get (pr_threads p) tid).

Definition find_by_tid (k : Kernel) (tid : Z) : option Process :=
  List.find (has_tid tid) (pt_processes (k_table k)).

Definition mod_table (f : ProcessTable -> ProcessTable) : M Kernel () :=
  modify (fun k => k <| k_table ::= f |>).

(** Write back a process obtained by [get_mut], respectively [get_by_tid_mut]. *)
Definition put_process (pid : Z) (p : Process) : M Kernel () :=
  mod_table (fun t => t <| pt_processes ::= find_upd (fun q => pr_pid q =? pid) (fun _ => p) |>).

Definition put_by_tid (tid : Z) (p : Process) : M Kernel () :=
  mod_table (fun t => t <| pt_processes ::= find_upd (has_tid tid) (fun _ => p) |>).

Definition with_addr {A} (m : M AddrState A) : M Kernel A := fun k =>
  match m (k_addr k) with Done (a, s) => Done (a, k <| k_addr := s |>) | Panic => Panic end.

Definition with_programs {A} (m : M ProgramState A) : M Kernel A := fun k =>
  match m (k_programs k) with Done (a, s) => Done (a, k <| k_programs := s |>) | Panic => Panic end.

Definition with_ipc {A} (m : M IpcState A) : M Kernel A := fun k =>
  match m (k_ipc k) with Done (a, s) => Done (a, k <| k_ipc := s |>) | Panic => Panic end.

(** [n + 1] on a [u64] counter, respectively a [u32]. *)
Definition u64_incr (n : Z) : option Z := u64_checked_add n 1.
Definition u32_incr (n : Z) : option Z := checked_add_to u32_max n 1.

(** ** The process table *)

Module Table.

Definition new : ProcessTable := mkTable [] [] 1 1 0 0.

(** *** Ready queue *)

Definition enqueue_ready (tid : Z) : M Kernel () :=
  mod_table (fun t => if existsb (Z.eqb tid) (pt_ready_queue t) then t
                      else t <| pt_ready_queue ::= (fun q => q ++ [tid]) |>).

(** [ready_queue.retain(keep)] *)
Definition retain_ready (keep : Z -> bool) : M Kernel () :=
  mod_table (fun t => t <| pt_ready_queue ::= List.filter keep |>).

Definition remove_from_ready_queue (pid : Z) : M Kernel () :=
  k ← get;
  let tids := match find_process k pid with
              | Some p => map th_tid (ts_items (pr_threads p))
              | None => []
              end in
  retain_ready (fun queued => negb (existsb (Z.eqb queued) tids)).

(** *** Running *)

Definition count_context_switch : M Kernel () :=
  k ← get;
  ifSome n := mret (u64_incr (pt_user_context_switches (k_table k))) orelse panic in
  mod_table (fun t => t <| pt_user_context_switches := n |>).

Definition start_process_run (pid : Z) : M Kernel () :=
  ifSome p := gets (fun k => find_process k pid) orelse mret () in
  modify (fun k => k <| k_preempt_pending := false |> <| k_pid_atomic := pid |>);;
  p ← lift (set_state PRunning p);
  now ← gets k_ticks;
  p ← lift (upd_main (start_thread now) p);
  put_process pid p;;
  count_context_switch.

Definition stop_process_run (p : Process) : M Kernel Process :=
  k ← get;
  (if k_pid_atomic k =? pr_pid p
   then modify (fun k => k <| k_pid_atomic := 0 |> <| k_tid_atomic := 0 |> <| k_preempt_pending := false |>)
   else mret ());;
  lift (upd_main (stop_thread_run (k_ticks k)) p).

(** *** Creation *)

Definition reserve_pid : M Kernel Z :=
  k ← get;
  let pid := pt_next_pid (k_table k) in
  ifSome n := mret (u32_incr pid) orelse panic in
  mod_table (fun t => t <| pt_next_pid := n |>);;
  mret pid.

Definition reserve_tid : M Kernel Z :=
  k ← get;
  let tid := pt_next_tid (k_table k) in
  mod_table (fun t => t <| pt_next_tid := u32_saturating_add tid 1 |>);;
  mret tid.

(** [ProcessStore::insert]: replace the process with that pid, or append. *)
Definition store_insert (pid : Z) (p : Process) (l : list Process) : list Process :=
  match List.find (fun q => pr_pid q =? pid) l with
  | Some _ => find_upd (fun q => pr_pid q =? pid) (fun _ => p) l
  | None => l ++ [p]
  end.

Definition insert_process (pid : Z) (parent_pid : option Z) (name program_path : bytes) (arg : UserProgramArg)
    (job_mode : JobMode) (address_space : AddressSpace) : M Kernel () :=
  k ← get;
  let kind := if negb (is_some parent_pid) && bytes_eqb name (str "kernel") && bytes_eqb program_path (str "kernel")
              then KernelTask else UserProcess in
  let parent := parent_pid ≫= find_process k in
  let cwd := match parent with Some q => pr_cwd q | None => Path.root end in
  let credentials := match parent with Some q => pr_credentials q | None => Credentials.root end in
  let '(process_group_id, session_id) :=
    match parent with
    | Some q => if is_user (pr_kind q) then (pr_process_group_id q, pr_session_id q) else (pid, pid)
    | None => (pid, pid)
    end in
  let thread_kind := match kind with KernelTask => KernelThread | UserProcess => UserThread end in
  main_tid ← reserve_tid;
  let main := with_user_stack (new_thread main_tid pid thread_kind)
                (stack_start (as_layout address_space)) (stack_top (as_layout address_space)) in
  let process := mkProcess pid parent_pid process_group_id session_id name program_path kind
    (TStore.with_main main) credentials arg cwd job_mode PCreated address_space [] None None None 0 0 SIG_DFL in
  mod_table (fun t => t <| pt_processes ::= store_insert pid process |>).

Definition create_process_with_job_mode (parent_pid : option Z) (name program_path : bytes)
    (arg : UserProgramArg) (job_mode : JobMode) (address_space : AddressSpace) : M Kernel Z :=
  pid ← reserve_pid;
  insert_process pid parent_pid name program_path arg job_mode address_space;;
  mret pid.

Definition create_process (parent_pid : option Z) (name program_path : bytes)
    (arg : UserProgramArg) (address_space : AddressSpace) : M Kernel Z :=
  create_process_with_job_mode parent_pid name program_path arg Foreground address_space.

Definition create_reserved_process_with_job_mode (pid : Z) (parent_pid : option Z) (name program_path : bytes)
    (arg : UserProgramArg) (job_mode : JobMode) (address_space : AddressSpace) : M Kernel Z :=
  k ← get;
  (if pt_next_pid (k_table k) <=? pid
   then ifSome n := mret (u32_incr pid) orelse panic in mod_table (fun t => t <| pt_next_pid := n |>)
   else mret ());;
  insert_process pid parent_pid name program_path arg job_mode address_space;;
  mret pid.

Definition create_reserved_process (pid : Z) (parent_pid : option Z) (name program_path : bytes)
    (arg : UserProgramArg) (address_space : AddressSpace) : M Kernel Z :=
  create_reserved_process_with_job_mode pid parent_pid name program_path arg Foreground address_space.

(** *** Threads *)

Definition kind_of_threads (k : ProcessKind) : ThreadKind :=
  match k with KernelTask => KernelThread | UserProcess => UserThread end.

Definition create_thread (pid : Z) : M Kernel (option Z) :=
  ifSome p := gets (fun k => find_process k pid) orelse mret None in
  tid ← reserve_tid;
  '(inserted, threads) ← lift (TStore.insert (new_thread tid pid (kind_of_threads (pr_kind p))) (pr_threads p));
  put_process pid (p <| pr_threads := threads |>);;
  mret (if (inserted : bool) then Some tid else None).

Definition create_kernel_thread : M Kernel (option Z) :=
  ifSome p := gets (fun k => List.find (fun p => negb (is_user (pr_kind p))) (pt_processes (k_table k)))
    orelse mret None in
  let pid := pr_pid p in
  tid ← reserve_tid;
  ifSome p := gets (fun k => find_process k pid) orelse mret None in
  let thread := new_thread tid pid KernelThread <| th_state := TReady |> in
  '(inserted, threads) ← lift (TStore.insert thread (pr_threads p));
  if negb inserted then mret None else
  put_process pid (refresh_state_from_threads (p <| pr_threads := threads |>));;
  mret (Some tid).

Definition set_kernel_thread_state (tid : Z) (state : ThreadState) : M Kernel bool :=
  ifSome p := gets (fun k => find_by_tid k tid) orelse mret false in
  if is_user (pr_kind p) then mret false else
  now ← gets k_ticks;
  let f t :=
    let t := if ThreadState_eqb (th_state t) TRunning && negb (ThreadState_eqb state TRunning)
             then stop_thread_run now t else t in
    let t := if ThreadState_eqb state TRunning then start_thread now t else t in
    t <| th_state := state |> in
  put_by_tid tid (refresh_state_from_threads (upd_thread tid f p));;
  mret true.

(** The register image of a new thread. *)
Definition entry_context (entry rsp arg : Z) : UserResumeContext :=
  EMPTY_CTX <| rc_rip := entry |> <| rc_rsp := rsp |> <| rc_rflags := 0x202 |> <| rc_rdi := arg |>.

Definition create_user_thread (pid entry stack_start stack_top initial_rsp arg : Z) : M Kernel (option Z) :=
  ifSome p := gets (fun k => find_process k pid) orelse mret None in
  if negb (is_user (pr_kind p)) || negb (TStore.stack_range_available (pr_threads p) stack_start stack_top)
  then mret None else
  tid ← reserve_tid;
  let thread := with_user_stack (new_thread tid pid UserThread) stack_start stack_top
                  <| th_state := TReady |> <| th_resume_context := Some (entry_context entry initial_rsp arg) |> in
  '(inserted, threads) ← lift (TStore.insert thread (pr_threads p));
  if negb inserted then mret None else
  put_process pid (refresh_state_from_threads (p <| pr_threads := threads |>));;
  enqueue_ready tid;;
  mret (Some tid).

Definition create_managed_user_thread (pid entry arg : Z) : M Kernel (option Z) :=
  ifSome p := gets (fun k => find_process k pid) orelse mret None in
  if negb (is_user (pr_kind p)) then mret None else
  ifSome p4_frame := mret (as_p4_frame (pr_address_space p)) orelse mret None in
  ifSome range := with_addr (reserve_private_thread_stack p4_frame (stack_top (as_layout (pr_address_space p))))
    orelse mret None in
  let '(stack_start, stack_top) := range in
  ifSome initial_rsp := mret (u64_checked_sub (stack_top - stack_top mod 16) 8) orelse mret None in
  tid ← reserve_tid;
  let thread := with_kernel_managed_stack (with_user_stack (new_thread tid pid UserThread) stack_start stack_top)
                  <| th_state := TReady |> <| th_resume_context := Some (entry_context entry initial_rsp arg) |> in
  '(inserted, threads) ← lift (TStore.insert thread (pr_threads p));
  if negb inserted then with_addr (release_private_thread_stack p4_frame stack_top);; mret None else
  put_process pid (refresh_state_from_threads (p <| pr_threads := threads |>));;
  enqueue_ready tid;;
  mret (Some tid).

(** The threads of [p] blocked on [tid]: made ready, with return value 0. *)
Definition is_waiter (tid : Z) (t : Thread) : bool :=
  ThreadState_eqb (th_state t) TBlocked && bool_decide (th_waiting_for t = Some tid).

Definition wake_waiter (t : Thread) : Thread :=
  t <| th_waiting_for := None |> <| th_state := TReady |>
    <| th_resume_context ::= fmap (fun c => c <| rc_rax := 0 |>) |>.

Fixpoint enqueue_all (tids : list Z) : M Kernel () :=
  match tids with
  | [] => mret ()
  | tid :: tids => enqueue_ready tid;; enqueue_all tids
  end.

Definition mark_thread_exited (tid : Z) : M Kernel (option Z) :=
  ifSome p := gets (fun k => find_by_tid k tid) orelse mret None in
  if tid =? main_tid p then mret None else
  now ← gets k_ticks;
  let p := upd_thread tid (fun t => stop_thread_run now t <| th_state := TExited |>
                             <| th_resume_context := None |> <| th_waiting_for := None |>) p in
  let woken := map th_tid (List.filter (is_waiter tid) (ts_items (pr_threads p))) in
  let p := p <| pr_threads ::= (fun s =>
             s <| ts_items ::= map (fun t => if is_waiter tid t then wake_waiter t else t) |>) |> in
  let '(reaped_stack, p) :=
    match woken with
    | [] => (None, p)
    | _ => take_managed_stack_release tid (upd_thread tid (fun t => t <| th_state := TReaped |>) p)
    end in
  let p := refresh_state_from_threads p in
  put_by_tid tid p;;
  retain_ready (fun queued => negb (queued =? tid));;
  enqueue_all woken;;
  (match reaped_stack with
   | Some (p4_frame, stack_top) => with_addr (release_private_thread_stack p4_frame stack_top);; mret ()
   | None => mret ()
   end);;
  mret (Some (pr_pid p)).

Inductive ThreadJoinStatus :=
  JMissing | JNotSibling | JSelfJoin | JDeadlock | JAlreadyReaped | JCompleted | JBlocked.

Definition join_thread (caller_tid target_tid : Z) (resume_context : UserResumeContext) : M Kernel ThreadJoinStatus :=
  if caller_tid =? target_tid then mret JSelfJoin else
  ifSome caller := gets (fun k => find_by_tid k caller_tid) orelse mret JMissing in
  let caller_pid := pr_pid caller in
  ifSome target_process := gets (fun k => find_by_tid k target_tid) orelse mret JMissing in
  if negb (pr_pid target_process =? caller_pid) then mret JNotSibling else
  target ← expect (TStore.get (pr_threads target_process) target_tid);
  if ThreadState_eqb (th_state target) TReaped then mret JAlreadyReaped else
  if bool_decide (th_waiting_for target = Some caller_tid) then mret JDeadlock else
  p ← k ← get; expect (find_process k caller_pid);
  if ThreadState_eqb (th_state target) TExited then
    expect (TStore.get (pr_threads p) target_tid);;
    let p := upd_thread target_tid (fun t => t <| th_state := TReaped |>) p in
    let '(release, p) := take_managed_stack_release target_tid p in
    put_process caller_pid p;;
    (match release with
     | Some (p4_frame, stack_top) => with_addr (release_private_thread_stack p4_frame stack_top);; mret ()
     | None => mret ()
     end);;
    mret JCompleted
  else
    caller ← expect (TStore.get (pr_threads p) caller_tid);
    if negb (ThreadState_eqb (th_state caller) TRunning) then mret JMissing else
    now ← gets k_ticks;
    let p := upd_thread caller_tid (fun t => stop_thread_run now t <| th_state := TBlocked |>
               <| th_waiting_for := Some target_tid |> <| th_resume_context := Some resume_context |>) p in
    put_process caller_pid (refresh_state_from_threads p);;
    mret JBlocked.

Definition block_thread (tid : Z) (resume_context : UserResumeContext) : M Kernel bool :=
  ifSome p := gets (fun k => find_by_tid k tid) orelse mret false in
  ifSome t := mret (TStore.get (pr_threads p) tid) orelse mret false in
  if negb (ThreadState_eqb (th_state t) TRunning) then mret false else
  now ← gets k_ticks;
  let p := upd_thread tid (fun t => stop_thread_run now t <| th_state := TBlocked |>
             <| th_waiting_for := None |> <| th_resume_context := Some resume_context |>) p in
  put_by_tid tid (refresh_state_from_threads p);;
  mret true.

Definition wake_thread (tid return_value : Z) : M Kernel bool :=
  ifSome p := gets (fun k => find_by_tid k tid) orelse mret false in
  ifSome t := mret (TStore.get (pr_threads p) tid) orelse mret false in
  if negb (ThreadState_eqb (th_state t) TBlocked) then mret false else
  ifSome c := mret (th_resume_context t) orelse mret false in
  let p := upd_thread tid (fun t => t <| th_resume_context := Some (c <| rc_rax := return_value |>) |>
             <| th_waiting_for := None |> <| th_state := TReady |>) p in
  put_by_tid tid (refresh_state_from_threads p);;
  enqueue_ready tid;;
  mret true.

(** *** Process state changes *)

Definition set_credentials (pid : Z) (credentials : ProcessCredentials) : M Kernel bool :=
  ifSome p := gets (fun k => find_process k pid) orelse mret false in
  put_process pid (p <| pr_credentials := credentials |>);; mret true.

Definition set_cwd (pid : Z) (cwd : NormalizedPath) : M Kernel bool :=
  ifSome p := gets (fun k => find_process k pid) orelse mret false in
  put_process pid (p <| pr_cwd := cwd |>);; mret true.

Definition mark_ready (pid : Z) : M Kernel () :=
  ifSome p := gets (fun k => find_process k pid) orelse mret () in
  p ← lift (set_state PReady p);
  put_process pid p;;
  enqueue_ready (main_tid p).

Definition mark_running (pid : Z) : M Kernel () :=
  remove_from_ready_queue pid;; start_process_run pid.

Definition mark_running_fresh (pid : Z) : M Kernel () := start_process_run pid.

Definition mark_exited (pid status : Z) : M Kernel () :=
  remove_from_ready_queue pid;;
  ifSome p := gets (fun k => find_process k pid) orelse mret () in
  p ← stop_process_run p;
  let p := p <| pr_exit_status := Some status |> <| pr_sleeping_until_tick := None |> in
  p ← lift (set_state (if is_some (pr_parent_pid p) then PZombie else PExited) p);
  put_process pid p.

Record TerminalSignalReport := mkTerm {
  ter_pid : Z; ter_name : bytes; ter_signal : Z; ter_status : Z; ter_stopped : bool; ter_parent_woken : bool }.

(** A parent blocked on [pid] is given [status] as return value and made ready. *)
Definition set_main_rax (v : Z) (p : Process) : outcome Process :=
  upd_main (fun t => t <| th_resume_context ::= fmap (fun c => c <| rc_rax := v |>) |>) p.

Definition is_waiting_for (pid : Z) (p : Process) : bool :=
  ProcessState_eqb (pr_state p) PBlocked && bool_decide (pr_waiting_for p = Some pid).

Definition stop_user_process (pid signal : Z) : M Kernel (option TerminalSignalReport) :=
  remove_from_ready_queue pid;;
  ifSome p := gets (fun k => find_process k pid) orelse mret None in
  if negb (is_user (pr_kind p)) || is_dead (pr_state p) || ProcessState_eqb (pr_state p) PStopped
  then mret None else
  p ← stop_process_run p;
  p ← lift (set_state PStopped (p <| pr_sleeping_until_tick := None |>));
  put_process pid p;;
  ifSome status := mret (u64_checked_add 128 signal) orelse panic in
  parent_woken ←
    match pr_parent_pid p with
    | None => mret false
    | Some parent_pid =>
      ifSome parent := gets (fun k => find_process k parent_pid) orelse mret false in
      if negb (is_waiting_for pid parent) then mret false else
      parent ← lift (set_main_rax status (parent <| pr_waiting_for := None |>));
      parent ← lift (set_state PReady parent);
      put_process parent_pid parent;;
      enqueue_ready (main_tid parent);;
      mret true
    end;
  mret (Some (mkTerm pid (pr_name p) signal status true parent_woken)).

Definition continue_user_process (caller_pid pid : Z) : M Kernel bool :=
  ifSome caller := gets (fun k => find_process k caller_pid) orelse mret false in
  ifSome p := gets (fun k => find_process k pid) orelse mret false in
  if negb (cr_uid (pr_credentials caller) =? 0)
     && negb (cr_uid (pr_credentials caller) =? cr_uid (pr_credentials p)) then mret false else
  if negb (ProcessState_eqb (pr_state p) PStopped) then mret false else
  p ← lift (set_state PReady p);
  put_process pid p;;
  enqueue_ready (main_tid p);;
  mret true.

(** *** Signals *)

Record SignalTerminationReport := mkSigRep {
  sr_pid : Z; sr_name : bytes; sr_parent_pid : option Z; sr_job_mode : JobMode; sr_status : Z;
  sr_parent_woken : bool; sr_p4_frame : option Z }.

Inductive SignalTerminationError := SMissing | SPermissionDenied | SKernelTask | SAlreadyExited | SSelfTarget.

Inductive SignalDelivery :=
  | Pending (pid : Z) (name : bytes) (signal pending_signals : Z)
  | Handled (pid : Z) (name : bytes) (signal handler : Z)
  | Ignored (pid : Z) (name : bytes) (signal : Z)
  | Terminated (r : SignalTerminationReport).

(** The guards shared by [terminate_user_process] and [send_signal]; the target. *)
Definition check_signal_target (k : Kernel) (caller_pid target_pid : Z) : result Process SignalTerminationError :=
  if caller_pid =? target_pid then Err SSelfTarget else
  match find_process k caller_pid with
  | None => Err SMissing
  | Some caller =>
    match find_process k target_pid with
    | None => Err SMissing
    | Some target =>
      if negb (is_user (pr_kind target)) then Err SKernelTask
      else if is_dead (pr_state target) then Err SAlreadyExited
      else if negb (cr_uid (pr_credentials caller) =? 0)
              && negb (cr_uid (pr_credentials caller) =? cr_uid (pr_credentials target))
      then Err SPermissionDenied
      else Ok target
    end
  end.

Definition terminate_user_process (caller_pid target_pid status : Z) :
    M Kernel (result SignalTerminationReport SignalTerminationError) :=
  k ← get;
  try target := mret (check_signal_target k caller_pid target_pid) in
  mark_exited target_pid status;;
  parent_woken ←
    match pr_parent_pid target with
    | None => mret false
    | Some parent_pid =>
      k ← get;
      if match find_process k parent_pid with Some parent => is_waiting_for target_pid parent | None => false end
      then
        (ifSome t := gets (fun k => find_process k target_pid) orelse mret () in
         t ← lift (set_state PReaped t); put_process target_pid t);;
        (ifSome parent := gets (fun k => find_process k parent_pid) orelse mret () in
         let tid := main_tid parent in
         parent ← lift (set_main_rax status
           (parent <| pr_waiting_for := None |> <| pr_sleeping_until_tick := None |>));
         parent ← lift (set_state PReady parent);
         put_process parent_pid parent;;
         enqueue_ready tid);;
        mret true
      else mret false
    end;
  mret (Ok (mkSigRep target_pid (pr_name target) (pr_parent_pid target) (pr_job_mode target) status
              parent_woken (as_p4_frame (pr_address_space target)))).

(** The context in which a handler starts. *)
Definition handler_context (original : UserResumeContext) (signal handler : Z) : UserResumeContext :=
  original <| rc_rip := handler |> <| rc_rdi := signal |> <| rc_rax := 0 |>.

Definition activate_signal_handler (pid signal handler : Z) : M Kernel bool :=
  ifSome p := gets (fun k => find_process k pid) orelse mret false in
  let tid := main_tid p in
  ifSome t := mret (TStore.get (pr_threads p) tid) orelse mret false in
  if is_some (th_signal_return_context t) then mret false else
  ifSome original := mret (th_resume_context t) orelse mret false in
  let p := upd_thread tid (fun t => t <| th_signal_return_context := Some original |>
             <| th_resume_context := Some (handler_context original signal handler) |>
             <| th_waiting_for := None |> <| th_state := TReady |>) p in
  put_process pid (refresh_state_from_threads
    (p <| pr_waiting_for := None |> <| pr_sleeping_until_tick := None |>));;
  enqueue_ready tid;;
  mret true.

(** [target.pending_signals |= signal_mask] on the validated target. *)
Definition add_pending (target_pid signal_mask : Z) : M Kernel Z :=
  p ← k ← get; expect (find_process k target_pid);
  let pending := Z.lor (pr_pending_signals p) signal_mask in
  put_process target_pid (p <| pr_pending_signals := pending |>);;
  mret pending.

Definition send_signal (caller_pid target_pid signal : Z) :
    M Kernel (result SignalDelivery SignalTerminationError) :=
  k ← get;
  try target := mret (check_signal_target k caller_pid target_pid) in
  try signal_mask := mret (ok_or (signal_bit signal) SMissing) in
  if negb (Z.land (pr_blocked_signals target) signal_mask =? 0) then
    pending ← add_pending target_pid signal_mask;
    mret (Ok (Pending (pr_pid target) (pr_name target) signal pending))
  else
  let disposition := pr_sigterm_disposition target in
  if disposition =? SIG_IGN then mret (Ok (Ignored (pr_pid target) (pr_name target) signal)) else
  if negb (disposition =? SIG_DFL) then
    handled ← activate_signal_handler target_pid signal disposition;
    if (handled : bool) then mret (Ok (Handled (pr_pid target) (pr_name target) signal disposition)) else
    pending ← add_pending target_pid signal_mask;
    mret (Ok (Pending (pr_pid target) (pr_name target) signal pending))
  else
    try report := terminate_user_process caller_pid target_pid (128 + signal) in
    mret (Ok (Terminated report)).

Definition signal_disposition (k : Kernel) (pid signal : Z) : option Z :=
  p ← find_process k pid; if signal =? SIGTERM then Some (pr_sigterm_disposition p) else None.

Definition set_signal_disposition (pid signal disposition : Z) : M Kernel (option Z) :=
  if negb (signal =? SIGTERM) then mret None else
  ifSome p := gets (fun k => find_process k pid) orelse mret None in
  put_process pid (p <| pr_sigterm_disposition := disposition |>);;
  mret (Some (pr_sigterm_disposition p)).

Definition activate_running_signal_handler (pid tid signal handler : Z) (original : UserResumeContext) :
    M Kernel bool :=
  ifSome p := gets (fun k => find_process k pid) orelse mret false in
  ifSome t := mret (TStore.get (pr_threads p) tid) orelse mret false in
  if negb (ThreadState_eqb (th_state t) TRunning) || is_some (th_signal_return_context t) then mret false else
  now ← gets k_ticks;
  let p := upd_thread tid (fun t => stop_thread_run now t <| th_signal_return_context := Some original |>
             <| th_resume_context := Some (handler_context original signal handler) |>
             <| th_state := TReady |>) p in
  put_process pid (refresh_state_from_threads p);;
  enqueue_ready tid;;
  mret true.

Definition restore_signal_context (pid tid : Z) : M Kernel bool :=
  ifSome p := gets (fun k => find_process k pid) orelse mret false in
  ifSome t := mret (TStore.get (pr_threads p) tid) orelse mret false in
  if negb (ThreadState_eqb (th_state t) TRunning) then mret false else
  ifSome original := mret (th_signal_return_context t) orelse mret false in
  now ← gets k_ticks;
  let p := upd_thread tid (fun t => stop_thread_run now (t <| th_signal_return_context := None |>)
             <| th_resume_context := Some original |> <| th_state := TReady |>) p in
  put_process pid (refresh_state_from_threads p);;
  enqueue_ready tid;;
  mret true.

Inductive SignalMaskHow := Block | Unblock | SetMask.
Record SignalMaskUpdate := mkMaskUpd { mu_old_mask : Z; mu_new_mask : Z; mu_delivered_signal : option Z }.

Definition update_signal_mask (pid : Z) (how : SignalMaskHow) (mask : Z) : M Kernel (option SignalMaskUpdate) :=
  ifSome p := gets (fun k => find_process k pid) orelse mret None in
  if negb (is_user (pr_kind p)) || is_dead (pr_state p) then mret None else
  let old_mask := pr_blocked_signals p in
  let new_mask := match how with
                  | Block => Z.lor old_mask mask
                  | Unblock => Z.land old_mask (u64_not mask)
                  | SetMask => mask
                  end in
  let deliverable := Z.land (pr_pending_signals p) (u64_not new_mask) in
  let delivered_signal := lowest_signal deliverable in
  let pending := match delivered_signal with
                 | Some signal => Z.land (pr_pending_signals p) (u64_not (default 0 (signal_bit signal)))
                 | None => pr_pending_signals p
                 end in
  put_process pid (p <| pr_blocked_signals := new_mask |> <| pr_pending_signals := pending |>);;
  mret (Some (mkMaskUpd old_mask new_mask delivered_signal)).

Definition pending_signals (k : Kernel) (pid : Z) : option Z := pr_pending_signals <$> find_process k pid.

(** *** Process groups and sessions *)

Inductive ProcessGroupError :=
  GMissing | GNotChild | GDifferentSession | GSessionLeader | GGroupMissing | GGroupLeader.

Definition set_process_group (caller_pid target_pid process_group_id : Z) : M Kernel (result Z ProcessGroupError) :=
  k ← get;
  try caller := mret (ok_or (find_process k caller_pid) GMissing) in
  let caller_session := pr_session_id caller in
  try target := mret (ok_or (find_process k target_pid) GMissing) in
  if negb (target_pid =? caller_pid) && negb (bool_decide (pr_parent_pid target = Some caller_pid))
  then mret (Err GNotChild) else
  if negb (pr_session_id target =? caller_session) then mret (Err GDifferentSession) else
  if pr_session_id target =? pr_pid target then mret (Err GSessionLeader) else
  let process_group_id := if process_group_id =? 0 then target_pid else process_group_id in
  if negb (process_group_id =? target_pid)
     && negb (existsb (fun p => (pr_session_id p =? caller_session) && (pr_process_group_id p =? process_group_id))
                (pt_processes (k_table k)))
  then mret (Err GGroupMissing) else
  put_process target_pid (target <| pr_process_group_id := process_group_id |>);;
  mret (Ok process_group_id).

Definition create_session (pid : Z) : M Kernel (result Z ProcessGroupError) :=
  k ← get;
  try p := mret (ok_or (find_process k pid) GMissing) in
  if pr_process_group_id p =? pid then mret (Err GGroupLeader) else
  put_process pid (p <| pr_session_id := pid |> <| pr_process_group_id := pid |>);;
  mret (Ok pid).

(** *** Waiting, sleeping, yielding *)

Definition mark_reaped (pid : Z) : M Kernel bool :=
  remove_from_ready_queue pid;;
  ifSome p := gets (fun k => find_process k pid) orelse mret false in
  p ← stop_process_run p;
  p ← lift (set_state PReaped p);
  let p := p <| pr_exit_status ::= (fun e => Some (default 0 e)) |>
             <| pr_waiting_for := None |> <| pr_sleeping_until_tick := None |> in
  p ← lift (upd_main (fun t => t <| th_resume_context := None |>) p);
  put_process pid p;;
  mret true.

Definition mark_waiting (pid child_pid : Z) (resume_context : UserResumeContext) : M Kernel bool :=
  remove_from_ready_queue pid;;
  ifSome p := gets (fun k => find_process k pid) orelse mret false in
  p ← stop_process_run p;
  p ← lift (upd_main (fun t => t <| th_resume_context := Some resume_context |>)
              (p <| pr_waiting_for := Some child_pid |> <| pr_sleeping_until_tick := None |>));
  p ← lift (set_state PBlocked p);
  put_process pid p;;
  mret true.

Definition mark_sleeping (pid wake_tick : Z) (resume_context : UserResumeContext) : M Kernel bool :=
  remove_from_ready_queue pid;;
  ifSome p := gets (fun k => find_process k pid) orelse mret false in
  if negb (ProcessState_eqb (pr_state p) PRunning) then mret false else
  p ← stop_process_run p;
  p ← lift (upd_main (fun t => t <| th_resume_context := Some resume_context |>)
              (p <| pr_waiting_for := None |> <| pr_sleeping_until_tick := Some wake_tick |>));
  p ← lift (set_state PBlocked p);
  put_process pid p;;
  mret true.

Definition mark_thread_yielded (tid : Z) (resume_context : UserResumeContext) : M Kernel bool :=
  ifSome p := gets (fun k => find_by_tid k tid) orelse mret false in
  ifSome t := mret (TStore.get (pr_threads p) tid) orelse mret false in
  if negb (ThreadState_eqb (th_state t) TRunning) then mret false else
  now ← gets k_ticks;
  let p := upd_thread tid (fun t => stop_thread_run now t <| th_resume_context := Some resume_context |>
             <| th_state := TReady |>) p in
  put_by_tid tid (refresh_state_from_threads (p <| pr_sleeping_until_tick := None |>));;
  enqueue_ready tid;;
  mret true.

Definition mark_yielded (pid : Z) (resume_context : UserResumeContext) : M Kernel bool :=
  ifSome p := gets (fun k => find_process k pid) orelse mret false in
  mark_thread_yielded (main_tid p) resume_context.

(** *** Reaping *)

Definition is_reapable (s : ProcessState) : bool := match s with PExited | PZombie => true | _ => false end.

Definition reap_child (parent_pid child_pid : Z) : M Kernel (option (Z * bytes * Z)) :=
  ifSome p := gets (fun k => find_process k child_pid) orelse mret None in
  if negb (bool_decide (pr_parent_pid p = Some parent_pid)) then mret None else
  if negb (is_reapable (pr_state p)) then mret None else
  p ← lift (set_state PReaped p);
  put_process child_pid p;;
  let result := (pr_pid p, pr_name p, default 0 (pr_exit_status p)) in
  (ifSome parent := gets (fun k => find_process k parent_pid) orelse mret () in
   if bool_decide (pr_waiting_for parent = Some child_pid) then
     parent ← lift (upd_main (fun t => t <| th_resume_context := None |>) (parent <| pr_waiting_for := None |>));
     put_process parent_pid parent
   else mret ());;
  mret (Some result).

Inductive WaitTargetStatus :=
  | WMissing | WNotChild (actual_parent : option Z) | WNotExited (state : ProcessState) | WReapable.

Definition wait_target_status (k : Kernel) (parent_pid child_pid : Z) : WaitTargetStatus :=
  match find_process k child_pid with
  | None => WMissing
  | Some p =>
    if negb (bool_decide (pr_parent_pid p = Some parent_pid)) then WNotChild (pr_parent_pid p)
    else if negb (is_reapable (pr_state p)) then WNotExited (pr_state p)
    else WReapable
  end.

Record WaitResume := mkWaitResume {
  wre_parent_pid : Z; wre_child_pid : Z; wre_child_name : bytes; wre_status : Z;
  wre_resume_context : UserResumeContext; wre_p4_frame : option Z }.

Definition resume_waiting_parent (parent_pid child_pid : Z) : M Kernel (option WaitResume) :=
  ifSome child := gets (fun k => find_process k child_pid) orelse mret None in
  if negb (bool_decide (pr_parent_pid child = Some parent_pid)) then mret None else
  if negb (is_reapable (pr_state child)) then mret None else
  let status := default 0 (pr_exit_status child) in
  ifSome parent := gets (fun k => find_process k parent_pid) orelse mret None in
  if negb (is_waiting_for child_pid parent) then mret None else
  m ← lift (TStore.main (pr_threads parent));
  ifSome resume_context := mret (th_resume_context m) orelse mret None in
  child' ← lift (set_state PReaped child);
  put_process child_pid child';;
  (ifSome parent := gets (fun k => find_process k parent_pid) orelse mret () in
   parent ← lift (upd_main (fun t => t <| th_resume_context := None |>)
     (parent <| pr_waiting_for := None |> <| pr_sleeping_until_tick := None |>));
   put_process parent_pid parent);;
  start_process_run parent_pid;;
  mret (Some (mkWaitResume parent_pid child_pid (pr_name child) status resume_context
                (as_p4_frame (pr_address_space parent)))).

(** [for pid in pids { if let Some(process) = get_mut(pid) { set_state(Reaped); reaped += 1; } }] *)
Fixpoint reap_all (pids : list Z) (reaped : nat) : M Kernel nat :=
  match pids with
  | [] => mret reaped
  | pid :: pids =>
    ifSome p := gets (fun k => find_process k pid) orelse reap_all pids reaped in
    p ← lift (set_state PReaped p);
    put_process pid p;;
    reap_all pids (S reaped)
  end.

Definition should_init_reap (k : Kernel) (parent_pid : option Z) : bool :=
  match parent_pid with
  | None => false
  | Some parent_pid =>
    match find_process k parent_pid with Some parent => is_dead (pr_state parent) | None => true end
  end.

Definition pids_where (q : Process -> bool) (k : Kernel) : list Z :=
  map pr_pid (List.filter q (pt_processes (k_table k))).

Definition is_zombie (p : Process) : bool := ProcessState_eqb (pr_state p) PZombie.

Definition reap_orphan_zombies : M Kernel nat :=
  k ← get;
  reap_all (pids_where (fun p => is_zombie p && should_init_reap k (pr_parent_pid p)) k) 0.

Definition reap_unwaited_zombies : M Kernel nat :=
  k ← get;
  reap_all (pids_where (fun p => is_zombie p && bool_decide (pr_job_mode p = Background)) k) 0.

Fixpoint wake_all (pids : list Z) (woken : nat) : M Kernel nat :=
  match pids with
  | [] => mret woken
  | pid :: pids =>
    ifSome p := gets (fun k => find_process k pid) orelse wake_all pids woken in
    p ← lift (set_state PReady (p <| pr_sleeping_until_tick := None |>));
    put_process pid p;;
    enqueue_ready (main_tid p);;
    wake_all pids (S woken)
  end.

Definition is_due (now_tick : Z) (p : Process) : bool :=
  ProcessState_eqb (pr_state p) PBlocked
  && match pr_sleeping_until_tick p with Some wake_tick => wake_tick <=? now_tick | None => false end.

Definition wake_sleeping_processes (now_tick : Z) : M Kernel nat :=
  k ← get; wake_all (pids_where (is_due now_tick) k) 0.

(** [ProcessStore::remove] *)
Definition store_remove (pid : Z) (l : list Process) : list Process :=
  match position (fun p => pr_pid p =? pid) l with Some i => delete i l | None => l end.

Fixpoint remove_all (pids : list Z) : M Kernel () :=
  match pids with
  | [] => mret ()
  | pid :: pids =>
    remove_from_ready_queue pid;;
    mod_table (fun t => t <| pt_processes ::= store_remove pid |>);;
    remove_all pids
  end.

Definition compact_reaped_history (keep : nat) : M Kernel nat :=
  k ← get;
  let reaped_pids := pids_where (fun p => ProcessState_eqb (pr_state p) PReaped) k in
  let remove_count := (length reaped_pids - keep)%nat in
  remove_all (take remove_count reaped_pids);;
  mret remove_count.

(** *** Scheduling *)

Definition skip_ready : M Kernel () :=
  mod_table (fun t => t <| pt_ready_queue_skips ::= (fun n => u64_saturating_add n 1) |>).

(** [ready_queue.remove(0)] *)
Definition pop_ready : M Kernel () := mod_table (fun t => t <| pt_ready_queue ::= tail |>).

(** [process.threads.get(tid).is_none_or(|t| t.state != Ready)] is false *)
Definition ready_thread (tid : Z) (p : Process) : bool :=
  match TStore.get (pr_threads p) tid with
  | Some t => ThreadState_eqb (th_state t) TReady
  | None => false
  end.

(** Put the thread on the processor: the end of both scheduling loops. *)
Definition run_thread (tid : Z) (p : Process) : M Kernel () :=
  now ← gets k_ticks;
  put_by_tid tid (refresh_state_from_threads
    (upd_thread tid (fun t => start_thread now (t <| th_state := TRunning |>)) p));;
  count_context_switch.

(** [while !self.ready_queue.is_empty()]: every round pops, so the queue
    length bounds the rounds. *)
Fixpoint dequeue_ready_loop (fuel : nat) : M Kernel (option Z) :=
  match fuel with
  | O => mret None
  | S fuel =>
    k ← get;
    match pt_ready_queue (k_table k) with
    | [] => mret None
    | tid :: _ =>
      pop_ready;;
      ifSome p := mret (find_by_tid k tid) orelse (skip_ready;; dequeue_ready_loop fuel) in
      if negb (ready_thread tid p) then skip_ready;; dequeue_ready_loop fuel else
      run_thread tid p;;
      mret (Some (pr_pid p))
    end
  end.

Definition dequeue_ready : M Kernel (option Z) :=
  k ← get; dequeue_ready_loop (length (pt_ready_queue (k_table k))).

Record ScheduledUserResume := mkSched {
  sc_pid : Z; sc_tid : Z; sc_name : bytes; sc_resume_context : UserResumeContext; sc_p4_frame : option Z }.

Fixpoint schedule_loop (fuel : nat) : M Kernel (option ScheduledUserResume) :=
  match fuel with
  | O => mret None
  | S fuel =>
    k ← get;
    match pt_ready_queue (k_table k) with
    | [] => mret None
    | tid :: _ =>
      pop_ready;;
      ifSome p := mret (find_by_tid k tid) orelse (skip_ready;; schedule_loop fuel) in
      if negb (ready_thread tid p) then skip_ready;; schedule_loop fuel else
      ifSome resume_context := mret (t ← TStore.get (pr_threads p) tid; th_resume_context t)
        orelse (skip_ready;; schedule_loop fuel) in
      run_thread tid (upd_thread tid (fun t => t <| th_resume_context := None |>) p);;
      mret (Some (mkSched (pr_pid p) tid (pr_name p) resume_context (as_p4_frame (pr_address_space p))))
    end
  end.

Definition schedule_next_ready_user : M Kernel (option ScheduledUserResume) :=
  k ← get; schedule_loop (length (pt_ready_queue (k_table k))).

Definition has_ready_thread_except (k : Kernel) (current_tid : Z) : bool :=
  existsb (fun queued => negb (queued =? current_tid) &&
             match find_by_tid k queued with Some p => ready_thread queued p | None => false end)
          (pt_ready_queue (k_table k)).

Definition has_ready_process_except (k : Kernel) (pid : Z) : bool :=
  has_ready_thread_except k (match find_process k pid with Some p => main_tid p | None => pid end).

Definition preempt_running_thread (tid : Z) (resume_context : UserResumeContext) :
    M Kernel (option ScheduledUserResume) :=
  k ← get;
  if negb (has_ready_thread_except k tid) then mret None else
  yielded ← mark_thread_yielded tid resume_context;
  if negb yielded then mret None else schedule_next_ready_user.

Definition preempt_running_user (pid : Z) (resume_context : UserResumeContext) :
    M Kernel (option ScheduledUserResume) :=
  ifSome p := gets (fun k => find_process k pid) orelse mret None in
  preempt_running_thread (main_tid p) resume_context.

Definition record_thread_yield (tid : Z) : M Kernel bool :=
  ifSome p := gets (fun k => find_by_tid k tid) orelse mret false in
  match TStore.get (pr_threads p) tid with
  | Some t => if ThreadState_eqb (th_state t) TRunning then count_context_switch;; mret true else mret false
  | None => mret false
  end.

Definition record_user_yield (pid : Z) : M Kernel bool :=
  ifSome p := gets (fun k => find_process k pid) orelse mret false in record_thread_yield (main_tid p).

Definition ready_queue_position (k : Kernel) (pid : Z) : option nat :=
  p ← find_process k pid;
  S <$> position (fun queued => queued =? main_tid p) (pt_ready_queue (k_table k)).

Definition has_active_user_session (k : Kernel) : bool :=
  existsb (fun p => is_user (pr_kind p) && negb (is_dead (pr_state p))) (pt_processes (k_table k)).

Definition mark_isolated (pid : Z) : M Kernel () :=
  ifSome p := gets (fun k => find_process k pid) orelse mret () in
  put_process pid (p <| pr_address_space ::= Space.promoted_isolated_user |>).

Definition p4_frame_for (k : Kernel) (pid : Z) : option Z :=
  p ← find_process k pid; as_p4_frame (pr_address_space p).

Definition runtime_ticks_snapshot (p : Process) (now : Z) : outcome Z :=
  m ← TStore.main (pr_threads p);
  let active_elapsed := match pr_state p, th_last_started_tick m with
                        | PRunning, Some started_at => saturating_sub now started_at
                        | _, _ => 0
                        end in
  mret (u64_saturating_add (th_runtime_ticks m) active_elapsed).

Definition credentials_for (k : Kernel) (pid : Z) : option ProcessCredentials := pr_credentials <$> find_process k pid.
Definition process_group_id (k : Kernel) (pid : Z) : option Z := pr_process_group_id <$> find_process k pid.
Definition session_id (k : Kernel) (pid : Z) : option Z := pr_session_id <$> find_process k pid.
Definition cwd_for (k : Kernel) (pid : Z) : option NormalizedPath := pr_cwd <$> find_process k pid.
Definition contains_pid (k : Kernel) (pid : Z) : bool := is_some (find_process k pid).

Definition thread (k : Kernel) (tid : Z) : option Thread :=
  p ← find_by_tid k tid; TStore.get (pr_threads p) tid.

Definition kernel_thread_state (k : Kernel) (tid : Z) : option ThreadState :=
  p ← find_by_tid k tid;
  if is_user (pr_kind p) then None else th_state <$> TStore.get (pr_threads p) tid.

Definition kernel_thread_runtime_ticks (k : Kernel) (tid : Z) : option Z :=
  p ← find_by_tid k tid;
  if is_user (pr_kind p) then None else th_runtime_ticks <$> TStore.get (pr_threads p) tid.

Definition find_by_entry (k : Kernel) (entry_point : Z) : option Z :=
  pr_pid <$> List.find (fun p => as_entry_point (pr_address_space p) =? entry_point) (pt_processes (k_table k)).

Record ProcessStats := mkStats {
  st_process_count : nat; st_kernel_task_count : nat; st_user_process_count : nat; st_ready_user_count : nat;
  st_running_user_count : nat; st_blocked_user_count : nat; st_foreground_user_count : nat;
  st_background_user_count : nat; st_ready_count : nat; st_ready_queue_count : nat; st_running_count : nat;
  st_exited_count : nat; st_next_pid : Z; st_user_context_switches : Z; st_ready_queue_skips : Z;
  st_timer_preempt_checks : Z; st_timer_preempt_requests : Z; st_timer_preempt_yields : Z;
  st_timer_preempt_pending : bool; st_thread_count : nat }.

(** [values().filter(q).count()] *)
Definition count_where (q : Process -> bool) (k : Kernel) : nat := length (List.filter q (pt_processes (k_table k))).

Definition stats (k : Kernel) : ProcessStats :=
  let user q := count_where (fun p => is_user (pr_kind p) && q p) k in
  let in_state s p := ProcessState_eqb (pr_state p) s in
  let mode m p := bool_decide (pr_job_mode p = m) in
  mkStats (length (pt_processes (k_table k)))
    (count_where (fun p => negb (is_user (pr_kind p))) k) (user (fun _ => true))
    (user (in_state PReady)) (user (in_state PRunning)) (user (in_state PBlocked))
    (user (mode Foreground)) (user (mode Background))
    (count_where (in_state PReady) k) (length (pt_ready_queue (k_table k)))
    (count_where (in_state PRunning) k) (count_where (fun p => is_dead (pr_state p)) k)
    (pt_next_pid (k_table k)) (pt_user_context_switches (k_table k)) (pt_ready_queue_skips (k_table k))
    (k_preempt_checks k) (k_preempt_requests k) (k_preempt_yields k) (k_preempt_pending k)
    (sum_list (map (fun p => TStore.len (pr_threads p)) (pt_processes (k_table k)))).

End Table.
