(* ===== verification/TableSafety.v ===== *)
(** * The process table keeps its structure

    A process table is well formed when process ids and thread ids are unique
    and were handed out by the table's counters, every process has its main
    thread and owns all its threads, and no thread is queued twice.  Every
    method of [ProcessTable] keeps that and never panics as long as the id
    and event counters have room (C3).

    Most methods change no process identity: they keep the list of [Shape]s.
    [safe] is the triple for such code; the tactic [go] applies its rules. *)

From S2P Require Import Prelude Utf8 Paths Vfs Ring3 Elf AddrSpace AddrSpaceProofs Threads Program Ipc Process.

(** What most methods never touch in a process. *)
Record Info := mkInfo {
  in_cwd : NormalizedPath; in_credentials : ProcessCredentials; in_arg : UserProgramArg;
  in_layout : UserMemoryLayout; in_p4_frame : option Z }.

Definition info (p : Process) : Info :=
  mkInfo (pr_cwd p) (pr_credentials p) (pr_arg p) (as_layout (pr_address_space p)) (as_p4_frame (pr_address_space p)).

(** User addresses end here. *)
Definition USER_END : Z := 2 ^ 47.
Definition stack_ok (t : Thread) : bool := match th_user_stack_top t with Some top => top <=? USER_END | None => true end.

(** What identifies a process: its pid, its main thread, its threads with their
    owner and whether their stacks are in user space. *)
Record Shape := mkShape { sh_pid : Z; sh_main : Z; sh_threads : list (Z * Z * bool); sh_info : Info }.

Definition thread_shape (t : Thread) : Z * Z * bool := (th_tid t, th_process_id t, stack_ok t).
Definition shape (p : Process) : Shape :=
  mkShape (pr_pid p) (main_tid p) (map thread_shape (ts_items (pr_threads p))) (info p).
Definition sh_tids (s : Shape) : list Z := map (fun t => t.1.1) (sh_threads s).

Record shape_wf (s : Shape) : Prop := {
  shw_main : sh_main s ∈ sh_tids s;
  shw_owner : Forall (fun t => t.1.2 = sh_pid s) (sh_threads s);
  shw_stacks : Forall (fun t => t.2 = true) (sh_threads s);
  shw_count : (length (sh_threads s) <= MAX_THREADS_PER_PROCESS)%nat;
}.

Record shapes_wf (Sh : list Shape) (next_pid next_tid : Z) : Prop := {
  sw_pids : NoDup (map sh_pid Sh);
  sw_tids : NoDup (concat (map sh_tids Sh));
  sw_each : forall s, s ∈ Sh -> shape_wf s;
  sw_pid_range : forall s, s ∈ Sh -> 0 <= sh_pid s < next_pid;
  sw_tid_range : forall t, t ∈ concat (map sh_tids Sh) -> 0 < t < next_tid;
}.

Definition shapes (t : ProcessTable) : list Shape := map shape (pt_processes t).

Record table_inv (Sh : list Shape) (t : ProcessTable) : Prop := {
  ti_shapes : shapes t = Sh;
  ti_wf : shapes_wf Sh (pt_next_pid t) (pt_next_tid t);
  ti_queue : NoDup (pt_ready_queue t);
  ti_counters : 1 <= pt_next_pid t <= u32_max /\ 1 <= pt_next_tid t <= u32_max /\
                0 <= pt_user_context_switches t <= u64_max;
}.

Definition inv (Sh : list Shape) (k : Kernel) : Prop :=
  table_inv Sh (k_table k) /\ pool_wf (ad_pool (k_addr k)).

Definition kernel_wf (k : Kernel) : Prop := inv (shapes (k_table k)) k.

Definition switches (k : Kernel) : Z := pt_user_context_switches (k_table k).

(** What the methods of the table leave alone outside it: the frames of the
    prepared page tables, memory, and the statics of the other modules. *)
Definition frozen (k : Kernel) : IpcState * ProgramState * Z * option Z * option Z * (option Z * Z * list (Z * list Z * nat * list (list Z))) :=
  (k_ipc k, k_programs k, k_ticks k, k_current_process k, k_current_thread k, addr_frozen (k_addr k)).
Definition same_rest (k k' : Kernel) : Prop := frozen k' = frozen k /\ ad_mem (k_addr k') = ad_mem (k_addr k).

#[export] Instance same_rest_preorder : PreOrder same_rest.
Proof. split; [by intros k|]. intros k1 k2 k3 [? ?] [? ?]. split; congruence. Qed.

(** ** Shapes *)

Lemma tids_shape p : sh_tids (shape p) = map th_tid (ts_items (pr_threads p)).
Proof. unfold sh_tids, shape. simpl. by rewrite map_map. Qed.

Lemma has_tid_shape tid p : has_tid tid p = true <-> tid ∈ sh_tids (shape p).
Proof.
  rewrite tids_shape. unfold has_tid, TStore.get. destruct (List.find _ _) as [t|] eqn:E; simpl.
  - apply find_Some in E as [Ht Hk%Z.eqb_eq]. split; [|done]. intros _. apply elem_of_map. eauto.
  - split; [done|]. intros (t & -> & Ht)%elem_of_map. rewrite find_key_None in E. by destruct (E t Ht).
Qed.

Section shapes_facts.
Context (Sh : list Shape) (np nt : Z) (Hwf : shapes_wf Sh np nt).

Lemma shape_pid_unique s s' : s ∈ Sh -> s' ∈ Sh -> sh_pid s = sh_pid s' -> s = s'.
Proof. apply NoDup_map_inj, Hwf. Qed.

Lemma shape_tid_in s t : s ∈ Sh -> t ∈ sh_tids s -> t ∈ concat (map sh_tids Sh).
Proof.
  intros Hs Ht. apply list_elem_of_In, in_concat. exists (sh_tids s).
  split; [by apply in_map, list_elem_of_In|by apply list_elem_of_In].
Qed.
End shapes_facts.

Lemma concat_tid_unique (l : list Shape) s s' t :
  NoDup (concat (map sh_tids l)) -> s ∈ l -> s' ∈ l -> t ∈ sh_tids s -> t ∈ sh_tids s' -> s = s'.
Proof.
  induction l as [|x l IH]; [set_solver|]. simpl. intros (Hx & Hd & Hl)%NoDup_app Hs Hs' Ht Ht'.
  apply elem_of_cons in Hs as [->|Hs], Hs' as [->|Hs']; [done|..|by apply IH].
  - destruct (Hd t Ht). by eapply shape_tid_in.
  - destruct (Hd t Ht'). by eapply shape_tid_in.
Qed.

Lemma map_find_upd_in {A B} (g : A -> B) q (upd : A -> A) (l : list A) :
  (forall x, x ∈ l -> q x = true -> g (upd x) = g x) -> map g (find_upd q upd l) = map g l.
Proof.
  intros Hg. induction l as [|x l IH]; simpl; [done|]. destruct (q x) eqn:E; simpl.
  - rewrite Hg by (done || apply list_elem_of_here). done.
  - rewrite IH; [done|]. intros y Hy. apply Hg. by apply elem_of_cons; right.
Qed.

(** A process of the table, with what is known of its identity. *)
Definition of_shape (Sh : list Shape) (P : Shape -> Prop) (p : Process) : Prop := shape p ∈ Sh /\ P (shape p).
Definition by_pid (pid : Z) (s : Shape) : Prop := sh_pid s = pid.
Definition by_tid (tid : Z) (s : Shape) : Prop := tid ∈ sh_tids s.

Lemma shapes_elem t p : p ∈ pt_processes t -> shape p ∈ shapes t.
Proof. intros H. apply elem_of_map. eauto. Qed.

Lemma find_process_of Sh k pid p : inv Sh k -> find_process k pid = Some p -> of_shape Sh (by_pid pid) p.
Proof.
  intros [[<- _ _ _] _] [Hp Hk%Z.eqb_eq]%find_Some. split; [by apply shapes_elem|done].
Qed.

Lemma find_by_tid_of Sh k tid p : inv Sh k -> find_by_tid k tid = Some p -> of_shape Sh (by_tid tid) p.
Proof.
  intros [[<- _ _ _] _] [Hp Hk]%find_Some. split; [by apply shapes_elem|]. by apply has_tid_shape.
Qed.

Lemma find_process_ex Sh k s : inv Sh k -> s ∈ Sh -> exists p, find_process k (sh_pid s) = Some p /\ shape p = s.
Proof.
  intros Hi Hs. pose proof Hi as [[<- Hwf _ _] _]. apply elem_of_map in Hs as (p & -> & Hp).
  destruct (find_process k (sh_pid (shape p))) as [q|] eqn:E.
  - exists q. split; [done|]. destruct (find_process_of _ k _ _ Hi E) as [H1 H2].
    eapply shape_pid_unique; [done|done|by apply shapes_elem|done].
  - unfold find_process in E. rewrite find_key_None in E. by destruct (E p Hp).
Qed.

(** ** Steps that keep the shapes *)

(** From a well-formed table with room for [n] context switches, [m] does not
    panic, keeps every identity, counts at most [n] switches, returns something
    [Q] holds of and leaves everything else alone. *)
Definition safe {A} (Sh : list Shape) (n : nat) (m : M Kernel A) (Q : A -> Prop) : Prop :=
  forall k, inv Sh k -> switches k + Z.of_nat n <= u64_max ->
    wp m (fun a k' => inv Sh k' /\ switches k' <= switches k + Z.of_nat n /\ Q a /\ same_rest k k') k.

Definition any {A} (a : A) : Prop := True.

Section rules.
Context (Sh : list Shape).

Lemma safe_mono {A} n n' (m : M Kernel A) (Q R : A -> Prop) :
  (n <= n')%nat -> (forall a, Q a -> R a) -> safe Sh n m Q -> safe Sh n' m R.
Proof.
  intros Hn HQ Hm k Hi Hk. eapply wp_mono; [apply Hm; [done|lia]|]. intros a k' (? & ? & ? & ?).
  split_and!; [done|lia|auto|done].
Qed.

Lemma safe_ret {A} n (a : A) (Q : A -> Prop) : Q a -> safe Sh n (mret a) Q.
Proof. intros Ha k Hi _. apply wp_ret. split_and!; [done|lia|done|done]. Qed.

Lemma safe_seq {A B} n n' (m : M Kernel A) (f : A -> M Kernel B) Q R :
  safe Sh n m Q -> (forall a, Q a -> safe Sh n' (f a) R) -> safe Sh (n + n') (m ≫= f) R.
Proof.
  intros Hm Hf k Hi Hn. apply wp_bind. eapply wp_mono; [apply Hm; [done|lia]|]. intros a k1 (? & ? & ? & ?).
  eapply wp_mono; [apply Hf; [done|done|lia]|]. intros b k2 (? & ? & ? & ?). split_and!; [done|lia|done|by etrans].
Qed.

Lemma safe_bind {A B} n (m : M Kernel A) (f : A -> M Kernel B) Q R :
  safe Sh 0 m Q -> (forall a, Q a -> safe Sh n (f a) R) -> safe Sh n (m ≫= f) R.
Proof. intros. change n with (0 + n)%nat. by eapply safe_seq. Qed.

Lemma safe_bind_last {A B} n (m : M Kernel A) (f : A -> M Kernel B) Q R :
  safe Sh n m Q -> (forall a, Q a -> safe Sh 0 (f a) R) -> safe Sh n (m ≫= f) R.
Proof. intros. rewrite <-(Nat.add_0_r n). by eapply safe_seq. Qed.

Lemma safe_get {A} n (f : Kernel -> M Kernel A) R :
  (forall k, inv Sh k -> safe Sh n (f k) R) -> safe Sh n (get ≫= f) R.
Proof. intros H k Hi Hn. apply (H k Hi k Hi Hn). Qed.

Lemma safe_gets {A B} n (g : Kernel -> A) (f : A -> M Kernel B) R :
  (forall k, inv Sh k -> safe Sh n (f (g k)) R) -> safe Sh n (gets g ≫= f) R.
Proof. intros H k Hi Hn. apply (H k Hi k Hi Hn). Qed.

Lemma safe_find {A} n pid (f : option Process -> M Kernel A) R :
  (forall p, of_shape Sh (by_pid pid) p -> safe Sh n (f (Some p)) R) -> safe Sh n (f None) R ->
  safe Sh n (gets (fun k => find_process k pid) ≫= f) R.
Proof.
  intros H1 H2. apply safe_gets. intros k Hi. destruct (find_process k pid) as [p|] eqn:E; [|done].
  apply H1. by apply (find_process_of Sh k).
Qed.

Lemma safe_find_tid {A} n tid (f : option Process -> M Kernel A) R :
  (forall p, of_shape Sh (by_tid tid) p -> safe Sh n (f (Some p)) R) -> safe Sh n (f None) R ->
  safe Sh n (gets (fun k => find_by_tid k tid) ≫= f) R.
Proof.
  intros H1 H2. apply safe_gets. intros k Hi. destruct (find_by_tid k tid) as [p|] eqn:E; [|done].
  apply H1. by apply (find_by_tid_of Sh k).
Qed.

Lemma safe_modify n upd :
  (forall k, k_table (upd k) = k_table k /\ k_addr (upd k) = k_addr k /\ frozen (upd k) = frozen k) ->
  safe Sh n (modify upd) any.
Proof.
  intros H k [Hi1 Hi2] Hn. destruct (H k) as (H1 & H2 & H3). unfold wp, modify, inv, switches, same_rest. rewrite H1, H2.
  split_and!; [done|done|lia|done|done|done].
Qed.

Lemma safe_mod_table n upd :
  (forall t, table_inv Sh t -> table_inv Sh (upd t) /\ pt_user_context_switches (upd t) = pt_user_context_switches t) ->
  safe Sh n (mod_table upd) any.
Proof.
  intros H k [Hi1 Hi2] Hn. destruct (H (k_table k) Hi1) as [H1 H2]. unfold wp, mod_table, modify, switches.
  split_and!; [by split| |done|done]. simpl. rewrite H2. unfold switches in *. lia.
Qed.

Lemma safe_put pid p : of_shape Sh (by_pid pid) p -> safe Sh 0 (put_process pid p) any.
Proof.
  intros [Hp Hid]. apply safe_mod_table. intros t [Hs Hwf Hq Hc]. split; [|done].
  constructor; [|done..]. rewrite <-Hs. unfold shapes. simpl. apply map_find_upd_in.
  intros x Hx Hk%Z.eqb_eq. eapply shape_pid_unique; [done|done| |by rewrite Hid].
  rewrite <-Hs. by apply shapes_elem.
Qed.

Lemma safe_put_tid tid p : of_shape Sh (by_tid tid) p -> safe Sh 0 (put_by_tid tid p) any.
Proof.
  intros [Hp Hid]. apply safe_mod_table. intros t [Hs Hwf Hq Hc]. split; [|done].
  constructor; [|done..]. rewrite <-Hs. unfold shapes. simpl. apply map_find_upd_in.
  intros x Hx Hk%has_tid_shape. eapply concat_tid_unique; [apply Hwf|done| |done|done].
  rewrite <-Hs. by apply shapes_elem.
Qed.

Lemma safe_queue upd :
  (forall q, NoDup q -> NoDup (upd q)) -> safe Sh 0 (mod_table (fun t => t <| pt_ready_queue ::= upd |>)) any.
Proof. intros H. apply safe_mod_table. intros t [Hs Hwf Hq Hc]. split; [|done]. constructor; [done|done|by apply H|done]. Qed.

Lemma safe_enqueue tid : safe Sh 0 (Table.enqueue_ready tid) any.
Proof.
  apply safe_mod_table. intros t [Hs Hwf Hq Hc]. destruct (existsb (Z.eqb tid) (pt_ready_queue t)) eqn:E; [done|].
  split; [|done]. constructor; [done..| |done]. simpl. apply NoDup_app. split; [done|].
  split; [|apply NoDup_singleton]. rewrite existsb_false in E. intros x Hx ->%list_elem_of_singleton.
  specialize (E tid Hx). by rewrite Z.eqb_refl in E.
Qed.

Lemma safe_retain keep : safe Sh 0 (Table.retain_ready keep) any.
Proof. apply safe_queue. intros q. apply NoDup_filter_bool. Qed.

Lemma safe_count : safe Sh 1 Table.count_context_switch any.
Proof.
  intros k [[H1 H2 H3 H4] H5] Hn. unfold Table.count_context_switch, wp, u64_incr, u64_checked_add, checked_add_to. run.
  unfold switches in *. destruct (Z.leb_spec (pt_user_context_switches (k_table k) + 1) u64_max); [|lia].
  simpl. split; [split; [|done]|split; [lia|done]]. constructor; try done. simpl. lia.
Qed.

Lemma safe_addr {A} (m : M AddrState A) :
  (forall s, pool_wf (ad_pool s) ->
     wp m (fun _ s' => pool_wf (ad_pool s') /\ addr_frozen s' = addr_frozen s /\ ad_mem s' = ad_mem s) s) ->
  safe Sh 0 (with_addr m) any.
Proof.
  intros Hm k [H1 H2] Hn. specialize (Hm (k_addr k) H2). unfold with_addr, wp in *.
  destruct (m (k_addr k)) as [[a s]|]; [|done]. destruct Hm as (Hp & Hf & Hm).
  split_and!; [by split|unfold switches; simpl; lia|done|]. split; [|done]. unfold frozen. simpl. by rewrite Hf.
Qed.

End rules.

(** ** Updates of a process that keep its shape *)

Lemma shape_upd_thread tid upd p :
  (forall t, thread_shape (upd t) = thread_shape t) -> shape (upd_thread tid upd p) = shape p.
Proof. intros Hu. unfold shape, main_tid. simpl. f_equal. apply map_find_upd. intros t _. apply Hu. Qed.

(** A stack that is taken away leaves a thread with the same shape. *)
Lemma shape_clear_stack tid upd p : Forall (fun t => t.2 = true) (sh_threads (shape p)) ->
  (forall t, thread_shape (upd t) = (th_tid t, th_process_id t, true)) -> shape (upd_thread tid upd p) = shape p.
Proof.
  intros Hs Hu. rewrite Forall_forall in Hs. unfold shape, main_tid. simpl. f_equal. apply map_find_upd_in. intros t Ht _.
  rewrite Hu. assert (stack_ok t = true) as E; [|unfold thread_shape; by rewrite E]. apply (Hs (thread_shape t)), elem_of_map. eauto.
Qed.

Section of_shape.
Context (Sh : list Shape) (P : Shape -> Prop).

Lemma of_eq p p' : shape p' = shape p -> of_shape Sh P p -> of_shape Sh P p'.
Proof. unfold of_shape. by intros ->. Qed.

Lemma of_upd_thread tid upd p :
  (forall t, thread_shape (upd t) = thread_shape t) -> of_shape Sh P p -> of_shape Sh P (upd_thread tid upd p).
Proof. intros Hu. apply of_eq. by apply shape_upd_thread. Qed.

Lemma of_map_threads upd p :
  (forall t, thread_shape (upd t) = thread_shape t) -> of_shape Sh P p ->
  of_shape Sh P (p <| pr_threads ::= (fun s => s <| ts_items ::= map upd |>) |>).
Proof.
  intros Hu. apply of_eq. unfold shape, main_tid. simpl. f_equal. rewrite map_map. apply map_ext. apply Hu.
Qed.

Lemma of_refresh p : of_shape Sh P p -> of_shape Sh P (refresh_state_from_threads p).
Proof. apply of_eq. unfold refresh_state_from_threads. by destruct (is_dead (pr_state p)). Qed.

Lemma of_release np nt tid p r p' : shapes_wf Sh np nt ->
  take_managed_stack_release tid p = (r, p') -> of_shape Sh P p -> of_shape Sh P p'.
Proof.
  intros Hwf E Hp. revert E. unfold take_managed_stack_release. repeat (case_match; try (by intros [= <- <-])).
  intros [= <- <-]. pose proof Hp as [Hin _]. revert Hp. apply of_eq, shape_clear_stack; [|done].
  apply (shw_stacks _ (sw_each _ _ _ Hwf _ Hin)).
Qed.

(** The main thread is there. *)
Lemma main_ok np nt p :
  shapes_wf Sh np nt -> of_shape Sh P p -> exists t, TStore.get (pr_threads p) (main_tid p) = Some t.
Proof.
  intros Hwf [Hin _]. pose proof (shw_main _ (sw_each _ _ _ Hwf _ Hin)) as Hm.
  apply has_tid_shape in Hm. unfold has_tid in Hm. simpl in Hm.
  destruct (TStore.get (pr_threads p) (main_tid p)); [eauto|done].
Qed.

Lemma upd_main_ok np nt upd p :
  shapes_wf Sh np nt -> (forall t, thread_shape (upd t) = thread_shape t) -> of_shape Sh P p ->
  upd_main upd p = Done (upd_thread (main_tid p) upd p) /\ of_shape Sh P (upd_thread (main_tid p) upd p).
Proof.
  intros Hwf Hu Hp. destruct (main_ok np nt p Hwf Hp) as [t Ht]. split; [|by apply of_upd_thread].
  unfold upd_main, TStore.main_upd, TStore.main. unfold main_tid in *. by rewrite Ht.
Qed.

Lemma safe_upd_main upd p :
  (forall t, thread_shape (upd t) = thread_shape t) -> of_shape Sh P p ->
  safe Sh 0 (lift (upd_main upd p)) (of_shape Sh P).
Proof.
  intros Hu Hp k Hi Hn. pose proof Hi as [[_ Hwf _ _] _].
  destruct (upd_main_ok _ _ upd p Hwf Hu Hp) as [E Hp']. unfold wp, lift. rewrite E. split_and!; [done|lia|done|done].
Qed.

Lemma safe_set_state st p : of_shape Sh P p -> safe Sh 0 (lift (set_state st p)) (of_shape Sh P).
Proof.
  intros Hp. unfold set_state. destruct (is_dead st).
  - apply (safe_ret Sh 0). by apply (of_map_threads (kill_thread (thread_state_for_process st)) (p <| pr_state := st |>)).
  - by apply safe_upd_main.
Qed.

Lemma safe_main p : of_shape Sh P p -> safe Sh 0 (lift (TStore.main (pr_threads p))) any.
Proof.
  intros Hp k Hi Hn. pose proof Hi as [[_ Hwf _ _] _]. destruct (main_ok _ _ p Hwf Hp) as [t Ht].
  unfold wp, lift, TStore.main. unfold main_tid in Ht. rewrite Ht. split_and!; [done|lia|done|done].
Qed.
End of_shape.

Lemma shape_stop_thread_run now t : thread_shape (stop_thread_run now t) = thread_shape t.
Proof. unfold stop_thread_run. by destruct (th_last_started_tick t). Qed.

Section more_rules.
Context (Sh : list Shape).

Lemma safe_mret_bind {A B} n (a : A) (f : A -> M Kernel B) R : safe Sh n (f a) R -> safe Sh n (mret a ≫= f) R.
Proof. done. Qed.

Lemma safe_try {T U E} n (r : result T E) (f : T -> M Kernel (result U E)) R :
  (forall t, r = Ok t -> safe Sh n (f t) R) -> (forall e, R (Err e)) -> safe Sh n (tryS (mret r) f) R.
Proof. intros H1 H2. destruct r as [t|e]; [by apply H1|]. by apply (safe_ret Sh n (Err e)). Qed.

Lemma safe_try_find {U E} n k pid (e : E) (f : Process -> M Kernel (result U E)) R :
  inv Sh k -> (forall p, of_shape Sh (by_pid pid) p -> safe Sh n (f p) R) -> R (Err e) ->
  safe Sh n (tryS (mret (ok_or (find_process k pid) e)) f) R.
Proof.
  intros Hk Hf He. destruct (find_process k pid) as [p|] eqn:Ep.
  - apply Hf. by apply (find_process_of Sh k).
  - by apply (safe_ret Sh n (Err e)).
Qed.

(** [find_process(pid).expect(..)] on the pid of a process seen before. *)
Lemma safe_expect_find {A} n P p (f : Process -> M Kernel A) R :
  of_shape Sh P p -> (forall p', of_shape Sh P p' -> pr_pid p' = pr_pid p -> safe Sh n (f p') R) ->
  safe Sh n ((get ≫= fun k => expect (find_process k (pr_pid p))) ≫= f) R.
Proof.
  intros [Hp HP] Hf k Hi Hn. destruct (find_process_ex Sh k (shape p) Hi Hp) as (p' & E & Hs).
  change (sh_pid (shape p)) with (pr_pid p) in E. unfold wp. run. rewrite E. apply (Hf p'); [|by injection Hs|done|done].
  unfold of_shape. by rewrite Hs.
Qed.

Lemma safe_wf {A} n (m : M Kernel A) R :
  (forall np nt, shapes_wf Sh np nt -> safe Sh n m R) -> safe Sh n m R.
Proof. intros H k Hi. pose proof Hi as [[_ Hwf _ _] _]. by eapply H. Qed.

Lemma of_mono P Q p : of_shape Sh P p -> (forall s, P s -> Q s) -> of_shape Sh Q p.
Proof. intros [H1 H2] H. split; auto. Qed.

Lemma safe_expect_get n tid p : of_shape Sh (by_tid tid) p -> safe Sh n (expect (TStore.get (pr_threads p) tid)) any.
Proof.
  intros [_ Ht%has_tid_shape]. unfold has_tid in Ht. destruct (TStore.get _ _); [|done]. by apply safe_ret.
Qed.

Lemma safe_remove_from_ready_queue pid : safe Sh 0 (Table.remove_from_ready_queue pid) any.
Proof. apply safe_get. intros k _. apply safe_retain. Qed.

Lemma safe_release_stack p4 top : safe Sh 0 (with_addr (release_private_thread_stack p4 top)) any.
Proof. apply safe_addr. intros s Hs. apply with_pool_keeps; [by apply release_stack_slot_ok|apply release_stack_slot_ids]. Qed.

Lemma safe_stop_process_run P p : of_shape Sh P p -> safe Sh 0 (Table.stop_process_run p) (of_shape Sh P).
Proof.
  intros Hp. apply safe_get. intros k _. eapply safe_bind.
  - destruct (_ =? _); [by apply safe_modify|]. by apply (safe_ret Sh 0 ()).
  - intros _ _. apply safe_upd_main; [|done]. apply shape_stop_thread_run.
Qed.

Lemma safe_skip : safe Sh 0 Table.skip_ready any.
Proof. apply safe_mod_table. intros t [H1 H2 H3 H4]. split; [|done]. by constructor. Qed.

Lemma safe_pop : safe Sh 0 Table.pop_ready any.
Proof. apply safe_queue. intros [|x q]; [done|]. by intros [_ ?]%NoDup_cons. Qed.

End more_rules.

(** ** Automation *)

Ltac thread_shape_tac :=
  let t := fresh "t" in intros t;
  first [ reflexivity
        | exact (shape_stop_thread_run _ t)
        | exact (shape_stop_thread_run _ (set _ _ t))
        | repeat case_match; first [reflexivity | exact (shape_stop_thread_run _ t)] ].

Ltac shape_tac :=
  lazymatch goal with
  | |- of_shape _ _ (refresh_state_from_threads _) => apply of_refresh; shape_tac
  | |- of_shape _ _ (upd_thread _ _ _) => apply of_upd_thread; [thread_shape_tac|shape_tac]
  | |- of_shape ?S ?P (set pr_threads _ ?p) => apply of_map_threads; [thread_shape_tac|shape_tac]
  | |- of_shape ?S ?P (set _ _ ?p) => change (of_shape S P p); shape_tac
  | |- _ => match goal with
            | H : of_shape _ _ ?p |- of_shape _ _ ?p => exact H
            | E : take_managed_stack_release _ _ = (_, ?p) |- of_shape _ _ ?p => eapply of_release; [eassumption|exact E|shape_tac]
            end
  end.

(** A leaf: one of the steps above. *)
Ltac leaf :=
  lazymatch goal with
  | |- safe _ _ (put_process _ _) _ => apply safe_put; shape_tac
  | |- safe _ _ (put_by_tid _ _) _ => apply safe_put_tid; shape_tac
  | |- safe _ _ (lift (set_state _ _)) _ => eapply safe_set_state; shape_tac
  | |- safe _ _ (lift (upd_main _ _)) _ => eapply safe_upd_main; [thread_shape_tac|shape_tac]
  | |- safe _ _ (lift (Table.set_main_rax _ _)) _ => eapply safe_upd_main; [thread_shape_tac|shape_tac]
  | |- safe _ _ (lift (TStore.main (pr_threads _))) _ => eapply safe_main; shape_tac
  | |- safe _ _ (Table.stop_process_run _) _ => eapply safe_stop_process_run; shape_tac
  | |- safe _ _ (modify _) _ => apply safe_modify; done
  | |- safe _ _ (expect (TStore.get _ _)) _ => apply safe_expect_get; shape_tac
  | |- _ => solve [eauto with vantara]
  end.

#[export] Hint Resolve safe_enqueue safe_retain safe_count safe_remove_from_ready_queue safe_release_stack
  safe_skip safe_pop : vantara.

(** One rule of [safe], chosen by the code. *)
Ltac go1 :=
  lazymatch goal with
  | |- safe _ _ (mret _) _ => apply safe_ret; first [exact I | assumption]
  | |- safe _ _ (mret _ ≫= _) _ => apply safe_mret_bind
  | H : inv _ ?k |- safe _ _ (tryS (mret (ok_or (find_process ?k _) _)) _) _ =>
    apply safe_try_find; [exact H|intros ? ?|exact I]
  | |- safe _ _ (tryS (mret _) _) _ => apply safe_try; [intros ? ?|intros ?; exact I]
  | |- safe _ _ (match match ?x with _ => _ end with _ => _ end) _ => destruct x eqn:?
  | |- safe _ _ (match ?x with _ => _ end) _ => destruct x eqn:?
  | |- safe _ _ (gets (fun k => find_process k _) ≫= _) _ => apply safe_find; [intros ? ?|]
  | |- safe _ _ (gets (fun k => find_by_tid k _) ≫= _) _ => apply safe_find_tid; [intros ? ?|]
  | |- safe _ _ (gets _ ≫= _) _ => apply safe_gets; intros ? ?
  | |- safe _ _ (get ≫= _) _ => apply safe_get; intros ? ?
  | |- safe _ _ ((get ≫= fun k => expect (find_process k (pr_pid _))) ≫= _) _ =>
    eapply safe_expect_find; [shape_tac|intros ? ? ?]
  | |- safe _ _ (_ ≫= _) _ =>
    first [ eapply safe_bind; [leaf|intros ? ?]
          | eapply safe_bind_last; [leaf|intros ? ?]
          | apply (safe_bind _ _ _ _ any); [|intros ? _] ]
  | |- safe _ _ _ _ => leaf
  end.
Ltac go := cbv zeta; repeat (go1; cbv beta iota zeta).

(** ** The methods that keep every identity *)

Lemma check_signal_target_find k caller target p :
  Table.check_signal_target k caller target = Ok p -> find_process k target = Some p.
Proof. unfold Table.check_signal_target. repeat (case_match; try done). by intros [= ->]. Qed.

Section methods.
Context (Sh : list Shape).

Lemma start_process_run_safe pid : safe Sh 1 (Table.start_process_run pid) any.
Proof. unfold Table.start_process_run. go. Qed.
#[local] Hint Resolve start_process_run_safe : vantara.

Lemma set_kernel_thread_state_safe tid st : safe Sh 0 (Table.set_kernel_thread_state tid st) any.
Proof. unfold Table.set_kernel_thread_state. go. Qed.

Lemma block_thread_safe tid c : safe Sh 0 (Table.block_thread tid c) any.
Proof. unfold Table.block_thread. go. Qed.

Lemma wake_thread_safe tid v : safe Sh 0 (Table.wake_thread tid v) any.
Proof. unfold Table.wake_thread. go. Qed.

Lemma enqueue_all_safe tids : safe Sh 0 (Table.enqueue_all tids) any.
Proof. induction tids as [|tid tids IH]; simpl; go. Qed.
#[local] Hint Resolve enqueue_all_safe : vantara.

Lemma mark_thread_exited_safe tid : safe Sh 0 (Table.mark_thread_exited tid) any.
Proof. unfold Table.mark_thread_exited. apply safe_wf. intros np nt Hwf. go. Qed.

Lemma join_thread_safe caller target c : safe Sh 0 (Table.join_thread caller target c) any.
Proof.
  unfold Table.join_thread. apply safe_wf. intros np nt Hwf. destruct (_ =? _); [go|].
  apply safe_find_tid; [intros p Hp|go]. cbv zeta. apply safe_find_tid; [intros p0 Hp0|go].
  destruct (Z.eqb_spec (pr_pid p0) (pr_pid p)) as [Heq|]; cbn [negb]; [|go].
  assert (shape p0 = shape p) as Hs by (eapply shape_pid_unique; [done|apply Hp0|apply Hp|done]).
  set (P s := by_pid (pr_pid p) s /\ by_tid caller s /\ by_tid target s).
  assert (of_shape Sh P p) as HP.
  { destruct Hp as [? ?], Hp0 as [? Ht]. rewrite Hs in Ht. split; [done|]. split_and!; done. }
  assert (forall q, of_shape Sh P q -> of_shape Sh (by_pid (pr_pid p)) q /\ of_shape Sh (by_tid caller) q /\
                    of_shape Sh (by_tid target) q) as HPq.
  { intros q Hq. split_and!; eapply of_mono; try exact Hq; unfold P; tauto. }
  eapply safe_bind; [go|]. intros t _. destruct (ThreadState_eqb _ _); [go|]. destruct (bool_decide _); [go|].
  eapply safe_expect_find; [exact HP|]. intros q (Hq1 & Hq2 & Hq3)%HPq _. go.
Qed.

Lemma mark_ready_safe pid : safe Sh 0 (Table.mark_ready pid) any.
Proof. unfold Table.mark_ready. go. Qed.

Lemma mark_running_safe pid : safe Sh 1 (Table.mark_running pid) any.
Proof. unfold Table.mark_running. go. Qed.

Lemma mark_exited_safe pid st : safe Sh 0 (Table.mark_exited pid st) any.
Proof. unfold Table.mark_exited. go. Qed.
#[local] Hint Resolve mark_exited_safe : vantara.

Lemma stop_user_process_safe pid sg : 0 <= sg <= 64 -> safe Sh 0 (Table.stop_user_process pid sg) any.
Proof.
  intros Hs. unfold Table.stop_user_process.
  assert (u64_checked_add 128 sg = Some (128 + sg)) as ->.
  { unfold u64_checked_add, checked_add_to, u64_max. destruct (Z.leb_spec (128 + sg) 0xFFFFFFFFFFFFFFFF); [done|lia]. }
  go.
Qed.

Lemma continue_user_process_safe caller pid : safe Sh 0 (Table.continue_user_process caller pid) any.
Proof. unfold Table.continue_user_process. go. Qed.

Lemma terminate_user_process_safe caller target st : safe Sh 0 (Table.terminate_user_process caller target st) any.
Proof. unfold Table.terminate_user_process. go. Qed.
#[local] Hint Resolve terminate_user_process_safe : vantara.

Lemma activate_signal_handler_safe pid sg h : safe Sh 0 (Table.activate_signal_handler pid sg h) any.
Proof. unfold Table.activate_signal_handler. go. Qed.
#[local] Hint Resolve activate_signal_handler_safe : vantara.

Lemma add_pending_safe pid m p : of_shape Sh (by_pid pid) p -> safe Sh 0 (Table.add_pending pid m) any.
Proof.
  intros Hp. unfold Table.add_pending. assert (pr_pid p = pid) as <- by apply Hp. go.
Qed.

Lemma send_signal_safe caller target sg : safe Sh 0 (Table.send_signal caller target sg) any.
Proof.
  apply safe_get. intros k Hk. apply safe_try; [|done]. intros p Hp%check_signal_target_find.
  apply (find_process_of Sh k) in Hp; [|done]. apply safe_try; [|done]. intros m _.
  pose proof (fun m => add_pending_safe target m p Hp) as Hadd. go.
  unfold tryS. go.
Qed.

Lemma set_signal_disposition_safe pid sg d : safe Sh 0 (Table.set_signal_disposition pid sg d) any.
Proof. unfold Table.set_signal_disposition. go. Qed.

Lemma activate_running_signal_handler_safe pid tid sg h c :
  safe Sh 0 (Table.activate_running_signal_handler pid tid sg h c) any.
Proof. unfold Table.activate_running_signal_handler. go. Qed.

Lemma restore_signal_context_safe pid tid : safe Sh 0 (Table.restore_signal_context pid tid) any.
Proof. unfold Table.restore_signal_context. go. Qed.

Lemma update_signal_mask_safe pid how m : safe Sh 0 (Table.update_signal_mask pid how m) any.
Proof. unfold Table.update_signal_mask. go. Qed.

Lemma set_process_group_safe caller target g : safe Sh 0 (Table.set_process_group caller target g) any.
Proof. unfold Table.set_process_group. go. Qed.

Lemma create_session_safe pid : safe Sh 0 (Table.create_session pid) any.
Proof. unfold Table.create_session. go. Qed.

Lemma mark_reaped_safe pid : safe Sh 0 (Table.mark_reaped pid) any.
Proof. unfold Table.mark_reaped. go. Qed.

Lemma mark_waiting_safe pid child c : safe Sh 0 (Table.mark_waiting pid child c) any.
Proof. unfold Table.mark_waiting. go. Qed.

Lemma mark_sleeping_safe pid tick c : safe Sh 0 (Table.mark_sleeping pid tick c) any.
Proof. unfold Table.mark_sleeping. go. Qed.

Lemma mark_thread_yielded_safe tid c : safe Sh 0 (Table.mark_thread_yielded tid c) any.
Proof. unfold Table.mark_thread_yielded. go. Qed.
#[local] Hint Resolve mark_thread_yielded_safe : vantara.

Lemma mark_yielded_safe pid c : safe Sh 0 (Table.mark_yielded pid c) any.
Proof. unfold Table.mark_yielded. go. Qed.

Lemma reap_child_safe parent child : safe Sh 0 (Table.reap_child parent child) any.
Proof. unfold Table.reap_child. go. Qed.

Lemma resume_waiting_parent_safe parent child : safe Sh 1 (Table.resume_waiting_parent parent child) any.
Proof. unfold Table.resume_waiting_parent. go. Qed.

Lemma reap_all_safe pids : forall n, safe Sh 0 (Table.reap_all pids n) any.
Proof. induction pids as [|pid pids IH]; intros n; simpl; go. Qed.

Lemma wake_all_safe pids : forall n, safe Sh 0 (Table.wake_all pids n) any.
Proof. induction pids as [|pid pids IH]; intros n; simpl; go. Qed.
#[local] Hint Resolve reap_all_safe wake_all_safe : vantara.

Lemma reap_orphan_zombies_safe : safe Sh 0 Table.reap_orphan_zombies any.
Proof. unfold Table.reap_orphan_zombies. go. Qed.

Lemma reap_unwaited_zombies_safe : safe Sh 0 Table.reap_unwaited_zombies any.
Proof. unfold Table.reap_unwaited_zombies. go. Qed.

Lemma wake_sleeping_processes_safe now : safe Sh 0 (Table.wake_sleeping_processes now) any.
Proof. unfold Table.wake_sleeping_processes. go. Qed.

Lemma run_thread_safe tid p : of_shape Sh (by_tid tid) p -> safe Sh 1 (Table.run_thread tid p) any.
Proof. intros Hp. unfold Table.run_thread. go. Qed.

Lemma dequeue_ready_loop_safe fuel : safe Sh 1 (Table.dequeue_ready_loop fuel) any.
Proof.
  induction fuel as [|fuel IH]; simpl; [go|]. apply safe_get. intros k Hk.
  destruct (pt_ready_queue (k_table k)) as [|tid q]; [go|]. eapply safe_bind; [leaf|intros _ _].
  apply safe_mret_bind. destruct (find_by_tid k tid) as [p|] eqn:E; [|go].
  pose proof (find_by_tid_of Sh k tid p Hk E) as Hp. destruct (Table.ready_thread tid p); cbn [negb]; [|go].
  eapply safe_bind_last; [by apply run_thread_safe|intros _ _; go].
Qed.

Lemma schedule_loop_safe fuel : safe Sh 1 (Table.schedule_loop fuel) any.
Proof.
  induction fuel as [|fuel IH]; simpl; [go|]. apply safe_get. intros k Hk.
  destruct (pt_ready_queue (k_table k)) as [|tid q]; [go|]. eapply safe_bind; [leaf|intros _ _].
  apply safe_mret_bind. destruct (find_by_tid k tid) as [p|] eqn:E; [|go].
  pose proof (find_by_tid_of Sh k tid p Hk E) as Hp. destruct (Table.ready_thread tid p); cbn [negb]; [|go].
  apply safe_mret_bind. destruct (TStore.get (pr_threads p) tid ≫= _); [|go].
  eapply safe_bind_last; [apply run_thread_safe; shape_tac|intros _ _; go].
Qed.

Lemma dequeue_ready_safe : safe Sh 1 Table.dequeue_ready any.
Proof. apply safe_get. intros k _. apply dequeue_ready_loop_safe. Qed.

Lemma schedule_next_ready_user_safe : safe Sh 1 Table.schedule_next_ready_user any.
Proof. apply safe_get. intros k _. apply schedule_loop_safe. Qed.
#[local] Hint Resolve schedule_next_ready_user_safe : vantara.

Lemma preempt_running_thread_safe tid c : safe Sh 1 (Table.preempt_running_thread tid c) any.
Proof. unfold Table.preempt_running_thread. go. Qed.
#[local] Hint Resolve preempt_running_thread_safe : vantara.

Lemma preempt_running_user_safe pid c : safe Sh 1 (Table.preempt_running_user pid c) any.
Proof. unfold Table.preempt_running_user. go. Qed.

Lemma record_thread_yield_safe tid : safe Sh 1 (Table.record_thread_yield tid) any.
Proof. unfold Table.record_thread_yield. go. Qed.
#[local] Hint Resolve record_thread_yield_safe : vantara.

Lemma record_user_yield_safe pid : safe Sh 1 (Table.record_user_yield pid) any.
Proof. unfold Table.record_user_yield. go. Qed.

Lemma mark_isolated_safe pid : safe Sh 0 (Table.mark_isolated pid) any.
Proof.
  unfold Table.mark_isolated. apply safe_find; [|by apply safe_ret]. intros p Hp. apply safe_put. revert Hp. apply of_eq.
  unfold shape, main_tid, info, Space.promoted_isolated_user. simpl.
  destruct (pr_address_space p) as [kind [p4|] [|] entry layout]; done.
Qed.

End methods.

(** ** Steps that change the list of processes *)

Lemma find_split {A} (q : A -> bool) (l : list A) x :
  List.find q l = Some x -> exists l1 l2, l = l1 ++ x :: l2 /\ forall upd, find_upd q upd l = l1 ++ upd x :: l2.
Proof.
  induction l as [|y l IH]; simpl; [done|]. destruct (q y) eqn:E.
  - intros [= ->]. by exists [], l.
  - intros (l1 & l2 & -> & H)%IH. exists (y :: l1), l2. split; [done|]. intros upd. simpl. by rewrite H.
Qed.

Lemma NoDup_replace {A} (l1 mid new l2 : list A) :
  NoDup (l1 ++ mid ++ l2) -> NoDup new -> (forall x, x ∈ new -> x ∈ mid \/ x ∉ l1 ++ mid ++ l2) ->
  NoDup (l1 ++ new ++ l2).
Proof.
  intros (H1 & H1d & (H2 & H2d & H3)%NoDup_app)%NoDup_app Hn Hx.
  setoid_rewrite elem_of_app in H1d. setoid_rewrite elem_of_app in Hx. setoid_rewrite elem_of_app in Hx.
  apply NoDup_app. split; [done|]. split.
  - intros x Hx1 [Hx2|Hx2]%elem_of_app; [|naive_solver]. destruct (Hx x Hx2); naive_solver.
  - apply NoDup_app. split; [done|]. split; [|done]. intros x Hx1 Hx2. destruct (Hx x Hx1); naive_solver.
Qed.

(** Part of the list of shapes is replaced, the rest keeps its identity. *)
Lemma shapes_wf_replace l1 mid new l2 np nt :
  shapes_wf (l1 ++ mid ++ l2) np nt ->
  NoDup (map sh_pid new) -> NoDup (concat (map sh_tids new)) ->
  (forall x, x ∈ map sh_pid new -> x ∈ map sh_pid mid \/ x ∉ map sh_pid (l1 ++ mid ++ l2)) ->
  (forall x, x ∈ concat (map sh_tids new) ->
     x ∈ concat (map sh_tids mid) \/ (x ∉ concat (map sh_tids (l1 ++ mid ++ l2)) /\ 0 < x < nt)) ->
  (forall s, s ∈ new -> shape_wf s /\ 0 <= sh_pid s < np) ->
  shapes_wf (l1 ++ new ++ l2) np nt.
Proof.
  intros [H1 H2 H3 H4 H5] Hn1 Hn2 Hp Ht Hs. rewrite !map_app in *. rewrite !concat_app in *. constructor.
  - rewrite !map_app. by eapply NoDup_replace.
  - rewrite !map_app, !concat_app. eapply NoDup_replace; [done|done|]. intros x Hx. destruct (Ht x Hx); tauto.
  - setoid_rewrite elem_of_app in H3. setoid_rewrite elem_of_app in H3. setoid_rewrite elem_of_app.
    setoid_rewrite elem_of_app. intros s [?|[?|?]]; [by eauto|by apply Hs|by eauto].
  - setoid_rewrite elem_of_app in H4. setoid_rewrite elem_of_app in H4. setoid_rewrite elem_of_app.
    setoid_rewrite elem_of_app. intros s [?|[?|?]]; [by eauto|by apply Hs|by eauto].
  - rewrite !map_app, !concat_app. setoid_rewrite elem_of_app in H5. setoid_rewrite elem_of_app in H5.
    setoid_rewrite elem_of_app. setoid_rewrite elem_of_app. intros t [?|[Hx|?]]; [by eauto| |by eauto].
    destruct (Ht t Hx) as [?|[_ ?]]; [by eauto|done].
Qed.

Definition room (k : Kernel) : Prop :=
  pt_next_pid (k_table k) < u32_max /\ pt_next_tid (k_table k) < u32_max /\ switches k < u64_max.

(** [m] is fine on every well-formed kernel state with room. *)
Definition op_ok {A} (m : M Kernel A) : Prop :=
  forall k, kernel_wf k -> room k -> wp m (fun _ => kernel_wf) k.

Lemma inv_wf Sh k : inv Sh k -> kernel_wf k.
Proof. intros H. pose proof H as [[Hs _ _ _] _]. unfold kernel_wf. by rewrite Hs. Qed.

Lemma safe_op {A} (m : M Kernel A) : (forall Sh, safe Sh 1 m any) -> op_ok m.
Proof.
  intros H k Hk (_ & _ & Hr). eapply wp_mono; [apply (H _ k Hk); lia|]. intros a k' (Hi & _). by apply inv_wf in Hi.
Qed.

Lemma safe_op0 {A} (m : M Kernel A) : (forall Sh, safe Sh 0 m any) -> op_ok m.
Proof. intros H. apply safe_op. intros Sh. eapply safe_mono; [|done|apply H]. lia. Qed.

(** The processes of [k'] are those of [k], up to their threads and states. *)
Definition infos (k : Kernel) : list (Z * Info) := map (fun s => (sh_pid s, sh_info s)) (shapes (k_table k)).
Definition like (k k' : Kernel) : Prop := same_rest k k' /\ infos k' = infos k.

#[export] Instance like_preorder : PreOrder like.
Proof. split; [by intros k|]. intros k1 k2 k3 [? ?] [? ?]. split; [by etrans|congruence]. Qed.

Definition op_keeps {A} (m : M Kernel A) : Prop :=
  forall k, kernel_wf k -> room k -> wp m (fun _ k' => kernel_wf k' /\ like k k') k.

Lemma op_keeps_ok {A} (m : M Kernel A) : op_keeps m -> op_ok m.
Proof. intros H k Hk Hr. eapply wp_mono; [by apply H|]. by intros a k' [? _]. Qed.

Lemma inv_like Sh k k' : inv Sh k -> inv Sh k' -> same_rest k k' -> kernel_wf k' /\ like k k'.
Proof.
  intros [[H1 _ _ _] _] Hi Hr. split; [by apply inv_wf in Hi|]. split; [done|]. destruct Hi as [[H2 _ _ _] _].
  unfold infos. by rewrite H1, H2.
Qed.

Lemma safe_keeps {A} n (m : M Kernel A) k : (forall Sh, safe Sh n m any) -> kernel_wf k ->
  switches k + Z.of_nat n <= u64_max -> wp m (fun _ k' => kernel_wf k' /\ like k k') k.
Proof.
  intros H Hk Hn. eapply wp_mono; [by apply (H _ k Hk)|]. intros a k' (Hi & _ & _ & Hr). by apply (inv_like (shapes (k_table k))).
Qed.

Lemma safe_keeps0 {A} (m : M Kernel A) k : (forall Sh, safe Sh 0 m any) -> kernel_wf k ->
  wp m (fun _ k' => kernel_wf k' /\ like k k') k.
Proof. intros H Hk. eapply safe_keeps; [done..|]. destruct Hk as [[_ _ _ Hc] _]. unfold switches. lia. Qed.

(** [reserve_tid] returns a tid nobody has. *)
Definition fresh_tid (Sh : list Shape) (tid : Z) (k : Kernel) : Prop :=
  inv Sh k /\ tid ∉ concat (map sh_tids Sh) /\ 0 < tid < pt_next_tid (k_table k).

Lemma reserve_tid_ok Sh k :
  inv Sh k -> pt_next_tid (k_table k) < u32_max ->
  wp Table.reserve_tid (fun tid k' => fresh_tid Sh tid k' /\ same_rest k k' /\
    pt_processes (k_table k') = pt_processes (k_table k) /\ pt_next_pid (k_table k') = pt_next_pid (k_table k)) k.
Proof.
  intros [[H1 H2 H3 H4] H5] Hr. unfold Table.reserve_tid, wp. run. split; [|done].
  set (tid := pt_next_tid (k_table k)) in *.
  assert (u32_saturating_add tid 1 = tid + 1) as E by (unfold u32_saturating_add, saturating_add_to; lia).
  split; [|split].
  - split; [|done]. constructor; simpl; [done| |done|rewrite E; lia]. rewrite E. destruct H2 as [A1 A2 A3 A4 A5].
    constructor; [done..|]. intros t Ht. specialize (A5 t Ht). unfold tid. lia.
  - intros Ht%(sw_tid_range _ _ _ H2). unfold tid in Ht. lia.
  - simpl. rewrite E. lia.
Qed.

(** A new thread in a process. *)
Section add_thread.
Context (Sh : list Shape) (k : Kernel) (pid : Z) (p : Process) (t : Thread).
Hypothesis Hfresh : fresh_tid Sh (th_tid t) k.
Hypothesis Hfind : find_process k pid = Some p.
Hypothesis Howner : th_process_id t = pid.
Hypothesis Hstack : stack_ok t = true.

Let Hi : inv Sh k := proj1 Hfresh.

Lemma insert_thread_ok :
  exists b threads, TStore.insert t (pr_threads p) = Done (b, threads) /\
    if (b : bool)
    then (length (ts_items (pr_threads p)) < MAX_THREADS_PER_PROCESS)%nat /\
         threads = pr_threads p <| ts_items ::= (fun l => l ++ [t]) |>
    else threads = pr_threads p.
Proof.
  destruct (find_process_of Sh k pid p Hi Hfind) as [Hp Hid]. pose proof Hi as [[_ Hwf _ _] _].
  unfold TStore.insert. destruct (Nat.leb_spec MAX_THREADS_PER_PROCESS (length (ts_items (pr_threads p)))) as [|Hl].
  { by eexists false, _. }
  destruct (main_ok Sh (by_pid pid) _ _ p Hwf (conj Hp Hid)) as [m Hm]. unfold TStore.main.
  unfold main_tid in Hm. rewrite Hm. run. apply find_Some in Hm as [Hm _].
  pose proof (shw_owner _ (sw_each _ _ _ Hwf _ Hp)) as Ho. rewrite Forall_forall in Ho.
  assert (th_process_id m = pid) as ->.
  { rewrite <-Hid. apply (Ho (thread_shape m)). apply elem_of_map. eauto. }
  rewrite Howner, Z.eqb_refl. simpl.
  destruct (TStore.get (pr_threads p) (th_tid t)) as [t'|] eqn:Et; [|by eexists true, _].
  pose proof Hfresh as (_ & [] & _). apply (shape_tid_in Sh (shape p)); [done|].
  apply has_tid_shape. unfold has_tid. by rewrite Et.
Qed.

Lemma put_with_thread p' :
  (length (ts_items (pr_threads p)) < MAX_THREADS_PER_PROCESS)%nat ->
  shape p' = mkShape pid (main_tid p) (sh_threads (shape p) ++ [(th_tid t, pid, true)]) (info p) ->
  wp (put_process pid p') (fun _ k' => kernel_wf k' /\ like k k') k.
Proof.
  intros Hl Hs. pose proof Hi as [[HSh Hwf Hq Hc] Hpool]. pose proof Hfresh as (_ & Hnew & Hrange).
  destruct (find_process_of Sh k pid p Hi Hfind) as [Hp Hid]. pose proof (sw_each _ _ _ Hwf _ Hp) as [W1 W2 W4 W3].
  destruct (find_split _ _ _ Hfind) as (l1 & l2 & El & Eu). unfold wp, put_process, mod_table, modify.
  split; [|split; [done|]; unfold infos, shapes; simpl; rewrite Eu, El, !map_app; simpl; f_equal; f_equal;
    apply (f_equal (fun s => (sh_pid s, sh_info s))) in Hs; simpl in Hs; rewrite Hs; by rewrite <-Hid].
  split; [|done]. simpl. constructor; [done| |done|done].
  unfold shapes. simpl. rewrite Eu, map_app. simpl map. rewrite Hs.
  rewrite <-HSh in Hwf, Hnew. unfold shapes in Hwf, Hnew. rewrite El, map_app in Hwf, Hnew. simpl map in Hwf, Hnew.
  apply (shapes_wf_replace (map shape l1) [shape p] [_] (map shape l2) _ _ Hwf); simpl.
  - apply NoDup_singleton.
  - rewrite app_nil_r. unfold sh_tids. simpl. rewrite map_app. apply NoDup_app.
    destruct Hwf as [_ Hwf _ _ _]. rewrite map_app, concat_app in Hwf. simpl in Hwf.
    apply NoDup_app in Hwf as (_ & _ & (Hnd & _)%NoDup_app). split; [exact Hnd|]. split; [|apply NoDup_singleton].
    intros x Hx ->%list_elem_of_singleton. destruct Hnew. rewrite map_app, concat_app. simpl. rewrite !elem_of_app. tauto.
  - intros x ->%list_elem_of_singleton. left. apply list_elem_of_singleton. symmetry. exact Hid.
  - rewrite !app_nil_r. unfold sh_tids at 1. simpl. rewrite map_app. intros x [Hx|Hx]%elem_of_app; [by left|].
    right. apply list_elem_of_singleton in Hx as ->. simpl. by rewrite map_app in Hnew |- *.
  - intros s ->%list_elem_of_singleton. simpl. split.
    + constructor; unfold sh_tids; simpl.
      * rewrite map_app. apply elem_of_app. by left.
      * apply Forall_app. split; [|by constructor]. by rewrite <-Hid.
      * apply Forall_app. split; [done|by constructor].
      * rewrite length_app, length_map. simpl. lia.
    + destruct (sw_pid_range _ _ _ Hwf (shape p)) as [? ?]; [|by rewrite <-Hid].
      rewrite elem_of_app, elem_of_cons. tauto.
Qed.

End add_thread.

Lemma find_process_table k k' pid :
  pt_processes (k_table k') = pt_processes (k_table k) -> find_process k' pid = find_process k pid.
Proof. unfold find_process. by intros ->. Qed.

(** The two steps common to the thread-creating methods: reserve a tid, and
    insert the thread into the store of the process. *)
Lemma reserve_step {A} (f : Z -> M Kernel A) (Q : A -> Kernel -> Prop) k :
  kernel_wf k -> pt_next_tid (k_table k) < u32_max ->
  (forall tid k1, fresh_tid (shapes (k_table k)) tid k1 -> same_rest k k1 ->
     pt_processes (k_table k1) = pt_processes (k_table k) ->
     pt_next_pid (k_table k1) = pt_next_pid (k_table k) -> wp (f tid) Q k1) ->
  wp (Table.reserve_tid ≫= f) Q k.
Proof.
  intros Hk Hr Hf. apply wp_bind. eapply wp_mono; [by apply reserve_tid_ok|].
  intros tid k1 (Hfr & Hrest & Hsame & Hpid). by apply Hf.
Qed.

Lemma insert_step {A} Sh k pid p t (f : bool * ThreadStore -> M Kernel A) (Q : A -> Kernel -> Prop) :
  fresh_tid Sh (th_tid t) k -> find_process k pid = Some p -> th_process_id t = pid ->
  wp (f (false, pr_threads p)) Q k ->
  ((length (ts_items (pr_threads p)) < MAX_THREADS_PER_PROCESS)%nat ->
   wp (f (true, pr_threads p <| ts_items ::= (fun l => l ++ [t]) |>)) Q k) ->
  wp (lift (TStore.insert t (pr_threads p)) ≫= f) Q k.
Proof.
  intros Hfr Hp Ho H1 H2. destruct (insert_thread_ok Sh k pid p t Hfr Hp Ho) as (b & threads & E & Hb).
  apply wp_bind. unfold wp at 1, lift. rewrite E.
  destruct b; [destruct Hb as [Hl ->]; by apply H2|by rewrite Hb].
Qed.

(** Writing back the process with the thread added, possibly refreshed. *)
Lemma put_new_ok Sh k tid pid p t p' :
  fresh_tid Sh tid k -> find_process k pid = Some p -> th_tid t = tid -> th_process_id t = pid -> stack_ok t = true ->
  (length (ts_items (pr_threads p)) < MAX_THREADS_PER_PROCESS)%nat ->
  shape p' = shape (p <| pr_threads := pr_threads p <| ts_items ::= (fun l => l ++ [t]) |> |>) ->
  wp (put_process pid p') (fun _ k' => kernel_wf k' /\ like k k') k.
Proof.
  intros Hfr Hp Ht Ho Hst Hl Hs. rewrite <-Ht in Hfr.
  destruct (find_process_of Sh k pid p (proj1 Hfr) Hp) as [_ Hid].
  eapply (put_with_thread Sh k pid p t); try done.
  rewrite Hs. unfold shape. simpl. rewrite map_app. simpl. unfold thread_shape at 2. rewrite Ho, Hst. f_equal. exact Hid.
Qed.

Lemma shape_refresh p : shape (refresh_state_from_threads p) = shape p.
Proof. unfold refresh_state_from_threads. by destruct (is_dead (pr_state p)). Qed.

Lemma safe_kernel {A} (m : M Kernel A) k : (forall Sh, safe Sh 0 m any) -> kernel_wf k -> wp m (fun _ => kernel_wf) k.
Proof. intros H Hk. eapply wp_mono; [by apply safe_keeps0|]. by intros a k' [? _]. Qed.

Lemma put_same_ok Sh k pid p p' :
  inv Sh k -> find_process k pid = Some p -> shape p' = shape p ->
  wp (put_process pid p') (fun _ k' => kernel_wf k' /\ like k k') k.
Proof.
  intros Hi Hp Hs. pose proof Hi as [[_ _ _ Hc] _]. eapply wp_mono.
  { apply (safe_put Sh pid p'); [|done|unfold switches; lia].
    eapply of_eq; [exact Hs|]. by apply (find_process_of Sh k). }
  intros ? k' (Hi' & _ & _ & Hr). by apply (inv_like Sh).
Qed.

(** Code that goes on after a step. *)
Lemma wp_then {A B} (m : M Kernel A) (f : A -> M Kernel B) k :
  wp m (fun _ => kernel_wf) k -> (forall a k', kernel_wf k' -> wp (f a) (fun _ => kernel_wf) k') ->
  wp (m ≫= f) (fun _ => kernel_wf) k.
Proof. intros H Hf. apply wp_bind. eapply wp_mono; [exact H|]. auto. Qed.

Lemma keeps_then {A B} (m : M Kernel A) (f : A -> M Kernel B) k0 k :
  like k0 k -> wp m (fun _ k' => kernel_wf k' /\ like k k') k ->
  (forall a k', kernel_wf k' -> like k0 k' -> wp (f a) (fun _ k' => kernel_wf k' /\ like k0 k') k') ->
  wp (m ≫= f) (fun _ k' => kernel_wf k' /\ like k0 k') k.
Proof.
  intros Hl H Hf. apply wp_bind. eapply wp_mono; [exact H|]. intros a k' [Hk' Hl']. apply Hf; [done|by etrans].
Qed.

Lemma same_processes_like k k' :
  pt_processes (k_table k') = pt_processes (k_table k) -> same_rest k k' -> like k k'.
Proof. intros Hp Hr. split; [done|]. unfold infos, shapes. by rewrite Hp. Qed.

Ltac find_step := apply wp_bind; unfold wp at 1, gets; cbv beta.

Lemma create_thread_ok pid : op_keeps (Table.create_thread pid).
Proof.
  intros k Hk Hr. unfold Table.create_thread. find_step. destruct (find_process k pid) as [p|] eqn:Ep; [|done].
  apply reserve_step; [done|apply Hr|]. intros tid k1 Hfr Hrest Hsame _. rewrite <-(find_process_table k k1) in Ep by done.
  pose proof (same_processes_like k k1 Hsame Hrest) as Hl1.
  eapply insert_step; [exact Hfr|done|done|intros|intros Hl]; (eapply keeps_then; [exact Hl1| |done]).
  - by eapply put_same_ok; [apply Hfr|done|].
  - by eapply put_new_ok; [exact Hfr|exact Ep|..|reflexivity].
Qed.

Lemma create_kernel_thread_ok : op_keeps Table.create_kernel_thread.
Proof.
  intros k Hk Hr. unfold Table.create_kernel_thread. find_step. destruct (List.find _ _) as [p0|]; [|done].
  apply reserve_step; [done|apply Hr|]. intros tid k1 Hfr Hrest Hsame _. find_step.
  pose proof (same_processes_like k k1 Hsame Hrest) as Hl1. pose proof (inv_wf _ _ (proj1 Hfr)) as Hk1.
  destruct (find_process k1 (pr_pid p0)) as [p|] eqn:Ep; [|done].
  eapply insert_step; [exact Hfr|done|done|done|intros Hl].
  cbn [negb]. eapply keeps_then; [exact Hl1| |done]. by eapply put_new_ok; [exact Hfr|exact Ep|..|apply shape_refresh].
Qed.

(** The rest of the thread-creating methods once the tid is reserved. *)
Lemma install_user_thread k0 k Sh tid pid p t p' :
  fresh_tid Sh tid k -> like k0 k -> find_process k pid = Some p -> th_tid t = tid -> th_process_id t = pid -> stack_ok t = true ->
  (length (ts_items (pr_threads p)) < MAX_THREADS_PER_PROCESS)%nat ->
  shape p' = shape (p <| pr_threads := pr_threads p <| ts_items ::= (fun l => l ++ [t]) |> |>) ->
  wp (put_process pid p';; Table.enqueue_ready tid;; mret (Some tid)) (fun _ k' => kernel_wf k' /\ like k0 k') k.
Proof.
  intros Hfr Hl Hp Ht Ho Hst Hn Hs. eapply keeps_then; [exact Hl|by eapply put_new_ok|]. intros _ k2 Hk2 Hl2.
  eapply keeps_then; [exact Hl2| |done]. apply safe_keeps0; [|done]. intros Sh'. apply safe_enqueue.
Qed.

Lemma create_user_thread_ok pid entry lo hi rsp arg : hi <= USER_END -> op_keeps (Table.create_user_thread pid entry lo hi rsp arg).
Proof.
  intros Hhi k Hk Hr. unfold Table.create_user_thread. find_step.
  destruct (find_process k pid) as [p|] eqn:Ep; [|done]. destruct (_ || _); [done|].
  apply reserve_step; [done|apply Hr|]. intros tid k1 Hfr Hrest Hsame _. rewrite <-(find_process_table k k1) in Ep by done.
  pose proof (same_processes_like k k1 Hsame Hrest) as Hl1. pose proof (inv_wf _ _ (proj1 Hfr)) as Hk1.
  eapply insert_step; [exact Hfr|done|done|done|intros Hl].
  cbn [negb]. eapply install_user_thread; [exact Hfr|exact Hl1|exact Ep|..|apply shape_refresh]; try done. by apply Z.leb_le.
Qed.

(** A kernel step in [with_addr] leaves the table alone. *)
Lemma addr_step {A} (m : M AddrState A) (Q : A -> AddrState -> Prop) k :
  wp m Q (k_addr k) -> (forall a s, Q a s -> pool_wf (ad_pool s)) -> kernel_wf k ->
  wp (with_addr m) (fun a k' => kernel_wf k' /\ Q a (k_addr k') /\ k' = k <| k_addr := k_addr k' |>) k.
Proof.
  intros Hm HQ [H1 H2]. unfold with_addr, wp in *. destruct (m (k_addr k)) as [[a s]|]; [|done].
  split; [|done]. split; [done|]. by apply (HQ a).
Qed.

(** A managed thread: besides the table, only its stack changes. *)
Lemma create_managed_user_thread_spec pid entry arg k : kernel_wf k -> room k ->
  wp (Table.create_managed_user_thread pid entry arg) (fun _ k' => kernel_wf k' /\ infos k' = infos k /\
    frozen (k' <| k_addr := k_addr k |>) = frozen k /\
    (k_addr k' = k_addr k \/ exists p4, Table.p4_frame_for k pid = Some p4 /\ stack_effect p4 (k_addr k) (k_addr k'))) k.
Proof.
  intros Hk Hr. unfold Table.create_managed_user_thread. find_step.
  destruct (find_process k pid) as [p|] eqn:Ep; [|by split_and!; [..|left]]. destruct (is_user (pr_kind p)); [|by split_and!; [..|left]]. cbn [negb].
  apply wp_bind, wp_ret. destruct (as_p4_frame (pr_address_space p)) as [p4|] eqn:E4; [|by split_and!; [..|left]].
  assert (Table.p4_frame_for k pid = Some p4) as Hp4 by (unfold Table.p4_frame_for; by rewrite Ep). apply wp_bind.
  eapply wp_mono; [apply (addr_step _ (fun r s => stack_effect p4 (k_addr k) s /\
    match r with Some range => exists i, range = stack_range_for_slot i | None => True end)); [|by intros ? ? [[? _] _]|done]|].
  { pose proof (reserve_effect (k_addr k) p4 (stack_top (as_layout (pr_address_space p))) (proj2 Hk)) as He. unfold wp in *.
    destruct (reserve_private_thread_stack _ _ _) as [[[range|] s1]|] eqn:E; [|done|done]. split; [done|].
    by eapply reserve_stack_range; [apply Hk|]. }
  intros range k1 (Hk1 & [He Hrange] & Ek1).
  set (Q k' := kernel_wf k' /\ infos k' = infos k /\ frozen (k' <| k_addr := k_addr k |>) = frozen k /\
    (k_addr k' = k_addr k \/ exists p4, Table.p4_frame_for k pid = Some p4 /\ stack_effect p4 (k_addr k) (k_addr k'))).
  assert (k_table k1 = k_table k) as Ht by (by rewrite Ek1).
  assert (forall k', kernel_wf k' -> like k1 k' -> Q k') as HQ.
  { intros k' Hk' [[Hf Hm] Hi]. unfold infos in *. rewrite Ht in Hi. split; [done|]. split; [done|].
    pose proof (f_equal snd Hf) as Hf2. apply (f_equal fst) in Hf. rewrite Ek1 in Hf. split; [|right; exists p4; split; [done|]].
    - change (frozen ?x) with ((frozen x).1, (frozen x).2). by f_equal.
    - by apply (stack_effect_after p4 _ (k_addr k1)); [|apply Hk'|..]. }
  destruct range as [[lo hi]|]; [|by apply HQ]. destruct Hrange as [i Hi].
  assert (room k1) as Hr1 by (unfold room, switches; by rewrite Ht).
  assert (find_process k1 pid = Some p) as Ep1 by (unfold find_process; by rewrite Ht).
  apply wp_bind, wp_ret. destruct (u64_checked_sub _ _) as [rsp|]; [|by apply HQ].
  apply (wp_mono _ (fun _ k' => kernel_wf k' /\ like k1 k')); [|intros _ k' [? ?]; by apply HQ].
  apply reserve_step; [done|apply Hr1|]. intros tid k2 Hfr Hrest Hsame _. rewrite <-(find_process_table k1 k2) in Ep1 by done.
  pose proof (same_processes_like k1 k2 Hsame Hrest) as Hl2. pose proof (inv_wf _ _ (proj1 Hfr)) as Hk2.
  eapply insert_step; [exact Hfr|done|done|intros|intros Hl]; cbn [negb].
  - eapply keeps_then; [exact Hl2| |done]. apply safe_keeps0; [|done]. intros Sh. apply safe_release_stack.
  - eapply install_user_thread; [exact Hfr|exact Hl2|exact Ep1|..|apply shape_refresh]; try done.
    unfold stack_range_for_slot in Hi. injection Hi as _ ->. apply Z.leb_le. change USER_STACK_SLOT_SIZE with 0x5000. change FIRST_USER_STACK_TOP with 0x1400000. unfold USER_END. lia.
Qed.

Lemma create_managed_user_thread_ok pid entry arg : op_ok (Table.create_managed_user_thread pid entry arg).
Proof. intros k Hk Hr. eapply wp_mono; [by apply create_managed_user_thread_spec|]. by intros a k' [? _]. Qed.

(** Replacing what a process carries besides its threads. *)
Lemma put_info_ok k pid p p' :
  kernel_wf k -> find_process k pid = Some p -> pr_pid p' = pid -> pr_threads p' = pr_threads p ->
  wp (put_process pid p') (fun _ k' => kernel_wf k' /\ same_rest k k' /\
    pt_processes (k_table k') = find_upd (fun q => pr_pid q =? pid) (fun _ => p') (pt_processes (k_table k))) k.
Proof.
  intros Hk Hp Hid' Hth. pose proof Hk as [[_ Hwf Hq Hc] Hpool]. destruct (find_process_of _ k pid p Hk Hp) as [Hin Hid].
  pose proof (sw_each _ _ _ Hwf _ Hin) as [W1 W2 W4 W3]. destruct (find_split _ _ _ Hp) as (l1 & l2 & El & Eu).
  unfold wp, put_process, mod_table, modify. split; [|done]. split; [|done]. simpl. constructor; [done| |done|done].
  assert (sh_pid (shape p') = sh_pid (shape p)) as E1 by (rewrite Hid; exact Hid').
  assert (sh_threads (shape p') = sh_threads (shape p)) as E2 by (simpl; by rewrite Hth).
  assert (sh_main (shape p') = sh_main (shape p)) as E3 by (simpl; unfold main_tid; by rewrite Hth).
  unfold shapes in *. simpl. rewrite Eu, map_app. simpl map. rewrite El, map_app in Hwf. simpl map in Hwf.
  apply (shapes_wf_replace (map shape l1) [shape p] [_] (map shape l2) _ _ Hwf); simpl; rewrite ?app_nil_r.
  - apply NoDup_singleton.
  - unfold sh_tids. rewrite E2. destruct Hwf as [_ Hwf _ _ _]. rewrite map_app, concat_app in Hwf.
    simpl in Hwf. by apply NoDup_app in Hwf as (_ & _ & (Hnd & _)%NoDup_app).
  - intros x ->%list_elem_of_singleton. left. apply list_elem_of_singleton. exact E1.
  - unfold sh_tids. rewrite E2. auto.
  - intros s ->%list_elem_of_singleton. split.
    + constructor; unfold sh_tids; rewrite ?E1, ?E2, ?E3; done.
    + rewrite E1. apply (sw_pid_range _ _ _ Hwf). rewrite elem_of_app, elem_of_cons. tauto.
Qed.

Lemma set_credentials_ok pid c : op_ok (Table.set_credentials pid c).
Proof.
  intros k Hk _. unfold Table.set_credentials. find_step. destruct (find_process k pid) as [p|] eqn:Ep; [|done].
  destruct (find_process_of _ k pid p Hk Ep) as [_ Hid].
  apply wp_then; [|done]. eapply wp_mono; [by eapply put_info_ok|]. by intros ? ? [? _].
Qed.

Lemma set_cwd_ok pid c : op_ok (Table.set_cwd pid c).
Proof.
  intros k Hk _. unfold Table.set_cwd. find_step. destruct (find_process k pid) as [p|] eqn:Ep; [|done].
  destruct (find_process_of _ k pid p Hk Ep) as [_ Hid].
  apply wp_then; [|done]. eapply wp_mono; [by eapply put_info_ok|]. by intros ? ? [? _].
Qed.

Lemma reserve_pid_ok k :
  kernel_wf k -> room k ->
  wp Table.reserve_pid (fun pid k' => kernel_wf k' /\ pid = pt_next_pid (k_table k) /\
    k' = k <| k_table ::= (fun t => t <| pt_next_pid := pid + 1 |>) |>) k.
Proof.
  intros [[H1 H2 H3 H4] H5] (Hr & _). unfold Table.reserve_pid, wp, u32_incr, checked_add_to. run.
  set (pid := pt_next_pid (k_table k)) in *. destruct (Z.leb_spec (pid + 1) u32_max); [|lia]. split; [|done].
  split; [|done]. constructor; simpl; [done| |done|lia]. destruct H2 as [A1 A2 A3 A4 A5]. constructor; try done.
  intros s Hs. specialize (A4 s Hs). lia.
Qed.

(** A new process, at the end of the list or in the place of the one with its pid. *)
Lemma store_insert_ok Sh tid k pid p :
  fresh_tid Sh tid k -> 0 <= pid < pt_next_pid (k_table k) -> shape p = mkShape pid tid [(tid, pid, true)] (info p) ->
  wp (mod_table (fun t => t <| pt_processes ::= Table.store_insert pid p |>)) (fun _ => kernel_wf) k.
Proof.
  intros ([[HSh Hwf Hq Hc] Hpool] & Hnew & Hrange) Hpid Hs. split; [|done]. constructor; [done| |done|done].
  assert (exists l1 mid l2, pt_processes (k_table k) = l1 ++ mid ++ l2 /\
    Table.store_insert pid p (pt_processes (k_table k)) = l1 ++ [p] ++ l2 /\
    (pid ∈ map sh_pid (map shape mid) \/ pid ∉ map sh_pid (map shape (pt_processes (k_table k)))))
    as (l1 & mid & l2 & El & Ei & Hp).
  { unfold Table.store_insert. destruct (List.find _ _) as [q|] eqn:Eq.
    - destruct (find_split _ _ _ Eq) as (l1 & l2 & El & Eu). exists l1, [q], l2. split; [done|]. split; [apply Eu|].
      left. apply find_Some in Eq as [_ Hk%Z.eqb_eq]. simpl. rewrite Hk. apply list_elem_of_here.
    - exists (pt_processes (k_table k)), [], []. rewrite !app_nil_r. split; [done|]. split; [done|]. right.
      rewrite find_key_None in Eq. rewrite map_map. intros (x & -> & Hx)%elem_of_map. by destruct (Eq x Hx). }
  unfold shapes. simpl. rewrite Ei, !map_app. simpl map. rewrite Hs.
  rewrite El, !map_app in Hp. rewrite <-HSh in Hwf, Hnew. unfold shapes in Hwf, Hnew. rewrite El, !map_app in Hwf.
  rewrite El in Hnew. apply (shapes_wf_replace _ (map shape mid) [_] _ _ _ Hwf); simpl.
  - apply NoDup_singleton.
  - apply NoDup_singleton.
  - intros x ->%list_elem_of_singleton. by rewrite !map_app.
  - intros x ->%list_elem_of_singleton. right. by rewrite <-!map_app.
  - intros s ->%list_elem_of_singleton. split; [|done]. constructor; simpl; [apply list_elem_of_here|by constructor|by constructor|].
    unfold MAX_THREADS_PER_PROCESS. lia.
Qed.

Lemma insert_process_ok pid parent name path arg mode space k :
  kernel_wf k -> pt_next_tid (k_table k) < u32_max -> 0 <= pid < pt_next_pid (k_table k) ->
  stack_top (as_layout space) <= USER_END ->
  wp (Table.insert_process pid parent name path arg mode space) (fun _ => kernel_wf) k.
Proof.
  intros Hk Hr Hpid Htop. unfold Table.insert_process. apply wp_bind. change (wp get ?Q k) with (Q k k). cbv beta zeta.
  destruct (match parent ≫= find_process k with Some q => _ | None => _ end) as [pgid sid].
  apply reserve_step; [done..|]. intros tid k1 Hfr _ Hsame Hnext.
  eapply store_insert_ok; [exact Hfr|by rewrite Hnext|]. unfold shape. simpl. unfold thread_shape, stack_ok. simpl.
  apply Z.leb_le in Htop. by rewrite Htop.
Qed.

Lemma create_process_with_job_mode_ok parent name path arg mode space :
  stack_top (as_layout space) <= USER_END -> op_ok (Table.create_process_with_job_mode parent name path arg mode space).
Proof.
  intros Htop k Hk Hr. unfold Table.create_process_with_job_mode. apply wp_bind.
  eapply wp_mono; [by apply reserve_pid_ok|]. intros pid k1 (Hk1 & -> & ->). apply wp_then; [|done].
  pose proof Hk as [[_ _ _ Hc] _]. apply insert_process_ok; [done|apply Hr|simpl; lia|done].
Qed.

Lemma create_reserved_process_with_job_mode_ok pid parent name path arg mode space :
  0 <= pid < u32_max -> stack_top (as_layout space) <= USER_END -> op_ok (Table.create_reserved_process_with_job_mode pid parent name path arg mode space).
Proof.
  intros Hpid Htop k Hk Hr. unfold Table.create_reserved_process_with_job_mode. apply wp_bind.
  change (wp get ?Q k) with (Q k k). cbv beta. pose proof Hk as [[H1 H2 H3 H4] H5]. apply wp_bind.
  apply (wp_mono _ (fun _ k1 => kernel_wf k1 /\ pt_next_tid (k_table k1) < u32_max /\ pid < pt_next_pid (k_table k1))).
  - destruct (Z.leb_spec (pt_next_pid (k_table k)) pid); [|split; [done|split; [apply Hr|done]]].
    unfold wp, u32_incr, checked_add_to. run. destruct (Z.leb_spec (pid + 1) u32_max); [|lia]. simpl.
    split; [|split; [apply Hr|lia]]. split; [|done]. constructor; simpl; [done| |done|lia].
    destruct H2 as [A1 A2 A3 A4 A5]. constructor; try done. intros s Hs. specialize (A4 s Hs). lia.
  - intros _ k1 (Hk1 & Ht1 & Hp1). apply wp_then; [|done]. apply insert_process_ok; [done..|lia|done].
Qed.

(** Compaction only removes processes. *)
Lemma store_remove_ok k pid :
  kernel_wf k -> wp (mod_table (fun t => t <| pt_processes ::= Table.store_remove pid |>)) (fun _ => kernel_wf) k.
Proof.
  intros [[H1 H2 H3 H4] H5]. split; [|done]. constructor; [done| |done|done]. unfold shapes. simpl.
  unfold Table.store_remove. destruct (position _ _) as [i|] eqn:Ei; [|done].
  apply position_Some in Ei as (p & Hp & _ & _). unfold shapes in H2.
  rewrite <-(take_drop_middle _ i p Hp) in H2. rewrite map_app in H2. simpl in H2.
  rewrite delete_take_drop, map_app.
  apply (shapes_wf_replace _ [shape p] [] _ _ _ H2); simpl; try constructor; set_solver.
Qed.

Lemma remove_all_ok pids : forall k, kernel_wf k -> wp (Table.remove_all pids) (fun _ => kernel_wf) k.
Proof.
  induction pids as [|pid pids IH]; intros k Hk; [done|]. cbn [Table.remove_all].
  apply wp_then; [apply safe_kernel; [|done]; intros Sh; apply safe_remove_from_ready_queue|].
  intros _ k1 Hk1. apply wp_then; [by apply store_remove_ok|]. intros _ k2 Hk2. by apply IH.
Qed.

Lemma compact_reaped_history_ok keep : op_ok (Table.compact_reaped_history keep).
Proof.
  intros k Hk _. unfold Table.compact_reaped_history. apply wp_bind. change (wp get ?Q k) with (Q k k). cbv beta zeta.
  apply wp_then; [by apply remove_all_ok|done].
Qed.

(** ** Any sequence of method calls *)

Inductive TableOp :=
  | OpReservePid
  | OpCreateProcess (parent : option Z) (name path : bytes) (arg : UserProgramArg) (mode : JobMode) (space : AddressSpace)
  | OpCreateReserved (pid : Z) (parent : option Z) (name path : bytes) (arg : UserProgramArg) (mode : JobMode)
      (space : AddressSpace)
  | OpCreateThread (pid : Z)
  | OpCreateKernelThread
  | OpSetKernelThreadState (tid : Z) (st : ThreadState)
  | OpCreateUserThread (pid entry lo hi rsp arg : Z)
  | OpCreateManagedThread (pid entry arg : Z)
  | OpThreadExited (tid : Z)
  | OpJoin (caller target : Z) (c : UserResumeContext)
  | OpBlock (tid : Z) (c : UserResumeContext)
  | OpWake (tid v : Z)
  | OpSetCredentials (pid : Z) (c : ProcessCredentials)
  | OpSetCwd (pid : Z) (cwd : NormalizedPath)
  | OpReady (pid : Z)
  | OpRunning (pid : Z)
  | OpRunningFresh (pid : Z)
  | OpExited (pid status : Z)
  | OpStop (pid signal : Z)
  | OpContinue (caller pid : Z)
  | OpTerminate (caller target status : Z)
  | OpSignal (caller target signal : Z)
  | OpDisposition (pid signal d : Z)
  | OpActivate (pid tid signal handler : Z) (c : UserResumeContext)
  | OpRestore (pid tid : Z)
  | OpMask (pid : Z) (how : Table.SignalMaskHow) (mask : Z)
  | OpSetGroup (caller target group : Z)
  | OpCreateSession (pid : Z)
  | OpReaped (pid : Z)
  | OpWaiting (pid child : Z) (c : UserResumeContext)
  | OpSleeping (pid tick : Z) (c : UserResumeContext)
  | OpThreadYielded (tid : Z) (c : UserResumeContext)
  | OpYielded (pid : Z) (c : UserResumeContext)
  | OpReapChild (parent child : Z)
  | OpResumeParent (parent child : Z)
  | OpReapOrphans
  | OpReapUnwaited
  | OpWakeSleeping (now : Z)
  | OpCompact (keep : nat)
  | OpDequeue
  | OpSchedule
  | OpPreemptThread (tid : Z) (c : UserResumeContext)
  | OpPreemptUser (pid : Z) (c : UserResumeContext)
  | OpRecordThreadYield (tid : Z)
  | OpRecordUserYield (pid : Z)
  | OpIsolated (pid : Z).

Definition ignore {A} (m : M Kernel A) : M Kernel () := m ≫= fun _ => mret ().

Definition run_op (op : TableOp) : M Kernel () :=
  match op with
  | OpReservePid => ignore Table.reserve_pid
  | OpCreateProcess parent name path arg mode space =>
    ignore (Table.create_process_with_job_mode parent name path arg mode space)
  | OpCreateReserved pid parent name path arg mode space =>
    ignore (Table.create_reserved_process_with_job_mode pid parent name path arg mode space)
  | OpCreateThread pid => ignore (Table.create_thread pid)
  | OpCreateKernelThread => ignore Table.create_kernel_thread
  | OpSetKernelThreadState tid st => ignore (Table.set_kernel_thread_state tid st)
  | OpCreateUserThread pid entry lo hi rsp arg => ignore (Table.create_user_thread pid entry lo hi rsp arg)
  | OpCreateManagedThread pid entry arg => ignore (Table.create_managed_user_thread pid entry arg)
  | OpThreadExited tid => ignore (Table.mark_thread_exited tid)
  | OpJoin caller target c => ignore (Table.join_thread caller target c)
  | OpBlock tid c => ignore (Table.block_thread tid c)
  | OpWake tid v => ignore (Table.wake_thread tid v)
  | OpSetCredentials pid c => ignore (Table.set_credentials pid c)
  | OpSetCwd pid cwd => ignore (Table.set_cwd pid cwd)
  | OpReady pid => ignore (Table.mark_ready pid)
  | OpRunning pid => ignore (Table.mark_running pid)
  | OpRunningFresh pid => ignore (Table.mark_running_fresh pid)
  | OpExited pid status => ignore (Table.mark_exited pid status)
  | OpStop pid signal => ignore (Table.stop_user_process pid signal)
  | OpContinue caller pid => ignore (Table.continue_user_process caller pid)
  | OpTerminate caller target status => ignore (Table.terminate_user_process caller target status)
  | OpSignal caller target signal => ignore (Table.send_signal caller target signal)
  | OpDisposition pid signal d => ignore (Table.set_signal_disposition pid signal d)
  | OpActivate pid tid signal handler c => ignore (Table.activate_running_signal_handler pid tid signal handler c)
  | OpRestore pid tid => ignore (Table.restore_signal_context pid tid)
  | OpMask pid how mask => ignore (Table.update_signal_mask pid how mask)
  | OpSetGroup caller target group => ignore (Table.set_process_group caller target group)
  | OpCreateSession pid => ignore (Table.create_session pid)
  | OpReaped pid => ignore (Table.mark_reaped pid)
  | OpWaiting pid child c => ignore (Table.mark_waiting pid child c)
  | OpSleeping pid tick c => ignore (Table.mark_sleeping pid tick c)
  | OpThreadYielded tid c => ignore (Table.mark_thread_yielded tid c)
  | OpYielded pid c => ignore (Table.mark_yielded pid c)
  | OpReapChild parent child => ignore (Table.reap_child parent child)
  | OpResumeParent parent child => ignore (Table.resume_waiting_parent parent child)
  | OpReapOrphans => ignore Table.reap_orphan_zombies
  | OpReapUnwaited => ignore Table.reap_unwaited_zombies
  | OpWakeSleeping now => ignore (Table.wake_sleeping_processes now)
  | OpCompact keep => ignore (Table.compact_reaped_history keep)
  | OpDequeue => ignore Table.dequeue_ready
  | OpSchedule => ignore Table.schedule_next_ready_user
  | OpPreemptThread tid c => ignore (Table.preempt_running_thread tid c)
  | OpPreemptUser pid c => ignore (Table.preempt_running_user pid c)
  | OpRecordThreadYield tid => ignore (Table.record_thread_yield tid)
  | OpRecordUserYield pid => ignore (Table.record_user_yield pid)
  | OpIsolated pid => ignore (Table.mark_isolated pid)
  end.

(** Reserved pids come from [reserve_pid]; the stop signal is a signal number. *)
Definition op_valid (op : TableOp) : Prop :=
  match op with
  | OpCreateProcess _ _ _ _ _ space => stack_top (as_layout space) <= USER_END
  | OpCreateReserved pid _ _ _ _ _ space => 0 <= pid < u32_max /\ stack_top (as_layout space) <= USER_END
  | OpCreateUserThread _ _ _ hi _ _ => hi <= USER_END
  | OpStop _ signal => 0 <= signal <= 64
  | _ => True
  end.

(** The states of the kernel: the empty table, then method calls while the
    counters have room, interleaved with the work of other modules. *)
Inductive reachable : Kernel -> Prop :=
  | reach_boot k : k_table k = Table.new -> pool_wf (ad_pool (k_addr k)) -> reachable k
  | reach_op k op k' : reachable k -> room k -> op_valid op -> run_op op k = Done ((), k') -> reachable k'
  | reach_other k k' : reachable k -> k_table k' = k_table k -> pool_wf (ad_pool (k_addr k')) -> reachable k'.

#[export] Hint Resolve start_process_run_safe set_kernel_thread_state_safe block_thread_safe wake_thread_safe
  mark_thread_exited_safe join_thread_safe mark_ready_safe mark_running_safe
  mark_exited_safe stop_user_process_safe continue_user_process_safe terminate_user_process_safe send_signal_safe
  set_signal_disposition_safe activate_running_signal_handler_safe restore_signal_context_safe
  update_signal_mask_safe set_process_group_safe create_session_safe mark_reaped_safe mark_waiting_safe
  mark_sleeping_safe mark_thread_yielded_safe mark_yielded_safe reap_child_safe resume_waiting_parent_safe
  reap_orphan_zombies_safe reap_unwaited_zombies_safe wake_sleeping_processes_safe dequeue_ready_safe
  schedule_next_ready_user_safe preempt_running_thread_safe preempt_running_user_safe record_thread_yield_safe
  record_user_yield_safe mark_isolated_safe : vantara.

#[export] Hint Resolve create_process_with_job_mode_ok create_reserved_process_with_job_mode_ok create_thread_ok
  create_kernel_thread_ok create_user_thread_ok create_managed_user_thread_ok compact_reaped_history_ok set_credentials_ok set_cwd_ok : vantara.

Lemma ignore_ok {A} (m : M Kernel A) : op_ok m -> op_ok (ignore m).
Proof. intros H k Hk Hr. apply wp_then; [by apply H|done]. Qed.

Lemma run_op_ok op : op_valid op -> op_ok (run_op op).
Proof.
  intros Hv. destruct op; simpl in Hv |- *; apply ignore_ok;
    first [ solve [eauto with vantara]
          | solve [destruct Hv; eauto with vantara]
          | solve [apply op_keeps_ok; eauto with vantara]
          | solve [apply safe_op0; eauto with vantara]
          | solve [apply safe_op; unfold Table.mark_running_fresh; eauto with vantara]
          | idtac ].
  intros k Hk Hr. eapply wp_mono; [by apply reserve_pid_ok|by intros ? ? [? _]].
Qed.

Lemma reachable_wf k : reachable k -> kernel_wf k.
Proof.
  induction 1 as [k Ht Hp|k op k' _ IH Hr Hv E|k k' _ IH Ht Hp].
  - split; [|done]. rewrite Ht. constructor; [done| |constructor|vm_compute; intuition congruence].
    constructor; simpl; try constructor; set_solver.
  - pose proof (run_op_ok op Hv k IH Hr) as H. unfold wp in H. by rewrite E in H.
  - destruct IH as [IH _]. split; [|done]. by rewrite Ht.
Qed.

(** C3. The process table keeps its structure.  The arguments of a method are
    taken to be valid: a reserved pid is below the largest 32-bit number, the
    signal that stops a process is at most 64, and the stack top given for a new
    process or thread is at most 2^47; and methods are called while the
    counters of pids, threads and context switches have room.  In every state
    such calls reach from the empty table, interleaved with work of other
    modules that leaves the table alone, process ids and thread ids are unique
    and below the counters they come from, every process has its main thread and
    owns all its threads (16 at most), and no thread is queued twice; and from
    such a state every method with valid arguments returns without a panic, to
    such a state again. *)
Theorem table_ops_safe (k : Kernel) :
  reachable k ->
  kernel_wf k /\
  forall op, room k -> op_valid op -> exists k', run_op op k = Done ((), k') /\ reachable k'.
Proof.
  intros Hk. pose proof (reachable_wf k Hk) as Hwf. split; [done|]. intros op Hr Hv.
  destruct (proj1 (wp_run _ _ _) (run_op_ok op Hv k Hwf Hr)) as ([] & k' & E & _).
  exists k'. split; [done|]. by eapply reach_op.
Qed.

(** An executable check of well-formedness, for concrete states. *)
Definition shape_check (np nt : Z) (s : Shape) : bool :=
  bool_decide (sh_main s ∈ sh_tids s) && forallb (fun t => (t.1.2 =? sh_pid s) && t.2) (sh_threads s)
  && (length (sh_threads s) <=? MAX_THREADS_PER_PROCESS)%nat && (0 <=? sh_pid s) && (sh_pid s <? np)
  && forallb (fun t => (0 <? t) && (t <? nt)) (sh_tids s).

Definition table_check (t : ProcessTable) : bool :=
  bool_decide (NoDup (map sh_pid (shapes t))) && bool_decide (NoDup (concat (map sh_tids (shapes t))))
  && forallb (shape_check (pt_next_pid t) (pt_next_tid t)) (shapes t) && bool_decide (NoDup (pt_ready_queue t))
  && (1 <=? pt_next_pid t) && (pt_next_pid t <=? u32_max) && (1 <=? pt_next_tid t) && (pt_next_tid t <=? u32_max)
  && (0 <=? pt_user_context_switches t) && (pt_user_context_switches t <=? u64_max).

Lemma forallb_elem {A} (q : A -> bool) (l : list A) : forallb q l = true -> forall x, x ∈ l -> q x = true.
Proof. intros H x Hx. eapply forallb_forall; [exact H|by apply list_elem_of_In]. Qed.

Lemma shape_check_sound np nt s :
  shape_check np nt s = true -> shape_wf s /\ 0 <= sh_pid s < np /\ forall t, t ∈ sh_tids s -> 0 < t < nt.
Proof.
  unfold shape_check. intros H. bool_to_prop.
  repeat match goal with H : bool_decide _ = true |- _ => apply bool_decide_eq_true_1 in H end.
  match goal with H : forallb _ (sh_threads s) = true |- _ => pose proof (forallb_elem _ _ H) as Ho end.
  match goal with H : forallb _ (sh_tids s) = true |- _ => pose proof (forallb_elem _ _ H) as Ht end.
  split; [|split; [lia|]].
  - constructor; [done| | |lia]; apply Forall_forall; intros t Hx; specialize (Ho t Hx); simpl in Ho; by apply andb_true_iff in Ho as [?%Z.eqb_eq ?].
  - intros t Hx. specialize (Ht t Hx). simpl in Ht. bool_to_prop. lia.
Qed.

Lemma table_check_sound t : table_check t = true -> table_inv (shapes t) t.
Proof.
  unfold table_check. intros H. bool_to_prop.
  repeat match goal with H : bool_decide _ = true |- _ => apply bool_decide_eq_true_1 in H end.
  match goal with H : forallb _ (shapes t) = true |- _ => pose proof (forallb_elem _ _ H) as Hs end.
  constructor; [done| |done|lia]. constructor; [done|done|..].
  - intros s Hin. by destruct (shape_check_sound _ _ _ (Hs s Hin)).
  - intros s Hin. by destruct (shape_check_sound _ _ _ (Hs s Hin)) as (_ & ? & _).
  - intros x Hx. apply list_elem_of_In, in_concat in Hx as (l & Hl & Hx). apply in_map_iff in Hl as (s & <- & Hin).
    apply list_elem_of_In in Hin, Hx. destruct (shape_check_sound _ _ _ (Hs s Hin)) as (_ & _ & Hr). by apply Hr.
Qed.

Lemma kernel_check k : table_check (k_table k) = true -> pool_wf (ad_pool (k_addr k)) -> kernel_wf k.
Proof. intros. split; [by apply table_check_sound|done]. Qed.

Definition boot_kernel : Kernel :=
  mkKernel Table.new (mkAddr demo_pool (Some 0x100000) 0 (fun _ => 0)) (mkProgState [] [] false) Fds.new
    0 0 0 0 0 0 false 0 0 None None None.

Lemma table_ops_safe_witness :
  exists k', run_op (OpCreateReserved 0 None (str "kernel") (str "kernel") Arg.empty Foreground
                       (Space.kernel_placeholder 0)) boot_kernel = Done ((), k') /\ reachable k'.
Proof.
  apply (table_ops_safe boot_kernel).
  - apply reach_boot; [reflexivity|exact demo_pool_wf].
  - vm_compute. repeat split; reflexivity.
  - vm_compute. repeat split; reflexivity || (intros H; discriminate H).
Defined.
