(* ===== verification/Views.v ===== *)
(** * What an update of one process changes

    The methods of the process table look a process up, change it and write it
    back in its place.  Here: the lookups by pid and by tid after such a write
    (only that process changed), and the view of a single thread. *)

From S2P Require Import Prelude Utf8 Paths Vfs Ring3 Elf AddrSpace AddrSpaceProofs Threads Program Ipc Process TableSafety.

(** [k'] has [p'] in the place of [p]. *)
Definition replaced (k : Kernel) (p p' : Process) (k' : Kernel) : Prop :=
  exists l1 l2, pt_processes (k_table k) = l1 ++ p :: l2 /\ pt_processes (k_table k') = l1 ++ p' :: l2.

(** The state after a write. *)
Definition with_process (q : Process -> bool) (p' : Process) (k : Kernel) : Kernel :=
  k <| k_table ::= (fun t => t <| pt_processes ::= find_upd q (fun _ => p') |>) |>.

Lemma put_process_eq pid p' k : put_process pid p' k = Done ((), with_process (fun q => pr_pid q =? pid) p' k).
Proof. done. Qed.

Lemma put_by_tid_eq tid p' k : put_by_tid tid p' k = Done ((), with_process (has_tid tid) p' k).
Proof. done. Qed.

Lemma with_process_replaced q p p' k :
  List.find q (pt_processes (k_table k)) = Some p -> replaced k p p' (with_process q p' k).
Proof. intros (l1 & l2 & El & Eu)%find_split. exists l1, l2. split; [done|]. simpl. apply Eu. Qed.

Section replaced.
Context (Sh : list Shape) (k : Kernel) (p p' : Process) (k' : Kernel).
Hypothesis Hi : inv Sh k.
Hypothesis Hr : replaced k p p' k'.
Hypothesis Hs : shape p' = shape p.

Lemma replaced_shapes : shapes (k_table k') = Sh.
Proof.
  destruct Hr as (l1 & l2 & E1 & E2). pose proof Hi as [[<- _ _ _] _]. unfold shapes. rewrite E1, E2, !map_app.
  simpl. by rewrite Hs.
Qed.

Lemma find_process_replaced pid : find_process k' pid = if pr_pid p =? pid then Some p' else find_process k pid.
Proof.
  destruct Hr as (l1 & l2 & E1 & E2). unfold find_process. rewrite E1, E2, !find_app. simpl.
  assert (pr_pid p' = pr_pid p) as -> by (by injection Hs).
  destruct (Z.eqb_spec (pr_pid p) pid) as [He|]; [|done].
  destruct (List.find _ l1) as [x|] eqn:Ex; [|done]. exfalso. apply find_Some in Ex as [Hx Hk%Z.eqb_eq].
  pose proof Hi as [[HSh Hwf _ _] _]. pose proof (sw_pids _ _ _ Hwf) as Hnd.
  rewrite <-HSh in Hnd. unfold shapes in Hnd. rewrite E1, map_map, map_app in Hnd.
  apply NoDup_app in Hnd as (_ & Hd & _). apply (Hd pid).
  - apply elem_of_map. exists x. by rewrite <-Hk.
  - simpl. rewrite He. apply list_elem_of_here.
Qed.

Lemma find_by_tid_replaced tid : find_by_tid k' tid = if has_tid tid p then Some p' else find_by_tid k tid.
Proof.
  destruct Hr as (l1 & l2 & E1 & E2). unfold find_by_tid. rewrite E1, E2, !find_app. simpl.
  assert (has_tid tid p' = has_tid tid p) as ->.
  { destruct (has_tid tid p) eqn:E; [|apply not_true_iff_false in E; apply not_true_iff_false];
      rewrite has_tid_shape in *; by rewrite Hs. }
  destruct (has_tid tid p) eqn:Et; [|done].
  destruct (List.find _ l1) as [x|] eqn:Ex; [|done]. exfalso. apply find_Some in Ex as [Hx Hk%has_tid_shape].
  apply has_tid_shape in Et. pose proof Hi as [[HSh Hwf _ _] _]. pose proof (sw_tids _ _ _ Hwf) as Hnd.
  rewrite <-HSh in Hnd. unfold shapes in Hnd. rewrite E1, !map_app, concat_app in Hnd. simpl in Hnd.
  apply NoDup_app in Hnd as (_ & Hd & _). apply (Hd tid).
  - apply (shape_tid_in _ (shape x)); [|done]. apply elem_of_map. eauto.
  - apply elem_of_app. by left.
Qed.

Lemma thread_replaced tid :
  Table.thread k' tid = if has_tid tid p then TStore.get (pr_threads p') tid else Table.thread k tid.
Proof. unfold Table.thread. rewrite find_by_tid_replaced. by destruct (has_tid tid p). Qed.
End replaced.

(** ** One thread of a process *)

Lemma get_upd_thread tid upd p tid' :
  (forall t, th_tid (upd t) = th_tid t) ->
  TStore.get (pr_threads (upd_thread tid upd p)) tid' =
  if tid' =? tid then upd <$> TStore.get (pr_threads p) tid' else TStore.get (pr_threads p) tid'.
Proof.
  intros Hu. unfold TStore.get. simpl. destruct (Z.eqb_spec tid' tid) as [->|Hne].
  - destruct (List.find _ (ts_items (pr_threads p))) as [t|] eqn:E; simpl.
    + erewrite find_find_upd_eq; [done| |done]. intros x Hx. by rewrite Hu.
    + rewrite find_upd_none; done.
  - rewrite find_find_upd_ne; [done|]. intros x Hx%Z.eqb_eq. rewrite Hu.
    split; apply Z.eqb_neq; congruence.
Qed.

Lemma get_refresh p tid : TStore.get (pr_threads (refresh_state_from_threads p)) tid = TStore.get (pr_threads p) tid.
Proof. unfold refresh_state_from_threads. by destruct (is_dead (pr_state p)). Qed.

Lemma has_tid_get p tid t : TStore.get (pr_threads p) tid = Some t -> has_tid tid p = true.
Proof. unfold has_tid. by intros ->. Qed.

(** [th_tid] of the thread found is the one looked for. *)
Lemma get_tid p tid t : TStore.get (pr_threads p) tid = Some t -> th_tid t = tid.
Proof. by intros [_ ?%Z.eqb_eq]%find_Some. Qed.

(** The processes that hold a thread are the same. *)
Lemma thread_some k tid t : Table.thread k tid = Some t -> exists p, find_by_tid k tid = Some p /\ TStore.get (pr_threads p) tid = Some t.
Proof. unfold Table.thread. destruct (find_by_tid k tid) as [p|]; [|done]. simpl. eauto. Qed.

Lemma shape_inj Sh k p q :
  inv Sh k -> p ∈ pt_processes (k_table k) -> q ∈ pt_processes (k_table k) -> shape p = shape q -> p = q.
Proof.
  intros [[HSh Hwf _ _] _] Hp Hq Hs. apply (NoDup_map_inj pr_pid (pt_processes (k_table k))); [|done|done|by injection Hs].
  pose proof (sw_pids _ _ _ Hwf) as Hnd. rewrite <-HSh in Hnd. unfold shapes in Hnd. by rewrite map_map in Hnd.
Qed.

(** A process with thread [tid] is the one the lookup by tid finds. *)
Lemma find_by_tid_elem Sh k p tid :
  inv Sh k -> p ∈ pt_processes (k_table k) -> has_tid tid p = true -> find_by_tid k tid = Some p.
Proof.
  intros Hi Hp Ht. destruct (find_by_tid k tid) as [q|] eqn:E.
  - pose proof (find_by_tid_of Sh k tid q Hi E) as [Hq Hqt]. apply find_Some in E as [Hin _]. f_equal.
    eapply shape_inj; [done..|]. pose proof Hi as [[HSh Hwf _ _] _]. apply has_tid_shape in Ht.
    apply (concat_tid_unique Sh _ _ tid (sw_tids _ _ _ Hwf)); [done| |done|done]. rewrite <-HSh. by apply shapes_elem.
  - unfold find_by_tid in E. rewrite find_None in E. by rewrite (E p Hp) in Ht.
Qed.

(** Changing one thread of a process, and nothing else that identifies it,
    changes that thread only. *)
Lemma thread_updated Sh k k' tid upd p p' t :
  inv Sh k -> replaced k p p' k' -> shape p' = shape p -> TStore.get (pr_threads p) tid = Some t ->
  (forall tid', TStore.get (pr_threads p') tid' = TStore.get (pr_threads (upd_thread tid upd p)) tid') ->
  (forall t, th_tid (upd t) = th_tid t) -> find_by_tid k tid = Some p ->
  forall tid', Table.thread k' tid' = if tid' =? tid then Some (upd t) else Table.thread k tid'.
Proof.
  intros Hi Hr Hs Ht Hget Hu Hf tid'. rewrite (thread_replaced Sh k p p' k' Hi Hr Hs), Hget, get_upd_thread by done.
  destruct (Z.eqb_spec tid' tid) as [->|Hne].
  - by rewrite (has_tid_get p tid t), Ht.
  - destruct (has_tid tid' p) eqn:E; [|done]. apply find_Some in Hf as [Hp _]. unfold Table.thread.
    by rewrite (find_by_tid_elem Sh k p tid').
Qed.
