(* ===== verification/Scheduling.v ===== *)
(** * The user scheduler is a fair FIFO queue

    [schedule_next_ready_user] takes the first queued thread that can run
    (C12); a thread that yields goes to the back with its registers saved, so
    that threads which run and yield take turns, each resumed with exactly the
    registers it was last suspended with (C11). *)

From S2P Require Import Prelude Utf8 Paths Vfs Ring3 Elf AddrSpace AddrSpaceProofs Threads Program Ipc Process TableSafety Views.

Definition queue (k : Kernel) : list Z := pt_ready_queue (k_table k).

(** The registers with which a queued thread can be resumed now, if it can. *)
Definition runnable (k : Kernel) (tid : Z) : option UserResumeContext :=
  t ← Table.thread k tid; if ThreadState_eqb (th_state t) TReady then th_resume_context t else None.

(** The entry at the head of the queue dropped and counted. *)
Definition skipped (k : Kernel) : Kernel :=
  k <| k_table ::= (fun t => t <| pt_ready_queue ::= tail |>
                               <| pt_ready_queue_skips ::= (fun n => u64_saturating_add n 1) |>) |>.

Definition same_threads (k k' : Kernel) : Prop := forall tid, Table.thread k' tid = Table.thread k tid.

(** Thread [tid] is [t] in [k'], the other threads are as in [k]. *)
Definition only_thread (k : Kernel) (tid : Z) (t : Thread) (k' : Kernel) : Prop :=
  forall tid', Table.thread k' tid' = if tid' =? tid then Some t else Table.thread k tid'.

(** [s] describes the thread [sc_tid s], which leaves [k] for the processor with the state [k']. *)
Definition dispatched (k : Kernel) (s : Table.ScheduledUserResume) (k' : Kernel) : Prop :=
  exists p t, find_by_tid k (Table.sc_tid s) = Some p /\ TStore.get (pr_threads p) (Table.sc_tid s) = Some t /\
    s = Table.mkSched (pr_pid p) (Table.sc_tid s) (pr_name p) (Table.sc_resume_context s) (as_p4_frame (pr_address_space p)) /\
    only_thread k (Table.sc_tid s)
      (start_thread (k_ticks k) (t <| th_resume_context := None |> <| th_state := TRunning |>)) k'.

Definition schedule_post (k : Kernel) (r : option Table.ScheduledUserResume) (k' : Kernel) : Prop :=
  match r with
  | None => (forall tid, tid ∈ queue k -> runnable k tid = None) /\ queue k' = [] /\ same_threads k k'
            /\ switches k' = switches k
  | Some s => exists l1 l2, queue k = l1 ++ Table.sc_tid s :: l2 /\ (forall tid, tid ∈ l1 -> runnable k tid = None) /\
      runnable k (Table.sc_tid s) = Some (Table.sc_resume_context s) /\ queue k' = l2 /\ dispatched k s k'
      /\ switches k' = switches k + 1
  end.

Lemma inv_skipped Sh k : inv Sh k -> inv Sh (skipped k).
Proof.
  intros [[H1 H2 H3 H4] H5]. split; [|done]. constructor; try done. simpl. destruct (pt_ready_queue (k_table k)); [done|].
  by apply NoDup_cons in H3 as [_ ?].
Qed.

(** A queued thread that cannot run is passed over. *)
Lemma schedule_loop_skip fuel k tid q :
  queue k = tid :: q -> runnable k tid = None -> Table.schedule_loop (S fuel) k = Table.schedule_loop fuel (skipped k).
Proof.
  intros Hq Hr. unfold queue, runnable, Table.thread in *. cbn [Table.schedule_loop].
  unfold Table.pop_ready, mod_table. run. rewrite Hq. run.
  destruct (find_by_tid k tid) as [p|] eqn:Ep; [|done]. unfold Table.ready_thread. simpl in Hr.
  destruct (TStore.get (pr_threads p) tid) as [t|] eqn:Et; [|done]. simpl in Hr |- *.
  destruct (ThreadState_eqb (th_state t) TReady) eqn:Es; [|done]. by rewrite Hr.
Qed.

Lemma count_ok k : switches k < u64_max ->
  Table.count_context_switch k = Done ((), k <| k_table ::= (fun t => t <| pt_user_context_switches := switches k + 1 |>) |>).
Proof.
  intros H. unfold Table.count_context_switch, u64_incr, u64_checked_add, checked_add_to. run.
  unfold switches in *. destruct (Z.leb_spec (pt_user_context_switches (k_table k) + 1) u64_max); [done|lia].
Qed.

(** The first queued thread that can run is put on the processor. *)
Lemma schedule_loop_run Sh fuel k tid q c :
  inv Sh k -> switches k < u64_max -> queue k = tid :: q -> runnable k tid = Some c ->
  exists s k', Table.schedule_loop (S fuel) k = Done (Some s, k') /\ inv Sh k' /\ Table.sc_tid s = tid /\
    Table.sc_resume_context s = c /\ queue k' = q /\ dispatched k s k' /\ switches k' = switches k + 1.
Proof.
  intros Hi Hsw Hq Hr. pose proof (schedule_loop_safe Sh (S fuel) k Hi ltac:(lia)) as Hsafe.
  unfold queue, runnable, Table.thread in Hq, Hr. destruct (find_by_tid k tid) as [p|] eqn:Ep; [|done]. simpl in Hr.
  destruct (TStore.get (pr_threads p) tid) as [t|] eqn:Et; [|done]. simpl in Hr.
  destruct (ThreadState_eqb (th_state t) TReady) eqn:Es; [|done].
  set (p1 := upd_thread tid (fun t => start_thread (k_ticks k) (t <| th_state := TRunning |>))
               (upd_thread tid (fun t => t <| th_resume_context := None |>) p)).
  set (k1 := with_process (has_tid tid) (refresh_state_from_threads p1)
               (k <| k_table ::= (fun t => t <| pt_ready_queue ::= tail |>) |>)).
  set (k' := k1 <| k_table ::= (fun t => t <| pt_user_context_switches := switches k + 1 |>) |>).
  set (s := Table.mkSched (pr_pid p) tid (pr_name p) c (as_p4_frame (pr_address_space p))).
  assert (Table.schedule_loop (S fuel) k = Done (Some s, k')) as E.
  { cbn [Table.schedule_loop]. unfold Table.pop_ready, mod_table. run. rewrite Hq. run. rewrite Ep.
    unfold Table.ready_thread. rewrite Et, Es. cbn [negb]. run. rewrite Hr. unfold Table.run_thread. run.
    rewrite put_by_tid_eq, count_ok by done. done. }
  unfold wp in Hsafe. rewrite E in Hsafe. destruct Hsafe as (Hi' & _ & _).
  exists s, k'. split; [done|]. split; [exact Hi'|]. do 2 (split; [done|]). split; [unfold queue, k'; simpl; by rewrite Hq|].
  split; [|done]. exists p, t. do 3 (split; [done|]).
  set (upd (t : Thread) := start_thread (k_ticks k) (t <| th_resume_context := None |> <| th_state := TRunning |>)).
  refine (thread_updated Sh k k' tid upd p (refresh_state_from_threads p1) t Hi _ _ Et _ _ Ep).
  - by apply (with_process_replaced (has_tid tid) p _ k).
  - rewrite shape_refresh. unfold p1. by rewrite !shape_upd_thread.
  - intros tid'. unfold p1. rewrite get_refresh, !get_upd_thread by done.
    destruct (tid' =? tid); [|done]. by destruct (TStore.get (pr_threads p) tid').
  - done.
Qed.

Lemma same_runnable k k' tid : Table.thread k' tid = Table.thread k tid -> runnable k' tid = runnable k tid.
Proof. unfold runnable. by intros ->. Qed.

Lemma schedule_loop_spec Sh fuel : forall k,
  inv Sh k -> switches k < u64_max -> (length (queue k) <= fuel)%nat ->
  exists r k', Table.schedule_loop fuel k = Done (r, k') /\ inv Sh k' /\ schedule_post k r k'.
Proof.
  induction fuel as [|fuel IH]; intros k Hi Hsw Hl.
  { exists None, k. split; [done|]. split; [done|]. destruct (queue k) eqn:E; [|simpl in Hl; lia]. unfold schedule_post.
    rewrite E. split_and!; [set_solver|done|done|done]. }
  destruct (queue k) as [|tid q] eqn:Hq.
  { exists None, k. cbn [Table.schedule_loop]. run. unfold queue in Hq. rewrite Hq. split; [done|]. split; [done|].
    unfold schedule_post, queue. rewrite Hq. split_and!; [set_solver|done|done|done]. }
  destruct (runnable k tid) as [c|] eqn:Hr.
  - destruct (schedule_loop_run Sh fuel k tid q c) as (s & k' & E & Hi' & <- & <- & Hq' & Hd & Hs); [done..|].
    exists (Some s), k'. split; [done|]. split; [done|]. exists [], q. split; [done|]. split; [set_solver|]. done.
  - destruct (IH (skipped k)) as (r & k' & E & Hi' & Hpost); [by apply inv_skipped|done|..].
    { unfold queue in *. simpl. rewrite Hq in *. simpl in *. lia. }
    exists r, k'. rewrite (schedule_loop_skip fuel k tid q) by done. split; [done|]. split; [done|].
    assert (queue (skipped k) = q) as Hqs by (unfold queue in *; simpl; by rewrite Hq).
    destruct r as [s|]; simpl in Hpost |- *; rewrite Hqs in Hpost.
    + destruct Hpost as (l1 & l2 & H1 & H2 & H3 & H4 & H5 & H6). exists (tid :: l1), l2. rewrite Hq, H1.
      split; [done|]. split; [|done]. intros tid' [->|H']%elem_of_cons; [done|]. by apply H2.
    + destruct Hpost as (H1 & H2 & H3 & H4). rewrite Hq. split; [|done].
      intros tid' [->|H']%elem_of_cons; [done|]. by apply H1.
Qed.

Lemma schedule_spec k :
  kernel_wf k -> switches k < u64_max ->
  exists r k', Table.schedule_next_ready_user k = Done (r, k') /\ kernel_wf k' /\ schedule_post k r k'.
Proof.
  intros Hk Hsw. unfold Table.schedule_next_ready_user. run.
  destruct (schedule_loop_spec _ (length (queue k)) k Hk Hsw ltac:(lia)) as (r & k' & E & Hi & Hp).
  exists r, k'. split; [done|]. split; [by eapply inv_wf|done].
Qed.

(** C12. Scheduling is first come, first served.  Among the queued threads,
    [schedule_next_ready_user] picks the first one that is ready and has saved
    registers, hands out exactly those registers, marks it running and counts
    the switch; the entries before it are dropped, the entries after it stay
    queued in order, and no other thread changes.  It finds nothing only when
    no queued thread can run. *)
Theorem schedule_fifo (k : Kernel) :
  kernel_wf k -> switches k < u64_max ->
  exists r k', Table.schedule_next_ready_user k = Done (r, k') /\ kernel_wf k' /\ schedule_post k r k'.
Proof. apply schedule_spec. Qed.

(** ** Yielding *)

Definition yielded (now : Z) (c : UserResumeContext) (t : Thread) : Thread :=
  stop_thread_run now t <| th_resume_context := Some c |> <| th_state := TReady |>.

Lemma enqueue_new k tid :
  tid ∉ queue k ->
  Table.enqueue_ready tid k = Done ((), k <| k_table ::= (fun t => t <| pt_ready_queue ::= (fun q => q ++ [tid]) |>) |>).
Proof.
  intros Hq. unfold Table.enqueue_ready, mod_table, modify. simpl. unfold set at 1. simpl.
  destruct (existsb (Z.eqb tid) (pt_ready_queue (k_table k))) eqn:E; [|done].
  apply existsb_spec in E as (x & Hx & <-%Z.eqb_eq). done.
Qed.

Lemma yield_spec k tid c t :
  kernel_wf k -> Table.thread k tid = Some t -> th_state t = TRunning -> tid ∉ queue k ->
  exists k', Table.mark_thread_yielded tid c k = Done (true, k') /\ kernel_wf k' /\
    only_thread k tid (yielded (k_ticks k) c t) k' /\ queue k' = queue k ++ [tid] /\ switches k' = switches k.
Proof.
  intros Hk Ht Hs Hq. destruct (thread_some k tid t Ht) as (p & Ep & Et).
  set (p1 := refresh_state_from_threads (upd_thread tid (yielded (k_ticks k) c) p <| pr_sleeping_until_tick := None |>)).
  set (k1 := with_process (has_tid tid) p1 k).
  set (k' := k1 <| k_table ::= (fun t => t <| pt_ready_queue ::= (fun q => q ++ [tid]) |>) |>).
  assert (Table.mark_thread_yielded tid c k = Done (true, k')) as E.
  { unfold Table.mark_thread_yielded. run. rewrite Ep. run. rewrite Et, Hs. change (negb (ThreadState_eqb TRunning TRunning)) with false. run. rewrite put_by_tid_eq.
    rewrite (enqueue_new k1) by done. done. }
  exists k'. split; [done|]. split; [|split; [|done]].
  - pose proof (safe_kernel _ k (fun Sh => mark_thread_yielded_safe Sh tid c) Hk) as Hw. unfold wp in Hw. by rewrite E in Hw.
  - refine (thread_updated _ k k' tid (yielded (k_ticks k) c) p p1 t Hk _ _ Et _ _ Ep).
    + by apply (with_process_replaced (has_tid tid) p _ k).
    + unfold p1. rewrite shape_refresh. rewrite <-(shape_upd_thread tid (yielded (k_ticks k) c) p); [done|].
      apply shape_stop_thread_run.
    + intros tid'. unfold p1. by rewrite get_refresh.
    + intros t'. unfold yielded. simpl. unfold stop_thread_run. by destruct (th_last_started_tick t').
Qed.

(** ** Taking turns *)

(** One turn: schedule a thread, let it run until it yields with the registers
    [work] gives it. *)
Definition turn (work : Table.ScheduledUserResume -> UserResumeContext) : M Kernel (option (Z * UserResumeContext)) :=
  ifSome s := Table.schedule_next_ready_user orelse mret None in
  Table.mark_thread_yielded (Table.sc_tid s) (work s);;
  mret (Some (Table.sc_tid s, Table.sc_resume_context s)).

Fixpoint turns (work : Table.ScheduledUserResume -> UserResumeContext) (n : nat) :
    M Kernel (list (option (Z * UserResumeContext))) :=
  match n with
  | O => mret []
  | S n => r ← turn work; rs ← turns work n; mret (r :: rs)
  end.

(** Everything queued can run. *)
Definition all_runnable (k : Kernel) : Prop := forall tid, tid ∈ queue k -> exists c, runnable k tid = Some c.

Lemma turn_spec work k tid q c :
  kernel_wf k -> switches k < u64_max -> queue k = tid :: q -> runnable k tid = Some c ->
  exists s k', turn work k = Done (Some (tid, c), k') /\ kernel_wf k' /\ queue k' = q ++ [tid] /\
    Table.sc_tid s = tid /\ Table.sc_resume_context s = c /\
    runnable k' tid = Some (work s) /\ (forall tid', tid' <> tid -> Table.thread k' tid' = Table.thread k tid') /\
    switches k' = switches k + 1.
Proof.
  intros Hk Hsw Hq Hr. destruct (schedule_spec k Hk Hsw) as (r & k1 & E & Hk1 & Hpost).
  destruct r as [s|]; cycle 1.
  { destruct Hpost as (Hn & _). rewrite (Hn tid) in Hr; [done|]. rewrite Hq. apply list_elem_of_here. }
  destruct Hpost as (l1 & l2 & Hq1 & Hl1 & Hr1 & Hq2 & (p & t & Hp & Ht & Hs & Honly) & Hsw1).
  assert (l1 = [] /\ Table.sc_tid s = tid /\ l2 = q) as (-> & Htid & ->).
  { destruct l1 as [|x l1]; rewrite Hq in Hq1; [by injection Hq1 as -> ->|]. injection Hq1 as <- _.
    rewrite Hl1 in Hr by apply list_elem_of_here. done. }
  rewrite Htid in *. rewrite Hr in Hr1. injection Hr1 as Hc.
  set (t1 := start_thread (k_ticks k) (t <| th_resume_context := None |> <| th_state := TRunning |>)) in *.
  assert (Table.thread k1 tid = Some t1) as Ht1 by (by rewrite Honly, Z.eqb_refl).
  assert (tid ∉ queue k1) as Hnq.
  { rewrite Hq2. pose proof Hk as [[_ _ Hnd _] _]. unfold queue in Hq. rewrite Hq in Hnd. by apply NoDup_cons in Hnd as [? _]. }
  destruct (yield_spec k1 tid (work s) t1 Hk1 Ht1) as (k' & E' & Hk' & Ho & Hq' & Hsw'); [done|done|].
  exists s, k'. split.
  { unfold turn. run. rewrite E. run. rewrite Htid, E'. by rewrite <-Hc. }
  split; [done|]. split; [by rewrite Hq', Hq2|]. do 2 (split; [done|]). split; [|split].
  - unfold runnable. rewrite Ho, Z.eqb_refl. done.
  - intros tid' Hne. rewrite Ho, Honly. destruct (Z.eqb_spec tid' tid); done.
  - by rewrite Hsw'.
Qed.

(** A turn of [tid]: it resumed with the registers it had saved, and what it
    yielded with is saved. *)
Definition had_turn (work : Table.ScheduledUserResume -> UserResumeContext) (k k' : Kernel) (tid : Z) : Prop :=
  exists s, Table.sc_tid s = tid /\ runnable k tid = Some (Table.sc_resume_context s) /\ runnable k' tid = Some (work s).

Lemma turns_spec work : forall l1 l2 k,
  kernel_wf k -> queue k = l1 ++ l2 -> (forall tid, tid ∈ l1 -> exists c, runnable k tid = Some c) ->
  switches k + Z.of_nat (length l1) <= u64_max ->
  exists k', turns work (length l1) k = Done (map (fun tid => pair tid <$> runnable k tid) l1, k') /\ kernel_wf k' /\
    queue k' = l2 ++ l1 /\ (forall tid, tid ∈ l1 -> had_turn work k k' tid) /\
    (forall tid, tid ∉ l1 -> Table.thread k' tid = Table.thread k tid).
Proof.
  induction l1 as [|tid l1 IH]; intros l2 k Hk Hq Hall Hsw.
  { exists k. split; [done|]. split; [done|]. rewrite app_nil_r. split; [done|]. split; [set_solver|done]. }
  destruct (Hall tid) as [c Hc]; [apply list_elem_of_here|]. simpl in Hsw.
  destruct (turn_spec work k tid (l1 ++ l2) c) as (s & k1 & E & Hk1 & Hq1 & Hs & Hsc & Hr1 & Hoth & Hsw1); [done|lia|done|done|].
  pose proof Hk as [[_ _ Hnd _] _]. unfold queue in Hq. rewrite Hq in Hnd. apply NoDup_cons in Hnd as [Hnin _].
  rewrite elem_of_app in Hnin.
  assert (forall t, t ∈ l1 -> runnable k1 t = runnable k t) as Hsame.
  { intros t Ht. apply same_runnable, Hoth. intros ->. tauto. }
  destruct (IH (l2 ++ [tid]) k1) as (k' & E' & Hk' & Hq' & Ht' & Ho'); [done|by rewrite Hq1, app_assoc| |lia|].
  { intros t Ht. rewrite Hsame by done. apply Hall. by apply elem_of_cons; right. }
  exists k'. split; [|split; [done|split; [by rewrite Hq', <-app_assoc|split]]].
  - cbn [turns length]. run. rewrite E. run. rewrite E'. simpl. rewrite Hc. simpl. do 3 f_equal.
    apply map_ext_in. intros t Ht%list_elem_of_In. by rewrite Hsame.
  - intros t [->|Ht]%elem_of_cons.
    + exists s. split; [done|]. split; [by rewrite Hsc|]. rewrite <-Hr1. apply same_runnable, Ho'. tauto.
    + destruct (Ht' t Ht) as (s' & ? & Hs1 & ?). exists s'. by rewrite <-Hsame.
  - intros t [Hne Ht]%not_elem_of_cons. rewrite Ho' by done. by apply Hoth.
Qed.

(** C11. Threads take turns.  When every queued thread can run, as many turns
    as there are threads give each of them exactly one, in the order of the
    queue, each resumed with the registers it had saved; afterwards the queue
    is as before, every thread has the registers it yielded with, and no thread
    outside the queue changed. *)
Theorem round_robin (work : Table.ScheduledUserResume -> UserResumeContext) (k : Kernel) :
  kernel_wf k -> all_runnable k -> switches k + Z.of_nat (length (queue k)) <= u64_max ->
  exists k', turns work (length (queue k)) k = Done (map (fun tid => pair tid <$> runnable k tid) (queue k), k') /\
    kernel_wf k' /\ queue k' = queue k /\ (forall tid, tid ∈ queue k -> had_turn work k k' tid) /\
    (forall tid, tid ∉ queue k -> Table.thread k' tid = Table.thread k tid).
Proof.
  intros Hk Hall Hsw. destruct (turns_spec work (queue k) [] k) as (k' & H); [done|by rewrite app_nil_r|done|done|].
  by exists k'.
Qed.

(** ** Example: two processes that have yielded *)

Definition demo_context (rip : Z) : UserResumeContext := EMPTY_CTX <| rc_rip := rip |>.

Definition demo_boot : M Kernel () :=
  p1 ← Table.create_process None (str "a") (str "/bin/a") Arg.empty (Space.kernel_shared_user 0x1000000 kernel_placeholder_layout);
  p2 ← Table.create_process None (str "b") (str "/bin/b") Arg.empty (Space.kernel_shared_user 0x1000000 kernel_placeholder_layout);
  Table.mark_running p1;; Table.mark_yielded p1 (demo_context 0x111);;
  Table.mark_running p2;; Table.mark_yielded p2 (demo_context 0x222);; mret ().

Definition demo_kernel : Kernel := match demo_boot boot_kernel with Done (_, k) => k | Panic => boot_kernel end.

Lemma demo_kernel_wf : kernel_wf demo_kernel.
Proof. apply kernel_check; [vm_compute; reflexivity|exact demo_pool_wf]. Qed.

Lemma schedule_fifo_witness :
  exists k', Table.schedule_next_ready_user demo_kernel =
      Done (Some (Table.mkSched 1 1 (str "a") (demo_context 0x111) None), k') /\
    kernel_wf k' /\ queue k' = [2].
Proof.
  destruct (schedule_fifo demo_kernel demo_kernel_wf ltac:(vm_compute; reflexivity)) as (r & k' & E & Hk & H).
  assert (fst <$> Table.schedule_next_ready_user demo_kernel =
    Done (Some (Table.mkSched 1 1 (str "a") (demo_context 0x111) None))) as E0 by (vm_compute; reflexivity).
  rewrite E in E0. injection E0 as ->. exists k'. split; [exact E|]. split; [exact Hk|].
  destruct H as (l1 & l2 & Hq & _ & _ & -> & _). vm_compute in Hq.
  destruct l1 as [|x [|y [|z l1]]]; simpl in Hq; try discriminate Hq. injection Hq as <-. reflexivity.
Defined.

Lemma round_robin_witness :
  exists k', turns Table.sc_resume_context 2 demo_kernel =
      Done ([Some (1, demo_context 0x111); Some (2, demo_context 0x222)], k') /\ queue k' = [1; 2].
Proof.
  destruct (round_robin Table.sc_resume_context demo_kernel demo_kernel_wf) as (k' & E & _ & Hq & _).
  - intros tid Hin. vm_compute in Hin. apply list_elem_of_In in Hin as [<-|[<-|[]]]; eexists; vm_compute; reflexivity.
  - vm_compute. discriminate.
  - exists k'. split; [exact E|exact Hq].
Defined.
