(* ===== verification/Signals.v ===== *)
(** * Process termination and signal handlers

    What [mark_exited] does to a process, the arithmetic of signal masks, and
    that returning from a handler restores the interrupted registers (C35). *)

From S2P Require Import Prelude Utf8 Paths Vfs Ring3 Elf AddrSpace AddrSpaceProofs Threads Program Ipc Process TableSafety Views Scheduling.

(** ** Views of a process *)

(** Process [pid] is [p'] in [k'], the other processes are as in [k]. *)
Definition only_process (k : Kernel) (pid : Z) (p' : Process) (k' : Kernel) : Prop :=
  forall pid', find_process k' pid' = if pid' =? pid then Some p' else find_process k pid'.

Lemma find_pid k pid p : find_process k pid = Some p -> pr_pid p = pid.
Proof. by intros [_ ?%Z.eqb_eq]%find_Some. Qed.

(** Writing a process back under its pid. *)
Lemma put_only Sh k pid p p' :
  inv Sh k -> find_process k pid = Some p -> shape p' = shape p ->
  only_process k pid p' (with_process (fun q => pr_pid q =? pid) p' k).
Proof.
  intros Hi Hp Hs pid'. rewrite (find_process_replaced Sh k p p'); [|done|by apply with_process_replaced|done].
  rewrite (find_pid k pid p Hp). rewrite Z.eqb_sym. done.
Qed.

Lemma put_wf Sh k pid p p' :
  inv Sh k -> find_process k pid = Some p -> shape p' = shape p ->
  inv Sh (with_process (fun q => pr_pid q =? pid) p' k).
Proof.
  intros Hi Hp Hs. pose proof Hi as [[HSh Hwf Hq Hc] Hpool]. split; [|done]. constructor; [|done..].
  apply (replaced_shapes Sh k p p'); [done|by apply with_process_replaced|done].
Qed.

(** The queue without the threads of [p]. *)
Definition without (p : Process) (q : list Z) : list Z :=
  List.filter (fun tid => negb (existsb (Z.eqb tid) (map th_tid (ts_items (pr_threads p))))) q.

Lemma remove_from_ready_queue_eq k pid p :
  find_process k pid = Some p ->
  Table.remove_from_ready_queue pid k = Done ((), k <| k_table ::= (fun t => t <| pt_ready_queue ::= without p |>) |>).
Proof. intros Hp. unfold Table.remove_from_ready_queue. run. by rewrite Hp. Qed.

(** [stop_process_run]: the current-user atomics and the main thread's clock. *)
Definition released (pid : Z) (k : Kernel) : Kernel :=
  if k_pid_atomic k =? pid
  then k <| k_pid_atomic := 0 |> <| k_tid_atomic := 0 |> <| k_preempt_pending := false |> else k.

Definition clocked (now : Z) (p : Process) : Process := upd_thread (main_tid p) (stop_thread_run now) p.

Lemma released_table pid k : k_table (released pid k) = k_table k /\ k_addr (released pid k) = k_addr k
  /\ k_ticks (released pid k) = k_ticks k.
Proof. unfold released. by destruct (_ =? _). Qed.

Section main.
Context (Sh : list Shape) (k : Kernel) (pid : Z) (p : Process).
Hypothesis Hi : inv Sh k.
Hypothesis Hp : find_process k pid = Some p.

Lemma upd_main_eq upd p' :
  shape p' = shape p -> upd_main upd p' = Done (upd_thread (main_tid p') upd p').
Proof.
  intros Hs. pose proof Hi as [[_ Hwf _ _] _]. destruct (find_process_of Sh k pid p Hi Hp) as [Hin _].
  destruct (main_ok Sh (fun _ => True) _ _ p' Hwf) as [t Ht]; [split; [by rewrite Hs|done]|].
  unfold upd_main, TStore.main_upd, TStore.main. unfold main_tid in *. by rewrite Ht.
Qed.

Lemma stop_process_run_eq k1 :
  k_ticks k1 = k_ticks k -> Table.stop_process_run p k1 = Done (clocked (k_ticks k) p, released pid k1).
Proof.
  intros Ht. unfold Table.stop_process_run, released. run. rewrite (find_pid k pid p Hp).
  destruct (k_pid_atomic k1 =? pid); rewrite upd_main_eq by done; by rewrite Ht.
Qed.

Lemma shape_clocked now : shape (clocked now p) = shape p.
Proof. apply shape_upd_thread. apply shape_stop_thread_run. Qed.

Lemma set_state_eq st p' :
  shape p' = shape p ->
  set_state st p' = Done (if is_dead st
    then p' <| pr_state := st |> <| pr_threads ::= (fun s => s <| ts_items ::= map (kill_thread (thread_state_for_process st)) |>) |>
    else upd_thread (main_tid p') (fun t => t <| th_state := thread_state_for_process st |>) (p' <| pr_state := st |>)).
Proof. intros Hs. unfold set_state. destruct (is_dead st); [done|]. by rewrite upd_main_eq. Qed.
End main.

(** ** Termination *)

(** The dead process: status recorded, every thread stopped for good. *)
Definition dead (st : ProcessState) (p : Process) : Process :=
  p <| pr_state := st |> <| pr_threads ::= (fun s => s <| ts_items ::= map (kill_thread (thread_state_for_process st)) |>) |>.

Definition exited (now status : Z) (p : Process) : Process :=
  dead (if is_some (pr_parent_pid p) then PZombie else PExited)
    (clocked now p <| pr_exit_status := Some status |> <| pr_sleeping_until_tick := None |>).

Lemma shape_dead st p : shape (dead st p) = shape p.
Proof. unfold shape, main_tid. simpl. f_equal. rewrite map_map. by apply map_ext. Qed.

Lemma shape_exited now status p : shape (exited now status p) = shape p.
Proof.
  unfold exited. rewrite shape_dead. change (shape (clocked now p) = shape p).
  apply shape_upd_thread. apply shape_stop_thread_run.
Qed.

(** The state [mark_exited] leaves. *)
Definition exit_state (pid status : Z) (p : Process) (k : Kernel) : Kernel :=
  with_process (fun q => pr_pid q =? pid) (exited (k_ticks k) status p)
    (released pid (k <| k_table ::= (fun t => t <| pt_ready_queue ::= without p |>) |>)).

Lemma mark_exited_eq Sh k pid status p :
  inv Sh k -> find_process k pid = Some p -> Table.mark_exited pid status k = Done ((), exit_state pid status p k).
Proof.
  intros Hi Hp. set (k1 := k <| k_table ::= (fun t => t <| pt_ready_queue ::= without p |>) |>).
  unfold Table.mark_exited. run. rewrite (remove_from_ready_queue_eq k pid p Hp). fold k1. run.
  change (find_process k1 pid) with (find_process k pid). rewrite Hp. run.
  rewrite (stop_process_run_eq Sh k pid p Hi Hp k1) by done. run.
  rewrite (set_state_eq Sh k pid p Hi Hp); [|by rewrite <-(shape_clocked p (k_ticks k))].
  assert (is_dead (if is_some (pr_parent_pid p) then PZombie else PExited) = true) as Hd by (by destruct (is_some _)).
  change (pr_parent_pid (set _ _ _)) with (pr_parent_pid p). rewrite Hd. done.
Qed.

Lemma mark_exited_spec Sh k pid status p :
  inv Sh k -> find_process k pid = Some p ->
  exists k', Table.mark_exited pid status k = Done ((), k') /\ inv Sh k' /\
    only_process k pid (exited (k_ticks k) status p) k' /\ queue k' = without p (queue k) /\ k_ticks k' = k_ticks k.
Proof.
  intros Hi Hp. exists (exit_state pid status p k). split; [by apply (mark_exited_eq Sh)|].
  set (k1 := k <| k_table ::= (fun t => t <| pt_ready_queue ::= without p |>) |>).
  assert (inv Sh k1) as Hi1.
  { pose proof Hi as [[H1 H2 H3 H4] H5]. split; [|done]. constructor; [done|done| |done]. by apply NoDup_filter_bool. }
  set (k2 := released pid k1). pose proof (released_table pid k1) as (Ht2 & Ha2 & Hn2). fold k2 in Ht2, Ha2, Hn2.
  assert (inv Sh k2) as Hi2 by (unfold inv; by rewrite Ht2, Ha2).
  assert (find_process k2 pid = Some p) as Hp2 by (unfold find_process; by rewrite Ht2).
  unfold exit_state. fold k1 k2. set (p' := exited (k_ticks k) status p).
  pose proof (shape_exited (k_ticks k) status p) as Hs.
  split; [by apply (put_wf Sh k2 pid p p')|].
  split; [|split; [unfold queue; simpl; by rewrite Ht2|simpl; by rewrite Hn2]].
  intros pid'. rewrite (put_only Sh k2 pid p p' Hi2 Hp2 Hs pid').
  unfold find_process. by rewrite Ht2.
Qed.

(** A parent made ready with the status of the child it waited for. *)
Definition woken (status : Z) (p : Process) : Process :=
  upd_thread (main_tid p) (fun t => t <| th_state := TReady |>)
    (upd_thread (main_tid p) (fun t => t <| th_resume_context ::= fmap (fun c => c <| rc_rax := status |>) |>)
       (p <| pr_waiting_for := None |> <| pr_sleeping_until_tick := None |>) <| pr_state := PReady |>).

Definition enqueued (tid : Z) (q : list Z) : list Z := if existsb (Z.eqb tid) q then q else q ++ [tid].

Definition report (target : Z) (p : Process) (status : Z) (w : bool) : Table.SignalTerminationReport :=
  Table.mkSigRep target (pr_name p) (pr_parent_pid p) (pr_job_mode p) status w (as_p4_frame (pr_address_space p)).

Lemma enqueue_eq k tid :
  Table.enqueue_ready tid k = Done ((), k <| k_table ::= (fun t => t <| pt_ready_queue ::= enqueued tid |>) |>).
Proof.
  unfold Table.enqueue_ready, mod_table, modify, enqueued. do 2 f_equal. unfold set. simpl.
  destruct (existsb _ _); [|done]. by destruct k as [[] ? ? ? ? ? ? ? ? ? ? ? ? ? ? ?].
Qed.

Lemma inv_enqueued Sh k tid :
  inv Sh k -> inv Sh (k <| k_table ::= (fun t => t <| pt_ready_queue ::= enqueued tid |>) |>).
Proof.
  intros Hi. pose proof Hi as [[_ _ _ Hc] _]. pose proof (safe_enqueue Sh tid k Hi ltac:(unfold switches; lia)) as H.
  unfold wp in H. rewrite enqueue_eq in H. apply H.
Qed.

(** ** The signal mask *)

Lemma testbit_u64_not a i : 0 <= i < 64 -> Z.testbit (u64_not a) i = negb (Z.testbit a i).
Proof.
  intros Hi. unfold u64_not. rewrite Z.lxor_spec. change u64_max with (Z.ones 64).
  rewrite Z.ones_spec_low by lia. by destruct (Z.testbit a i).
Qed.

Lemma trailing_zeros_from_spec n : forall i mask,
  0 <= i -> (exists j, i <= j < i + Z.of_nat n /\ Z.testbit mask j = true) ->
  let z := trailing_zeros_from n i mask in
  i <= z < i + Z.of_nat n /\ Z.testbit mask z = true /\ forall j, i <= j < z -> Z.testbit mask j = false.
Proof.
  induction n as [|n IH]; intros i mask Hi (j & Hj & Hb); [lia|]. cbn [trailing_zeros_from].
  destruct (Z.testbit mask i) eqn:E; [split; [lia|]; split; [done|]; intros; lia|].
  destruct (IH (i + 1) mask) as (H1 & H2 & H3); [lia|exists j|].
  { split; [|done]. destruct (Z.eq_dec i j); [congruence|lia]. }
  split; [lia|]. split; [done|]. intros j' Hj'. destruct (Z.eq_dec i j') as [->|]; [done|]. apply H3. lia.
Qed.

(** A set bit of a nonzero [u64]. *)
Lemma nonzero_bit m : u64_range m -> m <> 0 -> exists j, 0 <= j < 64 /\ Z.testbit m j = true.
Proof.
  intros [H0 H1] Hm. exists (Z.log2 m). split; [|apply Z.bit_log2; lia]. split; [apply Z.log2_nonneg|].
  apply Z.log2_lt_pow2; [lia|]. unfold u64_max in H1. lia.
Qed.

Lemma land_range a b : u64_range a -> u64_range (Z.land a b).
Proof.
  intros [H0 H1]. split; [by apply Z.land_nonneg; left|]. unfold u64_max in *.
  destruct (Z.eq_dec (Z.land a b) 0) as [->|Hn]; [lia|].
  assert (0 <= Z.land a b) by (by apply Z.land_nonneg; left).
  assert (Z.land a b < 2 ^ 64); [|lia]. apply Z.log2_lt_pow2; [lia|].
  pose proof (Z.bit_log2 (Z.land a b) ltac:(lia)) as Hb. rewrite Z.land_spec in Hb.
  apply andb_true_iff in Hb as [Hb _]. destruct (Z.lt_ge_cases (Z.log2 (Z.land a b)) 64) as [|Hge]; [done|].
  rewrite Z.bits_above_log2 in Hb; [done|lia|]. destruct (Z.eq_dec a 0) as [->|]; [done|].
  apply Z.lt_le_trans with 64; [|done]. apply Z.log2_lt_pow2; lia.
Qed.

Lemma lowest_signal_spec m :
  u64_range m ->
  match lowest_signal m with
  | None => m = 0
  | Some s => 1 <= s <= 64 /\ Z.testbit m (s - 1) = true /\ forall j, 0 <= j < s - 1 -> Z.testbit m j = false
  end.
Proof.
  intros Hm. unfold lowest_signal. destruct (Z.eqb_spec m 0); [done|].
  destruct (trailing_zeros_from_spec 64 0 m) as (H1 & H2 & H3); [lia| |].
  { destruct (nonzero_bit m Hm n) as (j & Hj & Hb). exists j. split; [lia|done]. }
  unfold trailing_zeros. split; [lia|]. rewrite Z.add_simpl_r. split; [done|]. intros j Hj. apply H3. lia.
Qed.

(** ** Handlers *)

Lemma find_by_tid_pid Sh k pid p tid :
  inv Sh k -> find_process k pid = Some p -> has_tid tid p = true -> find_by_tid k tid = Some p.
Proof. intros Hi [Hp _]%find_Some Ht. by apply (find_by_tid_elem Sh). Qed.

(** A method that changes one thread of [pid], refreshes the process and queues the thread. *)
Lemma update_and_enqueue Sh k pid tid p t upd :
  inv Sh k -> find_process k pid = Some p -> TStore.get (pr_threads p) tid = Some t ->
  (forall t, thread_shape (upd t) = thread_shape t) ->
  exists k', (put_process pid (refresh_state_from_threads (upd_thread tid upd p));;
              Table.enqueue_ready tid;; mret true) k = Done (true, k') /\ inv Sh k' /\
    only_thread k tid (upd t) k' /\ queue k' = enqueued tid (queue k) /\ switches k' = switches k.
Proof.
  intros Hi Hp Ht Hu. set (p' := refresh_state_from_threads (upd_thread tid upd p)).
  assert (shape p' = shape p) as Hs by (unfold p'; by rewrite shape_refresh, shape_upd_thread).
  set (k1 := with_process (fun q => pr_pid q =? pid) p' k).
  exists (k1 <| k_table ::= (fun t => t <| pt_ready_queue ::= enqueued tid |>) |>). split; [|split; [|split; [|done]]].
  - run. rewrite put_process_eq. fold k1. by rewrite enqueue_eq.
  - apply inv_enqueued. by apply (put_wf Sh k pid p).
  - refine (thread_updated Sh k _ tid upd p p' t Hi _ Hs Ht _ _ _).
    + by apply (with_process_replaced (fun q => pr_pid q =? pid) p p' k).
    + intros tid'. unfold p'. by rewrite get_refresh.
    + intros t'. specialize (Hu t'). by injection Hu.
    + apply (find_by_tid_pid Sh k pid); [done|done|]. by apply (has_tid_get _ _ t).
Qed.

(** A handler starts at its first instruction, with the signal number as argument and otherwise the interrupted registers. *)
Definition at_handler (signal handler : Z) (c : UserResumeContext) : UserResumeContext :=
  mkCtx handler (rc_rsp c) (rc_rflags c) (rc_rbx c) (rc_rcx c) (rc_rdx c) (rc_rsi c) signal (rc_rbp c)
    (rc_r8 c) (rc_r9 c) (rc_r10 c) (rc_r11 c) (rc_r12 c) (rc_r13 c) (rc_r14 c) (rc_r15 c) 0.

(** A thread that was interrupted with [original] runs a handler. *)
Definition diverted (now signal handler : Z) (original : UserResumeContext) (t : Thread) : Thread :=
  stop_thread_run now t <| th_signal_return_context := Some original |>
    <| th_resume_context := Some (at_handler signal handler original) |> <| th_state := TReady |>.

(** The handler has returned. *)
Definition resumed (now : Z) (original : UserResumeContext) (t : Thread) : Thread :=
  stop_thread_run now (t <| th_signal_return_context := None |>)
    <| th_resume_context := Some original |> <| th_state := TReady |>.

Lemma activate_running_spec Sh k pid tid signal handler original p t :
  inv Sh k -> find_process k pid = Some p -> TStore.get (pr_threads p) tid = Some t ->
  th_state t = TRunning -> th_signal_return_context t = None ->
  exists k', Table.activate_running_signal_handler pid tid signal handler original k = Done (true, k') /\ inv Sh k' /\
    only_thread k tid (diverted (k_ticks k) signal handler original t) k' /\ queue k' = enqueued tid (queue k) /\
    switches k' = switches k.
Proof.
  intros Hi Hp Ht Hst Hsr. unfold Table.activate_running_signal_handler. run. rewrite Hp, Ht, Hst, Hsr.
  change (negb (ThreadState_eqb TRunning TRunning) || is_some None) with false. run.
  apply (update_and_enqueue Sh k pid tid p t (diverted (k_ticks k) signal handler original)); [done..|].
  apply shape_stop_thread_run.
Qed.

Lemma restore_spec Sh k pid tid original p t :
  inv Sh k -> find_process k pid = Some p -> TStore.get (pr_threads p) tid = Some t ->
  th_state t = TRunning -> th_signal_return_context t = Some original ->
  exists k', Table.restore_signal_context pid tid k = Done (true, k') /\ inv Sh k' /\
    only_thread k tid (resumed (k_ticks k) original t) k' /\ queue k' = enqueued tid (queue k) /\
    switches k' = switches k.
Proof.
  intros Hi Hp Ht Hst Hsr. unfold Table.restore_signal_context. run. rewrite Hp, Ht, Hst, Hsr.
  change (negb (ThreadState_eqb TRunning TRunning)) with false. run.
  apply (update_and_enqueue Sh k pid tid p t (resumed (k_ticks k) original)); [done..|].
  intros t'. exact (shape_stop_thread_run _ (t' <| th_signal_return_context := None |>)).
Qed.

Lemma elem_of_enqueued tid q : tid ∈ enqueued tid q.
Proof.
  unfold enqueued. destruct (existsb _ _) eqn:E; [|set_solver]. by apply existsb_spec in E as (x & Hx & ->%Z.eqb_eq).
Qed.

(** C35. Handlers are transparent.  A thread of [pid] that runs, is not inside a
    handler and is interrupted with registers [original] is diverted: its
    registers become the handler's address in [rip], the signal number in
    [rdi], 0 in [rax] and otherwise those of [original], and it is queued.  When
    the scheduler next picks that thread it starts with exactly these
    registers, and returning from the handler leaves it ready and queued with
    exactly the registers [original], free to take another signal, every other
    thread being as before. *)
Theorem handler_roundtrip (k : Kernel) (pid tid signal handler : Z) (original : UserResumeContext)
    (p : Process) (t : Thread) :
  kernel_wf k -> switches k < u64_max -> find_process k pid = Some p -> TStore.get (pr_threads p) tid = Some t ->
  th_state t = TRunning -> th_signal_return_context t = None ->
  exists k1, Table.activate_running_signal_handler pid tid signal handler original k = Done (true, k1) /\
    tid ∈ queue k1 /\ runnable k1 tid = Some (at_handler signal handler original) /\
    forall s k2, Table.schedule_next_ready_user k1 = Done (Some s, k2) -> Table.sc_tid s = tid ->
      Table.sc_resume_context s = at_handler signal handler original /\
      exists k3 t3, Table.restore_signal_context pid tid k2 = Done (true, k3) /\ kernel_wf k3 /\ tid ∈ queue k3 /\
        runnable k3 tid = Some original /\ Table.thread k3 tid = Some t3 /\ th_signal_return_context t3 = None /\
        forall tid', tid' <> tid -> Table.thread k3 tid' = Table.thread k tid'.
Proof.
  intros Hk Hsw Hp Ht Hst Hsr.
  destruct (activate_running_spec _ k pid tid signal handler original p t Hk Hp Ht Hst Hsr) as (k1 & E1 & Hi1 & Ho1 & Hq1 & Hsw1).
  assert (runnable k1 tid = Some (at_handler signal handler original)) as Hr1.
  { unfold runnable. by rewrite Ho1, Z.eqb_refl. }
  exists k1. split; [done|]. split; [rewrite Hq1; apply elem_of_enqueued|]. split; [done|].
  intros s k2 E2 Hs. unfold Table.schedule_next_ready_user in E2. run_in E2.
  destruct (schedule_loop_spec _ (length (queue k1)) k1 Hi1) as (r & k2' & E2' & Hi2 & Hpost); [lia|lia|].
  unfold queue in E2'. rewrite E2 in E2'. injection E2' as <- <-.
  destruct Hpost as (l1 & l2 & _ & _ & Hr & _ & (q & t1 & Hq & Ht1 & _ & Ho2) & Hsw2). rewrite Hs in *.
  rewrite Hr1 in Hr. injection Hr as Hr. split; [done|].
  assert (t1 = diverted (k_ticks k) signal handler original t) as ->.
  { pose proof (Ho1 tid) as H. rewrite Z.eqb_refl in H. unfold Table.thread in H. rewrite Hq in H. simpl in H. congruence. }
  set (t2 := start_thread _ _) in Ho2.
  assert (exists p2, find_process k2 pid = Some p2 /\ TStore.get (pr_threads p2) tid = Some t2) as (p2 & Hp2 & Ht2).
  { destruct (find_process_of _ k pid p Hk Hp) as [Hin Hpid].
    destruct (find_process_ex _ k2 (shape p) Hi2 Hin) as (p2 & Hp2 & Hs2).
    unfold by_pid in Hpid. rewrite Hpid in Hp2. exists p2. split; [done|].
    pose proof (Ho2 tid) as H. rewrite Z.eqb_refl in H. unfold Table.thread in H.
    rewrite (find_by_tid_pid _ k2 pid p2 tid Hi2 Hp2) in H; [done|]. apply has_tid_shape. rewrite Hs2.
    apply has_tid_shape. by eapply has_tid_get. }
  destruct (restore_spec _ k2 pid tid original p2 t2 Hi2 Hp2 Ht2) as (k3 & E3 & Hi3 & Ho3 & Hq3 & _); [done|done|].
  exists k3, (resumed (k_ticks k2) original t2). split; [done|]. split; [by eapply inv_wf|].
  split; [rewrite Hq3; apply elem_of_enqueued|]. pose proof (Ho3 tid) as H3. rewrite Z.eqb_refl in H3.
  split; [unfold runnable; by rewrite H3|]. split; [done|]. split.
  - unfold resumed, stop_thread_run. simpl. by destruct (th_last_started_tick t2).
  - intros tid' Hne. rewrite Ho3, Ho2, Ho1. by destruct (Z.eqb_spec tid' tid).
Qed.

(** ** Examples *)

Definition state_of {A} (m : M Kernel A) (k : Kernel) : Kernel := match m k with Done (_, k') => k' | Panic => k end.

(** Process 1 runs. *)
Definition running_kernel : Kernel := state_of Table.schedule_next_ready_user demo_kernel.

Lemma handler_roundtrip_witness :
  exists k1 c, Table.activate_running_signal_handler 1 1 SIGTERM 0x5000 (demo_context 0x777) running_kernel = Done (true, k1) /\
    runnable k1 1 = Some c /\ rc_rip c = 0x5000 /\ rc_rdi c = 15.
Proof.
  destruct (find_process running_kernel 1) as [p|] eqn:Hp; [|vm_compute in Hp; discriminate Hp].
  destruct (TStore.get (pr_threads p) 1) as [t|] eqn:Ht; [|vm_compute in Hp; injection Hp as <-; discriminate Ht].
  destruct (handler_roundtrip running_kernel 1 1 SIGTERM 0x5000 (demo_context 0x777) p t) as (k1 & E & _ & Hr & _).
  - apply kernel_check; [vm_compute; reflexivity|exact demo_pool_wf].
  - vm_compute. reflexivity.
  - exact Hp.
  - exact Ht.
  - vm_compute in Hp. injection Hp as <-. vm_compute in Ht. injection Ht as <-. reflexivity.
  - vm_compute in Hp. injection Hp as <-. vm_compute in Ht. injection Ht as <-. reflexivity.
  - exists k1, (at_handler SIGTERM 0x5000 (demo_context 0x777)). split; [exact E|]. split; [exact Hr|split; reflexivity].
Defined.
