(* ===== verification/Lifecycle.v ===== *)
(** * Processes end and wake up

    A parent collects a dead child exactly once (C32); sleepers wake when they
    are due. *)

From S2P Require Import Prelude Utf8 Paths Vfs Ring3 Elf AddrSpace AddrSpaceProofs Threads Program Ipc Process TableSafety Views Scheduling Signals.

(** ** Queueing several threads, unique threads *)

Definition enqueue_list (tids q : list Z) : list Z := foldl (fun q tid => enqueued tid q) q tids.

Lemma enqueue_all_eq tids : forall k,
  Table.enqueue_all tids k = Done ((), k <| k_table ::= (fun t => t <| pt_ready_queue ::= enqueue_list tids |>) |>).
Proof.
  induction tids as [|tid tids IH]; intros k; simpl.
  - run. do 2 f_equal. by destruct k as [[] ? ? ? ? ? ? ? ? ? ? ? ? ? ? ?].
  - run. rewrite enqueue_eq. by rewrite IH.
Qed.

Lemma concat_nodup {A} (l : list (list A)) x : NoDup (concat l) -> x ∈ l -> NoDup x.
Proof.
  induction l as [|y l IH]; [set_solver|]. simpl. intros (H1 & _ & H2)%NoDup_app [->|Hx]%elem_of_cons; [done|by apply IH].
Qed.

Lemma process_tids_nodup Sh k p :
  inv Sh k -> p ∈ pt_processes (k_table k) -> NoDup (map th_tid (ts_items (pr_threads p))).
Proof.
  intros [[HSh Hwf _ _] _] Hp. rewrite <-tids_shape. eapply concat_nodup; [apply Hwf|]. apply elem_of_map.
  exists (shape p). split; [done|]. rewrite <-HSh. by apply shapes_elem.
Qed.

Lemma ThreadState_eqb_eq a b : ThreadState_eqb a b = true <-> a = b.
Proof. unfold ThreadState_eqb. apply bool_decide_eq_true. Qed.

Lemma ThreadState_eqb_neq a b : ThreadState_eqb a b = false <-> a <> b.
Proof. unfold ThreadState_eqb. apply bool_decide_eq_false. Qed.

Lemma find_by_tid_get k tid p : find_by_tid k tid = Some p -> exists t, TStore.get (pr_threads p) tid = Some t /\ Table.thread k tid = Some t.
Proof.
  intros Hp. unfold Table.thread. rewrite Hp. simpl. apply find_Some in Hp as [_ Ht]. unfold has_tid in Ht.
  destruct (TStore.get (pr_threads p) tid) as [t|]; [by exists t|done].
Qed.

Lemma find_process_elem Sh k p : inv Sh k -> p ∈ pt_processes (k_table k) -> find_process k (pr_pid p) = Some p.
Proof.
  intros [[HSh Hwf _ _] _] Hp. apply (find_key pr_pid); [|split; done]. pose proof (sw_pids _ _ _ Hwf) as Hnd. rewrite <-HSh in Hnd.
  unfold shapes in Hnd. by rewrite map_map in Hnd.
Qed.

(** ** Collecting a child *)

(** The parent no longer waits for the child it has collected. *)
Definition stop_waiting (child : Z) (p : Process) : Process :=
  if bool_decide (pr_waiting_for p = Some child)
  then upd_thread (main_tid p) (fun t => t <| th_resume_context := None |>) (p <| pr_waiting_for := None |>) else p.

Definition reapable (k : Kernel) (parent child : Z) (p : Process) : Prop :=
  find_process k child = Some p /\ pr_parent_pid p = Some parent /\ Table.is_reapable (pr_state p) = true.

Lemma shape_stop_waiting child p : shape (stop_waiting child p) = shape p.
Proof.
  unfold stop_waiting. case_bool_decide; [|done]. by rewrite shape_upd_thread.
Qed.

Lemma reap_child_spec Sh k parent child p :
  inv Sh k -> reapable k parent child p ->
  exists k', Table.reap_child parent child k = Done (Some (child, pr_name p, default 0 (pr_exit_status p)), k') /\ inv Sh k' /\
    (exists p', find_process k' child = Some p' /\ pr_state p' = PReaped /\ pr_exit_status p' = pr_exit_status p) /\
    (forall pid, pid <> child -> find_process k' pid =
       if pid =? parent then stop_waiting child <$> find_process k pid else find_process k pid) /\ queue k' = queue k.
Proof.
  intros Hi (Hp & Hpar & Hre). unfold Table.reap_child. run. rewrite Hp, Hpar, Hre.
  rewrite bool_decide_eq_true_2 by done. cbn [negb]. change (set_state PReaped p) with (Done (dead PReaped p)). cbv beta iota.
  set (k1 := with_process (fun q => pr_pid q =? child) (dead PReaped p) k).
  change (put_process child (dead PReaped p) k) with (Done ((), k1)). cbv beta iota.
  pose proof (put_only Sh k child p (dead PReaped p) Hi Hp (shape_dead _ _)) as Ho1. fold k1 in Ho1.
  assert (inv Sh k1) as Hi1 by (apply (put_wf Sh k child p); [done|done|apply shape_dead]).
  change (pr_pid (dead PReaped p)) with (pr_pid p). rewrite (find_pid k child p Hp).
  destruct (find_process k1 parent) as [q|] eqn:Eq; cycle 1.
  { exists k1. split; [done|]. split; [done|]. split.
    - eexists. rewrite (Ho1 child), Z.eqb_refl. by split.
    - split; [|done]. intros pid Hne. rewrite (Ho1 pid). destruct (Z.eqb_spec pid child); [done|].
      destruct (Z.eqb_spec pid parent) as [->|]; [|done]. rewrite (Ho1 parent) in Eq.
      destruct (Z.eqb_spec parent child); [done|]. by rewrite Eq. }
  set (k2 := if bool_decide (pr_waiting_for q = Some child)
             then with_process (fun x => pr_pid x =? parent) (stop_waiting child q) k1 else k1).
  assert (only_process k1 parent (stop_waiting child q) k2 /\ inv Sh k2 /\ queue k2 = queue k) as (Ho2 & Hi2 & Hq2).
  { unfold k2. case_bool_decide as Hw.
    - split; [apply (put_only Sh k1 parent q); [done|done|apply shape_stop_waiting]|].
      split; [apply (put_wf Sh k1 parent q); [done|done|apply shape_stop_waiting]|done].
    - split; [|done]. intros pid. unfold stop_waiting. rewrite bool_decide_eq_false_2 by done.
      destruct (Z.eqb_spec pid parent) as [->|]; done. }
  exists k2. split; [|split; [done|split; [|split; [|done]]]].
  - unfold k2, stop_waiting. case_bool_decide as Hw; [|done].
    rewrite (upd_main_eq Sh k1 parent q Hi1 Eq) by done. done.
  - rewrite (Ho2 child). destruct (Z.eqb_spec child parent) as [<-|].
    + rewrite (Ho1 child), Z.eqb_refl in Eq. injection Eq as <-. eexists. split; [done|]. unfold stop_waiting.
      by case_bool_decide.
    + rewrite (Ho1 child), Z.eqb_refl. eexists. by split.
  - intros pid Hne. rewrite (Ho2 pid). destruct (Z.eqb_spec pid parent) as [->|].
    + rewrite (Ho1 parent) in Eq. destruct (Z.eqb_spec parent child); [done|]. by rewrite Eq.
    + rewrite (Ho1 pid). by destruct (Z.eqb_spec pid child).
Qed.

Lemma reap_child_refused k parent child :
  (forall p, ~ reapable k parent child p) -> Table.reap_child parent child k = Done (None, k).
Proof.
  intros Hn. unfold Table.reap_child. run. destruct (find_process k child) as [p|] eqn:Hp; [|done].
  case_bool_decide as Hpar; cbn [negb]; [|done]. destruct (Table.is_reapable (pr_state p)) eqn:Hr; [|done].
  by destruct (Hn p).
Qed.

(** C32. A child is collected exactly once, with its own status.  When a child
    exits with [status], its parent collects exactly that status; collecting
    it again finds nothing, whoever asks; before the exit a child that is
    alive cannot be collected; and apart from the child and its parent's
    waiting state no process changes. *)
Theorem exit_status_collected_once (k : Kernel) (parent child status : Z) (p : Process) :
  kernel_wf k -> find_process k child = Some p -> pr_parent_pid p = Some parent -> is_dead (pr_state p) = false ->
  Table.reap_child parent child k = Done (None, k) /\
  exists k1 k2, Table.mark_exited child status k = Done ((), k1) /\
    Table.reap_child parent child k1 = Done (Some (child, pr_name p, status), k2) /\ kernel_wf k2 /\
    (forall other, Table.reap_child other child k2 = Done (None, k2)) /\
    (forall pid, pid <> child -> find_process k2 pid =
       if pid =? parent then stop_waiting child <$> find_process k pid else find_process k pid).
Proof.
  intros Hk Hp Hpar Hd. split.
  { apply reap_child_refused. intros q (Hq & _ & Hr). rewrite Hp in Hq. injection Hq as <-.
    unfold Table.is_reapable in Hr. by destruct (pr_state p). }
  destruct (mark_exited_spec _ k child status p Hk Hp) as (k1 & E1 & Hi1 & Ho1 & _).
  destruct (reap_child_spec _ k1 parent child (exited (k_ticks k) status p) Hi1) as (k2 & E2 & Hi2 & (p' & Hp' & Hst & _) & Ho2 & _).
  { split; [by rewrite (Ho1 child), Z.eqb_refl|]. split; [done|]. unfold exited. rewrite Hpar. done. }
  exists k1, k2. split; [done|]. split; [done|]. split; [by eapply inv_wf|]. split.
  - intros other. apply reap_child_refused. intros q (Hq & _ & Hr). rewrite Hp' in Hq. injection Hq as <-.
    by rewrite Hst in Hr.
  - intros pid Hne. rewrite (Ho2 pid Hne), (Ho1 pid). by destruct (Z.eqb_spec pid child).
Qed.

(** ** Sleepers *)

Definition awake (p : Process) : Process :=
  upd_thread (main_tid p) (fun t => t <| th_state := TReady |>)
    (p <| pr_sleeping_until_tick := None |> <| pr_state := PReady |>).

Definition main_of (k : Kernel) (pid : Z) : Z := match find_process k pid with Some p => main_tid p | None => 0 end.

Lemma wake_all_spec Sh pids : forall k n,
  inv Sh k -> NoDup pids -> (forall pid, pid ∈ pids -> is_Some (find_process k pid)) ->
  exists k', Table.wake_all pids n k = Done ((n + length pids)%nat, k') /\ inv Sh k' /\
    (forall pid, find_process k' pid = (if bool_decide (pid ∈ pids) then awake else id) <$> find_process k pid) /\
    queue k' = enqueue_list (map (main_of k) pids) (queue k).
Proof.
  induction pids as [|pid pids IH]; intros k n Hi Hnd Hall.
  { exists k. rewrite Nat.add_0_r. split; [done|]. split; [done|]. split; [|done]. intros pid. simpl.
    by destruct (find_process k pid). }
  apply NoDup_cons in Hnd as [Hnin Hnd]. destruct (Hall pid) as [p Hp]; [apply list_elem_of_here|].
  cbn [Table.wake_all]. run. rewrite Hp. rewrite (set_state_eq Sh k pid p Hi Hp) by done. cbn [is_dead].
  fold (awake p). set (k1 := with_process (fun q => pr_pid q =? pid) (awake p) k).
  change (put_process pid _ k) with (Done ((), k1)). cbv beta iota. rewrite enqueue_eq.
  set (k2 := k1 <| k_table ::= (fun t => t <| pt_ready_queue ::= enqueued _ |>) |>).
  assert (shape (awake p) = shape p) as Hs by (unfold awake; by rewrite shape_upd_thread).
  pose proof (put_only Sh k pid p (awake p) Hi Hp Hs) as Ho. fold k1 in Ho.
  assert (inv Sh k2) as Hi2 by (apply inv_enqueued; by apply (put_wf Sh k pid p)).
  assert (forall x, find_process k2 x = find_process k1 x) as H12 by done.
  destruct (IH k2 (S n) Hi2 Hnd) as (k' & E & Hi' & Hf & Hq).
  { intros x Hx. rewrite H12, (Ho x). destruct (x =? pid); [by eexists|]. apply Hall. by apply elem_of_cons; right. }
  exists k'. split; [rewrite E; do 2 f_equal; simpl; lia|]. split; [done|]. split.
  - intros x. rewrite Hf, H12, (Ho x). destruct (Z.eqb_spec x pid) as [->|Hne].
    + rewrite Hp, bool_decide_eq_false_2, bool_decide_eq_true_2; [done|apply list_elem_of_here|done].
    + destruct (find_process k x); [|done]. simpl. f_equal. repeat case_bool_decide; try done; set_solver.
  - rewrite Hq. unfold enqueue_list. cbn [map foldl]. f_equal.
    + unfold main_of. rewrite Hp. done.
    + apply map_ext_in. intros x Hx%list_elem_of_In. unfold main_of. rewrite H12, (Ho x).
      by destruct (Z.eqb_spec x pid) as [->|].
Qed.

(** Sleepers wake when they are due.  [wake_sleeping_processes] makes
    ready exactly the blocked processes whose wake-up tick has come, returns
    their number, queues their main threads in table order, and leaves every
    other process alone. *)
Theorem wake_sleeping_exact (k : Kernel) (now : Z) :
  kernel_wf k ->
  let due := List.filter (Table.is_due now) (pt_processes (k_table k)) in
  exists k', Table.wake_sleeping_processes now k = Done (length due, k') /\ kernel_wf k' /\
    (forall pid, find_process k' pid = (fun p => if Table.is_due now p then awake p else p) <$> find_process k pid) /\
    queue k' = enqueue_list (map main_tid due) (queue k).
Proof.
  intros Hk due. unfold Table.wake_sleeping_processes. run. unfold Table.pids_where. fold due.
  assert (forall p, p ∈ due <-> p ∈ pt_processes (k_table k) /\ Table.is_due now p = true) as Hdue
    by (intros p; apply elem_of_filter_bool).
  assert (forall p, p ∈ due -> find_process k (pr_pid p) = Some p) as Hfind
    by (intros p [Hp _]%Hdue; by apply (find_process_elem (shapes (k_table k)))).
  destruct (wake_all_spec _ (map pr_pid due) k 0 Hk) as (k' & E & Hi' & Hf & Hq).
  - apply (NoDup_map_filter pr_pid). pose proof Hk as [[_ Hwf _ _] _].
    pose proof (sw_pids _ _ _ Hwf) as Hnd. unfold shapes in Hnd. by rewrite map_map in Hnd.
  - intros pid (p & -> & Hp)%elem_of_map. rewrite Hfind by done. by eexists.
  - exists k'. rewrite length_map in E. split; [done|]. split; [by eapply inv_wf|]. split.
    + intros pid. rewrite Hf. destruct (find_process k pid) as [p|] eqn:Hp; [|done]. simpl. f_equal.
      pose proof Hp as [Hin _]%find_Some. case_bool_decide as Hb.
      * apply elem_of_map in Hb as (q & Hq1 & Hq2). pose proof (Hfind q Hq2) as Hq3. rewrite <-Hq1, Hp in Hq3.
        injection Hq3 as <-. apply Hdue in Hq2 as [_ Hq2]. by rewrite Hq2.
      * destruct (Table.is_due now p) eqn:Ed; [|done]. destruct Hb. apply elem_of_map. exists p.
        split; [by rewrite (find_pid k pid p)|]. by apply Hdue.
    + rewrite Hq, map_map. f_equal. apply map_ext_in. intros p Hp%list_elem_of_In. unfold main_of. by rewrite Hfind.
Qed.

(** ** Examples *)

Definition demo_space : AddressSpace := Space.kernel_shared_user 0x1000000 kernel_placeholder_layout.

(** Process 1 runs its main thread 1 and has a second thread, 2. *)
Definition two_threads : Kernel :=
  state_of (pid ← Table.create_process None (str "a") (str "/bin/a") Arg.empty demo_space;
            Table.mark_running pid;; Table.create_user_thread pid 0x1000100 0x13f0000 0x13f4000 0x13f3ff8 7) boot_kernel.

(** Process 2 is a running child of process 1. *)
Definition parent_and_child : Kernel :=
  state_of (parent ← Table.create_process None (str "a") (str "/bin/a") Arg.empty demo_space;
            child ← Table.create_process (Some parent) (str "b") (str "/bin/b") Arg.empty demo_space;
            Table.mark_running child) boot_kernel.

Definition sleeping_kernel : Kernel := state_of (Table.mark_sleeping 1 50 (demo_context 0x111)) two_threads.

Lemma demo_wf k : table_check (k_table k) = true -> k_addr k = k_addr boot_kernel -> kernel_wf k.
Proof. intros H1 H2. apply kernel_check; [done|]. rewrite H2. exact demo_pool_wf. Qed.

Lemma exit_status_collected_once_witness :
  exists k1 k2, Table.mark_exited 2 42 parent_and_child = Done ((), k1) /\
    Table.reap_child 1 2 k1 = Done (Some (2, str "b", 42), k2) /\ Table.reap_child 1 2 k2 = Done (None, k2).
Proof.
  destruct (find_process parent_and_child 2) as [p|] eqn:Hp; [|vm_compute in Hp; discriminate Hp].
  destruct (exit_status_collected_once parent_and_child 1 2 42 p) as (_ & k1 & k2 & E1 & E2 & _ & Hn & _).
  - apply demo_wf; vm_compute; reflexivity.
  - exact Hp.
  - vm_compute in Hp. injection Hp as <-. reflexivity.
  - vm_compute in Hp. injection Hp as <-. reflexivity.
  - assert (pr_name p = str "b") as Hn' by (vm_compute in Hp; injection Hp as <-; reflexivity). rewrite Hn' in E2.
    exists k1, k2. split; [exact E1|]. split; [exact E2|exact (Hn 1)].
Defined.

Lemma wake_sleeping_exact_witness :
  exists k', Table.wake_sleeping_processes 60 sleeping_kernel = Done (1%nat, k') /\ kernel_wf k' /\ queue k' = [1].
Proof.
  destruct (wake_sleeping_exact sleeping_kernel 60) as (k' & E & Hk & _ & Hq).
  { apply demo_wf; vm_compute; reflexivity. }
  exists k'. split; [exact E|]. split; [exact Hk|]. rewrite Hq. vm_compute. reflexivity.
Defined.

(** When its main thread sleeps, a process loses the queue entries of all its
    threads: thread 2 can run, is queued before the sleep, and is in no queue
    after it, nor after the process has been woken. *)
Example sleeping_strands_siblings :
  queue two_threads = [2] /\ is_some (runnable sleeping_kernel 2) = true /\ queue sleeping_kernel = [] /\
  queue (state_of (Table.wake_sleeping_processes 60) sleeping_kernel) = [1] /\
  is_some (runnable (state_of (Table.wake_sleeping_processes 60) sleeping_kernel) 2) = true.
Proof. vm_compute. repeat split; reflexivity. Qed.

(** Process 2 leads group 2, to which its child 3 belongs; it joins group 1 and
    then creates a session: group 2 now has members in two sessions. *)
Definition split_group : Kernel :=
  state_of (p1 ← Table.create_process None (str "a") (str "/bin/a") Arg.empty demo_space;
            p2 ← Table.create_process (Some p1) (str "b") (str "/bin/b") Arg.empty demo_space;
            Table.set_process_group p2 p2 0;;
            p3 ← Table.create_process (Some p2) (str "c") (str "/bin/c") Arg.empty demo_space;
            Table.set_process_group p2 p2 p1;; Table.create_session p2) boot_kernel.

Example session_splits_group :
  map (fun pid => (Table.process_group_id split_group pid, Table.session_id split_group pid)) [1; 2; 3] =
  [(Some 1, Some 1); (Some 2, Some 2); (Some 2, Some 1)].
Proof. vm_compute. reflexivity. Qed.
