(* ===== verification/ProcessSpec.v ===== *)
(** * Signals: the exact effect

    The effect of the process-table methods that stop, wake and divert threads,
    as equations between whole kernel states.  The vocabulary of the equations
    is this file's own: membership in the table for lookups, maps over a
    process's threads for updates, the state a process shows for its threads,
    the time a thread has run.  Lemmas connect it with the methods' own helpers;
    the claims are C14 (signals) and C36 (the signal mask). *)

From S2P Require Import Prelude Utf8 Paths Vfs Ring3 Elf AddrSpace AddrSpaceProofs Threads Program Ipc Process TableSafety Views Scheduling Signals Lifecycle.

(** ** Vocabulary *)

(** Process [pid] is [p]; thread [tid] is the thread [t] of [p]. *)
Definition is_process (k : Kernel) (pid : Z) (p : Process) : Prop := p ∈ pt_processes (k_table k) /\ pr_pid p = pid.
Definition is_thread (k : Kernel) (tid : Z) (p : Process) (t : Thread) : Prop :=
  p ∈ pt_processes (k_table k) /\ t ∈ ts_items (pr_threads p) /\ th_tid t = tid.

(** The kernel with the process of the same pid replaced by [p'], with its queue changed. *)
Definition put (p' : Process) (k : Kernel) : Kernel :=
  k <| k_table ::= (fun t => t <| pt_processes ::= map (fun q => if pr_pid q =? pr_pid p' then p' else q) |>) |>.
Definition requeue (f : list Z -> list Z) (k : Kernel) : Kernel :=
  k <| k_table ::= (fun t => t <| pt_ready_queue ::= f |>) |>.

(** The process with every thread changed, with thread [tid] changed. *)
Definition on_threads (f : Thread -> Thread) (p : Process) : Process :=
  p <| pr_threads ::= (fun s => s <| ts_items ::= map f |>) |>.
Definition on_thread (tid : Z) (f : Thread -> Thread) (p : Process) : Process :=
  on_threads (fun t => if th_tid t =? tid then f t else t) p.

Definition main_thread (p : Process) : Z := ts_main_tid (pr_threads p).

(** The process has ended. *)
Definition gone (p : Process) : Prop := pr_state p = PExited \/ pr_state p = PZombie \/ pr_state p = PReaped.

#[export] Instance gone_dec p : Decision (gone p).
Proof. unfold gone. apply _. Defined.

(** The state of a live process follows from the states of its threads. *)
Definition shown (p : Process) : Process :=
  let some s := bool_decide (s ∈ map th_state (ts_items (pr_threads p))) in
  if decide (gone p) then p else
  p <| pr_state := if some TRunning then PRunning else if some TReady then PReady else if some TBlocked then PBlocked
                   else if some TStopped then PStopped else PCreated |>.

(** The time since the thread was last started is added to its running time, which stays at its largest value. *)
Definition charged (now : Z) (t : Thread) : Thread :=
  match th_last_started_tick t with
  | None => t
  | Some started => t <| th_last_started_tick := None |>
      <| th_runtime_ticks := Z.min u64_max (th_runtime_ticks t + Z.max 0 (now - started)) |>
  end.

(** ** The methods' helpers in this vocabulary *)

Lemma charged_eq now t : stop_thread_run now t = charged now t.
Proof. unfold stop_thread_run, charged. by destruct (th_last_started_tick t). Qed.

Lemma any_thread_eq s p : any_thread s p = bool_decide (s ∈ map th_state (ts_items (pr_threads p))).
Proof.
  unfold any_thread. apply eq_true_iff_eq. rewrite existsb_spec, bool_decide_eq_true, elem_of_map.
  split; intros (t & H).
  - destruct H as [Ht Hs%ThreadState_eqb_eq]. by exists t.
  - destruct H as [-> Ht]. exists t. split; [done|]. by apply ThreadState_eqb_eq.
Qed.

Lemma is_dead_gone p : is_dead (pr_state p) = bool_decide (gone p).
Proof. case_bool_decide as H; unfold gone in H; destruct (pr_state p); (done || (exfalso; intuition congruence)). Qed.

Lemma shown_eq p : refresh_state_from_threads p = shown p.
Proof.
  unfold refresh_state_from_threads, shown. rewrite is_dead_gone, !any_thread_eq. case_bool_decide as H.
  - by rewrite decide_True.
  - by rewrite decide_False.
Qed.

Lemma on_thread_eq tid f p : NoDup (map th_tid (ts_items (pr_threads p))) -> upd_thread tid f p = on_thread tid f p.
Proof.
  intros H. unfold upd_thread, on_thread, on_threads, TStore.upd, set. cbn. by rewrite (find_upd_map th_tid).
Qed.

Lemma on_threads_ext f g p : (forall t, f t = g t) -> on_threads f p = on_threads g p.
Proof. intros H. unfold on_threads, set. cbn. do 2 f_equal. by apply map_ext. Qed.

Section table.
Context (k : Kernel).
Hypothesis Hk : kernel_wf k.

Lemma pids_nodup : NoDup (map pr_pid (pt_processes (k_table k))).
Proof.
  pose proof Hk as [[_ Hwf _ _] _]. pose proof (sw_pids _ _ _ Hwf) as Hnd. unfold shapes in Hnd. by rewrite map_map in Hnd.
Qed.

Lemma is_process_iff pid p : find_process k pid = Some p <-> is_process k pid p.
Proof.
  split.
  - by intros [Hp ?%Z.eqb_eq]%find_Some.
  - intros [Hp <-]. by apply (find_process_elem (shapes (k_table k))).
Qed.

Lemma get_iff p tid t : p ∈ pt_processes (k_table k) ->
  TStore.get (pr_threads p) tid = Some t <-> t ∈ ts_items (pr_threads p) /\ th_tid t = tid.
Proof.
  intros Hp. split.
  - by intros [Ht ?%Z.eqb_eq]%find_Some.
  - intros Ht. apply (find_key th_tid); [|done]. by apply (process_tids_nodup (shapes (k_table k)) k).
Qed.

Lemma is_thread_iff tid p t :
  is_thread k tid p t <-> find_by_tid k tid = Some p /\ TStore.get (pr_threads p) tid = Some t.
Proof.
  split.
  - intros [Hp Ht]. pose proof (proj2 (get_iff p tid t Hp) Ht) as Hg. split; [|done].
    apply (find_by_tid_elem (shapes (k_table k))); [done..|]. by eapply has_tid_get.
  - intros [[Hp _]%find_Some Hg]. split; [done|]. by apply get_iff.
Qed.

Lemma no_thread_iff tid : find_by_tid k tid = None <-> forall p t, ~ is_thread k tid p t.
Proof.
  split.
  - intros H p t [H' _]%is_thread_iff. congruence.
  - intros H. destruct (find_by_tid k tid) as [p|] eqn:E; [|done]. destruct (find_by_tid_get k tid p E) as (t & Ht & _).
    destruct (H p t). by apply is_thread_iff.
Qed.

(** Writing a process back under any key that finds it. *)
Lemma with_process_put q p p' :
  List.find q (pt_processes (k_table k)) = Some p -> pr_pid p' = pr_pid p -> with_process q p' k = put p' k.
Proof.
  intros Hp He. unfold with_process, put, set. cbn. rewrite (find_upd_first pr_pid _ q p) by (done || apply pids_nodup).
  rewrite (find_upd_map pr_pid) by apply pids_nodup. by rewrite He.
Qed.

Lemma upd_thread_on tid f p : p ∈ pt_processes (k_table k) -> upd_thread tid f p = on_thread tid f p.
Proof. intros Hp. by apply on_thread_eq, (process_tids_nodup (shapes (k_table k)) k). Qed.
End table.

(** ** Termination *)

(** The end of a process: all its threads stop for good, in the process's own final state. *)
Definition stopped_as (st : ProcessState) (ts : ThreadState) (p : Process) : Process :=
  on_threads (fun t => t <| th_state := ts |> <| th_resume_context := None |> <| th_last_started_tick := None |>)
    (p <| pr_state := st |>).

(** The process ends with [status]: a zombie if it has a parent, else exited. *)
Definition ended (now status : Z) (p : Process) : Process :=
  let p := on_thread (main_thread p) (charged now) p <| pr_exit_status := Some status |> <| pr_sleeping_until_tick := None |> in
  match pr_parent_pid p with
  | Some _ => stopped_as PZombie TZombie p
  | None => stopped_as PExited TExited p
  end.

(** A blocked parent gets the status of the child it waited for. *)
Definition given_status (status : Z) (p : Process) : Process :=
  on_thread (main_thread p) (fun t => t <| th_state := TReady |> <| th_resume_context ::= fmap (fun c => c <| rc_rax := status |>) |>)
    (p <| pr_waiting_for := None |> <| pr_sleeping_until_tick := None |> <| pr_state := PReady |>).

(** Nobody runs any more, if it was process [pid]. *)
Definition idle_after (pid : Z) (k : Kernel) : Kernel :=
  if k_pid_atomic k =? pid then k <| k_pid_atomic := 0 |> <| k_tid_atomic := 0 |> <| k_preempt_pending := false |> else k.

(** Process [pid] waits for its child [p]. *)
Definition waits_for (k : Kernel) (parent : Process) (p : Process) : Prop :=
  pr_parent_pid p = Some (pr_pid parent) /\ parent ∈ pt_processes (k_table k) /\ pr_pid parent <> pr_pid p /\
  pr_state parent = PBlocked /\ pr_waiting_for parent = Some (pr_pid p).

(** The threads of [p] leave the queue. *)
Definition without_threads (p : Process) (q : list Z) : list Z :=
  List.filter (fun tid => negb (bool_decide (tid ∈ map th_tid (ts_items (pr_threads p))))) q.

(** [tid] joins the end of the queue unless it is in it. *)
Definition queued (tid : Z) (q : list Z) : list Z := if bool_decide (tid ∈ q) then q else q ++ [tid].

Lemma queued_eq tid q : enqueued tid q = queued tid q.
Proof.
  unfold enqueued, queued. assert (existsb (Z.eqb tid) q = bool_decide (tid ∈ q)) as ->; [|done].
  apply eq_true_iff_eq. rewrite existsb_spec, bool_decide_eq_true. split; [|intros; exists tid; by rewrite Z.eqb_refl].
  by intros (x & Hx & ->%Z.eqb_eq).
Qed.

Lemma without_threads_eq p q : without p q = without_threads p q.
Proof.
  unfold without, without_threads. apply filter_ext. intros tid. f_equal.
  apply eq_true_iff_eq. rewrite existsb_spec, bool_decide_eq_true. split; [|intros; exists tid; by rewrite Z.eqb_refl].
  by intros (x & Hx & ->%Z.eqb_eq).
Qed.

Lemma clocked_eq now p : NoDup (map th_tid (ts_items (pr_threads p))) -> clocked now p = on_thread (main_thread p) (charged now) p.
Proof.
  intros H. unfold clocked. rewrite (on_thread_eq _ _ _ H). apply on_threads_ext. intros t. unfold main_thread, main_tid. by rewrite charged_eq.
Qed.

Lemma exited_ended now status p : NoDup (map th_tid (ts_items (pr_threads p))) -> exited now status p = ended now status p.
Proof.
  intros H. unfold exited, ended. rewrite clocked_eq by done. cbv zeta.
  change (pr_parent_pid (set _ _ _)) with (pr_parent_pid p). by destruct (pr_parent_pid p).
Qed.

Lemma woken_given status p : NoDup (map th_tid (ts_items (pr_threads p))) -> woken status p = given_status status p.
Proof.
  intros H. unfold woken. set (p1 := p <| pr_waiting_for := None |> <| pr_sleeping_until_tick := None |>).
  rewrite (on_thread_eq (main_tid p) _ p1) by exact H. rewrite on_thread_eq; cycle 1.
  { unfold on_thread, on_threads, set. cbn. rewrite map_map. erewrite map_ext; [exact H|]. intros t. by destruct (_ =? _). }
  unfold given_status, on_thread, on_threads, main_thread, main_tid, set. cbn. rewrite map_map. do 2 f_equal.
  apply map_ext. intros t. destruct (th_tid t =? ts_main_tid (pr_threads p)) eqn:E; cbn; by rewrite ?E.
Qed.

Lemma put_put p1 p2 k : pr_pid p1 = pr_pid p2 -> put p2 (put p1 k) = put p2 k.
Proof.
  intros H. unfold put, set. cbn. do 2 f_equal. rewrite map_map. apply map_ext. intros q.
  rewrite H. destruct (Z.eqb_spec (pr_pid q) (pr_pid p2)) as [E|E]; [by rewrite H, Z.eqb_refl|]. by apply Z.eqb_neq in E as ->.
Qed.

(** The state [mark_exited] leaves. *)
Definition ended_state (status : Z) (p : Process) (k : Kernel) : Kernel :=
  put (ended (k_ticks k) status p) (idle_after (pr_pid p) (requeue (without_threads p) k)).

Lemma requeue_ext f g k : f (queue k) = g (queue k) -> requeue f k = requeue g k.
Proof. unfold queue, requeue, set. cbn. by intros ->. Qed.

Lemma enqueue_exact tid k : Table.enqueue_ready tid k = Done ((), requeue (queued tid) k).
Proof.
  rewrite enqueue_eq. fold (requeue (enqueued tid) k). by rewrite (requeue_ext (enqueued tid) (queued tid) k) by apply queued_eq.
Qed.

Lemma mark_exited_exact k pid status p : kernel_wf k -> find_process k pid = Some p ->
  Table.mark_exited pid status k = Done ((), ended_state status p k).
Proof.
  intros Hk Hp. rewrite (mark_exited_eq (shapes (k_table k)) k pid status p Hk Hp). unfold exit_state, ended_state.
  pose proof (find_pid k pid p Hp) as Hpid. pose proof Hp as [Hin _]%find_Some.
  rewrite <-exited_ended by (by apply (process_tids_nodup (shapes (k_table k)) k)).
  fold (requeue (without p) k). rewrite (requeue_ext (without p) (without_threads p) k) by apply without_threads_eq.
  change (released pid) with (idle_after pid). set (k1 := idle_after pid _).
  assert (pt_processes (k_table k1) = pt_processes (k_table k)) as Et by (unfold k1, idle_after; by destruct (_ =? _)).
  rewrite Hpid. fold k1. unfold with_process, put, set. cbn. rewrite Et.
  rewrite (find_upd_map pr_pid) by (by apply pids_nodup). change (pr_pid (exited _ _ p)) with (pr_pid p). by rewrite Hpid.
Qed.

Definition terminated (k : Kernel) (p : Process) (status : Z) (w : bool) (k' : Kernel) : Prop :=
  (w = false /\ (forall parent, ~ waits_for k parent p) /\ k' = ended_state status p k) \/
  (w = true /\ exists parent, waits_for k parent p /\
     k' = requeue (queued (main_thread parent))
            (put (given_status status parent)
              (put (stopped_as PReaped TReaped (ended (k_ticks k) status p)) (ended_state status p k)))).

Lemma is_waiting_for_iff pid p : Table.is_waiting_for pid p = true <-> pr_state p = PBlocked /\ pr_waiting_for p = Some pid.
Proof. unfold Table.is_waiting_for, ProcessState_eqb. by rewrite andb_true_iff, !bool_decide_eq_true. Qed.

(** The guard of [terminate_user_process] after the target has ended: a parent other than the target still waits. *)
Lemma waiting_check k p status k1 ppid : kernel_wf k -> find_process k (pr_pid p) = Some p -> pr_parent_pid p = Some ppid ->
  only_process k (pr_pid p) (exited (k_ticks k) status p) k1 ->
  match find_process k1 ppid with Some parent => Table.is_waiting_for (pr_pid p) parent | None => false end = false ->
  forall parent, ~ waits_for k parent p.
Proof.
  intros Hk Hp Epp Ho Hw parent (Hpp & Hin & Hne & Hst & Hwf). rewrite Epp in Hpp. injection Hpp as ->.
  rewrite (Ho (pr_pid parent)) in Hw. destruct (Z.eqb_spec (pr_pid parent) (pr_pid p)); [done|].
  rewrite (find_process_elem (shapes (k_table k)) k parent Hk Hin) in Hw.
  assert (Table.is_waiting_for (pr_pid p) parent = true) by (by apply is_waiting_for_iff). congruence.
Qed.

Lemma waiting_found k p status k1 ppid : kernel_wf k -> find_process k (pr_pid p) = Some p -> pr_parent_pid p = Some ppid ->
  only_process k (pr_pid p) (exited (k_ticks k) status p) k1 ->
  match find_process k1 ppid with Some parent => Table.is_waiting_for (pr_pid p) parent | None => false end = true ->
  exists parent, find_process k1 ppid = Some parent /\ waits_for k parent p /\ ppid = pr_pid parent.
Proof.
  intros Hk Hp Epp Ho. destruct (find_process k1 ppid) as [parent|] eqn:Ef; [|done]. intros [H1 H2]%is_waiting_for_iff.
  exists parent. split; [done|]. rewrite (Ho ppid) in Ef. destruct (Z.eqb_spec ppid (pr_pid p)) as [->|Hne].
  { injection Ef as <-. unfold exited in H1. simpl in H1. by destruct (is_some _). }
  pose proof (find_pid k ppid parent Ef) as Hpid. pose proof Ef as [Hin _]%find_Some. split; [|done].
  unfold waits_for. rewrite Hpid. by split_and!.
Qed.

Lemma terminate_exact k caller p status : kernel_wf k -> Table.check_signal_target k caller (pr_pid p) = Ok p ->
  exists w k', Table.terminate_user_process caller (pr_pid p) status k = Done (Ok (report (pr_pid p) p status w), k') /\
    terminated k p status w k'.
Proof.
  intros Hk Hc. pose proof (check_signal_target_find k caller _ p Hc) as Hp. set (target := pr_pid p) in *.
  destruct (mark_exited_spec _ k target status p Hk Hp) as (k1 & E1 & Hi1 & Ho1 & Hq1 & Hn1).
  pose proof (mark_exited_exact k target status p Hk Hp) as E1'. rewrite E1' in E1. injection E1 as E1.
  unfold Table.terminate_user_process, report. run. rewrite Hc, E1', E1. run.
  destruct (pr_parent_pid p) as [ppid|] eqn:Epp; cycle 1.
  { exists false, k1. split; [done|]. left. split; [done|]. split; [|done]. intros parent (H & _). congruence. }
  destruct (match find_process k1 ppid with Some parent => Table.is_waiting_for target parent | None => false end) eqn:Ew; cycle 1.
  { exists false, k1. split; [done|]. left. split; [done|]. split; [|done]. by eapply waiting_check. }
  destruct (waiting_found k p status k1 ppid Hk Hp Epp Ho1 Ew) as (parent & Hpar & Hw & ->).
  set (pe := exited (k_ticks k) status p) in *.
  assert (find_process k1 target = Some pe) as Hp1 by (by rewrite Ho1, Z.eqb_refl). rewrite Hp1.
  set (k2 := put (dead PReaped pe) k1).
  assert (with_process (fun q => pr_pid q =? target) (dead PReaped pe) k1 = k2) as E2.
  { apply (with_process_put k1 (inv_wf _ _ Hi1) _ pe); [exact Hp1|done]. }
  assert (inv (shapes (k_table k)) k2) as Hi2 by (rewrite <-E2; apply (put_wf _ k1 target pe); [done|done|apply shape_dead]).
  change (set_state PReaped pe) with (Done (dead PReaped pe)). cbv beta iota. rewrite put_process_eq, E2. cbv beta iota.
  assert (find_process k2 (pr_pid parent) = Some parent) as Hp2.
  { rewrite <-E2, (put_only _ k1 target pe (dead PReaped pe) Hi1 Hp1 (shape_dead _ _)).
    destruct (Z.eqb_spec (pr_pid parent) target); [|done]. destruct Hw as (_ & _ & Hne & _). done. }
  rewrite Hp2. unfold Table.set_main_rax. rewrite (upd_main_eq _ k2 (pr_pid parent) parent Hi2 Hp2) by done. cbv beta iota.
  rewrite (set_state_eq _ k2 (pr_pid parent) parent Hi2 Hp2); [|by rewrite shape_upd_thread]. cbn [is_dead]. rewrite put_process_eq, enqueue_exact.
  eexists true, _. split; [reflexivity|]. right. split; [done|]. exists parent. split; [done|].
  change (upd_thread _ _ _) with (woken status parent). rewrite <-woken_given, <-exited_ended; cycle 1.
  { apply find_Some in Hp as [Hp _]. by apply (process_tids_nodup (shapes (k_table k)) k). }
  { destruct Hw as (_ & Hin & _). by apply (process_tids_nodup (shapes (k_table k)) k). }
  change (stopped_as PReaped TReaped (exited (k_ticks k) status p)) with (dead PReaped pe). rewrite E1.
  fold k2. fold (with_process (fun q => pr_pid q =? pr_pid parent) (woken status parent) k2).
  rewrite (with_process_put k2 (inv_wf _ _ Hi2) _ parent); [reflexivity|done..].
Qed.

(** ** Signals *)

(** [caller] may signal the live user process [p]: another process, of the same user unless the caller is root. *)
Definition permitted (k : Kernel) (caller target : Z) (p : Process) : Prop :=
  caller <> target /\ is_process k target p /\ pr_kind p = UserProcess /\ ~ gone p /\
  exists c, is_process k caller c /\
    (cr_uid (pr_credentials c) = 0 \/ cr_uid (pr_credentials c) = cr_uid (pr_credentials p)).

(** Why a signal is refused. *)
Definition refused (k : Kernel) (caller target signal : Z) (e : Table.SignalTerminationError) : Prop :=
  match e with
  | Table.SSelfTarget => caller = target
  | Table.SMissing => caller <> target /\ ((forall c, ~ is_process k caller c) \/ (forall p, ~ is_process k target p) \/
      ((exists p, permitted k caller target p) /\ ~ 1 <= signal <= 64))
  | Table.SKernelTask => caller <> target /\ exists c p, is_process k caller c /\ is_process k target p /\ pr_kind p = KernelTask
  | Table.SAlreadyExited => caller <> target /\ exists c p, is_process k caller c /\ is_process k target p /\
      pr_kind p = UserProcess /\ gone p
  | Table.SPermissionDenied => caller <> target /\ exists c p, is_process k caller c /\ is_process k target p /\
      pr_kind p = UserProcess /\ ~ gone p /\
      cr_uid (pr_credentials c) <> 0 /\ cr_uid (pr_credentials c) <> cr_uid (pr_credentials p)
  end.

(** The main thread [t] of [p] is suspended with registers [c], and not inside a handler. *)
Definition suspended (p : Process) (t : Thread) (c : UserResumeContext) : Prop :=
  t ∈ ts_items (pr_threads p) /\ th_tid t = main_thread p /\ th_resume_context t = Some c /\ th_signal_return_context t = None.

(** [p] with its main thread, suspended with registers [c], diverted into the handler. *)
Definition into_handler (signal handler : Z) (c : UserResumeContext) (p : Process) : Process :=
  shown (on_thread (main_thread p) (fun t => t <| th_signal_return_context := Some c |>
           <| th_resume_context := Some (at_handler signal handler c) |> <| th_waiting_for := None |> <| th_state := TReady |>) p
         <| pr_waiting_for := None |> <| pr_sleeping_until_tick := None |>).

Definition signal_effect (k : Kernel) (caller target signal : Z)
    (r : result Table.SignalDelivery Table.SignalTerminationError) (k' : Kernel) : Prop :=
  match r with
  | Err e => refused k caller target signal e /\ k' = k
  | Ok d => exists p, permitted k caller target p /\ 1 <= signal <= 64 /\
      let blocked := Z.testbit (pr_blocked_signals p) (signal - 1) = true in
      let pending := Z.setbit (pr_pending_signals p) (signal - 1) in
      let handler := pr_sigterm_disposition p in
      match d with
      | Table.Pending pid name s mask =>
        (pid, name, s, mask) = (target, pr_name p, signal, pending) /\
        (blocked \/ (handler <> SIG_IGN /\ handler <> SIG_DFL /\ forall t c, ~ suspended p t c)) /\
        k' = put (p <| pr_pending_signals := pending |>) k
      | Table.Ignored pid name s => (pid, name, s) = (target, pr_name p, signal) /\ ~ blocked /\ handler = SIG_IGN /\ k' = k
      | Table.Handled pid name s h =>
        (pid, name, s, h) = (target, pr_name p, signal, handler) /\ ~ blocked /\ handler <> SIG_IGN /\ handler <> SIG_DFL /\
        exists t c, suspended p t c /\ k' = requeue (queued (main_thread p)) (put (into_handler signal handler c p) k)
      | Table.Terminated rep =>
        ~ blocked /\ handler = SIG_DFL /\
        exists w, rep = Table.mkSigRep target (pr_name p) (pr_parent_pid p) (pr_job_mode p) (128 + signal) w
                          (as_p4_frame (pr_address_space p)) /\
          terminated k p (128 + signal) w k'
      end
  end.

Lemma no_process k pid : find_process k pid = None -> forall p, ~ is_process k pid p.
Proof. unfold find_process. rewrite find_None. intros H p [Hp <-]. specialize (H p Hp). by rewrite Z.eqb_refl in H. Qed.

Lemma check_target_spec k caller target : kernel_wf k ->
  match Table.check_signal_target k caller target with
  | Ok p => permitted k caller target p
  | Err e => forall signal, refused k caller target signal e
  end.
Proof.
  intros Hk. unfold Table.check_signal_target. destruct (Z.eqb_spec caller target) as [|Hne]; [done|].
  destruct (find_process k caller) as [c|] eqn:Ec; [|by split; auto using no_process].
  destruct (find_process k target) as [p|] eqn:Ep; [|by split; auto using no_process].
  apply is_process_iff in Ec, Ep; [|done..]. unfold is_user. rewrite is_dead_gone.
  case_bool_decide as Hu; cbn [negb]; [|split; [done|]; exists c, p; split_and!; auto; by destruct (pr_kind p)].
  case_bool_decide as Hg; [split; [done|]; by exists c, p|].
  destruct (Z.eqb_spec (cr_uid (pr_credentials c)) 0); cbn [negb andb]; [unfold permitted; eauto 10|].
  destruct (Z.eqb_spec (cr_uid (pr_credentials c)) (cr_uid (pr_credentials p))); cbn [negb andb]; [unfold permitted; eauto 10|].
  split; [done|]. by exists c, p.
Qed.

Lemma signal_bit_spec signal : 0 <= signal ->
  signal_bit signal = if bool_decide (1 <= signal <= 64) then Some (2 ^ (signal - 1)) else None.
Proof.
  intros H. unfold signal_bit. case_bool_decide.
  - destruct (Z.eqb_spec signal 0), (Z.ltb_spec 64 signal); try lia. cbn. by rewrite Z.shiftl_1_l.
  - destruct (Z.eqb_spec signal 0); [done|]. destruct (Z.ltb_spec 64 signal); [done|lia].
Qed.

Lemma add_pending_exact k target bit p : kernel_wf k -> find_process k target = Some p ->
  Table.add_pending target bit k =
    Done (Z.lor (pr_pending_signals p) bit, put (p <| pr_pending_signals := Z.lor (pr_pending_signals p) bit |>) k).
Proof.
  intros Hk Hp. unfold Table.add_pending. run. rewrite Hp. cbv beta iota. rewrite put_process_eq.
  by rewrite (with_process_put k Hk _ p).
Qed.

Lemma activate_exact k target signal handler p : kernel_wf k -> find_process k target = Some p ->
  (exists t c, suspended p t c /\ Table.activate_signal_handler target signal handler k =
     Done (true, requeue (queued (main_thread p)) (put (into_handler signal handler c p) k))) \/
  ((forall t c, ~ suspended p t c) /\ Table.activate_signal_handler target signal handler k = Done (false, k)).
Proof.
  intros Hk Hp. pose proof Hp as [Hin _]%find_Some. unfold Table.activate_signal_handler. run. rewrite Hp.
  destruct (TStore.get (pr_threads p) (main_tid p)) as [t|] eqn:Et; cycle 1.
  { right. split; [|done]. intros t c (H1 & H2 & _). by rewrite (proj2 (get_iff k Hk p (main_tid p) t Hin)) in Et. }
  assert (forall t' c, suspended p t' c -> t' = t) as Hun.
  { intros t' c (H1 & H2 & _). assert (TStore.get (pr_threads p) (main_tid p) = Some t') by (by apply (get_iff k Hk)). congruence. }
  destruct (th_signal_return_context t) as [s|] eqn:Es; cbn [is_some].
  { right. split; [|done]. intros t' c Hs. rewrite (Hun t' c Hs) in Hs. destruct Hs as (_ & _ & _ & Hs). congruence. }
  destruct (th_resume_context t) as [c|] eqn:Er; cycle 1.
  { right. split; [|done]. intros t' c Hs. rewrite (Hun t' c Hs) in Hs. destruct Hs as (_ & _ & Hs & _). congruence. }
  left. exists t, c. pose proof (proj1 (get_iff k Hk p _ t Hin) Et) as [H1 H2]. split; [by split_and!|].
  rewrite put_process_eq, enqueue_exact, shown_eq. rewrite (upd_thread_on k Hk _ _ p Hin).
  fold (into_handler signal handler c p). rewrite (with_process_put k Hk _ p); [reflexivity|done|].
  unfold into_handler, shown. cbv zeta. by destruct (decide _).
Qed.

(** C14. Signals.  For a non-negative signal number [send_signal] never panics
    and keeps the table well-formed.  It refuses, changing nothing and with the
    error that names the reason, unless the caller exists and is another
    process, the target a live user process of the same user (or the caller
    root) and the signal a number from 1 to 64.  A blocked signal, and one whose
    handler cannot be entered now, becomes pending; an ignored one is dropped;
    with a handler, the main thread's registers are saved and it is queued to
    run from the handler's address with the signal number in [rdi] and 0 in
    [rax]; otherwise the target dies with status 128 + signal: its threads stop
    for good and leave the ready queue, and it becomes a zombie if it has a
    parent and exited if not, unless its parent is blocked waiting for it: then
    the parent is made ready with that status in [rax] and queued, and the
    target is reaped.  The final state is given whole, so nothing else
    changes. *)
Theorem send_signal_delivers (k : Kernel) (caller target signal : Z) :
  kernel_wf k -> 0 <= signal ->
  exists r k', Table.send_signal caller target signal k = Done (r, k') /\ kernel_wf k' /\
    signal_effect k caller target signal r k'.
Proof.
  intros Hk Hsig. cut (exists r k', Table.send_signal caller target signal k = Done (r, k') /\ signal_effect k caller target signal r k').
  { intros (r & k' & E & H). exists r, k'. split; [done|]. split; [|done].
    pose proof (safe_kernel _ k (fun Sh => send_signal_safe Sh caller target signal) Hk) as Hs. unfold wp in Hs. by rewrite E in Hs. }
  unfold Table.send_signal, signal_effect. run. pose proof (check_target_spec k caller target Hk) as Hc.
  destruct (Table.check_signal_target k caller target) as [p|e] eqn:Ec; [|exists (Err e), k; auto].
  rewrite signal_bit_spec by done. case_bool_decide as Hr; cycle 1.
  { exists (Err Table.SMissing), k. split; [done|]. split; [|done]. split; [apply Hc|]. right. right. eauto. }
  cbn [ok_or]. pose proof Hc as (_ & Hp & _). apply (is_process_iff k Hk) in Hp. pose proof (find_pid _ _ _ Hp) as Hpid. rewrite Hpid.
  pose proof (add_pending_exact k target (2 ^ (signal - 1)) p Hk Hp) as Ea. rewrite <-Z.setbit_spec' in Ea by lia.
  rewrite land_bit by lia. destruct (Z.testbit (pr_blocked_signals p) (signal - 1)) eqn:Hb.
  { rewrite Ea. eexists _, _. split; [reflexivity|]. exists p. split; [exact Hc|]. split; [exact Hr|]. cbv zeta. rewrite Hb. by auto. }
  destruct (Z.eqb_spec (pr_sigterm_disposition p) SIG_IGN) as [Hd|Hd].
  { eexists _, _. split; [reflexivity|]. exists p. split; [exact Hc|]. split; [exact Hr|]. cbv zeta. by rewrite Hb. }
  destruct (Z.eqb_spec (pr_sigterm_disposition p) SIG_DFL) as [Hd'|Hd']; cbn [negb]; cycle 1.
  - destruct (activate_exact k target signal (pr_sigterm_disposition p) p Hk Hp) as [(t & c & Hs & E)|[Hs E]]; rewrite E.
    + eexists _, _. split; [reflexivity|]. exists p. split; [exact Hc|]. split; [exact Hr|]. cbv zeta. rewrite Hb.
      do 4 (split; [done|]). by exists t, c.
    + rewrite Ea. eexists _, _. split; [reflexivity|]. exists p. split; [exact Hc|]. split; [exact Hr|]. cbv zeta. split; [done|]. split; [|done]. right. by auto.
  - rewrite <-Hpid in Ec |- *. destruct (terminate_exact k caller p (128 + signal) Hk Ec) as (w & k' & E & Ht).
    rewrite E. eexists _, _. split; [reflexivity|]. exists p. split; [by rewrite Hpid|]. split; [exact Hr|]. cbv zeta. rewrite Hb.
    do 2 (split; [done|]). by exists w.
Qed.

(** ** The signal mask *)

Definition mask_bit (how : Table.SignalMaskHow) (old mask : bool) : bool :=
  match how with Table.Block => old || mask | Table.Unblock => old && negb mask | Table.SetMask => mask end.

(** Signal [i + 1] is pending in [p] and not blocked by [new]. *)
Definition deliverable (p : Process) (new i : Z) : Prop :=
  Z.testbit (pr_pending_signals p) i = true /\ Z.testbit new i = false.

(** The mask in force before and after, the signal delivered and what stays pending. *)
Definition mask_effect (k : Kernel) (pid : Z) (how : Table.SignalMaskHow) (mask : Z) (r : option Table.SignalMaskUpdate) (k' : Kernel) : Prop :=
  let changes p := is_process k pid p /\ pr_kind p = UserProcess /\ ~ gone p in
  match r with
  | None => (forall p, ~ changes p) /\ k' = k
  | Some u => exists p new delivered pending, changes p /\ u = Table.mkMaskUpd (pr_blocked_signals p) new delivered /\
      k' = put (p <| pr_blocked_signals := new |> <| pr_pending_signals := pending |>) k /\
      u64_range new /\ u64_range pending /\
      (forall i, 0 <= i < 64 ->
         Z.testbit new i = mask_bit how (Z.testbit (pr_blocked_signals p) i) (Z.testbit mask i)) /\
      match delivered with
      | None => pending = pr_pending_signals p /\ forall i, 0 <= i < 64 -> ~ deliverable p new i
      | Some s => 1 <= s <= 64 /\ deliverable p new (s - 1) /\ (forall i, 0 <= i < s - 1 -> ~ deliverable p new i) /\
          forall i, 0 <= i < 64 -> Z.testbit pending i = Z.testbit (pr_pending_signals p) i && negb (i =? s - 1)
      end
  end.

Lemma lor_u64_range a b : u64_range a -> u64_range b -> u64_range (Z.lor a b).
Proof.
  unfold u64_range, u64_max. intros [Ha1 Ha2] [Hb1 Hb2]. assert (0 <= Z.lor a b) by (by apply Z.lor_nonneg).
  split; [done|]. destruct (Z.eq_dec (Z.lor a b) 0) as [->|]; [lia|]. cut (Z.lor a b < 2 ^ 64); [lia|].
  apply Z.log2_lt_pow2; [lia|]. rewrite Z.log2_lor by done. apply Z.max_lub_lt.
  - destruct (Z.eq_dec a 0) as [->|]; [done|]. apply Z.log2_lt_pow2; lia.
  - destruct (Z.eq_dec b 0) as [->|]; [done|]. apply Z.log2_lt_pow2; lia.
Qed.

(** The lowest pending signal that is not blocked, and the mask without it. *)
Lemma lowest_delivered p new : u64_range (pr_pending_signals p) ->
  let del := lowest_signal (Z.land (pr_pending_signals p) (u64_not new)) in
  let pending := match del with
                 | Some signal => Z.land (pr_pending_signals p) (u64_not (default 0 (signal_bit signal)))
                 | None => pr_pending_signals p
                 end in
  match del with
  | None => pending = pr_pending_signals p /\ forall i, 0 <= i < 64 -> ~ deliverable p new i
  | Some s => 1 <= s <= 64 /\ deliverable p new (s - 1) /\ (forall i, 0 <= i < s - 1 -> ~ deliverable p new i) /\
      forall i, 0 <= i < 64 -> Z.testbit pending i = Z.testbit (pr_pending_signals p) i && negb (i =? s - 1)
  end.
Proof.
  intros Hr del pending. subst pending. pose proof (lowest_signal_spec _ (land_range _ (u64_not new) Hr)) as Hl. fold del in Hl.
  assert (forall i, 0 <= i < 64 -> Z.testbit (Z.land (pr_pending_signals p) (u64_not new)) i = true <-> deliverable p new i) as Hb.
  { intros i Hi. unfold deliverable. rewrite Z.land_spec, testbit_u64_not, andb_true_iff, negb_true_iff by done. done. }
  destruct del as [s|].
  - destruct Hl as (Hs & H1 & H2). split; [done|]. split; [apply Hb; [lia|done]|]. split.
    + intros i Hi Hdel. apply Hb in Hdel; [|lia]. rewrite H2 in Hdel by done. done.
    + intros i Hi. rewrite Z.land_spec, testbit_u64_not by done. do 2 f_equal. unfold signal_bit.
      destruct (Z.eqb_spec s 0), (Z.ltb_spec 64 s); try lia. simpl.
      rewrite Z.shiftl_1_l, Z.pow2_bits_eqb by lia. apply Z.eqb_sym.
  - split; [done|]. intros i Hi Hdel. apply Hb in Hdel; [|done]. by rewrite Hl, Z.bits_0 in Hdel.
Qed.

(** C36. The signal mask.  For 64-bit masks [update_signal_mask] never panics.
    For a process that is not a live user process it answers nothing and
    changes nothing.  Otherwise the new mask is, bit by bit, what was asked; if
    a pending signal is thereby deliverable the lowest such signal is delivered
    and is no longer pending; every other pending signal stays pending.  The
    final state is given whole: only that process's two masks change. *)
Theorem signal_mask_delivers_lowest (k : Kernel) (pid : Z) (how : Table.SignalMaskHow) (mask : Z) :
  kernel_wf k -> u64_range mask ->
  (forall p, is_process k pid p -> u64_range (pr_pending_signals p) /\ u64_range (pr_blocked_signals p)) ->
  exists r k', Table.update_signal_mask pid how mask k = Done (r, k') /\ kernel_wf k' /\ mask_effect k pid how mask r k'.
Proof.
  intros Hk Hm Hr. pose proof (safe_kernel _ k (fun Sh => update_signal_mask_safe Sh pid how mask) Hk) as Hsafe. revert Hsafe.
  unfold Table.update_signal_mask, wp, mask_effect. run.
  destruct (find_process k pid) as [p|] eqn:Hp; [|exists None, k; split_and!; [done..|intros p [Hq _]; by apply (no_process k pid Hp p)|done]].
  pose proof (proj1 (is_process_iff k Hk pid p) Hp) as Hp'. destruct (Hr p Hp') as [Hr1 Hr2].
  unfold is_user. rewrite is_dead_gone. intros Hsafe. destruct (negb _ || _) eqn:Eg.
  { exists None, k. split; [done|]. split; [done|]. split; [|done]. intros q (Hq & Hu & Hg). apply is_process_iff in Hq; [|done].
    rewrite Hp in Hq. injection Hq as <-. by rewrite bool_decide_eq_true_2, bool_decide_eq_false_2 in Eg. }
  apply orb_false_iff in Eg as [Hu%negb_false_iff%bool_decide_eq_true Hg%bool_decide_eq_false].
  rewrite put_process_eq, (with_process_put k Hk _ p) in Hsafe |- * by done.
  set (new := match how with Table.Block => _ | Table.Unblock => _ | Table.SetMask => _ end) in *.
  set (del := lowest_signal _) in *. eexists _, _. split; [reflexivity|]. split; [exact Hsafe|].
  exists p, new, del. eexists. split; [done|]. split; [reflexivity|]. split; [reflexivity|].
  split; [unfold new; destruct how; [by apply lor_u64_range|by apply land_range|done]|].
  split; [destruct del; [by apply land_range|done]|]. split.
  { intros i Hi. unfold new. destruct how; simpl; [apply Z.lor_spec| |done]. by rewrite Z.land_spec, testbit_u64_not. }
  by apply lowest_delivered.
Qed.

(** ** Examples *)

(** Process 1 signals its child 2, which runs: the child becomes a zombie. *)
Lemma send_signal_delivers_witness :
  exists p k', Table.send_signal 1 2 SIGTERM parent_and_child =
    Done (Ok (Table.Terminated (Table.mkSigRep 2 (str "b") (Some 1) Foreground 143 false None)), k') /\ kernel_wf k' /\
    find_process k' 2 = Some p /\ pr_state p = PZombie /\ pr_exit_status p = Some 143.
Proof.
  destruct (send_signal_delivers parent_and_child 1 2 SIGTERM) as (r & k' & E & Hk & _).
  { apply demo_wf; vm_compute; reflexivity. }
  { vm_compute. discriminate. }
  assert (fst <$> Table.send_signal 1 2 SIGTERM parent_and_child =
    Done (Ok (Table.Terminated (Table.mkSigRep 2 (str "b") (Some 1) Foreground 143 false None)))) as E0 by (vm_compute; reflexivity).
  assert ((fun k => (fun p => (pr_state p, pr_exit_status p)) <$> find_process k 2) ∘ snd <$>
    Table.send_signal 1 2 SIGTERM parent_and_child = Done (Some (PZombie, Some 143))) as E1 by (vm_compute; reflexivity).
  rewrite E in E0, E1. injection E0 as ->. injection E1 as E1. destruct (find_process k' 2) as [p|] eqn:Hp; [|discriminate E1].
  injection E1 as H1 H2. exists p, k'. split; [exact E|]. split; [exact Hk|]. split; [exact Hp|]. split; [exact H1|exact H2].
Defined.

(** Process 2 has SIGTERM blocked and pending. *)
Definition pending_kernel : Kernel :=
  state_of (Table.update_signal_mask 2 Table.Block 0x4000;; Table.send_signal 1 2 SIGTERM) demo_kernel.

Lemma signal_mask_delivers_lowest_witness :
  exists k', Table.update_signal_mask 2 Table.Unblock 0x4000 pending_kernel = Done (Some (Table.mkMaskUpd 0x4000 0 (Some 15)), k') /\
    kernel_wf k' /\ pr_pending_signals <$> find_process k' 2 = Some 0.
Proof.
  assert (kernel_wf pending_kernel) as Hw by (apply kernel_check; [vm_compute; reflexivity|exact demo_pool_wf]).
  destruct (signal_mask_delivers_lowest pending_kernel 2 Table.Unblock 0x4000) as (r & k' & E & Hk & _).
  - exact Hw.
  - vm_compute. split; discriminate.
  - intros p Hp%(is_process_iff _ Hw). vm_compute in Hp. injection Hp as <-. vm_compute. repeat split; discriminate.
  - assert (fst <$> Table.update_signal_mask 2 Table.Unblock 0x4000 pending_kernel =
      Done (Some (Table.mkMaskUpd 0x4000 0 (Some 15)))) as E0 by (vm_compute; reflexivity).
    assert ((fun k => pr_pending_signals <$> find_process k 2) ∘ snd <$> Table.update_signal_mask 2 Table.Unblock 0x4000 pending_kernel =
      Done (Some 0)) as E1 by (vm_compute; reflexivity).
    rewrite E in E0, E1. injection E0 as ->. injection E1 as E1. exists k'. split; [exact E|]. split; [exact Hk|exact E1].
Defined.
