(* ===== verification/ThreadSpec.v ===== *)
(** * Thread exit and joining: the exact effect

    The whole kernel state after a thread has exited (C33) and after one thread
    has joined another (C34), in the vocabulary of [ProcessSpec]. *)

From S2P Require Import Prelude Utf8 Paths Vfs Ring3 Elf AddrSpace AddrSpaceProofs Threads Program Ipc Process TableSafety Views Scheduling Signals Lifecycle ProcessSpec.

(** ** Managed stacks *)

(** The stack of [t] that the kernel manages: the page table and the top. *)
Definition managed_stack (p : Process) (t : Thread) : option (Z * Z) :=
  match as_p4_frame (pr_address_space p), th_user_stack_top t with
  | Some p4, Some top => if th_kernel_managed_stack t then Some (p4, top) else None
  | _, _ => None
  end.

(** The stack of [t] is given back: the thread no longer has it, its slot in the pool is free. *)
Definition stackless (t : Thread) : Thread :=
  t <| th_user_stack_top := None |> <| th_user_stack_start := None |> <| th_kernel_managed_stack := false |>.
Definition give_back (s : option (Z * Z)) (k : Kernel) : Kernel :=
  match s with
  | Some (p4, top) => k <| k_addr ::= (fun a => a <| ad_pool ::= with_stacks p4 (unreserved top) |>) |>
  | None => k
  end.

(** A collected thread. *)
Definition reaped (p : Process) (t : Thread) : Thread :=
  match managed_stack p t with Some _ => stackless t | None => t end <| th_state := TReaped |>.

Lemma take_release_eq p tid t : NoDup (map th_tid (ts_items (pr_threads p))) -> TStore.get (pr_threads p) tid = Some t ->
  take_managed_stack_release tid p =
    (managed_stack p t, match managed_stack p t with Some _ => on_thread tid stackless p | None => p end).
Proof.
  intros Hnd Ht. unfold take_managed_stack_release, managed_stack. rewrite Ht.
  destruct (as_p4_frame (pr_address_space p)); [|done]. destruct (th_kernel_managed_stack t); cbn [negb]; [|by destruct (th_user_stack_top t)].
  destruct (th_user_stack_top t); [|done]. by rewrite on_thread_eq.
Qed.

Lemma give_back_eq s k : pool_wf (ad_pool (k_addr k)) ->
  (match s with
   | Some (p4_frame, stack_top) => with_addr (release_private_thread_stack p4_frame stack_top);; mret ()
   | None => mret ()
   end) k = Done ((), give_back s k).
Proof.
  intros Hp. destruct s as [[p4 top]|]; [|done]. run. unfold with_addr, release_private_thread_stack, with_pool.
  destruct (release_stack_slot_eq (ad_pool (k_addr k)) p4 top Hp) as [b ->]. done.
Qed.

(** The same threads, changed in two steps; the thread [tid] is [t] and keeps its number. *)
Lemma on_threads_twice f g p : on_threads g (on_threads f p) = on_threads (fun t => g (f t)) p.
Proof. unfold on_threads, set. cbn. by rewrite map_map. Qed.

Lemma on_threads_nodup f p : (forall t, th_tid (f t) = th_tid t) -> NoDup (map th_tid (ts_items (pr_threads p))) ->
  NoDup (map th_tid (ts_items (pr_threads (on_threads f p)))).
Proof. intros Hf H. unfold on_threads, set. cbn. rewrite map_map. by erewrite map_ext. Qed.

Lemma get_on_threads f p tid : (forall t, th_tid (f t) = th_tid t) ->
  TStore.get (pr_threads (on_threads f p)) tid = f <$> TStore.get (pr_threads p) tid.
Proof.
  intros Hf. unfold TStore.get, on_threads, set. cbn. induction (ts_items (pr_threads p)) as [|t l IH]; cbn; [done|].
  rewrite Hf. by destruct (th_tid t =? tid).
Qed.

Lemma on_threads_ext_in f g p : (forall t, t ∈ ts_items (pr_threads p) -> f t = g t) -> on_threads f p = on_threads g p.
Proof.
  intros H. unfold on_threads, set. cbn. do 2 f_equal. apply map_ext_in. intros t Ht%list_elem_of_In. by apply H.
Qed.

(** ** Thread exit *)

(** [t] is blocked joining thread [tid]. *)
Definition awaits (tid : Z) (t : Thread) : Prop := th_state t = TBlocked /\ th_waiting_for t = Some tid.

#[export] Instance awaits_dec tid t : Decision (awaits tid t).
Proof. unfold awaits. apply _. Defined.

(** It goes on with return value 0. *)
Definition goes_on (t : Thread) : Thread :=
  t <| th_state := TReady |> <| th_waiting_for := None |> <| th_resume_context ::= fmap (fun c => c <| rc_rax := 0 |>) |>.

(** The threads of [p] that wait for [tid]. *)
Definition waiters (p : Process) (tid : Z) : list Z :=
  map th_tid (List.filter (fun t => bool_decide (th_tid t <> tid /\ awaits tid t)) (ts_items (pr_threads p))).

Definition finished (now : Z) (t : Thread) : Thread :=
  charged now t <| th_state := TExited |> <| th_resume_context := None |> <| th_waiting_for := None |>.

(** The threads of [p] after the exit of [tid]; [joined]: somebody waited for it. *)
Definition exit_view (now : Z) (p : Process) (tid : Z) (joined : bool) (t : Thread) : Thread :=
  if th_tid t =? tid then (if joined then reaped p (finished now t) else finished now t)
  else if decide (awaits tid t) then goes_on t else t.

Definition exit_effect (k : Kernel) (tid : Z) (r : option Z) (k' : Kernel) : Prop :=
  match r with
  | None => (forall p t, is_thread k tid p t -> tid = main_thread p) /\ k' = k
  | Some pid => exists p t, is_thread k tid p t /\ tid <> main_thread p /\ pid = pr_pid p /\
      let joined := bool_decide (waiters p tid <> []) in
      k' = requeue (fun q => foldl (fun q j => queued j q) (List.filter (fun x => negb (x =? tid)) q) (waiters p tid))
             (put (shown (on_threads (exit_view (k_ticks k) p tid joined) p))
               (if joined then give_back (managed_stack p t) k else k))
  end.

Lemma awaits_eq tid t : Table.is_waiter tid t = bool_decide (awaits tid t).
Proof.
  unfold Table.is_waiter, awaits, ThreadState_eqb. by repeat case_bool_decide; naive_solver.
Qed.

Lemma enqueue_all_exact tids : forall k,
  Table.enqueue_all tids k = Done ((), requeue (fun q => foldl (fun q j => queued j q) q tids) k).
Proof.
  induction tids as [|tid tids IH]; intros k; simpl; run.
  - do 2 f_equal. unfold requeue. by destruct k as [[] ? ? ? ? ? ? ? ? ? ? ? ? ? ? ?].
  - rewrite enqueue_exact. by rewrite IH.
Qed.

(** The exited thread itself is not blocked, so it is not among the woken. *)
Lemma waiters_after now p tid :
  map th_tid (List.filter (Table.is_waiter tid) (ts_items (pr_threads (on_thread tid (finished now) p)))) = waiters p tid.
Proof.
  unfold waiters, on_thread, on_threads, set. cbn. induction (ts_items (pr_threads p)) as [|t l IH]; [done|]. cbn [map List.filter].
  rewrite awaits_eq. destruct (Z.eqb_spec (th_tid t) tid) as [He|He].
  - rewrite bool_decide_eq_false_2 by (by intros []). rewrite bool_decide_eq_false_2 by tauto. exact IH.
  - destruct (decide (awaits tid t)).
    + rewrite !bool_decide_eq_true_2 by done. cbn [map]. by rewrite IH.
    + rewrite !bool_decide_eq_false_2 by tauto. exact IH.
Qed.

Section exit.
Context (k : Kernel) (tid : Z) (p : Process) (t : Thread).
Hypothesis Hk : kernel_wf k.
Hypothesis Ht : is_thread k tid p t.
Let now := k_ticks k.

(** The process once the thread has finished and its waiters go on. *)
Let p2 := on_threads (exit_view now p tid false) p.

Lemma exit_nodup : NoDup (map th_tid (ts_items (pr_threads p))).
Proof. apply (process_tids_nodup (shapes (k_table k)) k); [exact Hk|apply Ht]. Qed.

Lemma exit_view_tid joined t' : th_tid (exit_view now p tid joined t') = th_tid t'.
Proof.
  unfold exit_view, reaped, finished, charged.
  destruct (th_tid t' =? tid); [|by destruct (decide _)]. destruct joined; [|by destruct (th_last_started_tick t')].
  by destruct (th_last_started_tick t'), (managed_stack _ _).
Qed.

Lemma exit_woken : on_threads (fun t => if Table.is_waiter tid t then Table.wake_waiter t else t)
    (on_thread tid (finished now) p) = p2.
Proof.
  unfold p2, on_thread. rewrite on_threads_twice. apply on_threads_ext. intros t'. unfold exit_view. rewrite awaits_eq.
  destruct (th_tid t' =? tid); [by rewrite bool_decide_eq_false_2 by (by intros [])|].
  case_bool_decide; [by rewrite decide_True|by rewrite decide_False].
Qed.

Lemma managed_same st p' : pr_address_space p' = pr_address_space p ->
  managed_stack p' (finished now t <| th_state := st |>) = managed_stack p t.
Proof. unfold managed_stack, finished, charged. intros ->. by destruct (th_last_started_tick t). Qed.

(** A change of the finished thread. *)
Lemma on_finished f : (forall t, th_tid (f t) = th_tid t) ->
  on_thread tid f p2 = on_threads (fun t' => if th_tid t' =? tid then f (finished now t') else exit_view now p tid false t') p.
Proof.
  intros Hf. unfold p2, on_thread. rewrite on_threads_twice. apply on_threads_ext. intros t'. rewrite exit_view_tid.
  destruct (th_tid t' =? tid) eqn:E; [|done]. unfold exit_view. by rewrite E.
Qed.

(** Collecting it as well. *)
Lemma exit_collected : take_managed_stack_release tid (upd_thread tid (fun t => t <| th_state := TReaped |>) p2) =
  (managed_stack p t, on_threads (exit_view now p tid true) p).
Proof.
  pose proof exit_nodup as Hnd. pose proof (on_threads_nodup _ p (exit_view_tid false) Hnd) as Hnd2. fold p2 in Hnd2.
  rewrite on_thread_eq by exact Hnd2. destruct Ht as (Hp & Hin & Htid).
  assert (TStore.get (pr_threads p) tid = Some t) as Hg by (by apply (get_iff k Hk)).
  rewrite (take_release_eq _ tid (finished now t <| th_state := TReaped |>)); cycle 1.
  { apply on_threads_nodup; [|exact Hnd2]. intros t'. by destruct (_ =? _). }
  { unfold on_thread. rewrite get_on_threads by (intros t'; by destruct (_ =? _)). unfold p2.
    rewrite get_on_threads by apply exit_view_tid. rewrite Hg. cbn. rewrite exit_view_tid, Htid, Z.eqb_refl.
    unfold exit_view. by rewrite Htid, Z.eqb_refl. }
  rewrite managed_same by done. f_equal.
  assert (forall t', t' ∈ ts_items (pr_threads p) -> th_tid t' = tid -> t' = t) as Hun.
  { intros t' Ht' He. apply (NoDup_map_inj th_tid (ts_items (pr_threads p))); [done..|congruence]. }
  transitivity (on_thread tid (fun t' => match managed_stack p t with Some _ => stackless t' | None => t' end <| th_state := TReaped |>) p2).
  - destruct (managed_stack p t); [|done]. unfold on_thread at 1 2. rewrite on_threads_twice. apply on_threads_ext. intros t'.
    destruct (th_tid t' =? tid) eqn:E; cbn; by rewrite E.
  - rewrite on_finished by (intros t'; by destruct (managed_stack p t)). apply on_threads_ext_in. intros t' Ht'. unfold exit_view.
    destruct (Z.eqb_spec (th_tid t') tid) as [He|]; [|done]. rewrite (Hun t' Ht' He). unfold reaped.
    by rewrite (managed_same TExited p eq_refl : managed_stack p (finished now t) = _).
Qed.
End exit.

Lemma give_back_commute s f p' k : give_back s (requeue f (put p' k)) = requeue f (put p' (give_back s k)).
Proof. by destruct s as [[p4 top]|]. Qed.

Lemma requeue_twice f g k : requeue g (requeue f k) = requeue (fun q => g (f q)) k.
Proof. done. Qed.

Lemma retain_exact keep k : Table.retain_ready keep k = Done ((), requeue (List.filter keep) k).
Proof. done. Qed.

Lemma shown_pid p : pr_pid (shown p) = pr_pid p.
Proof. unfold shown. cbv zeta. by destruct (decide (gone p)). Qed.

Lemma put_by_tid_exact k tid p p' t : kernel_wf k -> is_thread k tid p t -> pr_pid p' = pr_pid p ->
  put_by_tid tid p' k = Done ((), put p' k).
Proof.
  intros Hk [Hp _]%is_thread_iff He; [|done]. rewrite put_by_tid_eq. by rewrite (with_process_put k Hk _ p).
Qed.

Lemma exit_exact k tid p t : kernel_wf k -> is_thread k tid p t -> tid <> main_thread p ->
  exists k', Table.mark_thread_exited tid k = Done (Some (pr_pid p), k') /\ exit_effect k tid (Some (pr_pid p)) k'.
Proof.
  intros Hk Ht Hm. pose proof (proj1 (is_thread_iff k Hk tid p t) Ht) as [Hp Hg]. pose proof Ht as (Hin & _).
  eexists. split; [|exists p, t; split_and!; [done..|reflexivity]].
  unfold Table.mark_thread_exited. run. rewrite Hp. apply Z.eqb_neq in Hm. unfold main_thread in Hm. unfold main_tid. rewrite Hm. run.
  rewrite (upd_thread_on k Hk tid _ p Hin). unfold on_thread at 1 2 3 4.
  rewrite (on_threads_ext _ (fun t => if th_tid t =? tid then finished (k_ticks k) t else t) p)
    by (intros t'; by rewrite charged_eq).
  fold (on_thread tid (finished (k_ticks k)) p). rewrite waiters_after.
  set (w := fun t => if Table.is_waiter tid t then Table.wake_waiter t else t).
  change (set pr_threads (fun s => s <| ts_items ::= map w |>) ?q) with (on_threads w q). unfold w. rewrite (exit_woken k tid p).
  destruct (waiters p tid) as [|j js] eqn:Ew.
  - rewrite shown_eq, (put_by_tid_exact k tid p _ t) by (rewrite ?shown_pid; done). cbv beta iota.
    rewrite retain_exact. cbv beta iota. rewrite enqueue_all_exact. cbv beta iota. by rewrite shown_pid.
  - rewrite (exit_collected k tid p t Hk Ht). rewrite shown_eq, (put_by_tid_exact k tid p _ t) by (rewrite ?shown_pid; done).
    cbv beta iota. rewrite retain_exact. cbv beta iota. rewrite enqueue_all_exact. cbv beta iota.
    rewrite requeue_twice. pose proof (give_back_eq (managed_stack p t)) as Hgb. run_in Hgb. rewrite Hgb by (apply Hk). cbv beta iota.
    by rewrite give_back_commute, shown_pid.
Qed.

(** C33. Thread exit.  [mark_thread_exited] never panics and keeps the table
    well-formed.  An unknown thread and the main thread of a process change
    nothing.  Any other thread stops for good, its running time charged, and
    leaves the ready queue; exactly the threads of its process that were
    blocked joining it become ready, with 0 in [rax], and are queued in order;
    if there was one, the exited thread is collected and the stack the kernel
    managed for it is taken from it and its slot in the pool freed.  The process
    shows the state of its threads.  The final state is given whole, so nothing
    else changes. *)
Theorem thread_exit_wakes_joiners (k : Kernel) (tid : Z) :
  kernel_wf k ->
  exists r k', Table.mark_thread_exited tid k = Done (r, k') /\ kernel_wf k' /\ exit_effect k tid r k'.
Proof.
  intros Hk. cut (exists r k', Table.mark_thread_exited tid k = Done (r, k') /\ exit_effect k tid r k').
  { intros (r & k' & E & H). exists r, k'. split; [done|]. split; [|done].
    pose proof (safe_kernel _ k (fun Sh => mark_thread_exited_safe Sh tid) Hk) as Hs. unfold wp in Hs. by rewrite E in Hs. }
  destruct (find_by_tid k tid) as [p|] eqn:Hp; cycle 1.
  { exists None, k. unfold Table.mark_thread_exited. run. rewrite Hp. split; [done|]. split; [|done].
    intros p t Ht. by apply (proj1 (no_thread_iff k Hk tid) Hp) in Ht. }
  destruct (find_by_tid_get k tid p Hp) as (t & Hg & _). pose proof (proj2 (is_thread_iff k Hk tid p t) (conj Hp Hg)) as Ht.
  destruct (decide (tid = main_thread p)) as [Hm|Hm].
  - exists None, k. unfold Table.mark_thread_exited. run. rewrite Hp. apply Z.eqb_eq in Hm as Hm'. unfold main_thread in Hm'.
    unfold main_tid. rewrite Hm'. split; [done|]. split; [|done]. intros p' t' [Hp' _]%is_thread_iff; [|done]. congruence.
  - destruct (exit_exact k tid p t Hk Ht Hm) as (k' & E & H). by exists (Some (pr_pid p)), k'.
Qed.

(** ** Joining *)

(** The caller [tc] and the target [tt] are threads of the process [p]. *)
Definition siblings (k : Kernel) (caller target : Z) (p : Process) (tc tt : Thread) : Prop :=
  caller <> target /\ is_thread k caller p tc /\ is_thread k target p tt.

(** The caller blocks on [target] with its registers saved. *)
Definition blocked_on (now target : Z) (c : UserResumeContext) (t : Thread) : Thread :=
  charged now t <| th_state := TBlocked |> <| th_waiting_for := Some target |> <| th_resume_context := Some c |>.

(** One case per status; the cases exclude each other and cover everything. *)
Definition join_effect (k : Kernel) (caller target : Z) (c : UserResumeContext) (r : Table.ThreadJoinStatus) (k' : Kernel) : Prop :=
  match r with
  | Table.JSelfJoin => caller = target /\ k' = k
  | Table.JNotSibling => caller <> target /\
      (exists p q tc tt, is_thread k caller p tc /\ is_thread k target q tt /\ pr_pid p <> pr_pid q) /\ k' = k
  | Table.JAlreadyReaped => (exists p tc tt, siblings k caller target p tc tt /\ th_state tt = TReaped) /\ k' = k
  | Table.JDeadlock =>
      (exists p tc tt, siblings k caller target p tc tt /\ th_state tt <> TReaped /\ th_waiting_for tt = Some caller) /\ k' = k
  | Table.JMissing => caller <> target /\
      ((forall p t, ~ is_thread k caller p t) \/ (forall p t, ~ is_thread k target p t) \/
       exists p tc tt, siblings k caller target p tc tt /\ th_state tt <> TReaped /\ th_state tt <> TExited /\
         th_waiting_for tt <> Some caller /\ th_state tc <> TRunning) /\ k' = k
  | Table.JCompleted => exists p tc tt, siblings k caller target p tc tt /\ th_state tt = TExited /\
      th_waiting_for tt <> Some caller /\
      k' = put (on_thread target (reaped p) p) (give_back (managed_stack p tt) k)
  | Table.JBlocked => exists p tc tt, siblings k caller target p tc tt /\ th_state tt <> TReaped /\ th_state tt <> TExited /\
      th_waiting_for tt <> Some caller /\ th_state tc = TRunning /\
      k' = put (shown (on_thread caller (blocked_on (k_ticks k) target c) p)) k
  end.

Lemma put_process_exact k p p' : kernel_wf k -> p ∈ pt_processes (k_table k) -> pr_pid p' = pr_pid p ->
  put_process (pr_pid p) p' k = Done ((), put p' k).
Proof.
  intros Hk Hp He. rewrite put_process_eq. rewrite (with_process_put k Hk _ p); [done| |done].
  by apply (is_process_iff k Hk).
Qed.

Lemma collect_exact k target p t : kernel_wf k -> is_thread k target p t ->
  let '(release, p') := take_managed_stack_release target (upd_thread target (fun t => t <| th_state := TReaped |>) p) in
  release = managed_stack p t /\ p' = on_thread target (reaped p) p.
Proof.
  intros Hk Ht. pose proof Ht as (Hin & Hti & Htid). rewrite (upd_thread_on k Hk _ _ p Hin).
  pose proof (process_tids_nodup (shapes (k_table k)) k p Hk Hin) as Hnd.
  rewrite (take_release_eq _ target (t <| th_state := TReaped |>)).
  - change (managed_stack (on_thread _ _ p) _) with (managed_stack p t). split; [done|].
    destruct (managed_stack p t) eqn:Em.
    + unfold on_thread. rewrite on_threads_twice. apply on_threads_ext_in. intros t' Ht'.
      destruct (Z.eqb_spec (th_tid t') target) as [He|He]; cbn; [|by apply Z.eqb_neq in He as ->].
      rewrite He, Z.eqb_refl. assert (t' = t) as -> by (apply (NoDup_map_inj th_tid (ts_items (pr_threads p))); [done..|congruence]).
      unfold reaped. by rewrite Em.
    + apply on_threads_ext_in. intros t' Ht'. destruct (Z.eqb_spec (th_tid t') target) as [He|He]; [|done].
      assert (t' = t) as -> by (apply (NoDup_map_inj th_tid (ts_items (pr_threads p))); [done..|congruence]).
      unfold reaped. by rewrite Em.
  - apply on_threads_nodup; [|done]. intros t'. by destruct (_ =? _).
  - unfold on_thread. rewrite get_on_threads by (intros t'; by destruct (_ =? _)).
    rewrite (proj2 (get_iff k Hk p target t Hin)) by done. cbn. by rewrite Htid, Z.eqb_refl.
Qed.

Lemma join_exact k caller target c : kernel_wf k ->
  exists r k', Table.join_thread caller target c k = Done (r, k') /\ join_effect k caller target c r k'.
Proof.
  intros Hk. unfold Table.join_thread. run. destruct (Z.eqb_spec caller target) as [|Hne]; [by eexists Table.JSelfJoin, k|].
  destruct (find_by_tid k caller) as [p|] eqn:Hp; cycle 1.
  { pose proof (proj1 (no_thread_iff k Hk caller) Hp). exists Table.JMissing, k. split; [done|]. split; [done|]. auto. }
  destruct (find_by_tid k target) as [q|] eqn:Hq; cycle 1.
  { pose proof (proj1 (no_thread_iff k Hk target) Hq). exists Table.JMissing, k. split; [done|]. split; [done|]. auto. }
  destruct (find_by_tid_get k caller p Hp) as (tc & Hgc & _). destruct (find_by_tid_get k target q Hq) as (tt & Hgt & _).
  pose proof (proj2 (is_thread_iff k Hk caller p tc) (conj Hp Hgc)) as Hc.
  pose proof (proj2 (is_thread_iff k Hk target q tt) (conj Hq Hgt)) as Ht.
  destruct (Z.eqb_spec (pr_pid q) (pr_pid p)) as [Heq|Heq]; cbn [negb]; cycle 1.
  { exists Table.JNotSibling, k. split; [done|]. split; [done|]. split; [|done]. exists p, q, tc, tt. auto. }
  pose proof (find_process_elem _ k p Hk (proj1 Hc)) as Hfp.
  assert (q = p) as -> by (pose proof (find_process_elem _ k q Hk (proj1 Ht)); congruence).
  assert (siblings k caller target p tc tt) as Hs by done. rewrite Hgt.
  destruct (ThreadState_eqb (th_state tt) TReaped) eqn:Er.
  { apply ThreadState_eqb_eq in Er. exists Table.JAlreadyReaped, k. split; [done|]. split; [|done]. by exists p, tc, tt. }
  apply ThreadState_eqb_neq in Er. case_bool_decide as Hd.
  { exists Table.JDeadlock, k. split; [done|]. split; [|done]. by exists p, tc, tt. }
  rewrite Hfp. destruct (ThreadState_eqb (th_state tt) TExited) eqn:Ex.
  { apply ThreadState_eqb_eq in Ex. rewrite Hgt. pose proof (collect_exact k target p tt Hk Ht) as Hcol.
    destruct (take_managed_stack_release _ _) as [release p']. destruct Hcol as [-> ->].
    rewrite put_process_exact by (done || apply Hc). cbv beta iota.
    pose proof (give_back_eq (managed_stack p tt)) as Hgb. run_in Hgb. rewrite Hgb by apply Hk. cbv beta iota.
    eexists Table.JCompleted, _. split; [reflexivity|]. exists p, tc, tt. split_and!; [done..|].
    by destruct (managed_stack p tt) as [[]|]. }
  apply ThreadState_eqb_neq in Ex. rewrite Hgc. destruct (ThreadState_eqb (th_state tc) TRunning) eqn:Ec; cbn [negb]; cycle 1.
  { apply ThreadState_eqb_neq in Ec. exists Table.JMissing, k. split; [done|]. split; [done|]. split; [|done]. right. right. by exists p, tc, tt. }
  apply ThreadState_eqb_eq in Ec. rewrite (upd_thread_on k Hk _ _ p (proj1 Hc)), shown_eq.
  unfold on_thread. rewrite (on_threads_ext _ (fun t => if th_tid t =? caller then blocked_on (k_ticks k) target c t else t) p)
    by (intros t'; by rewrite charged_eq).
  rewrite put_process_exact by (rewrite ?shown_pid; done || apply Hc). cbv beta iota. eexists Table.JBlocked, _.
  split; [reflexivity|]. by exists p, tc, tt.
Qed.

(** C34. Joining.  [join_thread] never panics and keeps the table well-formed.
    Its status says exactly which case holds: the caller joins itself; one of
    the two is unknown; they are threads of different processes; the target is
    already collected; it is itself joining the caller; it has exited; the
    caller does not run; or none of these.  In the last case the caller
    is blocked on the target with its registers saved and its running time
    charged, and the process shows the state of its threads; an exited
    target is collected, and the stack the kernel managed for it is taken from
    it and its slot in the pool freed; in every other case nothing changes.
    The final state is given whole. *)
Theorem join_thread_correct (k : Kernel) (caller target : Z) (c : UserResumeContext) :
  kernel_wf k ->
  exists r k', Table.join_thread caller target c k = Done (r, k') /\ kernel_wf k' /\ join_effect k caller target c r k'.
Proof.
  intros Hk. destruct (join_exact k caller target c Hk) as (r & k' & E & Hpost). exists r, k'. split; [done|].
  pose proof (safe_kernel _ k (fun Sh => join_thread_safe Sh caller target c) Hk) as Hsafe. unfold wp in Hsafe.
  by rewrite E in Hsafe.
Qed.

(** ** Examples *)

(** Thread 1 has joined thread 2. *)
Definition joined_kernel : Kernel := state_of (Table.join_thread 1 2 (demo_context 0x111)) two_threads.

Lemma thread_exit_wakes_joiners_witness :
  exists k', Table.mark_thread_exited 2 joined_kernel = Done (Some 1, k') /\ kernel_wf k' /\ queue k' = [1] /\
    th_state <$> Table.thread k' 2 = Some TReaped.
Proof.
  destruct (thread_exit_wakes_joiners joined_kernel 2) as (r & k' & E & Hk & H).
  { apply demo_wf; vm_compute; reflexivity. }
  assert (fst <$> Table.mark_thread_exited 2 joined_kernel = Done (Some 1)) as E0 by (vm_compute; reflexivity).
  assert ((fun k => (queue k, th_state <$> Table.thread k 2)) ∘ snd <$> Table.mark_thread_exited 2 joined_kernel =
    Done ([1], Some TReaped)) as E1 by (vm_compute; reflexivity).
  rewrite E in E0, E1. injection E0 as ->. injection E1 as E1 E2. exists k'. split; [exact E|]. split; [exact Hk|].
  split; [exact E1|exact E2].
Defined.

Lemma join_thread_correct_witness :
  exists k', Table.join_thread 1 2 (demo_context 0x111) two_threads = Done (Table.JBlocked, k') /\ kernel_wf k' /\
    join_effect two_threads 1 2 (demo_context 0x111) Table.JBlocked k'.
Proof.
  destruct (join_thread_correct two_threads 1 2 (demo_context 0x111)) as (r & k' & E & Hk & H).
  { apply demo_wf; vm_compute; reflexivity. }
  assert (fst <$> Table.join_thread 1 2 (demo_context 0x111) two_threads = Done Table.JBlocked) as E0 by (vm_compute; reflexivity).
  rewrite E in E0. injection E0 as ->. exists k'. split; [exact E|]. split; [exact Hk|exact H].
Defined.
