(* ===== verification/Current.v ===== *)
(** * The current user thread (user/process.rs, the functions outside the table)

    The module's public functions: they take the process table's lock, call
    its methods, and keep the statics that say which user thread occupies the
    processor ([CURRENT_USER_PROCESS], [CURRENT_USER_THREAD] and their atomic
    copies for the timer interrupt), the preemption request and the foreground
    job of the terminal. *)

From S2P Require Import Prelude Utf8 Paths Vfs Ring3 Elf AddrSpace Threads Program Ipc Process.

(** [fetch_add(1)] on an [AtomicU64] *)
Definition u64_wrapping_incr (n : Z) : Z := (n + 1) mod (u64_max + 1).

Module Current.

(** ** Which thread is current *)

Definition set_current_user (pid tid : option Z) : M Kernel () :=
  modify (fun k => k <| k_current_process := pid |> <| k_current_thread := tid |>
                     <| k_pid_atomic := default 0 pid |> <| k_tid_atomic := default 0 tid |>);;
  match pid with
  | None => modify (fun k => k <| k_preempt_pending := false |>)
  | Some _ => mret ()
  end.

Definition take_current_user : M Kernel (option (Z * Z)) :=
  k ← get;
  modify (fun k => k <| k_current_process := None |> <| k_current_thread := None |>
                     <| k_pid_atomic := 0 |> <| k_tid_atomic := 0 |> <| k_preempt_pending := false |>);;
  mret (match k_current_process k, k_current_thread k with
        | Some pid, Some tid => Some (pid, tid)
        | _, _ => None
        end).

Definition init_process_table : M Kernel () :=
  k ← get;
  match Table.st_process_count (Table.stats k) with
  | O =>
    pid ← Table.create_reserved_process 0 None (str "kernel") (str "kernel") Arg.empty (Space.kernel_placeholder 0);
    Table.mark_ready pid
  | S _ => mret ()
  end.

Definition userland_owns_keyboard (k : Kernel) : bool :=
  Programs.has_pending (k_programs k) || Table.has_active_user_session k.

(** ** Preemption *)

(** Called by the timer interrupt. *)
Definition record_timer_preemption_check : M Kernel () :=
  modify (fun k => k <| k_preempt_checks ::= u64_wrapping_incr |>);;
  k ← get;
  if k_pid_atomic k =? 0 then mret () else
  if saturating_sub (k_ticks k) (k_last_preempt_tick k) <? USER_PREEMPT_QUANTUM_TICKS then mret () else
  modify (fun k => k <| k_last_preempt_tick := k_ticks k |> <| k_preempt_requests ::= u64_wrapping_incr |>
                     <| k_preempt_pending := true |>).

Definition consume_timer_preempt_request_for_yield : M Kernel bool :=
  k ← get;
  if k_preempt_pending k
  then modify (fun k => k <| k_preempt_pending := false |> <| k_preempt_yields ::= u64_wrapping_incr |>);; mret true
  else mret false.

Definition preempt_current_user (resume_context : UserResumeContext) : M Kernel (option Table.ScheduledUserResume) :=
  k ← get;
  if negb (k_preempt_pending k) then mret None else
  if k_tid_atomic k =? 0 then mret None else
  ifSome resume := Table.preempt_running_thread (k_tid_atomic k) resume_context orelse mret None in
  modify (fun k => k <| k_current_process := Some (Table.sc_pid resume) |> <| k_current_thread := Some (Table.sc_tid resume) |>
                     <| k_pid_atomic := Table.sc_pid resume |> <| k_tid_atomic := Table.sc_tid resume |>
                     <| k_preempt_pending := false |> <| k_preempt_yields ::= u64_wrapping_incr |>);;
  mret (Some resume).

(** [timer::tick]: the tick counter ([fetch_add] wraps, the [+ 1] on its result
    does not); the kernel tasks' scheduler and the cursor are not in the state. *)
Definition timer_tick : M Kernel () :=
  k ← get;
  if k_ticks k =? u64_max then panic else modify (fun k => k <| k_ticks ::= u64_wrapping_incr |>).

(** [timer_interrupt_dispatch]: [user] is the frame's context when the interrupt
    came from Ring 3; the result is the context the frame is given, if any. *)
Definition timer_interrupt_dispatch (user : option UserResumeContext) : M Kernel (option Table.ScheduledUserResume) :=
  timer_tick;;
  record_timer_preemption_check;;
  ifSome context := mret user orelse mret None in
  now ← gets k_ticks;
  Table.wake_sleeping_processes now;;
  preempt_current_user context.

Definition record_current_thread_yield : M Kernel bool :=
  ifSome tid := gets k_current_thread orelse mret false in Table.record_thread_yield tid.

Definition has_ready_thread_except_current (k : Kernel) : bool :=
  match k_current_thread k with Some tid => Table.has_ready_thread_except k tid | None => false end.

(** ** Threads of the current process *)

Definition create_current_user_thread (entry stack_start stack_top initial_rsp arg : Z) : M Kernel (option Z) :=
  ifSome pid := gets k_current_process orelse mret None in
  Table.create_user_thread pid entry stack_start stack_top initial_rsp arg.

Definition create_current_managed_user_thread (entry arg : Z) : M Kernel (option Z) :=
  ifSome pid := gets k_current_process orelse mret None in Table.create_managed_user_thread pid entry arg.

Definition mark_current_thread_exited : M Kernel (option (Z * Z)) :=
  ifSome current := take_current_user orelse mret None in
  let '(pid, tid) := current in
  r ← Table.mark_thread_exited tid;
  match r with
  | None => set_current_user (Some pid) (Some tid);; mret None
  | Some _ => mret (Some (pid, tid))
  end.

Definition join_current_thread (target_tid : Z) (resume_context : UserResumeContext) : M Kernel Table.ThreadJoinStatus :=
  ifSome caller_tid := gets k_current_thread orelse mret Table.JMissing in
  Table.join_thread caller_tid target_tid resume_context.

Definition block_current_thread (resume_context : UserResumeContext) : M Kernel (option Z) :=
  ifSome tid := gets k_current_thread orelse mret None in
  blocked ← Table.block_thread tid resume_context;
  mret (if (blocked : bool) then Some tid else None).

(** ** Starting a program *)

Record LoadedProgram := mkLoaded { lp_path : bytes; lp_entry : Z; lp_stack_top : Z; lp_image_len : nat }.

Record ExecContext := mkExec {
  ec_pid : Z; ec_entry_point : Z; ec_user_stack_top : Z; ec_program_path : bytes; ec_arg : UserProgramArg;
  ec_layout : UserMemoryLayout; ec_p4_frame : option Z; ec_p4_verified : bool }.

(** The layout with the first stack slot. *)
Definition with_first_stack (l : UserMemoryLayout) : UserMemoryLayout :=
  mkLayout (program_start l) (program_end l) (FIRST_USER_STACK_TOP - USER_STACK_SIZE) FIRST_USER_STACK_TOP.

(** Without a page table of its own the process shares the kernel's.  The
    trial switch to the prepared page table only decides what is logged. *)
Definition register_exec (program : UserProgram) (loaded : LoadedProgram) : M Kernel ExecContext :=
  layout ← lift (memory_layout_for_pid_with_program_size (up_pid program) (Z.of_nat (lp_image_len loaded)));
  frame ← with_addr take_prepared_p4_frame;
  let '(layout, address_space) :=
    match frame with
    | Some p4_frame => (layout, Space.verified_prepared_user (lp_entry loaded) layout p4_frame)
    | None => (with_first_stack layout, Space.kernel_shared_user (lp_entry loaded) (with_first_stack layout))
    end in
  let '(layout, address_space) :=
    if negb (as_p4_verified address_space) && negb (is_some (as_p4_frame address_space)) then
      let layout := with_first_stack layout in
      (layout, match as_p4_frame address_space with
               | Some p4_frame => Space.prepared_user (lp_entry loaded) layout p4_frame
               | None => Space.kernel_shared_user (lp_entry loaded) layout
               end)
    else (layout, address_space) in
  arg ← lift (Arg.as_bytes (up_arg program));
  stack ← lift (InitialStack.build_user_initial_stack layout (up_path program) arg);
  let initial_stack := match stack with Ok s => is_stack_pointer s | Err _ => stack_top layout end in
  pid ← Table.create_reserved_process_with_job_mode (up_pid program) (up_parent_pid program) (up_name program)
          (up_path program) (up_arg program) (up_job_mode program) address_space;
  Table.mark_running_fresh pid;;
  p ← k ← get; expect (find_process k pid);
  set_current_user (Some pid) (Some (main_tid p));;
  mret (mkExec pid (lp_entry loaded) initial_stack (up_path program) (up_arg program) layout
          (as_p4_frame address_space) (as_p4_verified address_space)).

(** ** The end of the current process *)

(** [if let Some(p4_frame) = p4_frame { release_prepared_p4_frame(p4_frame); }] *)
Definition release_frame (p4_frame : option Z) : M Kernel () :=
  match p4_frame with
  | Some f => with_addr (release_prepared_p4_frame f);; mret ()
  | None => mret ()
  end.

Definition close_process_files (pid : Z) : M Kernel () :=
  modify (fun k => k <| k_ipc ::= Fds.close_process_files pid |>).

Definition mark_current_user_exited (status : Z) : M Kernel (option Z) :=
  ifSome current := take_current_user orelse mret None in
  let '(pid, _) := current in
  close_process_files pid;;
  k ← get;
  let p4_frame := Table.p4_frame_for k pid in
  Table.mark_exited pid status;;
  modify (fun k => k <| k_last_exited := Some pid |>);;
  release_frame p4_frame;;
  mret (Some pid).

Inductive UserFaultKind := FNull | FKernelSpace | FStackGuard | FOutsideUserRange | FUserRange.

Definition classify_user_fault (addr : Z) (layout : UserMemoryLayout) : UserFaultKind :=
  if addr =? 0 then FNull else
  if 0xffff800000000000 <=? addr then FKernelSpace else
  let guard_start := saturating_sub (stack_start layout) USER_STACK_GUARD_SIZE in
  if (guard_start <=? addr) && (addr <? stack_start layout) then FStackGuard else
  let in_program_area := (program_start layout <=? addr) && (addr <? program_end layout) in
  let in_stack_area := (stack_start layout <=? addr) && (addr <? stack_top layout) in
  if in_program_area || in_stack_area then FUserRange else FOutsideUserRange.

Record UserFaultReport := mkFault {
  fr_pid : Z; fr_name : bytes; fr_addr : Z; fr_rip : Z; fr_kind : UserFaultKind; fr_status : Z }.

Definition mark_current_user_fault (addr rip status : Z) : M Kernel (option UserFaultReport) :=
  ifSome current := take_current_user orelse mret None in
  let '(pid, _) := current in
  close_process_files pid;;
  ifSome p := gets (fun k => find_process k pid) orelse mret None in
  let report := mkFault pid (pr_name p) addr rip (classify_user_fault addr (as_layout (pr_address_space p))) status in
  Table.mark_exited pid status;;
  modify (fun k => k <| k_last_exited := Some pid |>);;
  release_frame (as_p4_frame (pr_address_space p));;
  mret (Some report).

Record UserExceptionReport := mkExc { xr_pid : Z; xr_name : bytes; xr_rip : Z; xr_status : Z }.

Definition mark_current_user_exception (rip status : Z) : M Kernel (option UserExceptionReport) :=
  ifSome current := take_current_user orelse mret None in
  let '(pid, _) := current in
  close_process_files pid;;
  ifSome p := gets (fun k => find_process k pid) orelse mret None in
  Table.mark_exited pid status;;
  modify (fun k => k <| k_last_exited := Some pid |>);;
  release_frame (as_p4_frame (pr_address_space p));;
  mret (Some (mkExc pid (pr_name p) rip status)).

(** ** Leaving the processor *)

Record BlockedUserReport := mkBlocked {
  bl_pid : Z; bl_tid : Z; bl_name : bytes; bl_waiting_for : option Z; bl_waiting_for_thread : option Z;
  bl_resume_context : option UserResumeContext }.

Definition checkout_current_user_if_blocked : M Kernel (option BlockedUserReport) :=
  k ← get;
  ifSome pid := mret (k_current_process k) orelse mret None in
  ifSome tid := mret (k_current_thread k) orelse mret None in
  ifSome p := mret (find_process k pid) orelse mret None in
  ifSome t := mret (TStore.get (pr_threads p) tid) orelse mret None in
  if negb (ThreadState_eqb (th_state t) TBlocked) then mret None else
  set_current_user None None;;
  mret (Some (mkBlocked pid tid (pr_name p) (pr_waiting_for p) (th_waiting_for t) (th_resume_context t))).

Record YieldedUserReport := mkYielded { yi_pid : Z; yi_name : bytes; yi_resume_context : UserResumeContext }.

Definition checkout_current_user_if_yielded (resume_context : UserResumeContext) : M Kernel (option YieldedUserReport) :=
  ifSome current := take_current_user orelse mret None in
  let '(pid, tid) := current in
  yielded ← Table.mark_thread_yielded tid resume_context;
  if negb yielded then set_current_user (Some pid) (Some tid);; mret None else
  ifSome p := gets (fun k => find_process k pid) orelse mret None in
  mret (Some (mkYielded pid (pr_name p) resume_context)).

Definition schedule_next_ready_user : M Kernel (option Table.ScheduledUserResume) :=
  ifSome resume := Table.schedule_next_ready_user orelse mret None in
  set_current_user (Some (Table.sc_pid resume)) (Some (Table.sc_tid resume));;
  mret (Some resume).

Definition mark_current_user_sleeping (wake_tick : Z) (resume_context : UserResumeContext) : M Kernel bool :=
  ifSome pid := gets k_current_process orelse mret false in Table.mark_sleeping pid wake_tick resume_context.

Definition resume_waiting_parent (parent_pid child_pid : Z) : M Kernel (option Table.WaitResume) :=
  ifSome resume := Table.resume_waiting_parent parent_pid child_pid orelse mret None in
  k ← get;
  set_current_user (Some parent_pid) (main_tid <$> find_process k parent_pid);;
  mret (Some resume).

Definition compact_reaped_history : M Kernel nat := Table.compact_reaped_history DEFAULT_REAPED_HISTORY_LIMIT.

(** ** Signals *)

Definition terminate_user_process (caller_pid target_pid status : Z) :
    M Kernel (result Table.SignalTerminationReport Table.SignalTerminationError) :=
  try report := Table.terminate_user_process caller_pid target_pid status in
  close_process_files target_pid;;
  release_frame (Table.sr_p4_frame report);;
  mret (Ok report).

Definition send_signal (caller_pid target_pid signal : Z) :
    M Kernel (result Table.SignalDelivery Table.SignalTerminationError) :=
  try delivery := Table.send_signal caller_pid target_pid signal in
  (match delivery with
   | Table.Terminated report => close_process_files target_pid;; release_frame (Table.sr_p4_frame report)
   | _ => mret ()
   end);;
  mret (Ok delivery).

Definition update_current_signal_mask (how : Table.SignalMaskHow) (mask : Z) : M Kernel (option Table.SignalMaskUpdate) :=
  ifSome pid := gets k_current_process orelse mret None in Table.update_signal_mask pid how mask.

Definition current_pending_signals (k : Kernel) : option Z := pid ← k_current_process k; Table.pending_signals k pid.

Definition current_signal_disposition (k : Kernel) (signal : Z) : option Z :=
  pid ← k_current_process k; Table.signal_disposition k pid signal.

Definition set_current_signal_disposition (signal disposition : Z) : M Kernel (option Z) :=
  ifSome pid := gets k_current_process orelse mret None in Table.set_signal_disposition pid signal disposition.

Record SignalHandlerReport := mkHandler { hr_pid : Z; hr_tid : Z; hr_signal : Z; hr_handler : Z }.

Definition checkout_current_user_for_signal_handler (signal handler : Z) (original : UserResumeContext) :
    M Kernel (option SignalHandlerReport) :=
  ifSome pid := gets k_current_process orelse mret None in
  ifSome tid := gets k_current_thread orelse mret None in
  ok ← Table.activate_running_signal_handler pid tid signal handler original;
  if negb ok then mret None else
  ifSome current := take_current_user orelse mret None in
  mret (Some (mkHandler pid tid signal handler)).

Definition checkout_current_user_after_sigreturn : M Kernel (option (Z * Z)) :=
  ifSome pid := gets k_current_process orelse mret None in
  ifSome tid := gets k_current_thread orelse mret None in
  ok ← Table.restore_signal_context pid tid;
  if negb ok then mret None else take_current_user.

(** ** The terminal *)

Definition set_terminal_foreground_job (pid : Z) : M Kernel () := modify (fun k => k <| k_terminal_pid := pid |>).

Definition clear_terminal_foreground_job (pid : Z) : M Kernel () :=
  modify (fun k => if k_terminal_pid k =? pid then k <| k_terminal_pid := 0 |> else k).

Definition terminal_foreground_job (k : Kernel) : option Z :=
  if k_terminal_pid k =? 0 then None else Some (k_terminal_pid k).

(** program.rs [request_user_shell_wait] *)
Definition request_user_shell_wait (shell_pid child_pid : Z) : M Kernel () :=
  set_terminal_foreground_job child_pid;; with_programs (Programs.push_shell_wait shell_pid child_pid).

Definition deliver_terminal_signal (signal : Z) : M Kernel (option Table.TerminalSignalReport) :=
  ifSome pid := gets terminal_foreground_job orelse mret None in
  if signal =? SIGINT then
    k ← get;
    let caller_pid := default 1 (p ← find_process k pid; pr_parent_pid p) in
    r ← terminate_user_process caller_pid pid (128 + SIGINT);
    match r with
    | Err _ => mret None
    | Ok report =>
      clear_terminal_foreground_job pid;;
      with_programs (Programs.take_user_shell_wait_request_for_child pid);;
      mret (Some (Table.mkTerm pid (Table.sr_name report) signal (128 + signal) false (Table.sr_parent_woken report)))
    end
  else if signal =? SIGTSTP then
    ifSome report := Table.stop_user_process pid signal orelse mret None in
    clear_terminal_foreground_job pid;;
    with_programs (Programs.take_user_shell_wait_request_for_child pid);;
    mret (Some report)
  else mret None.

(** ** Questions about the current process *)

Definition current_process (k : Kernel) : option Process := pid ← k_current_process k; find_process k pid.

Definition current_user_name (k : Kernel) : option bytes := pr_name <$> current_process k.
Definition current_user_credentials (k : Kernel) : option ProcessCredentials := pr_credentials <$> current_process k.
Definition current_process_group_id (k : Kernel) : option Z := pr_process_group_id <$> current_process k.
Definition current_working_directory (k : Kernel) : option NormalizedPath := pr_cwd <$> current_process k.
Definition current_user_layout (k : Kernel) : option UserMemoryLayout := as_layout ∘ pr_address_space <$> current_process k.
Definition current_user_address_space (k : Kernel) : option AddressSpace := pr_address_space <$> current_process k.

Definition create_current_session : M Kernel (result Z Table.ProcessGroupError) :=
  ifSome pid := gets k_current_process orelse mret (Err Table.GMissing) in Table.create_session pid.

Definition set_current_user_credentials (username : bytes) : M Kernel bool :=
  ifSome pid := gets k_current_process orelse mret false in
  credentials ← lift (Credentials.from_username username);
  Table.set_credentials pid credentials.

Definition current_user_range_owned (k : Kernel) (ptr end_ : Z) : bool :=
  match current_process k with
  | None => false
  | Some p =>
    let layout := as_layout (pr_address_space p) in
    ((program_start layout <=? ptr) && (end_ <=? program_end layout))
    || existsb (fun t => match th_user_stack_start t, th_user_stack_top t with
                         | Some start, Some top => (start <=? ptr) && (end_ <=? top)
                         | _, _ => false
                         end) (ts_items (pr_threads p))
  end.

Definition last_exit_summary (k : Kernel) : option (Z * bytes * Z) :=
  pid ← k_last_exited k;
  p ← find_process k pid;
  Some (pid, pr_name p, default 0 (pr_exit_status p)).

End Current.
