(* ===== verification/Input.v ===== *)
(** * Keyboard and mouse input (input.rs, drivers/keyboard.rs, drivers/mouse.rs, drivers/usb_hid.rs)

    The queue of input events with the bytes for the terminal, and the drivers
    that fill it: PS/2 keyboard and mouse interrupts and USB boot reports.  The
    scancode decoder is the [pc_keyboard] crate's; it is an interface here. *)

From S2P Require Import Prelude Utf8 Paths Vfs Ring3 Elf AddrSpace Threads Program Ipc Process Current.

(** The keys the kernel names; [OtherKey] is any other key of [pc_keyboard::KeyCode]. *)
Inductive KeyCode :=
| KA | KB | KC | KD | KE | KF | KG | KH | KI | KJ | KK | KL | KM | KN | KO | KP | KQ | KR | KS | KT | KU | KV | KW | KX | KY | KZ
| Key1 | Key2 | Key3 | Key4 | Key5 | Key6 | Key7 | Key8 | Key9 | Key0
| KReturn | KEscape | KBackspace | KTab | KSpacebar | OemMinus | OemPlus | Oem4 | Oem6 | Oem5 | Oem1 | Oem3 | Oem8 | OemComma | OemPeriod | Oem2
| KCapsLock | KF1 | KF2 | KF3 | KF4 | KF5 | KF6 | KF7 | KF8 | KF9 | KF10 | KF11 | KF12
| KInsert | KHome | KPageUp | KDelete | KEnd | KPageDown | ArrowRight | ArrowLeft | ArrowDown | ArrowUp
| Numpad1 | Numpad2 | Numpad4 | Numpad6 | Numpad7 | Numpad8 | NumpadPeriod | NumpadEnter
| LShift | RShift | LControl | RControl | LAlt | RAltGr | LWin | RWin
| OtherKey (n : nat).
#[export] Instance keycode_eq_dec : EqDecision KeyCode.
Proof. solve_decision. Defined.

Inductive MouseButton := Left | Right | Middle.

Inductive InputEvent :=
| KeyboardKey (key : KeyCode) (pressed : bool)
| KeyboardChar (ch : Z)
| MouseMove (x_delta y_delta : Z)
| MouseButtonEvent (button : MouseButton) (pressed : bool).

Record ModifierState := mkModifiers { mo_shift : bool; mo_ctrl : bool; mo_alt : bool; mo_super_key : bool; mo_fn_key : bool }.
#[export] Instance eta_modifiers : Eta ModifierState := fun r => mkModifiers (mo_shift r) (mo_ctrl r) (mo_alt r) (mo_super_key r) (mo_fn_key r).

Record MousePosition := mkPosition { mp_x : Z; mp_y : Z }.

Definition clamp (p : MousePosition) (max_x max_y : Z) : MousePosition :=
  mkPosition (Z.min (Z.max (mp_x p) 0) (max_x - 1)) (Z.min (Z.max (mp_y p) 0) (max_y - 1)).

Definition EVENT_QUEUE_CAPACITY : nat := 256.
Definition KEYBOARD_BYTE_QUEUE_CAPACITY : nat := 512.

Record InputQueue := mkInputQueue {
  iq_events : list InputEvent; iq_keyboard_bytes : bytes; iq_mouse_pos : MousePosition; iq_modifiers : ModifierState;
  iq_left_button : bool; iq_right_button : bool; iq_middle_button : bool }.
#[export] Instance eta_input_queue : Eta InputQueue := fun r =>
  mkInputQueue (iq_events r) (iq_keyboard_bytes r) (iq_mouse_pos r) (iq_modifiers r) (iq_left_button r) (iq_right_button r) (iq_middle_button r).

Definition input_queue_new : InputQueue := mkInputQueue [] [] (mkPosition 40 12) (mkModifiers false false false false false) false false false.

(** The queue and the statics of the module. *)
Record InputState := mkInput {
  in_queue : InputQueue; in_keyboard_events : Z; in_typed_char_events : Z; in_mouse_move_events : Z; in_mouse_button_events : Z;
  in_dropped_events : Z; in_terminal_signal : Z }.
#[export] Instance eta_input : Eta InputState := fun r =>
  mkInput (in_queue r) (in_keyboard_events r) (in_typed_char_events r) (in_mouse_move_events r) (in_mouse_button_events r) (in_dropped_events r)
          (in_terminal_signal r).

Definition input_new : InputState := mkInput input_queue_new 0 0 0 0 0 0.

Module Input.

Definition on_queue (f : InputQueue -> InputQueue) : M InputState () := modify (fun s => s <| in_queue ::= f |>).

Definition enqueue (event : InputEvent) : M InputState () :=
  s ← get;
  if (length (iq_events (in_queue s)) <? EVENT_QUEUE_CAPACITY)%nat
  then on_queue (fun q => q <| iq_events ::= (fun l => l ++ [event]) |>)
  else modify (fun s => s <| in_dropped_events ::= u64_wrapping_incr |>).

Definition dequeue : M InputState (option InputEvent) :=
  s ← get;
  on_queue (fun q => q <| iq_events ::= tail |>);;
  mret (head (iq_events (in_queue s))).

(** A sum or difference of type [i16]. *)
Definition i16_checked (v : Z) : M InputState Z := if (- 2 ^ 15 <=? v) && (v <? 2 ^ 15) then mret v else panic.

(** [v as i16] *)
Definition as_i16 (v : Z) : Z := (v + 2 ^ 15) mod 2 ^ 16 - 2 ^ 15.

Definition handle_mouse_move (x_delta y_delta : Z) : M InputState () :=
  s ← get;
  let pos := iq_mouse_pos (in_queue s) in
  x ← i16_checked (as_i16 (mp_x pos) + x_delta);
  y ← i16_checked (as_i16 (mp_y pos) - y_delta);
  on_queue (fun q => q <| iq_mouse_pos := clamp (mkPosition x y) 80 25 |>);;
  modify (fun s => s <| in_mouse_move_events ::= u64_wrapping_incr |>);;
  enqueue (MouseMove x_delta y_delta).

Definition handle_mouse_button (button : MouseButton) (pressed : bool) : M InputState () :=
  (match button with
   | Left => on_queue (fun q => q <| iq_left_button := pressed |>)
   | Right => on_queue (fun q => q <| iq_right_button := pressed |>)
   | Middle => on_queue (fun q => q <| iq_middle_button := pressed |>)
   end);;
  modify (fun s => s <| in_mouse_button_events ::= u64_wrapping_incr |>);;
  enqueue (MouseButtonEvent button pressed).

Definition terminal_sequence_for_key (key : KeyCode) : option bytes :=
  match key with
  | ArrowUp | Numpad8 => Some [27; 91; 65]
  | ArrowDown | Numpad2 => Some [27; 91; 66]
  | ArrowRight | Numpad6 => Some [27; 91; 67]
  | ArrowLeft | Numpad4 => Some [27; 91; 68]
  | KHome | Numpad7 => Some [27; 91; 72]
  | KEnd | Numpad1 => Some [27; 91; 70]
  | KDelete | NumpadPeriod => Some [27; 91; 51; 126]
  | _ => None
  end.

Definition key_emits_terminal_sequence (key : KeyCode) : bool := is_some (terminal_sequence_for_key key).

Definition enqueue_keyboard_byte (byte : Z) : M InputState () :=
  s ← get;
  if (length (iq_keyboard_bytes (in_queue s)) <? KEYBOARD_BYTE_QUEUE_CAPACITY)%nat
  then on_queue (fun q => q <| iq_keyboard_bytes ::= (fun l => l ++ [byte]) |>)
  else modify (fun s => s <| in_dropped_events ::= u64_wrapping_incr |>).

Fixpoint enqueue_keyboard_bytes (bs : bytes) : M InputState () :=
  match bs with [] => mret () | b :: bs => enqueue_keyboard_byte b;; enqueue_keyboard_bytes bs end.

Definition enqueue_terminal_sequence (key : KeyCode) : M InputState () :=
  match terminal_sequence_for_key key with Some bs => enqueue_keyboard_bytes bs | None => mret () end.

Definition update_modifier_state (key : KeyCode) (pressed : bool) : M InputState () :=
  match key with
  | LShift | RShift => on_queue (fun q => q <| iq_modifiers ::= (fun m => m <| mo_shift := pressed |>) |>)
  | LControl | RControl => on_queue (fun q => q <| iq_modifiers ::= (fun m => m <| mo_ctrl := pressed |>) |>)
  | LAlt | RAltGr => on_queue (fun q => q <| iq_modifiers ::= (fun m => m <| mo_alt := pressed |>) |>)
  | LWin | RWin => on_queue (fun q => q <| iq_modifiers ::= (fun m => m <| mo_super_key := pressed |>) |>)
  | _ => mret ()
  end.

Definition handle_keyboard_key (key : KeyCode) (pressed : bool) : M InputState bool :=
  update_modifier_state key pressed;;
  modify (fun s => s <| in_keyboard_events ::= u64_wrapping_incr |>);;
  s ← get;
  let terminal_control := pressed && mo_ctrl (iq_modifiers (in_queue s)) && (bool_decide (key = KC) || bool_decide (key = KZ)) in
  (if terminal_control
   then modify (fun s => s <| in_terminal_signal := if bool_decide (key = KC) then SIGINT else SIGTSTP |>)
   else mret ());;
  (if pressed && negb terminal_control then enqueue_terminal_sequence key else mret ());;
  enqueue (KeyboardKey key pressed);;
  mret terminal_control.

Definition handle_keyboard_char (ch : Z) : M InputState () :=
  modify (fun s => s <| in_keyboard_events ::= u64_wrapping_incr |>);;
  modify (fun s => s <| in_typed_char_events ::= u64_wrapping_incr |>);;
  (if ch <? 128 then enqueue_keyboard_byte ch else mret ());;
  enqueue (KeyboardChar ch).

Definition dequeue_keyboard_byte : M InputState (option Z) :=
  s ← get;
  on_queue (fun q => q <| iq_keyboard_bytes ::= tail |>);;
  mret (head (iq_keyboard_bytes (in_queue s))).

Definition take_terminal_signal : M InputState (option Z) :=
  s ← get;
  modify (fun s => s <| in_terminal_signal := 0 |>);;
  mret (if in_terminal_signal s =? 0 then None else Some (in_terminal_signal s)).

Definition requeue_terminal_signal (signal : Z) : M InputState () := modify (fun s => s <| in_terminal_signal := signal |>).

End Input.

(** ** PS/2 keyboard *)

Inductive KeyState := KUp | KDown | SingleShot.
Record KeyEvent := mkKeyEvent { ke_code : KeyCode; ke_state : KeyState }.
Inductive DecodedKey := RawKey (key : KeyCode) | Unicode (ch : Z).

(** [pc_keyboard::Keyboard]; [add_byte] fails on an unknown scancode. *)
Class KeyDecoder (D : Type) := {
  add_byte : Z -> D -> result (option KeyEvent) () * D;
  process_keyevent : KeyEvent -> D -> option DecodedKey * D;
}.

Module Ps2Keyboard.
Section keyboard.
Context {D : Type} `{KeyDecoder D}.

(** [scancode] is what port 0x60 gave. *)
Definition on_interrupt (scancode : Z) : M (D * InputState) () := fun '(d, s) =>
  let '(r, d) := add_byte scancode d in
  match r with
  | Ok (Some key_event) =>
    let key_code := ke_code key_event in
    let pressed := match ke_state key_event with KDown | SingleShot => true | KUp => false end in
    match Input.handle_keyboard_key key_code pressed s with
    | Panic => Panic
    | Done (terminal_control, s) =>
      let '(key, d) := process_keyevent key_event d in
      match key with
      | Some (Unicode ch) =>
        if negb terminal_control && negb (Input.key_emits_terminal_sequence key_code)
        then match Input.handle_keyboard_char ch s with Done (_, s) => Done ((), (d, s)) | Panic => Panic end
        else Done ((), (d, s))
      | _ => Done ((), (d, s))
      end
    end
  | _ => Done ((), (d, s))
  end.
End keyboard.
End Ps2Keyboard.

(** ** PS/2 mouse *)

Record MousePacket := mkPacket {
  pk_left_button : bool; pk_right_button : bool; pk_middle_button : bool; pk_x_overflow : bool; pk_y_overflow : bool; pk_x_movement : Z; pk_y_movement : Z }.

Record ButtonState := mkButtons { bs_left : bool; bs_right : bool; bs_middle : bool }.

Record Ps2MouseState := mkMouse { ms_packet_bytes : bytes; ms_byte_index : nat; ms_last_buttons : ButtonState }.
#[export] Instance eta_mouse : Eta Ps2MouseState := fun r => mkMouse (ms_packet_bytes r) (ms_byte_index r) (ms_last_buttons r).

Module Ps2Mouse.

Definition new : Ps2MouseState := mkMouse [0; 0; 0] 0 (mkButtons false false false).

(** [(byte as i16) | (0xFF00u16 as i16)] *)
Definition sign_extend (byte : Z) : Z := Input.as_i16 (Z.lor byte 0xff00).

Definition parse_packet (bytes : bytes) : outcome MousePacket :=
  byte0 ← index bytes 0; byte1 ← index bytes 1; byte2 ← index bytes 2;
  let bit mask := negb (Z.land byte0 mask =? 0) in
  let x_movement := if bit 0x10 then sign_extend byte1 else byte1 in
  let y_movement := if bit 0x20 then sign_extend byte2 else byte2 in
  mret (mkPacket (bit 0x01) (bit 0x02) (bit 0x04) (bit 0x40) (bit 0x80) x_movement y_movement).

Definition from_packet (packet : MousePacket) : ButtonState :=
  mkButtons (pk_left_button packet) (pk_right_button packet) (pk_middle_button packet).

(** A button event if the button changed. *)
Definition button_change (button : MouseButton) (was is_ : bool) : M InputState () :=
  if Bool.eqb is_ was then mret () else Input.handle_mouse_button button is_.

Definition dispatch_packet (packet : MousePacket) (last_buttons : ButtonState) : M InputState ButtonState :=
  (if (negb (pk_x_movement packet =? 0) || negb (pk_y_movement packet =? 0)) && negb (pk_x_overflow packet) && negb (pk_y_overflow packet)
   then Input.handle_mouse_move (pk_x_movement packet) (pk_y_movement packet) else mret ());;
  let current_buttons := from_packet packet in
  button_change Left (bs_left last_buttons) (bs_left current_buttons);;
  button_change Right (bs_right last_buttons) (bs_right current_buttons);;
  button_change Middle (bs_middle last_buttons) (bs_middle current_buttons);;
  mret current_buttons.

(** [data] is what port 0x60 gave. *)
Definition on_interrupt (data : Z) : M (Ps2MouseState * InputState) () := fun '(m, s) =>
  if (ms_byte_index m =? 0)%nat && (Z.land data 0x08 =? 0) then Done ((), (m <| ms_byte_index := 0%nat |>, s)) else
  match index_set (ms_packet_bytes m) (ms_byte_index m) data with
  | Panic => Panic
  | Done bs =>
    let m := m <| ms_packet_bytes := bs |> <| ms_byte_index ::= S |> in
    if (ms_byte_index m <? length bs)%nat then Done ((), (m, s)) else
    let m := m <| ms_byte_index := 0%nat |> in
    match parse_packet bs with
    | Panic => Panic
    | Done packet =>
      match dispatch_packet packet (ms_last_buttons m) s with
      | Done (last, s) => Done ((), (m <| ms_last_buttons := last |>, s))
      | Panic => Panic
      end
    end
  end.

End Ps2Mouse.

(** ** USB boot reports *)

Record HidKeyboardReport := mkKbReport { kr_modifier : Z; kr_reserved : Z; kr_keycodes : bytes }.
Record HidMouseReport := mkMouseReport { hm_button_mask : Z; hm_x_delta : Z; hm_y_delta : Z }.
Inductive HidDeviceType := HidKeyboard | HidMouse | HidUnknown.

Record HidInputState := mkHid { hd_keyboard : HidKeyboardReport; hd_mouse_buttons : Z; hd_caps_lock : bool }.
#[export] Instance eta_hid : Eta HidInputState := fun r => mkHid (hd_keyboard r) (hd_mouse_buttons r) (hd_caps_lock r).

Module Hid.

Definition from_interface_subclass (subclass protocol : Z) : HidDeviceType :=
  if subclass =? 1 then (if protocol =? 1 then HidKeyboard else if protocol =? 2 then HidMouse else HidUnknown) else HidUnknown.

Definition keyboard_report (data : bytes) : HidKeyboardReport :=
  mkKbReport (default 0 (data !! 0%nat)) (default 0 (data !! 1%nat)) (if (8 <=? length data)%nat then take 6 (drop 2 data) else replicate 6 0).

Definition has_key (r : HidKeyboardReport) (keycode : Z) : bool := existsb (Z.eqb keycode) (kr_keycodes r).

(** [byte as i8] *)
Definition as_i8 (v : Z) : Z := (v + 2 ^ 7) mod 2 ^ 8 - 2 ^ 7.

Definition mouse_report (data : bytes) : HidMouseReport :=
  mkMouseReport (default 0 (data !! 0%nat)) (as_i8 (default 0 (data !! 1%nat))) (as_i8 (default 0 (data !! 2%nat))).

Definition new : HidInputState := mkHid (mkKbReport 0 0 (replicate 6 0)) 0 false.

Definition KEYS : list (Z * KeyCode) :=
  [(4, KA); (5, KB); (6, KC); (7, KD); (8, KE); (9, KF); (10, KG); (11, KH); (12, KI); (13, KJ); (14, KK); (15, KL); (16, KM); (17, KN);
   (18, KO); (19, KP); (20, KQ); (21, KR); (22, KS); (23, KT); (24, KU); (25, KV); (26, KW); (27, KX); (28, KY); (29, KZ);
   (30, Key1); (31, Key2); (32, Key3); (33, Key4); (34, Key5); (35, Key6); (36, Key7); (37, Key8); (38, Key9); (39, Key0);
   (40, KReturn); (41, KEscape); (42, KBackspace); (43, KTab); (44, KSpacebar); (45, OemMinus); (46, OemPlus); (47, Oem4); (48, Oem6);
   (49, Oem5); (51, Oem1); (52, Oem3); (53, Oem8); (54, OemComma); (55, OemPeriod); (56, Oem2); (57, KCapsLock);
   (58, KF1); (59, KF2); (60, KF3); (61, KF4); (62, KF5); (63, KF6); (64, KF7); (65, KF8); (66, KF9); (67, KF10); (68, KF11); (69, KF12);
   (73, KInsert); (74, KHome); (75, KPageUp); (76, KDelete); (77, KEnd); (78, KPageDown); (79, ArrowRight); (80, ArrowLeft);
   (81, ArrowDown); (82, ArrowUp)].

Definition keycode_to_pc_key (keycode : Z) : option KeyCode := snd <$> List.find (fun x => x.1 =? keycode) KEYS.

(** The characters of a key without and with shift. *)
Definition CHARS : list (Z * (Z * Z)) :=
  [(30, (49, 33)); (31, (50, 64)); (32, (51, 35)); (33, (52, 36)); (34, (53, 37)); (35, (54, 94)); (36, (55, 38)); (37, (56, 42)); (38, (57, 40));
   (39, (48, 41)); (40, (10, 10)); (42, (8, 8)); (43, (9, 9)); (44, (32, 32)); (45, (45, 95)); (46, (61, 43)); (47, (91, 123)); (48, (93, 125));
   (49, (92, 124)); (51, (59, 58)); (52, (39, 34)); (53, (96, 126)); (54, (44, 60)); (55, (46, 62)); (56, (47, 63))].

Definition keycode_to_char (keycode : Z) (shift ctrl caps_lock : bool) : option Z :=
  if (4 <=? keycode) && (keycode <=? 29) then
    let letter := 97 + (keycode - 4) in
    if ctrl then Some (letter - 97 + 1) else
    Some (if xorb shift caps_lock then letter - 97 + 65 else letter)
  else (fun x => if shift then x.2.2 else x.2.1) <$> List.find (fun x => x.1 =? keycode) CHARS.

Definition MODIFIERS : list (Z * KeyCode) :=
  [(0x01, LControl); (0x02, LShift); (0x04, LAlt); (0x08, LWin); (0x10, RControl); (0x20, RShift); (0x40, RAltGr); (0x80, RWin)].

Fixpoint modifier_changes (was is_ : Z) (l : list (Z * KeyCode)) : M InputState () :=
  match l with
  | [] => mret ()
  | (mask, key) :: l =>
    let was_pressed := negb (Z.land was mask =? 0) in
    let is_pressed := negb (Z.land is_ mask =? 0) in
    (if Bool.eqb was_pressed is_pressed then mret () else Input.handle_keyboard_key key is_pressed;; mret ());;
    modifier_changes was is_ l
  end.

Definition dispatch_modifier_changes (st : HidInputState) (modifiers : Z) : M InputState () :=
  modifier_changes (kr_modifier (hd_keyboard st)) modifiers MODIFIERS.

Fixpoint release_keys (report : HidKeyboardReport) (l : bytes) : M InputState () :=
  match l with
  | [] => mret ()
  | keycode :: l =>
    (if negb (keycode =? 0) && negb (has_key report keycode) then
       match keycode_to_pc_key keycode with Some key => Input.handle_keyboard_key key false;; mret () | None => mret () end
     else mret ());;
    release_keys report l
  end.

(** The value is the caps lock afterwards. *)
Fixpoint press_keys (old : HidKeyboardReport) (modifier : Z) (caps_lock : bool) (l : bytes) : M InputState bool :=
  match l with
  | [] => mret caps_lock
  | keycode :: l =>
    if (keycode =? 0) || has_key old keycode then press_keys old modifier caps_lock l else
    match keycode_to_pc_key keycode with
    | None => press_keys old modifier caps_lock l
    | Some key =>
      let caps_lock := if bool_decide (key = KCapsLock) then negb caps_lock else caps_lock in
      terminal_control ← Input.handle_keyboard_key key true;
      (if negb terminal_control && negb (Input.key_emits_terminal_sequence key) then
         let shift := negb (Z.land modifier 0x22 =? 0) in
         let ctrl := negb (Z.land modifier 0x11 =? 0) in
         match keycode_to_char keycode shift ctrl caps_lock with Some ch => Input.handle_keyboard_char ch | None => mret () end
       else mret ());;
      press_keys old modifier caps_lock l
    end
  end.

Definition process_keyboard_report (report : HidKeyboardReport) : M (HidInputState * InputState) () := fun '(st, s) =>
  match (dispatch_modifier_changes st (kr_modifier report);;
         release_keys report (kr_keycodes (hd_keyboard st));;
         press_keys (hd_keyboard st) (kr_modifier report) (hd_caps_lock st) (kr_keycodes report)) s with
  | Done (caps_lock, s) => Done ((), (st <| hd_keyboard := report |> <| hd_caps_lock := caps_lock |>, s))
  | Panic => Panic
  end.

Definition process_mouse_report (report : HidMouseReport) : M (HidInputState * InputState) () := fun '(st, s) =>
  let bit v mask := negb (Z.land v mask =? 0) in
  match ((if negb (hm_x_delta report =? 0) || negb (hm_y_delta report =? 0) then Input.handle_mouse_move (hm_x_delta report) (hm_y_delta report) else mret ());;
         Ps2Mouse.button_change Left (bit (hd_mouse_buttons st) 0x01) (bit (hm_button_mask report) 0x01);;
         Ps2Mouse.button_change Right (bit (hd_mouse_buttons st) 0x02) (bit (hm_button_mask report) 0x02);;
         Ps2Mouse.button_change Middle (bit (hd_mouse_buttons st) 0x04) (bit (hm_button_mask report) 0x04)) s with
  | Done (_, s) => Done ((), (st <| hd_mouse_buttons := hm_button_mask report |>, s))
  | Panic => Panic
  end.

End Hid.
