(* ===== verification/InputProofs.v ===== *)
(** * Input: bounds, and typed text is read back *)

From S2P Require Import Prelude Utf8 Paths Vfs Ring3 Elf AddrSpace Threads Program Ipc Process Current Input.

(** ** The queue *)

Definition on_screen (p : MousePosition) : Prop := 0 <= mp_x p < 80 /\ 0 <= mp_y p < 25.

Record input_ok (s : InputState) : Prop := {
  ik_events : (length (iq_events (in_queue s)) <= EVENT_QUEUE_CAPACITY)%nat;
  ik_bytes : (length (iq_keyboard_bytes (in_queue s)) <= KEYBOARD_BYTE_QUEUE_CAPACITY)%nat;
  ik_ascii : Forall (fun b => b < 128) (iq_keyboard_bytes (in_queue s));
  ik_mouse : on_screen (iq_mouse_pos (in_queue s));
}.

(** [m] does not fail and keeps the bounds. *)
Definition bounded {A} (m : M InputState A) : Prop := forall s, input_ok s -> wp m (fun _ s' => input_ok s') s.

Lemma bounded_ret {A} (a : A) : bounded (mret a).
Proof. by intros s Hs. Qed.

Lemma bounded_bind {A B} (m : M InputState A) (f : A -> M InputState B) : bounded m -> (forall a, bounded (f a)) -> bounded (m ≫= f).
Proof. intros Hm Hf s Hs. rewrite wp_bind. eapply wp_mono; [by apply Hm|]. intros a s' Hs'. by apply Hf. Qed.

Lemma bounded_get {A} (f : InputState -> M InputState A) : (forall s, input_ok s -> wp (f s) (fun _ s' => input_ok s') s) -> bounded (get ≫= f).
Proof. intros Hf s Hs. rewrite wp_bind. by apply Hf. Qed.

(** Updates of what the bounds do not mention. *)
Lemma bounded_modify f : (forall s, in_queue (f s) = in_queue s) -> bounded (modify f).
Proof. intros Hf s [H1 H2 H3 H4]. unfold wp, modify. split; by rewrite Hf. Qed.

Lemma bounded_on_queue f : (forall q, iq_events (f q) = iq_events q /\ iq_keyboard_bytes (f q) = iq_keyboard_bytes q /\ iq_mouse_pos (f q) = iq_mouse_pos q) -> bounded (Input.on_queue f).
Proof. intros Hf s [H1 H2 H3 H4]. unfold wp, Input.on_queue, modify. destruct (Hf (in_queue s)) as (E1 & E2 & E3). split; cbn; by rewrite ?E1, ?E2, ?E3. Qed.

Lemma bounded_if {A} (b : bool) (m m' : M InputState A) : bounded m -> bounded m' -> bounded (if b then m else m').
Proof. by destruct b. Qed.

Create HintDb input.
#[local] Hint Resolve bounded_ret bounded_bind bounded_if : input.

Lemma enqueue_bounded e : bounded (Input.enqueue e).
Proof.
  apply bounded_get. intros s [H1 H2 H3 H4]. destruct (Nat.ltb_spec (length (iq_events (in_queue s))) EVENT_QUEUE_CAPACITY) as [Hlt|]; unfold wp, Input.on_queue, modify.
  - split; cbn; [rewrite length_app; cbn; lia|done..].
  - by split.
Qed.

Lemma byte_bounded b : b < 128 -> bounded (Input.enqueue_keyboard_byte b).
Proof.
  intros Hb. apply bounded_get. intros s [H1 H2 H3 H4]. destruct (Nat.ltb_spec (length (iq_keyboard_bytes (in_queue s))) KEYBOARD_BYTE_QUEUE_CAPACITY) as [Hlt|]; unfold wp, Input.on_queue, modify.
  - split; cbn; [done|rewrite length_app; cbn; lia| |done]. apply Forall_app. by split; [|repeat constructor].
  - by split.
Qed.

Lemma bytes_bounded bs : Forall (fun b => b < 128) bs -> bounded (Input.enqueue_keyboard_bytes bs).
Proof. induction 1 as [|b bs Hb _ IH]; cbn; [apply bounded_ret|]. apply bounded_bind; [by apply byte_bounded|done]. Qed.

Lemma sequence_ascii key bs : Input.terminal_sequence_for_key key = Some bs -> Forall (fun b => b < 128) bs.
Proof. destruct key; cbn; intros [= <-]; repeat constructor; lia. Qed.

Lemma sequence_bounded key : bounded (Input.enqueue_terminal_sequence key).
Proof. unfold Input.enqueue_terminal_sequence. destruct (Input.terminal_sequence_for_key key) as [bs|] eqn:E; [|apply bounded_ret]. apply bytes_bounded. by eapply sequence_ascii. Qed.

Lemma modifier_bounded key pressed : bounded (Input.update_modifier_state key pressed).
Proof. destruct key; cbn; try apply bounded_ret; by apply bounded_on_queue. Qed.
#[local] Hint Resolve enqueue_bounded sequence_bounded modifier_bounded : input.

Lemma key_bounded key pressed : bounded (Input.handle_keyboard_key key pressed).
Proof.
  unfold Input.handle_keyboard_key. apply bounded_bind; [apply modifier_bounded|intros _]. apply bounded_bind; [by apply bounded_modify|intros _].
  apply bounded_get. intros s Hs. revert s Hs. match goal with |- forall s, input_ok s -> wp (@?m s) _ s => cut (forall s0, bounded (m s0)) end; [intros Hm s Hs; by apply Hm|].
  intros s0. cbv beta. apply bounded_bind; [apply bounded_if; [by apply bounded_modify|apply bounded_ret]|intros _].
  apply bounded_bind; [apply bounded_if; [apply sequence_bounded|apply bounded_ret]|intros _]. apply bounded_bind; [apply enqueue_bounded|intros _; apply bounded_ret].
Qed.

Lemma char_bounded ch : bounded (Input.handle_keyboard_char ch).
Proof.
  unfold Input.handle_keyboard_char. apply bounded_bind; [by apply bounded_modify|intros _]. apply bounded_bind; [by apply bounded_modify|intros _].
  apply bounded_bind; [|intros _; apply enqueue_bounded]. destruct (Z.ltb_spec ch 128); [by apply byte_bounded|apply bounded_ret].
Qed.

Lemma button_bounded button pressed : bounded (Input.handle_mouse_button button pressed).
Proof.
  unfold Input.handle_mouse_button. apply bounded_bind; [destruct button; by apply bounded_on_queue|intros _]. apply bounded_bind; [by apply bounded_modify|intros _; apply enqueue_bounded].
Qed.

Lemma button_change_bounded button was is_ : bounded (Ps2Mouse.button_change button was is_).
Proof. unfold Ps2Mouse.button_change. apply bounded_if; [apply bounded_ret|apply button_bounded]. Qed.
#[local] Hint Resolve key_bounded char_bounded button_change_bounded : input.

(** A movement by less than 2^14 does not overflow. *)
Lemma move_bounded dx dy : - 2 ^ 14 <= dx < 2 ^ 14 -> - 2 ^ 14 <= dy < 2 ^ 14 -> bounded (Input.handle_mouse_move dx dy).
Proof.
  intros Hx Hy. apply bounded_get. intros s Hs. pose proof (ik_mouse _ Hs) as [Px Py]. set (pos := iq_mouse_pos (in_queue s)) in *.
  assert (forall v, 0 <= v < 80 -> Input.as_i16 v = v) as Has by (intros v Hv; unfold Input.as_i16; rewrite Z.mod_small by lia; lia).
  cbv beta zeta. fold pos. rewrite !Has by lia. unfold Input.i16_checked.
  rewrite (proj2 (Z.leb_le _ (mp_x pos + dx))), (proj2 (Z.ltb_lt (mp_x pos + dx) _)) by lia. rewrite (proj2 (Z.leb_le _ (mp_y pos - dy))), (proj2 (Z.ltb_lt (mp_y pos - dy) _)) by lia.
  cbn [andb]. rewrite wp_bind, wp_ret, wp_bind, wp_ret, wp_bind. unfold wp at 1, Input.on_queue, modify.
  match goal with |- wp ?m _ ?s' => enough (bounded m) as Hb; [apply Hb|] end.
  - destruct Hs as [H1 H2 H3 H4]. split; cbn; [done..|]. unfold on_screen, clamp. cbn. lia.
  - apply bounded_bind; [by apply bounded_modify|intros _; apply enqueue_bounded].
Qed.

(** ** The drivers *)

Lemma sign_extend_range b : 0 <= b < 256 -> Ps2Mouse.sign_extend b = b - 256.
Proof.
  intros Hb. unfold Ps2Mouse.sign_extend, Input.as_i16.
  assert (Z.lor b 0xff00 = b + 0xff00) as ->.
  { rewrite Z.add_nocarry_lxor; [symmetry; apply Z.lxor_lor|]; apply Z.bits_inj'; intros n Hn; rewrite Z.land_spec, Z.bits_0;
      (destruct (Z_lt_ge_dec n 8); [change 0xff00 with (Z.shiftl 0xff 8); rewrite Z.shiftl_spec_low, andb_false_r by lia; done|
       rewrite (Z.bits_above_log2 b n), andb_false_l by (try (destruct (Z.eq_dec b 0) as [->|]; [cbn|apply Z.log2_lt_pow2; [lia|apply Z.lt_le_trans with (2 ^ 8); [lia|apply Z.pow_le_mono_r; lia]]]); lia); done]). }
  replace (b + 0xff00 + 2 ^ 15) with (b - 256 + 2 ^ 15 + 1 * 2 ^ 16) by lia. rewrite Z_mod_plus_full, Z.mod_small by lia. lia.
Qed.

Lemma packet_spec b0 b1 b2 : is_byte b1 -> is_byte b2 -> exists p, Ps2Mouse.parse_packet [b0; b1; b2] = Done p /\
  pk_x_movement p = (if Z.land b0 0x10 =? 0 then b1 else b1 - 256) /\ pk_y_movement p = (if Z.land b0 0x20 =? 0 then b2 else b2 - 256).
Proof.
  intros H1 H2. unfold Ps2Mouse.parse_packet. eexists. split; [reflexivity|]. cbn. rewrite !sign_extend_range by done. by destruct (Z.land b0 0x10 =? 0), (Z.land b0 0x20 =? 0).
Qed.

Lemma packet_bounded b0 b1 b2 last p : is_byte b1 -> is_byte b2 -> Ps2Mouse.parse_packet [b0; b1; b2] = Done p -> bounded (Ps2Mouse.dispatch_packet p last).
Proof.
  intros H1 H2 E. destruct (packet_spec b0 b1 b2 H1 H2) as (p' & E' & Ex & Ey). rewrite E in E'. injection E' as <-. unfold is_byte in *. unfold Ps2Mouse.dispatch_packet.
  apply bounded_bind; [|intros _; cbv zeta; auto 8 with input].
  apply bounded_if; [|apply bounded_ret]. apply move_bounded; [rewrite Ex; destruct (Z.land b0 0x10 =? 0); lia|rewrite Ey; destruct (Z.land b0 0x20 =? 0); lia].
Qed.

Record mouse_ok (m : Ps2MouseState) : Prop := {
  mk_length : length (ms_packet_bytes m) = 3%nat;
  mk_bytes : Forall is_byte (ms_packet_bytes m);
  mk_index : (ms_byte_index m < 3)%nat;
}.

Lemma mouse_interrupt data m s : is_byte data -> mouse_ok m -> input_ok s -> wp (Ps2Mouse.on_interrupt data) (fun _ x => mouse_ok x.1 /\ input_ok x.2) (m, s).
Proof.
  intros Hd [M1 M2 M3] Hs. unfold wp, Ps2Mouse.on_interrupt. destruct (_ && _); [split; [split; cbn; [done|done|lia]|done]|]. unfold index_set. rewrite (proj2 (Nat.ltb_lt _ _)) by lia.
  set (bs := <[ms_byte_index m:=data]> (ms_packet_bytes m)). assert (length bs = 3%nat) as Hl by (unfold bs; by rewrite length_insert).
  assert (Forall is_byte bs) as Hb by (by apply Forall_insert). cbn [ms_byte_index set]. rewrite Hl. destruct (Nat.ltb_spec (S (ms_byte_index m)) 3) as [Hlt|]; [split; [split; cbn; [done|done|lia]|done]|].
  destruct bs as [|b0 [|b1 [|b2 [|]]]]; try done. rewrite !Forall_cons in Hb. destruct Hb as (H0 & H1 & H2 & _).
  destruct (packet_spec b0 b1 b2 H1 H2) as (p & E & _). rewrite E. pose proof (packet_bounded b0 b1 b2 (ms_last_buttons m) p H1 H2 E s Hs) as Hp. unfold wp in Hp. cbn [ms_last_buttons set].
  destruct (Ps2Mouse.dispatch_packet p _ s) as [[last s']|]; [|done]. split; [|done]. split; cbn; [done|repeat (apply Forall_cons_2; [done|]); apply Forall_nil_2|lia].
Qed.

Lemma keyboard_interrupt {D} `{KeyDecoder D} scancode (d : D) s : input_ok s -> wp (Ps2Keyboard.on_interrupt scancode) (fun _ x => input_ok x.2) (d, s).
Proof.
  intros Hs. unfold wp, Ps2Keyboard.on_interrupt. destruct (add_byte scancode d) as [[[e|]|] d']; [|done..]. cbv zeta.
  pose proof (key_bounded (ke_code e) (match ke_state e with KDown | SingleShot => true | KUp => false end) s Hs) as Hk. unfold wp in Hk.
  destruct (Input.handle_keyboard_key _ _ s) as [[tc s']|]; [|done]. destruct (process_keyevent e d') as [[[k|ch]|] d2]; [done| |done].
  destruct (_ && _); [|done]. pose proof (char_bounded ch s' Hk) as Hc. unfold wp in Hc. by destruct (Input.handle_keyboard_char ch s') as [[[] s2]|].
Qed.

Lemma modifiers_bounded was is_ l : bounded (Hid.modifier_changes was is_ l).
Proof. induction l as [|[mask key] l IH]; cbn [Hid.modifier_changes]; auto 6 with input. Qed.

Lemma release_bounded r l : bounded (Hid.release_keys r l).
Proof.
  induction l as [|k l IH]; cbn [Hid.release_keys]; [apply bounded_ret|]. apply bounded_bind; [|done]. apply bounded_if; [|apply bounded_ret]. destruct (Hid.keycode_to_pc_key k); [|apply bounded_ret].
  apply bounded_bind; [apply key_bounded|intros _; apply bounded_ret].
Qed.

Lemma press_bounded old modifier l : forall caps, bounded (Hid.press_keys old modifier caps l).
Proof.
  induction l as [|k l IH]; intros caps; cbn [Hid.press_keys]; [apply bounded_ret|]. apply bounded_if; [done|]. destruct (Hid.keycode_to_pc_key k) as [key|]; [|done].
  apply bounded_bind; [apply key_bounded|intros tc]. apply bounded_bind; [|auto]. apply bounded_if; [|apply bounded_ret].
  destruct (Hid.keycode_to_char _ _ _ _); [apply char_bounded|apply bounded_ret].
Qed.
#[local] Hint Resolve modifiers_bounded release_bounded press_bounded : input.

Lemma usb_keyboard report st s : input_ok s -> wp (Hid.process_keyboard_report report) (fun _ x => input_ok x.2) (st, s).
Proof.
  intros Hs. unfold wp, Hid.process_keyboard_report.
  assert (bounded (Hid.dispatch_modifier_changes st (kr_modifier report);; Hid.release_keys report (kr_keycodes (hd_keyboard st));;
    Hid.press_keys (hd_keyboard st) (kr_modifier report) (hd_caps_lock st) (kr_keycodes report))) as Hb by (unfold Hid.dispatch_modifier_changes; auto 8 with input).
  specialize (Hb s Hs). unfold wp in Hb. match type of Hb with match ?x with _ => _ end => by destruct x as [[caps s']|] end.
Qed.

Lemma as_i8_range v : - 2 ^ 7 <= Hid.as_i8 v < 2 ^ 7.
Proof. unfold Hid.as_i8. pose proof (Z.mod_pos_bound (v + 2 ^ 7) (2 ^ 8)). lia. Qed.

Lemma usb_mouse data st s : input_ok s -> wp (Hid.process_mouse_report (Hid.mouse_report data)) (fun _ x => input_ok x.2) (st, s).
Proof.
  intros Hs. unfold wp, Hid.process_mouse_report. cbv zeta.
  match goal with |- match (match ?m _ with _ => _ end) with _ => _ end => assert (bounded m) as Hb end.
  - apply bounded_bind; [apply bounded_if; [|apply bounded_ret]|intros _; auto 8 with input].
    unfold Hid.mouse_report. cbn. pose proof (as_i8_range (default 0 (data !! 1%nat))). pose proof (as_i8_range (default 0 (data !! 2%nat))). apply move_bounded; lia.
  - specialize (Hb s Hs). unfold wp in Hb. match type of Hb with match ?x with _ => _ end => by destruct x as [[caps s']|] end.
Qed.

(** ** Everything that arrives *)

Inductive arrival := Scancode (b : Z) | MouseByte (b : Z) | KeyboardReport (data : bytes) | MouseReport (data : bytes) | ReadEvent | ReadByte | TakeSignal.

Definition arrival_ok (a : arrival) : Prop := match a with MouseByte b => is_byte b | _ => True end.

Record Inputs (D : Type) := mkInputs { ins_decoder : D; ins_mouse : Ps2MouseState; ins_hid : HidInputState; ins_input : InputState }.
Arguments mkInputs {D}.
Arguments ins_decoder {D}.
Arguments ins_mouse {D}.
Arguments ins_hid {D}.
Arguments ins_input {D}.

Section arrivals.
Context {D : Type} `{KeyDecoder D}.

Definition arrive (a : arrival) : M (Inputs D) () := fun w =>
  let on_input {A} (m : M InputState A) := match m (ins_input w) with Done (_, s) => Done ((), mkInputs (ins_decoder w) (ins_mouse w) (ins_hid w) s) | Panic => Panic end in
  match a with
  | Scancode b => match Ps2Keyboard.on_interrupt b (ins_decoder w, ins_input w) with Done (_, (d, s)) => Done ((), mkInputs d (ins_mouse w) (ins_hid w) s) | Panic => Panic end
  | MouseByte b => match Ps2Mouse.on_interrupt b (ins_mouse w, ins_input w) with Done (_, (m, s)) => Done ((), mkInputs (ins_decoder w) m (ins_hid w) s) | Panic => Panic end
  | KeyboardReport data => match Hid.process_keyboard_report (Hid.keyboard_report data) (ins_hid w, ins_input w) with Done (_, (h, s)) => Done ((), mkInputs (ins_decoder w) (ins_mouse w) h s) | Panic => Panic end
  | MouseReport data => match Hid.process_mouse_report (Hid.mouse_report data) (ins_hid w, ins_input w) with Done (_, (h, s)) => Done ((), mkInputs (ins_decoder w) (ins_mouse w) h s) | Panic => Panic end
  | ReadEvent => on_input Input.dequeue
  | ReadByte => on_input Input.dequeue_keyboard_byte
  | TakeSignal => on_input Input.take_terminal_signal
  end.

Fixpoint arrivals (l : list arrival) : M (Inputs D) () := match l with [] => mret () | a :: l => arrive a;; arrivals l end.

Definition inputs_ok (w : Inputs D) : Prop := mouse_ok (ins_mouse w) /\ input_ok (ins_input w).

Lemma read_bounded {A} (f : InputQueue -> InputQueue) (g : InputState -> A) : (forall q, (length (iq_events (f q)) <= length (iq_events q))%nat /\
  (iq_keyboard_bytes (f q) = iq_keyboard_bytes q \/ iq_keyboard_bytes (f q) = tail (iq_keyboard_bytes q)) /\ iq_mouse_pos (f q) = iq_mouse_pos q) -> bounded (s ← get; Input.on_queue f;; mret (g s)).
Proof using.
  intros Hf s [H1 H2 H3 H4]. unfold wp. cbn. destruct (Hf (in_queue s)) as (E1 & E2 & E3). split; cbn; rewrite ?E3; [lia| | |done].
  - destruct E2 as [->| ->]; [done|]. destruct (iq_keyboard_bytes (in_queue s)); cbn in *; lia.
  - destruct E2 as [->| ->]; [done|]. by destruct H3.
Qed.

Lemma arrive_ok a w : arrival_ok a -> inputs_ok w -> wp (arrive a) (fun _ => inputs_ok) w.
Proof using.
  intros Ha [Hm Hs]. destruct w as [d m h s]. cbn in Hm, Hs. unfold wp, arrive, inputs_ok. cbn [ins_decoder ins_mouse ins_hid ins_input]. destruct a as [b|b|data|data| | |].
  - pose proof (keyboard_interrupt b d s Hs) as Hk. unfold wp in Hk. by destruct (Ps2Keyboard.on_interrupt b (d, s)) as [[[] [d' s']]|].
  - pose proof (mouse_interrupt b m s Ha Hm Hs) as Hk. unfold wp in Hk. by destruct (Ps2Mouse.on_interrupt b (m, s)) as [[[] [m' s']]|].
  - pose proof (usb_keyboard (Hid.keyboard_report data) h s Hs) as Hk. unfold wp in Hk. by destruct (Hid.process_keyboard_report _ (h, s)) as [[[] [h' s']]|].
  - pose proof (usb_mouse data h s Hs) as Hk. unfold wp in Hk. by destruct (Hid.process_mouse_report _ (h, s)) as [[[] [h' s']]|].
  - split; [done|]. apply (read_bounded (fun q => q <| iq_events ::= tail |>) (fun s => head (iq_events (in_queue s)))); [|done]. intros q. cbn. split; [destruct (iq_events q); cbn; lia|by split; [left|]].
  - split; [done|]. apply (read_bounded (fun q => q <| iq_keyboard_bytes ::= tail |>) (fun s => head (iq_keyboard_bytes (in_queue s)))); [|done]. intros q. cbn. split; [done|by split; [right|]].
  - split; [done|]. by destruct Hs.
Qed.
End arrivals.

(** Input never overruns.  Whatever scancodes, mouse bytes and USB reports
    arrive, whatever the scancode decoder makes of them, and however the queues
    are read in between, no driver panics, the queues keep to their capacity,
    the terminal gets ASCII only, and the mouse pointer stays on the screen. *)
Theorem input_bounded {D} `{KeyDecoder D} (d : D) (l : list arrival) : Forall arrival_ok l ->
  exists w, arrivals l (mkInputs d Ps2Mouse.new Hid.new input_new) = Done ((), w) /\
    (length (iq_events (in_queue (ins_input w))) <= 256)%nat /\ (length (iq_keyboard_bytes (in_queue (ins_input w))) <= 512)%nat /\
    Forall (fun b => b < 128) (iq_keyboard_bytes (in_queue (ins_input w))) /\ on_screen (iq_mouse_pos (in_queue (ins_input w))) /\
    (ms_byte_index (ins_mouse w) < 3)%nat.
Proof.
  intros Hl. assert (forall w, inputs_ok w -> wp (arrivals l) (fun _ => inputs_ok) w) as Hrun.
  { induction Hl as [|a l Ha _ IH]; intros w Hw; cbn [arrivals]; [by rewrite wp_ret|]. rewrite wp_bind. eapply wp_mono; [by apply arrive_ok|]. intros [] w' Hw'. by apply IH. }
  destruct (proj1 (wp_run _ _ _) (Hrun (mkInputs d Ps2Mouse.new Hid.new input_new) ltac:(split; split; cbn; repeat first [done|constructor|lia]))) as ([] & w & E & [M1 M2 M3] & [H1 H2 H3 H4]).
  exists w. by split_and!.
Qed.

(** A decoder that knows one key, for the example. *)
#[local] Instance one_key : KeyDecoder () := {
  add_byte b d := (if b =? 0x23 then Ok (Some (mkKeyEvent KH KDown)) else Err (), d);
  process_keyevent e d := (Some (Unicode 104), d);
}.

Lemma input_bounded_witness : exists w,
  arrivals [Scancode 0x23; Scancode 0xff; MouseByte 8; MouseByte 200; MouseByte 3; KeyboardReport [0; 0; 4; 0; 0; 0; 0; 0]; ReadByte]
    (mkInputs () Ps2Mouse.new Hid.new input_new) = Done ((), w) /\ iq_keyboard_bytes (in_queue (ins_input w)) = [97] /\ on_screen (iq_mouse_pos (in_queue (ins_input w))).
Proof.
  destruct (input_bounded () [Scancode 0x23; Scancode 0xff; MouseByte 8; MouseByte 200; MouseByte 3; KeyboardReport [0; 0; 4; 0; 0; 0; 0; 0]; ReadByte]) as (w & E & _ & _ & _ & Hm & _).
  { repeat (apply Forall_cons_2; [cbn; unfold is_byte; lia|]). apply Forall_nil_2. }
  exists w. split; [exact E|]. split; [|exact Hm]. vm_compute in E. injection E as <-. reflexivity.
Defined.

(** ** Typing *)

Definition typed (s : InputState) : bytes := iq_keyboard_bytes (in_queue s).
Definition control (s : InputState) : bool := mo_ctrl (iq_modifiers (in_queue s)).

Lemma enqueue_typed e s : exists s', Input.enqueue e s = Done ((), s') /\ typed s' = typed s /\ control s' = control s.
Proof. unfold Input.enqueue. run. by destruct (_ <? _)%nat; eexists. Qed.

Definition is_control (key : KeyCode) : bool := match key with LControl | RControl => true | _ => false end.

Lemma modifier_typed key pressed s : exists s', Input.update_modifier_state key pressed s = Done ((), s') /\ typed s' = typed s /\
  control s' = if is_control key then pressed else control s.
Proof. destruct key; eexists; (split; [reflexivity|by split]). Qed.

(** A key that writes nothing to the terminal by itself. *)
Lemma key_typed key pressed s : Input.key_emits_terminal_sequence key = false -> (if is_control key then pressed else control s) = false ->
  exists s', Input.handle_keyboard_key key pressed s = Done (false, s') /\ typed s' = typed s /\ control s' = false.
Proof.
  intros Hseq Hc. unfold Input.handle_keyboard_key. destruct (modifier_typed key pressed s) as (s1 & E1 & T1 & C1). rewrite Hc in C1.
  unfold mbind, M_bind. rewrite E1. unfold modify at 1. set (s2 := s1 <| in_keyboard_events ::= _ |>). unfold get. cbv iota beta zeta.
  change (mo_ctrl (iq_modifiers (in_queue s2))) with (control s1). rewrite C1, andb_false_r. cbn [andb negb]. unfold mret at 1, M_ret at 1.
  assert ((if pressed && true then Input.enqueue_terminal_sequence key else mret ()) s2 = Done ((), s2)) as ->.
  { unfold Input.key_emits_terminal_sequence in Hseq. unfold Input.enqueue_terminal_sequence. destruct (Input.terminal_sequence_for_key key); [done|]. by destruct (pressed && true). }
  destruct (enqueue_typed (KeyboardKey key pressed) s2) as (s3 & -> & T3 & C3). exists s3. split; [done|]. split; [by rewrite T3|by rewrite C3].
Qed.

Lemma char_typed ch s : ch < 128 -> (length (typed s) < KEYBOARD_BYTE_QUEUE_CAPACITY)%nat ->
  exists s', Input.handle_keyboard_char ch s = Done ((), s') /\ typed s' = typed s ++ [ch] /\ control s' = control s.
Proof.
  intros Hch Hroom. unfold Input.handle_keyboard_char. unfold mbind, M_bind. unfold modify at 1 2. rewrite (proj2 (Z.ltb_lt ch 128)) by done.
  set (s1 := s <| in_keyboard_events ::= _ |> <| in_typed_char_events ::= _ |>).
  assert (exists s2, Input.enqueue_keyboard_byte ch s1 = Done ((), s2) /\ typed s2 = typed s ++ [ch] /\ control s2 = control s) as (s2 & -> & T2 & C2).
  { unfold Input.enqueue_keyboard_byte. run. change (iq_keyboard_bytes (in_queue s1)) with (typed s). rewrite (proj2 (Nat.ltb_lt _ _)) by done. by eexists. }
  destruct (enqueue_typed (KeyboardChar ch) s2) as (s3 & -> & T3 & C3). exists s3. split; [done|]. split; congruence.
Qed.

(** The key for a character and whether shift is held, with the given caps lock. *)
Definition key_for (caps : bool) (c : Z) : option (Z * bool) :=
  List.find (fun '(k, shift) => bool_decide (Hid.keycode_to_char k shift false caps = Some c))
    (map (fun k => (Z.of_nat k, false)) (seq 4 53) ++ map (fun k => (Z.of_nat k, true)) (seq 4 53)).

Definition idle_report : HidKeyboardReport := mkKbReport 0 0 (replicate 6 0).

(** Press and release of one key. *)
Definition type_char (caps : bool) (c : Z) : list HidKeyboardReport :=
  match key_for caps c with
  | Some (k, shift) => [mkKbReport (if shift then 2 else 0) 0 (k :: replicate 5 0); idle_report]
  | None => []
  end.

Definition printable (c : Z) : Prop := 32 <= c <= 126 \/ c = 10.

(** What the tables say of a key that writes a character. *)
Definition plain_key (k : Z) : bool :=
  match Hid.keycode_to_pc_key k with
  | Some key => negb (k =? 0) && negb (Input.key_emits_terminal_sequence key) && negb (is_control key) && negb (bool_decide (key = KCapsLock))
  | None => false
  end.

Lemma key_for_spec caps c : printable c -> exists k shift, key_for caps c = Some (k, shift) /\ Hid.keycode_to_char k shift false caps = Some c /\ plain_key k = true.
Proof.
  intros Hc. assert (forallb (fun n => match key_for caps (Z.of_nat n) with Some (k, _) => plain_key k | None => false end) (10%nat :: seq 32 95) = true) as Hall by (destruct caps; vm_compute; reflexivity).
  rewrite forallb_forall in Hall. specialize (Hall (Z.to_nat c)). rewrite Z2Nat.id in Hall by (destruct Hc; lia).
  destruct (key_for caps c) as [[k shift]|] eqn:E; [|discriminate Hall; destruct Hc as [?| ->]; [right; apply in_seq; lia|by left]].
  exists k, shift. split; [done|]. split; [|apply Hall; destruct Hc as [?| ->]; [right; apply in_seq; lia|by left]].
  apply find_some in E as [_ E]. by apply bool_decide_eq_true_1 in E.
Qed.

Lemma plain_key_spec k : plain_key k = true -> exists key, Hid.keycode_to_pc_key k = Some key /\ k <> 0 /\ Input.key_emits_terminal_sequence key = false /\ is_control key = false /\ key <> KCapsLock.
Proof.
  unfold plain_key. destruct (Hid.keycode_to_pc_key k) as [key|]; [|done]. rewrite !andb_true_iff, !negb_true_iff. intros [[[H1%Z.eqb_neq H2] H3] H4%bool_decide_eq_false_1]. by exists key.
Qed.

Lemma modifiers_typed was is_ s : control s = false -> was = 0 \/ was = 2 -> is_ = 0 \/ is_ = 2 ->
  exists s', Hid.modifier_changes was is_ Hid.MODIFIERS s = Done ((), s') /\ typed s' = typed s /\ control s' = false.
Proof.
  intros Hc Hw Hi. assert (forall pressed, exists s', (Input.handle_keyboard_key LShift pressed;; mret ()) s = Done ((), s') /\ typed s' = typed s /\ control s' = false) as Hshift.
  { intros pressed. destruct (key_typed LShift pressed s) as (s' & E & T & C); [done|done|]. exists s'. unfold mbind, M_bind. by rewrite E. }
  assert (forall m : M InputState (), (mret () ≫= (fun _ => m)) = m) as Hret by done.
  destruct Hw as [->| ->], Hi as [->| ->]; unfold Hid.MODIFIERS; cbn [Hid.modifier_changes];
    repeat match goal with |- context [negb (Z.land ?a ?b =? 0)] => let v := eval vm_compute in (negb (Z.land a b =? 0)) in change (negb (Z.land a b =? 0)) with v end;
    cbn [Bool.eqb]; rewrite !Hret; [by exists s| | |by exists s]; (match goal with |- context [Input.handle_keyboard_key LShift ?b] => destruct (Hshift b) as (s' & E & T & C) end);
    exists s'; (split; [|done]); unfold mbind at 1, M_bind at 1; by rewrite E.
Qed.

Lemma zeros_released report l s : Forall (fun k => k = 0) l -> Hid.release_keys report l s = Done ((), s).
Proof. induction 1 as [|k l -> _ IH]; [done|]. cbn [Hid.release_keys Z.eqb negb andb]. exact IH. Qed.

Lemma zeros_pressed old modifier caps l s : Forall (fun k => k = 0) l -> Hid.press_keys old modifier caps l s = Done (caps, s).
Proof. induction 1 as [|k l -> _ IH]; [done|]. cbn [Hid.press_keys Z.eqb orb]. exact IH. Qed.

Lemma zeros n : Forall (fun k => k = 0) (replicate n 0).
Proof. by apply Forall_replicate. Qed.

(** Pressing a plain key types its character. *)
Lemma press_report k shift c st s : plain_key k = true -> Hid.keycode_to_char k shift false (hd_caps_lock st) = Some c -> c < 128 -> hd_keyboard st = idle_report ->
  control s = false -> (length (typed s) < KEYBOARD_BYTE_QUEUE_CAPACITY)%nat ->
  exists s', Hid.process_keyboard_report (mkKbReport (if shift then 2 else 0) 0 (k :: replicate 5 0)) (st, s) =
    Done ((), (st <| hd_keyboard := mkKbReport (if shift then 2 else 0) 0 (k :: replicate 5 0) |>, s')) /\ typed s' = typed s ++ [c] /\ control s' = false.
Proof.
  intros Hk Hch Hc Hst Hctrl Hroom. destruct (plain_key_spec k Hk) as (key & Ekey & Hk0 & Hseq & Hnc & Hcaps). unfold Hid.process_keyboard_report, Hid.dispatch_modifier_changes.
  rewrite Hst. cbn [kr_modifier kr_keycodes idle_report]. set (m := if shift then 2 else 0). assert (m = 0 \/ m = 2) as Hm by (subst m; destruct shift; auto).
  destruct (modifiers_typed 0 m s Hctrl (or_introl eq_refl) Hm) as (s1 & E1 & T1 & C1). unfold mbind, M_bind. rewrite E1, zeros_released by apply zeros.
  cbn [Hid.press_keys]. rewrite (proj2 (Z.eqb_neq k 0) Hk0). assert (Hid.has_key idle_report k = false) as Hnot by (cbn; by rewrite !(proj2 (Z.eqb_neq k 0) Hk0)).
  rewrite Hnot, Ekey, bool_decide_eq_false_2 by done. cbn [orb]. unfold mbind, M_bind.
  destruct (key_typed key true s1 Hseq) as (s2 & E2 & T2 & C2); [by rewrite Hnc|]. rewrite E2, Hseq. cbn [negb andb].
  replace (negb (Z.land m 34 =? 0)) with shift by (subst m; by destruct shift). replace (negb (Z.land m 17 =? 0)) with false by (subst m; by destruct shift). rewrite Hch.
  destruct (char_typed c s2 Hc) as (s3 & E3 & T3 & C3); [by rewrite T2, T1|]. rewrite E3, zeros_pressed by apply (zeros 5). exists s3. split; [|split; congruence].
  by destruct st.
Qed.

Lemma release_report k (shift : bool) st s : plain_key k = true -> hd_keyboard st = mkKbReport (if shift then 2 else 0) 0 (k :: replicate 5 0) -> control s = false ->
  exists s', Hid.process_keyboard_report idle_report (st, s) = Done ((), (st <| hd_keyboard := idle_report |>, s')) /\ typed s' = typed s /\ control s' = false.
Proof.
  intros Hk Hst Hctrl. destruct (plain_key_spec k Hk) as (key & Ekey & Hk0 & Hseq & Hnc & _). unfold Hid.process_keyboard_report, Hid.dispatch_modifier_changes.
  rewrite Hst. cbn [kr_modifier kr_keycodes]. set (m := if shift then 2 else 0). assert (m = 0 \/ m = 2) as Hm by (subst m; destruct shift; auto).
  change (kr_modifier idle_report) with 0. destruct (modifiers_typed m 0 s Hctrl Hm (or_introl eq_refl)) as (s1 & E1 & T1 & C1). unfold mbind, M_bind. rewrite E1.
  cbn [Hid.release_keys]. rewrite (proj2 (Z.eqb_neq k 0) Hk0). assert (Hid.has_key idle_report k = false) as Hnot by (cbn; by rewrite !(proj2 (Z.eqb_neq k 0) Hk0)).
  rewrite Hnot, Ekey. cbn [andb negb]. unfold mbind, M_bind. destruct (key_typed key false s1 Hseq) as (s2 & E2 & T2 & C2); [by rewrite Hnc|]. rewrite E2. cbv beta iota. unfold mret, M_ret.
  rewrite zeros_released by apply (zeros 5). rewrite zeros_pressed by apply (zeros 6). exists s2. split; [by destruct st|]. split; congruence.
Qed.

Fixpoint process_reports (l : list HidKeyboardReport) : M (HidInputState * InputState) () :=
  match l with [] => mret () | r :: l => Hid.process_keyboard_report r;; process_reports l end.

Lemma reports_app l l' x : process_reports (l ++ l') x = (process_reports l;; process_reports l') x.
Proof.
  revert x. induction l as [|r l IH]; intros x; [done|]. cbn [app process_reports]. unfold mbind, M_bind in *. destruct (Hid.process_keyboard_report r x) as [[? y]|]; [|done]. apply IH.
Qed.

Lemma type_text caps text : Forall printable text -> forall st s, hd_keyboard st = idle_report -> hd_caps_lock st = caps -> control s = false ->
  (length (typed s) + length text <= KEYBOARD_BYTE_QUEUE_CAPACITY)%nat ->
  exists s', process_reports (flat_map (type_char caps) text) (st, s) = Done ((), (st, s')) /\ typed s' = typed s ++ text /\ control s' = false.
Proof.
  induction 1 as [|c text Hc _ IH]; intros st s Hst Hcaps Hctrl Hroom; cbn [flat_map length] in *; [exists s; by rewrite app_nil_r|].
  destruct (key_for_spec caps c Hc) as (k & shift & Ek & Hch & Hk). rewrite reports_app. unfold type_char. rewrite Ek. cbn [process_reports]. unfold mbind, M_bind.
  destruct (press_report k shift c st s Hk) as (s1 & E1 & T1 & C1); [by rewrite Hcaps|destruct Hc; lia|done|done|lia|]. rewrite E1.
  destruct (release_report k shift (st <| hd_keyboard := mkKbReport (if shift then 2 else 0) 0 (k :: replicate 5 0) |>) s1 Hk) as (s2 & E2 & T2 & C2); [by destruct st|done|]. rewrite E2. unfold mret, M_ret.
  assert (st <| hd_keyboard := mkKbReport (if shift then 2 else 0) 0 (k :: replicate 5 0) |> <| hd_keyboard := idle_report |> = st) as -> by (destruct st; cbn in *; by rewrite Hst).
  destruct (IH st s2 Hst Hcaps C2) as (s3 & E3 & T3 & C3); [rewrite T2, T1, length_app; cbn; lia|]. exists s3. split; [exact E3|]. split; [|done]. rewrite T3, T2, T1, <-app_assoc. done.
Qed.

(** The terminal reads [n] bytes. *)
Fixpoint read_bytes (n : nat) : M InputState (list (option Z)) :=
  match n with O => mret [] | S n => b ← Input.dequeue_keyboard_byte; bs ← read_bytes n; mret (b :: bs) end.

Lemma read_typed text : forall s, typed s = text -> exists s', read_bytes (length text) s = Done (map Some text, s').
Proof.
  induction text as [|c text IH]; intros s Hs; [by exists s|]. cbn [length read_bytes]. unfold Input.dequeue_keyboard_byte. unfold mbind, M_bind, get, Input.on_queue, modify, mret, M_ret. cbv beta iota.
  unfold typed in Hs. rewrite Hs. destruct (IH (s <| in_queue ::= (fun q => q <| iq_keyboard_bytes ::= tail |>) |>)) as (s' & E); [unfold typed; cbn; by rewrite Hs|]. rewrite E. by exists s'.
Qed.

(** What is typed is read.  Any text of printable characters and newlines can
    be typed on a USB keyboard, with caps lock on or off, and the terminal then
    reads exactly that text; the keyboard is idle again afterwards. *)
Theorem typed_text_read (caps : bool) (text : bytes) : Forall printable text -> (length text <= 512)%nat ->
  exists s s', process_reports (flat_map (type_char caps) text) (Hid.new <| hd_caps_lock := caps |>, input_new) = Done ((), (Hid.new <| hd_caps_lock := caps |>, s)) /\
    read_bytes (length text) s = Done (map Some text, s').
Proof.
  intros Ht Hl. destruct (type_text caps text Ht (Hid.new <| hd_caps_lock := caps |>) input_new) as (s & E & T & _); [done..|].
  destruct (read_typed text s T) as (s' & E'). by exists s, s'.
Qed.

Lemma typed_text_read_witness : exists s s', process_reports (flat_map (type_char true) (str "Hi ~1{")) (Hid.new <| hd_caps_lock := true |>, input_new) =
    Done ((), (Hid.new <| hd_caps_lock := true |>, s)) /\ read_bytes 6 s = Done (map Some (str "Hi ~1{"), s').
Proof.
  apply (typed_text_read true (str "Hi ~1{")); [|cbn; lia]. cbn. repeat (apply Forall_cons_2; [left; lia|]). apply Forall_nil_2.
Defined.
