(* ===== verification/Screen.v ===== *)
(** * The text screen (vga_buffer.rs)

    The writer keeps the last line as its input line, scrolls, and draws two
    cursors into the frame buffer: the blinking text cursor and the mouse
    pointer, saving what they cover.  The frame buffer is a function of row and
    column; an access outside of it panics. *)

From S2P Require Import Prelude Utf8.

Inductive Color :=
| Black | Blue | Green | Cyan | Red | Magenta | Brown | LightGray | DarkGray | LightBlue | LightGreen | LightCyan | LightRed | Pink | Yellow | White.

Definition color_byte (c : Color) : Z :=
  match c with
  | Black => 0 | Blue => 1 | Green => 2 | Cyan => 3 | Red => 4 | Magenta => 5 | Brown => 6 | LightGray => 7 | DarkGray => 8
  | LightBlue => 9 | LightGreen => 10 | LightCyan => 11 | LightRed => 12 | Pink => 13 | Yellow => 14 | White => 15
  end.

(** [ColorCode::new] *)
Definition color_code (foreground background : Color) : Z := Z.lor (Z.shiftl (color_byte background) 4) (color_byte foreground).

Record ScreenChar := mkChar { sc_ascii_character : Z; sc_color_code : Z }.

Definition BUFFER_HEIGHT : nat := 25.
Definition BUFFER_WIDTH : nat := 80.
Definition TEXT_CURSOR_BLINK_TICKS : Z := 100 / 2.

Record Writer := mkWriter {
  wr_column_position : nat; wr_color_code : Z; wr_buffer : nat -> nat -> ScreenChar;
  wr_mouse_visible : bool; wr_mouse_row : nat; wr_mouse_col : nat; wr_original : ScreenChar;
  wr_text_cursor_visible : bool; wr_text_cursor_row : nat; wr_text_cursor_col : nat; wr_text_cursor_original : ScreenChar;
  wr_text_cursor_blink_on : bool; wr_text_cursor_last_blink_tick : Z }.
#[export] Instance eta_writer : Eta Writer := fun r =>
  mkWriter (wr_column_position r) (wr_color_code r) (wr_buffer r) (wr_mouse_visible r) (wr_mouse_row r) (wr_mouse_col r) (wr_original r)
    (wr_text_cursor_visible r) (wr_text_cursor_row r) (wr_text_cursor_col r) (wr_text_cursor_original r) (wr_text_cursor_blink_on r)
    (wr_text_cursor_last_blink_tick r).

Module Vga.

(** [WRITER]; [screen] is what the frame buffer holds at boot. *)
Definition new (screen : nat -> nat -> ScreenChar) : Writer :=
  let blank := mkChar 32 (color_code Yellow Black) in
  mkWriter 0 (color_code Yellow Black) screen false 0 0 blank false (BUFFER_HEIGHT - 1) 0 blank true 0.

Definition in_buffer (row col : nat) : bool := (row <? BUFFER_HEIGHT)%nat && (col <? BUFFER_WIDTH)%nat.

(** [self.buffer.chars[row][col].read()] and [.write(character)] *)
Definition read (row col : nat) : M Writer ScreenChar :=
  w ← get; if in_buffer row col then mret (wr_buffer w row col) else panic.

Definition at_cell (row col : nat) (v : ScreenChar) (b : nat -> nat -> ScreenChar) : nat -> nat -> ScreenChar :=
  fun r c => if (r =? row)%nat && (c =? col)%nat then v else b r c.

Definition write (row col : nat) (character : ScreenChar) : M Writer () :=
  if in_buffer row col then modify (fun w => w <| wr_buffer ::= at_cell row col character |>) else panic.

(** ** The cursors *)

Definition suspend_mouse_cursor : M Writer (option (nat * nat)) :=
  w ← get;
  if negb (wr_mouse_visible w) then mret None else
  write (wr_mouse_row w) (wr_mouse_col w) (wr_original w);;
  modify (fun w => w <| wr_mouse_visible := false |>);;
  mret (Some (wr_mouse_col w, wr_mouse_row w)).

Definition draw_mouse_cursor (col row : nat) : M Writer () :=
  if (BUFFER_WIDTH <=? col)%nat || (BUFFER_HEIGHT <=? row)%nat then mret () else
  w ← get;
  (if wr_mouse_visible w then write (wr_mouse_row w) (wr_mouse_col w) (wr_original w) else mret ());;
  original ← read row col;
  modify (fun w => w <| wr_original := original |>);;
  write row col (mkChar 42 (color_code White Red));;
  modify (fun w => w <| wr_mouse_visible := true |> <| wr_mouse_row := row |> <| wr_mouse_col := col |>).

Definition clear_mouse_cursor : M Writer () := suspend_mouse_cursor;; mret ().

Definition resume_mouse_cursor (position : option (nat * nat)) : M Writer () :=
  match position with Some (col, row) => draw_mouse_cursor col row | None => mret () end.

Definition show_text_cursor : M Writer () :=
  w ← get;
  if negb (wr_text_cursor_blink_on w) || wr_text_cursor_visible w then mret () else
  let row := (BUFFER_HEIGHT - 1)%nat in
  let col := Nat.min (wr_column_position w) (BUFFER_WIDTH - 1) in
  original ← read row col;
  modify (fun w => w <| wr_text_cursor_original := original |> <| wr_text_cursor_row := row |> <| wr_text_cursor_col := col |>);;
  write row col (mkChar (sc_ascii_character original) (color_code Black Yellow));;
  modify (fun w => w <| wr_text_cursor_visible := true |>).

Definition hide_text_cursor : M Writer () :=
  w ← get;
  if negb (wr_text_cursor_visible w) then mret () else
  write (wr_text_cursor_row w) (wr_text_cursor_col w) (wr_text_cursor_original w);;
  modify (fun w => w <| wr_text_cursor_visible := false |>).

(** [now] is [timer::ticks()]. *)
Definition reset_text_cursor_blink (now : Z) : M Writer () :=
  modify (fun w => w <| wr_text_cursor_blink_on := true |> <| wr_text_cursor_last_blink_tick := now |>).

Definition update_text_cursor_blink (ticks : Z) : M Writer () :=
  w ← get;
  if saturating_sub ticks (wr_text_cursor_last_blink_tick w) <? TEXT_CURSOR_BLINK_TICKS then mret () else
  mouse ← suspend_mouse_cursor;
  modify (fun w => w <| wr_text_cursor_last_blink_tick := ticks |>);;
  w ← get;
  (if wr_text_cursor_visible w
   then hide_text_cursor;; modify (fun w => w <| wr_text_cursor_blink_on := false |>)
   else modify (fun w => w <| wr_text_cursor_blink_on := true |>);; show_text_cursor);;
  resume_mouse_cursor mouse.

(** ** Text *)

Fixpoint for_each {A} (f : A -> M Writer ()) (l : list A) : M Writer () :=
  match l with [] => mret () | x :: l => f x;; for_each f l end.

Definition clear_row (row : nat) : M Writer () :=
  w ← get;
  for_each (fun col => write row col (mkChar 32 (wr_color_code w))) (seq 0 BUFFER_WIDTH).

Definition new_line : M Writer () :=
  for_each (fun row => for_each (fun col => character ← read row col; write (row - 1) col character) (seq 0 BUFFER_WIDTH)) (seq 1 (BUFFER_HEIGHT - 1));;
  clear_row (BUFFER_HEIGHT - 1);;
  modify (fun w => w <| wr_column_position := 0%nat |>).

Definition backspace : M Writer () :=
  w ← get;
  if (wr_column_position w =? 0)%nat then mret () else modify (fun w => w <| wr_column_position ::= Nat.pred |>).

(** The part of [write_byte] between hiding and showing the cursors. *)
Definition put_byte (byte : Z) : M Writer () :=
  if byte =? 10 then new_line else
  if byte =? 8 then backspace else
  w ← get;
  (if (BUFFER_WIDTH <=? wr_column_position w)%nat then new_line else mret ());;
  w ← get;
  write (BUFFER_HEIGHT - 1) (wr_column_position w) (mkChar byte (wr_color_code w));;
  modify (fun w => w <| wr_column_position ::= S |>).

Definition write_byte (now byte : Z) : M Writer () :=
  mouse ← suspend_mouse_cursor;
  hide_text_cursor;;
  put_byte byte;;
  reset_text_cursor_blink now;;
  show_text_cursor;;
  resume_mouse_cursor mouse.

Definition printable (byte : Z) : bool := (0x20 <=? byte) && (byte <=? 0x7e).

Definition write_string (now : Z) (s : bytes) : M Writer () :=
  for_each (fun byte => if printable byte || (byte =? 10) || (byte =? 8) then write_byte now byte else write_byte now 0xfe) s.

Definition set_color (foreground background : Color) : M Writer () :=
  mouse ← suspend_mouse_cursor;
  hide_text_cursor;;
  modify (fun w => w <| wr_color_code := color_code foreground background |>);;
  show_text_cursor;;
  resume_mouse_cursor mouse.

Definition clear_screen : M Writer () :=
  mouse ← suspend_mouse_cursor;
  hide_text_cursor;;
  for_each clear_row (seq 0 BUFFER_HEIGHT);;
  modify (fun w => w <| wr_column_position := 0%nat |>);;
  show_text_cursor;;
  resume_mouse_cursor mouse.

Definition erase_previous (now : Z) : M Writer () :=
  mouse ← suspend_mouse_cursor;
  hide_text_cursor;;
  backspace;;
  w ← get;
  write (BUFFER_HEIGHT - 1) (wr_column_position w) (mkChar 32 (wr_color_code w));;
  reset_text_cursor_blink now;;
  show_text_cursor;;
  resume_mouse_cursor mouse.

Definition write_at (row col : nat) (byte : Z) (foreground background : Color) : M Writer () :=
  if (BUFFER_HEIGHT <=? row)%nat || (BUFFER_WIDTH <=? col)%nat then mret () else
  mouse ← suspend_mouse_cursor;
  hide_text_cursor;;
  write row col (mkChar (if printable byte then byte else 0xfe) (color_code foreground background));;
  show_text_cursor;;
  resume_mouse_cursor mouse.

(** [LineWriter::write_str] *)
Fixpoint line_write_str (row : nat) (s : bytes) : M Writer () :=
  match s with
  | [] => mret ()
  | byte :: s =>
    w ← get;
    if (BUFFER_WIDTH <=? wr_column_position w)%nat then mret () else
    write row (wr_column_position w) (mkChar (if printable byte then byte else 0xfe) (color_code LightCyan Black));;
    modify (fun w => w <| wr_column_position ::= S |>);;
    line_write_str row s
  end.

(** [args] is the formatted text. *)
Definition write_status_line (row : nat) (args : bytes) : M Writer () :=
  if (BUFFER_HEIGHT <=? row)%nat then mret () else
  mouse ← suspend_mouse_cursor;
  hide_text_cursor;;
  w ← get;
  let saved_column := wr_column_position w in
  clear_row row;;
  modify (fun w => w <| wr_column_position := 0%nat |>);;
  line_write_str row args;;
  modify (fun w => w <| wr_column_position := saved_column |>);;
  show_text_cursor;;
  resume_mouse_cursor mouse.

End Vga.
