(* ===== verification/ScreenProofs.v ===== *)
(** * The screen shows the text

    [Page] is a terminal without cursors, [Cursors] says where the cursors are.  The
    frame buffer always shows the page with the text cursor and then the mouse
    pointer drawn over it. *)

From S2P Require Import Prelude Utf8 Screen.

(** ** The terminal *)

Record Page := mkPage { pa_cells : nat -> nat -> ScreenChar; pa_column : nat; pa_color : Z }.
#[export] Instance eta_page : Eta Page := fun r => mkPage (pa_cells r) (pa_column r) (pa_color r).

Definition blank (p : Page) : ScreenChar := mkChar 32 (pa_color p).

(** Lines move up by one; the last is empty. *)
Definition scroll (p : Page) : Page :=
  p <| pa_cells := fun r c => if (r <? 24)%nat then pa_cells p (S r) c else blank p |> <| pa_column := 0%nat |>.

Definition put_cell (row col : nat) (v : ScreenChar) (p : Page) : Page := 
  p <| pa_cells ::= fun cells r c => if (r =? row)%nat && (c =? col)%nat then v else cells r c |>.

Definition type_byte (byte : Z) (p : Page) : Page :=
  if byte =? 10 then scroll p else
  if byte =? 8 then p <| pa_column ::= Nat.pred |> else
  let p := if (80 <=? pa_column p)%nat then scroll p else p in
  put_cell 24 (pa_column p) (mkChar byte (pa_color p)) p <| pa_column ::= S |>.

(** Printable ASCII as it is, anything else as a block. *)
Definition visible (byte : Z) : Z := if (32 <=? byte) && (byte <=? 126) then byte else 254.

(** The attribute byte of the VGA text mode: the background above the foreground. *)
Definition hue (c : Color) : Z :=
  match c with
  | Black => 0 | Blue => 1 | Green => 2 | Cyan => 3 | Red => 4 | Magenta => 5 | Brown => 6 | LightGray => 7
  | DarkGray => 8 | LightBlue => 9 | LightGreen => 10 | LightCyan => 11 | LightRed => 12 | Pink => 13 | Yellow => 14 | White => 15
  end.

Definition attribute (foreground background : Color) : Z := 16 * hue background + hue foreground.

Inductive screen_op :=
| WriteString (now : Z) (s : bytes) | SetColor (foreground background : Color) | ClearScreen | Erase (now : Z) | Back
| WriteAt (row col : nat) (byte : Z) (foreground background : Color) | StatusLine (row : nat) (text : bytes)
| DrawMouse (col row : nat) | ClearMouse | Blink (ticks : Z).

Definition page_op (op : screen_op) (p : Page) : Page :=
  match op with
  | WriteString _ s => fold_left (fun p b => type_byte (if (b =? 10) || (b =? 8) then b else visible b) p) s p
  | SetColor f b => p <| pa_color := attribute f b |>
  | ClearScreen => p <| pa_cells := fun _ _ => blank p |> <| pa_column := 0%nat |>
  | Erase _ => put_cell 24 (Nat.pred (pa_column p)) (blank p) p <| pa_column ::= Nat.pred |>
  | Back => p <| pa_column ::= Nat.pred |>
  | WriteAt row col byte f b => put_cell row col (mkChar (visible byte) (attribute f b)) p
  | StatusLine row text => p <| pa_cells ::= fun cells r c =>
      if (r =? row)%nat then match text !! c with Some b => mkChar (visible b) (attribute LightCyan Black) | None => blank p end else cells r c |>
  | DrawMouse _ _ | ClearMouse | Blink _ => p
  end.

(** Where the mouse pointer and the text cursor are drawn, whether the text cursor
    is in the bright phase of its blinking, and since when. *)
Record Cursors := mkCursors { cu_pointer : option (nat * nat); cu_text : option (nat * nat); cu_bright : bool; cu_since : Z }.
#[export] Instance eta_cursors : Eta Cursors := fun r => mkCursors (cu_pointer r) (cu_text r) (cu_bright r) (cu_since r).

(** In its bright phase the text cursor is drawn in the last row, behind the text. *)
Definition text_cursor (column : nat) (k : Cursors) : Cursors :=
  k <| cu_text := if cu_bright k then Some (24, Nat.min column 79)%nat else None |>.

Definition awake (now : Z) (k : Cursors) : Cursors := k <| cu_bright := true |> <| cu_since := now |>.

(** [column] is the column of the page after the operation. *)
Definition cursor_op (op : screen_op) (column : nat) (k : Cursors) : Cursors :=
  match op with
  | WriteString now s => match s with [] => k | _ => text_cursor column (awake now k) end
  | Erase now => text_cursor column (awake now k)
  | SetColor _ _ | ClearScreen => text_cursor column k
  | Back => k
  | WriteAt row col _ _ _ => if (row <? 25)%nat && (col <? 80)%nat then text_cursor column k else k
  | StatusLine row _ => if (row <? 25)%nat then text_cursor column k else k
  | DrawMouse col row => if (row <? 25)%nat && (col <? 80)%nat then k <| cu_pointer := Some (row, col) |> else k
  | ClearMouse => k <| cu_pointer := None |>
  | Blink ticks =>
    if ticks - cu_since k <? 50 then k else
    match cu_text k with
    | Some _ => k <| cu_text := None |> <| cu_bright := false |> <| cu_since := ticks |>
    | None => text_cursor column (awake ticks k)
    end
  end.

(** The page with its cursors. *)
Definition picture (p : Page) (k : Cursors) (r c : nat) : ScreenChar :=
  if bool_decide (cu_pointer k = Some (r, c)) then mkChar 42 (attribute White Red) else
  if bool_decide (cu_text k = Some (r, c)) then mkChar (sc_ascii_character (pa_cells p r c)) (attribute Black Yellow) else pa_cells p r c.

Definition terminal_op (s : Page * Cursors) (op : screen_op) : Page * Cursors :=
  let p := page_op op s.1 in (p, cursor_op op (pa_column p) s.2).

Definition run_op (op : screen_op) : M Writer () :=
  match op with
  | WriteString now s => Vga.write_string now s
  | SetColor f b => Vga.set_color f b
  | ClearScreen => Vga.clear_screen
  | Erase now => Vga.erase_previous now
  | Back => Vga.backspace
  | WriteAt row col byte f b => Vga.write_at row col byte f b
  | StatusLine row text => Vga.write_status_line row text
  | DrawMouse col row => Vga.draw_mouse_cursor col row
  | ClearMouse => Vga.clear_mouse_cursor
  | Blink ticks => Vga.update_text_cursor_blink ticks
  end.

(** ** What the frame buffer shows *)

Definition here (b : bool) (row col r c : nat) : bool := b && (r =? row)%nat && (c =? col)%nat.

(** The page with the text cursor. *)
Definition under (w : Writer) (p : Page) (r c : nat) : ScreenChar :=
  if here (wr_text_cursor_visible w) (wr_text_cursor_row w) (wr_text_cursor_col w) r c
  then mkChar (sc_ascii_character (pa_cells p r c)) (attribute Black Yellow) else pa_cells p r c.

Definition display (w : Writer) (p : Page) (r c : nat) : ScreenChar :=
  if here (wr_mouse_visible w) (wr_mouse_row w) (wr_mouse_col w) r c then mkChar 42 (attribute White Red) else under w p r c.

Definition inside (r c : nat) : Prop := (r < 25)%nat /\ (c < 80)%nat.

Record shows (w : Writer) (p : Page) : Prop := {
  sh_column : wr_column_position w = pa_column p;
  sh_color : wr_color_code w = pa_color p;
  sh_bound : (pa_column p <= 80)%nat;
  sh_mouse : wr_mouse_visible w = true -> inside (wr_mouse_row w) (wr_mouse_col w) /\ wr_original w = under w p (wr_mouse_row w) (wr_mouse_col w);
  sh_cursor : wr_text_cursor_visible w = true -> inside (wr_text_cursor_row w) (wr_text_cursor_col w) /\
    wr_text_cursor_original w = pa_cells p (wr_text_cursor_row w) (wr_text_cursor_col w);
  sh_cells : forall r c, inside r c -> wr_buffer w r c = display w p r c;
}.

Definition bare (w : Writer) : Prop := wr_mouse_visible w = false /\ wr_text_cursor_visible w = false.

Lemma color_code_attribute f b : color_code f b = attribute f b.
Proof. by destruct f, b. Qed.

Lemma in_buffer_inside r c : Vga.in_buffer r c = true <-> inside r c.
Proof. unfold Vga.in_buffer, inside. rewrite andb_true_iff, !Nat.ltb_lt. done. Qed.

Lemma here_spec b row col r c : here b row col r c = true <-> b = true /\ r = row /\ c = col.
Proof. unfold here. rewrite !andb_true_iff, !Nat.eqb_eq. tauto. Qed.

Lemma wp_read row col (Q : ScreenChar -> Writer -> Prop) w : inside row col -> Q (wr_buffer w row col) w -> wp (Vga.read row col) Q w.
Proof. intros Hi HQ. unfold Vga.read, wp. run. by rewrite (proj2 (in_buffer_inside _ _) Hi). Qed.

Lemma wp_write row col v (Q : () -> Writer -> Prop) w : inside row col -> Q () (w <| wr_buffer ::= Vga.at_cell row col v |>) -> wp (Vga.write row col v) Q w.
Proof. intros Hi HQ. unfold Vga.write. by rewrite (proj2 (in_buffer_inside _ _) Hi). Qed.

Lemma wp_modify f (Q : () -> Writer -> Prop) w : wp (modify f) Q w <-> Q () (f w).
Proof. done. Qed.
Lemma wp_get (Q : Writer -> Writer -> Prop) w : wp get Q w <-> Q w w.
Proof. done. Qed.

Lemma at_cell_here row col v b r c : Vga.at_cell row col v b r c = if here true row col r c then v else b r c.
Proof. done. Qed.

Lemma put_cell_here row col v p r c : pa_cells (put_cell row col v p) r c = if here true row col r c then v else pa_cells p r c.
Proof. done. Qed.

Lemma here_false row col r c : here false row col r c = false.
Proof. done. Qed.

Ltac cells := repeat match goal with
  | |- context [here ?b ?row ?col ?r ?c] => let E := fresh "Eh" in destruct (here b row col r c) eqn:E
  end; repeat match goal with
  | H : here _ _ _ _ _ = true |- _ => apply here_spec in H as (? & -> & ->)
  | H : here _ _ _ _ _ = true |- _ => apply here_spec in H as (? & ? & ?); subst
  end.

(** ** The cursors come and go *)

Lemma wp_suspend w p (Q : option (nat * nat) -> Writer -> Prop) : shows w p ->
  (forall pos w', shows w' p -> wr_mouse_visible w' = false -> wr_text_cursor_visible w' = wr_text_cursor_visible w ->
     wr_text_cursor_blink_on w' = wr_text_cursor_blink_on w -> Q pos w') -> wp Vga.suspend_mouse_cursor Q w.
Proof.
  intros Hs HQ. pose proof Hs as [S1 S2 S3 S4 S5 S6]. unfold Vga.suspend_mouse_cursor. rewrite wp_bind, wp_get. destruct (wr_mouse_visible w) eqn:Em; cbn [negb].
  - destruct (S4 eq_refl) as [Hi Eo]. rewrite wp_bind. apply wp_write; [done|]. rewrite wp_bind, wp_modify, wp_ret. apply HQ; [|done..]. split; try done.
    intros r c Hrc. cbn [wr_buffer set]. rewrite at_cell_here. unfold display. cbn [wr_mouse_visible set]. rewrite here_false.
    destruct (here true (wr_mouse_row w) (wr_mouse_col w) r c) eqn:Eh; [apply here_spec in Eh as (_ & -> & ->); exact Eo|]. rewrite S6 by done. unfold display. by rewrite Em, Eh.
  - rewrite wp_ret. by apply HQ.
Qed.

Lemma wp_hide w p (Q : () -> Writer -> Prop) : shows w p -> wr_mouse_visible w = false ->
  (forall w', shows w' p -> bare w' -> wr_text_cursor_blink_on w' = wr_text_cursor_blink_on w -> Q () w') -> wp Vga.hide_text_cursor Q w.
Proof.
  intros Hs Em HQ. pose proof Hs as [S1 S2 S3 S4 S5 S6]. unfold Vga.hide_text_cursor. rewrite wp_bind, wp_get. destruct (wr_text_cursor_visible w) eqn:Et; cbn [negb].
  - destruct (S5 eq_refl) as [Hi Eo]. rewrite wp_bind. apply wp_write; [done|]. rewrite wp_modify. apply HQ; [|by split|done]. split; try done.
    + intros Hm. change (wr_mouse_visible w = true) in Hm. congruence.
    + intros r c Hrc. cbn [wr_buffer set]. rewrite at_cell_here. unfold display, under. cbn [wr_mouse_visible wr_text_cursor_visible set]. rewrite Em, !here_false.
      destruct (here true (wr_text_cursor_row w) (wr_text_cursor_col w) r c) eqn:Eh; [apply here_spec in Eh as (_ & -> & ->); exact Eo|]. rewrite S6 by done. unfold display, under. by rewrite Em, here_false, Et, Eh.
  - rewrite wp_ret. by apply HQ.
Qed.

Lemma wp_show w p (Q : () -> Writer -> Prop) : shows w p -> wr_mouse_visible w = false ->
  (forall w', shows w' p -> wr_mouse_visible w' = false -> Q () w') -> wp Vga.show_text_cursor Q w.
Proof.
  intros Hs Em HQ. pose proof Hs as [S1 S2 S3 S4 S5 S6]. unfold Vga.show_text_cursor. rewrite wp_bind, wp_get.
  destruct (negb (wr_text_cursor_blink_on w) || wr_text_cursor_visible w) eqn:Eb; [rewrite wp_ret; by apply HQ|]. apply orb_false_iff in Eb as [_ Et]. cbv zeta.
  set (col := Nat.min (wr_column_position w) (BUFFER_WIDTH - 1)). assert (inside 24 col) as Hi by (unfold inside, col, BUFFER_WIDTH; lia).
  rewrite wp_bind. apply wp_read; [done|]. rewrite wp_bind, wp_modify, wp_bind. apply wp_write; [done|]. rewrite wp_modify.
  assert (wr_buffer w 24 col = pa_cells p 24 col) as E by (rewrite S6 by done; unfold display, under; by rewrite Em, Et, !here_false).
  apply HQ; [|exact Em]. split; try done.
  - intros Hm. change (wr_mouse_visible w = true) in Hm. congruence.
  - intros r c Hrc. cbn [wr_buffer set]. rewrite at_cell_here. unfold display, under. cbn [wr_mouse_visible wr_text_cursor_visible wr_text_cursor_row wr_text_cursor_col set]. rewrite Em, here_false.
    destruct (here true (BUFFER_HEIGHT - 1) col r c) eqn:Eh; [apply here_spec in Eh as (_ & -> & ->); change (BUFFER_HEIGHT - 1)%nat with 24%nat; by rewrite E|].
    rewrite S6 by done. unfold display, under. by rewrite Em, Et, !here_false.
Qed.

Lemma wp_draw w p col row (Q : () -> Writer -> Prop) : shows w p -> (forall w', shows w' p -> Q () w') -> wp (Vga.draw_mouse_cursor col row) Q w.
Proof.
  intros Hs HQ. unfold Vga.draw_mouse_cursor. destruct (_ || _) eqn:Eo; [rewrite wp_ret; by apply HQ|]. apply orb_false_iff in Eo as [Hc%Nat.leb_gt Hr%Nat.leb_gt].
  assert (inside row col) as Hi by done. rewrite wp_bind, wp_get, wp_bind. pose proof Hs as [S1 S2 S3 S4 S5 S6].
  assert (wp (if wr_mouse_visible w then Vga.write (wr_mouse_row w) (wr_mouse_col w) (wr_original w) else mret ())
    (fun _ w1 => exists b, w1 = w <| wr_buffer := b |> /\ forall r c, inside r c -> b r c = under w p r c) w) as Hrest.
  { destruct (wr_mouse_visible w) eqn:Em.
    - destruct (S4 eq_refl) as [Hm Eo]. apply wp_write; [done|]. eexists. split; [reflexivity|]. intros r c Hrc. rewrite at_cell_here.
      destruct (here true (wr_mouse_row w) (wr_mouse_col w) r c) eqn:Eh; [apply here_spec in Eh as (_ & -> & ->); exact Eo|]. rewrite S6 by done. unfold display. by rewrite Em, Eh.
    - rewrite wp_ret. exists (wr_buffer w). split; [by destruct w|]. intros r c Hrc. rewrite S6 by done. unfold display. by rewrite Em, here_false. }
  eapply wp_mono; [exact Hrest|]. intros [] w1 (b & -> & Hb). rewrite wp_bind. apply wp_read; [done|]. rewrite wp_bind, wp_modify, wp_bind. apply wp_write; [done|]. rewrite wp_modify. apply HQ.
  split; try done.
  - intros _. split; [done|]. exact (Hb row col Hi).
  - intros r c Hrc. cbn [wr_buffer set]. rewrite at_cell_here. unfold display. cbn [wr_mouse_visible wr_mouse_row wr_mouse_col set].
    destruct (here true row col r c) eqn:Eh; [done|]. exact (Hb r c Hrc).
Qed.

Lemma wp_resume w p pos (Q : () -> Writer -> Prop) : shows w p -> (forall w', shows w' p -> Q () w') -> wp (Vga.resume_mouse_cursor pos) Q w.
Proof. intros Hs HQ. unfold Vga.resume_mouse_cursor. destruct pos as [[col row]|]; [by apply (wp_draw w p)|]. rewrite wp_ret. by apply HQ. Qed.

(** ** Edits of a bare page *)

(** [m] changes the page as [f] does while no cursor is drawn. *)
Definition edits (m : M Writer ()) (f : Page -> Page) : Prop := forall w p, shows w p -> bare w -> wp m (fun _ w' => shows w' (f p) /\ bare w') w.

(** Hiding the cursors, and showing them again. *)
Lemma open_page (k : option (nat * nat) -> M Writer ()) w p (Q : () -> Writer -> Prop) : shows w p ->
  (forall mouse w1, shows w1 p -> bare w1 -> wp (k mouse) Q w1) -> wp (mouse ← Vga.suspend_mouse_cursor; Vga.hide_text_cursor;; k mouse) Q w.
Proof.
  intros Hs Hk. rewrite wp_bind. apply (wp_suspend w p); [done|]. intros pos w1 Hs1 Hm1 _ _. rewrite wp_bind. apply (wp_hide w1 p); [done|done|]. intros w2 Hs2 Hb2 _. by apply Hk.
Qed.

Lemma close_page mouse w p (Q : () -> Writer -> Prop) : shows w p -> bare w -> (forall w', shows w' p -> Q () w') -> wp (Vga.show_text_cursor;; Vga.resume_mouse_cursor mouse) Q w.
Proof. intros Hs [Hm _] HQ. rewrite wp_bind. apply (wp_show w p); [done|done|]. intros w1 Hs1 _. by apply (wp_resume w1 p). Qed.

Lemma edit_page m f (k : M Writer ()) w p (Q : () -> Writer -> Prop) : edits m f -> shows w p -> bare w -> (forall w', shows w' (f p) -> bare w' -> wp k Q w') -> wp (m;; k) Q w.
Proof. intros Hm Hs Hb Hk. rewrite wp_bind. eapply wp_mono; [by apply Hm|]. intros [] w' [Hs' Hb']. by apply Hk. Qed.

Lemma edits_bind m f m' f' : edits m f -> edits m' f' -> edits (m;; m') (fun p => f' (f p)).
Proof. intros Hm Hm' w p Hs Hb. rewrite wp_bind. eapply wp_mono; [by apply Hm|]. intros [] w' [Hs' Hb']. by apply Hm'. Qed.

Lemma bare_shows w p : bare w -> (wr_column_position w = pa_column p) -> wr_color_code w = pa_color p -> (pa_column p <= 80)%nat ->
  (forall r c, inside r c -> wr_buffer w r c = pa_cells p r c) -> shows w p.
Proof.
  intros [B1 B2] H1 H2 H3 H4. split; [done|done|done|by rewrite B1|by rewrite B2|]. intros r c Hrc. unfold display, under. rewrite B1, B2, !here_false. by apply H4.
Qed.

Lemma bare_cells w p r c : shows w p -> bare w -> inside r c -> wr_buffer w r c = pa_cells p r c.
Proof. intros Hs [B1 B2] Hrc. rewrite (sh_cells _ _ Hs) by done. unfold display, under. by rewrite B1, B2, !here_false. Qed.

(** Loops that write the frame buffer only; [b'] is the buffer afterwards. *)
Definition writes (m : M Writer ()) (w : Writer) (b' : nat -> nat -> ScreenChar) : Prop :=
  wp m (fun _ w' => exists b, w' = w <| wr_buffer := b |> /\ forall r c, b r c = b' r c) w.

Definition between (i n c : nat) : bool := (i <=? c)%nat && (c <? i + n)%nat.

Lemma between_step i n c : between i (S n) c = (c =? i)%nat || between (S i) n c.
Proof. unfold between. destruct (Nat.leb_spec i c), (Nat.ltb_spec c (i + S n)), (Nat.eqb_spec c i), (Nat.leb_spec (S i) c), (Nat.ltb_spec c (S i + n)); cbn; try done; lia. Qed.

Lemma between_in c : (c < 80)%nat -> between 0 80 c = true.
Proof. intros Hc. apply andb_true_iff. split; [by apply Nat.leb_le; lia|by apply Nat.ltb_lt; lia]. Qed.

Lemma fill_loop row v n : forall i w, (row < 25)%nat -> (i + n <= 80)%nat ->
  writes (Vga.for_each (fun col => Vga.write row col v) (seq i n)) w (fun r c => if (r =? row)%nat && between i n c then v else wr_buffer w r c).
Proof.
  induction n as [|n IH]; intros i w Hr Hi; cbn [seq Vga.for_each].
  - unfold writes. rewrite wp_ret. exists (wr_buffer w). split; [by destruct w|]. intros r c. unfold between. destruct (Nat.leb_spec i c), (Nat.ltb_spec c (i + 0)); cbn; rewrite ?andb_false_r; try done. lia.
  - unfold writes. rewrite wp_bind. apply wp_write; [split; lia|]. eapply wp_mono; [apply (IH (S i)); lia|]. intros [] w' (b & -> & Hb). exists b. split; [by destruct w|]. intros r c. rewrite Hb, between_step.
    cbn [wr_buffer set]. unfold Vga.at_cell. destruct (r =? row)%nat, (c =? i)%nat; cbn; by destruct (between (S i) n c).
Qed.

Lemma copy_loop row n : forall i w, (1 <= row < 25)%nat -> (i + n <= 80)%nat ->
  writes (Vga.for_each (fun col => character ← Vga.read row col; Vga.write (row - 1) col character) (seq i n)) w
    (fun r c => if (r =? row - 1)%nat && between i n c then wr_buffer w row c else wr_buffer w r c).
Proof.
  induction n as [|n IH]; intros i w Hr Hi; cbn [seq Vga.for_each].
  - unfold writes. rewrite wp_ret. exists (wr_buffer w). split; [by destruct w|]. intros r c. unfold between. destruct (Nat.leb_spec i c), (Nat.ltb_spec c (i + 0)); cbn; rewrite ?andb_false_r; try done. lia.
  - unfold writes. rewrite wp_bind, wp_bind. apply wp_read; [split; lia|]. apply wp_write; [split; lia|]. eapply wp_mono; [apply (IH (S i)); lia|]. intros [] w' (b & -> & Hb). exists b. split; [by destruct w|].
    intros r c. rewrite Hb, between_step. cbn [wr_buffer set]. unfold Vga.at_cell. rewrite (proj2 (Nat.eqb_neq row (row - 1))) by lia. cbn [andb].
    destruct (r =? row - 1)%nat; cbn [andb]; [|done]. destruct (Nat.eqb_spec c i) as [->|]; cbn [orb]; by destruct (between (S i) n _).
Qed.

Lemma scroll_loop n : forall i w, (i + n < 25)%nat ->
  writes (Vga.for_each (fun row => Vga.for_each (fun col => character ← Vga.read row col; Vga.write (row - 1) col character) (seq 0 BUFFER_WIDTH)) (seq (S i) n)) w
    (fun r c => if between i n r && between 0 80 c then wr_buffer w (S r) c else wr_buffer w r c).
Proof.
  induction n as [|n IH]; intros i w Hi; cbn [seq Vga.for_each].
  - unfold writes. rewrite wp_ret. exists (wr_buffer w). split; [by destruct w|]. intros r c. unfold between at 1. destruct (Nat.leb_spec i r), (Nat.ltb_spec r (i + 0)); cbn; try done. lia.
  - unfold writes. rewrite wp_bind. eapply wp_mono; [apply (copy_loop (S i) 80 0); lia|]. intros [] w1 (b1 & -> & Hb1). eapply wp_mono; [apply (IH (S i)); lia|]. intros [] w' (b & -> & Hb). exists b. split; [by destruct w|].
    intros r c. rewrite Hb, (between_step i n r). cbn [wr_buffer set]. rewrite !Hb1. replace (S i - 1)%nat with i by lia.
    destruct (Nat.eqb_spec r i) as [->|Hne]; cbn [orb andb].
    + replace (between (S i) n i) with false by (symmetry; unfold between; destruct (Nat.leb_spec (S i) i); [lia|done]). cbn [andb]. by rewrite ?Nat.eqb_refl.
    + destruct (between (S i) n r) eqn:Er; cbn [andb]; [|done]. apply andb_true_iff in Er as [Er%Nat.leb_le _]. rewrite (proj2 (Nat.eqb_neq (S r) i)) by lia. cbn [andb]. done.
Qed.

Lemma for_each_nil {A} (f : A -> M Writer ()) : Vga.for_each f [] = mret ().
Proof. done. Qed.
Lemma for_each_cons {A} (f : A -> M Writer ()) x l : Vga.for_each f (x :: l) = (f x;; Vga.for_each f l).
Proof. done. Qed.
Local Opaque Vga.for_each.

Lemma writes_edits (m : Writer -> M Writer ()) (f : Page -> Page) (b' : Writer -> nat -> nat -> ScreenChar) : (forall w, writes (m w) w (b' w)) ->
  (forall p, pa_column (f p) = pa_column p /\ pa_color (f p) = pa_color p) ->
  (forall w p r c, (forall r c, inside r c -> wr_buffer w r c = pa_cells p r c) -> wr_color_code w = pa_color p -> inside r c -> b' w r c = pa_cells (f p) r c) ->
  edits (w ← get; m w) f.
Proof.
  intros Hm Hf Hb w p Hs Hbare. rewrite wp_bind, wp_get. eapply wp_mono; [apply Hm|]. intros [] w' (b & -> & Eb). destruct (Hf p) as [F1 F2]. split; [|exact Hbare].
  apply bare_shows; [exact Hbare|rewrite F1; apply (sh_column _ _ Hs)|rewrite F2; apply (sh_color _ _ Hs)|rewrite F1; apply (sh_bound _ _ Hs)|].
  intros r c Hrc. cbn [wr_buffer set]. rewrite Eb. apply Hb; [|apply (sh_color _ _ Hs)|done]. intros r0 c0 Hrc0. by apply bare_cells.
Qed.

Lemma clear_row_edits row : (row < 25)%nat -> edits (Vga.clear_row row) (fun p => p <| pa_cells := fun r c => if (r =? row)%nat then blank p else pa_cells p r c |>).
Proof.
  intros Hr. unfold Vga.clear_row. apply (writes_edits _ _ (fun w r c => if (r =? row)%nat && between 0 80 c then mkChar 32 (wr_color_code w) else wr_buffer w r c)).
  - intros w. by apply fill_loop.
  - done.
  - intros w p r c Hw Hc Hin. rewrite between_in by apply Hin. rewrite andb_true_r. cbn. unfold blank. rewrite <-Hc.
    destruct (r =? row)%nat eqn:E; [done|]. by apply Hw.
Qed.

Definition set_column (n : nat) (p : Page) : Page := p <| pa_column := n |>.

(** Assignments to the column. *)
Lemma column_edits f g : (forall w, f w = w <| wr_column_position := g (wr_column_position w) |>) -> (forall n, (n <= 80)%nat -> (g n <= 80)%nat) ->
  edits (modify f) (fun p => p <| pa_column ::= g |>).
Proof.
  intros Hf Hg w p Hs Hb. rewrite wp_modify, Hf. split; [|exact Hb]. pose proof Hs as [S1 S2 S3 _ _ _].
  apply bare_shows; [exact Hb|cbn; by rewrite S1|exact S2|cbn; by apply Hg|]. intros r c Hrc. exact (bare_cells w p r c Hs Hb Hrc).
Qed.

Lemma edits_ext m f f' : (forall p, f p = f' p) -> edits m f -> edits m f'.
Proof. intros E Hm w p Hs Hb. rewrite <-E. by apply Hm. Qed.

Lemma rows_edits : edits (Vga.for_each (fun row => Vga.for_each (fun col => character ← Vga.read row col; Vga.write (row - 1) col character) (seq 0 BUFFER_WIDTH)) (seq 1 (BUFFER_HEIGHT - 1)))
  (fun p => p <| pa_cells := fun r c => if (r <? 24)%nat then pa_cells p (S r) c else pa_cells p r c |>).
Proof.
  intros w p Hs Hb. change (BUFFER_HEIGHT - 1)%nat with 24%nat. pose proof (scroll_loop 24 0 w ltac:(lia)) as Hl. unfold writes in Hl. eapply wp_mono; [exact Hl|]. intros [] w' (b & -> & Eb). split; [|exact Hb]. pose proof Hs as [S1 S2 S3 _ _ _].
  apply bare_shows; [exact Hb|exact S1|exact S2|exact S3|]. intros r c Hrc. cbn [wr_buffer set pa_cells]. rewrite Eb. pose proof Hrc as [Hr Hc].
  rewrite between_in by done. change (between 0 24 r) with (r <? 24)%nat. rewrite andb_true_r.
  destruct (Nat.ltb_spec r 24) as [Hlt|]; [exact (bare_cells w p (S r) c Hs Hb (conj (ltac:(lia) : (S r < 25)%nat) Hc))|exact (bare_cells w p r c Hs Hb Hrc)].
Qed.

Lemma new_line_edits : edits Vga.new_line scroll.
Proof.
  unfold Vga.new_line. intros w p Hs Hb. rewrite wp_bind. eapply wp_mono; [exact (rows_edits w p Hs Hb)|]. intros [] w1 [Hs1 Hb1].
  rewrite wp_bind. eapply wp_mono; [apply clear_row_edits; [unfold BUFFER_HEIGHT; lia|exact Hs1|exact Hb1]|]. intros [] w2 [Hs2 Hb2].
  eapply wp_mono; [apply (column_edits _ (fun _ => 0%nat)); [done|lia|exact Hs2|exact Hb2]|]. intros [] w3 [[T1 T2 T3 T4 T5 T6] Hb3]. split; [|exact Hb3].
  apply bare_shows; [exact Hb3|exact T1|exact T2|exact T3|]. intros r c Hrc. rewrite T6 by done. unfold display, under. destruct Hb3 as [B1 B2]. rewrite B1, B2, !here_false. destruct Hrc as [Hr25 _]. clear - Hr25. unfold scroll, set. cbn [pa_cells pa_column pa_color]. change (BUFFER_HEIGHT - 1)%nat with 24%nat.
  destruct (Nat.eqb_spec r 24) as [->|Hr]; [done|]. destruct (Nat.ltb_spec r 24); [done|lia].
Qed.


Lemma cell_edits (row : nat) (col : nat -> nat) (v : Z -> ScreenChar) : (row < 25)%nat -> forall w p, shows w p -> bare w -> (col (pa_column p) < 80)%nat ->
  wp (w ← get; Vga.write row (col (wr_column_position w)) (v (wr_color_code w))) (fun _ w' => shows w' (put_cell row (col (pa_column p)) (v (pa_color p)) p) /\ bare w') w.
Proof.
  intros Hrow w p Hs Hb Hcol. pose proof Hs as [S1 S2 S3 _ _ _]. rewrite wp_bind, wp_get, S1, S2. apply wp_write; [by split|]. split; [|exact Hb].
  apply bare_shows; [exact Hb|exact S1|exact S2|exact S3|]. intros r c Hrc. rewrite put_cell_here. unfold set. cbn [wr_buffer]. rewrite at_cell_here.
  destruct (here true _ _ r c); [done|]. exact (bare_cells w p r c Hs Hb Hrc).
Qed.

Lemma backspace_edits : edits Vga.backspace (fun p => p <| pa_column ::= Nat.pred |>).
Proof.
  intros w p Hs Hb. unfold Vga.backspace. rewrite wp_bind, wp_get. destruct (Nat.eqb_spec (wr_column_position w) 0) as [E|].
  - rewrite wp_ret. split; [|exact Hb]. pose proof Hs as [S1 S2 S3 _ _ _]. apply bare_shows; [exact Hb|cbn; lia|exact S2|cbn; lia|]. intros r c Hrc. exact (bare_cells w p r c Hs Hb Hrc).
  - apply (column_edits _ Nat.pred); [done|lia|done|done].
Qed.

Lemma put_byte_edits byte : edits (Vga.put_byte byte) (type_byte byte).
Proof.
  intros w p Hs Hb. unfold Vga.put_byte, type_byte. destruct (byte =? 10); [by apply new_line_edits|]. destruct (byte =? 8); [by apply backspace_edits|].
  rewrite wp_bind, wp_get, wp_bind. rewrite (sh_column _ _ Hs). change BUFFER_WIDTH with 80%nat. cbv zeta.
  set (p1 := if (80 <=? pa_column p)%nat then scroll p else p).
  assert (wp (if (80 <=? pa_column p)%nat then Vga.new_line else mret ()) (fun _ w1 => shows w1 p1 /\ bare w1) w) as H1.
  { unfold p1. destruct (80 <=? pa_column p)%nat; [by apply new_line_edits|]. by rewrite wp_ret. }
  assert (pa_column p1 < 80)%nat as Hcol by (unfold p1; destruct (Nat.leb_spec 80 (pa_column p)); cbn; lia).
  eapply wp_mono; [exact H1|]. intros [] w1 [Hs1 Hb1]. pose proof (cell_edits 24 (fun n => n) (mkChar byte) ltac:(lia) w1 p1 Hs1 Hb1 Hcol) as Hw.
  rewrite wp_bind, wp_get in Hw. rewrite wp_bind, wp_get, wp_bind. eapply wp_mono; [exact Hw|]. intros [] w2 [Hs2 Hb2].
  assert (pa_column (put_cell 24 (pa_column p1) (mkChar byte (pa_color p1)) p1) = pa_column p1) as Ec by done. revert Hs2 Ec. generalize (put_cell 24 (pa_column p1) (mkChar byte (pa_color p1)) p1). intros p2 Hs2 Ec.
  rewrite wp_modify. split; [|exact Hb2]. pose proof Hs2 as [S1 S2 S3 _ _ _]. apply bare_shows; [exact Hb2|cbn; by rewrite S1|exact S2|cbn; lia|]. intros r c Hrc. exact (bare_cells w2 p2 r c Hs2 Hb2 Hrc).
Qed.

Lemma blink_edits now : edits (Vga.reset_text_cursor_blink now) (fun p => p).
Proof.
  intros w p Hs Hb. unfold Vga.reset_text_cursor_blink. rewrite wp_modify. split; [|exact Hb].
  pose proof Hs as [S1 S2 S3 _ _ _]. apply bare_shows; [exact Hb|exact S1|exact S2|exact S3|]. intros r c Hrc. exact (bare_cells w p r c Hs Hb Hrc).
Qed.

(** ** The operations *)

(** A whole operation. *)
Definition refines (m : M Writer ()) (f : Page -> Page) : Prop := forall w p, shows w p -> wp m (fun _ w' => shows w' (f p)) w.

Lemma write_byte_refines now byte : refines (Vga.write_byte now byte) (type_byte byte).
Proof.
  intros w p Hs. apply (open_page _ w p); [done|]. intros mouse w1 Hs1 Hb1. apply (edit_page _ _ _ w1 p _ (put_byte_edits byte)); [done|done|]. intros w2 Hs2 Hb2.
  apply (edit_page _ _ _ w2 _ _ (blink_edits now) Hs2 Hb2). intros w3 Hs3 Hb3. by apply (close_page _ w3 (type_byte byte p)).
Qed.

Lemma write_string_refines now s : refines (Vga.write_string now s) (page_op (WriteString now s)).
Proof.
  unfold Vga.write_string. cbn [page_op]. induction s as [|b s IH]; intros w p Hs; [by rewrite for_each_nil, wp_ret|]. rewrite for_each_cons. cbn [fold_left]. rewrite wp_bind.
  assert (refines (if Vga.printable b || (b =? 10) || (b =? 8) then Vga.write_byte now b else Vga.write_byte now 0xfe) (type_byte (if (b =? 10) || (b =? 8) then b else visible b))) as Hb.
  { unfold visible, Vga.printable. destruct (b =? 10), (b =? 8); cbn [orb]; rewrite ?orb_true_r; try apply write_byte_refines. rewrite !orb_false_r. destruct (_ && _); apply write_byte_refines. }
  eapply wp_mono; [by apply Hb|]. intros [] w' Hs'. by apply IH.
Qed.

Lemma set_color_refines f b : refines (Vga.set_color f b) (page_op (SetColor f b)).
Proof.
  intros w p Hs. apply (open_page _ w p); [done|]. intros mouse w1 Hs1 Hb1. rewrite wp_bind, wp_modify. apply (close_page _ _ (page_op (SetColor f b) p)); [|exact Hb1|done].
  pose proof Hs1 as [S1 S2 S3 _ _ _]. apply bare_shows; [exact Hb1|exact S1|apply color_code_attribute|exact S3|]. intros r c Hrc. exact (bare_cells w1 p r c Hs1 Hb1 Hrc).
Qed.

Lemma clear_rows_edits n : forall i, (i + n <= 25)%nat -> edits (Vga.for_each Vga.clear_row (seq i n)) (fun p => p <| pa_cells := fun r c => if between i n r then blank p else pa_cells p r c |>).
Proof.
  induction n as [|n IH]; intros i Hi w p Hs Hb; cbn [seq].
  - rewrite for_each_nil, wp_ret. split; [|exact Hb]. pose proof Hs as [S1 S2 S3 _ _ _]. apply bare_shows; [exact Hb|exact S1|exact S2|exact S3|]. intros r c Hrc. cbn [pa_cells set].
    replace (between i 0 r) with false by (symmetry; apply not_true_iff_false; unfold between; rewrite andb_true_iff, Nat.leb_le, Nat.ltb_lt; lia). exact (bare_cells w p r c Hs Hb Hrc).
  - rewrite for_each_cons. apply (edit_page _ _ _ w p _ (clear_row_edits i ltac:(lia)) Hs Hb). intros w1 Hs1 Hb1. eapply wp_mono; [apply (IH (S i) ltac:(lia) w1 _ Hs1 Hb1)|]. intros [] w2 [Hs2 Hb2]. split; [|exact Hb2].
    pose proof Hs2 as [S1 S2 S3 _ _ _]. apply bare_shows; [exact Hb2|exact S1|exact S2|exact S3|]. intros r c Hrc. rewrite (bare_cells w2 _ r c Hs2 Hb2 Hrc). unfold set. cbn [pa_cells]. rewrite between_step.
    destruct (r =? i)%nat, (between (S i) n r); done.
Qed.

Lemma clear_screen_refines : refines Vga.clear_screen (page_op ClearScreen).
Proof.
  intros w p Hs. apply (open_page _ w p); [done|]. intros mouse w1 Hs1 Hb1. apply (edit_page _ _ _ w1 p _ (clear_rows_edits 25 0 ltac:(lia)) Hs1 Hb1). intros w2 Hs2 Hb2.
  rewrite wp_bind, wp_modify. apply (close_page _ _ (page_op ClearScreen p)); [|exact Hb2|done]. pose proof Hs2 as [S1 S2 S3 _ _ _].
  apply bare_shows; [exact Hb2|done|exact S2|cbn; lia|]. intros r c Hrc. pose proof (bare_cells w2 _ r c Hs2 Hb2 Hrc) as E. cbn [wr_buffer set]. rewrite E. unfold set. cbn [page_op pa_cells].
  replace (between 0 25 r) with true; [done|]. symmetry. apply andb_true_iff. destruct Hrc. split; [apply Nat.leb_le; lia|apply Nat.ltb_lt; lia].
Qed.

Lemma erase_refines now : refines (Vga.erase_previous now) (page_op (Erase now)).
Proof.
  intros w p Hs. apply (open_page _ w p); [done|]. intros mouse w1 Hs1 Hb1. apply (edit_page _ _ _ w1 p _ backspace_edits Hs1 Hb1). intros w2 Hs2 Hb2. pose proof (sh_bound _ _ Hs) as Hbound.
  pose proof (cell_edits 24 (fun n => n) (fun color => mkChar 32 color) ltac:(lia) w2 _ Hs2 Hb2) as Hw. rewrite wp_bind, wp_get in Hw. rewrite wp_bind, wp_get, wp_bind.
  eapply wp_mono; [apply Hw; cbn; lia|]. intros [] w3 [Hs3 Hb3]. apply (edit_page _ _ _ w3 _ _ (blink_edits now) Hs3 Hb3). intros w4 Hs4 Hb4. apply (close_page _ w4 _ _ Hs4 Hb4). done.
Qed.

Lemma backspace_refines : refines Vga.backspace (page_op Back).
Proof.
  intros w p Hs. unfold Vga.backspace. rewrite wp_bind, wp_get. pose proof Hs as [S1 S2 S3 S4 S5 S6]. destruct (Nat.eqb_spec (wr_column_position w) 0) as [E|].
  - rewrite wp_ret. split; [cbn; lia|exact S2|cbn; lia|exact S4|exact S5|exact S6].
  - rewrite wp_modify. split; [cbn; lia|exact S2|cbn; lia|exact S4|exact S5|exact S6].
Qed.

Lemma write_at_refines row col byte f b : (row < 25)%nat -> (col < 80)%nat -> refines (Vga.write_at row col byte f b) (page_op (WriteAt row col byte f b)).
Proof.
  intros Hr Hc w p Hs. unfold Vga.write_at. replace (_ || _) with false by (symmetry; apply orb_false_iff; split; apply Nat.leb_gt; done).
  apply (open_page _ w p); [done|]. intros mouse w1 Hs1 Hb1. rewrite wp_bind. apply wp_write; [by split|]. apply (close_page _ _ (page_op (WriteAt row col byte f b) p)); [|exact Hb1|done].
  pose proof Hs1 as [S1 S2 S3 _ _ _]. apply bare_shows; [exact Hb1|exact S1|exact S2|exact S3|]. intros r c Hrc. unfold page_op. rewrite put_cell_here. unfold set. cbn [wr_buffer]. rewrite at_cell_here, color_code_attribute.
  destruct (here true row col r c); [done|]. exact (bare_cells w1 p r c Hs1 Hb1 Hrc).
Qed.

Lemma shows_ext w p p' : pa_column p' = pa_column p -> pa_color p' = pa_color p -> (forall r c, inside r c -> pa_cells p' r c = pa_cells p r c) -> shows w p -> shows w p'.
Proof.
  intros E1 E2 E3 [S1 S2 S3 S4 S5 S6]. assert (forall r c, inside r c -> under w p' r c = under w p r c) as Eu by (intros r c Hrc; unfold under; by rewrite !E3).
  split; [congruence|congruence|congruence| | |].
  - intros Hm. destruct (S4 Hm) as [Hi Eo]. split; [done|]. by rewrite Eu.
  - intros Ht. destruct (S5 Ht) as [Hi Eo]. split; [done|]. by rewrite E3.
  - intros r c Hrc. rewrite S6 by done. unfold display. by rewrite Eu.
Qed.

Lemma outside_same row col v p r c : (25 <= row \/ 80 <= col)%nat -> inside r c -> pa_cells (put_cell row col v p) r c = pa_cells p r c.
Proof.
  intros Ho [Hr Hc]. rewrite put_cell_here. destruct (here true row col r c) eqn:E; [|done]. apply here_spec in E as (_ & -> & ->). lia.
Qed.

Lemma write_at_any row col byte f b : refines (Vga.write_at row col byte f b) (page_op (WriteAt row col byte f b)).
Proof.
  destruct (Nat.ltb_spec row 25) as [Hr|Hr], (Nat.ltb_spec col 80) as [Hc|Hc]; [by apply write_at_refines|..];
    (intros w p Hs; unfold Vga.write_at; replace (_ || _) with true by (symmetry; apply orb_true_iff; rewrite !Nat.leb_le; unfold BUFFER_HEIGHT, BUFFER_WIDTH; lia);
     rewrite wp_ret; apply (shows_ext w p); [done|done| |done]; intros r c Hrc; apply outside_same; [lia|done]).
Qed.

(** The text of a status line, from the column on. *)
Lemma line_spec row text : (row < 25)%nat -> forall w, wp (Vga.line_write_str row text) (fun _ w' => exists b n, w' = w <| wr_buffer := b |> <| wr_column_position := n |> /\
  forall r c, inside r c -> b r c = if (r =? row)%nat && (wr_column_position w <=? c)%nat then
    match text !! (c - wr_column_position w)%nat with Some x => mkChar (visible x) (color_code LightCyan Black) | None => wr_buffer w r c end else wr_buffer w r c) w.
Proof.
  intros Hrow. induction text as [|x text IH]; intros w; cbn [Vga.line_write_str].
  - rewrite wp_ret. exists (wr_buffer w), (wr_column_position w). split; [by destruct w|]. intros r c _. rewrite lookup_nil. by destruct (_ && _).
  - rewrite wp_bind, wp_get. destruct (Nat.leb_spec BUFFER_WIDTH (wr_column_position w)) as [Hfull|Hcol].
    + rewrite wp_ret. exists (wr_buffer w), (wr_column_position w). split; [by destruct w|]. intros r c [_ Hc]. unfold BUFFER_WIDTH in Hfull. rewrite (proj2 (Nat.leb_gt _ c)) by lia. by rewrite andb_false_r.
    + rewrite wp_bind. apply wp_write; [split; [done|exact Hcol]|]. rewrite wp_bind, wp_modify. eapply wp_mono; [apply IH|]. intros [] w' (b & n & -> & Hb). exists b, n. split; [by destruct w|].
      intros r c Hrc. rewrite Hb by done. unfold set. cbn [wr_buffer wr_column_position]. set (k := wr_column_position w) in *. rewrite at_cell_here. fold (visible x).
      destruct (Nat.eqb_spec r row) as [->|Hr]; cbn [andb]; [|destruct (here true row k r c) eqn:E; [apply here_spec in E as (_ & ? & _); done|done]].
      destruct (Nat.leb_spec (S k) c) as [Hlt|Hge], (Nat.leb_spec k c) as [Hle|Hgt]; try lia.
      * replace (c - k)%nat with (S (c - S k)) by lia. cbn [lookup list_lookup]. destruct (here true row k row c) eqn:E; [apply here_spec in E as (_ & _ & ?); lia|]. done.
      * assert (c = k) as -> by lia. rewrite Nat.sub_diag. cbn [lookup list_lookup]. rewrite (proj2 (here_spec true row k row k)) by done. done.
      * destruct (here true row k row c) eqn:E; [apply here_spec in E as (_ & _ & ?); lia|]. done.
Qed.

Lemma status_refines row text : refines (Vga.write_status_line row text) (page_op (StatusLine row text)).
Proof.
  intros w p Hs. unfold Vga.write_status_line. destruct (Nat.leb_spec BUFFER_HEIGHT row) as [Hr|Hr].
  - rewrite wp_ret. apply (shows_ext w p); [done|done| |done]. intros r c [Hr' _]. unfold BUFFER_HEIGHT in Hr. unfold page_op, set. cbn [pa_cells]. by rewrite (proj2 (Nat.eqb_neq r row)) by lia.
  - apply (open_page _ w p); [done|]. intros mouse w1 Hs1 Hb1. rewrite wp_bind, wp_get. cbv zeta. apply (edit_page _ _ _ w1 p _ (clear_row_edits row Hr) Hs1 Hb1). intros w2 Hs2 Hb2.
    rewrite wp_bind, wp_modify, wp_bind. eapply wp_mono; [apply (line_spec row text Hr)|]. intros [] w3 (b & n & -> & Hb). rewrite wp_bind, wp_modify.
    apply (close_page _ _ (page_op (StatusLine row text) p)); [|exact Hb2|done]. pose proof Hs1 as [S1 S2 S3 _ _ _]. pose proof (sh_color _ _ Hs2) as S2'.
    apply bare_shows; [exact Hb2|exact S1|exact S2'|exact S3|]. intros r c Hrc. unfold set. cbn [wr_buffer]. rewrite Hb by done. unfold set. cbn [wr_buffer wr_column_position]. rewrite Nat.sub_0_r. cbn [Nat.leb]. rewrite andb_true_r.
    pose proof (bare_cells w2 _ r c Hs2 Hb2 Hrc) as E. unfold set in E. cbn [pa_cells] in E. cbn [page_op]. unfold set. cbn [pa_cells]. rewrite E. destruct (r =? row)%nat; [|done]. by destruct (text !! c).
Qed.

Lemma clear_mouse_refines : refines Vga.clear_mouse_cursor (page_op ClearMouse).
Proof. intros w p Hs. unfold Vga.clear_mouse_cursor. rewrite wp_bind. apply (wp_suspend w p); [done|]. intros pos w' Hs' _ _ _. by rewrite wp_ret. Qed.

Lemma shows_blink w p f : (forall w, f w = w <| wr_text_cursor_blink_on := wr_text_cursor_blink_on (f w) |> <| wr_text_cursor_last_blink_tick := wr_text_cursor_last_blink_tick (f w) |>) -> shows w p -> shows (f w) p.
Proof. intros E [S1 S2 S3 S4 S5 S6]. rewrite E. by split. Qed.

Lemma blink_refines ticks : refines (Vga.update_text_cursor_blink ticks) (page_op (Blink ticks)).
Proof.
  intros w p Hs. unfold Vga.update_text_cursor_blink. rewrite wp_bind, wp_get. destruct (_ <? _); [by rewrite wp_ret|]. rewrite wp_bind. apply (wp_suspend w p); [done|]. intros pos w1 Hs1 Hm1 _ _.
  rewrite wp_bind, wp_modify, wp_bind, wp_get, wp_bind. set (w2 := w1 <| wr_text_cursor_last_blink_tick := ticks |>). assert (shows w2 p) as Hs2 by (by destruct Hs1).
  destruct (wr_text_cursor_visible w2).
  - rewrite wp_bind. apply (wp_hide w2 p); [done|done|]. intros w3 Hs3 _ _. rewrite wp_modify. apply (wp_resume _ p); [by destruct Hs3|done].
  - rewrite wp_bind, wp_modify. apply (wp_show _ p); [by destruct Hs2|done|]. intros w3 Hs3 _. by apply (wp_resume _ p).
Qed.

Lemma op_refines op : refines (run_op op) (page_op op).
Proof.
  destruct op; cbn [run_op].
  - apply write_string_refines.
  - apply set_color_refines.
  - apply clear_screen_refines.
  - apply erase_refines.
  - apply backspace_refines.
  - apply write_at_any.
  - apply status_refines.
  - intros w p Hs. by apply (wp_draw w p).
  - apply clear_mouse_refines.
  - apply blink_refines.
Qed.

(** ** Where the cursors are *)

Definition cursors_of (w : Writer) : Cursors :=
  mkCursors (if wr_mouse_visible w then Some (wr_mouse_row w, wr_mouse_col w) else None)
    (if wr_text_cursor_visible w then Some (wr_text_cursor_row w, wr_text_cursor_col w) else None)
    (wr_text_cursor_blink_on w) (wr_text_cursor_last_blink_tick w).

Lemma bind_inv {A B} (m : M Writer A) (f : A -> M Writer B) w b w' : (x ← m; f x) w = Done (b, w') ->
  exists a w1, m w = Done (a, w1) /\ f a w1 = Done (b, w').
Proof. intros E. run_in E. destruct (m w) as [[a w1]|]; [|done]. by exists a, w1. Qed.

Ltac chain H := repeat match type of H with
  | mbind _ _ _ = _ => let a := fresh "a" in let w := fresh "w" in let E := fresh "E" in apply bind_inv in H as (a & w & E & H)
  end.

Lemma write_inv row col v w a w' : Vga.write row col v w = Done (a, w') -> inside row col /\ w' = w <| wr_buffer ::= Vga.at_cell row col v |>.
Proof. unfold Vga.write. destruct (Vga.in_buffer row col) eqn:E; [|done]. apply in_buffer_inside in E. by intros [= _ <-]. Qed.

Lemma read_inv row col w a w' : Vga.read row col w = Done (a, w') -> inside row col /\ w' = w.
Proof. unfold Vga.read. run. destruct (Vga.in_buffer row col) eqn:E; [|done]. apply in_buffer_inside in E. by intros [= _ <-]. Qed.

(** Operations on the text leave the cursors alone. *)
Definition steady {A} (m : M Writer A) : Prop := forall w a w', m w = Done (a, w') -> cursors_of w' = cursors_of w.

Lemma steady_bind {A B} (m : M Writer A) (f : A -> M Writer B) : steady m -> (forall a, steady (f a)) -> steady (x ← m; f x).
Proof. intros Hm Hf w b w' (a & w1 & E1 & E2)%bind_inv. by rewrite (Hf _ _ _ _ E2), (Hm _ _ _ E1). Qed.
Lemma steady_ret {A} (a : A) : steady (mret a).
Proof. by intros w a' w' [= _ <-]. Qed.
Lemma steady_get : steady get.
Proof. by intros w a' w' [= _ <-]. Qed.
Lemma steady_write row col v : steady (Vga.write row col v).
Proof. by intros w a w' [_ ->]%write_inv. Qed.
Lemma steady_read row col : steady (Vga.read row col).
Proof. by intros w a w' [_ ->]%read_inv. Qed.
Lemma steady_modify f : (forall w, cursors_of (f w) = cursors_of w) -> steady (modify f).
Proof. intros Hf w a w' [= _ <-]. apply Hf. Qed.
Lemma steady_each {A} (f : A -> M Writer ()) l : (forall x, steady (f x)) -> steady (Vga.for_each f l).
Proof. intros Hf. induction l as [|x l IH]; [rewrite for_each_nil; apply steady_ret|]. rewrite for_each_cons. by apply steady_bind. Qed.
Lemma steady_if {A} (b : bool) (m m' : M Writer A) : steady m -> steady m' -> steady (if b then m else m').
Proof. by destruct b. Qed.

Create HintDb steady.
#[local] Hint Resolve steady_bind steady_ret steady_get steady_write steady_read steady_modify steady_each steady_if : steady.

Lemma clear_row_steady row : steady (Vga.clear_row row).
Proof. unfold Vga.clear_row. auto 10 with steady. Qed.
#[local] Hint Resolve clear_row_steady : steady.
Lemma new_line_steady : steady Vga.new_line.
Proof. unfold Vga.new_line. auto 15 with steady. Qed.
Lemma backspace_steady : steady Vga.backspace.
Proof. unfold Vga.backspace. auto 10 with steady. Qed.
#[local] Hint Resolve new_line_steady backspace_steady : steady.
Lemma put_byte_steady byte : steady (Vga.put_byte byte).
Proof. unfold Vga.put_byte. auto 15 with steady. Qed.
Lemma line_steady row text : steady (Vga.line_write_str row text).
Proof. induction text as [|x text IH]; cbn [Vga.line_write_str]; auto 15 with steady. Qed.

(** *** Hiding and drawing *)

Lemma suspend_cursors w pos w1 : Vga.suspend_mouse_cursor w = Done (pos, w1) ->
  cursors_of w1 = cursors_of w <| cu_pointer := None |> /\
  match pos with Some (col, row) => cu_pointer (cursors_of w) = Some (row, col) /\ inside row col | None => cu_pointer (cursors_of w) = None end.
Proof.
  unfold Vga.suspend_mouse_cursor. intros H. chain H. injection E as <- <-. unfold cursors_of, set. destruct (wr_mouse_visible w) eqn:Ev; cbn [negb] in H.
  - chain H. apply write_inv in E as [Hi ->]. injection E0 as <- <-. injection H as <- <-. by split.
  - injection H as <- <-. cbn. by rewrite Ev.
Qed.

Lemma hide_cursors w u w1 : Vga.hide_text_cursor w = Done (u, w1) -> cursors_of w1 = cursors_of w <| cu_text := None |>.
Proof.
  unfold Vga.hide_text_cursor. intros H. chain H. injection E as <- <-. unfold cursors_of, set. destruct (wr_text_cursor_visible w) eqn:Ev; cbn [negb] in H.
  - chain H. apply write_inv in E as [_ ->]. by injection H as _ <-.
  - injection H as _ <-. cbn. by rewrite Ev.
Qed.

Lemma show_cursors w u w1 : cu_text (cursors_of w) = None -> Vga.show_text_cursor w = Done (u, w1) ->
  cursors_of w1 = text_cursor (wr_column_position w) (cursors_of w) /\ wr_column_position w1 = wr_column_position w.
Proof.
  unfold Vga.show_text_cursor. intros Ht H. chain H. injection E as <- <-. unfold cursors_of, text_cursor, set in *. cbn [cu_text cu_bright cu_pointer cu_since] in *.
  destruct (wr_text_cursor_visible w) eqn:Ev; [done|]. destruct (wr_text_cursor_blink_on w) eqn:Eb; cbn [negb orb] in H.
  - chain H. apply read_inv in E as [_ ->]. injection E0 as _ <-. apply write_inv in E1 as [_ ->]. injection H as _ <-. split; [|done]. cbn. by rewrite Eb.
  - injection H as _ <-. by rewrite Ev, Eb.
Qed.

Lemma draw_cursors col row w u w1 : Vga.draw_mouse_cursor col row w = Done (u, w1) ->
  cursors_of w1 = (if (row <? 25)%nat && (col <? 80)%nat then cursors_of w <| cu_pointer := Some (row, col) |> else cursors_of w) /\
  wr_column_position w1 = wr_column_position w.
Proof.
  unfold Vga.draw_mouse_cursor, BUFFER_WIDTH, BUFFER_HEIGHT. rewrite !Nat.leb_antisym, <-negb_andb, andb_comm.
  destruct (_ && _); cbn [negb]; intros H; [|by injection H as _ <-].
  chain H. injection E as <- <-. apply read_inv in E1 as [_ ->]. injection E2 as _ <-. apply write_inv in E3 as [_ ->]. injection H as _ <-.
  assert (exists b, w2 = w <| wr_buffer := b |>) as [b ->].
  { destruct (wr_mouse_visible w); [apply write_inv in E0 as [_ ->]; by eexists|]. injection E0 as _ <-. exists (wr_buffer w). by destruct w. }
  done.
Qed.

Lemma resume_cursors w pos w1 w4 u w5 : Vga.suspend_mouse_cursor w = Done (pos, w1) ->
  Vga.resume_mouse_cursor pos w4 = Done (u, w5) -> cu_pointer (cursors_of w4) = None ->
  cursors_of w5 = cursors_of w4 <| cu_pointer := cu_pointer (cursors_of w) |> /\ wr_column_position w5 = wr_column_position w4.
Proof.
  intros [_ Hpos]%suspend_cursors E5 Hp. destruct pos as [[col row]|]; cbn [Vga.resume_mouse_cursor] in E5.
  - destruct Hpos as [-> [Hr Hc]]. apply draw_cursors in E5 as [-> ->]. by rewrite (proj2 (Nat.ltb_lt _ _) Hr), (proj2 (Nat.ltb_lt _ _) Hc).
  - injection E5 as _ <-. rewrite Hpos. split; [|done]. revert Hp. generalize (cursors_of w4). intros [a b c d] Hp. cbn in Hp. by subst a.
Qed.

(** The cursors after an operation that hid them, edited the page and showed them again. *)
Lemma shown_again w pos w1 u w2 w3 u' w4 u'' w5 : Vga.suspend_mouse_cursor w = Done (pos, w1) -> Vga.hide_text_cursor w1 = Done (u, w2) ->
  cu_pointer (cursors_of w3) = None -> cu_text (cursors_of w3) = None ->
  Vga.show_text_cursor w3 = Done (u', w4) -> Vga.resume_mouse_cursor pos w4 = Done (u'', w5) ->
  cursors_of w5 = text_cursor (wr_column_position w5) (cursors_of w3) <| cu_pointer := cu_pointer (cursors_of w) |>.
Proof.
  intros E1 _ Hp Ht [E4 C4]%show_cursors E5; [|done].
  destruct (resume_cursors _ _ _ _ _ _ E1 E5) as [-> ->]; [by rewrite E4|]. by rewrite E4, C4.
Qed.

Definition woken (now : option Z) (k : Cursors) : Cursors := match now with Some n => awake n k | None => k end.

Lemma edited_cursors now w pos w1 u w2 w3 u' w4 u'' w5 : Vga.suspend_mouse_cursor w = Done (pos, w1) -> Vga.hide_text_cursor w1 = Done (u, w2) ->
  cursors_of w3 = woken now (cursors_of w2) -> Vga.show_text_cursor w3 = Done (u', w4) -> Vga.resume_mouse_cursor pos w4 = Done (u'', w5) ->
  cursors_of w5 = text_cursor (wr_column_position w5) (woken now (cursors_of w)).
Proof.
  intros E1 E2 E3 E4 E5. pose proof (suspend_cursors _ _ _ E1) as [C1 _]. pose proof (hide_cursors _ _ _ E2) as C2. rewrite C1 in C2. rewrite C2 in E3.
  rewrite (shown_again _ _ _ _ _ _ _ _ _ _ E1 E2) with (3 := E4) (4 := E5), E3; [|by rewrite E3; destruct now..].
  generalize (cursors_of w). by destruct now; intros [].
Qed.

Lemma byte_cursors now byte w u w' : Vga.write_byte now byte w = Done (u, w') -> cursors_of w' = text_cursor (wr_column_position w') (awake now (cursors_of w)).
Proof.
  unfold Vga.write_byte. intros H. chain H. apply (edited_cursors (Some now) _ _ _ _ _ _ _ _ _ _ E E0) with (2 := E3) (3 := H).
  injection E2 as _ <-. cbn [woken]. by rewrite <-(put_byte_steady _ _ _ _ E1).
Qed.

Lemma text_cursor_again column column' now k : text_cursor column (awake now (text_cursor column' (awake now k))) = text_cursor column (awake now k).
Proof. by destruct k. Qed.

Lemma string_cursors now s w u w' : Vga.write_string now s w = Done (u, w') -> cursors_of w' = cursor_op (WriteString now s) (wr_column_position w') (cursors_of w).
Proof.
  unfold Vga.write_string. revert w. induction s as [|b s IH]; intros w; [rewrite for_each_nil; by intros [= _ <-]|]. rewrite for_each_cons. intros H. chain H.
  assert (cursors_of w0 = text_cursor (wr_column_position w0) (awake now (cursors_of w))) as Hb by (destruct (_ || _ || _); by apply byte_cursors in E).
  destruct s as [|b' s]; [rewrite for_each_nil in H; by injection H as _ <-|]. apply IH in H. cbn [cursor_op] in *. by rewrite H, Hb, text_cursor_again.
Qed.

Lemma erase_cursors now w u w' : Vga.erase_previous now w = Done (u, w') -> cursors_of w' = text_cursor (wr_column_position w') (awake now (cursors_of w)).
Proof.
  unfold Vga.erase_previous. intros H. chain H. apply (edited_cursors (Some now) _ _ _ _ _ _ _ _ _ _ E E0) with (2 := E5) (3 := H).
  injection E2 as <- <-. injection E4 as _ <-. apply write_inv in E3 as [_ ->]. cbn [woken]. by rewrite <-(backspace_steady _ _ _ E1).
Qed.

Lemma color_cursors f b w u w' : Vga.set_color f b w = Done (u, w') -> cursors_of w' = text_cursor (wr_column_position w') (cursors_of w).
Proof.
  unfold Vga.set_color. intros H. chain H. apply (edited_cursors None _ _ _ _ _ _ _ _ _ _ E E0) with (2 := E2) (3 := H). by injection E1 as _ <-.
Qed.

Lemma clear_cursors w u w' : Vga.clear_screen w = Done (u, w') -> cursors_of w' = text_cursor (wr_column_position w') (cursors_of w).
Proof.
  unfold Vga.clear_screen. intros H. chain H. apply (edited_cursors None _ _ _ _ _ _ _ _ _ _ E E0) with (2 := E3) (3 := H).
  injection E2 as _ <-. by apply (steady_each _ _ clear_row_steady) in E1.
Qed.

Lemma write_at_cursors row col byte f b w u w' : Vga.write_at row col byte f b w = Done (u, w') ->
  cursors_of w' = cursor_op (WriteAt row col byte f b) (wr_column_position w') (cursors_of w).
Proof.
  unfold Vga.write_at, BUFFER_HEIGHT, BUFFER_WIDTH. cbn [cursor_op]. rewrite !Nat.leb_antisym, <-negb_andb. destruct (_ && _); cbn [negb]; intros H; [|by injection H as _ <-].
  chain H. apply (edited_cursors None _ _ _ _ _ _ _ _ _ _ E E0) with (2 := E2) (3 := H). by apply write_inv in E1 as [_ ->].
Qed.

Lemma status_cursors row text w u w' : Vga.write_status_line row text w = Done (u, w') ->
  cursors_of w' = cursor_op (StatusLine row text) (wr_column_position w') (cursors_of w).
Proof.
  unfold Vga.write_status_line, BUFFER_HEIGHT. cbn [cursor_op]. rewrite Nat.leb_antisym. destruct (_ <? _)%nat; cbn [negb]; intros H; [|by injection H as _ <-].
  chain H. injection E1 as <- <-. chain H. apply (edited_cursors None _ _ _ _ _ _ _ _ _ _ E E0) with (2 := E6) (3 := H).
  injection E5 as _ <-. injection E3 as _ <-. apply clear_row_steady in E2. apply line_steady in E4. cbn [woken]. by rewrite <-E2.
Qed.

Lemma blink_cursors ticks w u w' : Vga.update_text_cursor_blink ticks w = Done (u, w') ->
  cursors_of w' = cursor_op (Blink ticks) (wr_column_position w') (cursors_of w).
Proof.
  unfold Vga.update_text_cursor_blink. intros H. chain H. injection E as <- <-. cbn [cursor_op].
  replace (saturating_sub ticks (wr_text_cursor_last_blink_tick w) <? TEXT_CURSOR_BLINK_TICKS) with (ticks - cu_since (cursors_of w) <? 50) in H.
  2:{ unfold saturating_sub. change TEXT_CURSOR_BLINK_TICKS with 50. cbn [cu_since cursors_of].
      destruct (Z.ltb_spec (ticks - wr_text_cursor_last_blink_tick w) 50), (Z.ltb_spec (Z.max 0 (ticks - wr_text_cursor_last_blink_tick w)) 50); done || lia. }
  destruct (_ <? 50); [by injection H as _ <-|]. chain H. injection E0 as _ <-. injection E1 as <- <-.
  pose proof (suspend_cursors _ _ _ E) as [C0 _].
  assert (cu_text (cursors_of w) = cu_text (cursors_of w0)) as -> by (by rewrite C0). cbn [cu_text cursors_of].
  change (wr_text_cursor_visible (w0 <| wr_text_cursor_last_blink_tick := ticks |>)) with (wr_text_cursor_visible w0) in E2.
  assert (forall k, cursors_of w3 = k <| cu_pointer := None |> -> cursors_of w' = k <| cu_pointer := cu_pointer (cursors_of w) |> /\ wr_column_position w' = wr_column_position w3) as Hres.
  { intros k Hk. destruct (resume_cursors _ _ _ _ _ _ E H) as [-> ->]; [by rewrite Hk|]. by rewrite Hk. }
  destruct (wr_text_cursor_visible w0) eqn:Ev; chain E2.
  - apply hide_cursors in E0. injection E2 as _ <-. destruct (Hres (cursors_of w <| cu_text := None |> <| cu_bright := false |> <| cu_since := ticks |>)) as [-> _]; [|done].
    replace (cursors_of (w1 <| wr_text_cursor_blink_on := false |>)) with (cursors_of w1 <| cu_bright := false |>) by done. rewrite E0.
    replace (cursors_of (w0 <| wr_text_cursor_last_blink_tick := ticks |>)) with (cursors_of w0 <| cu_since := ticks |>) by done. by rewrite C0.
  - injection E0 as _ <-. apply show_cursors in E2 as [E2 C2]; [|cbn; by rewrite Ev].
    destruct (Hres (text_cursor (wr_column_position w0) (awake ticks (cursors_of w)))) as [-> ->]; [|by rewrite C2]. rewrite E2.
    replace (cursors_of (w0 <| wr_text_cursor_last_blink_tick := ticks |> <| wr_text_cursor_blink_on := true |>)) with (awake ticks (cursors_of w0)) by done. by rewrite C0.
Qed.

Lemma op_cursors op w u w' : run_op op w = Done (u, w') -> cursors_of w' = cursor_op op (wr_column_position w') (cursors_of w).
Proof.
  destruct op; cbn [run_op].
  - apply string_cursors.
  - apply color_cursors.
  - apply clear_cursors.
  - apply erase_cursors.
  - apply backspace_steady.
  - apply write_at_cursors.
  - apply status_cursors.
  - by intros [-> _]%draw_cursors.
  - unfold Vga.clear_mouse_cursor. intros H. chain H. injection H as _ <-. by apply suspend_cursors in E as [-> _].
  - apply blink_cursors.
Qed.

Fixpoint run_ops (ops : list screen_op) : M Writer () := match ops with [] => mret () | op :: ops => run_op op;; run_ops ops end.

Lemma display_picture w p r c : display w p r c = picture p (cursors_of w) r c.
Proof.
  unfold display, under, picture, cursors_of, here. cbn [cu_pointer cu_text].
  assert (forall (b : bool) x y, b && (r =? x)%nat && (c =? y)%nat = bool_decide ((if b then Some (x, y) else None) = Some (r, c))) as E; [|by rewrite !E].
  intros b x y. symmetry. destruct b; cbn [andb]; [|by apply bool_decide_eq_false].
  destruct (Nat.eqb_spec r x) as [->|], (Nat.eqb_spec c y) as [->|]; cbn [andb]; [by apply bool_decide_eq_true|apply bool_decide_eq_false; congruence..].
Qed.

(** C26. The screen shows the text.  Take any sequence of output, colour changes,
    status lines, pointer movements and timer ticks.  No access leaves the frame
    buffer, and afterwards it holds exactly the page of a plain terminal with the
    same output, and over it the text cursor, in the last row behind the text
    while it is in the bright phase of its blinking, and the mouse pointer where
    it was moved to last.  In particular neither cursor leaves a trace behind. *)
Theorem screen_refines (screen : nat -> nat -> ScreenChar) (ops : list screen_op) :
  exists w, run_ops ops (Vga.new screen) = Done ((), w) /\
    let '(p, k) := fold_left terminal_op ops (mkPage screen 0 (attribute Yellow Black), mkCursors None None true 0) in
    wr_column_position w = pa_column p /\ wr_color_code w = pa_color p /\ forall r c, inside r c -> wr_buffer w r c = picture p k r c.
Proof.
  assert (forall p w, shows w p -> wp (run_ops ops) (fun _ w' => let '(p', k') := fold_left terminal_op ops (p, cursors_of w) in shows w' p' /\ cursors_of w' = k') w) as Hrun.
  { induction ops as [|op ops IH]; intros p w Hs; cbn [run_ops fold_left]; [by rewrite wp_ret|]. rewrite wp_bind.
    destruct (proj1 (wp_run _ _ _) (op_refines op w p Hs)) as ([] & w' & E & Hs'). unfold wp at 1. rewrite E. unfold terminal_op at 2. cbn [fst snd].
    rewrite <-(sh_column _ _ Hs'), <-(op_cursors _ _ _ _ E). by apply IH. }
  destruct (proj1 (wp_run _ _ _) (Hrun (mkPage screen 0 (attribute Yellow Black)) (Vga.new screen) ltac:(apply bare_shows; [by split|done|done|cbn; lia|done]))) as ([] & w & E & H).
  exists w. split; [done|]. change (cursors_of (Vga.new screen)) with (mkCursors None None true 0) in H. destruct (fold_left _ _ _) as [p k].
  destruct H as [[S1 S2 _ _ _ S6] <-]. split; [done|]. split; [done|]. intros r c Hrc. by rewrite S6, display_picture.
Qed.
