(* ===== verification/ExecProofs.v ===== *)
(** * Starting a program

    [register_exec] turns a loaded program into the current process (C23): it
    takes a page table nobody holds, lays out memory and the first stack block,
    enters the process in the table with what it inherits from its parent, and
    makes its only thread the running one. *)

From S2P Require Import Prelude Utf8 Paths Vfs Ring3 Ring3Proofs Elf AddrSpace AddrSpaceProofs Threads Program Ipc Process.
From S2P Require Import TableSafety Views Scheduling Signals Current.

(** ** The address space of the new process *)

(** A page table from the pool if there is one, otherwise the kernel's with the
    first stack slot. *)
Definition exec_space (loaded : Current.LoadedProgram) (layout : UserMemoryLayout) (frame : option Z) : AddressSpace :=
  match frame with
  | Some f => Space.verified_prepared_user (Current.lp_entry loaded) layout f
  | None => Space.kernel_shared_user (Current.lp_entry loaded) (Current.with_first_stack layout)
  end.

(** The stack of a layout: aligned, inside the stack region, with room. *)
Record stack_area (layout : UserMemoryLayout) : Prop := {
  sa_low : USER_STACK_REGION_START <= stack_start layout;
  sa_size : stack_top layout = stack_start layout + USER_STACK_SIZE;
  sa_high : stack_top layout <= FIRST_USER_STACK_TOP;
  sa_aligned : stack_top layout mod 8 = 0;
}.

Lemma stack_area_user layout : stack_area layout -> stack_top layout <= USER_END.
Proof. intros [_ _ H _]. change FIRST_USER_STACK_TOP with 0x1400000 in H. unfold USER_END. lia. Qed.

Lemma exec_layout pid size loaded frame :
  0 <= pid -> 0 <= size <= u64_max - 4096 ->
  exists lay, memory_layout_for_pid_with_program_size pid size = Done lay /\
    stack_area (as_layout (exec_space loaded lay frame)) /\ program_start (as_layout (exec_space loaded lay frame)) = FIRST_USER_ENTRY.
Proof.
  intros Hp Hs. destruct (layout_spec pid pid size Hp Hp Hs) as (lay & E & H1 & _ & _ & H2 & H3 & H4 & _).
  exists lay. split; [done|]. destruct frame; simpl; (split; [constructor; simpl|done]).
  - change USER_STACK_GUARD_SIZE with 0x1000 in *. lia.
  - done.
  - done.
  - rewrite (layout_stack_top _ _ _ E). apply stack_top_for_pid_aligned.
  - vm_compute. discriminate.
  - done.
  - lia.
  - done.
Qed.

(** The path and the words of the argument fit the first stack block. *)
Definition fits_block (path arg : bytes) : Prop :=
  path <> [] /\ (length (strings (items_of path arg)) + 8 * (length (items_of path arg) + 5) + 15 <= USER_INITIAL_STACK_MAX_SIZE)%nat.

Lemma stack_area_block layout path arg :
  stack_area layout -> fits_block path arg ->
  exists st, InitialStack.build_user_initial_stack layout path arg = Done (Ok st) /\
    is_stack_pointer st mod 16 = 0 /\ stack_start layout < is_stack_pointer st <= stack_top layout.
Proof.
  intros [H1 H2 H3 H4] [Hp Hf]. change USER_STACK_SIZE with 0x4000 in H2.
  destruct (image_shape layout path arg) as (ws & pad & E & Ha & Hl);
    [change (Z.of_nat USER_INITIAL_STACK_MAX_SIZE) with 512; lia|done..|].
  eexists. split; [exact E|]. split; [exact Ha|]. cbn [is_stack_pointer].
  change (Z.of_nat USER_INITIAL_STACK_MAX_SIZE) with 512.
  assert (ws <= 512)%nat by (unfold USER_INITIAL_STACK_MAX_SIZE in Hl; lia). lia.
Qed.

(** ** The new process *)

Definition parent_of (k : Kernel) (program : UserProgram) : option Process := up_parent_pid program ≫= find_process k.

Definition exec_kind (program : UserProgram) : ProcessKind :=
  if negb (is_some (up_parent_pid program)) && bytes_eqb (up_name program) (str "kernel")
     && bytes_eqb (up_path program) (str "kernel") then KernelTask else UserProcess.

(** Group and session come from a user parent. *)
Definition inherited_job (parent : option Process) (pid : Z) : Z * Z :=
  match parent with
  | Some q => if is_user (pr_kind q) then (pr_process_group_id q, pr_session_id q) else (pid, pid)
  | None => (pid, pid)
  end.

Definition new_process (k : Kernel) (program : UserProgram) (space : AddressSpace) : Process :=
  let pid := up_pid program in
  let parent := parent_of k program in
  let main := with_user_stack (new_thread (pt_next_tid (k_table k)) pid (Table.kind_of_threads (exec_kind program)))
                (stack_start (as_layout space)) (stack_top (as_layout space)) in
  mkProcess pid (up_parent_pid program) (inherited_job parent pid).1 (inherited_job parent pid).2
    (up_name program) (up_path program) (exec_kind program) (TStore.with_main main)
    (from_option pr_credentials Credentials.root parent) (up_arg program) (from_option pr_cwd Path.root parent)
    (up_job_mode program) PCreated space [] None None None 0 0 SIG_DFL.

Definition started (now : Z) (p : Process) : Process :=
  upd_thread (main_tid p) (start_thread now) (upd_thread (main_tid p) (fun t => t <| th_state := TRunning |>)
    (p <| pr_state := PRunning |>)).

Lemma shape_started now p : shape (started now p) = shape p.
Proof. unfold started. by rewrite !shape_upd_thread. Qed.

Definition next_pid_for (k : Kernel) (pid : Z) : Z :=
  if pt_next_pid (k_table k) <=? pid then pid + 1 else pt_next_pid (k_table k).

Definition created_table (k : Kernel) (program : UserProgram) (space : AddressSpace) : ProcessTable :=
  k_table k <| pt_processes := pt_processes (k_table k) ++ [new_process k program space] |>
            <| pt_next_pid := next_pid_for k (up_pid program) |>
            <| pt_next_tid := u32_saturating_add (pt_next_tid (k_table k)) 1 |>.

Lemma insert_process_eq k program space :
  find_process k (up_pid program) = None ->
  Table.insert_process (up_pid program) (up_parent_pid program) (up_name program) (up_path program) (up_arg program)
    (up_job_mode program) space k =
  Done ((), k <| k_table ::= (fun t => t <| pt_next_tid := u32_saturating_add (pt_next_tid t) 1 |>
                                         <| pt_processes := pt_processes (k_table k) ++ [new_process k program space] |>) |>).
Proof.
  intros Hn. unfold Table.insert_process, Table.reserve_tid, mod_table, new_process, parent_of, exec_kind.
  assert (forall p, Table.store_insert (up_pid program) p (pt_processes (k_table k)) = pt_processes (k_table k) ++ [p]) as Hins
    by (intros p; unfold Table.store_insert; unfold find_process in Hn; by rewrite Hn).
  run. destruct (up_parent_pid program) as [x|]; [destruct (find_process k x) as [q|]; [destruct (is_user (pr_kind q)) eqn:Eu|]|];
    rewrite <-Hins; simpl; rewrite ?Eu; reflexivity.
Qed.

Lemma create_reserved_eq k program space :
  find_process k (up_pid program) = None -> 0 <= up_pid program < u32_max ->
  Table.create_reserved_process_with_job_mode (up_pid program) (up_parent_pid program) (up_name program)
    (up_path program) (up_arg program) (up_job_mode program) space k =
  Done (up_pid program, k <| k_table := created_table k program space |>).
Proof.
  intros Hn Hpid. unfold Table.create_reserved_process_with_job_mode, mod_table, u32_incr, checked_add_to. run.
  unfold created_table, next_pid_for. destruct (Z.leb_spec (pt_next_pid (k_table k)) (up_pid program)).
  - rewrite (proj2 (Z.leb_le (up_pid program + 1) u32_max)) by lia. run. rewrite insert_process_eq by exact Hn. reflexivity.
  - run. rewrite insert_process_eq by done. destruct k as [t]; destruct t; reflexivity.
Qed.

(** ** The process starts *)

Section start.
Context (k : Kernel) (program : UserProgram) (space : AddressSpace).
Hypothesis Hk : kernel_wf k.
Hypothesis Hroom : room k.
Hypothesis Hpid : 0 <= up_pid program < u32_max.
Hypothesis Hnew : find_process k (up_pid program) = None.
Hypothesis Htop : stack_top (as_layout space) <= USER_END.

Let k1 := k <| k_table := created_table k program space |>.
Let p := new_process k program space.

Lemma created_kernel_wf : kernel_wf k1.
Proof.
  pose proof (create_reserved_process_with_job_mode_ok (up_pid program) (up_parent_pid program) (up_name program)
    (up_path program) (up_arg program) (up_job_mode program) space Hpid Htop k Hk Hroom) as Hwp.
  unfold wp in Hwp. by rewrite create_reserved_eq in Hwp.
Qed.

Lemma find_created pid : find_process k1 pid = if pid =? up_pid program then Some p else find_process k pid.
Proof.
  unfold find_process, k1, created_table. simpl. rewrite find_app. simpl. rewrite (Z.eqb_sym (up_pid program)).
  destruct (Z.eqb_spec pid (up_pid program)) as [->|]; [unfold find_process in Hnew; by rewrite Hnew|].
  by destruct (List.find _ _).
Qed.

Lemma start_created :
  exists k2, Table.mark_running_fresh (up_pid program) k1 = Done ((), k2) /\ kernel_wf k2 /\
    only_process k (up_pid program) (started (k_ticks k) p) k2 /\ queue k2 = queue k /\ k_addr k2 = k_addr k.
Proof.
  set (pid := up_pid program) in *.
  assert (find_process k1 pid = Some p) as Hp by (rewrite find_created; unfold pid; by rewrite Z.eqb_refl).
  set (k1' := k1 <| k_preempt_pending := false |> <| k_pid_atomic := pid |>).
  assert (inv (shapes (k_table k1)) k1') as Hi by exact created_kernel_wf.
  assert (find_process k1' pid = Some p) as Hp' by exact Hp.
  set (k2 := with_process (fun q => pr_pid q =? pid) (started (k_ticks k) p) k1').
  set (k3 := k2 <| k_table ::= (fun t => t <| pt_user_context_switches := switches k2 + 1 |>) |>).
  assert (Table.start_process_run pid k1 = Done ((), k3)) as E.
  { unfold Table.start_process_run. run. rewrite Hp. run. fold k1'.
    rewrite (set_state_eq _ _ _ _ Hi Hp') by done. simpl is_dead. cbv iota. run.
    rewrite (upd_main_eq _ _ _ _ Hi Hp') by (by rewrite shape_upd_thread). run. rewrite put_process_eq, count_ok; [reflexivity|]. apply Hroom. }
  exists k3. split; [exact E|]. pose proof (start_process_run_safe (shapes (k_table k1)) pid k1 created_kernel_wf) as Hs.
  unfold wp in Hs. rewrite E in Hs. destruct Hs as (Hwf & _); [destruct Hroom as (_ & _ & ?); simpl; unfold switches in *; simpl; lia|].
  split; [by eapply inv_wf|]. split; [|done].
  intros pid'. change (find_process k3 pid') with (find_process k2 pid').
  rewrite (find_process_replaced _ k1' p (started (k_ticks k) p) k2 Hi); [|by apply with_process_replaced|by apply shape_started].
  change (find_process k1' pid') with (find_process k1 pid'). rewrite find_created.
  change (pr_pid p) with pid. rewrite (Z.eqb_sym pid). fold pid. by destruct (pid' =? pid).
Qed.
End start.

(** ** [register_exec] *)

(** What the new process has: one running thread on the stack of its layout,
    its parent's user, directory, group and session, no signals. *)
Record exec_process (k : Kernel) (program : UserProgram) (loaded : Current.LoadedProgram) (p : Process) : Prop := {
  xp_parent : pr_parent_pid p = up_parent_pid program;
  xp_image : pr_name p = up_name program /\ pr_program_path p = up_path program /\ pr_arg p = up_arg program /\
             as_entry_point (pr_address_space p) = Current.lp_entry loaded;
  xp_user : pr_credentials p = from_option pr_credentials Credentials.root (parent_of k program);
  xp_cwd : pr_cwd p = from_option pr_cwd Path.root (parent_of k program);
  xp_job : (pr_process_group_id p, pr_session_id p) = inherited_job (parent_of k program) (up_pid program);
  xp_fresh : pr_exit_status p = None /\ pr_pending_signals p = 0 /\ pr_blocked_signals p = 0;
  xp_thread : exists t, ts_items (pr_threads p) = [t] /\ th_tid t = main_tid p /\ th_state t = TRunning /\
    th_user_stack_start t = Some (stack_start (as_layout (pr_address_space p))) /\
    th_user_stack_top t = Some (stack_top (as_layout (pr_address_space p))) /\
    th_last_started_tick t = Some (k_ticks k);
}.

Lemma new_process_exec k program loaded lay frame :
  exec_process k program loaded (started (k_ticks k) (new_process k program (exec_space loaded lay frame))).
Proof.
  set (space := exec_space loaded lay frame).
  assert (as_entry_point space = Current.lp_entry loaded) as He by (by destruct frame).
  constructor; try done.
  - simpl. by destruct (inherited_job _ _).
  - unfold started, main_tid. simpl. rewrite Z.eqb_refl. simpl. rewrite Z.eqb_refl. eexists. by split_and!.
Qed.

(** The page table of a new process: one nobody held, or none when all were. *)
Definition frame_from_pool (old new : PrivateP4Pool) (frame : option Z) : Prop :=
  match frame with
  | Some f => ~ taken old f /\ taken new f /\ (forall i, ~ reserved new f i) /\
      forall g, g <> f -> taken new g <-> taken old g
  | None => new = old /\ forall s, s ∈ live_slots old -> taken old (sl_p4_frame s)
  end.

Lemma take_frame_eq k :
  kernel_wf k ->
  exists frame p, with_addr take_prepared_p4_frame k = Done (frame, k <| k_addr ::= (fun s => s <| ad_pool := p |>) |>) /\
    pool_wf p /\ frame_from_pool (ad_pool (k_addr k)) p frame.
Proof.
  intros [_ Hpool]. destruct (take_spec _ Hpool) as (frame & p & E & Hwf & H). exists frame, p. split.
  - unfold with_addr, take_prepared_p4_frame, with_pool. by rewrite E.
  - split; [done|]. destruct frame; [|done]. destruct H as (H1 & H2 & H3 & H4). split_and!; try done.
    intros g Hg. by apply H4.
Qed.

Lemma register_exec_eq k program loaded arg frame pool lay st k2 p :
  let space := exec_space loaded lay frame in
  let k1 := k <| k_addr ::= (fun s => s <| ad_pool := pool |>) |> in
  memory_layout_for_pid_with_program_size (up_pid program) (Z.of_nat (Current.lp_image_len loaded)) = Done lay ->
  with_addr take_prepared_p4_frame k = Done (frame, k1) -> Arg.as_bytes (up_arg program) = Done arg ->
  InitialStack.build_user_initial_stack (as_layout space) (up_path program) arg = Done (Ok st) ->
  0 <= up_pid program < u32_max -> find_process k1 (up_pid program) = None ->
  Table.mark_running_fresh (up_pid program) (k1 <| k_table := created_table k1 program space |>) = Done ((), k2) ->
  find_process k2 (up_pid program) = Some p ->
  Current.register_exec program loaded k =
  Done (Current.mkExec (up_pid program) (Current.lp_entry loaded) (is_stack_pointer st) (up_path program) (up_arg program)
          (as_layout space) (as_p4_frame space) (as_p4_verified space),
        k2 <| k_current_process := Some (up_pid program) |> <| k_current_thread := Some (main_tid p) |>
           <| k_pid_atomic := up_pid program |> <| k_tid_atomic := main_tid p |>).
Proof.
  intros space k1 El Ef Harg Est Hpid Hnew E2 Hp. unfold Current.register_exec. run. rewrite El. run. rewrite Ef. run.
  destruct frame; cbn [as_p4_verified as_p4_frame Space.verified_prepared_user Space.kernel_shared_user negb andb is_some].
  all: rewrite Harg; run; match goal with |- context [InitialStack.build_user_initial_stack ?l _ _] => change l with (as_layout space) end.
  all: rewrite Est; run.
  all: match goal with |- context [Table.create_reserved_process_with_job_mode _ _ _ _ _ _ ?sp _] => change sp with space end.
  all: rewrite create_reserved_eq by done; run; rewrite E2; run; rewrite Hp; run; reflexivity.
Qed.

(** C23. Starting a program.  For a program with a new process id, whose path
    and argument fit the first stack block, [register_exec] returns: the new
    process is the current one and its only thread runs, with what a process
    inherits from its parent; its page table is one nobody held, or the shared
    one when all are held; the stack pointer is 16-byte aligned and inside the
    process's stack, which lies in the stack region; no other process, no queue
    entry and no other page table changes. *)
Theorem exec_starts_process (k : Kernel) (program : UserProgram) (loaded : Current.LoadedProgram) (arg : bytes) :
  kernel_wf k -> room k -> 0 <= up_pid program < u32_max -> find_process k (up_pid program) = None ->
  Z.of_nat (Current.lp_image_len loaded) <= u64_max - 4096 ->
  Arg.as_bytes (up_arg program) = Done arg -> fits_block (up_path program) arg ->
  exists ec k' p, Current.register_exec program loaded k = Done (ec, k') /\ kernel_wf k' /\
    Current.ec_pid ec = up_pid program /\ k_current_process k' = Some (up_pid program) /\
    k_current_thread k' = Some (main_tid p) /\ only_process k (up_pid program) p k' /\ queue k' = queue k /\
    exec_process k program loaded p /\ pr_state p = PRunning /\
    Current.ec_layout ec = as_layout (pr_address_space p) /\ Current.ec_p4_frame ec = as_p4_frame (pr_address_space p) /\
    frame_from_pool (ad_pool (k_addr k)) (ad_pool (k_addr k')) (Current.ec_p4_frame ec) /\
    stack_area (Current.ec_layout ec) /\ Current.ec_user_stack_top ec mod 16 = 0 /\
    stack_start (Current.ec_layout ec) < Current.ec_user_stack_top ec <= stack_top (Current.ec_layout ec).
Proof.
  intros Hk Hroom Hpid Hnew Hsize Harg Hfit.
  destruct (take_frame_eq k Hk) as (frame & pool & Ef & Hwf & Hframe).
  destruct (exec_layout (up_pid program) (Z.of_nat (Current.lp_image_len loaded)) loaded frame) as (lay & El & Ha & _); [lia|lia|].
  set (space := exec_space loaded lay frame) in *.
  destruct (stack_area_block _ _ _ Ha Hfit) as (st & Est & H16 & Hst).
  set (k1 := k <| k_addr ::= (fun s => s <| ad_pool := pool |>) |>) in *.
  assert (kernel_wf k1) as Hk1 by (split; [apply Hk|exact Hwf]).
  destruct (start_created k1 program space Hk1 Hroom Hpid Hnew (stack_area_user _ Ha)) as (k2 & E2 & Hk2 & Ho & Hq & Hadr).
  change (new_process k1 program space) with (new_process k program space) in Ho. change (k_ticks k1) with (k_ticks k) in Ho.
  set (p := started (k_ticks k) (new_process k program space)) in *.
  assert (find_process k2 (up_pid program) = Some p) as Hp by (rewrite Ho; by rewrite Z.eqb_refl).
  eexists _, _, p. split; [by eapply register_exec_eq|]. split; [exact Hk2|].
  split; [done|]. split; [done|]. split; [done|]. split; [exact Ho|]. split; [exact Hq|].
  split; [apply new_process_exec|]. split; [done|]. split; [done|]. split; [done|].
  split; [|split; [exact Ha|split; [exact H16|exact Hst]]].
  change (frame_from_pool (ad_pool (k_addr k)) (ad_pool (k_addr k2)) (as_p4_frame space)). rewrite Hadr. by destruct frame.
Qed.

(** ** A concrete instance *)

(** The demonstration kernel starts a third program. *)
Definition demo_program : UserProgram :=
  mkProgram 7 (Some 1) (str "ls") (str "/bin/ls") FIRST_USER_ENTRY FIRST_USER_STACK_TOP
    (mkArg (str "/tmp" ++ replicate 60 0) 4) Foreground.

Lemma exec_starts_process_witness :
  exists ec k', Current.register_exec demo_program (Current.mkLoaded (str "/bin/ls") 0x1000000 0x1400000 5000) demo_kernel =
    Done (ec, k') /\ kernel_wf k' /\ k_current_process k' = Some 7 /\ Current.ec_user_stack_top ec mod 16 = 0.
Proof.
  destruct (exec_starts_process demo_kernel demo_program (Current.mkLoaded (str "/bin/ls") 0x1000000 0x1400000 5000) (str "/tmp"))
    as (ec & k' & p & E & Hk & _ & Hc & _ & _ & _ & _ & _ & _ & _ & _ & _ & H16 & _).
  - exact demo_kernel_wf.
  - vm_compute. split; [reflexivity|split; reflexivity].
  - vm_compute. split; [discriminate|reflexivity].
  - vm_compute. reflexivity.
  - vm_compute. discriminate.
  - vm_compute. reflexivity.
  - split; [discriminate|vm_compute; lia].
  - exists ec, k'. split; [exact E|]. split; [exact Hk|]. split; [exact Hc|exact H16].
Defined.
