(* ===== verification/CurrentProofs.v ===== *)
(** * Process end to end

    Ending the current process gives back everything it held (C31); a user
    name decides the user id; the timer asks for preemption at most once
    per quantum (C40). *)

From S2P Require Import Prelude Utf8 Paths Vfs Ring3 Elf AddrSpace AddrSpaceProofs Threads Program Ipc Process TableSafety Views Scheduling Signals Current.

(** ** What a dead process held *)

(** The slots of [pid] are empty, the others are as before. *)
Definition freed {A} (owner : A -> Z) (pid : Z) (old new : list (option A)) : Prop :=
  length new = length old /\
  forall i, new !! i = (fun s => match s with Some x => if owner x =? pid then None else Some x | None => None end) <$> old !! i.

Lemma clear_owned_freed {A} (owner : A -> Z) pid l : freed owner pid l (Fds.clear_owned owner pid l).
Proof.
  unfold Fds.clear_owned. split; [apply length_map|]. intros i. rewrite list_lookup_fmap.
  destruct (l !! i) as [[x|]|]; [|done|done]. simpl. by destruct (owner x =? pid).
Qed.

(** A pipe of another process is not touched by closing an end of [pid]. *)
Definition other_pipes (pid : Z) (old new : list (option Pipe)) : Prop :=
  forall i p, pi_owner_pid p <> pid -> new !! i = Some (Some p) <-> old !! i = Some (Some p).

Lemma find_upd_lookup {A} (q : A -> bool) upd (l : list A) i x :
  (forall y, q y = true -> upd y <> x /\ y <> x) -> find_upd q upd l !! i = Some x <-> l !! i = Some x.
Proof.
  intros Hu. revert i; induction l as [|y l IH]; intros i; simpl; [done|].
  destruct (q y) eqn:E; destruct i as [|i]; simpl; [|done|done|apply IH].
  destruct (Hu y E). split; intros [= ?]; congruence.
Qed.

Lemma close_pipe_end_other pipe_id pid r l : other_pipes pid l (Fds.close_pipe_end pipe_id pid r l).
Proof.
  intros i p Hp. apply find_upd_lookup. intros [y|]; unfold Fds.is_pipe; [|done]. intros H. bool_to_prop.
  split; [|intros [= ->]; congruence]. destruct (_ && _); [done|]. intros [= <-]. destruct r; simpl in Hp; congruence.
Qed.

Lemma close_descriptor_other pid f s :
  ip_files (Fds.close_descriptor pid f s) = ip_files s /\ ip_events (Fds.close_descriptor pid f s) = ip_events s /\
  ip_queues (Fds.close_descriptor pid f s) = ip_queues s /\
  other_pipes pid (ip_pipes s) (ip_pipes (Fds.close_descriptor pid f s)).
Proof.
  unfold Fds.close_descriptor. destruct (of_descriptor f); (do 3 (split; [done|])); try done; apply close_pipe_end_other.
Qed.

Lemma close_files_spec pid files : forall s,
  let '(s', files') := Fds.close_files pid files s in
  files' = Fds.clear_owned of_pid pid files /\ ip_events s' = ip_events s /\ ip_queues s' = ip_queues s /\
  other_pipes pid (ip_pipes s) (ip_pipes s').
Proof.
  induction files as [|e files IH]; intros s; [done|]. cbn [Fds.close_files].
  set (r := match e with Some file => _ | None => _ end).
  assert (r.2 = match e with Some x => if of_pid x =? pid then None else e | None => None end /\
    ip_events r.1 = ip_events s /\ ip_queues r.1 = ip_queues s /\ other_pipes pid (ip_pipes s) (ip_pipes r.1)) as (H1 & H2 & H3 & H4).
  { unfold r. destruct e as [x|]; [|done]. destruct (of_pid x =? pid); [|done]. simpl.
    destruct (close_descriptor_other pid x s) as (_ & ? & ? & ?). done. }
  destruct r as [s1 e']. simpl in *. specialize (IH s1). destruct (Fds.close_files pid files s1) as [s2 files'].
  destruct IH as (-> & I2 & I3 & I4). split; [by rewrite H1|]. split; [congruence|]. split; [congruence|].
  intros i p Hp. rewrite (I4 i p Hp). by apply H4.
Qed.

Definition ipc_released (pid : Z) (s s' : IpcState) : Prop :=
  freed of_pid pid (ip_files s) (ip_files s') /\ freed ev_owner_pid pid (ip_events s) (ip_events s') /\
  freed mq_owner_pid pid (ip_queues s) (ip_queues s') /\ other_pipes pid (ip_pipes s) (ip_pipes s').

Lemma close_process_files_spec pid s : ipc_released pid s (Fds.close_process_files pid s).
Proof.
  unfold Fds.close_process_files, ipc_released. pose proof (close_files_spec pid (ip_files s) s) as H.
  destruct (Fds.close_files pid (ip_files s) s) as [s' files]. destruct H as (-> & H2 & H3 & H4). simpl.
  rewrite H2, H3. split_and!; [apply clear_owned_freed..|done].
Qed.

(** The page table goes back to the pool. *)
Lemma release_spec p p4 :
  pool_wf p -> exists b p', Pool.release p4 p = Done (b, p') /\ pool_wf p' /\ ~ taken p' p4 /\
    forall g, g <> p4 -> taken p' g <-> taken p g.
Proof.
  intros Hwf. pose proof (release_ok p p4 Hwf) as Hok. unfold wp in Hok. revert Hok. unfold Pool.release. run.
  rewrite live_ok by done. destruct (List.find _ _) as [s|] eqn:Es; intros Hok; cycle 1.
  { eexists _, p. split; [done|]. split; [done|]. split; [|done]. intros (s & Hs & Hp & _).
    rewrite find_key_None in Es. by destruct (Es s Hs). }
  eexists _, _. split; [done|]. split; [exact Hok|].
  set (upd := fun s : PreparedP4Slot => s <| sl_in_use := false |> <| sl_stack_in_use := replicate (length (sl_stack_in_use s)) false |>).
  assert (forall s, (sl_p4_frame s =? p4) = true -> sl_p4_frame s = p4) as Hq by (intros x Hx; by apply Z.eqb_eq in Hx).
  split.
  - intros (s' & Hs' & Hp & Hu). apply (elem_of_updated_live p Hwf p4 _ upd Hq) in Hs' as (s0 & -> & Hs0).
    destruct (Z.eqb_spec (sl_p4_frame s0) p4); [done|]. congruence.
  - intros g Hg. apply (taken_updated p p4); [done|done| |done]. intros s0 [H1 H2 H3] _. split; [|done].
    constructor; simpl; [by rewrite length_replicate|done|by rewrite H1].
Qed.

(** ** The end of the current process *)

(** Nobody is on the processor. *)
Definition no_current_user (k : Kernel) : Prop :=
  k_current_process k = None /\ k_current_thread k = None /\ k_pid_atomic k = 0 /\ k_tid_atomic k = 0 /\
  k_preempt_pending k = false.

Definition frame_free (p4_frame : option Z) (k : Kernel) : Prop :=
  match p4_frame with Some f => ~ taken (ad_pool (k_addr k)) f | None => True end.

Lemma release_frame_spec Sh k f :
  inv Sh k -> exists k', Current.release_frame f k = Done ((), k') /\ inv Sh k' /\ frame_free f k' /\
    k' = k <| k_addr := k_addr k' |> /\
    forall g, Some g <> f -> taken (ad_pool (k_addr k')) g <-> taken (ad_pool (k_addr k)) g.
Proof.
  intros [Ht Hpool]. destruct f as [f|]; [|exists k; split; [done|]; split; [done|]; split; [done|]; split; [by destruct k|done]].
  destruct (release_spec (ad_pool (k_addr k)) f Hpool) as (b & p' & E & Hwf & Hn & Ho).
  exists (k <| k_addr ::= (fun s => s <| ad_pool := p' |>) |>). split.
  { unfold Current.release_frame, with_addr, release_prepared_p4_frame, with_pool. run. by rewrite E. }
  split; [done|]. split; [done|]. split; [done|]. intros g Hg. apply Ho. congruence.
Qed.

(** C31. Exit gives everything back.  When the current process exits, nobody
    is current any more and no preemption is pending; the process is dead with
    its status and none of its threads is queued; its descriptors, events and
    message queues are closed and nobody else's are; its page table is free in
    the pool, and no other page table changed hands. *)
Theorem current_exit_releases_all (k : Kernel) (pid tid status : Z) (p : Process) :
  kernel_wf k -> k_current_process k = Some pid -> k_current_thread k = Some tid -> find_process k pid = Some p ->
  exists k', Current.mark_current_user_exited status k = Done (Some pid, k') /\ kernel_wf k' /\ no_current_user k' /\
    k_last_exited k' = Some pid /\ only_process k pid (exited (k_ticks k) status p) k' /\
    queue k' = without p (queue k) /\ ipc_released pid (k_ipc k) (k_ipc k') /\
    frame_free (as_p4_frame (pr_address_space p)) k' /\
    (forall g, Some g <> as_p4_frame (pr_address_space p) ->
       taken (ad_pool (k_addr k')) g <-> taken (ad_pool (k_addr k)) g).
Proof.
  intros Hk Hcp Hct Hp.
  set (k1 := k <| k_current_process := None |> <| k_current_thread := None |> <| k_pid_atomic := 0 |>
               <| k_tid_atomic := 0 |> <| k_preempt_pending := false |> <| k_ipc ::= Fds.close_process_files pid |>).
  assert (inv (shapes (k_table k)) k1) as Hi1 by exact Hk.
  assert (find_process k1 pid = Some p) as Hp1 by exact Hp.
  destruct (mark_exited_spec _ k1 pid status p Hi1 Hp1) as (k2 & E2 & Hi2 & Ho2 & Hq2 & _).
  rewrite (mark_exited_eq _ k1 pid status p Hi1 Hp1) in E2. injection E2 as <-.
  set (k2 := exit_state pid status p k1) in *. set (k3 := k2 <| k_last_exited := Some pid |>).
  destruct (release_frame_spec _ k3 (as_p4_frame (pr_address_space p)) Hi2) as (k' & E' & Hi' & Hfree & Heq & Hoth).
  exists k'. split.
  { unfold Current.mark_current_user_exited, Current.take_current_user, Current.close_process_files. run.
    rewrite Hcp, Hct. run. fold k1. unfold Table.p4_frame_for. rewrite Hp1. simpl.
    rewrite (mark_exited_eq _ k1 pid status p Hi1 Hp1). fold k2 k3. by rewrite E'. }
  assert (k_addr k2 = k_addr k /\ k_ipc k2 = Fds.close_process_files pid (k_ipc k) /\ no_current_user k2) as (Ha & Hipc & Hno).
  { unfold k2, exit_state, released. destruct (_ =? pid); unfold no_current_user; split_and!; reflexivity. }
  split; [by eapply inv_wf|]. rewrite Heq. split; [exact Hno|]. split; [done|]. split; [exact Ho2|]. split; [exact Hq2|].
  split; [change (ipc_released pid (k_ipc k) (k_ipc k2)); rewrite Hipc; apply close_process_files_spec|]. split; [exact Hfree|].
  intros g Hg. rewrite <-Ha. exact (Hoth g Hg).
Qed.

(** ** User names *)

Definition space (b : Z) : bool := b =? 32.

(** [t] is [name] without the spaces around it. *)
Definition trimmed (name t : bytes) : Prop :=
  exists a b, name = a ++ t ++ b /\ forallb space a = true /\ forallb space b = true /\
    (forall x, head t = Some x -> space x = false) /\ (forall x, last t = Some x -> space x = false).

Lemma trim_left_spec fuel : forall l start end_,
  (start <= end_ <= length l)%nat -> (end_ - start <= fuel)%nat ->
  exists s, Credentials.trim_left fuel l start end_ = Done s /\ (start <= s <= end_)%nat /\
    (forall i, (start <= i < s)%nat -> l !! i = Some 32) /\ (s < end_ -> exists x, l !! s = Some x /\ space x = false)%nat.
Proof.
  induction fuel as [|fuel IH]; intros l start end_ H1 H2; cbn [Credentials.trim_left].
  { exists start. split; [done|]. split; [lia|]. split; intros; lia. }
  destruct (Nat.ltb_spec start end_); [|exists start; split; [done|]; split; [lia|]; split; intros; lia].
  destruct (lookup_lt_is_Some_2 l start) as [x Hx]; [lia|]. rewrite (proj2 (index_Done _ _ _) Hx). run.
  destruct (Z.eqb_spec x 32) as [->|Hne]; cycle 1.
  { exists start. split; [done|]. split; [lia|]. split; [intros; lia|]. intros _. exists x. split; [done|]. by apply Z.eqb_neq. }
  destruct (IH l (start + 1)%nat end_) as (s & E & Hs & Ha & Hb); [lia|lia|]. exists s. split; [done|]. split; [lia|].
  split; [|done]. intros i Hi. destruct (Nat.eq_dec i start) as [->|]; [done|]. apply Ha. lia.
Qed.

Lemma trim_right_spec fuel : forall l start end_,
  (start <= end_ <= length l)%nat -> (end_ - start <= fuel)%nat ->
  exists e, Credentials.trim_right fuel l start end_ = Done e /\ (start <= e <= end_)%nat /\
    (forall i, (e <= i < end_)%nat -> l !! i = Some 32) /\ (start < e -> exists x, l !! (e - 1)%nat = Some x /\ space x = false)%nat.
Proof.
  induction fuel as [|fuel IH]; intros l start end_ H1 H2; cbn [Credentials.trim_right].
  { exists end_. split; [done|]. split; [lia|]. split; intros; lia. }
  destruct (Nat.ltb_spec start end_); [|exists end_; split; [done|]; split; [lia|]; split; intros; lia].
  destruct (lookup_lt_is_Some_2 l (end_ - 1)) as [x Hx]; [lia|]. rewrite (proj2 (index_Done _ _ _) Hx). run.
  destruct (Z.eqb_spec x 32) as [->|Hne]; cycle 1.
  { exists end_. split; [done|]. split; [lia|]. split; [intros; lia|]. intros _. exists x. split; [done|]. by apply Z.eqb_neq. }
  destruct (IH l start (end_ - 1)%nat) as (e & E & He & Ha & Hb); [lia|lia|]. exists e. split; [done|]. split; [lia|].
  split; [|done]. intros i Hi. destruct (Nat.eq_dec i (end_ - 1)%nat) as [->|]; [done|]. apply Ha. lia.
Qed.

Lemma forallb_space (l : bytes) : (forall i, (i < length l)%nat -> l !! i = Some 32) -> forallb space l = true.
Proof.
  intros H. apply forallb_forall. intros x Hx%list_elem_of_In. apply list_elem_of_lookup_1 in Hx as [i Hi].
  rewrite H in Hi by (by eapply lookup_lt_Some). by injection Hi as <-.
Qed.

Lemma trim_spec name : exists t, Credentials.trim_ascii_spaces name = Done t /\ trimmed name t.
Proof.
  unfold Credentials.trim_ascii_spaces. run.
  destruct (trim_left_spec (length name) name 0 (length name)) as (s & -> & Hs & Ha & Hb); [lia|lia|].
  destruct (trim_right_spec (length name) name s (length name)) as (e & -> & He & Hc & Hd); [lia|lia|].
  rewrite slice_ok by lia. set (t := take (e - s) (drop s name)). exists t. split; [done|].
  assert (length t = (e - s)%nat) as Hl by (unfold t; rewrite length_take, length_drop; lia).
  assert (forall i, (i < e - s)%nat -> t !! i = name !! (s + i)%nat) as Ht
    by (intros i Hi; unfold t; rewrite lookup_take_lt, lookup_drop by lia; done).
  exists (take s name), (drop e name). split; [|split; [|split; [|split]]].
  - unfold t. rewrite <-(take_drop s name) at 1. f_equal. rewrite <-(take_drop (e - s) (drop s name)) at 1. f_equal.
    rewrite drop_drop. f_equal. lia.
  - apply forallb_space. intros i Hi. rewrite length_take in Hi. rewrite lookup_take_lt by lia. apply Ha. lia.
  - apply forallb_space. intros i Hi. rewrite length_drop in Hi. rewrite lookup_drop. apply Hc. lia.
  - intros x Hx. rewrite head_lookup in Hx. pose proof (lookup_lt_Some _ _ _ Hx) as Hlt. rewrite Ht in Hx by lia.
    rewrite Nat.add_0_r in Hx. destruct Hb as (y & Hy & Hsp); [lia|]. congruence.
  - intros x Hx. rewrite last_lookup in Hx. pose proof (lookup_lt_Some _ _ _ Hx) as Hlt. rewrite Ht in Hx by lia.
    destruct Hd as (y & Hy & Hsp); [lia|]. replace (s + Init.Nat.pred (length t))%nat with (e - 1)%nat in Hx by lia. congruence.
Qed.

Lemma from_username_spec (name : bytes) :
  exists t c, trimmed name t /\ Credentials.from_username name = Done c /\
    (cr_uid c = 0 <-> t = str "root") /\ Credentials.username c = Done (take 16 t).
Proof.
  destruct (trim_spec name) as (t & E & Ht). exists t. unfold Credentials.from_username. run. rewrite E.
  destruct (bytes_eqb t (str "root")) eqn:Er; bool_to_prop.
  - exists Credentials.root. split; [done|]. split; [done|]. split; [done|]. rewrite Er. reflexivity.
  - set (len := Nat.min (length t) USERNAME_MAX_LEN).
    assert (USERNAME_MAX_LEN = 16%nat) as H16 by done.
    rewrite slice_ok by lia. rewrite copy_slice_ok; [|rewrite length_replicate; lia|rewrite length_take, length_drop; lia].
    eexists. split; [done|]. split; [done|]. split; [by split; [|intros ->]|].
    unfold Credentials.username. simpl cr_username. simpl cr_username_len.
    rewrite slice_ok by (rewrite length_app, length_drop, length_take, length_drop; cbn [length]; lia).
    rewrite !drop_0, !Nat.sub_0_r. rewrite take_app_length' by (rewrite length_take; lia).
    f_equal. unfold len. rewrite H16. destruct (Nat.le_ge_cases (length t) 16).
    + rewrite !take_ge by lia. done.
    + by rewrite Nat.min_r by lia.
Qed.

(** User names.  Whatever the name, [from_username] returns credentials:
    the spaces around the name do not count, the user id is root's exactly for
    the name "root", and the name kept is the first 16 bytes. *)
Theorem username_decides_uid (name : bytes) :
  exists t c, trimmed name t /\ Credentials.from_username name = Done c /\
    (cr_uid c = 0 <-> t = str "root") /\ Credentials.username c = Done (take 16 t).
Proof. apply from_username_spec. Qed.

(** ** The timer *)

Fixpoint timer_interrupts (n : nat) : M Kernel () :=
  match n with O => mret () | S n => timer_interrupts n;; Current.timer_interrupt_dispatch None;; mret () end.

(** The state after [n] interrupts, [q] of which asked for preemption. *)
Definition after_interrupts (k k' : Kernel) (n q : Z) : Prop :=
  k_ticks k' = k_ticks k + n /\ k_preempt_requests k' = k_preempt_requests k + q /\
  k_preempt_pending k' = k_preempt_pending k || (0 <? q) /\
  k_last_preempt_tick k' = k_last_preempt_tick k + USER_PREEMPT_QUANTUM_TICKS * q /\
  k_pid_atomic k' = k_pid_atomic k /\ k_table k' = k_table k.

Lemma u64_incr_small n : 0 <= n < u64_max -> u64_wrapping_incr n = n + 1.
Proof. intros H. unfold u64_wrapping_incr. apply Z.mod_small. lia. Qed.

Lemma timer_interrupt_step k :
  0 <= k_ticks k < u64_max -> k_pid_atomic k <> 0 -> 0 <= k_preempt_requests k < u64_max ->
  let due := USER_PREEMPT_QUANTUM_TICKS <=? k_ticks k + 1 - k_last_preempt_tick k in
  k_last_preempt_tick k <= k_ticks k ->
  exists k', Current.timer_interrupt_dispatch None k = Done (None, k') /\
    k_ticks k' = k_ticks k + 1 /\ k_pid_atomic k' = k_pid_atomic k /\ k_table k' = k_table k /\
    k_preempt_requests k' = (if due then k_preempt_requests k + 1 else k_preempt_requests k) /\
    k_preempt_pending k' = k_preempt_pending k || due /\
    k_last_preempt_tick k' = (if due then k_ticks k + 1 else k_last_preempt_tick k).
Proof.
  intros Ht Hp Hr due Hl. unfold Current.timer_interrupt_dispatch, Current.timer_tick, Current.record_timer_preemption_check. run.
  destruct (Z.eqb_spec (k_ticks k) u64_max); [lia|]. run.
  set (k1 := k <| k_ticks ::= u64_wrapping_incr |> <| k_preempt_checks ::= u64_wrapping_incr |>).
  assert (k_ticks k1 = k_ticks k + 1) as Ht1 by (apply u64_incr_small; lia).
  change (k_pid_atomic k1) with (k_pid_atomic k). change (k_last_preempt_tick k1) with (k_last_preempt_tick k). rewrite Ht1.
  destruct (Z.eqb_spec (k_pid_atomic k) 0); [done|].
  unfold saturating_sub, due. rewrite Z.max_r by lia. clear due.
  destruct (Z.ltb_spec (k_ticks k + 1 - k_last_preempt_tick k) USER_PREEMPT_QUANTUM_TICKS) as [H|H].
  - rewrite (proj2 (Z.leb_gt _ _)) by lia. run. exists k1. rewrite orb_false_r. by split_and!.
  - rewrite (proj2 (Z.leb_le _ _)) by lia. run. eexists. split; [done|]. rewrite orb_true_r.
    split_and!; try done. apply u64_incr_small. lia.
Qed.

(** C40. Preemption once per quantum.  With a user thread on the processor and
    the last request less than a quantum old, [n] timer interrupts taken in the
    kernel ask for preemption exactly once in every ten ticks, counted from the
    last request; the request stays pending until it is served, and the
    process table is not touched. *)
Theorem preemption_once_per_quantum (k : Kernel) (n : nat) :
  k_pid_atomic k <> 0 -> 0 <= k_last_preempt_tick k <= k_ticks k ->
  k_ticks k < k_last_preempt_tick k + USER_PREEMPT_QUANTUM_TICKS ->
  k_ticks k + Z.of_nat n <= u64_max -> 0 <= k_preempt_requests k -> k_preempt_requests k + Z.of_nat n <= u64_max ->
  exists k', timer_interrupts n k = Done ((), k') /\
    after_interrupts k k' (Z.of_nat n) ((k_ticks k + Z.of_nat n - k_last_preempt_tick k) / USER_PREEMPT_QUANTUM_TICKS).
Proof.
  intros Hp Hl Hq. unfold USER_PREEMPT_QUANTUM_TICKS in *. induction n as [|n IH]; intros Ht Hr0 Hr.
  - exists k. split; [done|]. rewrite Z.add_0_r, Z.div_small by lia.
    unfold after_interrupts. rewrite orb_false_r. split_and!; try done; lia.
  - destruct IH as (k1 & E1 & H1 & H2 & H3 & H4 & H5 & H6); [lia|lia|lia|].
    set (d := k_ticks k - k_last_preempt_tick k) in *.
    replace (k_ticks k + Z.of_nat n - k_last_preempt_tick k) with (d + Z.of_nat n) in * by lia.
    replace (k_ticks k + Z.of_nat (S n) - k_last_preempt_tick k) with (d + Z.of_nat n + 1) by lia.
    set (m := d + Z.of_nat n) in *. unfold USER_PREEMPT_QUANTUM_TICKS in *.
    assert (0 <= m / 10 <= Z.of_nat n /\ 10 * (m / 10) <= m < 10 * (m / 10) + 10) as [Hm Hd]
      by (pose proof (Z.div_mod m 10); pose proof (Z.mod_pos_bound m 10); lia).
    destruct (timer_interrupt_step k1) as (k2 & E2 & G1 & G2 & G3 & G4 & G5 & G6); [lia|congruence|lia|lia|].
    exists k2. split; [simpl; run; by rewrite E1, E2|].
    unfold USER_PREEMPT_QUANTUM_TICKS in *.
    assert ((m + 1) / 10 = if 10 <=? k_ticks k1 + 1 - k_last_preempt_tick k1 then m / 10 + 1 else m / 10) as Hdiv.
    { destruct (Z.leb_spec 10 (k_ticks k1 + 1 - k_last_preempt_tick k1)); symmetry; apply Z.div_unique with (m + 1 - 10 * (if 10 <=? k_ticks k1 + 1 - k_last_preempt_tick k1 then m / 10 + 1 else m / 10)); destruct (Z.leb_spec 10 (k_ticks k1 + 1 - k_last_preempt_tick k1)); lia. }
    rewrite Hdiv, H3 in *. clear Hdiv. unfold after_interrupts.
    destruct (Z.leb_spec 10 (k_ticks k1 + 1 - k_last_preempt_tick k1)).
    + split; [lia|]. split; [lia|]. split; [|split; [unfold USER_PREEMPT_QUANTUM_TICKS; lia|split; congruence]].
      rewrite G5, orb_true_r. rewrite (proj2 (Z.ltb_lt 0 (m / 10 + 1))) by lia. by rewrite orb_true_r.
    + split; [lia|]. split; [lia|]. split; [by rewrite G5, orb_false_r|]. split; [unfold USER_PREEMPT_QUANTUM_TICKS; lia|split; congruence].
Qed.

(** ** Concrete instances *)

Definition current_kernel : Kernel := state_of Current.schedule_next_ready_user demo_kernel.

Lemma current_exit_releases_all_witness :
  exists k', Current.mark_current_user_exited 7 current_kernel = Done (Some 1, k') /\ kernel_wf k' /\ no_current_user k'.
Proof.
  destruct (find_process current_kernel 1) as [p|] eqn:Hp; [|vm_compute in Hp; discriminate Hp].
  destruct (current_exit_releases_all current_kernel 1 1 7 p) as (k' & E & Hk & Hn & _).
  - apply kernel_check; [vm_compute; reflexivity|exact demo_pool_wf].
  - vm_compute. reflexivity.
  - vm_compute. reflexivity.
  - exact Hp.
  - exists k'. split; [exact E|]. split; [exact Hk|exact Hn].
Defined.

Lemma preemption_once_per_quantum_witness :
  exists k', timer_interrupts 25 current_kernel = Done ((), k') /\ after_interrupts current_kernel k' 25 2.
Proof.
  destruct (preemption_once_per_quantum current_kernel 25) as (k' & E & H);
    [vm_compute; discriminate|vm_compute; split; discriminate|vm_compute; reflexivity|vm_compute; discriminate
    |vm_compute; discriminate|vm_compute; discriminate|].
  exists k'. split; [exact E|exact H].
Defined.
