(* ===== verification/Text.v ===== *)
(** * Text for user programs

    The kernel hands text to user programs through fixed buffers: the process
    listing (user/process.rs), the lists of PCI and network devices and of
    driver states (drivers/pci.rs, network.rs, status.rs), decimal numbers
    (user/syscall.rs) and the recent serial log (serial.rs).  Each file has its
    own [BufferWriter]: the one of process.rs counts on past the end of the
    buffer, those of the drivers stop there. *)

From S2P Require Import Prelude Utf8 Paths Vfs Ring3 Elf AddrSpace Threads Program Ipc Process.

Definition SPACE : Z := 32.
Definition NEWLINE : Z := 10.

(** ** Writers *)

Record BufferWriter := mkWriter { bw_out : bytes; bw_len : nat }.

#[export] Instance eta_writer : Eta BufferWriter := fun r => mkWriter (bw_out r) (bw_len r).

Definition writer_new (out : bytes) : BufferWriter := mkWriter out 0.

(** What differs between the writers is [write_byte]. *)
Class ByteSink := write_byte : Z -> M BufferWriter ().

(** process.rs: the length counts every byte. *)
#[export] Instance counting_sink : ByteSink := fun byte =>
  w ← get;
  (if (bw_len w <? length (bw_out w))%nat
   then out ← lift (index_set (bw_out w) (bw_len w) byte); modify (fun w => w <| bw_out := out |>)
   else mret ());;
  modify (fun w => w <| bw_len ::= S |>).

(** drivers: the length counts the bytes stored. *)
Definition stopping_sink : ByteSink := fun byte =>
  w ← get;
  if (bw_len w <? length (bw_out w))%nat
  then out ← lift (index_set (bw_out w) (bw_len w) byte); modify (fun w => w <| bw_out := out |> <| bw_len ::= S |>)
  else mret ().

(** The loop that fills [digits] from the least significant digit. *)
Fixpoint digits_loop (fuel : nat) (value : Z) (digits : bytes) (len : nat) : outcome (bytes * nat) :=
  if value <=? 0 then mret (digits, len) else
  match fuel with
  | O => Panic
  | S fuel =>
    digits ← index_set digits len (48 + value mod 10);
    digits_loop fuel (value / 10) digits (S len)
  end.

Definition DIGITS : nat := 20.
Definition decimal_digits (value : Z) : outcome (bytes * nat) := digits_loop (S DIGITS) value (replicate DIGITS 0) 0.

Section writer.
Context `{Sink : ByteSink}.
Abbreviation W := (M BufferWriter ()).

Fixpoint write_str (text : bytes) : W :=
  match text with [] => mret () | byte :: text => write_byte byte;; write_str text end.

(** [for _ in len..width { write_byte(b' ') }] *)
Definition pad_to_width (len width : nat) : W := write_str (replicate (width - len) SPACE).

(** [while len > 0 { len -= 1; write_byte(digits[len]) }] *)
Fixpoint write_digits (digits : bytes) (len : nat) : W :=
  match len with
  | O => mret ()
  | S len => byte ← lift (index digits len); write_byte byte;; write_digits digits len
  end.

(** [write_u64] of process.rs, [write_dec] of the drivers; [value as u64] *)
Definition write_u64 (value : Z) : W :=
  let value := value mod 2 ^ 64 in
  if value =? 0 then write_byte 48 else
  '(digits, len) ← lift (decimal_digits value);
  write_digits digits len.

Definition write_str_padded (value : bytes) (width : nat) : W :=
  write_str value;; pad_to_width (length value) width.

Definition write_hex_nibble (nibble : Z) : W :=
  let value := Z.land nibble 0xF in
  write_byte (if value <=? 9 then 48 + value else 97 + (value - 10)).

Definition write_hex_u8 (value : Z) : W := write_hex_nibble (Z.shiftr value 4);; write_hex_nibble (Z.land value 0xF).
Definition write_hex_u16 (value : Z) : W := write_hex_u8 (Z.land (Z.shiftr value 8) 0xFF);; write_hex_u8 (Z.land value 0xFF).
Definition write_hex_u32 (value : Z) : W :=
  write_hex_u16 (Z.land (Z.shiftr value 16) 0xFFFF);; write_hex_u16 (Z.land value 0xFFFF).
End writer.

(** ** The process listing *)

(** The counting loop of [decimal_len]. *)
Fixpoint decimal_len_loop (fuel : nat) (value : Z) (len : nat) : nat :=
  if value <=? 0 then len else
  match fuel with O => len | S fuel => decimal_len_loop fuel (value / 10) (S len) end.

Definition decimal_len (value : Z) : nat := if value =? 0 then 1 else decimal_len_loop (S DIGITS) value 0.

Abbreviation W := (M BufferWriter ()).

Definition write_usize (value : nat) : W := write_u64 (Z.of_nat value).

Definition write_usize_padded (value width : nat) : W :=
  write_usize value;; pad_to_width (decimal_len (Z.of_nat value)) width.

Definition write_u64_padded (value : Z) (width : nat) : W :=
  pad_to_width (decimal_len value) width;; write_u64 value.

Definition write_dash (width : nat) : W := pad_to_width 1 width;; write_byte 45.

Definition write_opt_u32_padded (value : option Z) (width : nat) : W :=
  match value with Some value => write_u64_padded value width | None => write_dash width end.

Definition write_opt_usize_padded (value : option nat) (width : nat) : W :=
  match value with Some value => write_u64_padded (Z.of_nat value) width | None => write_dash width end.

Definition write_exit_status (value : option Z) : W :=
  match value with Some value => write_u64_padded value 4 | None => write_dash 4 end.

Definition process_state_name (s : ProcessState) : bytes :=
  match s with
  | PCreated => str "Created" | PReady => str "Ready" | PRunning => str "Running" | PBlocked => str "Blocked"
  | PStopped => str "Stopped" | PExited => str "Exited" | PZombie => str "Zombie" | PReaped => str "Reaped"
  end.

Definition process_kind_name (k : ProcessKind) : bytes :=
  match k with KernelTask => str "KERN" | UserProcess => str "USER" end.

Definition job_mode_name (m : JobMode) : bytes := match m with Foreground => str "FG" | Background => str "BG" end.

Definition write_process (k : Kernel) (now : Z) (p : Process) : W :=
  write_u64_padded (pr_pid p) 4;; write_byte SPACE;;
  write_u64_padded (main_tid p) 4;; write_byte SPACE;;
  write_usize_padded (TStore.len (pr_threads p)) 3;; write_byte SPACE;;
  write_opt_u32_padded (pr_parent_pid p) 4;; write_byte SPACE;;
  write_u64_padded (pr_process_group_id p) 4;; write_byte SPACE;;
  write_u64_padded (pr_session_id p) 4;; write_byte SPACE;;
  write_str (process_kind_name (pr_kind p));; write_byte SPACE;;
  write_str (job_mode_name (pr_job_mode p));; write_byte SPACE;;
  write_str_padded (process_state_name (pr_state p)) 7;; write_byte SPACE;;
  write_exit_status (pr_exit_status p);; write_byte SPACE;;
  write_opt_u32_padded (pr_waiting_for p) 4;; write_byte SPACE;;
  write_opt_usize_padded (Table.ready_queue_position k (pr_pid p)) 3;; write_byte SPACE;;
  main ← lift (TStore.main (pr_threads p));
  write_u64_padded (th_context_switches main) 5;; write_byte SPACE;;
  ticks ← lift (Table.runtime_ticks_snapshot p now);
  write_u64_padded ticks 5;; write_byte SPACE;;
  write_str_padded (pr_name p) 10;;
  arg ← lift (Arg.as_str (pr_arg p));
  write_str arg;; write_byte NEWLINE.

Fixpoint write_all {A} (write : A -> W) (l : list A) : W :=
  match l with [] => mret () | x :: l => write x;; write_all write l end.

(** One [label=value] of the first line. *)
Definition write_field (label : bytes) (value : Z) : W := write_str label;; write_u64 value.

Definition process_stats_fields (k : Kernel) (syscall_traps user_yields : Z) (pending_programs : nat) : list (bytes * Z) :=
  let st := Table.stats k in
  [(str "procs total=", Z.of_nat (Table.st_process_count st)); (str " threads=", Z.of_nat (Table.st_thread_count st));
   (str " kern=", Z.of_nat (Table.st_kernel_task_count st)); (str " user=", Z.of_nat (Table.st_user_process_count st));
   (str " fg=", Z.of_nat (Table.st_foreground_user_count st)); (str " bg=", Z.of_nat (Table.st_background_user_count st));
   (str " uready=", Z.of_nat (Table.st_ready_user_count st)); (str " urun=", Z.of_nat (Table.st_running_user_count st));
   (str " ublock=", Z.of_nat (Table.st_blocked_user_count st)); (str " ready=", Z.of_nat (Table.st_ready_count st));
   (str " rq=", Z.of_nat (Table.st_ready_queue_count st)); (str " rqskip=", Table.st_ready_queue_skips st);
   (str " running=", Z.of_nat (Table.st_running_count st)); (str " done=", Z.of_nat (Table.st_exited_count st));
   (str " next=", Table.st_next_pid st); (str " pending=", Z.of_nat pending_programs);
   (str " traps=", syscall_traps); (str " yields=", user_yields); (str " ctx=", Table.st_user_context_switches st);
   (str " preempt=", Table.st_timer_preempt_checks st); (str " preq=", Table.st_timer_preempt_requests st);
   (str " py=", Table.st_timer_preempt_yields st); (str " pp=", Z.b2z (Table.st_timer_preempt_pending st));
   (str " q=", USER_PREEMPT_QUANTUM_TICKS)].

Definition PROCESS_HEADER : bytes :=
  str "PID  TID  THR PPID PGID SID  KIND MODE STATE   EXIT WAIT RQ  CTX   TICKS NAME       ARG" ++ [NEWLINE].

(** The result is the buffer and the length of the whole text. *)
Definition write_processes_to_buffer (k : Kernel) (out : bytes) (syscall_traps user_yields : Z) (pending_programs : nat) :
    outcome (nat * bytes) :=
  match (write_all (fun '(label, value) => write_field label value)
           (process_stats_fields k syscall_traps user_yields pending_programs);;
         write_byte NEWLINE;;
         write_str PROCESS_HEADER;;
         write_all (write_process k (k_ticks k)) (pt_processes (k_table k))) (writer_new out) with
  | Done (_, w) => Done (bw_len w, bw_out w)
  | Panic => Panic
  end.

(** ** Devices *)

Record PciDevice := mkPci {
  pci_bus : Z; pci_slot : Z; pci_function : Z; pci_vendor_id : Z; pci_device_id : Z; pci_class_code : Z;
  pci_subclass : Z; pci_prog_if : Z; pci_header_type : Z }.

Inductive NetworkKind := Ethernet | OtherNetwork.
Inductive DriverCandidate := IntelE1000 | Unsupported.
Record NetworkDevice := mkNet { net_pci : PciDevice; net_kind : NetworkKind; net_driver : DriverCandidate; net_bar0 : Z }.

Inductive DriverState := DriverReady | Degraded | Missing | DriverError.
Record DriverStatus := mkStatus { ds_name : bytes; ds_state : DriverState; ds_detail : bytes }.

Section devices.
Local Existing Instance stopping_sink | 0.

Definition write_bdf (d : PciDevice) : W :=
  write_hex_u8 (pci_bus d);; write_byte 58;; write_hex_u8 (pci_slot d);; write_byte 46;;
  write_u64 (pci_function d);; write_str (str "  ").

Definition write_pci_device (d : PciDevice) : W :=
  write_bdf d;;
  write_hex_u16 (pci_vendor_id d);; write_str (str "   ");;
  write_hex_u16 (pci_device_id d);; write_str (str "   ");;
  write_hex_u8 (pci_class_code d);; write_byte 47;;
  write_hex_u8 (pci_subclass d);; write_byte 47;;
  write_hex_u8 (pci_prog_if d);; write_byte NEWLINE.

Definition run_writer (m : W) (out : bytes) : outcome (nat * bytes) :=
  match m (writer_new out) with Done (_, w) => Done (bw_len w, bw_out w) | Panic => Panic end.

(** drivers/pci.rs *)
Definition write_pci_devices_to_buffer (devices : list PciDevice) (out : bytes) : outcome (nat * bytes) :=
  run_writer (
    write_str (str "PCI devices: ");; write_u64 (Z.of_nat (length devices));; write_byte NEWLINE;;
    write_str (str "BDF       VENDOR DEVICE CLASS" ++ [NEWLINE]);;
    write_all write_pci_device devices) out.

Definition kind_name (k : NetworkKind) : bytes := match k with Ethernet => str "ethernet" | OtherNetwork => str "other" end.
Definition driver_name (d : DriverCandidate) : bytes :=
  match d with IntelE1000 => str "e1000" | Unsupported => str "unsupported" end.

Definition write_network_device (d : NetworkDevice) : W :=
  write_bdf (net_pci d);;
  write_hex_u16 (pci_vendor_id (net_pci d));; write_byte 58;;
  write_hex_u16 (pci_device_id (net_pci d));; write_str (str " ");;
  write_str_padded (kind_name (net_kind d)) 9;; write_byte SPACE;;
  write_str_padded (driver_name (net_driver d)) 12;; write_str (str " 0x");;
  write_hex_u32 (net_bar0 d);; write_byte NEWLINE.

(** drivers/network.rs *)
Definition write_network_devices_to_buffer (devices : list NetworkDevice) (out : bytes) : outcome (nat * bytes) :=
  run_writer (
    write_str (str "Network devices: ");; write_u64 (Z.of_nat (length devices));; write_byte NEWLINE;;
    write_str (str "BDF       VENDOR:DEVICE TYPE      DRIVER       BAR0" ++ [NEWLINE]);;
    write_all write_network_device devices) out.

Definition state_name (s : DriverState) : bytes :=
  match s with
  | DriverReady => str "ready" | Degraded => str "degraded" | Missing => str "missing" | DriverError => str "error"
  end.

Definition write_driver_status (s : option DriverStatus) : W :=
  match s with
  | None => mret ()
  | Some s =>
    write_str_padded (ds_name s) 12;; write_str_padded (state_name (ds_state s)) 11;;
    write_str (ds_detail s);; write_byte NEWLINE
  end.

(** drivers/status.rs [write_to_buffer] *)
Definition write_statuses_to_buffer (statuses : list (option DriverStatus)) (out : bytes) : outcome (nat * bytes) :=
  run_writer (write_str (str "DRIVER       STATE      DETAIL" ++ [NEWLINE]);; write_all write_driver_status statuses) out.
End devices.

(** drivers/status.rs [report]: one record per driver name, at most 16. *)
Definition report (name : bytes) (state : DriverState) (detail : bytes) (statuses : list (option DriverStatus)) :
    list (option DriverStatus) :=
  let named s := match s with Some s => bytes_eqb (ds_name s) name | None => false end in
  if existsb named statuses
  then find_upd named (fun s => match s with Some s => Some (mkStatus (ds_name s) state detail) | None => None end) statuses
  else find_upd (fun s => negb (is_some s)) (fun _ => Some (mkStatus name state detail)) statuses.

(** ** Decimal numbers of system calls *)

(** [for i in 0..len { out[i] = temp[len - 1 - i] }] *)
Fixpoint reverse_loop (out temp : bytes) (len : nat) (ixs : list nat) : outcome bytes :=
  match ixs with
  | [] => mret out
  | i :: ixs =>
    b ← index temp (len - 1 - i);
    out ← index_set out i b;
    reverse_loop out temp len ixs
  end.

Definition format_u64_decimal (value : Z) (out : bytes) : outcome (nat * bytes) :=
  if value =? 0 then out ← index_set out 0 48; mret (1%nat, out) else
  '(temp, len) ← decimal_digits value;
  out ← reverse_loop out temp len (seq 0 len);
  mret (len, out).

(** ** The serial log (serial.rs) *)

Definition UART_RING_CAPACITY : nat := 8 * 1024.

Record UartRingBuffer := mkUart { ur_bytes : bytes; ur_write_index : nat; ur_len : nat }.

#[export] Instance eta_uart : Eta UartRingBuffer := fun r => mkUart (ur_bytes r) (ur_write_index r) (ur_len r).

Module Uart.
Definition new : UartRingBuffer := mkUart (replicate UART_RING_CAPACITY 0) 0 0.

Definition push (byte : Z) : M UartRingBuffer () :=
  r ← get;
  b ← lift (index_set (ur_bytes r) (ur_write_index r) byte);
  modify (fun r => r <| ur_bytes := b |> <| ur_write_index := Nat.modulo (ur_write_index r + 1) UART_RING_CAPACITY |>
                     <| ur_len := Nat.min (ur_len r + 1) UART_RING_CAPACITY |>).

Fixpoint push_all (text : bytes) : M UartRingBuffer () :=
  match text with [] => mret () | byte :: text => push byte;; push_all text end.

(** [for (index, slot) in out[..count].iter_mut().enumerate()] *)
Fixpoint copy_loop (r : UartRingBuffer) (start : nat) (out : bytes) (ixs : list nat) : outcome bytes :=
  match ixs with
  | [] => mret out
  | i :: ixs =>
    b ← index (ur_bytes r) (Nat.modulo (start + i) UART_RING_CAPACITY);
    out ← index_set out i b;
    copy_loop r start out ixs
  end.

Definition copy_recent (r : UartRingBuffer) (out : bytes) : outcome (nat * bytes) :=
  let count := Nat.min (ur_len r) (length out) in
  if (ur_write_index r + UART_RING_CAPACITY <? ur_len r)%nat then Panic else
  let oldest := Nat.modulo (ur_write_index r + UART_RING_CAPACITY - ur_len r) UART_RING_CAPACITY in
  let skip := (ur_len r - count)%nat in
  out ← copy_loop r (oldest + skip) out (seq 0 count);
  mret (count, out).

(** [copy_recent_log] *)
Definition copy_recent_log (r : UartRingBuffer) (out : bytes) : outcome (nat * bytes) :=
  match out with [] => Done (0%nat, out) | _ => copy_recent r out end.
End Uart.
