(* ===== verification/TextProofs.v ===== *)
(** * Text stays within its buffer

    The writers of Text.v fill a buffer of any length without a panic and
    without changing its length; a number is printed so that reading the digits
    back gives the number. *)

From S2P Require Import Prelude Utf8 Paths Vfs Ring3 Elf AddrSpace Threads Program Ipc IpcProofs Process Text.

(** ** Writers *)

(** [m] does not panic and keeps the length of the buffer; [len] stays within it if [stops]. *)
Definition fills (stops : bool) (m : M BufferWriter ()) : Prop := forall w,
  (stops = true -> (bw_len w <= length (bw_out w))%nat) ->
  wp m (fun _ w' => length (bw_out w') = length (bw_out w) /\ (stops = true -> (bw_len w' <= length (bw_out w'))%nat)) w.

Lemma fills_ret stops : fills stops (mret ()).
Proof. intros w Hw. by apply wp_ret. Qed.

Lemma fills_then stops m n : fills stops m -> fills stops n -> fills stops (m;; n).
Proof.
  intros Hm Hn w Hw. apply wp_bind. eapply wp_mono; [by apply Hm|]. intros [] w1 [Hl1 H1]. eapply wp_mono; [by apply Hn|].
  intros [] w2 [Hl2 H2]. split; [congruence|done].
Qed.

Lemma fills_lift {A} stops (o : outcome A) (P : A -> Prop) f :
  (exists a, o = Done a /\ P a) -> (forall a, P a -> fills stops (f a)) -> fills stops (lift o ≫= f).
Proof. intros (a & -> & Ha) Hf w Hw. by apply (Hf a Ha). Qed.

Lemma fills_counting b : fills false (@write_byte counting_sink b).
Proof.
  intros w Hw. unfold write_byte, counting_sink, wp. run. destruct (Nat.ltb_spec (bw_len w) (length (bw_out w))).
  - rewrite index_set_ok by done. run. simpl. by rewrite length_insert.
  - by run.
Qed.

Lemma fills_stopping b : fills true (@write_byte stopping_sink b).
Proof.
  intros w Hw. unfold write_byte, stopping_sink, wp. specialize (Hw eq_refl). run. destruct (Nat.ltb_spec (bw_len w) (length (bw_out w))).
  - rewrite index_set_ok by done. run. simpl. rewrite length_insert. split; [done|]. lia.
  - by run.
Qed.

(** ** Decimal digits *)

(** The digits of [value], least significant first. *)
Fixpoint digit_list (n : nat) (value : Z) : bytes :=
  match n with
  | O => []
  | S n => if value <=? 0 then [] else (48 + value mod 10) :: digit_list n (value / 10)
  end.

Lemma digit_list_length n value : (length (digit_list n value) <= n)%nat.
Proof. revert value; induction n as [|n IH]; intros value; cbn [digit_list length]; [lia|]. destruct (_ <=? _); cbn [length]; [lia|]. specialize (IH (value / 10)). lia. Qed.

Lemma take_insert_last {A} (l : list A) i x : (i < length l)%nat -> take (S i) (<[i := x]> l) = take i l ++ [x].
Proof. intros Hi. erewrite take_S_r by (by apply list_lookup_insert_eq). by rewrite take_insert_ge by lia. Qed.

Lemma digits_loop_spec n : forall fuel value digits len,
  0 <= value < 10 ^ Z.of_nat n -> (n <= fuel)%nat -> (len + n <= length digits)%nat ->
  digits_loop fuel value digits len =
  Done (take len digits ++ digit_list n value ++ drop (len + length (digit_list n value)) digits,
        (len + length (digit_list n value))%nat).
Proof.
  induction n as [|n IH]; intros fuel value digits len Hv Hf Hl; cbn [digit_list].
  - assert (value = 0) as -> by (simpl in Hv; lia). cbn [length app]. rewrite Nat.add_0_r, take_drop. by destruct fuel.
  - destruct fuel as [|fuel]; [lia|]. cbn [digits_loop].
    destruct (Z.leb_spec value 0) as [|Hpos]; [cbn [length app]; by rewrite Nat.add_0_r, take_drop|].
    rewrite index_set_ok by lia. run. rewrite IH; [|split; [apply Z.div_pos; lia|]|lia|rewrite length_insert; lia].
    + cbn [length]. rewrite take_insert_last by lia. rewrite drop_insert_lt by lia.
      rewrite Nat.add_succ_comm, <-!app_assoc. done.
    + apply Z.div_lt_upper_bound; [lia|]. rewrite Nat2Z.inj_succ, Z.pow_succ_r in Hv by lia. lia.
Qed.

Lemma u64_digits value : 0 <= value < 2 ^ 64 -> 0 <= value < 10 ^ Z.of_nat DIGITS.
Proof. intros [H1 H2]. split; [done|]. change (Z.of_nat DIGITS) with 20. lia. Qed.

Lemma decimal_digits_spec value : 0 <= value < 2 ^ 64 ->
  decimal_digits value =
  Done (digit_list DIGITS value ++ replicate (DIGITS - length (digit_list DIGITS value)) 0, length (digit_list DIGITS value)).
Proof.
  intros Hv%u64_digits. unfold decimal_digits. rewrite (digits_loop_spec DIGITS) by (done || rewrite ?length_replicate; lia).
  cbn [take app]. by rewrite drop_replicate.
Qed.

(** The number a list of digits stands for, least significant first. *)
Fixpoint digits_value (ds : bytes) : Z := match ds with [] => 0 | d :: ds => (d - 48) + 10 * digits_value ds end.

Lemma digit_list_value n value : 0 <= value < 10 ^ Z.of_nat n -> digits_value (digit_list n value) = value.
Proof.
  revert value; induction n as [|n IH]; intros value Hv; cbn [digit_list digits_value]; [simpl in Hv; lia|].
  destruct (Z.leb_spec value 0); cbn [digits_value]; [lia|]. rewrite IH.
  - pose proof (Z.div_mod value 10). lia.
  - rewrite Nat2Z.inj_succ, Z.pow_succ_r in Hv by lia. split; [apply Z.div_pos; lia|apply Z.div_lt_upper_bound; lia].
Qed.

(** ** Every text *)

Section fills.
Context (Sink : ByteSink) (stops : bool).
Hypothesis Hbyte : forall b, fills stops (write_byte b).

Lemma fills_str text : fills stops (write_str text).
Proof. induction text as [|b text IH]; [apply fills_ret|]. by apply fills_then. Qed.

Lemma fills_digits digits len : (len <= length digits)%nat -> fills stops (write_digits digits len).
Proof.
  induction len as [|len IH]; intros Hl; cbn [write_digits]; [apply fills_ret|].
  apply (fills_lift _ _ (fun _ => True)).
  - destruct (lookup_lt_is_Some_2 digits len) as [b Hb]; [lia|]. exists b. split; [by apply index_Done|done].
  - intros b _. apply fills_then; [apply Hbyte|apply IH; lia].
Qed.

Lemma fills_u64 value : fills stops (write_u64 value).
Proof.
  unfold write_u64. pose proof (Z.mod_pos_bound value (2 ^ 64)) as Hv. destruct (_ =? 0); [apply Hbyte|].
  apply (fills_lift _ _ (fun '(ds, len) => (len <= length ds)%nat)).
  - eexists. split; [apply decimal_digits_spec; lia|]. cbv beta iota. rewrite length_app. lia.
  - intros [ds len] Hl. by apply fills_digits.
Qed.

Lemma fills_all {A} (f : A -> M BufferWriter ()) l : (forall x, x ∈ l -> fills stops (f x)) -> fills stops (write_all f l).
Proof.
  induction l as [|x l IH]; intros Hf; [apply fills_ret|]. apply fills_then; [apply Hf, list_elem_of_here|].
  apply IH. intros y Hy. apply Hf. by apply elem_of_cons; right.
Qed.
End fills.

Ltac fill :=
  repeat lazymatch goal with
  | |- fills _ (_;; _) => apply fills_then
  | |- fills _ (mret ()) => apply fills_ret
  | |- fills _ (write_str _) => apply fills_str
  | |- fills _ (write_u64 _) => apply fills_u64
  | |- fills _ (match ?x with _ => _ end) => destruct x
  | |- fills _ ?m => first [solve [eauto with vantara]|progress unfold pad_to_width, write_str_padded, write_u64_padded, write_usize_padded, write_usize, write_dash, write_opt_u32_padded,
      write_opt_usize_padded, write_exit_status, write_field, write_hex_nibble, write_hex_u8, write_hex_u16, write_hex_u32, write_bdf,
      write_pci_device, write_network_device, write_driver_status; cbv zeta]
  | |- forall b, fills _ (write_byte b) => intros ?
  end.

#[export] Hint Resolve fills_counting fills_stopping : vantara.

(** ** The process listing *)

Definition main_there (p : Process) : Prop := exists t, TStore.main (pr_threads p) = Done t.

Lemma write_process_fills k now p : main_there p -> (exists a, Arg.as_str (pr_arg p) = Done a) ->
  fills false (write_process k now p).
Proof.
  intros [t Ht] [a Ha]. unfold write_process. repeat (apply fills_then; [by fill|]).
  apply (fills_lift _ _ (fun _ => True)); [eauto|]. intros t' _. repeat (apply fills_then; [by fill|]).
  apply (fills_lift _ _ (fun _ => True)).
  { unfold Table.runtime_ticks_snapshot. rewrite Ht. run. eauto. }
  intros ticks _. repeat (apply fills_then; [by fill|]). apply (fills_lift _ _ (fun _ => True)); [eauto|]. intros a' _. by fill.
Qed.

(** A call that fills a buffer: it returns, and the buffer keeps its length. *)
Definition buffer_filled (f : bytes -> outcome (nat * bytes)) (out : bytes) : Prop :=
  exists n out', f out = Done (n, out') /\ length out' = length out.
Definition buffer_filled_within (f : bytes -> outcome (nat * bytes)) (out : bytes) : Prop :=
  exists n out', f out = Done (n, out') /\ length out' = length out /\ (n <= length out)%nat.

Lemma write_processes_filled k traps yields pending out :
  Forall (fun p => main_there p /\ exists a, Arg.as_str (pr_arg p) = Done a) (pt_processes (k_table k)) ->
  buffer_filled (fun out => write_processes_to_buffer k out traps yields pending) out.
Proof.
  intros Hp. rewrite Forall_forall in Hp. unfold buffer_filled, write_processes_to_buffer.
  match goal with |- context [match ?m (writer_new out) with _ => _ end] => set (text := m) end.
  assert (fills false text) as Hm.
  { apply fills_then; [|apply fills_then; [by fill|apply fills_then; [by fill|]]].
    - apply fills_all. intros [label value] _. by fill.
    - apply fills_all. intros p Hin. destruct (Hp p Hin). by apply write_process_fills. }
  specialize (Hm (writer_new out) ltac:(done)). unfold wp in Hm. destruct (text (writer_new out)) as [[[] w]|]; [|done].
  destruct Hm as [Hl _]. eauto.
Qed.

Lemma run_writer_filled m out : fills true m -> buffer_filled_within (run_writer m) out.
Proof.
  intros Hm. specialize (Hm (writer_new out) ltac:(simpl; lia)). unfold buffer_filled_within, run_writer. unfold wp in Hm.
  destruct (m (writer_new out)) as [[[] w]|]; [|done]. destruct Hm as [Hl Hw].
  simpl in Hl. specialize (Hw eq_refl). eexists _, _. split; [done|]. split; [done|]. lia.
Qed.

Lemma write_pci_filled devices out : buffer_filled_within (write_pci_devices_to_buffer devices) out.
Proof. apply run_writer_filled. repeat (apply fills_then; [by fill|]). apply fills_all. intros d _. by fill. Qed.

Lemma write_network_filled devices out : buffer_filled_within (write_network_devices_to_buffer devices) out.
Proof. apply run_writer_filled. repeat (apply fills_then; [by fill|]). apply fills_all. intros d _. by fill. Qed.

Lemma write_statuses_filled statuses out : buffer_filled_within (write_statuses_to_buffer statuses) out.
Proof. apply run_writer_filled. apply fills_then; [by fill|]. apply fills_all. intros d _. by fill. Qed.

(** ** Numbers of system calls *)

Lemma reverse_loop_spec temp len m : forall k out, (k + m <= len)%nat -> (len <= length temp)%nat -> (len <= length out)%nat ->
  exists out', reverse_loop out temp len (seq k m) = Done out' /\ length out' = length out /\
    forall i, out' !! i = if decide (k <= i < k + m)%nat then temp !! (len - 1 - i)%nat else out !! i.
Proof.
  induction m as [|m IH]; intros k out Hk Ht Ho; cbn [seq reverse_loop].
  - exists out. split; [done|]. split; [done|]. intros i. by rewrite decide_False by lia.
  - destruct (lookup_lt_is_Some_2 temp (len - 1 - k)) as [b Hb]; [lia|]. rewrite (proj2 (index_Done _ _ _) Hb). run.
    rewrite index_set_ok by lia. run. destruct (IH (S k) (<[k := b]> out)) as (out' & -> & Hl & Hi); [lia|done|by rewrite length_insert|].
    exists out'. split; [done|]. rewrite length_insert in Hl. split; [done|]. intros i. rewrite Hi.
    destruct (decide (S k <= i < S k + m)%nat); [by rewrite decide_True by lia|].
    destruct (decide (i = k)) as [->|Hne].
    + rewrite decide_True by lia. rewrite list_lookup_insert_eq by lia. done.
    + rewrite list_lookup_insert_ne by done. by rewrite decide_False by lia.
Qed.

(** The text of a number, most significant digit first. *)
Definition decimal_text (value : Z) : bytes := if value =? 0 then [48] else reverse (digit_list DIGITS value).

Lemma decimal_text_length value : (length (decimal_text value) <= DIGITS)%nat.
Proof. unfold decimal_text. destruct (_ =? _); [simpl; unfold DIGITS; lia|]. rewrite length_reverse. apply digit_list_length. Qed.

Lemma format_u64_decimal_spec value out : 0 <= value < 2 ^ 64 -> (DIGITS <= length out)%nat ->
  exists out', format_u64_decimal value out = Done (length (decimal_text value), out') /\ length out' = length out /\
    slice out' 0 (length (decimal_text value)) = Done (decimal_text value).
Proof.
  intros Hv Ho. unfold format_u64_decimal, decimal_text. destruct (Z.eqb_spec value 0) as [->|Hne].
  - rewrite index_set_ok by (unfold DIGITS in Ho; lia). run. eexists. split; [done|]. split; [apply length_insert|].
    destruct out as [|x out]; [simpl in Ho; unfold DIGITS in Ho; lia|]. done.
  - rewrite decimal_digits_spec by done. run. set (ds := digit_list DIGITS value). pose proof (digit_list_length DIGITS value) as Hd. fold ds in Hd.
    set (temp := ds ++ replicate (DIGITS - length ds) 0).
    assert (length temp = DIGITS) as Ht by (unfold temp; rewrite length_app, length_replicate; lia).
    destruct (reverse_loop_spec temp (length ds) (length ds) 0 out) as (out' & -> & Hl & Hi); [lia|lia|lia|].
    run. rewrite length_reverse. exists out'. split; [done|]. split; [done|]. rewrite slice_ok by lia. rewrite drop_0, Nat.sub_0_r. f_equal.
    apply list_eq. intros i. destruct (decide (i < length ds)%nat) as [Hlt|].
    + rewrite lookup_take_lt, Hi, decide_True by lia. unfold temp. rewrite lookup_app_l by lia.
      rewrite reverse_lookup by done. f_equal. lia.
    + rewrite lookup_take_ge by lia. symmetry. apply lookup_ge_None. rewrite length_reverse. lia.
Qed.

(** Reading the text back. *)
Definition parse_decimal (text : bytes) : Z := digits_value (reverse text).

Lemma parse_decimal_text value : 0 <= value < 2 ^ 64 -> parse_decimal (decimal_text value) = value.
Proof.
  intros Hv. unfold parse_decimal, decimal_text. destruct (Z.eqb_spec value 0) as [->|]; [done|].
  rewrite reverse_involutive. by apply digit_list_value, u64_digits.
Qed.

(** ** The serial log *)

Record uart_wf (r : UartRingBuffer) : Prop := {
  uw_bytes : length (ur_bytes r) = UART_RING_CAPACITY;
  uw_index : (ur_write_index r < UART_RING_CAPACITY)%nat;
  uw_len : (ur_len r <= UART_RING_CAPACITY)%nat;
}.

(** The logged bytes, oldest first. *)
Definition uart_start (r : UartRingBuffer) : nat := ((ur_write_index r + UART_RING_CAPACITY - ur_len r) mod UART_RING_CAPACITY)%nat.
Definition uart_content (r : UartRingBuffer) : bytes := ring 0 (ur_bytes r) (uart_start r) (ur_len r).

(** The last [n] elements of a list. *)
Definition lastn {A} (n : nat) (l : list A) : list A := drop (length l - n) l.

Lemma uart_capacity_pos : (0 < UART_RING_CAPACITY)%nat.
Proof. unfold UART_RING_CAPACITY. lia. Qed.

Local Opaque UART_RING_CAPACITY Nat.modulo.

Lemma copy_loop_ok r start ixs : forall out, uart_wf r -> Forall (fun i => (i < length out)%nat) ixs ->
  exists out', Uart.copy_loop r start out ixs = Done out' /\ length out' = length out /\
    forall j, (j < length out)%nat -> out' !! j = if decide (j ∈ ixs) then Some (nth ((start + j) mod UART_RING_CAPACITY) (ur_bytes r) 0) else out !! j.
Proof.
  induction ixs as [|i ixs IH]; intros out Hr Hi; cbn [Uart.copy_loop].
  { exists out. split; [done|]. split; [done|]. intros j _. rewrite decide_False; [done|]. apply not_elem_of_nil. }
  apply Forall_cons in Hi as [Hi Hall]. pose proof (Nat.mod_upper_bound (start + i) UART_RING_CAPACITY) as Hm. pose proof uart_capacity_pos.
  destruct (lookup_lt_is_Some_2 (ur_bytes r) ((start + i) mod UART_RING_CAPACITY)) as [b Hb]; [rewrite (uw_bytes r Hr); lia|].
  rewrite (proj2 (index_Done _ _ _) Hb). run. rewrite index_set_ok by done. run.
  destruct (IH (<[i := b]> out) Hr) as (out' & -> & Hl & Hj); [by rewrite length_insert|]. rewrite length_insert in Hl, Hj.
  exists out'. split; [done|]. split; [done|]. intros j Hlt. rewrite Hj by done. destruct (decide (j ∈ ixs)) as [Hin|Hni].
  - rewrite decide_True; [done|]. by apply elem_of_cons; right.
  - destruct (decide (j = i)) as [->|Hne].
    + rewrite list_lookup_insert_eq by done. rewrite decide_True by apply list_elem_of_here. by rewrite (nth_lookup_Some _ _ _ _ Hb).
    + rewrite list_lookup_insert_ne by done. rewrite decide_False; [done|]. intros [?|?]%elem_of_cons; done.
Qed.

(** Reading the log gives its most recent bytes. *)
Lemma copy_recent_spec r out : uart_wf r ->
  exists out', Uart.copy_recent r out = Done (Nat.min (ur_len r) (length out), out') /\ length out' = length out /\
    take (Nat.min (ur_len r) (length out)) out' = lastn (Nat.min (ur_len r) (length out)) (uart_content r) /\
    drop (Nat.min (ur_len r) (length out)) out' = drop (Nat.min (ur_len r) (length out)) out.
Proof.
  intros Hr. pose proof Hr as [H1 H2 H3]. unfold Uart.copy_recent. set (count := Nat.min (ur_len r) (length out)).
  destruct (Nat.ltb_spec (ur_write_index r + UART_RING_CAPACITY) (ur_len r)); [lia|]. fold (uart_start r).
  destruct (copy_loop_ok r (uart_start r + (ur_len r - count)) (seq 0 count) out Hr) as (out' & -> & Hl & Hj).
  { apply Forall_forall. intros i Hi%elem_of_seq. unfold count in Hi. lia. }
  run. exists out'. split; [done|]. split; [done|]. split.
  - apply list_eq. intros i. unfold lastn, uart_content. rewrite length_ring, lookup_drop. destruct (decide (i < count)%nat) as [Hi|Hi].
    + rewrite lookup_take_lt by done. rewrite Hj by (unfold count in *; lia). rewrite decide_True by (apply elem_of_seq; lia).
      unfold ring. rewrite list_lookup_fmap, lookup_seq_lt by lia. simpl. rewrite H1.
      by replace (uart_start r + (ur_len r - count) + i)%nat with (uart_start r + (ur_len r - count + i))%nat by lia.
    + rewrite lookup_take_ge by lia. symmetry. apply lookup_ge_None. rewrite length_ring. lia.
  - apply list_eq. intros i. rewrite !lookup_drop. destruct (decide (count + i < length out)%nat).
    + rewrite Hj by done. rewrite decide_False; [done|]. rewrite elem_of_seq. lia.
    + rewrite !lookup_ge_None_2 by lia. done.
Qed.

Lemma copy_recent_log_filled r out : uart_wf r -> buffer_filled_within (Uart.copy_recent_log r) out.
Proof.
  intros Hr. unfold buffer_filled_within, Uart.copy_recent_log. destruct out as [|x out]; [by eexists _, _|].
  destruct (copy_recent_spec r (x :: out) Hr) as (out' & -> & Hl & _). eexists _, _. split; [done|]. split; [done|]. lia.
Qed.

(** One more byte: the oldest goes when the ring is full. *)
Lemma ring_push (l : bytes) start len byte :
  (0 < length l)%nat -> (start < length l)%nat -> (len <= length l)%nat ->
  let wi := ((start + len) mod length l)%nat in let len' := Nat.min (len + 1) (length l) in
  ring 0 (<[wi := byte]> l) (((wi + 1) mod length l + length l - len') mod length l) len' =
  lastn (length l) (ring 0 l start len ++ [byte]).
Proof.
  intros Hpos Hs Hlen wi len'. unfold lastn. rewrite length_app, length_ring. set (C := length l) in *. cbn [length].
  assert (wi < C)%nat as Hwi by (apply Nat.mod_upper_bound; lia).
  assert (forall s n, ring 0 (<[wi := byte]> l) (s mod C) n = ring 0 (<[wi := byte]> l) s n) as Hmod.
  { intros s n. pose proof (ring_mod 0 (<[wi := byte]> l) s n) as E. rewrite length_insert in E. by apply E. }
  assert (nth wi (<[wi := byte]> l) 0 = byte) as Hnth.
  { apply nth_lookup_Some. by apply list_lookup_insert_eq. }
  destruct (decide (len < C)%nat) as [Hlt|Hge].
  - assert (len' = S len) as -> by lia. replace (len + 1 - C)%nat with 0%nat by lia. rewrite drop_0.
    rewrite Hmod, ring_snoc, length_insert. fold C.
    assert (((wi + 1) mod C + C - S len) mod C = start)%nat as Es.
    { unfold wi. rewrite Nat.Div0.add_mod_idemp_l. destruct (decide (start + len + 1 < C)%nat).
      - rewrite (Nat.mod_small (start + len + 1)) by lia. replace (start + len + 1 + C - S len)%nat with (start + 1 * C)%nat by lia.
        rewrite Nat.Div0.mod_add. by apply Nat.mod_small.
      - replace (start + len + 1)%nat with (start + len + 1 - C + 1 * C)%nat by lia. rewrite Nat.Div0.mod_add, (Nat.mod_small (start + len + 1 - C)) by lia.
        replace (start + len + 1 - C + C - S len)%nat with start by lia. by apply Nat.mod_small. }
    assert ((((wi + 1) mod C + C - S len) + len) mod C = wi)%nat as ->.
    { rewrite <-Nat.Div0.add_mod_idemp_l, Es. done. }
    rewrite Hnth. f_equal. rewrite <-Hmod, Es. by apply ring_insert.
  - assert (len = C) as -> by lia. assert (len' = S (C - 1)) as E' by lia. rewrite E'. replace (C + 1 - C)%nat with 1%nat by lia.
    assert (wi = start) as Ew.
    { unfold wi. replace (start + C)%nat with (start + 1 * C)%nat by lia. rewrite Nat.Div0.mod_add. by apply Nat.mod_small. }
    rewrite Hmod, ring_snoc, length_insert. fold C.
    replace ((wi + 1) mod C + C - S (C - 1))%nat with ((wi + 1) mod C)%nat by lia.
    assert (((wi + 1) mod C + (C - 1)) mod C = wi)%nat as ->.
    { rewrite Nat.Div0.add_mod_idemp_l. replace (wi + 1 + (C - 1))%nat with (wi + 1 * C)%nat by lia. rewrite Nat.Div0.mod_add. by apply Nat.mod_small. }
    rewrite Hnth, Hmod, Ew. destruct C as [|c] eqn:EC; [lia|]. rewrite (ring_S 0 l start c). cbn [drop app]. replace (S c - 1)%nat with c by lia.
    f_equal. assert (ring 0 (<[start := byte]> l) (start + 1) c = ring 0 l (start + 1) c) as ->; [|done].
    unfold ring. rewrite length_insert. apply map_ext_in. intros i Hi%in_seq. fold C in EC.
    rewrite !nth_lookup, list_lookup_insert_ne; [done|].
    intros Heq. assert (((start + (1 + i)) mod length l = (start + 0) mod length l)%nat) as Hm.
    { replace (start + (1 + i))%nat with (start + 1 + i)%nat by lia. rewrite <-Heq, Nat.add_0_r. symmetry. apply Nat.mod_small. fold C. lia. }
    apply ring_index_inj in Hm; fold C; lia.
Qed.

Lemma push_spec byte r : uart_wf r ->
  exists r', Uart.push byte r = Done ((), r') /\ uart_wf r' /\ uart_content r' = lastn UART_RING_CAPACITY (uart_content r ++ [byte]).
Proof.
  intros Hr. pose proof Hr as [H1 H2 H3]. pose proof uart_capacity_pos as Hpos. unfold Uart.push. run. rewrite index_set_ok by lia. run.
  eexists. split; [done|]. split.
  { split; simpl; [by rewrite length_insert|apply Nat.mod_upper_bound; lia|lia]. }
  unfold uart_content, uart_start. simpl.
  assert (ur_write_index r = (uart_start r + ur_len r) mod length (ur_bytes r))%nat as Ewi.
  { unfold uart_start. rewrite H1, Nat.Div0.add_mod_idemp_l.
    replace (ur_write_index r + UART_RING_CAPACITY - ur_len r + ur_len r)%nat with (ur_write_index r + 1 * UART_RING_CAPACITY)%nat by lia.
    rewrite Nat.Div0.mod_add. by rewrite Nat.mod_small. }
  fold (uart_start r). rewrite Ewi at 1 2. rewrite <-H1. apply ring_push; rewrite H1; [done| |done].
  apply Nat.mod_upper_bound. lia.
Qed.

Lemma lastn_app {A} n (a b : list A) : lastn n (lastn n a ++ b) = lastn n (a ++ b).
Proof.
  unfold lastn. rewrite !length_app, length_drop, !drop_app, drop_drop. f_equal; [f_equal; lia|]. rewrite length_drop. f_equal. lia.
Qed.

Lemma lastn_all {A} n (l : list A) : (length l <= n)%nat -> lastn n l = l.
Proof. intros H. unfold lastn. by replace (length l - n)%nat with 0%nat by lia. Qed.

Lemma push_all_spec text : forall r, uart_wf r ->
  exists r', Uart.push_all text r = Done ((), r') /\ uart_wf r' /\ uart_content r' = lastn UART_RING_CAPACITY (uart_content r ++ text).
Proof.
  induction text as [|b text IH]; intros r Hr; cbn [Uart.push_all].
  - exists r. split; [done|]. split; [done|]. rewrite app_nil_r, lastn_all; [done|]. unfold uart_content. rewrite length_ring. apply Hr.
  - destruct (push_spec b r Hr) as (r1 & E1 & Hr1 & Hc1). destruct (IH r1 Hr1) as (r2 & E2 & Hr2 & Hc2). exists r2.
    split; [run; by rewrite E1|]. split; [done|]. rewrite Hc2, Hc1, lastn_app. by rewrite <-app_assoc.
Qed.

Lemma uart_new_wf : uart_wf Uart.new.
Proof. pose proof uart_capacity_pos. split; [apply length_replicate|done|apply Nat.le_0_l]. Qed.
