(* ===== verification/DevFs.v ===== *)
(** * The device file system (fs/devfs.rs)

    Five fixed nodes.  [null] and [zero] hold no state; the other three print the
    tables of the drivers, which are filled while the kernel boots and are
    arguments here.  The state [S] of the file systems is not touched. *)

From S2P Require Import Prelude Utf8 Paths Vfs RamFs RamFsProofs FsLaws RamFsLaws Text TextProofs.

Module DevFs.

Definition ROOT_INODE : Z := 1.
Definition NULL_INODE : Z := 2.
Definition ZERO_INODE : Z := 3.
Definition DRIVERS_INODE : Z := 4.
Definition PCI_INODE : Z := 5.
Definition NET_INODE : Z := 6.
Definition SNAPSHOT_SIZE : nat := 2048.

Definition snapshot_len (writer : bytes -> outcome (nat * bytes)) : outcome nat :=
  '(len, _) ← writer (replicate SNAPSHOT_SIZE 0); mret len.

Definition read_snapshot (offset : nat) (out : bytes) (writer : bytes -> outcome (nat * bytes)) : outcome (result nat FsError * bytes) :=
  '(len, snapshot) ← writer (replicate SNAPSHOT_SIZE 0);
  let remaining := (len - offset)%nat in
  let count := Nat.min remaining (length out) in
  src ← slice snapshot offset (offset + count);
  out ← copy_slice out 0 count src;
  mret (Ok count, out).

Section devfs.
Context (statuses : Datatypes.list (option DriverStatus)) (pci : Datatypes.list PciDevice) (network : Datatypes.list NetworkDevice).
Context {S : Type}.

Definition list (path out : bytes) : M S (result nat FsError * bytes) :=
  if negb (bytes_eqb path [SLASH]) then mret (Err NotDirectory, out) else
  lift (RamFs.append_lines out 0 [str "null"; str "zero"; str "drivers"; str "pci"; str "net"]).

Definition stat (path : bytes) : M S (result BackendStat FsError) :=
  if bytes_eqb path [SLASH] then mret (Ok (mkStat Directory 5 true ROOT_INODE))
  else if bytes_eqb path (str "/null") then mret (Ok (mkStat File 0 false NULL_INODE))
  else if bytes_eqb path (str "/zero") then mret (Ok (mkStat File 0 false ZERO_INODE))
  else if bytes_eqb path (str "/drivers") then
    n ← lift (snapshot_len (write_statuses_to_buffer statuses)); mret (Ok (mkStat File n true DRIVERS_INODE))
  else if bytes_eqb path (str "/pci") then
    n ← lift (snapshot_len (write_pci_devices_to_buffer pci)); mret (Ok (mkStat File n true PCI_INODE))
  else if bytes_eqb path (str "/net") then
    n ← lift (snapshot_len (write_network_devices_to_buffer network)); mret (Ok (mkStat File n true NET_INODE))
  else mret (Err NotFound).

Definition read (inode : Z) (offset : nat) (out : bytes) : M S (result nat FsError * bytes) :=
  if inode =? NULL_INODE then mret (Ok 0%nat, out)
  else if inode =? ZERO_INODE then mret (Ok (length out), replicate (length out) 0)
  else if inode =? DRIVERS_INODE then lift (read_snapshot offset out (write_statuses_to_buffer statuses))
  else if inode =? PCI_INODE then lift (read_snapshot offset out (write_pci_devices_to_buffer pci))
  else if inode =? NET_INODE then lift (read_snapshot offset out (write_network_devices_to_buffer network))
  else if inode =? ROOT_INODE then mret (Err IsDirectory, out)
  else mret (Err NotFound, out).

Definition write (inode : Z) (_offset : nat) (source : bytes) : M S (result nat FsError) :=
  if (inode =? NULL_INODE) || (inode =? ZERO_INODE) then mret (Ok (length source))
  else if (inode =? DRIVERS_INODE) || (inode =? PCI_INODE) || (inode =? NET_INODE) then mret (Err ReadOnly)
  else if inode =? ROOT_INODE then mret (Err IsDirectory)
  else mret (Err NotFound).

(** [create], [mkdir], [unlink], [rmdir] and [rename] *)
Definition refuse {A} : M S (result A FsError) := mret (Err ReadOnly).

Definition backend : Backend S :=
  mkBackend S (str "devfs") (fun _ => true) list stat read write
    (fun _ => refuse) (fun _ => refuse) (fun _ => refuse) (fun _ => refuse) (fun _ _ => refuse).
End devfs.
End DevFs.

(** ** The promises of [FsLaws] *)

(** The nodes that print a table are read within the snapshot. *)
Definition dev_off (node : VfsNodeId) (off : nat) : Prop :=
  node_inode node ∈ [DevFs.DRIVERS_INODE; DevFs.PCI_INODE; DevFs.NET_INODE] -> (off <= DevFs.SNAPSHOT_SIZE)%nat.

Lemma snapshot_read_ok off out writer : (off <= DevFs.SNAPSHOT_SIZE)%nat -> (forall o, buffer_filled_within writer o) ->
  exists n out', DevFs.read_snapshot off out writer = Done (Ok n, out') /\ length out' = length out /\ (n <= length out)%nat /\ (off + n <= DevFs.SNAPSHOT_SIZE)%nat.
Proof.
  intros Hoff Hw. unfold DevFs.read_snapshot. destruct (Hw (replicate DevFs.SNAPSHOT_SIZE 0)) as (n & o & -> & Hl & Hn).
  rewrite length_replicate in Hl, Hn. run. rewrite slice_ok by lia. run. rewrite copy_slice_ok by (rewrite ?length_take, ?length_drop; lia).
  eexists _, _. split; [reflexivity|]. rewrite !length_app, !length_take, !length_drop. split_and!; lia.
Qed.

Lemma snapshot_len_ok writer : (forall o, buffer_filled_within writer o) -> exists n, DevFs.snapshot_len writer = Done n.
Proof. intros Hw. unfold DevFs.snapshot_len. destruct (Hw (replicate DevFs.SNAPSHOT_SIZE 0)) as (n & o & -> & _). by exists n. Qed.

Section laws.
Context {S : Type} (mounts : list (Mount S)) (good : S -> Prop) (off_ok : S -> VfsNodeId -> nat -> Prop).
Context (statuses : list (option DriverStatus)) (pci : list PciDevice) (network : list NetworkDevice) (id : Z) (path : bytes).
Hypothesis Hpath : utf8_valid path = true.
Hypothesis Hoff : forall s inode off, off_ok s (mkNode id inode) off <-> dev_off (mkNode id inode) off.
Notation dev := (DevFs.backend statuses pci network).

Lemma dev_read_ok inode off out s : good s -> off_ok s (mkNode id inode) off ->
  wp (be_read dev inode off out) (fun '(r, out') s' => good s' /\ offsets_kept off_ok s s' /\ length out' = length out /\
    match r with Ok n => (n <= length out)%nat /\ off_ok s' (mkNode id inode) (off + n)%nat | Err _ => True end) s.
Proof using Hoff.
  intros Hg Ho. cbn [be_read DevFs.backend]. unfold DevFs.read. rewrite Hoff in Ho. unfold dev_off in Ho. cbn in Ho.
  assert (forall writer : bytes -> outcome (nat * bytes), (forall o, buffer_filled_within writer o) ->
    inode ∈ [DevFs.DRIVERS_INODE; DevFs.PCI_INODE; DevFs.NET_INODE] ->
    wp (lift (DevFs.read_snapshot off out writer)) (fun '(r, out') s' => good s' /\ offsets_kept off_ok s s' /\ length out' = length out /\
      match r with Ok n => (n <= length out)%nat /\ off_ok s' (mkNode id inode) (off + n)%nat | Err _ => True end) s) as Hsnap.
  { intros writer Hw Hin. destruct (snapshot_read_ok off out writer (Ho Hin) Hw) as (n & out' & E & Hl & Hn & Ht). unfold wp, lift. rewrite E. run.
    split_and!; [done..|]. apply Hoff. by intros _. }
  destruct (Z.eqb_spec inode DevFs.NULL_INODE) as [->|]. { rewrite wp_ret. split_and!; [done..|lia|]. apply Hoff. intros Hin. clear -Hin. set_solver. }
  destruct (Z.eqb_spec inode DevFs.ZERO_INODE) as [->|].
  { rewrite wp_ret. split_and!; [done..|by rewrite length_replicate|done|]. apply Hoff. intros Hin. clear -Hin. set_solver. }
  destruct (Z.eqb_spec inode DevFs.DRIVERS_INODE) as [->|]; [apply Hsnap; [apply write_statuses_filled|clear; set_solver]|].
  destruct (Z.eqb_spec inode DevFs.PCI_INODE) as [->|]; [apply Hsnap; [apply write_pci_filled|clear; set_solver]|].
  destruct (Z.eqb_spec inode DevFs.NET_INODE) as [->|]; [apply Hsnap; [apply write_network_filled|clear; set_solver]|].
  by destruct (_ =? _).
Qed.

Lemma dev_stat_ok p (s : S) : wp (be_stat dev p) (fun r s' => s' = s) s.
Proof using.
  assert (forall writer ft ro i, (forall o, buffer_filled_within writer o) ->
    wp (n ← lift (DevFs.snapshot_len writer); mret (Ok (mkStat ft n ro i))) (fun (_ : result BackendStat FsError) s' => s' = s) s) as Hsnap.
  { intros writer ft ro i Hw. destruct (snapshot_len_ok writer Hw) as [n E]. rewrite wp_bind. unfold wp at 1, lift. rewrite E. by rewrite wp_ret. }
  cbn [be_stat DevFs.backend]. unfold DevFs.stat. do 3 (destruct (bytes_eqb _ _); [by rewrite wp_ret|]).
  destruct (bytes_eqb _ _); [apply Hsnap, write_statuses_filled|]. destruct (bytes_eqb _ _); [apply Hsnap, write_pci_filled|].
  destruct (bytes_eqb _ _); [apply Hsnap, write_network_filled|]. by rewrite wp_ret.
Qed.

Theorem devfs_laws : MountLaws mounts good off_ok (mkMount id path dev).
Proof using Hpath Hoff.
  split; cbn [mnt_path mnt_backend mnt_id].
  - done.
  - intros p out s _ Hg. cbn [be_list DevFs.backend]. unfold DevFs.list, wp. destruct (negb _); [done|]. run.
    by destruct (append_lines_ok [str "null"; str "zero"; str "drivers"; str "pci"; str "net"] out 0) as (r & out' & -> & ?); [lia|].
  - intros p s _ Hg. eapply wp_mono; [apply dev_stat_ok|]. intros r s' ->. split_and!; [done..|]. destruct r; [|done]. intros _. apply Hoff. intros _. cbn. lia.
  - intros inode off out s Hg Ho. by apply dev_read_ok.
  - intros inode off src s Hg _ Ho. cbn [be_write DevFs.backend]. unfold DevFs.write. destruct (_ || _) eqn:E.
    + rewrite wp_ret. split_and!; [done..|]. apply Hoff. unfold dev_off. cbn. intros Hin. apply orb_true_iff in E as [->%Z.eqb_eq| ->%Z.eqb_eq]; set_solver.
    + repeat (destruct (_ || _); [done|]). by destruct (_ =? _).
  - intros p s _ Hg. done.
  - intros p s _ Hg. done.
  - intros p st s s1 _ Hg Hst. pose proof (dev_stat_ok p s) as Hs. unfold wp in Hs. rewrite Hst in Hs. subst s1. done.
  - intros p s _ Hg. done.
  - intros p q s _ _ Hg. done.
Qed.
End laws.
