(* ===== verification/Storage.v ===== *)
(** * Block devices (storage/block.rs, storage/ramdisk.rs, storage/ata.rs)

    [BlockDevice] is the trait of the code: 512-byte blocks read and written
    by number.  [RamDisk] is a read-only image in memory.  [Ata] is the polling
    driver of an IDE disk; the ports it talks to are the class [Ports]. *)

From S2P Require Import Prelude.

Definition BLOCK_SIZE : nat := 512.

Module Block.
Inductive BlockError := OutOfRange | ReadOnly | NoDevice | Timeout | DeviceFault.
End Block.
Import Block (BlockError).

(** The trait.  A read fills the caller's buffer, which is returned. *)
Class BlockDevice (D : Type) := {
  block_count : D -> Z;
  read_block : Z -> M D (result bytes BlockError);
  write_block : Z -> bytes -> M D (result () BlockError);
}.

(** ** A disk image in memory *)

Module RamDisk.
Record RamDisk := new { data : bytes }.

Definition len (d : RamDisk) : nat := length (data d).

(** [div_ceil] *)
Definition block_count (d : RamDisk) : Z := (Z.of_nat (len d) + Z.of_nat BLOCK_SIZE - 1) / Z.of_nat BLOCK_SIZE.

Definition read_block (block_index : Z) : M RamDisk (result bytes BlockError) :=
  d ← get;
  if block_count d <=? block_index then mret (Err Block.OutOfRange) else
  let start := (Z.to_nat block_index * BLOCK_SIZE)%nat in
  let end_ := Nat.min (start + BLOCK_SIZE) (len d) in
  let n := (end_ - start)%nat in
  src ← lift (slice (data d) start end_);
  buffer ← lift (copy_slice (replicate BLOCK_SIZE 0) 0 n src);
  mret (Ok buffer).

Definition write_block (block_index : Z) (buffer : bytes) : M RamDisk (result () BlockError) := mret (Err Block.ReadOnly).

#[export] Instance device : BlockDevice RamDisk :=
  {| Storage.block_count := block_count; Storage.read_block := read_block; Storage.write_block := write_block |}.
End RamDisk.

(** ** The IDE disk *)

(** The ports of the processor, over the state of the hardware. *)
Class Ports (H : Type) := {
  in8 : Z -> M H Z;
  out8 : Z -> Z -> M H ();
  in16 : Z -> M H Z;
  out16 : Z -> Z -> M H ();
}.

Module Ata.

Definition DATA : Z := 0x1f0.
Definition SECTOR_COUNT : Z := 0x1f2.
Definition LBA_LOW : Z := 0x1f3.
Definition LBA_MID : Z := 0x1f4.
Definition LBA_HIGH : Z := 0x1f5.
Definition DRIVE : Z := 0x1f6.
Definition STATUS_COMMAND : Z := 0x1f7.
Definition ALT_STATUS_CONTROL : Z := 0x3f6.

Definition STATUS_ERROR : Z := 0x01.
Definition STATUS_DATA_REQUEST : Z := 0x08.
Definition STATUS_DEVICE_FAULT : Z := 0x20.
Definition STATUS_BUSY : Z := 0x80.

Definition COMMAND_READ_SECTORS : Z := 0x20.
Definition COMMAND_WRITE_SECTORS : Z := 0x30.
Definition COMMAND_CACHE_FLUSH : Z := 0xe7.
Definition POLL_LIMIT : Z := 1000000.

Record AtaPioDisk := mkDisk { slave : bool; blocks : Z }.

Definition primary_slave (blocks : Z) : AtaPioDisk := mkDisk true blocks.

Section driver.
Context {H : Type} `{Ports H} (self : AtaPioDisk).

Definition drive_head (lba : Z) : Z :=
  Z.lor (Z.lor 0xe0 (Z.shiftl (Z.b2z (slave self)) 4)) (Z.land (Z.shiftr lba 24 mod 256) 0x0f).

(** One test of the status per round. *)
Fixpoint poll_rounds (fuel : nat) (require_data : bool) : M H (result Z BlockError) :=
  match fuel with
  | O => mret (Err Block.Timeout)
  | S fuel =>
    status ← in8 STATUS_COMMAND;
    if (status =? 0) || (status =? 0xff) then mret (Err Block.NoDevice) else
    if negb (Z.land status STATUS_DEVICE_FAULT =? 0) then mret (Err Block.DeviceFault) else
    if negb (Z.land status STATUS_ERROR =? 0) then mret (Err Block.DeviceFault) else
    if (Z.land status STATUS_BUSY =? 0) && (negb require_data || negb (Z.land status STATUS_DATA_REQUEST =? 0))
    then mret (Ok status) else
    poll_rounds fuel require_data
  end.

Definition poll_status (require_data : bool) : M H (result Z BlockError) := poll_rounds (Z.to_nat POLL_LIMIT) require_data.
Definition wait_ready : M H (result Z BlockError) := poll_status false.
Definition wait_data : M H (result Z BlockError) := poll_status true.

(** Four reads of the alternate status. *)
Definition io_delay : M H () :=
  in8 ALT_STATUS_CONTROL;; in8 ALT_STATUS_CONTROL;; in8 ALT_STATUS_CONTROL;; in8 ALT_STATUS_CONTROL;; mret ().

Definition probe : M H (result () BlockError) :=
  out8 ALT_STATUS_CONTROL 0x02;;
  out8 DRIVE (drive_head 0);;
  io_delay;;
  status ← in8 STATUS_COMMAND;
  if (status =? 0) || (status =? 0xff) then mret (Err Block.NoDevice) else
  try _ := wait_ready in mret (Ok ()).

Definition transfer_setup (block command : Z) : M H (result () BlockError) :=
  if (blocks self <=? block) || (0x0fffffff <? block) then mret (Err Block.OutOfRange) else
  let lba := block in
  try _ := wait_ready in
  out8 DRIVE (drive_head lba);;
  out8 SECTOR_COUNT 1;;
  out8 LBA_LOW (lba mod 256);;
  out8 LBA_MID (Z.shiftr lba 8 mod 256);;
  out8 LBA_HIGH (Z.shiftr lba 16 mod 256);;
  out8 STATUS_COMMAND command;;
  try _ := wait_data in mret (Ok ()).

(** [for chunk in buffer.chunks_exact_mut(2)] *)
Fixpoint read_words (n : nat) : M H bytes :=
  match n with
  | O => mret []
  | S n => word ← in16 DATA; rest ← read_words n; mret (le_bytes 2 word ++ rest)
  end.

Definition read_block (block_index : Z) : M H (result bytes BlockError) :=
  try _ := transfer_setup block_index COMMAND_READ_SECTORS in
  buffer ← read_words (BLOCK_SIZE / 2);
  io_delay;;
  mret (Ok buffer).

(** [for chunk in buffer.chunks_exact(2)] *)
Fixpoint write_words (buffer : bytes) : M H () :=
  match buffer with
  | a :: b :: rest => out16 DATA (le_value [a; b]);; write_words rest
  | _ => mret ()
  end.

Definition write_block (block_index : Z) (buffer : bytes) : M H (result () BlockError) :=
  try _ := transfer_setup block_index COMMAND_WRITE_SECTORS in
  write_words buffer;;
  out8 STATUS_COMMAND COMMAND_CACHE_FLUSH;;
  try _ := wait_ready in
  io_delay;;
  mret (Ok ()).

Definition device : BlockDevice H :=
  {| Storage.block_count := fun _ => blocks self; Storage.read_block := read_block; Storage.write_block := write_block |}.
End driver.
End Ata.
