(* ===== verification/Drivers.v ===== *)
(** * Device drivers (drivers/pci.rs, network.rs, ps2.rs, mouse.rs, usb_host.rs, usb_descriptor.rs, usb_structs.rs, timer.rs)

    The drivers reach the hardware through the ports of the processor, which are
    interfaces ([Ports] of [Storage], [Ports32]). *)

From S2P Require Import Prelude Text Storage.

Class Ports32 (H : Type) := {
  in32 : Z -> M H Z;
  out32 : Z -> Z -> M H ();
}.

(** [for x in l { f(x) }], collecting what is pushed. *)
Fixpoint collect {H A B} (f : A -> M H (list B)) (l : list A) : M H (list B) :=
  match l with [] => mret [] | x :: l => a ← f x; b ← collect f l; mret (a ++ b) end.

(** ** PCI *)

Module Pci.
Definition CONFIG_ADDRESS : Z := 0xcf8.
Definition CONFIG_DATA : Z := 0xcfc.
Definition INVALID_VENDOR_ID : Z := 0xffff.

Section pci.
Context {H : Type} `{Ports32 H}.

Definition config_address (bus slot function offset : Z) : Z :=
  Z.lor (Z.lor (Z.lor (Z.lor 0x80000000 (Z.shiftl bus 16)) (Z.shiftl slot 11)) (Z.shiftl function 8)) (Z.land offset 0xfc).

Definition read_config_u32 (bus slot function offset : Z) : M H Z :=
  out32 CONFIG_ADDRESS (config_address bus slot function offset);;
  in32 CONFIG_DATA.

Definition read_vendor_id (bus slot function : Z) : M H Z := v ← read_config_u32 bus slot function 0x00; mret (v mod 2 ^ 16).
Definition read_header_type (bus slot function : Z) : M H Z := v ← read_config_u32 bus slot function 0x0c; mret (Z.shiftr v 16 mod 2 ^ 8).

Definition scan_function (bus slot function : Z) : M H (list PciDevice) :=
  vendor_id ← read_vendor_id bus slot function;
  if vendor_id =? INVALID_VENDOR_ID then mret [] else
  id ← read_config_u32 bus slot function 0x00;
  class ← read_config_u32 bus slot function 0x08;
  header_type ← read_header_type bus slot function;
  mret [mkPci bus slot function vendor_id (Z.shiftr id 16 mod 2 ^ 16) (Z.shiftr class 24 mod 2 ^ 8) (Z.shiftr class 16 mod 2 ^ 8)
          (Z.shiftr class 8 mod 2 ^ 8) header_type].

Definition scan_slot (bus slot : Z) : M H (list PciDevice) :=
  vendor_id ← read_vendor_id bus slot 0;
  if vendor_id =? INVALID_VENDOR_ID then mret [] else
  devices ← scan_function bus slot 0;
  header_type ← read_header_type bus slot 0;
  if Z.land header_type 0x80 =? 0 then mret devices else
  more ← collect (fun function =>
    vendor_id ← read_vendor_id bus slot function;
    if vendor_id =? INVALID_VENDOR_ID then mret [] else scan_function bus slot function) (map Z.of_nat (seq 1 7));
  mret (devices ++ more).

Definition scan_bus : M H (list PciDevice) :=
  collect (fun bus => collect (fun slot => scan_slot bus slot) (map Z.of_nat (seq 0 32))) (map Z.of_nat (seq 0 256)).

Definition read_bar (device : PciDevice) (bar_index : Z) : M H Z :=
  if 6 <=? bar_index then mret 0 else
  read_config_u32 (pci_bus device) (pci_slot device) (pci_function device) (0x10 + bar_index * 4).
End pci.

Definition init {H} `{Ports32 H} (statuses : list (option DriverStatus)) : M H (list PciDevice * list (option DriverStatus)) :=
  devices ← scan_bus;
  mret (devices, report (str "pci") DriverReady (str "device registry available") statuses).

Definition devices_by_class (class_code : Z) (devices : list PciDevice) : list PciDevice := List.filter (fun d => pci_class_code d =? class_code) devices.

Definition find_device_by_class (class_code subclass : Z) (prog_if : option Z) (devices : list PciDevice) : option PciDevice :=
  List.find (fun d => (pci_class_code d =? class_code) && (pci_subclass d =? subclass) &&
                      match prog_if with Some expected => pci_prog_if d =? expected | None => true end) devices.
End Pci.

(** ** Network *)

Module Network.
Section network.
Context {H : Type} `{Ports32 H}.

(** The table of network devices; the driver's state is reported. *)
Definition init (pci_devices : list PciDevice) (statuses : list (option DriverStatus)) : M H (list NetworkDevice * list (option DriverStatus)) :=
  devices ← collect (fun device =>
    bar0 ← Pci.read_bar device 0;
    mret [mkNet device (if pci_subclass device =? 0x00 then Ethernet else OtherNetwork)
            (if (pci_vendor_id device =? 0x8086) && (pci_device_id device =? 0x100e) then IntelE1000 else Unsupported) bar0])
    (Pci.devices_by_class 0x02 pci_devices);
  let '(state, detail) :=
    match devices with
    | [] => (Missing, str "no PCI network device")
    | _ => if existsb (fun d => match net_driver d with IntelE1000 => true | Unsupported => false end) devices
           then (Degraded, str "e1000 detected; packet driver pending")
           else (Degraded, str "unsupported network hardware")
    end in
  mret (devices, report (str "network") state detail statuses).
End network.
End Network.

(** ** The PS/2 controller *)

Module Ps2.
Section ps2.
Context {H : Type} `{Ports H}.

Definition DATA_PORT : Z := 0x60.
Definition COMMAND_PORT : Z := 0x64.

Fixpoint wait_rounds (fuel : nat) (ready : Z -> bool) (error : bytes) : M H (result () bytes) :=
  match fuel with
  | O => mret (Err error)
  | S fuel => status ← in8 COMMAND_PORT; if ready status then mret (Ok ()) else wait_rounds fuel ready error
  end.

Definition input_clear (status : Z) : bool := Z.land status 0x02 =? 0.
Definition output_full (status : Z) : bool := negb (Z.land status 0x01 =? 0).

Definition wait_input_clear : M H (result () bytes) := wait_rounds (Z.to_nat 100000) input_clear (str "PS/2 input buffer timeout").
Definition wait_output_full : M H (result () bytes) := wait_rounds (Z.to_nat 100000) output_full (str "PS/2 output buffer timeout").

(** [while status & 1 != 0 { read }]; [fuel] bounds the bytes the controller
    holds, and [None] says it held more. *)
Fixpoint flush_output (fuel : nat) : M H (option ()) :=
  status ← in8 COMMAND_PORT;
  if negb (output_full status) then mret (Some ()) else
  match fuel with
  | O => mret None
  | S fuel => in8 DATA_PORT;; flush_output fuel
  end.

Definition read_data : M H Z := in8 DATA_PORT.
Definition write_data (data : Z) : M H () := out8 DATA_PORT data.
Definition write_command (command : Z) : M H () := out8 COMMAND_PORT command.

(** The part of [init_controller] before the flush, and the part after it. *)
Definition disable_ports : M H (result () bytes) :=
  try _ := wait_input_clear in
  write_command 0xad;;
  try _ := wait_input_clear in
  write_command 0xa7;;
  mret (Ok ()).

Definition configure : M H (result () bytes) :=
  try _ := wait_input_clear in
  write_command 0x20;;
  try _ := wait_output_full in
  config ← read_data;
  let config := Z.lor config 0x03 in
  let config := Z.lor config 0x40 in
  try _ := wait_input_clear in
  write_command 0x60;;
  try _ := wait_input_clear in
  write_data config;;
  try _ := wait_input_clear in
  write_command 0xae;;
  try _ := wait_input_clear in
  write_command 0xa8;;
  mret (Ok ()).

Definition init_controller (fuel : nat) : M H (option (result () bytes)) :=
  r ← disable_ports;
  match r with
  | Err e => mret (Some (Err e))
  | Ok _ =>
    flushed ← flush_output fuel;
    match flushed with
    | None => mret None
    | Some _ => r ← configure; mret (Some r)
    end
  end.
End ps2.
End Ps2.

(** ** The PS/2 mouse's commands *)

Module MouseSetup.
Section mouse.
Context {H : Type} `{Ports H}.

Definition wait_input_clear : M H (result () bytes) :=
  Ps2.wait_rounds (Z.to_nat 100000) Ps2.input_clear (str "PS/2 controller input buffer timeout").
Definition wait_output_full : M H (result () bytes) :=
  Ps2.wait_rounds (Z.to_nat 100000) Ps2.output_full (str "PS/2 controller output buffer timeout").

Definition write_mouse_command (command : Z) : M H (result () bytes) :=
  try _ := wait_input_clear in
  Ps2.write_command 0xd4;;
  try _ := wait_input_clear in
  Ps2.write_data command;;
  try _ := wait_output_full in
  answer ← Ps2.read_data;
  mret (if answer =? 0xfa then Ok () else Err (str "PS/2 mouse command not acknowledged")).

Definition init : M H (result () bytes) :=
  try _ := wait_input_clear in
  Ps2.write_command 0xa8;;
  try _ := wait_input_clear in
  Ps2.write_command 0x20;;
  try _ := wait_output_full in
  answer ← Ps2.read_data;
  let status := Z.lor answer 0x02 in
  try _ := wait_input_clear in
  Ps2.write_command 0x60;;
  try _ := wait_input_clear in
  Ps2.write_data status;;
  try _ := write_mouse_command 0xf6 in
  try _ := write_mouse_command 0xf4 in
  mret (Ok ()).
End mouse.
End MouseSetup.

(** ** The timer chip (timer.rs) *)

Module Pit.
Definition PIT_BASE_FREQUENCY_HZ : Z := 1193182.
Definition TIMER_HZ : Z := 100.

Section pit.
Context {H : Type} `{Ports H}.

Definition set_pit_frequency (frequency_hz : Z) : M H () :=
  if frequency_hz =? 0 then panic else
  let divisor := PIT_BASE_FREQUENCY_HZ / frequency_hz mod 2 ^ 16 in
  out8 0x43 0x36;;
  out8 0x40 (Z.land divisor 0xff);;
  out8 0x40 (Z.shiftr divisor 8).

Definition init : M H () := set_pit_frequency TIMER_HZ.
End pit.
End Pit.

(** ** USB descriptors (usb_descriptor.rs) *)

Module UsbDescriptor.
Inductive UsbDescriptorError := TooShort | InvalidLength | UnexpectedType | Truncated.

Record DeviceDescriptor := mkDevice {
  usb_version : Z; device_class : Z; device_subclass : Z; device_protocol : Z; max_packet_size : Z; vendor_id : Z; product_id : Z;
  device_version : Z; manufacturer_index : Z; product_index : Z; serial_number_index : Z; num_configurations : Z }.
Record ConfigurationDescriptor := mkConfiguration {
  total_length : Z; num_interfaces : Z; configuration_value : Z; c_attributes : Z; max_power_ma : Z }.
Record InterfaceDescriptor := mkInterface {
  interface_number : Z; alternate_setting : Z; num_endpoints : Z; interface_class : Z; interface_subclass : Z; interface_protocol : Z }.
Record EndpointDescriptor := mkEndpoint { address : Z; e_attributes : Z; e_max_packet_size : Z; interval : Z }.

Inductive ParsedDescriptor :=
  | Configuration (c : ConfigurationDescriptor)
  | Interface (i : InterfaceDescriptor)
  | Endpoint (e : EndpointDescriptor)
  | Unknown (descriptor_type : Z) (bytes : bytes).

(** What parsing gives: an index out of range panics. *)
Notation parsed A := (outcome (result A UsbDescriptorError)).

Definition read_u16 (bytes : bytes) (offset : nat) : outcome Z :=
  lo ← index bytes offset; hi ← index bytes (offset + 1); mret (le_value [lo; hi]).

Definition require_descriptor (bytes : bytes) (minimum_length : nat) (expected_type : Z) : parsed () :=
  if bool_decide (length bytes < minimum_length)%nat then mret (Err TooShort) else
  b0 ← index bytes 0;
  if (Z.of_nat (length bytes) <? b0) || (b0 <? Z.of_nat minimum_length) then mret (Err InvalidLength) else
  b1 ← index bytes 1;
  if negb (b1 =? expected_type) then mret (Err UnexpectedType) else
  mret (Ok ()).

Definition parse_device_descriptor (bytes : bytes) : parsed DeviceDescriptor :=
  r ← require_descriptor bytes 18 1;
  match r with
  | Err e => mret (Err e)
  | Ok _ =>
    usb_version ← read_u16 bytes 2;
    device_class ← index bytes 4;
    device_subclass ← index bytes 5;
    device_protocol ← index bytes 6;
    max_packet_size ← index bytes 7;
    vendor_id ← read_u16 bytes 8;
    product_id ← read_u16 bytes 10;
    device_version ← read_u16 bytes 12;
    manufacturer_index ← index bytes 14;
    product_index ← index bytes 15;
    serial_number_index ← index bytes 16;
    num_configurations ← index bytes 17;
    mret (Ok (mkDevice usb_version device_class device_subclass device_protocol max_packet_size vendor_id product_id
                device_version manufacturer_index product_index serial_number_index num_configurations))
  end.

Definition parse_configuration (bytes : bytes) : parsed ParsedDescriptor :=
  r ← require_descriptor bytes 9 2;
  match r with
  | Err e => mret (Err e)
  | Ok _ =>
    total_length ← read_u16 bytes 2;
    num_interfaces ← index bytes 4;
    configuration_value ← index bytes 5;
    attributes ← index bytes 7;
    power ← index bytes 8;
    mret (Ok (Configuration (mkConfiguration total_length num_interfaces configuration_value attributes (power * 2))))
  end.

Definition parse_interface (bytes : bytes) : parsed ParsedDescriptor :=
  r ← require_descriptor bytes 9 4;
  match r with
  | Err e => mret (Err e)
  | Ok _ =>
    interface_number ← index bytes 2;
    alternate_setting ← index bytes 3;
    num_endpoints ← index bytes 4;
    interface_class ← index bytes 5;
    interface_subclass ← index bytes 6;
    interface_protocol ← index bytes 7;
    mret (Ok (Interface (mkInterface interface_number alternate_setting num_endpoints interface_class interface_subclass
                           interface_protocol)))
  end.

Definition parse_endpoint (bytes : bytes) : parsed ParsedDescriptor :=
  r ← require_descriptor bytes 7 5;
  match r with
  | Err e => mret (Err e)
  | Ok _ =>
    address ← index bytes 2;
    attributes ← index bytes 3;
    max_packet_size ← read_u16 bytes 4;
    interval ← index bytes 6;
    mret (Ok (Endpoint (mkEndpoint address attributes max_packet_size interval)))
  end.

Definition parse_descriptor (bytes : bytes) : parsed ParsedDescriptor :=
  descriptor_type ← index bytes 1;
  if descriptor_type =? 2 then parse_configuration bytes else
  if descriptor_type =? 4 then parse_interface bytes else
  if descriptor_type =? 5 then parse_endpoint bytes else
  mret (Ok (Unknown descriptor_type bytes)).

Record DescriptorIter := mkIter { i_bytes : bytes; i_offset : nat }.

Definition new (bytes : bytes) : DescriptorIter := mkIter bytes 0.

Definition fail (e : UsbDescriptorError) : M DescriptorIter (option (result ParsedDescriptor UsbDescriptorError)) :=
  modify (fun i => mkIter (i_bytes i) (length (i_bytes i)));; mret (Some (Err e)).

Definition next : M DescriptorIter (option (result ParsedDescriptor UsbDescriptorError)) :=
  self ← get;
  if bool_decide (i_offset self = length (i_bytes self)) then mret None else
  if bool_decide (length (i_bytes self) < i_offset self)%nat then panic else
  if bool_decide (length (i_bytes self) - i_offset self < 2)%nat then fail TooShort else
  b ← lift (index (i_bytes self) (i_offset self));
  let length_ := Z.to_nat b in
  if bool_decide (length_ < 2)%nat then fail InvalidLength else
  let end_ := (i_offset self + length_)%nat in
  if negb (bool_decide (end_ <= length (i_bytes self))%nat) then fail Truncated else
  descriptor ← lift (slice (i_bytes self) (i_offset self) end_);
  modify (fun i => mkIter (i_bytes i) end_);;
  r ← lift (parse_descriptor descriptor);
  mret (Some r).
End UsbDescriptor.

(** ** The UHCI controller (usb_host.rs, usb_structs.rs) *)

Module Usb.
Inductive UsbDeviceClass :=
  | InterfaceSpecific | Audio | CommunicationAndCDC | HID | Physical | Image | Printer | MassStorage | Hub
  | MiscellaneousDevice | VendorSpecific.

Definition from_u8 (val : Z) : UsbDeviceClass :=
  if val =? 0x00 then InterfaceSpecific else
  if val =? 0x01 then Audio else
  if val =? 0x02 then CommunicationAndCDC else
  if val =? 0x03 then HID else
  if val =? 0x05 then Physical else
  if val =? 0x06 then Image else
  if val =? 0x07 then Printer else
  if val =? 0x08 then MassStorage else
  if val =? 0x09 then Hub else
  if val =? 0xef then MiscellaneousDevice else
  VendorSpecific.

Record UsbDevice := mkUsb {
  u_address : Z; u_vendor_id : Z; u_product_id : Z; u_device_class : UsbDeviceClass; u_num_configurations : Z;
  u_max_packet_size : Z }.

Record UhciController := mkUhci { iobase : Z; devices : list UsbDevice }.

Definition new (iobase : Z) : UhciController := mkUhci iobase [].

Definition Run : Z := 0x01.
Definition HostControllerReset : Z := 0x02.

Section uhci.
Context {H : Type} `{Ports H} `{Ports32 H}.

Fixpoint reset_rounds (fuel : nat) (port : Z) : M H (result () bytes) :=
  match fuel with
  | O => mret (Err (str "UHCI reset timeout"))
  | S fuel => status ← in16 port; if Z.land status HostControllerReset =? 0 then mret (Ok ()) else reset_rounds fuel port
  end.

Definition reset (self : UhciController) : M H (result () bytes) :=
  out16 (iobase self) HostControllerReset;;
  reset_rounds 1000 (iobase self).

Definition enable (self : UhciController) : M H (result () bytes) :=
  out16 (iobase self) Run;;
  mret (Ok ()).

Definition init (self : UhciController) : M H (result () bytes) :=
  try _ := reset self in
  try _ := enable self in
  mret (Ok ()).

(** The port number of the register is a checked 16-bit sum. *)
Definition get_port_status (self : UhciController) (port : Z) : M H Z :=
  if 2 <=? port then mret 0 else
  let register := iobase self + (0x10 + port * 2) in
  if 2 ^ 16 <=? register then panic else
  in16 register.

Definition detect_devices (self : UhciController) : M H (result () bytes) :=
  get_port_status self 0;;
  get_port_status self 1;;
  mret (Ok ()).

Definition enumerate_device (self : UhciController) (address : Z) : UsbDevice * UhciController :=
  let device := mkUsb address 0x0000 0x0000 InterfaceSpecific 1 8 in
  (device, mkUhci (iobase self) (devices self ++ [device])).

Definition find_uhci_iobase (pci_devices : list PciDevice) : M H (option Z) :=
  match Pci.find_device_by_class 0x0c 0x03 (Some 0x00) pci_devices with
  | None => mret None
  | Some device =>
    bar ← Pci.read_bar device 4;
    if Z.land bar 0x1 =? 0 then mret None else
    let iobase := Z.land bar 0xfffc in
    if iobase =? 0 then mret None else
    mret (Some iobase)
  end.

Definition init_usb (pci_devices : list PciDevice) (controller : option UhciController) (statuses : list (option DriverStatus)) :
    M H (option UhciController * list (option DriverStatus)) :=
  found ← find_uhci_iobase pci_devices;
  match found with
  | None => mret (controller, report (str "usb-uhci") Missing (str "controller not found") statuses)
  | Some iobase =>
    let self := new iobase in
    r ← init self;
    match r with
    | Ok _ =>
      detect_devices self;;
      mret (Some self, report (str "usb-uhci") DriverReady (str "controller initialized") statuses)
    | Err e => mret (controller, report (str "usb-uhci") DriverError e statuses)
    end
  end.
End uhci.

(** [for parsed in DescriptorIter::new(configuration_bytes)], counting; running
    out of fuel is a panic here, which the safety theorem excludes. *)
Fixpoint count_descriptors (fuel interfaces endpoints : nat) :
    M UsbDescriptor.DescriptorIter (result (nat * nat) UsbDescriptor.UsbDescriptorError) :=
  match fuel with
  | O => panic
  | S fuel =>
    item ← UsbDescriptor.next;
    match item with
    | None => mret (Ok (interfaces, endpoints))
    | Some (Err e) => mret (Err e)
    | Some (Ok (UsbDescriptor.Interface _)) => count_descriptors fuel (S interfaces) endpoints
    | Some (Ok (UsbDescriptor.Endpoint _)) => count_descriptors fuel interfaces (S endpoints)
    | Some (Ok _) => count_descriptors fuel interfaces endpoints
    end
  end.

Definition register_descriptor_set (address : Z) (device_bytes configuration_bytes : bytes) :
    M UhciController (result UsbDevice UsbDescriptor.UsbDescriptorError) :=
  r ← lift (UsbDescriptor.parse_device_descriptor device_bytes);
  match r with
  | Err e => mret (Err e)
  | Ok descriptor =>
    let device := mkUsb address (UsbDescriptor.vendor_id descriptor) (UsbDescriptor.product_id descriptor)
                    (from_u8 (UsbDescriptor.device_class descriptor)) (UsbDescriptor.num_configurations descriptor)
                    (UsbDescriptor.max_packet_size descriptor) in
    counted ← lift (match count_descriptors (S (length configuration_bytes)) 0 0 (UsbDescriptor.new configuration_bytes) with
                    | Done (r, _) => Done r
                    | Panic => Panic
                    end);
    match counted with
    | Err e => mret (Err e)
    | Ok _ =>
      modify (fun c => mkUhci (iobase c) (devices c ++ [device]));;
      mret (Ok device)
    end
  end.
End Usb.
