(* ===== verification/DriverProofs.v ===== *)
(** * The bus scan and the USB descriptors (drivers/pci.rs, usb_host.rs, usb_descriptor.rs) *)

From S2P Require Import Prelude Text Storage Drivers.

(** ** PCI *)

(** Configuration mechanism #1: a word with its top bit set written to the
    address port selects a bus (bits 16-23), a slot (11-15), a function (8-10)
    and a register (2-7), which the data port then reads.  Reading the
    registers the scan reads does not change them. *)
Class PciConfig (H : Type) `{Ports32 H} := {
  pci_register : H -> Z -> Z -> Z -> Z -> Z;
  pci_register_read : forall (h : H) (a : Z), Z.testbit a 31 = true ->
    exists h',
      (out32 Pci.CONFIG_ADDRESS a;; in32 Pci.CONFIG_DATA) h =
        Done (pci_register h (Z.land (Z.shiftr a 16) 0xff) (Z.land (Z.shiftr a 11) 0x1f) (Z.land (Z.shiftr a 8) 0x7) (Z.land a 0xfc), h')
      /\ pci_register h' = pci_register h;
}.

(** What is on the bus, from the registers: a function is present when its
    vendor answers, and the functions above 0 of a slot are present only
    when function 0 says that the device has several. *)
Section bus.
Context (reg : Z -> Z -> Z -> Z -> Z).

Definition answers (bus slot function : Z) : bool := negb (reg bus slot function 0x00 mod 2 ^ 16 =? 0xffff).
Definition header (bus slot function : Z) : Z := Z.shiftr (reg bus slot function 0x0c) 16 mod 2 ^ 8.
Definition several (bus slot : Z) : bool := negb (Z.land (header bus slot 0) 0x80 =? 0).

Definition present (place : Z * Z * Z) : bool :=
  let '(bus, slot, function) := place in
  answers bus slot 0 && answers bus slot function && ((function =? 0) || several bus slot).

Definition describe (place : Z * Z * Z) : PciDevice :=
  let '(bus, slot, function) := place in
  let id := reg bus slot function 0x00 in
  let class := reg bus slot function 0x08 in
  mkPci bus slot function (id mod 2 ^ 16) (Z.shiftr id 16 mod 2 ^ 16) (Z.shiftr class 24 mod 2 ^ 8) (Z.shiftr class 16 mod 2 ^ 8)
    (Z.shiftr class 8 mod 2 ^ 8) (header bus slot function).

Definition upto (n : nat) : list Z := map Z.of_nat (seq 0 n).

(** Every place of the bus, in the order of bus, slot and function. *)
Definition places : list (Z * Z * Z) :=
  flat_map (fun bus => flat_map (fun slot => map (fun function => (bus, slot, function)) (upto 8)) (upto 32)) (upto 256).

Definition attached : list PciDevice := map describe (List.filter present places).
End bus.

Lemma upto_range n z : z ∈ upto n -> 0 <= z < Z.of_nat n.
Proof. intros (i & Hi & Hin)%list_elem_of_In%in_map_iff. apply in_seq in Hin. lia. Qed.

(** The fields of the address word. *)
Lemma field (p : Z -> bool) n : forallb p (upto n) = true -> forall z, 0 <= z < Z.of_nat n -> p z = true.
Proof.
  intros Hp z Hz. apply (proj1 (forallb_forall p _) Hp). apply in_map_iff. exists (Z.to_nat z).
  split; [lia|]. apply in_seq. lia.
Qed.

Ltac field_of p n := apply Z.eqb_eq; apply (field p n); [vm_compute; reflexivity | lia].

Lemma config_address_fields bus slot function offset :
  0 <= bus < 256 -> 0 <= slot < 32 -> 0 <= function < 8 -> 0 <= offset < 256 ->
  let a := Pci.config_address bus slot function offset in
  Z.testbit a 31 = true /\ Z.land (Z.shiftr a 16) 0xff = bus /\ Z.land (Z.shiftr a 11) 0x1f = slot /\
  Z.land (Z.shiftr a 8) 0x7 = function /\ Z.land a 0xfc = Z.land offset 0xfc.
Proof.
  intros Hb Hs Hf Ho a. unfold a, Pci.config_address.
  rewrite !Z.lor_spec, !Z.shiftr_lor, !Z.land_lor_distr_l.
  assert (B1 : Z.land (Z.shiftr (Z.shiftl bus 16) 16) 0xff = bus) by field_of (fun z => Z.land (Z.shiftr (Z.shiftl z 16) 16) 0xff =? z) 256%nat.
  assert (B2 : Z.land (Z.shiftr (Z.shiftl bus 16) 11) 0x1f = 0) by field_of (fun z => Z.land (Z.shiftr (Z.shiftl z 16) 11) 0x1f =? 0) 256%nat.
  assert (B3 : Z.land (Z.shiftr (Z.shiftl bus 16) 8) 0x7 = 0) by field_of (fun z => Z.land (Z.shiftr (Z.shiftl z 16) 8) 0x7 =? 0) 256%nat.
  assert (B4 : Z.land (Z.shiftl bus 16) 0xfc = 0) by field_of (fun z => Z.land (Z.shiftl z 16) 0xfc =? 0) 256%nat.
  assert (S1 : Z.land (Z.shiftr (Z.shiftl slot 11) 16) 0xff = 0) by field_of (fun z => Z.land (Z.shiftr (Z.shiftl z 11) 16) 0xff =? 0) 32%nat.
  assert (S2 : Z.land (Z.shiftr (Z.shiftl slot 11) 11) 0x1f = slot) by field_of (fun z => Z.land (Z.shiftr (Z.shiftl z 11) 11) 0x1f =? z) 32%nat.
  assert (S3 : Z.land (Z.shiftr (Z.shiftl slot 11) 8) 0x7 = 0) by field_of (fun z => Z.land (Z.shiftr (Z.shiftl z 11) 8) 0x7 =? 0) 32%nat.
  assert (S4 : Z.land (Z.shiftl slot 11) 0xfc = 0) by field_of (fun z => Z.land (Z.shiftl z 11) 0xfc =? 0) 32%nat.
  assert (F1 : Z.land (Z.shiftr (Z.shiftl function 8) 16) 0xff = 0) by field_of (fun z => Z.land (Z.shiftr (Z.shiftl z 8) 16) 0xff =? 0) 8%nat.
  assert (F2 : Z.land (Z.shiftr (Z.shiftl function 8) 11) 0x1f = 0) by field_of (fun z => Z.land (Z.shiftr (Z.shiftl z 8) 11) 0x1f =? 0) 8%nat.
  assert (F3 : Z.land (Z.shiftr (Z.shiftl function 8) 8) 0x7 = function) by field_of (fun z => Z.land (Z.shiftr (Z.shiftl z 8) 8) 0x7 =? z) 8%nat.
  assert (F4 : Z.land (Z.shiftl function 8) 0xfc = 0) by field_of (fun z => Z.land (Z.shiftl z 8) 0xfc =? 0) 8%nat.
  assert (O1 : Z.land (Z.shiftr (Z.land offset 0xfc) 16) 0xff = 0) by field_of (fun z => Z.land (Z.shiftr (Z.land z 0xfc) 16) 0xff =? 0) 256%nat.
  assert (O2 : Z.land (Z.shiftr (Z.land offset 0xfc) 11) 0x1f = 0) by field_of (fun z => Z.land (Z.shiftr (Z.land z 0xfc) 11) 0x1f =? 0) 256%nat.
  assert (O3 : Z.land (Z.shiftr (Z.land offset 0xfc) 8) 0x7 = 0) by field_of (fun z => Z.land (Z.shiftr (Z.land z 0xfc) 8) 0x7 =? 0) 256%nat.
  assert (O4 : Z.land (Z.land offset 0xfc) 0xfc = Z.land offset 0xfc) by field_of (fun z => Z.land (Z.land z 0xfc) 0xfc =? Z.land z 0xfc) 256%nat.
  rewrite B1, B2, B3, B4, S1, S2, S3, S4, F1, F2, F3, F4, O1, O2, O3, O4. cbn. rewrite !Z.lor_0_r. auto.
Qed.

Lemma filter_nothing {A} (p : A -> bool) l : (forall x, In x l -> p x = false) -> List.filter p l = [].
Proof. intros Hp. rewrite (List.filter_ext_in _ (fun _ => false)) by done. by induction l; [|apply IHl; intros; apply Hp; right]. Qed.

Lemma filter_map_swap {A B} (p : B -> bool) (f : A -> B) l : List.filter p (map f l) = map f (List.filter (fun x => p (f x)) l).
Proof. induction l as [|x l IH]; cbn; [done|]. rewrite IH. by destruct (p (f x)). Qed.

Lemma filter_flat_map {A B} (p : B -> bool) (f : A -> list B) l : List.filter p (flat_map f l) = flat_map (fun x => List.filter p (f x)) l.
Proof. induction l as [|x l IH]; cbn; [done|]. by rewrite List.filter_app, IH. Qed.

Lemma map_flat_map {A B C} (g : B -> C) (f : A -> list B) l : map g (flat_map f l) = flat_map (fun x => map g (f x)) l.
Proof. induction l as [|x l IH]; cbn; [done|]. by rewrite map_app, IH. Qed.

Section scan.
Context {H : Type} `{PciConfig H} (reg : Z -> Z -> Z -> Z -> Z).

(** [m] returns [v] and leaves the registers. *)
Definition gives {A} (m : M H A) (v : A) : Prop :=
  forall h, pci_register h = reg -> exists h', m h = Done (v, h') /\ pci_register h' = reg.

Lemma gives_ret {A} (v : A) : gives (mret v) v.
Proof. intros h Hh. by exists h. Qed.

Lemma gives_bind {A B} (m : M H A) (k : A -> M H B) v w : gives m v -> gives (k v) w -> gives (m ≫= k) w.
Proof. intros Hm Hk h Hh. destruct (Hm h Hh) as (h1 & E & E1). destruct (Hk h1 E1) as (h2 & E2 & E3). exists h2. run. by rewrite E. Qed.

Lemma gives_collect {A B} (f : A -> M H (list B)) (g : A -> list B) l :
  (forall x, x ∈ l -> gives (f x) (g x)) -> gives (collect f l) (flat_map g l).
Proof.
  induction l as [|x l IH]; intros Hf; cbn; [apply gives_ret|].
  eapply gives_bind; [apply Hf, list_elem_of_here|].
  eapply gives_bind; [apply IH; intros y Hy; apply Hf; by apply list_elem_of_further|]. apply gives_ret.
Qed.

Section place.
Context (bus slot function : Z) (Hb : 0 <= bus < 256) (Hs : 0 <= slot < 32) (Hf : 0 <= function < 8).

Lemma gives_read offset : 0 <= offset < 256 -> gives (Pci.read_config_u32 bus slot function offset) (reg bus slot function (Z.land offset 0xfc)).
Proof.
  intros Ho h <-. destruct (config_address_fields bus slot function offset Hb Hs Hf Ho) as (Ht & E1 & E2 & E3 & E4).
  destruct (pci_register_read h _ Ht) as (h' & E & Hh'). rewrite E1, E2, E3, E4 in E. by exists h'.
Qed.

Lemma gives_vendor : gives (Pci.read_vendor_id bus slot function) (reg bus slot function 0x00 mod 2 ^ 16).
Proof. eapply gives_bind; [apply gives_read; lia|]. apply gives_ret. Qed.

Lemma gives_header : gives (Pci.read_header_type bus slot function) (header reg bus slot function).
Proof. eapply gives_bind; [apply gives_read; lia|]. apply gives_ret. Qed.

Lemma gives_function :
  gives (Pci.scan_function bus slot function) (if answers reg bus slot function then [describe reg (bus, slot, function)] else []).
Proof.
  unfold Pci.scan_function, answers. eapply gives_bind; [apply gives_vendor|]. unfold Pci.INVALID_VENDOR_ID.
  destruct (reg bus slot function 0 mod 2 ^ 16 =? 65535); cbn [negb]; [apply gives_ret|].
  do 2 (eapply gives_bind; [apply gives_read; lia|]). eapply gives_bind; [apply gives_header|]. apply gives_ret.
Qed.
End place.

Lemma gives_slot bus slot : 0 <= bus < 256 -> 0 <= slot < 32 ->
  gives (Pci.scan_slot bus slot)
    (map (describe reg) (List.filter (present reg) (map (fun function => (bus, slot, function)) (upto 8)))).
Proof.
  intros Hb Hs. unfold Pci.scan_slot. eapply gives_bind; [apply gives_vendor; lia|].
  change (upto 8) with (0 :: map Z.of_nat (seq 1 7)). cbn [map List.filter]. unfold present at 1. cbn [Z.eqb orb].
  rewrite andb_true_r, andb_diag. unfold Pci.INVALID_VENDOR_ID.
  pose proof (gives_function bus slot 0 Hb Hs ltac:(lia)) as G0. unfold answers in G0 |- * at 1.
  destruct (reg bus slot 0 0 mod 2 ^ 16 =? 65535) eqn:E0; cbn [negb] in *.
  { rewrite filter_nothing; [apply gives_ret|]. intros x (f & <- & _)%in_map_iff. unfold present, answers. by rewrite E0. }
  eapply gives_bind; [exact G0|]. eapply gives_bind; [apply gives_header; lia|].
  assert (A0 : answers reg bus slot 0 = true) by (unfold answers; by rewrite E0).
  assert (Hr : forall f, In f (map Z.of_nat (seq 1 7)) -> 0 < f < 8).
  { intros f (i & Hi & Hin)%in_map_iff. apply in_seq in Hin. lia. }
  assert (Hp : forall f, In f (map Z.of_nat (seq 1 7)) -> present reg (bus, slot, f) = answers reg bus slot f && several reg bus slot).
  { intros f Hf. specialize (Hr f Hf). unfold present. rewrite A0. replace (f =? 0) with false by lia. done. }
  rewrite filter_map_swap, (List.filter_ext_in _ _ _ Hp).
  unfold several. destruct (Z.land (header reg bus slot 0) 128 =? 0); cbn [negb].
  { rewrite filter_nothing; [apply gives_ret|]. intros f _. apply andb_false_r. }
  eapply gives_bind.
  - apply (gives_collect _ (fun f => if answers reg bus slot f then [describe reg (bus, slot, f)] else [])).
    intros f Hf%list_elem_of_In%Hr. pose proof (gives_function bus slot f Hb Hs ltac:(lia)) as G.
    eapply gives_bind; [apply gives_vendor; lia|]. unfold answers in G |- * at 1.
    by destruct (reg bus slot f 0 mod 2 ^ 16 =? 65535); cbn [negb] in *; [apply gives_ret|].
  - match goal with |- gives (mret ?a) ?b => replace b with a; [apply gives_ret|] end.
    cbn [app map]. f_equal. generalize (map Z.of_nat (seq 1 7)). intros l. induction l as [|f l IH]; [done|].
    cbn [flat_map List.filter]. rewrite andb_true_r. destruct (answers reg bus slot f); cbn [app map]; by rewrite <- IH.
Qed.

Lemma gives_scan : gives Pci.scan_bus (attached reg).
Proof.
  unfold attached, places. rewrite filter_flat_map, map_flat_map. apply gives_collect. intros bus Hb%upto_range.
  rewrite filter_flat_map, map_flat_map. apply gives_collect. intros slot Hs%upto_range. apply gives_slot; lia.
Qed.
End scan.

(** The scan of the PCI bus is equivalent to the enumeration of what is
    attached to it: whatever the configuration registers hold, the registry
    ends with one record for each present function - function 0 of a slot whose
    vendor answers, and the others that answer when function 0 has the
    multi-function bit - in the order of bus, slot and function, each with the
    identifiers and the class its registers hold, and the driver is
    reported ready. *)
Theorem pci_scan_exact {H} `{PciConfig H} (h : H) (statuses : list (option DriverStatus)) :
  exists h',
    Pci.init statuses h =
      Done ((attached (pci_register h), report (str "pci") DriverReady (str "device registry available") statuses), h')
    /\ pci_register h' = pci_register h.
Proof.
  destruct (gives_scan (pci_register h) h eq_refl) as (h' & E & Hh'). exists h'. split; [|done].
  unfold Pci.init. run. by rewrite E.
Qed.

(** A bus with a two-function bridge in slot 1 and a network card in slot 3. *)
Definition demo_register (bus slot function register : Z) : Z :=
  if negb (bus =? 0) then 0xffffffff else
  if (slot =? 1) && (function <? 2) then
    (if register =? 0 then 0x70008086 else if register =? 8 then 0x06010000 else if register =? 0xc then 0x00800000 else 0)
  else if (slot =? 3) && (function =? 0) then
    (if register =? 0 then 0x100e8086 else if register =? 8 then 0x02000003 else 0)
  else 0xffffffff.

(** The state is the word last written to the address port. *)
#[local] Instance demo_ports : Ports32 Z :=
  {| in32 := fun port a => Done (if port =? Pci.CONFIG_DATA
                                 then demo_register (Z.land (Z.shiftr a 16) 0xff) (Z.land (Z.shiftr a 11) 0x1f) (Z.land (Z.shiftr a 8) 0x7) (Z.land a 0xfc)
                                 else 0xffffffff, a);
     out32 := fun port v a => Done (tt, if port =? Pci.CONFIG_ADDRESS then v else a) |}.

#[local] Instance demo_config : PciConfig Z.
Proof. refine {| pci_register := fun _ => demo_register |}. intros h a _. exists a. split; reflexivity. Defined.

Lemma flat_map_nothing {A B} (f : A -> list B) l : (forall x, In x l -> f x = []) -> flat_map f l = [].
Proof. induction l as [|x l IH]; intros Hf; cbn; [done|]. rewrite Hf by (by left). apply IH. intros y Hy. apply Hf. by right. Qed.

Lemma upto_S n : upto (S n) = 0 :: map Z.of_nat (seq 1 n).
Proof. reflexivity. Qed.

(** Only bus 0 answers. *)
Lemma attached_bus0 reg : (forall bus slot, 0 < bus -> answers reg bus slot 0 = false) ->
  attached reg = map (describe reg) (List.filter (present reg) (flat_map (fun slot => map (fun function => (0, slot, function)) (upto 8)) (upto 32))).
Proof.
  intros Hn. unfold attached, places. generalize (upto 8) (upto 32). intros fs ss.
  rewrite (upto_S 255). generalize 255%nat. intros n. cbn [flat_map]. rewrite List.filter_app, (filter_flat_map _ _ (map Z.of_nat (seq 1 n))).
  rewrite (flat_map_nothing _ (map Z.of_nat (seq 1 n))), app_nil_r; [done|].
  intros bus (i & <- & Hi%in_seq)%in_map_iff. apply filter_nothing. intros [[b s] f] Hin.
  apply in_flat_map in Hin as (slot & _ & (function & [= <- <- <-] & _)%in_map_iff).
  unfold present. by rewrite Hn by lia.
Qed.

Lemma demo_attached :
  attached (pci_register 0) =
    [mkPci 0 1 0 0x8086 0x7000 0x06 0x01 0x00 0x80; mkPci 0 1 1 0x8086 0x7000 0x06 0x01 0x00 0x80;
     mkPci 0 3 0 0x8086 0x100e 0x02 0x00 0x00 0x00].
Proof.
  rewrite attached_bus0; [vm_compute; reflexivity|]. intros bus slot Hb. unfold answers, pci_register, demo_config, demo_register.
  replace (bus =? 0) with false by lia. reflexivity.
Qed.

Lemma pci_scan_exact_witness :
  exists h',
    Pci.init [None; None] 0 =
      Done (([mkPci 0 1 0 0x8086 0x7000 0x06 0x01 0x00 0x80; mkPci 0 1 1 0x8086 0x7000 0x06 0x01 0x00 0x80;
              mkPci 0 3 0 0x8086 0x100e 0x02 0x00 0x00 0x00],
             [Some (mkStatus (str "pci") DriverReady (str "device registry available")); None]), h').
Proof.
  destruct (pci_scan_exact 0 [None; None]) as (h' & E & _). exists h'. rewrite E, demo_attached. reflexivity.
Defined.

(** ** USB descriptors *)

Section descriptors.
Import UsbDescriptor.
Implicit Types l : bytes.

(** [o] is not a panic. *)
Definition total {A} (o : outcome A) : Prop := exists v, o = Done v.

Lemma total_ret {A} (v : A) : total (mret v : outcome A).
Proof. by exists v. Qed.

Lemma total_bind {A B} (o : outcome A) (k : A -> outcome B) : total o -> (forall v, o = Done v -> total (k v)) -> total (o ≫= k).
Proof. intros (v & ->) Hk. apply Hk. reflexivity. Qed.

Lemma total_index l i : (i < length l)%nat -> total (index l i).
Proof. intros (v & Hv)%lookup_lt_is_Some. exists v. unfold index. by rewrite Hv. Qed.

Lemma total_u16 l i : (i + 1 < length l)%nat -> total (read_u16 l i).
Proof. intros Hi. unfold read_u16. apply total_bind; [apply total_index; lia|]. intros lo _. apply total_bind; [by apply total_index|]. intros; apply total_ret. Qed.

Lemma require_spec l n t : (2 <= n)%nat ->
  exists r, require_descriptor l n t = Done r /\ (r = Ok () -> (n <= length l)%nat).
Proof.
  intros Hn. unfold require_descriptor. destruct (bool_decide_reflect (length l < n)%nat) as [|Hl]; [by eexists|].
  destruct (total_index l 0) as (b0 & E0); [lia|]. destruct (total_index l 1) as (b1 & E1); [lia|].
  run. rewrite E0. cbn. destruct (_ || _); [by eexists|]. rewrite E1. cbn. destruct (negb _); eexists; split; [done|done|done|lia].
Qed.

(** The parsers read fields below the length they have required. *)
Ltac fields :=
  repeat (apply total_bind; [first [apply total_index | apply total_u16]; lia | intros ? _]); apply total_ret.

Ltac parses n :=
  match goal with |- total (require_descriptor ?l ?m ?t ≫= _) =>
    let E := fresh in let Hr := fresh in
    destruct (require_spec l m t) as (r & E & Hr); [lia|]; rewrite E; cbn [mbind outcome_bind];
    destruct r as [[]|]; [specialize (Hr eq_refl); fields | apply total_ret]
  end.

Lemma parse_device_total l : total (parse_device_descriptor l).
Proof. unfold parse_device_descriptor. parses 18. Qed.

Lemma parse_descriptor_total l : (2 <= length l)%nat -> total (parse_descriptor l).
Proof.
  intros Hl. unfold parse_descriptor. apply total_bind; [apply total_index; lia|]. intros t _.
  destruct (t =? 2); [unfold parse_configuration; parses 9|].
  destruct (t =? 4); [unfold parse_interface; parses 9|].
  destruct (t =? 5); [unfold parse_endpoint; parses 7|]. apply total_ret.
Qed.

Lemma fails e i : (i_offset i < length (i_bytes i))%nat ->
  exists item i', fail e i = Done (item, i') /\ i_bytes i' = i_bytes i /\ (i_offset i' <= length (i_bytes i))%nat /\
    (item = None \/ (i_offset i < i_offset i')%nat).
Proof. intros Hi. do 2 eexists. split; [reflexivity|]. cbn. auto. Qed.

(** Each step ends the walk or moves on. *)
Lemma next_spec i : (i_offset i <= length (i_bytes i))%nat ->
  exists item i', next i = Done (item, i') /\ i_bytes i' = i_bytes i /\ (i_offset i' <= length (i_bytes i))%nat /\
    (item = None \/ (i_offset i < i_offset i')%nat).
Proof.
  intros Hi. unfold next. run.
  destruct (bool_decide_reflect (i_offset i = length (i_bytes i))) as [|Hne]; [by eauto 10|].
  rewrite bool_decide_eq_false_2 by lia.
  destruct (bool_decide_reflect (length (i_bytes i) - i_offset i < 2)%nat) as [|H2]; [apply fails; lia|].
  destruct (total_index (i_bytes i) (i_offset i)) as (b & E); [lia|]. rewrite E. cbn.
  destruct (bool_decide_reflect (Z.to_nat b < 2)%nat) as [|Hb]; [apply fails; lia|].
  destruct (bool_decide_reflect (i_offset i + Z.to_nat b <= length (i_bytes i))%nat) as [He|]; cbn; [|apply fails; lia].
  rewrite slice_ok by lia. cbn. unfold modify. destruct (parse_descriptor_total (take (i_offset i + Z.to_nat b - i_offset i) (drop (i_offset i) (i_bytes i)))) as (r & Er).
  { rewrite length_take, length_drop. lia. }
  rewrite Er. cbn. do 2 eexists. split; [reflexivity|]. cbn. split_and!; [done|lia|right; lia].
Qed.
End descriptors.

(** The walk ends within the length of the bytes. *)
Lemma count_total fuel n m i :
  (UsbDescriptor.i_offset i <= length (UsbDescriptor.i_bytes i) < UsbDescriptor.i_offset i + fuel)%nat ->
  total (Usb.count_descriptors fuel n m i).
Proof.
  revert n m i. induction fuel as [|fuel IH]; intros n m i Hi; [lia|]. cbn [Usb.count_descriptors].
  destruct (next_spec i) as (item & i' & E & Eb & Hle & Hm); [lia|]. run. rewrite E. cbn.
  assert (Hk : is_Some item -> (UsbDescriptor.i_offset i' <= length (UsbDescriptor.i_bytes i') < UsbDescriptor.i_offset i' + fuel)%nat).
  { intros [x ->]. destruct Hm as [|]; [done|]. rewrite Eb. lia. }
  destruct item as [[[c|f|e|t l]|err]|]; first [by eexists | apply IH, Hk; by eexists].
Qed.

#[local] Opaque Usb.count_descriptors.

(** Registering a USB device from its descriptors is total: whatever bytes
    the device sent - lengths of zero, blocks cut short, blocks of the wrong
    type - every index stays inside the buffers, the walk over the
    configuration ends, a rejected set leaves the controller as it was,
    and an accepted one adds the one device returned. *)
Theorem usb_registration_total address device_bytes configuration_bytes (c : Usb.UhciController) :
  exists r c', Usb.register_descriptor_set address device_bytes configuration_bytes c = Done (r, c') /\
    c' = match r with Ok d => Usb.mkUhci (Usb.iobase c) (Usb.devices c ++ [d]) | Err _ => c end.
Proof.
  unfold Usb.register_descriptor_set. run. destruct (parse_device_total device_bytes) as (r & ->). cbn.
  destruct r as [d|e]; cbn; [|eauto].
  destruct (count_total (S (length configuration_bytes)) 0 0 (UsbDescriptor.new configuration_bytes)) as ([r i'] & ->); [cbn; lia|].
  cbn. destruct r as [v|e]; cbn; eauto.
Qed.
