(* ===== verification/Persist.v ===== *)
(** * The persistent file system (fs/persistent.rs)

    A volume of a block device: a header block, four blocks of directory
    entries (32 of 64 bytes), and two data blocks per entry.  Every operation
    reads the directory afresh and writes back single blocks, so the state is
    the disk and the flag [available].  The disk is any [BlockDevice]; [probe],
    an operation of the ATA driver only, is an argument. *)

From S2P Require Import Prelude Utf8 Paths Vfs RamFs Text Storage.

Module Persist.

Definition DISK_BLOCKS : Z := 2048.
Definition MAGIC : bytes := str "VANTFS01".
Definition VERSION : Z := 1.
Definition HEADER_BLOCK : Z := 0.
Definition DIRECTORY_START_BLOCK : Z := 1.
Definition DIRECTORY_BLOCKS : Z := 4.
Definition DATA_START_BLOCK : Z := DIRECTORY_START_BLOCK + DIRECTORY_BLOCKS.
Definition ENTRY_SIZE : nat := 64.
Definition MAX_FILES : nat := Z.to_nat DIRECTORY_BLOCKS * BLOCK_SIZE / ENTRY_SIZE.
Definition MAX_NAME_LEN : nat := 32.
Definition MAX_FILE_SIZE : nat := BLOCK_SIZE * 2.
Definition BLOCKS_PER_FILE : Z := 2.
(** [BLOCK_SIZE / ENTRY_SIZE] *)
Definition SLOTS_PER_BLOCK : nat := BLOCK_SIZE / ENTRY_SIZE.

Record DirectoryEntry := mkEntry {
  de_slot : nat;
  de_inode : Z;
  de_len : nat;
  de_parent : Z;
  de_file_type : FileType;
  de_name : bytes;
  de_name_len : nat;
}.

#[export] Instance eta_entry : Eta DirectoryEntry := fun r =>
  mkEntry (de_slot r) (de_inode r) (de_len r) (de_parent r) (de_file_type r) (de_name r) (de_name_len r).

(** ** Entries *)

Definition new_entry (slot : nat) (parent : Z) (name : bytes) (file_type : FileType) : outcome DirectoryEntry :=
  n ← copy_slice (replicate MAX_NAME_LEN 0) 0 (length name) name;
  mret (mkEntry slot (Z.of_nat slot + 2) 0 parent file_type n (length name)).

Definition entry_name (e : DirectoryEntry) : outcome bytes :=
  s ← slice (de_name e) 0 (de_name_len e); mret (from_utf8_or_empty s).

Definition entry_stat (e : DirectoryEntry) : BackendStat :=
  mkStat (de_file_type e) (de_len e) false (de_inode e).

Definition read_u32 (bs : bytes) (offset : nat) : outcome Z := s ← slice bs offset (offset + 4); mret (le_value s).
Definition read_u64 (bs : bytes) (offset : nat) : outcome Z := s ← slice bs offset (offset + 8); mret (le_value s).

(** The slot at [start] of a directory block: [None] if it is free. *)
Definition parse_entry (block : bytes) (slot start : nat) : outcome (result (option DirectoryEntry) FsError) :=
  used ← index block start;
  if used =? 0 then mret (Ok None) else
  name_len ← index block (start + 1);
  if (name_len =? 0) || (Z.of_nat MAX_NAME_LEN <? name_len) then mret (Err Corrupt) else
  src ← slice block (start + 24) (start + 24 + MAX_NAME_LEN);
  name ← copy_slice (replicate MAX_NAME_LEN 0) 0 MAX_NAME_LEN src;
  inode ← read_u64 block (start + 8);
  len ← read_u32 block (start + 16);
  parent ← read_u32 block (start + 20);
  file_type ← index block (start + 2);
  let entry := mkEntry slot inode (Z.to_nat len) (if parent =? 0 then 1 else parent) in
  mret (if (file_type =? 0) || (file_type =? 1) then Ok (Some (entry File name (Z.to_nat name_len)))
        else if file_type =? 2 then Ok (Some (entry Directory name (Z.to_nat name_len)))
        else Err Corrupt).

(** [for local in 0..BLOCK_SIZE / ENTRY_SIZE] *)
Fixpoint read_slots (block : bytes) (first : nat) (locals : list nat) (entries : list (option DirectoryEntry)) :
    outcome (result (list (option DirectoryEntry)) FsError) :=
  match locals with
  | [] => mret (Ok entries)
  | local :: locals =>
    let slot := (first + local)%nat in
    let! entry := parse_entry block slot (local * ENTRY_SIZE) in
    match entry with
    | None => read_slots block first locals entries
    | Some e => entries ← index_set entries slot (Some e); read_slots block first locals entries
    end
  end.

(** [split_parent_name] *)
Definition split_parent_name (path : bytes) : outcome (result (bytes * bytes) FsError) :=
  if negb (is_some (strip_prefix path [SLASH])) || bytes_eqb path [SLASH] then mret (Err InvalidPath) else
  let? split := ok_or (rfind SLASH path) InvalidPath in
  parent ← (if (split =? 0)%nat then mret [SLASH] else slice path 0 split);
  name ← slice path (split + 1) (length path);
  if bytes_eqb name [] then mret (Err InvalidPath)
  else if (MAX_NAME_LEN <? length name)%nat then mret (Err NameTooLong)
  else mret (Ok (parent, name)).

(** [entries.iter().flatten()] *)
Definition flatten (entries : list (option DirectoryEntry)) : list DirectoryEntry := omap id entries.

Definition child (entries : list (option DirectoryEntry)) (parent : Z) (name : bytes) : outcome (option DirectoryEntry) :=
  findM (fun e => if de_parent e =? parent then s ← entry_name e; mret (bytes_eqb s name) else mret false) (flatten entries).

Fixpoint resolve_components (entries : list (option DirectoryEntry)) (parent : Z) (cs : list bytes) : outcome (option Z) :=
  match cs with
  | [] => mret (Some parent)
  | c :: cs =>
    if bytes_eqb c [] then mret None else
    o ← child entries parent c;
    match o with
    | None => mret None
    | Some e => resolve_components entries (de_inode e) cs
    end
  end.

Definition resolve_path (entries : list (option DirectoryEntry)) (path : bytes) : outcome (option Z) :=
  if bytes_eqb path [SLASH] then mret (Some 1) else
  match strip_prefix path [SLASH] with
  | None => mret None
  | Some relative => resolve_components entries 1 (split_on SLASH relative)
  end.

Definition find_inode (entries : list (option DirectoryEntry)) (inode : Z) : option DirectoryEntry :=
  List.find (fun e => de_inode e =? inode) (flatten entries).

(** The walk to the root does not end on a cyclic volume: [None] says that
    the [fuel] was used up. *)
Fixpoint is_descendant_fuel (fuel : nat) (entries : list (option DirectoryEntry)) (candidate ancestor : Z) : option bool :=
  match fuel with
  | O => None
  | S fuel =>
    if candidate =? 1 then Some false
    else if candidate =? ancestor then Some true
    else match find_inode entries candidate with
         | None => Some false
         | Some e => is_descendant_fuel fuel entries (de_parent e) ancestor
         end
  end.

Definition is_descendant (entries : list (option DirectoryEntry)) (candidate ancestor : Z) : option bool :=
  is_descendant_fuel (S (length entries)) entries candidate ancestor.

(** [parent != 1 && find(parent).is_none_or(not a directory)] *)
Definition not_a_directory (entries : list (option DirectoryEntry)) (inode : Z) : bool :=
  negb (inode =? 1)
  && match find_inode entries inode with
     | None => true
     | Some e => negb (FileType_eqb (de_file_type e) Directory)
     end.

Definition data_block (slot file_block : nat) : Z :=
  DATA_START_BLOCK + Z.of_nat slot * BLOCKS_PER_FILE + Z.of_nat file_block.

(** ** The disk *)

Section disk.
Context {D : Type} `{BlockDevice D} (probe : M D (result () Block.BlockError)).

(** [disk.read_block(..).map_err(|_| FsError::Io)] *)
Definition read_io (block : Z) : M D (result bytes FsError) :=
  r ← read_block block; mret (map_err (fun _ => Io) r).
Definition write_io (block : Z) (data : bytes) : M D (result () FsError) :=
  r ← write_block block data; mret (map_err (fun _ => Io) r).

(** [for index in 0..DIRECTORY_BLOCKS] *)
Fixpoint clear_directory (indexes : list Z) : M D (result () FsError) :=
  match indexes with
  | [] => mret (Ok ())
  | i :: indexes =>
    try _ := write_io (DIRECTORY_START_BLOCK + i) (replicate BLOCK_SIZE 0) in
    clear_directory indexes
  end.

Definition format_volume : M D (result () FsError) :=
  block ← lift (copy_slice (replicate BLOCK_SIZE 0) 0 (length MAGIC) MAGIC);
  block ← lift (copy_slice block 8 12 (le_bytes 4 VERSION));
  block ← lift (copy_slice block 12 16 (le_bytes 4 (Z.of_nat MAX_FILES)));
  try _ := write_io HEADER_BLOCK block in
  clear_directory [0; 1; 2; 3].

Fixpoint read_directory (indexes : list nat) (entries : list (option DirectoryEntry)) :
    M D (result (list (option DirectoryEntry)) FsError) :=
  match indexes with
  | [] => mret (Ok entries)
  | i :: indexes =>
    try block := read_io (DIRECTORY_START_BLOCK + Z.of_nat i) in
    try entries := lift (read_slots block (i * SLOTS_PER_BLOCK) (seq 0 SLOTS_PER_BLOCK) entries) in
    read_directory indexes entries
  end.

Definition read_entries : M D (result (list (option DirectoryEntry)) FsError) :=
  read_directory (seq 0 (Z.to_nat DIRECTORY_BLOCKS)) (replicate MAX_FILES None).

(** The bytes of a directory block with the entry stored at [start]. *)
Definition encode_entry (block : bytes) (start : nat) (e : DirectoryEntry) : outcome bytes :=
  block ← copy_slice block start (start + ENTRY_SIZE) (replicate ENTRY_SIZE 0);
  block ← index_set block start 1;
  block ← index_set block (start + 1) (Z.of_nat (de_name_len e) mod 256);
  block ← index_set block (start + 2) (match de_file_type e with File => 1 | Directory => 2 end);
  block ← copy_slice block (start + 8) (start + 16) (le_bytes 8 (de_inode e));
  block ← copy_slice block (start + 16) (start + 20) (le_bytes 4 (Z.of_nat (de_len e)));
  block ← copy_slice block (start + 20) (start + 24) (le_bytes 4 (de_parent e));
  copy_slice block (start + 24) (start + 24 + MAX_NAME_LEN) (de_name e).

Definition write_entry (e : DirectoryEntry) : M D (result () FsError) :=
  let block_index := Z.of_nat (de_slot e / SLOTS_PER_BLOCK) in
  let local := (de_slot e mod SLOTS_PER_BLOCK)%nat in
  try block := read_io (DIRECTORY_START_BLOCK + block_index) in
  block ← lift (encode_entry block (local * ENTRY_SIZE) e);
  write_io (DIRECTORY_START_BLOCK + block_index) block.

Definition write_empty_entry (slot : nat) : M D (result () FsError) :=
  let block_index := Z.of_nat (slot / SLOTS_PER_BLOCK) in
  let local := (slot mod SLOTS_PER_BLOCK)%nat in
  try block := read_io (DIRECTORY_START_BLOCK + block_index) in
  let start := (local * ENTRY_SIZE)%nat in
  block ← lift (copy_slice block start (start + ENTRY_SIZE) (replicate ENTRY_SIZE 0));
  write_io (DIRECTORY_START_BLOCK + block_index) block.

(** The loop of [transfer_data] with the reads of [read_data].  A round copies
    at least a byte, so [fuel] for one round per byte is enough. *)
Fixpoint read_loop (fuel slot offset copied : nat) (out : bytes) : M D (result () FsError * bytes) :=
  if (length out <=? copied)%nat then mret (Ok (), out) else
  match fuel with
  | O => panic
  | S fuel =>
    let absolute := (offset + copied)%nat in
    let file_block := (absolute / BLOCK_SIZE)%nat in
    let within := (absolute mod BLOCK_SIZE)%nat in
    let count := Nat.min (BLOCK_SIZE - within) (length out - copied) in
    r ← read_io (data_block slot file_block);
    match r with
    | Err e => mret (Err e, out)
    | Ok block =>
      src ← lift (slice block within (within + count));
      out ← lift (copy_slice out copied (copied + count) src);
      read_loop fuel slot offset (copied + count) out
    end
  end.

Definition read_data (slot offset : nat) (out : bytes) : M D (result () FsError * bytes) :=
  read_loop (length out) slot offset 0 out.

Fixpoint write_loop (fuel slot offset copied : nat) (source : bytes) : M D (result () FsError) :=
  if (length source <=? copied)%nat then mret (Ok ()) else
  match fuel with
  | O => panic
  | S fuel =>
    let absolute := (offset + copied)%nat in
    let file_block := (absolute / BLOCK_SIZE)%nat in
    let within := (absolute mod BLOCK_SIZE)%nat in
    let count := Nat.min (BLOCK_SIZE - within) (length source - copied) in
    let block_index := data_block slot file_block in
    try block := read_io block_index in
    src ← lift (slice source copied (copied + count));
    block ← lift (copy_slice block within (within + count) src);
    try _ := write_io block_index block in
    write_loop fuel slot offset (copied + count) source
  end.

Definition write_data (slot offset : nat) (source : bytes) : M D (result () FsError) :=
  write_loop (length source) slot offset 0 source.

(** [for file_block in 0..BLOCKS_PER_FILE] *)
Fixpoint clear_blocks (slot : nat) (file_blocks : list nat) : M D (result () FsError) :=
  match file_blocks with
  | [] => mret (Ok ())
  | b :: file_blocks =>
    try _ := write_io (data_block slot b) (replicate BLOCK_SIZE 0) in
    clear_blocks slot file_blocks
  end.

Definition clear_data (slot : nat) : M D (result () FsError) := clear_blocks slot (seq 0 (Z.to_nat BLOCKS_PER_FILE)).

(** ** The file system *)

Record PersistentFilesystem := mkFs { pf_available : bool; pf_disk : D }.
#[local] Instance eta_fs : Eta PersistentFilesystem := fun r => mkFs (pf_available r) (pf_disk r).

Definition with_disk {A} (m : M D A) : M PersistentFilesystem A := fun s =>
  match m (pf_disk s) with Done (a, d) => Done (a, mkFs (pf_available s) d) | Panic => Panic end.

Definition ensure_available : M PersistentFilesystem (result () FsError) :=
  s ← get; mret (if pf_available s then Ok () else Err Unavailable).

Definition initialize_disk : M D (result bool FsError) :=
  r ← probe;
  match r with
  | Err _ => mret (Err Unavailable)
  | Ok _ =>
    try header := read_io HEADER_BLOCK in
    magic ← lift (slice header 0 (length MAGIC));
    if bytes_eqb magic MAGIC then
      version ← lift (read_u32 header 8);
      if negb (version =? VERSION) then mret (Err Corrupt) else mret (Ok false)
    else
      try _ := format_volume in
      mret (Ok true)
  end.

(** [init]: the state and the detail reported for the driver. *)
Definition init : M PersistentFilesystem (DriverState * bytes) :=
  r ← with_disk initialize_disk;
  match r with
  | Ok formatted =>
    modify (fun s => mkFs true (pf_disk s));;
    mret (DriverReady, if (formatted : bool) then str "formatted new VANTFS01 volume" else str "mounted existing VANTFS01 volume")
  | Err _ =>
    modify (fun s => mkFs false (pf_disk s));;
    mret (Missing, str "dedicated IDE persistence disk unavailable")
  end.

(** The lines of a directory listing. *)
Fixpoint append_entries (out : bytes) (written : nat) (es : list DirectoryEntry) : outcome (result nat FsError * bytes) :=
  match es with
  | [] => mret (Ok written, out)
  | e :: es =>
    name ← entry_name e;
    '(r, out) ← append_line out written name;
    match r with
    | Ok written => append_entries out written es
    | Err e => mret (Err e, out)
    end
  end.

Definition children (entries : list (option DirectoryEntry)) (parent : Z) : list DirectoryEntry :=
  List.filter (fun e => de_parent e =? parent) (flatten entries).

Definition list (path out : bytes) : M PersistentFilesystem (result nat FsError * bytes) :=
  a ← ensure_available;
  match a with
  | Err e => mret (Err e, out)
  | Ok _ =>
    r ← with_disk read_entries;
    match r with
    | Err e => mret (Err e, out)
    | Ok entries =>
      o ← lift (resolve_path entries path);
      match o with
      | None => mret (Err NotFound, out)
      | Some parent =>
        if not_a_directory entries parent then mret (Err NotDirectory, out)
        else lift (append_entries out 0 (children entries parent))
      end
    end
  end.

Definition stat (path : bytes) : M PersistentFilesystem (result BackendStat FsError) :=
  try _ := ensure_available in
  try entries := with_disk read_entries in
  if bytes_eqb path [SLASH] then mret (Ok (mkStat Directory (length (children entries 1)) false 1)) else
  o ← lift (resolve_path entries path);
  match o with
  | None => mret (Err NotFound)
  | Some inode =>
    match find_inode entries inode with
    | None => mret (Err NotFound)
    | Some e =>
      let st := entry_stat e in
      mret (Ok (if FileType_eqb (de_file_type e) Directory
                then mkStat (bs_file_type st) (length (children entries (de_inode e))) (bs_readonly st) (bs_inode st) else st))
    end
  end.

Definition read (inode : Z) (offset : nat) (out : bytes) : M PersistentFilesystem (result nat FsError * bytes) :=
  a ← ensure_available;
  match a with
  | Err e => mret (Err e, out)
  | Ok _ =>
    r ← with_disk read_entries;
    match r with
    | Err e => mret (Err e, out)
    | Ok entries =>
      match find_inode entries inode with
      | None => mret (Err NotFound, out)
      | Some e =>
        if negb (FileType_eqb (de_file_type e) File) then mret (Err IsDirectory, out) else
        let count := Nat.min (de_len e - offset) (length out) in
        part ← lift (slice out 0 count);
        '(r, part) ← with_disk (read_data (de_slot e) offset part);
        out ← lift (copy_slice out 0 count part);
        match r with
        | Err e => mret (Err e, out)
        | Ok _ => mret (Ok count, out)
        end
      end
    end
  end.

Definition write (inode : Z) (offset : nat) (source : bytes) : M PersistentFilesystem (result nat FsError) :=
  try _ := ensure_available in
  match usize_checked_add offset (length source) with
  | None => mret (Err FileTooLarge)
  | Some end_ =>
    if (MAX_FILE_SIZE <? end_)%nat then mret (Err FileTooLarge) else
    try entries := with_disk read_entries in
    match find_inode entries inode with
    | None => mret (Err NotFound)
    | Some e =>
      if negb (FileType_eqb (de_file_type e) File) then mret (Err IsDirectory) else
      try _ := with_disk (write_data (de_slot e) offset source) in
      try _ := with_disk (write_entry (e <| de_len ::= (fun len => Nat.max len end_) |>)) in
      mret (Ok (length source))
    end
  end.

Definition create_node (path : bytes) (file_type : FileType) : M PersistentFilesystem (result BackendStat FsError) :=
  try _ := ensure_available in
  try '(parent_path, name) := lift (split_parent_name path) in
  try entries := with_disk read_entries in
  o ← lift (resolve_path entries parent_path);
  match o with
  | None => mret (Err NotFound)
  | Some parent =>
    if not_a_directory entries parent then mret (Err NotDirectory) else
    c ← lift (child entries parent name);
    if is_some c then mret (Err AlreadyExists) else
    match position (fun e => negb (is_some e)) entries with
    | None => mret (Err NoSpace)
    | Some slot =>
      try _ := (if FileType_eqb file_type File then with_disk (clear_data slot) else mret (Ok ())) in
      e ← lift (new_entry slot parent name file_type);
      try _ := with_disk (write_entry e) in
      mret (Ok (entry_stat e))
    end
  end.

Definition remove_node (path : bytes) (expected : FileType) : M PersistentFilesystem (result Z FsError) :=
  try _ := ensure_available in
  try entries := with_disk read_entries in
  o ← lift (resolve_path entries path);
  match o with
  | None => mret (Err NotFound)
  | Some inode =>
    if inode =? 1 then mret (Err ReadOnly) else
    match find_inode entries inode with
    | None => mret (Err NotFound)
    | Some e =>
      if negb (FileType_eqb (de_file_type e) expected)
      then mret (Err (if FileType_eqb expected File then IsDirectory else NotDirectory)) else
      if FileType_eqb expected Directory && existsb (fun c => de_parent c =? inode) (flatten entries)
      then mret (Err DirectoryNotEmpty) else
      try _ := with_disk (write_empty_entry (de_slot e)) in
      try _ := (if FileType_eqb expected File then with_disk (clear_data (de_slot e)) else mret (Ok ())) in
      mret (Ok (de_inode e))
    end
  end.

Definition rename (old_path new_path : bytes) : M PersistentFilesystem (result Z FsError) :=
  try _ := ensure_available in
  try entries := with_disk read_entries in
  o ← lift (resolve_path entries old_path);
  match o with
  | None => mret (Err NotFound)
  | Some inode =>
    if inode =? 1 then mret (Err ReadOnly) else
    try '(parent_path, new_name) := lift (split_parent_name new_path) in
    o ← lift (resolve_path entries parent_path);
    match o with
    | None => mret (Err NotFound)
    | Some new_parent =>
      if not_a_directory entries new_parent then mret (Err NotDirectory) else
      c ← lift (child entries new_parent new_name);
      if is_some c then mret (Err AlreadyExists) else
      d ← expect (is_descendant entries new_parent inode);
      if (d : bool) then mret (Err InvalidPath) else
      match find_inode entries inode with
      | None => mret (Err NotFound)
      | Some e =>
        name ← lift (copy_slice (replicate (length (de_name e)) 0) 0 (length new_name) new_name);
        let e := e <| de_parent := new_parent |> <| de_name := name |> <| de_name_len := length new_name |> in
        try _ := with_disk (write_entry e) in
        mret (Ok (de_inode e))
      end
    end
  end.

Definition backend : Backend PersistentFilesystem :=
  mkBackend PersistentFilesystem (str "vantfs") pf_available list stat read write
    (fun path => create_node path File) (fun path => create_node path Directory)
    (fun path => remove_node path File) (fun path => remove_node path Directory) rename.
End disk.
Arguments PersistentFilesystem : clear implicits.
Arguments mkFs {D}.
Arguments pf_available {D}.
Arguments pf_disk {D}.

End Persist.
