(* ===== verification/PersistCodec.v ===== *)
(** * The persistent file system: the format of the directory

    A directory block is eight chunks of 64 bytes.  [decode] reads a chunk as
    the code does; [encode] is what the code stores; reading back what was
    stored gives the entry, and storing one entry leaves the others alone. *)

From S2P Require Import Prelude Utf8 Paths Vfs RamFs Text Storage Persist.
Import Persist.

(** Arithmetic on the sizes of the format. *)
Ltac sizes := unfold MAX_FILE_SIZE, SLOTS_PER_BLOCK, ENTRY_SIZE, MAX_NAME_LEN, BLOCK_SIZE in *; lia.

(** ** Chunks of a block *)

Definition chunk (block : bytes) (start : nat) : bytes := take ENTRY_SIZE (drop start block).

(** The block with the chunk at [start] replaced. *)
Definition put_chunk (block : bytes) (start : nat) (x : bytes) : bytes :=
  take start block ++ x ++ drop (start + ENTRY_SIZE) block.

Section chunks.
Context (block : bytes) (start : nat).
Hypothesis Hfit : (start + ENTRY_SIZE <= length block)%nat.

Lemma length_chunk : length (chunk block start) = ENTRY_SIZE.
Proof. unfold chunk. rewrite length_take, length_drop. lia. Qed.

Lemma length_put_chunk x : length x = ENTRY_SIZE -> length (put_chunk block start x) = length block.
Proof. intros Hx. unfold put_chunk. rewrite !length_app, length_take, length_drop. lia. Qed.

Lemma index_chunk k : (k < ENTRY_SIZE)%nat -> index block (start + k) = Done (nth k (chunk block start) 0).
Proof.
  intros Hk. apply index_Done. destruct (lookup_lt_is_Some_2 block (start + k)) as [b Hb]; [lia|]. rewrite Hb. f_equal.
  unfold chunk. symmetry. apply nth_lookup_Some. by rewrite lookup_take_lt, lookup_drop by done.
Qed.

Lemma slice_chunk a b : (a <= b <= ENTRY_SIZE)%nat -> slice block (start + a) (start + b) = Done (take (b - a) (drop a (chunk block start))).
Proof.
  intros Hab. rewrite slice_ok by lia. f_equal. unfold chunk. replace (start + b - (start + a))%nat with (b - a)%nat by lia.
  rewrite skipn_firstn_comm, firstn_firstn, drop_drop. f_equal. lia.
Qed.

Lemma put_chunk_chunk x : length x = ENTRY_SIZE -> chunk (put_chunk block start x) start = x.
Proof.
  intros Hx. unfold chunk, put_chunk. rewrite drop_app_length' by (rewrite length_take; lia). by apply take_app_length'.
Qed.

Lemma put_chunk_other x other : length x = ENTRY_SIZE -> (other + ENTRY_SIZE <= start \/ start + ENTRY_SIZE <= other)%nat ->
  chunk (put_chunk block start x) other = chunk block other.
Proof.
  intros Hx Ho. unfold chunk, put_chunk. destruct Ho as [Ho|Ho].
  - rewrite drop_app_le by (rewrite length_take; lia). rewrite take_app_le by (rewrite length_drop, length_take; lia).
    rewrite skipn_firstn_comm, firstn_firstn. f_equal. lia.
  - rewrite app_assoc, drop_app_ge by (rewrite length_app, length_take; lia). rewrite drop_drop. do 2 f_equal. rewrite length_app, length_take. lia.
Qed.

Lemma put_chunk_twice x y : length x = ENTRY_SIZE -> put_chunk (put_chunk block start x) start y = put_chunk block start y.
Proof.
  intros Hx. unfold put_chunk. rewrite take_app_length' by (rewrite length_take; lia). do 2 f_equal.
  rewrite app_assoc, drop_app_length'; [done|]. rewrite length_app, length_take. lia.
Qed.

(** Stores inside the chunk. *)
Lemma index_set_chunk x k b : length x = ENTRY_SIZE -> (k < ENTRY_SIZE)%nat ->
  index_set (put_chunk block start x) (start + k) b = Done (put_chunk block start (<[k := b]> x)).
Proof.
  intros Hx Hk. rewrite index_set_ok by (rewrite length_put_chunk by done; lia). f_equal. unfold put_chunk.
  assert (start = length (take start block)) as E by (rewrite length_take; lia).
  rewrite E at 1. rewrite insert_app_r. f_equal. apply insert_app_l. lia.
Qed.

Lemma copy_slice_chunk x a b src : length x = ENTRY_SIZE -> (a <= b <= ENTRY_SIZE)%nat -> length src = (b - a)%nat ->
  copy_slice (put_chunk block start x) (start + a) (start + b) src = Done (put_chunk block start (take a x ++ src ++ drop b x)).
Proof.
  intros Hx Hab Hs. rewrite copy_slice_ok by (rewrite ?length_put_chunk by done; lia). f_equal. unfold put_chunk.
  assert (length (take start block) = start) as E by (rewrite length_take; lia).
  rewrite take_app_ge, drop_app_ge by lia. rewrite E, <-app_assoc. replace (start + a - start)%nat with a by lia. replace (start + b - start)%nat with b by lia.
  rewrite take_app_le, drop_app_le by lia. by rewrite <-!app_assoc.
Qed.
End chunks.

(** ** Decoding *)

Definition decode (slot : nat) (x : bytes) : result (option DirectoryEntry) FsError :=
  if nth 0 x 0 =? 0 then Ok None else
  if (nth 1 x 0 =? 0) || (Z.of_nat MAX_NAME_LEN <? nth 1 x 0) then Err Corrupt else
  let parent := le_value (take 4 (drop 20 x)) in
  let entry := mkEntry slot (le_value (take 8 (drop 8 x))) (Z.to_nat (le_value (take 4 (drop 16 x)))) (if parent =? 0 then 1 else parent) in
  if (nth 2 x 0 =? 0) || (nth 2 x 0 =? 1) then Ok (Some (entry File (take 32 (drop 24 x)) (Z.to_nat (nth 1 x 0))))
  else if nth 2 x 0 =? 2 then Ok (Some (entry Directory (take 32 (drop 24 x)) (Z.to_nat (nth 1 x 0))))
  else Err Corrupt.

Lemma parse_entry_spec block slot start : (start + ENTRY_SIZE <= length block)%nat ->
  parse_entry block slot start = Done (decode slot (chunk block start)).
Proof.
  intros Hfit. unfold parse_entry, decode, read_u32, read_u64. pose proof (length_chunk block start Hfit) as Hl.
  pose proof (index_chunk block start Hfit 0 ltac:(sizes)) as H0. rewrite Nat.add_0_r in H0. rewrite H0. run. destruct (nth 0 _ 0 =? 0); [done|].
  rewrite (index_chunk block start Hfit 1) by sizes. destruct (_ || _); [done|].
  replace (start + 24 + MAX_NAME_LEN)%nat with (start + 56)%nat by (unfold MAX_NAME_LEN; lia).
  rewrite !(slice_chunk block start Hfit 24 56) by sizes.
  rewrite copy_slice_ok by (rewrite ?length_replicate, ?length_take, ?length_drop, ?Hl; sizes).
  replace (start + 8 + 8)%nat with (start + 16)%nat by lia. replace (start + 16 + 4)%nat with (start + 20)%nat by lia.
  replace (start + 20 + 4)%nat with (start + 24)%nat by lia.
  rewrite (slice_chunk block start Hfit 8 16), (slice_chunk block start Hfit 16 20), (slice_chunk block start Hfit 20 24) by sizes.
  rewrite (index_chunk block start Hfit 2) by sizes. rewrite take_0, app_nil_l. rewrite (drop_ge (replicate MAX_NAME_LEN 0)) by (by rewrite length_replicate).
  rewrite app_nil_r. repeat (case_match; try done).
Qed.

(** ** Encoding *)

Definition encode (e : DirectoryEntry) : bytes :=
  [1; Z.of_nat (de_name_len e) mod 256; match de_file_type e with File => 1 | Directory => 2 end; 0; 0; 0; 0; 0]
  ++ le_bytes 8 (de_inode e) ++ le_bytes 4 (Z.of_nat (de_len e)) ++ le_bytes 4 (de_parent e) ++ de_name e ++ replicate 8 0.

Lemma length_encode e : length (de_name e) = MAX_NAME_LEN -> length (encode e) = ENTRY_SIZE.
Proof. intros Hn. unfold encode. rewrite !length_app, !length_le_bytes, Hn, length_replicate. done. Qed.

Lemma encode_entry_spec block start e : (start + ENTRY_SIZE <= length block)%nat -> length (de_name e) = MAX_NAME_LEN ->
  encode_entry block start e = Done (put_chunk block start (encode e)).
Proof.
  intros Hfit Hn. unfold encode_entry. run. rewrite copy_slice_ok by (rewrite ?length_replicate; lia).
  change (take start block ++ _ ++ _) with (put_chunk block start (replicate ENTRY_SIZE 0)).
  pose proof (index_set_chunk block start Hfit (replicate ENTRY_SIZE 0) 0 1 eq_refl ltac:(sizes)) as H0. rewrite Nat.add_0_r in H0. rewrite H0.
  rewrite (index_set_chunk block start Hfit _ 1) by (done || sizes). rewrite (index_set_chunk block start Hfit _ 2) by (done || sizes).
  set (x3 := <[2%nat := _]> _). assert (length x3 = ENTRY_SIZE) as H3 by done.
  rewrite copy_slice_chunk by (rewrite ?length_le_bytes; done || sizes). set (x4 := take 8 x3 ++ _).
  assert (length x4 = ENTRY_SIZE) as H4 by (unfold x4; rewrite !length_app, length_take, length_drop, length_le_bytes, H3; done).
  rewrite copy_slice_chunk by (rewrite ?length_le_bytes; done || sizes). set (x5 := take 16 x4 ++ _).
  assert (length x5 = ENTRY_SIZE) as H5 by (unfold x5; rewrite !length_app, length_take, length_drop, length_le_bytes, H4; done).
  rewrite copy_slice_chunk by (rewrite ?length_le_bytes; done || sizes). set (x6 := take 20 x5 ++ _).
  assert (length x6 = ENTRY_SIZE) as H6 by (unfold x6; rewrite !length_app, length_take, length_drop, length_le_bytes, H5; done).
  replace (start + 24 + MAX_NAME_LEN)%nat with (start + 56)%nat by (unfold MAX_NAME_LEN; lia).
  rewrite copy_slice_chunk by (rewrite ?Hn; done || sizes). reflexivity.
Qed.

Definition nm (e : DirectoryEntry) : bytes := take (de_name_len e) (de_name e).

(** The fields fit the format. *)
Record fits (e : DirectoryEntry) : Prop := {
  fi_name : length (de_name e) = MAX_NAME_LEN;
  fi_bytes : Forall is_byte (de_name e);
  fi_name_len : (1 <= de_name_len e <= MAX_NAME_LEN)%nat;
  fi_inode : 0 <= de_inode e <= u64_max;
  fi_len : Z.of_nat (de_len e) <= u32_max;
  fi_parent : 1 <= de_parent e <= u32_max;
}.

Lemma decode_encode e : fits e -> decode (de_slot e) (encode e) = Ok (Some e).
Proof.
  intros [H1 _ [H2 H2'] H3 H4 H5]. unfold decode, encode. cbn [app nth]. change (1 =? 0) with false. cbv iota.
  unfold MAX_NAME_LEN in *. rewrite Z.mod_small by lia.
  replace (Z.of_nat (de_name_len e) =? 0) with false by (symmetry; apply Z.eqb_neq; lia).
  replace (Z.of_nat 32 <? Z.of_nat (de_name_len e)) with false by (symmetry; apply Z.ltb_ge; lia). cbn [orb].
  rewrite Nat2Z.id. cbn [drop]. set (x := le_bytes 8 _ ++ _).
  change (take 8 (drop 0 x)) with (le_bytes 8 (de_inode e)). change (take 4 (drop 8 x)) with (le_bytes 4 (Z.of_nat (de_len e))).
  change (take 4 (drop 12 x)) with (le_bytes 4 (de_parent e)). change (drop 16 x) with (de_name e ++ replicate 8 0).
  rewrite take_app_length' by done. rewrite (le_value_bytes 8), !(le_value_bytes 4) by (unfold u64_max, u32_max in *; lia).
  replace (de_parent e =? 0) with false by (symmetry; apply Z.eqb_neq; lia). rewrite Nat2Z.id.
  by destruct e as [slot inode len parent [] name name_len].
Qed.

(** A chunk that decodes is that of a fitting entry. *)
Lemma decode_fits slot x e : length x = ENTRY_SIZE -> Forall is_byte x -> decode slot x = Ok (Some e) -> de_slot e = slot /\ fits e.
Proof.
  intros Hl Hb. unfold decode. destruct (nth 0 x 0 =? 0); [done|]. destruct (_ || _) eqn:En; [done|].
  apply orb_false_iff in En as [E1%Z.eqb_neq E2%Z.ltb_ge].
  assert (forall a b, (a + b <= 64)%nat -> length (take b (drop a x)) = b /\ Forall is_byte (take b (drop a x))) as Hpart.
  { intros a b Hab. rewrite length_take, length_drop, Hl. unfold ENTRY_SIZE. split; [lia|]. by apply Forall_take, Forall_drop. }
  assert (is_byte (nth 1 x 0)) as Hn.
  { destruct (lookup_lt_is_Some_2 x 1) as [b Eb]; [rewrite Hl; sizes|]. rewrite (nth_lookup_Some _ _ _ _ Eb). by apply (Forall_lookup_1 _ _ _ _ Hb Eb). }
  destruct (Hpart 8%nat 8%nat ltac:(lia)) as [L1 B1]. destruct (Hpart 16%nat 4%nat ltac:(lia)) as [L2 B2].
  destruct (Hpart 20%nat 4%nat ltac:(lia)) as [L3 B3]. destruct (Hpart 24%nat 32%nat ltac:(lia)) as [L4 B4].
  pose proof (le_value_range _ B1) as R1. pose proof (le_value_range _ B2) as R2. pose proof (le_value_range _ B3) as R3.
  rewrite L1 in R1. rewrite L2 in R2. rewrite L3 in R3. unfold is_byte in Hn.
  change (256 ^ Z.of_nat 8) with 0x10000000000000000 in R1. change (256 ^ Z.of_nat 4) with 0x100000000 in R2, R3.
  intros He. assert (exists ft, e = mkEntry slot (le_value (take 8 (drop 8 x))) (Z.to_nat (le_value (take 4 (drop 16 x))))
    (if le_value (take 4 (drop 20 x)) =? 0 then 1 else le_value (take 4 (drop 20 x))) ft (take 32 (drop 24 x)) (Z.to_nat (nth 1 x 0))) as [ft ->].
  { destruct (_ || _); [injection He as <-; by eexists|]. destruct (_ =? 2); [|done]. injection He as <-. by eexists. }
  split; [done|]. unfold MAX_NAME_LEN in *. split; cbn [de_name de_name_len de_inode de_len de_parent]; unfold u64_max, u32_max; [done|done|sizes|lia|lia|].
  destruct (Z.eqb_spec (le_value (take 4 (drop 20 x))) 0); lia.
Qed.

Lemma decode_zero slot x : nth 0 x 0 = 0 -> decode slot x = Ok None.
Proof. intros E. unfold decode. by rewrite E. Qed.

Lemma encode_bytes e : Forall is_byte (de_name e) -> Forall is_byte (encode e).
Proof.
  intros Hn. unfold encode. rewrite !Forall_app. split_and!; [|apply le_bytes_ok..|done|apply Forall_replicate; unfold is_byte; lia].
  assert (0 <= Z.of_nat (de_name_len e) mod 256 < 256) by (apply Z.mod_pos_bound; lia).
  repeat constructor; unfold is_byte; destruct (de_file_type e); lia.
Qed.
