(* ===== verification/PersistDisk.v ===== *)
(** * The persistent file system: blocks

    What the disk promises ([DiskLaws]), and what the functions that read and
    write the directory and the data blocks do to the contents of the disk.  A
    request may fail at any time; a write that failed has been done entirely or
    not at all. *)

From S2P Require Import Prelude Utf8 Paths Vfs RamFs Text Storage Persist PersistCodec.
Import Persist.

(** ** Disks *)

Abbreviation entries := (Datatypes.list (option DirectoryEntry)).
Definition volume : Type := Z -> bytes.
Implicit Types (v : volume) (es : entries).

Definition vput (b : Z) (bs : bytes) v : volume := fun x => if x =? b then bs else v x.
Definition same v v' : Prop := forall b, v' b = v b.
Definition in_disk (b : Z) : Prop := 0 <= b < DISK_BLOCKS.
Definition block_ok (bs : bytes) : Prop := length bs = BLOCK_SIZE /\ Forall is_byte bs.

Class DiskLaws (D : Type) `{BlockDevice D} := {
  contents : D -> volume;
  disk_ok : D -> Prop;
  dl_block : forall d b, disk_ok d -> in_disk b -> block_ok (contents d b);
  dl_read : forall d b, disk_ok d -> in_disk b ->
    wp (read_block b) (fun r d' => disk_ok d' /\ same (contents d) (contents d') /\
      match r with Ok bs => bs = contents d b | Err _ => True end) d;
  dl_write : forall d b bs, disk_ok d -> in_disk b -> block_ok bs ->
    wp (write_block b bs) (fun r d' => disk_ok d' /\
      (same (vput b bs (contents d)) (contents d') \/ is_ok r = false /\ same (contents d) (contents d'))) d;
}.

Lemma same_refl v : same v v.
Proof. done. Qed.
Lemma same_trans v1 v2 v3 : same v1 v2 -> same v2 v3 -> same v1 v3.
Proof. intros H1 H2 b. by rewrite H2. Qed.
Lemma same_sym v v' : same v v' -> same v' v.
Proof. intros H b. by rewrite H. Qed.
Lemma same_vput b bs v v' : same v v' -> same (vput b bs v) (vput b bs v').
Proof. intros H x. unfold vput. by rewrite H. Qed.
#[export] Hint Resolve same_refl : core.

(** ** The directory *)

Definition dir_block (slot : nat) : Z := DIRECTORY_START_BLOCK + Z.of_nat (slot / SLOTS_PER_BLOCK).
Definition dir_start (slot : nat) : nat := slot mod SLOTS_PER_BLOCK * ENTRY_SIZE.
Definition slot_chunk v (slot : nat) : bytes := chunk (v (dir_block slot)) (dir_start slot).

Record vol v es : Prop := {
  vo_blocks : forall b, in_disk b -> block_ok (v b);
  vo_len : length es = MAX_FILES;
  vo_entries : forall k o, es !! k = Some o -> decode k (slot_chunk v k) = Ok o;
}.

Lemma max_files : MAX_FILES = 32%nat.
Proof. reflexivity. Qed.

Lemma dir_block_range slot : (slot < MAX_FILES)%nat -> 1 <= dir_block slot <= 4.
Proof.
  rewrite max_files. intros Hs. unfold dir_block, DIRECTORY_START_BLOCK. change SLOTS_PER_BLOCK with 8%nat.
  pose proof (Nat.div_lt_upper_bound slot 8 4). lia.
Qed.

Lemma dir_start_range slot : (dir_start slot + ENTRY_SIZE <= BLOCK_SIZE)%nat.
Proof. unfold dir_start. change SLOTS_PER_BLOCK with 8%nat. pose proof (Nat.mod_upper_bound slot 8). sizes. Qed.

Lemma dir_in_disk slot : (slot < MAX_FILES)%nat -> in_disk (dir_block slot).
Proof. intros Hs. pose proof (dir_block_range slot Hs). unfold in_disk, DISK_BLOCKS. lia. Qed.

Lemma dir_distinct j k : dir_block j = dir_block k -> j <> k ->
  (dir_start j + ENTRY_SIZE <= dir_start k \/ dir_start k + ENTRY_SIZE <= dir_start j)%nat.
Proof.
  unfold dir_block, dir_start. change SLOTS_PER_BLOCK with 8%nat. intros E Hne.
  pose proof (Nat.div_mod j 8). pose proof (Nat.div_mod k 8). assert (j mod 8 <> k mod 8)%nat by lia. unfold ENTRY_SIZE. lia.
Qed.

Lemma chunk_fit v es slot : vol v es -> (slot < MAX_FILES)%nat -> (dir_start slot + ENTRY_SIZE <= length (v (dir_block slot)))%nat.
Proof. intros Hv Hs. destruct (vo_blocks v es Hv _ (dir_in_disk slot Hs)) as [-> _]. apply dir_start_range. Qed.

Lemma vol_same v v' es : same v v' -> vol v es -> vol v' es.
Proof.
  intros Hs [H1 H2 H3]. split; [intros b Hb; rewrite Hs; auto|done|]. intros k o Hk. unfold slot_chunk. rewrite Hs. by apply H3.
Qed.

(** Storing a chunk of the directory. *)
Definition dir_put v (slot : nat) (x : bytes) : volume := vput (dir_block slot) (put_chunk (v (dir_block slot)) (dir_start slot) x) v.

Lemma put_chunk_ok v es slot x : vol v es -> (slot < MAX_FILES)%nat -> length x = ENTRY_SIZE -> Forall is_byte x ->
  block_ok (put_chunk (v (dir_block slot)) (dir_start slot) x).
Proof.
  intros Hv Hs Hx Hb. pose proof (vo_blocks v es Hv _ (dir_in_disk slot Hs)) as [Hl Hbs]. split.
  - rewrite length_put_chunk; [done|by eapply chunk_fit|done].
  - unfold put_chunk. rewrite !Forall_app. split_and!; [by apply Forall_take|done|by apply Forall_drop].
Qed.

Lemma vol_dir_put v es slot x o : vol v es -> (slot < MAX_FILES)%nat -> length x = ENTRY_SIZE -> Forall is_byte x ->
  decode slot x = Ok o -> vol (dir_put v slot x) (<[slot := o]> es).
Proof.
  intros Hv Hs Hx Hb Hd. pose proof (put_chunk_ok v es slot x Hv Hs Hx Hb) as Hok. pose proof (chunk_fit v es slot Hv Hs) as Hfit.
  destruct Hv as [H1 H2 H3]. split.
  - intros b Hin. unfold dir_put, vput. destruct (_ =? _); [done|by apply H1].
  - by rewrite length_insert.
  - intros k o' Hk. unfold slot_chunk, dir_put, vput. destruct (decide (k = slot)) as [->|Hne].
    + rewrite list_lookup_insert_eq in Hk by lia. injection Hk as <-. by rewrite Z.eqb_refl, put_chunk_chunk.
    + rewrite list_lookup_insert_ne in Hk by done. destruct (Z.eqb_spec (dir_block k) (dir_block slot)) as [E|E]; [|by apply H3].
      rewrite put_chunk_other, <-E; [by apply H3|done|done|]. by apply dir_distinct.
Qed.

(** Storing a block outside the directory. *)
Lemma vol_data_put v es b bs : vol v es -> in_disk b -> block_ok bs -> 4 < b -> vol (vput b bs v) es.
Proof.
  intros [H1 H2 H3] Hb Hbs Hd. split; [|done|].
  - intros x Hx. unfold vput. destruct (_ =? _); [done|by apply H1].
  - intros k o Hk. unfold slot_chunk, vput. pose proof (lookup_lt_Some _ _ _ Hk) as Hlt. rewrite H2 in Hlt. pose proof (dir_block_range k Hlt).
    replace (dir_block k =? b) with false by (symmetry; apply Z.eqb_neq; lia). by apply H3.
Qed.

Lemma decode_empty slot : decode slot (replicate ENTRY_SIZE 0) = Ok None.
Proof. reflexivity. Qed.

Lemma zeros_are_bytes n : Forall is_byte (replicate n 0).
Proof. apply Forall_replicate. unfold is_byte. lia. Qed.

Lemma zero_block_ok : block_ok (replicate BLOCK_SIZE 0).
Proof. split; [by rewrite length_replicate|apply zeros_are_bytes]. Qed.

(** ** Reading the directory *)

(** The entries read so far. *)
Definition so_far es (n : nat) : entries := take n es ++ replicate (MAX_FILES - n) None.

Lemma so_far_all es : length es = MAX_FILES -> so_far es MAX_FILES = es.
Proof. intros H. unfold so_far. rewrite <-H, firstn_all, Nat.sub_diag. by rewrite app_nil_r. Qed.

Lemma so_far_step es n o : es !! n = Some o -> length es = MAX_FILES ->
  so_far es (S n) = match o with Some e => <[n := Some e]> (so_far es n) | None => so_far es n end.
Proof.
  intros Hn Hl. pose proof (lookup_lt_Some _ _ _ Hn) as Hlt. unfold so_far. rewrite (take_S_r es n o Hn), <-app_assoc.
  replace (MAX_FILES - n)%nat with (S (MAX_FILES - S n)) by lia. cbn [replicate app].
  destruct o as [e|]; [|done]. rewrite insert_app_r_alt by (rewrite length_take; lia). f_equal.
  rewrite length_take. by replace (n - n `min` length es)%nat with 0%nat by lia.
Qed.

Lemma length_so_far es n : length es = MAX_FILES -> (n <= MAX_FILES)%nat -> length (so_far es n) = MAX_FILES.
Proof. intros Hl Hn. unfold so_far. rewrite length_app, length_take, length_replicate. lia. Qed.

Lemma read_slots_spec v es i : vol v es -> (i < 4)%nat -> forall n a, (a + n = 8)%nat ->
  read_slots (v (DIRECTORY_START_BLOCK + Z.of_nat i)) (i * SLOTS_PER_BLOCK) (seq a n) (so_far es (i * 8 + a)) = Done (Ok (so_far es (i * 8 + 8))).
Proof.
  intros Hv Hi. induction n as [|n IH]; intros a Ha; cbn [seq read_slots].
  { by replace a with 8%nat by lia. }
  change (i * SLOTS_PER_BLOCK)%nat with (i * 8)%nat. set (slot := (i * 8 + a)%nat).
  assert (slot / 8 = i /\ slot mod 8 = a)%nat as [Hd Hm].
  { unfold slot. rewrite Nat.add_comm. rewrite Nat.div_add, Nat.Div0.mod_add by lia. rewrite Nat.div_small, Nat.mod_small by lia. lia. }
  assert (slot < MAX_FILES)%nat as Hs by (rewrite max_files; lia).
  assert (DIRECTORY_START_BLOCK + Z.of_nat i = dir_block slot) as -> by (unfold dir_block; change SLOTS_PER_BLOCK with 8%nat; by rewrite Hd).
  assert (a * ENTRY_SIZE = dir_start slot)%nat as -> by (unfold dir_start; change SLOTS_PER_BLOCK with 8%nat; by rewrite Hm).
  rewrite parse_entry_spec by (by eapply chunk_fit). destruct (lookup_lt_is_Some_2 es slot) as [o Ho]; [rewrite (vo_len v es Hv); done|].
  fold (slot_chunk v slot). rewrite (vo_entries v es Hv slot o Ho), tryM_Done. cbn [try_].
  specialize (IH (S a) ltac:(lia)). replace (i * 8 + S a)%nat with (S slot) in IH by (unfold slot; lia).
  rewrite (so_far_step es slot o Ho (vo_len v es Hv)) in IH.
  assert (DIRECTORY_START_BLOCK + Z.of_nat i = dir_block slot) as E by (unfold dir_block; change SLOTS_PER_BLOCK with 8%nat; by rewrite Hd).
  rewrite E in IH. destruct o as [e|]; [|exact IH].
  rewrite index_set_ok by (rewrite length_so_far; [done|apply (vo_len v es Hv)|lia]). exact IH.
Qed.

(** ** The disk functions *)

(** The bytes of a file, and the bytes with some replaced. *)
Definition file_data v (slot : nat) : bytes := v (data_block slot 0) ++ v (data_block slot 1).
Definition splice (l : bytes) (a : nat) (src : bytes) : bytes := take a l ++ src ++ drop (a + length src) l.

(** Only the data blocks of the slot may differ. *)
Definition same_but (slot : nat) v v' : Prop := forall b, b <> data_block slot 0 -> b <> data_block slot 1 -> v' b = v b.

Lemma data_block_range slot k : (slot < MAX_FILES)%nat -> (k < 2)%nat -> 4 < data_block slot k /\ in_disk (data_block slot k).
Proof. rewrite max_files. unfold data_block, in_disk, DATA_START_BLOCK, DIRECTORY_START_BLOCK, DIRECTORY_BLOCKS, BLOCKS_PER_FILE, DISK_BLOCKS. lia. Qed.

Lemma data_block_inj slot slot' k k' : (k < 2)%nat -> (k' < 2)%nat -> data_block slot k = data_block slot' k' -> slot = slot' /\ k = k'.
Proof. unfold data_block, BLOCKS_PER_FILE. lia. Qed.

Lemma length_splice_bytes l a src : (a + length src <= length l)%nat -> length (splice l a src) = length l.
Proof. intros H. unfold splice. rewrite !length_app, length_take, length_drop. lia. Qed.

Lemma splice_bytes l a src : Forall is_byte l -> Forall is_byte src -> Forall is_byte (splice l a src).
Proof. intros H1 H2. unfold splice. rewrite !Forall_app. split_and!; [by apply Forall_take|done|by apply Forall_drop]. Qed.

Lemma splice_app_l l l' a src : (a + length src <= length l)%nat -> splice l a src ++ l' = splice (l ++ l') a src.
Proof. intros H. unfold splice. rewrite take_app_le, drop_app_le by lia. by rewrite <-!app_assoc. Qed.

Lemma splice_app_r l l' a src : l ++ splice l' a src = splice (l ++ l') (length l + a) src.
Proof.
  unfold splice. rewrite take_app_ge, drop_app_ge by lia. rewrite <-app_assoc. do 3 f_equal; f_equal; lia.
Qed.

Lemma splice_twice l a s1 s2 : (a + length s1 + length s2 <= length l)%nat -> splice (splice l a s1) (a + length s1) s2 = splice l a (s1 ++ s2).
Proof.
  intros H. unfold splice. assert (length (take a l ++ s1) = a + length s1)%nat as E by (rewrite length_app, length_take; lia).
  rewrite (app_assoc (take a l) s1), (take_app_length' (take a l ++ s1)), <-!app_assoc by done. do 3 f_equal.
  rewrite (app_assoc (take a l) s1), (drop_app_ge (take a l ++ s1)) by lia. rewrite drop_drop, E, length_app. f_equal. lia.
Qed.

Section disk.
Context {D : Type} `{DiskLaws D}.
Implicit Types d : D.

Definition reads {A} (P : A -> Prop) (m : M D A) d : Prop :=
  wp m (fun a d' => disk_ok d' /\ same (contents d) (contents d') /\ P a) d.

Lemma read_io_spec d b : disk_ok d -> in_disk b -> reads (fun r => r = Ok (contents d b) \/ r = Err Io) (read_io b) d.
Proof.
  intros Hd Hb. unfold reads, read_io. rewrite wp_bind. eapply wp_mono; [by apply dl_read|]. intros r d' (Hd' & Hs & Hr). rewrite wp_ret.
  split_and!; [done..|]. destruct r as [bs|e]; cbn; [left; by subst|by right].
Qed.

(** The new contents, or if the write failed, the new or the old. *)
Definition stored v v1 (r : result () FsError) d' : Prop :=
  disk_ok d' /\ (r = Ok () /\ same v1 (contents d') \/ r = Err Io /\ (same v (contents d') \/ same v1 (contents d'))).

Lemma write_io_spec d b bs : disk_ok d -> in_disk b -> block_ok bs -> wp (write_io b bs) (stored (contents d) (vput b bs (contents d))) d.
Proof.
  intros Hd Hb Hbs. unfold write_io. rewrite wp_bind. eapply wp_mono; [by apply dl_write|]. intros r d' (Hd' & Hr). rewrite wp_ret.
  split; [done|]. destruct r as [[]|e]; cbn; [left; by destruct Hr as [?|[? _]]|right]. split; [done|]. tauto.
Qed.

Lemma wp_try {S A B E} (m : M S (result A E)) (k : A -> M S (result B E)) Q s :
  wp m (fun r s' => match r with Ok a => wp (k a) Q s' | Err e => Q (Err e) s' end) s -> wp (tryS m k) Q s.
Proof. unfold wp, tryS. run. destruct (m s) as [[[a|e] s']|]; done. Qed.

Lemma read_directory_spec es : forall n i d, (i + n = 4)%nat -> disk_ok d -> vol (contents d) es ->
  reads (fun r => r = Ok es \/ r = Err Io) (read_directory (seq i n) (so_far es (i * 8))) d.
Proof.
  induction n as [|n IH]; intros i d Hi Hd Hv; cbn [seq read_directory]; unfold reads.
  { rewrite wp_ret. replace (i * 8)%nat with MAX_FILES by (rewrite max_files; lia). rewrite so_far_all by apply (vo_len _ _ Hv). auto. }
  apply wp_try. eapply wp_mono; [apply read_io_spec; [done|unfold in_disk, DIRECTORY_START_BLOCK, DISK_BLOCKS; lia]|].
  intros r d1 (Hd1 & Hs1 & [->| ->]); [|auto]. apply wp_try.
  pose proof (read_slots_spec (contents d) es i Hv ltac:(lia) 8 0 eq_refl) as E. rewrite Nat.add_0_r in E.
  unfold wp, lift. change SLOTS_PER_BLOCK with 8%nat in *. rewrite E. replace (i * 8 + 8)%nat with (S i * 8)%nat by lia.
  eapply wp_mono; [apply IH; [lia|done|by eapply vol_same]|]. intros r d' (Hd' & Hs' & Hr). split_and!; [done| |done]. by eapply same_trans.
Qed.

Lemma read_entries_spec d es : disk_ok d -> vol (contents d) es -> reads (fun r => r = Ok es \/ r = Err Io) read_entries d.
Proof. intros Hd Hv. apply (read_directory_spec es 4 0 d eq_refl Hd Hv). Qed.

(** Storing an entry, or freeing one. *)
Lemma write_entry_spec d es e : disk_ok d -> vol (contents d) es -> fits e -> (de_slot e < MAX_FILES)%nat ->
  wp (write_entry e) (stored (contents d) (dir_put (contents d) (de_slot e) (encode e))) d.
Proof.
  intros Hd Hv He Hs. unfold write_entry. fold (dir_block (de_slot e)) (dir_start (de_slot e)).
  pose proof (length_encode e (fi_name e He)) as Hl. pose proof (encode_bytes e (fi_bytes e He)) as Hb.
  apply wp_try. eapply wp_mono; [apply read_io_spec; [done|by apply dir_in_disk]|]. intros r d1 (Hd1 & Hs1 & [->| ->]); [|split; [done|]; right; auto].
  rewrite wp_bind. unfold wp at 1, lift. rewrite encode_entry_spec by (apply (fi_name e He) || by eapply chunk_fit).
  eapply wp_mono; [apply write_io_spec; [done|by apply dir_in_disk|by eapply put_chunk_ok]|]. intros r d' (Hd' & Hr). split; [done|].
  assert (same (dir_put (contents d) (de_slot e) (encode e)) (vput (dir_block (de_slot e)) (put_chunk (contents d (dir_block (de_slot e))) (dir_start (de_slot e)) (encode e)) (contents d1))) as Hp
    by (by apply same_vput).
  destruct Hr as [[-> Hr]|[-> [Hr|Hr]]]; [left|right..]; (split; [done|]); [|left|right]; by eapply same_trans.
Qed.

Lemma write_empty_entry_spec d es slot : disk_ok d -> vol (contents d) es -> (slot < MAX_FILES)%nat ->
  wp (write_empty_entry slot) (stored (contents d) (dir_put (contents d) slot (replicate ENTRY_SIZE 0))) d.
Proof.
  intros Hd Hv Hs. unfold write_empty_entry. cbv zeta. fold (dir_block slot) (dir_start slot).
  apply wp_try. eapply wp_mono; [apply read_io_spec; [done|by apply dir_in_disk]|]. intros r d1 (Hd1 & Hs1 & [->| ->]); [|split; [done|]; right; auto].
  pose proof (chunk_fit _ _ slot Hv Hs) as Hfit.
  rewrite wp_bind. unfold wp at 1, lift. rewrite copy_slice_ok by (rewrite ?length_replicate; lia).
  eapply wp_mono; [apply write_io_spec; [done|by apply dir_in_disk|apply (put_chunk_ok _ es slot); [done|done|done|apply zeros_are_bytes]]|].
  intros r d' (Hd' & Hr). split; [done|].
  assert (same (dir_put (contents d) slot (replicate ENTRY_SIZE 0)) (vput (dir_block slot) (put_chunk (contents d (dir_block slot)) (dir_start slot) (replicate ENTRY_SIZE 0)) (contents d1))) as Hp
    by (by apply same_vput).
  destruct Hr as [[-> Hr]|[-> [Hr|Hr]]]; [left|right..]; (split; [done|]); [|left|right]; by eapply same_trans.
Qed.

(** ** Data blocks *)

Section data.
Context (slot : nat) (Hslot : (slot < MAX_FILES)%nat).
Notation data v := (file_data v slot).

Lemma data_blocks_ok v b : (forall b, in_disk b -> block_ok (v b)) -> (b < 2)%nat -> block_ok (v (data_block slot b)).
Proof. intros Hv Hb. apply Hv. by apply data_block_range. Qed.

Lemma length_file_data v : (forall b, in_disk b -> block_ok (v b)) -> length (data v) = MAX_FILE_SIZE.
Proof.
  intros Hv. unfold file_data. rewrite length_app. destruct (data_blocks_ok v 0 Hv ltac:(lia)) as [-> _]. by destruct (data_blocks_ok v 1 Hv ltac:(lia)) as [-> _].
Qed.

(** A range of the file within one block. *)
Lemma data_round v a n : (forall b, in_disk b -> block_ok (v b)) -> (a + n <= MAX_FILE_SIZE)%nat -> (0 < n)%nat ->
  let b := (a / BLOCK_SIZE)%nat in let w := (a mod BLOCK_SIZE)%nat in let count := Nat.min (BLOCK_SIZE - w) n in
  (b < 2)%nat /\ (w + count <= BLOCK_SIZE)%nat /\ (0 < count <= n)%nat /\
  take count (drop w (v (data_block slot b))) = take count (drop a (data v)) /\
  (forall src, length src = count -> file_data (vput (data_block slot b) (splice (v (data_block slot b)) w src) v) slot = splice (data v) a src).
Proof using Hslot.
  intros Hv Ha Hn b w count. pose proof (Nat.div_mod a BLOCK_SIZE ltac:(done)) as Edm. pose proof (Nat.mod_upper_bound a BLOCK_SIZE ltac:(done)) as Hw.
  fold b w in Edm, Hw. clearbody b w.
  destruct (data_blocks_ok v 0 Hv ltac:(lia)) as [L0 _]. destruct (data_blocks_ok v 1 Hv ltac:(lia)) as [L1 _].
  assert (count <= BLOCK_SIZE - w /\ count <= n)%nat as [Hc1 Hc2] by (unfold count; lia).
  assert (0 < count)%nat as Hc0 by (unfold count; sizes).
  assert (b < 2)%nat as Hb by sizes. assert (w + count <= BLOCK_SIZE)%nat as Hwc by sizes.
  split_and!; [done..| |].
  - unfold file_data. destruct b as [|[|?]]; [| |lia].
    + rewrite drop_app_le, take_app_le by (rewrite ?length_drop; sizes). do 2 f_equal. sizes.
    + rewrite drop_app_ge by sizes. do 2 f_equal. sizes.
  - intros src Hsrc. unfold file_data, vput. destruct b as [|[|?]]; [| |lia].
    + rewrite Z.eqb_refl. replace (data_block slot 1 =? data_block slot 0) with false by (symmetry; apply Z.eqb_neq; unfold data_block; lia).
      rewrite splice_app_l by (rewrite L0; sizes). f_equal. sizes.
    + rewrite Z.eqb_refl. replace (data_block slot 0 =? data_block slot 1) with false by (symmetry; apply Z.eqb_neq; unfold data_block; lia).
      rewrite splice_app_r. f_equal. sizes.
Qed.

Lemma disk_blocks d : disk_ok d -> forall b, in_disk b -> block_ok (contents d b).
Proof. intros Hd b. by apply dl_block. Qed.

Lemma file_data_same v v' : same v v' -> data v' = data v.
Proof. intros Hs. unfold file_data. by rewrite !Hs. Qed.

(** Reading gives the bytes of the file. *)
Lemma disk_read_loop off : forall fuel copied out d, disk_ok d -> (length out - copied <= fuel)%nat -> (copied <= length out)%nat ->
  (off + length out <= MAX_FILE_SIZE)%nat ->
  reads (fun '(r, out') => length out' = length out /\
    (r = Ok () /\ out' = take copied out ++ take (length out - copied) (drop (off + copied) (data (contents d))) \/ r = Err Io))
    (read_loop fuel slot off copied out) d.
Proof using Hslot.
  induction fuel as [|fuel IH]; intros copied out d Hd Hf Hc Hoff; cbn [read_loop]; unfold reads.
  - destruct (Nat.leb_spec (length out) copied) as [Hle|Hlt]; [|lia]. rewrite wp_ret. split_and!; [done..|]. left. split; [done|].
    rewrite firstn_all2 by lia. replace (length out - copied)%nat with 0%nat by lia. by rewrite take_0, app_nil_r.
  - destruct (Nat.leb_spec (length out) copied) as [Hle|Hlt].
    { rewrite wp_ret. split_and!; [done..|]. left. split; [done|].
      rewrite firstn_all2 by lia. replace (length out - copied)%nat with 0%nat by lia. by rewrite take_0, app_nil_r. }
    destruct (data_round (contents d) (off + copied) (length out - copied) (disk_blocks d Hd) ltac:(lia) ltac:(lia)) as (Hb & Hwc & Hn & Hrd & _).
    set (b := ((off + copied) / BLOCK_SIZE)%nat) in *. set (w := ((off + copied) mod BLOCK_SIZE)%nat) in *. set (count := Nat.min _ _) in *.
    rewrite wp_bind. eapply wp_mono; [apply read_io_spec; [done|by apply data_block_range]|]. intros r d1 (Hd1 & Hs1 & [->| ->]); [|rewrite wp_ret; auto].
    rewrite wp_bind. unfold wp at 1, lift. destruct (data_blocks_ok (contents d) b (disk_blocks d Hd) Hb) as [Lb _].
    rewrite slice_ok by lia. replace (w + count - w)%nat with count by lia. rewrite Hrd. set (src := take count _).
    assert (length src = count) as Hsrc.
    { unfold src. rewrite length_take, length_drop, length_file_data by (by apply disk_blocks). lia. }
    rewrite wp_bind. unfold wp at 1. rewrite copy_slice_ok by lia. set (out1 := take copied out ++ src ++ drop (copied + count) out).
    assert (length out1 = length out) as L1 by (unfold out1; rewrite !length_app, length_take, length_drop; lia).
    eapply wp_mono; [apply (IH (copied + count)%nat out1 d1); [done|lia|lia|lia]|]. intros [r out'] d' (Hd' & Hs' & Hl & Hr).
    split_and!; [done|by eapply same_trans|lia|]. destruct Hr as [[-> ->]| ->]; [left|by right]. split; [done|].
    rewrite (file_data_same _ _ Hs1), L1. unfold out1. rewrite app_assoc, take_app_length' by (rewrite length_app, length_take; lia).
    rewrite <-app_assoc. f_equal. unfold src. set (x := data (contents d)).
    replace (drop (off + (copied + count)) x) with (drop count (drop (off + copied) x)) by (rewrite drop_drop; f_equal; lia).
    rewrite take_take_drop. f_equal. lia.
Qed.

Lemma disk_read_spec off out d : disk_ok d -> (off + length out <= MAX_FILE_SIZE)%nat ->
  reads (fun '(r, out') => length out' = length out /\ (r = Ok () /\ out' = take (length out) (drop off (data (contents d))) \/ r = Err Io)) (read_data slot off out) d.
Proof using Hslot.
  intros Hd Ho. unfold read_data. eapply wp_mono; [apply disk_read_loop; [done|lia|lia|done]|]. intros [r out'] d' (Hd' & Hs & Hl & Hr).
  split_and!; [done..|]. rewrite take_0, Nat.add_0_r, Nat.sub_0_r in Hr. done.
Qed.

(** A write stores the bytes, a failed one the first of them. *)
Lemma disk_write_loop off (source : bytes) v0 : forall fuel copied d, disk_ok d -> (length source - copied <= fuel)%nat -> (copied <= length source)%nat ->
  (off + length source <= MAX_FILE_SIZE)%nat -> Forall is_byte source ->
  same_but slot v0 (contents d) -> data (contents d) = splice (data v0) off (take copied source) -> length (data v0) = MAX_FILE_SIZE ->
  wp (write_loop fuel slot off copied source) (fun r d' => disk_ok d' /\ same_but slot v0 (contents d') /\
    exists k, (k <= length source)%nat /\ data (contents d') = splice (data v0) off (take k source) /\
      (r = Ok () /\ k = length source \/ r = Err Io)) d.
Proof using Hslot.
  induction fuel as [|fuel IH]; intros copied d Hd Hf Hc Hoff Hsb Hbut Hdata Hlen; cbn [write_loop].
  - destruct (Nat.leb_spec (length source) copied) as [Hle|Hlt]; [|lia]. rewrite wp_ret. split_and!; [done..|].
    exists copied. split_and!; [lia|done|]. left. split; [done|lia].
  - destruct (Nat.leb_spec (length source) copied) as [Hle|Hlt].
    { rewrite wp_ret. split_and!; [done..|]. exists copied. split_and!; [lia|done|]. left. split; [done|lia]. }
    destruct (data_round (contents d) (off + copied) (length source - copied) (disk_blocks d Hd) ltac:(lia) ltac:(lia)) as (Hb & Hwc & Hn & _ & Hwr).
    set (b := ((off + copied) / BLOCK_SIZE)%nat) in *. set (w := ((off + copied) mod BLOCK_SIZE)%nat) in *. set (count := Nat.min _ _) in *.
    assert (forall d', disk_ok d' -> same (contents d) (contents d') -> disk_ok d' /\ same_but slot v0 (contents d') /\
      exists k, (k <= length source)%nat /\ data (contents d') = splice (data v0) off (take k source) /\ (@Err () FsError Io = Ok () /\ k = length source \/ @Err () FsError Io = Err Io)) as Hold.
    { intros d' Hd' Hs. split_and!; [done|intros x H1 H2; rewrite Hs; by apply Hbut|]. exists copied. split_and!; [done|by rewrite (file_data_same _ _ Hs)|by right]. }
    apply wp_try. eapply wp_mono; [apply read_io_spec; [done|by apply data_block_range]|]. intros r d1 (Hd1 & Hs1 & [->| ->]); [|by apply Hold].
    destruct (data_blocks_ok (contents d) b (disk_blocks d Hd) Hb) as [Lb Bb].
    rewrite wp_bind. unfold wp at 1, lift. rewrite slice_ok by lia. replace (copied + count - copied)%nat with count by lia. set (src := take count _).
    assert (length src = count) as Hsrc by (unfold src; rewrite length_take, length_drop; lia).
    rewrite wp_bind. unfold wp at 1. rewrite copy_slice_ok by lia. replace (w + count)%nat with (w + length src)%nat by lia. fold (splice (contents d (data_block slot b)) w src).
    apply wp_try. eapply wp_mono; [apply write_io_spec; [done|by apply data_block_range|]|].
    { split; [rewrite length_splice_bytes; [done|lia]|apply splice_bytes; [done|]]. unfold src. by apply Forall_take, Forall_drop. }
    assert (splice (data v0) off (take (copied + count) source) = splice (data (contents d)) (off + copied) src) as Enew.
    { rewrite Hdata. replace (off + copied)%nat with (off + length (take copied source))%nat by (rewrite length_take; lia).
      rewrite splice_twice by (rewrite Hlen, Hsrc, length_take; lia). f_equal. unfold src. by rewrite take_take_drop. }
    assert (forall v', same (vput (data_block slot b) (splice (contents d (data_block slot b)) w src) (contents d1)) v' ->
      same_but slot v0 v' /\ data v' = splice (data v0) off (take (copied + count) source)) as Hnew.
    { intros v' Hs. assert (same (vput (data_block slot b) (splice (contents d (data_block slot b)) w src) (contents d)) v') as Hs'.
      { eapply same_trans; [|exact Hs]. by apply same_vput. }
      split.
      - intros x H1 H2. rewrite Hs'. unfold vput. replace (x =? data_block slot b) with false; [by apply Hbut|].
        symmetry. apply Z.eqb_neq. destruct b as [|[|?]]; [done..|lia].
      - rewrite (file_data_same _ _ Hs'), Hwr by done. by rewrite Enew. }
    intros r d2 (Hd2 & [[-> Hs2]|[-> [Hs2|Hs2]]]).
    + destruct (Hnew _ Hs2) as [Hb2 Hdata2]. apply IH; [done|lia|lia|done..].
    + apply Hold; [done|]. by eapply same_trans.
    + destruct (Hnew _ Hs2) as [Hb2 Hdata2]. split_and!; [done..|]. exists (copied + count)%nat. split_and!; [lia|done|by right].
Qed.

Lemma disk_write_spec off source d : disk_ok d -> (off + length source <= MAX_FILE_SIZE)%nat -> Forall is_byte source ->
  wp (write_data slot off source) (fun r d' => disk_ok d' /\ same_but slot (contents d) (contents d') /\
    exists k, (k <= length source)%nat /\ data (contents d') = splice (data (contents d)) off (take k source) /\
      (r = Ok () /\ k = length source \/ r = Err Io)) d.
Proof using Hslot.
  intros Hd Ho Hs. apply disk_write_loop; [done|lia|lia|done|done|done| |by apply length_file_data, disk_blocks].
  rewrite take_0. unfold splice. cbn [length app]. rewrite Nat.add_0_r. by rewrite take_drop.
Qed.

Lemma disk_clear_spec d : disk_ok d ->
  wp (clear_data slot) (fun r d' => disk_ok d' /\ same_but slot (contents d) (contents d') /\
    (r = Ok () /\ data (contents d') = replicate MAX_FILE_SIZE 0 \/ r = Err Io)) d.
Proof using Hslot.
  intros Hd. unfold clear_data. change (seq 0 (Z.to_nat BLOCKS_PER_FILE)) with [0%nat; 1%nat]. cbn [clear_blocks].
  apply wp_try. eapply wp_mono; [apply write_io_spec; [done|apply data_block_range; [done|lia]|apply zero_block_ok]|]. intros r1 d1 (Hd1 & H1).
  assert (same_but slot (contents d) (contents d1)) as Hb1.
  { intros x Hx0 Hx1. destruct H1 as [[_ Hs]|[_ [Hs|Hs]]]; rewrite Hs; [|done|]; unfold vput; by destruct (Z.eqb_spec x (data_block slot 0)). }
  destruct H1 as [[-> Hs1]|[-> _]]; [|split_and!; [done..|by right]].
  apply wp_try. eapply wp_mono; [apply write_io_spec; [done|apply data_block_range; [done|lia]|apply zero_block_ok]|]. intros r2 d2 (Hd2 & H2).
  assert (same_but slot (contents d) (contents d2)) as Hb2.
  { intros x Hx0 Hx1. rewrite <-(Hb1 x Hx0 Hx1). destruct H2 as [[_ Hs]|[_ [Hs|Hs]]]; rewrite Hs; [|done|]; unfold vput; by destruct (Z.eqb_spec x (data_block slot 1)). }
  destruct H2 as [[-> Hs2]|[-> _]]; [|split_and!; [done..|by right]]. rewrite wp_ret. split_and!; [done..|]. left. split; [done|].
  unfold file_data. rewrite !Hs2. unfold vput. rewrite Z.eqb_refl. replace (data_block slot 0 =? data_block slot 1) with false by (symmetry; apply Z.eqb_neq; unfold data_block; lia).
  rewrite Hs1. unfold vput. by rewrite Z.eqb_refl.
Qed.
End data.
End disk.
