(* ===== verification/AtaProofs.v ===== *)
(** * Reading a sector from the IDE disk

    [AtaDrive] states the part of the ATA protocol that reading a sector relies
    on.  The registers may be written while the drive is idle; a READ SECTORS
    command makes it busy for some time, in which the other bits of its status
    mean nothing; then it announces the data or an error; after the last word of
    the sector it is idle again; an error stays in the status until the next
    command.  For every such drive the driver reads what the drive stores (C28).

    Writing is not covered: [write_block] sends CACHE FLUSH right after the last
    data word, when the drive is busy storing the sector, and the protocol does
    not say what a command does then. *)

From S2P Require Import Prelude Utf8 Paths Vfs RamFs Text Storage Persist PersistCodec PersistDisk.

(** ** The drive *)

(** What the drive does: nothing; read a sector, showing these statuses while it
    is busy and then succeeding or not; hand out the rest of a sector; show that
    the last command failed. *)
Inductive phase := Idle | Reading (lba : Z) (busy : list Z) (succeeds : bool) | DataIn (rest : bytes) | Failed.

Record Drive := mkDrive {
  dv_size : Z;
  dv_sectors : Z -> bytes;
  dv_regs : Z -> Z;              (* the registers, by port *)
  dv_phase : phase;
  dv_next : list Z * bool;       (* how it will react to the next command *)
}.
#[export] Instance eta_drive : Eta Drive := fun r => mkDrive (dv_size r) (dv_sectors r) (dv_regs r) (dv_phase r) (dv_next r).

(** The bits of the status register. *)
Definition ERR (st : Z) : bool := Z.testbit st 0.
Definition DRQ (st : Z) : bool := Z.testbit st 3.
Definition DF (st : Z) : bool := Z.testbit st 5.
Definition DRDY (st : Z) : bool := Z.testbit st 6.
Definition BSY (st : Z) : bool := Z.testbit st 7.

(** Reading the status shows the phase; a busy drive gets on with its work. *)
Definition status_read (d : Drive) (st : Z) (d' : Drive) : Prop :=
  match dv_phase d with
  | Idle => d' = d /\ BSY st = false /\ DRDY st = true /\ DF st = false /\ DRQ st = false /\ ERR st = false
  | Reading lba (b :: busy) ok => d' = d <| dv_phase := Reading lba busy ok |> /\ st = b
  | Reading lba [] true => d' = d <| dv_phase := DataIn (dv_sectors d lba) |> /\
      BSY st = false /\ DF st = false /\ DRQ st = true /\ ERR st = false
  | Reading lba [] false => d' = d <| dv_phase := Failed |> /\ BSY st = false /\ (DF st = true \/ ERR st = true)
  | DataIn _ => d' = d /\ BSY st = false /\ DF st = false /\ DRQ st = true /\ ERR st = false
  | Failed => d' = d /\ BSY st = false /\ (DF st = true \/ ERR st = true)
  end.

(** The sector number in the registers: LBA bits 27 to 24 in the low half of the drive register. *)
Definition lba_of (r : Z -> Z) : Z :=
  Z.land (r 0x1f6) 0x0f * 2 ^ 24 + r 0x1f5 * 2 ^ 16 + r 0x1f4 * 2 ^ 8 + r 0x1f3.

(** LBA addressing of the given drive of the channel, one sector. *)
Definition selects (slave : bool) (r : Z -> Z) : Prop :=
  Z.land (r 0x1f6) 0xf0 = (if slave then 0xf0 else 0xe0) /\ r 0x1f2 = 1.

Definition set_reg (port value : Z) (r : Z -> Z) : Z -> Z := fun p => if p =? port then value else r p.

(** A driver of one drive, which stays the selected one of its channel. *)
Class AtaDrive (W : Type) `{Ports W} (is_slave : bool) := {
  hw_ok : W -> Prop;
  drive : W -> Drive;
  hw_sectors : forall w b, hw_ok w -> 0 <= b < dv_size (drive w) -> block_ok (dv_sectors (drive w) b);
  hw_busy : forall w, hw_ok w -> Forall (fun st => BSY st = true) (dv_next (drive w)).1;
  hw_status : forall w, hw_ok w -> wp (in8 0x1f7) (fun st w' => hw_ok w' /\ status_read (drive w) st (drive w')) w;
  (* Reading the alternate status changes nothing. *)
  hw_alt_status : forall w, hw_ok w -> wp (in8 0x3f6) (fun _ w' => hw_ok w' /\ drive w' = drive w) w;
  hw_register : forall w port v, hw_ok w -> dv_phase (drive w) = Idle -> 0x1f2 <= port <= 0x1f6 -> is_byte v ->
    (port = 0x1f6 -> Z.testbit v 4 = is_slave) ->
    wp (out8 port v) (fun _ w' => hw_ok w' /\ drive w' = drive w <| dv_regs ::= set_reg port v |>) w;
  hw_read_command : forall w, hw_ok w -> dv_phase (drive w) = Idle -> selects is_slave (dv_regs (drive w)) ->
    lba_of (dv_regs (drive w)) < dv_size (drive w) ->
    wp (out8 0x1f7 0x20) (fun _ w' => hw_ok w' /\ exists next, drive w' = drive w <| dv_next := next |>
      <| dv_phase := Reading (lba_of (dv_regs (drive w))) (dv_next (drive w)).1 (dv_next (drive w)).2 |>) w;
  hw_data_in : forall w a b rest, hw_ok w -> dv_phase (drive w) = DataIn (a :: b :: rest) ->
    wp (in16 0x1f0) (fun word w' => hw_ok w' /\ le_bytes 2 word = [a; b] /\
      drive w' = drive w <| dv_phase := match rest with [] => Idle | _ => DataIn rest end |>) w;
}.

(** ** The driver *)

Section driver.
Context {W : Type} `{Ports W} (self : Ata.AtaPioDisk) `{!AtaDrive W (Ata.slave self)}.
Implicit Types w : W.

Lemma bit_test st n : 0 <= n -> (Z.land st (2 ^ n) =? 0) = negb (Z.testbit st n).
Proof.
  intros Hn. apply eq_true_iff_eq. rewrite Z.eqb_eq, negb_true_iff. split.
  - intros E. apply (f_equal (fun z => Z.testbit z n)) in E. by rewrite Z.land_spec, Z.pow2_bits_true, Z.bits_0, andb_true_r in E.
  - intros E. apply Z.bits_inj'. intros m Hm. rewrite Z.land_spec, Z.bits_0, Z.pow2_bits_eqb by done.
    destruct (Z.eqb_spec n m) as [->|]; [by rewrite E|apply andb_false_r].
Qed.

(** What one round of polling makes of a status. *)
Definition verdict (require_data : bool) (st : Z) : option (result Z Block.BlockError) :=
  if (st =? 0) || (st =? 0xff) then Some (Err Block.NoDevice) else
  if DF st || ERR st then Some (Err Block.DeviceFault) else
  if negb (BSY st) && (negb require_data || DRQ st) then Some (Ok st) else None.

Lemma poll_step n data w Q : hw_ok w ->
  (forall st w', hw_ok w' -> status_read (drive w) st (drive w') ->
     match verdict data st with Some r => Q r w' | None => wp (Ata.poll_rounds n data) Q w' end) ->
  wp (Ata.poll_rounds (S n) data) Q w.
Proof.
  intros Hw HQ. cbn [Ata.poll_rounds]. rewrite wp_bind. eapply wp_mono; [by apply hw_status|]. intros st w' [Hw' Hst].
  specialize (HQ st w' Hw' Hst). unfold verdict, DF, ERR, BSY, DRQ in HQ.
  change Ata.STATUS_DEVICE_FAULT with (2 ^ 5). change Ata.STATUS_ERROR with (2 ^ 0). change Ata.STATUS_BUSY with (2 ^ 7).
  change Ata.STATUS_DATA_REQUEST with (2 ^ 3). rewrite !bit_test, !negb_involutive by lia.
  destruct (_ || _); [done|]. destruct (Z.testbit st 5); [done|]. destruct (Z.testbit st 0); [done|]. cbn [orb] in HQ.
  destruct (Z.testbit st 7); cbn [negb andb] in *; [done|]. by destruct (_ || _).
Qed.

(** No status of a drive that has DRDY or DRQ set and no error is mistaken for an empty bus. *)
Lemma bus_answers st : ERR st = false -> Z.testbit st 6 = true \/ Z.testbit st 3 = true -> (st =? 0) || (st =? 0xff) = false.
Proof.
  unfold ERR. intros He Hr. apply orb_false_iff. rewrite !Z.eqb_neq. split; intros ->; [|done]. by destruct Hr as [Hr|Hr]; vm_compute in Hr.
Qed.

Lemma wait_idle n w : hw_ok w -> dv_phase (drive w) = Idle ->
  wp (Ata.poll_rounds (S n) false) (fun r w' => hw_ok w' /\ drive w' = drive w /\ is_ok r = true) w.
Proof.
  intros Hw Hp. apply poll_step; [done|]. intros st w' Hw' Hst. unfold status_read in Hst. rewrite Hp in Hst.
  destruct Hst as (Ed & Hb & Hr & Hd & Hq & He). unfold verdict. rewrite bus_answers by auto. by rewrite Hd, He, Hb.
Qed.

Lemma poll_failed n data w : hw_ok w -> dv_phase (drive w) = Failed ->
  wp (Ata.poll_rounds n data) (fun r w' => hw_ok w' /\ drive w' = drive w /\ is_ok r = false) w.
Proof.
  revert w. induction n as [|n IH]; intros w Hw Hp; [done|]. apply poll_step; [done|]. intros st w' Hw' Hst. unfold status_read in Hst.
  rewrite Hp in Hst. destruct Hst as (Ed & Hb & Hf). unfold verdict. destruct (_ || _); [done|].
  assert (DF st || ERR st = true) as -> by (apply orb_true_iff; tauto). done.
Qed.

(** A busy status that shows no error. *)
Definition plain (st : Z) : Prop := DF st = false /\ ERR st = false.

Lemma poll_reading n : forall w lba busy ok, hw_ok w -> dv_phase (drive w) = Reading lba busy ok -> Forall (fun st => BSY st = true) busy ->
  wp (Ata.poll_rounds n true) (fun r w' => hw_ok w' /\ exists ph, drive w' = drive w <| dv_phase := ph |> /\
    (is_ok r = true <-> Forall plain busy /\ (length busy < n)%nat /\ ok = true) /\
    (is_ok r = true -> ph = DataIn (dv_sectors (drive w) lba))) w.
Proof.
  induction n as [|n IH]; intros w lba busy ok Hw Hp Hb.
  { cbn [Ata.poll_rounds]. rewrite wp_ret. split; [done|]. exists (dv_phase (drive w)). split; [by destruct (drive w)|]. split; [|done]. split; [done|]. lia. }
  apply poll_step; [done|]. intros st w' Hw' Hst. unfold status_read in Hst. rewrite Hp in Hst. unfold verdict.
  destruct busy as [|b busy]; [destruct ok|].
  - destruct Hst as (Ed & Hbs & Hd & Hq & He). rewrite bus_answers by auto. rewrite Hd, He, Hbs, Hq. cbn. split; [done|].
    eexists. split; [exact Ed|]. split; [|done]. split; [|done]. intros _. split; [constructor|]. split; [lia|done].
  - destruct Hst as (Ed & Hbs & Hf). assert (DF st || ERR st = true) as Hor by (apply orb_true_iff; tauto). rewrite Hor.
    destruct ((st =? 0) || (st =? 0xff)); cbv beta iota; (split; [done|]); eexists; (split; [exact Ed|]); (split; [|done]); (split; [done|]); by intros (_ & _ & ?).
  - destruct Hst as [Ed ->]. apply Forall_cons in Hb as [Hb1 Hb2].
    assert (~ plain b -> forall e, hw_ok w' /\ exists ph, drive w' = drive w <| dv_phase := ph |> /\
      (is_ok (Err e : result Z Block.BlockError) = true <-> Forall plain (b :: busy) /\ (length (b :: busy) < S n)%nat /\ ok = true) /\
      (is_ok (Err e : result Z Block.BlockError) = true -> ph = DataIn (dv_sectors (drive w) lba))) as Hbad.
    { intros Hn e. split; [done|]. eexists. split; [exact Ed|]. split; [|done]. split; [done|]. intros ([Hpl _]%Forall_cons & _). by destruct Hn. }
    destruct ((b =? 0) || (b =? 0xff)) eqn:E0.
    { apply Hbad. intros [H1 H2]. apply orb_true_iff in E0 as [->%Z.eqb_eq| ->%Z.eqb_eq]; done. }
    destruct (DF b || ERR b) eqn:E1; [apply Hbad; intros [H1 H2]; by rewrite H1, H2 in E1|]. apply orb_false_iff in E1 as [Hd He].
    rewrite Hb1. cbn. eapply wp_mono; [apply (IH w' lba busy ok); [done|by rewrite Ed|done]|].
    intros r w2 (Hw2 & ph & E2 & Hr & Hdata). split; [done|]. exists ph. split; [by rewrite E2, Ed|]. rewrite Hr. split.
    + rewrite Forall_cons. unfold plain. intuition lia.
    + rewrite <-Hr, Ed in *. exact Hdata.
Qed.

Lemma delay_spec w : hw_ok w -> wp Ata.io_delay (fun _ w' => hw_ok w' /\ drive w' = drive w) w.
Proof.
  intros Hw. unfold Ata.io_delay. do 4 (rewrite wp_bind; eapply wp_mono; [by apply hw_alt_status|]; intros ? ? [? ?]).
  rewrite wp_ret. split; [done|congruence].
Qed.

Lemma register_spec port v w (Q : () -> W -> Prop) : hw_ok w -> dv_phase (drive w) = Idle -> 0x1f2 <= port <= 0x1f6 -> is_byte v ->
  (port = 0x1f6 -> Z.testbit v 4 = Ata.slave self) ->
  (forall w', hw_ok w' -> drive w' = drive w <| dv_regs ::= set_reg port v |> -> Q () w') -> wp (out8 port v) Q w.
Proof. intros Hw Hi Hp Hv Hs HQ. eapply wp_mono; [by apply hw_register|]. intros [] w' [? ?]. by apply HQ. Qed.

Lemma head_low x y : Z.land x 15 = 0 -> Z.land (Z.lor x (Z.land (y mod 256) 0x0f)) 0x0f = y mod 16.
Proof.
  intros Hx. rewrite Z.land_lor_distr_l, Hx, Z.lor_0_l, <-Z.land_assoc, Z.land_diag. change 15 with (Z.ones 4). rewrite Z.land_ones by lia.
  change 256 with (16 * 16). change (2 ^ 4) with 16. rewrite Z.rem_mul_r by lia. rewrite Z.mul_comm, Z.mod_add by lia. by rewrite Z.mod_mod.
Qed.

Lemma head_high x y : Z.land (Z.lor x (Z.land y 0x0f)) 0xf0 = Z.land x 0xf0.
Proof. rewrite Z.land_lor_distr_l, <-Z.land_assoc. change (Z.land 15 240) with 0. by rewrite Z.land_0_r, Z.lor_0_r. Qed.

Lemma lba_split b : 0 <= b < 2 ^ 28 ->
  (Z.shiftr b 24 mod 16) * 2 ^ 24 + (Z.shiftr b 16 mod 256) * 2 ^ 16 + (Z.shiftr b 8 mod 256) * 2 ^ 8 + b mod 256 = b.
Proof. intros Hb. rewrite !Z.shiftr_div_pow2 by lia. Z.to_euclidean_division_equations. lia. Qed.

Lemma drive_head_byte b : is_byte (Ata.drive_head self b).
Proof.
  unfold Ata.drive_head. set (x := Z.land _ 15). assert (0 <= x < 16) as Hx by (subst x; change 15 with (Z.ones 4); rewrite Z.land_ones by lia; by apply Z.mod_pos_bound).
  unfold is_byte. destruct (Ata.slave self); cbn [Z.b2z]; assert (x ∈ seqZ 0 16) as Hin by (apply elem_of_seqZ; lia); clearbody x; clear Hx;
    repeat (apply elem_of_cons in Hin as [->|Hin]; [done|]); by apply elem_of_nil in Hin.
Qed.

(** The registers that select the sector. *)
Lemma registers_select b r : 0 <= b < 2 ^ 28 ->
  let r := set_reg Ata.LBA_HIGH (Z.shiftr b 16 mod 256) (set_reg Ata.LBA_MID (Z.shiftr b 8 mod 256) (set_reg Ata.LBA_LOW (b mod 256)
    (set_reg Ata.SECTOR_COUNT 1 (set_reg Ata.DRIVE (Ata.drive_head self b) r)))) in
  selects (Ata.slave self) r /\ lba_of r = b.
Proof.
  intros Hb. unfold selects, lba_of, set_reg. cbn. unfold Ata.drive_head. split.
  - split; [|done]. rewrite head_high. by destruct (Ata.slave self).
  - rewrite head_low by (by destruct (Ata.slave self)). by apply lba_split.
Qed.

Lemma byte_mod x : is_byte (x mod 256).
Proof. unfold is_byte. pose proof (Z.mod_pos_bound x 256). lia. Qed.

Lemma drive_head_slave b : Z.testbit (Ata.drive_head self b) 4 = Ata.slave self.
Proof. unfold Ata.drive_head. rewrite !Z.lor_spec, Z.land_spec. change (Z.testbit 15 4) with false. rewrite andb_false_r. by destruct (Ata.slave self). Qed.

Lemma poll_limit : exists n, Z.to_nat Ata.POLL_LIMIT = S n.
Proof. exists (Nat.pred (Z.to_nat Ata.POLL_LIMIT)). unfold Ata.POLL_LIMIT. lia. Qed.

(** The drive will hand out the next sector that is read. *)
Definition will_read (next : list Z * bool) : Prop :=
  Forall plain next.1 /\ (length next.1 < Z.to_nat Ata.POLL_LIMIT)%nat /\ next.2 = true.

(** [transfer_setup] for a read. *)
Lemma setup_spec b w : hw_ok w -> dv_phase (drive w) = Idle -> 0 <= b < Ata.blocks self -> b < 2 ^ 28 -> Ata.blocks self <= dv_size (drive w) ->
  wp (Ata.transfer_setup self b Ata.COMMAND_READ_SECTORS) (fun r w' => hw_ok w' /\ dv_sectors (drive w') = dv_sectors (drive w) /\
    (is_ok r = true <-> will_read (dv_next (drive w))) /\ (is_ok r = true -> dv_phase (drive w') = DataIn (dv_sectors (drive w) b))) w.
Proof.
  intros Hw Hi Hb H28 Hsize. unfold Ata.transfer_setup.
  replace ((Ata.blocks self <=? b) || (0x0fffffff <? b)) with false by (symmetry; apply orb_false_iff; rewrite Z.leb_gt, Z.ltb_ge; lia).
  apply wp_try. destruct poll_limit as [n En]. unfold Ata.wait_ready, Ata.poll_status. rewrite En.
  eapply wp_mono; [by apply wait_idle|]. intros r w1 (H1 & E1 & Hr). destruct r as [st|]; [|done]. rewrite <-E1 in Hi.
  rewrite wp_bind. apply register_spec; [done|done|done|apply drive_head_byte|intros _; apply drive_head_slave|]. intros w2 H2 E2.
  rewrite wp_bind. apply register_spec; [done|by rewrite E2|done|done|done|]. intros w3 H3 E3.
  rewrite wp_bind. apply register_spec; [done|by rewrite E3, E2|done|apply byte_mod|done|]. intros w4 H4 E4.
  rewrite wp_bind. apply register_spec; [done|by rewrite E4, E3, E2|done|apply byte_mod|done|]. intros w5 H5 E5.
  rewrite wp_bind. apply register_spec; [done|by rewrite E5, E4, E3, E2|done|apply byte_mod|done|]. intros w6 H6 E6.
  destruct (registers_select b (dv_regs (drive w)) ltac:(lia)) as [Hsel Hlba].
  rewrite E1 in E2. rewrite E2 in E3. rewrite E3 in E4. rewrite E4 in E5. rewrite E5 in E6. cbn in E6.
  rewrite wp_bind. eapply wp_mono; [apply hw_read_command; [done|rewrite E6; cbn; by rewrite <-E1|by rewrite E6|rewrite E6; cbn; rewrite Hlba; lia]|].
  intros _ w7 (H7 & next & E7). apply wp_try. rewrite E6 in E7. cbn in E7. rewrite Hlba in E7.
  unfold Ata.wait_data, Ata.poll_status. eapply wp_mono; [apply (poll_reading _ w7 b (dv_next (drive w)).1 (dv_next (drive w)).2);
    [done|by rewrite E7|by apply hw_busy]|].
  intros r w8 (H8 & ph & E8 & Hiff & Hdata). unfold will_read. rewrite E7 in Hdata, E8. cbn in Hdata, E8.
  destruct r as [st2|e]; rewrite ?wp_ret; (split; [done|]); (split; [by rewrite E8|]); (split; [exact Hiff|]); [|done].
  intros _. rewrite E8. by apply Hdata.
Qed.

Lemma read_words_spec n : forall w bs, hw_ok w -> dv_phase (drive w) = DataIn bs -> length bs = (2 * S n)%nat ->
  wp (Ata.read_words (S n)) (fun r w' => hw_ok w' /\ dv_sectors (drive w') = dv_sectors (drive w) /\ dv_phase (drive w') = Idle /\ r = bs) w.
Proof.
  induction n as [|n IH]; intros w bs Hw Hp Hl; (destruct bs as [|a [|b bs]]; [cbn in Hl; lia..|]);
    cbn [Ata.read_words]; rewrite wp_bind; (eapply wp_mono; [by eapply hw_data_in|]); intros word w1 (H1 & Ew & E1); rewrite wp_bind.
  - destruct bs; [|cbn in Hl; lia]. cbn [Ata.read_words]. rewrite wp_ret, wp_ret, Ew. by rewrite E1.
  - assert (dv_phase (drive w1) = DataIn bs) as Hp1 by (rewrite E1; destruct bs; [cbn in Hl; lia|done]).
    eapply wp_mono; [apply (IH w1 bs); [done|done|cbn in Hl; lia]|]. intros rest w2 (H2 & S2 & P2 & ->).
    rewrite wp_ret, Ew. split_and!; [done| |done|done]. by rewrite S2, E1.
Qed.

(** C28. Reading a sector.  On an idle drive that follows the ATA protocol and is
    at least as large as the driver takes it to be, [read_block] ends and leaves
    the sectors as they are.  A sector out of the driver's range, or above 28
    bits, is refused without touching the drive.  Otherwise it succeeds exactly
    when the drive carries the read out, shows no error bit while it is busy,
    and is busy for less than a million polls; then it returns the 512 bytes of
    the sector and the drive is idle again.  But once a command has failed, every
    later read and write fails too, without a command being sent: the error bits
    are taken for those of a new command. *)
Theorem ata_read_exact w b : hw_ok w -> 0 <= b -> Ata.blocks self <= dv_size (drive w) ->
  (dv_phase (drive w) = Idle ->
   wp (Ata.read_block self b) (fun r w' => hw_ok w' /\ dv_sectors (drive w') = dv_sectors (drive w) /\
     if bool_decide (b < Ata.blocks self /\ b < 2 ^ 28)
     then (is_ok r = true <-> will_read (dv_next (drive w))) /\
          (is_ok r = true -> r = Ok (dv_sectors (drive w) b) /\ length (dv_sectors (drive w) b) = 512%nat /\ dv_phase (drive w') = Idle)
     else r = Err Block.OutOfRange /\ w' = w) w) /\
  (dv_phase (drive w) = Failed ->
   wp (Ata.read_block self b) (fun r w' => is_ok r = false /\ hw_ok w' /\ drive w' = drive w) w /\
   forall bs, wp (Ata.write_block self b bs) (fun r w' => is_ok r = false /\ hw_ok w' /\ drive w' = drive w) w).
Proof.
  intros Hw Hb Hsize. split; [intros Hi|intros Hf; split; [|intros bs]].
  - unfold Ata.read_block. apply wp_try. case_bool_decide as Hd.
    + destruct Hd as [Hd H28]. eapply wp_mono; [apply setup_spec; [done|done|lia|lia|lia]|]. intros r w1 (H1 & S1 & Hiff & Hr). destruct r as [[]|e]; [|done].
      specialize (Hr eq_refl). pose proof (hw_sectors w b Hw ltac:(lia)) as [Hl _]. rewrite wp_bind. change (BLOCK_SIZE / 2)%nat with 256%nat.
      eapply wp_mono; [apply (read_words_spec 255 w1 _ H1 Hr); by rewrite Hl|]. intros bs w2 (H2 & S2 & P2 & ->).
      rewrite wp_bind. eapply wp_mono; [by apply delay_spec|]. intros _ w3 [H3 E3]. rewrite wp_ret. rewrite E3, S2, S1. split_and!; [done|done|exact Hiff|done].
    + unfold Ata.transfer_setup. replace ((Ata.blocks self <=? b) || (0x0fffffff <? b)) with true; [done|].
      symmetry. apply orb_true_iff. rewrite Z.leb_le, Z.ltb_lt. lia.
  - unfold Ata.read_block. apply wp_try. unfold Ata.transfer_setup. destruct (_ || _); [done|]. apply wp_try. unfold Ata.wait_ready, Ata.poll_status.
    eapply wp_mono; [by apply poll_failed|]. intros [st|e] w1 (H1 & E1 & Hr); done.
  - unfold Ata.write_block. apply wp_try. unfold Ata.transfer_setup. destruct (_ || _); [done|]. apply wp_try. unfold Ata.wait_ready, Ata.poll_status.
    eapply wp_mono; [by apply poll_failed|]. intros [st|e] w1 (H1 & E1 & Hr); done.
Qed.
End driver.

(** ** A drive *)

(** A drive that is busy for one poll and reads every sector. *)
Definition sim_status (d : Drive) : Z * Drive :=
  match dv_phase d with
  | Idle => (0x50, d)
  | Reading lba (st :: busy) ok => (st, d <| dv_phase := Reading lba busy ok |>)
  | Reading lba [] true => (0x58, d <| dv_phase := DataIn (dv_sectors d lba) |>)
  | Reading lba [] false => (0x51, d <| dv_phase := Failed |>)
  | DataIn _ => (0x58, d)
  | Failed => (0x51, d)
  end.

Definition sim_in8 (port : Z) : M Drive Z := fun d => if port =? 0x1f7 then Done (sim_status d) else Done (0x50, d).

Definition sim_command (v : Z) (d : Drive) : Drive :=
  if v =? 0x20 then d <| dv_phase := Reading (lba_of (dv_regs d)) (dv_next d).1 (dv_next d).2 |> <| dv_next := ([0x80], true) |>
  else d <| dv_phase := Failed |>.

Definition sim_out8 (port v : Z) : M Drive () := fun d =>
  Done ((), if port =? 0x1f7 then sim_command v d else if port =? 0x3f6 then d else d <| dv_regs ::= set_reg port v |>).

Definition sim_in16 (port : Z) : M Drive Z := fun d =>
  match dv_phase d with
  | DataIn (a :: b :: rest) => Done (le_value [a; b], d <| dv_phase := match rest with [] => Idle | _ => DataIn rest end |>)
  | _ => Done (0, d)
  end.

Definition sim_out16 (port v : Z) : M Drive () := fun d => Done ((), d).

#[export] Instance sim_ports : Ports Drive := {| in8 := sim_in8; out8 := sim_out8; in16 := sim_in16; out16 := sim_out16 |}.

Record sim_drive_ok (d : Drive) : Prop := {
  sim_blocks : forall b, block_ok (dv_sectors d b);
  sim_busy : Forall (fun st => BSY st = true) (dv_next d).1;
  sim_rest : match dv_phase d with DataIn rest => Forall is_byte rest | _ => True end;
}.

Lemma le_pair a b : is_byte a -> is_byte b -> le_bytes 2 (le_value [a; b]) = [a; b].
Proof. unfold is_byte. intros Ha Hb. cbn. repeat f_equal; Z.to_euclidean_division_equations; lia. Qed.

#[export] Program Instance sim_drive : AtaDrive Drive true := {| hw_ok := sim_drive_ok; drive d := d |}.
Next Obligation. intros d b Hd _. apply (sim_blocks d Hd). Qed.
Next Obligation. intros d Hd. apply (sim_busy d Hd). Qed.
Next Obligation.
  intros d [H1 H2 H3]. unfold wp. cbn. unfold sim_status, status_read.
  destruct (dv_phase d) as [|lba [|st busy] [|]|rest|] eqn:Ep; cbn; rewrite ?Ep; (split; [split; cbn; rewrite ?Ep; auto; apply H1|]); auto 10.
Qed.
Next Obligation. intros d Hd. done. Qed.
Next Obligation.
  intros d port v [H1 H2 H3] Hi Hp _ _. unfold wp. cbn. unfold sim_out8.
  destruct (Z.eqb_spec port 0x1f7); [lia|]. destruct (Z.eqb_spec port 0x3f6); [lia|]. by split.
Qed.
Next Obligation.
  intros d [H1 H2 H3] _ _ _. unfold wp. cbn. split; [|eexists; by destruct d]. split; cbn; [done|by apply Forall_singleton|done].
Qed.
Next Obligation.
  intros d a b rest [H1 H2 H3] Hp. rewrite Hp in H3. apply Forall_cons in H3 as [Ha [Hb H3]%Forall_cons].
  unfold wp. cbn. unfold sim_in16. rewrite Hp. split_and!; [split; cbn; [done|done|by destruct rest]|by apply le_pair|done].
Qed.

Definition demo_drive : Drive := mkDrive 2048 (fun b => replicate BLOCK_SIZE (b mod 256)) (fun _ => 0) Idle ([0x80], true).

Lemma ata_read_exact_witness :
  wp (Ata.read_block (Ata.primary_slave 2048) 7) (fun r w' => r = Ok (replicate BLOCK_SIZE 7) /\ dv_phase w' = Idle) demo_drive.
Proof.
  assert (hw_ok demo_drive) as Hw.
  { split; [intros b; split; [apply length_replicate|]|apply Forall_singleton; reflexivity|exact I].
    apply Forall_replicate. unfold is_byte. pose proof (Z.mod_pos_bound b 256). lia. }
  destruct (ata_read_exact (Ata.primary_slave 2048) demo_drive 7 Hw) as [Hr _]; [discriminate|discriminate|].
  eapply wp_mono; [apply Hr; reflexivity|]. intros r w' (_ & _ & H). rewrite bool_decide_eq_true_2 in H by (split; reflexivity).
  destruct H as [Hok H]. destruct H as (-> & _ & Hi); [|split; [reflexivity|exact Hi]].
  apply Hok. split; [apply Forall_singleton; split; reflexivity|]. split; [|reflexivity]. change (1 < Z.to_nat 1000000)%nat. lia.
Defined.
