(* ===== verification/PersistProofs.v ===== *)
(** * The persistent file system refines a tree of files

    A volume holds a tree ([holds]).  Creating, removing and renaming change
    one block of the directory, so that even when a request to the disk fails
    the volume holds the old tree or the new one. *)

From stdpp Require Import gmap.
From S2P Require Import Prelude Utf8 Paths Vfs RamFs RamFsProofs FsLaws Text Storage Tree Persist PersistCodec PersistDisk.
Import Persist.

Implicit Types (v : volume) (es : entries) (t : tree).

(** ** The tree on a volume *)

Record entry_ok (slot : nat) (e : DirectoryEntry) : Prop := {
  eo_fits : fits e;
  eo_slot : de_slot e = slot;
  eo_inode : de_inode e = Z.of_nat slot + 2;
  eo_len : (de_len e <= MAX_FILE_SIZE)%nat;
  eo_utf8 : utf8 (nm e);
  eo_no_slash : SLASH ∉ nm e;
}.

Definition entries_ok es : Prop := forall k e, es !! k = Some (Some e) -> entry_ok k e.

Definition node_of v (e : DirectoryEntry) : tnode :=
  mkTnode (de_parent e) (nm e) (de_file_type e) (match de_file_type e with File => file_data v (de_slot e) | Directory => [] end) (de_len e).

Definition tree_of v es : tree := omap (fun o => node_of v <$> o) (map_seqZ 2 es : gmap Z (option DirectoryEntry)).

Definition header_ok v : Prop := take 8 (v 0) = MAGIC /\ le_value (take 4 (drop 8 (v 0))) = VERSION.

Record holds_with es t v : Prop := {
  ho_vol : vol v es;
  ho_entries : entries_ok es;
  ho_tree : t = tree_of v es;
  ho_ok : tree_ok 1 t;
  ho_header : header_ok v;
}.
Definition holds t v : Prop := exists es, holds_with es t v.

Lemma tree_of_lookup v es i : tree_of v es !! i = if 2 <=? i then o ← es !! Z.to_nat (i - 2); node_of v <$> o else None.
Proof.
  unfold tree_of. rewrite lookup_omap, lookup_map_seqZ. destruct (Z.leb_spec 2 i) as [Hi|Hi].
  - rewrite option_guard_True by done. cbn. by destruct (es !! _).
  - rewrite option_guard_False by lia. done.
Qed.

Lemma tree_of_Some v es i n : tree_of v es !! i = Some n <-> exists k e, i = Z.of_nat k + 2 /\ es !! k = Some (Some e) /\ n = node_of v e.
Proof.
  rewrite tree_of_lookup. destruct (Z.leb_spec 2 i) as [Hi|Hi]; [|split; [done|intros (k & e & -> & _); lia]]. split.
  - destruct (es !! Z.to_nat (i - 2)) as [[e|]|] eqn:E; cbn; [|done..]. intros [= <-]. exists (Z.to_nat (i - 2)), e. split; [lia|done].
  - intros (k & e & -> & E & ->). replace (Z.to_nat (Z.of_nat k + 2 - 2)) with k by lia. by rewrite E.
Qed.

Lemma tree_of_put v es k o : (k < length es)%nat ->
  tree_of v (<[k := o]> es) = match o with Some e => <[Z.of_nat k + 2 := node_of v e]> (tree_of v es) | None => delete (Z.of_nat k + 2) (tree_of v es) end.
Proof.
  intros Hk. apply map_eq. intros i. rewrite tree_of_lookup. destruct (decide (i = Z.of_nat k + 2)) as [->|Hne].
  - replace (2 <=? Z.of_nat k + 2) with true by (symmetry; apply Z.leb_le; lia). replace (Z.to_nat (Z.of_nat k + 2 - 2)) with k by lia.
    rewrite list_lookup_insert_eq by done. destruct o as [e|]; cbn; [by rewrite lookup_insert_eq|by rewrite lookup_delete_eq].
  - assert (match o with Some e => <[Z.of_nat k + 2 := node_of v e]> (tree_of v es) | None => delete (Z.of_nat k + 2) (tree_of v es) end !! i = tree_of v es !! i) as ->.
    { destruct o; [by rewrite lookup_insert_ne|by rewrite lookup_delete_ne]. }
    rewrite tree_of_lookup. destruct (Z.leb_spec 2 i); [|done]. by rewrite list_lookup_insert_ne by lia.
Qed.

(** Only the data of the files counts. *)
Lemma tree_of_data v v' es : entries_ok es -> (forall k e, es !! k = Some (Some e) -> de_file_type e = File -> file_data v' k = file_data v k) ->
  tree_of v' es = tree_of v es.
Proof.
  intros Hes Hd. apply map_eq. intros i. rewrite !tree_of_lookup. destruct (2 <=? i); [|done].
  destruct (es !! Z.to_nat (i - 2)) as [[e|]|] eqn:E; [|done..]. cbn. f_equal. unfold node_of. rewrite (eo_slot _ _ (Hes _ _ E)).
  destruct (de_file_type e) eqn:Et; [|done]. by rewrite (Hd _ _ E Et).
Qed.

Lemma holds_with_same es t v v' : same v v' -> holds_with es t v -> holds_with es t v'.
Proof.
  intros Hs [H1 H2 H3 H4 H5]. split; [by eapply vol_same|done| |done|].
  - rewrite H3. symmetry. apply tree_of_data; [done|]. intros k e _ _. by apply file_data_same.
  - unfold header_ok. by rewrite Hs.
Qed.

Lemma holds_same t v v' : same v v' -> holds t v -> holds t v'.
Proof. intros Hs [es Hh]. exists es. by eapply holds_with_same. Qed.

(** ** The code reads the tree *)

Section reading.
Context es t v (Hh : holds_with es t v).
Let Hes := ho_entries es t v Hh.

Lemma tree_Some i n : t !! i = Some n <-> exists k e, i = Z.of_nat k + 2 /\ es !! k = Some (Some e) /\ n = node_of v e.
Proof. rewrite (ho_tree es t v Hh). apply tree_of_Some. Qed.

Lemma in_tree k e : es !! k = Some (Some e) -> t !! de_inode e = Some (node_of v e).
Proof. intros E. apply tree_Some. exists k, e. by rewrite (eo_inode k e (Hes k e E)). Qed.

Lemma elem_of_flatten e : e ∈ flatten es <-> exists k, es !! k = Some (Some e).
Proof.
  unfold flatten. rewrite list_elem_of_omap. split.
  - intros (o & [k Hk]%list_elem_of_lookup & Ho). cbn in Ho. subst o. by exists k.
  - intros [k Hk]. exists (Some e). split; [by apply list_elem_of_lookup_2 in Hk|done].
Qed.

Lemma entry_of e : e ∈ flatten es -> exists k, es !! k = Some (Some e) /\ entry_ok k e.
Proof. rewrite elem_of_flatten. intros [k Hk]. eauto. Qed.

Lemma entry_name_ok e : e ∈ flatten es -> entry_name e = Done (nm e).
Proof.
  intros (k & _ & [[H1 _ H2 _ _ _] _ _ _ H3%utf8_valid_spec _])%entry_of. unfold entry_name. rewrite slice_ok by lia. run.
  rewrite Nat.sub_0_r, drop_0. fold (nm e). unfold from_utf8_or_empty. by rewrite H3.
Qed.

Lemma nm_nonempty e : e ∈ flatten es -> nm e <> [].
Proof.
  intros (k & _ & [[H1 _ H2 _ _ _] _ _ _ _ _])%entry_of E. apply (f_equal length) in E. unfold nm in E. rewrite length_take in E. cbn in E. lia.
Qed.

Lemma edge_iff p c i : edge t p c i <-> exists e, e ∈ flatten es /\ de_parent e = p /\ nm e = c /\ de_inode e = i.
Proof.
  unfold edge. setoid_rewrite tree_Some. split.
  - intros (n & (k & e & -> & E & ->) & H1 & H2). exists e. split; [apply elem_of_flatten; eauto|]. by rewrite (eo_inode k e (Hes k e E)).
  - intros (e & (k & E & He)%entry_of & <- & <- & <-). exists (node_of v e). split; [|done]. exists k, e. by rewrite (eo_inode k e He).
Qed.

Lemma entry_inj e e' : e ∈ flatten es -> e' ∈ flatten es -> de_inode e = de_inode e' -> e = e'.
Proof.
  intros (k & E & He)%entry_of (k' & E' & He')%entry_of. rewrite (eo_inode k e He), (eo_inode k' e' He'). intros Hk.
  assert (k = k') as <- by lia. congruence.
Qed.

Lemma child_ok p c : exists o, child es p c = Done o /\
  match o with Some e => e ∈ flatten es /\ edge t p c (de_inode e) | None => forall i, ~ edge t p c i end.
Proof.
  assert (forall l, (forall e, e ∈ l -> e ∈ flatten es) ->
    findM (fun e => if de_parent e =? p then s ← entry_name e; mret (bytes_eqb s c) else mret false) l =
    Done (List.find (fun e => (de_parent e =? p) && bytes_eqb (nm e) c) l)) as Hfind.
  { induction l as [|e l IH]; intros Hl; cbn [findM List.find]; [done|]. assert (e ∈ flatten es) as He by (apply Hl, list_elem_of_here).
    specialize (IH (fun e' H => Hl e' (list_elem_of_further _ _ _ H))). destruct (de_parent e =? p); cbn [andb].
    - rewrite (entry_name_ok e He). run. destruct (bytes_eqb (nm e) c); [done|exact IH].
    - run. exact IH. }
  unfold child. rewrite Hfind by done. eexists. split; [reflexivity|]. destruct (List.find _ (flatten es)) as [e|] eqn:E.
  - apply find_Some in E as [He [Hp%Z.eqb_eq Hc%bytes_eqb_eq]%andb_true_iff]. split; [done|]. apply edge_iff. by exists e.
  - intros i (e & He & Hp & Hc & _)%edge_iff. rewrite find_None in E. specialize (E e He).
    by rewrite (proj2 (Z.eqb_eq _ _) Hp), (proj2 (bytes_eqb_eq _ _) Hc) in E.
Qed.
End reading.

(** ** Paths *)

(** The components of the text of a path. *)
Definition parse_path (path : bytes) : option (Datatypes.list bytes) :=
  if bytes_eqb path [SLASH] then Some [] else split_on SLASH <$> strip_prefix path [SLASH].

Definition leads t (path : bytes) (i : Z) : Prop := exists cs, parse_path path = Some cs /\ walk t 1 cs i.

(** The text of a path. *)
Definition vol_path (cs : Datatypes.list bytes) : bytes := match cs with [] => [SLASH] | _ => concat (map (cons SLASH) cs) end.

Lemma parse_vol_path cs : Forall (fun c => SLASH ∉ c /\ c <> []) cs -> parse_path (vol_path cs) = Some cs.
Proof.
  intros Hcs. destruct cs as [|c cs]; [done|]. unfold parse_path. cbn [vol_path map concat].
  replace (bytes_eqb _ [SLASH]) with false.
  - change (strip_prefix ((SLASH :: c) ++ concat (map (cons SLASH) cs)) [SLASH]) with (Some (c ++ concat (map (cons SLASH) cs))).
    cbn [fmap option_fmap option_map]. rewrite split_relative; [done|]. eapply Forall_impl; [exact Hcs|]. by intros ? [? _].
  - symmetry. apply bytes_eqb_neq. intros E. injection E as E. apply app_eq_nil in E as [-> _]. by apply Forall_cons in Hcs as [[_ ?] _].
Qed.

Lemma leads_vol_path t cs i : Forall (fun c => SLASH ∉ c /\ c <> []) cs -> leads t (vol_path cs) i <-> walk t 1 cs i.
Proof. intros Hcs. unfold leads. rewrite parse_vol_path by done. split; [by intros (? & [= <-] & ?)|eauto]. Qed.

Lemma leads_fun t path i j : tree_ok 1 t -> leads t path i -> leads t path j -> i = j.
Proof. intros Ht (cs & E & Hi) (cs' & E' & Hj). simplify_eq. by apply (walk_unique 1 t 1 cs). Qed.

(** The parent and the name of a path. *)
Lemma split_parent_vol_path cs c : SLASH ∉ c ->
  split_parent_name (vol_path (cs ++ [c])) =
  Done (if bytes_eqb c [] then Err InvalidPath else if (MAX_NAME_LEN <? length c)%nat then Err NameTooLong else Ok (vol_path cs, c)).
Proof.
  intros Hc. assert (vol_path (cs ++ [c]) = concat (map (cons SLASH) cs) ++ SLASH :: c) as ->.
  { transitivity (concat (map (cons SLASH) (cs ++ [c]))); [by destruct cs|]. rewrite map_app, concat_app. cbn. by rewrite app_nil_r. }
  unfold split_parent_name. set (pre := concat (map (cons SLASH) cs)).
  assert (is_some (strip_prefix (pre ++ SLASH :: c) [SLASH]) = true) as -> by (unfold pre; by destruct cs). cbn [negb orb].
  destruct (bytes_eqb (pre ++ SLASH :: c) [SLASH]) eqn:E.
  { apply bytes_eqb_eq in E. destruct pre as [|x pre]; [|by destruct pre]. injection E as ->. done. }
  rewrite rfind_last by done. cbn [ok_or try_]. destruct (length pre =? 0)%nat eqn:El.
  - apply Nat.eqb_eq, length_zero_iff_nil in El. assert (cs = []) as -> by (unfold pre in El; by destruct cs). rewrite El. run.
    rewrite (slice_tail [] c SLASH). by repeat case_match.
  - run. rewrite slice_head, slice_tail. assert (vol_path cs = pre) as -> by (unfold pre; by destruct cs). by repeat case_match.
Qed.

(** [path] is [parent/c], where [c] is a name: not empty, not too long, without a slash. *)
Definition names (path parent c : bytes) : Prop :=
  c <> [] /\ (length c <= MAX_NAME_LEN)%nat /\ SLASH ∉ c /\
  exists a, path = a ++ SLASH :: c /\ ((a = [] /\ parent = [SLASH]) \/ (head a = Some SLASH /\ parent = a)).

Lemma split_parent_iff path parent c : split_parent_name path = Done (Ok (parent, c)) <-> names path parent c.
Proof.
  unfold names. split.
  - unfold split_parent_name. destruct (negb _ || _) eqn:E0; [done|]. apply orb_false_iff in E0 as [Ep%negb_false_iff _].
    destruct (rfind SLASH path) as [k|] eqn:Er; [|done]. apply rfind_Some in Er as (a & d & -> & <- & Hd). cbn [ok_or try_]. run.
    rewrite slice_head, slice_tail. destruct (Nat.eqb_spec (length a) 0) as [Ha|Ha];
      (destruct (bytes_eqb d []) eqn:Ed; [done|]); (destruct (Nat.ltb_spec MAX_NAME_LEN (length d)); [done|]); intros [= <- <-];
      apply bytes_eqb_neq in Ed; (split_and!; [done..|]); exists a; (split; [done|]).
    + left. by apply length_zero_iff_nil in Ha.
    + right. split; [|done]. destruct a as [|x a]; [done|].
      destruct (strip_prefix ((x :: a) ++ SLASH :: d) [SLASH]) as [r|] eqn:Es; [|done]. apply strip_prefix_Some in Es. by injection Es as ->.
  - intros (Hne & Hlen & Hc & a & -> & Ha).
    assert (is_some (strip_prefix (a ++ SLASH :: c) [SLASH]) = true) as Ep.
    { destruct Ha as [[-> _]|[Ha _]]; [done|]. destruct a; [done|]. injection Ha as ->. done. }
    assert (bytes_eqb (a ++ SLASH :: c) [SLASH] = false) as Es.
    { apply bytes_eqb_neq. intros E. destruct a as [|x a]; [by injection E|]. injection E as _ E. by destruct a. }
    unfold split_parent_name. rewrite Ep, Es, rfind_last by done. cbn [negb orb ok_or try_]. run. rewrite slice_head, slice_tail.
    rewrite (proj2 (bytes_eqb_neq c []) Hne), (proj2 (Nat.ltb_ge _ _) Hlen).
    destruct Ha as [[-> ->]|[Ha ->]]; [done|]. by destruct a.
Qed.

Lemma split_parent_ok path : utf8 path -> exists r, split_parent_name path = Done r /\
  match r with Ok (_, c) => (1 <= length c <= MAX_NAME_LEN)%nat /\ SLASH ∉ c /\ utf8 c | Err e => e = InvalidPath \/ e = NameTooLong end.
Proof.
  intros Hu. unfold split_parent_name. destruct (_ || _) eqn:E0; [eexists; split; [done|by left]|].
  destruct (rfind SLASH path) as [k|] eqn:Er; [|eexists; split; [done|by left]]. apply rfind_Some in Er as (a & c & -> & <- & Hc).
  cbn [ok_or try_]. apply utf8_split in Hu as [_ Hu]; [|done]. run. rewrite slice_head, slice_tail.
  destruct (length a =? 0)%nat; (destruct (bytes_eqb c []) eqn:Ec; [eexists; split; [done|by left]|]);
    (destruct (Nat.ltb_spec MAX_NAME_LEN (length c)); [eexists; split; [done|by right]|]); (eexists; split; [done|]);
    apply bytes_eqb_neq in Ec; (split; [|done]); (split; [|done]); destruct c; cbn; [done|lia|done|lia].
Qed.

Section resolving.
Context es t v (Hh : holds_with es t v).

Lemma resolve_components_ok p cs : exists o, resolve_components es p cs = Done o /\
  match o with Some i => walk t p cs i | None => forall i, ~ walk t p cs i end.
Proof using Hh.
  revert p. induction cs as [|c cs IH]; intros p; cbn [resolve_components]; [eexists; split; [done|constructor]|].
  destruct (bytes_eqb c []) eqn:Ec.
  - apply bytes_eqb_eq in Ec as ->. eexists. split; [done|]. cbn. intros i Hw. inversion Hw as [|? ? k ? ? He _]; subst.
    apply (edge_iff es t v Hh) in He as (e & He & _ & Hn & _). by apply (nm_nonempty es t v Hh) in He.
  - destruct (child_ok es t v Hh p c) as (o & -> & Ho). run. destruct o as [e|].
    + destruct Ho as [_ He]. destruct (IH (de_inode e)) as (o & -> & Ho). eexists. split; [done|]. destruct o as [i|].
      * by econstructor.
      * intros i Hw. inversion Hw as [|? ? k ? ? He' Hw']; subst. rewrite (to_names 1 t (ho_ok es t v Hh) p c _ _ He' He) in Hw'. by apply (Ho i).
    + eexists. split; [done|]. intros i Hw. inversion Hw as [|? ? k ? ? He _]; subst. by apply (Ho k).
Qed.

Lemma resolve_leads path : exists o, resolve_path es path = Done o /\
  match o with Some i => leads t path i | None => forall i, ~ leads t path i end.
Proof using Hh.
  unfold resolve_path, leads, parse_path. destruct (bytes_eqb path [SLASH]); [eexists; split; [done|]; eexists; split; [done|constructor]|].
  destruct (strip_prefix path [SLASH]) as [rest|]; [|eexists; split; [done|]; by intros i (cs & ? & _)].
  destruct (resolve_components_ok 1 (split_on SLASH rest)) as (o & -> & Ho). eexists. split; [done|].
  destruct o as [i|]; [eauto|]. intros i (cs & [= <-] & Hw). by apply (Ho i).
Qed.

Lemma find_inode_Some i e : find_inode es i = Some e <-> e ∈ flatten es /\ de_inode e = i.
Proof using Hh.
  unfold find_inode. split.
  - intros [He Hi%Z.eqb_eq]%find_Some. done.
  - intros [He Hi]. destruct (List.find _ (flatten es)) as [e'|] eqn:E.
    + apply find_Some in E as [He' Hi'%Z.eqb_eq]. f_equal. apply (entry_inj es t v Hh); [done..|congruence].
    + rewrite find_None in E. specialize (E e He). by rewrite Hi, Z.eqb_refl in E.
Qed.

Lemma find_inode_tree i : match find_inode es i with
  | Some e => e ∈ flatten es /\ de_inode e = i /\ t !! i = Some (node_of v e)
  | None => t !! i = None
  end.
Proof using Hh.
  destruct (find_inode es i) as [e|] eqn:E.
  - apply find_inode_Some in E as [He <-]. split_and!; [done..|]. apply elem_of_flatten in He as [k Hk]. by eapply in_tree.
  - destruct (t !! i) as [n|] eqn:En; [|done]. apply (tree_Some es t v Hh) in En as (k & e & -> & Hk & ->).
    assert (find_inode es (Z.of_nat k + 2) = Some e); [|congruence]. apply find_inode_Some. split; [apply elem_of_flatten; eauto|].
    by apply (eo_inode k e), (ho_entries es t v Hh).
Qed.

Lemma not_a_directory_spec i : not_a_directory es i = false <-> directory 1 t i.
Proof using Hh.
  unfold not_a_directory, directory. rewrite andb_false_iff, negb_false_iff, Z.eqb_eq. apply or_iff_compat_l.
  pose proof (find_inode_tree i) as Hi. destruct (find_inode es i) as [e|].
  - destruct Hi as (_ & _ & Hi). rewrite negb_false_iff. unfold FileType_eqb. rewrite bool_decide_eq_true. split; [eauto|].
    intros (n & Hn & Ht). rewrite Hi in Hn. by injection Hn as <-.
  - split; [done|]. intros (n & Hn & _). congruence.
Qed.

Lemma above_bound p l : above 1 t p l -> (length l <= MAX_FILES)%nat.
Proof using Hh.
  intros Ha. transitivity (length (seqZ 2 32)); [|done]. apply submseteq_length, NoDup_submseteq.
  - by eapply above_nodup, Ha; apply (ho_ok es t v Hh).
  - intros i Hi. destruct (above_suffix 1 t p l i Ha Hi) as (_ & l2 & _ & Ha'). assert (is_Some (t !! i)) as [n Hn] by (inversion Ha'; subst; eauto).
    apply (tree_Some es t v Hh) in Hn as (k & e & -> & Hk & _). apply elem_of_seqZ. apply lookup_lt_Some in Hk.
    rewrite (vo_len v es (ho_vol es t v Hh)), max_files in Hk. lia.
Qed.

Lemma is_descendant_spec p l i : above 1 t p l -> is_descendant es p i = Some (bool_decide (i ∈ l)).
Proof using Hh.
  intros Ha. pose proof (above_bound p l Ha) as Hl. unfold is_descendant. rewrite (vo_len v es (ho_vol es t v Hh)).
  assert (length l < S MAX_FILES)%nat as Hf by lia. clear Hl. revert Hf. generalize (S MAX_FILES) as f.
  assert (forall j n, t !! j = Some n -> j <> 1) as Hroot by (intros j n Hn ->; by rewrite (to_root 1 t (ho_ok es t v Hh)) in Hn).
  induction Ha as [|j n l Hn Ha IH]; intros [|f] Hf; [lia|done|cbn in Hf; lia|]. cbn [is_descendant_fuel].
  destruct (Z.eqb_spec j 1) as [->|_]; [by destruct (Hroot 1 n)|].
  destruct (Z.eqb_spec j i) as [->|Hne]; [rewrite bool_decide_eq_true_2; [done|apply list_elem_of_here]|].
  pose proof (find_inode_tree j) as Hj. destruct (find_inode es j) as [e|]; [|congruence]. destruct Hj as (_ & _ & Hj).
  rewrite Hj in Hn. injection Hn as <-. cbn [node_of tn_parent] in IH. rewrite IH by (cbn in Hf; lia).
  f_equal. apply bool_decide_ext. rewrite elem_of_cons. naive_solver.
Qed.
End resolving.

(** ** What the operations do to the tree *)

(** The disk has changed outside the directory and the files. *)
Lemma holds_free es t v v' slot : holds_with es t v -> es !! slot = Some None -> same_but slot v v' -> (forall b, in_disk b -> block_ok (v' b)) ->
  holds_with es t v'.
Proof.
  intros [H1 H2 H3 H4 H5] Hfree Hb Hbs. pose proof (lookup_lt_Some _ _ _ Hfree) as Hs. rewrite (vo_len v es H1) in Hs.
  assert (forall b, b <= 4 -> v' b = v b) as Hdir.
  { intros b Hle. apply Hb; [destruct (data_block_range slot 0 Hs ltac:(lia))|destruct (data_block_range slot 1 Hs ltac:(lia))]; lia. }
  split; [| done | |done|unfold header_ok; by rewrite Hdir].
  - destruct H1 as [V1 V2 V3]. split; [done|done|]. intros k o Hk. unfold slot_chunk. pose proof (lookup_lt_Some _ _ _ Hk) as Hlt. rewrite V2 in Hlt.
    rewrite Hdir by (pose proof (dir_block_range k Hlt); lia). by apply V3.
  - rewrite H3. symmetry. apply tree_of_data; [done|]. intros k e Hk _. unfold file_data.
    assert (k <> slot) as Hne by congruence.
    rewrite !Hb; [done|intros E; apply data_block_inj in E; [by destruct E|lia|lia]..].
Qed.

Lemma put_entry es t v slot e : holds_with es t v -> entry_ok slot e -> (slot < MAX_FILES)%nat ->
  tree_ok 1 (<[Z.of_nat slot + 2 := node_of v e]> t) ->
  holds_with (<[slot := Some e]> es) (<[Z.of_nat slot + 2 := node_of v e]> t) (dir_put v slot (encode e)).
Proof.
  intros [H1 H2 H3 H4 H5] He Hs Hok. pose proof (dir_block_range slot Hs) as Hr. pose proof (eo_fits _ _ He) as Hf.
  assert (forall b, ~ (1 <= b <= 4) -> dir_put v slot (encode e) b = v b) as Hout.
  { intros b Hb. unfold dir_put, vput. replace (b =? dir_block slot) with false; [done|]. symmetry. apply Z.eqb_neq. lia. }
  split.
  - apply vol_dir_put; [done|done|apply length_encode, Hf|apply encode_bytes, Hf|]. rewrite <-(eo_slot _ _ He). by apply decode_encode.
  - intros k e'. rewrite list_lookup_insert_Some. intros [(<- & [= <-] & _)|[_ Hk]]; [done|by apply H2].
  - rewrite H3. change (Some e) with (Some e). rewrite <-(tree_of_put v es slot (Some e)) by (by rewrite (vo_len v es H1)).
    symmetry. apply tree_of_data; [|].
    + intros k e'. rewrite list_lookup_insert_Some. intros [(<- & [= <-] & _)|[_ Hk]]; [done|by apply H2].
    + intros k e' Hk _. apply lookup_lt_Some in Hk. rewrite length_insert, (vo_len v es H1) in Hk. unfold file_data.
      rewrite !Hout; [done|destruct (data_block_range k 1 Hk ltac:(lia)); lia|destruct (data_block_range k 0 Hk ltac:(lia)); lia].
  - done.
  - unfold header_ok. rewrite Hout by lia. done.
Qed.

Lemma free_entry es t v slot : holds_with es t v -> (slot < MAX_FILES)%nat -> tree_ok 1 (delete (Z.of_nat slot + 2) t) ->
  holds_with (<[slot := None]> es) (delete (Z.of_nat slot + 2) t) (dir_put v slot (replicate ENTRY_SIZE 0)).
Proof.
  intros [H1 H2 H3 H4 H5] Hs Hok. pose proof (dir_block_range slot Hs) as Hr.
  assert (forall b, ~ (1 <= b <= 4) -> dir_put v slot (replicate ENTRY_SIZE 0) b = v b) as Hout.
  { intros b Hb. unfold dir_put, vput. replace (b =? dir_block slot) with false; [done|]. symmetry. apply Z.eqb_neq. lia. }
  assert (entries_ok (<[slot := None]> es)) as Hes.
  { intros k e'. rewrite list_lookup_insert_Some. intros [(_ & ? & _)|[_ Hk]]; [done|by apply H2]. }
  split; [|done| |done|unfold header_ok; rewrite Hout by lia; done].
  - apply vol_dir_put; [done|done|done|apply zeros_are_bytes|apply decode_empty].
  - rewrite H3, <-(tree_of_put v es slot None) by (by rewrite (vo_len v es H1)). symmetry. apply tree_of_data; [done|].
    intros k e' Hk _. apply lookup_lt_Some in Hk. rewrite length_insert, (vo_len v es H1) in Hk. unfold file_data.
    rewrite !Hout; [done|destruct (data_block_range k 1 Hk ltac:(lia)); lia|destruct (data_block_range k 0 Hk ltac:(lia)); lia].
Qed.

Section operations.
Context {D : Type} `{DiskLaws D}.
Implicit Types s : PersistentFilesystem D.

(** The file system is available and its volume holds the tree. *)
Record mounted t s : Prop := {
  mt_available : pf_available s = true;
  mt_disk : disk_ok (pf_disk s);
  mt_holds : holds t (contents (pf_disk s));
}.

Lemma wp_with_disk {A} (m : M D A) (Q : A -> PersistentFilesystem D -> Prop) s :
  wp m (fun a d => Q a (mkFs (pf_available s) d)) (pf_disk s) -> wp (with_disk m) Q s.
Proof. unfold wp, with_disk. by destruct (m (pf_disk s)) as [[a d]|]. Qed.

Lemma wp_lift {S A} (o : outcome A) (a : A) (Q : A -> S -> Prop) x : o = Done a -> Q a x -> wp (lift o) Q x.
Proof. intros ->. done. Qed.

Lemma available_spec t s (Q : result () FsError -> PersistentFilesystem D -> Prop) : mounted t s -> Q (Ok ()) s -> wp ensure_available Q s.
Proof. intros [Ha _ _] HQ. unfold ensure_available, wp. run. by rewrite Ha. Qed.

(** The state after reading the disk. *)
Lemma mounted_same t s d : mounted t s -> disk_ok d -> same (contents (pf_disk s)) (contents d) -> mounted t (mkFs (pf_available s) d).
Proof. intros [H1 H2 H3] Hd Hs. split; [done|done|]. by eapply holds_same. Qed.

Lemma entries_spec es t s (Q : result entries FsError -> PersistentFilesystem D -> Prop) :
  mounted t s -> holds_with es t (contents (pf_disk s)) ->
  (forall s', mounted t s' -> holds_with es t (contents (pf_disk s')) -> Q (Ok es) s') -> (forall s', mounted t s' -> Q (Err Io) s') ->
  wp (with_disk read_entries) Q s.
Proof.
  intros Hm Hh HQ HE. apply wp_with_disk. eapply wp_mono; [apply read_entries_spec; [apply Hm|apply Hh]|]. intros r d (Hd & Hs & [->| ->]).
  - apply HQ; [by apply (mounted_same t s)|]. by eapply holds_with_same.
  - apply HE. by apply (mounted_same t s).
Qed.

(** ** Creating *)

Definition fresh (p : Z) (c : bytes) (ft : FileType) : tnode :=
  mkTnode p c ft (match ft with File => replicate MAX_FILE_SIZE 0 | Directory => [] end) 0.

Definition created_as t (parent : Z -> Prop) (c : bytes) (ft : FileType) (i : Z) t' : Prop :=
  exists p, parent p /\ directory 1 t p /\ (forall j, ~ edge t p c j) /\ t !! i = None /\ i <> 1 /\ t' = <[i := fresh p c ft]> t.

Definition create_rel t (parent : Z -> Prop) (c : bytes) (ft : FileType) (r : result BackendStat FsError) t' : Prop :=
  match r with
  | Ok st => exists i, created_as t parent c ft i t' /\ st = mkStat ft 0 false i
  | Err Io => t' = t \/ exists i, created_as t parent c ft i t'
  | Err NotFound => t' = t /\ forall p, ~ parent p
  | Err NotDirectory => t' = t /\ exists p, parent p /\ ~ directory 1 t p
  | Err AlreadyExists => t' = t /\ exists p i, parent p /\ edge t p c i
  | Err NoSpace => t' = t /\ forall i, 2 <= i < 2 + Z.of_nat MAX_FILES -> is_Some (t !! i)
  | Err _ => False
  end.

Definition name_ok (c : bytes) : Prop := (1 <= length c <= MAX_NAME_LEN)%nat /\ SLASH ∉ c /\ utf8 c.

Definition padded_name (c : bytes) : bytes := c ++ replicate (MAX_NAME_LEN - length c) 0.

Lemma padded_copy c k : name_ok c -> k = MAX_NAME_LEN -> copy_slice (replicate k 0) 0 (length c) c = Done (padded_name c).
Proof.
  intros [Hc _] ->. rewrite copy_slice_ok by (rewrite ?length_replicate; lia). f_equal. by rewrite drop_replicate.
Qed.

Lemma padded_ok c : name_ok c -> length (padded_name c) = MAX_NAME_LEN /\ Forall is_byte (padded_name c) /\ take (length c) (padded_name c) = c.
Proof.
  intros ((_ & Hc) & _ & Hu). unfold padded_name. rewrite length_app, length_replicate. split_and!; [lia| |apply take_app_length].
  apply Forall_app. split; [by apply utf8_bytes|apply zeros_are_bytes].
Qed.

Lemma inode_range es t v i n : holds_with es t v -> t !! i = Some n -> 2 <= i < 2 + Z.of_nat MAX_FILES.
Proof.
  intros Hh Hn. apply (tree_Some es t v Hh) in Hn as (k & e & -> & Hk & _). apply lookup_lt_Some in Hk. rewrite (vo_len v es (ho_vol es t v Hh)) in Hk. lia.
Qed.

Lemma parent_range es t v p : holds_with es t v -> directory 1 t p -> 1 <= p <= u32_max.
Proof.
  intros Hh [->|(n & Hn & _)]; [unfold u32_max; lia|]. pose proof (inode_range es t v p n Hh Hn) as Hr. rewrite max_files in Hr. unfold u32_max. lia.
Qed.

Definition made (slot : nat) (p : Z) (c : bytes) (ft : FileType) : DirectoryEntry :=
  mkEntry slot (Z.of_nat slot + 2) 0 p ft (padded_name c) (length c).

Lemma new_entry_spec slot p c ft : name_ok c -> new_entry slot p c ft = Done (made slot p c ft).
Proof. intros Hc. unfold new_entry. by rewrite padded_copy. Qed.

Lemma made_ok es t v slot p c ft : holds_with es t v -> (slot < MAX_FILES)%nat -> directory 1 t p -> name_ok c -> entry_ok slot (made slot p c ft).
Proof.
  intros Hh Hs Hp Hc. destruct (padded_ok c Hc) as (P1 & P2 & P3). pose proof (parent_range es t v p Hh Hp). rewrite max_files in Hs.
  destruct Hc as (Hl & Hsl & Hu). split; unfold nm; cbn [made de_slot de_inode de_len de_name de_name_len]; rewrite ?P3; try done; [|lia].
  split; cbn [made de_slot de_inode de_len de_name de_name_len de_parent]; unfold u64_max, u32_max in *; done || lia.
Qed.

Lemma create_free es t s slot pp p c ft : mounted t s -> holds_with es t (contents (pf_disk s)) -> name_ok c -> leads t pp p -> directory 1 t p ->
  (forall i, ~ edge t p c i) -> es !! slot = Some None -> (slot < MAX_FILES)%nat ->
  wp (try _ := (if FileType_eqb ft File then with_disk (clear_data slot) else mret (Ok ())) in
      e ← lift (new_entry slot p c ft); try _ := with_disk (write_entry e) in mret (Ok (entry_stat e)))
    (fun r s' => exists t', mounted t' s' /\ create_rel t (leads t pp) c ft r t') s.
Proof.
  intros Hm Hh Hc Hp Hd Hfr Hfree Hs.
  assert (forall s', mounted t s' -> holds_with es t (contents (pf_disk s')) ->
    (ft = File -> file_data (contents (pf_disk s')) slot = replicate MAX_FILE_SIZE 0) ->
    wp (e ← lift (new_entry slot p c ft); try _ := with_disk (write_entry e) in mret (Ok (entry_stat e)))
      (fun r s' => exists t', mounted t' s' /\ create_rel t (leads t pp) c ft r t') s') as Hrest.
  { clear s Hm Hh. intros s Hm Hh Hz. pose proof (made_ok es t _ slot p c ft Hh Hs Hd Hc) as He. destruct (padded_ok c Hc) as (_ & _ & P3).
    assert (node_of (contents (pf_disk s)) (made slot p c ft) = fresh p c ft) as En.
    { unfold node_of, fresh, nm. cbn [made de_parent de_name de_name_len de_file_type de_slot de_len]. rewrite P3. destruct ft; [|done]. by rewrite Hz. }
    assert (t !! (Z.of_nat slot + 2) = None) as Hnone.
    { destruct (t !! _) as [n|] eqn:En'; [|done]. apply (tree_Some es t _ Hh) in En' as (k & e & Ek & Hk & _). assert (k = slot) as -> by lia. congruence. }
    assert (tree_ok 1 (<[Z.of_nat slot + 2 := fresh p c ft]> t)) as Hok by (apply tree_add_ok; [apply Hh|done|lia|done|done]).
    rewrite wp_bind. eapply wp_lift; [by apply new_entry_spec|]. apply wp_try, wp_with_disk.
    eapply wp_mono; [apply (write_entry_spec _ es); [apply Hm|apply Hh|apply He|done]|]. intros r d (Hd' & Hr). cbn [made de_slot] in Hr.
    assert (forall v', same (dir_put (contents (pf_disk s)) slot (encode (made slot p c ft))) v' -> holds (<[Z.of_nat slot + 2 := fresh p c ft]> t) v') as Hnew.
    { intros v' Hsame. eapply holds_same; [exact Hsame|]. eexists. rewrite <-En in Hok |- *. by apply (put_entry es). }
    assert (created_as t (leads t pp) c ft (Z.of_nat slot + 2) (<[Z.of_nat slot + 2 := fresh p c ft]> t)) as Hcr by (exists p; split_and!; done || lia).
    destruct Hr as [[-> Hr]|[-> [Hr|Hr]]].
    - rewrite wp_ret. eexists. split; [split; [apply Hm|exact Hd'|by apply Hnew]|]. by exists (Z.of_nat slot + 2).
    - exists t. split; [by apply (mounted_same t s)|by left].
    - eexists. split; [split; [apply Hm|exact Hd'|by apply Hnew]|]. right. eauto. }
  apply wp_try. destruct (FileType_eqb ft File) eqn:Eft.
  - apply wp_with_disk. eapply wp_mono; [apply disk_clear_spec; [done|apply Hm]|]. intros r d (Hd' & Hb & Hr).
    assert (holds_with es t (contents d)) as Hh' by (eapply holds_free; [exact Hh|exact Hfree|exact Hb|intros b; by apply dl_block]).
    assert (mounted t (mkFs (pf_available s) d)) as Hm' by (split; [apply Hm|done|by exists es]).
    destruct Hr as [[-> Hz]| ->]; [by apply Hrest|]. exists t. split; [done|by left].
  - rewrite wp_ret. apply Hrest; [done|done|]. intros ->. done.
Qed.

Lemma create_spec t s path ft : mounted t s -> utf8 path ->
  wp (create_node path ft) (fun r s' => exists t', mounted t' s' /\
    match split_parent_name path with
    | Done (Ok (pp, c)) => create_rel t (leads t pp) c ft r t'
    | Done (Err e) => r = Err e /\ t' = t
    | Panic => False
    end) s.
Proof.
  intros Hm Hu. unfold create_node. apply wp_try, (available_spec t); [done|]. apply wp_try.
  destruct (split_parent_ok path Hu) as (r & -> & Hr). eapply wp_lift; [done|]. destruct r as [[pp c]|e]; [|by exists t].
  assert (name_ok c) as Hc by done. apply wp_try. pose proof (mt_holds t s Hm) as [es Hh].
  apply (entries_spec es t); [done|done| |intros s' Hm'; exists t; split; [done|by left]]. clear s Hm Hh. intros s Hm Hh.
  rewrite wp_bind. destruct (resolve_leads es t _ Hh pp) as (o & Eo & Ho). eapply wp_lift; [exact Eo|]. destruct o as [p|]; [|rewrite wp_ret; by exists t].
  destruct (not_a_directory es p) eqn:Ed.
  { rewrite wp_ret. exists t. split; [done|]. split; [done|]. exists p. split; [done|]. intros Hd. apply (not_a_directory_spec es t _ Hh) in Hd. congruence. }
  apply (not_a_directory_spec es t _ Hh) in Ed.
  rewrite wp_bind. destruct (child_ok es t _ Hh p c) as (o & Ec & Hch). eapply wp_lift; [exact Ec|]. destruct o as [e|]; cbn [is_some].
  { rewrite wp_ret. exists t. split; [done|]. split; [done|]. destruct Hch as [_ ?]. eauto. }
  destruct (position _ es) as [slot|] eqn:Ep; cycle 1.
  { rewrite wp_ret. exists t. split; [done|]. split; [done|]. intros i Hi. apply position_None in Ep. rewrite find_None in Ep.
    destruct (lookup_lt_is_Some_2 es (Z.to_nat (i - 2))) as [o Eo']; [rewrite (vo_len _ es (ho_vol _ _ _ Hh)); lia|].
    specialize (Ep o (list_elem_of_lookup_2 _ _ _ Eo')). destruct o as [e|]; [|done].
    exists (node_of (contents (pf_disk s)) e). apply (tree_Some es t _ Hh). exists (Z.to_nat (i - 2)), e. split; [lia|done]. }
  apply position_Some in Ep as ([|] & Hfree & ? & _); [done|]. pose proof (lookup_lt_Some _ _ _ Hfree) as Hs. rewrite (vo_len _ es (ho_vol _ _ _ Hh)) in Hs.
  apply (create_free es); done.
Qed.

(** ** Removing *)

Definition removed_as t (target : Z -> Prop) (expected : FileType) (i : Z) t' : Prop :=
  target i /\ (exists n, t !! i = Some n /\ tn_type n = expected) /\ (forall j n, t !! j = Some n -> tn_parent n <> i) /\ t' = delete i t.

Definition remove_rel t (target : Z -> Prop) (expected : FileType) (r : result Z FsError) t' : Prop :=
  match r with
  | Ok i => removed_as t target expected i t'
  | Err Io => t' = t \/ exists i, removed_as t target expected i t'
  | Err NotFound => t' = t /\ forall i, ~ target i
  | Err ReadOnly => t' = t /\ target 1
  | Err IsDirectory => t' = t /\ expected = File /\ exists i n, target i /\ t !! i = Some n /\ tn_type n = Directory
  | Err NotDirectory => t' = t /\ expected = Directory /\ exists i n, target i /\ t !! i = Some n /\ tn_type n = File
  | Err DirectoryNotEmpty => t' = t /\ expected = Directory /\ exists i j n, target i /\ t !! j = Some n /\ tn_parent n = i
  | Err _ => False
  end.

Lemma entry_in es t v i e : holds_with es t v -> e ∈ flatten es -> de_inode e = i ->
  es !! de_slot e = Some (Some e) /\ (de_slot e < MAX_FILES)%nat /\ i = Z.of_nat (de_slot e) + 2 /\ entry_ok (de_slot e) e.
Proof.
  intros Hh (k & Hk & He)%(entry_of es t v Hh) <-. rewrite (eo_slot k e He). split_and!; [done| |by rewrite (eo_inode k e He)|done].
  apply lookup_lt_Some in Hk. by rewrite (vo_len v es (ho_vol es t v Hh)) in Hk.
Qed.

Lemma remove_slot es t s path e (expected : FileType) : mounted t s -> holds_with es t (contents (pf_disk s)) -> e ∈ flatten es ->
  leads t path (de_inode e) -> de_file_type e = expected -> (forall j n, t !! j = Some n -> tn_parent n <> de_inode e) ->
  wp (try _ := with_disk (write_empty_entry (de_slot e)) in
      try _ := (if FileType_eqb expected File then with_disk (clear_data (de_slot e)) else mret (Ok ())) in mret (Ok (de_inode e)))
    (fun r s' => exists t', mounted t' s' /\ remove_rel t (leads t path) expected r t') s.
Proof.
  intros Hm Hh Hin Hp Hft Hleaf. destruct (entry_in es t _ _ e Hh Hin eq_refl) as (Hk & Hs & Hi & He).
  assert (t !! de_inode e = Some (node_of (contents (pf_disk s)) e)) as Ht by (by eapply in_tree).
  assert (removed_as t (leads t path) expected (de_inode e) (delete (de_inode e) t)) as Hrm by (split_and!; [done|eauto|done|done]).
  assert (tree_ok 1 (delete (de_inode e) t)) as Hok by (apply tree_remove_ok; [apply Hh|done]).
  apply wp_try, wp_with_disk. eapply wp_mono; [apply (write_empty_entry_spec _ es); [apply Hm|apply Hh|done]|]. intros r d (Hd & Hr).
  assert (forall v', same (dir_put (contents (pf_disk s)) (de_slot e) (replicate ENTRY_SIZE 0)) v' -> holds_with (<[de_slot e := None]> es) (delete (de_inode e) t) v') as Hnew.
  { intros v' Hsame. eapply holds_with_same; [exact Hsame|]. rewrite Hi in Hok |- *. by apply free_entry. }
  destruct Hr as [[-> Hr]|[-> [Hr|Hr]]].
  - specialize (Hnew _ Hr). assert (mounted (delete (de_inode e) t) (mkFs (pf_available s) d)) as Hm' by (split; [apply Hm|done|by eexists]).
    apply wp_try. destruct (FileType_eqb expected File).
    + apply wp_with_disk. eapply wp_mono; [apply disk_clear_spec; [done|exact Hd]|]. intros r d' (Hd' & Hb & Hr').
      assert (mounted (delete (de_inode e) t) (mkFs (pf_available s) d')) as Hm2.
      { split; [apply Hm|done|]. eexists. eapply holds_free; [exact Hnew| |exact Hb|intros b; by apply dl_block].
        apply list_lookup_insert_eq. by apply lookup_lt_Some in Hk. }
      destruct Hr' as [[-> _]| ->]; [rewrite wp_ret|]; eexists; (split; [exact Hm2|]); [exact Hrm|right; eauto].
    + rewrite wp_ret, wp_ret. eexists. split; [exact Hm'|exact Hrm].
  - exists t. split; [by apply (mounted_same t s)|by left].
  - eexists. split; [split; [apply Hm|exact Hd|eexists; by apply Hnew]|]. right. eauto.
Qed.

Lemma remove_node_spec t s path expected : mounted t s ->
  wp (remove_node path expected) (fun r s' => exists t', mounted t' s' /\ remove_rel t (leads t path) expected r t') s.
Proof.
  intros Hm. unfold remove_node. apply wp_try, (available_spec t); [done|]. apply wp_try. pose proof (mt_holds t s Hm) as [es Hh].
  apply (entries_spec es t); [done|done| |intros s' Hm'; exists t; split; [done|by left]]. clear s Hm Hh. intros s Hm Hh.
  rewrite wp_bind. destruct (resolve_leads es t _ Hh path) as (o & Eo & Ho). eapply wp_lift; [exact Eo|]. destruct o as [i|]; [|rewrite wp_ret; by exists t].
  destruct (Z.eqb_spec i 1) as [->|Hroot]; [rewrite wp_ret; by exists t|].
  pose proof (find_inode_tree es t _ Hh i) as Hf. destruct (find_inode es i) as [e|]; cycle 1.
  { destruct Ho as (cs & _ & Hw). apply walk_end in Hw as [?|[n Hn]]; congruence. }
  destruct Hf as (Hin & <- & Ht). destruct (FileType_eqb (de_file_type e) expected) eqn:Eft; cbn [negb]; cycle 1.
  { rewrite wp_ret. exists t. split; [done|]. unfold FileType_eqb in *. apply bool_decide_eq_false in Eft.
    destruct expected, (de_file_type e) eqn:Et; try done; (split; [done|]); (split; [done|]); eexists _, _; (split; [exact Ho|]); (split; [exact Ht|exact Et]). }
  apply bool_decide_eq_true in Eft. destruct (FileType_eqb expected Directory && _) eqn:Ech.
  { rewrite wp_ret. exists t. split; [done|]. apply andb_true_iff in Ech as [E1 (c & Hc & Hp%Z.eqb_eq)%existsb_spec]. unfold FileType_eqb in E1. apply bool_decide_eq_true in E1.
    split; [done|]. split; [done|]. apply elem_of_flatten in Hc as [k Hk]. eexists _, _, _. split; [exact Ho|]. split; [by eapply in_tree|exact Hp]. }
  apply (remove_slot es); try done. intros j n Hj Hp.
  destruct (to_parents 1 t (ho_ok _ _ _ Hh) j n Hj) as [?|(m & Hm' & Hd)]; [congruence|]. rewrite Hp, Ht in Hm'. injection Hm' as <-.
  cbn [node_of tn_type] in Hd. rewrite Hd in Eft. subst expected. cbn in Ech.
  apply (tree_Some es t _ Hh) in Hj as (k & c & -> & Hk & ->). apply existsb_false with (x := c) in Ech; [|apply elem_of_flatten; eauto].
  apply Z.eqb_neq in Ech. done.
Qed.

(** ** Renaming *)

Definition moved_as t (source parent : Z -> Prop) (c : bytes) (i : Z) t' : Prop :=
  source i /\ exists n p, t !! i = Some n /\ parent p /\ directory 1 t p /\ (forall j, ~ edge t p c j) /\ (forall l, above 1 t p l -> i ∉ l) /\
    t' = <[i := n <| tn_parent := p |> <| tn_name := c |>]> t.

Definition rename_rel t (source parent : Z -> Prop) (c : bytes) (r : result Z FsError) t' : Prop :=
  match r with
  | Ok i => moved_as t source parent c i t'
  | Err Io => t' = t \/ exists i, moved_as t source parent c i t'
  | Err NotFound => t' = t /\ ((forall i, ~ source i) \/ forall p, ~ parent p)
  | Err ReadOnly => t' = t /\ source 1
  | Err NotDirectory => t' = t /\ exists p, parent p /\ ~ directory 1 t p
  | Err AlreadyExists => t' = t /\ exists p i, parent p /\ edge t p c i
  | Err InvalidPath => t' = t /\ exists i p l, source i /\ parent p /\ above 1 t p l /\ i ∈ l
  | Err _ => False
  end.

Definition rename_post t (old new : bytes) (r : result Z FsError) t' : Prop :=
  match split_parent_name new with
  | Done (Ok (pp, c)) => rename_rel t (leads t old) (leads t pp) c r t'
  | Done (Err e) => t' = t /\ (r = Err e \/ r = Err Io \/ r = Err NotFound /\ (forall i, ~ leads t old i) \/ r = Err ReadOnly /\ leads t old 1)
  | Panic => False
  end.

Definition renamed (p : Z) (c : bytes) (e : DirectoryEntry) : DirectoryEntry :=
  e <| de_parent := p |> <| de_name := padded_name c |> <| de_name_len := length c |>.

Lemma renamed_ok es t v slot p c e : holds_with es t v -> entry_ok slot e -> directory 1 t p -> name_ok c -> entry_ok slot (renamed p c e).
Proof.
  intros Hh [[F1 F2 F3 F4 F5 F6] E2 E3 E4 E5 E6] Hp Hc. destruct (padded_ok c Hc) as (P1 & P2 & P3). pose proof (parent_range es t v p Hh Hp).
  destruct Hc as (Hl & Hsl & Hu). split; unfold nm; cbn [renamed set de_slot de_inode de_len de_name de_name_len]; rewrite ?P3; try done.
Qed.

Lemma node_renamed v p c e : name_ok c -> node_of v (renamed p c e) = node_of v e <| tn_parent := p |> <| tn_name := c |>.
Proof. intros Hc. destruct (padded_ok c Hc) as (_ & _ & P3). unfold node_of, nm. cbn. by rewrite P3. Qed.

Lemma rename_slot es t s old pp p c e : mounted t s -> holds_with es t (contents (pf_disk s)) -> e ∈ flatten es -> name_ok c ->
  leads t old (de_inode e) -> leads t pp p -> directory 1 t p -> (forall j, ~ edge t p c j) -> (forall l, above 1 t p l -> de_inode e ∉ l) ->
  wp (try _ := with_disk (write_entry (renamed p c e)) in mret (Ok (de_inode (renamed p c e))))
    (fun r s' => exists t', mounted t' s' /\ rename_rel t (leads t old) (leads t pp) c r t') s.
Proof.
  intros Hm Hh Hin Hc Ho Hp Hd Hfr Hab. destruct (entry_in es t _ _ e Hh Hin eq_refl) as (Hk & Hs & Hi & He).
  assert (t !! de_inode e = Some (node_of (contents (pf_disk s)) e)) as Ht by (by eapply in_tree).
  pose proof (renamed_ok es t _ _ p c e Hh He Hd Hc) as He'. set (t1 := <[de_inode e := node_of (contents (pf_disk s)) e <| tn_parent := p |> <| tn_name := c |>]> t).
  assert (tree_ok 1 t1) as Hok by (apply tree_move_ok; [apply Hh|done..]).
  assert (moved_as t (leads t old) (leads t pp) c (de_inode e) t1) as Hmv by (split; [done|]; eexists _, p; split_and!; done).
  apply wp_try, wp_with_disk. eapply wp_mono; [apply (write_entry_spec _ es); [apply Hm|apply Hh|apply He'|done]|]. intros r d (Hd' & Hr).
  assert (forall v', same (dir_put (contents (pf_disk s)) (de_slot e) (encode (renamed p c e))) v' -> holds t1 v') as Hnew.
  { intros v' Hsame. eapply holds_same; [exact Hsame|]. eexists. unfold t1 in *. rewrite <-node_renamed in Hok |- * by done. rewrite Hi in Hok |- *. by apply (put_entry es). }
  change (de_slot (renamed p c e)) with (de_slot e) in Hr. destruct Hr as [[-> Hr]|[-> [Hr|Hr]]].
  - rewrite wp_ret. exists t1. split; [split; [apply Hm|exact Hd'|by apply Hnew]|exact Hmv].
  - exists t. split; [by apply (mounted_same t s)|by left].
  - exists t1. split; [split; [apply Hm|exact Hd'|by apply Hnew]|]. right. eauto.
Qed.

Lemma persist_rename_spec t s old new : mounted t s -> utf8 new ->
  wp (rename old new) (fun r s' => exists t', mounted t' s' /\ rename_post t old new r t') s.
Proof.
  intros Hm Hu. unfold rename, rename_post. destruct (split_parent_ok new Hu) as (sp & Esp & Hsp). rewrite Esp.
  apply wp_try, (available_spec t); [done|]. apply wp_try. pose proof (mt_holds t s Hm) as [es Hh].
  apply (entries_spec es t); [done|done| |intros s' Hm'; exists t; split; [done|destruct sp as [[]|]; [by left|auto]]]. clear s Hm Hh. intros s Hm Hh.
  rewrite wp_bind. destruct (resolve_leads es t _ Hh old) as (o & Eo & Ho). eapply wp_lift; [exact Eo|]. destruct o as [i|]; cycle 1.
  { rewrite wp_ret. exists t. split; [done|]. destruct sp as [[]|]; [split; [done|by left]|split; [done|auto]]. }
  destruct (Z.eqb_spec i 1) as [->|Hroot].
  { rewrite wp_ret. exists t. split; [done|]. destruct sp as [[]|]; [done|split; [done|auto]]. }
  apply wp_try. eapply wp_lift; [done|]. destruct sp as [[pp c]|e]; [|exists t; split; [done|]; split; [done|by left]].
  assert (name_ok c) as Hc by done.
  rewrite wp_bind. destruct (resolve_leads es t _ Hh pp) as (o & Ep & Hp). eapply wp_lift; [exact Ep|]. destruct o as [p|]; cycle 1.
  { rewrite wp_ret. exists t. split; [done|]. split; [done|by right]. }
  destruct (not_a_directory es p) eqn:Ed.
  { rewrite wp_ret. exists t. split; [done|]. split; [done|]. exists p. split; [done|]. intros Hd. apply (not_a_directory_spec es t _ Hh) in Hd. congruence. }
  apply (not_a_directory_spec es t _ Hh) in Ed.
  rewrite wp_bind. destruct (child_ok es t _ Hh p c) as (o & Ec & Hch). eapply wp_lift; [exact Ec|]. destruct o as [e|]; cbn [is_some].
  { rewrite wp_ret. exists t. split; [done|]. split; [done|]. destruct Hch as [_ ?]. eauto. }
  destruct (directory_above 1 t (ho_ok _ _ _ Hh) p Ed) as [l Hl].
  rewrite wp_bind. rewrite (is_descendant_spec es t _ Hh p l i Hl). case_bool_decide as Hin.
  { change (wp (mret (Err InvalidPath)) (fun r s' => exists t', mounted t' s' /\ rename_rel t (leads t old) (leads t pp) c r t') s).
    rewrite wp_ret. exists t. split; [done|]. split; [done|]. by exists i, p, l. }
  pose proof (find_inode_tree es t _ Hh i) as Hf. destruct (find_inode es i) as [e|]; cycle 1.
  { destruct Ho as (cs & _ & Hw). apply walk_end in Hw as [?|[n Hn]]; congruence. }
  destruct Hf as (He & <- & Ht). destruct (entry_in es t _ _ e Hh He eq_refl) as (_ & _ & _ & Hok).
  assert (copy_slice (replicate (length (de_name e)) 0) 0 (length c) c = Done (padded_name c)) as Ecp by (apply padded_copy; [done|apply Hok]).
  unfold wp, expect, lift. run. rewrite Ecp. apply (rename_slot es t s old pp p c e); try done.
  intros l' Hl'. by rewrite (above_fun 1 t (ho_ok _ _ _ Hh) p l' l Hl' Hl).
Qed.

(** ** Writing and reading *)

Definition with_data (off : nat) (src : bytes) (n : tnode) : tnode := n <| tn_data ::= (fun data => splice data off src) |>.
Definition written (off : nat) (src : bytes) (n : tnode) : tnode :=
  with_data off src n <| tn_len ::= (fun len => Nat.max len (off + length src)) |>.

Definition is_file t (i : Z) (n : tnode) : Prop := t !! i = Some n /\ tn_type n = File.

(** A failed write may have stored the first bytes of the data. *)
Definition write_rel t (i : Z) (off : nat) (src : bytes) (r : result nat FsError) t' : Prop :=
  match r with
  | Ok k => k = length src /\ (off + length src <= MAX_FILE_SIZE)%nat /\ exists n, is_file t i n /\ t' = <[i := written off src n]> t
  | Err Io => t' = t \/ exists n k, is_file t i n /\ (k <= length src)%nat /\
      (t' = <[i := with_data off (take k src) n]> t \/ t' = <[i := written off src n]> t)
  | Err FileTooLarge => t' = t /\ (MAX_FILE_SIZE < off + length src)%nat
  | Err NotFound => t' = t /\ t !! i = None
  | Err IsDirectory => t' = t /\ exists n, t !! i = Some n /\ tn_type n = Directory
  | Err _ => False
  end.

Lemma holds_data es t v v' e : holds_with es t v -> e ∈ flatten es -> de_file_type e = File ->
  same_but (de_slot e) v v' -> (forall b, in_disk b -> block_ok (v' b)) -> holds_with es (<[de_inode e := node_of v' e]> t) v'.
Proof.
  intros Hh Hin Hft Hb Hbs. destruct (entry_in es t _ _ e Hh Hin eq_refl) as (Hk & Hs & Hi & He).
  assert (t !! de_inode e = Some (node_of v e)) as Ht by (by eapply in_tree). destruct Hh as [H1 H2 H3 H4 H5].
  assert (forall b, b <= 4 -> v' b = v b) as Hdir.
  { intros b Hle. apply Hb; [destruct (data_block_range (de_slot e) 0 Hs ltac:(lia))|destruct (data_block_range (de_slot e) 1 Hs ltac:(lia))]; lia. }
  split; [|done| | |unfold header_ok; by rewrite Hdir].
  - destruct H1 as [V1 V2 V3]. split; [done|done|]. intros k o Ho. unfold slot_chunk. pose proof (lookup_lt_Some _ _ _ Ho) as Hlt. rewrite V2 in Hlt.
    rewrite Hdir by (pose proof (dir_block_range k Hlt); lia). by apply V3.
  - rewrite H3. apply map_eq. intros j. destruct (decide (j = de_inode e)) as [->|Hne].
    + rewrite lookup_insert_eq, tree_of_lookup, Hi. replace (2 <=? _) with true by (symmetry; apply Z.leb_le; lia).
      replace (Z.to_nat (Z.of_nat (de_slot e) + 2 - 2)) with (de_slot e) by lia. by rewrite Hk.
    + rewrite lookup_insert_ne by done. rewrite !tree_of_lookup. destruct (Z.leb_spec 2 j); [|done].
      destruct (es !! Z.to_nat (j - 2)) as [[e'|]|] eqn:Ej; [|done..]. cbn. f_equal. unfold node_of. rewrite (eo_slot _ _ (H2 _ _ Ej)). f_equal.
      destruct (de_file_type e'); [|done]. unfold file_data.
      rewrite !Hb; [done|intros E; apply data_block_inj in E as [E _]; [|lia|lia]; rewrite <-E in Hi; lia..].
  - apply (tree_change_ok 1 t H4 _ (node_of v e)); [done|]. unfold node_of. done.
Qed.

Lemma grown_ok slot e n : entry_ok slot e -> (n <= MAX_FILE_SIZE)%nat -> entry_ok slot (e <| de_len ::= (fun len => Nat.max len n) |>).
Proof.
  intros [[F1 F2 F3 F4 F5 F6] E2 E3 E4 E5 E6] Hn. split; cbn [set de_slot de_inode de_len de_name de_name_len de_parent]; try done; [|lia].
  split; cbn [set de_slot de_inode de_len de_name de_name_len de_parent]; try done. unfold u32_max. sizes.
Qed.

Lemma persist_write_spec t s i off src : mounted t s -> Forall is_byte src ->
  wp (write i off src) (fun r s' => exists t', mounted t' s' /\ write_rel t i off src r t') s.
Proof.
  intros Hm Hsrc. unfold write. apply wp_try, (available_spec t); [done|].
  destruct (usize_checked_add_cases off (length src)) as [[-> _]|[-> Hbig]]; cycle 1.
  { rewrite wp_ret. exists t. split; [done|]. split; [done|]. unfold u64_max in Hbig. sizes. }
  destruct (Nat.ltb_spec MAX_FILE_SIZE (off + length src)) as [|Hfit]; [rewrite wp_ret; by exists t|].
  apply wp_try. pose proof (mt_holds t s Hm) as [es Hh].
  apply (entries_spec es t); [done|done| |intros s' Hm'; exists t; split; [done|by left]]. clear s Hm Hh. intros s Hm Hh.
  pose proof (find_inode_tree es t _ Hh i) as Hf. destruct (find_inode es i) as [e|]; [|rewrite wp_ret; by exists t].
  destruct Hf as (Hin & <- & Ht). unfold FileType_eqb. case_bool_decide as Eft; cbn [negb]; cycle 1.
  { rewrite wp_ret. exists t. split; [done|]. split; [done|]. eexists. split; [exact Ht|]. cbn. by destruct (de_file_type e). }
  destruct (entry_in es t _ _ e Hh Hin eq_refl) as (Hk & Hs & Hi & He).
  set (n := node_of (contents (pf_disk s)) e) in *. assert (is_file t (de_inode e) n) as Hfile by done.
  apply wp_try, wp_with_disk. eapply wp_mono; [apply disk_write_spec; [done|apply Hm|done|done]|]. intros r d (Hd & Hb & k & Hkl & Hdata & Hr).
  pose proof (holds_data es t _ (contents d) e Hh Hin Eft Hb (fun b => dl_block d b Hd)) as Hh1.
  assert (node_of (contents d) e = with_data off (take k src) n) as En.
  { unfold node_of, with_data, n, node_of, set. cbn. rewrite Eft. cbn. by rewrite Hdata. }
  destruct Hr as [[-> ->]| ->]; cycle 1.
  { eexists. split; [split; [apply Hm|exact Hd|by exists es]|]. right. exists n, k. rewrite En. auto. }
  rewrite firstn_all in En. set (e' := e <| de_len ::= (fun len => Nat.max len (off + length src)) |>).
  assert (entry_ok (de_slot e) e') as He' by (by apply grown_ok).
  assert (node_of (contents d) e' = written off src n) as En'.
  { unfold written. rewrite <-En. unfold node_of, e', set. cbn. done. }
  assert (forall v', same (dir_put (contents d) (de_slot e) (encode e')) v' -> holds (<[de_inode e := written off src n]> t) v') as Hnew.
  { intros v' Hsame. eapply holds_same; [exact Hsame|]. eexists.
    assert (tree_ok 1 (<[Z.of_nat (de_slot e) + 2 := node_of (contents d) e']> (<[de_inode e := node_of (contents d) e]> t))) as Hok.
    { rewrite <-Hi. apply (tree_change_ok 1 _ (ho_ok _ _ _ Hh1) _ (node_of (contents d) e)); [apply lookup_insert_eq|done]. }
    pose proof (put_entry es _ _ (de_slot e) e' Hh1 He' Hs Hok) as Hp. rewrite <-Hi, insert_insert_eq, En' in Hp. exact Hp. }
  apply wp_try, wp_with_disk. eapply wp_mono; [apply (write_entry_spec d es e'); [exact Hd|apply Hh1|apply He'|done]|]. intros r d' (Hd' & Hr).
  change (de_slot e') with (de_slot e) in Hr. destruct Hr as [[-> Hr]|[-> [Hr|Hr]]].
  - rewrite wp_ret. eexists. split; [split; [apply Hm|exact Hd'|by apply Hnew]|]. split; [done|]. split; [done|]. by exists n.
  - eexists. split; [split; [apply Hm|exact Hd'|eexists; by eapply holds_with_same]|]. right. exists n, (length src). rewrite firstn_all, En. auto.
  - eexists. split; [split; [apply Hm|exact Hd'|by apply Hnew]|]. right. exists n, (length src). auto.
Qed.

Definition read_rel t (i : Z) (off : nat) (out : bytes) (r : result nat FsError) (out' : bytes) : Prop :=
  length out' = length out /\
  match r with
  | Ok k => exists n, is_file t i n /\ k = Nat.min (tn_len n - off) (length out) /\ out' = take k (drop off (tn_data n)) ++ drop k out
  | Err NotFound => t !! i = None
  | Err IsDirectory => exists n, t !! i = Some n /\ tn_type n = Directory
  | Err e => e = Io
  end.

Lemma persist_read_spec t s i off out : mounted t s ->
  wp (read i off out) (fun '(r, out') s' => mounted t s' /\ read_rel t i off out r out') s.
Proof.
  intros Hm. unfold read. rewrite wp_bind. apply (available_spec t); [done|]. rewrite wp_bind. pose proof (mt_holds t s Hm) as [es Hh].
  apply (entries_spec es t); [done|done| |intros s' Hm'; by rewrite wp_ret]. clear s Hm Hh. intros s Hm Hh.
  pose proof (find_inode_tree es t _ Hh i) as Hf. destruct (find_inode es i) as [e|]; [|by rewrite wp_ret].
  destruct Hf as (Hin & <- & Ht). unfold FileType_eqb. case_bool_decide as Eft; cbn [negb]; cycle 1.
  { rewrite wp_ret. split; [done|]. split; [done|]. eexists. split; [exact Ht|]. cbn. by destruct (de_file_type e). }
  destruct (entry_in es t _ _ e Hh Hin eq_refl) as (Hk & Hs & Hi & He). pose proof (eo_len _ _ He) as Hlen.
  set (count := Nat.min _ _). assert (count <= length out)%nat as Hc by lia.
  rewrite wp_bind. eapply wp_lift; [apply slice_ok; lia|]. rewrite Nat.sub_0_r, drop_0. set (part := take count out).
  assert (length part = count) as Lp by (unfold part; rewrite length_take; lia).
  rewrite wp_bind. apply wp_with_disk.
  assert (count = 0%nat \/ (off + count <= MAX_FILE_SIZE)%nat) as [Hz|Hfit] by lia.
  - unfold read_data. rewrite Lp, Hz. cbn [read_loop]. rewrite Lp, Hz. cbn [Nat.leb]. rewrite wp_ret, wp_bind. eapply wp_lift; [apply copy_slice_ok; lia|].
    rewrite wp_ret. split; [by apply (mounted_same t s); [|apply Hm|]|]. rewrite (proj1 (length_zero_iff_nil part)) by lia. cbn [take app]. rewrite drop_0.
    split; [done|]. eexists. split; [split; [exact Ht|done]|]. cbn [node_of tn_len tn_data]. rewrite take_0. split; [lia|done].
  - eapply wp_mono; [apply disk_read_spec; [done|apply Hm|lia]|]. intros [r part'] d (Hd & Hsm & Hl & Hr). rewrite wp_bind.
    eapply wp_lift; [apply copy_slice_ok; lia|]. cbn [take app].
    assert (length (part' ++ drop count out) = length out) as Hlo by (rewrite length_app, length_drop; lia).
    destruct Hr as [[-> ->]| ->]; rewrite wp_ret; (split; [by apply (mounted_same t s)|]); [|done].
    split; [done|]. eexists. split; [split; [exact Ht|done]|]. cbn [node_of tn_len tn_data]. rewrite Eft, Lp. done.
Qed.

(** ** Looking *)

Definition stat_rel t (path : bytes) (r : result BackendStat FsError) : Prop :=
  match r with
  | Ok st => leads t path (bs_inode st) /\ bs_readonly st = false /\
      (bs_inode st = 1 /\ bs_file_type st = Directory \/
       exists n, t !! bs_inode st = Some n /\ bs_file_type st = tn_type n /\ (tn_type n = File -> bs_size st = tn_len n))
  | Err NotFound => forall i, ~ leads t path i
  | Err e => e = Io
  end.

Lemma persist_stat_spec t s path : mounted t s -> wp (stat path) (fun r s' => mounted t s' /\ stat_rel t path r) s.
Proof.
  intros Hm. unfold stat. apply wp_try, (available_spec t); [done|]. apply wp_try. pose proof (mt_holds t s Hm) as [es Hh].
  apply (entries_spec es t); [done|done| |done]. clear s Hm Hh. intros s Hm Hh. destruct (bytes_eqb path [SLASH]) eqn:Ep.
  { rewrite wp_ret. split; [done|]. split; [|split; [done|by left]]. exists []. unfold parse_path. rewrite Ep. split; [done|constructor]. }
  rewrite wp_bind. destruct (resolve_leads es t _ Hh path) as (o & Eo & Ho). eapply wp_lift; [exact Eo|]. destruct o as [i|]; [|by rewrite wp_ret].
  pose proof (find_inode_tree es t _ Hh i) as Hf. destruct (find_inode es i) as [e|].
  - destruct Hf as (Hin & <- & Ht). rewrite wp_ret. split; [done|]. unfold FileType_eqb. case_bool_decide as Ed; cbn [bs_inode bs_readonly bs_file_type entry_stat].
    + split; [done|]. split; [done|]. right. eexists. split; [exact Ht|]. split; [done|]. cbn [node_of tn_type]. congruence.
    + split; [done|]. split; [done|]. right. eexists. split; [exact Ht|]. done.
  - rewrite wp_ret. split; [done|]. exfalso. destruct Ho as (cs & Ecs & Hw). pose proof (walk_end _ _ _ _ Hw) as [->|[n Hn]]; [|congruence].
    unfold parse_path in Ecs. rewrite Ep in Ecs. destruct (strip_prefix path [SLASH]) as [rest|]; [|done]. injection Ecs as <-.
    pose proof (split_on_nonempty SLASH rest) as Hne. destruct (split_on SLASH rest) as [|c cs _] using rev_ind; [done|].
    apply walk_snoc in Hw as (k & _ & He). by apply (edge_not_root 1 t (ho_ok _ _ _ Hh)) in He.
Qed.

Definition lines (cs : Datatypes.list bytes) : bytes := concat (map (fun c => c ++ [10]) cs).

Lemma append_line_text out n value : (n <= length out)%nat -> exists r out', append_line out n value = Done (r, out') /\ length out' = length out /\
  match r with Ok k => k = (n + length value + 1)%nat /\ (k <= length out)%nat /\ take k out' = take n out ++ value ++ [10] | Err e => e = BufferTooSmall end.
Proof.
  intros Hn. unfold append_line. destruct (usize_checked_add_cases n (length value + 1)) as [[-> _]|[-> _]]; [|by eexists _, _].
  destruct (Nat.ltb_spec (length out) (n + (length value + 1))) as [|He]; [by eexists _, _|].
  rewrite copy_slice_ok by lia. run. rewrite index_set_ok by (rewrite !length_app, length_take, length_drop; lia).
  eexists _, _. split; [reflexivity|]. assert (length (take n out ++ value ++ drop (n + length value) out) = length out) as Hl by (rewrite !length_app, length_take, length_drop; lia).
  split; [by rewrite length_insert|]. split; [lia|]. split; [lia|]. rewrite app_assoc.
  assert (length (take n out ++ value) = n + length value)%nat as Hl2 by (rewrite length_app, length_take; lia).
  replace (n + (length value + 1) - 1)%nat with (length (take n out ++ value) + 0)%nat by lia. rewrite insert_app_r.
  destruct (drop (n + length value) out) as [|x rest] eqn:Ed; [apply (f_equal length) in Ed; rewrite length_drop in Ed; cbn in Ed; lia|].
  cbn [list_insert insert]. rewrite take_app_ge by lia. replace (n + (length value + 1) - length (take n out ++ value))%nat with 1%nat by lia.
  cbn [take]. by rewrite <-app_assoc.
Qed.

Lemma append_entries_spec es t v l : holds_with es t v -> (forall e, e ∈ l -> e ∈ flatten es) -> forall out n, (n <= length out)%nat ->
  exists r out', append_entries out n l = Done (r, out') /\ length out' = length out /\
    match r with Ok k => (k <= length out)%nat /\ take k out' = take n out ++ lines (map nm l) | Err e => e = BufferTooSmall end.
Proof.
  intros Hh. induction l as [|e l IH]; intros Hl out n Hn; cbn [append_entries].
  { eexists _, _. split; [done|]. split; [done|]. split; [done|]. by rewrite app_nil_r. }
  rewrite (entry_name_ok es t v Hh e) by (apply Hl, list_elem_of_here). run.
  destruct (append_line_text out n (nm e) Hn) as (r & out1 & -> & L1 & H1). destruct r as [k|]; [|by eexists _, _]. destruct H1 as (Ek & Hk & Htk).
  destruct (IH (fun e' H => Hl e' (list_elem_of_further _ _ _ H)) out1 k) as (r & out2 & -> & L2 & H2); [lia|].
  eexists _, _. split; [done|]. split; [lia|]. destruct r as [k2|]; [|done]. destruct H2 as [Hk2 Htk2]. split; [lia|].
  rewrite Htk2, Htk. unfold lines. cbn [map concat]. by rewrite <-!app_assoc.
Qed.

Definition list_rel t (path out : bytes) (r : result nat FsError) (out' : bytes) : Prop :=
  length out' = length out /\
  match r with
  | Ok k => (k <= length out)%nat /\ exists p cs, leads t path p /\ directory 1 t p /\ take k out' = lines cs /\ (forall c, c ∈ cs <-> exists i, edge t p c i)
  | Err NotFound => forall i, ~ leads t path i
  | Err NotDirectory => exists p, leads t path p /\ ~ directory 1 t p
  | Err e => e = Io \/ e = BufferTooSmall
  end.

Lemma persist_list_spec t s path out : mounted t s -> wp (list path out) (fun '(r, out') s' => mounted t s' /\ list_rel t path out r out') s.
Proof.
  intros Hm. unfold list. rewrite wp_bind. apply (available_spec t); [done|]. rewrite wp_bind. pose proof (mt_holds t s Hm) as [es Hh].
  apply (entries_spec es t); [done|done| |intros s' Hm'; rewrite wp_ret; split; [done|split; [done|by left]]]. clear s Hm Hh. intros s Hm Hh.
  rewrite wp_bind. destruct (resolve_leads es t _ Hh path) as (o & Eo & Ho). eapply wp_lift; [exact Eo|]. destruct o as [p|]; [|by rewrite wp_ret].
  destruct (not_a_directory es p) eqn:Ed.
  { rewrite wp_ret. split; [done|]. split; [done|]. exists p. split; [done|]. intros Hd. apply (not_a_directory_spec es t _ Hh) in Hd. congruence. }
  apply (not_a_directory_spec es t _ Hh) in Ed.
  destruct (append_entries_spec es t _ (children es p) Hh) with (out := out) (n := 0%nat) as (r & out' & E & Hl & Hr); [|lia|].
  { intros e He. unfold children in He. by apply elem_of_filter_bool in He as [? _]. }
  eapply wp_lift; [exact E|]. split; [done|]. split; [done|]. destruct r as [k|e]; [|subst e; by right]. destruct Hr as [Hk Htk]. split; [done|].
  exists p, (map nm (children es p)). split_and!; [done..|]. intros c. rewrite elem_of_map. unfold children. setoid_rewrite elem_of_filter_bool.
  setoid_rewrite (edge_iff es t _ Hh). split.
  - intros (e & -> & He & Hp%Z.eqb_eq). exists (de_inode e), e. done.
  - intros (i & e & He & Hp & Hc & _). exists e. split_and!; [done..|by apply Z.eqb_eq].
Qed.
End operations.
