(* ===== verification/PersistMount.v ===== *)
(** * The persistent file system: formatting and mounting

    [format_volume] leaves an empty tree; [init] formats a disk that has no
    volume and never touches one that has.  A simulated disk whose requests
    fail where a plan says so has the laws of a disk. *)

From stdpp Require Import gmap.
From S2P Require Import Prelude Utf8 Paths Vfs RamFs RamFsProofs FsLaws Text Storage Tree Persist PersistCodec PersistDisk PersistProofs.
Import Persist.

Implicit Types (v : volume) (t : tree).

(** ** An empty volume *)

Definition empty_header : bytes := MAGIC ++ le_bytes 4 VERSION ++ le_bytes 4 (Z.of_nat MAX_FILES) ++ replicate 496 0.

Lemma empty_header_ok : block_ok empty_header.
Proof.
  split; [reflexivity|]. unfold empty_header. rewrite !Forall_app. split_and!; [|apply le_bytes_ok..|apply zeros_are_bytes].
  repeat (constructor; [unfold is_byte; cbn; lia|]). constructor.
Qed.

Lemma chunk_zeros start : (start + ENTRY_SIZE <= BLOCK_SIZE)%nat -> chunk (replicate BLOCK_SIZE 0) start = replicate ENTRY_SIZE 0.
Proof. intros Hs. unfold chunk. rewrite drop_replicate, take_replicate. f_equal. lia. Qed.

Lemma empty_volume v : (forall b, in_disk b -> block_ok (v b)) -> v 0 = empty_header -> (forall b, 1 <= b <= 4 -> v b = replicate BLOCK_SIZE 0) ->
  holds ∅ v.
Proof.
  intros Hb H0 Hd. exists (replicate MAX_FILES None). split.
  - split; [done|by rewrite length_replicate|]. intros k o [-> Hk]%lookup_replicate. unfold slot_chunk.
    rewrite Hd by (by apply dir_block_range). rewrite chunk_zeros by apply dir_start_range. apply decode_empty.
  - by intros k e [? _]%lookup_replicate.
  - apply map_eq. intros i. rewrite lookup_empty. symmetry. apply eq_None_not_Some. intros [n Hn].
    apply tree_of_Some in Hn as (k & e & _ & Hk & _). by apply lookup_replicate in Hk as [? _].
  - apply empty_ok.
  - unfold header_ok. rewrite H0. done.
Qed.

Section mounting.
Context {D : Type} `{DiskLaws D}.
Implicit Types (d : D) (s : PersistentFilesystem D).

Lemma clear_directory_spec ixs d : Forall (fun i => 0 <= i < DIRECTORY_BLOCKS) ixs -> disk_ok d ->
  wp (clear_directory ixs) (fun r d' => disk_ok d' /\ (r = Ok () \/ r = Err Io) /\ (r = Ok () ->
    (forall i, i ∈ ixs -> contents d' (1 + i) = replicate BLOCK_SIZE 0) /\
    forall b, ~ (exists i, i ∈ ixs /\ b = 1 + i) -> contents d' b = contents d b)) d.
Proof.
  intros Hixs. revert d. induction Hixs as [|i ixs Hi _ IH]; intros d Hd; cbn [clear_directory].
  { rewrite wp_ret. split_and!; [done|by left|]. intros _. split; [by intros i ?%elem_of_nil|done]. }
  apply wp_try. eapply wp_mono; [apply write_io_spec; [done|unfold in_disk, DIRECTORY_START_BLOCK, DIRECTORY_BLOCKS, DISK_BLOCKS in *; lia|apply zero_block_ok]|].
  intros r d1 [Hd1 [[-> Hs]|[-> _]]]; [|split_and!; [done|by right|done]].
  eapply wp_mono; [by apply IH|]. intros r d2 (Hd2 & Hr & Hz). split_and!; [done..|]. intros Hok. destruct (Hz Hok) as [Hin Hout]. split.
  - intros j [->|Hj]%elem_of_cons; [|by apply Hin]. destruct (decide (i ∈ ixs)) as [Hi'|Hi']; [by apply Hin|].
    rewrite Hout by (intros (k & Hk & E); apply Hi'; by replace i with k by lia). rewrite Hs. unfold vput, DIRECTORY_START_BLOCK. by rewrite Z.eqb_refl.
  - intros b Hb. rewrite Hout by (intros (k & Hk & E); apply Hb; exists k; split; [by apply elem_of_cons; right|done]). rewrite Hs. unfold vput, DIRECTORY_START_BLOCK.
    destruct (Z.eqb_spec b (1 + i)) as [->|]; [|done]. destruct Hb. exists i. split; [apply elem_of_cons; by left|done].
Qed.

Lemma format_volume_spec d : disk_ok d ->
  wp format_volume (fun r d' => disk_ok d' /\ (r = Ok () /\ holds ∅ (contents d') \/ r = Err Io)) d.
Proof.
  intros Hd. unfold format_volume. do 3 (rewrite wp_bind; eapply wp_lift; [vm_compute; reflexivity|]). apply wp_try.
  eapply wp_mono; [apply (write_io_spec d HEADER_BLOCK empty_header); [done|done|apply empty_header_ok]|].
  intros r d1 [Hd1 [[-> Hs]|[-> _]]]; [|by auto].
  eapply wp_mono; [apply clear_directory_spec; [repeat constructor; done|done]|]. intros r d2 (Hd2 & [->| ->] & Hz); [|by auto].
  split; [done|left]. split; [done|]. destruct (Hz eq_refl) as [Hin Hout]. apply empty_volume; [by intros b; apply dl_block| |].
  - rewrite Hout, Hs; [done|]. intros (i & Hi & ?). assert (i = -1) as -> by lia. repeat (apply elem_of_cons in Hi as [|Hi]; [done|]). by apply elem_of_nil in Hi.
  - intros b Hb. replace b with (1 + (b - 1)) by lia. apply Hin. rewrite !elem_of_cons. lia.
Qed.

(** ** Mounting *)

Context (probe : M D (result () Block.BlockError)).
Hypothesis probe_ok : forall d, disk_ok d -> wp probe (fun _ d' => disk_ok d' /\ same (contents d) (contents d')) d.

Definition has_volume v : Prop := take 8 (v 0) = MAGIC.

Lemma initialize_disk_spec d : disk_ok d ->
  wp (initialize_disk probe) (fun r d' => disk_ok d' /\ (has_volume (contents d) -> same (contents d) (contents d')) /\
    match r with
    | Ok false => has_volume (contents d)
    | Ok true => ~ has_volume (contents d) /\ holds ∅ (contents d')
    | Err Corrupt => has_volume (contents d) /\ ~ header_ok (contents d)
    | Err e => e = Unavailable \/ e = Io
    end) d.
Proof.
  intros Hd. unfold initialize_disk. rewrite wp_bind. eapply wp_mono; [by apply probe_ok|]. intros r d1 [Hd1 Hs1].
  destruct r as [[]|e]; [|rewrite wp_ret; auto]. apply wp_try. eapply wp_mono; [by apply read_io_spec|].
  intros r d2 (Hd2 & Hs2 & [->| ->]); [|split_and!; [done|intros _; by eapply same_trans|by right]].
  assert (same (contents d) (contents d2)) as Hs by (by eapply same_trans). destruct (dl_block d1 HEADER_BLOCK Hd1 ltac:(done)) as [Hl _].
  change (HEADER_BLOCK) with 0 in *. rewrite Hs1 in Hl |- *. rewrite wp_bind. eapply wp_lift; [rewrite slice_ok by (change (length MAGIC) with 8%nat; sizes); reflexivity|].
  rewrite drop_0. change (length MAGIC - 0)%nat with 8%nat. destruct (bytes_eqb _ MAGIC) eqn:Em.
  - apply bytes_eqb_eq in Em. rewrite wp_bind. eapply wp_lift; [unfold read_u32; rewrite slice_ok by sizes; reflexivity|]. change (8 + 4 - 8)%nat with 4%nat.
    destruct (Z.eqb_spec (le_value (take 4 (drop 8 (contents d 0)))) VERSION) as [E|E]; cbn [negb]; rewrite wp_ret; (split; [done|]; split; [done|]); [done|].
    split; [done|]. by intros [_ ?].
  - apply bytes_eqb_neq in Em. apply wp_try. eapply wp_mono; [by apply format_volume_spec|].
    intros r d3 [Hd3 [[-> Hh]| ->]]; [rewrite wp_ret|]; (split; [done|]; split; [by intros ?|]); auto.
Qed.

(** [init] on any disk. *)
Definition init_post s (r : DriverState * bytes) s' : Prop :=
  disk_ok (pf_disk s') /\ (has_volume (contents (pf_disk s)) -> same (contents (pf_disk s)) (contents (pf_disk s'))) /\
  match r.1 with
  | DriverReady => pf_available s' = true /\ (has_volume (contents (pf_disk s)) \/ holds ∅ (contents (pf_disk s')))
  | st => st = Missing /\ pf_available s' = false
  end.

Lemma init_spec s : disk_ok (pf_disk s) -> wp (init probe) (init_post s) s.
Proof.
  intros Hd. unfold init. rewrite wp_bind. apply wp_with_disk. eapply wp_mono; [by apply initialize_disk_spec|]. intros r d' (Hd' & Hs & Hr).
  destruct r as [[|]|e]; rewrite wp_bind; unfold wp, modify; run; (split; [done|]; split; [done|]); cbn; [|by auto|done].
  split; [done|]. right. apply Hr.
Qed.
End mounting.

(** ** A simulated disk *)

(** What becomes of a request: it works, it is lost, or it is done and an error
    is reported.  Requests beyond the plan work. *)
Inductive fate := Works | Lost | Reported.

Record SimDisk := mkSim { sd_contents : volume; sd_plan : Datatypes.list fate }.

Definition sim_fate (d : SimDisk) : fate := default Works (head (sd_plan d)).

Definition sim_read (b : Z) : M SimDisk (result bytes Block.BlockError) := fun d =>
  Done (match sim_fate d with Works => Ok (sd_contents d b) | _ => Err Block.DeviceFault end, mkSim (sd_contents d) (tail (sd_plan d))).

Definition sim_write (b : Z) (bs : bytes) : M SimDisk (result () Block.BlockError) := fun d =>
  Done (match sim_fate d with Works => Ok () | _ => Err Block.DeviceFault end,
        mkSim (match sim_fate d with Lost => sd_contents d | _ => vput b bs (sd_contents d) end) (tail (sd_plan d))).

Definition sim_probe : M SimDisk (result () Block.BlockError) := mret (Ok ()).

#[export] Instance sim_device : BlockDevice SimDisk :=
  {| block_count := fun _ => DISK_BLOCKS; read_block := sim_read; write_block := sim_write |}.

#[export] Program Instance sim_laws : DiskLaws SimDisk :=
  {| contents := sd_contents; disk_ok := fun d => forall b, in_disk b -> block_ok (sd_contents d b) |}.
Next Obligation. auto. Qed.
Next Obligation. intros d b Hd Hb. unfold wp. cbn. split_and!; [done..|]. by destruct (sim_fate d). Qed.
Next Obligation.
  intros d b bs Hd Hb Hbs. unfold wp. cbn. split.
  - intros x Hx. destruct (sim_fate d); unfold vput; try destruct (_ =? _); auto.
  - destruct (sim_fate d); auto.
Qed.

Lemma sim_probe_ok (d : SimDisk) : disk_ok d -> wp sim_probe (fun _ d' => disk_ok d' /\ same (contents d) (contents d')) d.
Proof. intros Hd. unfold sim_probe. by rewrite wp_ret. Qed.
