(* ===== verification/PersistTheorems.v ===== *)
(** * The persistent file system: what it promises

    Whatever requests to the disk fail, a volume keeps holding a tree: the tree
    before the operation or the one it asks for.  What was written is read back
    after the machine has been restarted. *)

From stdpp Require Import gmap.
From S2P Require Import Prelude Utf8 Paths Vfs RamFs RamFsProofs FsLaws Text Storage Tree Persist PersistCodec PersistDisk PersistProofs PersistMount.
Import Persist.

Implicit Types (v : volume) (t : tree).

(** ** Requests and what they ask for *)

Inductive request :=
| QCreate (path : bytes) (ft : FileType)
| QRemove (path : bytes) (ft : FileType)
| QRename (old new : bytes).

(** The path that is parsed for a new name. *)
Definition request_ok (q : request) : Prop :=
  match q with QCreate path _ | QRename _ path => utf8 path | QRemove _ _ => True end.

(** The request is fulfilled at node [i] by the tree [t']: the new path [pp/c]
    has its parent at [pp] and its last component is [c]. *)
Definition fulfils t (q : request) (i : Z) t' : Prop :=
  match q with
  | QCreate path ft => exists pp c, names path pp c /\ created_as t (leads t pp) c ft i t'
  | QRemove path ft => removed_as t (leads t path) ft i t'
  | QRename old new => exists pp c, names new pp c /\ moved_as t (leads t old) (leads t pp) c i t'
  end.

Definition request_post t (q : request) (r : result Z FsError) t' : Prop :=
  match r with
  | Ok i => fulfils t q i t'
  | Err Io => t' = t \/ exists i, fulfils t q i t'
  | Err NoSpace => t' = t /\ forall i, 2 <= i < 2 + Z.of_nat MAX_FILES -> is_Some (t !! i)
  | Err _ => t' = t /\ forall i t'', ~ fulfils t q i t''
  end.

Section promises.
Context {D : Type} `{DiskLaws D}.
Implicit Types s : PersistentFilesystem D.

(** The operation of the backend that a request is. *)
Definition perform (q : request) : M (PersistentFilesystem D) (result Z FsError) :=
  match q with
  | QCreate path File => r ← be_create backend path; mret (match r with Ok st => Ok (bs_inode st) | Err e => Err e end)
  | QCreate path Directory => r ← be_mkdir backend path; mret (match r with Ok st => Ok (bs_inode st) | Err e => Err e end)
  | QRemove path File => be_unlink backend path
  | QRemove path Directory => be_rmdir backend path
  | QRename old new => be_rename backend old new
  end.

Lemma mounted_ok t s : mounted t s -> tree_ok 1 t.
Proof. intros Hm. destruct (mt_holds _ _ Hm) as [es Hh]. apply Hh. Qed.

(** Two nodes that a path leads to are one. *)
Ltac same_node Hok :=
  repeat match goal with
  | H1 : leads ?t ?path ?i, H2 : leads ?t ?path ?j |- _ => pose proof (leads_fun t path i j Hok H1 H2); subst; clear H2
  end.

Lemma create_answers t s path ft : mounted t s -> utf8 path ->
  wp (r ← create_node path ft; mret (match r with Ok st => Ok (bs_inode st) | Err e => Err e end))
    (fun r s' => exists t', mounted t' s' /\ request_post t (QCreate path ft) r t') s.
Proof.
  intros Hm Hu. rewrite wp_bind. eapply wp_mono; [by apply create_spec|]. intros r s' (t' & Hm' & Hr). rewrite wp_ret. exists t'. split; [done|].
  pose proof (mounted_ok t s Hm) as Hok. destruct (split_parent_ok path Hu) as (r0 & Es & Hr0). rewrite Es in Hr.
  destruct r0 as [[pp c]|e]; [|destruct Hr as [-> ->]; destruct Hr0 as [->| ->]; (split; [done|]); intros i t'' (? & ? & E%split_parent_iff & _); congruence].
  destruct r as [st|e]; [by destruct Hr as (i & Hr & ->); exists pp, c; rewrite <-split_parent_iff|]. destruct e; cbn in Hr |- *; try done.
  - destruct Hr as [-> Hno]. split; [done|]. intros i t'' (pp' & c' & E%split_parent_iff & p & Hp & _). rewrite Es in E; simplify_eq. by apply (Hno p).
  - destruct Hr as (-> & p & Hp & Hd). split; [done|]. intros i t'' (pp' & c' & E%split_parent_iff & p' & Hp' & Hd' & _). rewrite Es in E; simplify_eq. by same_node Hok.
  - destruct Hr as (-> & p & j & Hp & He). split; [done|]. intros i t'' (pp' & c' & E%split_parent_iff & p' & Hp' & _ & Hf & _). rewrite Es in E; simplify_eq. same_node Hok. by apply (Hf j).
  - destruct Hr as [->|[i Hr]]; [by left|right]. exists i, pp, c. by rewrite <-split_parent_iff.
Qed.

Lemma remove_answers t s path ft : mounted t s ->
  wp (remove_node path ft) (fun r s' => exists t', mounted t' s' /\ request_post t (QRemove path ft) r t') s.
Proof.
  intros Hm. eapply wp_mono; [by apply remove_node_spec|]. intros r s' (t' & Hm' & Hr). exists t'. split; [done|].
  pose proof (mounted_ok t s Hm) as Hok. destruct r as [i|e]; [done|]. destruct e; cbn in Hr |- *; try done.
  all: try (by destruct Hr as [->|[i Hr]]; [left|right; exists i]).
  all: destruct Hr as [-> Hr]; (split; [done|]); intros i t'' (Hl & (n & Hn & Hty) & Hleaf & _).
  - by apply (Hr i).
  - destruct Hr as (-> & j & m & Hj & Hm2 & Ht). same_node Hok. congruence.
  - destruct Hr as (-> & j & m & Hj & Hm2 & Ht). same_node Hok. congruence.
  - same_node Hok. by rewrite (to_root 1 t Hok) in Hn.
  - destruct Hr as (_ & j & k & m & Hj & Hm2 & Ht). same_node Hok. by destruct (Hleaf k m).
Qed.

Lemma rename_answers t s old new : mounted t s -> utf8 new ->
  wp (rename old new) (fun r s' => exists t', mounted t' s' /\ request_post t (QRename old new) r t') s.
Proof.
  intros Hm Hu. eapply wp_mono; [by apply persist_rename_spec|]. intros r s' (t' & Hm' & Hr). exists t'. split; [done|].
  pose proof (mounted_ok t s Hm) as Hok. unfold rename_post in Hr. destruct (split_parent_ok new Hu) as (r0 & Es & Hr0). rewrite Es in Hr.
  destruct r0 as [[pp c]|e].
  - destruct r as [i|e]; [exists pp, c; by rewrite <-split_parent_iff|]. destruct e; cbn in Hr |- *; try done.
    all: try (by destruct Hr as [->|[i Hr]]; [left|right; exists i, pp, c; rewrite <-split_parent_iff]).
    all: destruct Hr as [-> Hr]; (split; [done|]); intros i t'' (pp' & c' & E%split_parent_iff & Hs & n & p & Hn & Hp & Hd & Hf & Ha & _); rewrite Es in E; simplify_eq.
    + destruct Hr as [Hr|Hr]; naive_solver.
    + destruct Hr as (p' & Hp' & Hd'). by same_node Hok.
    + destruct Hr as (j & p' & l & Hj & Hp' & Hl & Hin). same_node Hok. by apply (Ha l).
    + destruct Hr as (p' & j & Hp' & He). same_node Hok. by apply (Hf j).
    + same_node Hok. by rewrite (to_root 1 t Hok) in Hn.
  - destruct Hr as [-> Hr]. assert (forall i t'', ~ fulfils t (QRename old new) i t'') as Hno by (intros i t'' (? & ? & E%split_parent_iff & _); congruence).
    destruct Hr as [->|[->|[[-> _]|[-> _]]]]; [by destruct Hr0 as [->| ->]|by left|done..].
Qed.

(** C7. The operations of the persistent file system are atomic.  On a mounted
    volume that holds a tree, a file or directory is created, removed or renamed
    as the tree of files says: a new node or the moved one gets the name after
    the last slash of the new path and, as parent, the directory that the text
    before that slash leads to, component by component from the root.  When the
    operation reports that a request to the disk failed, the volume holds the
    old tree or the one that was asked for, and after any other error the old
    one.  An error other than a failed request or a full directory is only
    reported when the operation cannot be done.  New paths are UTF-8 text. *)
Theorem persist_operations_atomic t s q : mounted t s -> request_ok q ->
  wp (perform q) (fun r s' => exists t', mounted t' s' /\ request_post t q r t') s.
Proof.
  intros Hm Hq. destruct q as [path [|]|path [|]|old new]; cbn -[wp mbind].
  - by apply (create_answers t s path File).
  - by apply (create_answers t s path Directory).
  - by apply remove_answers.
  - by apply remove_answers.
  - by apply rename_answers.
Qed.

(** ** Paths after a rename *)

Definition component (c : bytes) : Prop := SLASH ∉ c /\ c <> [].

Lemma utf8_vol_path cs : Forall utf8 cs -> utf8 (vol_path cs).
Proof.
  assert (utf8 [SLASH]) as H1 by (by apply utf8_valid_spec). destruct cs as [|c cs]; [done|]. intros Hcs.
  enough (utf8 (concat (map (cons SLASH) (c :: cs)))) by done. generalize (c :: cs) Hcs. clear -H1. induction 1 as [|c cs Hc _ IH]; cbn [map concat]; [constructor|].
  change (SLASH :: c) with ([SLASH] ++ c). rewrite <-app_assoc. by repeat apply utf8_app.
Qed.

(** C25. Renaming in the persistent file system moves a subtree.  When renaming a
    path to another one succeeds, the new path leads where the old one led, so do
    their extensions; the old path and its extensions lead nowhere; all other
    paths lead where they led; and the nodes keep their contents. *)
Theorem persist_rename_moves t s old ncs nc : mounted t s -> Forall component (old ++ ncs ++ [nc]) -> Forall utf8 (ncs ++ [nc]) ->
  wp (be_rename backend (vol_path old) (vol_path (ncs ++ [nc]))) (fun r s' => match r with
    | Err _ => True
    | Ok i => exists t', mounted t' s' /\
      (forall rest j, walk t' 1 (ncs ++ nc :: rest) j <-> walk t 1 (old ++ rest) j) /\
      (forall rest j, ~ walk t' 1 (old ++ rest) j) /\
      (forall cs j, ~ old `prefix_of` cs -> ~ (ncs ++ [nc]) `prefix_of` cs -> walk t' 1 cs j <-> walk t 1 cs j) /\
      (forall j n', t' !! j = Some n' -> exists n, t !! j = Some n /\ tn_type n' = tn_type n /\ tn_data n' = tn_data n /\ tn_len n' = tn_len n)
    end) s.
Proof.
  intros Hm Hcs Hu. apply Forall_app in Hcs as [Hold Hcs]. pose proof (mounted_ok t s Hm) as Hok.
  pose proof Hcs as [Hncs [Hsl Hne]%Forall_singleton]%Forall_app.
  eapply wp_mono; [apply (rename_answers t s); [done|by apply utf8_vol_path]|]. intros [i|e] s' (t' & Hm' & Hr); [|done].
  destruct Hr as (pp & c & Es%split_parent_iff & Hs & n & p & Hn & Hp & Hd & Hf & Ha & ->). rewrite split_parent_vol_path in Es by done.
  destruct (bytes_eqb nc []); [done|]. destruct (_ <? _)%nat; [done|]. simplify_eq. apply leads_vol_path in Hs, Hp; [|done..].
  exists (<[i := n <| tn_parent := p |> <| tn_name := c |>]> t). split_and!; [done|..].
  - intros rest j. by apply walk_move_new.
  - intros rest j. by eapply walk_move_old.
  - intros cs j. by apply walk_move_other.
  - intros j n' [[<- <-]|[_ Hj]]%lookup_insert_Some; [by exists n|by exists n'].
Qed.

(** ** Restarting *)

Context (probe : M D (result () Block.BlockError)).
Hypothesis probe_ok : forall d, disk_ok d -> wp probe (fun _ d' => disk_ok d' /\ same (contents d) (contents d')) d.

Lemma holds_volume t v : holds t v -> has_volume v.
Proof. intros [es Hh]. apply Hh. Qed.

(** C24. Mounting a disk.  [init] reports the driver ready or the disk missing, and
    makes the file system available exactly in the first case.  A disk that holds
    a tree is never formatted: it holds the tree afterwards, and when it is ready
    the tree is mounted.  A disk without a volume is mounted empty. *)
Theorem persist_mount s : disk_ok (pf_disk s) ->
  wp (init probe) (fun '(st, _) s' => (st = DriverReady \/ st = Missing) /\ (pf_available s' = true <-> st = DriverReady) /\
    (forall t, holds t (contents (pf_disk s)) -> holds t (contents (pf_disk s')) /\ (st = DriverReady -> mounted t s')) /\
    (~ has_volume (contents (pf_disk s)) -> st = DriverReady -> mounted ∅ s')) s.
Proof using probe_ok.
  intros Hd. eapply wp_mono; [by apply init_spec|]. intros [st detail] s' (Hd' & Hs & Hst). cbn in Hst.
  assert (forall t, holds t (contents (pf_disk s)) -> holds t (contents (pf_disk s'))) as Hkeep.
  { intros t Ht. eapply holds_same; [|exact Ht]. by eapply Hs, holds_volume. }
  destruct st; try (by destruct Hst). 
  - destruct Hst as [Ha Hv]. split_and!; [by left|done| |].
    + intros t Ht. split; [by apply Hkeep|]. intros _. split; [done|done|by apply Hkeep].
    + intros Hno _. destruct Hv as [|Hv]; [done|]. by split.
  - destruct Hst as [_ Ha]. rewrite Ha. split_and!; [by right|done| |done]. intros t Ht. split; [by apply Hkeep|done].
Qed.

Lemma remount t s : disk_ok (pf_disk s) -> holds t (contents (pf_disk s)) ->
  wp (init probe) (fun '(st, _) s' => st = DriverReady -> mounted t s') s.
Proof using probe_ok.
  intros Hd Ht. eapply wp_mono; [by apply init_spec|]. intros [st detail] s' (Hd' & Hs & Hst) Est. cbn in *. subst st.
  split; [apply Hst|done|]. eapply holds_same; [|exact Ht]. by eapply Hs, holds_volume.
Qed.

Lemma file_length t s i n : mounted t s -> is_file t i n -> length (tn_data n) = MAX_FILE_SIZE.
Proof.
  intros Hm [Hn Hty]. destruct (mt_holds _ _ Hm) as [es Hh]. apply (tree_Some es t _ Hh) in Hn as (k & e & _ & Hk & ->). cbn [node_of tn_type tn_data] in *.
  rewrite Hty, (eo_slot _ _ (ho_entries _ _ _ Hh k e Hk)). apply lookup_lt_Some in Hk. rewrite (vo_len _ _ (ho_vol _ _ _ Hh)) in Hk.
  apply length_file_data; [done|]. apply (vo_blocks _ _ (ho_vol _ _ _ Hh)).
Qed.

(** C20. What was written is read back after a restart.  When writing [src] at [off]
    of a file succeeds, and the disk is mounted again later, by a kernel that knows
    nothing but the disk, reading as many bytes at [off] gives [src] unless a
    request to the disk fails. *)
Theorem persist_write_survives_restart t s i off src out : mounted t s -> Forall is_byte src -> length out = length src ->
  wp (be_write backend i off src) (fun r s1 => is_ok r = true -> forall up,
    wp (init probe) (fun '(st, _) s2 => st = DriverReady ->
      wp (be_read backend i off out) (fun '(r, out') _ => r = Ok (length src) /\ out' = src \/ r = Err Io) s2)
    (mkFs up (pf_disk s1))) s.
Proof using probe_ok.
  intros Hm Hb Hout. eapply wp_mono; [by apply persist_write_spec|]. intros r s1 (t' & Hm1 & Hw) Hok up. destruct r as [k|e]; [|done].
  destruct Hw as (-> & Hmax & n & Hn & ->). eapply wp_mono; [apply (remount (<[i := written off src n]> t)); apply Hm1|].
  intros [st detail] s2 Hm2 Est. eapply wp_mono; [by apply persist_read_spec, Hm2|]. intros [r out'] s3 [_ [_ Hr]].
  assert (<[i := written off src n]> t !! i = Some (written off src n)) as Hi by apply lookup_insert_eq.
  destruct r as [k|e]; [left|].
  - destruct Hr as (n' & [Hn' _] & -> & ->). rewrite Hi in Hn'. injection Hn' as <-. pose proof (file_length t s i n Hm Hn) as Hlen.
    assert (Nat.min (tn_len (written off src n) - off) (length out) = length src) as -> by (cbn; lia). split; [done|]. cbn. unfold splice.
    rewrite drop_app_length' by (rewrite length_take; lia). rewrite take_app_length, <-Hout, drop_all. apply app_nil_r.
  - right. destruct e; try done; [congruence|]. destruct Hr as (n' & Hn' & Hty). rewrite Hi in Hn'. injection Hn' as <-. destruct Hn as [_ Hn]. cbn in Hty. congruence.
Qed.
End promises.

(** ** Examples *)

Definition blank_volume : volume := fun b => if b =? 0 then empty_header else replicate BLOCK_SIZE 0.
Definition demo_volume (plan : Datatypes.list fate) : PersistentFilesystem SimDisk := mkFs true (mkSim blank_volume plan).

Lemma blank_ok b : block_ok (blank_volume b).
Proof. unfold blank_volume. destruct (b =? 0); [apply empty_header_ok|apply zero_block_ok]. Qed.

Lemma demo_mounted plan : mounted ∅ (demo_volume plan).
Proof.
  split; [done|intros b _; apply blank_ok|]. apply empty_volume; [intros b _; apply blank_ok|done|]. intros b Hb. cbn. unfold blank_volume.
  by replace (b =? 0) with false by (symmetry; apply Z.eqb_neq; lia).
Qed.

(** The blank volume with an empty file [/a]; the next requests follow [plan]. *)
Definition demo_file (plan : Datatypes.list fate) : PersistentFilesystem SimDisk :=
  match perform (QCreate (str "/a") File) (demo_volume []) with Done (_, s) => mkFs true (mkSim (sd_contents (pf_disk s)) plan) | Panic => demo_volume [] end.
Definition demo_tree : tree := {[2 := fresh 1 (str "a") File]}.

Lemma demo_file_mounted plan : mounted demo_tree (demo_file plan).
Proof.
  assert (utf8 (str "/a")) as Hu by (by apply utf8_valid_spec). pose proof (create_answers ∅ (demo_volume []) (str "/a") File (demo_mounted []) Hu) as Hw.
  assert (match perform (QCreate (str "/a") File) (demo_volume []) with Done (r, _) => r = Ok 2 | Panic => False end) as Hr by (vm_compute; reflexivity).
  unfold demo_file. unfold wp in Hw. change (r ← create_node (str "/a") File; _) with (perform (D := SimDisk) (QCreate (str "/a") File)) in Hw.
  destruct (perform (QCreate (str "/a") File) (demo_volume [])) as [[r s]|]; [subst r|done]. destruct Hw as (t' & Hm & pp & c & Es%split_parent_iff & p & Hp & _ & _ & _ & _ & ->).
  vm_compute in Es. injection Es as <- <-. destruct Hp as (cs & E & Hp). vm_compute in E. injection E as <-. inversion Hp; subst.
  destruct Hm as [_ H2 H3]. split; [done|exact H2|]. exact H3.
Qed.

(** The write of the directory block is done but reported to have failed. *)
Definition demo_plan : Datatypes.list fate := [Works; Works; Works; Works; Works; Reported].

Lemma persist_operations_atomic_witness : mounted demo_tree (demo_file demo_plan) /\
  wp (perform (QRename (str "/a") (str "/b"))) (fun r s' => exists t', mounted t' s' /\ request_post demo_tree (QRename (str "/a") (str "/b")) r t') (demo_file demo_plan).
Proof.
  split; [apply demo_file_mounted|]. apply (persist_operations_atomic demo_tree (demo_file demo_plan)); [apply demo_file_mounted|].
  apply utf8_valid_spec. vm_compute. reflexivity.
Defined.

Lemma persist_rename_moves_witness : exists s' t', be_rename backend (str "/a") (str "/b") (demo_file []) = Done (Ok 2, s') /\ mounted t' s' /\
  forall rest j, walk t' 1 (str "b" :: rest) j <-> walk demo_tree 1 (str "a" :: rest) j.
Proof.
  assert (Forall component ([str "a"] ++ [] ++ [str "b"])) as Hc by (apply Forall_cons_2; [|apply Forall_singleton]; (split; [by intros ?%list_elem_of_singleton|done])).
  assert (Forall utf8 ([] ++ [str "b"])) as Hu by (by apply Forall_singleton, utf8_valid_spec).
  pose proof (persist_rename_moves demo_tree (demo_file []) [str "a"] [] (str "b") (demo_file_mounted []) Hc Hu) as Hw.
  assert (match be_rename backend (str "/a") (str "/b") (demo_file []) with Done (r, _) => r = Ok 2 | Panic => False end) as Hr by (vm_compute; reflexivity).
  unfold wp in Hw. change (vol_path [str "a"]) with (str "/a") in Hw. change (vol_path ([] ++ [str "b"])) with (str "/b") in Hw.
  destruct (be_rename backend (str "/a") (str "/b") (demo_file [])) as [[r s']|]; [subst r|destruct Hr]. destruct Hw as (t' & Hm & Hnew & _).
  exists s', t'. split; [reflexivity|]. split; [exact Hm|exact Hnew].
Defined.

Lemma persist_mount_witness : disk_ok (pf_disk (demo_file [Works])) /\
  wp (init sim_probe) (fun '(st, _) s' => (st = DriverReady \/ st = Missing) /\ (pf_available s' = true <-> st = DriverReady) /\
    (forall t, holds t (contents (pf_disk (demo_file [Works]))) -> holds t (contents (pf_disk s')) /\ (st = DriverReady -> mounted t s')) /\
    (~ has_volume (contents (pf_disk (demo_file [Works]))) -> st = DriverReady -> mounted ∅ s')) (demo_file [Works]).
Proof.
  split; [apply (demo_file_mounted [Works])|]. apply (persist_mount sim_probe sim_probe_ok). apply (demo_file_mounted [Works]).
Defined.

Lemma persist_write_survives_restart_witness :
  wp (be_write backend 2 0 (str "hello")) (fun r s1 => is_ok r = true -> forall up,
    wp (init sim_probe) (fun '(st, _) s2 => st = DriverReady ->
      wp (be_read backend 2 0 (replicate 5 0)) (fun '(r, out') _ => r = Ok 5%nat /\ out' = str "hello" \/ r = Err Io) s2)
    (mkFs up (pf_disk s1))) (demo_file []).
Proof.
  apply (persist_write_survives_restart sim_probe sim_probe_ok demo_tree (demo_file []) 2 0 (str "hello") (replicate 5 0)); [apply demo_file_mounted| |reflexivity].
  apply utf8_bytes, utf8_valid_spec. vm_compute. reflexivity.
Defined.
