(* ===== verification/Mounts.v ===== *)
(** * The mounted file systems (the statics of fs.rs)

    The root is the RAM file system, [/persist] the persistent one and [/dev]
    the device file system.  Each backend works on its part of the state; the
    laws of the three give those of the mount table. *)

From stdpp Require Import gmap.
From S2P Require Import Prelude Utf8 Paths Vfs RamFs RamFsProofs FsLaws RamFsLaws Text TextProofs DevFs Storage Tree Persist PersistCodec PersistDisk PersistProofs PersistMount PersistTheorems.

(** ** A backend on a part of the state *)

Section part.
Context {S T : Type} (get_part : S -> T) (put_part : T -> S -> S).

Definition on_part {A} (m : M T A) : M S A := fun s =>
  match m (get_part s) with Done (a, t) => Done (a, put_part t s) | Panic => Panic end.

Definition part_backend (b : Backend T) : Backend S :=
  mkBackend S (be_name b) (fun s => be_available b (get_part s))
    (fun path out => on_part (be_list b path out)) (fun path => on_part (be_stat b path))
    (fun inode off out => on_part (be_read b inode off out)) (fun inode off src => on_part (be_write b inode off src))
    (fun path => on_part (be_create b path)) (fun path => on_part (be_mkdir b path))
    (fun path => on_part (be_unlink b path)) (fun path => on_part (be_rmdir b path)) (fun old new => on_part (be_rename b old new)).

Lemma wp_on_part {A} (m : M T A) (Q : A -> S -> Prop) s : wp m (fun a t => Q a (put_part t s)) (get_part s) -> wp (on_part m) Q s.
Proof. unfold wp, on_part. by destruct (m (get_part s)) as [[a t]|]. Qed.

(** The laws of a backend on its part are laws on the state. *)
Context (mounts : list (Mount S)) (good : S -> Prop) (off_ok : S -> VfsNodeId -> nat -> Prop).
Context (tgood : T -> Prop) (toff : T -> VfsNodeId -> nat -> Prop) (id : Z) (path : bytes) (b : Backend T).
Hypothesis Hget : forall s t, get_part (put_part t s) = t.
Hypothesis Hgood : forall s, good s -> tgood (get_part s) /\ forall t, tgood t -> good (put_part t s).
Hypothesis Hoff : forall s inode off, off_ok s (mkNode id inode) off <-> toff (get_part s) (mkNode id inode) off.
Hypothesis Hother : forall s t node off, node_mount node <> id -> off_ok (put_part t s) node off <-> off_ok s node off.
Hypothesis Havail : forall m s t, m ∈ mounts -> be_available b t = be_available b (get_part s) ->
  be_available (mnt_backend m) (put_part t s) = be_available (mnt_backend m) s.
Hypothesis Hlaws : MountLaws [mkMount id path b] tgood toff (mkMount id path b).

Lemma part_kept s t : offsets_kept toff (get_part s) t -> offsets_kept off_ok s (put_part t s).
Proof using Hoff Hother Hget.
  intros Hk [i inode] off Ho. destruct (decide (i = id)) as [->|Hne]; [|by apply Hother].
  rewrite Hoff, Hget. apply Hk. by rewrite <-Hoff.
Qed.

Lemma part_laws : MountLaws mounts good off_ok (mkMount id path (part_backend b)).
Proof using Hget Hgood Hoff Hother Havail Hlaws.
  destruct Hlaws as [L1 L2 L3 L4 L5 L6 L7 L8 L9 L10]. cbn [mnt_path mnt_backend mnt_id] in *.
  split; cbn [mnt_path mnt_backend mnt_id part_backend be_list be_stat be_read be_write be_create be_mkdir be_unlink be_rmdir be_rename].
  - done.
  - intros p out s Hp [Hg Hg']%Hgood. apply wp_on_part. eapply wp_mono; [by apply L2|]. intros [r out'] t (? & ? & ?). split; [auto|]. split; [by apply part_kept|done].
  - intros p s Hp [Hg Hg']%Hgood. apply wp_on_part. eapply wp_mono; [by apply L3|]. intros r t (? & ? & Ha & Hr).
    split_and!; [auto|by apply part_kept| |].
    + intros m Hm. apply Havail; [done|]. by apply (Ha (mkMount id path b)), list_elem_of_singleton.
    + destruct r; [|done]. intros Hf. rewrite Hoff, Hget. auto.
  - intros inode off out s [Hg Hg']%Hgood Ho%Hoff. apply wp_on_part. eapply wp_mono; [by apply L4|]. intros [r out'] t (? & ? & ? & Hr).
    split_and!; [auto|by apply part_kept|done|]. destruct r; [|done]. rewrite Hoff, Hget. done.
  - intros inode off src s [Hg Hg']%Hgood Hb Ho%Hoff. apply wp_on_part. eapply wp_mono; [by apply L5|]. intros r t (? & ? & Hr).
    split_and!; [auto|by apply part_kept|]. destruct r; [|done]. by rewrite Hoff, Hget.
  - intros p s Hp [Hg Hg']%Hgood. apply wp_on_part. eapply wp_mono; [by apply L6|]. intros r t (? & ? & Hr).
    split_and!; [auto|by apply part_kept|]. destruct r; [|done]. by rewrite Hoff, Hget.
  - intros p s Hp [Hg Hg']%Hgood. apply wp_on_part. eapply wp_mono; [by apply L7|]. intros r t (? & ?). split; [auto|by apply part_kept].
  - intros p st s s1 Hp [Hg Hg']%Hgood. unfold on_part at 1. destruct (be_stat b p (get_part s)) as [[r t]|] eqn:Est; [|done].
    intros [= -> <-]. apply wp_on_part. rewrite Hget. pose proof (L3 p (get_part s) Hp Hg) as Hst. unfold wp in Hst. rewrite Est in Hst.
    destruct Hst as (Ht & _). eapply wp_mono; [by apply (L8 p st (get_part s) t)|]. intros r t' [Ht' Hk]. split; [by apply (Hgood (put_part t s)); auto|].
    intros [i inode] off Hne Ho. destruct (decide (i = id)) as [->|Hi]; [|by apply Hother]. rewrite Hoff, Hget. apply Hk; [done|]. by rewrite Hoff, Hget in Ho.
  - intros p s Hp [Hg Hg']%Hgood. apply wp_on_part. eapply wp_mono; [by apply L9|]. intros r t (? & ?). split; [auto|by apply part_kept].
  - intros p q s Hp Hq [Hg Hg']%Hgood. apply wp_on_part. eapply wp_mono; [by apply L10|]. intros r t (? & ?). split; [auto|by apply part_kept].
Qed.
End part.

(** ** The persistent file system keeps the promises *)

Section persist.
Context {D : Type} `{DiskLaws D} (id : Z) (path : bytes).
Hypothesis Hpath : utf8_valid path = true.
Implicit Types s : Persist.PersistentFilesystem D.

Definition persist_good s : Prop := disk_ok (Persist.pf_disk s) /\ (Persist.pf_available s = true -> exists t, mounted t s).

(** Every offset may be read or written: beyond the end nothing is read, and what
    does not fit is refused. *)
Definition persist_off s (node : VfsNodeId) (off : nat) : Prop := True.

Lemma mounted_good t s : mounted t s -> persist_good s.
Proof. intros Hm. split; [apply Hm|eauto]. Qed.

(** An operation on a mounted volume, or [Unavailable]. *)
Lemma good_cases {A} (m : M (Persist.PersistentFilesystem D) A) (Q : A -> Persist.PersistentFilesystem D -> Prop) s : persist_good s ->
  (Persist.pf_available s = false -> exists a, m s = Done (a, s) /\ Q a s) -> (forall t, mounted t s -> wp m Q s) -> wp m Q s.
Proof.
  intros [_ Ht] Hun Hm. destruct (Persist.pf_available s) eqn:E.
  - destruct (Ht eq_refl) as [t Hmt]. by apply (Hm t).
  - destruct (Hun eq_refl) as (a & Ea & HQ). unfold wp. by rewrite Ea.
Qed.

Ltac unavailable := intros E; eexists; split; [cbn; unfold Persist.list, Persist.read, Persist.write, Persist.stat, Persist.create_node, Persist.remove_node, Persist.rename, Persist.ensure_available; run; rewrite E; reflexivity|cbn; try done; split_and!; try done].

Theorem persist_laws : MountLaws [mkMount id path Persist.backend] persist_good persist_off (mkMount id path Persist.backend).
Proof using Hpath.
  split; cbn [mnt_path mnt_backend mnt_id Persist.backend be_list be_stat be_read be_write be_create be_mkdir be_unlink be_rmdir be_rename].
  - done.
  - intros p out s _ Hg. apply good_cases; [done|by unavailable|]. intros t Hm. eapply wp_mono; [by apply persist_list_spec|].
    intros [r out'] s' (Hm' & Hl & Hr). split_and!; [by eapply mounted_good|done..|]. by destruct r as [n|]; [destruct Hr|].
  - intros p s _ Hg. apply good_cases; [done|by unavailable|]. intros t Hm. eapply wp_mono; [by apply persist_stat_spec|].
    intros r s' [Hm' _]. split_and!; [by eapply mounted_good|done| |by destruct r]. intros m ->%list_elem_of_singleton. cbn.
    by rewrite (mt_available _ _ Hm), (mt_available _ _ Hm').
  - intros inode off out s Hg _. apply good_cases; [done|by unavailable|]. intros t Hm. eapply wp_mono; [by apply persist_read_spec|].
    intros [r out'] s' (Hm' & Hl & Hr). split_and!; [by eapply mounted_good|done..|]. destruct r as [n|]; [|done]. split; [|done]. destruct Hr as (nd & _ & -> & _). lia.
  - intros inode off src s Hg Hb _. apply good_cases; [done|by unavailable|]. intros t Hm. eapply wp_mono; [by apply persist_write_spec|].
    intros r s' (t' & Hm' & _). split_and!; [by eapply mounted_good|done|by destruct r].
  - intros p s Hp%utf8_valid_spec Hg. apply good_cases; [done|by unavailable|]. intros t Hm. eapply wp_mono; [by apply create_spec|].
    intros r s' (t' & Hm' & _). split_and!; [by eapply mounted_good|done|by destruct r].
  - intros p s Hp%utf8_valid_spec Hg. apply good_cases; [done|by unavailable|]. intros t Hm. eapply wp_mono; [by apply create_spec|].
    intros r s' (t' & Hm' & _). split; [by eapply mounted_good|done].
  - intros p st s s1 _ Hg Hst. assert (persist_good s1) as Hg1.
    { assert (wp (Persist.stat p) (fun _ s' => persist_good s') s) as Hw; [|unfold wp in Hw; by rewrite Hst in Hw].
      apply good_cases; [done|by unavailable|]. intros t Hm. eapply wp_mono; [by apply persist_stat_spec|]. intros r s' [Hm' _]. by eapply mounted_good. }
    apply good_cases; [done|by unavailable|]. intros t Hm. eapply wp_mono; [by apply remove_node_spec|].
    intros r s' (t' & Hm' & _). split; [by eapply mounted_good|done].
  - intros p s _ Hg. apply good_cases; [done|by unavailable|]. intros t Hm. eapply wp_mono; [by apply remove_node_spec|].
    intros r s' (t' & Hm' & _). split; [by eapply mounted_good|done].
  - intros p q s _ Hq%utf8_valid_spec Hg. apply good_cases; [done|by unavailable|]. intros t Hm. eapply wp_mono; [by apply persist_rename_spec|].
    intros r s' (t' & Hm' & _). split; [by eapply mounted_good|done].
Qed.
End persist.

(** ** The mount table *)

Module Mounts.
Section mounts.
Context {D : Type} `{BlockDevice D} (images : list UserlandImage) (names : list bytes).
Context (statuses : list (option DriverStatus)) (pci : list PciDevice) (network : list NetworkDevice).

Definition ROOT_MOUNT_ID : Z := 1.
Definition PERSISTENT_MOUNT_ID : Z := 2.
Definition DEVICE_MOUNT_ID : Z := 3.

(** The statics [RAM_FILESYSTEM] and [PERSISTENT_FILESYSTEM]. *)
Record FsState := mkFsState { RAM_FILESYSTEM : WritableStore; PERSISTENT_FILESYSTEM : Persist.PersistentFilesystem D }.

Definition with_ram (r : WritableStore) (s : FsState) : FsState := mkFsState r (PERSISTENT_FILESYSTEM s).
Definition with_persist (p : Persist.PersistentFilesystem D) (s : FsState) : FsState := mkFsState (RAM_FILESYSTEM s) p.

Definition ROOT_MOUNTS : list (Mount FsState) :=
  [mkMount ROOT_MOUNT_ID [SLASH] (part_backend RAM_FILESYSTEM with_ram (RamFs.backend images names));
   mkMount PERSISTENT_MOUNT_ID (str "/persist") (part_backend PERSISTENT_FILESYSTEM with_persist Persist.backend);
   mkMount DEVICE_MOUNT_ID (str "/dev") (DevFs.backend statuses pci network)].
End mounts.
Arguments FsState : clear implicits.
Arguments mkFsState {D}.
Arguments RAM_FILESYSTEM {D}.
Arguments PERSISTENT_FILESYSTEM {D}.
End Mounts.
Import Mounts.

Section root.
Context {D : Type} `{DiskLaws D} (images : list UserlandImage) (names : list bytes).
Context (statuses : list (option DriverStatus)) (pci : list PciDevice) (network : list NetworkDevice).
Implicit Types s : FsState D.
Notation mounts := (ROOT_MOUNTS images names statuses pci network).

Definition fs_good s : Prop := wf (RAM_FILESYSTEM s) /\ persist_good (PERSISTENT_FILESYSTEM s).

Definition fs_off s (node : VfsNodeId) (off : nat) : Prop :=
  if node_mount node =? ROOT_MOUNT_ID then ram_off images (RAM_FILESYSTEM s) node off
  else if node_mount node =? DEVICE_MOUNT_ID then dev_off node off else True.

Lemma root_laws : (length images <= 9 * 1000)%nat -> FsLaws mounts fs_good fs_off.
Proof.
  intros Hfew m Hm. apply elem_of_cons in Hm as [->|[->|[->|?%elem_of_nil]%elem_of_cons]%elem_of_cons]; [| | |done].
  - apply (part_laws _ _ _ _ _ wf (ram_off images)); [done| |done| | |by apply ramfs_laws].
    + intros s [H1 H2]. split; [done|]. by split.
    + intros s t node off Hne. unfold fs_off. cbn. by rewrite (proj2 (Z.eqb_neq _ _) Hne).
    + intros m s t Hm _. by apply elem_of_cons in Hm as [->|[->|[->|?%elem_of_nil]%elem_of_cons]%elem_of_cons].
  - apply (part_laws _ _ _ _ _ persist_good persist_off); [done| |done| | |by apply persist_laws].
    + intros s [H1 H2]. split; [done|]. by split.
    + done.
    + intros m s t Hm Ha. by apply elem_of_cons in Hm as [->|[->|[->|?%elem_of_nil]%elem_of_cons]%elem_of_cons].
  - by apply devfs_laws.
Qed.

(** The mount table by name. *)
Definition ram_mount : Mount (FsState D) := mkMount ROOT_MOUNT_ID [SLASH] (part_backend RAM_FILESYSTEM with_ram (RamFs.backend images names)).
Definition persist_mount_entry : Mount (FsState D) := mkMount PERSISTENT_MOUNT_ID (str "/persist") (part_backend PERSISTENT_FILESYSTEM with_persist Persist.backend).
Definition dev_mount : Mount (FsState D) := mkMount DEVICE_MOUNT_ID (str "/dev") (DevFs.backend statuses pci network).

(** Where a path leads, by its first component. *)
Definition route s (cs : list bytes) : Mount (FsState D) * bytes :=
  match cs with
  | c :: rest =>
    if bytes_eqb c (str "persist") && Persist.pf_available (PERSISTENT_FILESYSTEM s) then (persist_mount_entry, Spec.render (rev rest))
    else if bytes_eqb c (str "dev") then (dev_mount, Spec.render (rev rest))
    else (ram_mount, Spec.render (rev cs))
  | [] => (ram_mount, Spec.render [])
  end.

Lemma good_name c : c ∈ [str "persist"; str "dev"] -> Spec.good c.
Proof.
  intros Hc. repeat (apply elem_of_cons in Hc as [->|Hc]; [repeat split; try done; intros H1; apply list_elem_of_In in H1; vm_compute in H1; intuition discriminate|]).
  by apply elem_of_nil in Hc.
Qed.

Lemma name_match cs c : Forall Spec.good cs -> Spec.good c ->
  path_matches_mount (Spec.render (rev cs)) (SLASH :: c) = match cs with x :: _ => bytes_eqb x c | [] => false end /\
  forall x rest, cs = x :: rest -> x = c -> strip_mount_path (Spec.render (rev cs)) (SLASH :: c) = Spec.render (rev rest).
Proof.
  intros Hcs Hc. change (SLASH :: c) with (Spec.render [c]).
  destruct (mount_match_is_component_prefix (rev cs) [c]) as [Hm Hs]; [by apply Forall_rev|by apply Forall_singleton|]. split.
  - apply eq_true_iff_eq. rewrite Hm. destruct cs as [|x rest]; cbn.
    + split; [|done]. intros [[|? ?] [=]].
    + rewrite bytes_eqb_eq. split; [intros [l E]; by apply app_inj_tail in E as [_ ?]|intros ->; eauto].
  - intros x rest -> ->. apply Hs. done.
Qed.

Lemma root_routes s cs : Forall Spec.good cs -> resolve mounts (Spec.render (rev cs)) s = Done (Ok (route s cs), s).
Proof.
  intros Hcs. unfold resolve. run. cbn [ROOT_MOUNTS List.filter mnt_path mnt_backend be_available part_backend RamFs.backend Persist.backend DevFs.backend].
  destruct (name_match cs (str "persist") Hcs) as [Mp Sp]; [apply good_name; set_solver|].
  destruct (name_match cs (str "dev") Hcs) as [Md Sd]; [apply good_name; set_solver|].
  change (SLASH :: str "persist") with (str "/persist") in Mp, Sp. change (SLASH :: str "dev") with (str "/dev") in Md, Sd.
  rewrite Mp, Md. change (path_matches_mount _ [SLASH]) with true. cbn [andb]. unfold route. destruct cs as [|x rest]; [by rewrite andb_false_r|].
  rewrite (andb_comm (bytes_eqb x _)). destruct (Persist.pf_available _); cbn [andb]; [destruct (bytes_eqb x (str "persist")) eqn:Ep|].
  - apply bytes_eqb_eq in Ep. specialize (Sp x rest eq_refl Ep). subst x. change (bytes_eqb (str "persist") (str "dev")) with false. cbn [max_by_key].
    do 3 f_equal. cbn. by rewrite <-Sp.
  - destruct (bytes_eqb x (str "dev")) eqn:Ed; [|done]. apply bytes_eqb_eq in Ed. do 3 f_equal. cbn. by rewrite <-(Sd x rest eq_refl Ed).
  - destruct (bytes_eqb x (str "dev")) eqn:Ed; [|done]. apply bytes_eqb_eq in Ed. do 3 f_equal. cbn. by rewrite <-(Sd x rest eq_refl Ed).
Qed.

(** C9. The mount table.  A normalised path goes to the persistent file system if
    its first component is [persist] and the disk is mounted, to the device file
    system if it is [dev], and otherwise to the RAM file system; the backend gets
    the rest of the path.  On every disk, whose requests may fail, the three file
    systems keep what the system calls rely on: no operation on a UTF-8 path and no
    read or write of an open node panics, buffers keep their length, the RAM file
    system stays well formed and the disk holds a tree, and an offset that an open
    file has reached stays readable until the file is unlinked. *)
Theorem root_mounts_correct : (length images <= 9 * 1000)%nat ->
  FsLaws mounts fs_good fs_off /\
  forall s cs, Forall Spec.good cs -> resolve mounts (Spec.render (rev cs)) s = Done (Ok (route s cs), s).
Proof. intros Hfew. split; [by apply root_laws|]. intros s cs Hcs. by apply root_routes. Qed.
End root.

(** A machine without programs, whose simulated disk holds the file [/a]. *)
Definition demo_fs : FsState SimDisk := mkFsState Store.new (demo_file demo_plan).

Lemma demo_fs_good : fs_good demo_fs.
Proof. split; [apply new_wf|]. eapply mounted_good, demo_file_mounted. Qed.

Lemma root_mounts_correct_witness :
  FsLaws (ROOT_MOUNTS (D := SimDisk) [] [] [] [] []) fs_good (fs_off []) /\
  forall (s : FsState SimDisk) cs, Forall Spec.good cs -> resolve (ROOT_MOUNTS [] [] [] [] []) (Spec.render (rev cs)) s = Done (Ok (route [] [] [] [] [] s cs), s).
Proof. apply (root_mounts_correct (D := SimDisk) [] [] [] [] []). apply Nat.le_0_l. Defined.
