(* ===== verification/System.v ===== *)
(** * The system during a system call

    The state a system call handler can reach: the kernel's tables, the
    processor's page table register, the file systems, the keyboard queue, the
    console and what is known of the devices.  User pointers are dereferenced
    through the active page table ([mmu]); an access the table does not allow
    is a page fault in kernel mode, which the kernel does not survive
    ([Panic]).  [UserRange::checked] of user/syscall.rs guards each access.

    Also here: the requests to start programs (user/program.rs, user/images.rs)
    and the change of the working directory (user/process.rs). *)

From S2P Require Import Prelude Utf8 Paths Vfs RamFs Ring3 Elf AddrSpace PageTables Threads Program Ipc Process Current Text.

(** What the handlers read of the drivers. *)
Record Devices := mkDevices {
  dv_pci : list PciDevice;
  dv_network : list NetworkDevice;
  dv_status : list (option DriverStatus);
  dv_log : UartRingBuffer }.

(** [F] is the state of the file systems behind the mounts. *)
Record System (F : Type) := mkSystem {
  y_kernel : Kernel;
  y_cr3 : Z * Z;                        (* frame and flags *)
  y_kernel_p4 : option Z;               (* KERNEL_P4_FRAME *)
  y_fs : F;
  y_keys : bytes;                       (* INPUT_QUEUE.keyboard_bytes *)
  y_console : bytes;                    (* what user programs have printed *)
  y_traps : Z;                          (* SYSCALL_TRAPS *)
  y_yields : Z;                         (* USER_YIELDS *)
  y_devices : Devices }.
Arguments mkSystem {F}.
Arguments y_kernel {F}.
Arguments y_cr3 {F}.
Arguments y_kernel_p4 {F}.
Arguments y_fs {F}.
Arguments y_keys {F}.
Arguments y_console {F}.
Arguments y_traps {F}.
Arguments y_yields {F}.
Arguments y_devices {F}.

#[export] Instance eta_system {F} : Eta (System F) := fun r =>
  mkSystem (y_kernel r) (y_cr3 r) (y_kernel_p4 r) (y_fs r) (y_keys r) (y_console r) (y_traps r) (y_yields r) (y_devices r).

Section system.
Context {F : Type}.
Abbreviation Sys := (M (System F)).

(** ** Parts of the state *)

Definition with_kernel {A} (m : M Kernel A) : Sys A := fun y =>
  match m (y_kernel y) with Done (a, k) => Done (a, y <| y_kernel := k |>) | Panic => Panic end.

Definition with_fs {A} (m : M F A) : Sys A := fun y =>
  match m (y_fs y) with Done (a, f) => Done (a, y <| y_fs := f |>) | Panic => Panic end.

Definition paging (y : System F) : PagingState := mkPaging (k_addr (y_kernel y)) (y_cr3 y) (y_kernel_p4 y).

Definition set_paging (p : PagingState) (y : System F) : System F :=
  y <| y_kernel ::= (fun k => k <| k_addr := pg_addr p |>) |> <| y_cr3 := pg_cr3 p |> <| y_kernel_p4 := pg_kernel_p4 p |>.

Definition with_paging {A} (m : M PagingState A) : Sys A := fun y =>
  match m (paging y) with Done (a, p) => Done (a, set_paging p y) | Panic => Panic end.

Definition kernel : Sys Kernel := gets y_kernel.

Definition memory_of (y : System F) : memory := ad_mem (k_addr (y_kernel y)).
Definition set_memory (m : memory) (y : System F) : System F :=
  y <| y_kernel ::= (fun k => k <| k_addr ::= (fun a => a <| ad_mem := m |>) |>) |>.

(** ** User memory *)

Section mmu.
Context `{EntryOps}.
(** Where physical memory is mapped; [ad_mem] is indexed by those addresses. *)
Context (offset : Z).

Definition load_byte (v : Z) : Sys Z :=
  y ← get;
  a ← expect (mmu offset (memory_of y) false (y_cr3 y).1 v);
  mret (memory_of y a).

(** Memory holds 8 bits of [b]. *)
Definition store_byte (v b : Z) : Sys () :=
  y ← get;
  a ← expect (mmu offset (memory_of y) true (y_cr3 y).1 v);
  modify (fun y => set_memory (mem_copy (memory_of y) a [b mod 256]) y).

(** A slice of [n] bytes at [v], read or written as a whole. *)
Fixpoint load_bytes (v : Z) (n : nat) : Sys bytes :=
  match n with
  | O => mret []
  | S n => b ← load_byte v; bs ← load_bytes (v + 1) n; mret (b :: bs)
  end.

Fixpoint store_bytes (v : Z) (bs : bytes) : Sys () :=
  match bs with
  | [] => mret ()
  | b :: bs => store_byte v b;; store_bytes (v + 1) bs
  end.

(** ** Ranges of user memory (user/syscall.rs) *)

Record UserRange := mkRange { rg_ptr : Z; rg_len : Z; rg_end : Z; rg_access : UserPageAccess }.

Definition checked (ptr len : Z) (access : UserPageAccess) : Sys (result UserRange SyscallError) :=
  if (ptr =? 0) || (len =? 0) then mret (Err InvalidArgument) else
  match u64_checked_add ptr len with
  | None => mret (Err InvalidArgument)
  | Some end_ =>
    k ← kernel;
    if negb (Current.current_user_range_owned k ptr end_) then mret (Err InvalidArgument) else
    accessible ← with_paging (active_user_range_accessible (Current.current_user_address_space k) ptr len access);
    if negb accessible then mret (Err InvalidArgument) else
    mret (Ok (mkRange ptr len end_ access))
  end.

Definition as_read_slice (r : UserRange) : Sys bytes := load_bytes (rg_ptr r) (Z.to_nat (rg_len r)).

Definition user_read_range (ptr len : Z) : Sys (result UserRange SyscallError) := checked ptr len ReadAccess.
Definition user_write_range (ptr len : Z) : Sys (result UserRange SyscallError) := checked ptr len WriteAccess.

Definition MAX_PATH_LEN : Z := 128.

Definition read_user_bytes (ptr len : Z) : Sys (result bytes SyscallError) :=
  try range := user_read_range ptr len in
  bs ← as_read_slice range;
  mret (Ok bs).

Definition read_user_str (ptr len : Z) : Sys (result bytes SyscallError) :=
  if MAX_PATH_LEN <? len then mret (Err InvalidArgument) else
  try bs := read_user_bytes ptr len in
  mret (if utf8_valid bs then Ok bs else Err InvalidArgument).

Definition copy_to_user_buffer (dst_ptr dst_len : Z) (data : bytes) : Sys (result Z SyscallError) :=
  if dst_len <? Z.of_nat (length data) then mret (Err InvalidArgument) else
  try range := user_write_range dst_ptr (Z.of_nat (length data)) in
  store_bytes (rg_ptr range) data;;
  mret (Ok (Z.of_nat (length data))).

(** [f(range.as_write_slice())]: [f] is given the bytes of the range and
    returns what it leaves there. *)
Definition with_slice {A} (range : UserRange) (f : bytes -> Sys (A * bytes)) : Sys A :=
  out ← load_bytes (rg_ptr range) (Z.to_nat (rg_len range));
  '(a, out) ← f out;
  store_bytes (rg_ptr range) out;;
  mret a.

End mmu.

(** ** Starting programs (user/images.rs, user/program.rs) *)

Section requests.
Context (images : list UserlandImage).

Definition find_path_by_name (name : bytes) : bytes :=
  match List.find (fun i => bytes_eqb (im_name i) name) images with Some i => im_path i | None => [] end.

(** [(!normalized.is_empty()).then_some(normalized)] *)
Definition nonempty (path : bytes) : option bytes := match path with [] => None | _ => Some path end.

Definition normalize_image_path (path : bytes) : option bytes :=
  match RamFs.images_find images path with
  | Some image => Some (im_path image)
  | None =>
    match strip_prefix path (str "bin/") with
    | Some name =>
      match RamFs.images_find images path with
      | Some image => Some (im_path image)
      | None => nonempty (find_path_by_name name)
      end
    | None => nonempty (find_path_by_name path)
    end
  end.

Definition find_image (path : bytes) : option UserlandImage :=
  normalized ← normalize_image_path path; RamFs.images_find images normalized.

Definition request_path_with_arg_and_mode (path : bytes) (arg : option bytes) (job_mode : JobMode) :
    M Kernel (result Z ProgramError) :=
  match find_image path with
  | None => mret (Err PNotFound)
  | Some image =>
    try arg := lift (Arg.from_path (default (Programs.default_arg_for (im_name image)) arg)) in
    pid ← Table.reserve_pid;
    k ← get;
    let parent_pid := match k_current_process k with Some pid => Some pid | None => Some 1 end in
    with_programs (Programs.queue_program (im_name image) (im_path image) pid parent_pid arg job_mode);;
    mret (Ok pid)
  end.

Definition request_path_with_arg (path : bytes) (arg : option bytes) : M Kernel (result Z ProgramError) :=
  request_path_with_arg_and_mode path arg Foreground.

Definition request_path_background (path : bytes) (arg : option bytes) : M Kernel (result Z ProgramError) :=
  request_path_with_arg_and_mode path arg Background.

Definition request_path (path : bytes) : M Kernel (result Z ProgramError) := request_path_with_arg path None.

Definition request_boot_init : M Kernel (result Z ProgramError) :=
  match find_image (str "init") with
  | None => mret (Err PNotFound)
  | Some image =>
    pid ← Table.reserve_pid;
    try arg := lift (Arg.from_path (Programs.default_arg_for (im_name image))) in
    with_programs (Programs.queue_program (im_name image) (im_path image) pid None arg Foreground);;
    mret (Ok pid)
  end.
End requests.

(** ** The working directory (user/process.rs) *)

Definition change_current_working_directory (mounts : list (Mount F)) (path : bytes) : Sys (result NormalizedPath FsError) :=
  k ← kernel;
  match k_current_process k with
  | None => mret (Err NotFound)
  | Some pid =>
    let cwd := default Path.root (Table.cwd_for k pid) in
    cwd_text ← lift (Path.as_str cwd);
    try next := lift (Path.normalize_path_from cwd_text path) in
    next_text ← lift (Path.as_str next);
    try st := with_fs (stat mounts next_text) in
    if negb (FileType_eqb (fs_file_type st) Directory) then mret (Err NotDirectory) else
    with_kernel (Table.set_cwd pid next);;
    mret (Ok next)
  end.

End system.
