(* ===== verification/Syscall.v ===== *)
(** * System calls (user/syscall.rs)

    The interrupt 0x80 dispatcher and every handler.  The file systems behind
    the mounts and the list of program images, which the build generates, are
    parameters; [offset] is where physical memory is mapped.  What the handlers
    print to the serial line is not part of the state. *)

From S2P Require Import Prelude Utf8 Paths Vfs RamFs Ring3 Elf AddrSpace PageTables Threads Program Ipc Process Current Text System.

(** ** Numbers *)

Definition SYS_EXIT : Z := 1.
Definition SYS_WRITE : Z := 2.
Definition SYS_UPTIME : Z := 3.
Definition SYS_GETUID : Z := 4.
Definition SYS_GETGID : Z := 5.
Definition SYS_WHOAMI : Z := 6.
Definition SYS_LISTDIR : Z := 7.
Definition SYS_READ_FILE : Z := 8.
Definition SYS_STAT : Z := 9.
Definition SYS_OPEN : Z := 10.
Definition SYS_READ : Z := 11.
Definition SYS_CLOSE : Z := 12.
Definition SYS_EXEC : Z := 13.
Definition SYS_WAIT : Z := 14.
Definition SYS_WAITPID : Z := SYS_WAIT.
Definition SYS_PROCS : Z := 15.
Definition SYS_KILL : Z := 16.
Definition SYS_YIELD : Z := 17.
Definition SYS_EXEC_BG : Z := 18.
Definition SYS_SLEEP_MS : Z := 19.
Definition SYS_GETCWD : Z := 20.
Definition SYS_CHDIR : Z := 21.
Definition SYS_SETUSER : Z := 22.
Definition SYS_REBOOT : Z := 23.
Definition SYS_PCI_LIST : Z := 24.
Definition SYS_NETDEV_LIST : Z := 25.
Definition SYS_KLOG_READ : Z := 26.
Definition SYS_DRIVER_STATUS : Z := 27.
Definition SYS_ABI_INFO : Z := 28.
Definition SYS_THREAD_CREATE : Z := 29.
Definition SYS_THREAD_EXIT : Z := 30.
Definition SYS_THREAD_JOIN : Z := 31.
Definition SYS_THREAD_SPAWN : Z := 32.
Definition SYS_PIPE : Z := 33.
Definition SYS_EVENT_CREATE : Z := 34.
Definition SYS_EVENT_WAIT : Z := 35.
Definition SYS_EVENT_SIGNAL : Z := 36.
Definition SYS_EVENT_CLOSE : Z := 37.
Definition SYS_MSGQ_CREATE : Z := 38.
Definition SYS_MSGQ_SEND : Z := 39.
Definition SYS_MSGQ_RECV : Z := 40.
Definition SYS_MSGQ_CLOSE : Z := 41.
Definition SYS_SIGPROCMASK : Z := 42.
Definition SYS_SIGPENDING : Z := 43.
Definition SYS_SIGACTION : Z := 44.
Definition SYS_SIGRETURN : Z := 45.
Definition SYS_GETPGRP : Z := 46.
Definition SYS_SETPGID : Z := 47.
Definition SYS_GETSID : Z := 48.
Definition SYS_SETSID : Z := 49.
Definition SYS_CREATE : Z := 50.
Definition SYS_UNLINK : Z := 51.
Definition SYS_RENAME : Z := 52.
Definition SYS_MKDIR : Z := 53.
Definition SYS_RMDIR : Z := 54.

Definition ABI_VERSION_MAJOR : Z := 1.
Definition ABI_VERSION_MINOR : Z := 12.
Definition ABI_VERSION : Z := Z.lor (Z.shiftl ABI_VERSION_MAJOR 32) ABI_VERSION_MINOR.

Definition SYSCALL_RETURN_TO_KERNEL : Z := u64_max.
Definition MAX_WRITE_LEN : Z := 1024.
Definition MAX_READ_LEN : Z := 1024.
Definition MIN_USER_THREAD_STACK_SIZE : Z := 1024.
Definition MAX_USER_THREAD_STACK_SIZE : Z := 64 * 1024.
Definition DIRECTORY_READ_BUFFER_SIZE : nat := 2048.
Definition STDIN : Z := 0.

(** The discriminant of the error, [err as i64 as u64]. *)
Definition error_code (e : SyscallError) : Z :=
  2 ^ 64 + match e with
           | UnknownSyscall => -1 | InvalidArgument => -2 | NotImplemented => -3 | NoSuchProcess => -4
           | NotChild => -5 | WouldBlock => -6 | PermissionDenied => -7
           end.

Definition encode (r : result Z SyscallError) : Z := match r with Ok v => v | Err e => error_code e end.

Record SyscallFrame := mkFrame {
  sf_number : Z; sf_arg0 : Z; sf_arg1 : Z; sf_arg2 : Z; sf_arg3 : Z; sf_arg4 : Z; sf_arg5 : Z;
  sf_user_rip : Z; sf_user_rsp : Z; sf_user_rflags : Z; sf_rbx : Z; sf_rcx : Z; sf_rdx : Z; sf_rsi : Z; sf_rdi : Z;
  sf_rbp : Z; sf_r8 : Z; sf_r9 : Z; sf_r10 : Z; sf_r11 : Z; sf_r12 : Z; sf_r13 : Z; sf_r14 : Z; sf_r15 : Z }.

(** [UserResumeContext::from_syscall_frame] (user/process.rs) *)
Definition from_syscall_frame (f : SyscallFrame) : UserResumeContext :=
  mkCtx (sf_user_rip f) (sf_user_rsp f) (sf_user_rflags f) (sf_rbx f) (sf_rcx f) (sf_rdx f) (sf_rsi f) (sf_rdi f)
        (sf_rbp f) (sf_r8 f) (sf_r9 f) (sf_r10 f) (sf_r11 f) (sf_r12 f) (sf_r13 f) (sf_r14 f) (sf_r15 f) 0.

Definition SIGTERM_MASK : Z := Z.shiftl 1 (SIGTERM - 1).
Definition TIMER_HZ : Z := 100.

(** [u32::try_from(value).map_err(|_| InvalidArgument)?] *)
Definition to_u32 (value : Z) : result Z SyscallError := if value <=? u32_max then Ok value else Err InvalidArgument.

(** [timer::uptime_ms] *)
Definition uptime_ms (ticks : Z) : outcome Z := if ticks * 1000 <=? u64_max then Done (ticks * 1000 / TIMER_HZ) else Panic.

Definition hex_digit (n : Z) : Z := if n <=? 9 then 48 + n else 87 + n.

(** What [print!] shows of bytes that are not text. *)
Definition bytes_dump (bs : bytes) : bytes :=
  str "[USER bytes]" ++ concat (map (fun b => [SPACE; hex_digit (b / 16); hex_digit (b mod 16)]) bs) ++ [NEWLINE].

(** The bytes of a [UserFileStat]: size, readonly, file type, inode. *)
Definition stat_bytes (st : FileStat) : bytes :=
  le_bytes 8 (Z.of_nat (fs_size st)) ++ le_bytes 8 (Z.b2z (fs_readonly st)) ++
  le_bytes 8 (match fs_file_type st with File => 1 | Directory => 2 end) ++ le_bytes 8 (node_inode (fs_node st)).

Definition map_process_group_error (e : Table.ProcessGroupError) : SyscallError :=
  match e with
  | Table.GMissing => NoSuchProcess
  | Table.GNotChild | Table.GDifferentSession => PermissionDenied
  | Table.GSessionLeader | Table.GGroupMissing | Table.GGroupLeader => InvalidArgument
  end.

Section handlers.
Context `{EntryOps} {F : Type}.
Context (offset : Z) (mounts : list (Mount F)) (images : list UserlandImage).
Abbreviation Sys := (M (System F)).
Abbreviation Answer := (Sys (result Z SyscallError)).

Notation read_user_str := (read_user_str offset).
Notation read_user_bytes := (read_user_bytes offset).
Notation copy_to_user_buffer := (copy_to_user_buffer offset).
Notation store_byte := (store_byte offset).
Notation store_bytes := (store_bytes offset).
Notation with_slice := (with_slice offset).

Definition invalid {A} : Sys (result A SyscallError) := mret (Err InvalidArgument).

(** [current_user_pid().ok_or(InvalidArgument)?] *)
Definition current_pid : Sys (result Z SyscallError) :=
  k ← kernel; mret (ok_or (k_current_process k) InvalidArgument).

Definition with_ipc {A} (m : M IpcState A) : Sys A := with_kernel (with_ipc m).
Definition modify_ipc (f : IpcState -> IpcState) : Sys () := with_ipc (modify f).
Definition ipc : Sys IpcState := gets (fun y => k_ipc (y_kernel y)).

(** [.map_err(|_| InvalidArgument)] on a file system result *)
Definition fs_call {A} (m : M F (result A FsError)) : Sys (result A SyscallError) :=
  r ← with_fs m; mret (map_err (fun _ => InvalidArgument) r).

Definition current_credentials (k : Kernel) : ProcessCredentials := default Credentials.root (Current.current_user_credentials k).

(** [current_cwd().as_str()] *)
Definition current_cwd : Sys bytes :=
  k ← kernel; lift (Path.as_str (default Path.root (Current.current_working_directory k))).

(** ** Threads *)

(** [entry] lies in the program of the current process and may be read. *)
Definition check_entry (entry : Z) : Sys (result () SyscallError) :=
  k ← kernel;
  match Current.current_user_layout k with
  | None => invalid
  | Some layout =>
    if (entry <? program_start layout) || (program_end layout <=? entry) then invalid else
    try _ := checked entry 1 ReadAccess in
    mret (Ok ())
  end.

Definition spawn_user_thread (entry arg : Z) : Answer :=
  try _ := check_entry entry in
  tid ← with_kernel (Current.create_current_managed_user_thread entry arg);
  mret (ok_or tid InvalidArgument).

Definition join_user_thread (frame : SyscallFrame) : Answer :=
  try target_tid := mret (to_u32 (sf_arg0 frame)) in
  r ← with_kernel (Current.join_current_thread target_tid (from_syscall_frame frame));
  mret (match r with
        | Table.JCompleted => Ok 0
        | Table.JBlocked => Ok SYSCALL_RETURN_TO_KERNEL
        | Table.JMissing | Table.JNotSibling | Table.JSelfJoin | Table.JDeadlock | Table.JAlreadyReaped =>
          Err InvalidArgument
        end).

Definition create_user_thread (entry stack_ptr stack_len arg : Z) : Answer :=
  if (stack_len <? MIN_USER_THREAD_STACK_SIZE) || (MAX_USER_THREAD_STACK_SIZE <? stack_len) then invalid else
  try _ := check_entry entry in
  try _ := checked stack_ptr stack_len WriteAccess in
  match u64_checked_add stack_ptr stack_len with
  | None => invalid
  | Some stack_top =>
    let aligned_top := Z.land stack_top (u64_not 0xF) in
    match u64_checked_sub aligned_top 8 with
    | None => invalid
    | Some initial_rsp =>
      if initial_rsp <? stack_ptr then invalid else
      tid ← with_kernel (Current.create_current_user_thread entry stack_ptr stack_top initial_rsp arg);
      mret (ok_or tid InvalidArgument)
    end
  end.

Definition user_yield (frame : SyscallFrame) : Answer :=
  k ← kernel;
  if negb (Programs.has_pending (k_programs k) || Current.has_ready_thread_except_current k) then mret (Ok 0) else
  y ← get;
  if y_yields y =? u64_max then panic else
  modify (fun y => y <| y_yields ::= u64_wrapping_incr |>);;
  with_kernel Current.record_current_thread_yield;;
  with_kernel Current.consume_timer_preempt_request_for_yield;;
  r ← with_kernel (Current.checkout_current_user_if_yielded (from_syscall_frame frame));
  mret (match r with Some _ => Ok SYSCALL_RETURN_TO_KERNEL | None => Err InvalidArgument end).

Definition sleep_current_user (frame : SyscallFrame) : Answer :=
  let duration_ms := sf_arg0 frame in
  if duration_ms =? 0 then mret (Ok 0) else
  let ticks_to_sleep := Z.max 1 (div_ceil (u64_saturating_mul duration_ms TIMER_HZ) 1000) in
  k ← kernel;
  let wake_tick := u64_saturating_add (k_ticks k) ticks_to_sleep in
  ok ← with_kernel (Current.mark_current_user_sleeping wake_tick (from_syscall_frame frame));
  if negb ok then invalid else mret (Ok SYSCALL_RETURN_TO_KERNEL).

(** ** Information *)

Definition uptime_to_user (out_ptr out_len : Z) : Answer :=
  k ← kernel;
  uptime ← lift (uptime_ms (k_ticks k));
  if (out_ptr =? 0) && (out_len =? 0) then mret (Ok uptime) else
  '(len, buffer) ← lift (format_u64_decimal uptime (replicate 20 0));
  text ← lift (slice buffer 0 len);
  copy_to_user_buffer out_ptr out_len text.

Definition whoami_to_user (out_ptr out_len : Z) : Answer :=
  k ← kernel;
  name ← lift (Credentials.username (current_credentials k));
  copy_to_user_buffer out_ptr out_len name.

(** The listings: a buffer of at most 1024 bytes, filled by [f]. *)
Definition listing_to_user (out_ptr out_len : Z) (f : bytes -> outcome (nat * bytes)) : Answer :=
  if (out_len =? 0) || (MAX_READ_LEN <? out_len) then invalid else
  try range := user_write_range out_ptr out_len in
  written ← with_slice range (fun out => lift (f out));
  mret (Ok (Z.of_nat written)).

(** [written.min(out.len())] *)
Definition capped (f : bytes -> outcome (nat * bytes)) (out : bytes) : outcome (nat * bytes) :=
  '(written, out) ← f out; mret (Nat.min written (length out), out).

Definition procs_to_user (out_ptr out_len : Z) : Answer :=
  y ← get;
  listing_to_user out_ptr out_len (capped (fun out =>
    write_processes_to_buffer (y_kernel y) out (y_traps y) (y_yields y) (Programs.pending_count (k_programs (y_kernel y))))).

Definition pci_list_to_user (out_ptr out_len : Z) : Answer :=
  y ← get; listing_to_user out_ptr out_len (capped (write_pci_devices_to_buffer (dv_pci (y_devices y)))).

Definition netdev_list_to_user (out_ptr out_len : Z) : Answer :=
  y ← get; listing_to_user out_ptr out_len (capped (write_network_devices_to_buffer (dv_network (y_devices y)))).

Definition kernel_log_to_user (out_ptr out_len : Z) : Answer :=
  y ← get; listing_to_user out_ptr out_len (Uart.copy_recent_log (dv_log (y_devices y))).

Definition driver_status_to_user (out_ptr out_len : Z) : Answer :=
  y ← get; listing_to_user out_ptr out_len (write_statuses_to_buffer (dv_status (y_devices y))).

(** ** Files *)

(** A call of the VFS that fills a buffer of the user. *)
Definition fill_user_buffer (out_ptr out_len : Z) (f : bytes -> M F (result nat FsError * bytes)) : Answer :=
  try range := user_write_range out_ptr out_len in
  r ← with_slice range (fun out => with_fs (f out));
  mret (match r with Ok written => Ok (Z.of_nat written) | Err _ => Err InvalidArgument end).

Definition list_dir_to_user (path_ptr path_len out_ptr out_len : Z) : Answer :=
  try path := read_user_str path_ptr path_len in
  cwd ← current_cwd;
  fill_user_buffer out_ptr out_len (list_to_buffer mounts cwd path).

Definition read_file_to_user (path_ptr path_len out_ptr out_len : Z) : Answer :=
  try path := read_user_str path_ptr path_len in
  cwd ← current_cwd;
  fill_user_buffer out_ptr out_len (read_to_buffer mounts cwd path).

Definition stat_to_user (path_ptr path_len out_ptr out_len : Z) : Answer :=
  try path := read_user_str path_ptr path_len in
  cwd ← current_cwd;
  try st := fs_call (stat_from mounts cwd path) in
  copy_to_user_buffer out_ptr out_len (stat_bytes st).

Definition getcwd_to_user (out_ptr out_len : Z) : Answer :=
  cwd ← current_cwd; copy_to_user_buffer out_ptr out_len cwd.

Definition chdir_user (path_ptr path_len : Z) : Answer :=
  try path := read_user_str path_ptr path_len in
  r ← change_current_working_directory mounts path;
  mret (match r with Ok _ => Ok 0 | Err _ => Err InvalidArgument end).

Definition set_current_user (name_ptr name_len : Z) : Answer :=
  try name := read_user_str name_ptr name_len in
  trimmed ← lift (Credentials.trim_ascii_spaces name);
  match trimmed with
  | [] => invalid
  | _ => ok ← with_kernel (Current.set_current_user_credentials name); if (ok : bool) then mret (Ok 0) else invalid
  end.

Definition descriptor_for_target (t : OpenTarget) : Descriptor :=
  match ot_file_type t with File => DFile t 0 | Directory => DDirectory (ot_path t) 0 end.

(** A descriptor for the current process in the first free slot. *)
Definition install (descriptor : Descriptor) : Answer :=
  try pid := current_pid in
  s ← ipc;
  match Fds.next_fd_for_pid (ip_files s) pid with
  | None => invalid
  | Some fd =>
    if negb (existsb (fun e => negb (is_some e)) (ip_files s)) then invalid else
    modify_ipc (fun s => s <| ip_files ::= find_upd (fun e => negb (is_some e)) (fun _ => Some (mkOpen pid fd descriptor)) |>);;
    mret (Ok fd)
  end.

Definition open_file (path_ptr path_len : Z) : Answer :=
  try path := read_user_str path_ptr path_len in
  cwd ← current_cwd;
  try target := fs_call (open_from mounts cwd path) in
  install (descriptor_for_target target).

Definition create_file (path_ptr path_len : Z) : Answer :=
  try path := read_user_str path_ptr path_len in
  cwd ← current_cwd;
  try target := fs_call (create_from mounts cwd path) in
  install (DFile target 0).

(** Some descriptor of some process is open on the node. *)
Definition node_open (node : VfsNodeId) (files : list (option OpenFile)) : bool :=
  existsb (fun e => match e with
                    | Some f => match of_descriptor f with DFile t _ => VfsNodeId_eqb (ot_node t) node | _ => false end
                    | None => false
                    end) files.

Definition unlink_file (path_ptr path_len : Z) : Answer :=
  try path := read_user_str path_ptr path_len in
  cwd ← current_cwd;
  try target := fs_call (open_from mounts cwd path) in
  if ot_readonly target || negb (FileType_eqb (ot_file_type target) File) then mret (Err PermissionDenied) else
  s ← ipc;
  if node_open (ot_node target) (ip_files s) then mret (Err WouldBlock) else
  try _ := fs_call (unlink_from mounts cwd path) in
  mret (Ok 0).

Definition mkdir_user (path_ptr path_len : Z) : Answer :=
  try path := read_user_str path_ptr path_len in
  cwd ← current_cwd;
  try _ := fs_call (mkdir_from mounts cwd path) in
  mret (Ok 0).

Definition rmdir_user (path_ptr path_len : Z) : Answer :=
  try path := read_user_str path_ptr path_len in
  cwd ← current_cwd;
  try _ := fs_call (rmdir_from mounts cwd path) in
  mret (Ok 0).

Definition rename_file (old_ptr old_len new_ptr new_len : Z) : Answer :=
  try old_path := read_user_str old_ptr old_len in
  try new_path := read_user_str new_ptr new_len in
  cwd ← current_cwd;
  try _ := fs_call (rename_from mounts cwd old_path new_path) in
  mret (Ok 0).

(** ** Descriptors *)

Definition is_open (pid fd : Z) (e : option OpenFile) : bool :=
  match e with Some f => Fds.is_file pid fd f | None => false end.

Definition find_open (pid fd : Z) (s : IpcState) : option Descriptor :=
  match List.find (is_open pid fd) (ip_files s) with Some (Some f) => Some (of_descriptor f) | _ => None end.

Definition set_open (pid fd : Z) (d : Descriptor) : Sys () :=
  modify_ipc (fun s => s <| ip_files ::= find_upd (is_open pid fd)
    (fun e => match e with Some f => Some (mkOpen (of_pid f) (of_fd f) d) | None => None end) |>).

(** [pipes.iter_mut().flatten().find(...)] followed by the operation [m] *)
Definition on_pipe {A} (pipe_id pid : Z) (m : M Pipe (result nat SyscallError * A)) (a : A) :
    Sys (result nat SyscallError * A) :=
  s ← ipc;
  match List.find (Fds.is_pipe pipe_id pid) (ip_pipes s) with
  | Some (Some p) =>
    '(r, p) ← lift (m p);
    modify_ipc (fun s => s <| ip_pipes ::= find_upd (Fds.is_pipe pipe_id pid) (fun _ => Some p) |>);;
    mret r
  | _ => mret (Err InvalidArgument, a)
  end.

Definition read_pipe (pipe_id pid : Z) (destination : bytes) : Sys (result nat SyscallError * bytes) :=
  on_pipe pipe_id pid (PipeOps.read destination) destination.

Definition write_pipe (fd : Z) (source : bytes) : Sys (result nat SyscallError) :=
  try pid := current_pid in
  s ← ipc;
  match find_open pid fd s with
  | Some (DPipeWrite pipe_id) =>
    r ← on_pipe pipe_id pid (r ← PipeOps.write source; mret (r, ())) (); mret r.1
  | _ => invalid
  end.

Definition write_descriptor (fd : Z) (source : bytes) : Sys (result nat SyscallError) :=
  try pid := current_pid in
  s ← ipc;
  match find_open pid fd s with
  | None => invalid
  | Some (DFile target off) =>
    if ot_readonly target then mret (Err PermissionDenied) else
    try written := fs_call (write_node mounts (ot_node target) off source) in
    set_open pid fd (DFile target (off + written));;
    mret (Ok written)
  | Some (DPipeWrite _) => write_pipe fd source
  | Some (DDirectory _ _) | Some (DPipeRead _) => invalid
  end.

Definition write_user_buffer (fd ptr len : Z) : Answer :=
  if MAX_WRITE_LEN <? len then invalid else
  try bs := read_user_bytes ptr len in
  if negb (fd =? 1) && negb (fd =? 2) then
    try written := write_descriptor fd bs in
    mret (Ok (Z.of_nat written))
  else
    modify (fun y => y <| y_console ::= (fun c => c ++ if utf8_valid bs then bs else bytes_dump bs) |>);;
    mret (Ok len).

(** The loop of [read_stdin_to_user]: one key per round. *)
Fixpoint stdin_loop (n : nat) (out_ptr count : Z) : Answer :=
  match n with
  | O => mret (Ok count)
  | S n =>
    y ← get;
    match y_keys y with
    | [] => mret (if count =? 0 then Err WouldBlock else Ok count)
    | byte :: keys =>
      modify (fun y => y <| y_keys := keys |>);;
      store_byte (out_ptr + count) byte;;
      if byte =? NEWLINE then mret (Ok (count + 1)) else stdin_loop n out_ptr (count + 1)
    end
  end.

Definition read_stdin_to_user (out_ptr out_len : Z) : Answer :=
  if (out_len =? 0) || (MAX_READ_LEN <? out_len) then invalid else
  try _ := user_write_range out_ptr out_len in
  stdin_loop (Z.to_nat out_len) out_ptr 0.

Definition read_fd_to_user (fd out_ptr out_len : Z) : Answer :=
  if MAX_READ_LEN <? out_len then invalid else
  try range := user_write_range out_ptr out_len in
  if fd =? STDIN then read_stdin_to_user out_ptr out_len else
  try pid := current_pid in
  s ← ipc;
  match find_open pid fd s with
  | None => invalid
  | Some (DFile target off) =>
    r ← with_slice range (fun out => with_fs (read_node mounts (ot_node target) off out));
    match r with
    | Err _ => invalid
    | Ok count => set_open pid fd (DFile target (off + count));; mret (Ok (Z.of_nat count))
    end
  | Some (DDirectory path off) =>
    text ← lift (Path.as_str path);
    '(r, listing) ← with_fs (list_to_buffer mounts [SLASH] text (replicate DIRECTORY_READ_BUFFER_SIZE 0));
    match r with
    | Err _ => invalid
    | Ok len =>
      let count := Nat.min (len - off) (Z.to_nat out_len) in
      part ← lift (slice listing off (off + count));
      with_slice range (fun out => out ← lift (copy_slice out 0 count part); mret ((), out));;
      set_open pid fd (DDirectory path (off + count));;
      mret (Ok (Z.of_nat count))
    end
  | Some (DPipeRead pipe_id) =>
    r ← with_slice range (fun out => read_pipe pipe_id pid out);
    mret (result_map Z.of_nat r)
  | Some (DPipeWrite _) => invalid
  end.

Definition close_fd (fd : Z) : Answer :=
  try pid := current_pid in
  try _ := with_ipc (Fds.close_fd_for_pid pid fd) in
  mret (Ok 0).

Definition create_pipe (out_ptr out_len : Z) : Answer :=
  if out_len <? 16 then invalid else
  try range := user_write_range out_ptr 16 in
  try pid := current_pid in
  s ← ipc;
  let files := ip_files s in
  match Fds.next_fd_for_pid files pid with
  | None => invalid
  | Some read_fd =>
    match Fds.next_fd_for_pid_excluding files pid read_fd with
    | None => invalid
    | Some write_fd =>
      match position (fun e => negb (is_some e)) files with
      | None => invalid
      | Some read_slot =>
        match List.find (fun i => negb (i =? read_slot)%nat &&
                                  match files !! i with Some e => negb (is_some e) | None => false end)
                (seq 0 (length files)) with
        | None => invalid
        | Some write_slot =>
          let pipe_id := ip_next_pipe_id s in
          modify_ipc (fun s => s <| ip_next_pipe_id ::= u64_wrapping_incr |>);;
          if negb (existsb (fun p => negb (is_some p)) (ip_pipes s)) then mret (Err WouldBlock) else
          modify_ipc (fun s => s
            <| ip_pipes ::= find_upd (fun p => negb (is_some p)) (fun _ => Some (PipeOps.new pipe_id pid)) |>
            <| ip_files ::= (fun l => <[write_slot := Some (mkOpen pid write_fd (DPipeWrite pipe_id))]>
                                       (<[read_slot := Some (mkOpen pid read_fd (DPipeRead pipe_id))]> l)) |>);;
          store_bytes (rg_ptr range) (le_bytes 8 read_fd ++ le_bytes 8 write_fd);;
          mret (Ok 0)
        end
      end
    end
  end.

(** ** Events *)

Definition is_event (handle pid : Z) (e : option Event) : bool :=
  match e with Some e => (ev_id e =? handle) && (ev_owner_pid e =? pid) | None => false end.

Definition find_event (handle pid : Z) (s : IpcState) : option Event :=
  match List.find (is_event handle pid) (ip_events s) with Some (Some e) => Some e | _ => None end.

Definition put_event (handle pid : Z) (e : option Event) : Sys () :=
  modify_ipc (fun s => s <| ip_events ::= find_upd (is_event handle pid) (fun _ => e) |>).

Definition create_event : Answer :=
  try pid := current_pid in
  s ← ipc;
  let id := ip_next_event_id s in
  modify_ipc (fun s => s <| ip_next_event_id ::= u64_wrapping_incr |>);;
  if negb (existsb (fun e => negb (is_some e)) (ip_events s)) then mret (Err WouldBlock) else
  modify_ipc (fun s => s <| ip_events ::= find_upd (fun e => negb (is_some e)) (fun _ => Some (EventOps.new id pid)) |>);;
  mret (Ok id).

Definition wait_event (handle : Z) (frame : SyscallFrame) : Answer :=
  try pid := current_pid in
  k ← kernel;
  try tid := mret (ok_or (k_current_thread k) InvalidArgument) in
  s ← ipc;
  match find_event handle pid s with
  | None => invalid
  | Some e =>
    if ev_signaled e then put_event handle pid (Some (e <| ev_signaled := false |>));; mret (Ok 0) else
    '(queued, e) ← lift (EventOps.enqueue tid e);
    put_event handle pid (Some e);;
    if negb queued then mret (Err WouldBlock) else
    blocked ← with_kernel (Current.block_current_thread (from_syscall_frame frame));
    match blocked with
    | None =>
      '(_, e) ← lift (EventOps.remove tid e);
      put_event handle pid (Some e);;
      invalid
    | Some _ => mret (Ok SYSCALL_RETURN_TO_KERNEL)
    end
  end.

(** [while let Some(tid) = event.dequeue()]: one waiter per round. *)
Fixpoint signal_loop (fuel : nat) (handle pid : Z) (e : Event) : Answer :=
  match fuel with
  | O => panic
  | S fuel =>
    '(next, e) ← lift (EventOps.dequeue e);
    put_event handle pid (Some e);;
    match next with
    | None => put_event handle pid (Some (e <| ev_signaled := true |>));; mret (Ok 0)
    | Some tid =>
      woken ← with_kernel (Table.wake_thread tid 0);
      if (woken : bool) then mret (Ok 1) else signal_loop fuel handle pid e
    end
  end.

Definition signal_event (handle : Z) : Answer :=
  try pid := current_pid in
  s ← ipc;
  match find_event handle pid s with
  | None => invalid
  | Some e => signal_loop (S (ev_waiter_count e)) handle pid e
  end.

Definition close_event (handle : Z) : Answer :=
  try pid := current_pid in
  s ← ipc;
  match find_event handle pid s with
  | None => invalid
  | Some e =>
    if negb (ev_waiter_count e =? 0)%nat then mret (Err WouldBlock) else
    put_event handle pid None;; mret (Ok 0)
  end.

(** ** Message queues *)

Definition is_queue (handle pid : Z) (q : option MessageQueue) : bool :=
  match q with Some q => (mq_id q =? handle) && (mq_owner_pid q =? pid) | None => false end.

Definition put_queue (handle pid : Z) (q : option MessageQueue) : Sys () :=
  modify_ipc (fun s => s <| ip_queues ::= find_upd (is_queue handle pid) (fun _ => q) |>).

Definition find_queue (handle pid : Z) (s : IpcState) : option MessageQueue :=
  match List.find (is_queue handle pid) (ip_queues s) with Some (Some q) => Some q | _ => None end.

Definition create_message_queue : Answer :=
  try pid := current_pid in
  s ← ipc;
  let id := ip_next_queue_id s in
  modify_ipc (fun s => s <| ip_next_queue_id ::= u64_wrapping_incr |>);;
  if negb (existsb (fun q => negb (is_some q)) (ip_queues s)) then mret (Err WouldBlock) else
  modify_ipc (fun s => s <| ip_queues ::= find_upd (fun q => negb (is_some q)) (fun _ => Some (Queue.new id pid)) |>);;
  mret (Ok id).

Definition send_message (handle ptr len : Z) : Answer :=
  if (len =? 0) || (Z.of_nat MAX_MESSAGE_SIZE <? len) then invalid else
  try source := read_user_bytes ptr len in
  try pid := current_pid in
  s ← ipc;
  match find_queue handle pid s with
  | None => invalid
  | Some q =>
    '(r, q) ← lift (Queue.send source q);
    put_queue handle pid (Some q);;
    mret (result_map Z.of_nat r)
  end.

Definition receive_message (handle ptr len : Z) : Answer :=
  if (len =? 0) || (Z.of_nat MAX_MESSAGE_SIZE <? len) then invalid else
  try range := user_write_range ptr len in
  try pid := current_pid in
  s ← ipc;
  match find_queue handle pid s with
  | None => invalid
  | Some q =>
    r ← with_slice range (fun destination =>
          '((r, destination), q) ← lift (Queue.receive destination q);
          put_queue handle pid (Some q);;
          mret (r, destination));
    mret (result_map Z.of_nat r)
  end.

Definition close_message_queue (handle : Z) : Answer :=
  try pid := current_pid in
  s ← ipc;
  match find_queue handle pid s with
  | None => invalid
  | Some _ => put_queue handle pid None;; mret (Ok 0)
  end.

(** ** Processes *)

(** The path and optional argument of the exec calls. *)
Definition exec_program (path_ptr path_len arg_ptr arg_len : Z) (job_mode : JobMode) : Answer :=
  try path := read_user_str path_ptr path_len in
  try arg := (if arg_len =? 0 then mret (Ok None) else try a := read_user_str arg_ptr arg_len in mret (Ok (Some a))) in
  r ← with_kernel (request_path_with_arg_and_mode images path arg job_mode);
  mret (match r with Ok pid => Ok pid | Err _ => Err InvalidArgument end).

Definition exec_user_program (path_ptr path_len arg_ptr arg_len : Z) : Answer :=
  exec_program path_ptr path_len arg_ptr arg_len Foreground.

Definition exec_background_user_program (path_ptr path_len arg_ptr arg_len : Z) : Answer :=
  exec_program path_ptr path_len arg_ptr arg_len Background.

Definition wait_for_pending_child (frame : SyscallFrame) : Answer :=
  try pid := mret (to_u32 (sf_arg0 frame)) in
  try parent_pid := current_pid in
  reaped ← with_kernel (Table.reap_child parent_pid pid);
  match reaped with
  | Some (_, _, status) => mret (Ok status)
  | None =>
    k ← kernel;
    if negb (bool_decide (Programs.pending_pid (k_programs k) = Some pid)) then
      mret (Err (match Table.wait_target_status k parent_pid pid with
                 | Table.WMissing => NoSuchProcess
                 | Table.WNotChild _ => NotChild
                 | Table.WNotExited _ => WouldBlock
                 | Table.WReapable => WouldBlock
                 end))
    else
      ok ← with_kernel (Table.mark_waiting parent_pid pid (from_syscall_frame frame));
      if negb ok then invalid else
      with_kernel (Current.request_user_shell_wait parent_pid pid);;
      mret (Ok SYSCALL_RETURN_TO_KERNEL)
  end.

Definition terminate_process (pid signal : Z) : Answer :=
  try pid := mret (to_u32 pid) in
  if signal =? SIGCONT then
    try caller_pid := current_pid in
    ok ← with_kernel (Table.continue_user_process caller_pid pid);
    if (ok : bool) then mret (Ok 0) else invalid
  else if negb (signal =? SIGTERM) then invalid else
  try caller_pid := current_pid in
  r ← with_kernel (Current.send_signal caller_pid pid signal);
  match r with
  | Ok (Table.Pending _ _ _ _) => mret (Ok 1)
  | Ok (Table.Handled _ _ _ _) => mret (Ok 0)
  | Ok (Table.Ignored _ _ _) => mret (Ok 0)
  | Ok (Table.Terminated report) =>
    (if Table.sr_parent_woken report
     then with_kernel (with_programs (Programs.take_user_shell_wait_request_for_child (Table.sr_pid report)));; mret ()
     else mret ());;
    mret (Ok 0)
  | Err e =>
    mret (Err (match e with
               | Table.SMissing | Table.SAlreadyExited => NoSuchProcess
               | Table.SPermissionDenied | Table.SKernelTask => PermissionDenied
               | Table.SSelfTarget => InvalidArgument
               end))
  end.

Inductive SignalMaskSyscall := Updated (old_mask : Z) | ContextSwitch.

Definition signal_mask_how (how : Z) : option Table.SignalMaskHow :=
  if how =? 0 then Some Table.Block else if how =? 1 then Some Table.Unblock
  else if how =? 2 then Some Table.SetMask else None.

Definition update_signal_mask (frame : SyscallFrame) : Sys (result SignalMaskSyscall SyscallError) :=
  let mask := sf_arg1 frame in
  if negb (Z.land mask (u64_not SIGTERM_MASK) =? 0) then invalid else
  match signal_mask_how (sf_arg0 frame) with
  | None => invalid
  | Some how =>
    try pid := current_pid in
    update ← with_kernel (Current.update_current_signal_mask how mask);
    match update with
    | None => invalid
    | Some update =>
      match Table.mu_delivered_signal update with
      | None => mret (Ok (Updated (Table.mu_old_mask update)))
      | Some signal =>
        k ← kernel;
        match Current.current_signal_disposition k signal with
        | None => invalid
        | Some disposition =>
          if disposition =? SIG_IGN then mret (Ok (Updated (Table.mu_old_mask update)))
          else if disposition =? SIG_DFL then
            status ← lift (match u64_checked_add 128 signal with Some s => Done s | None => Panic end);
            with_kernel (Current.mark_current_user_exited status);;
            mret (Ok ContextSwitch)
          else
            let original := from_syscall_frame frame <| rc_rax := Table.mu_old_mask update |> in
            report ← with_kernel (Current.checkout_current_user_for_signal_handler signal disposition original);
            match report with None => invalid | Some _ => mret (Ok ContextSwitch) end
        end
      end
    end
  end.

Definition set_signal_action (signal disposition : Z) : Answer :=
  if negb (signal =? SIGTERM) then invalid else
  try _ := (if SIG_IGN <? disposition then check_entry disposition else mret (Ok ())) in
  old ← with_kernel (Current.set_current_signal_disposition signal disposition);
  mret (ok_or old InvalidArgument).

Definition current_pending_signals : Answer :=
  k ← kernel; mret (ok_or (Current.current_pending_signals k) InvalidArgument).

Definition current_process_group : Answer :=
  k ← kernel; mret (ok_or (Current.current_process_group_id k) InvalidArgument).

(** [0] stands for the caller. *)
Definition pid_or_self (pid : Z) : Sys (result Z SyscallError) := if pid =? 0 then current_pid else mret (to_u32 pid).

Definition set_process_group (pid process_group_id : Z) : Answer :=
  try caller_pid := current_pid in
  try target_pid := pid_or_self pid in
  try process_group_id := mret (to_u32 process_group_id) in
  r ← with_kernel (Table.set_process_group caller_pid target_pid process_group_id);
  mret (map_err map_process_group_error r).

Definition get_session_id (pid : Z) : Answer :=
  try pid := pid_or_self pid in
  k ← kernel;
  mret (ok_or (Table.session_id k pid) NoSuchProcess).

Definition create_session : Answer :=
  r ← with_kernel Current.create_current_session;
  mret (map_err map_process_group_error r).

(** ** Dispatch *)

Definition dispatch (frame : SyscallFrame) : Answer :=
  let n := sf_number frame in
  let a0 := sf_arg0 frame in let a1 := sf_arg1 frame in let a2 := sf_arg2 frame in let a3 := sf_arg3 frame in
  if n =? SYS_UPTIME then uptime_to_user a0 a1
  else if n =? SYS_GETUID then k ← kernel; mret (Ok (cr_uid (current_credentials k)))
  else if n =? SYS_GETGID then k ← kernel; mret (Ok (cr_gid (current_credentials k)))
  else if n =? SYS_WHOAMI then whoami_to_user a0 a1
  else if n =? SYS_LISTDIR then list_dir_to_user a0 a1 a2 a3
  else if n =? SYS_READ_FILE then read_file_to_user a0 a1 a2 a3
  else if n =? SYS_STAT then stat_to_user a0 a1 a2 a3
  else if n =? SYS_OPEN then open_file a0 a1
  else if n =? SYS_READ then read_fd_to_user a0 a1 a2
  else if n =? SYS_CLOSE then close_fd a0
  else if n =? SYS_EXEC then exec_user_program a0 a1 a2 a3
  else if n =? SYS_EXEC_BG then exec_background_user_program a0 a1 a2 a3
  else if n =? SYS_WAITPID then wait_for_pending_child frame
  else if n =? SYS_PROCS then procs_to_user a0 a1
  else if n =? SYS_KILL then terminate_process a0 a1
  else if n =? SYS_GETCWD then getcwd_to_user a0 a1
  else if n =? SYS_CHDIR then chdir_user a0 a1
  else if n =? SYS_SETUSER then set_current_user a0 a1
  else if n =? SYS_REBOOT then mret (Err NotImplemented)
  else if n =? SYS_PCI_LIST then pci_list_to_user a0 a1
  else if n =? SYS_NETDEV_LIST then netdev_list_to_user a0 a1
  else if n =? SYS_KLOG_READ then kernel_log_to_user a0 a1
  else if n =? SYS_DRIVER_STATUS then driver_status_to_user a0 a1
  else if n =? SYS_ABI_INFO then mret (Ok ABI_VERSION)
  else if n =? SYS_THREAD_CREATE then create_user_thread a0 a1 a2 a3
  else if n =? SYS_THREAD_EXIT then mret (Err NotImplemented)
  else if n =? SYS_THREAD_JOIN then mret (Err NotImplemented)
  else if n =? SYS_THREAD_SPAWN then spawn_user_thread a0 a1
  else if n =? SYS_PIPE then create_pipe a0 a1
  else if n =? SYS_EVENT_CREATE then create_event
  else if n =? SYS_EVENT_WAIT then wait_event a0 frame
  else if n =? SYS_EVENT_SIGNAL then signal_event a0
  else if n =? SYS_EVENT_CLOSE then close_event a0
  else if n =? SYS_MSGQ_CREATE then create_message_queue
  else if n =? SYS_MSGQ_SEND then send_message a0 a1 a2
  else if n =? SYS_MSGQ_RECV then receive_message a0 a1 a2
  else if n =? SYS_MSGQ_CLOSE then close_message_queue a0
  else if n =? SYS_SIGPROCMASK then mret (Err NotImplemented)
  else if n =? SYS_SIGPENDING then current_pending_signals
  else if n =? SYS_SIGACTION then set_signal_action a0 a1
  else if n =? SYS_SIGRETURN then mret (Err NotImplemented)
  else if n =? SYS_GETPGRP then current_process_group
  else if n =? SYS_SETPGID then set_process_group a0 a1
  else if n =? SYS_GETSID then get_session_id a0
  else if n =? SYS_SETSID then create_session
  else if n =? SYS_CREATE then create_file a0 a1
  else if n =? SYS_UNLINK then unlink_file a0 a1
  else if n =? SYS_RENAME then rename_file a0 a1 a2 a3
  else if n =? SYS_MKDIR then mkdir_user a0 a1
  else if n =? SYS_RMDIR then rmdir_user a0 a1
  else if n =? SYS_SLEEP_MS then mret (Err NotImplemented)
  else if n =? SYS_YIELD then mret (Err NotImplemented)
  else if n =? SYS_EXIT then mret (Err NotImplemented)
  else if n =? SYS_WRITE then write_user_buffer a0 a1 a2
  else mret (Err UnknownSyscall).

(** What [rax] holds when the entry code resumes, or that the machine is reset. *)
Inductive TrapResult := Returns (rax : Z) | Rebooted.

Definition returning (m : Answer) : Sys TrapResult := r ← m; mret (Returns (encode r)).

Definition syscall_interrupt_dispatch (frame : SyscallFrame) : Sys TrapResult :=
  modify (fun y => y <| y_traps ::= u64_wrapping_incr |>);;
  let n := sf_number frame in
  if n =? SYS_EXIT then
    with_kernel (Current.mark_current_user_exited (sf_arg0 frame));; mret (Returns SYSCALL_RETURN_TO_KERNEL)
  else if n =? SYS_THREAD_EXIT then
    r ← with_kernel Current.mark_current_thread_exited;
    mret (Returns (if is_some r then SYSCALL_RETURN_TO_KERNEL else error_code InvalidArgument))
  else if n =? SYS_THREAD_JOIN then returning (join_user_thread frame)
  else if n =? SYS_WRITE then returning (write_user_buffer (sf_arg0 frame) (sf_arg1 frame) (sf_arg2 frame))
  else if n =? SYS_YIELD then returning (user_yield frame)
  else if n =? SYS_SLEEP_MS then returning (sleep_current_user frame)
  else if n =? SYS_SIGPROCMASK then
    r ← update_signal_mask frame;
    mret (Returns (match r with
                   | Ok (Updated old_mask) => old_mask
                   | Ok ContextSwitch => SYSCALL_RETURN_TO_KERNEL
                   | Err e => error_code e
                   end))
  else if n =? SYS_SIGRETURN then
    r ← with_kernel Current.checkout_current_user_after_sigreturn;
    mret (Returns (if is_some r then SYSCALL_RETURN_TO_KERNEL else error_code InvalidArgument))
  else if n =? SYS_REBOOT then mret Rebooted
  else returning (dispatch frame).

End handlers.
