(* ===== verification/Cpu.v ===== *)
(** * The processor and the assembly routines

    The registers, the instructions the kernel's assembly uses, and the
    routines themselves: the entries of the system call and the timer
    interrupt (user/syscall.rs, interrupts.rs), the ways into user mode
    (user/ring3.rs) and into a kernel task (scheduler/context.rs).  Also the
    frames those routines share with Rust code: [SyscallFrame] (in [Syscall]),
    [TimerInterruptFrame], [Context] and the first frame of a task
    (scheduler/task.rs). *)

From S2P Require Import Prelude Utf8 Ring3 Elf AddrSpace PageTables Threads Ipc Process Syscall.

(** ** The machine *)

Inductive reg := RAX | RBX | RCX | RDX | RSI | RDI | RBP | RSP | R8 | R9 | R10 | R11 | R12 | R13 | R14 | R15.

#[export] Instance reg_eq_dec : EqDecision reg.
Proof. solve_decision. Defined.

(** [c_mem] is memory by virtual address.  [c_rflags] does not track the
    status flags, which arithmetic sets: no routine reads them later. *)
Record cpu := mkCpu {
  c_reg : reg -> Z;
  c_rip : Z; c_rflags : Z; c_cs : Z; c_ss : Z; c_cr3 : Z;
  c_mem : memory }.
#[export] Instance eta_cpu : Eta cpu := fun r =>
  mkCpu (c_reg r) (c_rip r) (c_rflags r) (c_cs r) (c_ss r) (c_cr3 r) (c_mem r).

Definition u64_wrap (z : Z) : Z := z mod 2 ^ 64.

Definition set_reg (r : reg) (v : Z) (c : cpu) : cpu := c <| c_reg ::= (fun f r' => if decide (r' = r) then v else f r') |>.

Definition STATUS_FLAGS : Z := 0x8d5.
Definition INTERRUPT_FLAG : Z := 0x200.
Definition DIRECTION_FLAG : Z := 0x400.

Inductive instr :=
  | Push (r : reg) | PushAt (b : reg) (d : Z) | Pop (r : reg) | Popfq
  | Mov (d s : reg) | MovFrom (d b : reg) (off : Z) | MovTo (b : reg) (off : Z) (s : reg)
  | Add (r : reg) (n : Z) | Sub (r : reg) (n : Z) | And (r : reg) (n : Z)
  | Cld | MovCr3 (r : reg) | Jmp (r : reg) | Ret | Iretq.

Definition address (c : cpu) (b : reg) (off : Z) : Z := u64_wrap (c_reg c b + off).
Definition read (c : cpu) (b : reg) (off : Z) : Z := get_word (c_mem c) (address c b off).

Definition push (v : Z) (c : cpu) : cpu :=
  let rsp := address c RSP (-8) in set_reg RSP rsp (c <| c_mem ::= (fun m => set_word m rsp v) |>).

(** An immediate is sign extended. *)
Definition step (i : instr) (c : cpu) : cpu :=
  match i with
  | Push r => push (c_reg c r) c
  | PushAt b d => push (read c b d) c
  | Pop r => set_reg r (read c RSP 0) (set_reg RSP (address c RSP 8) c)
  | Popfq => set_reg RSP (address c RSP 8) (c <| c_rflags := read c RSP 0 |>)
  | Mov d s => set_reg d (c_reg c s) c
  | MovFrom d b off => set_reg d (read c b off) c
  | MovTo b off s => c <| c_mem ::= (fun m => set_word m (address c b off) (c_reg c s)) |>
  | Add r n => set_reg r (u64_wrap (c_reg c r + n)) c
  | Sub r n => set_reg r (u64_wrap (c_reg c r - n)) c
  | And r n => set_reg r (Z.land (c_reg c r) (u64_wrap n)) c
  | Cld => c <| c_rflags ::= (fun f => Z.ldiff f DIRECTION_FLAG) |>
  | MovCr3 r => c <| c_cr3 := c_reg c r |>
  | Jmp r => c <| c_rip := c_reg c r |>
  | Ret => set_reg RSP (address c RSP 8) (c <| c_rip := read c RSP 0 |>)
  | Iretq => set_reg RSP (read c RSP 24)
      (c <| c_rip := read c RSP 0 |> <| c_cs := read c RSP 8 |> <| c_rflags := read c RSP 16 |> <| c_ss := read c RSP 32 |>)
  end.

Definition exec (code : list instr) (c : cpu) : cpu := foldl (fun c i => step i c) c code.

(** An interrupt through a 64-bit interrupt gate: from Ring 3 the stack is
    [rsp0] of the task state segment; the stack pointer is aligned, five words
    are pushed, and interrupts are disabled. *)
Definition interrupt (rsp0 kernel_cs handler : Z) (c : cpu) : cpu :=
  let base := Z.land (if Z.land (c_cs c) 3 =? 3 then rsp0 else c_reg c RSP) (u64_wrap (-16)) in
  let c1 := push (c_rip c) (push (c_cs c) (push (c_rflags c) (push (c_reg c RSP) (push (c_ss c) (set_reg RSP base c))))) in
  c1 <| c_rip := handler |> <| c_cs := kernel_cs |> <| c_rflags ::= (fun f => Z.ldiff f INTERRUPT_FLAG) |>
     <| c_ss := if Z.land (c_cs c) 3 =? 3 then 0 else c_ss c |>.

(** ** The system call entry (user/syscall.rs) *)

(** Up to the call of [syscall_interrupt_dispatch]. *)
Definition syscall_interrupt_entry : list instr :=
  [Push R15; Push R14; Push R13; Push R12; Push R11; Push R10; Push R9; Push R8; Push RBP; Push RDI; Push RSI; Push RDX;
   Push RCX; Push RBX; Push RAX;
   Sub RSP 192;
   MovFrom RAX RSP 192; MovTo RSP 0 RAX;
   MovFrom RAX RSP 232; MovTo RSP 8 RAX;
   MovFrom RAX RSP 224; MovTo RSP 16 RAX;
   MovFrom RAX RSP 216; MovTo RSP 24 RAX;
   MovFrom RAX RSP 264; MovTo RSP 32 RAX;
   MovFrom RAX RSP 248; MovTo RSP 40 RAX;
   MovFrom RAX RSP 256; MovTo RSP 48 RAX;
   MovFrom RAX RSP 312; MovTo RSP 56 RAX;
   MovFrom RAX RSP 336; MovTo RSP 64 RAX;
   MovFrom RAX RSP 328; MovTo RSP 72 RAX;
   MovFrom RAX RSP 200; MovTo RSP 80 RAX;
   MovFrom RAX RSP 208; MovTo RSP 88 RAX;
   MovFrom RAX RSP 216; MovTo RSP 96 RAX;
   MovFrom RAX RSP 224; MovTo RSP 104 RAX;
   MovFrom RAX RSP 232; MovTo RSP 112 RAX;
   MovFrom RAX RSP 240; MovTo RSP 120 RAX;
   MovFrom RAX RSP 248; MovTo RSP 128 RAX;
   MovFrom RAX RSP 256; MovTo RSP 136 RAX;
   MovFrom RAX RSP 264; MovTo RSP 144 RAX;
   MovFrom RAX RSP 272; MovTo RSP 152 RAX;
   MovFrom RAX RSP 280; MovTo RSP 160 RAX;
   MovFrom RAX RSP 288; MovTo RSP 168 RAX;
   MovFrom RAX RSP 296; MovTo RSP 176 RAX;
   MovFrom RAX RSP 304; MovTo RSP 184 RAX;
   Mov RDI RSP].

Definition pop_registers : list instr :=
  [Pop RAX; Pop RBX; Pop RCX; Pop RDX; Pop RSI; Pop RDI; Pop RBP; Pop R8; Pop R9; Pop R10; Pop R11; Pop R12; Pop R13; Pop R14; Pop R15].

(** Where a routine leaves to. *)
Inductive exit := Returned (c : cpu) | UserExitLanding (c : cpu).

(** From the return of [syscall_interrupt_dispatch]: [cmp rax, -1; je 2f]. *)
Definition syscall_interrupt_return (c : cpu) : exit :=
  if c_reg c RAX =? u64_wrap (-1) then UserExitLanding (exec [Add RSP 352] c)
  else Returned (exec ([MovTo RSP 192 RAX; Add RSP 192] ++ pop_registers ++ [Iretq]) c).

(** The [SyscallFrame] at an address ([repr(C)]). *)
Definition read_syscall_frame (m : memory) (p : Z) : SyscallFrame :=
  let f i := get_word m (p + 8 * i) in
  mkFrame (f 0) (f 1) (f 2) (f 3) (f 4) (f 5) (f 6) (f 7) (f 8) (f 9) (f 10) (f 11) (f 12) (f 13) (f 14) (f 15)
          (f 16) (f 17) (f 18) (f 19) (f 20) (f 21) (f 22) (f 23).

(** ** The timer interrupt (interrupts.rs) *)

(** Up to the call of [timer_interrupt_dispatch]. *)
Definition timer_interrupt_entry : list instr :=
  [Cld; Push R15; Push R14; Push R13; Push R12; Push R11; Push R10; Push R9; Push R8; Push RBP; Push RDI; Push RSI; Push RDX;
   Push RCX; Push RBX; Push RAX;
   Mov RDI RSP; Mov RAX RSP; And RSP (-16); Sub RSP 16; MovTo RSP 0 RAX].

(** From its return: [test rax, rax; jnz 1f] and [1: test rax, 1; jz 3f]. *)
Definition timer_interrupt_return (c : cpu) : cpu :=
  if c_reg c RAX =? 0 then exec ([MovFrom RSP RSP 0] ++ pop_registers ++ [Iretq]) c
  else if Z.land (c_reg c RAX) 1 =? 0 then exec ([Mov RSP RAX] ++ pop_registers ++ [Iretq]) c
  else exec ([And RAX (-2); Mov RSP RAX] ++ pop_registers ++ [PushAt RSP 16; Popfq; MovFrom RAX RSP 0; Add RSP 24; Jmp RAX]) c.

Record TimerInterruptFrame := mkTimerFrame {
  tf_rax : Z; tf_rbx : Z; tf_rcx : Z; tf_rdx : Z; tf_rsi : Z; tf_rdi : Z; tf_rbp : Z; tf_r8 : Z; tf_r9 : Z; tf_r10 : Z;
  tf_r11 : Z; tf_r12 : Z; tf_r13 : Z; tf_r14 : Z; tf_r15 : Z;
  tf_instruction_pointer : Z; tf_code_segment : Z; tf_cpu_flags : Z }.

(** The frame at an address ([repr(C)]); the hardware's stack pointer follows. *)
Definition read_timer_frame (m : memory) (p : Z) : TimerInterruptFrame :=
  let f i := get_word m (p + 8 * i) in
  mkTimerFrame (f 0) (f 1) (f 2) (f 3) (f 4) (f 5) (f 6) (f 7) (f 8) (f 9) (f 10) (f 11) (f 12) (f 13) (f 14) (f 15) (f 16) (f 17).

Definition RING3 : Z := 3.
Definition interrupted_user (f : TimerInterruptFrame) : bool := Z.land (tf_code_segment f) 0x3 =? RING3.

Definition user_stack_pointer (m : memory) (p : Z) : Z := get_word m (p + 144).

Definition user_resume_context (m : memory) (p : Z) : UserResumeContext :=
  let f := read_timer_frame m p in
  mkCtx (tf_instruction_pointer f) (user_stack_pointer m p) (tf_cpu_flags f) (tf_rbx f) (tf_rcx f) (tf_rdx f) (tf_rsi f) (tf_rdi f)
        (tf_rbp f) (tf_r8 f) (tf_r9 f) (tf_r10 f) (tf_r11 f) (tf_r12 f) (tf_r13 f) (tf_r14 f) (tf_r15 f) (tf_rax f).

(** Consecutive words. *)
Fixpoint set_words (m : memory) (a : Z) (l : list Z) : memory :=
  match l with [] => m | v :: l => set_words (set_word m a v) (a + 8) l end.

(** The selector of the code segment stays. *)
Definition apply_user_resume (m : memory) (p : Z) (c : UserResumeContext) : memory :=
  let m := set_words m p [rc_rax c; rc_rbx c; rc_rcx c; rc_rdx c; rc_rsi c; rc_rdi c; rc_rbp c; rc_r8 c; rc_r9 c; rc_r10 c; rc_r11 c;
                          rc_r12 c; rc_r13 c; rc_r14 c; rc_r15 c; rc_rip c] in
  let m := set_word m (p + 136) (Z.lor (rc_rflags c) 0x202) in
  set_word m (p + 144) (rc_rsp c).

(** ** Into user mode (user/ring3.rs) *)

Section user.
(** [gdt::user_selectors()] *)
Context (user_cs user_ss : Z).

(** The operands that the compiler places in registers are pushed as values. *)
Definition push_frame (rip rsp rflags : Z) (c : cpu) : cpu :=
  push rip (push user_cs (push rflags (push rsp (push user_ss c)))).

Definition jump_to_user (entry stack_top : Z) (c : cpu) : cpu := exec [Iretq] (push_frame entry stack_top 0x202 c).

(** [mov cr3, reg] *)
Definition load_cr3 (p4_frame : Z) (c : cpu) : cpu := c <| c_cr3 := p4_frame |>.

Definition switch_to_user_p4_and_jump (p4_frame entry stack_top : Z) (c : cpu) : cpu :=
  exec [Iretq] (push_frame entry stack_top 0x202 (load_cr3 p4_frame c)).

(** The words of a [UserResumeContext] ([repr(C)]). *)
Definition context_words (x : UserResumeContext) : list Z :=
  [rc_rip x; rc_rsp x; rc_rflags x; rc_rbx x; rc_rcx x; rc_rdx x; rc_rsi x; rc_rdi x; rc_rbp x; rc_r8 x; rc_r9 x; rc_r10 x;
   rc_r11 x; rc_r12 x; rc_r13 x; rc_r14 x; rc_r15 x; rc_rax x].

(** [context_ptr] is where the compiler keeps the argument [context]. *)
Definition resume_user (context : UserResumeContext) (context_ptr return_value : Z) (c : cpu) : cpu :=
  let rflags := Z.lor (rc_rflags context) 0x202 in
  exec [MovFrom RBX R10 24; MovFrom RCX R10 32; MovFrom RDX R10 40; MovFrom RSI R10 48; MovFrom RDI R10 56; MovFrom RBP R10 64;
        MovFrom R8 R10 72; MovFrom R9 R10 80; MovFrom R11 R10 96; MovFrom R12 R10 104; MovFrom R13 R10 112; MovFrom R14 R10 120;
        MovFrom R15 R10 128; MovFrom R10 R10 88; Iretq]
    (push_frame (rc_rip context) (rc_rsp context) rflags (set_reg RAX return_value (set_reg R10 context_ptr c))).

Definition switch_to_user_p4_and_resume (p4_frame : Z) (context : UserResumeContext) (context_ptr return_value : Z) (c : cpu) : cpu :=
  let rflags := Z.lor (rc_rflags context) 0x202 in
  exec [MovFrom RBX R10 24; MovFrom RCX R10 32; MovFrom RDX R10 40; MovFrom RSI R10 48; MovFrom RDI R10 56; MovFrom RBP R10 64;
        MovFrom R8 R10 72; MovFrom R9 R10 80; MovFrom R12 R10 104; MovFrom R13 R10 112; MovFrom R14 R10 120;
        MovFrom R15 R10 128; MovFrom R11 R10 96; MovFrom R10 R10 88; Iretq]
    (push_frame (rc_rip context) (rc_rsp context) rflags
      (exec [MovCr3 R11] (set_reg RAX return_value (set_reg R11 p4_frame (set_reg R10 context_ptr c))))).
End user.

(** ** Into a kernel task (scheduler/context.rs, scheduler/task.rs) *)

Record Context := mkContext {
  cx_r15 : Z; cx_r14 : Z; cx_r13 : Z; cx_r12 : Z; cx_r11 : Z; cx_r10 : Z; cx_r9 : Z; cx_r8 : Z; cx_rbp : Z; cx_rdi : Z; cx_rsi : Z;
  cx_rdx : Z; cx_rcx : Z; cx_rbx : Z; cx_rax : Z; cx_rip : Z; cx_rflags : Z; cx_rsp : Z }.

Definition with_entry_point (entry stack_top : Z) : Context :=
  mkContext 0 0 0 0 0 0 0 0 0 0 0 0 0 0 0 entry 0x200 stack_top.

Definition task_context_words (x : Context) : list Z :=
  [cx_r15 x; cx_r14 x; cx_r13 x; cx_r12 x; cx_r11 x; cx_r10 x; cx_r9 x; cx_r8 x; cx_rbp x; cx_rdi x; cx_rsi x; cx_rdx x; cx_rcx x;
   cx_rbx x; cx_rax x; cx_rip x; cx_rflags x; cx_rsp x].

Definition setup_first_task : list instr :=
  [MovFrom RSP RDI 0x88; PushAt RDI 0x78; PushAt RDI 0x70; PushAt RDI 0x48; PushAt RDI 0x50; PushAt RDI 0x80; Popfq;
   MovFrom R15 RDI 0x00; MovFrom R14 RDI 0x08; MovFrom R13 RDI 0x10; MovFrom R12 RDI 0x18; MovFrom R11 RDI 0x20; MovFrom R10 RDI 0x28;
   MovFrom R9 RDI 0x30; MovFrom R8 RDI 0x38; MovFrom RBP RDI 0x40; MovFrom RDX RDI 0x58; MovFrom RCX RDI 0x60; MovFrom RBX RDI 0x68;
   Pop RSI; Pop RDI; Pop RAX; Ret].

Definition start_kernel_interrupt_frame : list instr := [Mov RSP RDI] ++ pop_registers ++ [Iretq].

Definition KERNEL_INTERRUPT_FRAME_WORDS : nat := 18.

(** The stack is [len] bytes at [base]; [debug_assert!]s are checked. *)
Definition initialize_interrupt_frame (kernel_cs base len entry_point stack_top : Z) (m : memory) : outcome (Z * memory) :=
  if stack_top <? 144 then Panic else
  let frame_start := stack_top - 144 in
  if frame_start <? base then Panic else
  if base + len <? frame_start + 144 then Panic else
  let m := set_words m frame_start (replicate KERNEL_INTERRUPT_FRAME_WORDS 0) in
  mret (frame_start, set_words m (frame_start + 120) [entry_point; kernel_cs; 0x202]).

(** [((stack.as_ptr() as u64 + stack_size as u64) & !0xf).saturating_sub(8)] *)
Definition task_stack_top (base len : Z) : Z := saturating_sub (Z.land (base + len) (u64_not 0xf)) 8.
