(* ===== verification/CpuProofs.v ===== *)
(** * Interrupts lose no register

    What the assembly routines of [Cpu] do with the registers: the frames they
    build hold the interrupted registers, the ways back restore them, and a
    thread that was switched out continues where it was. *)

From S2P Require Import Prelude Utf8 Ring3 Elf AddrSpace PageTables PageTablesProofs Threads Ipc Process Syscall Heap HeapProofs Cpu.

(** ** Words in memory *)

Definition u64 (v : Z) : Prop := 0 <= v < 2 ^ 64.

Definition words (m : memory) (a : Z) (l : list Z) : Prop := forall i v, l !! i = Some v -> get_word m (a + 8 * Z.of_nat i) = v.

Lemma words_at i m a l v d : words m a l -> l !! i = Some v -> 8 * Z.of_nat i = d -> get_word m (a + d) = v.
Proof. intros Hw Hi <-. by apply Hw. Qed.

Lemma words_nil m a : words m a [].
Proof. by intros i v. Qed.

Lemma words_cons m a v l : words m a (v :: l) <-> get_word m a = v /\ words m (a + 8) l.
Proof.
  split.
  - intros H. split; [rewrite <-(H O v) by done; f_equal; lia|]. intros i w Hi. rewrite <-(H (S i) w) by done. f_equal. lia.
  - intros [H1 H2] [|i] w Hi; [injection Hi as <-; rewrite <-H1; f_equal; lia|]. rewrite <-(H2 i w Hi). f_equal. lia.
Qed.

Lemma words_app m a l1 l2 : words m a (l1 ++ l2) <-> words m a l1 /\ words m (a + 8 * Z.of_nat (length l1)) l2.
Proof.
  revert a. induction l1 as [|v l1 IH]; intros a; cbn [app length].
  - replace (a + 8 * Z.of_nat 0) with a by lia. split; [intros H; split; [apply words_nil|done]|by intros [_ ?]].
  - rewrite !words_cons, IH. replace (a + 8 + 8 * Z.of_nat (length l1)) with (a + 8 * Z.of_nat (S (length l1))) by lia. tauto.
Qed.

(** Memory that agrees on the words' bytes. *)
Lemma words_ext m m' a l : (forall x, a <= x < a + 8 * Z.of_nat (length l) -> m' x = m x) -> words m a l -> words m' a l.
Proof.
  intros Hm H i v Hi. rewrite <-(H i v Hi). pose proof (lookup_lt_Some _ _ _ Hi). apply get_word_ext. intros x Hx. apply Hm. lia.
Qed.

Lemma words_set m a l b v : b + 8 <= a \/ a + 8 * Z.of_nat (length l) <= b -> words m a l -> words (set_word m b v) a l.
Proof. intros Hb. apply words_ext. intros x Hx. apply set_word_outside. lia. Qed.

Lemma set_words_outside l : forall m a x, x < a \/ a + 8 * Z.of_nat (length l) <= x -> set_words m a l x = m x.
Proof.
  induction l as [|v l IH]; intros m a x Hx; cbn [set_words length] in *; [done|]. rewrite IH by lia. apply set_word_outside. lia.
Qed.

Lemma set_words_words l : forall m a, Forall u64 l -> words (set_words m a l) a l.
Proof.
  induction l as [|v l IH]; intros m a; [intros _; apply words_nil|]. intros [Hv Hl]%Forall_cons. cbn [set_words]. apply words_cons. split; [|by apply IH].
  rewrite (get_word_ext _ (set_word m a v) a) by (intros x Hx; apply set_words_outside; lia). by apply get_set_word.
Qed.

(** ** Straight code *)

Lemma exec_app l1 l2 c : exec (l1 ++ l2) c = exec l2 (exec l1 c).
Proof. apply foldl_app. Qed.

Lemma wrap_small v : u64 v -> u64_wrap v = v.
Proof. apply Z.mod_small. Qed.

Lemma set_reg_eq r v c : c_reg (set_reg r v c) r = v.
Proof. unfold set_reg. cbn. by rewrite decide_True. Qed.

Lemma set_reg_ne r r' v c : r' <> r -> c_reg (set_reg r v c) r' = c_reg c r'.
Proof. intros H. unfold set_reg. cbn. by rewrite decide_False. Qed.

(** All but the registers and memory. *)
Definition rest (c : cpu) : Z * Z * Z * Z * Z := (c_rip c, c_rflags c, c_cs c, c_ss c, c_cr3 c).

Record pushes (n : Z) (c c' : cpu) : Prop := {
  pu_rsp : c_reg c' RSP = c_reg c RSP - n;
  pu_reg : forall r, r <> RSP -> c_reg c' r = c_reg c r;
  pu_rest : rest c' = rest c;
  pu_mem : forall a, c_reg c RSP <= a \/ a < c_reg c RSP - n -> c_mem c' a = c_mem c a;
}.

Lemma cpu_push_spec v c l : u64 v -> 8 <= c_reg c RSP < 2 ^ 64 -> words (c_mem c) (c_reg c RSP) l ->
  pushes 8 c (push v c) /\ words (c_mem (push v c)) (c_reg c RSP - 8) (v :: l).
Proof.
  intros Hv Hr Hl. unfold push, address. rewrite wrap_small by (unfold u64; lia). cbv zeta.
  replace (c_reg c RSP + -8) with (c_reg c RSP - 8) by lia. split; [split|].
  - by rewrite set_reg_eq.
  - intros r Hne. by rewrite set_reg_ne.
  - done.
  - intros a Ha. cbn. apply set_word_outside. lia.
  - cbn. apply words_cons. split; [by apply get_set_word|]. apply words_set; [lia|]. replace (c_reg c RSP - 8 + 8) with (c_reg c RSP) by lia. done.
Qed.

Lemma pushes_trans n n' c c1 c2 : 0 <= n -> 0 <= n' -> pushes n c c1 -> pushes n' c1 c2 -> pushes (n + n') c c2.
Proof.
  intros Hn Hn' [H1 H2 H3 H4] [H1' H2' H3' H4']. split; [lia| |congruence|].
  - intros r Hr. by rewrite H2', H2.
  - intros a Ha. rewrite H4' by lia. apply H4. lia.
Qed.

Lemma pushes_refl c : pushes 0 c c.
Proof. split; [lia|done..]. Qed.

Lemma exec_pushes rs : forall c l, RSP ∉ rs -> (forall r, u64 (c_reg c r)) -> 8 * Z.of_nat (length rs) <= c_reg c RSP ->
  words (c_mem c) (c_reg c RSP) l -> let c' := exec (map Push rs) c in
  pushes (8 * Z.of_nat (length rs)) c c' /\ words (c_mem c') (c_reg c' RSP) (rev (map (c_reg c) rs) ++ l).
Proof.
  induction rs as [|r rs IH]; intros c l Hsp Hu Hr Hl; [split; [apply pushes_refl|done]|]. cbn [map exec foldl]. change (foldl _ ?c ?l) with (exec l c).
  apply not_elem_of_cons in Hsp as [Hne Hsp]. cbn [length] in *. cbn [step].
  destruct (cpu_push_spec (c_reg c r) c l (Hu r)) as [[H1 H2 H3 H4] Hw]; [pose proof (Hu RSP); unfold u64 in *; lia|done|]. set (c1 := push _ c) in *.
  assert (forall r', u64 (c_reg c1 r')) as Hu1.
  { intros r'. destruct (decide (r' = RSP)) as [->|Hne']; [rewrite H1; pose proof (Hu RSP); unfold u64 in *; lia|]. by rewrite H2. }
  destruct (IH c1 (c_reg c r :: l) Hsp Hu1) as [Hp Hw']; [lia|by rewrite H1|]. split.
  - replace (8 * Z.of_nat (S (length rs))) with (8 + 8 * Z.of_nat (length rs)) by lia. apply (pushes_trans _ _ _ c1); [lia|lia|by split|exact Hp].
  - cbn [rev]. rewrite <-app_assoc. cbn [app]. replace (map (c_reg c) rs) with (map (c_reg c1) rs); [exact Hw'|].
    apply map_ext_in. intros r' Hr'%list_elem_of_In. apply H2. by intros ->.
Qed.

Record pops (n : Z) (c c' : cpu) : Prop := {
  po_rsp : c_reg c' RSP = c_reg c RSP + n;
  po_rest : rest c' = rest c;
  po_mem : c_mem c' = c_mem c;
}.

Lemma exec_pops (f : reg -> Z) rs : forall c, RSP ∉ rs -> 0 <= c_reg c RSP -> c_reg c RSP + 8 * Z.of_nat (length rs) < 2 ^ 64 ->
  words (c_mem c) (c_reg c RSP) (map f rs) -> let c' := exec (map Pop rs) c in
  pops (8 * Z.of_nat (length rs)) c c' /\ forall r, r <> RSP -> c_reg c' r = if decide (r ∈ rs) then f r else c_reg c r.
Proof.
  induction rs as [|r rs IH]; intros c Hsp H0 Hr Hw; [split; [split; [cbn; lia|done..]|intros r _; by rewrite decide_False by apply not_elem_of_nil]|].
  cbn [map exec foldl]. change (foldl _ ?c ?l) with (exec l c). apply not_elem_of_cons in Hsp as [Hne Hsp]. cbn [length] in *. cbn [map] in Hw. apply words_cons in Hw as [Hv Hw].
  cbn [step]. unfold read, address. rewrite !wrap_small by (unfold u64; lia). rewrite Z.add_0_r, Hv. set (c1 := set_reg r (f r) _) in *.
  assert (c_reg c1 RSP = c_reg c RSP + 8) as E1 by (unfold c1; by rewrite set_reg_ne, set_reg_eq).
  destruct (IH c1 Hsp) as [[Hp1 Hp2 Hp3] Hreg]; [lia|lia|rewrite E1; exact Hw|]. split; [split; [lia|done|done]|].
  intros r' Hr'. rewrite Hreg by done. destruct (decide (r' ∈ rs)) as [Hin|Hin].
  - rewrite decide_True by (by apply elem_of_cons; right). done.
  - unfold c1. destruct (decide (r' = r)) as [->|Hne']; [rewrite set_reg_eq, decide_True; [done|by left]|].
    rewrite !set_reg_ne by done. rewrite decide_False; [done|]. by intros [?|?]%elem_of_cons.
Qed.

(** ** Saving and restoring *)

Definition saved : list reg := [RAX; RBX; RCX; RDX; RSI; RDI; RBP; R8; R9; R10; R11; R12; R13; R14; R15].

Lemma saved_all r : r <> RSP -> r ∈ saved.
Proof. intros H. apply list_elem_of_In. destruct r; cbn; tauto. Qed.

Lemma saved_not_rsp : RSP ∉ saved.
Proof. intros H%list_elem_of_In. cbn in H. intuition done. Qed.

Record cpu_ok (c : cpu) : Prop := {
  ck_reg : forall r, u64 (c_reg c r);
  ck_rip : u64 (c_rip c);
  ck_rflags : u64 (c_rflags c);
  ck_cs : u64 (c_cs c);
  ck_ss : u64 (c_ss c);
}.

(** What a return with [iretq] takes from the stack. *)
Definition trap_words (f : reg -> Z) (rip cs rflags rsp ss : Z) : list Z := map f saved ++ [rip; cs; rflags; rsp; ss].

Lemma iretq_spec rip cs rflags rsp ss c : 0 <= c_reg c RSP -> c_reg c RSP + 40 < 2 ^ 64 -> words (c_mem c) (c_reg c RSP) [rip; cs; rflags; rsp; ss] ->
  let c' := step Iretq c in
  c_reg c' RSP = rsp /\ (forall r, r <> RSP -> c_reg c' r = c_reg c r) /\ rest c' = (rip, rflags, cs, ss, c_cr3 c) /\ c_mem c' = c_mem c.
Proof.
  intros H0 Hr Hw. cbn [step]. unfold read, address. rewrite !wrap_small by (unfold u64; lia).
  rewrite (words_at 0 _ _ _ rip 0 Hw eq_refl eq_refl), (words_at 1 _ _ _ cs 8 Hw eq_refl eq_refl), (words_at 2 _ _ _ rflags 16 Hw eq_refl eq_refl),
    (words_at 3 _ _ _ rsp 24 Hw eq_refl eq_refl), (words_at 4 _ _ _ ss 32 Hw eq_refl eq_refl).
  split; [by rewrite set_reg_eq|]. split; [intros r Hne; by rewrite set_reg_ne|]. by split.
Qed.

Lemma cpu_restore_spec (f : reg -> Z) rip cs rflags rsp ss c : 0 <= c_reg c RSP -> c_reg c RSP + 160 < 2 ^ 64 ->
  words (c_mem c) (c_reg c RSP) (trap_words f rip cs rflags rsp ss) -> let c' := exec (pop_registers ++ [Iretq]) c in
  (forall r, c_reg c' r = if decide (r = RSP) then rsp else f r) /\ rest c' = (rip, rflags, cs, ss, c_cr3 c) /\ c_mem c' = c_mem c.
Proof.
  intros H0 Hr [Hw1 Hw2]%words_app. rewrite exec_app. change pop_registers with (map Pop saved). cbv zeta.
  destruct (exec_pops f saved c saved_not_rsp H0) as [[H1 H2 H3] Hreg]; [exact (fun H => H) || (change (length saved) with 15%nat; lia)|exact Hw1|].
  revert H1 H2 H3 Hreg. generalize (exec (map Pop saved) c). intros c1 H1 H2 H3 Hreg. rewrite length_map in Hw2.
  change (8 * Z.of_nat (length saved)) with 120 in *. rewrite <-H1, <-H3 in Hw2.
  destruct (iretq_spec rip cs rflags rsp ss c1) as (E1 & E2 & E3 & E4); [lia|lia|exact Hw2|]. change (exec [Iretq] c1) with (step Iretq c1).
  split; [|split; [|congruence]].
  - intros r. destruct (decide (r = RSP)) as [->|Hne]; [exact E1|]. rewrite (E2 r Hne), (Hreg r Hne). by rewrite decide_True by by apply saved_all.
  - rewrite E3. apply (f_equal snd) in H2. cbn [rest snd] in H2. by rewrite H2.
Qed.

(** The words that an interrupt and fifteen pushes leave. *)
Lemma save_spec c rip cs rflags rsp ss : (forall r, u64 (c_reg c r)) -> 120 <= c_reg c RSP -> words (c_mem c) (c_reg c RSP) [rip; cs; rflags; rsp; ss] ->
  let c' := exec (map Push (rev saved)) c in
  pushes 120 c c' /\ words (c_mem c') (c_reg c' RSP) (trap_words (c_reg c) rip cs rflags rsp ss).
Proof.
  intros Hu Hr Hw. destruct (exec_pushes (rev saved) c [rip; cs; rflags; rsp; ss]) as [Hp Hw']; [|exact Hu|change (length (rev saved)) with 15%nat; lia|exact Hw|].
  { intros H%list_elem_of_In%in_rev%list_elem_of_In. by apply saved_not_rsp. }
  split; [exact Hp|]. rewrite <-map_rev, rev_involutive in Hw'. exact Hw'.
Qed.

(** ** Pushing values *)

Definition push_list (vs : list Z) (c : cpu) : cpu := foldl (fun c v => push v c) c vs.

Lemma push_list_spec vs : forall c l, Forall u64 vs -> 8 * Z.of_nat (length vs) <= c_reg c RSP < 2 ^ 64 -> words (c_mem c) (c_reg c RSP) l ->
  let c' := push_list vs c in
  pushes (8 * Z.of_nat (length vs)) c c' /\ words (c_mem c') (c_reg c' RSP) (rev vs ++ l).
Proof.
  induction vs as [|v vs IH]; intros c l Hu Hr Hl; [split; [apply pushes_refl|exact Hl]|]. apply Forall_cons in Hu as [Hv Hu]. cbn [length] in Hr.
  change (push_list (v :: vs) c) with (push_list vs (push v c)). destruct (cpu_push_spec v c l Hv) as [Hp1 Hw]; [lia|exact Hl|]. revert Hp1 Hw. generalize (push v c). intros c1 Hp1 Hw.
  pose proof (pu_rsp _ _ _ Hp1) as E1. rewrite <-E1 in Hw. destruct (IH c1 (v :: l) Hu) as [Hp Hw']; [lia|exact Hw|]. cbv zeta. split.
  - cbn [length]. replace (8 * Z.of_nat (S (length vs))) with (8 + 8 * Z.of_nat (length vs)) by lia. apply (pushes_trans _ _ _ c1); [lia|lia|exact Hp1|exact Hp].
  - cbn [rev]. rewrite <-app_assoc. exact Hw'.
Qed.

Lemma align_16 x : u64 x -> Z.land x (u64_wrap (-16)) = x / 16 * 16.
Proof. intros Hx. apply (and_not_ones x 4); [exact Hx|lia]. Qed.

(** The stack an interrupt uses. *)
Definition interrupt_stack (rsp0 : Z) (u : cpu) : Z := if Z.land (c_cs u) 3 =? 3 then rsp0 else c_reg u RSP.

Lemma interrupt_spec rsp0 kernel_cs handler u : cpu_ok u -> u64 rsp0 -> 40 <= interrupt_stack rsp0 u / 16 * 16 ->
  let c := interrupt rsp0 kernel_cs handler u in
  c_reg c RSP = interrupt_stack rsp0 u / 16 * 16 - 40 /\ (forall r, r <> RSP -> c_reg c r = c_reg u r) /\ c_cr3 c = c_cr3 u /\
  words (c_mem c) (c_reg c RSP) [c_rip u; c_cs u; c_rflags u; c_reg u RSP; c_ss u] /\
  (forall a, interrupt_stack rsp0 u / 16 * 16 <= a \/ a < interrupt_stack rsp0 u / 16 * 16 - 40 -> c_mem c a = c_mem u a).
Proof.
  intros [Hreg Hrip Hfl Hcs Hss] H0 Hroom. unfold interrupt. fold (interrupt_stack rsp0 u).
  assert (u64 (interrupt_stack rsp0 u)) as Hs by (unfold interrupt_stack; by destruct (_ =? _)). revert Hs Hroom. generalize (interrupt_stack rsp0 u). intros sp Hs Hroom.
  rewrite align_16 by done. cbv zeta. set (base := sp / 16 * 16) in *.
  change (push (c_rip u) _) with (push_list [c_ss u; c_reg u RSP; c_rflags u; c_cs u; c_rip u] (set_reg RSP base u)).
  assert (base <= sp) as Hb by (unfold base; pose proof (Z.div_mod sp 16); pose proof (Z.mod_pos_bound sp 16); lia). unfold u64 in Hs.
  destruct (push_list_spec [c_ss u; c_reg u RSP; c_rflags u; c_cs u; c_rip u] (set_reg RSP base u) []) as [Hp Hw].
  - repeat apply Forall_cons_2; [exact Hss|exact (Hreg RSP)|exact Hfl|exact Hcs|exact Hrip|apply Forall_nil_2].
  - rewrite set_reg_eq. change (8 * Z.of_nat (length _)) with 40. lia.
  - apply words_nil.
  - revert Hp Hw. generalize (push_list [c_ss u; c_reg u RSP; c_rflags u; c_cs u; c_rip u] (set_reg RSP base u)). intros c [P1 P2 P3 P4] Hw.
    rewrite set_reg_eq in P1, P4. change (8 * Z.of_nat (length _)) with 40 in *. cbn [c_reg c_mem c_cr3]. split; [exact P1|]. split; [|split; [|split]].
    + intros r Hr. change (c_reg c r = c_reg u r). rewrite (P2 r Hr). by apply set_reg_ne.
    + apply (f_equal snd) in P3. exact P3.
    + exact Hw.
    + intros a Ha. change (c_mem c a = c_mem u a). rewrite P4; [done|lia].
Qed.

(** ** The copies of the system call entry *)

Definition copies (srcs : list nat) (k : nat) : list instr :=
  concat (imap (fun i j => [MovFrom RAX RSP (192 + 8 * Z.of_nat j); MovTo RSP (8 * Z.of_nat (k + i)) RAX]) srcs).

Lemma copies_cons j srcs k : copies (j :: srcs) k = [MovFrom RAX RSP (192 + 8 * Z.of_nat j); MovTo RSP (8 * Z.of_nat k) RAX] ++ copies srcs (S k).
Proof.
  unfold copies. cbn [imap concat app]. rewrite Nat.add_0_r. do 2 f_equal. f_equal. apply imap_ext. intros i x _. cbn. by rewrite Nat.add_succ_r.
Qed.

Record copied (c c' : cpu) : Prop := {
  cp_reg : forall r, r <> RAX -> c_reg c' r = c_reg c r;
  cp_rest : rest c' = rest c;
  cp_mem : forall a, a < c_reg c RSP \/ c_reg c RSP + 192 <= a -> c_mem c' a = c_mem c a;
}.

Lemma copied_refl c : copied c c.
Proof. by split. Qed.

Lemma copied_trans c c1 c2 : copied c c1 -> copied c1 c2 -> copied c c2.
Proof.
  intros [H1 H2 H3] [H1' H2' H3']. rewrite (H1 RSP) in H3' by done. split; [|congruence|].
  - intros r Hr. by rewrite H1', H1.
  - intros a Ha. by rewrite H3', H3.
Qed.

Lemma copy_spec j k v l d c : u64 v -> 0 <= c_reg c RSP -> c_reg c RSP + 352 < 2 ^ 64 -> length d = k -> (k < 24)%nat -> length l = 20%nat ->
  l !! j = Some v -> words (c_mem c) (c_reg c RSP) d -> words (c_mem c) (c_reg c RSP + 192) l ->
  let c' := exec [MovFrom RAX RSP (192 + 8 * Z.of_nat j); MovTo RSP (8 * Z.of_nat k) RAX] c in
  copied c c' /\ words (c_mem c') (c_reg c RSP) (d ++ [v]) /\ words (c_mem c') (c_reg c RSP + 192) l.
Proof.
  intros Hv H0 Hr Hd Hk Hlen Hj Hwd Hwl. pose proof (lookup_lt_Some _ _ _ Hj) as Hjl.
  change (exec _ c) with (step (MovTo RSP (8 * Z.of_nat k) RAX) (step (MovFrom RAX RSP (192 + 8 * Z.of_nat j)) c)). cbn [step].
  unfold read, address. rewrite (wrap_small (c_reg c RSP + (192 + _))) by (unfold u64; lia).
  rewrite Z.add_assoc, (words_at j _ _ l v _ Hwl Hj eq_refl), (set_reg_ne RAX RSP) by done. rewrite set_reg_eq, wrap_small by (unfold u64; lia).
  cbv zeta. split; [split|split].
  - intros r Hne. cbn [c_reg]. by apply set_reg_ne.
  - done.
  - intros a Ha. apply set_word_outside. lia.
  - apply words_app. split; [apply words_set; [lia|exact Hwd]|]. rewrite Hd. apply words_cons. split; [by apply get_set_word|apply words_nil].
  - apply words_set; [lia|exact Hwl].
Qed.

Lemma copies_spec srcs : forall vs k l d c, Forall2 (fun j v => l !! j = Some v) srcs vs -> Forall u64 l -> 0 <= c_reg c RSP -> c_reg c RSP + 352 < 2 ^ 64 ->
  length d = k -> (k + length srcs <= 24)%nat -> length l = 20%nat -> words (c_mem c) (c_reg c RSP) d -> words (c_mem c) (c_reg c RSP + 192) l ->
  let c' := exec (copies srcs k) c in
  copied c c' /\ words (c_mem c') (c_reg c RSP) (d ++ vs) /\ words (c_mem c') (c_reg c RSP + 192) l.
Proof.
  induction srcs as [|j srcs IH]; intros vs k l d c Hs Hu H0 Hr Hd Hk Hlen Hwd Hwl.
  - inversion Hs; subst. rewrite app_nil_r. by split; [apply copied_refl|].
  - apply Forall2_cons_inv_l in Hs as (v & vs' & Hj & Hs & ->). rewrite copies_cons, exec_app. cbn [length] in Hk.
    destruct (copy_spec j k v l d c) as (Hc & Hd' & Hl'); [by eapply Forall_lookup_1|done|done|done|lia|done..|]. revert Hc Hd' Hl'.
    generalize (exec [MovFrom RAX RSP (192 + 8 * Z.of_nat j); MovTo RSP (8 * Z.of_nat k) RAX] c). intros c1 Hc Hd' Hl'.
    pose proof (cp_reg _ _ Hc RSP) as E. rewrite <-E in Hd', Hl' by done. destruct (IH vs' (S k) l (d ++ [v]) c1 Hs Hu) as (Hc' & Hw1 & Hw2); [rewrite E by done; lia|rewrite E by done; lia|rewrite length_app; cbn; lia|lia|done..|].
    rewrite E in Hw1, Hw2 by done. cbv zeta. split; [by eapply copied_trans|]. rewrite <-app_assoc in Hw1. by split.
Qed.

(** ** System calls *)

(** The registers of user code as the dispatcher sees them. *)
Definition user_frame (u : cpu) : SyscallFrame :=
  let r := c_reg u in
  mkFrame (r RAX) (r RDI) (r RSI) (r RDX) (r R10) (r R8) (r R9) (c_rip u) (r RSP) (c_rflags u) (r RBX) (r RCX) (r RDX) (r RSI) (r RDI)
          (r RBP) (r R8) (r R9) (r R10) (r R11) (r R12) (r R13) (r R14) (r R15).

Definition frame_sources : list nat := [0; 5; 4; 3; 9; 7; 8; 15; 18; 17; 1; 2; 3; 4; 5; 6; 7; 8; 9; 10; 11; 12; 13; 14]%nat.

Definition frame_values (f : SyscallFrame) : list Z :=
  [sf_number f; sf_arg0 f; sf_arg1 f; sf_arg2 f; sf_arg3 f; sf_arg4 f; sf_arg5 f; sf_user_rip f; sf_user_rsp f; sf_user_rflags f;
   sf_rbx f; sf_rcx f; sf_rdx f; sf_rsi f; sf_rdi f; sf_rbp f; sf_r8 f; sf_r9 f; sf_r10 f; sf_r11 f; sf_r12 f; sf_r13 f; sf_r14 f; sf_r15 f].

(** One of the words of [Hw]. *)
Ltac nth_word Hw n :=
  first [exact (words_at n _ _ _ _ _ Hw eq_refl eq_refl) | let n' := eval cbv in (S n) in lazymatch n with 24%nat => fail | _ => nth_word Hw n' end].

Lemma read_frame_words m p f : words m p (frame_values f) -> read_syscall_frame m p = f.
Proof. intros Hw. destruct f. unfold read_syscall_frame. cbv zeta. f_equal; nth_word Hw 0%nat. Qed.

(** The dispatcher has returned to [c']: it left the stack above it alone. *)
Record call_returned (top : Z) (c c' : cpu) : Prop := {
  cr_rsp : c_reg c' RSP = c_reg c RSP;
  cr_rax : u64 (c_reg c' RAX);
  cr_mem : forall a, c_reg c RSP <= a < top -> c_mem c' a = c_mem c a;
}.

(** The timer's entry aligns the stack for the call and keeps the frame's address. *)
Lemma timer_call_spec c : 16 <= c_reg c RSP -> c_reg c RSP < 2 ^ 64 -> (16 | c_reg c RSP) ->
  let c' := exec [Mov RDI RSP; Mov RAX RSP; And RSP (-16); Sub RSP 16; MovTo RSP 0 RAX] c in
  c_reg c' RSP = c_reg c RSP - 16 /\ c_reg c' RDI = c_reg c RSP /\ c_cr3 c' = c_cr3 c /\ c_mem c' = set_word (c_mem c) (c_reg c RSP - 16) (c_reg c RSP).
Proof.
  intros Hlo Hhi [k Hk]. set (p := c_reg c RSP) in *. set (c1 := set_reg RAX p (set_reg RDI p c)).
  change (exec [Mov RDI RSP; Mov RAX RSP; And RSP (-16); Sub RSP 16; MovTo RSP 0 RAX] c) with
    (step (MovTo RSP 0 RAX) (step (Sub RSP 16) (set_reg RSP (Z.land p (u64_wrap (-16))) c1))).
  rewrite align_16 by (unfold u64; lia). replace (p / 16 * 16) with p by (rewrite Hk, Z.div_mul by lia; lia). cbn [step]. rewrite set_reg_eq, wrap_small by (unfold u64; lia).
  set (c2 := set_reg RSP (p - 16) (set_reg RSP p c1)). assert (c_reg c2 RSP = p - 16) as F3 by (unfold c2; by rewrite set_reg_eq).
  assert (c_reg c2 RAX = p /\ c_reg c2 RDI = p) as [F4 F5] by (clearbody p; by split).
  unfold address. rewrite F3, F4, Z.add_0_r, wrap_small by (unfold u64; lia). by repeat split.
Qed.

Section trap.
Context (rsp0 kernel_cs handler : Z) (u : cpu).
Context (Hu : cpu_ok u) (H0 : u64 rsp0) (base : Z) (Ebase : interrupt_stack rsp0 u / 16 * 16 = base) (Hroom : 352 <= base).
Let user_words := trap_words (c_reg u) (c_rip u) (c_cs u) (c_rflags u) (c_reg u RSP) (c_ss u).

Lemma user_words_ok : Forall u64 user_words.
Proof using Hu.
  destruct Hu as [Hreg Hrip Hfl Hcs Hss]. apply Forall_app. split; [|by repeat (apply Forall_cons_2; [solve [done|apply Hreg]|]); apply Forall_nil_2].
  rewrite Forall_map. apply Forall_forall. intros r _. apply Hreg.
Qed.

(** The processor has pushed its five words. *)
Definition interrupted (c : cpu) : Prop :=
  c_reg c RSP = base - 40 /\ (forall r, r <> RSP -> c_reg c r = c_reg u r) /\ c_cr3 c = c_cr3 u /\
  words (c_mem c) (c_reg c RSP) [c_rip u; c_cs u; c_rflags u; c_reg u RSP; c_ss u] /\ (forall a, base <= a \/ a < base - 40 -> c_mem c a = c_mem u a).

Lemma user_interrupted : interrupted (interrupt rsp0 kernel_cs handler u).
Proof using Hu H0 Ebase Hroom. unfold interrupted. rewrite <-Ebase. apply interrupt_spec; [done..|lia]. Qed.

Lemma base_range : 352 <= base < 2 ^ 64.
Proof using Hu H0 Ebase Hroom.
  assert (u64 (interrupt_stack rsp0 u)) as Hs by (unfold interrupt_stack; destruct (_ =? _); [done|apply Hu]). unfold u64 in Hs.
  pose proof (Z.div_mod (interrupt_stack rsp0 u) 16). pose proof (Z.mod_pos_bound (interrupt_stack rsp0 u) 16). lia.
Qed.

(** The registers on the stack. *)
Lemma user_saved c : interrupted c -> let c' := exec (map Push (rev saved)) c in
  c_reg c' RSP = base - 160 /\ (forall r, r <> RSP -> c_reg c' r = c_reg u r) /\ c_cr3 c' = c_cr3 u /\ words (c_mem c') (c_reg c' RSP) user_words /\
  (forall a, base <= a \/ a < base - 160 -> c_mem c' a = c_mem u a).
Proof using Hu H0 Ebase Hroom.
  intros (E1 & E2 & E3 & Hw & Hm). pose proof (ck_reg _ Hu) as Hreg. pose proof base_range as Hb.
  destruct (save_spec c (c_rip u) (c_cs u) (c_rflags u) (c_reg u RSP) (c_ss u)) as [Hp Hw']; [|lia|exact Hw|].
  { intros r. destruct (decide (r = RSP)) as [->|Hne]; [rewrite E1; unfold u64; lia|]. rewrite (E2 r Hne). apply Hreg. }
  revert Hp Hw'. generalize (exec (map Push (rev saved)) c). intros c' [P1 P2 P3 P4] Hw'. cbv zeta. split_and!.
  - lia.
  - intros r Hr. by rewrite P2, E2.
  - apply (f_equal snd) in P3. cbn in P3. congruence.
  - unfold user_words. replace (trap_words (c_reg u) _ _ _ _ _) with (trap_words (c_reg c) (c_rip u) (c_cs u) (c_rflags u) (c_reg u RSP) (c_ss u)); [exact Hw'|].
    unfold trap_words. f_equal. apply map_ext_in. intros r Hr%list_elem_of_In. apply E2. intros ->. by apply saved_not_rsp.
  - intros a Ha. rewrite P4 by lia. apply Hm. lia.
Qed.

Lemma entry_code : syscall_interrupt_entry = map Push (rev saved) ++ [Sub RSP 192] ++ copies frame_sources 0 ++ [Mov RDI RSP].
Proof using. reflexivity. Qed.

Lemma syscall_entered : let c := exec syscall_interrupt_entry (interrupt rsp0 kernel_cs handler u) in
  c_reg c RSP = base - 352 /\ c_reg c RDI = base - 352 /\ read_syscall_frame (c_mem c) (c_reg c RDI) = user_frame u /\ c_cr3 c = c_cr3 u /\
  words (c_mem c) (base - 160) user_words /\ (forall a, base <= a \/ a < base - 352 -> c_mem c a = c_mem u a).
Proof using Hu H0 Ebase Hroom.
  rewrite entry_code, !exec_app. destruct (user_saved _ user_interrupted) as (E1 & E2 & E3 & Hw & Hm). revert E1 E2 E3 Hw Hm.
  generalize (exec (map Push (rev saved)) (interrupt rsp0 kernel_cs handler u)). intros c E1 E2 E3 Hw Hm.
  pose proof base_range as Hb.
  change (exec [Sub RSP 192] c) with (set_reg RSP (u64_wrap (c_reg c RSP - 192)) c). rewrite wrap_small by (unfold u64; lia).
  set (c1 := set_reg RSP (c_reg c RSP - 192) c). assert (c_reg c1 RSP = base - 352) as E1' by (unfold c1; rewrite set_reg_eq; lia).
  destruct (copies_spec frame_sources (frame_values (user_frame u)) 0 user_words [] c1) as (Hc & Hf & Hu'); [|apply user_words_ok|lia|lia|done|cbn; lia|done|apply words_nil| |].
  { by repeat constructor. }
  { rewrite E1'. replace (base - 352 + 192) with (c_reg c RSP) by lia. exact Hw. }
  revert Hc Hf Hu'. generalize (exec (copies frame_sources 0) c1). intros c2 [P1 P2 P3] Hf Hu'. rewrite E1' in *.
  change (exec [Mov RDI RSP] c2) with (set_reg RDI (c_reg c2 RSP) c2). cbv zeta. rewrite set_reg_eq, set_reg_ne, (P1 RSP), E1' by done. cbn [c_mem c_cr3 set_reg].
  split; [done|]. split; [done|]. split; [apply read_frame_words; exact Hf|]. split; [|split].
  - apply (f_equal snd) in P2. cbn in P2. change (c_cr3 c2 = c_cr3 u). rewrite P2. exact E3.
  - replace (base - 160) with (base - 352 + 192) by lia. exact Hu'.
  - intros a Ha. change (c_mem c2 a = c_mem u a). rewrite P3 by lia. change (c_mem c a = c_mem u a). apply Hm; lia.
Qed.

(** The way back. *)
Lemma syscall_left c c' : c_reg c RSP = base - 352 -> words (c_mem c) (base - 160) user_words -> call_returned base c c' ->
  match syscall_interrupt_return c' with
  | UserExitLanding l => c_reg c' RAX = u64_wrap (-1) /\ c_reg l RSP = base /\ c_mem l = c_mem c' /\ c_cr3 l = c_cr3 c'
  | Returned v => c_reg c' RAX <> u64_wrap (-1) /\ (forall r, c_reg v r = if decide (r = RAX) then c_reg c' RAX else c_reg u r) /\
      rest v = (c_rip u, c_rflags u, c_cs u, c_ss u, c_cr3 c') /\ (forall a, base <= a \/ a < base - 352 -> c_mem v a = c_mem c' a)
  end.
Proof using Hu H0 Ebase Hroom.
  intros Er Hw [R1 R2 R3]. pose proof base_range as Hb.
  unfold syscall_interrupt_return. destruct (Z.eqb_spec (c_reg c' RAX) (u64_wrap (-1))) as [E|E].
  { split; [done|]. change (exec [Add RSP 352] c') with (set_reg RSP (u64_wrap (c_reg c' RSP + 352)) c'). rewrite set_reg_eq.
    rewrite wrap_small by (unfold u64; lia). split; [lia|done]. }
  split; [done|]. rewrite exec_app. change (exec [MovTo RSP 192 RAX; Add RSP 192] c') with (step (Add RSP 192) (step (MovTo RSP 192 RAX) c')). cbn [step].
  unfold address. rewrite (wrap_small (c_reg c' RSP + 192)) by (unfold u64; lia). set (c1 := c' <| c_mem ::= _ |>).
  rewrite (wrap_small (c_reg c1 RSP + 192)) by (unfold c1, u64; cbn; lia). set (c2 := set_reg RSP _ c1).
  assert (c_reg c2 RSP = base - 160) as E2 by (unfold c2; rewrite set_reg_eq; unfold c1; cbn; lia).
  assert (words (c_mem c') (base - 160) user_words) as Hw' by (eapply words_ext; [|exact Hw]; intros x Hx; apply R3; change (length user_words) with 20%nat in Hx; lia).
  assert (words (c_mem c2) (c_reg c2 RSP) (trap_words (fun r => if decide (r = RAX) then c_reg c' RAX else c_reg u r) (c_rip u) (c_cs u) (c_rflags u) (c_reg u RSP) (c_ss u))) as Hw2.
  { rewrite E2. change (c_mem c2) with (set_word (c_mem c') (c_reg c' RSP + 192) (c_reg c' RAX)). replace (c_reg c' RSP + 192) with (base - 160) by lia.
    apply words_cons in Hw' as [_ Hw']. apply words_cons. split; [by apply get_set_word|]. apply words_set; [lia|exact Hw']. }
  destruct (cpu_restore_spec _ _ _ _ _ _ c2 ltac:(lia) ltac:(lia) Hw2) as (Q1 & Q2 & Q3). revert Q1 Q2 Q3. generalize (exec (pop_registers ++ [Iretq]) c2). intros v Q1 Q2 Q3.
  split; [|split].
  - intros r. rewrite Q1. destruct (decide (r = RSP)) as [->|]; [done|done].
  - exact Q2.
  - intros a Ha. rewrite Q3. change (set_word (c_mem c') (c_reg c' RSP + 192) (c_reg c' RAX) a = c_mem c' a). apply set_word_outside. lia.
Qed.

(** *** The timer *)

Lemma timer_code : timer_interrupt_entry = [Cld] ++ map Push (rev saved) ++ [Mov RDI RSP; Mov RAX RSP; And RSP (-16); Sub RSP 16; MovTo RSP 0 RAX].
Proof using. reflexivity. Qed.

Lemma base_16 : (16 | base).
Proof using Ebase. rewrite <-Ebase. by exists (interrupt_stack rsp0 u / 16). Qed.

Lemma timer_entered : let c := exec timer_interrupt_entry (interrupt rsp0 kernel_cs handler u) in
  c_reg c RSP = base - 176 /\ c_reg c RDI = base - 160 /\ get_word (c_mem c) (base - 176) = base - 160 /\ c_cr3 c = c_cr3 u /\
  words (c_mem c) (base - 160) user_words /\ (forall a, base <= a \/ a < base - 176 -> c_mem c a = c_mem u a).
Proof using Hu H0 Ebase Hroom.
  rewrite timer_code, !exec_app. pose proof base_range as Hb. pose proof base_16 as H16.
  assert (forall c, interrupted c -> interrupted (exec [Cld] c)) as Hcld by (intros c Hc; exact Hc).
  destruct (user_saved _ (Hcld _ user_interrupted)) as (E1 & E2 & E3 & Hw & Hm). revert E1 E2 E3 Hw Hm.
  generalize (exec (map Push (rev saved)) (exec [Cld] (interrupt rsp0 kernel_cs handler u))). intros c E1 E2 E3 Hw Hm. rewrite E1 in Hw.
  destruct (timer_call_spec c) as (F1 & F2 & F3 & F4); [lia|lia|rewrite E1; by apply Z.divide_sub_r; [|exists 10]|]. revert F1 F2 F3 F4.
  generalize (exec [Mov RDI RSP; Mov RAX RSP; And RSP (-16); Sub RSP 16; MovTo RSP 0 RAX] c). intros c' F1 F2 F3 F4. cbv zeta. rewrite F4, E1 in *.
  replace (base - 160 - 16) with (base - 176) in * by lia. split; [exact F1|]. split; [exact F2|]. split; [|split; [congruence|split]].
  - apply get_set_word. lia.
  - apply words_set; [lia|exact Hw].
  - intros a Ha. rewrite set_word_outside by lia. apply Hm; lia.
Qed.

(** Leaving through the frame the entry built. *)
Lemma timer_left c f rip cs rflags rsp ss : c_reg c RSP = base - 176 -> c_reg c RAX = 0 -> get_word (c_mem c) (base - 176) = base - 160 ->
  words (c_mem c) (base - 160) (trap_words f rip cs rflags rsp ss) -> let v := timer_interrupt_return c in
  (forall r, c_reg v r = if decide (r = RSP) then rsp else f r) /\ rest v = (rip, rflags, cs, ss, c_cr3 c) /\ c_mem v = c_mem c.
Proof using Hu H0 Ebase Hroom.
  intros E1 E2 E3 Hw. pose proof base_range as Hb. unfold timer_interrupt_return. rewrite E2, Z.eqb_refl, exec_app.
  change (exec [MovFrom RSP RSP 0] c) with (set_reg RSP (get_word (c_mem c) (address c RSP 0)) c). unfold address. rewrite E1, Z.add_0_r, wrap_small, E3 by (unfold u64; lia).
  set (c1 := set_reg RSP _ c). assert (c_reg c1 RSP = base - 160) as F1 by apply set_reg_eq.
  apply (cpu_restore_spec f rip cs rflags rsp ss c1); [lia|lia|]. rewrite F1. exact Hw.
Qed.
End trap.

(** ** Resuming user code *)

Definition loads (b : reg) (rs : list (reg * Z)) : list instr := map (fun x => MovFrom x.1 b x.2) rs.

Lemma exec_loads (f : reg -> Z) b rs : forall c, b ∉ map fst rs -> Forall (fun x => get_word (c_mem c) (address c b x.2) = f x.1) rs ->
  let c' := exec (loads b rs) c in
  (forall r, c_reg c' r = if decide (r ∈ map fst rs) then f r else c_reg c r) /\ rest c' = rest c /\ c_mem c' = c_mem c.
Proof.
  induction rs as [|[r off] rs IH]; intros c Hb Hf; [split; [|done]; intros r; by rewrite decide_False by apply not_elem_of_nil|].
  apply Forall_cons in Hf as [Hv Hf]. cbn [fst snd map] in *. apply not_elem_of_cons in Hb as [Hne Hb].
  change (exec (loads b ((r, off) :: rs)) c) with (exec (loads b rs) (set_reg r (get_word (c_mem c) (address c b off)) c)). rewrite Hv.
  destruct (IH (set_reg r (f r) c) Hb) as (H1 & H2 & H3).
  { eapply Forall_impl; [exact Hf|]. intros x <-. unfold address. by rewrite set_reg_ne. }
  cbv zeta. split; [|by rewrite H2, H3]. intros r'. rewrite H1. destruct (decide (r' ∈ map fst rs)) as [Hin|Hin].
  - rewrite decide_True; [done|]. by right.
  - destruct (decide (r' = r)) as [->|Hr]; [rewrite set_reg_eq, decide_True; [done|by left]|]. rewrite set_reg_ne by done.
    rewrite decide_False; [done|]. by intros [?|?]%elem_of_cons.
Qed.

Record context_ok (x : UserResumeContext) : Prop := { cx_ok : Forall u64 (context_words x) }.

(** The registers of a context. *)
Definition context_reg (x : UserResumeContext) (r : reg) : Z :=
  match r with
  | RAX => rc_rax x | RBX => rc_rbx x | RCX => rc_rcx x | RDX => rc_rdx x | RSI => rc_rsi x | RDI => rc_rdi x | RBP => rc_rbp x
  | RSP => rc_rsp x | R8 => rc_r8 x | R9 => rc_r9 x | R10 => rc_r10 x | R11 => rc_r11 x | R12 => rc_r12 x | R13 => rc_r13 x
  | R14 => rc_r14 x | R15 => rc_r15 x
  end.

Lemma u64_lor a b : u64 a -> u64 b -> u64 (Z.lor a b).
Proof.
  unfold u64. intros Ha Hb. split; [apply Z.lor_nonneg; lia|]. destruct (Z.eq_dec (Z.lor a b) 0) as [->|Hne]; [lia|].
  apply Z.log2_lt_cancel. rewrite Z.log2_lor, (Z.log2_pow2 64) by lia. apply Z.max_lub_lt.
  - destruct (Z.eq_dec a 0) as [->|]; [cbn; lia|]. apply Z.log2_lt_pow2; lia.
  - destruct (Z.eq_dec b 0) as [->|]; [cbn; lia|]. apply Z.log2_lt_pow2; lia.
Qed.

Section resume.
Context (user_cs user_ss : Z) (Hcs : u64 user_cs) (Hss : u64 user_ss).
Context (x : UserResumeContext) (ptr v : Z) (c : cpu).
Context (Hx : context_ok x) (Hv : u64 v) (Hrsp : 40 <= c_reg c RSP < 2 ^ 64) (Hptr : c_reg c RSP <= ptr) (Hend : ptr + 144 <= 2 ^ 64).
Context (Hw : words (c_mem c) ptr (context_words x)).

(** User code continues at the context, with [v] in [RAX]. *)
Definition resumed (cr3 : Z) (c' : cpu) : Prop :=
  (forall r, c_reg c' r = if decide (r = RAX) then v else context_reg x r) /\
  rest c' = (rc_rip x, Z.lor (rc_rflags x) 0x202, user_cs, user_ss, cr3) /\
  (forall a, c_reg c RSP <= a \/ a < c_reg c RSP - 40 -> c_mem c' a = c_mem c a).

(** Loading the registers [rs] and [R10] from the context at [R10], then [iretq]. *)
Lemma resume_code rs c0 : R10 ∉ map fst rs -> RSP ∉ map fst rs -> (forall r, r ∈ map fst rs \/ r = R10 \/ r = RAX \/ r = RSP) -> RAX ∉ map fst rs ->
  Forall (fun y => exists i, context_words x !! i = Some (context_reg x y.1) /\ 8 * Z.of_nat i = y.2) rs ->
  c_reg c0 R10 = ptr -> c_reg c0 RAX = v -> c_reg c0 RSP = c_reg c RSP -> c_mem c0 = c_mem c ->
  resumed (c_cr3 c0) (exec (loads R10 rs ++ [MovFrom R10 R10 88; Iretq]) (push_frame user_cs user_ss (rc_rip x) (rc_rsp x) (Z.lor (rc_rflags x) 0x202) c0)).
Proof using Hcs Hss Hx Hv Hrsp Hptr Hend Hw.
  intros Hr10 Hrs Hall Hra Hrs' E10 Ea Es Em. destruct Hx as [Hu]. rewrite Forall_forall in Hu.
  change (push_frame user_cs user_ss (rc_rip x) (rc_rsp x) (Z.lor (rc_rflags x) 514) c0) with (push_list [user_ss; rc_rsp x; Z.lor (rc_rflags x) 0x202; user_cs; rc_rip x] c0).
  destruct (push_list_spec [user_ss; rc_rsp x; Z.lor (rc_rflags x) 0x202; user_cs; rc_rip x] c0 []) as [[P1 P2 P3 P4] Hw1]; [| |apply words_nil|].
  { repeat apply Forall_cons_2; [done| | |done| |apply Forall_nil_2]; [|apply u64_lor; [|by split]|]; apply Hu, list_elem_of_In; cbn; tauto. }
  { change (8 * Z.of_nat (length _)) with 40. lia. }
  change (8 * Z.of_nat (length _)) with 40 in *. revert P1 P2 P3 P4 Hw1. generalize (push_list [user_ss; rc_rsp x; Z.lor (rc_rflags x) 0x202; user_cs; rc_rip x] c0).
  intros c1 P1 P2 P3 P4 Hw1. rewrite Es in *. assert (words (c_mem c1) ptr (context_words x)) as Hwx.
  { eapply words_ext; [|exact Hw]. intros a Ha. rewrite P4, Em by lia. done. }
  assert (c_reg c1 R10 = ptr) as E10' by (by rewrite P2).
  rewrite exec_app. destruct (exec_loads (context_reg x) R10 rs c1 Hr10) as (L1 & L2 & L3).
  { eapply Forall_impl; [exact Hrs'|]. intros y (i & Hi & Hoff). pose proof (lookup_lt_Some _ _ _ Hi) as Hl. change (length (context_words x)) with 18%nat in Hl.
    unfold address. rewrite E10', wrap_small by (unfold u64; lia). by apply (words_at i _ _ _ _ _ Hwx). }
  revert L1 L2 L3. generalize (exec (loads R10 rs) c1). intros c2 L1 L2 L3.
  change (exec [MovFrom R10 R10 88; Iretq] c2) with (step Iretq (set_reg R10 (get_word (c_mem c2) (address c2 R10 88)) c2)).
  assert (get_word (c_mem c2) (address c2 R10 88) = rc_r10 x) as ->.
  { unfold address. rewrite L1, decide_False, E10', L3, wrap_small by (done || unfold u64; lia). exact (words_at 11 _ _ _ _ 88 Hwx eq_refl eq_refl). }
  set (c3 := set_reg R10 _ c2). assert (c_reg c3 RSP = c_reg c RSP - 40) as E3 by (unfold c3; rewrite set_reg_ne, L1, decide_False by done; exact P1).
  destruct (iretq_spec (rc_rip x) user_cs (Z.lor (rc_rflags x) 0x202) (rc_rsp x) user_ss c3) as (I1 & I2 & I3 & I4); [lia|lia| |].
  { rewrite E3. change (c_mem c3) with (c_mem c2). rewrite L3. rewrite P1 in Hw1. exact Hw1. }
  split; [|split].
  - intros r. destruct (decide (r = RSP)) as [->|Hr]; [exact I1|]. rewrite (I2 r Hr). unfold c3. destruct (decide (r = R10)) as [->|Hr']; [by rewrite set_reg_eq|].
    rewrite set_reg_ne, L1 by done. destruct (decide (r = RAX)) as [->|Hr2]; [rewrite decide_False by done; by rewrite P2|].
    rewrite decide_True; [done|]. destruct (Hall r) as [?|[?|[?|?]]]; done.
  - rewrite I3. f_equal. change (c_cr3 c3) with (c_cr3 c2). apply (f_equal snd) in L2, P3. cbn in L2, P3. congruence.
  - intros a Ha. rewrite I4. change (c_mem c2 a = c_mem c a). rewrite L3, P4, Em by lia. done.
Qed.

Ltac resume_regs :=
  match goal with
  | |- _ ∉ _ => intros H%list_elem_of_In; cbn in H; intuition discriminate
  | |- Forall _ _ => repeat apply Forall_cons_2; try apply Forall_nil_2;
      first [by exists 3%nat|by exists 4%nat|by exists 5%nat|by exists 6%nat|by exists 7%nat|by exists 8%nat|by exists 9%nat|by exists 10%nat
            |by exists 12%nat|by exists 13%nat|by exists 14%nat|by exists 15%nat|by exists 16%nat]
  | |- forall r, _ => intros r; destruct r; rewrite ?list_elem_of_In; cbn; tauto
  end.

Lemma resume_user_spec : resumed (c_cr3 c) (resume_user user_cs user_ss x ptr v c).
Proof using Hcs Hss Hx Hv Hrsp Hptr Hend Hw.
  apply (resume_code [(RBX, 24); (RCX, 32); (RDX, 40); (RSI, 48); (RDI, 56); (RBP, 64); (R8, 72); (R9, 80); (R11, 96); (R12, 104); (R13, 112); (R14, 120); (R15, 128)]
    (set_reg RAX v (set_reg R10 ptr c))); try resume_regs; done.
Qed.

Lemma switch_and_resume_spec p4 : resumed p4 (switch_to_user_p4_and_resume user_cs user_ss p4 x ptr v c).
Proof using Hcs Hss Hx Hv Hrsp Hptr Hend Hw.
  apply (resume_code [(RBX, 24); (RCX, 32); (RDX, 40); (RSI, 48); (RDI, 56); (RBP, 64); (R8, 72); (R9, 80); (R12, 104); (R13, 112); (R14, 120); (R15, 128); (R11, 96)]
    (exec [MovCr3 R11] (set_reg RAX v (set_reg R11 p4 (set_reg R10 ptr c))))); try resume_regs; done.
Qed.
End resume.

(** ** Frames of the timer *)

Definition context_of (u : cpu) : UserResumeContext :=
  let r := c_reg u in
  mkCtx (c_rip u) (r RSP) (c_rflags u) (r RBX) (r RCX) (r RDX) (r RSI) (r RDI) (r RBP) (r R8) (r R9) (r R10) (r R11) (r R12) (r R13) (r R14)
        (r R15) (r RAX).

Lemma read_context m p f rip cs rflags rsp ss : words m p (trap_words f rip cs rflags rsp ss) ->
  user_resume_context m p = mkCtx rip rsp rflags (f RBX) (f RCX) (f RDX) (f RSI) (f RDI) (f RBP) (f R8) (f R9) (f R10) (f R11) (f R12) (f R13) (f R14) (f R15) (f RAX) /\
  tf_code_segment (read_timer_frame m p) = cs.
Proof.
  intros Hw. unfold user_resume_context, user_stack_pointer, read_timer_frame. cbv zeta.
  cbn [tf_rax tf_rbx tf_rcx tf_rdx tf_rsi tf_rdi tf_rbp tf_r8 tf_r9 tf_r10 tf_r11 tf_r12 tf_r13 tf_r14 tf_r15 tf_instruction_pointer tf_code_segment tf_cpu_flags].
  split; [f_equal|]; nth_word Hw 0%nat.
Qed.

Lemma context_of_reg u r : context_reg (context_of u) r = c_reg u r.
Proof. by destruct r. Qed.

Lemma apply_user_resume_words m p f rip cs rflags rsp ss x : context_ok x -> words m p (trap_words f rip cs rflags rsp ss) ->
  words (apply_user_resume m p x) p (trap_words (context_reg x) (rc_rip x) cs (Z.lor (rc_rflags x) 0x202) (rc_rsp x) ss) /\
  (forall a, a < p \/ p + 152 <= a -> apply_user_resume m p x a = m a).
Proof.
  intros [Hx] Hw. rewrite Forall_forall in Hx. unfold apply_user_resume. cbv zeta.
  set (l := [rc_rax x; rc_rbx x; rc_rcx x; rc_rdx x; rc_rsi x; rc_rdi x; rc_rbp x; rc_r8 x; rc_r9 x; rc_r10 x; rc_r11 x; rc_r12 x; rc_r13 x; rc_r14 x; rc_r15 x; rc_rip x]).
  assert (Forall u64 l) as Hl by (apply Forall_forall; intros v Hv; apply Hx, list_elem_of_In; apply list_elem_of_In in Hv; cbn in Hv |- *; tauto).
  assert (u64 (rc_rsp x) /\ u64 (rc_rflags x)) as [Hsp Hfl] by (split; apply Hx, list_elem_of_In; cbn; tauto).
  pose proof (set_words_words l m p Hl) as Hs. assert (words (set_words m p l) (p + 128) [cs; rflags; rsp; ss]) as Hr.
  { eapply words_ext; [intros y Hy; apply set_words_outside; right; change (length l) with 16%nat; lia|].
    change (trap_words f rip cs rflags rsp ss) with ((map f saved ++ [rip]) ++ [cs; rflags; rsp; ss]) in Hw. by apply words_app in Hw as [_ Hw]. }
  revert Hs Hr. set (m1 := set_words m p l). intros Hs Hr. split.
  - change (trap_words (context_reg x) (rc_rip x) cs (Z.lor (rc_rflags x) 0x202) (rc_rsp x) ss) with (l ++ [cs; Z.lor (rc_rflags x) 0x202; rc_rsp x; ss]).
    apply words_app. change (8 * Z.of_nat (length l)) with 128. split.
    + apply words_set; [change (length l) with 16%nat; lia|]. apply words_set; [change (length l) with 16%nat; lia|exact Hs].
    + pose proof (words_at 0 _ _ _ cs 0 Hr eq_refl eq_refl) as R0. pose proof (words_at 3 _ _ _ ss 24 Hr eq_refl eq_refl) as R3.
      rewrite Z.add_0_r in R0. replace (p + 128 + 24) with (p + 152) in R3 by lia. rewrite !words_cons.
      replace (p + 128 + 8) with (p + 136) by lia. replace (p + 136 + 8) with (p + 144) by lia. replace (p + 144 + 8) with (p + 152) by lia. split_and!.
      * rewrite !get_set_word_other by lia. exact R0.
      * rewrite get_set_word_other by lia. apply get_set_word, u64_lor; [exact Hfl|by split].
      * by apply get_set_word.
      * rewrite !get_set_word_other by lia. exact R3.
      * apply words_nil.
  - intros a Ha. rewrite !set_word_outside by lia. apply set_words_outside. change (length l) with 16%nat. lia.
Qed.

(** ** Kernel tasks *)

(** Switching to the frame of a task that was interrupted. *)
Lemma task_resumed c p f rip cs rflags rsp ss : c_reg c RAX = p -> 0 < p -> p + 160 < 2 ^ 64 -> (2 | p) ->
  words (c_mem c) p (trap_words f rip cs rflags rsp ss) -> let v := timer_interrupt_return c in
  (forall r, c_reg v r = if decide (r = RSP) then rsp else f r) /\ rest v = (rip, rflags, cs, ss, c_cr3 c) /\ c_mem v = c_mem c.
Proof.
  intros E1 H0 Hp [k Hk] Hw. unfold timer_interrupt_return. rewrite E1. replace (p =? 0) with false by (symmetry; apply Z.eqb_neq; lia).
  replace (Z.land p 1 =? 0) with true by (symmetry; apply Z.eqb_eq; change 1 with (Z.ones 1); rewrite Z.land_ones, Hk by lia; apply Z.mod_mul; lia).
  rewrite exec_app. change (exec [Mov RSP RAX] c) with (set_reg RSP (c_reg c RAX) c). rewrite E1. set (c1 := set_reg RSP p c).
  assert (c_reg c1 RSP = p) as F by apply set_reg_eq. apply (cpu_restore_spec f rip cs rflags rsp ss c1); [lia|lia|]. rewrite F. exact Hw.
Qed.

(** Entering a task for the first time: [f] are the words of its first frame. *)
Lemma fresh_entered (f : reg -> Z) entry cs rflags p c : c_reg c RSP = p -> 0 <= p -> p + 144 < 2 ^ 64 -> u64 rflags ->
  words (c_mem c) p (map f saved ++ [entry; cs; rflags]) ->
  let v := exec (pop_registers ++ [PushAt RSP 16; Popfq; MovFrom RAX RSP 0; Add RSP 24; Jmp RAX]) c in
  (forall r, c_reg v r = if decide (r = RSP) then p + 144 else if decide (r = RAX) then entry else f r) /\
  rest v = (entry, rflags, c_cs c, c_ss c, c_cr3 c) /\ (forall a, a < p + 112 \/ p + 120 <= a -> c_mem v a = c_mem c a).
Proof.
  intros E1 H0 Hp Hfl [Hw1 Hw2]%words_app. rewrite exec_app. change pop_registers with (map Pop saved). change (8 * Z.of_nat (length (map f saved))) with 120 in Hw2.
  destruct (exec_pops f saved c saved_not_rsp) as [[P1 P2 P3] Hreg]; [lia|change (length saved) with 15%nat; lia|by rewrite E1|].
  change (8 * Z.of_nat (length saved)) with 120 in P1. revert P1 P2 P3 Hreg. generalize (exec (map Pop saved) c). intros c1 P1 P2 P3 Hreg. rewrite <-P3 in Hw2.
  assert (c_reg c1 RSP = p + 120) as F1 by lia. cbv zeta.
  change (exec [PushAt RSP 16; Popfq; MovFrom RAX RSP 0; Add RSP 24; Jmp RAX] c1) with (exec [Popfq; MovFrom RAX RSP 0; Add RSP 24; Jmp RAX] (push (read c1 RSP 16) c1)).
  assert (read c1 RSP 16 = rflags) as ->.
  { unfold read, address. rewrite F1, wrap_small by (unfold u64; lia). exact (words_at 2 _ _ _ rflags 16 Hw2 eq_refl eq_refl). }
  destruct (cpu_push_spec rflags c1 [entry; cs; rflags] Hfl) as [[Q1 Q2 Q3 Q4] Hw3]; [lia|by rewrite F1|]. revert Q1 Q2 Q3 Q4 Hw3. generalize (push rflags c1). intros c2 Q1 Q2 Q3 Q4 Hw3.
  rewrite F1 in *. change (exec [Popfq; MovFrom RAX RSP 0; Add RSP 24; Jmp RAX] c2) with (exec [MovFrom RAX RSP 0; Add RSP 24; Jmp RAX] (step Popfq c2)).
  assert (c_reg (step Popfq c2) RSP = p + 120 /\ c_rflags (step Popfq c2) = rflags /\ (forall r, r <> RSP -> c_reg (step Popfq c2) r = c_reg c1 r) /\
    c_mem (step Popfq c2) = c_mem c2 /\ (c_cs (step Popfq c2), c_ss (step Popfq c2), c_cr3 (step Popfq c2)) = (c_cs c2, c_ss c2, c_cr3 c2)) as (S1 & S2 & S3 & S4 & S5).
  { cbn [step]. unfold read, address. rewrite Q1, !wrap_small by (unfold u64; lia). rewrite set_reg_eq. split; [lia|]. split; [|split; [|done]].
    - exact (words_at 0 _ _ _ rflags 0 Hw3 eq_refl eq_refl).
    - intros r Hr. rewrite set_reg_ne by done. by apply Q2. }
  revert S1 S2 S3 S4 S5. generalize (step Popfq c2). intros c3 S1 S2 S3 S4 S5.
  change (exec [MovFrom RAX RSP 0; Add RSP 24; Jmp RAX] c3) with (exec [Add RSP 24; Jmp RAX] (set_reg RAX (read c3 RSP 0) c3)).
  assert (read c3 RSP 0 = entry) as ->.
  { unfold read, address. rewrite S1, S4, wrap_small by (unfold u64; lia). replace (p + 120 + 0) with (p + 120 - 8 + 8) by lia. exact (words_at 1 _ _ _ entry 8 Hw3 eq_refl eq_refl). }
  change (exec [Add RSP 24; Jmp RAX] (set_reg RAX entry c3)) with (set_reg RSP (u64_wrap (c_reg c3 RSP + 24)) (set_reg RAX entry c3) <| c_rip := entry |>).
  rewrite S1, wrap_small by (unfold u64; lia). unfold rest in *. split; [|split].
  - intros r. cbn [c_reg]. change (c_reg (set_reg RSP (p + 120 + 24) (set_reg RAX entry c3)) r = if decide (r = RSP) then p + 144 else if decide (r = RAX) then entry else f r).
    destruct (decide (r = RSP)) as [->|Hr]; [rewrite set_reg_eq; lia|]. rewrite set_reg_ne by done. destruct (decide (r = RAX)) as [->|Hr']; [by rewrite set_reg_eq|].
    rewrite set_reg_ne, S3, Hreg by done. by rewrite decide_True by by apply saved_all.
  - change ((entry, c_rflags c3, c_cs c3, c_ss c3, c_cr3 c3) = (entry, rflags, c_cs c, c_ss c, c_cr3 c)). congruence.
  - intros a Ha. change (c_mem c3 a = c_mem c a). rewrite S4, Q4, P3 by lia. done.
Qed.

Lemma lor_1 p : (2 | p) -> Z.lor p 1 = p + 1.
Proof.
  intros [k ->]. rewrite Z.mul_comm. apply Z.bits_inj'. intros n Hn. rewrite Z.lor_spec. destruct (Z.eq_dec n 0) as [->|Hne].
  - by rewrite Z.testbit_even_0, Z.testbit_odd_0.
  - replace n with (Z.succ (n - 1)) by lia. rewrite Z.testbit_even_succ, Z.testbit_odd_succ by lia.
    rewrite (Z.bits_above_log2 1) by (cbn; lia). apply orb_false_r.
Qed.

Lemma task_started c p : c_reg c RAX = Z.lor p 1 -> 0 < p -> p + 144 < 2 ^ 64 -> (2 | p) -> forall f entry cs rflags, u64 rflags ->
  words (c_mem c) p (map f saved ++ [entry; cs; rflags]) -> let v := timer_interrupt_return c in
  (forall r, c_reg v r = if decide (r = RSP) then p + 144 else if decide (r = RAX) then entry else f r) /\
  rest v = (entry, rflags, c_cs c, c_ss c, c_cr3 c) /\ (forall a, a < p + 112 \/ p + 120 <= a -> c_mem v a = c_mem c a).
Proof.
  intros E1 H0 Hp Hdiv f entry cs rflags Hfl Hw. pose proof (lor_1 p Hdiv) as El. destruct Hdiv as [k Hk].
  unfold timer_interrupt_return. rewrite E1, El. replace (p + 1 =? 0) with false by (symmetry; apply Z.eqb_neq; lia).
  replace (Z.land (p + 1) 1 =? 0) with false by (symmetry; apply Z.eqb_neq; change 1 with (Z.ones 1) at 2; rewrite Z.land_ones by lia; rewrite Hk, Z.add_comm, Z.mod_add by lia; done).
  rewrite exec_app. change (exec [And RAX (-2); Mov RSP RAX] c) with (exec [Mov RSP RAX] (set_reg RAX (Z.land (c_reg c RAX) (u64_wrap (-2))) c)).
  rewrite E1, El. assert (Z.land (p + 1) (u64_wrap (-2)) = p) as ->.
  { etransitivity; [apply (and_not_ones (p + 1) 1); lia|]. change (2 ^ 1) with 2. replace ((p + 1) / 2) with k by (apply (Z.div_unique _ 2 k 1); lia). lia. }
  change (exec [Mov RSP RAX] (set_reg RAX p c)) with (set_reg RSP p (set_reg RAX p c)).
  apply (fresh_entered f entry cs rflags p (set_reg RSP p (set_reg RAX p c))); [apply set_reg_eq|lia|lia|done|exact Hw].
Qed.

(** The first frame of a task. *)
Lemma first_frame kernel_cs base len entry top m : u64 entry -> u64 kernel_cs -> 144 <= top -> base <= top - 144 -> top <= base + len ->
  exists m', initialize_interrupt_frame kernel_cs base len entry top m = Done (top - 144, m') /\
    words m' (top - 144) (map (fun _ => 0) saved ++ [entry; kernel_cs; 0x202]) /\ (forall a, a < top - 144 \/ top <= a -> m' a = m a).
Proof.
  intros He Hc Ht Hb Hl. unfold initialize_interrupt_frame. replace (top <? 144) with false by (symmetry; apply Z.ltb_ge; lia). cbv zeta.
  replace (_ <? base) with false by (symmetry; apply Z.ltb_ge; lia). replace (base + len <? _) with false by (symmetry; apply Z.ltb_ge; lia).
  eexists. split; [reflexivity|]. assert (Forall u64 [entry; kernel_cs; 0x202]) as Hu by (repeat apply Forall_cons_2; [done|done|by split|apply Forall_nil_2]).
  split.
  - apply words_app. change (8 * Z.of_nat (length (map (fun _ : reg => 0) saved))) with 120. split; [|by apply set_words_words].
    eapply words_ext; [intros x Hx; apply set_words_outside; left; change (length (map _ saved)) with 15%nat in Hx; lia|].
    assert (Forall u64 (replicate KERNEL_INTERRUPT_FRAME_WORDS 0)) as Hz by (apply Forall_replicate; by split).
    pose proof (set_words_words _ m (top - 144) Hz) as Hw. change (replicate KERNEL_INTERRUPT_FRAME_WORDS 0) with (map (fun _ : reg => 0) saved ++ [0; 0; 0]) in Hw at 2.
    by apply words_app in Hw as [Hw _].
  - intros a Ha. rewrite !set_words_outside; [done|rewrite length_replicate; unfold KERNEL_INTERRUPT_FRAME_WORDS; lia|cbn [length]; lia].
Qed.

Lemma exec_push_at b offs vs c : b <> RSP -> 8 * Z.of_nat (length offs) <= c_reg c RSP < 2 ^ 64 -> Forall u64 vs ->
  Forall2 (fun off v => get_word (c_mem c) (address c b off) = v /\
    (c_reg c RSP <= address c b off \/ address c b off + 8 <= c_reg c RSP - 8 * Z.of_nat (length offs))) offs vs ->
  exec (map (PushAt b) offs) c = push_list vs c.
Proof.
  intros Hb Hr Hu Hf. revert c Hr Hu Hf. revert vs. induction offs as [|off offs IH]; intros vs c Hr Hu Hf.
  - by apply Forall2_nil_inv_l in Hf as ->.
  - apply Forall2_cons_inv_l in Hf as (v & vs' & [Hv Hd] & Hf & ->). apply Forall_cons in Hu as [Hv64 Hu]. cbn [length] in *.
    change (exec (map (PushAt b) (off :: offs)) c) with (exec (map (PushAt b) offs) (push (get_word (c_mem c) (address c b off)) c)). rewrite Hv.
    change (push_list (v :: vs') c) with (push_list vs' (push v c)). destruct (cpu_push_spec v c [] Hv64) as [[P1 P2 P3 P4] _]; [lia|apply words_nil|]. apply IH; [lia|done|].
    eapply Forall2_impl; [exact Hf|]. intros o w [Hw Hdis]. unfold address in *. rewrite (P2 b Hb), P1. split; [|lia].
    rewrite <-Hw. apply get_word_ext. intros x Hx. apply P4. lia.
Qed.

(** The registers of a task's context. *)
Definition task_reg (x : Context) (r : reg) : Z :=
  match r with
  | RAX => cx_rax x | RBX => cx_rbx x | RCX => cx_rcx x | RDX => cx_rdx x | RSI => cx_rsi x | RDI => cx_rdi x | RBP => cx_rbp x
  | RSP => cx_rsp x | R8 => cx_r8 x | R9 => cx_r9 x | R10 => cx_r10 x | R11 => cx_r11 x | R12 => cx_r12 x | R13 => cx_r13 x
  | R14 => cx_r14 x | R15 => cx_r15 x
  end.

(** The last part of [setup_first_task]. *)
Lemma first_task_tail x ptr c : Forall u64 (task_context_words x) -> c_reg c RSP = cx_rsp x - 32 -> 32 <= cx_rsp x < 2 ^ 64 -> c_reg c RDI = ptr -> 0 <= ptr -> ptr + 144 <= 2 ^ 64 ->
  words (c_mem c) ptr (task_context_words x) -> words (c_mem c) (cx_rsp x - 32) [cx_rsi x; cx_rdi x; cx_rax x; cx_rip x] ->
  let v := exec (loads RDI [(R15, 0x00); (R14, 0x08); (R13, 0x10); (R12, 0x18); (R11, 0x20); (R10, 0x28); (R9, 0x30); (R8, 0x38); (RBP, 0x40); (RDX, 0x58); (RCX, 0x60); (RBX, 0x68)]
    ++ map Pop [RSI; RDI; RAX] ++ [Ret]) c in
  (forall r, c_reg v r = task_reg x r) /\ rest v = (cx_rip x, c_rflags c, c_cs c, c_ss c, c_cr3 c) /\ c_mem v = c_mem c.
Proof.
  intros Hu Er Hr Ed H0 Hp Hx Hw. rewrite !exec_app.
  destruct (exec_loads (task_reg x) RDI [(R15, 0x00); (R14, 0x08); (R13, 0x10); (R12, 0x18); (R11, 0x20); (R10, 0x28); (R9, 0x30); (R8, 0x38); (RBP, 0x40); (RDX, 0x58); (RCX, 0x60); (RBX, 0x68)] c) as (L1 & L2 & L3).
  { intros H%list_elem_of_In. cbn in H. intuition discriminate. }
  { unfold address. cbn [fst snd]. rewrite Ed. repeat apply Forall_cons_2; [cbn [fst snd task_reg]; rewrite wrap_small by (unfold u64; lia); nth_word Hx 0%nat..|apply Forall_nil_2]. }
  revert L1 L2 L3. generalize (exec (loads RDI [(R15, 0x00); (R14, 0x08); (R13, 0x10); (R12, 0x18); (R11, 0x20); (R10, 0x28); (R9, 0x30); (R8, 0x38); (RBP, 0x40); (RDX, 0x58); (RCX, 0x60); (RBX, 0x68)]) c).
  intros c1 L1 L2 L3. assert (c_reg c1 RSP = cx_rsp x - 32) as F1 by (rewrite L1, decide_False; [exact Er|intros H%list_elem_of_In; cbn in H; intuition discriminate]).
  change [cx_rsi x; cx_rdi x; cx_rax x; cx_rip x] with (map (task_reg x) [RSI; RDI; RAX] ++ [cx_rip x]) in Hw. apply words_app in Hw as [Hw1 Hw2]. change (8 * Z.of_nat (length (map (task_reg x) [RSI; RDI; RAX]))) with 24 in Hw2.
  destruct (exec_pops (task_reg x) [RSI; RDI; RAX] c1) as [[P1 P2 P3] Hreg]; [intros H%list_elem_of_In; cbn in H; intuition discriminate|lia|change (length [RSI; RDI; RAX]) with 3%nat; lia|by rewrite F1, L3|].
  change (8 * Z.of_nat (length [RSI; RDI; RAX])) with 24 in P1. revert P1 P2 P3 Hreg. generalize (exec (map Pop [RSI; RDI; RAX]) c1). intros c2 P1 P2 P3 Hreg.
  change (exec [Ret] c2) with (step Ret c2). cbn [step]. unfold read, address. rewrite P1, F1, !wrap_small by (unfold u64; lia). rewrite P3, L3.
  replace (cx_rsp x - 32 + 24 + 0) with (cx_rsp x - 32 + 24) by lia. apply words_cons in Hw2 as [-> _]. cbv zeta. unfold rest in *. split; [|split].
  - intros r. destruct (decide (r = RSP)) as [->|Hne]; [rewrite set_reg_eq; cbn; lia|]. rewrite set_reg_ne by done. change (c_reg c2 r = task_reg x r). rewrite Hreg by done.
    destruct (decide (r ∈ [RSI; RDI; RAX])) as [|Hn]; [done|]. rewrite L1. rewrite decide_True; [done|].
    apply list_elem_of_In. rewrite list_elem_of_In in Hn. destruct r; cbn in *; tauto.
  - change ((cx_rip x, c_rflags c2, c_cs c2, c_ss c2, c_cr3 c2) = (cx_rip x, c_rflags c, c_cs c, c_ss c, c_cr3 c)). congruence.
  - change (c_mem c2 = c_mem c). congruence.
Qed.

Lemma first_task_code : setup_first_task = [MovFrom RSP RDI 0x88] ++ map (PushAt RDI) [0x78; 0x70; 0x48; 0x50; 0x80] ++ [Popfq] ++
  (loads RDI [(R15, 0x00); (R14, 0x08); (R13, 0x10); (R12, 0x18); (R11, 0x20); (R10, 0x28); (R9, 0x30); (R8, 0x38); (RBP, 0x40); (RDX, 0x58); (RCX, 0x60); (RBX, 0x68)]
    ++ map Pop [RSI; RDI; RAX] ++ [Ret]).
Proof. reflexivity. Qed.

Lemma first_task_spec x ptr c : Forall u64 (task_context_words x) -> c_reg c RDI = ptr -> 0 <= ptr -> ptr + 144 <= 2 ^ 64 -> 40 <= cx_rsp x ->
  cx_rsp x <= ptr \/ ptr + 144 <= cx_rsp x - 40 -> words (c_mem c) ptr (task_context_words x) -> let v := exec setup_first_task c in
  (forall r, c_reg v r = task_reg x r) /\ rest v = (cx_rip x, cx_rflags x, c_cs c, c_ss c, c_cr3 c) /\
  (forall a, cx_rsp x <= a \/ a < cx_rsp x - 40 -> c_mem v a = c_mem c a).
Proof.
  intros Hu Ed H0 Hp Hr Hdis Hx. assert (forall i v, task_context_words x !! i = Some v -> u64 v) as Hu' by (intros i v Hi; by eapply Forall_lookup_1).
  assert (forall (i : nat) off d, task_context_words x !! i = Some d -> 8 * Z.of_nat i = off -> off < 144 -> address c RDI off = ptr + off /\ get_word (c_mem c) (ptr + off) = d) as Hat.
  { intros i off d Hi Ho Hlt. unfold address. rewrite Ed, wrap_small by (unfold u64; lia). split; [done|]. by apply (words_at i _ _ _ _ _ Hx). }
  rewrite first_task_code. do 3 rewrite exec_app. change (exec [MovFrom RSP RDI 0x88] c) with (set_reg RSP (get_word (c_mem c) (address c RDI 0x88)) c).
  destruct (Hat 17%nat 0x88 (cx_rsp x) eq_refl eq_refl ltac:(lia)) as [-> ->]. set (c1 := set_reg RSP (cx_rsp x) c).
  assert (c_reg c1 RSP = cx_rsp x) as F1 by apply set_reg_eq. pose proof (Hu' 17%nat _ eq_refl) as Hsp. unfold u64 in Hsp.
  rewrite (exec_push_at RDI [0x78; 0x70; 0x48; 0x50; 0x80] [cx_rip x; cx_rax x; cx_rdi x; cx_rsi x; cx_rflags x] c1 ltac:(done)); cycle 1.
  { rewrite F1. cbn [length]. lia. }
  { repeat apply Forall_cons_2; [apply (Hu' 15%nat)|apply (Hu' 14%nat)|apply (Hu' 9%nat)|apply (Hu' 10%nat)|apply (Hu' 16%nat)|apply Forall_nil_2]; reflexivity. }
  { rewrite F1. change (c_mem c1) with (c_mem c). assert (forall off, address c1 RDI off = address c RDI off) as Ha by done. cbn [length].
    repeat apply Forall2_cons_2; try apply Forall2_nil_2; rewrite Ha;
      [destruct (Hat 15%nat 0x78 _ eq_refl eq_refl ltac:(lia)) as [-> ->]|destruct (Hat 14%nat 0x70 _ eq_refl eq_refl ltac:(lia)) as [-> ->]
      |destruct (Hat 9%nat 0x48 _ eq_refl eq_refl ltac:(lia)) as [-> ->]|destruct (Hat 10%nat 0x50 _ eq_refl eq_refl ltac:(lia)) as [-> ->]
      |destruct (Hat 16%nat 0x80 _ eq_refl eq_refl ltac:(lia)) as [-> ->]]; (split; [done|lia]). }
  destruct (push_list_spec [cx_rip x; cx_rax x; cx_rdi x; cx_rsi x; cx_rflags x] c1 []) as [[P1 P2 P3 P4] Hw]; [|rewrite F1; cbn [length]; lia|apply words_nil|].
  { repeat apply Forall_cons_2; [apply (Hu' 15%nat)|apply (Hu' 14%nat)|apply (Hu' 9%nat)|apply (Hu' 10%nat)|apply (Hu' 16%nat)|apply Forall_nil_2]; reflexivity. }
  rewrite F1 in P1, P4. change (8 * Z.of_nat (length [cx_rip x; cx_rax x; cx_rdi x; cx_rsi x; cx_rflags x])) with 40 in *. revert P1 P2 P3 P4 Hw.
  generalize (push_list [cx_rip x; cx_rax x; cx_rdi x; cx_rsi x; cx_rflags x] c1). intros c2 P1 P2 P3 P4 Hw. rewrite P1 in Hw. cbn [rev app] in Hw. apply words_cons in Hw as [Efl Hw].
  change (exec [Popfq] c2) with (step Popfq c2). cbn [step]. unfold read, address. rewrite P1, Z.add_0_r, !wrap_small, Efl by (unfold u64; lia).
  set (c3 := set_reg RSP _ _). assert (c_reg c3 RSP = cx_rsp x - 32) as F3 by (unfold c3; rewrite set_reg_eq; lia).
  replace (cx_rsp x - 40 + 8) with (cx_rsp x - 32) in Hw by lia.
  destruct (first_task_tail x ptr c3) as (V1 & V2 & V3); [done|done|lia| |done|done| |exact Hw|].
  { change (c_reg c2 RDI = ptr). rewrite (P2 RDI) by done. exact Ed. }
  { eapply words_ext; [|exact Hx]. intros a Ha. change (length (task_context_words x)) with 18%nat in Ha. change (c_mem c2 a = c_mem c a). rewrite P4 by lia. done. }
  split; [exact V1|]. split.
  - rewrite V2. change (c_rflags c3) with (cx_rflags x). change (c_cs c3, c_ss c3, c_cr3 c3) with (c_cs c2, c_ss c2, c_cr3 c2). unfold rest in P3. cbn in P3. cbn. congruence.
  - intros a Ha. rewrite V3. change (c_mem c2 a = c_mem c a). rewrite P4 by lia. done.
Qed.

(** ** The theorems *)

Lemma user_context_ok u : cpu_ok u -> context_ok (from_syscall_frame (user_frame u)) /\ context_ok (context_of u).
Proof.
  intros [Hr Hrip Hfl _ _]. split; split; unfold context_words; repeat (apply Forall_cons_2; [solve [apply Hr|done|by split]|]); apply Forall_nil_2.
Qed.

Lemma user_context_reg u r : r <> RAX -> context_reg (from_syscall_frame (user_frame u)) r = c_reg u r.
Proof. by destruct r. Qed.

Lemma user_stack rsp0 u : Z.land (c_cs u) 3 = 3 -> interrupt_stack rsp0 u = rsp0.
Proof. intros H. unfold interrupt_stack. by rewrite H. Qed.

(** C18. A system call loses no register.  On a trap from user mode the entry
    routine hands the dispatcher exactly the interrupted registers in a
    [SyscallFrame], with the stack aligned for the call, and writes nothing but
    352 bytes of the kernel stack.  When the dispatcher returns a value, its
    caller's stack frame being as it was, user code continues behind its [int]
    instruction with that value in RAX and every other register, the flags and
    the segments as they were; the value -1 leaves to the kernel's landing with
    the stack as before the trap.  A thread that was switched out with the
    context of its frame and is resumed with a value, on the loaded page table or
    on another, continues there with the value in RAX and every other register
    as it was, its flags with interrupts enabled, and the user segments. *)
Theorem syscall_registers_exact rsp0 kernel_cs handler user_cs user_ss u :
  cpu_ok u -> Z.land (c_cs u) 3 = 3 -> u64 rsp0 -> 352 <= rsp0 -> u64 user_cs -> u64 user_ss ->
  let top := rsp0 / 16 * 16 in
  let c := exec syscall_interrupt_entry (interrupt rsp0 kernel_cs handler u) in
  let x := from_syscall_frame (user_frame u) in
  read_syscall_frame (c_mem c) (c_reg c RDI) = user_frame u /\ (16 | c_reg c RSP) /\ (forall a, top <= a \/ a < top - 352 -> c_mem c a = c_mem u a) /\
  (forall c', call_returned top c c' ->
     match syscall_interrupt_return c' with
     | UserExitLanding l => c_reg c' RAX = u64_wrap (-1) /\ c_reg l RSP = top
     | Returned v => c_reg c' RAX <> u64_wrap (-1) /\ (forall r, c_reg v r = if decide (r = RAX) then c_reg c' RAX else c_reg u r) /\
         rest v = (c_rip u, c_rflags u, c_cs u, c_ss u, c_cr3 c') /\ (forall a, top <= a \/ a < top - 352 -> c_mem v a = c_mem c' a)
     end) /\
  (forall k ptr v p4, u64 v -> 40 <= c_reg k RSP < 2 ^ 64 -> c_reg k RSP <= ptr -> ptr + 144 <= 2 ^ 64 -> words (c_mem k) ptr (context_words x) ->
     forall w cr3, (w, cr3) = (resume_user user_cs user_ss x ptr v k, c_cr3 k) \/ (w, cr3) = (switch_to_user_p4_and_resume user_cs user_ss p4 x ptr v k, p4) ->
       (forall r, c_reg w r = if decide (r = RAX) then v else c_reg u r) /\
       rest w = (c_rip u, Z.lor (c_rflags u) 0x202, user_cs, user_ss, cr3)).
Proof.
  intros Hu Hring H0 Hroom Hcs Hss top c x. pose proof (user_stack rsp0 u Hring) as Es.
  assert (interrupt_stack rsp0 u / 16 * 16 = top) as Et by (by rewrite Es). assert (352 <= top) as Ht by (unfold top; pose proof (Z.div_le_mono 352 rsp0 16 ltac:(lia) Hroom) as Hd; change (352 / 16) with 22 in Hd; lia).
  destruct (syscall_entered rsp0 kernel_cs handler u Hu H0 top Et Ht) as (E1 & E2 & E3 & E4 & Hw & Hm). fold c in E1, E2, E3, E4, Hw, Hm.
  split; [exact E3|]. split; [|split; [exact Hm|split]].
  - rewrite E1. apply Z.divide_sub_r; [by exists (rsp0 / 16)|by exists 22].
  - intros c' Hc. pose proof (syscall_left rsp0 u Hu H0 top Et Ht c c' E1 Hw Hc) as Hl. destruct (syscall_interrupt_return c'); [exact Hl|]. by destruct Hl as (? & ? & _).
  - intros k ptr v p4 Hv Hsp Hptr Hend Hx w cr3 Hw'. destruct (user_context_ok u Hu) as [Hok _].
    assert (resumed user_cs user_ss x v k cr3 w) as (R1 & R2 & _).
    { destruct Hw' as [[= -> ->]|[= -> ->]]; [by apply resume_user_spec|by apply switch_and_resume_spec]. }
    split; [|exact R2]. intros r. rewrite R1. destruct (decide (r = RAX)); [done|]. by apply user_context_reg.
Qed.

(** Preemption loses no register.  The timer's entry hands the dispatcher a
    frame from which it reads exactly the interrupted registers.  If it leaves
    the frame alone, the interrupted code continues as if nothing had happened;
    if it puts another thread's context into the frame of interrupted user code,
    that thread continues where it was interrupted. *)
Theorem timer_registers_exact rsp0 kernel_cs handler u :
  cpu_ok u -> u64 rsp0 -> 352 <= interrupt_stack rsp0 u ->
  let top := interrupt_stack rsp0 u / 16 * 16 in
  let c := exec timer_interrupt_entry (interrupt rsp0 kernel_cs handler u) in
  let p := c_reg c RDI in
  user_resume_context (c_mem c) p = context_of u /\ interrupted_user (read_timer_frame (c_mem c) p) = (Z.land (c_cs u) 3 =? 3) /\ (16 | c_reg c RSP) /\
  (forall c', call_returned top c c' -> c_reg c' RAX = 0 -> let v := timer_interrupt_return c' in
     (forall r, c_reg v r = c_reg u r) /\ rest v = (c_rip u, c_rflags u, c_cs u, c_ss u, c_cr3 c') /\ c_mem v = c_mem c') /\
  (forall c' x, context_ok x -> c_reg c' RSP = c_reg c RSP -> c_reg c' RAX = 0 ->
     (forall a, c_reg c RSP <= a < top -> c_mem c' a = apply_user_resume (c_mem c) p x a) -> let v := timer_interrupt_return c' in
     (forall r, c_reg v r = context_reg x r) /\ rest v = (rc_rip x, Z.lor (rc_rflags x) 0x202, c_cs u, c_ss u, c_cr3 c')).
Proof.
  intros Hu H0 Hroom top c p. assert (352 <= top) as Ht by (unfold top; pose proof (Z.div_le_mono 352 (interrupt_stack rsp0 u) 16 ltac:(lia) Hroom) as Hd; change (352 / 16) with 22 in Hd; lia).
  destruct (timer_entered rsp0 kernel_cs handler u Hu H0 top eq_refl Ht) as (E1 & E2 & E3 & E4 & Hw & Hm). fold c in E1, E2, E3, E4, Hw, Hm.
  pose proof (read_context _ _ _ _ _ _ _ _ Hw) as [Rx Rc]. unfold p. rewrite E2. split; [exact Rx|]. split; [unfold interrupted_user; by rewrite Rc|].
  split; [rewrite E1; apply Z.divide_sub_r; [by exists (interrupt_stack rsp0 u / 16)|by exists 11]|]. pose proof (base_range rsp0 u Hu H0 top eq_refl Ht) as Hb.
  assert (forall c' f rip cs rflags rsp ss, c_reg c' RSP = c_reg c RSP -> c_reg c' RAX = 0 -> (forall a, top - 176 <= a < top - 160 -> c_mem c' a = c_mem c a) ->
    words (c_mem c') (top - 160) (trap_words f rip cs rflags rsp ss) -> let v := timer_interrupt_return c' in
    (forall r, c_reg v r = if decide (r = RSP) then rsp else f r) /\ rest v = (rip, rflags, cs, ss, c_cr3 c') /\ c_mem v = c_mem c') as Hleft.
  { intros c' f rip cs rflags rsp ss R1 R2 R3. apply (timer_left rsp0 u Hu H0 top eq_refl Ht); [by rewrite R1|done|].
    rewrite <-E3. apply get_word_ext. intros a Ha. apply R3. lia. }
  split.
  - intros c' [R1 R2 R3] Ha. destruct (Hleft c' (c_reg u) (c_rip u) (c_cs u) (c_rflags u) (c_reg u RSP) (c_ss u)) as (V1 & V2); [done|done|intros a Ha'; apply R3; lia| |].
    + eapply words_ext; [|exact Hw]. intros a Ha'. apply R3. change (length _) with 20%nat in Ha'. lia.
    + split; [|exact V2]. intros r. rewrite V1. by destruct (decide (r = RSP)) as [->|].
  - intros c' x Hx R1 Ha R3. destruct (apply_user_resume_words _ _ _ _ _ _ _ _ x Hx Hw) as [Hw' Hout].
    destruct (Hleft c' (context_reg x) (rc_rip x) (c_cs u) (Z.lor (rc_rflags x) 0x202) (rc_rsp x) (c_ss u)) as (V1 & V2 & _); [done|done| | |].
    + intros a Ha'. rewrite R3 by lia. apply Hout. lia.
    + eapply words_ext; [|exact Hw']. intros a Ha'. change (length _) with 20%nat in Ha'. rewrite R3 by lia. done.
    + split; [|exact V2]. intros r. rewrite V1. by destruct (decide (r = RSP)) as [->|].
Qed.

(** A program that makes its system call, or is interrupted, with 0x1000 in
    every register. *)
Definition demo_user : cpu := mkCpu (fun _ => 0x1000) 0x1000000 0x202 0x23 0x1b 0 (fun _ => 0).

Lemma demo_user_ok : cpu_ok demo_user.
Proof. split; [intros r|..]; by split. Qed.

Lemma syscall_registers_exact_witness :
  cpu_ok demo_user /\ Z.land (c_cs demo_user) 3 = 3 /\
  let c := exec syscall_interrupt_entry (interrupt 0x20000 8 0x500000 demo_user) in
  read_syscall_frame (c_mem c) (c_reg c RDI) = user_frame demo_user /\ (16 | c_reg c RSP) /\
  match syscall_interrupt_return (set_reg RAX 7 c) with Returned v => c_reg v RAX = 7 /\ c_reg v RBX = 0x1000 | UserExitLanding _ => False end.
Proof.
  split; [exact demo_user_ok|]. split; [reflexivity|].
  destruct (syscall_registers_exact 0x20000 8 0x500000 0x23 0x1b demo_user demo_user_ok eq_refl) as (H1 & H2 & _ & H4 & _); [by split|lia|by split|by split|].
  cbv zeta. split; [exact H1|]. split; [exact H2|]. revert H4. generalize (exec syscall_interrupt_entry (interrupt 0x20000 8 0x500000 demo_user)). clear H1 H2. intros c H4.
  specialize (H4 (set_reg RAX 7 c)). destruct (syscall_interrupt_return (set_reg RAX 7 c)) as [v|l].
  - destruct H4 as (_ & H4 & _); [by split|]. rewrite !H4. by rewrite set_reg_eq.
  - destruct H4 as [H4 _]; [by split|]. rewrite set_reg_eq in H4. discriminate H4.
Defined.

Lemma timer_registers_exact_witness :
  cpu_ok demo_user /\ 352 <= interrupt_stack 0x20000 demo_user /\
  let c := exec timer_interrupt_entry (interrupt 0x20000 8 0x500000 demo_user) in
  user_resume_context (c_mem c) (c_reg c RDI) = context_of demo_user /\
  let v := timer_interrupt_return (set_reg RAX 0 c) in forall r, c_reg v r = 0x1000.
Proof.
  split; [exact demo_user_ok|]. assert (352 <= interrupt_stack 0x20000 demo_user) as H by (vm_compute; discriminate). split; [exact H|].
  destruct (timer_registers_exact 0x20000 8 0x500000 demo_user demo_user_ok) as (H1 & _ & _ & H4 & _); [by split|exact H|].
  cbv zeta. split; [exact H1|]. revert H4. clear H1. generalize (exec timer_interrupt_entry (interrupt 0x20000 8 0x500000 demo_user)). intros c H4 r.
  destruct (H4 (set_reg RAX 0 c)) as [H5 _]; [by split|apply set_reg_eq|]. apply H5.
Defined.
