(* ===== verification/KScheduler.v ===== *)
(** * The scheduler of kernel tasks (scheduler/mod.rs, scheduler/queue.rs, scheduler/task.rs)

    Kernel tasks are threads of the kernel's process; the scheduler reaches
    their states through [ThreadTable], which the process table implements.
    The address of a new task's stack comes from the heap. *)

From S2P Require Import Prelude Utf8 Ring3 Elf AddrSpace PageTables Threads Program Ipc Process Sync Syscall Cpu.

(** ** The thread table *)

Class ThreadTable (K : Type) := {
  tt_create : M K (option Z);
  tt_set_state : Z -> ThreadState -> M K bool;
  tt_state : K -> Z -> option ThreadState;
  tt_runtime_ticks : K -> Z -> option Z;
  tt_now : K -> Z;
}.

#[export] Instance process_threads : ThreadTable Kernel := {
  tt_create := Table.create_kernel_thread;
  tt_set_state := Table.set_kernel_thread_state;
  tt_state := Table.kernel_thread_state;
  tt_runtime_ticks := Table.kernel_thread_runtime_ticks;
  tt_now := k_ticks;
}.

(** ** Tasks *)

Definition DEFAULT_STACK_SIZE : Z := 8 * 1024.

Record TaskControlBlock := mkTask {
  tk_tid : Z; tk_owner_process : Z; tk_priority : Z; tk_context : Context; tk_stack : Z * Z;
  tk_saved_interrupt_frame : Z; tk_has_started : bool; tk_created_at : Z; tk_cpu_time_ms : Z;
  tk_wake_at_tick : option Z; tk_exit_code : option Z }.
#[export] Instance eta_task : Eta TaskControlBlock := fun r =>
  mkTask (tk_tid r) (tk_owner_process r) (tk_priority r) (tk_context r) (tk_stack r) (tk_saved_interrupt_frame r) (tk_has_started r)
         (tk_created_at r) (tk_cpu_time_ms r) (tk_wake_at_tick r) (tk_exit_code r).

(** [TaskControlBlock::new]; the stack is [stack_size] bytes at [base]. *)
Definition task_new (kernel_cs tid owner_process entry_point base stack_size : Z) (m : memory) : outcome (TaskControlBlock * memory) :=
  let m := mem_fill m base 0 stack_size in
  let stack_top := task_stack_top base stack_size in
  '(saved_interrupt_frame, m) ← initialize_interrupt_frame kernel_cs base stack_size entry_point stack_top m;
  mret (mkTask tid owner_process 0 (with_entry_point entry_point stack_top) (base, stack_size) saved_interrupt_frame false 0 0 None None, m).

(** ** The scheduler *)

Record Scheduler := mkScheduler {
  sd_tasks : list (Z * TaskControlBlock);      (* BTreeMap, by key *)
  sd_ready_queue : list Z;
  sd_current_task_id : option Z;
  sd_idle_task_id : option Z;
  sd_total_context_switches : Z;
  sd_total_ticks : Z;
  sd_live_switching : bool }.
#[export] Instance eta_scheduler : Eta Scheduler := fun r =>
  mkScheduler (sd_tasks r) (sd_ready_queue r) (sd_current_task_id r) (sd_idle_task_id r) (sd_total_context_switches r) (sd_total_ticks r) (sd_live_switching r).

Definition scheduler_new : Scheduler := mkScheduler [] [] None None 0 0 false.

Record Tasking (K : Type) := mkTasking { tg_threads : K; tg_sched : Scheduler; tg_sync : SyncState; tg_mem : memory }.
Arguments mkTasking {K}.
Arguments tg_threads {K}.
Arguments tg_sched {K}.
Arguments tg_sync {K}.
Arguments tg_mem {K}.
#[export] Instance eta_tasking {K} : Eta (Tasking K) := fun r => mkTasking (tg_threads r) (tg_sched r) (tg_sync r) (tg_mem r).

(** A map ordered by key. *)
Fixpoint map_insert {A} (k : Z) (v : A) (l : list (Z * A)) : list (Z * A) :=
  match l with
  | [] => [(k, v)]
  | (k', v') :: l' => if k <? k' then (k, v) :: l else if k =? k' then (k, v) :: l' else (k', v') :: map_insert k v l'
  end.

Definition map_get {A} (k : Z) (l : list (Z * A)) : option A := snd <$> List.find (fun x => x.1 =? k) l.
Definition map_update {A} (k : Z) (f : A -> A) (l : list (Z * A)) : list (Z * A) := map (fun x => if x.1 =? k then (x.1, f x.2) else x) l.

Section scheduler.
Context {K : Type} `{ThreadTable K}.
Context (kernel_cs : Z).
Abbreviation Task := (M (Tasking K)).

Definition sched : Task Scheduler := gets tg_sched.
Definition on_sched (f : Scheduler -> Scheduler) : Task () := modify (fun g => g <| tg_sched ::= f |>).
Definition on_threads {A} (m : M K A) : Task A := fun g =>
  match m (tg_threads g) with Done (a, k) => Done (a, g <| tg_threads := k |>) | Panic => Panic end.
Definition on_sync {A} (m : M SyncState A) : Task A := fun g =>
  match m (tg_sync g) with Done (a, s) => Done (a, g <| tg_sync := s |>) | Panic => Panic end.

Definition enqueue (task_id : Z) : Task () := on_sched (fun s => s <| sd_ready_queue ::= (fun q => q ++ [task_id]) |>).
Definition dequeue : Task (option Z) :=
  s ← sched;
  on_sched (fun s => s <| sd_ready_queue ::= tail |>);;
  mret (head (sd_ready_queue s)).

Definition task_insert (task_id entry_point base : Z) : Task () := fun g =>
  match task_new kernel_cs task_id 0 entry_point base DEFAULT_STACK_SIZE (tg_mem g) with
  | Done (task, m) => Done ((), g <| tg_sched ::= (fun s => s <| sd_tasks ::= map_insert task_id task |>) |> <| tg_mem := m |>)
  | Panic => Panic
  end.

Definition create_task (entry_point base : Z) : Task Z :=
  created ← on_threads tt_create;
  task_id ← expect created;
  task_insert task_id entry_point base;;
  enqueue task_id;;
  mret task_id.

(** [idle_task_entry] is at [entry_point]. *)
Definition create_idle_task (entry_point base : Z) : Task Z :=
  s ← sched;
  match sd_idle_task_id s with
  | Some idle_tid => mret idle_tid
  | None =>
    created ← on_threads tt_create;
    idle_tid ← expect created;
    task_insert idle_tid entry_point base;;
    on_sched (fun s => s <| sd_idle_task_id := Some idle_tid |>);;
    mret idle_tid
  end.

(** [task.wake_at_tick <= Some(tick)]: [None] comes first. *)
Definition wake_due (wake_at_tick : option Z) (tick : Z) : bool := match wake_at_tick with None => true | Some t => t <=? tick end.

Definition wake_sleeping_tasks_at (tick : Z) : Task () :=
  g ← get;
  let due x := bool_decide (tt_state (tg_threads g) x.1 = Some TBlocked) && wake_due (tk_wake_at_tick x.2) tick in
  let woke_tasks := map fst (List.filter due (sd_tasks (tg_sched g))) in
  on_sched (fun s => s <| sd_tasks ::= map (fun x => if due x then (x.1, x.2 <| tk_wake_at_tick := None |>) else x) |>);;
  on_sched (fun s => s <| sd_ready_queue ::= (fun q => q ++ woke_tasks) |>).

Definition schedule : Task (option Z) :=
  g ← get;
  wake_sleeping_tasks_at (tt_now (tg_threads g));;
  next ← dequeue;
  match next with
  | Some next => mret (Some next)
  | None => s ← sched; mret (sd_idle_task_id s)
  end.

Definition mark_task_ready (task_id : Z) : Task () := on_threads (tt_set_state task_id TReady);; enqueue task_id.

Definition mark_task_running (task_id : Z) : Task () :=
  on_sched (fun s => s <| sd_current_task_id := Some task_id |>);;
  on_threads (tt_set_state task_id TRunning);;
  mret ().

Definition mark_task_blocked (task_id : Z) : Task () := on_threads (tt_set_state task_id TBlocked);; mret ().

Definition mark_task_zombie (task_id exit_code : Z) : Task () :=
  on_sched (fun s => s <| sd_tasks ::= map_update task_id (fun t => t <| tk_exit_code := Some exit_code |>) |>);;
  on_threads (tt_set_state task_id TZombie);;
  mret ().

Definition sleep_current_until (wake_at_tick : Z) : Task () :=
  s ← sched;
  match sd_current_task_id s with
  | None => mret ()
  | Some task_id =>
    if bool_decide (Some task_id = sd_idle_task_id s) then mret () else
    on_sched (fun s => s <| sd_tasks ::= map_update task_id (fun t => t <| tk_wake_at_tick := Some wake_at_tick |>) |>);;
    on_threads (tt_set_state task_id TBlocked);;
    mret ()
  end.

(** [*self.total_context_switches.lock() += 1] *)
Definition count_switch : Task () :=
  s ← sched;
  if sd_total_context_switches s =? u64_max then panic
  else on_sched (fun s => s <| sd_total_context_switches ::= Z.succ |>).

Definition yield_now : Task () :=
  s ← sched;
  (match sd_current_task_id s with
   | Some current_id => if bool_decide (Some current_id = sd_idle_task_id s) then mret () else mark_task_ready current_id
   | None => mret ()
   end);;
  next ← schedule;
  match next with
  | Some next_id => mark_task_running next_id;; count_switch
  | None => mret ()
  end.

(** What [setup_first_task] is given. *)
Definition start_first_task : Task Context :=
  next ← schedule;
  task_id ← expect next;
  mark_task_running task_id;;
  count_switch;;
  s ← sched;
  task ← expect (map_get task_id (sd_tasks s));
  on_sched (fun s => s <| sd_tasks ::= map_update task_id (fun t => t <| tk_has_started := true |>) |> <| sd_live_switching := true |>);;
  on_sync (modify (fun s => s <| sy_interrupts := false |>));;
  mret (tk_context task).

Definition scheduler_tick : Task () := on_sched (fun s => s <| sd_total_ticks ::= (fun t => (t + 1) mod 2 ^ 64) |>).

Definition preempt_current : Task (option (Z * Z)) :=
  ifSome current_id := gets (fun g => sd_current_task_id (tg_sched g)) orelse mret None in
  ifSome next_id := schedule orelse mret None in
  mark_task_ready current_id;;
  mark_task_running next_id;;
  count_switch;;
  mret (Some (current_id, next_id)).

Definition preempt_from_timer (current_frame_rsp : Z) : Task (option Z) :=
  s ← sched;
  if negb (sd_live_switching s) then mret None else
  disabled ← on_sync preemption_disabled;
  if (disabled : bool) then on_sync defer_preemption;; mret None else
  on_sync take_deferred_preemption;;
  ifSome current_id := mret (sd_current_task_id s) orelse mret None in
  ifSome task := mret (map_get current_id (sd_tasks s)) orelse mret None in
  on_sched (fun s => s <| sd_tasks ::= map_update current_id (fun t => t <| tk_saved_interrupt_frame := current_frame_rsp |>) |>);;
  (if bool_decide (Some current_id = sd_idle_task_id s) then mret () else mark_task_ready current_id);;
  ifSome next_id := schedule orelse mret None in
  mark_task_running next_id;;
  if next_id =? current_id then mret None else
  count_switch;;
  ifSome next := gets (fun g => map_get next_id (sd_tasks (tg_sched g))) orelse mret None in
  on_sched (fun s => s <| sd_tasks ::= map_update next_id (fun t => t <| tk_has_started := true |>) |>);;
  mret (Some (Z.lor (tk_saved_interrupt_frame next) (if tk_has_started next then 0 else 1))).

Definition update_context (task_id : Z) (context : Context) : Task () :=
  on_sched (fun s => s <| sd_tasks ::= map_update task_id (fun t => t <| tk_context := context |>) |>).

Definition task_stack_range (s : Scheduler) (task_id : Z) : option (Z * Z) :=
  task ← map_get task_id (sd_tasks s); Some ((tk_stack task).1, (tk_stack task).1 + (tk_stack task).2).

Record SchedulerStats := mkSchedulerStats {
  ss_current_task : option Z; ss_idle_thread : option Z; ss_total_tasks : Z; ss_ready_tasks : nat;
  ss_total_context_switches : Z; ss_total_ticks : Z }.

Definition scheduler_stats (s : Scheduler) : SchedulerStats :=
  mkSchedulerStats (sd_current_task_id s) (sd_idle_task_id s) (Z.of_nat (length (sd_tasks s))) (length (sd_ready_queue s))
    (sd_total_context_switches s) (sd_total_ticks s).
End scheduler.
