(* ===== verification/KSchedulerProofs.v ===== *)
(** * Kernel tasks take turns and continue where they were

    [ThreadTableLaws] is what the scheduler relies on of the thread table; [KTasks]
    proves it of the process table.  The timer rotates the tasks, and each continues
    with the registers it had. *)

From S2P Require Import Prelude Utf8 Paths Vfs Ring3 Elf AddrSpace AddrSpaceProofs PageTables PageTablesProofs Threads Program Ipc Process TableSafety Views Sync Syscall Heap HeapProofs Cpu CpuProofs KScheduler.

(** ** The interface *)

Class ThreadTableLaws (K : Type) `{ThreadTable K} := {
  tt_ok : K -> Prop;
  tt_set_ok k tid st : tt_ok k ->
    wp (tt_set_state tid st) (fun _ k' => tt_ok k' /\ tt_now k' = tt_now k /\
      forall t, tt_state k' t = if t =? tid then (fun _ => st) <$> tt_state k t else tt_state k t) k;
  tt_room : K -> Prop;
  tt_create_ok k : tt_ok k -> tt_room k ->
    wp tt_create (fun r k' => tt_ok k' /\ forall tid, r = Some tid -> tt_state k tid = None /\
      forall t, tt_state k' t = if t =? tid then Some TReady else tt_state k t) k;
}.

(** ** Maps *)

Lemma map_get_update {A} k (f : A -> A) k' l : map_get k' (map_update k f l) = if k' =? k then f <$> map_get k' l else map_get k' l.
Proof.
  unfold map_get, map_update. induction l as [|[i v] l IH]; cbn [map List.find fst snd]; [by destruct (_ =? _)|].
  destruct (Z.eqb_spec i k') as [->|Hk']; [|by destruct (i =? k); cbn [fst]; rewrite (proj2 (Z.eqb_neq i k') Hk')].
  destruct (Z.eqb_spec k' k) as [->|Hk]; cbn [fst]; by rewrite Z.eqb_refl.
Qed.

Lemma map_update_keys {A} k (f : A -> A) l : map fst (map_update k f l) = map fst l.
Proof. unfold map_update. rewrite map_map. apply map_ext. intros [i v]. cbn. by destruct (i =? k). Qed.

Section tasks.
Context {K : Type} `{ThreadTableLaws K}.
Implicit Types g : Tasking K.

(** ** Rotation *)

(** The task that runs and those that wait, of a scheduler with an idle task. *)
Record ring_ok (g : Tasking K) (idle cur : Z) (q : list Z) : Prop := {
  rk_threads : tt_ok (tg_threads g);
  rk_current : sd_current_task_id (tg_sched g) = Some cur;
  rk_idle : sd_idle_task_id (tg_sched g) = Some idle;
  rk_queue : sd_ready_queue (tg_sched g) = q;
  rk_nodup : NoDup (cur :: q);
  rk_live : sd_live_switching (tg_sched g) = true;
  rk_not_idle : idle ∉ q;
  rk_there : Forall (fun t => is_Some (map_get t (sd_tasks (tg_sched g)))) (idle :: cur :: q);
  rk_awake : Forall (fun t => tt_state (tg_threads g) t.1 <> Some TBlocked) (sd_tasks (tg_sched g));
}.

Definition rotate (idle cur : Z) (q : list Z) : Z * list Z :=
  match (if cur =? idle then q else q ++ [cur]) with [] => (idle, []) | t :: q' => (t, q') end.

Lemma wake_none tick g : Forall (fun t => tt_state (tg_threads g) t.1 <> Some TBlocked) (sd_tasks (tg_sched g)) ->
  wake_sleeping_tasks_at tick g = Done ((), g).
Proof.
  intros Hb. unfold wake_sleeping_tasks_at. run.
  assert (forall l, Forall (fun t => tt_state (tg_threads g) t.1 <> Some TBlocked) l ->
    List.filter (fun x : Z * TaskControlBlock => bool_decide (tt_state (tg_threads g) x.1 = Some TBlocked) && wake_due (tk_wake_at_tick x.2) tick) l = [] /\
    map (fun x : Z * TaskControlBlock => if bool_decide (tt_state (tg_threads g) x.1 = Some TBlocked) && wake_due (tk_wake_at_tick x.2) tick then (x.1, x.2 <| tk_wake_at_tick := None |>) else x) l = l) as Hl.
  { induction 1 as [|x l Hx _ [IH1 IH2]]; cbn; [done|]. rewrite bool_decide_eq_false_2 by done. cbn. by rewrite IH1, IH2. }
  destruct (Hl _ Hb) as [E1 E2]. unfold on_sched, modify. rewrite E1. unfold set. cbv beta iota. cbn [tg_sched tg_threads tg_sync tg_mem sd_tasks sd_ready_queue sd_current_task_id sd_idle_task_id sd_total_context_switches sd_total_ticks sd_live_switching map].
  rewrite app_nil_r. change (map _ (sd_tasks (tg_sched g))) with (map (fun x : Z * TaskControlBlock => if bool_decide (tt_state (tg_threads g) x.1 = Some TBlocked) && wake_due (tk_wake_at_tick x.2) tick then (x.1, x.2 <| tk_wake_at_tick := None |>) else x) (sd_tasks (tg_sched g))).
  rewrite E2. by destruct g as [th [ta qu cu id sw ti li] sy me].
Qed.

Lemma task_modify f (Q : () -> Tasking K -> Prop) g : wp (modify f) Q g <-> Q () (f g).
Proof using. done. Qed.
Lemma task_gets {A} (f : Tasking K -> A) (Q : A -> Tasking K -> Prop) g : wp (gets f) Q g <-> Q (f g) g.
Proof using. done. Qed.
Lemma task_get (Q : Tasking K -> Tasking K -> Prop) g : wp get Q g <-> Q g g.
Proof using. done. Qed.

(** Threads but one are as they were, and that one is not blocked. *)
Definition threads_set (tid : Z) (k k' : K) : Prop :=
  tt_ok k' /\ forall t, tt_state k t <> Some TBlocked -> tt_state k' t <> Some TBlocked.

Lemma wp_set_thread tid st g (Q : bool -> Tasking K -> Prop) : st <> TBlocked -> tt_ok (tg_threads g) ->
  (forall b k', threads_set tid (tg_threads g) k' -> Q b (g <| tg_threads := k' |>)) -> wp (on_threads (tt_set_state tid st)) Q g.
Proof using.
  intros Hst Hok HQ. pose proof (tt_set_ok (tg_threads g) tid st Hok) as Hs. unfold wp, on_threads in *. destruct (tt_set_state tid st (tg_threads g)) as [[b k']|]; [|done].
  destruct Hs as (Hok' & _ & Hst'). apply HQ. split; [done|]. intros t Ht. rewrite Hst'. destruct (t =? tid); [|done]. by destruct (tt_state (tg_threads g) t); [intros [= ->]|].
Qed.

(** Taking the next task. *)
Lemma wp_schedule g idle (Q : option Z -> Tasking K -> Prop) : sd_idle_task_id (tg_sched g) = Some idle ->
  Forall (fun t => tt_state (tg_threads g) t.1 <> Some TBlocked) (sd_tasks (tg_sched g)) ->
  (forall g', g' = g <| tg_sched ::= (fun s => s <| sd_ready_queue ::= tail |>) |> -> Q (Some (default idle (head (sd_ready_queue (tg_sched g))))) g') -> wp schedule Q g.
Proof using.
  intros Hi Hb HQ. unfold schedule. rewrite wp_bind, task_get, wp_bind. unfold wp at 1. rewrite (wake_none _ _ Hb). rewrite wp_bind. unfold dequeue.
  rewrite wp_bind. unfold sched. rewrite task_gets, wp_bind. unfold on_sched. rewrite task_modify, wp_ret. specialize (HQ _ eq_refl).
  destruct (sd_ready_queue (tg_sched g)) as [|t q]; cbn [head default] in *.
  - rewrite wp_bind, task_gets, wp_ret. change (sd_idle_task_id (tg_sched (g <| tg_sched ::= (fun s => s <| sd_ready_queue ::= tail |>) |>))) with (sd_idle_task_id (tg_sched g)).
    by rewrite Hi.
  - by rewrite wp_ret.
Qed.

(** The thread table is good and no thread has blocked since [g]. *)
Definition awake_since (g g' : Tasking K) : Prop :=
  tt_ok (tg_threads g') /\ (forall t, tt_state (tg_threads g) t <> Some TBlocked -> tt_state (tg_threads g') t <> Some TBlocked) /\
  tg_mem g' = tg_mem g /\ tg_sync g' = tg_sync g.

Lemma wp_put_back g cur idle (Q : () -> Tasking K -> Prop) : tt_ok (tg_threads g) ->
  (forall g', awake_since g g' -> tg_sched g' = tg_sched g <| sd_ready_queue := if cur =? idle then sd_ready_queue (tg_sched g) else sd_ready_queue (tg_sched g) ++ [cur] |> -> Q () g') ->
  wp (if bool_decide (Some cur = Some idle) then mret () else mark_task_ready cur) Q g.
Proof using.
  intros Hok HQ. destruct (Z.eqb_spec cur idle) as [->|Hne].
  - rewrite bool_decide_eq_true_2 by done. rewrite wp_ret. apply HQ; [by split|]. by destruct (tg_sched g).
  - rewrite bool_decide_eq_false_2 by congruence. unfold mark_task_ready. rewrite wp_bind. apply wp_set_thread; [done|done|]. intros b k' [Hk1 Hk2].
    unfold enqueue, on_sched. rewrite task_modify. apply HQ; [|done]. by split_and!.
Qed.

Lemma wp_run_next g next (Q : () -> Tasking K -> Prop) : tt_ok (tg_threads g) ->
  (forall g', awake_since g g' -> tg_sched g' = tg_sched g <| sd_current_task_id := Some next |> -> Q () g') -> wp (mark_task_running next) Q g.
Proof using.
  intros Hok HQ. unfold mark_task_running, on_sched. rewrite wp_bind, task_modify, wp_bind. apply wp_set_thread; [done|done|]. intros b k' [Hk1 Hk2]. rewrite wp_ret.
  apply HQ; [|done]. by split_and!.
Qed.

(** What one timer tick does to the control block of a task. *)
Definition turned (f cur next t : Z) (k : TaskControlBlock) : TaskControlBlock :=
  let k := if t =? cur then k <| tk_saved_interrupt_frame := f |> else k in
  if (t =? next) && negb (next =? cur) then k <| tk_has_started := true |> else k.

Record turn (g : Tasking K) (f cur next : Z) (r : option Z) (g' : Tasking K) : Prop := {
  tn_mem : tg_mem g' = tg_mem g;
  tn_depth : sy_depth (tg_sync g') = sy_depth (tg_sync g);
  tn_switches : sd_total_context_switches (tg_sched g') <= sd_total_context_switches (tg_sched g) + 1;
  tn_tasks : forall t, map_get t (sd_tasks (tg_sched g')) = turned f cur next t <$> map_get t (sd_tasks (tg_sched g));
  tn_result : r = if next =? cur then None else
    (fun k => Z.lor (tk_saved_interrupt_frame k) (if tk_has_started k then 0 else 1)) <$> map_get next (sd_tasks (tg_sched g));
}.

Lemma rotate_ok idle cur q next q' : NoDup (cur :: q) -> idle ∉ q -> rotate idle cur q = (next, q') ->
  next = default idle (head (if cur =? idle then q else q ++ [cur])) /\ q' = tail (if cur =? idle then q else q ++ [cur]) /\
  NoDup (next :: q') /\ idle ∉ q' /\ (forall t, t ∈ next :: q' -> t ∈ idle :: cur :: q) /\ (next = cur -> cur = idle \/ q = []).
Proof using.
  intros Hd Hi. unfold rotate. apply NoDup_cons in Hd as [Hn Hd]. destruct (Z.eqb_spec cur idle) as [->|Hne].
  - destruct q as [|t q]; intros [= <- <-]; cbn; (split; [done|]); (split; [done|]).
    + split; [apply NoDup_singleton|]. split; [done|]. split; [set_solver|auto].
    + split; [done|]. apply not_elem_of_cons in Hi as [? Hi]. split; [done|]. split; [set_solver|auto].
  - assert (NoDup (q ++ [cur])) as Hd' by (apply NoDup_app; split; [done|]; split; [set_solver|apply NoDup_singleton]).
    assert (idle ∉ q ++ [cur]) as Hi' by set_solver. destruct q as [|t q]; cbn [app] in *; intros [= <- <-]; cbn [head tail default]; (split; [done|]); (split; [done|]).
    + split; [done|]. split; [set_solver|]. split; [set_solver|auto].
    + split; [done|]. split; [set_solver|]. split; [set_solver|]. intros ->. set_solver.
Qed.

Lemma keys_awake (P : Z -> Prop) (l l' : list (Z * TaskControlBlock)) : map fst l' = map fst l -> Forall (fun t => P t.1) l -> Forall (fun t => P t.1) l'.
Proof using. intros E Hl. apply (Forall_map fst P). rewrite E. by apply Forall_map. Qed.

Lemma updated_there {A} (l l' : list (Z * A)) (ts : list Z) (f : Z -> A -> A) : (forall t, map_get t l' = f t <$> map_get t l) ->
  Forall (fun t => is_Some (map_get t l)) ts -> Forall (fun t => is_Some (map_get t l')) ts.
Proof using. intros E Ht. eapply Forall_impl; [exact Ht|]. intros t. cbn. rewrite E. by destruct (map_get t l). Qed.

Lemma wp_disabled g (Q : bool -> Tasking K -> Prop) : Q (negb (sy_depth (tg_sync g) =? 0)) g -> wp (on_sync preemption_disabled) Q g.
Proof using. by destruct g. Qed.

Lemma wp_take_deferred g (Q : bool -> Tasking K -> Prop) :
  (forall b, Q b (g <| tg_sync ::= (fun s => s <| sy_deferred := false |>) |>)) -> wp (on_sync take_deferred_preemption) Q g.
Proof using. intros HQ. apply (HQ (sy_deferred (tg_sync g))). Qed.

Lemma wp_some {A B} (o : option A) (k : A -> M (Tasking K) B) (d : B) (Q : B -> Tasking K -> Prop) g a : o = Some a -> wp (k a) Q g ->
  wp (ifSome x := mret o orelse mret d in k x) Q g.
Proof using. by intros ->. Qed.

(** The next task has been chosen and marked. *)
Record chosen_task (g : Tasking K) (f : Z) (cur next idle : Z) (q' : list Z) (g5 : Tasking K) : Prop := {
  ct_threads : tt_ok (tg_threads g5);
  ct_tasks : sd_tasks (tg_sched g5) = map_update cur (fun t => t <| tk_saved_interrupt_frame := f |>) (sd_tasks (tg_sched g));
  ct_current : sd_current_task_id (tg_sched g5) = Some next;
  ct_idle : sd_idle_task_id (tg_sched g5) = sd_idle_task_id (tg_sched g);
  ct_queue : sd_ready_queue (tg_sched g5) = q';
  ct_live : sd_live_switching (tg_sched g5) = sd_live_switching (tg_sched g);
  ct_switches : sd_total_context_switches (tg_sched g5) = sd_total_context_switches (tg_sched g);
  ct_awake : Forall (fun t => tt_state (tg_threads g5) t.1 <> Some TBlocked) (sd_tasks (tg_sched g));
  ct_mem : tg_mem g5 = tg_mem g;
  ct_sync : tg_sync g5 = tg_sync g <| sy_deferred := false |>;
}.

Lemma run_chosen g g5 idle cur next q' f : sd_total_context_switches (tg_sched g) < u64_max -> sd_idle_task_id (tg_sched g) = Some idle -> sd_live_switching (tg_sched g) = true ->
  chosen_task g f cur next idle q' g5 ->
  NoDup (next :: q') -> idle ∉ q' -> Forall (fun t => is_Some (map_get t (sd_tasks (tg_sched g)))) (idle :: next :: q') ->
  wp (if next =? cur then mret None else
      count_switch;;
      ifSome next0 := gets (fun g => map_get next (sd_tasks (tg_sched g))) orelse mret None in
      on_sched (fun s => s <| sd_tasks ::= map_update next (fun t => t <| tk_has_started := true |>) |>);;
      mret (Some (Z.lor (tk_saved_interrupt_frame next0) (if tk_has_started next0 then 0 else 1))))
    (fun r g' => ring_ok g' idle next q' /\ turn g f cur next r g') g5.
Proof using.
  intros Hsw Hidle Hlive [C1 C2 C3 C4 C5 C6 C7 C8 C9 C10] Hnd Hni Hthere. destruct (Z.eqb_spec next cur) as [->|Hne].
  - rewrite wp_ret. assert (forall t, map_get t (sd_tasks (tg_sched g5)) = turned f cur cur t <$> map_get t (sd_tasks (tg_sched g))) as Ht.
    { intros t. rewrite C2, map_get_update. unfold turned. rewrite Z.eqb_refl, andb_false_r. by destruct (t =? cur); destruct (map_get t _). }
    split; [split; [done|done|congruence|done|done|congruence|done| |]|split; [done|by rewrite C10|lia|exact Ht|by rewrite Z.eqb_refl]].
    + by apply (updated_there (sd_tasks (tg_sched g)) _ _ (turned f cur cur)).
    + apply (keys_awake (fun t => tt_state (tg_threads g5) t <> Some TBlocked) (sd_tasks (tg_sched g))); [rewrite C2; apply map_update_keys|done].
  - rewrite wp_bind. unfold count_switch, sched. rewrite wp_bind, task_gets, C7. replace (_ =? u64_max) with false by (symmetry; apply Z.eqb_neq; lia).
    unfold on_sched at 1. rewrite task_modify. set (g6 := g5 <| tg_sched ::= _ |>). rewrite wp_bind, task_gets.
    assert (map_get next (sd_tasks (tg_sched g6)) = map_get next (sd_tasks (tg_sched g))) as E6.
    { change (sd_tasks (tg_sched g6)) with (sd_tasks (tg_sched g5)). rewrite C2, map_get_update. by rewrite (proj2 (Z.eqb_neq next cur) Hne). }
    destruct (Forall_inv (Forall_inv_tail Hthere)) as [tn Htn]. rewrite E6, Htn, wp_bind. unfold on_sched. rewrite task_modify, wp_ret. set (g7 := g6 <| tg_sched ::= _ |>).
    assert (sd_tasks (tg_sched g7) = map_update next (fun t => t <| tk_has_started := true |>) (sd_tasks (tg_sched g5))) as E7 by done.
    assert (forall t, map_get t (sd_tasks (tg_sched g7)) = turned f cur next t <$> map_get t (sd_tasks (tg_sched g))) as Ht.
    { intros t. rewrite E7, map_get_update, C2, map_get_update. unfold turned. rewrite (proj2 (Z.eqb_neq next cur) Hne), andb_true_r.
      by destruct (t =? next), (t =? cur); destruct (map_get t _). }
    split; [split; [done|done|by rewrite <-Hidle, <-C4|done|done|by rewrite <-Hlive, <-C6|done| |]|split; [done| | |exact Ht|]].
    + by apply (updated_there (sd_tasks (tg_sched g)) _ _ (turned f cur next)).
    + apply (keys_awake (fun t => tt_state (tg_threads g7) t <> Some TBlocked) (sd_tasks (tg_sched g))); [rewrite E7, map_update_keys, C2; apply map_update_keys|exact C8].
    + change (tg_sync g7) with (tg_sync g5). by rewrite C10.
    + change (sd_total_context_switches (tg_sched g7)) with (Z.succ (sd_total_context_switches (tg_sched g5))). lia.
    + by rewrite (proj2 (Z.eqb_neq next cur) Hne), Htn.
Qed.

Lemma preempt_spec g idle cur q f next q' : ring_ok g idle cur q -> sy_depth (tg_sync g) = 0 -> sd_total_context_switches (tg_sched g) < u64_max ->
  rotate idle cur q = (next, q') -> wp (preempt_from_timer f) (fun r g' => ring_ok g' idle next q' /\ turn g f cur next r g') g.
Proof using.
  intros [Hok Hcur Hidle Hq Hnd Hlive Hni Hthere Hawake] Hd Hsw Hrot. destruct (rotate_ok idle cur q next q' Hnd Hni Hrot) as (En & Eq' & Hnd' & Hni' & Hin & _).
  unfold preempt_from_timer. rewrite wp_bind. unfold sched. rewrite task_gets, Hlive. cbn [negb]. rewrite wp_bind. apply wp_disabled. rewrite Hd. cbn [Z.eqb negb].
  rewrite wp_bind. apply wp_take_deferred. intros b. set (g1 := g <| tg_sync ::= _ |>).
  rewrite Forall_forall in Hthere. destruct (Hthere cur) as [tc Htc]; [set_solver|].
  apply (wp_some _ _ _ _ _ cur Hcur). apply (wp_some _ _ _ _ _ tc Htc). rewrite wp_bind. unfold on_sched at 1. rewrite task_modify. set (g2 := g1 <| tg_sched ::= _ |>).
  rewrite Hidle, wp_bind. apply wp_put_back; [exact Hok|]. intros g3 (A1 & A2 & A3 & A4) E3.
  assert (Forall (fun t => tt_state (tg_threads g3) t.1 <> Some TBlocked) (sd_tasks (tg_sched g3))) as Haw3.
  { apply (keys_awake (fun t => tt_state (tg_threads g3) t <> Some TBlocked) (sd_tasks (tg_sched g))); [rewrite E3; apply map_update_keys|].
    eapply Forall_impl; [exact Hawake|]. intros x. apply A2. }
  assert (sd_ready_queue (tg_sched g3) = if cur =? idle then q else q ++ [cur]) as Eq3 by (rewrite E3, <-Hq; done).
  rewrite wp_bind. apply (wp_schedule g3 idle); [by rewrite E3|done|]. intros g4 E4. rewrite Eq3, <-En. rewrite wp_bind. apply wp_run_next; [by rewrite E4|]. intros g5 (B1 & B2 & B3 & B4) E5.
  assert (Forall (fun t => is_Some (map_get t (sd_tasks (tg_sched g)))) (idle :: next :: q')) as Hthere'.
  { apply Forall_forall. intros t Ht. apply Hthere. apply elem_of_cons in Ht as [->|Ht]; [by left|by apply Hin]. }
  apply (run_chosen g g5 idle cur next q' f); [exact Hsw|exact Hidle|exact Hlive| |exact Hnd'|exact Hni'|exact Hthere'].
  assert (tg_sched g5 = tg_sched g3 <| sd_ready_queue ::= tail |> <| sd_current_task_id := Some next |>) as E5' by (by rewrite E5, E4).
  split; [exact B1|by rewrite E5', E3|by rewrite E5'|by rewrite E5', E3| |by rewrite E5', E3|by rewrite E5', E3| |by rewrite B3, E4; exact A3|by rewrite B4, E4; exact A4].
  { rewrite E5'. change (tail (sd_ready_queue (tg_sched g3)) = q'). by rewrite Eq3. }
  eapply Forall_impl; [exact Hawake|]. intros x Hx. apply B2. rewrite E4. by apply A2.
Qed.

Lemma preempt_disabled g f : sd_live_switching (tg_sched g) = true -> sy_depth (tg_sync g) <> 0 ->
  preempt_from_timer f g = Done (None, g <| tg_sync ::= (fun s => s <| sy_deferred := true |>) |>).
Proof using.
  intros Hl Hd. destruct g as [th sc sy me]. cbn [tg_sched tg_sync] in *. unfold preempt_from_timer, sched, on_sync, preemption_disabled, gets, mbind, M_bind. cbn [tg_sched tg_sync].
  rewrite Hl. cbn [negb tg_sync]. by rewrite (proj2 (Z.eqb_neq _ _) Hd).
Qed.

(** ** Tasks and the processor *)

(** What is known of a task that does not run: it was never entered, or it was
    interrupted in some state of the processor. *)
Inductive image := Fresh (entry : Z) | Suspended (u : cpu).

Context (kernel_cs : Z) (Hcs : u64 kernel_cs) (Hring : Z.land kernel_cs 3 <> 3).

Definition stack_room (b len : Z) (u : cpu) : Prop := b + 352 <= c_reg u RSP <= b + len.

(** A state of the processor in which a task with the stack [b], [len] runs. *)
Definition runs (b len : Z) (u : cpu) : Prop := cpu_ok u /\ Z.land (c_cs u) 3 <> 3 /\ stack_room b len u.

Definition image_ok (m : memory) (k : TaskControlBlock) (i : image) : Prop :=
  let p := tk_saved_interrupt_frame k in let '(b, len) := tk_stack k in
  (2 | p) /\ 0 < b /\ b <= p /\ b + len < 2 ^ 64 /\
  match i with
  | Fresh entry => tk_has_started k = false /\ u64 entry /\ b + 208 <= p /\ p + 144 <= b + len /\ (p + 144) mod 16 = 8 /\ words m p (map (fun _ => 0) saved ++ [entry; kernel_cs; 0x202])
  | Suspended u => tk_has_started k = true /\ runs b len u /\ p + 160 <= b + len /\
      words m p (trap_words (c_reg u) (c_rip u) (c_cs u) (c_rflags u) (c_reg u RSP) (c_ss u))
  end.

(** The stacks of two tasks. *)
Definition stacks_apart (k k' : TaskControlBlock) : Prop := apart (tk_stack k) (tk_stack k').

Record world_ok (g : Tasking K) (u : cpu) (idle cur : Z) (q : list Z) (img : Z -> image) : Prop := {
  wk_ring : ring_ok g idle cur q;
  wk_mem : tg_mem g = c_mem u;
  wk_running : exists k, map_get cur (sd_tasks (tg_sched g)) = Some k /\ tk_has_started k = true /\ runs (tk_stack k).1 (tk_stack k).2 u /\
    0 < (tk_stack k).1 /\ (tk_stack k).1 + (tk_stack k).2 < 2 ^ 64;
  wk_waiting : forall t k, t <> cur -> t ∈ idle :: q -> map_get t (sd_tasks (tg_sched g)) = Some k -> image_ok (c_mem u) k (img t);
  wk_apart : forall t t' k k', t <> t' -> t ∈ idle :: cur :: q -> t' ∈ idle :: cur :: q ->
    map_get t (sd_tasks (tg_sched g)) = Some k -> map_get t' (sd_tasks (tg_sched g)) = Some k' -> stacks_apart k k';
}.

(** The frame of an image lies in its task's stack. *)
Lemma image_kept m m' k i : (forall a, in_block a (tk_stack k) -> m' a = m a) -> image_ok m k i -> image_ok m' k i.
Proof using.
  intros Hm. unfold image_ok, in_block in *. destruct (tk_stack k) as [b len]. cbn [fst snd] in *. intros (H1 & H2 & H3 & H4 & Hi). split_and!; [done..|].
  destruct i as [entry|u].
  - destruct Hi as (? & ? & ? & ? & ? & Hw). split_and!; [done..|]. eapply words_ext; [|exact Hw]. intros x Hx. apply Hm. change (length _) with 18%nat in Hx. lia.
  - destruct Hi as (? & ? & ? & Hw). split_and!; [done..|]. eapply words_ext; [|exact Hw]. intros x Hx. apply Hm. change (length _) with 20%nat in Hx. lia.
Qed.

Lemma turned_stack f cur next t k : tk_stack (turned f cur next t k) = tk_stack k.
Proof using. unfold turned. by destruct (t =? cur), (_ && _). Qed.

Lemma turned_other f cur next t k : t <> cur -> t <> next -> turned f cur next t k = k.
Proof using. intros H1 H2. unfold turned. by rewrite (proj2 (Z.eqb_neq t cur) H1), (proj2 (Z.eqb_neq t next) H2). Qed.

Lemma turned_cur f cur next k : next <> cur -> turned f cur next cur k = k <| tk_saved_interrupt_frame := f |>.
Proof using. intros Hne. unfold turned. by rewrite Z.eqb_refl, (proj2 (Z.eqb_neq cur next)). Qed.

(** The dispatcher has returned [r]: the stack above it and the other tasks'
    stacks are as they were. *)
Record dispatched (g : Tasking K) (idle cur : Z) (q : list Z) (top : Z) (c : cpu) (r : option Z) (c2 : cpu) : Prop := {
  ds_rsp : c_reg c2 RSP = c_reg c RSP;
  ds_rax : c_reg c2 RAX = default 0 r;
  ds_frame : forall a, c_reg c RSP <= a < top -> c_mem c2 a = c_mem c a;
  ds_stacks : forall t k a, t <> cur -> t ∈ idle :: q -> map_get t (sd_tasks (tg_sched g)) = Some k -> in_block a (tk_stack k) -> c_mem c2 a = c_mem c a;
  ds_segments : c_cs c2 = kernel_cs /\ u64 (c_ss c2);
}.

Definition same_state (w u : cpu) : Prop :=
  (forall r, c_reg w r = c_reg u r) /\ c_rip w = c_rip u /\ c_rflags w = c_rflags u /\ c_cs w = c_cs u /\ c_ss w = c_ss u.

(** The state a task is entered in: at its entry point, with interrupts
    enabled and the stack aligned as after a call. *)
Definition entered (entry : Z) (w : cpu) : Prop :=
  c_rip w = entry /\ c_rflags w = 0x202 /\ c_reg w RSP mod 16 = 8 /\ forall r, r <> RSP -> r <> RAX -> c_reg w r = 0.

Definition continues (img : Z -> image) (next : Z) (w : cpu) : Prop :=
  match img next with Suspended u => same_state w u | Fresh entry => entered entry w end.

Lemma same_state_of w f rip cs rflags rsp ss cr3 u : (forall r, c_reg w r = if decide (r = RSP) then rsp else f r) -> rest w = (rip, rflags, cs, ss, cr3) ->
  f = c_reg u -> rsp = c_reg u RSP -> rip = c_rip u -> cs = c_cs u -> rflags = c_rflags u -> ss = c_ss u -> same_state w u.
Proof using.
  intros Hr Hrest -> -> -> -> -> ->. unfold rest in Hrest. injection Hrest as R1 R2 R3 R4 _. split; [|done]. intros r. rewrite Hr. by destruct (decide (r = RSP)) as [->|].
Qed.

Lemma same_state_runs b len w u : same_state w u -> runs b len u -> runs b len w.
Proof using.
  intros (E1 & E2 & E3 & E4 & E5) ([Hr Hrip Hfl Hc Hs] & Hk & Hroom). unfold runs, stack_room in *. rewrite E4, E1. split_and!; [|done|lia..].
  split; [intros r; by rewrite E1|by rewrite E2|by rewrite E3|by rewrite E4|by rewrite E5].
Qed.

(** Switching to a task that waits. *)
Lemma switch_in k i c2 : image_ok (c_mem c2) k i -> c_reg c2 RAX = Z.lor (tk_saved_interrupt_frame k) (if tk_has_started k then 0 else 1) -> c_cs c2 = kernel_cs -> u64 (c_ss c2) ->
  let w := timer_interrupt_return c2 in
  match i with Suspended u => same_state w u | Fresh entry => entered entry w end /\ runs (tk_stack k).1 (tk_stack k).2 w /\
  (forall a, ~ in_block a (tk_stack k) -> c_mem w a = c_mem c2 a).
Proof using Hcs Hring.
  unfold image_ok, in_block. destruct (tk_stack k) as [b len]. cbn [fst snd]. set (p := tk_saved_interrupt_frame k). intros (Hdiv & Hb & Hbp & Hlen & Hi) Ea Ec Es. destruct i as [entry|u].
  - destruct Hi as (Hst & He & Hroom & Hend & Hal & Hw). rewrite Hst in Ea.
    destruct (task_started c2 p Ea ltac:(lia) ltac:(lia) Hdiv (fun _ => 0) entry kernel_cs 0x202 ltac:(by split) Hw) as (V1 & V2 & V3).
    unfold rest in V2. injection V2 as R1 R2 R3 R4 R5. assert (c_reg (timer_interrupt_return c2) RSP = p + 144) as Er by (rewrite V1; by rewrite decide_True). split_and!.
    + split_and!; [done|done|by rewrite Er|]. intros r Hr Hr'. by rewrite V1, !decide_False.
    + split; [|split; [by rewrite R3, Ec|unfold stack_room; rewrite Er; lia]].
      split; [|by rewrite R1|rewrite R2; by split|by rewrite R3, Ec|by rewrite R4].
      intros r. rewrite V1. destruct (decide (r = RSP)); [unfold u64; lia|]. destruct (decide (r = RAX)); [done|by split].
    + intros a Ha. apply V3. lia.
  - destruct Hi as (Hst & Hrun & Hend & Hw). rewrite Hst, Z.lor_0_r in Ea.
    destruct (task_resumed c2 p _ _ _ _ _ _ Ea ltac:(lia) ltac:(lia) Hdiv Hw) as (V1 & V2 & V3).
    assert (same_state (timer_interrupt_return c2) u) as Hsame by (by eapply same_state_of). split_and!; [done|by eapply same_state_runs|]. intros a _. by rewrite V3.
Qed.

Section tick.
Context (g : Tasking K) (u : cpu) (idle cur : Z) (q : list Z) (img : Z -> image) (rsp0 handler : Z).
Context (W : world_ok g u idle cur q img) (H0rsp : u64 rsp0).

Let top := c_reg u RSP / 16 * 16.
Let c := exec timer_interrupt_entry (interrupt rsp0 kernel_cs handler u).

Lemma kernel_stack : interrupt_stack rsp0 u = c_reg u RSP.
Proof using W. destruct (wk_running _ _ _ _ _ _ W) as (k & _ & _ & (_ & Hr & _) & _). unfold interrupt_stack. by rewrite (proj2 (Z.eqb_neq _ _) Hr). Qed.

(** The running task's control block and its stack. *)
Lemma running_task : exists k b len, map_get cur (sd_tasks (tg_sched g)) = Some k /\ tk_has_started k = true /\ tk_stack k = (b, len) /\ runs b len u /\ 0 < b /\ b + len < 2 ^ 64 /\
  b + 176 <= top /\ top <= b + len.
Proof using W.
  destruct (wk_running _ _ _ _ _ _ W) as (k & Hk & Hs & Hr & Hb & Hl). destruct (tk_stack k) as [b len] eqn:E. exists k, b, len. cbn [fst snd] in *.
  destruct Hr as (Hok & Hring' & Hroom) eqn:Er. unfold stack_room in Hroom. pose proof (Z.div_mod (c_reg u RSP) 16). pose proof (Z.mod_pos_bound (c_reg u RSP) 16). subst top. split_and!; try done; lia.
Qed.

Lemma tick_entered : c_reg c RSP = top - 176 /\ c_reg c RDI = top - 160 /\ get_word (c_mem c) (top - 176) = top - 160 /\
  words (c_mem c) (top - 160) (trap_words (c_reg u) (c_rip u) (c_cs u) (c_rflags u) (c_reg u RSP) (c_ss u)) /\ (forall a, top <= a \/ a < top - 176 -> c_mem c a = c_mem u a).
Proof using W H0rsp.
  destruct running_task as (k & b & len & _ & _ & _ & (Hok & _ & Hroom) & Hb & Hl & _). unfold stack_room in Hroom.
  destruct (timer_entered rsp0 kernel_cs handler u Hok H0rsp top) as (E1 & E2 & E3 & _ & E5 & E6); [by rewrite kernel_stack| |exact (conj E1 (conj E2 (conj E3 (conj E5 E6))))].
  subst top. pose proof (Z.div_le_mono 352 (c_reg u RSP) 16 ltac:(lia) ltac:(lia)) as Hd. change (352 / 16) with 22 in Hd. lia.
Qed.

(** Tasks that wait are as they were when the dispatcher returns. *)
Lemma waiting_kept c2 r t k : dispatched g idle cur q top c r c2 -> t <> cur -> t ∈ idle :: q -> map_get t (sd_tasks (tg_sched g)) = Some k -> image_ok (c_mem c2) k (img t).
Proof using W H0rsp.
  intros [_ _ _ Hst _] Hne Ht Hk. destruct running_task as (kc & b & len & Hkc & _ & Estack & _ & _ & _ & Hlo & Hhi). destruct tick_entered as (_ & _ & _ & _ & Hm).
  eapply image_kept; [|by apply (wk_waiting _ _ _ _ _ _ W t k)]. intros a Ha. rewrite (Hst t k a Hne Ht Hk Ha). apply Hm.
  assert (stacks_apart k kc) as Hap by (apply (wk_apart _ _ _ _ _ _ W t cur); [done|revert Ht; rewrite !elem_of_cons; tauto|rewrite !elem_of_cons; tauto|done|done]).
  unfold stacks_apart, apart, in_block in *. rewrite Estack in Hap. cbn in Hap. lia.
Qed.

(** The interrupted task becomes one that waits. *)
Lemma interrupted_waits c2 r k : dispatched g idle cur q top c r c2 -> map_get cur (sd_tasks (tg_sched g)) = Some k ->
  image_ok (c_mem c2) (k <| tk_saved_interrupt_frame := top - 160 |>) (Suspended u).
Proof using W H0rsp.
  intros [_ _ Hfr _ _] Hk. destruct running_task as (kc & b & len & Hkc & Hs & Estack & Hr & Hb & Hl & Hlo & Hhi). rewrite Hk in Hkc. injection Hkc as <-.
  destruct tick_entered as (E1 & _ & _ & Hw & _). unfold image_ok. cbn [tk_saved_interrupt_frame tk_stack]. change (tk_stack (k <| tk_saved_interrupt_frame := top - 160 |>)) with (tk_stack k).
  change (tk_has_started (k <| tk_saved_interrupt_frame := top - 160 |>)) with (tk_has_started k). change (tk_saved_interrupt_frame (k <| tk_saved_interrupt_frame := top - 160 |>)) with (top - 160).
  rewrite Estack. pose proof Hr as (_ & _ & Hroom). unfold stack_room in Hroom. assert ((2 | top)) as H2 by (exists (c_reg u RSP / 16 * 8); subst top; lia). split; [apply Z.divide_sub_r; [done|by exists 80]|]. split; [done|].
  split; [subst top; pose proof (Z.div_mod (c_reg u RSP) 16); pose proof (Z.mod_pos_bound (c_reg u RSP) 16); lia|]. split; [done|]. split; [done|]. split; [exact Hr|]. split; [lia|].
  - eapply words_ext; [|exact Hw]. intros x Hx. change (length _) with 20%nat in Hx. apply Hfr. lia.
Qed.

(** The interrupted task continues. *)
Lemma tick_stays c2 : dispatched g idle cur q top c None c2 -> let w := timer_interrupt_return c2 in same_state w u /\ c_mem w = c_mem c2.
Proof using W H0rsp.
  intros [R1 R2 R3 _ _]. destruct running_task as (k & b & len & _ & _ & _ & (Hok & _ & Hroom) & Hb & Hl & _). unfold stack_room in Hroom.
  destruct tick_entered as (E1 & E2 & E3 & Hw & _). assert (352 <= top) as Htop.
  { subst top. pose proof (Z.div_le_mono 352 (c_reg u RSP) 16 ltac:(lia) ltac:(lia)) as Hd. change (352 / 16) with 22 in Hd. lia. }
  destruct (timer_left rsp0 u Hok H0rsp top (f_equal (fun x => x / 16 * 16) kernel_stack) Htop c2 (c_reg u) (c_rip u) (c_cs u) (c_rflags u) (c_reg u RSP) (c_ss u)) as (V1 & V2 & V3).
  - congruence.
  - exact R2.
  - rewrite <-E3. apply get_word_ext. intros a Ha. apply R3. lia.
  - eapply words_ext; [|exact Hw]. intros a Ha. change (length _) with 20%nat in Ha. apply R3. lia.
  - split; [|exact V3]. by eapply same_state_of.
Qed.

(** The tasks after the tick. *)
Lemma tick_world g2 c2 r w next q' : dispatched g idle cur q top c r c2 -> ring_ok g2 idle next q' -> tg_mem g2 = c_mem w ->
  (forall t, t ∈ next :: q' -> t ∈ idle :: cur :: q) ->
  (forall t, map_get t (sd_tasks (tg_sched g2)) = turned (top - 160) cur next t <$> map_get t (sd_tasks (tg_sched g))) ->
  (forall kn, map_get next (sd_tasks (tg_sched g)) = Some kn -> runs (tk_stack kn).1 (tk_stack kn).2 w /\ 0 < (tk_stack kn).1 /\ (tk_stack kn).1 + (tk_stack kn).2 < 2 ^ 64 /\
    tk_has_started (turned (top - 160) cur next next kn) = true /\ forall a, ~ in_block a (tk_stack kn) -> c_mem w a = c_mem c2 a) ->
  world_ok g2 w idle next q' (fun t => if t =? cur then Suspended u else img t).
Proof using W H0rsp.
  intros Hd Hring2 Hmem Hin Htasks Hnext. assert (forall t, t ∈ idle :: next :: q' -> t ∈ idle :: cur :: q) as Hin'.
  { intros t Ht. apply elem_of_cons in Ht as [->|Ht]; [by left|by apply Hin]. }
  destruct (Forall_inv (Forall_inv_tail (rk_there _ _ _ _ Hring2))) as [kn2 Hkn2]. pose proof Hkn2 as Hkn. rewrite Htasks in Hkn. destruct (map_get next (sd_tasks (tg_sched g))) as [kn|] eqn:Ekn; [|done].
  injection Hkn as Hkn. destruct (Hnext kn eq_refl) as (N1 & N2 & N3 & N4 & N5). split; [done|done| | |].
  - exists kn2. rewrite <-Hkn, turned_stack in *. by split_and!.
  - intros t k Hne Ht Hk. rewrite Htasks in Hk. destruct (map_get t (sd_tasks (tg_sched g))) as [k0|] eqn:Ek; [|done]. injection Hk as <-.
    assert (t ∈ idle :: cur :: q) as Ht' by (apply Hin'; revert Ht; rewrite !elem_of_cons; tauto). assert (stacks_apart k0 kn) as Hap.
    { apply (wk_apart _ _ _ _ _ _ W t next); [done|done|apply Hin; by left|done|done]. }
    assert (forall i, image_ok (c_mem c2) (turned (top - 160) cur next t k0) i -> image_ok (c_mem w) (turned (top - 160) cur next t k0) i) as Hkeep.
    { intros i. apply image_kept. intros a Ha. rewrite turned_stack in Ha. apply N5. unfold stacks_apart, apart, in_block in *. lia. }
    apply Hkeep. destruct (Z.eqb_spec t cur) as [->|Hc].
    + rewrite turned_cur by done. by eapply interrupted_waits.
    + rewrite turned_other by done. eapply waiting_kept; [exact Hd|done| |done]. revert Ht'. rewrite !elem_of_cons. tauto.
  - intros t t' k k' Hne Ht Ht' Hk Hk'. rewrite Htasks in Hk, Hk'. destruct (map_get t (sd_tasks (tg_sched g))) as [k0|] eqn:Ek; [|done]. destruct (map_get t' (sd_tasks (tg_sched g))) as [k0'|] eqn:Ek'; [|done].
    injection Hk as <-. injection Hk' as <-. unfold stacks_apart. rewrite !turned_stack. apply (wk_apart _ _ _ _ _ _ W t t'); auto.
Qed.

(** Fields of the scheduler alone. *)
Lemma ring_same g' idle' cur' q' g2 : tg_threads g2 = tg_threads g' -> tg_sched g2 = tg_sched g' -> ring_ok g' idle' cur' q' -> ring_ok g2 idle' cur' q'.
Proof using. intros E1 E2 [? ? ? ? ? ? ? ? ?]. split; rewrite ?E1, ?E2; done. Qed.

Lemma turned_same k f t : turned f cur cur t k = if t =? cur then k <| tk_saved_interrupt_frame := f |> else k.
Proof using. unfold turned. by rewrite Z.eqb_refl, andb_false_r. Qed.

(** The interrupted task keeps the processor. *)
Lemma tick_same g2 c2 : dispatched g idle cur q top c None c2 -> ring_ok g2 idle cur q -> tg_mem g2 = c_mem (timer_interrupt_return c2) ->
  (forall t, option_map tk_stack (map_get t (sd_tasks (tg_sched g2))) = option_map tk_stack (map_get t (sd_tasks (tg_sched g)))) ->
  (forall t, t <> cur -> map_get t (sd_tasks (tg_sched g2)) = map_get t (sd_tasks (tg_sched g))) ->
  (forall k, map_get cur (sd_tasks (tg_sched g2)) = Some k -> tk_has_started k = true) ->
  same_state (timer_interrupt_return c2) u /\ world_ok g2 (timer_interrupt_return c2) idle cur q (fun t => if t =? cur then Suspended u else img t).
Proof using W H0rsp.
  intros Hd Hr Hm Hstack Hother Hstart. destruct (tick_stays c2 Hd) as [Hs Hmem]. split; [done|].
  destruct running_task as (k & b & len & Hk & _ & Es & Hrun & Hb & Hl & _). pose proof (Hstack cur) as Ec. rewrite Hk in Ec. destruct (map_get cur (sd_tasks (tg_sched g2))) as [k2|] eqn:Ek2; [|done].
  injection Ec as Ec. rewrite Es in Ec. split; [done|done| | |].
  - exists k2. rewrite Ec. cbn [fst snd]. split; [done|]. split; [by apply Hstart|]. split; [by eapply same_state_runs|done].
  - intros t k' Hne Ht Hk'. rewrite (proj2 (Z.eqb_neq t cur) Hne). rewrite Hother in Hk' by done. rewrite Hmem. eapply waiting_kept; [exact Hd|done..].
  - intros t t' k0 k0' Hne Ht Ht' Hk0 Hk0'. pose proof (Hstack t) as S1. pose proof (Hstack t') as S2. rewrite Hk0 in S1. rewrite Hk0' in S2.
    destruct (map_get t (sd_tasks (tg_sched g))) as [j|] eqn:Ej; [|done]. destruct (map_get t' (sd_tasks (tg_sched g))) as [j'|] eqn:Ej'; [|done].
    injection S1 as S1. injection S2 as S2. unfold stacks_apart. rewrite S1, S2. apply (wk_apart _ _ _ _ _ _ W t t'); auto.
Qed.

Lemma tick_spec next q' : sd_total_context_switches (tg_sched g) < u64_max ->
  (if sy_depth (tg_sync g) =? 0 then rotate idle cur q else (cur, q)) = (next, q') ->
  exists r g2, preempt_from_timer (c_reg c RDI) (g <| tg_mem := c_mem c |>) = Done (r, g2) /\ ring_ok g2 idle next q' /\ forall c2, dispatched g idle cur q top c r c2 ->
    let w := timer_interrupt_return c2 in
    (if next =? cur then same_state w u else continues img next w) /\
    world_ok (g2 <| tg_mem := c_mem w |>) w idle next q' (fun t => if t =? cur then Suspended u else img t).
Proof using W H0rsp Hcs Hring.
  intros Hsw Hrot. pose proof (wk_ring _ _ _ _ _ _ W) as Hring0. set (g1 := g <| tg_mem := c_mem c |>). assert (ring_ok g1 idle cur q) as Hring1 by (by apply (ring_same g)).
  destruct (Z.eqb_spec (sy_depth (tg_sync g)) 0) as [Hz|Hnz].
  2:{ injection Hrot as <- <-. eexists _, _. split; [apply preempt_disabled; [apply (rk_live _ _ _ _ Hring1)|exact Hnz]|]. split; [by apply (ring_same g)|]. intros c2 Hd. rewrite Z.eqb_refl.
      apply tick_same; [done|by apply (ring_same g)|done|done|done|]. intros k Hk. destruct running_task as (k' & b & len & Hk' & Hs & _). change (map_get cur (sd_tasks (tg_sched g)) = Some k) in Hk. congruence. }
  destruct (proj1 (wp_run _ _ _) (preempt_spec g1 idle cur q (c_reg c RDI) next q' Hring1 Hz Hsw Hrot)) as (r & g2 & E & Hring2 & [T1 T2 T3 T4 T5]).
  exists r, g2. split; [exact E|]. split; [exact Hring2|]. intros c2 Hd. destruct tick_entered as (_ & Erdi & _). rewrite Erdi in *. change (tg_sched g1) with (tg_sched g) in *.
  destruct (rotate_ok idle cur q next q' (rk_nodup _ _ _ _ Hring1) (rk_not_idle _ _ _ _ Hring1) Hrot) as (_ & _ & _ & _ & Hin & Hsame).
  destruct (Z.eqb_spec next cur) as [->|Hne].
  - assert (q' = q) as ->.
    { destruct (Hsame eq_refl) as [->| ->]; unfold rotate in Hrot; rewrite ?Z.eqb_refl in Hrot.
      - destruct q as [|t q0]; [by injection Hrot|]. injection Hrot as -> <-. exfalso. apply (rk_not_idle _ _ _ _ Hring1). by left.
      - destruct (cur =? idle); by injection Hrot. }
    assert (forall t, map_get t (sd_tasks (tg_sched g2)) = (fun k => if t =? cur then k <| tk_saved_interrupt_frame := top - 160 |> else k) <$> map_get t (sd_tasks (tg_sched g))) as T4'.
    { intros t. rewrite T4. destruct (map_get t (sd_tasks (tg_sched g))); cbn; [|done]. by rewrite turned_same. }
    subst r. apply tick_same; [done|by apply (ring_same g2)|done| | |].
    + intros t. change (sd_tasks (tg_sched (g2 <| tg_mem := c_mem (timer_interrupt_return c2) |>))) with (sd_tasks (tg_sched g2)). rewrite T4'. destruct (map_get t (sd_tasks (tg_sched g))); cbn; [|done]. by destruct (t =? cur).
    + intros t Ht. change (sd_tasks (tg_sched (g2 <| tg_mem := c_mem (timer_interrupt_return c2) |>))) with (sd_tasks (tg_sched g2)). rewrite T4', (proj2 (Z.eqb_neq t cur) Ht). by destruct (map_get t (sd_tasks (tg_sched g))).
    + intros k Hk. change (map_get cur (sd_tasks (tg_sched g2)) = Some k) in Hk. rewrite T4', Z.eqb_refl in Hk. destruct running_task as (k' & b & len & Hk' & Hs & _). rewrite Hk' in Hk. by injection Hk as <-.
  - assert (next ∈ idle :: q) as Hnq by (pose proof (Hin next (list_elem_of_here _ _)) as Hi; revert Hi; rewrite !elem_of_cons; intros [?|[?|?]]; auto; done).
    destruct (Forall_forall (fun t => is_Some (map_get t (sd_tasks (tg_sched g)))) (idle :: cur :: q)) as [Hall _]. destruct (Hall (rk_there _ _ _ _ Hring1) next) as [kn Hkn]; [apply Hin; by left|].
    rewrite Hkn in T5. cbn in T5. subst r. pose proof (waiting_kept c2 _ next kn Hd Hne Hnq Hkn) as Himg. pose proof Hd as [_ D2 _ _ [D5 D6]].
    destruct (switch_in kn (img next) c2 Himg D2 D5 D6) as (S1 & S2 & S3). split; [exact S1|].
    apply (tick_world _ c2 _ _ next q' Hd); [by apply (ring_same g2)|done|exact Hin|exact T4|]. intros kn' Hkn'. rewrite Hkn in Hkn'. injection Hkn' as <-. split; [exact S2|].
    unfold image_ok in Himg. destruct (tk_stack kn) as [b len]. destruct Himg as (_ & Hb & _ & Hl & _). split; [done|]. split; [done|]. split; [|exact S3].
    unfold turned. rewrite (proj2 (Z.eqb_neq next cur) Hne), Z.eqb_refl. done.
Qed.
End tick.
End tasks.
