(* ===== verification/KTasks.v ===== *)
(** * Kernel tasks from their creation on

    The process table keeps the laws of the scheduler's thread table.  Tasks
    created at boot start at their entry points on stacks of their own, and from
    then on every timer tick gives the processor to the next one. *)

From S2P Require Import Prelude Utf8 Paths Vfs Ring3 Elf AddrSpace AddrSpaceProofs PageTables PageTablesProofs Threads Program Ipc Process TableSafety Views Lifecycle Sync Syscall Heap HeapProofs Cpu CpuProofs KScheduler KSchedulerProofs.

(** ** The process table as thread table *)

Lemma kernel_state_thread k tid : Table.kernel_thread_state k tid =
  match find_by_tid k tid with Some p => if is_user (pr_kind p) then None else th_state <$> TStore.get (pr_threads p) tid | None => None end.
Proof. unfold Table.kernel_thread_state. by destruct (find_by_tid k tid). Qed.

(** The states after one thread of the kernel's process was changed. *)
Lemma kernel_state_updated k p f tid st : kernel_wf k -> find_by_tid k tid = Some p -> is_user (pr_kind p) = false -> (forall t, th_tid (f t) = th_tid t /\ th_state (f t) = st) ->
  shape (refresh_state_from_threads (upd_thread tid f p)) = shape p ->
  forall t, Table.kernel_thread_state (with_process (has_tid tid) (refresh_state_from_threads (upd_thread tid f p)) k) t =
    if t =? tid then (fun _ => st) <$> Table.kernel_thread_state k t else Table.kernel_thread_state k t.
Proof.
  intros Hwf Hp Hk Hf Hs t. set (p' := refresh_state_from_threads (upd_thread tid f p)) in *.
  pose proof (with_process_replaced (has_tid tid) p p' k Hp) as Hr. rewrite !kernel_state_thread, (find_by_tid_replaced _ k p p' _ Hwf Hr Hs).
  assert (pr_kind p' = pr_kind p) as Ek by (unfold p', refresh_state_from_threads; by destruct (is_dead _)).
  destruct (has_tid t p) eqn:Et.
  - assert (find_by_tid k t = Some p) as ->. { apply (find_by_tid_elem (shapes (k_table k))); [done| |done]. by apply find_Some in Hp as [? _]. }
    rewrite Ek, Hk. unfold p'. rewrite get_refresh, get_upd_thread by (intros x; apply Hf). destruct (t =? tid); [|done].
    destruct (TStore.get (pr_threads p) t) as [x|]; [|done]. cbn. by rewrite (proj2 (Hf x)).
  - destruct (Z.eqb_spec t tid) as [->|]; [|done]. apply find_Some in Hp as [_ Hp]. congruence.
Qed.

(** The states after a new thread of the kernel's process. *)
Lemma kernel_state_added k k' p t : is_user (pr_kind p) = false ->
  replaced k p (refresh_state_from_threads (p <| pr_threads := pr_threads p <| ts_items ::= (fun l => l ++ [t]) |> |>)) k' -> (forall q, q ∈ pt_processes (k_table k) -> has_tid (th_tid t) q = false) ->
  th_state t = TReady -> p ∈ pt_processes (k_table k) ->
  Table.kernel_thread_state k (th_tid t) = None /\
  forall x, Table.kernel_thread_state k' x = if x =? th_tid t then Some TReady else Table.kernel_thread_state k x.
Proof.
  intros Hk (l1 & l2 & E1 & E2) Hno Hst Hp. set (p' := refresh_state_from_threads _) in *.
  assert (forall x, TStore.get (pr_threads p') x = match TStore.get (pr_threads p) x with Some y => Some y | None => if x =? th_tid t then Some t else None end) as Hget.
  { intros x. unfold p'. rewrite get_refresh. unfold TStore.get. cbn. rewrite find_app. rewrite (Z.eqb_sym x). cbn. by destruct (List.find _ _). }
  assert (pr_kind p' = pr_kind p) as Ek by (unfold p', refresh_state_from_threads; by destruct (is_dead _)).
  assert (forall x, has_tid x p' = has_tid x p || (x =? th_tid t)) as Hhas.
  { intros x. unfold has_tid. rewrite Hget. destruct (TStore.get (pr_threads p) x); [done|]. by destruct (x =? th_tid t). }
  assert (forall l, (forall q, q ∈ l -> has_tid (th_tid t) q = false) -> List.find (has_tid (th_tid t)) l = None) as Hnone.
  { intros l Hl. destruct (List.find _ l) as [q|] eqn:E; [|done]. apply find_Some in E as [Hq E]. by rewrite Hl in E. }
  split; [rewrite kernel_state_thread; unfold find_by_tid; by rewrite Hnone|]. intros x. rewrite !kernel_state_thread. unfold find_by_tid. rewrite E1, E2, !find_app. cbn [List.find]. rewrite Hhas.
  destruct (Z.eqb_spec x (th_tid t)) as [->|Hne].
  - rewrite Hnone by (intros q Hq; apply Hno; rewrite E1; by apply elem_of_app; left). rewrite orb_true_r, Ek, Hk, Hget, Z.eqb_refl.
    pose proof (Hno p Hp) as Hp'. unfold has_tid in Hp'. destruct (TStore.get (pr_threads p) (th_tid t)); [done|]. cbn. by rewrite Hst.
  - rewrite orb_false_r. destruct (List.find (has_tid x) l1); [done|]. destruct (has_tid x p) eqn:Eh; [|done]. rewrite Ek, Hk, Hget.
    unfold has_tid in Eh. by destruct (TStore.get (pr_threads p) x).
Qed.

#[export] Program Instance process_thread_laws : ThreadTableLaws Kernel := { tt_ok := kernel_wf; tt_room := room }.
Next Obligation.
  intros k tid st Hwf. pose proof (set_kernel_thread_state_safe (shapes (k_table k)) tid st k Hwf) as Hs. destruct Hwf as [Ht Ha] eqn:Ewf.
  assert (switches k + Z.of_nat 0 <= u64_max) as Hsw by (destruct (ti_counters _ _ Ht) as (_ & _ & ?); unfold switches; lia). specialize (Hs Hsw). clear Hsw Ewf.
  assert (kernel_wf k) as Hwf' by (by split). cbn. unfold wp in *. revert Hs. unfold Table.set_kernel_thread_state. run. destruct (find_by_tid k tid) as [p|] eqn:Ep.
  2:{ intros _. split; [done|]. split; [done|]. intros t. destruct (Z.eqb_spec t tid) as [->|]; [|done]. by rewrite kernel_state_thread, Ep. }
  destruct (is_user (pr_kind p)) eqn:Eu.
  { intros _. split; [done|]. split; [done|]. intros t. destruct (Z.eqb_spec t tid) as [->|]; [|done]. by rewrite kernel_state_thread, Ep, Eu. }
  run. intros (Hi & _ & _ & Hsame). split; [by apply inv_wf in Hi|]. split.
  { destruct Hsame as [Hf _]. unfold frozen in Hf. do 3 apply (f_equal fst) in Hf. by apply (f_equal snd) in Hf. }
  apply kernel_state_updated; [done|done|done| |].
  - intros t. split; [|done]. cbn [th_tid set]. unfold stop_thread_run, start_thread. by destruct (_ && _), (ThreadState_eqb _ _), (th_last_started_tick t).
  - rewrite shape_refresh. apply shape_upd_thread. intros t. unfold stop_thread_run, start_thread. by destruct (_ && _), (ThreadState_eqb _ _), (th_last_started_tick t).
Qed.
Next Obligation.
  intros k Hwf Hroom. cbn [tt_create process_threads tt_state]. unfold Table.create_kernel_thread. find_step. destruct (List.find _ _) as [p0|] eqn:E0; [|by split].
  apply find_Some in E0 as [Hp0 Hk0%negb_true_iff]. apply reserve_step; [done|apply Hroom|]. intros tid k1 Hfr Hrest Hsame _. find_step.
  rewrite (find_process_table k k1 _ Hsame), (find_process_elem _ k p0 Hwf Hp0). assert (find_process k1 (pr_pid p0) = Some p0) as Ep.
  { rewrite (find_process_table k k1 _ Hsame). by apply (find_process_elem _ k p0 Hwf). }
  pose proof (inv_wf _ _ (proj1 Hfr)) as Hk1. eapply insert_step; [exact Hfr|exact Ep|done|by split|]. intros Hl. cbn [negb].
  set (t := new_thread tid (pr_pid p0) KernelThread <| th_state := TReady |>). set (p' := refresh_state_from_threads _).
  pose proof (put_new_ok _ k1 tid (pr_pid p0) p0 t p' Hfr Ep eq_refl eq_refl eq_refl Hl (shape_refresh _)) as Hput. rewrite wp_bind. eapply wp_run in Hput as (u & k2 & E2 & Hwf2 & _).
  unfold wp at 1. rewrite E2, wp_ret. split; [done|]. rewrite put_process_eq in E2. injection E2 as _ <-. intros x [= <-].
  assert (forall q, q ∈ pt_processes (k_table k) -> has_tid tid q = false) as Hno.
  { intros q Hq. apply not_true_iff_false. rewrite has_tid_shape. intros Hin. destruct Hfr as (_ & Hfr & _). apply Hfr. apply (shape_tid_in _ (shape q)); [|done]. by apply shapes_elem. }
  apply (kernel_state_added k _ p0 t); [done| |done|done|done].
  destruct (with_process_replaced (fun q => pr_pid q =? pr_pid p0) p0 p' k1 Ep) as (l1 & l2 & R1 & R2). exists l1, l2. by rewrite <-Hsame.
Qed.

(** ** Creation *)

Lemma map_get_insert {A} k (v : A) t l : map_get t (map_insert k v l) = if t =? k then Some v else map_get t l.
Proof.
  unfold map_get. induction l as [|[i w] l IH]; cbn [map_insert List.find fst snd]; [rewrite (Z.eqb_sym t); by destruct (k =? t)|].
  destruct (Z.ltb_spec k i) as [Hlt|Hge]; cbn [List.find fst snd].
  - rewrite (Z.eqb_sym t). by destruct (k =? t).
  - destruct (Z.eqb_spec k i) as [->|Hne]; cbn [List.find fst snd].
    + rewrite (Z.eqb_sym t). by destruct (i =? t).
    + destruct (Z.eqb_spec i t) as [->|]; [|exact IH]. by rewrite (proj2 (Z.eqb_neq t k)) by congruence.
Qed.

Lemma map_insert_Forall {A} (P : Z * A -> Prop) k v l : P (k, v) -> Forall P l -> Forall P (map_insert k v l).
Proof.
  intros Hv. induction 1 as [|[i w] l Hw Hl IH]; cbn; [by constructor|]. destruct (k <? i); [by repeat constructor|]. destruct (k =? i); by constructor.
Qed.

Section setup.
Context {K : Type} `{ThreadTableLaws K}.
Context (kernel_cs : Z) (Hcs : u64 kernel_cs).
Implicit Types g : Tasking K.

(** A new task: its frame and its context start it at [entry]. *)
Definition task_fresh (m : memory) (k : TaskControlBlock) (entry : Z) : Prop :=
  image_ok kernel_cs m k (Fresh entry) /\ tk_context k = with_entry_point entry (tk_saved_interrupt_frame k + 144).

(** Tasks have been created and none was started. *)
Record setup_ok (g : Tasking K) (ids : list Z) (ent : Z -> Z) : Prop := {
  su_threads : tt_ok (tg_threads g);
  su_ids : forall t, is_Some (map_get t (sd_tasks (tg_sched g))) <-> t ∈ ids;
  su_states : Forall (fun x => tt_state (tg_threads g) x.1 = Some TReady) (sd_tasks (tg_sched g));
  su_fresh : forall t k, map_get t (sd_tasks (tg_sched g)) = Some k -> task_fresh (tg_mem g) k (ent t);
  su_apart : forall t t' k k', t <> t' -> map_get t (sd_tasks (tg_sched g)) = Some k -> map_get t' (sd_tasks (tg_sched g)) = Some k' -> stacks_apart k k';
}.

(** A block of memory for the stack of one more task. *)
Definition stack_free (g : Tasking K) (base : Z) : Prop :=
  0 < base /\ base + DEFAULT_STACK_SIZE < 2 ^ 64 /\ forall t k, map_get t (sd_tasks (tg_sched g)) = Some k -> apart (base, DEFAULT_STACK_SIZE) (tk_stack k).

Lemma stack_top_spec base : 0 < base -> base + DEFAULT_STACK_SIZE < 2 ^ 64 ->
  let top := task_stack_top base DEFAULT_STACK_SIZE in top mod 16 = 8 /\ base + DEFAULT_STACK_SIZE - 24 < top <= base + DEFAULT_STACK_SIZE.
Proof using.
  unfold DEFAULT_STACK_SIZE. intros Hb Hl. unfold task_stack_top. set (x := base + 8 * 1024) in *. change 0xf with (2 ^ 4 - 1). rewrite and_not_ones by lia.
  cbv zeta. unfold saturating_sub. pose proof (Z.div_mod x (2 ^ 4)) as Hd. pose proof (Z.mod_pos_bound x (2 ^ 4)) as Hm. change (2 ^ 4) with 16 in *.
  rewrite Z.max_r by lia. split; [|lia]. replace (x / 16 * 16 - 8) with (8 + (x / 16 - 1) * 16) by lia. by rewrite Z_mod_plus_full.
Qed.

Lemma task_new_spec tid entry base m : u64 entry -> 0 < base -> base + DEFAULT_STACK_SIZE < 2 ^ 64 ->
  exists k m', task_new kernel_cs tid 0 entry base DEFAULT_STACK_SIZE m = Done (k, m') /\ tk_stack k = (base, DEFAULT_STACK_SIZE) /\
    task_fresh m' k entry /\ forall a, ~ in_block a (base, DEFAULT_STACK_SIZE) -> m' a = m a.
Proof using Hcs.
  intros He Hb Hl. pose proof (stack_top_spec base Hb Hl) as [Ht1 Ht2]. unfold task_new. cbv zeta. set (top := task_stack_top base DEFAULT_STACK_SIZE) in *.
  unfold DEFAULT_STACK_SIZE in *. destruct (first_frame kernel_cs base (8 * 1024) entry top (mem_fill m base 0 (8 * 1024))) as (m' & E & Hw & Hm); [done|done|lia..|].
  rewrite E. cbn. eexists _, m'. split; [reflexivity|]. split; [done|]. split.
  - unfold task_fresh, image_ok. cbn [tk_saved_interrupt_frame tk_stack tk_has_started tk_context]. replace (top - 144 + 144) with top by lia. split; [|done].
    pose proof (Z.div_mod top 16). assert ((2 | top - 144)) by (exists (top / 16 * 8 - 68); lia). split_and!; try done; lia.
  - intros a Ha. unfold in_block in Ha. cbn [fst snd] in Ha. rewrite Hm by lia. unfold mem_fill. destruct (Z.leb_spec base a), (Z.ltb_spec a (base + 8 * 1024)); cbn [andb]; try done. lia.
Qed.

Lemma insert_ok g k' tid ids ent entry base : setup_ok g ids ent -> stack_free g base -> u64 entry ->
  tt_ok k' -> tt_state (tg_threads g) tid = None -> (forall t, tt_state k' t = if t =? tid then Some TReady else tt_state (tg_threads g) t) ->
  exists g' k, task_insert kernel_cs tid entry base (g <| tg_threads := k' |>) = Done ((), g') /\ setup_ok g' (tid :: ids) (fun t => if t =? tid then entry else ent t) /\
    tg_sched g' = tg_sched g <| sd_tasks ::= map_insert tid k |> /\ tg_sync g' = tg_sync g /\ tid ∉ ids.
Proof using Hcs.
  intros [S1 S2 S3 S4 S5] (Hb & Hl & Hap) He Hok Hnone Hst. destruct (task_new_spec tid entry base (tg_mem g) He Hb Hl) as (k & m' & E & Estack & Hfresh & Hm).
  assert (tid ∉ ids) as Hnew.
  { intros [k0 Hk0]%S2. rewrite Forall_forall in S3. unfold map_get in Hk0. destruct (List.find _ _) as [x|] eqn:Ex; [|done]. apply find_Some in Ex as [Hx Ex%Z.eqb_eq].
    pose proof (S3 x Hx) as Hs. rewrite Ex in Hs. congruence. }
  exists (g <| tg_threads := k' |> <| tg_sched ::= (fun s => s <| sd_tasks ::= map_insert tid k |>) |> <| tg_mem := m' |>), k. unfold task_insert.
  change (tg_mem (g <| tg_threads := k' |>)) with (tg_mem g). rewrite E. split; [done|]. split; [|done].
  assert (forall t k0, map_get t (sd_tasks (tg_sched g)) = Some k0 -> apart (tk_stack k) (tk_stack k0)) as Hap' by (rewrite Estack; exact Hap).
  constructor; cbn [tg_threads tg_sched tg_mem sd_tasks set].
  - done.
  - intros t. rewrite map_get_insert, elem_of_cons. destruct (Z.eqb_spec t tid) as [->|Hne]; [by split; [left|eauto]|]. rewrite S2. split; [by right|by intros [?|?]].
  - apply map_insert_Forall; [by rewrite Hst, Z.eqb_refl|]. eapply Forall_impl; [exact S3|]. intros x Hx. cbn in *. rewrite Hst. by destruct (x.1 =? tid).
  - intros t k0. rewrite map_get_insert. destruct (Z.eqb_spec t tid) as [->|Hne]; [by intros [= <-]|]. intros Hk0. destruct (S4 t k0 Hk0) as [Hi Hc]. split; [|done].
    eapply image_kept; [|exact Hi]. intros a Ha. apply Hm. pose proof (Hap t k0 Hk0) as Hd. unfold apart, in_block in *. lia.
  - intros t t' k0 k1 Hne. rewrite !map_get_insert. unfold stacks_apart. destruct (Z.eqb_spec t tid) as [->|], (Z.eqb_spec t' tid) as [->|]; [done|..].
    + intros [= <-] Hk1. by eapply Hap'.
    + intros Hk0 [= <-]. apply apart_sym. by eapply Hap'.
    + apply S5. done.
Qed.

(** The states in which tasks are created, with the idle task and the others in
    the order of their creation. *)
Inductive created : Tasking K -> option Z -> list Z -> (Z -> Z) -> Prop :=
| created_none g ent : tt_ok (tg_threads g) -> tg_sched g = scheduler_new -> created g None [] ent
| created_idle g q ent entry base idle g' : created g None q ent -> tt_room (tg_threads g) -> stack_free g base -> u64 entry ->
    create_idle_task kernel_cs entry base g = Done (idle, g') -> created g' (Some idle) q (fun t => if t =? idle then entry else ent t)
| created_task g idle q ent entry base tid g' : created g idle q ent -> tt_room (tg_threads g) -> stack_free g base -> u64 entry ->
    create_task kernel_cs entry base g = Done (tid, g') -> created g' idle (q ++ [tid]) (fun t => if t =? tid then entry else ent t).

Record created_ok (g : Tasking K) (idle : option Z) (q : list Z) (ent : Z -> Z) : Prop := {
  co_setup : setup_ok g (option_list idle ++ q) ent;
  co_nodup : NoDup (option_list idle ++ q);
  co_idle : sd_idle_task_id (tg_sched g) = idle;
  co_queue : sd_ready_queue (tg_sched g) = q;
  co_switches : sd_total_context_switches (tg_sched g) = 0;
}.

Lemma setup_ids g ids ids' ent : (forall t, t ∈ ids <-> t ∈ ids') -> setup_ok g ids ent -> setup_ok g ids' ent.
Proof using. intros E [S1 S2 S3 S4 S5]. split; [done| |done..]. intros t. by rewrite S2, E. Qed.

(** The thread of a new task. *)
Lemma wp_create g (f : option Z -> M (Tasking K) Z) a g' : tt_ok (tg_threads g) -> tt_room (tg_threads g) -> (forall g1, f None g1 = Panic) ->
  (on_threads tt_create ≫= f) g = Done (a, g') ->
  exists tid k', f (Some tid) (g <| tg_threads := k' |>) = Done (a, g') /\ tt_ok k' /\ tt_state (tg_threads g) tid = None /\
    forall t, tt_state k' t = if t =? tid then Some TReady else tt_state (tg_threads g) t.
Proof using.
  intros Hok Hr Hf E. pose proof (tt_create_ok (tg_threads g) Hok Hr) as Hc. unfold mbind, M_bind, on_threads, wp in *. destruct (tt_create (tg_threads g)) as [[[tid|] k']|]; [| |done].
  - destruct Hc as [H1 H2]. destruct (H2 tid eq_refl) as [H3 H4]. exists tid, k'. done.
  - by rewrite Hf in E.
Qed.

Lemma created_is_ok g idle q ent : created g idle q ent -> created_ok g idle q ent.
Proof using Hcs.
  induction 1 as [g ent Hok Hs|g q ent entry base idle g' _ [C1 C2 C3 C4 C5] Hr Hfree He E|g idle q ent entry base tid g' _ [C1 C2 C3 C4 C5] Hr Hfree He E].
  - split; [|by apply NoDup_nil|by rewrite Hs..]. split; [done|..]; rewrite Hs; cbn; [|by constructor|done..]. intros t. split; [by intros []|by intros []%elem_of_nil].
  - unfold create_idle_task in E. change ((match sd_idle_task_id (tg_sched g) with Some i => mret i | None => created ← on_threads tt_create; idle_tid ← expect created; task_insert kernel_cs idle_tid entry base;;
      on_sched (fun s => s <| sd_idle_task_id := Some idle_tid |>);; mret idle_tid end) g = Done (idle, g')) in E. rewrite C3 in E.
    apply wp_create in E as (tid & k' & E & H1 & H2 & H3); [|apply C1|done|done].
    destruct (insert_ok g k' tid _ ent entry base C1 Hfree He H1 H2 H3) as (g1 & k & Ei & Hs & Es & _ & Hnew).
    unfold mbind, M_bind, expect in E. cbn in E. rewrite Ei in E. injection E as <- <-. split; cbn [tg_sched set sd_idle_task_id sd_ready_queue sd_total_context_switches option_list app].
    + destruct Hs as [? ? ? ? ?]. by split.
    + by apply NoDup_cons.
    + done.
    + by rewrite Es.
    + by rewrite Es.
  - unfold create_task in E. apply wp_create in E as (tid' & k' & E & H1 & H2 & H3); [|apply C1|done|done].
    destruct (insert_ok g k' tid' _ ent entry base C1 Hfree He H1 H2 H3) as (g1 & k & Ei & Hs & Es & _ & Hnew).
    unfold mbind, M_bind, expect in E. cbn in E. rewrite Ei in E. injection E as -> <-. split; cbn [tg_sched set sd_idle_task_id sd_ready_queue sd_total_context_switches].
    + apply (setup_ids _ (tid :: option_list idle ++ q)); [intros t; rewrite !elem_of_app, elem_of_cons, elem_of_app, list_elem_of_singleton; tauto|]. destruct Hs as [? ? ? ? ?]. by split.
    + rewrite app_assoc. apply NoDup_app. split; [done|]. split; [|apply NoDup_singleton]. intros t Ht ->%list_elem_of_singleton. done.
    + by rewrite Es.
    + rewrite Es. cbn. by rewrite C4.
    + by rewrite Es.
Qed.

(** ** Start *)

Definition first_turn (idle : Z) (q : list Z) : Z * list Z := match q with [] => (idle, []) | t :: q' => (t, q') end.

Lemma start_spec g idle q ent cur q' : created_ok g (Some idle) q ent -> first_turn idle q = (cur, q') ->
  wp start_first_task (fun x g' => ring_ok g' idle cur q' /\ tg_mem g' = tg_mem g /\
    (forall t, map_get t (sd_tasks (tg_sched g')) = (fun k => if t =? cur then k <| tk_has_started := true |> else k) <$> map_get t (sd_tasks (tg_sched g))) /\
    exists k, map_get cur (sd_tasks (tg_sched g)) = Some k /\ x = tk_context k) g.
Proof using.
  intros [[S1 S2 S3 S4 S5] C2 C3 C4 C5] Hturn. cbn [option_list app] in *. apply NoDup_cons in C2 as [C2 C2'].
  assert (Forall (fun t => tt_state (tg_threads g) t.1 <> Some TBlocked) (sd_tasks (tg_sched g))) as Haw by (eapply Forall_impl; [exact S3|]; intros x Hx; cbn in *; congruence).
  unfold start_first_task. rewrite wp_bind. apply (wp_schedule g idle); [done|done|]. intros g1 E1. rewrite C4.
  assert (default idle (head q) = cur /\ tail q = q') as [-> Eq'] by (by destruct q; injection Hturn as <- <-).
  assert (forall t, t ∈ cur :: q' -> t ∈ idle :: q) as Hin by (intros t; destruct q; injection Hturn as <- <-; rewrite !elem_of_cons; tauto).
  rewrite wp_bind. unfold expect at 1. rewrite wp_ret, wp_bind. apply wp_run_next; [by rewrite E1|]. intros g2 (A1 & A2 & A3 & A4) E2. rewrite E1 in E2.
  rewrite wp_bind. unfold count_switch, sched. rewrite wp_bind, task_gets, E2. cbn [tg_sched set sd_total_context_switches]. rewrite C5. change (0 =? u64_max) with false. cbv iota.
  unfold on_sched at 1. rewrite task_modify. set (g3 := g2 <| tg_sched ::= _ |>). rewrite wp_bind, task_gets.
  assert (sd_tasks (tg_sched g3) = sd_tasks (tg_sched g)) as E3 by (change (sd_tasks (tg_sched g3)) with (sd_tasks (tg_sched g2)); by rewrite E2).
  destruct (proj2 (S2 cur) (Hin cur (list_elem_of_here _ _))) as [k Hk]. rewrite E3, Hk, wp_bind. unfold expect. rewrite wp_ret, wp_bind. unfold on_sched. rewrite task_modify, wp_bind.
  set (g4 := g3 <| tg_sched ::= _ |>). assert (sd_tasks (tg_sched g4) = map_update cur (fun t => t <| tk_has_started := true |>) (sd_tasks (tg_sched g))) as E4 by (by rewrite <-E3).
  assert (forall t, map_get t (sd_tasks (tg_sched g4)) = (fun k => if t =? cur then k <| tk_has_started := true |> else k) <$> map_get t (sd_tasks (tg_sched g))) as Ht.
  { intros t. rewrite E4, map_get_update. destruct (t =? cur); [done|]. by destruct (map_get t _). }
  unfold wp at 1, on_sync, modify. rewrite wp_ret. split; [|split; [|split; [exact Ht|by exists k]]].
  - constructor.
    + exact A1.
    + change (sd_current_task_id (tg_sched g2) = Some cur). by rewrite E2.
    + change (sd_idle_task_id (tg_sched g2) = Some idle). by rewrite E2.
    + change (sd_ready_queue (tg_sched g2) = q'). rewrite E2. cbn. by rewrite C4.
    + destruct q; injection Hturn as <- <-; [apply NoDup_singleton|exact C2'].
    + done.
    + intros Hi. apply C2. destruct q; injection Hturn as <- <-; [done|by right].
    + change (Forall (fun t => is_Some (map_get t (sd_tasks (tg_sched g4)))) (idle :: cur :: q')). apply Forall_forall. intros t Hti. rewrite Ht. apply fmap_is_Some, S2.
      apply elem_of_cons in Hti as [->|Hti]; [by left|by apply Hin].
    + apply (keys_awake (fun t => tt_state (tg_threads g2) t <> Some TBlocked) (sd_tasks (tg_sched g))); [change (map fst (sd_tasks (tg_sched g4)) = map fst (sd_tasks (tg_sched g))); rewrite E4; apply map_update_keys|].
      eapply Forall_impl; [exact Haw|]. intros x Hx. apply A2. by rewrite E1.
  - change (tg_mem g2 = tg_mem g). rewrite A3. by rewrite E1.
Qed.

Context (Hring : Z.land kernel_cs 3 <> 3).

(** [setup_first_task] is called with the context [x], which lies outside the
    stacks of the tasks. *)
Record first_call (g : Tasking K) (x : Context) (c : cpu) : Prop := {
  fc_context : words (c_mem c) (c_reg c RDI) (task_context_words x);
  fc_range : 0 <= c_reg c RDI /\ c_reg c RDI + 144 <= 2 ^ 64;
  fc_apart : forall t k, map_get t (sd_tasks (tg_sched g)) = Some k -> apart (c_reg c RDI, 144) (tk_stack k);
  fc_mem : forall t k a, map_get t (sd_tasks (tg_sched g)) = Some k -> in_block a (tk_stack k) -> c_mem c a = tg_mem g a;
  fc_segments : c_cs c = kernel_cs /\ u64 (c_ss c);
}.

Lemma first_runs m k entry c : task_fresh m k entry -> let x := with_entry_point entry (tk_saved_interrupt_frame k + 144) in words (c_mem c) (c_reg c RDI) (task_context_words x) ->
  0 <= c_reg c RDI -> c_reg c RDI + 144 <= 2 ^ 64 -> apart (c_reg c RDI, 144) (tk_stack k) -> c_cs c = kernel_cs -> u64 (c_ss c) -> let u := exec setup_first_task c in
  (forall r, c_reg u r = task_reg x r) /\ c_rip u = entry /\ c_rflags u = 0x200 /\ runs (tk_stack k).1 (tk_stack k).2 u /\ forall a, ~ in_block a (tk_stack k) -> c_mem u a = c_mem c a.
Proof using Hcs Hring.
  intros [Hi _] x Hx Hge Hend Hap Ec Es u. unfold image_ok, apart, in_block in *. destruct (tk_stack k) as [b len]. cbn [fst snd] in *.
  destruct Hi as (_ & Hb & _ & Hl & _ & He & Hroom & Htop & _ & _). set (p := tk_saved_interrupt_frame k) in *. unfold u64 in He.
  destruct (first_task_spec x (c_reg c RDI) c) as (R1 & R2 & R3); [|done|done|done|cbn; lia|cbn; lia|done|].
  { unfold x, u64. repeat (apply Forall_cons_2; [cbn; lia|]). apply Forall_nil_2. }
  fold u in R1, R2, R3. clearbody u. unfold rest in R2. injection R2 as Q1 Q2 Q3 Q4 _. cbn in Q1, Q2. change (cx_rsp x) with (p + 144) in R3. split; [exact R1|]. split; [exact Q1|]. split; [exact Q2|]. split.
  - unfold runs, stack_room. rewrite R1. change (task_reg x RSP) with (p + 144). split; [|by rewrite Q3, Ec; split; [|lia]].
    split; [intros r; rewrite R1; unfold u64; destruct r; cbn; lia|by rewrite Q1|by rewrite Q2|by rewrite Q3, Ec|by rewrite Q4].
  - intros a Ha. apply R3. lia.
Qed.

Lemma start_world g idle q ent cur q' : created_ok g (Some idle) q ent -> first_turn idle q = (cur, q') ->
  exists x g', start_first_task g = Done (x, g') /\ forall c, first_call g x c -> let u := exec setup_first_task c in
    c_rip u = ent cur /\ c_rflags u = 0x200 /\ c_reg u RSP mod 16 = 8 /\ (forall r, r <> RSP -> c_reg u r = 0) /\
    world_ok kernel_cs (g' <| tg_mem := c_mem u |>) u idle cur q' (fun t => Fresh (ent t)).
Proof using Hcs Hring.
  intros Hc Hturn. pose proof (start_spec g idle q ent cur q' Hc Hturn) as (x & g' & E & Hr & Em & Et & k & Hk & ->)%wp_run.
  exists (tk_context k), g'. split; [exact E|]. intros c [F1 [F2 F2'] F3 F4 [F5 F6]]. destruct Hc as [[S1 S2 S3 S4 S5] _ _ _ _]. destruct (S4 cur k Hk) as [Hi Ex].
  rewrite Ex in F1. destruct (first_runs _ k (ent cur) c (conj Hi Ex) F1 F2 F2' (F3 cur k Hk) F5 F6) as (R1 & R2 & R3 & R4 & R5). cbv zeta.
  revert R1 R2 R3 R4 R5. generalize (exec setup_first_task c). intros u R1 R2 R3 R4 R5. split; [done|]. split; [done|].
  pose proof Hi as Hi'. unfold image_ok in Hi'. destruct (tk_stack k) as [b len] eqn:Ek. destruct Hi' as (_ & Hb & _ & Hl & _ & _ & _ & _ & Hal & _). cbn [fst snd] in R4.
  split; [by rewrite R1|]. split; [intros r Hr'; rewrite R1; by destruct r|].
  assert (forall t k0, map_get t (sd_tasks (tg_sched g')) = Some k0 -> exists k1, map_get t (sd_tasks (tg_sched g)) = Some k1 /\ tk_stack k0 = tk_stack k1 /\ (t <> cur -> k0 = k1)) as Hof.
  { intros t k0. rewrite Et. destruct (map_get t _) as [k1|]; [|done]. intros [= <-]. exists k1. destruct (Z.eqb_spec t cur); by split_and!. }
  split; [by apply (ring_same g')|done| | |].
  - exists (k <| tk_has_started := true |>). change (map_get cur (sd_tasks (tg_sched g')) = Some (k <| tk_has_started := true |>) /\ true = true /\ runs (tk_stack k).1 (tk_stack k).2 u /\ 0 < (tk_stack k).1 /\ (tk_stack k).1 + (tk_stack k).2 < 2 ^ 64).
    rewrite Et, Hk, Z.eqb_refl, Ek. by split_and!.
  - intros t k0 Hne _ (k1 & H1 & H2 & H3)%Hof. rewrite (H3 Hne) in *. destruct (S4 t k1 H1) as [Hi1 _]. eapply image_kept; [|exact Hi1]. intros a Ha.
    rewrite R5; [by eapply F4|]. pose proof (S5 t cur k1 k Hne H1 Hk) as Hap. unfold stacks_apart, apart, in_block in *. rewrite Ek in Hap. cbn [fst snd] in *. lia.
  - intros t t' k0 k0' Hne _ _ (k1 & H1 & H2 & _)%Hof (k1' & H1' & H2' & _)%Hof. unfold stacks_apart. rewrite H2, H2'. by eapply (S5 t t').
Qed.

(** ** Running *)

Definition stack_base (u : cpu) : Z := c_reg u RSP / 16 * 16.

(** The processor when the timer's dispatcher is called. *)
Definition tick_call (rsp0 handler : Z) (u : cpu) : cpu := exec timer_interrupt_entry (interrupt rsp0 kernel_cs handler u).

(** The runs of the tasks: created and started, a task runs on its own stack,
    timer interrupts.  [img] records in which state each task was interrupted. *)
Inductive tasks_reach (rsp0 handler : Z) : Tasking K -> cpu -> Z -> Z -> list Z -> (Z -> image) -> Prop :=
| reach_start g idle q ent cur q' x g' c : created g (Some idle) q ent -> first_turn idle q = (cur, q') ->
    start_first_task g = Done (x, g') -> first_call g x c ->
    tasks_reach rsp0 handler (g' <| tg_mem := c_mem (exec setup_first_task c) |>) (exec setup_first_task c) idle cur q' (fun t => Fresh (ent t))
| reach_run g u idle cur q img u' sy : tasks_reach rsp0 handler g u idle cur q img ->
    (forall k, map_get cur (sd_tasks (tg_sched g)) = Some k -> runs (tk_stack k).1 (tk_stack k).2 u') ->
    (forall t k a, t <> cur -> map_get t (sd_tasks (tg_sched g)) = Some k -> in_block a (tk_stack k) -> c_mem u' a = c_mem u a) ->
    tasks_reach rsp0 handler (g <| tg_mem := c_mem u' |> <| tg_sync := sy |>) u' idle cur q img
| reach_tick g u idle cur q img r g2 c2 next q' : tasks_reach rsp0 handler g u idle cur q img -> sd_total_context_switches (tg_sched g) < u64_max ->
    (if sy_depth (tg_sync g) =? 0 then rotate idle cur q else (cur, q)) = (next, q') ->
    preempt_from_timer (c_reg (tick_call rsp0 handler u) RDI) (g <| tg_mem := c_mem (tick_call rsp0 handler u) |>) = Done (r, g2) ->
    dispatched kernel_cs g idle cur q (stack_base u) (tick_call rsp0 handler u) r c2 ->
    tasks_reach rsp0 handler (g2 <| tg_mem := c_mem (timer_interrupt_return c2) |>) (timer_interrupt_return c2) idle next q' (fun t => if t =? cur then Suspended u else img t).

Lemma reach_world rsp0 handler g u idle cur q img : u64 rsp0 -> tasks_reach rsp0 handler g u idle cur q img -> world_ok kernel_cs g u idle cur q img.
Proof using Hcs Hring.
  intros Hsp. induction 1 as [g idle q ent cur q' x g' c Hc Hturn E Hf|g u idle cur q img u' sy _ [W1 W2 (k & W3 & W4 & W5 & W6) W7 W8] Hrun Hkeep|g u idle cur q img r g2 c2 next q' _ IH Hsw Hrot E Hd].
  - destruct (start_world g idle q ent cur q' (created_is_ok _ _ _ _ Hc) Hturn) as (x' & g1 & E' & Hw). rewrite E in E'. injection E' as <- <-. by destruct (Hw c Hf) as (_ & _ & _ & _ & Hok).
  - split; [by apply (ring_same g)|done| | |exact W8].
    + exists k. split; [exact W3|]. split; [exact W4|]. split; [by apply Hrun|exact W6].
    + intros t k0 Hne Ht Hk0. eapply image_kept; [|by apply (W7 t)]. intros a Ha. by eapply (Hkeep t).
  - destruct (tick_spec kernel_cs Hcs Hring g u idle cur q img rsp0 handler IH Hsp next q' Hsw Hrot) as (r' & g2' & E' & _ & Hw).
    unfold tick_call in *. rewrite E in E'. injection E' as <- <-. by destruct (Hw c2 Hd) as [_ Hok].
Qed.
End setup.

(** C13. Kernel tasks take turns and none notices.  Take any run in which tasks are
    created, the first is started, tasks run on their own stacks, neither
    sleeping nor ending, and timer interrupts arrive.  As long as the counter of
    switches has room, the next interrupt does not panic, and unless preemption
    is disabled it gives the processor to the task that waits longest, to the
    idle task only if no other is ready.  That task continues with every
    register, the flags and the stack as when it was last interrupted; one that
    never ran starts at its entry point. *)
Theorem kernel_tasks_exact kernel_cs rsp0 handler (g : Tasking Kernel) u idle cur q img :
  u64 kernel_cs -> Z.land kernel_cs 3 <> 3 -> u64 rsp0 -> tasks_reach kernel_cs rsp0 handler g u idle cur q img -> sd_total_context_switches (tg_sched g) < u64_max ->
  let c := tick_call kernel_cs rsp0 handler u in let '(next, q') := if sy_depth (tg_sync g) =? 0 then rotate idle cur q else (cur, q) in
  exists r g2, preempt_from_timer (c_reg c RDI) (g <| tg_mem := c_mem c |>) = Done (r, g2) /\
    sd_current_task_id (tg_sched g2) = Some next /\ sd_ready_queue (tg_sched g2) = q' /\
    forall c2, dispatched kernel_cs g idle cur q (stack_base u) c r c2 -> let w := timer_interrupt_return c2 in if next =? cur then same_state w u else continues img next w.
Proof.
  intros Hcs Hring Hsp Hreach Hsw c. destruct (if sy_depth (tg_sync g) =? 0 then rotate idle cur q else (cur, q)) as [next q'] eqn:Hrot.
  pose proof (reach_world kernel_cs Hcs Hring rsp0 handler g u idle cur q img Hsp Hreach) as W.
  destruct (tick_spec kernel_cs Hcs Hring g u idle cur q img rsp0 handler W Hsp next q' Hsw Hrot) as (r & g2 & E & Hr & Hw). exists r, g2. split; [exact E|].
  split; [apply (rk_current _ _ _ _ Hr)|]. split; [apply (rk_queue _ _ _ _ Hr)|]. intros c2 Hd. by destruct (Hw c2 Hd).
Qed.

(** *** A boot with two tasks *)

Definition after {S A} (m : M S A) (s : S) : S := match m s with Done (_, s') => s' | Panic => s end.

Lemma run_after {S A} (m : M S A) s a : (match m s with Done (x, _) => Some x | Panic => None end) = Some a -> m s = Done (a, after m s).
Proof. unfold after. destruct (m s) as [[x s']|]; [|done]. by intros [= ->]. Qed.

Definition apart_stacks (b : block) {K} (g : Tasking K) : bool :=
  forallb (fun x => (b.1 + b.2 <=? (tk_stack x.2).1) || ((tk_stack x.2).1 + (tk_stack x.2).2 <=? b.1)) (sd_tasks (tg_sched g)).

Lemma apart_stacks_sound b {K} (g : Tasking K) : apart_stacks b g = true -> forall t k, map_get t (sd_tasks (tg_sched g)) = Some k -> apart b (tk_stack k).
Proof.
  intros Hf t k Hk. unfold map_get in Hk. destruct (List.find _ _) as [x|] eqn:E; [|done]. injection Hk as <-. apply find_Some in E as [Hx _].
  apply forallb_elem with (x := x) in Hf; [|done]. unfold apart. apply orb_true_iff in Hf as [?%Z.leb_le|?%Z.leb_le]; lia.
Qed.

Definition demo_kernel : Kernel :=
  after (Table.create_reserved_process 0 None (str "kernel") (str "kernel") Arg.empty (Space.kernel_placeholder 0)) boot_kernel.
Definition demo_tasks0 : Tasking Kernel := mkTasking demo_kernel scheduler_new (mkSync true 0 false [] []) (fun _ => 0).
Definition demo_tasks1 : Tasking Kernel := after (create_idle_task 8 0x100000 0x200000) demo_tasks0.
Definition demo_tasks2 : Tasking Kernel := after (create_task 8 0x110000 0x210000) demo_tasks1.
Definition demo_tasks3 : Tasking Kernel := after (create_task 8 0x120000 0x220000) demo_tasks2.

Lemma demo_stack_free (g : Tasking Kernel) base : 0 < base -> base + DEFAULT_STACK_SIZE < 2 ^ 64 -> apart_stacks (base, DEFAULT_STACK_SIZE) g = true -> stack_free g base.
Proof. intros Hb Hl Ha. split; [done|]. split; [done|]. by apply apart_stacks_sound. Qed.

Ltac demo_free := apply demo_stack_free; [reflexivity|reflexivity|vm_cast_no_check (eq_refl true)].

Lemma demo_created : created 8 demo_tasks3 (Some 2) [3; 4] (fun t => if t =? 4 then 0x120000 else if t =? 3 then 0x110000 else if t =? 2 then 0x100000 else 0).
Proof.
  apply (created_task 8 demo_tasks2 (Some 2) [3] (fun t => if t =? 3 then 0x110000 else if t =? 2 then 0x100000 else 0) 0x120000 0x220000);
    [|vm_compute; split_and!; reflexivity|demo_free|by split|unfold demo_tasks3; apply (run_after (create_task 8 0x120000 0x220000) demo_tasks2 4); vm_cast_no_check (eq_refl (Some 4))].
  apply (created_task 8 demo_tasks1 (Some 2) [] (fun t => if t =? 2 then 0x100000 else 0) 0x110000 0x210000);
    [|vm_compute; split_and!; reflexivity|demo_free|by split|unfold demo_tasks2; apply (run_after (create_task 8 0x110000 0x210000) demo_tasks1 3); vm_cast_no_check (eq_refl (Some 3))].
  apply (created_idle 8 demo_tasks0 [] (fun _ => 0) 0x100000 0x200000);
    [|vm_compute; split_and!; reflexivity|demo_free|by split|unfold demo_tasks1; apply (run_after (create_idle_task 8 0x100000 0x200000) demo_tasks0 2); vm_cast_no_check (eq_refl (Some 2))].
  apply created_none; [|done]. apply kernel_check; [vm_cast_no_check (eq_refl true)|exact demo_pool_wf].
Qed.

Definition demo_context : Context := with_entry_point 0x110000 0x211ff8.
Definition demo_started : Tasking Kernel := after start_first_task demo_tasks3.
Definition demo_call : cpu :=
  mkCpu (fun r => if decide (r = RDI) then 0x300000 else 0) 0 0x202 8 0 0 (set_words (tg_mem demo_tasks3) 0x300000 (task_context_words demo_context)).

Lemma demo_reach : let u := exec setup_first_task demo_call in
  tasks_reach 8 0x20000 0x500000 (demo_started <| tg_mem := c_mem u |>) u 2 3 [4]
    (fun t => Fresh (if t =? 4 then 0x120000 else if t =? 3 then 0x110000 else if t =? 2 then 0x100000 else 0)).
Proof.
  cbv zeta. apply (reach_start 8 0x20000 0x500000 demo_tasks3 2 [3; 4] _ 3 [4] demo_context); [exact demo_created|done| |].
  - unfold demo_started. apply (run_after start_first_task demo_tasks3 demo_context). vm_cast_no_check (eq_refl (Some demo_context)).
  - assert (c_reg demo_call RDI = 0x300000) as E by reflexivity. assert (forall t k, map_get t (sd_tasks (tg_sched demo_tasks3)) = Some k -> apart (0x300000, 144) (tk_stack k)) as Hap.
    { apply apart_stacks_sound. vm_cast_no_check (eq_refl true). }
    split; rewrite ?E; [|lia|exact Hap| |by split].
    + unfold demo_call. cbn [c_mem]. apply set_words_words. unfold demo_context, task_context_words, with_entry_point, u64. cbn. repeat (apply Forall_cons_2; [lia|]). apply Forall_nil_2.
    + intros t k a Hk Ha. unfold demo_call. cbn [c_mem]. apply set_words_outside. pose proof (Hap t k Hk) as Hd. unfold apart, in_block in *. cbn [fst snd] in Hd. change (length (task_context_words demo_context)) with 18%nat. lia.
Qed.

Lemma kernel_tasks_exact_witness : let u := exec setup_first_task demo_call in let g := demo_started <| tg_mem := c_mem u |> in let c := tick_call 8 0x20000 0x500000 u in
  exists r g2 c2, preempt_from_timer (c_reg c RDI) (g <| tg_mem := c_mem c |>) = Done (r, g2) /\ sd_current_task_id (tg_sched g2) = Some 4 /\ sd_ready_queue (tg_sched g2) = [3] /\
    dispatched 8 g 2 3 [4] (stack_base u) c r c2 /\ entered 0x120000 (timer_interrupt_return c2).
Proof.
  cbv zeta. pose proof demo_reach as Hr. cbv zeta in Hr. revert Hr. generalize (exec setup_first_task demo_call). intros u Hr.
  assert (sy_depth (tg_sync (demo_started <| tg_mem := c_mem u |>)) = 0) as Ed by (change (sy_depth (tg_sync demo_started) = 0); vm_cast_no_check (eq_refl 0)).
  assert (sd_total_context_switches (tg_sched (demo_started <| tg_mem := c_mem u |>)) < u64_max) as Hs.
  { change (sd_total_context_switches (tg_sched demo_started) < u64_max). apply Z.ltb_lt. vm_cast_no_check (eq_refl true). }
  pose proof (kernel_tasks_exact 8 0x20000 0x500000 _ u 2 3 [4] _ ltac:(by split) ltac:(done) ltac:(by split) Hr Hs) as Ht. revert Ht. rewrite Ed. clear Hr Hs Ed.
  generalize (tick_call 8 0x20000 0x500000 u). generalize (demo_started <| tg_mem := c_mem u |>). intros g c. cbn [Z.eqb rotate app Pos.eqb].
  intros (r & g2 & E & H1 & H2 & H3). exists r, g2, (mkCpu (fun x => if decide (x = RAX) then default 0 r else c_reg c x) 0 0 8 0 0 (c_mem c)).
  assert (dispatched 8 g 2 3 [4] (stack_base u) c r (mkCpu (fun x => if decide (x = RAX) then default 0 r else c_reg c x) 0 0 8 0 0 (c_mem c))) as Hd by (by split).
  split; [exact E|]. split; [exact H1|]. split; [exact H2|]. split; [exact Hd|]. exact (H3 _ Hd).
Defined.
