(* ===== verification/EventProofs.v ===== *)
(** * Events: signalling

    [signal_event] (user/syscall.rs) takes waiters off an event until one can
    be woken.  The loop ends, wakes the thread that has waited longest among
    those still blocked, and leaves the event signalled when there is none (C19).
    The final state is given whole, in the vocabulary of [ProcessSpec]. *)

From S2P Require Import Prelude Ipc IpcProofs Threads Process TableSafety Views Scheduling Signals Lifecycle ProcessSpec ThreadSpec Current Text System Syscall.

(** Thread [tid] is blocked and can be resumed. *)
Definition asleep (k : Kernel) (tid : Z) : Prop :=
  exists p t, is_thread k tid p t /\ th_state t = TBlocked /\ is_Some (th_resume_context t).

(** The thread goes on with a return value. *)
Definition answered (value : Z) (t : Thread) : Thread :=
  t <| th_resume_context ::= fmap (fun c => c <| rc_rax := value |>) |> <| th_waiting_for := None |> <| th_state := TReady |>.

Lemma wake_exact k tid value : kernel_wf k ->
  (exists p t, is_thread k tid p t /\ asleep k tid /\
     Table.wake_thread tid value k = Done (true, requeue (queued tid) (put (shown (on_thread tid (answered value) p)) k))) \/
  (~ asleep k tid /\ Table.wake_thread tid value k = Done (false, k)).
Proof.
  intros Hk. unfold Table.wake_thread. run. destruct (find_by_tid k tid) as [p|] eqn:Hp; cycle 1.
  { right. split; [|done]. intros (p & t & Ht & _). by apply (proj1 (no_thread_iff k Hk tid) Hp) in Ht. }
  destruct (find_by_tid_get k tid p Hp) as (t & Hg & _). rewrite Hg.
  pose proof (proj2 (is_thread_iff k Hk tid p t) (conj Hp Hg)) as Ht.
  assert (forall p' t', is_thread k tid p' t' -> t' = t) as Hun by (intros p' t' [Hp' Hg']%is_thread_iff; [congruence|done]).
  destruct (ThreadState_eqb (th_state t) TBlocked) eqn:Es; cbn [negb]; cycle 1.
  { apply ThreadState_eqb_neq in Es. right. split; [|done]. intros (p' & t' & Ht' & Hs & _). by rewrite (Hun p' t' Ht') in Hs. }
  apply ThreadState_eqb_eq in Es. destruct (th_resume_context t) as [c|] eqn:Hc; cycle 1.
  { right. split; [|done]. intros (p' & t' & Ht' & _ & Hs). rewrite (Hun p' t' Ht'), Hc in Hs. by destruct Hs. }
  left. exists p, t. split; [done|]. split; [exists p, t; rewrite Hc; split_and!; [done..|by eexists]|].
  rewrite (upd_thread_on k Hk _ _ p (proj1 Ht)), shown_eq. unfold on_thread.
  rewrite (on_threads_ext_in _ (fun t => if th_tid t =? tid then answered value t else t) p); cycle 1.
  { intros t' Hin. destruct (Z.eqb_spec (th_tid t') tid); [|done]. rewrite (Hun p t') by (destruct Ht; done).
    unfold answered, set. cbn. by rewrite Hc. }
  rewrite (put_by_tid_exact k tid p _ t) by (rewrite ?shown_pid; done). cbv beta iota. by rewrite enqueue_exact.
Qed.

(** ** Events *)

(** The event [e], with this flag and these waiters. *)
Definition event_with (e : Event) (signaled : bool) (ts : list Z) : Event :=
  mkEvent (ev_id e) (ev_owner_pid e) signaled (map Some ts ++ replicate (MAX_EVENT_WAITERS - length ts) None) (length ts).

Lemma event_wf_with e ts : event_wf e ts -> e = event_with e (ev_signaled e) ts.
Proof. intros [H1 H2 _ _]. destruct e. cbn in *. unfold event_with. cbn. by rewrite H1, H2. Qed.

Definition with_event_at (i : nat) (e : Event) (k : Kernel) : Kernel :=
  k <| k_ipc ::= (fun s => s <| ip_events ::= <[i := Some e]> |>) |>.

(** Slot [i] is the first that holds an event with this handle and owner: [e]. *)
Definition event_at (k : Kernel) (handle pid : Z) (i : nat) (e : Event) : Prop :=
  let owned e := ev_id e = handle /\ ev_owner_pid e = pid in
  ip_events (k_ipc k) !! i = Some (Some e) /\ owned e /\
  forall j e', (j < i)%nat -> ip_events (k_ipc k) !! j = Some (Some e') -> ~ owned e'.

Lemma find_upd_at {A} (q : A -> bool) f : forall l i x, l !! i = Some x -> q x = true ->
  (forall j y, (j < i)%nat -> l !! j = Some y -> q y = false) -> find_upd q f l = <[i := f x]> l /\ List.find q l = Some x.
Proof.
  induction l as [|y l IH]; intros i x Hi Hx Hn; [done|]. destruct i as [|i]; cbn in Hi |- *.
  - injection Hi as ->. by rewrite Hx.
  - rewrite (Hn 0%nat y) by (done || lia). destruct (IH i x Hi Hx) as [H1 H2]; [|by rewrite H1].
    intros j z Hj Hz. apply (Hn (S j)); [lia|done].
Qed.

Lemma event_at_found k handle pid i e f : event_at k handle pid i e ->
  find_upd (is_event handle pid) f (ip_events (k_ipc k)) = <[i := f (Some e)]> (ip_events (k_ipc k)) /\
  find_event handle pid (k_ipc k) = Some e.
Proof.
  intros (Hi & [H1 H2] & Hn). unfold find_event. destruct (find_upd_at (is_event handle pid) f (ip_events (k_ipc k)) i (Some e) Hi) as [E1 E2].
  - cbn. by rewrite H1, H2, !Z.eqb_refl.
  - intros j [e'|] Hj He; [|done]. cbn. specialize (Hn j e' Hj He). destruct (Z.eqb_spec (ev_id e') handle), (Z.eqb_spec (ev_owner_pid e') pid); try done. tauto.
  - by rewrite E2.
Qed.

Lemma with_event_at_twice i e e' k : with_event_at i e' (with_event_at i e k) = with_event_at i e' k.
Proof. unfold with_event_at, set. cbn. by rewrite list_insert_insert_eq. Qed.

Lemma event_at_with k handle pid i e e' : event_at k handle pid i e -> ev_id e' = ev_id e -> ev_owner_pid e' = ev_owner_pid e ->
  event_at (with_event_at i e' k) handle pid i e'.
Proof.
  intros (Hi & [H1 H2] & Hn) E1 E2. unfold with_event_at, set. cbn. split; [|split; [split; congruence|]]; cbn.
  - apply list_lookup_insert_eq. by eapply lookup_lt_Some.
  - intros j x Hj. rewrite list_lookup_insert_ne by lia. by apply Hn.
Qed.

Section signal.
Context {F : Type}.
Implicit Types y : System F.

(** Which waiter is woken: the first that is still blocked. *)
Definition event_effect (i : nat) (e : Event) (ts : list Z) (k : Kernel) (r : Z) (k' : Kernel) : Prop :=
  (r = 0 /\ Forall (fun tid => ~ asleep k tid) ts /\ k' = with_event_at i (event_with e true []) k) \/
  (r = 1 /\ exists gone tid younger p t, ts = gone ++ tid :: younger /\ Forall (fun tid => ~ asleep k tid) gone /\
     is_thread k tid p t /\ asleep k tid /\
     k' = requeue (queued tid) (put (shown (on_thread tid (answered 0) p))
            (with_event_at i (event_with e (ev_signaled e) younger) k))).

Lemma put_event_at handle pid i e e' y : event_at (y_kernel y) handle pid i e ->
  put_event handle pid (Some e') y = Done ((), y <| y_kernel ::= with_event_at i e' |>).
Proof.
  intros Ha. unfold put_event, modify_ipc, modify, with_event_at, set. cbn.
  by rewrite (proj1 (event_at_found _ _ _ _ _ (fun _ => Some e') Ha)).
Qed.

Lemma signal_loop_spec handle pid i : forall fuel e ts y, (length ts < fuel)%nat -> event_wf e ts ->
  event_at (y_kernel y) handle pid i e -> kernel_wf (y_kernel y) ->
  exists r k', signal_loop fuel handle pid e y = Done (Ok r, y <| y_kernel := k' |>) /\ event_effect i e ts (y_kernel y) r k'.
Proof.
  induction fuel as [|fuel IH]; intros e ts y Hlen He Ha Hk; [lia|]. cbn [signal_loop]. run.
  destruct (dequeue_spec e ts He) as (e' & E & He' & H1 & H2 & H3). rewrite E. cbv beta iota.
  pose proof (event_at_with _ _ _ _ _ e' Ha H1 H2) as Ha'.
  set (y1 := y <| y_kernel ::= with_event_at i e' |>).
  rewrite (put_event_at handle pid i e e' y Ha). fold y1.
  cbv beta iota. destruct ts as [|tid ts]; cbn [head tail] in *.
  - eexists 0, _. rewrite (put_event_at handle pid i e' _ y1 Ha').
    split; [reflexivity|]. left. split; [done|]. split; [constructor|].
    change (y_kernel y1) with (with_event_at i e' (y_kernel y)). rewrite with_event_at_twice. f_equal.
    rewrite (event_wf_with e' [] He'). unfold event_with, set. cbn. by rewrite H1, H2.
  - unfold with_kernel. change (y_kernel y1) with (with_event_at i e' (y_kernel y)).
    destruct (wake_exact (with_event_at i e' (y_kernel y)) tid 0 Hk) as [(p & t & Ht & Hs & E')|[Hs E']]; rewrite E'; cbv beta iota.
    + eexists 1, _. split; [reflexivity|]. right. split; [done|]. exists [], tid, ts, p, t. split; [done|]. split; [constructor|].
      split; [exact Ht|]. split; [exact Hs|]. rewrite (event_wf_with e' ts He'). unfold event_with. cbn. by rewrite H1, H2, H3.
    + cbn [length] in Hlen. change (y1 <| y_kernel := with_event_at i e' (y_kernel y) |>) with y1.
      destruct (IH e' ts y1 ltac:(lia) He' Ha' Hk) as (r & k' & E2 & Hpost).
      exists r, k'. rewrite E2. split; [done|]. change (y_kernel y1) with (with_event_at i e' (y_kernel y)) in Hpost.
      assert (forall b l, event_with e' b l = event_with e b l) as Hew by (intros; unfold event_with; by rewrite H1, H2).
      destruct Hpost as [(-> & Hf & ->)|(-> & g & t1 & l2 & p & t & -> & Hg & Ht & Ha1 & ->)]; [left|right]; (split; [done|]).
      * rewrite with_event_at_twice, Hew. split; [by constructor|done].
      * rewrite with_event_at_twice, Hew, H3. exists (tid :: g), t1, l2, p, t. split; [done|]. split; [by constructor|done].
Qed.

(** C19. Signalling an event.  For the event that the current process owns under
    the handle, [signal_event] ends, after at most one round per waiter, never
    panics and keeps the process table well-formed.  It wakes the thread that
    has waited longest among the waiters that are still blocked: that thread
    becomes ready with 0 in [rax] and is queued once, its process shows the
    state of its threads, and the younger waiters stay on the event in their
    order; if no waiter is blocked any more the event becomes signalled with
    no waiter.  The final state is given whole: no other thread, process, event
    or part of the system changes. *)
Theorem signal_event_wakes_first y (handle pid : Z) (i : nat) (e : Event) (ts : list Z) :
  kernel_wf (y_kernel y) -> k_current_process (y_kernel y) = Some pid ->
  event_at (y_kernel y) handle pid i e -> event_wf e ts ->
  exists r k', signal_event handle y = Done (Ok r, y <| y_kernel := k' |>) /\ kernel_wf k' /\
    event_effect i e ts (y_kernel y) r k'.
Proof.
  intros Hk Hp Ha He. unfold signal_event, current_pid, kernel, ipc. run. rewrite Hp. cbn [ok_or].
  rewrite (proj2 (event_at_found _ _ _ _ _ id Ha)).
  destruct (signal_loop_spec handle pid i (S (ev_waiter_count e)) e ts y) as (r & k' & E & Hpost); [rewrite (ew_count _ _ He); lia|done..|].
  exists r, k'. split; [done|]. split; [|done]. destruct Hpost as [(_ & _ & ->)|(_ & g & tid & l & p & t & _ & _ & Ht & Hsl & ->)]; [exact Hk|].
  set (k1 := with_event_at i _ _). assert (kernel_wf k1) as Hk1 by exact Hk.
  destruct (wake_exact k1 tid 0 Hk1) as [(p' & t' & [Hp' _]%(is_thread_iff _ Hk1) & _ & Ew)|[Hn _]].
  - pose proof (proj1 (is_thread_iff _ Hk tid p t) Ht) as [Hp1 _]. change (find_by_tid k1 tid) with (find_by_tid (y_kernel y) tid) in Hp'.
    rewrite Hp1 in Hp'. injection Hp' as <-.
    pose proof (safe_kernel _ k1 (fun Sh => wake_thread_safe Sh tid 0) Hk1) as Hs. unfold wp in Hs. by rewrite Ew in Hs.
  - exfalso. apply Hn. exact Hsl.
Qed.
End signal.

(** Thread 1 of process 1 waits on an event; thread 2 runs. *)
Definition waiting_system : System () :=
  let frame := mkFrame 0 0 0 0 0 0 0 0x1000000 0x13fff00 0x202 0 0 0 0 0 0 0 0 0 0 0 0 0 0 in
  let y0 := mkSystem two_threads (0x1000, 0) None () [] [] 0 0 (mkDevices [] [] [] Uart.new) in
  match (with_kernel (Current.set_current_user (Some 1) (Some 1));; create_event;; wait_event 1 frame;;
         with_kernel (Table.schedule_next_ready_user;; Current.set_current_user (Some 1) (Some 2))) y0 with
  | Done (_, y) => y
  | Panic => y0
  end.

Lemma signal_event_wakes_first_witness : exists k',
  signal_event 1 waiting_system = Done (Ok 1, waiting_system <| y_kernel := k' |>) /\ kernel_wf k' /\ queue k' = [1].
Proof.
  set (e := mkEvent 1 1 false (Some 1 :: replicate 15 None) 1).
  destruct (signal_event_wakes_first waiting_system 1 1 0 e [1]) as (r & k' & E & Hk & _).
  - apply demo_wf; vm_compute; reflexivity.
  - vm_compute. reflexivity.
  - split; [vm_compute; reflexivity|]. split; [split; reflexivity|]. intros j e' Hj. lia.
  - split; [reflexivity|reflexivity|vm_compute; lia|apply NoDup_singleton].
  - assert ((fun x => (fst x, queue (y_kernel (snd x)))) <$> signal_event 1 waiting_system = Done (Ok 1, [1])) as E0 by (vm_compute; reflexivity).
    rewrite E in E0. injection E0 as -> Hq. exists k'. split; [exact E|]. split; [exact Hk|exact Hq].
Defined.
