(* ===== verification/UserMemory.v ===== *)
(** * User memory as the kernel reaches it

    [UserRange::checked] accepts a range only if the processor lets user code
    make the access to every byte of it; then reading the range gives the bytes
    user code would read, and writing it changes exactly those bytes, all of
    them in frames of the page table that is loaded. *)

From S2P Require Import Prelude Utf8 Paths Vfs RamFs Ring3 Elf AddrSpace AddrSpaceProofs PageTables PageTablesProofs PrivateTables PrivateMem PrivateProcess UserAccess Threads Program Ipc Process TableSafety ProcessSpec Current Text System.

Section slot_memory.
Context `{Laws : EntryLaws}.
Context (offset : Z) (m0 : memory) (active : Z).
Notation leaf := (leaf offset).
Notation mmu := (mmu offset).

Definition is_write (access : UserPageAccess) : bool := match access with ReadAccess => false | WriteAccess => true end.

(** The processor's walk ends in the leaf of the page. *)
Lemma mmu_walk_leaf m write l f ix :
  mmu_walk offset m write f (index_list l ix) =
  let r := leaf m l f ix in
  if (lf_level r =? 0)%nat && (negb write || (lf_writable r && contains (entry_flags (lf_entry r)) WRITABLE))
  then match entry_frame (lf_entry r) with Ok g => Some g | Err _ => None end else None.
Proof.
  revert f. induction l as [|l IH]; intros f; cbn [index_list mmu_walk PageTablesProofs.leaf]; cbv zeta.
  - destruct (entry_frame _) as [g|e]; cbn [lf_level lf_writable lf_entry]; [|by destruct (_ && _)].
    destruct write; cbn [negb orb andb Nat.eqb]; [|done]. by destruct (contains _ _).
  - destruct (entry_frame _) as [g|e]; cbn [lf_level lf_writable lf_entry]; [|done]. rewrite IH. cbv zeta.
    destruct write; cbn [negb orb]; [|done]. destruct (contains _ WRITABLE); cbn [andb]; [done|]. by rewrite andb_false_r.
Qed.

Lemma mmu_leaf m write p4 v :
  mmu m write p4 v =
  let r := leaf m 3 p4 (indexes v) in
  if (lf_level r =? 0)%nat && (negb write || (lf_writable r && contains (entry_flags (lf_entry r)) WRITABLE))
  then match entry_frame (lf_entry r) with Ok g => Some (offset + g + v mod PAGE_SIZE) | Err _ => None end else None.
Proof.
  unfold PageTables.mmu. change [_; _; _; _] with (index_list 3 (indexes v)). rewrite mmu_walk_leaf. cbv zeta.
  destruct (_ && _); [|done]. by destruct (entry_frame _).
Qed.

(** The table the kernel booted with gives user code no access to addresses
    outside the pages of a slot. *)
Definition boot_private (count : nat) : Prop := forall v, user_address v \/ 2 ^ 64 - 2 ^ 47 <= v < 2 ^ 64 ->
  page_number v ∉ map page_number (slot_pages count) -> user_may ReadAccess (leaf m0 3 active (indexes v)) = false.

(** Where a slot keeps the byte at [v]. *)
Definition slot_addr (s : PreparedP4Slot) (v : Z) : option Z :=
  i ← position (fun p => page_number p =? page_number v) (slot_pages (sl_program_frame_count s));
  f ← slot_frames s !! i;
  Some (offset + f + v mod PAGE_SIZE).

Definition phys (s : PreparedP4Slot) (v : Z) : Z := default 0 (slot_addr s v).

Lemma user_may_read access r : user_may access r = true -> user_may ReadAccess r = true.
Proof.
  unfold user_may, entry_allows. rewrite !andb_true_iff. destruct access; tauto.
Qed.

Section one_slot.
Context (tables : list Z) (s : PreparedP4Slot) (m : memory).
Context (Hst : slot_state offset m0 active tables s m).
Notation p4 := (sl_p4_frame s).
Notation pages := (slot_pages (sl_program_frame_count s)).

(** An address of the slot: its page, its frame, its byte. *)
Lemma slot_addr_Some v a : slot_addr s v = Some a <->
  exists i p f, pages !! i = Some p /\ slot_frames s !! i = Some f /\ page_number p = page_number v /\ a = offset + f + v mod PAGE_SIZE.
Proof using Hst.
  unfold slot_addr. split.
  - destruct (position _ pages) as [i|] eqn:Ep; cbn [mbind option_bind]; [|done]. apply position_Some in Ep as (p & Hp & Hq & _).
    destruct (slot_frames s !! i) as [f|] eqn:Ef; cbn [mbind option_bind]; [|done]. intros [= <-]. exists i, p, f. by apply Z.eqb_eq in Hq.
  - intros (i & p & f & Hp & Hf & Hn & ->). destruct (slot_pages_ok offset m0 active tables s m Hst) as [_ Hnd].
    rewrite <-Hn, (position_unique page_number pages i p Hnd Hp). cbn. by rewrite Hf.
Qed.

Lemma slot_addr_in_frame v a : slot_addr s v = Some a -> exists f, f ∈ slot_frames s /\ in_frame offset f a.
Proof using Hst.
  intros (i & p & f & _ & Hf & _ & ->)%slot_addr_Some. exists f. split; [by apply list_elem_of_lookup_2 in Hf|].
  unfold in_frame. pose proof (Z.mod_pos_bound v PAGE_SIZE). unfold PAGE_SIZE in *. lia.
Qed.

(** Different addresses are kept at different places. *)
Lemma slot_addr_inj v w a : slot_addr s v = Some a -> slot_addr s w = Some a -> v = w.
Proof using Hst Laws.
  intros (i & p & f & Hp & Hf & Hn & ->)%slot_addr_Some (j & q & g & Hq & Hg & Hn' & Ea)%slot_addr_Some.
  pose proof (st_valid _ _ _ _ _ _ Hst) as [_ Hv]%Forall_app. pose proof (st_nodup _ _ _ _ _ _ Hst) as (_ & _ & Hnd)%NoDup_app.
  pose proof (Z.mod_pos_bound v PAGE_SIZE ltac:(done)). pose proof (Z.mod_pos_bound w PAGE_SIZE ltac:(done)).
  assert (f = g) as <-.
  { apply (valid_frame_distinct f g (offset + f + v mod PAGE_SIZE) offset); [by apply (Forall_lookup_1 _ _ _ _ Hv Hf)|by apply (Forall_lookup_1 _ _ _ _ Hv Hg)|lia|lia]. }
  assert (i = j) as <- by (by apply (NoDup_lookup _ _ _ f Hnd)). simplify_eq.
  unfold page_number in *. rewrite (Z.div_mod v PAGE_SIZE), (Z.div_mod w PAGE_SIZE) by done. rewrite <-Hn, <-Hn'. lia.
Qed.

(** What user code reads there. *)
Lemma slot_addr_user_byte v a : 0 <= v -> slot_addr s v = Some a -> user_byte offset m p4 v = Some (m a).
Proof using Hst Laws.
  intros H0 (i & p & f & Hp & Hf & Hn & ->)%slot_addr_Some.
  destruct (page_at offset m0 active s m p (list_elem_of_lookup_2 _ _ _ Hp) tables Hst) as [Hp0 Hpa].
  assert (v = p + v mod PAGE_SIZE) as E.
  { unfold page_number, PAGE_SIZE in *. pose proof (Z.div_mod v 4096). pose proof (Z.div_mod p 4096). lia. }
  rewrite E at 1. by apply (slot_user_byte offset m0 active m tables s i p f); [..|apply Z.mod_pos_bound].
Qed.

(** The page table maps [v] as the slot says. *)
Lemma slot_addr_leaf v a : 0 <= v -> slot_addr s v = Some a ->
  exists e f, leaf m 3 p4 (indexes v) = mkLeaf 0 e true true /\ entry_frame e = Ok f /\ a = offset + f + v mod PAGE_SIZE.
Proof using Hst Laws.
  intros H0 (i & p & f & Hp & Hf & Hn & ->)%slot_addr_Some.
  destruct (Forall2_lookup_lr _ _ _ _ _ _ (sm_pages _ _ _ _ (st_mapped _ _ _ _ _ _ Hst)) Hp Hf) as (e & Hl & He & _).
  destruct (page_at offset m0 active s m p (list_elem_of_lookup_2 _ _ _ Hp) tables Hst) as [Hp0 _].
  exists e, f. by rewrite <-(same_page_leaf offset m 3 p4 p v).
Qed.

(** An access user code may make is to an address of the slot, and the
    processor reaches it. *)
Lemma may_slot_addr access v : boot_private (sl_program_frame_count s) -> user_address v ->
  user_may access (leaf m 3 p4 (indexes v)) = true ->
  slot_addr s v = Some (phys s v) /\ mmu m (is_write access) p4 v = Some (phys s v).
Proof using Hst Laws.
  intros Hb Hv Hmay.
  assert (is_Some (slot_addr s v)) as [a Ha].
  { destruct (decide (page_number v ∈ map page_number pages)) as [[p [Hn [i Hi]%list_elem_of_lookup]]%list_elem_of_fmap|Hout].
    - destruct (Forall2_lookup_l _ _ _ _ _ (sm_pages _ _ _ _ (st_mapped _ _ _ _ _ _ Hst)) Hi) as (f & Hf & _).
      eexists. apply slot_addr_Some. by exists i, p, f.
    - exfalso. apply user_may_read in Hmay.
      destruct (ss_rest _ _ _ _ _ _ (st_shares _ _ _ _ _ _ Hst) v (or_introl Hv) Hout) as (El & Ee & Eu & _).
      specialize (Hb v (or_introl Hv) Hout). unfold user_may in *. rewrite El, Ee, Eu in Hb. congruence. }
  unfold phys. rewrite Ha. cbn [default]. split; [done|].
  destruct (slot_addr_leaf v a ltac:(apply Hv) Ha) as (e & f & El & Ee & ->).
  rewrite mmu_leaf. cbv zeta. rewrite El in *. unfold user_may in Hmay. cbn [lf_level lf_writable lf_entry Nat.eqb andb] in *. rewrite Ee.
  destruct access; cbn [is_write negb orb]; [done|]. cbn in Hmay. rewrite <-flags_allow_eq in Hmay. apply flags_allow_spec in Hmay as (_ & _ & ->). done.
Qed.

(** Storing bytes of the slot changes no walk. *)
Lemma slot_write_leaf m' : bytes_ok m' -> kept offset (slot_frames s) m m' ->
  slot_state offset m0 active tables s m' /\ forall ix, ix_ok ix -> leaf m' 3 p4 ix = leaf m 3 p4 ix.
Proof using Hst Laws.
  intros Hm' Hk. pose proof (st_valid _ _ _ _ _ _ Hst) as [_ Hv]%Forall_app. pose proof (st_nodup _ _ _ _ _ _ Hst) as (_ & Hd & _)%NoDup_app.
  destruct (state_kept offset m0 active tables s m m' (slot_frames s) Hst Hm' Hk Hv) as [Hst' Hw].
  - intros f Hf. by apply Hd.
  - intros ix f Hix Hf. destruct (st_active _ _ _ _ _ _ Hst ix f Hix Hf) as [_ Hn]. rewrite elem_of_app in Hn. tauto.
  - split; [done|]. intros ix Hix. by apply Hw.
Qed.
End one_slot.

(** Writes into the frames of one slot keep the whole pool. *)
Lemma pool_state_kept parts p m m' s : pool_state offset m0 active parts p m -> s ∈ live_slots p -> bytes_ok m' ->
  kept offset (slot_frames s) m m' -> pool_state offset m0 active parts p m'.
Proof.
  intros Hp [i Hi]%list_elem_of_lookup Hm' Hk. destruct (Forall2_lookup_l _ _ _ _ _ (ps_slots _ _ _ _ _ _ Hp) Hi) as (t & Ht & Hst).
  split; [apply (ps_wf _ _ _ _ _ _ Hp)| |apply (ps_nodup _ _ _ _ _ _ Hp)].
  apply Forall2_same_length_lookup. split; [apply (Forall2_length _ _ _ (ps_slots _ _ _ _ _ _ Hp))|].
  intros j s' t' Hj Htj. destruct (decide (j = i)) as [->|Hne].
  - simplify_eq. by apply (slot_write_leaf t s m Hst).
  - apply (other_slot offset m0 active parts i s t (mkAddr p None 0 m) Hp Hi Ht j s' t' m' Hm'); [|done..].
    eapply kept_mono; [|exact Hk]. intros f Hf. rewrite elem_of_app. auto.
Qed.

(** The slots are what they were up to their flags. *)
Lemma pool_state_ids parts p p' m : pool_state offset m0 active parts p m -> pool_wf p' ->
  map slot_id (live_slots p') = map slot_id (live_slots p) -> pool_state offset m0 active parts p' m.
Proof.
  intros Hp Hwf Hids.
  assert (Forall2 (fun s s' => same_slot s s' /\ s' ∈ live_slots p') (live_slots p) (live_slots p')) as Hsame.
  { apply Forall2_same_length_lookup. split; [by rewrite <-(length_map slot_id), <-Hids, length_map|].
    intros i s s' Hs Hs'. split; [|by apply list_elem_of_lookup_2 in Hs']. apply (f_equal (fun l => l !! i)) in Hids.
    rewrite !list_lookup_fmap, Hs, Hs' in Hids. cbn in Hids. unfold slot_id in Hids. by injection Hids. }
  split; [done| |].
  - apply Forall2_same_length_lookup. split.
    { rewrite <-(Forall2_length _ _ _ Hsame). apply (Forall2_length _ _ _ (ps_slots _ _ _ _ _ _ Hp)). }
    intros i s' t Hs' Ht. destruct (Forall2_lookup_r _ _ _ _ _ Hsame Hs') as (s & Hs & Hss & Hin).
    apply (state_same_slot offset m0 active t s s' m Hss); [by apply (live_slot_wf p')|].
    exact (Forall2_lookup_lr _ _ _ _ _ _ (ps_slots _ _ _ _ _ _ Hp) Hs Ht).
  - pose proof (ps_nodup _ _ _ _ _ _ Hp) as Hnd. unfold pool_frames in *. revert Hnd.
    replace (zip_with (fun s t => t ++ slot_frames s) (live_slots p') parts) with (zip_with (fun s t => t ++ slot_frames s) (live_slots p) parts); [done|].
    clear -Hsame. revert parts. induction Hsame as [|s s' l l' [(E1 & E2 & E3 & E4) _] _ IH]; intros [|t parts]; cbn; [done..|].
    rewrite IH. unfold slot_frames. by rewrite E2, E3, E4.
Qed.
End slot_memory.

Section user_memory.
Context `{Laws : EntryLaws} {F : Type}.
Context (offset : Z) (m0 : memory) (active : Z) (parts : list (list Z)).
Implicit Types y : System F.
Notation leaf := (leaf offset).
Notation slot_addr := (slot_addr offset).
Notation phys := (phys offset).

Definition pool_of y : PrivateP4Pool := ad_pool (k_addr (y_kernel y)).

(** The loaded page table is that of the slot [s] of the pool. *)
Record user_space (s : PreparedP4Slot) (y : System F) : Prop := {
  us_pool : pool_state offset m0 active parts (pool_of y) (memory_of y);
  us_offset : ad_offset_value (k_addr (y_kernel y)) = offset;
  us_nonzero : offset <> 0;
  us_slot : slot_id s ∈ map slot_id (live_slots (pool_of y));
  us_wf : slot_wf s;
  us_cr3 : (y_cr3 y).1 = sl_p4_frame s;
  us_private : boot_private offset m0 active (sl_program_frame_count s);
}.

(** User code may make the access. *)
Definition may_access (access : UserPageAccess) y (v : Z) : Prop :=
  user_may access (leaf (memory_of y) 3 (y_cr3 y).1 (indexes v)) = true.

(** [p] is the process that runs. *)
Definition running_process (k : Kernel) (p : Process) : Prop := exists pid, k_current_process k = Some pid /\ is_process k pid p.

(** The range lies in the program of the running process or on the stack of one of its threads. *)
Definition belongs (k : Kernel) (ptr end_ : Z) : Prop := exists p, running_process k p /\
  ((program_start (as_layout (pr_address_space p)) <= ptr /\ end_ <= program_end (as_layout (pr_address_space p))) \/
   exists t start top, t ∈ ts_items (pr_threads p) /\ th_user_stack_start t = Some start /\ th_user_stack_top t = Some top /\
     start <= ptr /\ end_ <= top).

Lemma running_process_iff k p : kernel_wf k -> Current.current_process k = Some p <-> running_process k p.
Proof.
  intros Hk. unfold Current.current_process, running_process. destruct (k_current_process k) as [pid|]; cbn; [|naive_solver].
  rewrite (is_process_iff k Hk). naive_solver.
Qed.

Lemma belongs_iff k ptr end_ : kernel_wf k -> Current.current_user_range_owned k ptr end_ = true <-> belongs k ptr end_.
Proof.
  intros Hk. unfold Current.current_user_range_owned, belongs. split.
  - destruct (Current.current_process k) as [p|] eqn:Ep; [|done]. apply running_process_iff in Ep; [|done].
    intros [[H1%Z.leb_le H2%Z.leb_le]%andb_true_iff|(t & Ht & Hs)%existsb_spec]%orb_true_iff; exists p; split; auto.
    destruct (th_user_stack_start t) as [start|] eqn:E1, (th_user_stack_top t) as [top|] eqn:E2; try done.
    apply andb_true_iff in Hs as [H1%Z.leb_le H2%Z.leb_le]. right. by exists t, start, top.
  - intros (p & Ep%running_process_iff & H); [|done]. rewrite Ep. apply orb_true_iff. destruct H as [[H1 H2]|(t & start & top & Ht & E1 & E2 & H1 & H2)].
    + left. by rewrite (proj2 (Z.leb_le _ _) H1), (proj2 (Z.leb_le _ _) H2).
    + right. apply existsb_spec. exists t. rewrite E1, E2. split; [done|]. by rewrite (proj2 (Z.leb_le _ _) H1), (proj2 (Z.leb_le _ _) H2).
Qed.

(** What [UserRange::checked] establishes. *)
Record range_ok (access : UserPageAccess) (ptr len : Z) y : Prop := {
  ro_ptr : 0 < ptr;
  ro_len : 0 < len;
  ro_end : ptr + len <= USER_END;
  ro_owned : belongs (y_kernel y) ptr (ptr + len);
  ro_table : forall p f, running_process (y_kernel y) p -> as_p4_frame (pr_address_space p) = Some f -> (y_cr3 y).1 = f;
  ro_may : forall v, ptr <= v < ptr + len -> may_access access y v;
}.

Lemma range_ok_ext access ptr len y y' : y_kernel y' = y_kernel y -> y_cr3 y' = y_cr3 y -> range_ok access ptr len y -> range_ok access ptr len y'.
Proof. intros Ek Ec [? ? ? ? ? Hm]. split; unfold may_access, memory_of in *; rewrite ?Ek, ?Ec; done. Qed.

(** The program area of the current process is in user space. *)
Definition program_in_user_space (k : Kernel) : Prop := forall p, Current.current_process k = Some p ->
  program_end (as_layout (pr_address_space p)) <= USER_END.

Lemma user_space_slot s y : user_space s y -> exists t s', s' ∈ live_slots (pool_of y) /\ same_slot s' s /\
  slot_state offset m0 active t s' (memory_of y) /\ slot_state offset m0 active t s (memory_of y).
Proof.
  intros [Hp _ _ [s' [Hid Hin]]%list_elem_of_fmap Hwf _ _]. pose proof Hin as [i Hi]%list_elem_of_lookup.
  destruct (Forall2_lookup_l _ _ _ _ _ (ps_slots _ _ _ _ _ _ Hp) Hi) as (t & _ & Hst).
  assert (same_slot s' s) as Hss by (unfold slot_id in Hid; by injection Hid).
  exists t, s'. split_and!; [done..|]. by apply (state_same_slot offset m0 active t s' s).
Qed.

Lemma memory_bytes s y : user_space s y -> bytes_ok (memory_of y).
Proof. intros H. destruct (user_space_slot s y H) as (t & s' & _ & _ & Hst & _). apply (st_bytes _ _ _ _ _ _ Hst). Qed.

Lemma set_paging_same y : set_paging (paging y) y = y.
Proof. by destruct y as [[]]. Qed.

Lemma set_memory_same y : set_memory (memory_of y) y = y.
Proof. by destruct y as [[? []]]. Qed.

(** An owned range is in user space. *)
Lemma owned_in_user_space k ptr end_ : kernel_wf k -> program_in_user_space k ->
  Current.current_user_range_owned k ptr end_ = true -> end_ <= USER_END /\ exists p, Current.current_process k = Some p.
Proof.
  intros Hk Hprog. unfold Current.current_user_range_owned. destruct (Current.current_process k) as [p|] eqn:Ep; [|done].
  intros [[_ He%Z.leb_le]%andb_true_iff|[t [Ht Hq]]%existsb_exists]%orb_true_iff.
  - specialize (Hprog p Ep). split; [lia|by exists p].
  - split; [|by exists p]. unfold Current.current_process in Ep.
    destruct (k_current_process k) as [pid|]; [|done]. cbn in Ep.
    destruct (find_process_of _ _ _ _ Hk Ep) as [Hs _].
    pose proof (shw_stacks _ (sw_each _ _ _ (ti_wf _ _ (proj1 Hk)) _ Hs)) as Hstacks. rewrite Forall_forall in Hstacks.
    specialize (Hstacks (thread_shape t)). cbn in Hstacks. unfold stack_ok in Hstacks.
    destruct (th_user_stack_start t), (th_user_stack_top t) as [top|]; try done.
    apply andb_true_iff in Hq as [_ He%Z.leb_le].
    enough (top <= USER_END) by lia. apply Z.leb_le, Hstacks, list_elem_of_In, in_map, Ht.
Qed.

Lemma checked_spec s y ptr len access :
  user_space s y -> kernel_wf (y_kernel y) -> program_in_user_space (y_kernel y) -> 0 <= ptr -> 0 <= len ->
  exists r, checked ptr len access y = Done (r, y) /\
    match r with
    | Ok range => range = mkRange ptr len (ptr + len) access /\ range_ok access ptr len y
    | Err e => e = InvalidArgument /\ ~ range_ok access ptr len y
    end.
Proof.
  intros Hu Hk Hprog H0 Hlen. unfold checked.
  destruct (Z.eqb_spec ptr 0) as [|Hnz]; cbn [orb].
  { eexists. split; [done|]. split; [done|]. intros Hr. pose proof (ro_ptr _ _ _ _ Hr). lia. }
  destruct (Z.eqb_spec len 0) as [|Hnl].
  { eexists. split; [done|]. split; [done|]. intros Hr. pose proof (ro_len _ _ _ _ Hr). lia. }
  unfold u64_checked_add, checked_add_to. destruct (Z.leb_spec (ptr + len) u64_max).
  2:{ eexists. split; [done|]. split; [done|]. intros Hr. pose proof (ro_end _ _ _ _ Hr). unfold USER_END, u64_max in *. lia. }
  unfold kernel. run.
  destruct (Current.current_user_range_owned (y_kernel y) ptr (ptr + len)) eqn:Ho; cbn [negb].
  2:{ eexists. split; [done|]. split; [done|]. intros Hr. pose proof (proj2 (belongs_iff _ _ _ Hk) (ro_owned _ _ _ _ Hr)). congruence. }
  destruct (owned_in_user_space _ _ _ Hk Hprog Ho) as [He (p & Ep)]. unfold Current.current_user_address_space. rewrite Ep. cbn [fmap option_fmap option_map].
  destruct (user_space_slot s y Hu) as (t & s' & _ & _ & Hst & Hst2).
  destruct (user_range_check_spec offset (pr_address_space p) ptr len access (paging y)) as (b & Eb & Hb).
  { apply (st_bytes _ _ _ _ _ _ Hst). }
  { apply (us_offset _ _ Hu). }
  { apply (us_nonzero _ _ Hu). }
  { cbn. rewrite (us_cr3 _ _ Hu). apply (slot_p4_valid offset m0 active t s _ Hst2). }
  1-3: unfold USER_END in *; lia.
  unfold with_paging. rewrite Eb, set_paging_same. unfold range_check_answer in Hb. cbn in Hb.
  destruct b; cbn [negb]; eexists; (split; [done|]).
  - destruct (proj1 Hb eq_refl) as [Hf Hv]. split; [done|]. split; [lia|lia|done|by apply belongs_iff| |done].
    intros p' f Ep'%running_process_iff Ef; [|done]. rewrite Ep in Ep'. injection Ep' as <-. by apply Hf.
  - split; [done|]. intros Hr. discriminate (proj2 Hb). split; [|apply (ro_may _ _ _ _ Hr)].
    intros f Ef. apply (ro_table _ _ _ _ Hr p); [by apply running_process_iff|done].
Qed.

Lemma same_slot_frames s s' : same_slot s' s -> slot_frames s = slot_frames s'.
Proof. intros (_ & E1 & E2 & E3). unfold slot_frames. by rewrite E1, E2, E3. Qed.

Lemma may_phys s y access v : user_space s y -> user_address v -> may_access access y v ->
  slot_addr s v = Some (phys s v) /\ mmu offset (memory_of y) (is_write access) (y_cr3 y).1 v = Some (phys s v).
Proof.
  intros Hu Hv Hmay. destruct (user_space_slot s y Hu) as (t & _ & _ & _ & _ & Hst). unfold may_access in Hmay. rewrite (us_cr3 _ _ Hu) in *.
  by apply (may_slot_addr offset m0 active t s _ Hst); [apply (us_private _ _ Hu)|..].
Qed.

(** User code has no access to the upper half. *)
Lemma may_lower s y access v : user_space s y -> user_address v \/ 2 ^ 64 - 2 ^ 47 <= v < 2 ^ 64 -> may_access access y v -> user_address v.
Proof.
  intros Hu [Hv|Hv] Hmay; [done|]. exfalso. destruct (user_space_slot s y Hu) as (t & _ & _ & _ & _ & Hst). unfold may_access in Hmay.
  rewrite (us_cr3 _ _ Hu) in Hmay. apply user_may_read in Hmay.
  assert (page_number v ∉ map page_number (slot_pages (sl_program_frame_count s))) as Hout.
  { destruct (sm_shape _ _ _ _ (st_mapped _ _ _ _ _ _ Hst)) as (_ & Hc & _). intros (p & E & Hp)%list_elem_of_fmap.
    destruct (slot_pages_aligned _ _ Hc Hp) as [Hl _]. unfold page_number, user_address, PAGE_SIZE in *.
    pose proof (Z.div_lt_upper_bound p 4096 (2 ^ 35)). pose proof (Z.div_le_lower_bound v 4096 (2 ^ 35)). lia. }
  destruct (ss_rest _ _ _ _ _ _ (st_shares _ _ _ _ _ _ Hst) v (or_intror Hv) Hout) as (El & Ee & Eu & _).
  pose proof (us_private _ _ Hu v (or_intror Hv) Hout) as Hb. unfold user_may in *. rewrite El, Ee, Eu in Hb. congruence.
Qed.

(** Writing into the frames of the slot. *)
Lemma user_space_write s y m' : user_space s y -> bytes_ok m' -> kept offset (slot_frames s) (memory_of y) m' ->
  user_space s (set_memory m' y) /\ forall access v, may_access access (set_memory m' y) v <-> may_access access y v.
Proof.
  intros Hu Hm' Hk. destruct (user_space_slot s y Hu) as (t & s' & Hs' & Hss & _ & Hst).
  split.
  - destruct Hu as [Hp Ho Hnz Hs Hwf Hc Hb]. split; try done.
    apply (pool_state_kept offset m0 active parts (pool_of y) (memory_of y) m' s' Hp Hs' Hm'). by rewrite <-(same_slot_frames s s').
  - intros access v. unfold may_access. change (memory_of (set_memory m' y)) with m'. change (y_cr3 (set_memory m' y)) with (y_cr3 y).
    rewrite (us_cr3 _ _ Hu). destruct (slot_write_leaf offset m0 active t s _ Hst m' Hm' Hk) as [_ Hl]. by rewrite Hl by apply indexes_ok.
Qed.

(** ... changes nothing that the page tables of other slots reach. *)
Lemma other_slots_kept s y m' : user_space s y -> bytes_ok m' -> kept offset (slot_frames s) (memory_of y) m' ->
  forall s' a v o, s' ∈ live_slots (pool_of y) -> sl_p4_frame s' <> (y_cr3 y).1 ->
    slot_pages (sl_program_frame_count s') !! a = Some v -> 0 <= o < PAGE_SIZE ->
    user_byte offset m' (sl_p4_frame s') (v + o) = user_byte offset (memory_of y) (sl_p4_frame s') (v + o).
Proof.
  intros Hu Hm' Hk s' a v o [j Hj]%list_elem_of_lookup Hne Hv Ho. destruct (user_space_slot s y Hu) as (_ & s1 & [i Hi]%list_elem_of_lookup & Hss & _ & _).
  pose proof (us_pool _ _ Hu) as Hp. pose proof (ps_slots _ _ _ _ _ _ Hp) as Hslots.
  destruct (Forall2_lookup_l _ _ _ _ _ Hslots Hi) as (t & Ht & _). destruct (Forall2_lookup_l _ _ _ _ _ Hslots Hj) as (t' & Ht' & Hst').
  destruct (Forall2_lookup_l _ _ _ _ _ (sm_pages _ _ _ _ (st_mapped _ _ _ _ _ _ Hst')) Hv) as (f & Hf & _).
  apply (other_slot offset m0 active parts i s1 t (mkAddr (pool_of y) None 0 (memory_of y)) Hp Hi Ht j s' t' m' Hm') with (a := a) (f := f); try done.
  - eapply kept_mono; [|exact Hk]. rewrite (same_slot_frames s s1 Hss). intros g Hg. apply elem_of_app. auto.
  - intros ->. apply Hne. rewrite (us_cr3 _ _ Hu). rewrite Hi in Hj. injection Hj as <-. symmetry. apply Hss.
Qed.

(** *** Reading *)

(** The [n] bytes user code sees from [ptr] on. *)
Definition user_bytes (s : PreparedP4Slot) y (ptr : Z) (n : nat) : bytes :=
  map (fun i => memory_of y (phys s (ptr + Z.of_nat i))) (seq 0 n).

Lemma length_user_bytes s y ptr n : length (user_bytes s y ptr n) = n.
Proof. unfold user_bytes. by rewrite length_map, length_seq. Qed.

Lemma user_bytes_byte s y ptr n : user_space s y -> Forall is_byte (user_bytes s y ptr n).
Proof. intros Hu. apply Forall_forall. intros b [i [-> _]]%list_elem_of_fmap. apply (memory_bytes s y Hu). Qed.

Lemma user_bytes_S s y ptr n : user_bytes s y ptr (S n) = memory_of y (phys s ptr) :: user_bytes s y (ptr + 1) n.
Proof.
  unfold user_bytes. cbn [seq map]. rewrite Z.add_0_r. f_equal. rewrite <-seq_shift, map_map. apply map_ext. intros i. do 2 f_equal. lia.
Qed.

Lemma load_bytes_spec s y n : user_space s y -> forall ptr,
  0 <= ptr -> ptr + Z.of_nat n <= USER_END -> (forall v, ptr <= v < ptr + Z.of_nat n -> may_access ReadAccess y v) ->
  load_bytes offset ptr n y = Done (user_bytes s y ptr n, y).
Proof.
  intros Hu. induction n as [|n IH]; intros ptr H0 He Hv; [done|]. cbn [load_bytes]. rewrite user_bytes_S. unfold load_byte. run.
  destruct (may_phys s y ReadAccess ptr Hu) as [_ Em]; [unfold user_address, USER_END in *; lia|apply Hv; lia|].
  cbn [is_write] in Em. rewrite Em. run. rewrite IH by (lia || (intros; apply Hv; lia)). done.
Qed.

(** *** Writing *)

(** The memory after [bs] were stored at [ptr]: what user code sees there, and nowhere else a change. *)
Record stored (s : PreparedP4Slot) y (ptr : Z) (bs : bytes) (m' : memory) : Prop := {
  sd_bytes : bytes_ok m';
  sd_kept : kept offset (slot_frames s) (memory_of y) m';
  sd_user : forall v, slot_addr s v = Some (phys s v) -> m' (phys s v) =
    if (ptr <=? v) && (v <? ptr + Z.of_nat (length bs)) then nth (Z.to_nat (v - ptr)) bs 0 mod 256 else memory_of y (phys s v);
}.

Lemma stored_nil s y ptr : user_space s y -> stored s y ptr [] (memory_of y).
Proof.
  intros Hu. split; [by apply (memory_bytes s)|apply kept_refl|]. intros v _. cbn [length].
  destruct (Z.leb_spec ptr v), (Z.ltb_spec v (ptr + Z.of_nat 0)); try done. lia.
Qed.

Lemma stored_byte s y ptr b : user_space s y -> slot_addr s ptr = Some (phys s ptr) ->
  stored s y ptr [b] (mem_copy (memory_of y) (phys s ptr) [b mod 256]).
Proof.
  intros Hu Ha. destruct (user_space_slot s y Hu) as (t & _ & _ & _ & _ & Hst). split.
  - apply mem_copy_ok; [by apply (memory_bytes s)|]. constructor; [|done]. unfold is_byte. pose proof (Z.mod_pos_bound b 256). lia.
  - intros x Hx. destruct (slot_addr_in_frame offset m0 active t s _ Hst ptr _ Ha) as (f & Hf & Hin).
    rewrite Forall_forall in Hx. specialize (Hx f Hf). unfold mem_copy. cbn [length].
    destruct (Z.leb_spec (phys s ptr) x), (Z.ltb_spec x (phys s ptr + Z.of_nat 1)); try done.
    exfalso. apply Hx. by replace x with (phys s ptr) by lia.
  - intros v Hv. unfold mem_copy. cbn [length].
    destruct (decide (v = ptr)) as [->|Hne].
    + rewrite !Z.sub_diag, !(proj2 (Z.leb_le _ _)), !(proj2 (Z.ltb_lt _ _)) by lia. done.
    + replace ((ptr <=? v) && (v <? ptr + Z.of_nat 1)) with false by (symmetry; apply andb_false_iff; rewrite Z.leb_gt, Z.ltb_ge; lia).
      destruct (Z.leb_spec (phys s ptr) (phys s v)), (Z.ltb_spec (phys s v) (phys s ptr + Z.of_nat 1)); try done. exfalso. apply Hne.
      apply (slot_addr_inj offset m0 active t s _ Hst v ptr (phys s v) Hv). rewrite Ha. f_equal. lia.
Qed.

Lemma stored_cons s y ptr b bs m1 m2 : stored s y ptr [b] m1 -> stored s (set_memory m1 y) (ptr + 1) bs m2 ->
  stored s y ptr (b :: bs) m2.
Proof.
  intros [Hb1 Hk1 Hu1] [Hb2 Hk2 Hu2]. split; [done|by eapply kept_trans|]. intros v Hv. rewrite Hu2 by done. change (memory_of (set_memory m1 y)) with m1. rewrite Hu1 by done. cbn [length].
  destruct (Z.leb_spec ptr v), (Z.leb_spec (ptr + 1) v); try lia; cbn [andb].
  - rewrite (proj2 (Z.ltb_ge v (ptr + Z.of_nat 1))) by lia.
    replace (Z.to_nat (v - ptr)) with (S (Z.to_nat (v - (ptr + 1)))) by lia. cbn [nth].
    destruct (Z.ltb_spec v (ptr + 1 + Z.of_nat (length bs))), (Z.ltb_spec v (ptr + Z.of_nat (S (length bs)))); try lia; done.
  - assert (v = ptr) as -> by lia. rewrite Z.sub_diag. destruct (Z.ltb_spec ptr (ptr + Z.of_nat (S (length bs)))); [|lia].
    rewrite (proj2 (Z.ltb_lt ptr (ptr + Z.of_nat 1))) by lia. done.
  - done.
Qed.

Lemma store_bytes_spec s y bs : user_space s y -> forall ptr, 0 <= ptr -> ptr + Z.of_nat (length bs) <= USER_END ->
  (forall v, ptr <= v < ptr + Z.of_nat (length bs) -> may_access WriteAccess y v) ->
  exists m', store_bytes offset ptr bs y = Done ((), set_memory m' y) /\ stored s y ptr bs m'.
Proof.
  revert y. induction bs as [|b bs IH]; intros y Hu ptr H0 He Hv; cbn [store_bytes length] in *.
  { exists (memory_of y). rewrite set_memory_same. split; [done|by apply stored_nil]. }
  unfold store_byte. run.
  destruct (may_phys s y WriteAccess ptr Hu) as [Ha Em]; [unfold user_address, USER_END in *; lia|apply Hv; lia|].
  cbn [is_write] in Em. rewrite Em. run.
  pose proof (stored_byte s y ptr b Hu Ha) as Hs. set (m1 := mem_copy _ _ _) in *.
  destruct (user_space_write s y m1 Hu (sd_bytes _ _ _ _ _ Hs) (sd_kept _ _ _ _ _ Hs)) as [Hu1 Hmay].
  destruct (IH (set_memory m1 y) Hu1 (ptr + 1)) as (m2 & E & Hs2); [lia|lia|intros v Hr; apply Hmay, Hv; lia|].
  exists m2. rewrite E. split; [done|by apply (stored_cons s y ptr b bs m1)].
Qed.

Lemma store_byte_spec s y v b : user_space s y -> user_address v -> may_access WriteAccess y v ->
  exists m', store_byte offset v b y = Done ((), set_memory m' y) /\ stored s y v [b] m'.
Proof.
  intros Hu Hv Hmay. destruct (may_phys s y WriteAccess v Hu Hv Hmay) as [Ha Em].
  eexists. split; [|by apply stored_byte]. unfold store_byte. run. cbn [is_write] in Em. by rewrite Em.
Qed.

Lemma stored_space s y ptr bs m' : user_space s y -> stored s y ptr bs m' ->
  user_space s (set_memory m' y) /\ forall access v, may_access access (set_memory m' y) v <-> may_access access y v.
Proof. intros Hu Hs. apply user_space_write; [done|apply (sd_bytes _ _ _ _ _ Hs)|apply (sd_kept _ _ _ _ _ Hs)]. Qed.

(** ** The calls of user/syscall.rs *)

Section calls.
Context (s : PreparedP4Slot) (y : System F).
Hypothesis Hu : user_space s y.
Hypothesis Hk : kernel_wf (y_kernel y).
Hypothesis Hprog : program_in_user_space (y_kernel y).

Lemma range_may_read access ptr len : range_ok access ptr len y -> forall v, ptr <= v < ptr + Z.of_nat (Z.to_nat len) -> may_access ReadAccess y v.
Proof using. intros Hr v Hv. apply (user_may_read access). pose proof (ro_len _ _ _ _ Hr). apply (ro_may _ _ _ _ Hr). lia. Qed.

Lemma read_range access ptr len : range_ok access ptr len y ->
  load_bytes offset ptr (Z.to_nat len) y = Done (user_bytes s y ptr (Z.to_nat len), y).
Proof using Hu Laws.
  intros Hr. pose proof (ro_ptr _ _ _ _ Hr). pose proof (ro_end _ _ _ _ Hr). pose proof (ro_len _ _ _ _ Hr).
  apply load_bytes_spec; [done|lia|lia|by apply (range_may_read access ptr len)].
Qed.

Lemma read_user_bytes_spec ptr len : 0 <= ptr -> 0 <= len ->
  exists r, read_user_bytes offset ptr len y = Done (r, y) /\
    match r with
    | Ok bs => range_ok ReadAccess ptr len y /\ bs = user_bytes s y ptr (Z.to_nat len)
    | Err e => e = InvalidArgument /\ ~ range_ok ReadAccess ptr len y
    end.
Proof using Hu Hk Hprog Laws.
  intros H0 Hl. unfold read_user_bytes, user_read_range. destruct (checked_spec s y ptr len ReadAccess Hu Hk Hprog H0 Hl) as (r & E & Hr).
  run. rewrite E. destruct r as [range|e]; [|by exists (Err e)]. destruct Hr as [-> Hr]. unfold as_read_slice. cbn [rg_ptr rg_len].
  rewrite (read_range ReadAccess ptr len Hr). by eexists.
Qed.

Lemma read_user_str_spec ptr len : 0 <= ptr -> 0 <= len ->
  exists r, read_user_str offset ptr len y = Done (r, y) /\
    match r with
    | Ok bs => range_ok ReadAccess ptr len y /\ bs = user_bytes s y ptr (Z.to_nat len) /\ utf8_valid bs = true
    | Err e => e = InvalidArgument
    end.
Proof using Hu Hk Hprog Laws.
  intros H0 Hl. unfold read_user_str. destruct (MAX_PATH_LEN <? len); [by eexists|].
  destruct (read_user_bytes_spec ptr len H0 Hl) as (r & E & Hr). run. rewrite E. destruct r as [bs|e]; [|exists (Err e); tauto].
  destruct Hr as [Hr ->]. eexists. split; [done|]. cbv beta. by destruct (utf8_valid _) eqn:?.
Qed.

(** Storing into a range that may be written. *)
Lemma write_range ptr len bs : range_ok WriteAccess ptr len y -> Z.of_nat (length bs) <= len ->
  exists m', store_bytes offset ptr bs y = Done ((), set_memory m' y) /\ stored s y ptr bs m'.
Proof using Hu Laws.
  intros Hr Hn. pose proof (ro_ptr _ _ _ _ Hr). pose proof (ro_end _ _ _ _ Hr).
  apply store_bytes_spec; [done|lia|lia|]. intros v Hv. apply (ro_may _ _ _ _ Hr). lia.
Qed.

Lemma copy_to_user_buffer_spec ptr len data : 0 <= ptr ->
  exists r y', copy_to_user_buffer offset ptr len data y = Done (r, y') /\
    match r with
    | Ok n => n = Z.of_nat (length data) /\ n <= len /\ range_ok WriteAccess ptr n y /\
        exists m', y' = set_memory m' y /\ stored s y ptr data m'
    | Err e => e = InvalidArgument /\ y' = y /\ (len < Z.of_nat (length data) \/ ~ range_ok WriteAccess ptr (Z.of_nat (length data)) y)
    end.
Proof using Hu Hk Hprog Laws.
  intros H0. unfold copy_to_user_buffer. destruct (Z.ltb_spec len (Z.of_nat (length data))); [eexists _, y; split; [done|]; cbv beta iota; auto|].
  unfold user_write_range. destruct (checked_spec s y ptr (Z.of_nat (length data)) WriteAccess Hu Hk Hprog H0 ltac:(lia)) as (r & E & Hr).
  run. rewrite E. destruct r as [range|e]; [|exists (Err e), y; tauto]. destruct Hr as [-> Hr]. cbn [rg_ptr].
  destruct (write_range ptr (Z.of_nat (length data)) data Hr) as (m' & Es & Hs); [lia|]. rewrite Es. run.
  eexists _, _. split; [done|]. split_and!; try done. by exists m'.
Qed.
End calls.
End user_memory.
