(* ===== verification/KernelSafety.v ===== *)
(** * What the kernel's tables hold between system calls

    [kernel_ok] is the invariant of the kernel's tables that system calls rely
    on: besides a well-formed process table, every process has a printable
    working directory, user name and argument and a program area in user space,
    and the pipes, events and message queues are well formed.  [kstep] is what
    the functions of process.rs leave behind; each of them is shown to be such
    a step. *)

From S2P Require Import Prelude Utf8 Paths Vfs Ring3 Elf AddrSpace AddrSpaceProofs Threads Program Ipc IpcProofs Process TableSafety Current CurrentProofs RamFs RamFsProofs FsLaws Text TextProofs PageTables System.

(** ** The invariant *)

Definition arg_ok (a : UserProgramArg) : Prop := exists text, Arg.as_str a = Done text.

Record info_ok (i : Info) : Prop := {
  io_cwd : path_ok (in_cwd i);
  io_name : exists name, Credentials.username (in_credentials i) = Done name;
  io_arg : arg_ok (in_arg i);
  io_program : program_end (in_layout i) <= USER_END;
}.

Definition infos_ok (k : Kernel) : Prop := Forall (fun i => info_ok i.2) (infos k).

Definition slot_ok {A} (P : A -> Prop) (e : option A) : Prop := match e with Some x => P x | None => True end.

Record ipc_wf (s : IpcState) : Prop := {
  iw_pipes : Forall (slot_ok pipe_wf) (ip_pipes s);
  iw_events : Forall (slot_ok (fun e => exists ts, event_wf e ts)) (ip_events s);
  iw_queues : Forall (slot_ok queue_wf) (ip_queues s);
}.

Record kernel_ok (k : Kernel) : Prop := {
  ko_wf : kernel_wf k;
  ko_infos : infos_ok k;
  ko_ipc : ipc_wf (k_ipc k);
  ko_ticks : 0 <= k_ticks k /\ k_ticks k * 1000 <= u64_max;
}.

(** The statics of address_space.rs but for flags of slots, and memory. *)
Definition addr_kept (a a' : AddrState) : Prop := addr_frozen a' = addr_frozen a /\ ad_mem a' = ad_mem a.

(** Open descriptors of [s'] were open before. *)
Definition files_from (s s' : IpcState) : Prop := forall f, Some f ∈ ip_files s' -> Some f ∈ ip_files s.

Lemma files_from_refl s : files_from s s.
Proof. by intros f. Qed.
#[export] Hint Resolve files_from_refl : core.

(** The processes with their page tables, and the thread on the processor. *)
Definition places (k : Kernel) : list (Z * option Z) :=
  map (fun p => (pr_pid p, as_p4_frame (pr_address_space p))) (pt_processes (k_table k)).
Definition cur (k : Kernel) : option Z * option Z := (k_current_process k, k_current_thread k).

(** A step of the kernel's tables.  With [b] the same thread stays on the
    processor. *)
Record kstep (b : bool) (k k' : Kernel) : Prop := {
  ks_ok : kernel_ok k';
  ks_addr : addr_kept (k_addr k) (k_addr k');
  ks_files : files_from (k_ipc k) (k_ipc k');
  ks_ticks : k_ticks k' = k_ticks k;
  ks_places : places k' = places k;
  ks_cur : b = true -> cur k' = cur k;
}.

Lemma kstep_refl {b} k : kernel_ok k -> kstep b k k.
Proof. intros H. by split. Qed.

Lemma kstep_trans {b} k1 k2 k3 : kstep b k1 k2 -> kstep b k2 k3 -> kstep b k1 k3.
Proof.
  intros [_ [E1 E2] H3 H4 H5 H6] [Hok [E1' E2'] H3' H4' H5' H6']. split; [done|split; congruence| |congruence|congruence|].
  - intros f Hf. by apply H3, H3'.
  - intros Hb. rewrite H6', H6; done.
Qed.

Lemma kstep_any {b} k k' : kstep b k k' -> kstep false k k'.
Proof. by intros []; split. Qed.

(** ** Processes of a good kernel *)

Lemma infos_processes k : infos k = map (fun p => (pr_pid p, info p)) (pt_processes (k_table k)).
Proof. unfold infos, shapes. by rewrite map_map. Qed.

Lemma process_info k p : infos_ok k -> p ∈ pt_processes (k_table k) -> info_ok (info p).
Proof.
  unfold infos_ok. rewrite infos_processes, Forall_forall. intros H Hp. apply (H (pr_pid p, info p)). by apply (list_elem_of_fmap_2 (fun p => (pr_pid p, info p))).
Qed.

Lemma find_process_in k pid p : find_process k pid = Some p -> p ∈ pt_processes (k_table k).
Proof. intros [H _]%find_Some. done. Qed.

Lemma current_process_elem k p : Current.current_process k = Some p -> p ∈ pt_processes (k_table k).
Proof. unfold Current.current_process. destruct (k_current_process k); [|done]. apply find_process_in. Qed.

Lemma processes_infos_ok k : Forall (fun p => info_ok (info p)) (pt_processes (k_table k)) -> infos_ok k.
Proof.
  unfold infos_ok. rewrite infos_processes, !Forall_forall. intros H [pid i] [p [E Hp]]%list_elem_of_fmap. injection E as -> ->. by apply H.
Qed.

Lemma infos_ok_elems k : infos_ok k -> Forall (fun p => info_ok (info p)) (pt_processes (k_table k)).
Proof. intros H. apply Forall_forall. intros p. by apply process_info. Qed.

Lemma process_main k p : kernel_wf k -> p ∈ pt_processes (k_table k) -> main_there p.
Proof.
  intros [Ht _] Hp. pose proof (shapes_elem _ _ Hp) as Hs.
  destruct (main_ok _ (fun _ => True) _ _ p (ti_wf _ _ Ht) (conj Hs I)) as [t E]. exists t. unfold TStore.main, main_tid in *. by rewrite E.
Qed.

(** ** Steps *)

Lemma places_infos k : places k = map (fun i => (i.1, in_p4_frame i.2)) (infos k).
Proof. unfold places. by rewrite infos_processes, map_map. Qed.

Lemma frozen_cur k k' : frozen k' = frozen k -> cur k' = cur k.
Proof. unfold frozen, cur. congruence. Qed.

(** A method of the table that keeps every identity. *)
Lemma like_kstep {b} k k' : kernel_ok k -> kernel_wf k' -> like k k' -> kstep b k k'.
Proof.
  intros [Hwf Hinf Hipc Ht] Hwf' [[Hf Hm] Hi]. unfold frozen in Hf.
  pose proof (f_equal snd Hf) as Ea. apply (f_equal fst) in Hf. pose proof (f_equal snd Hf) as E5. apply (f_equal fst) in Hf.
  pose proof (f_equal snd Hf) as E4. apply (f_equal fst) in Hf. pose proof (f_equal snd Hf) as E3. apply (f_equal fst) in Hf.
  pose proof (f_equal fst Hf) as E1. cbn [fst snd] in *.
  split; [split; [done|by unfold infos_ok; rewrite Hi|by rewrite E1|by rewrite E3]|done|by intros f; rewrite E1|done| |].
  - by rewrite !places_infos, Hi.
  - intros _. unfold cur. congruence.
Qed.

Definition steps (b : bool) {A} (m : M Kernel A) (k : Kernel) : Prop := wp m (fun _ k' => kstep b k k') k.

Lemma safe_steps {b} {A} (m : M Kernel A) k : (forall Sh, safe Sh 0 m any) -> kernel_ok k -> steps b m k.
Proof.
  intros Hs Hk. eapply wp_mono; [apply (safe_keeps0 m k Hs (ko_wf _ Hk))|]. intros _ k' [Hwf Hl]. by apply like_kstep.
Qed.

Lemma keeps_steps {b} {A} (m : M Kernel A) k : op_keeps m -> kernel_ok k -> room k -> steps b m k.
Proof. intros Hs Hk Hr. eapply wp_mono; [apply (Hs k (ko_wf _ Hk) Hr)|]. intros _ k' [Hwf Hl]. by apply like_kstep. Qed.

Lemma steps_ret {b} {A} (a : A) k : kernel_ok k -> steps b (mret a) k.
Proof. apply kstep_refl. Qed.

Lemma steps_bind {b} {A B} (m : M Kernel A) (f : A -> M Kernel B) k :
  steps b m k -> (forall a k', kstep b k k' -> steps b (f a) k') -> steps b (m ≫= f) k.
Proof.
  intros Hm Hf. apply wp_bind. eapply wp_mono; [exact Hm|]. intros a k' Hk. eapply wp_mono; [by apply Hf|].
  intros r k2 H2. by apply (kstep_trans k k').
Qed.

Lemma steps_some {b} {A B} (g : Kernel -> option A) (f : A -> M Kernel B) (d : B) k : kernel_ok k ->
  (forall a, g k = Some a -> steps b (f a) k) -> steps b (ifSome a := gets g orelse mret d in f a) k.
Proof. intros Hk Hf. unfold steps, wp. run. destruct (g k) as [a|] eqn:E; [by apply Hf|by apply kstep_refl]. Qed.

(** Assignments to the statics that the invariant does not mention. *)
Definition outside (b : bool) (f : Kernel -> Kernel) : Prop := forall k,
  k_table (f k) = k_table k /\ k_addr (f k) = k_addr k /\ k_ipc (f k) = k_ipc k /\ k_ticks (f k) = k_ticks k /\ (b = true -> cur (f k) = cur k).

Lemma outside_kstep {b} f k : outside b f -> kernel_ok k -> kstep b k (f k).
Proof.
  intros Hf [[Ht Ha] Hi Hipc Hticks]. destruct (Hf k) as (E1 & E2 & E3 & E4 & E5). split; [split|..].
  - unfold kernel_wf, inv. rewrite E1, E2. done.
  - unfold infos_ok, infos. by rewrite E1.
  - by rewrite E3.
  - by rewrite E4.
  - unfold addr_kept. by rewrite E2.
  - unfold files_from. by rewrite E3.
  - done.
  - unfold places. by rewrite E1.
  - done.
Qed.

Lemma outside_steps {b} f k : outside b f -> kernel_ok k -> steps b (modify f) k.
Proof. apply outside_kstep. Qed.

Lemma programs_steps {b} {A} (m : M ProgramState A) k : (forall s, wp m (fun _ _ => True) s) -> kernel_ok k -> steps b (with_programs m) k.
Proof.
  intros Hm Hk. unfold steps, wp, with_programs. specialize (Hm (k_programs k)). unfold wp in Hm. destruct (m (k_programs k)) as [[a s]|]; [|done].
  apply (outside_kstep (fun k => k <| k_programs := s |>)); done.
Qed.

(** ** Pipes, events, queues and descriptors *)

Lemma slots_upd {A} (P : A -> Prop) q (upd : option A -> option A) l :
  Forall (slot_ok P) l -> (forall e, slot_ok P e -> slot_ok P (upd e)) -> Forall (slot_ok P) (find_upd q upd l).
Proof.
  rewrite !Forall_forall. intros Hl Hu e [He|(e' & He' & ->)]%elem_of_find_upd; [by apply Hl|].
  apply find_Some in He' as [He' _]. by apply Hu, Hl.
Qed.

Lemma pipe_new_wf id pid : pipe_wf (PipeOps.new id pid).
Proof. split; [apply length_replicate|apply Nat.ltb_lt; reflexivity|apply Nat.le_0_l]. Qed.

Lemma pipe_write_ok source p : pipe_wf p -> wp (PipeOps.write source) (fun _ p' => pipe_wf p') p.
Proof.
  intros Hp. unfold wp, PipeOps.write. run. destruct (pi_readers p =? 0); [done|]. destruct (_ =? _)%nat eqn:E; [done|]. bool_to_prop.
  rewrite slice_ok by lia. destruct (write_loop_spec (take (Nat.min (length source) (PIPE_CAPACITY - pi_len p) - 0) (drop 0 source)) p Hp) as (p' & Ew & Hw & _).
  { pose proof (pw_plen _ Hp). rewrite length_take, length_drop. lia. }
  by rewrite Ew.
Qed.

Lemma pipe_read_ok destination p : pipe_wf p ->
  wp (PipeOps.read destination) (fun r p' => pipe_wf p' /\ length r.2 = length destination) p.
Proof.
  intros Hp. unfold wp, PipeOps.read. run. destruct (_ =? 0)%nat; [done|].
  destruct (read_loop_spec (Nat.min (length destination) (pi_len p)) p Hp) as (p' & Er & Hw & _); [lia|]. rewrite Er.
  assert (length (pipe_content p) = pi_len p) as El by apply length_ring.
  rewrite copy_slice_ok; [|lia|rewrite length_take; lia]. split; [done|]. cbn [snd].
  rewrite !length_app, !length_take, length_drop. lia.
Qed.

Lemma clear_owned_ok {A} (P : A -> Prop) owner pid l : Forall (slot_ok P) l -> Forall (slot_ok P) (Fds.clear_owned owner pid l).
Proof.
  unfold Fds.clear_owned. rewrite !Forall_forall. intros Hl e [e' [-> He']]%list_elem_of_fmap.
  specialize (Hl e' He'). destruct e' as [x|]; [|done]. by destruct (_ =? _).
Qed.

Lemma close_descriptor_wf pid f s : ipc_wf s -> ipc_wf (Fds.close_descriptor pid f s) /\ ip_files (Fds.close_descriptor pid f s) = ip_files s.
Proof.
  intros [Hp He Hq]. unfold Fds.close_descriptor.
  assert (forall id r, Forall (slot_ok pipe_wf) (Fds.close_pipe_end id pid r (ip_pipes s))) as Hc.
  { intros id r. apply slots_upd; [done|]. intros [p|]; [|done]. intros [? ? ?]. destruct r; cbn; (case_match; [done|]); by split. }
  destruct (of_descriptor f); (split; [split|]); try done; apply Hc.
Qed.

Lemma close_files_wf pid files : forall s, ipc_wf s -> ipc_wf (Fds.close_files pid files s).1.
Proof.
  induction files as [|e files IH]; intros s Hs; cbn; [done|].
  assert (forall s1 e1, (match e with Some file => if of_pid file =? pid then (Fds.close_descriptor pid file s, None) else (s, e) | None => (s, None) end) = (s1, e1) -> ipc_wf s1) as H1.
  { intros s1 e1. destruct e as [f|]; [destruct (of_pid f =? pid)|]; intros [= <- <-]; [by apply close_descriptor_wf|done..]. }
  destruct (match e with Some _ => _ | None => _ end) as [s1 e1]. specialize (IH s1 (H1 s1 e1 eq_refl)).
  by destruct (Fds.close_files pid files s1).
Qed.

Lemma close_process_files_wf pid s : ipc_wf s -> ipc_wf (Fds.close_process_files pid s) /\ files_from s (Fds.close_process_files pid s).
Proof.
  intros Hs. split.
  - pose proof (close_files_wf pid (ip_files s) s Hs) as [Hp He Hq]. unfold Fds.close_process_files.
    destruct (Fds.close_files pid (ip_files s) s) as [s1 files]. cbn in *. split; cbn; [done|by apply clear_owned_ok..].
  - destruct (close_process_files_spec pid s) as ([_ Hf] & _). intros f [i Hi]%list_elem_of_lookup. rewrite Hf in Hi.
    destruct (ip_files s !! i) as [[g|]|] eqn:E; cbn in Hi; [|done..]. destruct (of_pid g =? pid); [done|].
    injection Hi as ->. by apply list_elem_of_lookup_2 in E.
Qed.

Lemma close_fd_for_pid_wf pid fd s : ipc_wf s ->
  wp (Fds.close_fd_for_pid pid fd) (fun _ s' => ipc_wf s' /\ files_from s s') s.
Proof.
  intros Hs. unfold wp, Fds.close_fd_for_pid. run. destruct (List.find _ (ip_files s)) as [[f|]|] eqn:E; [|by split..].
  run. set (s1 := s <| ip_files ::= _ |>).
  assert (ipc_wf s1) as H1 by (destruct Hs; by split). destruct (close_descriptor_wf pid f s1 H1) as [H2 E2].
  split; [done|]. intros g. rewrite E2. unfold s1. cbn. intros [Hg|(e & _ & He)]%elem_of_find_upd; done.
Qed.

(** A step in the statics of syscall.rs. *)
Lemma ipc_kstep {b} s k : kernel_ok k -> ipc_wf s -> files_from (k_ipc k) s -> kstep b k (k <| k_ipc := s |>).
Proof. intros [[Ht Ha] Hi Hipc Hticks] Hs Hf. by split. Qed.

Lemma ipc_steps {b} {A} (m : M IpcState A) k : kernel_ok k ->
  wp m (fun _ s' => ipc_wf s' /\ files_from (k_ipc k) s') (k_ipc k) -> steps b (with_ipc m) k.
Proof.
  intros Hk Hm. unfold steps, wp, with_ipc in *. destruct (m (k_ipc k)) as [[a s]|]; [|done]. destruct Hm. by apply ipc_kstep.
Qed.

Lemma close_process_files_steps {b} pid k : kernel_ok k -> steps b (Current.close_process_files pid) k.
Proof.
  intros Hk. destruct (close_process_files_wf pid (k_ipc k) (ko_ipc _ Hk)). by apply (ipc_kstep (Fds.close_process_files pid (k_ipc k))).
Qed.

(** ** Page tables *)

Lemma release_frame_steps {b} f k : kernel_ok k -> steps b (Current.release_frame f) k.
Proof.
  intros Hk. unfold Current.release_frame. destruct f as [f|]; [|by apply steps_ret].
  apply steps_bind; [|intros a k' H; apply steps_ret, H].
  eapply wp_mono; [apply (addr_step _ (fun _ s' => pool_wf (ad_pool s') /\ addr_frozen s' = addr_frozen (k_addr k) /\ ad_mem s' = ad_mem (k_addr k)))|].
  - apply with_pool_keeps; [apply release_ok, (proj2 (ko_wf _ Hk))|apply release_ids].
  - by intros a s [H _].
  - apply (ko_wf _ Hk).
  - intros a k' (Hwf & (_ & H1 & H2) & E). destruct Hk as [_ Hi Hipc Hticks]. rewrite E in *. by split.
Qed.

(** ** The functions of process.rs *)

(** One rule of [steps], chosen by the code. *)
Ltac step1 :=
  lazymatch goal with
  | |- steps _ (mret _) _ => apply steps_ret; solve [assumption | eapply ks_ok; eassumption]
  | |- steps _ (modify _) _ => apply outside_steps; [intros ?; repeat case_match; done | solve [assumption | eapply ks_ok; eassumption]]
  | |- steps _ (Current.close_process_files _) _ => apply close_process_files_steps; solve [assumption | eapply ks_ok; eassumption]
  | |- steps _ (Current.release_frame _) _ => apply release_frame_steps; solve [assumption | eapply ks_ok; eassumption]
  | |- steps _ (match ?x with _ => _ end) _ => destruct x eqn:?
  | |- steps _ (_ ≫= _) _ => apply steps_bind; [|intros ? ? ?]
  | |- steps _ (get) _ => apply kstep_refl; solve [assumption | eapply ks_ok; eassumption]
  | |- steps _ (gets _) _ => apply kstep_refl; solve [assumption | eapply ks_ok; eassumption]
  | |- steps _ _ _ => solve [apply safe_steps; [intros ?; eauto with vantara | solve [assumption | eapply ks_ok; eassumption]]]
  end.
Ltac ksteps := cbv zeta; repeat (step1; cbv beta iota zeta).

Section current.
Context {b : bool} (k : Kernel) (Hk : kernel_ok k).

Lemma set_current_user_steps pid tid : steps false (Current.set_current_user pid tid) k.
Proof using Hk. unfold Current.set_current_user. ksteps. Qed.

Lemma take_current_user_steps : steps false Current.take_current_user k.
Proof using Hk. unfold Current.take_current_user. ksteps. Qed.

Lemma create_current_user_thread_steps entry lo hi rsp arg : room k -> hi <= USER_END ->
  steps b (Current.create_current_user_thread entry lo hi rsp arg) k.
Proof using Hk.
  intros Hr Hhi. apply steps_some; [done|]. intros pid _. apply keeps_steps; [by apply create_user_thread_ok|done..].
Qed.

Lemma join_current_thread_steps tid c : steps b (Current.join_current_thread tid c) k.
Proof using Hk. unfold Current.join_current_thread. ksteps. Qed.

Lemma block_current_thread_steps c : steps b (Current.block_current_thread c) k.
Proof using Hk. unfold Current.block_current_thread. ksteps. Qed.

Lemma mark_current_user_sleeping_steps tick c : steps b (Current.mark_current_user_sleeping tick c) k.
Proof using Hk. unfold Current.mark_current_user_sleeping. ksteps. Qed.

Lemma update_current_signal_mask_steps how mask : steps b (Current.update_current_signal_mask how mask) k.
Proof using Hk. unfold Current.update_current_signal_mask. ksteps. Qed.

Lemma set_current_signal_disposition_steps sg d : steps b (Current.set_current_signal_disposition sg d) k.
Proof using Hk. unfold Current.set_current_signal_disposition. ksteps. Qed.

Lemma create_current_session_steps : steps b Current.create_current_session k.
Proof using Hk. unfold Current.create_current_session. ksteps. Qed.

Lemma consume_preempt_steps : steps b Current.consume_timer_preempt_request_for_yield k.
Proof using Hk. unfold Current.consume_timer_preempt_request_for_yield. ksteps. Qed.

Lemma request_user_shell_wait_steps shell child : steps b (Current.request_user_shell_wait shell child) k.
Proof using Hk.
  unfold Current.request_user_shell_wait, Current.set_terminal_foreground_job. apply steps_bind; [ksteps|].
  intros _ k' H. apply programs_steps; [done|apply H].
Qed.

Lemma mark_current_user_exited_steps status : steps false (Current.mark_current_user_exited status) k.
Proof using Hk.
  unfold Current.mark_current_user_exited. apply steps_bind; [apply take_current_user_steps|]. intros [[pid tid]|] k' H; ksteps.
Qed.
End current.

Section current2.
Context {b : bool} (k : Kernel) (Hk : kernel_ok k).

Lemma mark_current_thread_exited_steps : steps false Current.mark_current_thread_exited k.
Proof using Hk.
  unfold Current.mark_current_thread_exited. apply steps_bind; [by apply take_current_user_steps|]. intros [[pid tid]|] k' H; ksteps.
  apply set_current_user_steps. by eapply ks_ok.
Qed.

Lemma checkout_yielded_steps c : steps false (Current.checkout_current_user_if_yielded c) k.
Proof using Hk.
  unfold Current.checkout_current_user_if_yielded. apply steps_bind; [by apply take_current_user_steps|]. intros [[pid tid]|] k' H; ksteps.
  apply set_current_user_steps. by eapply ks_ok.
Qed.

Lemma checkout_handler_steps sg h c : steps false (Current.checkout_current_user_for_signal_handler sg h c) k.
Proof using Hk.
  unfold Current.checkout_current_user_for_signal_handler. ksteps. apply take_current_user_steps. by eapply ks_ok.
Qed.

Lemma checkout_sigreturn_steps : steps false Current.checkout_current_user_after_sigreturn k.
Proof using Hk.
  unfold Current.checkout_current_user_after_sigreturn. ksteps. apply take_current_user_steps. by eapply ks_ok.
Qed.

Lemma send_signal_steps caller target sg : steps b (Current.send_signal caller target sg) k.
Proof using Hk. unfold Current.send_signal. unfold tryS. ksteps. Qed.

(** Room for one more context switch. *)
Lemma record_current_thread_yield_steps : switches k < u64_max -> steps b Current.record_current_thread_yield k.
Proof using Hk.
  intros Hs. apply steps_some; [done|]. intros tid _. eapply wp_mono; [apply (safe_keeps 1 _ k); [intros Sh; apply record_thread_yield_safe|apply Hk|lia]|].
  intros r k' [Hwf Hl]. by apply like_kstep.
Qed.
End current2.

Lemma username_total name : exists c, Credentials.from_username name = Done c /\ exists n, Credentials.username c = Done n.
Proof. destruct (from_username_spec name) as (t & c & _ & E & _ & Hn). by exists c; eauto. Qed.

Lemma from_path_total path : exists r, Arg.from_path path = Done r.
Proof.
  unfold Arg.from_path. destruct (bytes_eqb path [] || _) eqn:E; [by eexists|]. apply orb_false_iff in E as [_ E%Nat.ltb_ge].
  rewrite copy_slice_ok; [by eexists| |lia]. cbn [ar_bytes Arg.empty]. rewrite length_replicate. lia.
Qed.

Section more.
Context {b : bool} (k : Kernel) (Hk : kernel_ok k).

(** Replacing the working directory or the credentials of a process. *)
Lemma put_info_steps pid p p' : find_process k pid = Some p -> pr_pid p' = pid -> pr_threads p' = pr_threads p ->
  pr_address_space p' = pr_address_space p -> info_ok (info p') -> steps b (put_process pid p') k.
Proof using Hk.
  intros Hf Hpid Ht Hsp Hinfo. eapply wp_mono; [apply (put_info_ok k pid p p'); [apply Hk|done..]|].
  intros _ k' (Hwf & [Hfr Hm] & Ep).
  assert (infos_ok k') as Hi.
  { apply processes_infos_ok. rewrite Ep. apply Forall_forall. intros q [Hq|(x & _ & ->)]%elem_of_find_upd; [|done].
    apply (process_info k); [apply Hk|done]. }
  pose proof (frozen_cur _ _ Hfr) as Hcur. assert (places k' = places k) as Hpl.
  { unfold places. rewrite Ep. destruct (find_split _ _ _ Hf) as (l1 & l2 & -> & ->). rewrite !map_app. cbn [map].
    apply find_Some in Hf as [_ Hf%Z.eqb_eq]. by rewrite Hpid, Hsp, Hf. }
  unfold frozen in Hfr. pose proof (f_equal snd Hfr) as Ea. do 3 apply (f_equal fst) in Hfr. pose proof (f_equal snd Hfr) as Et.
  do 2 apply (f_equal fst) in Hfr. cbn [fst snd] in *. rename Hfr into Ei. destruct Hk as [_ _ Hipc Hticks]. split; [split; [done|done|by rewrite Ei|by rewrite Et]|done|by rewrite Ei|done..].
Qed.

Lemma set_cwd_steps pid c : path_ok c -> steps b (Table.set_cwd pid c) k.
Proof using Hk.
  intros Hc. apply steps_some; [done|]. intros p Hf. apply steps_bind; [|intros _ k' H; apply steps_ret, H].
  pose proof (process_info k p (ko_infos _ Hk) (find_process_in _ _ _ Hf)) as [_ ? ? ?].
  apply (put_info_steps pid p); [done|by apply find_Some in Hf as [_ Hf%Z.eqb_eq]|done|done|by split].
Qed.

Lemma set_credentials_steps pid c name : Credentials.username c = Done name -> steps b (Table.set_credentials pid c) k.
Proof using Hk.
  intros Hc. apply steps_some; [done|]. intros p Hf. apply steps_bind; [|intros _ k' H; apply steps_ret, H].
  pose proof (process_info k p (ko_infos _ Hk) (find_process_in _ _ _ Hf)) as [? _ ? ?].
  apply (put_info_steps pid p); [done|by apply find_Some in Hf as [_ Hf%Z.eqb_eq]|done|done|split; eauto].
Qed.

Lemma set_current_user_credentials_steps name : steps b (Current.set_current_user_credentials name) k.
Proof using Hk.
  apply steps_some; [done|]. intros pid _. destruct (username_total name) as (c & E & n & Hn).
  unfold steps, wp. run. rewrite E. exact (set_credentials_steps pid c n Hn).
Qed.

Lemma reserve_pid_steps : room k -> steps b Table.reserve_pid k.
Proof using Hk.
  intros Hr. eapply wp_mono; [apply reserve_pid_ok; [apply Hk|done]|]. intros pid k' (Hwf & _ & ->).
  destruct Hk as [_ Hi Hipc Hticks]. by split.
Qed.

Lemma request_path_steps images path arg mode : room k -> steps b (request_path_with_arg_and_mode images path arg mode) k.
Proof using Hk.
  intros Hr. unfold request_path_with_arg_and_mode. destruct (find_image images path) as [image|]; [|by apply steps_ret].
  destruct (from_path_total (default (Programs.default_arg_for (im_name image)) arg)) as (r & E).
  unfold steps, wp. run. rewrite E. destruct r as [a|e]; [|by apply kstep_refl].
  apply (steps_bind Table.reserve_pid); [by apply reserve_pid_steps|]. intros pid k' H.
  apply (steps_bind (with_programs _)); [|intros _ k4 H4; apply steps_ret, H4]. apply programs_steps; [done|apply H].
Qed.
End more.
