(* ===== verification/SyscallRules.v ===== *)
(** * Rules for system call handlers

    [sys_ok] is the state of the system between system calls: the loaded page
    table is that of a slot of the pool, the kernel's tables are good, the file
    systems keep their laws and every open descriptor is usable.  [returns m y]
    says that the handler [m] returns from [y], neither panicking nor faulting
    on user memory, leaves such a state, and has changed no byte of physical
    memory outside the frames of the loaded page table.  The rules follow the
    steps handlers are made of. *)

From S2P Require Import Prelude Utf8 Paths Vfs RamFs RamFsProofs FsLaws Ring3 Elf AddrSpace AddrSpaceProofs PageTables PageTablesProofs PrivateTables PrivateMem PrivateProcess UserAccess Threads Program Ipc IpcProofs Process TableSafety Current CurrentProofs Text TextProofs System Syscall UserMemory KernelSafety.

Section rules.
Context `{Laws : EntryLaws} {F : Type}.
Context (offset : Z) (m0 : memory) (active : Z) (parts : list (list Z)).
Context (mounts : list (Mount F)).
Context (good : F -> Prop) (off_ok : F -> VfsNodeId -> nat -> Prop).
Context (s : PreparedP4Slot).
Implicit Types y : System F.
Notation user_space := (user_space offset m0 active parts s).
Notation stored := (stored offset s).

Definition file_ok (f : F) (o : OpenFile) : Prop :=
  match of_descriptor o with
  | DFile t off => off_ok f (ot_node t) off
  | DDirectory p off => path_ok p /\ (off <= DIRECTORY_READ_BUFFER_SIZE)%nat
  | DPipeRead _ | DPipeWrite _ => True
  end.
Definition files_ok (f : F) (l : list (option OpenFile)) : Prop := Forall (slot_ok (file_ok f)) l.
Definition files_of y : list (option OpenFile) := ip_files (k_ipc (y_kernel y)).

Record sys_ok y : Prop := {
  so_space : user_space y;
  so_kernel : kernel_ok (y_kernel y);
  so_fs : good (y_fs y);
  so_files : files_ok (y_fs y) (files_of y);
  so_log : uart_wf (dv_log (y_devices y));
}.

(** With [b] the same thread stays on the processor. *)
Record after (b : bool) y y' : Prop := {
  af_ok : sys_ok y';
  af_memory : kept offset (slot_frames s) (memory_of y) (memory_of y');
  af_cr3 : y_cr3 y' = y_cr3 y;
  af_kernel_p4 : y_kernel_p4 y' = y_kernel_p4 y;
  af_ids : map slot_id (live_slots (pool_of y')) = map slot_id (live_slots (pool_of y));
  af_places : places (y_kernel y') = places (y_kernel y);
  af_cur : b = true -> cur (y_kernel y') = cur (y_kernel y);
}.

Lemma after_refl {b} y : sys_ok y -> after b y y.
Proof. intros H. by split. Qed.

Lemma after_trans {b} y1 y2 y3 : after b y1 y2 -> after b y2 y3 -> after b y1 y3.
Proof.
  intros [_ H1 H2 H6 H9 H7 H8] [H3 H4 H5 H6' H9' H7' H8']. split; [done|by eapply kept_trans|congruence..|]. intros Hb. rewrite H8', H8; done.
Qed.

Lemma after_any {b} y y' : after b y y' -> after false y y'.
Proof. by intros []; split. Qed.

Definition returns (b : bool) {A} (m : M (System F) A) y : Prop := wp m (fun _ y' => after b y y') y.

(** ** Changes of one part of the state *)

Lemma sys_program y : sys_ok y -> program_in_user_space (y_kernel y).
Proof. intros H p Hp. apply current_process_elem in Hp. apply (process_info _ p (ko_infos _ (so_kernel _ H)) Hp). Qed.

Lemma kernel_memory_after {b} y k' : sys_ok y -> kernel_ok k' -> addr_frozen (k_addr k') = addr_frozen (k_addr (y_kernel y)) ->
  bytes_ok (ad_mem (k_addr k')) -> kept offset (slot_frames s) (memory_of y) (ad_mem (k_addr k')) ->
  files_from (k_ipc (y_kernel y)) (k_ipc k') -> places k' = places (y_kernel y) -> (b = true -> cur k' = cur (y_kernel y)) ->
  after b y (y <| y_kernel := k' |>).
Proof.
  intros [Hu Hk Hf Hfiles Hlog] Hk' Ha Hb' Hkept Hfrom Hpl Hcur. pose proof (user_space_write offset m0 active parts s y _ Hu Hb' Hkept) as [[Hp Ho Hnz Hs Hwf Hc Hb] _].
  unfold addr_frozen in Ha. pose proof (f_equal snd Ha) as Hids. pose proof (f_equal (fun x => x.1.2) Ha) as Hov. cbn [fst snd] in *.
  split; [split; [split|done|done| |done]|done..].
  - apply (pool_state_ids offset m0 active parts (pool_of y)); [done|apply (ko_wf _ Hk')|done].
  - cbn. rewrite Hov. apply Hu.
  - done.
  - unfold pool_of. cbn. by rewrite Hids.
  - done.
  - done.
  - done.
  - unfold files_ok in *. rewrite Forall_forall in *. intros [f|] He; [|done]. apply Hfiles. by apply Hfrom.
Qed.

Lemma kernel_after {b} y k' : sys_ok y -> kstep b (y_kernel y) k' -> after b y (y <| y_kernel := k' |>).
Proof.
  intros Hy [Hk' [Ha Hm] Hfrom _ Hpl Hcur]. apply kernel_memory_after; [done|done|done| | |done..]; rewrite Hm;
    [apply (memory_bytes offset m0 active parts s y (so_space _ Hy))|apply kept_refl].
Qed.

Definition set_ipc (i : IpcState) y : System F := y <| y_kernel ::= (fun k => k <| k_ipc := i |>) |>.

Lemma ipc_after {b} y i : sys_ok y -> ipc_wf i -> files_ok (y_fs y) (ip_files i) -> after b y (set_ipc i y).
Proof.
  intros [[Hp Ho Hnz Hs Hwf Hc Hb] [Hkwf Hki _ Hkt] Hf Hfiles Hlog] Hi Hfi. split; [split; [by split|by split|done..]|apply kept_refl|done..].
Qed.

Lemma fs_after {b} y f : sys_ok y -> good f -> files_ok f (files_of y) -> after b y (y <| y_fs := f |>).
Proof.
  intros [[Hp Ho Hnz Hs Hwf Hc Hb] Hk Hf Hfiles Hlog] Hg Hfi. split; [split; [by split|done..]|apply kept_refl|done..].
Qed.

Lemma files_kept f f' l : offsets_kept off_ok f f' -> files_ok f l -> files_ok f' l.
Proof.
  unfold files_ok. rewrite !Forall_forall. intros Hk Hl [o|] He; [|done]. specialize (Hl _ He). cbn in *. unfold file_ok in *.
  destruct (of_descriptor o); [by apply Hk|done..].
Qed.

Lemma memory_after {b} y ptr bs m' : sys_ok y -> stored y ptr bs m' -> after b y (set_memory m' y).
Proof.
  intros H Hst. destruct (stored_space offset m0 active parts s y ptr bs m' (so_space _ H) Hst) as [Hu _].
  destruct H as [_ [[Hkt Hkp] Hki Hkipc Hkticks] Hf Hfiles Hlog]. split; [split; [done| |done..]|apply (sd_kept _ _ _ _ _ _ Hst)|done..]. by split.
Qed.

(** Parts of the state that the invariant says nothing about. *)
Lemma other_after {b} y y' : sys_ok y -> y_kernel y' = y_kernel y -> y_cr3 y' = y_cr3 y -> y_fs y' = y_fs y ->
  dv_log (y_devices y') = dv_log (y_devices y) -> y_kernel_p4 y' = y_kernel_p4 y -> after b y y'.
Proof.
  intros [[Hp Ho Hnz Hs Hwf Hc Hb] Hk Hf Hfiles Hlog] E1 E2 E3 E4 E5. split.
  - split; unfold files_of in *; rewrite ?E1, ?E3, ?E4; try done. split; unfold pool_of, memory_of in *; by rewrite ?E1, ?E2.
  - unfold memory_of. rewrite E1. apply kept_refl.
  - done.
  - done.
  - unfold pool_of. by rewrite E1.
  - by rewrite E1.
  - by rewrite E1.
Qed.

(** ** Sequencing *)

Lemma returns_ret {b} {A} (a : A) y : sys_ok y -> returns b (mret a) y.
Proof. apply after_refl. Qed.

Lemma returns_bind {b} {A B} (m : M (System F) A) (f : A -> M (System F) B) y :
  wp m (fun a y' => after b y y' /\ returns b (f a) y') y -> returns b (m ≫= f) y.
Proof.
  intros Hm. apply wp_bind. eapply wp_mono; [exact Hm|]. intros a y' [Ha Hf]. eapply wp_mono; [exact Hf|]. intros r y2. by apply after_trans.
Qed.

(** A part that reads the state only. *)
Lemma returns_read {b} {A B} (m : M (System F) A) a (f : A -> M (System F) B) y :
  m y = Done (a, y) -> returns b (f a) y -> returns b (m ≫= f) y.
Proof. intros E Hf. unfold returns, wp. run. rewrite E. exact Hf. Qed.

Lemma returns_try {b} {A B E} (m : M (System F) (result A E)) r (f : A -> M (System F) (result B E)) y :
  sys_ok y -> m y = Done (r, y) -> (forall a, r = Ok a -> returns b (f a) y) -> returns b (try a := m in f a) y.
Proof. intros Hy Er Hf. unfold returns, wp. run. rewrite Er. destruct r as [a|e]; [by apply Hf|by apply after_refl]. Qed.

Lemma returns_lift {b} {A B} (o : outcome A) (f : A -> M (System F) B) y :
  (exists a, o = Done a /\ returns b (f a) y) -> returns b (lift o ≫= f) y.
Proof. intros (a & -> & Hf). unfold returns, wp. run. exact Hf. Qed.

Lemma returns_kernel {b} {B} (f : Kernel -> M (System F) B) y : returns b (f (y_kernel y)) y -> returns b (kernel ≫= f) y.
Proof. done. Qed.

Lemma returns_ipc {b} {B} (f : IpcState -> M (System F) B) y : returns b (f (k_ipc (y_kernel y))) y -> returns b (ipc ≫= f) y.
Proof. done. Qed.

Lemma returns_get {b} {B} (f : System F -> M (System F) B) y : returns b (f y) y -> returns b (get ≫= f) y.
Proof. done. Qed.

Lemma returns_pid {b} {B} (f : Z -> M (System F) (result B SyscallError)) y : sys_ok y ->
  (forall pid, k_current_process (y_kernel y) = Some pid -> returns b (f pid) y) -> returns b (try pid := current_pid in f pid) y.
Proof.
  intros Hy Hf. eapply returns_try; [done|reflexivity|]. intros pid. destruct (k_current_process (y_kernel y)) as [p|] eqn:E; [|done].
  intros [= <-]. by apply Hf.
Qed.

(** A step of the kernel's tables. *)
Lemma returns_step_with {b} {A B} (m : M Kernel A) (Q : A -> Prop) (f : A -> M (System F) B) y : sys_ok y ->
  wp m (fun a k' => kstep b (y_kernel y) k' /\ Q a) (y_kernel y) ->
  (forall a k', kstep b (y_kernel y) k' -> Q a -> sys_ok (y <| y_kernel := k' |>) -> returns b (f a) (y <| y_kernel := k' |>)) ->
  returns b (with_kernel m ≫= f) y.
Proof.
  intros Hy Hm Hf. apply returns_bind. unfold wp, with_kernel. unfold wp in Hm. destruct (m (y_kernel y)) as [[a k']|]; [|done]. destruct Hm as [Hk Hq].
  pose proof (kernel_after (b := b) y k' Hy Hk) as Ha. split; [done|]. by apply Hf; [..|apply Ha].
Qed.

Lemma returns_step {b} {A B} (m : M Kernel A) (f : A -> M (System F) B) y : sys_ok y -> steps b m (y_kernel y) ->
  (forall a k', kstep b (y_kernel y) k' -> sys_ok (y <| y_kernel := k' |>) -> returns b (f a) (y <| y_kernel := k' |>)) ->
  returns b (with_kernel m ≫= f) y.
Proof.
  intros Hy Hm Hf. apply (returns_step_with m (fun _ => True)); [done| |intros a k' Hk _; by apply Hf]. eapply wp_mono; [exact Hm|]. done.
Qed.

Lemma with_kernel_returns {b} {A} (m : M Kernel A) y : sys_ok y -> steps b m (y_kernel y) -> returns b (with_kernel m) y.
Proof.
  intros Hy Hm. unfold returns, wp, with_kernel. unfold steps, wp in Hm. destruct (m (y_kernel y)) as [[a k']|]; [|done]. by apply kernel_after.
Qed.

(** A change of the tables of syscall.rs. *)
Lemma returns_modify_ipc {b} {B} g (f : () -> M (System F) B) y : sys_ok y -> ipc_wf (g (k_ipc (y_kernel y))) ->
  files_ok (y_fs y) (ip_files (g (k_ipc (y_kernel y)))) ->
  (sys_ok (set_ipc (g (k_ipc (y_kernel y))) y) -> returns b (f ()) (set_ipc (g (k_ipc (y_kernel y))) y)) -> returns b (modify_ipc g ≫= f) y.
Proof.
  intros Hy Hg Hfg Hf. pose proof (ipc_after (b := b) y _ Hy Hg Hfg) as Ha. apply returns_bind. change (after b y (set_ipc (g (k_ipc (y_kernel y))) y) /\ returns b (f ()) (set_ipc (g (k_ipc (y_kernel y))) y)).
  split; [done|]. apply Hf, Ha.
Qed.

Lemma returns_modify {b} {B} (g : System F -> System F) (f : () -> M (System F) B) y : sys_ok y ->
  y_kernel (g y) = y_kernel y -> y_cr3 (g y) = y_cr3 y -> y_fs (g y) = y_fs y -> dv_log (y_devices (g y)) = dv_log (y_devices y) -> y_kernel_p4 (g y) = y_kernel_p4 y ->
  (sys_ok (g y) -> returns b (f ()) (g y)) -> returns b (modify g ≫= f) y.
Proof.
  intros Hy E1 E2 E3 E4 E5 Hf. apply returns_bind. pose proof (other_after (b := b) y (g y) Hy E1 E2 E3 E4 E5) as Ha. split; [done|]. apply Hf, Ha.
Qed.

(** ** User memory *)

Lemma returns_checked {b} {B} ptr len access (f : UserRange -> M (System F) (result B SyscallError)) y : sys_ok y -> 0 <= ptr -> 0 <= len ->
  (range_ok offset access ptr len y -> returns b (f (mkRange ptr len (ptr + len) access)) y) ->
  returns b (try range := checked ptr len access in f range) y.
Proof.
  intros Hy Hp Hl Hf.
  destruct (checked_spec offset m0 active parts s y ptr len access (so_space _ Hy) (ko_wf _ (so_kernel _ Hy)) (sys_program _ Hy) Hp Hl) as (r & E & Hr).
  eapply returns_try; [done|exact E|]. intros range ->. destruct Hr as [-> Hr]. by apply Hf.
Qed.

Lemma returns_write_range {b} {B} ptr len (f : UserRange -> M (System F) (result B SyscallError)) y : sys_ok y -> 0 <= ptr -> 0 <= len ->
  (range_ok offset WriteAccess ptr len y -> returns b (f (mkRange ptr len (ptr + len) WriteAccess)) y) ->
  returns b (try range := user_write_range ptr len in f range) y.
Proof. apply returns_checked. Qed.

Lemma returns_bytes {b} {B} ptr len (f : bytes -> M (System F) (result B SyscallError)) y : sys_ok y -> 0 <= ptr -> 0 <= len ->
  (forall bs, length bs = Z.to_nat len -> Forall is_byte bs -> 0 < len -> returns b (f bs) y) -> returns b (try bs := read_user_bytes offset ptr len in f bs) y.
Proof.
  intros Hy Hp Hl Hf.
  destruct (read_user_bytes_spec offset m0 active parts s y (so_space _ Hy) (ko_wf _ (so_kernel _ Hy)) (sys_program _ Hy) ptr len Hp Hl) as (r & E & Hr).
  eapply returns_try; [done|exact E|]. intros bs ->. destruct Hr as [Hr ->].
  apply Hf; [by rewrite length_user_bytes|by eapply user_bytes_byte, so_space|apply (ro_len _ _ _ _ _ Hr)].
Qed.

Lemma returns_str {b} {B} ptr len (f : bytes -> M (System F) (result B SyscallError)) y : sys_ok y -> 0 <= ptr -> 0 <= len ->
  (forall text, utf8_valid text = true -> returns b (f text) y) -> returns b (try text := read_user_str offset ptr len in f text) y.
Proof.
  intros Hy Hp Hl Hf.
  destruct (read_user_str_spec offset m0 active parts s y (so_space _ Hy) (ko_wf _ (so_kernel _ Hy)) (sys_program _ Hy) ptr len Hp Hl) as (r & E & Hr).
  eapply returns_try; [done|exact E|]. intros bs ->. apply Hf, Hr.
Qed.

Lemma copy_returns {b} ptr len data y : sys_ok y -> 0 <= ptr -> returns b (copy_to_user_buffer offset ptr len data) y.
Proof.
  intros Hy Hp.
  destruct (copy_to_user_buffer_spec offset m0 active parts s y (so_space _ Hy) (ko_wf _ (so_kernel _ Hy)) (sys_program _ Hy) ptr len data Hp) as (r & y' & E & Hr).
  unfold returns, wp. rewrite E. destruct r as [n|e].
  - destruct Hr as (_ & _ & _ & m' & -> & Hs). by apply (memory_after y ptr data).
  - destruct Hr as (_ & -> & _). by apply after_refl.
Qed.

(** Storing where [y0] allowed it. *)
Lemma returns_store {b} {B} y0 ptr len bs (f : () -> M (System F) B) y : sys_ok y -> range_ok offset WriteAccess ptr len y0 ->
  memory_of y = memory_of y0 -> y_cr3 y = y_cr3 y0 -> Z.of_nat (length bs) <= len ->
  (forall m', sys_ok (set_memory m' y) -> returns b (f ()) (set_memory m' y)) -> returns b (store_bytes offset ptr bs ≫= f) y.
Proof.
  intros Hy Hr Em Ec Hn Hf. pose proof (ro_ptr _ _ _ _ _ Hr). pose proof (ro_end _ _ _ _ _ Hr). pose proof (ro_len _ _ _ _ _ Hr).
  destruct (store_bytes_spec offset m0 active parts s y bs (so_space _ Hy) ptr) as (m' & E & Hs); [lia|lia| |].
  { intros v Hv. unfold may_access. rewrite Em, Ec. apply (ro_may _ _ _ _ _ Hr). lia. }
  apply returns_bind. unfold wp. rewrite E. pose proof (memory_after (b := b) y ptr bs m' Hy Hs) as Ha. split; [done|]. apply Hf, Ha.
Qed.

Lemma returns_store_byte {b} {B} v c (f : () -> M (System F) B) y : sys_ok y -> user_address v -> may_access offset WriteAccess y v ->
  (forall m', sys_ok (set_memory m' y) -> (forall access w, may_access offset access (set_memory m' y) w <-> may_access offset access y w) ->
    returns b (f ()) (set_memory m' y)) -> returns b (store_byte offset v c ≫= f) y.
Proof.
  intros Hy Hv Hmay Hf. destruct (store_byte_spec offset m0 active parts s y v c (so_space _ Hy) Hv Hmay) as (m' & E & Hs).
  apply returns_bind. unfold wp. rewrite E. pose proof (memory_after (b := b) y v [c] m' Hy Hs) as Ha. split; [done|]. apply Hf; [apply Ha|].
  apply (stored_space offset m0 active parts s y v [c] m' (so_space _ Hy) Hs).
Qed.

(** [f(range.as_write_slice())] *)
Lemma returns_slice {b} {A B} ptr len end_ (g : bytes -> M (System F) (A * bytes)) (f : A -> M (System F) B) y :
  sys_ok y -> range_ok offset WriteAccess ptr len y ->
  (forall out, length out = Z.to_nat len -> wp (g out) (fun '(a, out') y1 =>
     after b y y1 /\ memory_of y1 = memory_of y /\ length out' = length out /\
     forall m', sys_ok (set_memory m' y1) -> returns b (f a) (set_memory m' y1)) y) ->
  returns b (with_slice offset (mkRange ptr len end_ WriteAccess) g ≫= f) y.
Proof.
  intros Hy Hr Hg. unfold returns, wp, with_slice. cbn [rg_ptr rg_len]. run.
  rewrite (read_range offset m0 active parts s y (so_space _ Hy) WriteAccess ptr len Hr).
  specialize (Hg _ (length_user_bytes offset s y ptr (Z.to_nat len))). unfold wp in Hg.
  destruct (g _ y) as [[[a out'] y1]|]; [|done]. destruct Hg as (Ha & Em & El & Hf). rewrite length_user_bytes in El.
  pose proof (ro_len _ _ _ _ _ Hr).
  pose proof (returns_store (b := b) y ptr len out' (fun _ => f a) y1 (af_ok _ _ _ Ha) Hr Em (af_cr3 _ _ _ Ha) ltac:(lia) Hf) as Hst.
  unfold returns, wp in Hst. run_in Hst. destruct (store_bytes offset ptr out' y1) as [[[] y2]|]; [|done].
  destruct (f a y2) as [[r y3]|]; [|done]. by apply (after_trans y y1).
Qed.

(** ** The file systems *)

Context {Fs : FsLaws mounts good off_ok}.

(** A call of the VFS: the offsets of open files stay valid. *)
Lemma returns_fs {b} {A B} (m : M F (result A FsError)) (f : A -> M (System F) (result B SyscallError)) y : sys_ok y ->
  wp m (fun r fs' => good fs' /\ files_ok fs' (files_of y) /\
    match r with Ok a => sys_ok (y <| y_fs := fs' |>) -> returns b (f a) (y <| y_fs := fs' |>) | Err _ => True end) (y_fs y) ->
  returns b (try a := fs_call m in f a) y.
Proof.
  intros Hy Hm. unfold returns, wp, fs_call, with_fs. run. unfold wp in Hm. destruct (m (y_fs y)) as [[r fs']|]; [|done].
  destruct Hm as (Hg & Hfo & Hr). pose proof (fs_after (b := b) y fs' Hy Hg Hfo) as Ha. destruct r as [a|e]; cbn [map_err]; [|done].
  pose proof (Hr (af_ok _ _ _ Ha)) as Hret. unfold returns, wp in Hret. destruct (f a _) as [[r' y2]|]; [|done]. by apply (after_trans _ (y <| y_fs := fs' |>)).
Qed.

Lemma returns_cwd {b} {B} (f : bytes -> M (System F) B) y : sys_ok y ->
  (forall cwd, utf8_valid cwd = true -> returns b (f cwd) y) -> returns b (current_cwd ≫= f) y.
Proof using.
  intros Hy Hf.
  assert (path_ok (default Path.root (Current.current_working_directory (y_kernel y)))) as (text & E & Hu).
  { unfold Current.current_working_directory. destruct (Current.current_process (y_kernel y)) as [p|] eqn:Ep; [|apply root_path_ok].
    apply current_process_elem in Ep. apply (io_cwd _ (process_info _ p (ko_infos _ (so_kernel _ Hy)) Ep)). }
  eapply returns_read; [|by apply (Hf text)]. unfold current_cwd, kernel. run. by rewrite E.
Qed.

(** A call of the VFS that fills a buffer. *)
Lemma fill_returns {b} ptr len (g : bytes -> M F (result nat FsError * bytes)) y : sys_ok y -> 0 <= ptr -> 0 <= len ->
  (forall out fs, good fs -> buffer_call (good := good) (off_ok := off_ok) (g out) out fs) -> returns b (fill_user_buffer offset ptr len g) y.
Proof using Laws.
  intros Hy Hp Hl Hg. unfold fill_user_buffer. apply returns_write_range; [done..|]. intros Hr.
  apply returns_slice; [done..|]. intros out _. specialize (Hg out (y_fs y) (so_fs _ Hy)). unfold buffer_call, wp in *. unfold with_fs.
  destruct (g out (y_fs y)) as [[[r out'] fs']|]; [|done]. destruct Hg as (Hgood & Hkept & Hlen & _).
  split_and!; [apply fs_after; [done|done|by eapply files_kept, (so_files _ Hy)]|done|done|].
  intros m' Hy'. by apply returns_ret.
Qed.
End rules.
