(* ===== verification/SyscallSafety.v ===== *)
(** * Every system call returns

    The handlers of user/syscall.rs one by one, and the dispatcher: from a good
    state of the system every call returns and leaves a good state, and no
    byte of physical memory outside the frames of the caller's page table
    changes. *)

From S2P Require Import Prelude Utf8 Paths Vfs RamFs RamFsProofs FsLaws Ring3 Elf AddrSpace AddrSpaceProofs PageTables PageTablesProofs PrivateTables PrivateMem PrivateProcess UserAccess Threads Program Ipc IpcProofs Process TableSafety Current CurrentProofs Text TextProofs System Syscall UserMemory KernelSafety SyscallRules.

Section handlers.
Context `{Laws : EntryLaws} {F : Type}.
Context (offset : Z) (m0 : memory) (active : Z) (parts : list (list Z)).
Context (mounts : list (Mount F)) (images : list UserlandImage).
Context (good : F -> Prop) (off_ok : F -> VfsNodeId -> nat -> Prop) {Fs : FsLaws mounts good off_ok}.
Context (s : PreparedP4Slot).
Implicit Types y : System F.
Notation sys_ok := (sys_ok offset m0 active parts good off_ok s).
Notation returns := (returns offset m0 active parts good off_ok s).
Notation after := (after offset m0 active parts good off_ok s).
Notation files_ok := (files_ok off_ok).
Notation file_ok := (file_ok off_ok).

(** The rule for the next step of a handler. *)
Ltac sys1 :=
  lazymatch goal with
  | |- returns _ (mret _) _ => apply returns_ret; assumption
  | |- returns _ invalid _ => apply returns_ret; assumption
  | |- returns _ (invalid ≫= _) _ => eapply returns_read; [reflexivity|]
  | |- returns _ (tryS (mret _) _) _ => eapply returns_try; [assumption|reflexivity|intros ? ?]
  | |- returns _ (tryS (read_user_str _ _ _) _) _ => apply returns_str; [assumption|lia|lia|intros ? ?]
  | |- returns _ (tryS (read_user_bytes _ _ _) _) _ => apply returns_bytes; [assumption|lia|lia|intros ? ? ? ?]
  | |- returns _ (tryS (user_write_range _ _) _) _ => apply returns_write_range; [assumption|lia|lia|intros ?]
  | |- returns _ (tryS (checked _ _ _) _) _ => apply returns_checked; [assumption|lia|lia|intros ?]
  | |- returns _ (tryS current_pid _) _ => apply returns_pid; [assumption|intros ? ?]
  | |- returns _ (current_cwd ≫= _) _ => apply returns_cwd; [assumption|intros ? ?]
  | |- returns _ (kernel ≫= _) _ => apply returns_kernel
  | |- returns _ (ipc ≫= _) _ => apply returns_ipc
  | |- returns _ (get ≫= _) _ => apply returns_get
  | |- returns _ (copy_to_user_buffer _ _ _ _) _ => apply copy_returns; [assumption|lia]
  | |- returns _ (match ?x with _ => _ end) _ => destruct x eqn:?
  | |- returns _ (with_kernel _ ≫= _) _ => apply returns_step; [assumption| |intros ? ? ? ?]
  | |- steps _ _ _ => solve [apply safe_steps; [intros ?; eauto with vantara|eapply so_kernel; eassumption]]
  end.
Ltac sys := cbv zeta; repeat (sys1; cbv beta iota zeta).

(** ** Information *)

Lemma uptime_returns {b} y ptr len : sys_ok y -> 0 <= ptr -> returns b (uptime_to_user offset ptr len) y.
Proof using Laws.
  intros Hy Hp. unfold uptime_to_user. sys. destruct (ko_ticks _ (so_kernel _ _ _ _ _ _ _ _ Hy)) as [Ht0 Ht].
  apply returns_lift. unfold uptime_ms. destruct (Z.leb_spec (k_ticks (y_kernel y) * 1000) u64_max); [|lia]. eexists. split; [done|].
  set (u := k_ticks (y_kernel y) * 1000 / TIMER_HZ).
  assert (0 <= u < 2 ^ 64) as Hu.
  { unfold u, TIMER_HZ. split; [apply Z.div_pos; lia|]. apply Z.div_lt_upper_bound; unfold u64_max in *; lia. }
  sys. destruct (format_u64_decimal_spec u (replicate 20 0) Hu) as (out & Ef & _ & Es); [rewrite length_replicate; done|].
  apply returns_lift. eexists. split; [exact Ef|]. apply returns_lift. eexists. split; [exact Es|]. sys.
Qed.

Lemma whoami_returns {b} y ptr len : sys_ok y -> 0 <= ptr -> returns b (whoami_to_user offset ptr len) y.
Proof using Laws.
  intros Hy Hp. unfold whoami_to_user. sys. apply returns_lift.
  assert (exists name, Credentials.username (current_credentials (y_kernel y)) = Done name) as (name & E).
  { unfold current_credentials, Current.current_user_credentials. destruct (Current.current_process (y_kernel y)) as [p|] eqn:Ep; [|by eexists].
    apply current_process_elem in Ep. apply (io_name _ (process_info _ p (ko_infos _ (so_kernel _ _ _ _ _ _ _ _ Hy)) Ep)). }
  exists name. split; [done|]. sys.
Qed.

Lemma listing_returns {b} y ptr len f : sys_ok y -> 0 <= ptr -> 0 <= len -> (forall out, buffer_filled f out) ->
  returns b (listing_to_user offset ptr len f) y.
Proof using Laws.
  intros Hy Hp Hl Hf. unfold listing_to_user. sys. apply returns_slice; [done..|]. intros out Ho.
  destruct (Hf out) as (n & out' & E & El). unfold wp. run. rewrite E. split_and!; [by apply after_refl|done|done|].
  intros m' Hy'. by apply after_refl.
Qed.

Lemma capped_filled f out : buffer_filled f out -> buffer_filled (capped f) out.
Proof using. intros (n & out' & E & El). unfold buffer_filled, capped. run. rewrite E. eauto. Qed.

Lemma within_filled f out : buffer_filled_within f out -> buffer_filled f out.
Proof using. intros (n & out' & E & El & _). by exists n, out'. Qed.

Lemma procs_returns {b} y ptr len : sys_ok y -> 0 <= ptr -> 0 <= len -> returns b (procs_to_user offset ptr len) y.
Proof using Laws.
  intros Hy Hp Hl. unfold procs_to_user. sys. apply listing_returns; [done..|]. intros out. apply capped_filled, write_processes_filled.
  destruct (so_kernel _ _ _ _ _ _ _ _ Hy) as [Hwf Hi _ _]. apply Forall_forall. intros p Hpr. split; [by apply (process_main (y_kernel y))|].
  apply (io_arg _ (process_info _ p Hi Hpr)).
Qed.

Lemma pci_returns {b} y ptr len : sys_ok y -> 0 <= ptr -> 0 <= len -> returns b (pci_list_to_user offset ptr len) y.
Proof using Laws.
  intros Hy Hp Hl. unfold pci_list_to_user. sys. apply listing_returns; [done..|]. intros out. apply capped_filled, within_filled, write_pci_filled.
Qed.

Lemma netdev_returns {b} y ptr len : sys_ok y -> 0 <= ptr -> 0 <= len -> returns b (netdev_list_to_user offset ptr len) y.
Proof using Laws.
  intros Hy Hp Hl. unfold netdev_list_to_user. sys. apply listing_returns; [done..|]. intros out. apply capped_filled, within_filled, write_network_filled.
Qed.

Lemma klog_returns {b} y ptr len : sys_ok y -> 0 <= ptr -> 0 <= len -> returns b (kernel_log_to_user offset ptr len) y.
Proof using Laws.
  intros Hy Hp Hl. unfold kernel_log_to_user. sys. apply listing_returns; [done..|]. intros out. apply within_filled, copy_recent_log_filled.
  apply (so_log _ _ _ _ _ _ _ _ Hy).
Qed.

Lemma driver_status_returns {b} y ptr len : sys_ok y -> 0 <= ptr -> 0 <= len -> returns b (driver_status_to_user offset ptr len) y.
Proof using Laws.
  intros Hy Hp Hl. unfold driver_status_to_user. sys. apply listing_returns; [done..|]. intros out. apply within_filled, write_statuses_filled.
Qed.

(** ** Threads *)

(** The table that is loaded is the one of the current process. *)
Definition own_table y : Prop := forall p f, Current.current_process (y_kernel y) = Some p ->
  as_p4_frame (pr_address_space p) = Some f -> (y_cr3 y).1 = f.

Lemma returns_entry {b} {B} entry (f : () -> M (System F) (result B SyscallError)) y : sys_ok y -> 0 <= entry ->
  (own_table y -> returns b (f ()) y) -> returns b (try u := check_entry entry in f u) y.
Proof using Laws.
  intros Hy He Hf. unfold check_entry, kernel. unfold returns, wp. run.
  destruct (Current.current_user_layout (y_kernel y)) as [layout|]; [|by apply after_refl].
  destruct (_ || _); [by apply after_refl|].
  destruct (checked_spec offset m0 active parts s y entry 1 ReadAccess (so_space _ _ _ _ _ _ _ _ Hy) (ko_wf _ (so_kernel _ _ _ _ _ _ _ _ Hy))
    (sys_program _ _ _ _ _ _ _ _ Hy) He ltac:(lia)) as (r & E & Hr).
  rewrite E. destruct r as [range|e]; [|by apply after_refl]. apply Hf. destruct Hr as [_ Hr]. intros p g Hp.
  apply (ro_table _ _ _ _ _ Hr p g). apply running_process_iff; [apply (ko_wf _ (so_kernel _ _ _ _ _ _ _ _ Hy))|exact Hp].
Qed.

Lemma clear_frames_kept frames (m : memory) : kept offset frames m (clear_frames offset frames m).
Proof using.
  intros x Hx. rewrite clear_frames_spec. destruct (existsb _ frames) eqn:E; [|done]. apply existsb_exists in E as (f & Hf & Hin).
  rewrite Forall_forall in Hx. exfalso. apply (Hx f); [by apply list_elem_of_In|]. unfold in_frame. bool_to_prop. lia.
Qed.

Lemma clear_frames_bytes frames (m : memory) : bytes_ok m -> bytes_ok (clear_frames offset frames m).
Proof using. intros Hm x. rewrite clear_frames_spec. destruct (existsb _ frames); [unfold is_byte; lia|apply Hm]. Qed.

(** A new thread with a stack of the pool: the stack is cleared. *)
Lemma managed_thread_returns {b} y entry arg : sys_ok y -> own_table y -> room (y_kernel y) ->
  returns b (with_kernel (Current.create_current_managed_user_thread entry arg)) y.
Proof using Laws.
  intros Hy Hown Hroom. pose proof (so_kernel _ _ _ _ _ _ _ _ Hy) as Hk. pose proof (so_space _ _ _ _ _ _ _ _ Hy) as Hu.
  unfold returns, wp, with_kernel, Current.create_current_managed_user_thread. run.
  destruct (k_current_process (y_kernel y)) as [pid|] eqn:Epid; [|by apply kernel_after, kstep_refl].
  pose proof (create_managed_user_thread_spec pid entry arg (y_kernel y) (ko_wf _ Hk) Hroom) as Hspec. unfold wp in Hspec.
  destruct (Table.create_managed_user_thread pid entry arg (y_kernel y)) as [[r k']|]; [|done].
  destruct Hspec as (Hwf & Hi & Hfr & Haddr).
  assert (k_ipc k' = k_ipc (y_kernel y) /\ k_ticks k' = k_ticks (y_kernel y)) as [Ei Et].
  { unfold frozen in Hfr. do 3 apply (f_equal fst) in Hfr. pose proof (f_equal snd Hfr) as Et. do 2 apply (f_equal fst) in Hfr. done. }
  assert (kernel_ok k') as Hk'.
  { destruct Hk as [_ Hki Hkipc Hkt]. split; [done|unfold infos_ok; by rewrite Hi|by rewrite Ei|by rewrite Et]. }
  assert (bytes_ok (memory_of y)) as Hb by apply (memory_bytes offset m0 active parts s y Hu).
  pose proof (frozen_cur _ _ Hfr) as Hcur.
  apply kernel_memory_after; [done|done| | | |by rewrite Ei|by rewrite !places_infos, Hi|by intros _].
  all: destruct Haddr as [->|(p4 & Ep4 & _ & He)]; [solve [done|apply kept_refl]|].
  all: destruct He as [Hfrz Hmem]; [rewrite (us_offset _ _ _ _ _ _ Hu); apply (us_nonzero _ _ _ _ _ _ Hu)|].
  - done.
  - destruct Hmem as [->|(slot & i & frames & _ & _ & _ & ->)]; [done|]. rewrite (us_offset _ _ _ _ _ _ Hu). by apply clear_frames_bytes.
  - destruct Hmem as [->|(slot & i & frames & Hin & Hp & Hfr' & ->)]; [apply kept_refl|]. rewrite (us_offset _ _ _ _ _ _ Hu).
    eapply kept_mono; [|apply clear_frames_kept].
    assert (p4 = sl_p4_frame s) as ->.
    { unfold Table.p4_frame_for in Ep4. destruct (find_process (y_kernel y) pid) as [p|] eqn:Ep; [|done]. cbn in Ep4.
      rewrite <-(us_cr3 _ _ _ _ _ _ Hu). symmetry. apply (Hown p); [|done]. unfold Current.current_process. by rewrite Epid. }
    destruct (user_space_slot offset m0 active parts s y Hu) as (t & s' & Hs' & Hss & _ & _).
    assert (slot = s') as -> by (apply (owned_unique (pool_of y) (sl_p4_frame s)); [apply (proj2 (ko_wf _ Hk))|done..|symmetry; apply Hss]).
    rewrite (same_slot_frames s s' Hss). unfold slot_frames. intros f Hf. apply elem_of_app. right.
    apply list_elem_of_In, in_concat. exists frames. split; [|by apply list_elem_of_In]. apply list_elem_of_In. by apply list_elem_of_lookup_2 in Hfr'.
Qed.

Lemma spawn_returns {b} y entry arg : sys_ok y -> 0 <= entry -> room (y_kernel y) -> returns b (spawn_user_thread entry arg) y.
Proof using Laws.
  intros Hy He Hr. apply returns_entry; [done..|]. intros Hown. apply returns_bind.
  eapply wp_mono; [by apply (managed_thread_returns (b := b) y entry arg)|]. intros r y' Ha. split; [done|]. by apply returns_ret, Ha.
Qed.

Lemma join_returns {b} y frame : sys_ok y -> returns b (join_user_thread frame) y.
Proof using Laws.
  intros Hy. unfold join_user_thread. sys. apply join_current_thread_steps. by eapply so_kernel.
Qed.

Lemma create_user_thread_returns {b} y entry ptr len arg : sys_ok y -> 0 <= entry -> 0 <= ptr -> room (y_kernel y) ->
  returns b (Syscall.create_user_thread entry ptr len arg) y.
Proof using Laws.
  intros Hy He Hp Hr. unfold Syscall.create_user_thread. sys.
  assert (0 <= len) as Hlen by (bool_to_prop; unfold MIN_USER_THREAD_STACK_SIZE in *; lia).
  apply returns_entry; [done..|]. intros _. sys. apply create_current_user_thread_steps; [by eapply so_kernel|done|].
  match goal with H : u64_checked_add _ _ = Some _ |- _ => unfold u64_checked_add, checked_add_to in H; case_match; [|done]; injection H as <- end.
  match goal with H : range_ok _ _ _ _ _ |- _ => apply (ro_end _ _ _ _ _ H) end.
Qed.

Lemma yield_returns y frame : sys_ok y -> switches (y_kernel y) < u64_max -> y_yields y < u64_max -> returns false (user_yield frame) y.
Proof using Laws.
  intros Hy Hs Hyields. unfold user_yield. sys.
  { destruct (Z.eqb_spec (y_yields y) u64_max); [lia|done]. }
  apply returns_modify; [done..|]. intros Hy1. sys.
  - apply record_current_thread_yield_steps; [by eapply so_kernel|done].
  - apply consume_preempt_steps. by eapply so_kernel.
  - apply checkout_yielded_steps. by eapply so_kernel.
Qed.

Lemma sleep_returns {b} y frame : sys_ok y -> returns b (sleep_current_user frame) y.
Proof using Laws.
  intros Hy. unfold sleep_current_user. sys. apply mark_current_user_sleeping_steps. by eapply so_kernel.
Qed.

(** ** Files *)

Lemma list_dir_returns {b} y p n ptr len : sys_ok y -> 0 <= p -> 0 <= n -> 0 <= ptr -> 0 <= len ->
  returns b (list_dir_to_user offset mounts p n ptr len) y.
Proof using Laws Fs.
  intros Hy ? ? ? ?. unfold list_dir_to_user. sys. apply fill_returns; [done..|]. intros out fs Hg. by apply list_to_buffer_ok.
Qed.

Lemma read_file_returns {b} y p n ptr len : sys_ok y -> 0 <= p -> 0 <= n -> 0 <= ptr -> 0 <= len ->
  returns b (read_file_to_user offset mounts p n ptr len) y.
Proof using Laws Fs.
  intros Hy ? ? ? ?. unfold read_file_to_user. sys. apply fill_returns; [done..|]. intros out fs Hg. by apply read_to_buffer_ok.
Qed.

(** A lookup through the VFS. *)
Lemma returns_lookup {b} {A B} (m : M F (result A FsError)) (Q : F -> A -> Prop) (f : A -> M (System F) (result B SyscallError)) y : sys_ok y ->
  wp m (lookup_ok mounts (good := good) (off_ok := off_ok) Q (y_fs y)) (y_fs y) ->
  (forall a fs', m (y_fs y) = Done (Ok a, fs') -> Q fs' a -> sys_ok (y <| y_fs := fs' |>) -> returns b (f a) (y <| y_fs := fs' |>)) ->
  returns b (try a := fs_call m in f a) y.
Proof using.
  intros Hy Hm Hf. apply returns_fs; [done|]. unfold wp in *. destruct (m (y_fs y)) as [[r fs']|] eqn:E; [|done].
  destruct Hm as (Hg & Hk & _ & Hr). split; [done|]. split; [by eapply files_kept, (so_files _ _ _ _ _ _ _ _ Hy)|]. destruct r; eauto.
Qed.

Lemma stat_returns {b} y p n ptr len : sys_ok y -> 0 <= p -> 0 <= n -> 0 <= ptr -> returns b (stat_to_user offset mounts p n ptr len) y.
Proof using Laws Fs.
  intros Hy ? ? ?. unfold stat_to_user. sys.
  eapply returns_lookup; [done|apply stat_from_ok; [done..|apply (so_fs _ _ _ _ _ _ _ _ Hy)]|]. intros st fs' _ _ Hy'. sys.
Qed.

Lemma getcwd_returns {b} y ptr len : sys_ok y -> 0 <= ptr -> returns b (getcwd_to_user offset ptr len) y.
Proof using Laws. intros Hy ?. unfold getcwd_to_user. sys. Qed.

Lemma set_user_returns {b} y p n : sys_ok y -> 0 <= p -> 0 <= n -> returns b (Syscall.set_current_user offset p n) y.
Proof using Laws.
  intros Hy ? ?. unfold Syscall.set_current_user. sys.
  match goal with |- returns _ (lift (Credentials.trim_ascii_spaces ?t) ≫= _) _ => destruct (trim_spec t) as (t' & E & _) end.
  apply returns_lift. exists t'. split; [done|]. sys; (apply set_current_user_credentials_steps; by eapply so_kernel).
Qed.

Lemma chdir_returns {b} y p n : sys_ok y -> 0 <= p -> 0 <= n -> returns b (chdir_user offset mounts p n) y.
Proof using Laws Fs.
  intros Hy ? ?. unfold chdir_user. sys. rename text into path, H1 into Hpath.
  apply returns_bind. unfold change_current_working_directory, kernel, wp. run.
  pose proof (so_kernel _ _ _ _ _ _ _ _ Hy) as Hk. pose proof (after_refl (b := b) _ _ _ _ _ _ _ _ Hy) as Hr.
  destruct (k_current_process (y_kernel y)) as [pid|]; [|split; [done|by apply returns_ret]].
  assert (path_ok (default Path.root (Table.cwd_for (y_kernel y) pid))) as (cwd & Ec & Hcwd).
  { unfold Table.cwd_for. destruct (find_process (y_kernel y) pid) as [q|] eqn:Eq; [|apply root_path_ok].
    apply find_process_in in Eq. apply (io_cwd _ (process_info _ q (ko_infos _ Hk) Eq)). }
  rewrite Ec. destruct (normalize_path_ok cwd path Hcwd Hpath) as (r & En & Hn). rewrite En.
  destruct r as [next|e]; [|split; [done|by apply returns_ret]]. pose proof Hn as (text & Et & Htext). rewrite Et. unfold with_fs, stat.
  pose proof (stat_from_ok mounts [SLASH] text (y_fs y) eq_refl Htext (so_fs _ _ _ _ _ _ _ _ Hy)) as Hs. unfold wp in Hs.
  destruct (stat_from _ _ _ _) as [[r fs']|]; [|done]. destruct Hs as (Hg & Hkept & _ & _).
  assert (after b y (y <| y_fs := fs' |>)) as Ha by (apply fs_after; [done..|by eapply files_kept, (so_files _ _ _ _ _ _ _ _ Hy)]).
  pose proof (af_ok _ _ _ _ _ _ _ _ _ _ Ha) as Hy'. destruct r as [st|e]; [|split; [done|by apply returns_ret]]. destruct (negb _); [split; [done|by apply returns_ret]|].
  pose proof (with_kernel_returns (b := b) _ _ _ _ _ _ _ _ _ Hy' (set_cwd_steps _ Hk pid next Hn)) as Hset. unfold returns, wp in Hset.
  destruct (with_kernel (Table.set_cwd pid next) _) as [[b' y']|]; [|done]. split; [by eapply after_trans|]. apply returns_ret, Hset.
Qed.

Lemma install_returns {b} y d : sys_ok y -> (forall pid fd, file_ok (y_fs y) (mkOpen pid fd d)) -> returns b (install d) y.
Proof using Laws.
  intros Hy Hd. unfold install. sys. pose proof (ko_ipc _ (so_kernel _ _ _ _ _ _ _ _ Hy)) as [? ? ?].
  apply returns_modify_ipc; [done|by split| |intros Hy'; sys].
  apply slots_upd; [apply (so_files _ _ _ _ _ _ _ _ Hy)|]. intros e _. apply Hd.
Qed.

Lemma target_descriptor y t pid fd : target_ok (off_ok := off_ok) (y_fs y) t -> file_ok (y_fs y) (mkOpen pid fd (descriptor_for_target t)).
Proof using.
  intros [Hp Ht]. unfold SyscallRules.file_ok, descriptor_for_target. cbn. destruct (ot_file_type t); [by apply Ht|split; [done|lia]].
Qed.

Lemma open_returns {b} y p n : sys_ok y -> 0 <= p -> 0 <= n -> returns b (open_file offset mounts p n) y.
Proof using Laws Fs.
  intros Hy ? ?. unfold open_file. sys.
  eapply returns_lookup; [done|apply open_from_ok; [done..|apply (so_fs _ _ _ _ _ _ _ _ Hy)]|]. intros t fs' _ Ht Hy'.
  apply install_returns; [done|]. intros pid fd. by apply target_descriptor.
Qed.

Lemma create_returns {b} y p n : sys_ok y -> 0 <= p -> 0 <= n -> returns b (create_file offset mounts p n) y.
Proof using Laws Fs.
  intros Hy ? ?. unfold create_file. sys. apply returns_fs; [done|].
  eapply wp_mono; [apply (create_from_ok mounts cwd text (y_fs y) H2 H1 (so_fs _ _ _ _ _ _ _ _ Hy))|].
  intros r fs' (Hg & Hkept & Hr). split; [done|]. split; [by eapply files_kept, (so_files _ _ _ _ _ _ _ _ Hy)|].
  destruct r as [t|]; [|done]. intros Hy'. apply install_returns; [done|]. intros pid fd. apply Hr.
Qed.

(** The file that goes is open nowhere. *)
Lemma not_open_files_ok node files fs fs' : files_ok fs files -> node_open node files = false ->
  (forall n off, n <> node -> off_ok fs n off -> off_ok fs' n off) -> files_ok fs' files.
Proof using.
  unfold SyscallRules.files_ok. rewrite !Forall_forall. intros Hf Hn Hk [o|] He; [|done]. specialize (Hf _ He). cbn in *.
  unfold SyscallRules.file_ok in *. destruct (of_descriptor o) as [t off| | |] eqn:Ed; try done. apply Hk; [|done]. intros <-.
  apply not_true_iff_false in Hn. apply Hn. apply existsb_exists. exists (Some o). split; [by apply list_elem_of_In|]. rewrite Ed.
  unfold VfsNodeId_eqb. by rewrite !Z.eqb_refl.
Qed.

Lemma unlink_returns {b} y p n : sys_ok y -> 0 <= p -> 0 <= n -> returns b (unlink_file offset mounts p n) y.
Proof using Laws Fs.
  intros Hy ? ?. unfold unlink_file. sys.
  eapply returns_lookup; [done|apply open_from_ok; [done..|apply (so_fs _ _ _ _ _ _ _ _ Hy)]|]. intros t fs1 E Ht Hy1.
  sys. apply returns_fs; [done|].
  eapply wp_mono; [apply (unlink_from_ok mounts cwd text t (y_fs y) fs1 H2 H1 (so_fs _ _ _ _ _ _ _ _ Hy) E)|].
  intros r fs' [Hg Hk]. split; [done|]. split; [by apply (not_open_files_ok (ot_node t) _ fs1); [apply (so_files _ _ _ _ _ _ _ _ Hy1)|..]|].
  destruct r; [|done]. intros Hy'. sys.
Qed.

(** Calls of the VFS that keep every offset. *)
Lemma fs_kept_returns {b} {A} (m : M F (result A FsError)) y : sys_ok y ->
  wp m (fun _ fs' => good fs' /\ offsets_kept off_ok (y_fs y) fs') (y_fs y) -> returns b (try _ := fs_call m in mret (Ok 0)) y.
Proof using.
  intros Hy Hm. apply returns_fs; [done|]. eapply wp_mono; [exact Hm|]. intros r fs' [Hg Hk]. split; [done|].
  split; [by eapply files_kept, (so_files _ _ _ _ _ _ _ _ Hy)|]. destruct r; [|done]. intros Hy'. sys.
Qed.

Lemma mkdir_returns {b} y p n : sys_ok y -> 0 <= p -> 0 <= n -> returns b (mkdir_user offset mounts p n) y.
Proof using Laws Fs.
  intros Hy ? ?. unfold mkdir_user. sys. apply fs_kept_returns; [done|]. apply mkdir_from_ok; [done..|apply (so_fs _ _ _ _ _ _ _ _ Hy)].
Qed.

Lemma rmdir_returns {b} y p n : sys_ok y -> 0 <= p -> 0 <= n -> returns b (rmdir_user offset mounts p n) y.
Proof using Laws Fs.
  intros Hy ? ?. unfold rmdir_user. sys. apply fs_kept_returns; [done|]. apply rmdir_from_ok; [done..|apply (so_fs _ _ _ _ _ _ _ _ Hy)].
Qed.

Lemma rename_returns {b} y p n q l : sys_ok y -> 0 <= p -> 0 <= n -> 0 <= q -> 0 <= l -> returns b (rename_file offset mounts p n q l) y.
Proof using Laws Fs.
  intros Hy ? ? ? ?. unfold rename_file. sys. apply fs_kept_returns; [done|]. apply rename_from_ok; [done..|apply (so_fs _ _ _ _ _ _ _ _ Hy)].
Qed.

(** ** Descriptors *)

Lemma find_slot {A} (P : A -> Prop) q (l : list (option A)) x : Forall (slot_ok P) l -> List.find q l = Some (Some x) -> P x.
Proof using. rewrite Forall_forall. intros Hl [Hx _]%find_Some. by apply (Hl (Some x)). Qed.

Lemma open_file_ok y pid fd d : sys_ok y -> find_open pid fd (k_ipc (y_kernel y)) = Some d -> forall pid fd, file_ok (y_fs y) (mkOpen pid fd d).
Proof using.
  intros Hy. unfold find_open. destruct (List.find _ _) as [[f|]|] eqn:E; [|done..]. intros [= <-] pid' fd'.
  exact (find_slot _ _ _ _ (so_files _ _ _ _ _ _ _ _ Hy) E).
Qed.

Lemma returns_set_open {b} {B} pid fd d (f : () -> M (System F) B) y : sys_ok y -> (forall pid fd, file_ok (y_fs y) (mkOpen pid fd d)) ->
  (forall y', sys_ok y' -> returns b (f ()) y') -> returns b (set_open pid fd d ≫= f) y.
Proof using Laws.
  intros Hy Hd Hf. unfold set_open. pose proof (ko_ipc _ (so_kernel _ _ _ _ _ _ _ _ Hy)) as [? ? ?].
  apply returns_modify_ipc; [done|by split| |by apply Hf].
  apply slots_upd; [apply (so_files _ _ _ _ _ _ _ _ Hy)|]. intros [e|]; [|done]. intros _. apply Hd.
Qed.

Lemma on_pipe_ok {b} {A} pipe_id pid (m : M Pipe (result nat SyscallError * A)) a (P : result nat SyscallError * A -> Prop) y : sys_ok y ->
  (forall p, pipe_wf p -> wp m (fun r p' => pipe_wf p' /\ P r) p) -> P (Err InvalidArgument, a) ->
  wp (on_pipe pipe_id pid m a) (fun r y' => after b y y' /\ memory_of y' = memory_of y /\ P r) y.
Proof using Laws.
  intros Hy Hm Ha. unfold wp, on_pipe, ipc. run. pose proof (ko_ipc _ (so_kernel _ _ _ _ _ _ _ _ Hy)) as [Hp He Hq].
  destruct (List.find _ _) as [[p|]|] eqn:E; [|split; [by apply after_refl|done]..].
  specialize (Hm p (find_slot _ _ _ _ Hp E)). unfold wp in Hm. destruct (m p) as [[r p']|]; [|done]. destruct Hm as [Hp' Hr].
  split; [|done]. apply (ipc_after offset m0 active parts good off_ok s y); [done| |apply (so_files _ _ _ _ _ _ _ _ Hy)].
  split; [|done..]. by apply slots_upd.
Qed.

Lemma write_pipe_returns {b} y fd source : sys_ok y -> returns b (write_pipe fd source) y.
Proof using Laws.
  intros Hy. unfold write_pipe. sys. apply returns_bind. eapply wp_mono; [apply (on_pipe_ok (b := b) _ _ _ _ (fun _ => True) _ Hy); [|done]|].
  - intros p Hp. apply wp_bind. eapply wp_mono; [by apply pipe_write_ok|]. done.
  - intros r y' (Ha & _). split; [done|]. apply returns_ret, Ha.
Qed.

Lemma write_descriptor_returns {b} y fd source : sys_ok y -> Forall is_byte source -> returns b (write_descriptor mounts fd source) y.
Proof using Laws Fs.
  intros Hy Hb. unfold write_descriptor. sys; [|by apply write_pipe_returns].
  pose proof (open_file_ok _ _ _ _ Hy Heqo 0 0) as Hfile. cbn in Hfile. apply returns_fs; [done|].
  eapply wp_mono; [apply (write_node_ok mounts _ _ source (y_fs y) (so_fs _ _ _ _ _ _ _ _ Hy) Hb Hfile)|].
  intros r fs' (Hg & Hk & Hr). split; [done|]. split; [by eapply files_kept, (so_files _ _ _ _ _ _ _ _ Hy)|].
  destruct r as [n|]; [|done]. intros Hy'. apply returns_set_open; [done|done|]. intros y2 Hy2. sys.
Qed.

Lemma write_returns {b} y fd ptr len : sys_ok y -> 0 <= ptr -> 0 <= len -> returns b (write_user_buffer offset mounts fd ptr len) y.
Proof using Laws Fs.
  intros Hy ? ?. unfold write_user_buffer. sys.
  - pose proof (write_descriptor_returns (b := b) y fd bs Hy ltac:(done)) as Hw. unfold returns, wp in *. run. destruct (write_descriptor _ fd bs y) as [[[n|e] y']|]; done.
  - apply returns_modify; [done..|]. intros Hy'. sys.
Qed.

Lemma stdin_loop_returns {b} n ptr len : 0 <= ptr -> ptr + len <= USER_END -> forall y count, sys_ok y ->
  (forall v, ptr <= v < ptr + len -> may_access offset WriteAccess y v) -> 0 <= count -> count + Z.of_nat n <= len ->
  returns b (stdin_loop offset n ptr count) y.
Proof using Laws.
  intros Hp He. induction n as [|n IH]; intros y count Hy Hr H0 Hn; cbn [stdin_loop]; [sys|]. sys.
  apply returns_modify; [done..|]. intros Hy1. apply returns_store_byte; [done|unfold user_address, USER_END in *; lia|apply Hr; lia|].
  intros m' Hy2 Hmay. sys. apply IH; [done| |lia|lia]. intros v Hv. apply Hmay. by apply Hr.
Qed.

Lemma stdin_returns {b} y ptr len : sys_ok y -> 0 <= ptr -> 0 <= len -> returns b (read_stdin_to_user offset ptr len) y.
Proof using Laws.
  intros Hy ? ?. unfold read_stdin_to_user. sys. match goal with H : range_ok _ _ _ _ _ |- _ => destruct H end. by apply (stdin_loop_returns _ ptr len); try lia.
Qed.

Lemma read_fd_returns {b} y fd ptr len : sys_ok y -> 0 <= ptr -> 0 <= len -> returns b (read_fd_to_user offset mounts fd ptr len) y.
Proof using Laws Fs.
  intros Hy ? ?. unfold read_fd_to_user. sys.
  - by apply stdin_returns.
  - pose proof (open_file_ok _ _ _ _ Hy Heqo 0 0) as Hfile. cbn in Hfile. apply returns_slice; [done..|]. intros out _.
    pose proof (read_node_ok mounts _ _ out (y_fs y) (so_fs _ _ _ _ _ _ _ _ Hy) Hfile) as Hrd. unfold wp, with_fs in *.
    destruct (read_node mounts _ _ out (y_fs y)) as [[[r out'] fs']|]; [|done]. destruct Hrd as (Hg & Hk & Hl & Hr).
    split_and!; [apply fs_after; [done|done|by eapply files_kept, (so_files _ _ _ _ _ _ _ _ Hy)]|done|done|].
    intros m' Hy'. destruct r as [c|]; [|sys]. apply returns_set_open; [done|intros; apply Hr|]. intros y2 Hy2. sys.
  - destruct (open_file_ok _ _ _ _ Hy Heqo 0 0) as [Hpath Hoff]. pose proof Hpath as (text & Et & Htext). apply returns_lift. exists text. split; [done|].
    apply returns_bind. unfold wp, with_fs.
    pose proof (list_to_buffer_ok mounts [SLASH] text (replicate DIRECTORY_READ_BUFFER_SIZE 0) (y_fs y) eq_refl Htext (so_fs _ _ _ _ _ _ _ _ Hy)) as Hlist.
    unfold buffer_call, wp in Hlist. destruct (list_to_buffer mounts [SLASH] text _ (y_fs y)) as [[[r listing] fs']|]; [|done].
    destruct Hlist as (Hg & Hk & Hl & Hr). rewrite length_replicate in *.
    pose proof (fs_after (b := b) offset m0 active parts good off_ok s y fs' Hy Hg ltac:(by eapply files_kept, (so_files _ _ _ _ _ _ _ _ Hy))) as Ha. split; [done|].
    destruct r as [n|]; [|by apply returns_ret, Ha]. cbv zeta. set (count := Nat.min _ _).
    apply returns_lift. eexists. split; [apply slice_ok; lia|].
    apply returns_slice; [apply Ha|by apply (range_ok_ext _ _ _ _ y)|]. intros out Ho. unfold wp. run. rewrite copy_slice_ok; [|lia|rewrite length_take, length_drop; lia].
    split_and!; [by apply after_refl, Ha|done|rewrite !length_app, length_take, length_take, !length_drop; lia|].
    intros m' Hy'. apply returns_set_open; [done|intros; split; [done|lia]|]. intros y2 Hy2. by apply after_refl.
  - apply returns_slice; [done..|]. intros out _. unfold read_pipe.
    eapply wp_mono; [apply (on_pipe_ok (b := b) _ _ _ _ (fun r => length r.2 = length out) _ Hy); [|done]|].
    + intros p Hp. by apply pipe_read_ok.
    + intros [r out'] y1 (Ha & Em & Hl). split_and!; [done|done|done|]. intros m' Hy'. sys.
Qed.

Lemma close_fd_returns {b} y fd : sys_ok y -> returns b (close_fd fd) y.
Proof using Laws.
  intros Hy. unfold close_fd. sys. pose proof (so_kernel _ _ _ _ _ _ _ _ Hy) as Hk.
  pose proof (with_kernel_returns (b := b) _ _ _ _ _ _ _ _ y Hy (ipc_steps _ _ Hk (close_fd_for_pid_wf pid fd _ (ko_ipc _ Hk)))) as Hc.
  unfold returns, wp in *. run. unfold Syscall.with_ipc. destruct (with_kernel _ y) as [[[u|e] y']|]; done.
Qed.

Lemma slots_insert {A} (P : A -> Prop) i x l : Forall (slot_ok P) l -> slot_ok P x -> Forall (slot_ok P) (<[i := x]> l).
Proof using. intros Hl Hx. by apply Forall_insert. Qed.

Lemma create_pipe_returns {b} y ptr len : sys_ok y -> 0 <= ptr -> returns b (create_pipe offset ptr len) y.
Proof using Laws.
  intros Hy ?. unfold create_pipe. sys. pose proof (ko_ipc _ (so_kernel _ _ _ _ _ _ _ _ Hy)) as [Hpi Hev Hqu].
  pose proof (so_files _ _ _ _ _ _ _ _ Hy) as Hfi.
  all: apply returns_modify_ipc; [done|by split|done|intros Hy1]; sys.
  apply returns_modify_ipc; [done| | |intros Hy2].
  - split; [|done..]. apply slots_upd; [done|]. intros e _. apply pipe_new_wf.
  - apply slots_insert; [apply slots_insert; [done|done]|done].
  - apply (returns_store _ _ _ _ _ _ _ y ptr 16); [done|done|done|done|rewrite length_app, !length_le_bytes; lia|]. intros m' Hy3. sys.
Qed.

(** ** Events *)

Lemma event_of y handle pid e : sys_ok y -> find_event handle pid (k_ipc (y_kernel y)) = Some e -> exists ts, event_wf e ts.
Proof using.
  intros Hy. unfold find_event. destruct (List.find _ _) as [[e'|]|] eqn:E; [|done..]. intros [= ->].
  exact (find_slot _ _ _ _ (iw_events _ (ko_ipc _ (so_kernel _ _ _ _ _ _ _ _ Hy))) E).
Qed.

Lemma returns_put_event {b} {B} handle pid e (f : () -> M (System F) B) y : sys_ok y -> slot_ok (fun e => exists ts, event_wf e ts) e ->
  (forall y', sys_ok y' -> y_kernel y' = y_kernel y <| k_ipc := k_ipc (y_kernel y') |> -> returns b (f ()) y') -> returns b (put_event handle pid e ≫= f) y.
Proof using Laws.
  intros Hy He Hf. pose proof (ko_ipc _ (so_kernel _ _ _ _ _ _ _ _ Hy)) as [? ? ?].
  apply returns_modify_ipc; [done| |apply (so_files _ _ _ _ _ _ _ _ Hy)|intros Hy'; by apply Hf]. split; [done| |done]. by apply slots_upd.
Qed.

Lemma create_event_returns {b} y : sys_ok y -> returns b create_event y.
Proof using Laws.
  intros Hy. unfold create_event. sys. pose proof (ko_ipc _ (so_kernel _ _ _ _ _ _ _ _ Hy)) as [Hpi Hev Hqu].
  pose proof (so_files _ _ _ _ _ _ _ _ Hy) as Hfi. apply returns_modify_ipc; [done|by split|done|intros Hy1]; sys.
  apply returns_modify_ipc; [done| |done|intros Hy2; sys]. split; [done| |done]. apply slots_upd; [done|]. intros e _. eexists. apply event_new_wf.
Qed.

Lemma signaled_wf e ts b : event_wf e ts -> event_wf (e <| ev_signaled := b |>) ts.
Proof using. intros [? ? ? ?]. by split. Qed.

Lemma wait_event_returns {b} y handle frame : sys_ok y -> returns b (wait_event handle frame) y.
Proof using Laws.
  intros Hy. unfold wait_event. sys.
  - destruct (event_of _ _ _ _ Hy Heqo) as [ts Hts]. apply returns_put_event; [done|exists ts; by apply signaled_wf|]. intros y1 Hy1 _. sys.
  - destruct (event_of _ _ _ _ Hy Heqo) as [ts Hts]. destruct (enqueue_ok e ts a Hts) as (added & e' & E & He').
    apply returns_lift. eexists. split; [exact E|]. cbv beta iota.
    assert (exists ts', event_wf e' ts') as [ts' Hts'] by (destruct (_ || _); [destruct He' as [_ ->]; eauto|destruct He'; eauto]).
    apply returns_put_event; [done|by exists ts'|]. intros y1 Hy1 _. sys.
    + apply block_current_thread_steps. by eapply so_kernel.
    + destruct (remove_ok e' ts' a Hts') as (e2 & E2 & He2). apply returns_lift. eexists. split; [exact E2|]. cbv beta iota.
      apply returns_put_event; [done|by eexists|]. intros y2 Hy2 _. sys.
Qed.

(** The loop ends: every round takes one waiter out. *)
Lemma signal_loop_returns {b} handle pid : forall fuel e ts y, (length ts < fuel)%nat -> event_wf e ts -> sys_ok y ->
  returns b (signal_loop fuel handle pid e) y.
Proof using Laws.
  induction fuel as [|fuel IH]; intros e ts y Hlen He Hy; [lia|]. cbn [signal_loop].
  destruct (dequeue_ok e ts He) as (e' & E & He'). apply returns_lift. eexists. split; [exact E|]. cbv beta iota.
  apply returns_put_event; [done|by eexists|]. intros y1 Hy1 _. destruct ts as [|t ts]; cbn [head].
  - apply returns_put_event; [done|eexists; by apply signaled_wf|]. intros y2 Hy2 _. sys.
  - sys. apply (IH e' ts); [cbn in Hlen; lia|done|done].
Qed.

Lemma signal_event_returns {b} y handle : sys_ok y -> returns b (signal_event handle) y.
Proof using Laws.
  intros Hy. unfold signal_event. sys. destruct (event_of _ _ _ _ Hy Heqo) as [ts Hts].
  apply (signal_loop_returns _ _ _ e ts); [rewrite (ew_count _ _ Hts); lia|done|done].
Qed.

Lemma close_event_returns {b} y handle : sys_ok y -> returns b (close_event handle) y.
Proof using Laws. intros Hy. unfold close_event. sys. apply returns_put_event; [done|done|]. intros y1 Hy1 _. sys. Qed.

(** ** Message queues *)

Lemma queue_of y handle pid q : sys_ok y -> find_queue handle pid (k_ipc (y_kernel y)) = Some q -> queue_wf q.
Proof using.
  intros Hy. unfold find_queue. destruct (List.find _ _) as [[q'|]|] eqn:E; [|done..]. intros [= ->].
  exact (find_slot _ _ _ _ (iw_queues _ (ko_ipc _ (so_kernel _ _ _ _ _ _ _ _ Hy))) E).
Qed.

Lemma put_queue_after {b} y handle pid q : sys_ok y -> slot_ok queue_wf q ->
  wp (put_queue handle pid q) (fun _ y' => after b y y' /\ memory_of y' = memory_of y) y.
Proof using Laws.
  intros Hy Hq. pose proof (ko_ipc _ (so_kernel _ _ _ _ _ _ _ _ Hy)) as [? ? ?]. split; [|done].
  apply (ipc_after offset m0 active parts good off_ok s y); [done| |apply (so_files _ _ _ _ _ _ _ _ Hy)]. split; [done..|]. by apply slots_upd.
Qed.

Lemma returns_put_queue {b} {B} handle pid q (f : () -> M (System F) B) y : sys_ok y -> slot_ok queue_wf q ->
  (forall y', sys_ok y' -> returns b (f ()) y') -> returns b (put_queue handle pid q ≫= f) y.
Proof using Laws.
  intros Hy Hq Hf. apply returns_bind. eapply wp_mono; [by apply (put_queue_after (b := b))|]. intros [] y' [Ha _]. split; [done|]. apply Hf, Ha.
Qed.

Lemma create_queue_returns {b} y : sys_ok y -> returns b create_message_queue y.
Proof using Laws.
  intros Hy. unfold create_message_queue. sys. pose proof (ko_ipc _ (so_kernel _ _ _ _ _ _ _ _ Hy)) as [Hpi Hev Hqu].
  pose proof (so_files _ _ _ _ _ _ _ _ Hy) as Hfi. apply returns_modify_ipc; [done|by split|done|intros Hy1]; sys.
  apply returns_modify_ipc; [done| |done|intros Hy2; sys]. split; [done..|]. apply slots_upd; [done|]. intros e _. apply queue_new_wf.
Qed.

Lemma send_message_returns {b} y handle ptr len : sys_ok y -> 0 <= ptr -> 0 <= len -> returns b (send_message offset handle ptr len) y.
Proof using Laws.
  intros Hy ? ?. unfold send_message. sys. destruct (send_ok bs m (queue_of _ _ _ _ Hy Heqo)) as (r & q' & E & Hq & _).
  apply returns_lift. eexists. split; [exact E|]. cbv beta iota. apply returns_put_queue; [done|done|]. intros y1 Hy1. sys.
Qed.

Lemma receive_message_returns {b} y handle ptr len : sys_ok y -> 0 <= ptr -> 0 <= len -> returns b (receive_message offset handle ptr len) y.
Proof using Laws.
  intros Hy ? ?. unfold receive_message. sys. apply returns_slice; [done..|]. intros out _.
  destruct (receive_ok out m (queue_of _ _ _ _ Hy Heqo)) as ([r out'] & q' & E & Hq & Hspec).
  pose proof (put_queue_after (b := b) y handle pid (Some q') Hy Hq) as Hput. unfold wp in *. run. rewrite E.
  destruct (put_queue handle pid (Some q') y) as [[[] y1]|]; [|done]. destruct Hput as [Ha Em].
  split_and!; [done|done| |intros m' Hy'; by apply after_refl].
  unfold receive_spec in Hspec. destruct (queue_content m) as [|msg rest]; [by destruct Hspec as [[= _ ->] _]|].
  destruct (Nat.ltb_spec (length out) (length msg)); [by destruct Hspec as [[= _ ->] _]|]. destruct Hspec as [[= _ ->] _].
  rewrite length_app, length_drop. lia.
Qed.

Lemma close_queue_returns {b} y handle : sys_ok y -> returns b (close_message_queue handle) y.
Proof using Laws. intros Hy. unfold close_message_queue. sys. apply returns_put_queue; [done|done|]. intros y1 Hy1. sys. Qed.

(** ** Processes *)

Lemma exec_returns {b} y p n q l mode : sys_ok y -> 0 <= p -> 0 <= n -> 0 <= q -> 0 <= l -> room (y_kernel y) ->
  returns b (exec_program offset images p n q l mode) y.
Proof using Laws.
  intros Hy ? ? ? ? Hr. unfold exec_program. sys.
  assert (forall arg, returns b (with_kernel (request_path_with_arg_and_mode images text arg mode) ≫= fun r =>
    mret (match r with Ok pid => Ok pid | Err _ => Err InvalidArgument end)) y) as Hreq.
  { intros arg. sys. apply request_path_steps; [by eapply so_kernel|done]. }
  destruct (l =? 0).
  - eapply returns_try; [done|reflexivity|]. intros arg _. apply Hreq.
  - destruct (read_user_str_spec offset m0 active parts s y (so_space _ _ _ _ _ _ _ _ Hy) (ko_wf _ (so_kernel _ _ _ _ _ _ _ _ Hy)) (sys_program _ _ _ _ _ _ _ _ Hy) q l) as (r & E & _); [done..|].
    eapply returns_try with (r := match r with Ok a => Ok (Some a) | Err e => Err e end); [done|run; rewrite E; by destruct r|].
    intros arg _. apply Hreq.
Qed.

Lemma wait_returns {b} y frame : sys_ok y -> returns b (wait_for_pending_child frame) y.
Proof using Laws.
  intros Hy. unfold wait_for_pending_child. sys. apply request_user_shell_wait_steps. by eapply so_kernel.
Qed.

Lemma kill_returns {b} y pid signal : sys_ok y -> returns b (terminate_process pid signal) y.
Proof using Laws.
  intros Hy. unfold terminate_process. sys. 1: apply send_signal_steps; by eapply so_kernel.
  apply returns_bind. destruct (Table.sr_parent_woken r); [|split; [by apply after_refl|sys]]. apply wp_bind.
  eapply wp_mono; [apply (with_kernel_returns (b := b) offset m0 active parts good off_ok s); [done|apply programs_steps; [|by eapply so_kernel]]|intros q y2 Ha; split; [done|apply returns_ret, Ha]].
  intros ps. unfold wp, Programs.take_user_shell_wait_request_for_child. run. by destruct (position _ _).
Qed.

Lemma trailing_zeros_bound n : forall i mask, 0 <= i -> 0 <= trailing_zeros_from n i mask <= i + Z.of_nat n.
Proof using.
  induction n as [|n IH]; intros i mask Hi; cbn [trailing_zeros_from]; [lia|]. destruct (Z.testbit mask i); [lia|]. specialize (IH (i + 1) mask). lia.
Qed.

Lemma lowest_signal_bound mask sg : lowest_signal mask = Some sg -> 0 <= sg <= 65.
Proof using.
  unfold lowest_signal, trailing_zeros. pose proof (trailing_zeros_bound 64 0 mask ltac:(lia)) as Hb. destruct (mask =? 0); [done|].
  generalize dependent (trailing_zeros_from 64 0 mask). intros z Hz [= <-]. lia.
Qed.

(** A delivered signal is a small number. *)
Lemma delivered_signal k how mask : wp (Current.update_current_signal_mask how mask)
  (fun r _ => forall u sg, r = Some u -> Table.mu_delivered_signal u = Some sg -> 0 <= sg <= 65) k.
Proof using.
  unfold wp, Current.update_current_signal_mask. run. destruct (k_current_process k) as [pid|]; [|done].
  unfold Table.update_signal_mask, put_process, mod_table. run. destruct (find_process k pid) as [p|]; [|done]. destruct (_ || _); [done|].
  intros u sg E. assert (forall v, Some v = Some u -> Table.mu_delivered_signal u = Table.mu_delivered_signal v) as Hv by congruence.
  rewrite (Hv _ E). apply lowest_signal_bound.
Qed.

Lemma wp_and {S A} (m : M S A) P Q st : wp m P st -> wp m Q st -> wp m (fun a st' => P a st' /\ Q a st') st.
Proof using. unfold wp. destruct (m st) as [[a st']|]; done. Qed.

Lemma signal_mask_returns y frame : sys_ok y -> returns false (update_signal_mask frame) y.
Proof using Laws.
  intros Hy. unfold update_signal_mask. cbv zeta. destruct (negb _); [by apply returns_ret|].
  destruct (signal_mask_how _) as [how|]; [|by apply returns_ret]. apply returns_pid; [done|]. intros pid _.
  eapply returns_step_with; [done|exact (wp_and _ _ _ _ (update_current_signal_mask_steps _ (so_kernel _ _ _ _ _ _ _ _ Hy) how (sf_arg1 frame)) (delivered_signal (y_kernel y) how (sf_arg1 frame)))|].
  intros u k' Hks Hsmall Hy1. cbv beta in Hsmall. sys.
  - specialize (Hsmall _ _ eq_refl Heqo0). apply returns_lift. unfold u64_checked_add, checked_add_to.
    destruct (Z.leb_spec (128 + z) u64_max); [|unfold u64_max in *; lia]. eexists. split; [done|]. sys.
    apply mark_current_user_exited_steps. by eapply so_kernel.
  - apply checkout_handler_steps. by eapply so_kernel.
Qed.

Lemma sigaction_returns {b} y sg d : sys_ok y -> returns b (set_signal_action sg d) y.
Proof using Laws.
  intros Hy. unfold set_signal_action. sys.
  assert (forall u : (), returns b (with_kernel (Current.set_current_signal_disposition sg d) ≫= fun old => mret (ok_or old InvalidArgument)) y) as Hset.
  { intros _. sys. apply set_current_signal_disposition_steps. by eapply so_kernel. }
  destruct (Z.ltb_spec SIG_IGN d); [apply returns_entry; [done|unfold SIG_IGN in *; lia|intros _; by apply (Hset ())]|].
  eapply returns_try; [done|reflexivity|]. intros u _. by apply (Hset u).
Qed.

Lemma pid_or_self_read y pid : exists r, pid_or_self pid y = Done (r, y).
Proof using. unfold pid_or_self. destruct (pid =? 0); by eexists. Qed.

Lemma setpgid_returns {b} y pid g : sys_ok y -> returns b (Syscall.set_process_group pid g) y.
Proof using Laws.
  intros Hy. unfold Syscall.set_process_group. sys. destruct (pid_or_self_read y pid) as [r E]. eapply returns_try; [done|exact E|]. intros t _. sys.
Qed.

Lemma getsid_returns {b} y pid : sys_ok y -> returns b (get_session_id pid) y.
Proof using Laws.
  intros Hy. unfold get_session_id. destruct (pid_or_self_read y pid) as [r E]. eapply returns_try; [done|exact E|]. intros t _. sys.
Qed.

Lemma setsid_returns {b} y : sys_ok y -> returns b Syscall.create_session y.
Proof using Laws. intros Hy. unfold Syscall.create_session. sys. apply create_current_session_steps. by eapply so_kernel. Qed.

(** ** The dispatcher *)

(** The arguments of a trap are 64-bit registers. *)
Definition frame_ok (frame : SyscallFrame) : Prop :=
  0 <= sf_arg0 frame /\ 0 <= sf_arg1 frame /\ 0 <= sf_arg2 frame /\ 0 <= sf_arg3 frame.

(** The counters that are not allowed to overflow have room. *)
Definition has_room y : Prop := room (y_kernel y) /\ y_yields y < u64_max.

(** The lemma of a handler. *)
Ltac handler :=
  lazymatch goal with
  | |- returns _ (uptime_to_user _ _ _) _ => apply uptime_returns
  | |- returns _ (whoami_to_user _ _ _) _ => apply whoami_returns
  | |- returns _ (list_dir_to_user _ _ _ _ _ _) _ => apply list_dir_returns
  | |- returns _ (read_file_to_user _ _ _ _ _ _) _ => apply read_file_returns
  | |- returns _ (stat_to_user _ _ _ _ _ _) _ => apply stat_returns
  | |- returns _ (open_file _ _ _ _) _ => apply open_returns
  | |- returns _ (read_fd_to_user _ _ _ _ _) _ => apply read_fd_returns
  | |- returns _ (close_fd _) _ => apply close_fd_returns
  | |- returns _ (exec_program _ _ _ _ _ _ _) _ => apply exec_returns
  | |- returns _ (wait_for_pending_child _) _ => apply wait_returns
  | |- returns _ (procs_to_user _ _ _) _ => apply procs_returns
  | |- returns _ (terminate_process _ _) _ => apply kill_returns
  | |- returns _ (getcwd_to_user _ _ _) _ => apply getcwd_returns
  | |- returns _ (chdir_user _ _ _ _) _ => apply chdir_returns
  | |- returns _ (Syscall.set_current_user _ _ _) _ => apply set_user_returns
  | |- returns _ (pci_list_to_user _ _ _) _ => apply pci_returns
  | |- returns _ (netdev_list_to_user _ _ _) _ => apply netdev_returns
  | |- returns _ (kernel_log_to_user _ _ _) _ => apply klog_returns
  | |- returns _ (driver_status_to_user _ _ _) _ => apply driver_status_returns
  | |- returns _ (Syscall.create_user_thread _ _ _ _) _ => apply create_user_thread_returns
  | |- returns _ (spawn_user_thread _ _) _ => apply spawn_returns
  | |- returns _ (create_pipe _ _ _) _ => apply create_pipe_returns
  | |- returns _ (wait_event _ _) _ => apply wait_event_returns
  | |- returns _ (signal_event _) _ => apply signal_event_returns
  | |- returns _ (close_event _) _ => apply close_event_returns
  | |- returns _ (send_message _ _ _ _) _ => apply send_message_returns
  | |- returns _ (receive_message _ _ _ _) _ => apply receive_message_returns
  | |- returns _ (close_message_queue _) _ => apply close_queue_returns
  | |- returns _ (set_signal_action _ _) _ => apply sigaction_returns
  | |- returns _ (Syscall.set_process_group _ _) _ => apply setpgid_returns
  | |- returns _ (get_session_id _) _ => apply getsid_returns
  | |- returns _ (create_file _ _ _ _) _ => apply create_returns
  | |- returns _ (unlink_file _ _ _ _) _ => apply unlink_returns
  | |- returns _ (rename_file _ _ _ _ _ _) _ => apply rename_returns
  | |- returns _ (mkdir_user _ _ _ _) _ => apply mkdir_returns
  | |- returns _ (rmdir_user _ _ _ _) _ => apply rmdir_returns
  | |- returns _ (write_user_buffer _ _ _ _ _) _ => apply write_returns
  | |- returns _ (join_user_thread _) _ => apply join_returns
  | |- returns _ (user_yield _) _ => apply yield_returns
  | |- returns _ (sleep_current_user _) _ => apply sleep_returns
  | |- returns _ create_event _ => apply create_event_returns
  | |- returns _ create_message_queue _ => apply create_queue_returns
  | |- returns _ Syscall.create_session _ => apply setsid_returns
  | |- _ => sys
  end.

Lemma dispatch_returns {b} y frame : sys_ok y -> has_room y -> frame_ok frame -> returns b (dispatch offset mounts images frame) y.
Proof using Laws Fs.
  intros Hy [Hr Hyi] (H0 & H1 & H2 & H3). unfold dispatch, exec_user_program, exec_background_user_program, current_pending_signals, current_process_group. cbv zeta.
  repeat lazymatch goal with |- returns _ (if ?b then _ else _) _ => destruct b; [solve [handler; assumption]|] end. sys.
Qed.

Lemma returning_returns {b} (m : M (System F) (result Z SyscallError)) y : returns b m y -> returns b (returning m) y.
Proof using. intros Hm. apply returns_bind. eapply wp_mono; [exact Hm|]. intros r y' Ha. split; [done|]. apply returns_ret, Ha. Qed.

(** The system calls that can take the thread off the processor at once. *)
Definition leaving (n : Z) : bool :=
  (n =? SYS_EXIT) || (n =? SYS_THREAD_EXIT) || (n =? SYS_YIELD) || (n =? SYS_SIGPROCMASK) || (n =? SYS_SIGRETURN).

Lemma trap_returns {b} y frame : sys_ok y -> has_room y -> frame_ok frame -> (b = true -> leaving (sf_number frame) = false) ->
  returns b (syscall_interrupt_dispatch offset mounts images frame) y.
Proof using Laws Fs.
  intros Hy Hroom Hf Hn. unfold syscall_interrupt_dispatch. apply returns_modify; [done..|]. intros Hy1. cbv zeta.
  set (y1 := y <| y_traps ::= _ |>) in *. assert (has_room y1) as [Hr Hyi] by exact Hroom. pose proof Hf as (H0 & H1 & H2 & H3).
  pose proof (so_kernel _ _ _ _ _ _ _ _ Hy1) as Hk. unfold leaving in Hn.
  repeat lazymatch goal with |- returns _ (if ?t then _ else _) _ => let E := fresh "E" in destruct t eqn:E; [solve [
      lazymatch goal with
      | |- returns _ (returning (user_yield _)) _ =>
        destruct b; [by rewrite ?E, ?orb_true_r in Hn; specialize (Hn eq_refl)|];
        apply returning_returns, yield_returns; solve [assumption|apply Hr]
      | |- returns _ (returning _) _ => apply returning_returns; handler; solve [assumption|apply Hr]
      | |- returns _ (mret _) _ => by apply returns_ret
      | |- _ =>
        destruct b; [by rewrite ?E, ?orb_true_r in Hn; specialize (Hn eq_refl)|];
        lazymatch goal with
        | |- returns _ (update_signal_mask _ ≫= _) _ =>
          apply returns_bind; eapply wp_mono; [apply (signal_mask_returns _ _ Hy1)|intros r y2 Ha; split; [exact Ha|apply returns_ret, Ha]]
        | |- returns _ (with_kernel (Current.mark_current_user_exited _) ≫= _) _ =>
          apply returns_step; [exact Hy1|by apply mark_current_user_exited_steps|intros; by apply returns_ret]
        | |- returns _ (with_kernel Current.mark_current_thread_exited ≫= _) _ =>
          apply returns_step; [exact Hy1|by apply mark_current_thread_exited_steps|intros; by apply returns_ret]
        | |- returns _ (with_kernel Current.checkout_current_user_after_sigreturn ≫= _) _ =>
          apply returns_step; [exact Hy1|by apply checkout_sigreturn_steps|intros; by apply returns_ret]
        end
      end]|] end.
  by apply returning_returns, dispatch_returns.
Qed.
End handlers.
