(* ===== verification/UserMode.v ===== *)
(** * The thread on the processor across a system call

    A trap either ends with the request to leave the user thread, or the same
    thread of the same process is still the current one when user code goes
    on. *)

From S2P Require Import Prelude Utf8 Paths Vfs RamFs RamFsProofs FsLaws Ring3 Elf AddrSpace AddrSpaceProofs PageTables PageTablesProofs PrivateTables PrivateMem PrivateProcess UserAccess Threads Program Ipc IpcProofs Process TableSafety Current CurrentProofs Text TextProofs System Syscall UserMemory KernelSafety SyscallRules SyscallSafety.

(** A process of the table is on the processor. *)
Definition on_processor (k : Kernel) (pid tid : Z) : Prop := cur k = (Some pid, Some tid) /\ is_Some (find_process k pid).

Lemma places_find k pid : is_Some (find_process k pid) <-> pid ∈ map fst (places k).
Proof.
  unfold places. rewrite map_map. cbn [fst]. split.
  - intros [p Hp]. pose proof (find_process_in _ _ _ Hp) as Hin. apply find_Some in Hp as [_ <-%Z.eqb_eq]. by apply list_elem_of_fmap_2.
  - intros (p & -> & Hin)%list_elem_of_fmap. unfold find_process. destruct (List.find _ _) eqn:E; [done|].
    apply list_elem_of_In in Hin. apply (find_none _ _ E) in Hin. lia.
Qed.

Lemma kstep_find b k k' pid : kstep b k k' -> is_Some (find_process k pid) -> is_Some (find_process k' pid).
Proof. intros Hs. by rewrite !places_find, (ks_places _ _ _ Hs). Qed.

Lemma steps_wp {A} b (m : M Kernel A) Q k : steps b m k -> (forall a k', kstep b k k' -> Q a k') -> wp m Q k.
Proof. intros Hm HQ. eapply wp_mono; [exact Hm|]. exact HQ. Qed.

Lemma wp_gets {S A B} (f : S -> A) (g : A -> M S B) Q st : wp (g (f st)) Q st -> wp (gets f ≫= g) Q st.
Proof. done. Qed.

(** ** The functions that take the thread off the processor *)

Lemma taken k pid tid Q : kernel_ok k -> on_processor k pid tid ->
  (forall k', kernel_ok k' -> places k' = places k -> Q (Some (pid, tid)) k') -> wp Current.take_current_user Q k.
Proof.
  intros Hk [Hc _] HQ. pose proof (take_current_user_steps k Hk) as Hs. unfold cur in Hc. injection Hc as E1 E2.
  unfold steps, wp, Current.take_current_user in *. run. rewrite E1, E2. apply HQ; apply Hs.
Qed.

Section take.
Context (k : Kernel) (pid tid : Z) (Hk : kernel_ok k) (Hcur : on_processor k pid tid).

Lemma thread_exited_cur : wp Current.mark_current_thread_exited (fun r k' => is_some r = true \/ cur k' = cur k) k.
Proof using Hk Hcur.
  unfold Current.mark_current_thread_exited. apply wp_bind, (taken k pid tid); [done..|]. intros k1 Hk1 _. apply wp_bind.
  eapply (steps_wp false); [apply safe_steps; [intros; eauto with vantara|done]|]. intros r k2 _. destruct r as [x|]; [by left|].
  right. destruct Hcur as [-> _]. reflexivity.
Qed.

Lemma yielded_cur c : wp (Current.checkout_current_user_if_yielded c) (fun r k' => is_some r = true \/ cur k' = cur k) k.
Proof using Hk Hcur.
  unfold Current.checkout_current_user_if_yielded. apply wp_bind, (taken k pid tid); [done..|]. intros k1 Hk1 Hp1. apply wp_bind.
  eapply (steps_wp false); [apply safe_steps; [intros; eauto with vantara|done]|]. intros r k2 Hs. destruct r; cbn [negb].
  - assert (is_Some (find_process k2 pid)) as [p Hp].
    { apply (kstep_find _ _ _ _ Hs). rewrite places_find, Hp1, <- places_find. apply Hcur. }
    unfold wp. run. rewrite Hp. by left.
  - right. destruct Hcur as [-> _]. reflexivity.
Qed.

Lemma handler_cur sg h c : wp (Current.checkout_current_user_for_signal_handler sg h c) (fun r k' => is_some r = true \/ cur k' = cur k) k.
Proof using Hk Hcur.
  pose proof Hcur as [Hc Hf]. unfold cur in Hc. injection Hc as E1 E2.
  apply wp_gets. rewrite E1. apply wp_gets. rewrite E2. apply wp_bind.
  eapply (steps_wp true); [apply safe_steps; [intros; eauto with vantara|done]|]. intros r k1 Hs. pose proof (ks_cur _ _ _ Hs eq_refl) as Hc1.
  destruct r; cbn [negb]; [|by right].
  apply wp_bind, (taken k1 pid tid); [apply Hs|split; [by rewrite Hc1; apply Hcur|by eapply kstep_find]|]. intros k2 _ _. by left.
Qed.

Lemma sigreturn_cur : wp Current.checkout_current_user_after_sigreturn (fun r k' => is_some r = true \/ cur k' = cur k) k.
Proof using Hk Hcur.
  pose proof Hcur as [Hc Hf]. unfold cur in Hc. injection Hc as E1 E2.
  apply wp_gets. rewrite E1. apply wp_gets. rewrite E2. apply wp_bind.
  eapply (steps_wp true); [apply safe_steps; [intros; eauto with vantara|done]|]. intros r k1 Hs. pose proof (ks_cur _ _ _ Hs eq_refl) as Hc1.
  destruct r; cbn [negb]; [|by right].
  apply (taken k1 pid tid); [apply Hs|split; [by rewrite Hc1; apply Hcur|by eapply kstep_find]|]. intros k2 _ _. by left.
Qed.
End take.

Lemma kstep_on_processor k k' pid tid : kstep true k k' -> on_processor k pid tid -> on_processor k' pid tid /\ cur k' = cur k.
Proof.
  intros Hs [Hc Hf]. pose proof (ks_cur _ _ _ Hs eq_refl) as E. split; [split; [congruence|by eapply kstep_find]|done].
Qed.

(** ** Traps *)

Section traps.
Context `{Laws : EntryLaws} {F : Type}.
Context (offset : Z) (m0 : memory) (active : Z) (parts : list (list Z)).
Context (mounts : list (Mount F)) (images : list UserlandImage).
Context (good : F -> Prop) (off_ok : F -> VfsNodeId -> nat -> Prop) {Fs : FsLaws mounts good off_ok}.
Context (s : PreparedP4Slot).
Implicit Types y : System F.
Notation sys_ok := (sys_ok offset m0 active parts good off_ok s).
Notation returns := (returns offset m0 active parts good off_ok s).

Lemma wp_with_kernel {A B} (m : M Kernel A) (f : A -> M (System F) B) Q y :
  wp m (fun a k' => wp (f a) Q (y <| y_kernel := k' |>)) (y_kernel y) -> wp (with_kernel m ≫= f) Q y.
Proof using. unfold wp, with_kernel. run. by destruct (m (y_kernel y)) as [[a k']|]. Qed.

(** Unless [left r], the thread stays. *)
Definition stays {A} (c : option Z * option Z) (left : A -> Prop) (m : M (System F) A) y : Prop :=
  wp m (fun r y' => left r \/ cur (y_kernel y') = c) y.

Lemma returns_stays {A} (left : A -> Prop) m y : returns true m y -> stays (cur (y_kernel y)) left m y.
Proof using. intros H. eapply wp_mono; [exact H|]. intros r y' Ha. right. by apply Ha. Qed.

Lemma stays_ret {A} (left : A -> Prop) a y : stays (cur (y_kernel y)) left (mret a) y.
Proof using. by right. Qed.

Definition to_kernel (r : result Z SyscallError) : Prop := r = Ok SYSCALL_RETURN_TO_KERNEL.

Lemma yield_stays y frame pid tid : sys_ok y -> switches (y_kernel y) < u64_max -> y_yields y < u64_max ->
  on_processor (y_kernel y) pid tid -> stays (cur (y_kernel y)) to_kernel (user_yield frame) y.
Proof using.
  intros Hy Hs Hyields Hp. pose proof (so_kernel _ _ _ _ _ _ _ _ Hy) as Hk. unfold user_yield, stays. apply wp_gets.
  destruct (negb _); [by right|]. apply wp_bind. unfold get, wp at 1. destruct (Z.eqb_spec (y_yields y) u64_max); [lia|].
  apply wp_bind. unfold modify at 1, wp at 1. set (y1 := y <| y_yields ::= _ |>). change (y_kernel y) with (y_kernel y1) in *.
  apply wp_with_kernel. eapply (steps_wp true); [by apply record_current_thread_yield_steps|]. intros _ k1 H1.
  destruct (kstep_on_processor _ _ _ _ H1 Hp) as [Hp1 E1].
  apply wp_with_kernel. eapply (steps_wp true); [apply consume_preempt_steps, H1|]. intros _ k2 H2. cbn in H2.
  destruct (kstep_on_processor _ _ _ _ H2 Hp1) as [Hp2 E2].
  apply wp_with_kernel. eapply wp_mono; [apply (yielded_cur k2 pid tid); [apply H2|done]|]. intros r k3 Hr.
  destruct r as [x|]; [by left|]. destruct Hr as [|Hr]; [done|]. right. etransitivity; [exact Hr|]. etransitivity; [exact E2|exact E1].
Qed.

Lemma signal_mask_stays y frame pid tid : sys_ok y -> on_processor (y_kernel y) pid tid ->
  stays (cur (y_kernel y)) (fun r => r = Ok ContextSwitch) (update_signal_mask frame) y.
Proof using.
  intros Hy Hp. pose proof (so_kernel _ _ _ _ _ _ _ _ Hy) as Hk. unfold update_signal_mask, stays. cbv zeta.
  destruct (negb _); [by right|]. destruct (signal_mask_how _) as [how|]; [|by right].
  unfold tryS. apply wp_bind, wp_gets. destruct (k_current_process (y_kernel y)); [|by right]. cbn [ok_or]. apply wp_ret.
  apply wp_with_kernel. eapply wp_mono; [exact (wp_and _ _ _ _ (update_current_signal_mask_steps (b := true) _ Hk how (sf_arg1 frame)) (delivered_signal (y_kernel y) how (sf_arg1 frame)))|].
  cbv beta. intros u k1 [H1 Hsmall]. destruct (kstep_on_processor _ _ _ _ H1 Hp) as [Hp1 E1].
  destruct u as [u|]; [|by right]. destruct (Table.mu_delivered_signal u) as [sg|] eqn:Esg; [|by right].
  specialize (Hsmall _ _ eq_refl Esg). apply wp_gets. cbn [y_kernel]. unfold set. cbn [y_kernel].
  destruct (Current.current_signal_disposition k1 sg) as [d|]; [|by right]. destruct (d =? SIG_IGN); [by right|]. destruct (d =? SIG_DFL).
  - unfold u64_checked_add, checked_add_to. destruct (Z.leb_spec (128 + sg) u64_max); [|unfold u64_max in *; lia].
    apply wp_bind, wp_ret. apply wp_with_kernel. eapply (steps_wp false); [apply mark_current_user_exited_steps, H1|]. intros _ k2 _. by left.
  - apply wp_with_kernel. eapply wp_mono; [apply (handler_cur k1 pid tid); [apply H1|done]|]. intros r k2 Hr.
    destruct r as [x|]; [by left|]. destruct Hr as [|Hr]; [done|]. right. etransitivity; [exact Hr|exact E1].
Qed.

Lemma returning_stays m y c : stays c to_kernel m y -> stays c (fun r => r = Returns SYSCALL_RETURN_TO_KERNEL) (returning m) y.
Proof using.
  intros Hm. apply wp_bind. eapply wp_mono; [exact Hm|]. intros r y' [->|Hc]; [by left|by right].
Qed.

(** The same thread is on the processor after a trap that does not leave it. *)
Lemma trap_stays y frame pid tid : sys_ok y -> has_room y -> frame_ok frame -> on_processor (y_kernel y) pid tid ->
  stays (cur (y_kernel y)) (fun r => r = Returns SYSCALL_RETURN_TO_KERNEL) (syscall_interrupt_dispatch offset mounts images frame) y.
Proof using Laws Fs.
  intros Hy Hroom Hf Hp. destruct (leaving (sf_number frame)) eqn:El.
  2: { apply returns_stays, trap_returns; done. }
  unfold syscall_interrupt_dispatch, stays. apply wp_bind. unfold modify at 1, wp at 1. set (y1 := y <| y_traps ::= _ |>).
  assert (sys_ok y1) as Hy1 by (eapply af_ok; by apply (other_after (b := true) offset m0 active parts good off_ok s y)).
  assert (has_room y1) as [Hr Hyi] by exact Hroom. pose proof (so_kernel _ _ _ _ _ _ _ _ Hy1) as Hk.
  change (y_kernel y) with (y_kernel y1) in *. cbv zeta. unfold leaving in El.
  destruct (sf_number frame =? SYS_EXIT) eqn:E1.
  { apply wp_with_kernel. eapply (steps_wp false); [by apply mark_current_user_exited_steps|]. intros _ k' _. by left. }
  destruct (sf_number frame =? SYS_THREAD_EXIT) eqn:E2.
  { apply wp_with_kernel. eapply wp_mono; [by apply (thread_exited_cur _ pid tid)|]. intros r k' [->|Hc]; [by left|by right]. }
  destruct (sf_number frame =? SYS_YIELD) eqn:E3.
  { apply Z.eqb_eq in E3. rewrite E3. cbn [Z.eqb Pos.eqb SYS_YIELD SYS_THREAD_JOIN SYS_WRITE].
    apply returning_stays, (yield_stays _ _ pid tid); [done|apply Hr|done..]. }
  destruct (sf_number frame =? SYS_SIGPROCMASK) eqn:E4.
  { apply Z.eqb_eq in E4. rewrite E4. cbn [Z.eqb Pos.eqb SYS_SIGPROCMASK SYS_THREAD_JOIN SYS_WRITE SYS_SLEEP_MS].
    apply wp_bind. eapply wp_mono; [by apply (signal_mask_stays _ _ pid tid)|]. intros r y' [->|Hc]; [by left|by right]. }
  destruct (sf_number frame =? SYS_SIGRETURN) eqn:E5; [|done].
  apply Z.eqb_eq in E5. rewrite E5. cbn [Z.eqb Pos.eqb SYS_SIGRETURN SYS_THREAD_JOIN SYS_WRITE SYS_SLEEP_MS].
  apply wp_with_kernel. eapply wp_mono; [by apply (sigreturn_cur _ pid tid)|]. intros r k' [->|Hc]; [by left|by right].
Qed.
End traps.
