(* ===== verification/Runtime.v ===== *)
(** * From the kernel to user code and back (user/syscall.rs, interrupts.rs, runtime.rs, user/loader.rs, user/ring3.rs)

    Where a user thread is left and where one is entered: the landing after a
    system call that leaves its thread, the exception handlers, the timer
    interrupt from user code, the loader, and the rounds of the event loop.
    The functions of the code that never return end in a [Transfer], which says
    where the processor goes on.  What they print is left out. *)

From S2P Require Import Prelude Utf8 Paths Vfs RamFs Ring3 Elf AddrSpace PageTables Threads Program Ipc Process Current Text System Syscall Input.

(** Where a diverging function goes: the event loop of the kernel, a program
    from its entry, or a saved user context with a value for [rax]. *)
Inductive Transfer :=
  | EventLoop
  | EnterUser (entry stack_top : Z)
  | ResumeUser (context : UserResumeContext) (return_value : Z).

Section runtime.
Context `{EntryOps} {F : Type}.
Context (offset : Z) (images : list UserlandImage).
Abbreviation Sys := (M (System F)).
Notation store_bytes := (store_bytes offset).

(** ** Entering user code (user/ring3.rs) *)

(** [mov cr3, p4_frame] *)
Definition load_cr3 (p4_frame : Z) : Sys () := modify (fun y => y <| y_cr3 := (p4_frame, 0) |>).

(** Enter on the page table of the process, or on the loaded one. *)
Definition enter_on (p4_frame : option Z) (t : Transfer) : Sys Transfer :=
  match p4_frame with
  | Some frame => load_cr3 frame;; mret t
  | None => mret t
  end.

(** ** The landing (user/syscall.rs) *)

Definition maintain_process_table : Sys () :=
  with_kernel Table.reap_unwaited_zombies;;
  with_kernel Table.reap_orphan_zombies;;
  with_kernel Current.compact_reaped_history;;
  mret ().

(** [Some]: the parent that waited for the child is resumed. *)
Definition update_user_shell_respawn (last_exit : option (Z * bytes * Z)) : Sys (option Transfer) :=
  match last_exit with
  | None => mret None
  | Some (child_pid, _, _) =>
    with_kernel (Current.clear_terminal_foreground_job child_pid);;
    request ← with_kernel (with_programs (Programs.take_user_shell_wait_request_for_child child_pid));
    match request with
    | None => mret None
    | Some request =>
      resume ← with_kernel (Current.resume_waiting_parent (wr_shell_pid request) (wr_child_pid request));
      match resume with
      | Some resume =>
        maintain_process_table;;
        t ← enter_on (Table.wre_p4_frame resume) (ResumeUser (Table.wre_resume_context resume) (Table.wre_status resume));
        mret (Some t)
      | None =>
        with_kernel (Table.reap_child (wr_shell_pid request) (wr_child_pid request));;
        with_kernel (Table.mark_reaped (wr_shell_pid request));;
        mret None
      end
    end
  end.

Definition resume_scheduled_user (resume : Table.ScheduledUserResume) (return_value : Z) : Sys Transfer :=
  enter_on (Table.sc_p4_frame resume) (ResumeUser (Table.sc_resume_context resume) return_value).

Definition user_exit_landing : Sys Transfer :=
  with_paging restore_kernel_p4;;
  blocked ← with_kernel Current.checkout_current_user_if_blocked;
  if is_some blocked then maintain_process_table;; mret EventLoop else
  k ← kernel;
  if Programs.has_pending (k_programs k) then maintain_process_table;; mret EventLoop else
  maintain_process_table;;
  k ← kernel;
  resumed ← update_user_shell_respawn (Current.last_exit_summary k);
  match resumed with
  | Some t => mret t
  | None =>
    maintain_process_table;;
    resume ← with_kernel Current.schedule_next_ready_user;
    match resume with
    | Some resume => resume_scheduled_user resume (rc_rax (Table.sc_resume_context resume))
    | None => mret EventLoop
    end
  end.

(** ** Exceptions (interrupts.rs) *)

Definition contain_user_exception (status rip : Z) : Sys Transfer :=
  report ← with_kernel (Current.mark_current_user_exception rip status);
  match report with
  | Some _ => user_exit_landing
  | None => panic
  end.

(** [is_user_exception]: the privilege level in the saved code segment. *)
Definition is_user_exception (code_segment : Z) : bool := Z.land code_segment 0x3 =? 3.

Inductive Exception := DivideError | InvalidOpcode | GeneralProtection.

Definition exception_status (e : Exception) : Z :=
  match e with DivideError => 0x0bad0000 | InvalidOpcode => 0x0bad0006 | GeneralProtection => 0x0bad000d end.

(** [divide_error_handler], [invalid_opcode_handler] and
    [general_protection_fault_handler]. *)
Definition exception_handler (e : Exception) (rip code_segment : Z) : Sys Transfer :=
  if is_user_exception code_segment then contain_user_exception (exception_status e) rip else panic.

Definition USER_PAGE_FAULT_STATUS : Z := 0x0badf00d.

(** [user_mode] is the bit of the error code, [addr] the content of [cr2]. *)
Definition page_fault_handler (user_mode : bool) (addr rip : Z) : Sys Transfer :=
  if user_mode then
    with_kernel (Current.mark_current_user_fault addr rip USER_PAGE_FAULT_STATUS);;
    user_exit_landing
  else panic.

(** ** The timer interrupt (interrupts.rs)

    [user] is the context of the frame when the interrupt came from Ring 3; the
    result is the context the frame is given, if any.  Interrupts of the kernel
    go on in [KScheduler]. *)
Definition timer_interrupt_dispatch (user : option UserResumeContext) : Sys (option UserResumeContext) :=
  resume ← with_kernel (Current.timer_interrupt_dispatch user);
  match resume with
  | None => mret None
  | Some resume =>
    kernel_p4 ← with_paging kernel_p4_frame;
    (match (match Table.sc_p4_frame resume with Some f => Some f | None => kernel_p4 end) with
     | None => mret ()
     | Some target_p4 =>
       active ← with_paging active_p4_frame;
       if active =? target_p4 then mret () else
       r ← with_paging (switch_to_p4_frame target_p4);
       match r with Ok _ => mret () | Err _ => panic end
     end);;
    mret (Some (Table.sc_resume_context resume))
  end.

(** ** Program images in the shared mapping (user/ring3.rs) *)

(** [write_bytes(addr, v, n)] *)
Definition fill_bytes (addr v n : Z) : Sys () := store_bytes addr (replicate (Z.to_nat n) v).

Definition clear_user_program_area : Sys () := fill_bytes FIRST_USER_ENTRY 0 FIRST_USER_PAGE_SIZE.

Definition clear_user_stack_slot (stack_top : Z) : Sys (result () UserImageError) :=
  if (FIRST_USER_STACK_TOP <? stack_top) || (stack_top <? USER_STACK_REGION_START + USER_STACK_GUARD_SIZE + USER_STACK_SIZE)
  then mret (Err ImageTooLarge) else
  fill_bytes (stack_top - USER_STACK_SIZE) 0 USER_STACK_SIZE;;
  mret (Ok ()).

Definition seed_user_initial_stack (layout : UserMemoryLayout) (program_path arg : bytes) : Sys (result Z UserImageError) :=
  try stack := lift (InitialStack.build_user_initial_stack layout program_path arg) in
  bs ← lift (stack_as_bytes stack);
  store_bytes (is_stack_pointer stack) bs;;
  mret (Ok (is_stack_pointer stack)).

Definition seed_first_user_arg (path : bytes) : Sys (result () UserImageError) :=
  match path with
  | [] => mret (Err EmptyImage)
  | _ =>
    if FIRST_USER_ARG_PATH_LEN <? Z.of_nat (length path) then mret (Err ImageTooLarge) else
    fill_bytes FIRST_USER_ARG_PATH_ADDR 0 FIRST_USER_ARG_PATH_LEN;;
    store_bytes FIRST_USER_ARG_PATH_ADDR path;;
    store_bytes FIRST_USER_ARG_LEN_ADDR (le_bytes 8 (Z.of_nat (length path)));;
    mret (Ok ())
  end.

Definition seed_first_user_error_message (message : bytes) : Sys (result () UserImageError) :=
  if bool_decide (16 < length message)%nat then mret (Err ImageTooLarge) else
  fill_bytes FIRST_USER_ERROR_MSG_ADDR 0 16;;
  store_bytes FIRST_USER_ERROR_MSG_ADDR message;;
  mret (Ok ()).

Definition FIRST_USER_MESSAGE_ADDR : Z := FIRST_USER_ENTRY + 0x300.
Definition FIRST_USER_MESSAGE : bytes := str "uptime ms: ".
Definition FIRST_USER_NEWLINE_ADDR : Z := FIRST_USER_ENTRY + 0x30b.
Definition FIRST_USER_UPTIME_BUFFER_ADDR : Z := FIRST_USER_ENTRY + 0x320.
Definition FIRST_USER_UPTIME_BUFFER_LEN : Z := 32.
Definition FIRST_USER_LS_HEADER_ADDR : Z := FIRST_USER_ENTRY + 0x360.
Definition FIRST_USER_LS_HEADER : bytes := str "ls /:" ++ [NEWLINE].
Definition FIRST_USER_ROOT_PATH_ADDR : Z := FIRST_USER_ENTRY + 0x366.
Definition FIRST_USER_CAT_PATH : bytes := str "/README".
Definition FIRST_USER_CAT_ERROR : bytes := str "cat: not found" ++ [NEWLINE].
Definition FIRST_USER_LS_ERROR : bytes := str "ls: not found" ++ [NEWLINE].

Definition seed_first_user_data : Sys () :=
  store_bytes FIRST_USER_MESSAGE_ADDR FIRST_USER_MESSAGE;;
  fill_bytes FIRST_USER_NEWLINE_ADDR NEWLINE 1;;
  fill_bytes FIRST_USER_UPTIME_BUFFER_ADDR 0 FIRST_USER_UPTIME_BUFFER_LEN;;
  seed_first_user_arg (str "/");;
  store_bytes FIRST_USER_LS_HEADER_ADDR FIRST_USER_LS_HEADER;;
  fill_bytes FIRST_USER_ROOT_PATH_ADDR SLASH 1;;
  store_bytes FIRST_USER_ROOT_PATH_ADDR FIRST_USER_CAT_PATH;;
  fill_bytes FIRST_USER_LIST_BUFFER_ADDR 0 FIRST_USER_LIST_BUFFER_LEN;;
  seed_first_user_error_message FIRST_USER_CAT_ERROR;;
  mret ().

Definition validate_first_user_task_image (image : bytes) : result () UserImageError :=
  match image with
  | [] => Err EmptyImage
  | _ => if bool_decide (FIRST_USER_DATA_OFFSET <= length image)%nat then Err ImageTooLarge else Ok ()
  end.

Definition load_first_user_task_image (image : bytes) : Sys (result () UserImageError) :=
  try _ := mret (validate_first_user_task_image image) in
  clear_user_program_area;;
  store_bytes FIRST_USER_ENTRY image;;
  seed_first_user_data;;
  mret (Ok ()).

(** user/elf.rs [materialize_load_segments], through the loaded page table. *)
Fixpoint materialize_load_segments (image : bytes) (segments : list LoadSegment) : Sys (result () ElfError) :=
  match segments with
  | [] => mret (Ok ())
  | s :: segments =>
    try _ := mret (validate_load_segment image s) in
    try _ := mret (validate_user_load_segment s) in
    file_end ← lift (usize_add (ls_file_offset s) (ls_file_size s));
    src ← lift (slice image (Z.to_nat (ls_file_offset s)) (Z.to_nat file_end));
    store_bytes (ls_virtual_address s) src;;
    (if ls_file_size s <? ls_memory_size s
     then fill_bytes (ls_virtual_address s + ls_file_size s) 0 (ls_memory_size s - ls_file_size s)
     else mret ());;
    materialize_load_segments image segments
  end.

Definition load_user_elf_image (image : bytes) : Sys (result (Z * Z) UserImageError) :=
  r ← lift (load_segments image 8);
  match r with
  | Err _ => mret (Err ImageTooLarge)
  | Ok segments =>
    i ← lift (parse_elf64 image);
    match i with
    | Err _ => mret (Err ImageTooLarge)
    | Ok info =>
      r ← materialize_load_segments image segments;
      mret (match r with
            | Err _ => Err ImageTooLarge
            | Ok _ => Ok (ei_entry info, image_footprint_size segments)
            end)
    end
  end.

(** ** The loader (user/loader.rs) *)

Inductive LoadError := LNotFound | UnsupportedFormat | LImageTooLarge | LEmptyImage.

Definition load_error (e : UserImageError) : LoadError := match e with EmptyImage => LEmptyImage | ImageTooLarge => LImageTooLarge end.

Definition loading {A} (m : Sys (result A UserImageError)) : Sys (result A LoadError) := r ← m; mret (map_err load_error r).

Definition load_flat_program (program : UserProgram) (image : bytes) : Sys (result Current.LoadedProgram LoadError) :=
  try _ := loading (load_first_user_task_image image) in
  arg ← lift (Arg.as_bytes (up_arg program));
  try _ := loading (seed_first_user_arg arg) in
  let error_message := if bytes_eqb (up_path program) (str "/bin/ls") then FIRST_USER_LS_ERROR else FIRST_USER_CAT_ERROR in
  try _ := loading (seed_first_user_error_message error_message) in
  mret (Ok (Current.mkLoaded (up_path program) FIRST_USER_ENTRY FIRST_USER_STACK_TOP (length image))).

Definition load_elf_program (program : UserProgram) (image : bytes) : Sys (result Current.LoadedProgram LoadError) :=
  try '(entry, image_footprint_size) := loading (load_user_elf_image image) in
  arg ← lift (Arg.as_bytes (up_arg program));
  try _ := loading (seed_first_user_arg arg) in
  try _ := loading (seed_first_user_error_message FIRST_USER_CAT_ERROR) in
  mret (Ok (Current.mkLoaded (up_path program) entry FIRST_USER_STACK_TOP (Z.to_nat image_footprint_size))).

Definition load_program (program : UserProgram) : Sys (result Current.LoadedProgram LoadError) :=
  match RamFs.images_find images (up_path program) with
  | None => mret (Err UnsupportedFormat)
  | Some image =>
    info ← lift (parse_elf64 (im_data image));
    if is_ok info then load_elf_program program (im_data image) else load_flat_program program (im_data image)
  end.

(** ** The rounds of the event loop (runtime.rs) *)

Definition user_image_writable_size (path : bytes) : Sys Z :=
  match RamFs.images_find images path with
  | None => mret FIRST_USER_PAGE_SIZE
  | Some image =>
    info ← lift (parse_elf64 (im_data image));
    if is_ok info then
      r ← lift (load_segments (im_data image) 8);
      mret (match r with Ok segments => image_footprint_size segments | Err _ => Z.of_nat (length (im_data image)) end)
    else mret (Z.of_nat (length (im_data image)))
  end.

(** A process without a page table of its own gets its stack in the shared
    mapping; a failure is only logged. *)
Definition prepare_shared_stack (context : Current.ExecContext) : Sys () :=
  r ← with_paging (ensure_active_user_stack_mapping_writable (stack_start (Current.ec_layout context)) (stack_top (Current.ec_layout context)));
  match r with
  | Err _ => mret ()
  | Ok _ =>
    r ← clear_user_stack_slot (stack_top (Current.ec_layout context));
    match r with
    | Err _ => mret ()
    | Ok _ =>
      arg ← lift (Arg.as_bytes (Current.ec_arg context));
      seed_user_initial_stack (Current.ec_layout context) (Current.ec_program_path context) arg;;
      mret ()
    end
  end.

(** [None]: the function returns to the event loop. *)
Definition run_pending_user_program : Sys (option Transfer) :=
  pending ← with_kernel (with_programs Programs.take_pending);
  match pending with
  | None => mret None
  | Some program =>
    writable_size ← user_image_writable_size (up_path program);
    mapped ← with_paging (ensure_active_user_program_mapping_writable writable_size);
    match mapped with
    | Err _ => mret None
    | Ok _ =>
      loaded ← load_program program;
      match loaded with
      | Err _ => mret None
      | Ok loaded =>
        context ← with_kernel (Current.register_exec program loaded);
        (if Current.ec_p4_verified context then mret () else prepare_shared_stack context);;
        match Current.ec_p4_frame context with
        | Some frame =>
          if negb (Current.ec_p4_verified context) then mret (Some (EnterUser (Current.ec_entry_point context) (Current.ec_user_stack_top context))) else
          let image := match RamFs.images_find images (Current.lp_path loaded) with Some image => im_data image | None => [] end in
          arg ← lift (Arg.as_bytes (Current.ec_arg context));
          y ← get;
          r ← with_kernel (with_addr (prepare_process_private_memory (y_cr3 y).1 frame (Current.ec_layout context) image
                (Current.ec_program_path context) arg));
          match r with
          | Err _ => mret None
          | Ok _ =>
            with_kernel (Table.mark_isolated (Current.ec_pid context));;
            load_cr3 frame;;
            mret (Some (EnterUser (Current.ec_entry_point context) (Current.ec_user_stack_top context)))
          end
        | None => mret (Some (EnterUser (Current.ec_entry_point context) (Current.ec_user_stack_top context)))
        end
      end
    end
  end.

(** [signal] is what [input::take_terminal_signal] took; the first result is
    the signal given back with [requeue_terminal_signal]. *)
Definition run_ready_user_process (signal : option Z) : Sys (option Z * option Transfer) :=
  requeued ← (match signal with
              | None => mret None
              | Some signal =>
                report ← with_kernel (Current.deliver_terminal_signal signal);
                k ← kernel;
                mret (if is_some report then None else if is_some (Current.terminal_foreground_job k) then Some signal else None)
              end);
  k ← kernel;
  with_kernel (Table.wake_sleeping_processes (k_ticks k));;
  resume ← with_kernel Current.schedule_next_ready_user;
  match resume with
  | None => mret (requeued, None)
  | Some resume => t ← resume_scheduled_user resume (rc_rax (Table.sc_resume_context resume)); mret (requeued, Some t)
  end.
End runtime.
