(* ===== verification/RuntimeProofs.v ===== *)
(** * Leaving and entering user code

    Every event of a running system is handled: system calls, the timer,
    exceptions and page faults of user code, and the rounds of the kernel's
    event loop neither panic nor fault, and user code is only ever resumed on
    the page table of its own process. *)

From S2P Require Import Prelude Utf8 Paths Vfs RamFs RamFsProofs FsLaws Ring3 Elf AddrSpace AddrSpaceProofs PageTables PageTablesProofs PrivateTables PrivateMem PrivateProcess UserAccess Threads Program Ipc IpcProofs Process TableSafety Views Scheduling Signals Lifecycle Current CurrentProofs Text TextProofs System Syscall UserMemory KernelSafety SyscallRules SyscallSafety UserMode Runtime.

(** ** Steps that may also forget processes *)

Record moves (k k' : Kernel) : Prop := {
  mv_ok : kernel_ok k';
  mv_addr : addr_kept (k_addr k) (k_addr k');
  mv_files : files_from (k_ipc k) (k_ipc k');
  mv_places : forall x, x ∈ places k' -> x ∈ places k;
}.

Lemma moves_refl k : kernel_ok k -> moves k k.
Proof. by split. Qed.

Lemma moves_trans k1 k2 k3 : moves k1 k2 -> moves k2 k3 -> moves k1 k3.
Proof. intros [_ [E1 E2] H3 H4] [Hok [E1' E2'] H3' H4']. split; [done|split; congruence| |]; [intros f Hf; by apply H3, H3'|auto]. Qed.

Lemma kstep_moves b k k' : kstep b k k' -> moves k k'.
Proof. intros [H1 H2 H3 _ H5 _]. split; [done..|]. by rewrite H5. Qed.

(** Compaction. *)
Lemma remove_all_rest pids : forall k, wp (Table.remove_all pids) (fun _ k' => frozen k' = frozen k /\ k_addr k' = k_addr k /\
  pt_user_context_switches (k_table k') = pt_user_context_switches (k_table k) /\ forall p, p ∈ pt_processes (k_table k') -> p ∈ pt_processes (k_table k)) k.
Proof.
  induction pids as [|pid pids IH]; intros k; [done|]. cbn [Table.remove_all].
  unfold Table.remove_from_ready_queue, Table.retain_ready, mod_table, wp. run.
  match goal with |- context [Table.remove_all pids ?k1] => pose proof (IH k1) as H; unfold wp in H; destruct (Table.remove_all pids k1) as [[? k']|]; [|done] end.
  revert H. intros (E1 & E2 & E3 & Hp). split; [exact E1|]. split; [exact E2|]. split; [exact E3|]. intros p Hin. specialize (Hp p Hin).
  cbn in Hp. unfold Table.store_remove in Hp. destruct (position _ _); [|done]. by apply list_elem_of_delete_inv in Hp.
Qed.

(** A move without a context switch. *)
Definition quiet {A} (m : M Kernel A) (k : Kernel) : Prop := wp m (fun _ k' => moves k k' /\ switches k' <= switches k) k.

Lemma quiet_ret {A} (a : A) k : kernel_ok k -> quiet (mret a) k.
Proof. intros Hk. split; [by apply moves_refl|lia]. Qed.

Lemma quiet_bind {A B} (m : M Kernel A) (f : A -> M Kernel B) k :
  quiet m k -> (forall a k', moves k k' -> quiet (f a) k') -> quiet (m ≫= f) k.
Proof.
  intros Hm Hf. apply wp_bind. eapply wp_mono; [exact Hm|]. intros a k' [H1 S1]. eapply wp_mono; [by apply Hf|].
  intros b k2 [H2 S2]. split; [by eapply moves_trans|lia].
Qed.

Lemma safe_quiet {A} (m : M Kernel A) k : (forall Sh, safe Sh 0 m any) -> kernel_ok k -> quiet m k.
Proof.
  intros Hs Hk. eapply wp_mono; [apply wp_and; [apply (safe_steps (b := false) m k Hs Hk)|apply (Hs _ k (ko_wf _ Hk))]|].
  - destruct (ko_wf _ Hk) as [[_ _ _ Hc] _]. unfold switches. lia.
  - intros a k' [H1 (_ & S1 & _)]. split; [by eapply kstep_moves|lia].
Qed.

Lemma outside_quiet f k : outside false f -> kernel_ok k -> quiet (modify f) k.
Proof.
  intros Hf Hk. split; [by apply (kstep_moves false), outside_kstep|]. unfold switches. destruct (Hf k) as (-> & _). lia.
Qed.

Lemma programs_quiet {A} (m : M ProgramState A) k : (forall s, wp m (fun _ _ => True) s) -> kernel_ok k -> quiet (with_programs m) k.
Proof.
  intros Hm Hk. pose proof (programs_steps (b := false) m k Hm Hk) as Hs. unfold steps, quiet, wp, with_programs in *.
  destruct (m (k_programs k)) as [[a s]|]; [|done]. split; [exact (kstep_moves _ _ _ Hs)|]. unfold switches. cbn. lia.
Qed.

Lemma close_files_quiet pid k : kernel_ok k -> quiet (Current.close_process_files pid) k.
Proof.
  intros Hk. pose proof (close_process_files_steps (b := false) pid k Hk) as Hs. split; [exact (kstep_moves _ _ _ Hs)|]. unfold switches. cbn. lia.
Qed.

Lemma release_quiet f k : kernel_ok k -> quiet (Current.release_frame f) k.
Proof.
  intros Hk. pose proof (release_frame_steps (b := false) f k Hk) as Hs. unfold steps, quiet, wp in *.
  unfold Current.release_frame in *. destruct f as [f|]; [|split; [exact (kstep_moves _ _ _ Hs)|lia]].
  unfold Process.with_addr in *. run. run_in Hs. destruct (release_prepared_p4_frame f (k_addr k)) as [[r a]|]; [|done]. split; [exact (kstep_moves _ _ _ Hs)|]. unfold switches. cbn. lia.
Qed.

Lemma compact_quiet k : kernel_ok k -> quiet Current.compact_reaped_history k.
Proof.
  intros Hk. unfold quiet, Current.compact_reaped_history, Table.compact_reaped_history. apply wp_bind. change (wp get ?Q k) with (Q k k). cbv beta zeta.
  apply wp_bind. eapply wp_mono; [apply wp_and; [apply remove_all_ok, Hk|apply remove_all_rest]|]. intros _ k' (Hwf & Hf & Ea & Es & Hp).
  destruct Hk as [_ Hi Hipc Ht]. pose proof Hf as Hf'. unfold frozen in Hf'. do 3 apply (f_equal fst) in Hf'. pose proof (f_equal snd Hf') as Et. do 2 apply (f_equal fst) in Hf'.
  cbn [fst snd] in *. split; [|unfold switches; lia]. split; [split; [done| |by rewrite Hf'|by rewrite Et]|by rewrite Ea|by rewrite Hf'|].
  - apply processes_infos_ok. apply Forall_forall. intros p Hin. apply (process_info k); [done|]. by apply Hp.
  - intros x (p & -> & Hin)%list_elem_of_fmap. apply (list_elem_of_fmap_2 (fun p => (pr_pid p, as_p4_frame (pr_address_space p)))), Hp, Hin.
Qed.

(** ** Which process a scheduling decision names *)

Lemma place_of k p : p ∈ pt_processes (k_table k) -> (pr_pid p, as_p4_frame (pr_address_space p)) ∈ places k.
Proof. apply (list_elem_of_fmap_2 (fun p => (pr_pid p, as_p4_frame (pr_address_space p)))). Qed.

Lemma find_by_tid_in k tid p : find_by_tid k tid = Some p -> p ∈ pt_processes (k_table k).
Proof. by intros [H _]%find_Some. Qed.

Definition named (k : Kernel) (r : option Table.ScheduledUserResume) : Prop :=
  match r with Some r => (Table.sc_pid r, Table.sc_p4_frame r) ∈ places k | None => True end.

Lemma schedule_loop_named fuel : forall k r k', Table.schedule_loop fuel k = Done (r, k') -> named k r.
Proof.
  induction fuel as [|fuel IH]; intros k r k'; cbn [Table.schedule_loop]; [by intros [= <- _]|].
  unfold Table.pop_ready, Table.skip_ready, mod_table. run. destruct (pt_ready_queue (k_table k)) as [|tid q]; [by intros [= <- _]|].
  destruct (find_by_tid k tid) as [p|] eqn:Ep; [|intros E; exact (IH _ _ _ E)].
  destruct (negb _); [intros E; exact (IH _ _ _ E)|]. destruct (match TStore.get _ _ with Some _ => _ | None => _ end); [|intros E; exact (IH _ _ _ E)].
  destruct (Table.run_thread _ _ _) as [[? ?]|]; [|done]. intros [= <- _]. by apply place_of, (find_by_tid_in k tid).
Qed.

Lemma schedule_named k r k' : Table.schedule_next_ready_user k = Done (r, k') -> named k r.
Proof. apply schedule_loop_named. Qed.

(** A step after which the processor is given to a process of the table. *)
Record given (k : Kernel) (pid tid : Z) (p4 : option Z) (k' : Kernel) : Prop := {
  gv_moves : moves k k';
  gv_place : (pid, p4) ∈ places k';
  gv_cur : on_processor k' pid tid;
}.

Lemma place_found k pid p4 : (pid, p4) ∈ places k -> is_Some (find_process k pid).
Proof. intros H. apply places_find. apply list_elem_of_fmap. by exists (pid, p4). Qed.

Lemma set_current_given k k1 pid tid p4 : kstep false k k1 -> (pid, p4) ∈ places k1 ->
  wp (Current.set_current_user (Some pid) (Some tid)) (fun _ k' => given k pid tid p4 k') k1.
Proof.
  intros H1 Hp. eapply wp_mono; [apply wp_and; [apply (set_current_user_steps k1), H1|]|].
  - instantiate (1 := fun _ k' => cur k' = (Some pid, Some tid)). reflexivity.
  - intros _ k' [H2 Hc]. assert ((pid, p4) ∈ places k') as Hp' by by rewrite (ks_places _ _ _ H2).
    split; [apply (kstep_moves false), (kstep_trans k k1 k' H1 H2)|done|split; [done|by apply place_found in Hp']].
Qed.

Lemma safe1_steps b {A} (m : M Kernel A) k : (forall Sh, safe Sh 1 m any) -> kernel_ok k -> switches k < u64_max -> steps b m k.
Proof.
  intros Hs Hk Hr. eapply wp_mono; [apply (safe_keeps 1 m k Hs (ko_wf _ Hk)); lia|]. intros _ k' [Hwf Hl]. by apply like_kstep.
Qed.

Lemma safe1_counted b {A} (m : M Kernel A) k : (forall Sh, safe Sh 1 m any) -> kernel_ok k -> switches k < u64_max ->
  wp m (fun _ k' => kstep b k k' /\ switches k' <= switches k + 1) k.
Proof.
  intros Hs Hk Hr. eapply wp_mono; [apply wp_and; [by apply (safe1_steps b)|apply (Hs _ k (ko_wf _ Hk)); lia]|].
  intros a k' (H1 & _ & S1 & _). split; [done|lia].
Qed.

Lemma wp_of {S A} (m : M S A) (Q P : A -> S -> Prop) st :
  wp m Q st -> (forall a st', m st = Done (a, st') -> P a st') -> wp m (fun a st' => Q a st' /\ P a st') st.
Proof. unfold wp. destruct (m st) as [[a st']|]; [|done]. intros HQ HP. split; [done|]. by eapply HP. Qed.

Lemma schedule_given k : kernel_ok k -> switches k < u64_max ->
  wp Current.schedule_next_ready_user (fun r k' =>
    match r with Some r => given k (Table.sc_pid r) (Table.sc_tid r) (Table.sc_p4_frame r) k' | None => kstep true k k' end) k.
Proof.
  intros Hk Hr. unfold Current.schedule_next_ready_user. apply wp_bind.
  eapply wp_mono; [apply (wp_of _ (fun _ k' => kstep true k k') (fun r _ => named k r)); [apply (safe1_steps true); [intros; eauto with vantara|done|done]|intros a st; apply schedule_named]|].
  intros r k1 [H1 Hn]. destruct r as [r|]; [|done]. apply wp_bind. eapply wp_mono; [apply (set_current_given k k1 _ _ (Table.sc_p4_frame r)); [by eapply kstep_any|by rewrite (ks_places _ _ _ H1)]|].
  by intros ? k' Hg.
Qed.

Lemma preempt_named tid c k r k' : Table.preempt_running_thread tid c k = Done (r, k') -> kernel_ok k -> named k r.
Proof.
  unfold Table.preempt_running_thread. run. intros E Hk. destruct (negb (Table.has_ready_thread_except k tid)); [by injection E as <- _|].
  pose proof (safe_steps (b := true) (Table.mark_thread_yielded tid c) k ltac:(intros; eauto with vantara) Hk) as Hy. unfold steps, wp in Hy.
  destruct (Table.mark_thread_yielded tid c k) as [[b k1]|]; [|done]. destruct b; cbn [negb] in E; [|by injection E as <- _].
  apply schedule_named in E. unfold named in *. destruct r; [|done]. by rewrite <- (ks_places _ _ _ Hy).
Qed.

Lemma preempt_given c k : kernel_ok k -> switches k < u64_max ->
  wp (Current.preempt_current_user c) (fun r k' =>
    match r with Some r => given k (Table.sc_pid r) (Table.sc_tid r) (Table.sc_p4_frame r) k' | None => kstep true k k' end) k.
Proof.
  intros Hk Hr. unfold Current.preempt_current_user. apply wp_bind. change (wp get ?Q k) with (Q k k). cbv beta.
  destruct (negb _); [by apply kstep_refl|]. destruct (_ =? 0); [by apply kstep_refl|]. apply wp_bind.
  eapply wp_mono; [apply (wp_of _ (fun _ k' => kstep true k k') (fun r _ => named k r)); [apply (safe1_steps true); [intros; eauto with vantara|done|done]|intros a st E; by eapply preempt_named]|].
  intros r k1 [H1 Hn]. destruct r as [r|]; [|done]. match goal with |- wp (modify ?f ≫= _) _ _ => set (g := f) end.
  assert (kstep false k1 (g k1)) as H2 by (apply outside_kstep; [by intros ?|apply H1]).
  assert ((Table.sc_pid r, Table.sc_p4_frame r) ∈ places (g k1)) as Hp by (rewrite (ks_places _ _ _ H2), (ks_places _ _ _ H1); exact Hn).
  change (given k (Table.sc_pid r) (Table.sc_tid r) (Table.sc_p4_frame r) (g k1)).
  split; [apply (kstep_moves false), (kstep_trans k k1 _ (kstep_any _ _ H1) H2)|exact Hp|split; [reflexivity|by apply place_found in Hp]].
Qed.

(** The parent that waited. *)
Lemma upd_main_same f p p' : upd_main f p = Done p' -> pr_pid p' = pr_pid p /\ pr_state p' = pr_state p.
Proof. unfold upd_main. run. destruct (TStore.main_upd f (pr_threads p)); [|done]. by intros [= <-]. Qed.

Lemma start_run_running pid k u k' : Table.start_process_run pid k = Done (u, k') ->
  forall p, find_process k' pid = Some p -> pr_state p = PRunning.
Proof.
  unfold Table.start_process_run. run. destruct (find_process k pid) as [p|] eqn:Ep; [|intros [= _ <-]; congruence].
  pose proof Ep as Hid%find_pid. unfold set_state. cbn [is_dead]. run.
  destruct (upd_main _ _) as [p1|] eqn:E1; [|done]. apply upd_main_same in E1 as [I1 S1]. run.
  destruct (upd_main _ _) as [p2|] eqn:E2; [|done]. apply upd_main_same in E2 as [I2 S2]. run.
  unfold put_process, mod_table, Table.count_context_switch. run. destruct (u64_incr _); [|done]. run. intros [= _ <-] q.
  unfold find_process. cbn. rewrite (find_find_upd_eq _ _ _ p); [|intros ? _; apply Z.eqb_eq; cbn in *; congruence|exact Ep].
  intros [= <-]. cbn in *. congruence.
Qed.

Lemma resume_parent_named parent child k r k' : Table.resume_waiting_parent parent child k = Done (Some r, k') ->
  (parent, Table.wre_p4_frame r) ∈ places k /\ forall p, find_process k' parent = Some p -> pr_state p = PRunning.
Proof.
  unfold Table.resume_waiting_parent. run. destruct (find_process k child) as [c|]; [|done]. destruct (negb _); [done|]. destruct (negb _); [done|].
  destruct (find_process k parent) as [p|] eqn:Ep; [|done]. destruct (negb _); [done|].
  destruct (TStore.main _) as [m|]; [|done]. destruct (th_resume_context m) as [x|]; [|done]. destruct (set_state _ _) as [c'|]; [|done].
  destruct (put_process _ _ _) as [[? k1]|]; [|done].
  match goal with |- match ?m with Done _ => _ | Panic => _ end = _ -> _ => destruct m as [[? k2]|]; [|done] end.
  destruct (Table.start_process_run _ _) as [[? k3]|] eqn:Es; [|done]. intros [= <- <-]. cbn [Table.wre_p4_frame].
  split; [|by eapply start_run_running]. pose proof (find_process_in _ _ _ Ep) as Hin. apply find_Some in Ep as [_ <-%Z.eqb_eq]. by apply place_of.
Qed.

Lemma parent_given parent child k : kernel_ok k -> switches k < u64_max ->
  wp (Current.resume_waiting_parent parent child) (fun r k' =>
    match r with
    | Some r => exists p tid, p ∈ pt_processes (k_table k') /\ pr_pid p = parent /\ pr_state p = PRunning /\ given k parent tid (Table.wre_p4_frame r) k'
    | None => kstep true k k' /\ switches k' <= switches k + 1
    end) k.
Proof.
  intros Hk Hr. unfold Current.resume_waiting_parent. apply wp_bind.
  eapply wp_mono; [apply (wp_of _ (fun _ k' => kstep true k k' /\ switches k' <= switches k + 1) (fun r k' => forall x, r = Some x -> (parent, Table.wre_p4_frame x) ∈ places k /\ forall p, find_process k' parent = Some p -> pr_state p = PRunning));
    [apply (safe1_counted true); [intros; eauto with vantara|done|done]|intros r st E x ->; by eapply resume_parent_named]|].
  cbv beta. intros r k1 [[H1 S1] Hn]. destruct r as [r|]; [|done]. destruct (Hn r eq_refl) as [Hpl Hrun]. clear Hn. rename Hpl into Hn. rewrite <- (ks_places _ _ _ H1) in Hn.
  apply wp_bind. change (wp get ?Q k1) with (Q k1 k1). cbv beta. destruct (place_found _ _ _ Hn) as [p Hp]. specialize (Hrun p Hp). rewrite Hp. cbn [fmap option_fmap option_map].
  apply wp_bind. eapply wp_mono; [apply wp_and; [apply (set_current_given k k1 _ _ (Table.wre_p4_frame r)); [by eapply kstep_any|done]|]|].
  { instantiate (1 := fun _ k' => pt_processes (k_table k') = pt_processes (k_table k1)). reflexivity. }
  intros ? k' [Hg E]. exists p, (main_tid p). rewrite E. split; [by eapply find_process_in|]. by apply find_pid in Hp.
Qed.

(** ** The functions of process.rs that end or leave a thread *)

Ltac kernel_fine := solve [assumption | eapply mv_ok; eassumption].

(** One rule of [quiet], chosen by the code. *)
Ltac quiet1 :=
  lazymatch goal with
  | |- quiet (mret _) _ => apply quiet_ret; kernel_fine
  | |- quiet get _ => apply (quiet_ret ()); kernel_fine
  | |- quiet (gets _) _ => apply (quiet_ret ()); kernel_fine
  | |- quiet (modify _) _ => apply outside_quiet; [intros ?; repeat case_match; done | kernel_fine]
  | |- quiet (Current.close_process_files _) _ => apply close_files_quiet; kernel_fine
  | |- quiet (Current.release_frame _) _ => apply release_quiet; kernel_fine
  | |- quiet (match ?x with _ => _ end) _ => destruct x eqn:?
  | |- quiet (_ ≫= _) _ => apply quiet_bind; [|intros ? ? ?]
  | |- quiet _ _ => solve [apply safe_quiet; [intros ?; eauto with vantara | kernel_fine]]
  end.
Ltac quiets := cbv zeta; repeat (quiet1; cbv beta iota zeta).

Section quiet.
Context (k : Kernel) (Hk : kernel_ok k).

Lemma blocked_quiet : quiet Current.checkout_current_user_if_blocked k.
Proof using Hk. unfold Current.checkout_current_user_if_blocked, Current.set_current_user. quiets. Qed.

Lemma exception_quiet rip status : quiet (Current.mark_current_user_exception rip status) k.
Proof using Hk. unfold Current.mark_current_user_exception, Current.take_current_user. quiets. Qed.

Lemma fault_quiet addr rip status : quiet (Current.mark_current_user_fault addr rip status) k.
Proof using Hk. unfold Current.mark_current_user_fault, Current.take_current_user. quiets. Qed.

Lemma take_request_quiet pid : quiet (with_programs (Programs.take_user_shell_wait_request_for_child pid)) k.
Proof using Hk.
  apply programs_quiet; [|done]. intros ps. unfold wp, Programs.take_user_shell_wait_request_for_child. run. by destruct (position _ _).
Qed.

Lemma clear_job_quiet pid : quiet (Current.clear_terminal_foreground_job pid) k.
Proof using Hk. unfold Current.clear_terminal_foreground_job. quiets. Qed.
End quiet.

Lemma terminal_quiet signal k : kernel_ok k -> quiet (Current.deliver_terminal_signal signal) k.
Proof.
  intros Hk. unfold Current.deliver_terminal_signal, Current.terminate_user_process, tryS. quiets.
  all: first [apply clear_job_quiet; kernel_fine | apply take_request_quiet; kernel_fine | idtac].
  apply safe_quiet; [|kernel_fine]. intros Sh. apply stop_user_process_safe. apply Z.eqb_eq in Heqb0. rewrite Heqb0. by vm_compute.
Qed.

Lemma exception_reported rip status k pid tid : kernel_ok k -> on_processor k pid tid ->
  wp (Current.mark_current_user_exception rip status) (fun r _ => is_some r = true) k.
Proof.
  intros Hk Ho. unfold Current.mark_current_user_exception. apply wp_bind, (taken k pid tid); [done..|]. intros k1 Hk1 Hp1.
  apply wp_bind. eapply (steps_wp false); [by apply close_process_files_steps|]. intros ? k2 H2. apply wp_gets.
  assert (is_Some (find_process k2 pid)) as [p ->].
  { apply (kstep_find _ _ _ _ H2). rewrite places_find, Hp1, <- places_find. apply Ho. }
  apply wp_bind. eapply (steps_wp false); [apply safe_steps; [intros; eauto with vantara|apply H2]|]. intros ? k3 H3.
  apply wp_bind. eapply (steps_wp false); [apply (outside_kstep (b := false)); [by intros ?|apply H3]|]. intros ? k4 H4.
  apply wp_bind. eapply (steps_wp false); [apply release_frame_steps, H4|]. by intros.
Qed.

(** ** The timer *)

(** The processor stays with its thread. *)
Record steady (k k' : Kernel) : Prop := {
  sd_moves : moves k k';
  sd_places : places k' = places k;
  sd_cur : cur k' = cur k;
  sd_switches : switches k' <= switches k;
}.

Lemma steady_trans k1 k2 k3 : steady k1 k2 -> steady k2 k3 -> steady k1 k3.
Proof. intros [M1 P1 C1 S1] [M2 P2 C2 S2]. split; [by eapply moves_trans|congruence|congruence|lia]. Qed.

Lemma safe_steady {A} (m : M Kernel A) k : (forall Sh, safe Sh 0 m any) -> kernel_ok k -> wp m (fun _ k' => steady k k') k.
Proof.
  intros Hs Hk. eapply wp_mono; [apply wp_and; [apply (safe_quiet m k Hs Hk)|apply (safe_steps (b := true) m k Hs Hk)]|].
  intros a k' [[H1 S1] H2]. split; [done|apply H2|by apply H2|done].
Qed.

Lemma outside_steady f k : outside true f -> kernel_ok k -> wp (modify f) (fun _ k' => steady k k') k.
Proof.
  intros Hf Hk. pose proof (outside_kstep f k Hf Hk) as H. split; [by eapply kstep_moves|apply H|by apply H|].
  unfold switches. destruct (Hf k) as (-> & _). lia.
Qed.

Lemma tick_steady k : kernel_ok k -> (k_ticks k + 1) * 1000 <= u64_max -> wp Current.timer_tick (fun _ k' => steady k k') k.
Proof.
  intros [Hwf Hi Hipc [H0 H1]] Ht. unfold Current.timer_tick, wp. run. destruct (Z.eqb_spec (k_ticks k) u64_max); [lia|]. run.
  split; [|done|done|unfold switches; cbn; lia]. split; [|done..]. split; [exact Hwf|exact Hi|done|]. cbn. unfold u64_wrapping_incr.
  rewrite Z.mod_small; lia.
Qed.

Lemma timer_given user k : kernel_ok k -> (k_ticks k + 1) * 1000 <= u64_max -> switches k < u64_max ->
  wp (Current.timer_interrupt_dispatch user) (fun r k' =>
    match r with
    | Some r => given k (Table.sc_pid r) (Table.sc_tid r) (Table.sc_p4_frame r) k'
    | None => moves k k' /\ places k' = places k /\ cur k' = cur k
    end) k.
Proof.
  intros Hk Ht Hs. unfold Current.timer_interrupt_dispatch. apply wp_bind. eapply wp_mono; [by apply tick_steady|]. intros ? k1 H1.
  apply wp_bind. assert (wp Current.record_timer_preemption_check (fun _ k' => steady k1 k') k1) as Hc.
  { unfold Current.record_timer_preemption_check. apply wp_bind. eapply wp_mono; [apply (outside_steady _ k1); [by intros ?|apply H1]|]. intros ? k2 H2.
    apply wp_bind. change (wp get ?Q k2) with (Q k2 k2). cbv beta. destruct (_ =? 0); [done|]. destruct (_ <? _); [done|].
    eapply wp_mono; [apply (outside_steady _ k2); [by intros ?|apply H2]|]. intros ? k3. by apply steady_trans. }
  eapply wp_mono; [exact Hc|]. intros ? k2 H2. pose proof (steady_trans _ _ _ H1 H2) as H12. destruct user as [c|]; [|by destruct H12].
  apply wp_bind, wp_ret. apply wp_gets. apply wp_bind. eapply wp_mono; [apply safe_steady; [intros; eauto with vantara|apply (mv_ok _ _ (sd_moves _ _ H12))]|]. intros ? k3 H3.
  pose proof (steady_trans _ _ _ H12 H3) as [M3 P3 C3 S3]. eapply wp_mono; [apply preempt_given; [apply H3|lia]|]. intros r k4 H4.
  destruct r as [r|]; [destruct H4 as [M4 P4 C4]; split; [by eapply moves_trans|done..]|].
  split; [eapply moves_trans; [exact M3|by eapply kstep_moves]|]. rewrite (ks_places _ _ _ H4), (ks_cur _ _ _ H4 eq_refl). done.
Qed.

(** ** Cleaning up the table keeps running processes *)

(** [p] stays in the table and the thread stays on the processor. *)
Definition keeps (p : Process) (k k' : Kernel) : Prop := cur k' = cur k /\ (p ∈ pt_processes (k_table k) -> p ∈ pt_processes (k_table k')).

Lemma keeps_refl p k : keeps p k k.
Proof. done. Qed.

Lemma keeps_trans p k1 k2 k3 : keeps p k1 k2 -> keeps p k2 k3 -> keeps p k1 k3.
Proof. intros [E1 H1] [E2 H2]. split; [congruence|auto]. Qed.

Lemma find_upd_elem {A} (q : A -> bool) f (l : list A) x : x ∈ l -> q x = false -> x ∈ find_upd q f l.
Proof.
  intros Hx Hq. induction l as [|y l IH]; [done|]. cbn [find_upd]. apply elem_of_cons in Hx as [->|Hx].
  - rewrite Hq. apply list_elem_of_here.
  - destruct (q y); apply list_elem_of_further; auto.
Qed.

Lemma store_remove_elem pid l p : p ∈ l -> pr_pid p <> pid -> p ∈ Table.store_remove pid l.
Proof.
  intros Hp Hne. unfold Table.store_remove. destruct (position _ l) as [i|] eqn:E; [|done]. apply position_Some in E as (q & Hq & Hid & _).
  apply list_elem_of_lookup_1 in Hp as [j Hj]. rewrite delete_take_drop.
  apply elem_of_app. destruct (decide (j < i)%nat) as [Hlt|Hge].
  - left. apply (list_elem_of_lookup_2 _ j). by rewrite lookup_take_lt.
  - right. destruct (decide (j = i)) as [->|]; [rewrite Hq in Hj; injection Hj as ->; lia|].
    apply (list_elem_of_lookup_2 _ (j - S i)). rewrite lookup_drop. by replace (S i + (j - S i))%nat with j by lia.
Qed.

Lemma reap_all_keeps p pids : pr_pid p ∉ pids -> forall n k, wp (Table.reap_all pids n) (fun _ k' => keeps p k k') k.
Proof.
  induction pids as [|pid pids IH]; intros Hn n k; [done|]. apply not_elem_of_cons in Hn as [Hne Hn]. cbn [Table.reap_all].
  apply wp_gets. destruct (find_process k pid) as [q|]; [|by apply IH]. unfold put_process, mod_table, wp. run. unfold set_state at 1. cbn [is_dead]. run.
  match goal with |- context [Table.reap_all pids (S n) ?k1] => pose proof (IH Hn (S n) k1) as H; set (k2 := k1) in * end.
  apply (wp_mono _ _ _ _ H). intros _ k'. apply keeps_trans. split; [done|]. intros Hp. apply find_upd_elem; [done|lia].
Qed.

Lemma remove_all_keeps p pids : pr_pid p ∉ pids -> forall k, wp (Table.remove_all pids) (fun _ k' => keeps p k k') k.
Proof.
  induction pids as [|pid pids IH]; intros Hn k; [done|]. apply not_elem_of_cons in Hn as [Hne Hn]. cbn [Table.remove_all].
  unfold Table.remove_from_ready_queue, Table.retain_ready, mod_table, wp. run.
  match goal with |- context [Table.remove_all pids ?k1] => pose proof (IH Hn k1) as H; set (k2 := k1) in * end.
  apply (wp_mono _ _ _ _ H). intros _ k'. apply keeps_trans. split; [done|]. intros Hp. by apply store_remove_elem.
Qed.

Lemma not_selected q k p : kernel_ok k -> p ∈ pt_processes (k_table k) -> q p = false -> pr_pid p ∉ Table.pids_where q k.
Proof.
  intros Hk Hp Hq (p' & E & [Hin Hq']%list_elem_of_In%filter_In)%list_elem_of_fmap. apply list_elem_of_In in Hin.
  pose proof (find_process_elem _ _ _ (ko_wf _ Hk) Hp) as E1. pose proof (find_process_elem _ _ _ (ko_wf _ Hk) Hin) as E2. rewrite E, E2 in E1. congruence.
Qed.

Section running.
Context (p : Process) (Hrun : pr_state p = PRunning).

Lemma reap_unwaited_keeps k : kernel_ok k -> p ∈ pt_processes (k_table k) -> wp Table.reap_unwaited_zombies (fun _ k' => keeps p k k') k.
Proof using Hrun.
  intros Hk Hp. apply reap_all_keeps, not_selected; [done..|]. unfold Table.is_zombie. by rewrite Hrun.
Qed.

Lemma reap_orphan_keeps k : kernel_ok k -> p ∈ pt_processes (k_table k) -> wp Table.reap_orphan_zombies (fun _ k' => keeps p k k') k.
Proof using Hrun.
  intros Hk Hp. apply reap_all_keeps, not_selected; [done..|]. unfold Table.is_zombie. by rewrite Hrun.
Qed.

Lemma compact_keeps k : kernel_ok k -> p ∈ pt_processes (k_table k) -> wp Current.compact_reaped_history (fun _ k' => keeps p k k') k.
Proof using Hrun.
  intros Hk Hp. unfold Current.compact_reaped_history, Table.compact_reaped_history. apply wp_bind. change (wp get ?Q k) with (Q k k). cbv beta zeta.
  apply wp_bind. eapply wp_mono; [apply remove_all_keeps|intros ? k' H; exact H]. intros (i & Hin%list_elem_of_lookup_2 & _)%elem_of_take. revert Hin.
  apply not_selected; [done..|]. by rewrite Hrun.
Qed.
End running.

(** ** The system between two events *)

Section system.
Context `{Laws : EntryLaws} {F : Type}.
Context (offset : Z) (m0 : memory) (active : Z) (parts : list (list Z)).
Context (mounts : list (Mount F)) (images : list UserlandImage).
Context (good : F -> Prop) (off_ok : F -> VfsNodeId -> nat -> Prop) {Fs : FsLaws mounts good off_ok}.
Implicit Types y : System F.
Notation sys_ok := (sys_ok offset m0 active parts good off_ok).
Notation after := (after offset m0 active parts good off_ok).

(** Whatever page table is loaded; each page table of a process is that of a
    slot of the pool. *)
Record between y : Prop := {
  bw_pool : pool_state offset m0 active parts (pool_of y) (memory_of y);
  bw_offset : ad_offset_value (k_addr (y_kernel y)) = offset;
  bw_nonzero : offset <> 0;
  bw_private : forall s, s ∈ live_slots (pool_of y) -> boot_private offset m0 active (sl_program_frame_count s);
  bw_kernel : kernel_ok (y_kernel y);
  bw_fs : good (y_fs y);
  bw_files : files_ok off_ok (y_fs y) (files_of y);
  bw_log : uart_wf (dv_log (y_devices y));
  bw_kernel_p4 : forall f, y_kernel_p4 y = Some f -> containing_frame f = f;
  bw_places : forall pid f, (pid, Some f) ∈ places (y_kernel y) -> exists s, s ∈ live_slots (pool_of y) /\ sl_p4_frame s = f;
}.

Lemma same_ids (l l' : list PreparedP4Slot) s : map slot_id l' = map slot_id l -> s ∈ l' ->
  exists s', s' ∈ l /\ sl_p4_frame s' = sl_p4_frame s /\ sl_program_frame_count s' = sl_program_frame_count s.
Proof using.
  intros E Hs. assert (slot_id s ∈ map slot_id l) as (s' & Es & Hs')%list_elem_of_fmap by (rewrite <- E; by apply list_elem_of_fmap_2).
  exists s'. unfold slot_id in Es. injection Es as E1 _ E3 _. done.
Qed.

Lemma between_ids y y' : between y -> map slot_id (live_slots (pool_of y')) = map slot_id (live_slots (pool_of y)) ->
  (forall x, x ∈ places (y_kernel y') -> x ∈ places (y_kernel y)) ->
  (forall s, s ∈ live_slots (pool_of y') -> boot_private offset m0 active (sl_program_frame_count s)) /\
  (forall pid f, (pid, Some f) ∈ places (y_kernel y') -> exists s, s ∈ live_slots (pool_of y') /\ sl_p4_frame s = f).
Proof using.
  intros Hb E Hp. split.
  - intros s Hs. destruct (same_ids _ _ s E Hs) as (s' & Hs' & _ & <-). by apply Hb.
  - intros pid f Hin. destruct (bw_places _ Hb pid f (Hp _ Hin)) as (s & Hs & <-).
    destruct (same_ids _ _ s (eq_sym E) Hs) as (s' & Hs' & E' & _). by exists s'.
Qed.

Lemma between_moves y k' : between y -> moves (y_kernel y) k' -> between (y <| y_kernel := k' |>).
Proof using.
  intros Hb [Hk [Ha Hm] Hf Hp]. unfold addr_frozen in Ha. pose proof (f_equal snd Ha) as Hids. pose proof (f_equal (fun x => x.1.2) Ha) as Hov. cbn [fst snd] in *.
  destruct (between_ids y (y <| y_kernel := k' |>) Hb) as [H1 H2]; [exact Hids|exact Hp|]. destruct Hb as [Bp Bo Bn _ Bk Bf Bfiles Bl Bkp _].
  split; [| |done|exact H1|done|done| |done|done|exact H2].
  - unfold memory_of. cbn. rewrite Hm. apply (pool_state_ids offset m0 active parts (pool_of y)); [done|apply (ko_wf _ Hk)|done].
  - cbn. by rewrite Hov.
  - unfold files_ok in *. rewrite Forall_forall in *. intros [f|] He; [|done]. apply Bfiles. by apply Hf.
Qed.

Lemma between_cr3 y c : between y -> between (y <| y_cr3 := c |>).
Proof using. by intros []. Qed.

Lemma between_after b s y y' : between y -> after s b y y' -> between y'.
Proof using.
  intros Hb [[[Hp Ho Hnz _ _ _ _] Hk Hf Hfiles Hlog] _ _ Hkp Hids Hpl _].
  destruct (between_ids y y' Hb Hids) as [H1 H2]; [by rewrite Hpl|]. split; try done. rewrite Hkp. apply Hb.
Qed.

(** On the page table of a slot the system is ready for system calls. *)
Lemma between_sys_ok s y : between y -> s ∈ live_slots (pool_of y) -> (y_cr3 y).1 = sl_p4_frame s -> sys_ok s y.
Proof using.
  intros Hb Hs Hc. destruct Hb as [Bp Bo Bn Bpr Bk Bf Bfiles Bl _ _]. split; [split|done..]; try done; [by apply list_elem_of_fmap_2| |by apply Bpr].
  apply (live_slot_wf (pool_of y)); [apply (ps_wf _ _ _ _ _ _ Bp)|done].
Qed.

(** ** Functions that leave memory alone *)

Record calm y y' : Prop := {
  ca_between : between y';
  ca_memory : memory_of y' = memory_of y;
  ca_kernel_p4 : y_kernel_p4 y' = y_kernel_p4 y;
}.

Lemma calm_refl y : between y -> calm y y.
Proof using. by split. Qed.

Lemma calm_trans y1 y2 y3 : calm y1 y2 -> calm y2 y3 -> calm y1 y3.
Proof using. intros [_ E1 E2] [H E1' E2']. split; [done|congruence..]. Qed.

Lemma moves_calm y k' : between y -> moves (y_kernel y) k' -> calm y (y <| y_kernel := k' |>).
Proof using. intros Hy Hm. split; [by apply between_moves| |done]. exact (proj2 (mv_addr _ _ Hm)). Qed.

Lemma calm_quiet {A} (m : M Kernel A) y : between y -> quiet m (y_kernel y) ->
  wp (with_kernel m) (fun _ y' => calm y y' /\ switches (y_kernel y') <= switches (y_kernel y)) y.
Proof using.
  unfold quiet, wp, with_kernel. intros Hy. destruct (m (y_kernel y)) as [[a k']|]; [|done]. intros [H1 H2]. split; [by apply moves_calm|done].
Qed.

(** The thread on the processor stays in the table. *)
Definition keeps_running k k' : Prop := forall p, pr_state p = PRunning -> p ∈ pt_processes (k_table k) -> keeps p k k'.

Lemma keeps_running_trans k1 k2 k3 : keeps_running k1 k2 -> keeps_running k2 k3 -> keeps_running k1 k3.
Proof using. intros H1 H2 p Hr Hp. pose proof (H1 p Hr Hp) as H. apply (keeps_trans p k1 k2 k3 H), H2; [done|]. by apply H. Qed.

Record tidy y y' : Prop := {
  td_calm : calm y y';
  td_switches : switches (y_kernel y') <= switches (y_kernel y);
  td_keeps : keeps_running (y_kernel y) (y_kernel y');
}.

Lemma tidy_trans y1 y2 y3 : tidy y1 y2 -> tidy y2 y3 -> tidy y1 y3.
Proof using. intros [H1 S1 K1] [H2 S2 K2]. split; [by eapply calm_trans|lia|by eapply keeps_running_trans]. Qed.

Lemma tidy_kernel {A} (m : M Kernel A) y : between y -> quiet m (y_kernel y) ->
  (forall p, pr_state p = PRunning -> p ∈ pt_processes (k_table (y_kernel y)) -> wp m (fun _ k' => keeps p (y_kernel y) k') (y_kernel y)) ->
  wp (with_kernel m) (fun _ y' => tidy y y') y.
Proof using.
  intros Hy Hq Hk. pose proof (calm_quiet m y Hy Hq) as Hc. unfold wp, with_kernel in *. destruct (m (y_kernel y)) as [[a k']|]; [|done].
  split; [apply Hc..|]. exact Hk.
Qed.

Lemma maintain_calm y : between y -> wp maintain_process_table (fun _ y' => tidy y y') y.
Proof using.
  intros Hy. unfold maintain_process_table. apply wp_bind.
  eapply wp_mono; [apply tidy_kernel; [done|apply safe_quiet; [intros; eauto with vantara|apply Hy]|intros; apply reap_unwaited_keeps; [done|apply Hy|done]]|].
  intros ? y1 H1. pose proof (ca_between _ _ (td_calm _ _ H1)) as B1. apply wp_bind.
  eapply wp_mono; [apply tidy_kernel; [done|apply safe_quiet; [intros; eauto with vantara|apply B1]|intros; apply reap_orphan_keeps; [done|apply B1|done]]|].
  intros ? y2 H2. pose proof (ca_between _ _ (td_calm _ _ H2)) as B2. apply wp_bind.
  eapply wp_mono; [apply tidy_kernel; [done|apply compact_quiet, B2|intros; apply compact_keeps; [done|apply B2|done]]|].
  intros ? y3 H3. apply wp_ret. exact (tidy_trans _ _ _ H1 (tidy_trans _ _ _ H2 H3)).
Qed.

(** ** The landing *)

(** A thread of a process of the table is on the processor; the page table of
    the process, if it has one, is loaded. *)
Definition inside y : Prop := exists pid tid p4,
  on_processor (y_kernel y) pid tid /\ (pid, p4) ∈ places (y_kernel y) /\ forall f, p4 = Some f -> (y_cr3 y).1 = f.

(** Where the processor goes on. *)
Definition landed y (t : Transfer) y' : Prop := calm y y' /\
  match t with
  | EventLoop => True
  | EnterUser _ _ => False
  | ResumeUser _ _ => inside y'
  end.

Lemma landed_before y y1 t y' : calm y y1 -> landed y1 t y' -> landed y t y'.
Proof using. intros H [H1 H2]. split; [by eapply calm_trans|done]. Qed.

Lemma enter_landed y y1 pid tid p4 c v : calm y y1 -> on_processor (y_kernel y1) pid tid -> (pid, p4) ∈ places (y_kernel y1) ->
  wp (enter_on p4 (ResumeUser c v)) (landed y) y1.
Proof using.
  intros [Hb E1 E2] Ho Hp. unfold enter_on, load_cr3. destruct p4 as [f|].
  - split; [split; [by apply between_cr3|done..]|]. exists pid, tid, (Some f). split; [done|]. split; [done|]. by intros ? [= ->].
  - split; [by split|]. by exists pid, tid, None.
Qed.

Lemma respawn_landed e y : between y -> switches (y_kernel y) < u64_max ->
  wp (update_user_shell_respawn e) (fun r y' =>
    match r with Some t => landed y t y' | None => calm y y' /\ switches (y_kernel y') <= switches (y_kernel y) + 1 end) y.
Proof using.
  intros Hy Hs. unfold update_user_shell_respawn. destruct e as [[[child ?] ?]|]; [|split; [by apply calm_refl|lia]].
  apply wp_bind. eapply wp_mono; [apply calm_quiet; [done|apply clear_job_quiet, Hy]|]. intros ? y1 [H1 S1].
  apply wp_bind. eapply wp_mono; [apply calm_quiet; [apply H1|apply take_request_quiet, H1]|]. intros request y2 [H2 S2].
  pose proof (calm_trans _ _ _ H1 H2) as H12. destruct request as [rq|]; [|split; [done|lia]].
  apply wp_with_kernel. eapply wp_mono; [apply parent_given; [apply H2|lia]|]. intros resume k' Hr. destruct resume as [r|].
  - destruct Hr as (p & tid & Hp & Hid & Hrun & Hg). assert (calm y (y2 <| y_kernel := k' |>)) as H3.
    { eapply calm_trans; [exact H12|]. apply moves_calm; [apply H2|apply Hg]. }
    apply wp_bind. eapply wp_mono; [apply maintain_calm, (ca_between _ _ H3)|]. intros ? y4 [H4 _ K4]. destruct (K4 p Hrun Hp) as [Ec Hin]. specialize (Hin Hp).
    assert (on_processor (y_kernel y4) (wr_shell_pid rq) tid) as Ho.
    { split; [rewrite Ec; apply (proj1 (gv_cur _ _ _ _ _ Hg))|]. rewrite <- Hid. apply places_find, list_elem_of_fmap. eexists. split; [|by apply place_of]. done. }
    assert ((pr_pid p, as_p4_frame (pr_address_space p)) ∈ places (y_kernel y4)) as Hpl by by apply place_of.
    assert (as_p4_frame (pr_address_space p) = Table.wre_p4_frame r) as Ep4.
    { destruct Hg as [Hm Hg _]. apply list_elem_of_fmap in Hg as (q & [= Eq Ep] & Hq). rewrite Ep. do 2 f_equal.
      pose proof (find_process_elem _ _ _ (ko_wf _ (mv_ok _ _ Hm)) Hp). pose proof (find_process_elem _ _ _ (ko_wf _ (mv_ok _ _ Hm)) Hq). congruence. }
    apply wp_bind. eapply wp_mono; [apply (enter_landed y y4 (wr_shell_pid rq) tid); [by eapply calm_trans|done|congruence]|]. by intros.
  - destruct Hr as [Hr S3]. assert (calm y (y2 <| y_kernel := k' |>)) as H3.
    { eapply calm_trans; [exact H12|]. apply moves_calm; [apply H2|by eapply kstep_moves]. }
    apply wp_bind. eapply wp_mono; [apply calm_quiet; [apply H3|apply safe_quiet; [intros; eauto with vantara|apply Hr]]|]. intros ? y4 [H4 S4].
    apply wp_bind. eapply wp_mono; [apply calm_quiet; [apply H4|apply safe_quiet; [intros; eauto with vantara|apply H4]]|]. intros ? y5 [H5 S5].
    split; [exact (calm_trans _ _ _ H3 (calm_trans _ _ _ H4 H5))|]. cbn in *. lia.
Qed.

Lemma set_cr3 y c : set_paging (mkPaging (k_addr (y_kernel y)) c (y_kernel_p4 y)) y = y <| y_cr3 := c |>.
Proof using. by destruct y as [[] ? ? ? ? ? ? ? ?]. Qed.

Lemma same_cr3 y : y <| y_cr3 := y_cr3 y |> = y.
Proof using. by destruct y. Qed.

Lemma read_paging {A B} (g : PagingState -> A) (f : A -> M (System F) B) Q y : wp (f (g (paging y))) Q y -> wp (with_paging (gets g) ≫= f) Q y.
Proof using. intros H. apply wp_bind. unfold wp at 1, with_paging, paging. run. by rewrite set_cr3, same_cr3. Qed.

Lemma calm_cr3 y c : between y -> calm y (y <| y_cr3 := c |>).
Proof using. intros Hy. split; [by apply between_cr3|done..]. Qed.

Lemma restore_p4_only y : wp (with_paging restore_kernel_p4) (fun _ y' => exists c, y' = y <| y_cr3 := c |>) y.
Proof using.
  unfold wp, with_paging, restore_kernel_p4, kernel_p4_frame, switch_to_p4_frame, write_cr3, active_p4_frame, paging. run.
  destruct (y_kernel_p4 y) as [f|] eqn:E; run.
  - destruct (y_cr3 y) as [f0 flags] eqn:Ec. cbn [pg_kernel_p4]. run. unfold set. cbn [pg_cr3 pg_addr pg_kernel_p4 fst].
    destruct (negb _); cbn [pg_cr3 pg_addr pg_kernel_p4]; rewrite <- E, set_cr3; eauto.
  - cbn [pg_kernel_p4]. rewrite <- E, set_cr3. eauto.
Qed.

Lemma landing_landed y : between y -> switches (y_kernel y) + 2 <= u64_max -> wp user_exit_landing (landed y) y.
Proof using.
  intros Hy0 Hs. unfold user_exit_landing. apply wp_bind. eapply wp_mono; [apply restore_p4_only|]. intros ? y' [c ->].
  assert (calm y (y <| y_cr3 := c |>)) as H0 by by apply calm_cr3. set (yc := y <| y_cr3 := c |>) in *. pose proof (ca_between _ _ H0) as Hy.
  change (switches (y_kernel yc) + 2 <= u64_max) in Hs. clearbody yc.
  apply wp_bind. eapply wp_mono; [apply calm_quiet; [done|apply blocked_quiet, Hy]|]. intros blocked y1 [H1 S1].
  pose proof (calm_trans _ _ _ H0 H1) as H01. destruct (is_some blocked).
  { apply wp_bind. eapply wp_mono; [apply maintain_calm, H1|]. intros ? y2 [H2 _ _]. apply wp_ret. split; [by eapply calm_trans|done]. }
  unfold kernel. apply wp_gets. destruct (Programs.has_pending _).
  { apply wp_bind. eapply wp_mono; [apply maintain_calm, H1|]. intros ? y2 [H2 _ _]. apply wp_ret. split; [by eapply calm_trans|done]. }
  apply wp_bind. eapply wp_mono; [apply maintain_calm, H1|]. intros ? y2 [H2 S2 _]. apply wp_gets.
  pose proof (calm_trans _ _ _ H01 H2) as H02.
  apply wp_bind. eapply wp_mono; [apply respawn_landed; [apply H2|lia]|]. intros resumed y3 H3. destruct resumed as [t|]; [by eapply landed_before|].
  destruct H3 as [H3 S3]. apply wp_bind. eapply wp_mono; [apply maintain_calm, H3|]. intros ? y4 [H4 S4 _].
  pose proof (calm_trans _ _ _ H02 (calm_trans _ _ _ H3 H4)) as H5.
  apply wp_with_kernel. eapply wp_mono; [apply schedule_given; [apply H4|lia]|]. intros resume k' Hr. destruct resume as [r|].
  - unfold resume_scheduled_user. apply (enter_landed y _ (Table.sc_pid r) (Table.sc_tid r)); [|apply Hr..].
    eapply calm_trans; [exact H5|]. apply moves_calm; [apply H4|apply Hr].
  - split; [|done]. eapply calm_trans; [exact H5|]. apply moves_calm; [apply H4|by eapply kstep_moves].
Qed.

(** ** Exceptions *)

Lemma exception_landed status rip y pid tid : between y -> on_processor (y_kernel y) pid tid -> switches (y_kernel y) + 2 <= u64_max ->
  wp (contain_user_exception status rip) (landed y) y.
Proof using.
  intros Hy Ho Hs. unfold contain_user_exception. apply wp_with_kernel.
  eapply wp_mono; [apply wp_and; [apply exception_quiet, Hy|apply (exception_reported rip status _ pid tid); [apply Hy|done]]|].
  intros r k' [[H1 S1] Hr]. destruct r as [r|]; [|done]. pose proof (moves_calm y k' Hy H1) as Hc.
  eapply wp_mono; [apply landing_landed; [apply Hc|cbn; lia]|]. intros t y'. by apply landed_before.
Qed.

Lemma fault_landed addr rip y : between y -> switches (y_kernel y) + 2 <= u64_max -> wp (page_fault_handler true addr rip) (landed y) y.
Proof using.
  intros Hy Hs. unfold page_fault_handler. apply wp_bind. eapply wp_mono; [apply calm_quiet; [done|apply fault_quiet, Hy]|]. intros ? y1 [H1 S1].
  eapply wp_mono; [apply landing_landed; [apply H1|lia]|]. intros t y'. by apply landed_before.
Qed.

(** ** The rounds of the event loop *)

Lemma ready_landed signal y : between y -> switches (y_kernel y) < u64_max ->
  wp (run_ready_user_process signal) (fun r y' => match r.2 with Some t => landed y t y' | None => calm y y' end) y.
Proof using.
  intros Hy Hs. unfold run_ready_user_process. apply wp_bind.
  eapply (wp_mono _ (fun _ y' => calm y y' /\ switches (y_kernel y') <= switches (y_kernel y))).
  { destruct signal as [sg|]; [|split; [by apply calm_refl|lia]]. apply wp_bind. eapply wp_mono; [apply calm_quiet; [done|apply terminal_quiet, Hy]|]. by intros. }
  intros requeued y1 [H1 S1]. unfold kernel. apply wp_gets. apply wp_bind.
  eapply wp_mono; [apply calm_quiet; [apply H1|apply safe_quiet; [intros; eauto with vantara|apply H1]]|]. intros ? y2 [H2 S2]. pose proof (calm_trans _ _ _ H1 H2) as H3.
  apply wp_with_kernel. eapply wp_mono; [apply schedule_given; [apply H2|lia]|]. intros resume k' Hr. destruct resume as [r|].
  - unfold resume_scheduled_user. apply wp_bind. eapply wp_mono; [apply (enter_landed y _ (Table.sc_pid r) (Table.sc_tid r)); [|apply Hr..]|by intros].
    eapply calm_trans; [exact H3|]. apply moves_calm; [apply H2|apply Hr].
  - apply wp_ret. eapply calm_trans; [exact H3|]. apply moves_calm; [apply H2|by eapply kstep_moves].
Qed.

(** ** The timer *)

Lemma switch_p4 y f : containing_frame f = f -> with_paging (switch_to_p4_frame f) y = Done (Ok f, y <| y_cr3 := (f, (y_cr3 y).2) |>).
Proof using.
  intros Hf. unfold with_paging, switch_to_p4_frame, write_cr3, active_p4_frame, paging. run. cbn [pg_cr3]. destruct (y_cr3 y) as [f0 flags] eqn:Ec.
  unfold set. cbn [pg_cr3 pg_addr pg_kernel_p4 fst]. rewrite Hf, Z.eqb_refl. cbn [negb]. rewrite set_cr3. done.
Qed.

Lemma place_frame_valid y pid f : between y -> (pid, Some f) ∈ places (y_kernel y) -> containing_frame f = f.
Proof using.
  intros Hy Hp. destruct (bw_places _ Hy _ _ Hp) as (s & Hs & <-). apply containing_frame_valid.
  apply list_elem_of_lookup in Hs as [i Hi]. destruct (Forall2_lookup_l _ _ _ _ _ (ps_slots _ _ _ _ _ _ (bw_pool _ Hy)) Hi) as (t & _ & Hst).
  by apply (slot_p4_valid offset m0 active t s (memory_of y)).
Qed.

Lemma timer_resumed user y : between y -> (k_ticks (y_kernel y) + 1) * 1000 <= u64_max -> switches (y_kernel y) < u64_max ->
  wp (timer_interrupt_dispatch user) (fun r y' => calm y y' /\
    match r with
    | Some _ => inside y'
    | None => cur (y_kernel y') = cur (y_kernel y) /\ places (y_kernel y') = places (y_kernel y) /\ y_cr3 y' = y_cr3 y
    end) y.
Proof using.
  intros Hy Ht Hs. unfold timer_interrupt_dispatch. apply wp_with_kernel. eapply wp_mono; [apply timer_given; [apply Hy|done|done]|].
  intros r k' Hr. destruct r as [r|]; [|destruct Hr as (Hm & Hp & Hc); split; [by apply moves_calm|done]].
  pose proof (moves_calm y k' Hy (gv_moves _ _ _ _ _ Hr)) as H1. set (y1 := y <| y_kernel := k' |>) in *.
  assert (on_processor (y_kernel y1) (Table.sc_pid r) (Table.sc_tid r) /\ (Table.sc_pid r, Table.sc_p4_frame r) ∈ places (y_kernel y1)) as [Ho Hp] by (split; apply Hr).
  clearbody y1. pose proof (ca_between _ _ H1) as B1.
  apply (read_paging pg_kernel_p4). cbn [paging pg_kernel_p4].
  set (target := match Table.sc_p4_frame r with Some f => Some f | None => y_kernel_p4 y1 end).
  assert (forall f, target = Some f -> containing_frame f = f) as Hv.
  { intros f. subst target. destruct (Table.sc_p4_frame r) as [g|]; [intros [= <-]; by eapply place_frame_valid|apply (bw_kernel_p4 _ B1)]. }
  assert (forall c, (forall f, target = Some f -> c.1 = f) -> calm y (y1 <| y_cr3 := c |>) /\ inside (y1 <| y_cr3 := c |>)) as Hgo.
  { intros c Hc. split; [eapply calm_trans; [exact H1|by apply calm_cr3]|]. exists (Table.sc_pid r), (Table.sc_tid r), (Table.sc_p4_frame r).
    split; [exact Ho|]. split; [exact Hp|]. intros f E. apply Hc. subst target. by rewrite E. }
  apply wp_bind. destruct target as [f|].
  2: { apply wp_ret, wp_ret. specialize (Hgo (y_cr3 y1)). rewrite same_cr3 in Hgo. by apply Hgo. }
  apply (read_paging (fun s => (pg_cr3 s).1)). cbn [paging pg_cr3]. destruct (Z.eqb_spec (y_cr3 y1).1 f) as [E|_].
  { apply wp_ret, wp_ret. specialize (Hgo (y_cr3 y1)). rewrite same_cr3 in Hgo. apply Hgo. congruence. }
  apply wp_bind. unfold wp at 1. rewrite switch_p4 by by apply Hv. apply wp_ret, wp_ret. apply Hgo. by intros ? [= ->].
Qed.
End system.
