(* ===== verification/SyscallTheorems.v ===== *)
(** * System calls: the theorems

    Every trap returns and stays within the caller's memory; copies from and
    to user memory are exact; signalling an event wakes the thread that has
    waited longest. *)

From S2P Require Import Prelude Utf8 Paths Vfs RamFs RamFsProofs FsLaws RamFsLaws Ring3 Ring3Proofs Elf ElfProofs AddrSpace AddrSpaceProofs PageTables PageTablesProofs PrivateTables PrivateMem PrivateProcess UserAccess Threads Program Ipc IpcProofs Process TableSafety Current CurrentProofs Text TextProofs Storage Persist PersistMount Mounts System Syscall UserMemory KernelSafety SyscallRules SyscallSafety.
Import Mounts.

(** ** User memory *)

Section user_memory.
Context `{Laws : EntryLaws} {F : Type}.
Context (offset : Z) (m0 : memory) (active : Z) (parts : list (list Z)).
Implicit Types y : System F.
Notation user_byte := (user_byte offset).

Lemma slot_user_view s y v : user_space offset m0 active parts s y -> 0 <= v -> slot_addr offset s v = Some (phys offset s v) ->
  user_byte (memory_of y) (y_cr3 y).1 v = Some (memory_of y (phys offset s v)).
Proof.
  intros Hu Hv Ha. destruct (user_space_slot offset m0 active parts s y Hu) as (t & _ & _ & _ & _ & Hst). rewrite (us_cr3 _ _ _ _ _ _ Hu).
  by apply (slot_addr_user_byte offset m0 active t s _ Hst).
Qed.

(** C5. Reading user memory.  From a state whose page tables are those the pool
    prepared, whose process table is well-formed and in which the running
    process's program area is in user space, the kernel reads a user range
    without a fault and without changing anything.  It succeeds exactly when the
    range is not empty, does not start at 0, lies in the running process's
    program or on the stack of one of its threads and below the end of user
    space, the loaded page table is that process's own (if it has one), and every
    byte of it is mapped for user code to read; then it returns the bytes user
    code would read, and otherwise [InvalidArgument]. *)
Theorem read_user_exact (s : PreparedP4Slot) (y : System F) (ptr len : Z) :
  user_space offset m0 active parts s y -> kernel_wf (y_kernel y) -> program_in_user_space (y_kernel y) -> 0 <= ptr -> 0 <= len ->
  exists r, read_user_bytes offset ptr len y = Done (r, y) /\
    (is_ok r = true <-> range_ok offset ReadAccess ptr len y) /\
    match r with
    | Ok bs => length bs = Z.to_nat len /\
        forall i b, bs !! i = Some b -> user_byte (memory_of y) (y_cr3 y).1 (ptr + Z.of_nat i) = Some b
    | Err e => e = InvalidArgument
    end.
Proof.
  intros Hu Hk Hp H0 Hl. destruct (read_user_bytes_spec offset m0 active parts s y Hu Hk Hp ptr len H0 Hl) as (r & E & Hr).
  exists r. split; [done|]. destruct r as [bs|e]; [|by destruct Hr]. destruct Hr as [Hr ->]. split; [done|].
  split; [apply length_user_bytes|]. intros i b Hi. unfold user_bytes in Hi. rewrite list_lookup_fmap in Hi.
  destruct (seq 0 (Z.to_nat len) !! i) as [j|] eqn:Ej; [|done]. apply lookup_seq in Ej as [-> Hj]. cbn [fmap option_fmap option_map] in Hi. injection Hi as <-.
  pose proof (ro_end _ _ _ _ _ Hr). apply slot_user_view; [done|lia|].
  destruct (may_phys offset m0 active parts s y ReadAccess (ptr + Z.of_nat i) Hu) as [Ha _]; [unfold user_address, USER_END in *; lia| |done].
  apply (ro_may _ _ _ _ _ Hr). lia.
Qed.

(** C4. Writing user memory.  From a state as in C5, copying to a user buffer
    never faults.  It succeeds exactly when the data is not empty and fits the
    buffer, the range it fills does not start at 0, lies in the running
    process's program or on the stack of one of its threads and below the end of
    user space, the loaded page table is that process's own (if it has one), and
    every byte of the range is mapped for user code to write.  Then user code
    reads the data there, every other address of the caller's pages reads as
    before, and no byte of physical memory outside the frames of the caller's
    page table has changed.  A refused copy answers [InvalidArgument] and
    changes nothing. *)
Theorem copy_to_user_exact (s : PreparedP4Slot) (y : System F) (ptr len : Z) (data : bytes) :
  user_space offset m0 active parts s y -> kernel_wf (y_kernel y) -> program_in_user_space (y_kernel y) -> 0 <= ptr -> Forall is_byte data ->
  exists r y', copy_to_user_buffer offset ptr len data y = Done (r, y') /\
    (is_ok r = true <-> Z.of_nat (length data) <= len /\ range_ok offset WriteAccess ptr (Z.of_nat (length data)) y) /\
    match r with
    | Ok n => n = Z.of_nat (length data) /\ y' = set_memory (memory_of y') y /\
        (forall i b, data !! i = Some b -> user_byte (memory_of y') (y_cr3 y').1 (ptr + Z.of_nat i) = Some b) /\
        (forall v, 0 <= v -> is_Some (slot_addr offset s v) -> v < ptr \/ ptr + n <= v ->
           user_byte (memory_of y') (y_cr3 y').1 v = user_byte (memory_of y) (y_cr3 y).1 v) /\
        kept offset (slot_frames s) (memory_of y) (memory_of y')
    | Err e => e = InvalidArgument /\ y' = y
    end.
Proof.
  intros Hu Hk Hp H0 Hd. destruct (copy_to_user_buffer_spec offset m0 active parts s y Hu Hk Hp ptr len data H0) as (r & y' & E & Hr).
  exists r, y'. split; [done|]. destruct r as [n|e].
  2:{ destruct Hr as (-> & -> & Hn). split; [|done]. split; [done|]. intros [Hle Hro]. destruct Hn; [lia|done]. }
  destruct Hr as (-> & Hle & Hro & m' & -> & Hst). split; [done|].
  destruct (stored_space offset m0 active parts s y ptr data m' Hu Hst) as [Hu' _]. change (memory_of (set_memory m' y)) with m'.
  split; [done|]. split; [done|]. split; [|split; [|apply (sd_kept _ _ _ _ _ _ Hst)]].
  - intros i b Hi. pose proof (lookup_lt_Some _ _ _ Hi). pose proof (ro_end _ _ _ _ _ Hro).
    destruct (may_phys offset m0 active parts s y WriteAccess (ptr + Z.of_nat i) Hu) as [Ha _]; [unfold user_address, USER_END in *; lia|apply (ro_may _ _ _ _ _ Hro); lia|].
    rewrite (slot_user_view s (set_memory m' y)) by (done || lia). change (memory_of (set_memory m' y)) with m'. rewrite (sd_user _ _ _ _ _ _ Hst) by done.
    rewrite (proj2 (Z.leb_le _ _)), (proj2 (Z.ltb_lt _ _)) by lia. cbn [andb]. replace (Z.to_nat (ptr + Z.of_nat i - ptr)) with i by lia.
    rewrite (nth_lookup_Some _ _ _ _ Hi). f_equal. apply (Forall_lookup_1 _ _ _ _ Hd) in Hi. unfold is_byte in Hi. apply Z.mod_small. lia.
  - intros v Hv [a Ha] Hout. assert (slot_addr offset s v = Some (phys offset s v)) as Ha' by (unfold phys; by rewrite Ha).
    rewrite (slot_user_view s (set_memory m' y)), (slot_user_view s y) by done. change (memory_of (set_memory m' y)) with m'. rewrite (sd_user _ _ _ _ _ _ Hst) by done.
    replace ((ptr <=? v) && _) with false; [done|]. symmetry. apply andb_false_iff. rewrite Z.leb_gt, Z.ltb_ge. lia.
Qed.
End user_memory.

(** ** Traps *)

Section traps.
Context `{Laws : EntryLaws} {F : Type}.
Context (offset : Z) (m0 : memory) (active : Z) (parts : list (list Z)).
Context (mounts : list (Mount F)) (images : list UserlandImage).
Context (good : F -> Prop) (off_ok : F -> VfsNodeId -> nat -> Prop) {Fs : FsLaws mounts good off_ok}.

(** C1. Every system call returns.  From a good state of the system in which
    the counters of the kernel have room, whatever the system call number and the
    arguments, the trap handler neither panics nor
    faults on user memory nor loops; it leaves a good state, the loaded page
    table is still the caller's, and no page of any other process has a byte
    changed. *)
Theorem syscall_trap_safe (s : PreparedP4Slot) (y : System F) (frame : SyscallFrame) :
  sys_ok offset m0 active parts good off_ok s y -> has_room y -> frame_ok frame ->
  exists r y', syscall_interrupt_dispatch offset mounts images frame y = Done (r, y') /\
    sys_ok offset m0 active parts good off_ok s y' /\ y_cr3 y' = y_cr3 y /\
    kept offset (slot_frames s) (memory_of y) (memory_of y') /\
    forall s' i v o, s' ∈ live_slots (pool_of y) -> sl_p4_frame s' <> (y_cr3 y).1 ->
      slot_pages (sl_program_frame_count s') !! i = Some v -> 0 <= o < PAGE_SIZE ->
      user_byte offset (memory_of y') (sl_p4_frame s') (v + o) = user_byte offset (memory_of y) (sl_p4_frame s') (v + o).
Proof using Laws Fs.
  intros Hy Hr Hf. pose proof (trap_returns (b := false) offset m0 active parts mounts images good off_ok s y frame Hy Hr Hf ltac:(done)) as Ht.
  unfold returns, wp in Ht. destruct (syscall_interrupt_dispatch offset mounts images frame y) as [[r y']|]; [|done].
  destruct Ht as [Hy' Hkept Hcr3 _ _ _ _]. exists r, y'. split_and!; [done..|]. intros s' i v o Hs' Hne Hv Ho.
  pose proof (so_space _ _ _ _ _ _ _ _ Hy) as Hu. pose proof (so_space _ _ _ _ _ _ _ _ Hy') as Hu'.
  exact (other_slots_kept offset m0 active parts s y (memory_of y') Hu (memory_bytes offset m0 active parts s y' Hu') Hkept s' i v o Hs' Hne Hv Ho).
Qed.
End traps.

(** ** A concrete system

    The boot of [PrivateProcess]: a process runs the program of the ELF image
    [demo_elf] with the argument "/README", on the table of one slot. *)

Lemma levels_no_user offset m l levels fs f ix :
  levels_closed offset m (fs :: levels) = true -> length levels = l -> f ∈ fs -> ix_ok ix ->
  forallb (fun p1 => forallb (fun i => negb (flags_allow_user_access (entry_flags (table_entry m offset p1 (Z.of_nat i))) ReadAccess)) (seq 0 512)) (List.last (fs :: levels) []) = true ->
  user_may ReadAccess (leaf offset m l f ix) = false.
Proof.
  revert l fs f. induction levels as [|gs levels IH]; intros l fs f Hc Hl Hf Hix Hall; cbn [length] in Hl; subst l; cbn [leaf].
  - cbn [List.last] in Hall. rewrite forallb_forall in Hall. specialize (Hall f (proj1 (list_elem_of_In _ _) Hf)). rewrite forallb_forall in Hall.
    specialize (Hall (Z.to_nat (ix O))). pose proof (Hix O) as Hr. rewrite Z2Nat.id in Hall by lia. unfold user_may. cbn [lf_level lf_user lf_entry Nat.eqb andb]. rewrite <-flags_allow_eq.
    apply negb_true_iff, Hall, in_seq. lia.
  - cbn [levels_closed] in Hc. apply andb_true_iff in Hc as [Hgo Hc].
    destruct (entry_frame _) as [g|] eqn:E; [|done].
    assert (user_may ReadAccess (leaf offset m (length levels) g ix) = false) as Hg.
    { apply (IH (length levels) gs g); try done. unfold leads_to in Hgo. rewrite forallb_forall in Hgo.
      specialize (Hgo f (proj1 (list_elem_of_In _ _) Hf)). rewrite forallb_forall in Hgo. pose proof (Hix (S (length levels))) as Hr.
      specialize (Hgo (Z.to_nat (ix (S (length levels))))). rewrite Z2Nat.id, E in Hgo by lia.
      apply existsb_exists in Hgo as (x & Hx & ->%Z.eqb_eq); [by apply list_elem_of_In|]. apply in_seq. lia. }
    unfold user_may in *. cbn [lf_level lf_user lf_entry].
    destruct (lf_level _ =? 0)%nat; cbn [andb] in *; [|done]. destruct (lf_user _); cbn [andb] in *; [|by rewrite andb_false_r].
    rewrite Hg. by rewrite andb_false_r.
Qed.

Lemma demo_boot_private count : boot_private demo_offset demo_tables 0x1000 count.
Proof.
  intros v _ _. apply (levels_no_user demo_offset demo_tables 3 [[0x2000]; [0x3000]; [0x4000; 0x5000]] [0x1000]);
    [vm_compute; reflexivity|done|by constructor|apply indexes_ok|vm_compute; reflexivity].
Qed.

(** The memory after the program was prepared. *)
Lemma demo_prepared : exists parts ad s,
  pool_state demo_offset demo_tables 0x1000 parts (ad_pool ad) (ad_mem ad) /\ ad_offset_value ad = demo_offset /\ s ∈ live_slots (ad_pool ad) /\
  page_flags demo_offset s (ad_mem ad) 0x1000000 = flag_bits user_code_page_flags /\
  page_flags demo_offset s (ad_mem ad) 0x13ff000 = flag_bits user_data_page_flags /\ sl_program_frame_count s = 1%nat /\
  forall w, 0x1000000 <= w < 0x1001000 -> user_byte demo_offset (ad_mem ad) (sl_p4_frame s) w =
    Some (arg_area (str "/README") (overlay demo_elf [demo_segment] (fun _ => 0)) w).
Proof.
  destruct demo_taken as (parts & ad & i & s & t & Hps & Ho & Hi & Ht & Hu & Hc).
  assert (ad_offset_value ad = demo_offset /\ demo_offset <> 0) as Ho' by (split; [exact Ho|discriminate]).
  pose proof (demo_request s Hc) as Hrq.
  destruct (prepare_process_spec demo_offset demo_tables 0x1000 parts i s t ad demo_layout 1 0 demo_elf (str "/bin/cat") (str "/README")
    (Ok [demo_segment]) (Ok (mkElf 0x1000000 64 56 1)) demo_protection Hps Ho' Hi Ht Hrq 0x1000 (or_introl eq_refl)) as (m' & st & img & sf & _ & _ & _ & _ & [Hst Hkept Hprog _ Hfl Hsfl]).
  set (in_use := <[0%nat := true]> (sl_stack_in_use s)). set (upd := fun s0 : PreparedP4Slot => s0 <| sl_stack_in_use := in_use |>).
  pose proof (pool_state_after demo_offset demo_tables 0x1000 parts i s t ad demo_layout 1 0 demo_elf (str "/bin/cat") (str "/README")
    (Ok [demo_segment]) (Ok (mkElf 0x1000000 64 56 1)) demo_protection Hps Hi Ht Hu Hrq m' Hst Hkept) as Hps'.
  exists parts, (mkAddr (mark_stack (sl_p4_frame s) in_use (ad_pool ad)) (Some demo_offset) demo_offset m'), (upd s). cbn [ad_pool ad_mem ad_offset_value].
  split; [exact Hps'|]. split; [reflexivity|]. split.
  { unfold mark_stack. rewrite update_live_slots. fold upd.
    destruct (find_split (fun s0 => sl_p4_frame s0 =? sl_p4_frame s) (live_slots (ad_pool ad)) s) as (l1 & l2 & _ & E);
      [apply (find_unique sl_p4_frame (live_slots (ad_pool ad)) i); [apply (ps_wf _ _ _ _ _ _ Hps)|exact Hi]|].
    rewrite E. apply elem_of_app. right. apply list_elem_of_here. }
  split; [exact (Hfl 0%nat ltac:(lia))|].
  split; [exact (Hsfl 3%nat ltac:(lia))|]. split; [exact Hc|].
  intros w Hw. change (sl_p4_frame (upd s)) with (sl_p4_frame s).
  rewrite (program_user_byte demo_offset demo_tables 0x1000 m' t s w Hst).
  2:{ rewrite Hc. exact Hw. }
  f_equal. exact (Hprog w Hw).
Qed.

(** The process runs; [f] is the frame of its page table. *)
Definition demo_start (f : Z) : M Kernel () :=
  pid ← Table.create_process None (str "cat") (str "/bin/cat") Arg.empty (Space.verified_prepared_user 0x1000000 demo_layout f);
  Table.mark_running pid;;
  Current.set_current_user (Some pid) (Some 1).

Definition demo_user_kernel (ad : AddrState) (f : Z) : Kernel :=
  match demo_start f boot_kernel with Done (_, k) => k <| k_addr := ad |> | Panic => boot_kernel end.

Definition demo_system (ad : AddrState) (f : Z) : System (FsState SimDisk) :=
  mkSystem (demo_user_kernel ad f) (f, 0) None demo_fs [] [] 0 0 (mkDevices [] [] [] Uart.new).

Definition demo_mounts : list (Mount (FsState SimDisk)) := ROOT_MOUNTS [] [] [] [] [].

Lemma demo_kernel_ok ad f : pool_wf (ad_pool ad) -> kernel_ok (demo_user_kernel ad f).
Proof.
  intros Hp. split.
  - apply kernel_check; [vm_compute; reflexivity|exact Hp].
  - unfold infos_ok. assert (infos (demo_user_kernel ad f) = [(1, mkInfo Path.root Credentials.root Arg.empty demo_layout (Some f))]) as -> by (vm_compute; reflexivity).
    constructor; [|constructor]. split; cbn [snd in_cwd in_credentials in_arg in_layout].
    + exact root_path_ok.
    + exists (str "root"). vm_compute. reflexivity.
    + exists []. vm_compute. reflexivity.
    + vm_compute. discriminate.
  - split; (apply Forall_forall; intros e He; cut (e = None); [intros ->; exact I|]).
    all: vm_compute in He; repeat (apply elem_of_cons in He as [->|He]; [reflexivity|]); by apply elem_of_nil in He.
  - vm_compute. split; discriminate.
Qed.

Lemma demo_addr ad f : k_addr (demo_user_kernel ad f) = ad.
Proof.
  unfold demo_user_kernel. assert (match demo_start f boot_kernel with Done _ => True | Panic => False end) as H by (vm_compute; exact I).
  destruct (demo_start f boot_kernel) as [[? k]|]; [reflexivity|destruct H].
Qed.

#[export] Instance demo_fs_laws : FsLaws demo_mounts fs_good (fs_off []).
Proof. apply root_laws. cbn. lia. Qed.

Lemma demo_space parts ad s : pool_state demo_offset demo_tables 0x1000 parts (ad_pool ad) (ad_mem ad) ->
  ad_offset_value ad = demo_offset -> s ∈ live_slots (ad_pool ad) ->
  user_space demo_offset demo_tables 0x1000 parts s (demo_system ad (sl_p4_frame s)).
Proof.
  intros Hp Ho Hs. split; unfold pool_of, memory_of; cbn [y_kernel demo_system]; rewrite ?demo_addr.
  - exact Hp.
  - exact Ho.
  - discriminate.
  - apply list_elem_of_fmap_2. exact Hs.
  - apply (live_slot_wf (ad_pool ad)); [apply (ps_wf _ _ _ _ _ _ Hp)|exact Hs].
  - reflexivity.
  - apply demo_boot_private.
Qed.

Lemma demo_sys_ok parts ad s : pool_state demo_offset demo_tables 0x1000 parts (ad_pool ad) (ad_mem ad) ->
  ad_offset_value ad = demo_offset -> s ∈ live_slots (ad_pool ad) ->
  sys_ok demo_offset demo_tables 0x1000 parts fs_good (fs_off []) s (demo_system ad (sl_p4_frame s)).
Proof.
  intros Hp Ho Hs. split; cbn [y_kernel demo_system].
  - apply demo_space; assumption.
  - apply demo_kernel_ok, (ps_wf _ _ _ _ _ _ Hp).
  - exact demo_fs_good.
  - assert (files_of (demo_system ad (sl_p4_frame s)) = replicate 16 None) as -> by (vm_compute; reflexivity). apply Forall_replicate. exact I.
  - exact uart_new_wf.
Qed.

(** The access a page grants by its flags. *)
Lemma demo_may parts ad s page access w : pool_state demo_offset demo_tables 0x1000 parts (ad_pool ad) (ad_mem ad) -> s ∈ live_slots (ad_pool ad) ->
  page ∈ slot_pages (sl_program_frame_count s) -> flags_allow_user_access (page_flags demo_offset s (ad_mem ad) page) access = true ->
  0 <= page -> page mod PAGE_SIZE = 0 -> page <= w < page + PAGE_SIZE -> may_access demo_offset access (demo_system ad (sl_p4_frame s)) w.
Proof.
  intros Hp [i Hi]%list_elem_of_lookup Hpage Hfl H0 Ha Hw.
  destruct (Forall2_lookup_l _ _ _ _ _ (ps_slots _ _ _ _ _ _ Hp) Hi) as (t & _ & Hst).
  destruct (slot_page_leaf demo_offset demo_tables 0x1000 t s _ page Hst Hpage) as (f & j & _ & _ & e & Hl & _).
  unfold may_access, memory_of. cbn [y_kernel y_cr3 demo_system fst]. rewrite demo_addr.
  assert (page_number page = page_number w) as En.
  { unfold page_number, PAGE_SIZE in *. pose proof (Z.div_mod w 4096). pose proof (Z.mod_pos_bound w 4096). pose proof (Z.div_mod page 4096). lia. }
  rewrite <-(same_page_leaf demo_offset (ad_mem ad) 3 (sl_p4_frame s) page w) by (done || lia).
  unfold page_flags in Hfl. rewrite Hl in *. unfold user_may. rewrite <-flags_allow_eq. by destruct access.
Qed.

Lemma demo_range ad f access ptr len : pool_wf (ad_pool ad) -> 0 < ptr -> 0 < len -> ptr + len <= USER_END ->
  (0x1000000 <=? ptr) && (ptr + len <=? 0x1001000) || ((0x13fc000 <=? ptr) && (ptr + len <=? 0x1400000) || false) = true ->
  (forall v, ptr <= v < ptr + len -> may_access demo_offset access (demo_system ad f) v) -> range_ok demo_offset access ptr len (demo_system ad f).
Proof.
  intros Hpw H1 H2 H3 Ho Hm. pose proof (ko_wf _ (demo_kernel_ok ad f Hpw)) as Hk.
  assert (exists p, Current.current_process (demo_user_kernel ad f) = Some p /\ as_layout (pr_address_space p) = demo_layout /\ as_p4_frame (pr_address_space p) = Some f /\
    map (fun t => (th_user_stack_start t, th_user_stack_top t)) (ts_items (pr_threads p)) = [(Some 0x13fc000, Some 0x1400000)]) as (p & Ep & El & Ef & Et).
  { assert (exists p, Current.current_process (demo_user_kernel ad f) = Some p) as [p Ep] by (vm_compute; eexists; reflexivity).
    exists p. split; [exact Ep|]. revert Ep. generalize p. vm_compute. intros q Hq. injection Hq as <-. repeat split. }
  split; [exact H1|exact H2|exact H3| | |exact Hm]; cbn [y_kernel demo_system y_cr3 fst].
  - apply belongs_iff; [exact Hk|]. unfold Current.current_user_range_owned. rewrite Ep, El. cbv zeta. destruct (ts_items (pr_threads p)) as [|t [|]]; try discriminate.
    injection Et as E1 E2. cbn [existsb]. rewrite E1, E2. exact Ho.
  - intros q g Hq%running_process_iff Hg; [|exact Hk]. rewrite Ep in Hq. injection Hq as <-. congruence.
Qed.

(** The argument of the program is read back, and a buffer on its stack is
    written. *)
Lemma demo_argument parts ad s : pool_state demo_offset demo_tables 0x1000 parts (ad_pool ad) (ad_mem ad) -> s ∈ live_slots (ad_pool ad) ->
  page_flags demo_offset s (ad_mem ad) 0x1000000 = flag_bits user_code_page_flags -> sl_program_frame_count s = 1%nat ->
  range_ok demo_offset ReadAccess 0x1000340 7 (demo_system ad (sl_p4_frame s)).
Proof.
  intros Hp Hs Hfl Hc. apply demo_range; [apply (ps_wf _ _ _ _ _ _ Hp)|reflexivity|reflexivity|discriminate|reflexivity|].
  intros v Hv. apply (demo_may parts ad s 0x1000000); [exact Hp|exact Hs| |rewrite Hfl; reflexivity|lia|reflexivity|unfold PAGE_SIZE; lia].
  rewrite Hc. apply list_elem_of_In. vm_compute. auto.
Qed.

Lemma demo_buffer parts ad s : pool_state demo_offset demo_tables 0x1000 parts (ad_pool ad) (ad_mem ad) -> s ∈ live_slots (ad_pool ad) ->
  page_flags demo_offset s (ad_mem ad) 0x13ff000 = flag_bits user_data_page_flags -> sl_program_frame_count s = 1%nat ->
  range_ok demo_offset WriteAccess 0x13ff100 4 (demo_system ad (sl_p4_frame s)).
Proof.
  intros Hp Hs Hfl Hc. apply demo_range; [apply (ps_wf _ _ _ _ _ _ Hp)|reflexivity|reflexivity|discriminate|reflexivity|].
  intros v Hv. apply (demo_may parts ad s 0x13ff000); [exact Hp|exact Hs| |rewrite Hfl; reflexivity|lia|reflexivity|unfold PAGE_SIZE; lia].
  rewrite Hc. apply list_elem_of_In. vm_compute. tauto.
Qed.

Lemma read_user_exact_witness : exists parts ad s bs,
  user_space demo_offset demo_tables 0x1000 parts s (demo_system ad (sl_p4_frame s)) /\
  read_user_bytes demo_offset 0x1000340 7 (demo_system ad (sl_p4_frame s)) = Done (Ok bs, demo_system ad (sl_p4_frame s)) /\ bs = str "/README".
Proof.
  destruct demo_prepared as (parts & ad & s & Hp & Ho & Hs & Hfl & _ & Hc & Hb). exists parts, ad, s.
  pose proof (demo_sys_ok parts ad s Hp Ho Hs) as Hy. pose proof (ko_wf _ (so_kernel _ _ _ _ _ _ _ _ Hy)) as Hk. pose proof (sys_program _ _ _ _ _ _ _ _ Hy) as Hprog.
  pose proof (demo_space parts ad s Hp Ho Hs) as Hu. pose proof (demo_argument parts ad s Hp Hs Hfl Hc) as Hr.
  destruct (read_user_exact demo_offset demo_tables 0x1000 parts s (demo_system ad (sl_p4_frame s)) 0x1000340 7 Hu Hk Hprog) as (r & E & Hok & Hbs);
    [discriminate|discriminate|].
  destruct r as [bs|e]; [|apply Hok in Hr; discriminate Hr]. exists bs. split; [exact Hu|]. split; [exact E|].
  destruct Hbs as [Hl Hbs]. apply (nth_ext _ _ 0 0); [exact Hl|]. rewrite Hl. intros i Hi.
  destruct (lookup_lt_is_Some_2 bs i) as [b Eb]; [rewrite Hl; exact Hi|]. rewrite (nth_lookup_Some _ _ _ _ Eb). apply Hbs in Eb. revert Eb.
  unfold memory_of. cbn [y_kernel y_cr3 demo_system fst]. rewrite demo_addr, Hb by (change (Z.to_nat 7) with 7%nat in Hi; lia).
  intros [= <-]. change (Z.to_nat 7) with 7%nat in Hi. do 7 (destruct i as [|i]; [vm_compute; reflexivity|]). lia.
Defined.

Lemma copy_to_user_exact_witness : exists parts ad s y',
  copy_to_user_buffer demo_offset 0x13ff100 16 (str "root") (demo_system ad (sl_p4_frame s)) = Done (Ok 4, y') /\
  user_space demo_offset demo_tables 0x1000 parts s (demo_system ad (sl_p4_frame s)) /\
  user_byte demo_offset (memory_of y') (y_cr3 y').1 0x13ff101 = Some 111.
Proof.
  destruct demo_prepared as (parts & ad & s & Hp & Ho & Hs & _ & Hfl & Hc & _). exists parts, ad, s.
  pose proof (demo_sys_ok parts ad s Hp Ho Hs) as Hy. pose proof (ko_wf _ (so_kernel _ _ _ _ _ _ _ _ Hy)) as Hk. pose proof (sys_program _ _ _ _ _ _ _ _ Hy) as Hprog.
  pose proof (demo_space parts ad s Hp Ho Hs) as Hu. pose proof (demo_buffer parts ad s Hp Hs Hfl Hc) as Hr.
  destruct (copy_to_user_exact demo_offset demo_tables 0x1000 parts s (demo_system ad (sl_p4_frame s)) 0x13ff100 16 (str "root") Hu Hk Hprog) as (r & y' & E & Hok & Hd);
    [discriminate|repeat constructor; discriminate|]. exists y'.
  destruct r as [n|e]; [|assert (false = true) as Hf; [apply Hok; split; [discriminate|exact Hr]|discriminate Hf]].
  destruct Hd as (-> & _ & Hb & _). split; [exact E|]. split; [exact Hu|]. exact (Hb 1%nat 111 eq_refl).
Defined.

Definition demo_frame (number a0 a1 a2 a3 : Z) : SyscallFrame :=
  mkFrame number a0 a1 a2 a3 0 0 0x1000000 0x13fff00 0x202 0 0 0 0 0 0 0 0 0 0 0 0 0 0.

Lemma syscall_trap_safe_witness : exists parts ad s r y',
  syscall_interrupt_dispatch demo_offset demo_mounts [] (demo_frame SYS_OPEN 0x1000340 7 0 0) (demo_system ad (sl_p4_frame s)) = Done (r, y') /\
  sys_ok demo_offset demo_tables 0x1000 parts fs_good (fs_off []) s y'.
Proof.
  destruct demo_prepared as (parts & ad & s & Hp & Ho & Hs & _). exists parts, ad, s.
  destruct (syscall_trap_safe demo_offset demo_tables 0x1000 parts demo_mounts [] fs_good (fs_off []) s (demo_system ad (sl_p4_frame s))
    (demo_frame SYS_OPEN 0x1000340 7 0 0)) as (r & y' & E & Hy & _).
  - apply demo_sys_ok; assumption.
  - vm_compute. repeat split; discriminate || reflexivity.
  - vm_compute. repeat split; discriminate.
  - exists r, y'. split; [exact E|exact Hy].
Defined.
