(* ===== verification/Runs.v ===== *)
(** * Runs of the system

    What happens on the processor once programs have been started, as a
    sequence of events: a store of user code, a system call, the landing after
    one that leaves its thread, the timer, exceptions and page faults, and the
    rounds of the kernel's event loop.  No event panics, faults in the kernel
    or loops, user code only ever runs on the page table of its own process,
    and no event changes the memory of a process that is not running. *)

From S2P Require Import Prelude Utf8 Paths Vfs RamFs RamFsProofs FsLaws RamFsLaws Ring3 Ring3Proofs Elf ElfProofs AddrSpace AddrSpaceProofs PageTables PageTablesProofs PrivateTables PrivateMem PrivateProcess UserAccess Threads Program Ipc IpcProofs Process TableSafety Views Scheduling Signals Lifecycle Current CurrentProofs Text TextProofs Storage Persist PersistMount Mounts System Syscall UserMemory KernelSafety SyscallRules SyscallSafety UserMode Runtime RuntimeProofs SyscallTheorems.
Import Mounts.

(** Where the processor is: in user code on the page table of the process, in
    user code of a process without one, on the way out of a system call that
    leaves its thread, in the kernel's event loop, or switched off. *)
Inductive place := InUser | OnShared | Leaving | InKernel | Off.

Inductive event :=
  | Store (v b rip : Z)
  | Trap (frame : SyscallFrame)
  | Land
  | Tick (context : UserResumeContext)
  | Raise (e : Exception) (rip code_segment : Z)
  | PageFault (addr rip : Z)
  | KernelTick
  | Round (signal : option Z)
  | Keys (pending : bytes).

Definition enabled (p : place) (e : event) : bool :=
  match p, e with
  | InUser, (Store _ _ _ | Trap _ | Tick _ | Raise _ _ _ | PageFault _ _ | Keys _) => true
  | Leaving, Land => true
  | InKernel, (KernelTick | Round _ | Keys _) => true
  | _, _ => false
  end.

(** What the hardware delivers: canonical addresses, register contents, an
    exception from Ring 3. *)
Definition event_ok (e : event) : Prop :=
  match e with
  | Store v _ _ => user_address v \/ 2 ^ 64 - 2 ^ 47 <= v < 2 ^ 64
  | Trap frame => frame_ok frame
  | Raise _ _ code_segment => Z.land code_segment 3 = 3
  | _ => True
  end.

Section runs.
Context `{Laws : EntryLaws} {F : Type}.
Context (offset : Z) (m0 : memory) (active : Z) (parts : list (list Z)).
Context (mounts : list (Mount F)) (images : list UserlandImage).
Context (good : F -> Prop) (off_ok : F -> VfsNodeId -> nat -> Prop) {Fs : FsLaws mounts good off_ok}.
Implicit Types y : System F.
Notation sys_ok := (sys_ok offset m0 active parts good off_ok).
Notation between := (between offset m0 active parts good off_ok).
Notation calm := (calm offset m0 active parts good off_ok).
Notation landed := (landed offset m0 active parts good off_ok).

(** ** The events *)

(** Whether the process has a page table of its own. *)
Definition resumed : M (System F) place :=
  k ← kernel;
  mret (match p ← Current.current_process k; as_p4_frame (pr_address_space p) with Some _ => InUser | None => OnShared end).

Definition goes (t : Transfer) : M (System F) place := match t with EventLoop => mret InKernel | _ => resumed end.

Definition react (p : place) (e : event) : M (System F) place :=
  match e with
  | Store v b rip =>
    y ← get;
    if user_may WriteAccess (leaf offset (memory_of y) 3 (y_cr3 y).1 (indexes v))
    then store_byte offset v b;; mret InUser
    else t ← page_fault_handler true v rip; goes t
  | Trap frame =>
    r ← syscall_interrupt_dispatch offset mounts images frame;
    mret (match r with
          | Returns rax => if rax =? SYSCALL_RETURN_TO_KERNEL then Leaving else InUser
          | Rebooted => Off
          end)
  | Land => t ← user_exit_landing; goes t
  | Tick context => r ← timer_interrupt_dispatch (Some context); if is_some r then resumed else mret InUser
  | Raise e rip code_segment => t ← exception_handler e rip code_segment; goes t
  | PageFault addr rip => t ← page_fault_handler true addr rip; goes t
  | KernelTick => timer_interrupt_dispatch None;; mret InKernel
  | Round signal => r ← run_ready_user_process signal; match r.2 with Some t => goes t | None => mret InKernel end
  | Keys pending => modify (fun y => y <| y_keys := pending |>);; mret p
  end.

(** The counters of the kernel have room for one more event. *)
Definition spare y : Prop :=
  has_room y /\ switches (y_kernel y) + 2 <= u64_max /\ (k_ticks (y_kernel y) + 1) * 1000 <= u64_max.

Inductive reach (p0 : place) (y0 : System F) : place -> System F -> Prop :=
  | reach_start : reach p0 y0 p0 y0
  | reach_step p y e p' y' : reach p0 y0 p y -> enabled p e = true -> event_ok e -> spare y ->
      react p e y = Done (p', y') -> reach p0 y0 p' y'.

(** ** What holds along a run *)

(** A thread of a process is on the processor, and the loaded page table is
    that of the process, which is one of the pool. *)
Definition running y : Prop := exists s pid tid,
  s ∈ live_slots (pool_of y) /\ (y_cr3 y).1 = sl_p4_frame s /\
  on_processor (y_kernel y) pid tid /\ (pid, Some (sl_p4_frame s)) ∈ places (y_kernel y).

Definition well (p : place) y : Prop := between y /\ (p = InUser -> running y).

(** The pages of the processes that are not running read as before. *)
Definition others_kept (p : place) y y' : Prop := forall s i v o, s ∈ live_slots (pool_of y) -> (p = InUser -> sl_p4_frame s <> (y_cr3 y).1) ->
  slot_pages (sl_program_frame_count s) !! i = Some v -> 0 <= o < PAGE_SIZE ->
  user_byte offset (memory_of y') (sl_p4_frame s) (v + o) = user_byte offset (memory_of y) (sl_p4_frame s) (v + o).

Definition handled (p : place) y (p' : place) y' : Prop := well p' y' /\ others_kept p y y'.

Lemma running_sys_ok y : between y -> running y -> exists s, sys_ok s y /\ s ∈ live_slots (pool_of y) /\ (y_cr3 y).1 = sl_p4_frame s.
Proof using. intros Hy (s & pid & tid & Hs & Hc & _). exists s. split; [by apply between_sys_ok|done]. Qed.

Lemma calm_handled p y p' y' : calm y y' -> (p' = InUser -> running y') -> handled p y p' y'.
Proof using. intros [Hb Em _] Hr. split; [done|]. intros s i v o _ _ _ _. by rewrite Em. Qed.

Lemma resumed_running y y1 p : calm y y1 -> inside y1 -> wp resumed (handled p y) y1.
Proof using.
  intros Hc (pid & tid & p4 & Ho & Hp & Hcr3). unfold resumed, kernel. apply wp_gets. apply wp_ret. pose proof (ca_between _ _ _ _ _ _ _ _ Hc) as Hb.
  apply calm_handled; [done|]. pose proof Ho as [Hcur [q Hq]]. unfold Current.current_process. unfold cur in Hcur. injection Hcur as -> _.
  cbn [mbind option_bind]. rewrite Hq. cbn [mbind option_bind]. destruct (as_p4_frame (pr_address_space q)) as [f|] eqn:Ef; [intros _|done].
  assert (p4 = Some f) as ->.
  { rewrite <- Ef. apply list_elem_of_fmap in Hp as (q' & [= -> ->] & Hq'). do 2 f_equal.
    pose proof (find_process_elem _ _ _ (ko_wf _ (bw_kernel _ _ _ _ _ _ _ Hb)) Hq'). congruence. }
  destruct (bw_places _ _ _ _ _ _ _ Hb _ _ Hp) as (s & Hs & <-). exists s, pid, tid. split; [done|]. split; [by apply Hcr3|done].
Qed.

Lemma goes_handled y y1 t p : landed y t y1 -> wp (goes t) (handled p y) y1.
Proof using.
  intros [Hc Ht]. destruct t; [apply wp_ret; by apply calm_handled|done|by apply resumed_running].
Qed.

(** *** Events of user code *)

Lemma after_running b s y y' : after offset m0 active parts good off_ok s b y y' -> cur (y_kernel y') = cur (y_kernel y) -> running y -> running y'.
Proof using.
  intros Ha Hc (s1 & pid & tid & Hs & Hcr3 & Ho & Hp).
  destruct (same_ids _ _ s1 (eq_sym (af_ids _ _ _ _ _ _ _ _ _ _ Ha)) Hs) as (s2 & Hs2 & E & _). exists s2, pid, tid.
  rewrite E, (af_cr3 _ _ _ _ _ _ _ _ _ _ Ha), (af_places _ _ _ _ _ _ _ _ _ _ Ha). split; [done|]. split; [done|]. split; [|done].
  split; [rewrite Hc; apply Ho|]. rewrite places_find, (af_places _ _ _ _ _ _ _ _ _ _ Ha), <- places_find. apply Ho.
Qed.

Lemma after_handled b s y p' y' : between y -> sys_ok s y -> after offset m0 active parts good off_ok s b y y' -> (p' = InUser -> running y') -> handled InUser y p' y'.
Proof using Laws.
  intros Hb Hy Ha Hr. split; [split; [by eapply between_after|done]|]. intros s' i v o Hs' Hne Hv Ho.
  pose proof (so_space _ _ _ _ _ _ _ _ Hy) as Hu. pose proof (so_space _ _ _ _ _ _ _ _ (af_ok _ _ _ _ _ _ _ _ _ _ Ha)) as Hu'.
  exact (other_slots_kept offset m0 active parts s y (memory_of y') Hu (memory_bytes offset m0 active parts s y' Hu') (af_memory _ _ _ _ _ _ _ _ _ _ Ha) s' i v o Hs' (Hne eq_refl) Hv Ho).
Qed.

Lemma store_handled v b rip y : well InUser y -> spare y -> event_ok (Store v b rip) -> wp (react InUser (Store v b rip)) (handled InUser y) y.
Proof using Laws.
  intros [Hb Hr] (_ & Hs & _) Hv. specialize (Hr eq_refl). destruct (running_sys_ok y Hb Hr) as (s & Hy & _). cbn [react]. apply wp_bind.
  change (wp get ?Q y) with (Q y y). cbv beta. destruct (user_may _ _) eqn:Hmay.
  - pose proof (may_lower offset m0 active parts s y WriteAccess v (so_space _ _ _ _ _ _ _ _ Hy) Hv Hmay) as Hl.
    destruct (store_byte_spec offset m0 active parts s y v b (so_space _ _ _ _ _ _ _ _ Hy) Hl Hmay) as (m' & E & Hst).
    apply wp_bind. unfold wp at 1. rewrite E. apply wp_ret. pose proof (memory_after (b := true) offset m0 active parts good off_ok s y v [b] m' Hy Hst) as Ha.
    eapply after_handled; [done|exact Hy|exact Ha|]. intros _. eapply after_running; [exact Ha|by apply Ha|done].
  - apply wp_bind. eapply wp_mono; [by apply fault_landed|]. intros t y1. apply goes_handled.
Qed.

Lemma trap_handled frame y : well InUser y -> spare y -> frame_ok frame -> wp (react InUser (Trap frame)) (handled InUser y) y.
Proof using Laws Fs.
  intros [Hb Hr] (Hroom & _) Hf. specialize (Hr eq_refl). destruct (running_sys_ok y Hb Hr) as (s & Hy & _). pose proof Hr as (_ & pid & tid & _ & _ & Ho & _).
  cbn [react]. apply wp_bind.
  eapply wp_mono; [apply wp_and; [by apply (trap_returns (b := false) offset m0 active parts mounts images good off_ok s y frame)|
    by apply (trap_stays offset m0 active parts mounts images good off_ok s y frame pid tid)]|].
  intros r y' [Ha Hst]. apply wp_ret. eapply after_handled; [done|exact Hy|exact Ha|]. intros Hp. eapply after_running; [exact Ha| |done].
  destruct Hst as [->|Hst]; [|done]. by rewrite Z.eqb_refl in Hp.
Qed.

Lemma calm_running y y' : calm y y' -> cur (y_kernel y') = cur (y_kernel y) -> places (y_kernel y') = places (y_kernel y) -> y_cr3 y' = y_cr3 y ->
  running y -> running y'.
Proof using.
  intros Hc Ecur Ep Ec (s & pid & tid & Hs & Hcr3 & Ho & Hp). assert ((pid, Some (sl_p4_frame s)) ∈ places (y_kernel y')) as Hp' by by rewrite Ep.
  destruct (bw_places _ _ _ _ _ _ _ (ca_between _ _ _ _ _ _ _ _ Hc) _ _ Hp') as (s' & Hs' & E). exists s', pid, tid. rewrite Ec, E.
  split; [done|]. split; [done|]. split; [|done]. split; [rewrite Ecur; apply Ho|]. rewrite places_find, Ep, <- places_find. apply Ho.
Qed.

Lemma tick_handled c y : well InUser y -> spare y -> wp (react InUser (Tick c)) (handled InUser y) y.
Proof using.
  intros [Hb Hr] (_ & Hs & Ht). specialize (Hr eq_refl). cbn [react]. apply wp_bind. eapply wp_mono; [apply timer_resumed; [done|done|lia]|].
  intros r y' [Hc H]. destruct r as [r|]; cbn [is_some]; [by apply resumed_running|]. destruct H as (E1 & E2 & E3).
  apply wp_ret, calm_handled; [done|]. intros _. by eapply calm_running.
Qed.

Lemma raise_handled e rip cs y : well InUser y -> spare y -> Z.land cs 3 = 3 -> wp (react InUser (Raise e rip cs)) (handled InUser y) y.
Proof using.
  intros [Hb Hr] (_ & Hs & _) Hcs. specialize (Hr eq_refl) as (_ & pid & tid & _ & _ & Ho & _). cbn [react]. unfold exception_handler, is_user_exception. rewrite (proj2 (Z.eqb_eq _ _) Hcs).
  apply wp_bind. eapply wp_mono; [by apply (exception_landed offset m0 active parts good off_ok _ _ y pid tid)|]. intros t y1. apply goes_handled.
Qed.

(** *** Every event *)

Lemma event_handled p e y : well p y -> enabled p e = true -> event_ok e -> spare y -> wp (react p e) (handled p y) y.
Proof using Laws Fs.
  intros Hw He Hok Hs. pose proof Hw as [Hb _]. pose proof Hs as (_ & Hs2 & Ht).
  assert (forall pending, handled p y p (y <| y_keys := pending |>)) as Hkeys.
  { intros pending. split; [|done]. destruct Hw as [[] Hr]. by split. }
  destruct p, e; try discriminate He.
  - by apply store_handled.
  - by apply trap_handled.
  - by apply tick_handled.
  - by apply raise_handled.
  - cbn [react]. apply wp_bind. eapply wp_mono; [by apply fault_landed|]. intros t y1. apply goes_handled.
  - apply Hkeys.
  - cbn [react]. apply wp_bind. eapply wp_mono; [by apply landing_landed|]. intros t y1. apply goes_handled.
  - cbn [react]. apply wp_bind. eapply wp_mono; [apply timer_resumed; [done|done|lia]|]. intros r y' [Hc _]. by apply wp_ret, calm_handled.
  - cbn [react]. apply wp_bind. eapply wp_mono; [apply ready_landed; [done|lia]|]. intros [? [t|]] y' H; [by apply goes_handled|by apply wp_ret, calm_handled].
  - apply Hkeys.
Qed.

(** C2. The whole system, run after run.  Start in a state with the invariant
    [well] and follow any sequence of stores of user code, system calls and their
    landings, timer interrupts, user exceptions, page faults, keys and rounds of
    the event loop, as long as the counters of ticks, switches and ids have room.
    Every event is handled: no handler panics, faults or loops; whenever user code
    of a process with a page table of its own is on the processor, that table is
    loaded; and no event changes a page of a process that is not running.
    Starting a further program is not among the events, and a run is not
    followed beyond the resumption of a process without a table of its own. *)
Theorem system_runs_safely (p0 : place) (y0 : System F) (p : place) (y : System F) :
  well p0 y0 -> reach p0 y0 p y -> well p y /\
  forall e, enabled p e = true -> event_ok e -> spare y ->
    exists p' y', react p e y = Done (p', y') /\ well p' y' /\ others_kept p y y'.
Proof using Laws Fs.
  intros H0 Hreach. assert (well p y) as Hw.
  { induction Hreach as [|p y e p' y' _ IH He Hok Hs E]; [done|]. pose proof (event_handled p e y IH He Hok Hs) as H. unfold wp in H. rewrite E in H. apply H. }
  split; [done|]. intros e He Hok Hs. pose proof (event_handled p e y Hw He Hok Hs) as H. unfold wp in H.
  destruct (react p e y) as [[p' y']|]; [|done]. by exists p', y'.
Qed.
End runs.

(** ** The program of [SyscallTheorems] *)

Lemma demo_places ad f : places (demo_user_kernel ad f) = [(1, Some f)].
Proof. vm_compute. reflexivity. Qed.

Lemma demo_well parts ad s : pool_state demo_offset demo_tables 0x1000 parts (ad_pool ad) (ad_mem ad) ->
  ad_offset_value ad = demo_offset -> s ∈ live_slots (ad_pool ad) ->
  well demo_offset demo_tables 0x1000 parts fs_good (fs_off []) InUser (demo_system ad (sl_p4_frame s)).
Proof.
  intros Hp Ho Hs. pose proof (demo_sys_ok parts ad s Hp Ho Hs) as [[H1 H2 H3 _ _ _ _] H4 H5 H6 H7].
  assert (s ∈ live_slots (pool_of (demo_system ad (sl_p4_frame s)))) as Hs' by (unfold pool_of; cbn [y_kernel demo_system]; rewrite demo_addr; exact Hs).
  split; [split; try assumption|].
  - intros s' _. apply demo_boot_private.
  - intros f Hf. discriminate Hf.
  - intros pid f. cbn [y_kernel demo_system]. rewrite demo_places. intros [= _ ->]%list_elem_of_singleton. exists s. split; [exact Hs'|reflexivity].
  - intros _. exists s, 1, 1. split; [exact Hs'|]. split; [reflexivity|]. cbn [y_kernel demo_system]. split; [|rewrite demo_places; constructor].
    split; [vm_compute; reflexivity|]. apply places_find. rewrite demo_places. constructor.
Qed.

Lemma system_runs_safely_witness : exists parts ad s p' y', well demo_offset demo_tables 0x1000 parts fs_good (fs_off []) InUser (demo_system ad (sl_p4_frame s)) /\
  react demo_offset demo_mounts [] InUser (Trap (demo_frame SYS_WRITE 1 0x1000340 7 0)) (demo_system ad (sl_p4_frame s) <| y_keys := str "y" |>) = Done (p', y').
Proof.
  destruct demo_prepared as (parts & ad & s & Hp & Ho & Hs & _). exists parts, ad, s. pose proof (demo_well parts ad s Hp Ho Hs) as Hw.
  set (y := demo_system ad (sl_p4_frame s) <| y_keys := str "y" |>).
  destruct (system_runs_safely demo_offset demo_tables 0x1000 parts demo_mounts [] fs_good (fs_off []) InUser (demo_system ad (sl_p4_frame s)) InUser y Hw) as [_ H].
  - apply (reach_step _ _ _ _ _ InUser (demo_system ad (sl_p4_frame s)) (Keys (str "y"))); [constructor|reflexivity|exact I| |reflexivity].
    vm_compute. repeat split; discriminate || reflexivity.
  - destruct (H (Trap (demo_frame SYS_WRITE 1 0x1000340 7 0))) as (p' & y' & E & _); [reflexivity| | |exists p', y'; split; [exact Hw|exact E]];
      vm_compute; repeat split; discriminate || reflexivity.
Defined.
